(* ===== verification/_CoqProject ===== *)
-Q . S2P
Prelude.v
VirtQueue.v
VirtQueueSpec.v
Mmio.v
PciConfig.v
PciConfigSpec.v
VirtioPci.v
VirtioPciSpec.v
Vsock.v
VsockStream.v
VsockStreamSpec.v
VsockVmcall.v
VsockVmcallSpec.v
VsockVirtio.v
VsockVirtioSpec.v
Serial.v
SerialSpec.v
VmcallRaw.v
VmcallRawSpec.v
MigData.v
MigDataSpec.v
PreSession.v
PreSessionSpec.v
Session.v
SessionSpec.v
ServtdExt.v
KeyExchange.v
KeyExchangeSpec.v
Scheduler.v
Rebinding.v
RebindingSpec.v
EventLog.v
PolicyV2.v
PolicyV2Spec.v
Quote.v
MigPolicy.v
MigPolicySpec.v
Logging.v
LoggingSpec.v
PolicyV1.v
PolicyV1Spec.v
X509.v
X509Spec.v
Tls.v
TlsSpec.v
Attest.v
AttestSpec.v
RaTls.v
RaTlsSpec.v
Startup.v
StartupSpec.v
MigtdHash.v
MigtdHashSpec.v
SpdmMsg.v
SpdmMsgSpec.v
SpdmRsp.v
SpdmRspSpec.v
SpdmReq.v
SpdmReqSpec.v
SpdmService.v
SpdmServiceSpec.v
Transport.v
TransportSpec.v
Clock.v
ClockSpec.v
Crash.v
EmuLog.v
EmuLogSpec.v
EmuVmm.v
EmuVmmSpec.v
EmuCallSpec.v
EmuMain.v
EmuMainSpec.v
EmuReport.v
EmuReportSpec.v
PolicyTools.v
PolicyToolsSpec.v
CollateralTool.v
PolicyGen.v
PolicyGenSpec.v
