(* ===== verification/Prelude.v ===== *)
(** * A verification of the migration TD

    MigTD is a small trusted program that runs in a TDX trust domain.  For each
    live migration of a target TD an untrusted VMM asks it to run one request:
    two migration TDs, on the source and on the destination host, connect
    through the VMM, attest each other, agree on a migration protocol version,
    exchange session keys and write both into the target TD through the TDX
    module; a rebinding hands a target TD over to a new migration TD.
    Everything outside the TD is hostile: shared pages change at any moment,
    devices answer anything, the network reorders, drops and replays.

    ** Parts, files and sources (paths below src/src/)

    Prelude          machine integers, outcomes, byte buffers, service pages;
                     shared by every file, models no code of its own.
    VirtQueue[Spec]  devices/virtio/src/virtqueue.rs: the split virtqueue.  The
                     private state is a record, the rings the host can write
                     are replaced by arbitrary ones before each operation.
    Mmio             devices/pci/src/mmio.rs, devices/virtio/src/mem.rs: device
                     address allocation and checked windows over memory.
    PciConfig[Spec]  devices/pci/src/config.rs: configuration space accesses, the
                     search for a device, placing its BARs.
    VirtioPci[Spec]  devices/virtio/src/virtio_pci.rs: the walk over a device's
                     capabilities, its register windows and MSI-X entries.
    Vsock            devices/vsock/src/{lib,protocol}.rs, transport/mod.rs:
                     addresses, errors, packet headers.
    VsockStream[Spec] devices/vsock/src/stream.rs: stream sockets (bind, listen,
                     accept, connect, send, recv, shutdown, reset) over the class
                     [VsockTransport], with the global queues and port table.
    VsockVmcall[Spec] devices/vsock/src/transport/vmcall.rs: the transport over
                     the service TDVMCALL, an instance of that class.
    VsockVirtio[Spec] devices/vsock/src/transport/virtio_pci.rs: the transport over
                     three virtqueues, and its DMA pages.
    VmcallRaw[Spec]  devices/vmcall_raw/src: the raw migration data channel.
    MigData[Spec]    migtd/src/migration/{mod,data}.rs: result codes, request
                     structures and parsers, service pages, HOB lists.
    PreSession[Spec] migtd/src/migration/pre_session_data.rs and async_io: the
                     messages before the secure session, over the class
                     [ByteStream].
    Session[Spec]    migtd/src/migration/session.rs, first part: waiting for
                     requests and reporting their status, over raw TDVMCALLs and
                     over the service call.
    ServtdExt        migtd/src/migration/servtd_ext.rs: SERVTD_EXT and the calls
                     of the TDX module (class [TdxModule]).
    KeyExchange[Spec] migtd/src/migration/session.rs, second part: [exchange_msk]
                     over the class [SecureSession].
    Rebinding[Spec]  migtd/src/migration/rebinding.rs over [RebindSession].
    Scheduler        async/async_runtime/src/executor.rs and [handle_pre_mig] of
                     migtd/src/bin/migtd/main.rs: the executor's rounds and the
                     request loop as a step relation.
    EventLog         migtd/src/event_log.rs over the class [CcLog]: append, parse
                     and replay of the measured event log.
    PolicyV2[Spec]   policy/src/v2: the signed policy, its parsed form, the
                     evaluation of a peer's measurements against it.
    Quote            migtd/src/quote.rs: TD reports and quotes with retries.
    MigPolicy[Spec]  migtd/src/mig_policy.rs, policy version 2: authentication of
                     a peer from its quote or report, policy and event log.
    X509[Spec]       crypto/src and policy/src/v2/collaterals.rs: certificates in DER,
                     the chain check, CRL numbers, the FMSPC of a quote.
    Tls[Spec]        crypto/src/rustls_impl/tls.rs: the TLS channel over a byte
                     stream and the class [Rustls].
    RaTls[Spec]      migtd/src/ratls: the self-signed certificate that carries the
                     evidence, and its verification.
    SpdmMsg[Spec]    migtd/src/spdm/{spdm_vdm,vmcall_msg,mod}.rs: vendor-defined
                     messages, framing, report data.
    SpdmRsp[Spec], SpdmReq[Spec]
                     migtd/src/spdm/{spdm_rsp,spdm_req,spdm_rebind}.rs: the
                     handlers of the responder, the requester, both sessions.
    Serial[Spec]     devices/virtio_serial/src: the serial driver over virtqueues, its
                     control messages and ports.
    PolicyV1[Spec]   policy/src/v1 and the version 1 check of mig_policy.rs: properties,
                     reports, policy blocks, their evaluation.
    Logging[Spec]    migtd/src/migration/logging.rs: the private and shared log areas and
                     the logger that fills them.
    Attest[Spec]     attestation/src: the quote call to the VMM, quotes, verified reports,
                     the root of trust, over the class [AttestLib].
    Startup[Spec]    bin/migtd/main.rs: logging, the measurements of both versions of the
                     policy and the start of the request loop.
    SpdmService[Spec] migration/session.rs and rebinding.rs with spdm_attestation: whole
                     requests over the sessions of SpdmReq and SpdmRsp.
    MigtdHash[Spec]  tools/migtd-hash/src/lib.rs: the measurements and hashes predicted from
                     an image, against Startup and MigPolicy; over the class [ShimTools].
    Transport[Spec]  migration/transport.rs: setting up and shutting down a channel.
    Clock[Spec]      driver/timer.rs, ticks.rs, the timer of driver/serial.rs, sys_time: ticks,
                     timers, the real-time clock; over the classes [Apic] and [TimeCrate].
    Crash            driver/crash.rs, migration/event.rs: crash registers, the notification.
    EmuLog[Spec]     deps/td-shim-AzCVMEmu, logging_emu.rs: the reader of the log areas.
    EmuVmm[Spec]     deps/td-shim-AzCVMEmu, tdx_emu.rs, interrupt-emu: the emulated VMM and
                     TDX module, an instance of [TdxModule]; EmuCallSpec composes it with
                     the raw channel, reports and quotes of the migration TD.
    EmuMain[Spec]    bin/migtd/cvmemu.rs with the firmware volume of the emulator: files,
                     command line, the loop of the emulated process.
    EmuReport[Spec]  deps/td-shim-AzCVMEmu, mock_report.rs, tdreport_emu.rs: TD reports made
                     from quotes, the mock quote service, the vTPM of the host.
    PolicyTools[Spec]    tools/json-signer, servtd-collateral-generator, policy_v2.rs and
                     migtd-policy-verifier: signing and putting together a policy; over the
                     classes [SerdeJson] and [KeyFiles].
    CollateralTool       tools/migtd-collateral-generator: requests, PEM, the collaterals.
    PolicyGen[Spec]  tools/migtd-policy-generator: the version 1 generator.
    A file named ...Spec holds the specification and the theorems of the model
    beside it; small components keep both in one file.

    ** How the parts fit

    Scheduler accepts requests with the parser of Session and runs an operation
    per request; the operations are [exchange_msk] and [start_rebinding].  Both
    set up a transport (VmcallRaw, or VsockStream over VsockVmcall or VsockVirtio,
    which runs on VirtQueue and VirtioPci), run the exchange of PreSession on it,
    then a secure session, and make calls of the TDX module.  The secure session is
    Tls with the certificates of RaTls and X509; instead of both, SPDM messages may
    carry the evidence.  Either way the evidence is made by Quote and judged by
    MigPolicy, which replays the EventLog and evaluates PolicyV2.  Clients are
    proved against classes: KeyExchange and Rebinding against any [ByteStream] and
    session, PreSession against [StreamLaws], VsockStream against any
    [VsockTransport], Tls and the framing of SPDM against a reliable stream.  Where
    two sides meet, the classes [SessionLaws] and [RebindLaws] say what the two ends
    of one session promise, that what one side wrote is what the other side reads
    and that a certificate shows what its maker put into it; what was written is
    left to the code of the other side.  The certificate readers of [PolicyCrypto]
    and [Attestation] are those of X509 ([x509_policy_crypto] and [x509_attestation]
    of RaTlsSpec).

    ** Conventions

    - A Rust function that returns [Result] is a function into [outcome]: [Ok],
      [Err] for a returned error, [Panic] for an abort (index out of range,
      failed assertion, overflow).  Overflow aborts as in the [dev] profile;
      [wrapping_], [checked_] and [saturating_] operations are as Rust defines
      them.  Code that mutates state is in the monad [M], which keeps the state
      of every outcome: a failure half-way leaves what was done.
    - An [async] operation has errors [aerr]: [Failed] is the code's error,
      [Pending] an await the given schedule never completes (a timeout turns it
      into the code's own error), [OutOfFuel] the bound of the model.
    - The host is data: rings, pages and call results are arguments or scripts
      that theorems quantify over, so a statement covers every host.
    - Cargo features that change types are fields of the class [Features];
      others are fixed and named in the header of the file.
    - Code outside the repository is a parameter or a class with its documented
      laws: [GuidBytes], [HobLib], [TdxModule], [CcLog], [PolicyJson],
      [PolicyCrypto], [Attestation], [AttestLib], [PolicyV1Json], [Der], [Ring], [Rustls], [SpdmLib],
      [SpdmRuntime], [RequesterLib], [ShimTools], [Apic], [TimeCrate], the devices behind MMIO and ports, the DMA
      allocator.  Every theorem that uses one has a witness with a concrete
      instance, or holds for every instance without a hypothesis.
    - Memory: an allocation aborts when the heap cannot give it.  The one whose size
      a peer chooses, the buffer of the data before a session, is modelled against
      the room left on the heap of [HEAP_SIZE] bytes (class [Heap] of PreSession);
      all others are taken to succeed.
    - Calls of the logger (outside Logging), zeroisation of stack copies and
      reference counts are left out.

    ** What the theorems show

    - Safety against the host: no ring, page or register content makes the
      virtqueue, the device drivers, the transports or the request parser abort,
      return a buffer that was not handed out or touch memory that is not theirs
      ([vq_hostile_host_safe], [vsock_dma_hostile_host_safe],
      [virtio_pci_regions_safe], [pci_bars_placed], [raw_hostile_vmm_safe],
      [mmio_access_outside_ram], [serial_hostile_host_safe], [igvm_quote_safe]).  The
      log areas hold what was logged while the host leaves them alone
      ([log_areas_faithful]), and a release build logs no detail for it
      ([release_log_capped]).
    - Refinement: virtqueue operations against a map of outstanding requests
      ([vq_add_refines], [vq_pop_refines]), address allocation against disjoint
      regions outside RAM ([mmio_allocs_disjoint]).
    - Parsers accept exactly the wire forms ([parse_request_exact],
      [mig_info_exact], [spdm_message_roundtrip]).
    - Streams deliver in order and without loss and keep to their life cycle
      ([serial_recv_in_order], [stream_life_cycle], [tls_data_in_order],
      [spdm_transport_delivers]).
    - The exchange before a session is sound against any peer and completes
      between honest ones ([exchange_sound], [exchange_completes]); a peer can abort
      it in one way, by announcing more data than the heap can give
      ([oversized_blob_aborts]).
    - Time: ticks count timer interrupts and timers end with their ticks, but stand
      still from a reset of the shared timer by the serial driver to its next timeout
      ([ticks_and_serial_timer]); the delays of a quote end while ticks arrive
      ([delay_ends]); the real-time clock is read as it shows ([rtc_time_exact]).
    - A peer is accepted only with evidence the local policy accepts, bound to
      the key of the session ([peer_cert_sound], [authenticate_remote_sound],
      [rebinding_old_sound], [accepted_policy_under_local_root],
      [policy_block_exact], [policy_revoked_rejected],
      [peer_chain_validated_exact], [event_log_verified]), and an honest
      one is ([created_cert_accepted]).  Version 1 policies
      accept exactly what their declarative reading accepts ([policy_v1_exact]),
      with the replay of the peer's log ([authenticate_v1_sound]), and both ends
      agree ([policy_v1_ends_agree]).  A quote is verified under the root set first
      ([verified_under_first_root]), and no request is handled before the policy was
      measured and found bound to the TD ([startup_measures_policy]); the build tool
      predicts these measurements and the hash the check of a TDINFO_STRUCT accepts
      ([tool_predicts_td]); what the tools sign and put together is accepted
      ([produced_policy_accepted]), and a generated version 1 policy accepts exactly the
      peers that are up to date with the service ([generated_policy_exact]).
    - Nothing is written to the target TD before every check passed, and two
      sides that complete agree ([exchange_msk_writes_last],
      [exchange_msk_agrees], [rebinding_writes_last], [rebinding_agrees]; over SPDM
      [spdm_writes_after_attestation], [spdm_requests_attested],
      [spdm_exchange_agrees]).
    - Requests are processed once and bounded in number ([request_loop_safe],
      [wait_for_request_once]).
    - The emulator serves the migration TD as a VMM does: requests arrive as they
      were queued ([emulated_requests_delivered]), what is sent is received
      ([emulated_channel_in_order]), records of the log are printed
      ([log_reader_complete]), reports are taken ([emulated_report]), quotes are
      returned ([emulated_quote]); so a process runs the flow of its command line
      ([emulated_run]).

    ** Fuel

    Loops over a buffer or a queue recurse on its length.  Loops that wait take
    fuel: one unit per byte for the readers and writers of PreSession,
    KeyExchange, Rebinding and the framing of SPDM (a step that makes progress
    handles at least a byte), one per script entry for polls, one per turn for the
    TLS channel and the SPDM responder.  Where a result is promised the theorem
    gives the bound ([exchange_completes], [spdm_transport_delivers],
    [created_cert_accepted]); safety theorems hold for every amount of fuel.

    ** Not modelled

    The cryptography, TLS, SPDM, JSON and attestation libraries, interrupt hardware,
    memory set-up, the feature oneshot-apic, the event log of the emulator, the copy of std::io, the build tool xtask and the main programs of the generators are not modelled: third-party code, code
    that only exists on a development machine, or input and output of files. *)
From stdpp Require Import base tactics numbers list list_numbers option gmap.
Local Open Scope Z_scope.

(** ** Machine integers

    An unsigned [w]-bit integer is a [Z]; [in_u w] is its range.  Operations
    that Rust names [wrapping_*], [checked_*] and [saturating_*] are written
    out; plain [+], [-] and [<<] that can overflow go through [add_u], [sub_u]
    and [shl_u], which are [None] exactly when a build with overflow checks
    (the [dev] profile of the workspace) aborts. *)

Definition in_u (w z : Z) : Prop := 0 <= z < 2 ^ w.

Definition u_max (w : Z) : Z := 2 ^ w - 1.

Definition as_u (w z : Z) : Z := z mod 2 ^ w.

Definition wrapping_add (w a b : Z) : Z := (a + b) mod 2 ^ w.

Definition checked_add (w a b : Z) : option Z :=
  if a + b <? 2 ^ w then Some (a + b) else None.

Definition checked_mul (w a b : Z) : option Z :=
  if a * b <? 2 ^ w then Some (a * b) else None.

Definition saturating_add (w a b : Z) : Z := Z.min (a + b) (u_max w).

Definition saturating_sub (a b : Z) : Z := Z.max 0 (a - b).

Definition add_u (w a b : Z) : option Z := checked_add w a b.

Definition sub_u (a b : Z) : option Z := if b <=? a then Some (a - b) else None.

Definition shl_u (w a n : Z) : option Z :=
  if n <? w then Some (Z.shiftl a n mod 2 ^ w) else None.

Definition not_u (w a : Z) : Z := Z.lxor a (Z.ones w).

Definition is_power_of_two (z : Z) : bool := (0 <? z) && (Z.land z (z - 1) =? 0).

(** ** Outcomes and the state-and-error monad

    [Err] is a returned error value, [Panic] an abort of the program (index out
    of range, failed [assert!], arithmetic overflow).  A computation of [M S E A]
    keeps the state it reached in every case: Rust code that fails half-way has
    already mutated [self]. *)

Inductive outcome (E A : Type) : Type :=
  | Ok (a : A)
  | Err (e : E)
  | Panic.
Arguments Ok {E A} a.
Arguments Err {E A} e.
Arguments Panic {E A}.

#[global] Instance outcome_ret {E} : MRet (outcome E) := λ A a, Ok a.
#[global] Instance outcome_bind {E} : MBind (outcome E) := λ A B f m,
  match m with Ok a => f a | Err e => Err e | Panic => Panic end.

(** What an [async] operation can stop with: an error, an [await] that the given
    schedule never completes, or the model's own bound on a waiting loop. *)
Inductive aerr (E : Type) := Failed (e : E) | Pending | OutOfFuel.
Arguments Failed {E} e.
Arguments Pending {E}.
Arguments OutOfFuel {E}.

Definition M (S E A : Type) : Type := S → outcome E A * S.

#[global] Instance M_ret {S E} : MRet (M S E) := λ A a s, (Ok a, s).
#[global] Instance M_bind {S E} : MBind (M S E) := λ A B f m s,
  match m s with
  | (Ok a, s') => f a s'
  | (Err e, s') => (Err e, s')
  | (Panic, s') => (Panic, s')
  end.

Section monad_ops.
Context {S E : Type}.

Definition getS : M S E S := λ s, (Ok s, s).
Definition modifyS (f : S → S) : M S E unit := λ s, (Ok tt, f s).
Definition failM {A} (e : E) : M S E A := λ s, (Err e, s).
Definition panicM {A} : M S E A := λ s, (Panic, s).

(** [o.ok_or(e)?] *)
Definition ok_or {A} (o : option A) (e : E) : M S E A :=
  match o with Some a => mret a | None => failM e end.

(** [o.unwrap()], [v[i]], checked arithmetic: abort on [None]. *)
Definition or_panic {A} (o : option A) : M S E A :=
  match o with Some a => mret a | None => panicM end.

(** [if c { return Err(e) }] *)
Definition err_if (c : bool) (e : E) : M S E unit :=
  if c then failM e else mret tt.

(** [r?] where [r] does not touch the state. *)
Definition liftO {A} (r : outcome E A) : M S E A := λ s, (r, s).

End monad_ops.

(** ** Results without state *)

Section results.
Context {E : Type}.

(** [o.ok_or(e)?] *)
Definition or_err {A} (o : option A) (e : E) : outcome E A :=
  match o with Some a => Ok a | None => Err e end.

(** [if !b { return Err(e) }] *)
Definition require (b : bool) (e : E) : outcome E unit := if b then Ok tt else Err e.

(** [iter.map(f).collect::<Result<Vec<_>>>()], in order up to the first failure. *)
Fixpoint collect {A B} (f : A → outcome E B) (l : list A) : outcome E (list B) :=
  match l with
  | [] => Ok []
  | x :: l' => y ← f x; ys ← collect f l'; Ok (y :: ys)
  end.

End results.

(** ** Indexing by machine integers *)

(** [v.get(i)] *)
Definition nthz {A} (l : list A) (i : Z) : option A :=
  if 0 <=? i then l !! Z.to_nat i else None.

(** [v[i] = f(v[i])]; [None] when [i] is out of range. *)
Definition alterz {A} (f : A → A) (i : Z) (l : list A) : option (list A) :=
  match nthz l i with
  | Some x => Some (<[Z.to_nat i := f x]> l)
  | None => None
  end.

(** ** Bytes

    A byte is a [Z] below 256, a buffer a list of them; [le_bytes n z] and
    [le_val] are [to_le_bytes] and [from_le_bytes]. *)

Definition bytes := list Z.

Definition bytes_ok (bs : bytes) : Prop := Forall (in_u 8) bs.

Definition le_bytes (n : nat) (z : Z) : bytes := Z_to_little_endian (Z.of_nat n) 8 z.

Definition le_val (bs : bytes) : Z := little_endian_to_Z 8 bs.

Definition lenz {A} (l : list A) : Z := Z.of_nat (length l).

(** [buf.get(a..b)]: [None] when the range is not inside the buffer. *)
Definition slice {A} (l : list A) (a b : Z) : option (list A) :=
  if (0 <=? a) && (a <=? b) && (b <=? lenz l)
  then Some (take (Z.to_nat (b - a)) (drop (Z.to_nat a) l)) else None.

(** [buf[a..a + data.len()].copy_from_slice(data)]; [None] when it aborts. *)
Definition write_at {A} (l : list A) (a : Z) (data : list A) : option (list A) :=
  if (0 <=? a) && (a + lenz data <=? lenz l)
  then Some (take (Z.to_nat a) l ++ data ++ drop (Z.to_nat a + length data) l) else None.

Definition zeros (n : Z) : bytes := replicate (Z.to_nat n) 0.

(** A shared page keeps its size whatever the host writes into it. *)
Definition fit (n : Z) (bs : bytes) : bytes := take (Z.to_nat n) (bs ++ zeros n).

(** [Guid::as_bytes] of td-shim (not part of the repository): the 16 bytes of a
    GUID given by its fields. *)
Class GuidBytes := {
  guid_as_bytes : Z → Z → Z → list Z → bytes;
  length_guid : ∀ a b c d, length (guid_as_bytes a b c d) = 16%nat }.

(** ** Shared lemmas *)

Create HintDb migtd.
Create Rewrite HintDb migtd_len.

Lemma nthz_Some {A} (l : list A) i x : nthz l i = Some x → 0 <= i < lenz l.
Proof.
  unfold nthz, lenz. destruct (Z.leb_spec 0 i); [|done].
  intros ?%lookup_lt_Some. lia.
Qed.

Lemma nthz_is_Some {A} (l : list A) i : 0 <= i < lenz l → ∃ x, nthz l i = Some x.
Proof.
  unfold nthz, lenz. intros. destruct (Z.leb_spec 0 i); [|lia].
  destruct (lookup_lt_is_Some_2 l (Z.to_nat i)) as [x Hx]; [lia|eauto].
Qed.

Lemma nthz_insert {A} (l : list A) i j y :
  0 <= i < lenz l → nthz (<[Z.to_nat i := y]> l) j = if i =? j then Some y else nthz l j.
Proof.
  unfold nthz, lenz. intros Hi. destruct (Z.leb_spec 0 j).
  - destruct (Z.eqb_spec i j) as [->|].
    + rewrite list_lookup_insert_eq; [done|lia].
    + rewrite list_lookup_insert_ne; [done|lia].
  - destruct (Z.eqb_spec i j); [lia|done].
Qed.

Lemma alterz_Some {A} (f : A → A) i l x :
  nthz l i = Some x → alterz f i l = Some (<[Z.to_nat i := f x]> l).
Proof. intros H. unfold alterz. by rewrite H. Qed.

Lemma lenz_insert {A} (l : list A) i y : lenz (<[i := y]> l) = lenz l.
Proof. unfold lenz. by rewrite length_insert. Qed.

Lemma lenz_app {A} (l k : list A) : lenz (l ++ k) = lenz l + lenz k.
Proof. unfold lenz. rewrite length_app. lia. Qed.

Lemma lenz_cons {A} (x : A) l : lenz (x :: l) = 1 + lenz l.
Proof. unfold lenz. simpl. lia. Qed.

Lemma lenz_nonneg {A} (l : list A) : 0 <= lenz l.
Proof. unfold lenz. lia. Qed.

Lemma to_nat_lenz {A} (l : list A) : Z.to_nat (lenz l) = length l.
Proof. unfold lenz. lia. Qed.

#[export] Hint Rewrite @lenz_insert @lenz_app @lenz_cons : migtd_len.

(** Single-bit arithmetic of the [u32] bitmaps. *)

Lemma shl_u_one w i : 0 <= i < w → shl_u w 1 i = Some (2 ^ i).
Proof.
  intros. unfold shl_u. destruct (Z.ltb_spec i w); [|lia].
  rewrite Z.shiftl_1_l, Z.mod_small; [done|].
  split; [lia|]. apply Z.pow_lt_mono_r; lia.
Qed.

Lemma land_bit_zero a i : 0 <= i → (Z.land a (2 ^ i) =? 0) = negb (Z.testbit a i).
Proof.
  intros Hi. destruct (Z.testbit a i) eqn:E; simpl.
  - apply Z.eqb_neq. intros H. apply (f_equal (λ z, Z.testbit z i)) in H.
    rewrite Z.land_spec, E, Z.pow2_bits_true, Z.bits_0 in H; [done|lia].
  - apply Z.eqb_eq, Z.bits_inj'. intros j Hj.
    rewrite Z.land_spec, Z.bits_0, Z.pow2_bits_eqb by lia.
    destruct (Z.eqb_spec i j) as [->|]; [by rewrite E|by rewrite andb_false_r].
Qed.

Lemma lor_bit a i j : 0 <= i → Z.testbit (Z.lor a (2 ^ i)) j = Z.testbit a j || (i =? j).
Proof. intros. by rewrite Z.lor_spec, Z.pow2_bits_eqb. Qed.

Lemma testbit_above w a j : 0 <= w <= j → 0 <= a < 2 ^ w → Z.testbit a j = false.
Proof. intros Hj Ha. rewrite <-(Z.mod_small a (2 ^ w)) by done. by apply Z.mod_pow2_bits_high. Qed.

Lemma lor_shiftl_add n x y : 0 <= n → 0 <= y < 2 ^ n → Z.lor (Z.shiftl x n) y = x * 2 ^ n + y.
Proof.
  intros Hn Hy. assert (Z.land (Z.shiftl x n) y = 0) as Hl.
  { apply Z.bits_inj'. intros j Hj. rewrite Z.land_spec, Z.bits_0. destruct (Z.lt_ge_cases j n).
    - by rewrite Z.shiftl_spec_low.
    - by rewrite (testbit_above n y j), andb_false_r by lia. }
  rewrite <-Z.lxor_lor by done. rewrite <-Z.add_nocarry_lxor by done. by rewrite Z.shiftl_mul_pow2.
Qed.

Lemma clear_bit w a i j : 0 <= i → 0 <= j < w →
  Z.testbit (Z.land a (not_u w (2 ^ i))) j = Z.testbit a j && negb (i =? j).
Proof.
  intros. unfold not_u.
  rewrite Z.land_spec, Z.lxor_spec, Z.pow2_bits_eqb, Z.ones_spec_low by lia.
  by rewrite xorb_true_r.
Qed.

Lemma land_mask_range a n : 0 <= n → 0 <= Z.land a (2 ^ n - 1) < 2 ^ n.
Proof.
  intros. replace (2 ^ n - 1) with (Z.ones n) by (rewrite Z.ones_equiv; lia).
  rewrite Z.land_ones by lia. apply Z.mod_pos_bound. lia.
Qed.

Lemma land_not_u w x b : 0 <= w → 0 <= x < 2 ^ w → Z.land x (not_u w b) = Z.ldiff x b.
Proof.
  intros Hw Hx. apply Z.bits_inj'. intros j Hj. unfold not_u.
  rewrite Z.land_spec, Z.lxor_spec, Z.ldiff_spec. destruct (Z.lt_ge_cases j w).
  - rewrite Z.ones_spec_low by lia. by rewrite xorb_true_r.
  - replace (Z.testbit x j) with false; [done|]. symmetry.
    destruct (Z.eq_dec x 0) as [->|]; [apply Z.bits_0|]. apply Z.bits_above_log2; [lia|].
    apply Z.lt_le_trans with w; [apply Z.log2_lt_pow2; lia|done].
Qed.

(** Clearing bits with a mask takes away at most the mask. *)
Lemma land_not_u_bounds w x b :
  0 <= w → 0 <= x < 2 ^ w → 0 <= b → x - b <= Z.land x (not_u w b) <= x.
Proof.
  intros Hw Hx Hb. rewrite land_not_u by done.
  assert (Z.ldiff (Z.land x b) x = 0 ∧ Z.ldiff (Z.land x b) b = 0) as [H1 H2].
  { split; apply Z.bits_inj'; intros j _; rewrite Z.ldiff_spec, Z.land_spec, Z.bits_0;
      by destruct (Z.testbit x j), (Z.testbit b j). }
  apply Z.sub_nocarry_ldiff in H1. apply Z.ldiff_le in H2; [|done].
  replace (Z.ldiff x b) with (x - Z.land x b); [lia|]. rewrite H1.
  apply Z.bits_inj'. intros j _. rewrite !Z.ldiff_spec, Z.land_spec.
  by destruct (Z.testbit x j), (Z.testbit b j).
Qed.

Lemma land_not_u_aligned w x k :
  0 <= k <= w → 0 <= x < 2 ^ w → Z.land x (not_u w (2 ^ k - 1)) mod 2 ^ k = 0.
Proof.
  intros Hk Hx. rewrite land_not_u by lia. rewrite <-Z.land_ones by lia.
  replace (2 ^ k - 1) with (Z.ones k) by (rewrite Z.ones_equiv; lia).
  apply Z.bits_inj'. intros j _. rewrite Z.land_spec, Z.ldiff_spec, Z.bits_0.
  by destruct (Z.testbit x j), (Z.testbit (Z.ones k) j).
Qed.

Lemma checked_add_Some w a b c : checked_add w a b = Some c ↔ c = a + b ∧ a + b < 2 ^ w.
Proof. unfold checked_add. destruct (Z.ltb_spec (a + b) (2 ^ w)); naive_solver lia. Qed.

Lemma checked_add_None w a b : checked_add w a b = None ↔ 2 ^ w <= a + b.
Proof. unfold checked_add. destruct (Z.ltb_spec (a + b) (2 ^ w)); naive_solver lia. Qed.

Lemma wrapping_succ_ne w a : 1 <= w → in_u w a → wrapping_add w a 1 ≠ a.
Proof.
  unfold in_u, wrapping_add. intros Hw Ha H.
  assert (2 <= 2 ^ w) by (change 2 with (2 ^ 1) at 1; apply Z.pow_le_mono_r; lia).
  destruct (Z.eq_dec (a + 1) (2 ^ w)) as [E|].
  - rewrite E, Z.mod_same in H; lia.
  - rewrite Z.mod_small in H; lia.
Qed.

(** Little-endian integers. *)

Lemma le_val_bytes n z : le_val (le_bytes n z) = z mod 2 ^ (8 * Z.of_nat n).
Proof.
  unfold le_val, le_bytes. rewrite little_endian_to_Z_to_little_endian by lia.
  by rewrite Z.mul_comm.
Qed.

Lemma length_le_bytes n z : length (le_bytes n z) = n.
Proof. apply Nat2Z.inj. unfold le_bytes. by rewrite length_Z_to_little_endian by lia. Qed.

Lemma le_bytes_val bs : bytes_ok bs → le_bytes (length bs) (le_val bs) = bs.
Proof. intros H. unfold le_bytes, le_val. by apply Z_to_little_endian_to_Z. Qed.

Lemma le_bytes_ok n z : bytes_ok (le_bytes n z).
Proof. unfold bytes_ok, le_bytes, in_u. apply Z_to_little_endian_bound; lia. Qed.

Lemma le_val_range bs : bytes_ok bs → in_u (8 * lenz bs) (le_val bs).
Proof.
  intros H. pose proof (le_val_bytes (length bs) (le_val bs)) as Hv.
  rewrite le_bytes_val in Hv by done. rewrite Hv. unfold in_u, lenz. apply Z.mod_pos_bound. lia.
Qed.

(** Buffers made of consecutive segments: writing and reading a whole segment. *)

Lemma slice_app {A} (l1 l l2 : list A) a b :
  a = lenz l1 → b = a + lenz l → slice (l1 ++ l ++ l2) a b = Some l.
Proof.
  intros -> ->. unfold slice, lenz. rewrite !length_app.
  destruct (Z.leb_spec 0 (Z.of_nat (length l1))); [|lia].
  destruct (Z.leb_spec (Z.of_nat (length l1)) (Z.of_nat (length l1) + Z.of_nat (length l))); [|lia].
  destruct (Z.leb_spec (Z.of_nat (length l1) + Z.of_nat (length l))
              (Z.of_nat (length l1 + (length l + length l2)))); [|lia].
  simpl. rewrite Nat2Z.id, drop_app_length. f_equal.
  replace (Z.to_nat _) with (length l) by lia. apply take_app_length.
Qed.

Lemma write_at_app {A} (l1 l l2 d : list A) a :
  a = lenz l1 → length d = length l → write_at (l1 ++ l ++ l2) a d = Some (l1 ++ d ++ l2).
Proof.
  intros -> Hd. unfold write_at, lenz. rewrite !length_app, Hd.
  destruct (Z.leb_spec 0 (Z.of_nat (length l1))); [|lia].
  destruct (Z.leb_spec (Z.of_nat (length l1) + Z.of_nat (length l))
              (Z.of_nat (length l1 + (length l + length l2)))); [|lia].
  simpl. rewrite Nat2Z.id, take_app_length, (app_assoc l1 l l2), <-(length_app l1 l), drop_app_length. done.
Qed.

Lemma slice_is_Some {A} (l : list A) a b : 0 <= a <= b → b <= lenz l → is_Some (slice l a b).
Proof.
  intros. unfold slice. destruct (Z.leb_spec 0 a); [|lia]. destruct (Z.leb_spec a b); [|lia].
  destruct (Z.leb_spec b (lenz l)); [|lia]. simpl. eauto.
Qed.

Lemma slice_take {A} (l : list A) n : 0 <= n <= lenz l → slice l 0 n = Some (take (Z.to_nat n) l).
Proof.
  intros. unfold slice. rewrite (proj2 (Z.leb_le n (lenz l))) by lia.
  rewrite (proj2 (Z.leb_le 0 n)) by lia. simpl. by rewrite Z.sub_0_r.
Qed.

Lemma slice_Some_len {A} (l : list A) a b k : slice l a b = Some k → lenz k = b - a ∧ 0 <= a <= b ∧ b <= lenz l.
Proof.
  unfold slice. destruct (_ && _ && _) eqn:E; [|done]. intros [= <-].
  apply andb_prop in E as [[E1%Z.leb_le E2%Z.leb_le]%andb_prop E3%Z.leb_le].
  unfold lenz in *. rewrite length_take, length_drop. lia.
Qed.

Lemma slice_bytes_ok l a b k : bytes_ok l → slice l a b = Some k → bytes_ok k.
Proof.
  unfold slice, bytes_ok. destruct (_ && _ && _); [|done]. intros Hl [= <-].
  by apply Forall_take, Forall_drop.
Qed.

Lemma write_at_Some {A} (l : list A) a d : 0 <= a → a + lenz d <= lenz l →
  write_at l a d = Some (take (Z.to_nat a) l ++ d ++ drop (Z.to_nat a + length d) l).
Proof.
  intros. unfold write_at. rewrite (proj2 (Z.leb_le 0 a)), (proj2 (Z.leb_le _ (lenz l))) by lia. done.
Qed.

Lemma write_at_fits {A} (l : list A) a d : 0 <= a → a + lenz d <= lenz l →
  ∃ l', write_at l a d = Some l' ∧ lenz l' = lenz l.
Proof.
  intros H1 H2. eexists. split; [by apply write_at_Some|].
  unfold lenz in *. rewrite !length_app, length_take, length_drop. lia.
Qed.

Lemma lenz_le_bytes n z : lenz (le_bytes n z) = Z.of_nat n.
Proof. unfold lenz. by rewrite length_le_bytes. Qed.

Lemma length_zeros n : length (zeros n) = Z.to_nat n.
Proof. unfold zeros. by rewrite length_replicate. Qed.

Lemma lenz_zeros n : 0 <= n → lenz (zeros n) = n.
Proof. intros. unfold lenz. rewrite length_zeros. lia. Qed.

Lemma zeros_add a b : 0 <= a → 0 <= b → zeros (a + b) = zeros a ++ zeros b.
Proof. intros. unfold zeros. by rewrite Z2Nat.inj_add, replicate_add by lia. Qed.

Lemma lenz_fit n bs : 0 <= n → lenz (fit n bs) = n.
Proof. intros. unfold fit, lenz. rewrite length_take, length_app, length_zeros. lia. Qed.

Lemma fit_bytes_ok n p : bytes_ok p → bytes_ok (fit n p).
Proof.
  intros Hp. unfold fit, bytes_ok. apply Forall_take, Forall_app. split; [done|].
  unfold zeros. apply Forall_replicate. unfold in_u. lia.
Qed.

Lemma concat_split {A} (segs : list (list A)) i seg :
  segs !! i = Some seg → concat segs = concat (take i segs) ++ seg ++ concat (drop (S i) segs).
Proof.
  intros H. rewrite <-(take_drop_middle segs i seg H) at 1. by rewrite concat_app.
Qed.

Lemma slice_seg {A} (segs : list (list A)) i seg a b :
  segs !! i = Some seg → a = lenz (concat (take i segs)) → b = a + lenz seg →
  slice (concat segs) a b = Some seg.
Proof. intros H Ha Hb. rewrite (concat_split _ _ _ H). by apply slice_app. Qed.

Lemma write_seg {A} (segs : list (list A)) i seg d a :
  segs !! i = Some seg → length d = length seg → a = lenz (concat (take i segs)) →
  write_at (concat segs) a d = Some (concat (<[i := d]> segs)).
Proof.
  intros H Hd Ha. rewrite (concat_split _ _ _ H), (write_at_app _ _ _ d) by done.
  assert (i < length segs)%nat by (by eapply lookup_lt_Some).
  rewrite (concat_split (<[i := d]> segs) i d) by (by apply list_lookup_insert_eq).
  by rewrite take_insert_ge, drop_insert_lt by lia.
Qed.

(** Closes the length conditions of the two lemmas above. *)
Ltac seg_len :=
  unfold lenz; cbn [take concat length app fst snd];
  rewrite ?length_app, ?length_le_bytes, ?length_replicate; cbn [length]; lia.

(** Writes or reads the [i]-th segment of a buffer given as a [concat]. *)
Ltac wr_seg i len :=
  match goal with
  | |- context [write_at (concat ?segs) ?a ?d] => rewrite (write_seg segs i _ d a eq_refl) by len
  end; cbn [mbind option_bind outcome_bind list_insert insert].
Ltac rd_seg i len :=
  match goal with
  | |- context [slice (concat ?segs) ?a ?b] => rewrite (slice_seg segs i _ a b eq_refl) by len
  end; cbn [mbind option_bind outcome_bind fmap option_fmap option_map].

(** Runs of the monads, one equation per step. *)

Lemma M_bind_eq {S E A B} (f : A → M S E B) (m : M S E A) (s : S) :
  (m ≫= f) s = match m s with
               | (Ok a, s') => f a s'
               | (Err e, s') => (Err e, s')
               | (Panic, s') => (Panic, s')
               end.
Proof. done. Qed.

Lemma M_bind_Ok {S E A B} (f : A → M S E B) (m : M S E A) (s s' : S) a :
  m s = (Ok a, s') → (m ≫= f) s = f a s'.
Proof. intros H. by rewrite M_bind_eq, H. Qed.

Lemma M_bind_Ok_inv {S E A B} (f : A → M S E B) (m : M S E A) s b s' :
  (m ≫= f) s = (Ok b, s') → ∃ a s1, m s = (Ok a, s1) ∧ f a s1 = (Ok b, s').
Proof. rewrite M_bind_eq. destruct (m s) as [[] ?]; naive_solver. Qed.

(** What a successful run of a primitive says. *)
Lemma ok_or_Ok {S E A} (o : option A) (e : E) (s s' : S) a : ok_or o e s = (Ok a, s') → o = Some a ∧ s' = s.
Proof. destruct o; [|done]. by intros [= <- <-]. Qed.
Lemma err_if_Ok {S E} c (e : E) (s s' : S) u : err_if c e s = (Ok u, s') → c = false ∧ s' = s.
Proof. destruct c; [done|]. by intros [= _ <-]. Qed.
Lemma liftO_Ok {S E A} (r : outcome E A) (s s' : S) a : liftO r s = (Ok a, s') → r = Ok a ∧ s' = s.
Proof. unfold liftO. by intros [= -> ->]. Qed.
Lemma or_panic_Ok {S E A} (o : option A) (s s' : S) a :
  or_panic (E := E) o s = (Ok a, s') → o = Some a ∧ s' = s.
Proof. destruct o; [|done]. by intros [= <- <-]. Qed.

Section run.
Context {S E A B : Type}.
Implicit Types (s : S) (e : E) (c : bool).

Lemma getS_bind (f : S → M S E B) s : (getS ≫= f) s = f s s.
Proof. done. Qed.
Lemma modifyS_bind (g : S → S) (f : unit → M S E B) s : (modifyS g ≫= f) s = f tt (g s).
Proof. done. Qed.
Lemma ret_bind (a : A) (f : A → M S E B) s : ((mret a : M S E A) ≫= f) s = f a s.
Proof. done. Qed.
Lemma ok_or_bind (o : option A) e (f : A → M S E B) s :
  (ok_or o e ≫= f) s = match o with Some a => f a s | None => (Err e, s) end.
Proof. by destruct o. Qed.
Lemma or_panic_bind (o : option A) (f : A → M S E B) s :
  (or_panic o ≫= f) s = match o with Some a => f a s | None => (Panic, s) end.
Proof. by destruct o. Qed.
Lemma err_if_bind c e (f : unit → M S E B) s :
  (err_if c e ≫= f) s = if c then (Err e, s) else f tt s.
Proof. by destruct c. Qed.
Lemma liftO_bind (r : outcome E A) (f : A → M S E B) s :
  (liftO r ≫= f) s = match r with Ok a => f a s | Err e => (Err e, s) | Panic => (Panic, s) end.
Proof. by destruct r. Qed.
End run.

(** [mrun] runs a monadic program at a known state as far as its operations
    are determined; [mrun with H] first rewrites the next test with [H]. *)
Ltac mrun :=
  repeat (first
    [ rewrite getS_bind | rewrite modifyS_bind | rewrite ret_bind | rewrite ok_or_bind
    | rewrite or_panic_bind | rewrite err_if_bind | rewrite liftO_bind ]; cbv beta iota).

(** *** Safe runs

    [safe P m Q R]: from a state in [P], [m] does not abort; a result satisfies
    [Q] with the state reached, an error leaves a state in [R]. *)

Definition safe {S E A} (P : S → Prop) (m : M S E A) (Q : A → S → Prop) (R : S → Prop) : Prop :=
  ∀ s, P s → match m s with (Ok a, s') => Q a s' | (Err _, s') => R s' | (Panic, _) => False end.

Section safe.
Context {S E : Type}.
Implicit Types P R : S → Prop.

Lemma safe_bind {A B} P (m : M S E A) (f : A → M S E B) Q Q' R :
  safe P m Q R → (∀ a, safe (Q a) (f a) Q' R) → safe P (m ≫= f) Q' R.
Proof.
  intros Hm Hf s Hs. rewrite M_bind_eq. specialize (Hm s Hs). destruct (m s) as [[a| |] s']; try done.
  by apply Hf.
Qed.
Lemma safe_weaken {A} P P' (m : M S E A) (Q Q' : A → S → Prop) R R' :
  safe P' m Q R → (∀ s, P s → P' s) → (∀ a s, Q a s → Q' a s) → (∀ s, R s → R' s) → safe P m Q' R'.
Proof. intros Hm HP HQ HR s Hs. specialize (Hm s (HP s Hs)). destruct (m s) as [[a| |] s']; auto. Qed.
Lemma safe_pre {A} P P' (m : M S E A) Q R : safe P' m Q R → (∀ s, P s → P' s) → safe P m Q R.
Proof. intros Hm HP. by eapply safe_weaken. Qed.
Lemma safe_err {A} P (m : M S E A) Q R R' : safe P m Q R' → (∀ s, R' s → R s) → safe P m Q R.
Proof. intros Hm HR. by eapply safe_weaken. Qed.
Lemma safe_ret {A} P (a : A) Q R : (∀ s, P s → Q a s) → safe P (mret a : M S E A) Q R.
Proof. intros H s Hs. by apply H. Qed.
Lemma safe_fail {A} P (e : E) (Q : A → S → Prop) R : (∀ s, P s → R s) → safe P (failM e) Q R.
Proof. intros H s Hs. by apply H. Qed.
Lemma safe_getS P Q R : (∀ s, P s → Q s s) → safe P (getS : M S E S) Q R.
Proof. intros H s Hs. by apply H. Qed.
Lemma safe_get {A} P (f : S → M S E A) Q R :
  (∀ s, P s → safe (λ s', s' = s) (f s) Q R) → safe P (getS ≫= f) Q R.
Proof. intros H s Hs. by apply (H s Hs). Qed.
Lemma safe_modifyS P (f : S → S) Q R : (∀ s, P s → Q tt (f s)) → safe P (modifyS f : M S E unit) Q R.
Proof. intros H s Hs. by apply H. Qed.
Lemma safe_ok_or {A} P (o : option A) (e : E) Q R :
  (∀ s a, P s → o = Some a → Q a s) → (∀ s, P s → o = None → R s) → safe P (ok_or o e) Q R.
Proof. intros H H' s Hs. destruct o; [by apply H|by apply H']. Qed.
Lemma safe_or_panic {A} P (o : option A) Q R :
  (∀ s, P s → ∃ a, o = Some a ∧ Q a s) → safe P (or_panic o : M S E A) Q R.
Proof. intros H s Hs. by destruct (H s Hs) as (a & -> & ?). Qed.
Lemma safe_err_if P c (e : E) Q R :
  (∀ s, P s → c = false → Q tt s) → (∀ s, P s → R s) → safe P (err_if c e : M S E unit) Q R.
Proof. intros H H' s Hs. destruct c; [by apply H'|by apply H]. Qed.
End safe.

(** The documented layout of a GUID in memory, an instance of [GuidBytes]. *)
Lemma length_efi_guid a b c d :
  length (le_bytes 4 a ++ le_bytes 2 b ++ le_bytes 2 c ++ take 8 (d ++ zeros 8)) = 16%nat.
Proof.
  rewrite !length_app, !length_le_bytes, length_take, length_app. unfold zeros. rewrite length_replicate.
  change (Z.to_nat 8) with 8%nat. lia.
Qed.

Definition efi_guid : GuidBytes :=
  {| guid_as_bytes := λ a b c d, le_bytes 4 a ++ le_bytes 2 b ++ le_bytes 2 c ++ take 8 (d ++ zeros 8);
     length_guid := length_efi_guid |}.

(** ** Pages of the service call

    The command page of GHCI: GUID, length, reserved, data, padding to [n]. *)

Definition page_of (guid body : bytes) (n : Z) : bytes :=
  guid ++ le_bytes 4 (as_u 32 (24 + lenz body)) ++ le_bytes 4 0 ++ body ++ zeros (n - 24 - lenz body).

Ltac page_len :=
  unfold lenz; cbn [take concat length app fst snd];
  repeat (progress rewrite ?length_app, ?length_le_bytes, ?length_zeros; cbn [length]);
  unfold lenz in *; lia.

Section page.
Context (guid : bytes) (Hguid : length guid = 16%nat).

Lemma page_init n : 24 <= n →
  (d ← write_at (zeros n) 0 guid; d ← write_at d 16 (le_bytes 4 24); write_at d 20 (le_bytes 4 0)) =
  Some (page_of guid [] n).
Proof.
  intros Hn.
  assert (zeros n = concat [zeros 16; zeros 4; zeros 4; zeros (n - 24)]) as ->.
  { cbn [concat]. rewrite app_nil_r, <-!zeros_add by lia. f_equal. lia. }
  wr_seg 0%nat page_len. wr_seg 1%nat page_len. wr_seg 2%nat page_len. f_equal.
  unfold page_of. cbn [concat app]. change (lenz (@nil Z)) with 0. by rewrite app_nil_r, Z.sub_0_r.
Qed.

Lemma page_append body bs n : 24 + lenz body + lenz bs <= n →
  (d ← write_at (page_of guid body n) (24 + lenz body) bs;
   write_at d 16 (le_bytes 4 (as_u 32 (24 + lenz body + lenz bs)))) =
  Some (page_of guid (body ++ bs) n).
Proof.
  intros Hn. pose proof (lenz_nonneg body). pose proof (lenz_nonneg bs).
  assert (page_of guid body n = concat [guid; le_bytes 4 (as_u 32 (24 + lenz body));
            le_bytes 4 0; body; zeros (lenz bs); zeros (n - 24 - lenz body - lenz bs)]) as ->.
  { unfold page_of. cbn [concat]. rewrite app_nil_r, <-zeros_add by lia. repeat f_equal. lia. }
  wr_seg 4%nat page_len. wr_seg 1%nat page_len. cbn [concat]. f_equal.
  unfold page_of. rewrite lenz_app, app_nil_r, <-(app_assoc body).
  replace (24 + lenz body + lenz bs) with (24 + (lenz body + lenz bs)) by lia.
  replace (n - 24 - (lenz body + lenz bs)) with (n - 24 - lenz body - lenz bs) by lia. done.
Qed.

Lemma lenz_page_of body n : 24 + lenz body <= n → lenz (page_of guid body n) = n.
Proof. intros. pose proof (lenz_nonneg body). unfold page_of. page_len. Qed.

End page.

(** ** Relational invariants of monadic programs

    [keeps R m]: every run of [m], whatever its outcome, relates the state it
    started in to the state it stopped in by [R]. *)

Definition keeps {S E A} (R : S → S → Prop) (m : M S E A) : Prop :=
  ∀ s r s', m s = (r, s') → R s s'.

Section keeps.
Context {S E : Type} (R : S → S → Prop) `{!PreOrder R}.

Lemma keeps_bind {A B} (m : M S E A) (f : A → M S E B) :
  keeps R m → (∀ a, keeps R (f a)) → keeps R (m ≫= f).
Proof.
  intros Hm Hf s r s'. rewrite M_bind_eq. destruct (m s) as [[a|e|] s1] eqn:E1; intros H.
  - etrans; [by eapply Hm|by eapply Hf].
  - simplify_eq. by eapply Hm.
  - simplify_eq. by eapply Hm.
Qed.

Lemma keeps_bind_Ok {A B} (m : M S E A) (f : A → M S E B) :
  keeps R m → (∀ a s s', m s = (Ok a, s') → keeps R (f a)) → keeps R (m ≫= f).
Proof.
  intros Hm Hf s r s' Hr. rewrite M_bind_eq in Hr. destruct (m s) as [[a|e|] s1] eqn:E1.
  - etrans; [by eapply Hm|]. by eapply Hf.
  - injection Hr as <- <-. by eapply Hm.
  - injection Hr as <- <-. by eapply Hm.
Qed.
Lemma keeps_ret {A} (a : A) : keeps R (mret a : M S E A).
Proof. intros s r s' H. unfold mret, M_ret in H. by simplify_eq. Qed.
Lemma keeps_getS : keeps R (getS : M S E S).
Proof. intros s r s' H. unfold getS in H. by simplify_eq. Qed.
Lemma keeps_failM {A} (e : E) : keeps R (failM e : M S E A).
Proof. intros s r s' H. unfold failM in H. by simplify_eq. Qed.
Lemma keeps_panicM {A} : keeps R (panicM : M S E A).
Proof. intros s r s' H. unfold panicM in H. by simplify_eq. Qed.
Lemma keeps_ok_or {A} (o : option A) (e : E) : keeps R (ok_or o e : M S E A).
Proof. destruct o; [apply keeps_ret|apply keeps_failM]. Qed.
Lemma keeps_or_panic {A} (o : option A) : keeps R (or_panic o : M S E A).
Proof. destruct o; [apply keeps_ret|apply keeps_panicM]. Qed.
Lemma keeps_err_if c (e : E) : keeps R (err_if c e : M S E unit).
Proof. destruct c; [apply keeps_failM|apply keeps_ret]. Qed.
Lemma keeps_liftO {A} (r : outcome E A) : keeps R (liftO r : M S E A).
Proof. intros s r' s' H. unfold liftO in H. by simplify_eq. Qed.
Lemma keeps_modifyS (f : S → S) : (∀ s, R s (f s)) → keeps R (modifyS f : M S E unit).
Proof. intros Hf s r s' H. unfold modifyS in H. simplify_eq. apply Hf. Qed.
Lemma keeps_or_panic_bind {A B} (o : option A) (f : A → M S E B) :
  (∀ a, o = Some a → keeps R (f a)) → keeps R (or_panic o ≫= f).
Proof.
  intros Hf s r s'. rewrite or_panic_bind. destruct o; [by apply Hf|by intros [= _ <-]].
Qed.
Lemma safe_frame {A} (F : S → Prop) P (m : M S E A) Q G :
  keeps (λ s s', F s → F s') m → safe P m Q G → safe (λ s, P s ∧ F s) m (λ a s, Q a s ∧ F s) G.
Proof.
  intros Hk Hm s [Hs HF]. specialize (Hm s Hs). destruct (m s) as [[a|e|] s'] eqn:E1; try done.
  split; [done|]. by eapply Hk.
Qed.
Lemma keeps_if {A} (c : bool) (m1 m2 : M S E A) :
  keeps R m1 → keeps R m2 → keeps R (if c then m1 else m2).
Proof. by destruct c. Qed.
End keeps.

#[export] Hint Resolve keeps_bind keeps_ret keeps_getS keeps_failM keeps_panicM keeps_ok_or
  keeps_or_panic keeps_err_if keeps_liftO keeps_if : migtd.

(** Walks through a monadic program, leaving the goals the hints do not close. *)
Ltac keeps_step :=
  match goal with
  | |- keeps _ (if decide _ then _ else _) => case_decide
  | |- keeps _ (if ?c then _ else _) => destruct c eqn:?
  | |- keeps _ (or_panic _ ≫= _) => apply keeps_or_panic_bind; [try typeclasses eauto|intros]
  | |- keeps _ (_ ≫= _) => apply keeps_bind; [try typeclasses eauto| |intros]
  | |- keeps _ (match ?x with _ => _ end) => destruct x
  | |- keeps _ _ => solve [eauto with migtd typeclass_instances]
  end.
Ltac keeps_auto := cbv zeta; repeat keeps_step.

(** ** Results without state *)

Lemma or_err_Ok {E A} (o : option A) (e : E) a : or_err o e = Ok a ↔ o = Some a.
Proof. destruct o; cbn; split; congruence. Qed.

Lemma require_Ok {E} b (e : E) u : require b e = Ok u ↔ b = true.
Proof. destruct b, u; cbn; split; congruence. Qed.

Lemma bind_Ok {E A B} (m : outcome E A) (f : A → outcome E B) b :
  (m ≫= f) = Ok b ↔ ∃ a, m = Ok a ∧ f a = Ok b.
Proof. destruct m as [a| |]; cbn; (split; [intros H|intros (a' & H & H')]); try done; [by exists a|congruence]. Qed.

Lemma or_err_no_panic {E A} (o : option A) (e : E) : or_err o e ≠ Panic.
Proof. by destruct o. Qed.

Lemma require_no_panic {E} b (e : E) : require b e ≠ Panic.
Proof. by destruct b. Qed.

Lemma bind_no_panic {E A B} (m : outcome E A) (f : A → outcome E B) :
  m ≠ Panic → (∀ a, m = Ok a → f a ≠ Panic) → (m ≫= f) ≠ Panic.
Proof. destruct m; cbn; auto. Qed.

Lemma collect_Ok {E X Y} (f : X → outcome E Y) l ys : collect f l = Ok ys ↔ Forall2 (λ x y, f x = Ok y) l ys.
Proof.
  revert ys. induction l as [|x l IH]; intros ys; cbn [collect].
  - split; [intros [= <-]; constructor|]. by inversion 1.
  - split.
    + intros (y & Hy & (ys' & Hys & [= <-])%bind_Ok)%bind_Ok. constructor; [done|]. by apply IH.
    + inversion 1 as [|? y ? ys' Hy Hys]; subst. rewrite Hy. cbn. apply IH in Hys. rewrite Hys. done.
Qed.


Lemma collect_no_panic {E A B} (f : A → outcome E B) l : (∀ x, f x ≠ Panic) → collect f l ≠ Panic.
Proof.
  intros Hf. induction l as [|x l IH]; cbn; [done|]. apply bind_no_panic; [done|]. intros y _.
  by apply bind_no_panic.
Qed.


(** Invert one step of a successful run. *)
Ltac step H := first
  [ apply M_bind_Ok_inv in H; let a := fresh "a" in let s := fresh "s" in let H1 := fresh "Hs" in destruct H as (a & s & H1 & H);
    first [ apply liftO_Ok in H1 as [H1 ->] | apply ok_or_Ok in H1 as [H1 ->] | idtac ]
  | apply bind_Ok in H; let a := fresh "a" in let H1 := fresh "Hs" in destruct H as (a & H1 & H);
    first [ apply or_err_Ok in H1 | apply require_Ok in H1 | idtac ] ].
