(* ===== verification/VirtQueue.v ===== *)
(** * VirtQueue

    The split virtqueue driver of src/devices/virtio/src/virtqueue.rs: the
    descriptor table and the two rings in memory shared with the host, the
    private shadow of the descriptors, and the operations [new], [add],
    [pop_used].  The host may rewrite the shared part at any moment. *)
From stdpp Require Import base tactics numbers list option gmap.
From S2P Require Import Prelude.
Local Open Scope Z_scope.

(** ** Data *)

Inductive VirtioError :=
  | VirtioUnsupportedDevice | VirtioLegacyOnly | VirtioFeatureNegotiationFailed
  | CreateVirtioQueue | BufferTooSmall | NotReady | AlreadyUsed | InvalidParameter
  | IoError | BadRing | SetDeviceNotification
  | InvalidOffset (base length offset : Z)
  | InvalidDescriptorIndex | InvalidRingIndex | InvalidDescriptor | PciErr.

Definition PAGE_SIZE : Z := 4096.
Definition MAX_QUEUE_SIZE : Z := 32.

(** [DescFlags], a bitflags value over [u16]. *)
Definition NEXT : Z := 1.
Definition WRITE : Z := 2.
Definition flags_empty : Z := 0.
Definition flags_contains (fl bit : Z) : bool := Z.land fl bit =? bit.
Definition flags_remove (fl bit : Z) : Z := Z.land fl (not_u 16 bit).

Record VirtqueueBuf := mkBuf { buf_addr : Z; buf_len : Z }.

#[global] Instance VirtqueueBuf_eq_dec : EqDecision VirtqueueBuf.
Proof. solve_decision. Defined.

Record Descriptor := mkDesc { d_addr : Z; d_len : Z; d_flags : Z; d_next : Z }.

Record DescriptorShadow := mkShadow { s_addr : Z; s_len : Z; s_flags : Z; s_next : Z }.

Definition shadow_default : DescriptorShadow := mkShadow 0 0 flags_empty 0.

Record AvailRing := mkAvail {
  a_flags : Z; a_idx : Z; a_ring : list Z; a_used_event : Z }.

Record UsedElem := mkUsedElem { u_id : Z; u_len : Z }.

Record UsedRing := mkUsed {
  u_flags : Z; u_idx : Z; u_ring : list UsedElem; u_avail_event : Z }.

Record VirtQueue := mkVQ {
  desc : list Descriptor;
  avail : AvailRing;
  used : UsedRing;
  queue_idx : Z;
  queue_size : Z;
  num_used : Z;
  free_head : Z;
  avail_idx : Z;
  last_used_idx : Z;
  desc_shadow : list DescriptorShadow;
  in_use : Z;
  is_head : Z }.

(** Field updates of [self]. *)
Definition set_desc d q := mkVQ d (avail q) (used q) (queue_idx q) (queue_size q)
  (num_used q) (free_head q) (avail_idx q) (last_used_idx q) (desc_shadow q) (in_use q) (is_head q).
Definition set_avail a q := mkVQ (desc q) a (used q) (queue_idx q) (queue_size q)
  (num_used q) (free_head q) (avail_idx q) (last_used_idx q) (desc_shadow q) (in_use q) (is_head q).
Definition set_num_used n q := mkVQ (desc q) (avail q) (used q) (queue_idx q) (queue_size q)
  n (free_head q) (avail_idx q) (last_used_idx q) (desc_shadow q) (in_use q) (is_head q).
Definition set_free_head h q := mkVQ (desc q) (avail q) (used q) (queue_idx q) (queue_size q)
  (num_used q) h (avail_idx q) (last_used_idx q) (desc_shadow q) (in_use q) (is_head q).
Definition set_avail_idx i q := mkVQ (desc q) (avail q) (used q) (queue_idx q) (queue_size q)
  (num_used q) (free_head q) i (last_used_idx q) (desc_shadow q) (in_use q) (is_head q).
Definition set_last_used_idx i q := mkVQ (desc q) (avail q) (used q) (queue_idx q) (queue_size q)
  (num_used q) (free_head q) (avail_idx q) i (desc_shadow q) (in_use q) (is_head q).
Definition set_desc_shadow s q := mkVQ (desc q) (avail q) (used q) (queue_idx q) (queue_size q)
  (num_used q) (free_head q) (avail_idx q) (last_used_idx q) s (in_use q) (is_head q).
Definition set_in_use b q := mkVQ (desc q) (avail q) (used q) (queue_idx q) (queue_size q)
  (num_used q) (free_head q) (avail_idx q) (last_used_idx q) (desc_shadow q) b (is_head q).
Definition set_is_head b q := mkVQ (desc q) (avail q) (used q) (queue_idx q) (queue_size q)
  (num_used q) (free_head q) (avail_idx q) (last_used_idx q) (desc_shadow q) (in_use q) b.

(** ** Ring layout *)

Record VirtQueueLayout := mkLayout { avail_offset : Z; used_offset : Z; layout_size : Z }.

(** [(size + PAGE_SIZE) & !(PAGE_SIZE - 1)] on [usize]. *)
Definition align_up (size : Z) : Z := Z.land (size + PAGE_SIZE) (not_u 64 (PAGE_SIZE - 1)).

Definition size_of_Descriptor : Z := 16.
Definition size_of_UsedElem : Z := 8.

Definition layout_new (qs : Z) : option VirtQueueLayout :=
  if negb (is_power_of_two qs) || (32768 <? qs) then None
  else
    let desc := size_of_Descriptor * qs in
    let avail := 2 * (3 + qs) in
    let used := 2 * 3 + size_of_UsedElem * qs in
    Some (mkLayout desc (align_up (desc + avail)) (align_up (desc + avail) + align_up used)).

(** ** The transport a device is programmed through

    The trait [VirtioTransport]; its implementation over PCI is in VirtioPci.
    Reading a register may give another value every time, so every call is a
    computation on the transport. *)

Class VirtioTransport (T : Type) := {
  vt_init : Z → M T VirtioError unit;
  get_status : M T VirtioError Z;
  set_status : Z → M T VirtioError unit;
  add_status : Z → M T VirtioError unit;
  vt_reset : M T VirtioError unit;
  get_features : M T VirtioError Z;
  set_features : Z → M T VirtioError unit;
  set_queue : Z → M T VirtioError unit;
  get_queue_max_size : M T VirtioError Z;
  set_queue_size : Z → M T VirtioError unit;
  set_descriptors_address : Z → M T VirtioError unit;
  set_avail_ring : Z → M T VirtioError unit;
  set_used_ring : Z → M T VirtioError unit;
  set_queue_enable : M T VirtioError unit;
  set_interrupt_vector : Z → M T VirtioError Z;
  set_config_notify : Z → M T VirtioError unit;
  set_queue_notify : Z → M T VirtioError unit;
  notify_queue : Z → M T VirtioError unit;
  read_device_config : Z → M T VirtioError Z }.

(** What the ring pages hold when the queue is created: host-writable memory,
    so any values. *)
Record RingMemory := mkRingMem {
  mem_desc : nat → Descriptor; mem_avail : AvailRing; mem_used : UsedRing }.

(** ** Operations *)

(** [for i in 0..(queue_size - 1) { desc[i].next.write(i + 1); desc_shadow[i].next = i + 1 }] *)
Fixpoint link_descriptors (i : Z) (n : nat) (d : list Descriptor) (s : list DescriptorShadow)
  : option (list Descriptor * list DescriptorShadow) :=
  match n with
  | O => Some (d, s)
  | S n' =>
      match alterz (λ x, mkDesc (d_addr x) (d_len x) (d_flags x) (i + 1)) i d,
            alterz (λ x, mkShadow (s_addr x) (s_len x) (s_flags x) (i + 1)) i s with
      | Some d', Some s' => link_descriptors (i + 1) n' d' s'
      | _, _ => None
      end
  end.

Definition vq_new {T} `{VirtioTransport T} (mem : RingMemory) (idx dma_addr qs : Z)
  : M T VirtioError VirtQueue :=
  max ← (if negb (is_power_of_two qs) then mret 0 else get_queue_max_size);
  _ ← err_if (negb (is_power_of_two qs) || (max <? qs) || (MAX_QUEUE_SIZE <? qs)) InvalidParameter;
  layout ← ok_or (layout_new qs) CreateVirtioQueue;
  _ ← set_descriptors_address dma_addr;
  a ← or_panic (add_u 64 dma_addr (avail_offset layout));
  _ ← set_avail_ring a;
  u ← or_panic (add_u 64 dma_addr (used_offset layout));
  _ ← set_used_ring u;
  let d0 := map (mem_desc mem) (seq 0 (Z.to_nat qs)) in
  let s0 := replicate (Z.to_nat MAX_QUEUE_SIZE) shadow_default in
  '(d, s) ← or_panic (link_descriptors 0 (Z.to_nat (qs - 1)) d0 s0);
  mret (mkVQ d (mem_avail mem) (mem_used mem) (as_u 32 idx) qs 0 0 0 0 s 0 0).

Definition add_descriptor (buf : VirtqueueBuf) (flag : Z) : M VirtQueue VirtioError Z :=
  q ← getS;
  let index := free_head q in
  d ← ok_or (alterz (λ x, mkDesc (buf_addr buf) (buf_len buf) flag (d_next x)) index (desc q))
        InvalidDescriptorIndex;
  _ ← modifyS (set_desc d);
  s ← or_panic (alterz (λ x, mkShadow (buf_addr buf) (buf_len buf) flag (s_next x)) index
                  (desc_shadow q));
  _ ← modifyS (set_desc_shadow s);
  sh ← or_panic (nthz s index);
  let last := free_head q in
  _ ← modifyS (set_free_head (s_next sh));
  bit ← or_panic (shl_u 32 1 index);
  _ ← modifyS (λ q, set_in_use (Z.lor (in_use q) bit) q);
  mret last.

(** [for buf in bufs.iter() { last = self.add_descriptor(buf, flag)?; }] *)
Fixpoint add_descriptors (bufs : list VirtqueueBuf) (flag last : Z) : M VirtQueue VirtioError Z :=
  match bufs with
  | [] => mret last
  | b :: bs => last' ← add_descriptor b flag; add_descriptors bs flag last'
  end.

Definition add (g2h h2g : list VirtqueueBuf) : M VirtQueue VirtioError Z :=
  q ← getS;
  _ ← err_if (bool_decide (g2h = []) && bool_decide (h2g = [])) InvalidParameter;
  _ ← err_if (queue_size q <? lenz g2h + lenz h2g + num_used q) BufferTooSmall;
  let head := free_head q in
  last ← add_descriptors g2h NEXT head;
  last ← add_descriptors h2g (Z.lor NEXT WRITE) last;
  q ← getS;
  s ← ok_or (alterz (λ x, mkShadow (s_addr x) (s_len x) (flags_remove (s_flags x) NEXT) (s_next x))
               last (desc_shadow q)) InvalidDescriptorIndex;
  _ ← modifyS (set_desc_shadow s);
  sh ← or_panic (nthz s last);
  d ← ok_or (alterz (λ x, mkDesc (d_addr x) (d_len x) (s_flags sh) (d_next x)) last (desc q))
        InvalidDescriptorIndex;
  _ ← modifyS (set_desc d);
  n ← or_panic (add_u 16 (num_used q) (as_u 16 (lenz g2h + lenz h2g)));
  _ ← modifyS (set_num_used n);
  bit ← or_panic (shl_u 32 1 head);
  _ ← modifyS (λ q, set_is_head (Z.lor (is_head q) bit) q);
  let avail_slot := Z.land (avail_idx q) (queue_size q - 1) in
  ring ← ok_or (alterz (λ _, head) avail_slot (a_ring (avail q))) InvalidDescriptorIndex;
  _ ← modifyS (λ q, set_avail (mkAvail (a_flags (avail q)) (a_idx (avail q)) ring
                                 (a_used_event (avail q))) q);
  _ ← modifyS (λ q, set_avail_idx (wrapping_add 16 (avail_idx q) 1) q);
  _ ← modifyS (λ q, set_avail (mkAvail (a_flags (avail q)) (avail_idx q) (a_ring (avail q))
                                 (avail_idx q)) q);
  mret head.

Definition can_pop (q : VirtQueue) : bool := negb (last_used_idx q =? u_idx (used q)).

Definition available_desc (q : VirtQueue) : option Z := sub_u (queue_size q) (num_used q).

(** The state [recycle_descriptors] and [pop_used] change: [self] and the two
    vectors the caller passes by [&mut]. *)
Record PopState := mkPop {
  p_vq : VirtQueue; p_g2h : list VirtqueueBuf; p_h2g : list VirtqueueBuf }.

Definition on_vq (f : VirtQueue → VirtQueue) (p : PopState) : PopState :=
  mkPop (f (p_vq p)) (p_g2h p) (p_h2g p).

Definition push_buf (write : bool) (b : VirtqueueBuf) (p : PopState) : PopState :=
  if write then mkPop (p_vq p) (p_g2h p) (p_h2g p ++ [b])
  else mkPop (p_vq p) (p_g2h p ++ [b]) (p_h2g p).

(** The loop [while self.num_used > 0]; every turn takes one from [num_used],
    so [fuel] equal to its first value covers all turns. *)
Fixpoint recycle_loop (fuel : nat) (origin_free_head head recorded_len : Z)
  : M PopState VirtioError Z :=
  p ← getS;
  let q := p_vq p in
  if num_used q <=? 0 then mret recorded_len
  else match fuel with
  | O => panicM
  | S fuel' =>
      let index := head in
      _ ← err_if (queue_size q <=? index) InvalidDescriptor;
      bit ← or_panic (shl_u 32 1 index);
      _ ← err_if (Z.land (in_use q) bit =? 0) InvalidDescriptor;
      shadow ← or_panic (nthz (desc_shadow q) index);
      let flags := s_flags shadow in
      _ ← modifyS (on_vq (λ q, set_in_use (Z.land (in_use q) (not_u 32 bit)) q));
      _ ← modifyS (on_vq (λ q, set_is_head (Z.land (is_head q) (not_u 32 bit)) q));
      n ← or_panic (sub_u (num_used q) 1);
      _ ← modifyS (on_vq (set_num_used n));
      let recorded_len := saturating_add 32 recorded_len (s_len shadow) in
      _ ← modifyS (push_buf (flags_contains flags WRITE) (mkBuf (s_addr shadow) (s_len shadow)));
      if flags_contains flags NEXT then
        _ ← err_if (n =? 0) InvalidDescriptor;
        recycle_loop fuel' origin_free_head (s_next shadow) recorded_len
      else
        s ← or_panic (alterz (λ x, mkShadow (s_addr x) (s_len x) (s_flags x) origin_free_head) index
                        (desc_shadow q));
        _ ← modifyS (on_vq (set_desc_shadow s));
        d ← ok_or (alterz (λ x, mkDesc (d_addr x) (d_len x) (d_flags x) origin_free_head) index
                     (desc q)) InvalidDescriptorIndex;
        _ ← modifyS (on_vq (set_desc d));
        mret recorded_len
  end.

Definition recycle_descriptors (head : Z) : M PopState VirtioError Z :=
  p ← getS;
  let origin_free_head := free_head (p_vq p) in
  _ ← modifyS (on_vq (set_free_head head));
  recycle_loop (Z.to_nat (num_used (p_vq p))) origin_free_head head 0.

Definition pop_used : M PopState VirtioError Z :=
  p ← getS;
  let q := p_vq p in
  _ ← err_if (negb (can_pop q)) NotReady;
  let slot := Z.land (last_used_idx q) (queue_size q - 1) in
  elem ← ok_or (nthz (u_ring (used q)) slot) InvalidRingIndex;
  let index := as_u 16 (u_id elem) in
  let len := u_len elem in
  _ ← err_if (queue_size q <=? index) InvalidDescriptor;
  bit ← or_panic (shl_u 32 1 index);
  _ ← err_if (Z.land (in_use q) bit =? 0) InvalidDescriptor;
  _ ← err_if (Z.land (is_head q) bit =? 0) InvalidDescriptor;
  recorded_len ← recycle_descriptors index;
  _ ← modifyS (on_vq (λ q, set_last_used_idx (wrapping_add 16 (last_used_idx q) 1) q));
  mret (Z.min len recorded_len).
