(* ===== verification/VirtQueueSpec.v ===== *)
(** * VirtQueueSpec

    What a virtqueue promises its owner against a hostile host, the invariant
    of the driver's private state, and the proof that [new], [add] and
    [pop_used] of VirtQueue.v implement the promise. *)
From stdpp Require Import base tactics numbers list list_numbers option gmap.
From S2P Require Import Prelude VirtQueue.
Local Open Scope Z_scope.

(** ** Specification

    A queue owner sees a set of outstanding requests: a token (the head of a
    descriptor chain) with the buffers the device reads ([g2h]) and the buffers
    it writes ([h2g]). *)

Abbreviation requests := (gmap Z (list VirtqueueBuf * list VirtqueueBuf)).

(** The host may rewrite everything that lives in shared memory. *)
Definition host_step (q q' : VirtQueue) : Prop :=
  length (desc q') = length (desc q) ∧
  length (a_ring (avail q')) = length (a_ring (avail q)) ∧
  length (u_ring (used q')) = length (u_ring (used q)) ∧
  q' = mkVQ (desc q') (avail q') (used q') (queue_idx q) (queue_size q) (num_used q)
         (free_head q) (avail_idx q) (last_used_idx q) (desc_shadow q) (in_use q) (is_head q).

(** The host completes [token]: it fills the used slot the driver looks at next
    and advances its index. *)
Definition host_complete (token len : Z) (q : VirtQueue) : VirtQueue :=
  mkVQ (desc q) (avail q)
    (mkUsed (u_flags (used q)) (wrapping_add 16 (last_used_idx q) 1)
       (<[Z.to_nat (Z.land (last_used_idx q) (queue_size q - 1)) := mkUsedElem token len]>
          (u_ring (used q))) (u_avail_event (used q)))
    (queue_idx q) (queue_size q) (num_used q) (free_head q) (avail_idx q) (last_used_idx q)
    (desc_shadow q) (in_use q) (is_head q).

(** [links s a l z]: starting at [a] and following the shadow's [next], the
    nodes [l] are visited and the pointer left over is [z]. *)
Fixpoint links (s : list DescriptorShadow) (a : Z) (l : list Z) (z : Z) : Prop :=
  match l with
  | [] => a = z
  | i :: l' => i = a ∧ ∃ x, nthz s a = Some x ∧ links s (s_next x) l' z
  end.

(** What a shadow entry of an outstanding chain records: direction, buffer and
    whether the chain goes on. *)
Definition node_ok (s : list DescriptorShadow) (i : Z) (n : bool * VirtqueueBuf * bool) : Prop :=
  ∃ x, nthz s i = Some x ∧
    flags_contains (s_flags x) WRITE = n.1.1 ∧
    mkBuf (s_addr x) (s_len x) = n.1.2 ∧
    flags_contains (s_flags x) NEXT = n.2.

(** The contents of a chain holding [g2h] then [h2g]: [NEXT] on all but the last. *)
Fixpoint mark_last (l : list (bool * VirtqueueBuf)) : list (bool * VirtqueueBuf * bool) :=
  match l with
  | [] => []
  | [x] => [(x, false)]
  | x :: l' => (x, true) :: mark_last l'
  end.

Definition contents (r : list VirtqueueBuf * list VirtqueueBuf) : list (bool * VirtqueueBuf) :=
  map (pair false) r.1 ++ map (pair true) r.2.

(** An outstanding chain: its descriptor indices and its request. *)
Record Chain := mkChain { c_nodes : list Z; c_req : list VirtqueueBuf * list VirtqueueBuf }.

Definition c_head (c : Chain) : Z := hd 0 (c_nodes c).

Definition chain_ok (s : list DescriptorShadow) (c : Chain) : Prop :=
  c_nodes c ≠ [] ∧ (∃ z, links s (c_head c) (c_nodes c) z) ∧
  Forall2 (node_ok s) (c_nodes c) (mark_last (contents (c_req c))) ∧
  Forall (λ b, in_u 32 (buf_len b)) ((c_req c).1 ++ (c_req c).2).

Definition nodes (cs : list Chain) : list Z := concat (map c_nodes cs).

(** Sizes fixed by the types of the fields. *)
Record vq_typed (q : VirtQueue) : Prop := {
  ty_pow2 : is_power_of_two (queue_size q) = true;
  ty_max : queue_size q <= MAX_QUEUE_SIZE;
  ty_desc : lenz (desc q) = queue_size q;
  ty_shadow : lenz (desc_shadow q) = MAX_QUEUE_SIZE;
  ty_avail : lenz (a_ring (avail q)) = MAX_QUEUE_SIZE;
  ty_used : lenz (u_ring (used q)) = MAX_QUEUE_SIZE }.

(** The invariant of the private state: the free list and the outstanding
    chains partition the descriptor indices, and the bitmaps and counter agree
    with the chains. *)
Record vq_inv (q : VirtQueue) (fl : list Z) (cs : list Chain) : Prop := {
  inv_typed : vq_typed q;
  inv_perm : fl ++ nodes cs ≡ₚ seqZ 0 (queue_size q);
  inv_free : ∃ z, links (desc_shadow q) (free_head q) fl z;
  inv_chains : Forall (chain_ok (desc_shadow q)) cs;
  inv_in_use : ∀ i, 0 <= i < 32 → Z.testbit (in_use q) i = bool_decide (i ∈ nodes cs);
  inv_is_head : ∀ i, 0 <= i < 32 → Z.testbit (is_head q) i = bool_decide (i ∈ map c_head cs);
  inv_num : num_used q = lenz (nodes cs) }.

Definition requests_of (cs : list Chain) : requests :=
  list_to_map (map (λ c, (c_head c, c_req c)) cs).

(** [vq_abs q m]: the queue [q] has exactly the requests [m] outstanding. *)
Definition vq_abs (q : VirtQueue) (m : requests) : Prop :=
  ∃ fl cs, vq_inv q fl cs ∧ m = requests_of cs.

(** Descriptors taken by the outstanding requests. *)
Definition used_descs (m : requests) : Z :=
  map_fold (λ _ r n, lenz r.1 + lenz r.2 + n) 0 m.

Definition total_len (bs : list VirtqueueBuf) : Z := foldr (λ b n, buf_len b + n) 0 bs.

(** Every way a queue can evolve: it is created on ring pages of any content,
    the host rewrites shared memory, the driver adds and pops (with success or
    an error).  The trace records the successful operations of the driver. *)
Inductive event :=
  | EAdd (token : Z) (r : list VirtqueueBuf * list VirtqueueBuf)
  | EPop (token : Z) (r : list VirtqueueBuf * list VirtqueueBuf) (len : Z).

Definition token_of_slot (q : VirtQueue) : option Z :=
  (λ e, as_u 16 (u_id e)) <$> nthz (u_ring (used q)) (Z.land (last_used_idx q) (queue_size q - 1)).

Inductive vq_reach {T} `{VirtioTransport T} : VirtQueue → list event → Prop :=
  | reach_new mem idx dma_addr qs t q t' :
      lenz (a_ring (mem_avail mem)) = MAX_QUEUE_SIZE →
      lenz (u_ring (mem_used mem)) = MAX_QUEUE_SIZE →
      vq_new mem idx dma_addr qs t = (Ok q, t') → vq_reach q []
  | reach_host q q' tr : vq_reach q tr → host_step q q' → vq_reach q' tr
  | reach_add q q' tr g2h h2g token :
      vq_reach q tr → Forall (λ b, in_u 32 (buf_len b)) (g2h ++ h2g) →
      add g2h h2g q = (Ok token, q') → vq_reach q' (tr ++ [EAdd token (g2h, h2g)])
  | reach_add_err q q' tr g2h h2g e :
      vq_reach q tr → Forall (λ b, in_u 32 (buf_len b)) (g2h ++ h2g) →
      add g2h h2g q = (Err e, q') → vq_reach q' tr
  | reach_pop q q' tr g2h h2g n token :
      vq_reach q tr → token_of_slot q = Some token →
      pop_used (mkPop q [] []) = (Ok n, mkPop q' g2h h2g) →
      vq_reach q' (tr ++ [EPop token (g2h, h2g) n])
  | reach_pop_err q p tr e :
      vq_reach q tr → pop_used (mkPop q [] []) = (Err e, p) → vq_reach (p_vq p) tr.

(** The requests a trace leaves outstanding; [None] when it returns a request
    that was not outstanding, or reports more bytes than the request holds. *)
Fixpoint replay (tr : list event) (m : requests) : option requests :=
  match tr with
  | [] => Some m
  | EAdd t r :: tr' =>
      if decide (m !! t = None) then replay tr' (<[t := r]> m) else None
  | EPop t r n :: tr' =>
      if decide (m !! t = Some r ∧ n <= total_len (r.1 ++ r.2)) then replay tr' (delete t m) else None
  end.

(** What a driver relies on when it programs a device: starting from a state in
    [t_start], initialization and every register access return, possibly with an
    error, and keep [t_inv]. *)
Class TransportSafe (T : Type) `{VirtioTransport T} := {
  t_start : T → Prop;
  t_inv : T → Prop;
  safe_init n : safe t_start (vt_init n) (λ _, t_inv) t_inv;
  safe_unit (m : M T VirtioError unit) :
    m = set_queue_enable ∨
    (∃ x, m ∈ [set_status x; add_status x; set_queue x; set_queue_size x; set_descriptors_address x;
               set_avail_ring x; set_used_ring x; set_queue_notify x; notify_queue x]) →
    safe t_inv m (λ _, t_inv) t_inv;
  safe_value (m : M T VirtioError Z) :
    m = get_status ∨ m = get_queue_max_size ∨ (∃ x, m ∈ [set_interrupt_vector x; read_device_config x]) →
    safe t_inv m (λ _, t_inv) t_inv }.

(** ** Lemmas *)

Lemma pow2_cases qs :
  is_power_of_two qs = true → qs <= MAX_QUEUE_SIZE → ∃ k, 0 <= k <= 5 ∧ qs = 2 ^ k.
Proof.
  unfold is_power_of_two, MAX_QUEUE_SIZE. intros [H1 H2]%andb_true_iff H3.
  apply Z.ltb_lt in H1.
  assert (qs ∈ seqZ 1 32) as Hin by (apply elem_of_seqZ; lia).
  assert (Forall (λ z, (Z.land z (z - 1) =? 0) = true →
            z = 2 ^ 0 ∨ z = 2 ^ 1 ∨ z = 2 ^ 2 ∨ z = 2 ^ 3 ∨ z = 2 ^ 4 ∨ z = 2 ^ 5) (seqZ 1 32)) as HF.
  { repeat (constructor; [vm_compute; intros; try discriminate; tauto|]). constructor. }
  rewrite Forall_forall in HF. specialize (HF qs Hin H2).
  destruct HF as [?|[?|[?|[?|[?|?]]]]]; eexists; (split; [|eassumption]); lia.
Qed.

(** The rings of every accepted size lie apart inside the layout, with room for
    the fixed-size ring structures the driver overlays on them. *)
Lemma layout_small qs :
  is_power_of_two qs = true → qs <= MAX_QUEUE_SIZE →
  ∃ l, layout_new qs = Some l ∧
    (size_of_Descriptor * qs <= avail_offset l ∧ avail_offset l + (4 + 2 * MAX_QUEUE_SIZE + 2) <= used_offset l ∧
     used_offset l + (4 + size_of_UsedElem * MAX_QUEUE_SIZE + 4) <= layout_size l ∧
     used_offset l mod PAGE_SIZE = 0 ∧ layout_size l = 2 * PAGE_SIZE).
Proof.
  intros Hp Hm. destruct (pow2_cases _ Hp Hm) as (k & Hk & ->).
  assert (k = 0 ∨ k = 1 ∨ k = 2 ∨ k = 3 ∨ k = 4 ∨ k = 5) as Hc by lia.
  destruct Hc as [->|[->|[->|[->|[->| ->]]]]]; vm_compute; eexists; repeat split; discriminate.
Qed.

Lemma avail_slot_range q i : vq_typed q → 0 <= Z.land i (queue_size q - 1) < 32.
Proof.
  intros Hty. destruct (pow2_cases _ (ty_pow2 _ Hty) (ty_max _ Hty)) as (k & Hk & ->).
  pose proof (land_mask_range i k ltac:(lia)).
  assert (2 ^ k <= 2 ^ 5) by (apply Z.pow_le_mono_r; lia). change (2 ^ 5) with 32 in *. lia.
Qed.

Definition same_next (s s' : list DescriptorShadow) : Prop :=
  ∀ i, s_next <$> nthz s' i = s_next <$> nthz s i.

Lemma links_same_next s s' l : ∀ a z, same_next s s' → links s a l z → links s' a l z.
Proof.
  induction l as [|i l IH]; simpl; [done|]. intros a z Hs [-> (x & Hx & Hl)].
  split; [done|]. specialize (Hs a) as Ha. rewrite Hx in Ha.
  destruct (nthz s' a) as [y|] eqn:Hy; simplify_eq/=. exists y. split; [done|].
  rewrite Ha. by apply IH.
Qed.

Lemma links_frame s s' l : ∀ a z,
  (∀ i, i ∈ l → nthz s' i = nthz s i) → links s a l z → links s' a l z.
Proof.
  induction l as [|i l IH]; simpl; [done|]. intros a z Hs [-> (x & Hx & Hl)].
  split; [done|]. exists x. split; [rewrite Hs; set_solver|]. apply IH; set_solver.
Qed.

Lemma links_app s l : ∀ a k z, links s a (l ++ k) z ↔ ∃ y, links s a l y ∧ links s y k z.
Proof.
  induction l as [|i l IH]; intros a k z; simpl; [naive_solver|].
  setoid_rewrite IH. naive_solver.
Qed.

Lemma links_head s a i l z : links s a (i :: l) z → a = i.
Proof. by intros [-> _]. Qed.

Lemma node_ok_frame s s' c ns :
  (∀ i, i ∈ c → nthz s' i = nthz s i) → Forall2 (node_ok s) c ns → Forall2 (node_ok s') c ns.
Proof.
  intros Hs HF. revert Hs. induction HF as [|i n c ns (x & Hx & ?) HF IH]; intros Hs; constructor.
  - exists x. rewrite Hs; [done|set_solver].
  - apply IH. set_solver.
Qed.

Lemma length_mark_last l : length (mark_last l) = length l.
Proof. induction l as [|a [|b l] IH]; [done|done|]. simpl in *. by rewrite IH. Qed.

(** *** Adding descriptors *)

(** Fill the free slot [i] with [b]; its link stays. *)
Definition shadow_put (b : VirtqueueBuf) (flag i : Z) (s : list DescriptorShadow) :=
  match nthz s i with
  | Some x => <[Z.to_nat i := mkShadow (buf_addr b) (buf_len b) flag (s_next x)]> s
  | None => s
  end.

Lemma add_descriptor_ok q b flag x y :
  nthz (desc_shadow q) (free_head q) = Some x →
  nthz (desc q) (free_head q) = Some y → free_head q < 32 →
  add_descriptor b flag q =
    (Ok (free_head q),
     mkVQ (<[Z.to_nat (free_head q) := mkDesc (buf_addr b) (buf_len b) flag (d_next y)]> (desc q))
       (avail q) (used q) (queue_idx q) (queue_size q) (num_used q) (s_next x) (avail_idx q)
       (last_used_idx q) (shadow_put b flag (free_head q) (desc_shadow q))
       (Z.lor (in_use q) (2 ^ free_head q)) (is_head q)).
Proof.
  intros Hx Hy Hlt. pose proof (nthz_Some _ _ _ Hx) as Hr. unfold add_descriptor, shadow_put.
  rewrite Hx. mrun. rewrite (alterz_Some _ _ _ _ Hy). mrun.
  rewrite (alterz_Some _ _ _ _ Hx). mrun.
  rewrite nthz_insert, Z.eqb_refl by done. mrun.
  rewrite shl_u_one by lia. mrun. done.
Qed.

Lemma nthz_shadow_put b flag i s x j :
  nthz s i = Some x →
  nthz (shadow_put b flag i s) j =
    if i =? j then Some (mkShadow (buf_addr b) (buf_len b) flag (s_next x)) else nthz s j.
Proof.
  intros Hx. unfold shadow_put. rewrite Hx. apply nthz_insert. by eapply nthz_Some.
Qed.

Lemma lenz_shadow_put b flag i s : lenz (shadow_put b flag i s) = lenz s.
Proof. unfold shadow_put. case_match; [apply lenz_insert|done]. Qed.

Lemma same_next_shadow_put b flag i s : same_next s (shadow_put b flag i s).
Proof.
  intros j. destruct (nthz s i) as [x|] eqn:Hx; [|unfold shadow_put; by rewrite Hx].
  rewrite (nthz_shadow_put _ _ _ _ _ _ Hx). destruct (Z.eqb_spec i j); subst; [by rewrite Hx|done].
Qed.

(** A filled slot that still carries [NEXT]. *)
Definition filled (s : list DescriptorShadow) (flag i : Z) (b : VirtqueueBuf) : Prop :=
  ∃ x, nthz s i = Some x ∧ s_flags x = flag ∧ mkBuf (s_addr x) (s_len x) = b.

Lemma filled_frame s s' flag c bs :
  (∀ i, i ∈ c → nthz s' i = nthz s i) →
  Forall2 (filled s flag) c bs → Forall2 (filled s' flag) c bs.
Proof.
  intros Hs HF. revert Hs. induction HF as [|i b c bs (x & Hx & ?) HF IH]; intros Hs; constructor.
  - exists x. rewrite Hs; [done|set_solver].
  - apply IH. set_solver.
Qed.

Lemma typed_slots q i : vq_typed q → 0 <= i < queue_size q →
  (∃ x, nthz (desc_shadow q) i = Some x) ∧ (∃ y, nthz (desc q) i = Some y) ∧ i < 32.
Proof.
  intros Hty Hi. pose proof (ty_max _ Hty). unfold MAX_QUEUE_SIZE in *.
  split; [|split; [|lia]]; apply nthz_is_Some; rewrite ?(ty_desc _ Hty), ?(ty_shadow _ Hty);
    unfold MAX_QUEUE_SIZE; lia.
Qed.

Lemma last_default {A} (c : list A) d d' : c ≠ [] → List.last c d = List.last c d'.
Proof. induction c as [|a [|b c] IH]; [done|done|]. intros _. by apply IH. Qed.

Lemma add_descriptors_ok flag bufs : ∀ q last c r z,
  length c = length bufs → links (desc_shadow q) (free_head q) (c ++ r) z →
  NoDup c → Forall (λ i, 0 <= i < queue_size q) c → vq_typed q →
  ∃ d' s' iu' fh',
    add_descriptors bufs flag last q =
      (Ok (List.last c last),
       mkVQ d' (avail q) (used q) (queue_idx q) (queue_size q) (num_used q) fh' (avail_idx q)
         (last_used_idx q) s' iu' (is_head q)) ∧
    lenz d' = lenz (desc q) ∧ lenz s' = lenz (desc_shadow q) ∧
    same_next (desc_shadow q) s' ∧
    (∀ i, i ∉ c → nthz s' i = nthz (desc_shadow q) i) ∧
    Forall2 (filled s' flag) c bufs ∧ links s' fh' r z ∧
    (∀ i, Z.testbit iu' i = Z.testbit (in_use q) i || bool_decide (i ∈ c)).
Proof.
  induction bufs as [|b bufs IH]; intros q last c r z Hlen Hl Hnd Hr Hty.
  { apply nil_length_inv in Hlen as ->. destruct q; simpl in *.
    do 4 eexists. split; [done|]. repeat split; try done. intros i. by rewrite orb_false_r. }
  destruct c as [|i c]; [done|]. simpl in Hl. destruct Hl as [-> (x & Hx & Hl)].
  apply NoDup_cons in Hnd as [Hni Hnd]. apply Forall_cons in Hr as [Hi Hr].
  destruct (typed_slots q _ Hty Hi) as (_ & (y & Hy) & Hlt).
  cbn [add_descriptors]. rewrite M_bind_eq, (add_descriptor_ok q b flag x y) by done. cbv beta iota.
  set (q1 := mkVQ _ _ _ _ _ _ _ _ _ _ _ _).
  destruct (IH q1 (free_head q) c r z) as (d' & s' & iu' & fh' & Heq & Hd & Hs & Hn & Hf & Hfill & Hr' & Hb).
  { by injection Hlen. }
  { eapply links_same_next; [apply same_next_shadow_put|done]. }
  { done. } { done. }
  { destruct Hty. split; simpl; rewrite ?lenz_insert, ?lenz_shadow_put; done. }
  exists d', s', iu', fh'. rewrite Heq. simpl in *.
  split. { f_equal. f_equal. destruct c; [done|]. by apply last_default. }
  split; [by rewrite Hd, lenz_insert|]. split; [by rewrite Hs, lenz_shadow_put|].
  split. { intros j. rewrite (Hn j). apply same_next_shadow_put. }
  split. { intros j Hj. rewrite Hf by set_solver. rewrite (nthz_shadow_put _ _ _ _ _ _ Hx).
           destruct (Z.eqb_spec (free_head q) j); [exfalso; set_solver|done]. }
  split. { constructor; [|done]. eexists. rewrite Hf by done.
           rewrite (nthz_shadow_put _ _ _ _ _ _ Hx), Z.eqb_refl. split; [done|]. by destruct b. }
  split; [done|]. intros j. rewrite Hb, lor_bit by lia. rewrite <-orb_assoc. f_equal.
  destruct (Z.eqb_spec (free_head q) j) as [->|]; simpl.
  - symmetry. apply bool_decide_eq_true. set_solver.
  - apply bool_decide_ext. set_solver.
Qed.

Definition flag_of (w : bool) : Z := if w then Z.lor NEXT WRITE else NEXT.

Definition shadow_seal (x : DescriptorShadow) : DescriptorShadow :=
  mkShadow (s_addr x) (s_len x) (flags_remove (s_flags x) NEXT) (s_next x).

Lemma seal_ok s c bs d :
  Forall2 (λ i wb, filled s (flag_of wb.1) i wb.2) c bs → NoDup c → c ≠ [] →
  ∃ x, nthz s (List.last c d) = Some x ∧
    Forall2 (node_ok (<[Z.to_nat (List.last c d) := shadow_seal x]> s)) c (mark_last bs).
Proof.
  induction 1 as [|i [w b] c bs Hi HF IH]; [done|]. intros [Hni Hnd]%NoDup_cons _.
  destruct Hi as (x & Hx & Hfl & Hb). destruct c as [|j c].
  { apply Forall2_nil_inv_l in HF as ->. exists x. split; [done|]. simpl.
    constructor; [|done]. exists (shadow_seal x).
    rewrite nthz_insert, Z.eqb_refl by (by eapply nthz_Some). simpl in *. rewrite Hfl.
    by destruct w. }
  destruct IH as (y & Hy & HF'); [done|done|]. exists y.
  destruct bs as [|wb bs]; [by inversion HF|].
  change (List.last (i :: j :: c) d) with (List.last (j :: c) d).
  split; [done|]. change (mark_last ((w, b) :: wb :: bs)) with (((w, b), true) :: mark_last (wb :: bs)).
  constructor; [|done]. exists x. rewrite nthz_insert by (by eapply nthz_Some).
  assert (List.last (j :: c) d ∈ j :: c) as Hin.
  { apply list_elem_of_In. rewrite (app_removelast_last d (l := j :: c)) at 2 by done.
    apply in_or_app. right. by left. }
  destruct (Z.eqb_spec (List.last (j :: c) d) i) as [Heq|]; [by rewrite Heq in Hin|].
  split; [done|]. simpl in *. rewrite Hfl. by destruct w.
Qed.

Lemma last_app2 {A} (c1 c2 : list A) d : List.last c2 (List.last c1 d) = List.last (c1 ++ c2) d.
Proof.
  destruct c2 as [|a c2]; [by rewrite app_nil_r|].
  rewrite (last_default (a :: c2) _ d) by done. induction c1 as [|b c1 IH]; [done|].
  rewrite IH. simpl. by destruct (c1 ++ a :: c2) eqn:E; [destruct c1|].
Qed.

Lemma filled_contents s c1 c2 g2h h2g :
  Forall2 (filled s NEXT) c1 g2h → Forall2 (filled s (Z.lor NEXT WRITE)) c2 h2g →
  Forall2 (λ i wb, filled s (flag_of wb.1) i wb.2) (c1 ++ c2) (contents (g2h, h2g)).
Proof.
  intros H1 H2. unfold contents. simpl. apply Forall2_app; apply Forall2_fmap_r; done.
Qed.

(** A run of [add] on a queue with room: the chain is the front of the free
    list, its entries are filled and sealed, and nothing else of the shadow
    changes. *)
Lemma add_run q g2h h2g c1 c2 r z :
  vq_typed q → length c1 = length g2h → length c2 = length h2g →
  links (desc_shadow q) (free_head q) (c1 ++ c2 ++ r) z →
  NoDup (c1 ++ c2) → Forall (λ i, 0 <= i < queue_size q) (c1 ++ c2) → c1 ++ c2 ≠ [] →
  0 <= num_used q → lenz (c1 ++ c2) + num_used q <= queue_size q →
  ∃ d' av' s' iu' fh',
    add g2h h2g q =
      (Ok (free_head q),
       mkVQ d' av' (used q) (queue_idx q) (queue_size q) (num_used q + lenz (c1 ++ c2)) fh'
         (wrapping_add 16 (avail_idx q) 1) (last_used_idx q) s' iu'
         (Z.lor (is_head q) (2 ^ free_head q))) ∧
    lenz d' = lenz (desc q) ∧ lenz s' = lenz (desc_shadow q) ∧
    lenz (a_ring av') = lenz (a_ring (avail q)) ∧
    nthz (a_ring av') (Z.land (avail_idx q) (queue_size q - 1)) = Some (free_head q) ∧
    a_idx av' = wrapping_add 16 (avail_idx q) 1 ∧
    (∀ i, i ∉ c1 ++ c2 → nthz s' i = nthz (desc_shadow q) i) ∧
    same_next (desc_shadow q) s' ∧
    Forall2 (node_ok s') (c1 ++ c2) (mark_last (contents (g2h, h2g))) ∧
    links s' fh' r z ∧
    (∀ i, Z.testbit iu' i = Z.testbit (in_use q) i || bool_decide (i ∈ c1 ++ c2)).
Proof.
  intros Hty Hl1 Hl2 Hl Hnd Hr Hne Hn0 Hroom.
  apply NoDup_app in Hnd as Hnd'. destruct Hnd' as (Hnd1 & Hdis & Hnd2).
  apply Forall_app in Hr as Hr'. destruct Hr' as [Hr1 Hr2].
  destruct (add_descriptors_ok NEXT g2h q (free_head q) c1 (c2 ++ r) z)
    as (d1 & s1 & iu1 & fh1 & E1 & Hd1 & Hs1 & Hn1 & Hf1 & Hfl1 & Hk1 & Hb1); try done.
  set (q1 := mkVQ d1 _ _ _ _ _ _ _ _ _ _ _) in E1.
  destruct (add_descriptors_ok (Z.lor NEXT WRITE) h2g q1 (List.last c1 (free_head q)) c2 r z)
    as (d2 & s2 & iu2 & fh2 & E2 & Hd2 & Hs2 & Hn2 & Hf2 & Hfl2 & Hk2 & Hb2); try done.
  { destruct Hty. split; simpl; rewrite ?Hd1, ?Hs1; done. }
  assert (Forall2 (filled s2 NEXT) c1 g2h) as Hfl1'.
  { eapply filled_frame; [|done]. intros i Hi. rewrite Hf2; [done|set_solver]. }
  destruct (seal_ok s2 (c1 ++ c2) (contents (g2h, h2g)) (free_head q)) as (x & Hx & Hsealed);
    [by apply filled_contents|done|done|].
  rewrite last_app2 in E2. set (l := List.last (c1 ++ c2) (free_head q)) in *.
  pose proof (nthz_Some _ _ _ Hx) as Hlr. pose proof (avail_slot_range q (avail_idx q) Hty) as Hslot.
  assert (l ∈ c1 ++ c2) as Hlin.
  { apply list_elem_of_In. unfold l. rewrite (app_removelast_last (free_head q) (l := c1 ++ c2)) at 2 by done.
    apply in_or_app. right. by left. }
  assert (0 <= l < queue_size q) as Hlq by (rewrite Forall_forall in Hr; auto).
  assert (0 <= free_head q < queue_size q) as Hfq.
  { rewrite app_assoc in Hl. destruct (c1 ++ c2) as [|i c] eqn:Ec; [done|].
    apply links_head in Hl as ->. by apply Forall_cons in Hr as [? _]. }
  pose proof (ty_max _ Hty) as Hmax. unfold MAX_QUEUE_SIZE in Hmax.
  destruct (nthz_is_Some d2 l) as [y Hy].
  { rewrite Hd2. simpl. rewrite Hd1, (ty_desc _ Hty). lia. }
  destruct (nthz_is_Some (a_ring (avail q)) (Z.land (avail_idx q) (queue_size q - 1))) as [av Hav].
  { rewrite (ty_avail _ Hty). unfold MAX_QUEUE_SIZE. lia. }
  unfold add. mrun.
  replace (bool_decide (g2h = []) && bool_decide (h2g = [])) with false.
  2: { symmetry. apply andb_false_iff. rewrite !bool_decide_eq_false.
       destruct g2h, h2g; [|by right|by left|by left].
       apply nil_length_inv in Hl1, Hl2. by subst. }
  assert (lenz g2h + lenz h2g = lenz (c1 ++ c2)) as Hlz.
  { unfold lenz. rewrite length_app, <-Hl1, <-Hl2. lia. }
  mrun. rewrite Hlz. destruct (Z.ltb_spec (queue_size q) (lenz (c1 ++ c2) + num_used q)); [lia|].
  mrun. rewrite M_bind_eq, E1. cbv beta iota. rewrite M_bind_eq, E2. cbv beta iota. mrun. simpl.
  rewrite (alterz_Some _ _ _ _ Hx). mrun. rewrite nthz_insert, Z.eqb_refl by done. mrun.
  rewrite (alterz_Some _ _ _ _ Hy). mrun.
  pose proof (lenz_nonneg (c1 ++ c2)).
  unfold as_u, add_u, checked_add. rewrite Z.mod_small by lia.
  destruct (Z.ltb_spec (num_used q + lenz (c1 ++ c2)) (2 ^ 16)); [|lia]. mrun.
  rewrite shl_u_one by lia. mrun. rewrite (alterz_Some _ _ _ _ Hav). mrun.
  do 5 eexists. split; [reflexivity|]. simpl.
  rewrite !lenz_insert. split; [by rewrite Hd2|]. split; [by rewrite Hs2|]. split; [done|].
  split. { rewrite nthz_insert, Z.eqb_refl by (by eapply nthz_Some). done. }
  split; [done|].
  assert (same_next s2 (<[Z.to_nat l:=shadow_seal x]> s2)) as Hsn.
  { intros i. rewrite nthz_insert by done. destruct (Z.eqb_spec l i); subst; [by rewrite Hx|done]. }
  split. { intros i Hi. rewrite nthz_insert by done. destruct (Z.eqb_spec l i); [by subst|].
           rewrite Hf2, Hf1 by set_solver. done. }
  split. { intros i. by rewrite Hsn, Hn2, Hn1. }
  split; [done|]. split; [by eapply links_same_next|].
  intros i. rewrite Hb2. simpl. rewrite Hb1, <-orb_assoc. f_equal.
  rewrite <-bool_decide_or. apply bool_decide_ext. set_solver.
Qed.

(** *** Recycling a chain *)

Definition reads (bs : list (bool * VirtqueueBuf)) : list VirtqueueBuf :=
  omap (λ wb, if wb.1 : bool then None else Some wb.2) bs.
Definition writes (bs : list (bool * VirtqueueBuf)) : list VirtqueueBuf :=
  omap (λ wb, if wb.1 : bool then Some wb.2 else None) bs.
Definition recorded (n : Z) (bs : list (bool * VirtqueueBuf)) : Z :=
  foldl (λ n wb, saturating_add 32 n (buf_len wb.2)) n bs.

Lemma reads_contents r : reads (contents r) = r.1.
Proof.
  unfold reads, contents. rewrite omap_app. destruct r as [g h]; simpl.
  rewrite <-(app_nil_r g) at 2. f_equal.
  - induction g; simpl; [done|by f_equal].
  - induction h; simpl; done.
Qed.

Lemma writes_contents r : writes (contents r) = r.2.
Proof.
  unfold writes, contents. rewrite omap_app. destruct r as [g h]; simpl.
  rewrite <-(app_nil_l h) at 2. f_equal.
  - induction g; simpl; done.
  - induction h; simpl; [done|by f_equal].
Qed.

Lemma push_buf_eq w b bs p :
  push_buf w b p = mkPop (p_vq p) (p_g2h p ++ reads [(w, b)]) (p_h2g p ++ writes [(w, b)]) ∧
  reads ((w, b) :: bs) = reads [(w, b)] ++ reads bs ∧
  writes ((w, b) :: bs) = writes [(w, b)] ++ writes bs.
Proof. destruct w, p; simpl; rewrite ?app_nil_r; done. Qed.

Lemma recycle_bits iu i c j : 0 <= i → 0 <= j < 32 →
  Z.testbit (Z.land iu (not_u 32 (2 ^ i))) j && negb (bool_decide (j ∈ c)) =
  Z.testbit iu j && negb (bool_decide (j ∈ i :: c)).
Proof.
  intros. rewrite clear_bit by lia. rewrite <-andb_assoc. f_equal. rewrite <-negb_orb. f_equal.
  destruct (Z.eqb_spec i j) as [->|]; simpl.
  - symmetry. apply bool_decide_eq_true. set_solver.
  - apply bool_decide_ext. set_solver.
Qed.

(** One turn of the loop: the slot is consumed and its buffer handed out. *)
Definition consume (i : Z) (x : DescriptorShadow) (p : PopState) : PopState :=
  let q := p_vq p in
  let wb := (flags_contains (s_flags x) WRITE, mkBuf (s_addr x) (s_len x)) in
  mkPop (mkVQ (desc q) (avail q) (used q) (queue_idx q) (queue_size q) (num_used q - 1)
           (free_head q) (avail_idx q) (last_used_idx q) (desc_shadow q)
           (Z.land (in_use q) (not_u 32 (2 ^ i))) (Z.land (is_head q) (not_u 32 (2 ^ i))))
    (p_g2h p ++ reads [wb]) (p_h2g p ++ writes [wb]).

Lemma recycle_loop_turn fuel origin i rec p x y :
  vq_typed (p_vq p) → 0 <= i < queue_size (p_vq p) → 1 <= num_used (p_vq p) →
  Z.testbit (in_use (p_vq p)) i = true →
  nthz (desc_shadow (p_vq p)) i = Some x → nthz (desc (p_vq p)) i = Some y →
  recycle_loop (S fuel) origin i rec p =
    let rec' := saturating_add 32 rec (s_len x) in
    if flags_contains (s_flags x) NEXT then
      if num_used (p_vq p) - 1 =? 0 then (Err InvalidDescriptor, consume i x p)
      else recycle_loop fuel origin (s_next x) rec' (consume i x p)
    else
      (Ok rec',
       on_vq (λ q, set_desc (<[Z.to_nat i := mkDesc (d_addr y) (d_len y) (d_flags y) origin]> (desc q))
                (set_desc_shadow (<[Z.to_nat i := mkShadow (s_addr x) (s_len x) (s_flags x) origin]>
                                    (desc_shadow q)) q)) (consume i x p)).
Proof.
  intros Hty Hi Hn Hbit Hx Hy. pose proof (ty_max _ Hty). unfold MAX_QUEUE_SIZE in *.
  cbn [recycle_loop]. mrun. destruct (Z.leb_spec (num_used (p_vq p)) 0); [lia|].
  mrun. destruct (Z.leb_spec (queue_size (p_vq p)) i); [lia|]. mrun.
  rewrite shl_u_one by lia. mrun. rewrite land_bit_zero, Hbit by lia. simpl. mrun.
  rewrite Hx. mrun. unfold sub_u. destruct (Z.leb_spec 1 (num_used (p_vq p))); [|lia]. mrun.
  unfold consume. destruct (flags_contains (s_flags x) NEXT).
  - mrun. destruct (num_used (p_vq p) - 1 =? 0); mrun;
      destruct p as [[] ? ?], (flags_contains (s_flags x) WRITE); simpl; rewrite ?app_nil_r; done.
  - mrun. rewrite (alterz_Some _ _ _ _ Hx). mrun. rewrite (alterz_Some _ _ _ _ Hy). mrun.
    destruct p as [[] ? ?], (flags_contains (s_flags x) WRITE); simpl; rewrite ?app_nil_r; done.
Qed.

Lemma consume_typed i x p : vq_typed (p_vq p) → vq_typed (p_vq (consume i x p)).
Proof. intros []. by split. Qed.

#[local] Arguments reads : simpl never.
#[local] Arguments writes : simpl never.

(** A run of the loop over a whole chain. *)
Lemma recycle_loop_ok origin c : ∀ bs fuel head rec p z,
  vq_typed (p_vq p) → links (desc_shadow (p_vq p)) head c z →
  Forall2 (node_ok (desc_shadow (p_vq p))) c (mark_last bs) → c ≠ [] → NoDup c →
  Forall (λ i, 0 <= i < queue_size (p_vq p)) c →
  Forall (λ i, Z.testbit (in_use (p_vq p)) i = true) c →
  lenz c <= num_used (p_vq p) → (Z.to_nat (num_used (p_vq p)) ≤ fuel)%nat →
  ∃ d' s' iu' ih',
    recycle_loop fuel origin head rec p =
      (Ok (recorded rec bs),
       mkPop (mkVQ d' (avail (p_vq p)) (used (p_vq p)) (queue_idx (p_vq p)) (queue_size (p_vq p))
                (num_used (p_vq p) - lenz c) (free_head (p_vq p)) (avail_idx (p_vq p))
                (last_used_idx (p_vq p)) s' iu' ih')
         (p_g2h p ++ reads bs) (p_h2g p ++ writes bs)) ∧
    lenz d' = lenz (desc (p_vq p)) ∧ lenz s' = lenz (desc_shadow (p_vq p)) ∧
    (∀ i, i ∉ c → nthz s' i = nthz (desc_shadow (p_vq p)) i) ∧ links s' head c origin ∧
    (∀ i, 0 <= i < 32 → Z.testbit iu' i = Z.testbit (in_use (p_vq p)) i && negb (bool_decide (i ∈ c))) ∧
    (∀ i, 0 <= i < 32 → Z.testbit ih' i = Z.testbit (is_head (p_vq p)) i && negb (bool_decide (i ∈ c))).
Proof.
  induction c as [|i c IH]; intros bs fuel head rec p z Hty Hl HF Hne Hnd Hr Hb Hn Hfuel; [done|].
  destruct Hl as [-> (x & Hx & Hl)]. apply NoDup_cons in Hnd as [Hni Hnd].
  apply Forall_cons in Hr as [Hi Hr]. apply Forall_cons in Hb as [Hbi Hb].
  destruct (typed_slots _ _ Hty Hi) as (_ & (y & Hy) & Hi32).
  rewrite lenz_cons in *. pose proof (lenz_nonneg c).
  destruct fuel as [|fuel]; [lia|]. rewrite (recycle_loop_turn fuel origin head rec p x y) by (done || lia).
  pose proof (Forall2_length _ _ _ HF) as Hlen. rewrite length_mark_last in Hlen.
  destruct bs as [|[w b] bs]; [done|].
  destruct (push_buf_eq w b bs p) as (_ & Hrd & Hwr).
  destruct c as [|j c].
  - destruct bs as [|? ?]; [|done].
    apply Forall2_cons_1 in HF as [(x' & Hx' & Hw & Hbf & Hnx) _]. simplify_eq/=.
    rewrite Hnx. unfold on_vq, consume; simpl. do 4 eexists. split; [reflexivity|].
    cbn [desc_shadow set_desc_shadow]. rewrite !lenz_insert. do 2 (split; [done|]).
    split. { intros k Hk. rewrite nthz_insert by (by eapply nthz_Some).
             destruct (Z.eqb_spec head k); [set_solver|done]. }
    split. { split; [done|]. rewrite nthz_insert, Z.eqb_refl by (by eapply nthz_Some). eauto. }
    split; intros k Hk; rewrite <-recycle_bits by lia; by rewrite andb_true_r.
  - destruct bs as [|wb bs]; [done|].
    apply Forall2_cons_1 in HF as [(x' & Hx' & Hw & Hbf & Hnx) HF]. simplify_eq/=. rewrite Hnx.
    rewrite lenz_cons in *. pose proof (lenz_nonneg c).
    destruct (Z.eqb_spec (num_used (p_vq p) - 1) 0); [lia|].
    destruct (IH (wb :: bs) fuel (s_next x) (saturating_add 32 rec (s_len x)) (consume head x p) z)
      as (d' & s' & iu' & ih' & Heq & Hd & Hs & Hf & Hl' & Hiu & Hih); try done; simpl.
    { by apply (consume_typed head x p). }
    { apply Forall_forall. intros k Hk. rewrite Forall_forall in Hr, Hb.
      specialize (Hr _ Hk). specialize (Hb _ Hk). pose proof (ty_max _ Hty). unfold MAX_QUEUE_SIZE in *.
      rewrite clear_bit, Hb by lia. destruct (Z.eqb_spec head k); [by subst|done]. }
    { lia. } { lia. }
    exists d', s', iu', ih'. rewrite Heq. simpl. split.
    { f_equal. f_equal; [f_equal; lia| |]; rewrite ?Hrd, ?Hwr, app_assoc; done. }
    do 2 (split; [done|]). split; [intros k Hk; rewrite Hf; [done|set_solver]|].
    split. { split; [done|]. exists x. split; [rewrite Hf; [done|set_solver]|done]. }
    split; intros k Hk; [rewrite Hiu by done|rewrite Hih by done]; apply recycle_bits; lia.
Qed.

(** *** The invariant *)

Lemma chain_head_in s c : chain_ok s c → c_head c ∈ c_nodes c.
Proof. intros (Hne & _). unfold c_head. destruct (c_nodes c); set_solver. Qed.

Lemma nodes_cons c cs : nodes (c :: cs) = c_nodes c ++ nodes cs.
Proof. done. Qed.

Lemma elem_of_nodes i cs : i ∈ nodes cs ↔ ∃ c, c ∈ cs ∧ i ∈ c_nodes c.
Proof.
  induction cs as [|c cs IH]; [set_solver|]. rewrite nodes_cons, elem_of_app, IH. set_solver.
Qed.

Lemma inv_nodup q fl cs : vq_inv q fl cs → NoDup (fl ++ nodes cs).
Proof. intros H. rewrite (inv_perm _ _ _ H). apply NoDup_seqZ. Qed.

Lemma inv_range q fl cs i : vq_inv q fl cs → i ∈ fl ++ nodes cs → 0 <= i < queue_size q.
Proof. intros H. rewrite (inv_perm _ _ _ H), elem_of_seqZ. lia. Qed.

Lemma inv_size q fl cs : vq_inv q fl cs → lenz fl + lenz (nodes cs) = queue_size q.
Proof.
  intros H. rewrite <-lenz_app. unfold lenz. rewrite (inv_perm _ _ _ H), length_seqZ.
  destruct (pow2_cases _ (ty_pow2 _ (inv_typed _ _ _ H)) (ty_max _ (inv_typed _ _ _ H))) as (k & ? & ->).
  rewrite Z2Nat.id; [done|]. apply Z.pow_nonneg. lia.
Qed.

Lemma nodes_perm cs cs' : cs ≡ₚ cs' → nodes cs ≡ₚ nodes cs'.
Proof.
  unfold nodes. induction 1 as [|c cs cs' _ IH|c c' cs|]; simpl; [done| | |by etrans].
  - by rewrite IH.
  - by rewrite !app_assoc, (Permutation_app_comm (c_nodes c')).
Qed.

Lemma inv_reorder q fl cs cs' : cs ≡ₚ cs' → vq_inv q fl cs → vq_inv q fl cs'.
Proof.
  intros Hp []. pose proof (nodes_perm _ _ Hp) as Hn. split; try done.
  - by rewrite <-Hn.
  - by rewrite <-Hp.
  - intros i Hi. rewrite inv_in_use0 by done. apply bool_decide_ext. by rewrite Hn.
  - intros i Hi. rewrite inv_is_head0 by done. apply bool_decide_ext. by rewrite Hp.
  - rewrite inv_num0. unfold lenz. by rewrite Hn.
Qed.

Lemma heads_nodup s cs : Forall (chain_ok s) cs → NoDup (nodes cs) → NoDup (map c_head cs).
Proof.
  induction 1 as [|c cs Hc HF IH]; [constructor|]. rewrite nodes_cons. intros (_ & Hd & Hn)%NoDup_app.
  constructor; [|by apply IH]. intros (c' & Heq & Hc')%list_elem_of_fmap.
  apply (Hd (c_head c)); [by eapply chain_head_in|]. rewrite Heq. apply elem_of_nodes. exists c'.
  split; [done|]. eapply chain_head_in. rewrite Forall_forall in HF. by apply HF.
Qed.

Lemma requests_of_cons c cs : requests_of (c :: cs) = <[c_head c := c_req c]> (requests_of cs).
Proof. done. Qed.

Lemma requests_of_None cs i : i ∉ map c_head cs → requests_of cs !! i = None.
Proof.
  intros H. apply not_elem_of_list_to_map_1. by rewrite map_map.
Qed.

Lemma requests_of_perm s cs cs' :
  Forall (chain_ok s) cs → NoDup (nodes cs) → cs ≡ₚ cs' → requests_of cs = requests_of cs'.
Proof.
  intros Hc Hn Hp. unfold requests_of. apply list_to_map_proper.
  - rewrite map_map. by eapply heads_nodup.
  - by apply Permutation_map.
Qed.

Lemma chain_req_len s c : chain_ok s c → lenz (c_nodes c) = lenz (c_req c).1 + lenz (c_req c).2.
Proof.
  intros (_ & _ & HF & _). apply Forall2_length in HF. rewrite length_mark_last in HF.
  unfold lenz. rewrite HF. unfold contents. rewrite length_app, !length_map. lia.
Qed.

Lemma used_descs_of s cs :
  Forall (chain_ok s) cs → NoDup (nodes cs) → used_descs (requests_of cs) = lenz (nodes cs).
Proof.
  induction 1 as [|c cs Hc HF IH]; [done|]. intros Hn. pose proof Hn as Hn'.
  rewrite nodes_cons in Hn'. apply NoDup_app in Hn' as (_ & _ & Hn').
  rewrite requests_of_cons, nodes_cons, lenz_app, <-IH by done. unfold used_descs.
  rewrite map_fold_insert_L; [|intros; lia|].
  - by rewrite (chain_req_len s).
  - apply requests_of_None. apply (heads_nodup s (c :: cs)) in Hn; [|by constructor].
    by apply NoDup_cons in Hn as [? _].
Qed.

Lemma abs_used q m : vq_abs q m → num_used q = used_descs m.
Proof.
  intros (fl & cs & H & ->). rewrite (inv_num _ _ _ H). symmetry.
  apply (used_descs_of (desc_shadow q)); [apply H|]. by apply inv_nodup, NoDup_app in H as (_ & _ & ?).
Qed.

Lemma chain_ok_frame s s' c :
  (∀ i, i ∈ c_nodes c → nthz s' i = nthz s i) → chain_ok s c → chain_ok s' c.
Proof.
  intros Hs (Hne & (z & Hl) & HF & Hb). split; [done|]. split; [|split; [|done]].
  - exists z. by eapply links_frame.
  - by eapply node_ok_frame.
Qed.

Lemma chains_frame s s' cs :
  (∀ i, i ∈ nodes cs → nthz s' i = nthz s i) → Forall (chain_ok s) cs → Forall (chain_ok s') cs.
Proof.
  intros Hs. rewrite !Forall_forall. intros H c Hc. eapply chain_ok_frame; [|by apply H].
  intros i Hi. apply Hs, elem_of_nodes. eauto.
Qed.

Lemma add_inv q fl cs g2h h2g :
  vq_inv q fl cs → Forall (λ b, in_u 32 (buf_len b)) (g2h ++ h2g) → g2h ++ h2g ≠ [] →
  lenz g2h + lenz h2g + num_used q <= queue_size q →
  ∃ q' c r,
    add g2h h2g q = (Ok (free_head q), q') ∧
    vq_inv q' r (mkChain c (g2h, h2g) :: cs) ∧ c_head (mkChain c (g2h, h2g)) = free_head q ∧
    nthz (a_ring (avail q')) (Z.land (avail_idx q) (queue_size q - 1)) = Some (free_head q) ∧
    a_idx (avail q') = wrapping_add 16 (avail_idx q) 1.
Proof.
  intros Hinv Hlens Hne Hroom. pose proof (inv_size _ _ _ Hinv) as Hsz.
  pose proof (inv_num _ _ _ Hinv) as Hnum. pose proof (inv_nodup _ _ _ Hinv) as Hnd.
  destruct (inv_free _ _ _ Hinv) as [z Hl].
  set (c1 := take (length g2h) fl). set (c2 := take (length h2g) (drop (length g2h) fl)).
  set (r := drop (length h2g) (drop (length g2h) fl)).
  assert (fl = c1 ++ c2 ++ r) as Hfl by (unfold c1, c2, r; by rewrite !take_drop).
  unfold lenz in Hsz, Hroom, Hnum.
  assert (length c1 = length g2h) as Hl1 by (unfold c1; rewrite length_take; lia).
  assert (length c2 = length h2g) as Hl2 by (unfold c2; rewrite length_take, length_drop; lia).
  clearbody c1 c2 r. subst fl. rewrite app_assoc in Hnd.
  assert (NoDup (c1 ++ c2)) as Hndc by (by rewrite <-app_assoc in Hnd; apply NoDup_app in Hnd as (? & _)).
  assert (c1 ++ c2 ≠ []) as Hnec.
  { intros [-> ->]%app_nil. apply Hne. by destruct g2h, h2g. }
  destruct (add_run q g2h h2g c1 c2 r z)
    as (d' & av' & s' & iu' & fh' & Heq & Hd & Hs & Hav & Hslot & Hidx & Hfr & Hsn & HF & Hr & Hb); try done.
  { apply Hinv. }
  { apply Forall_forall. intros i Hi. eapply inv_range; [done|]. set_solver. }
  { lia. } { rewrite lenz_app. unfold lenz. lia. }
  assert (c_head (mkChain (c1 ++ c2) (g2h, h2g)) = free_head q) as Hhd.
  { unfold c_head. simpl. rewrite app_assoc in Hl.
    destruct (c1 ++ c2); [done|]. simpl in *. by destruct Hl. }
  assert (0 <= free_head q) as Hfh.
  { apply (inv_range _ _ _ (free_head q)) in Hinv; [lia|]. rewrite <-Hhd. unfold c_head. simpl.
    rewrite app_assoc. destruct (c1 ++ c2); set_solver. }
  eexists _, (c1 ++ c2), r. split; [exact Heq|]. split; [|done].
  rewrite <-app_assoc in Hnd. apply NoDup_app in Hnd as (_ & Hdis & _).
  destruct Hinv as [Hty Hperm _ Hch Hiu Hih _]. split; simpl.
  - destruct Hty. split; simpl; congruence.
  - rewrite <-Hperm, nodes_cons. simpl. solve_Permutation.
  - eauto.
  - constructor.
    + split; [done|]. rewrite Hhd. split; [|done]. rewrite app_assoc, links_app in Hl.
      destruct Hl as (y & Hl & _). exists y. by eapply links_same_next.
    + eapply chains_frame; [|done]. intros i Hi. apply Hfr. intros Hi'. apply (Hdis i); set_solver.
  - intros i Hi. rewrite Hb, Hiu, <-bool_decide_or by done. apply bool_decide_ext.
    rewrite nodes_cons. set_solver.
  - intros i Hi. rewrite lor_bit, Hih by lia. rewrite Hhd.
    destruct (Z.eqb_spec (free_head q) i) as [->|]; simpl.
    + rewrite orb_true_r. symmetry. apply bool_decide_eq_true. set_solver.
    + rewrite orb_false_r. apply bool_decide_ext. set_solver.
  - rewrite nodes_cons, !lenz_app. simpl. rewrite lenz_app. unfold lenz. lia.
Qed.

Lemma total_len_app bs bs' : total_len (bs ++ bs') = total_len bs + total_len bs'.
Proof. induction bs; simpl; [done|]. rewrite IHbs. lia. Qed.

Lemma recorded_min r n :
  0 <= n → Forall (λ b, in_u 32 (buf_len b)) (r.1 ++ r.2) →
  recorded (Z.min n (u_max 32)) (contents r) =
    Z.min (n + total_len (r.1 ++ r.2)) (u_max 32).
Proof.
  assert (∀ bs n, 0 <= n → Forall (λ b, in_u 32 (buf_len b)) (map snd bs) →
    recorded (Z.min n (u_max 32)) bs = Z.min (n + total_len (map snd bs)) (u_max 32)) as Hgen.
  { clear. induction bs as [|[w b] bs IH]; intros n Hn HF; unfold recorded; simpl.
    - f_equal. lia.
    - apply Forall_cons in HF as [Hb HF]. simpl in Hb. unfold in_u in Hb.
      replace (saturating_add 32 (Z.min n (u_max 32)) (buf_len b))
        with (Z.min (n + buf_len b) (u_max 32)) by (unfold saturating_add; lia).
      etrans; [apply IH; [lia|done]|]. f_equal. lia. }
  intros Hn HF. specialize (Hgen (contents r) n Hn).
  replace (map snd (contents r)) with (r.1 ++ r.2) in Hgen; [by apply Hgen|].
  unfold contents. rewrite map_app, !map_map. simpl. by rewrite !map_id.
Qed.

Lemma pop_inv q fl c cs g h e :
  vq_inv q fl (c :: cs) → can_pop q = true →
  nthz (u_ring (used q)) (Z.land (last_used_idx q) (queue_size q - 1)) = Some e →
  as_u 16 (u_id e) = c_head c →
  ∃ q',
    pop_used (mkPop q g h) =
      (Ok (Z.min (u_len e) (Z.min (total_len ((c_req c).1 ++ (c_req c).2)) (u_max 32))),
       mkPop q' (g ++ (c_req c).1) (h ++ (c_req c).2)) ∧
    vq_inv q' (c_nodes c ++ fl) cs ∧ queue_size q' = queue_size q ∧
    last_used_idx q' = wrapping_add 16 (last_used_idx q) 1.
Proof.
  intros Hinv Hcp He Hid. pose proof (inv_nodup _ _ _ Hinv) as Hnd.
  pose proof (inv_num _ _ _ Hinv) as Hnum. rewrite nodes_cons, lenz_app in Hnum.
  pose proof (inv_chains _ _ _ Hinv) as Hch. apply Forall_cons in Hch as [Hc Hch].
  pose proof (chain_head_in _ _ Hc) as Hhd. destruct Hc as (Hne & (z & Hl) & HF & Hlens).
  destruct (inv_free _ _ _ Hinv) as [zf Hlf]. pose proof (lenz_nonneg (nodes cs)).
  assert (∀ i, i ∈ c_nodes c → 0 <= i < queue_size q) as Hrange.
  { intros i Hi. eapply inv_range; [done|]. rewrite nodes_cons. set_solver. }
  pose proof (ty_max _ (inv_typed _ _ _ Hinv)) as Hmax. unfold MAX_QUEUE_SIZE in Hmax.
  pose proof (Hrange _ Hhd) as Hhr.
  assert (∀ i, i ∈ c_nodes c → Z.testbit (in_use q) i = true) as Hbits.
  { intros i Hi. specialize (Hrange _ Hi). rewrite (inv_in_use _ _ _ Hinv) by lia.
    apply bool_decide_eq_true. rewrite nodes_cons. set_solver. }
  apply NoDup_app in Hnd as (Hndf & Hdis & Hnd). rewrite nodes_cons in Hnd, Hdis.
  apply NoDup_app in Hnd as (Hndc & Hdis' & Hnd).
  destruct (recycle_loop_ok (free_head q) (c_nodes c) (contents (c_req c)) (Z.to_nat (num_used q))
              (c_head c) 0 (mkPop (set_free_head (c_head c) q) g h) z)
    as (d' & s' & iu' & ih' & Heq & Hd & Hs & Hf & Hl' & Hiu & Hih); simpl; try done.
  { destruct Hinv as [[] _ _ _ _ _ _]. by split. }
  { apply Forall_forall, Hrange. } { apply Forall_forall, Hbits. } { lia. }
  unfold pop_used. mrun. simpl. rewrite Hcp. simpl. mrun. rewrite He. mrun. rewrite Hid.
  destruct (Z.leb_spec (queue_size q) (c_head c)); [lia|]. mrun.
  rewrite shl_u_one by lia. mrun. rewrite !land_bit_zero by lia.
  rewrite Hbits by done. simpl. mrun.
  rewrite (inv_is_head _ _ _ Hinv) by lia.
  rewrite (bool_decide_eq_true_2 (c_head c ∈ _)) by (simpl; set_solver). simpl. mrun.
  unfold recycle_descriptors. rewrite M_bind_eq. mrun. unfold on_vq at 1. simpl.
  rewrite Heq. cbv beta iota. mrun. rewrite reads_contents, writes_contents.
  eexists. split.
  { unfold on_vq. simpl. pose proof (recorded_min (c_req c) 0 ltac:(lia) Hlens) as Hrec.
    change (recorded (Z.min 0 (u_max 32)) (contents (c_req c))) with (recorded 0 (contents (c_req c))) in Hrec.
    rewrite Hrec, Z.add_0_l. reflexivity. }
  split; [|done]. destruct Hinv as [Hty Hperm _ _ Hiu0 Hih0 _]. simpl in Hiu, Hih, Hd, Hs. split; simpl.
  - destruct Hty. split; simpl; congruence.
  - rewrite <-Hperm, nodes_cons. solve_Permutation.
  - exists zf. apply links_app. exists (free_head q). split; [done|].
    eapply links_frame; [|done]. intros i Hi. apply Hf. intros Hi'. apply (Hdis i); set_solver.
  - eapply chains_frame; [|done]. intros i Hi. apply Hf. intros Hi'. by apply (Hdis' i).
  - intros i Hi. rewrite Hiu, Hiu0, nodes_cons by done. specialize (Hdis' i).
    rewrite <-bool_decide_not, <-bool_decide_and. apply bool_decide_ext. set_solver.
  - intros i Hi. rewrite Hih, Hih0 by done.
    rewrite <-bool_decide_not, <-bool_decide_and. apply bool_decide_ext. simpl.
    assert (i ∈ map c_head cs → i ∉ c_nodes c) as Hhh.
    { intros (c' & -> & Hc')%list_elem_of_fmap Hin. apply (Hdis' (c_head c')); [done|].
      apply elem_of_nodes. exists c'. split; [done|]. eapply chain_head_in.
      rewrite Forall_forall in Hch. by apply Hch. }
    set_solver.
  - lia.
Qed.

(** *** Creating a queue *)

Lemma link_descriptors_ok n : ∀ i d s,
  0 <= i → i + Z.of_nat n <= lenz d → i + Z.of_nat n <= lenz s →
  ∃ d' s', link_descriptors i n d s = Some (d', s') ∧ lenz d' = lenz d ∧ lenz s' = lenz s ∧
    (∀ j, i <= j < i + Z.of_nat n → s_next <$> nthz s' j = Some (j + 1)) ∧
    (∀ j, j < i → nthz s' j = nthz s j).
Proof.
  induction n as [|n IH]; intros i d s Hi Hd Hs; simpl.
  { exists d, s. repeat split; try done. intros; lia. }
  destruct (nthz_is_Some d i) as [y Hy]; [lia|]. destruct (nthz_is_Some s i) as [x Hx]; [lia|].
  rewrite (alterz_Some _ _ _ _ Hy), (alterz_Some _ _ _ _ Hx).
  set (d1 := <[Z.to_nat i := _]> d). set (s1 := <[Z.to_nat i := _]> s).
  assert (lenz d1 = lenz d) as Hd1 by apply lenz_insert.
  assert (lenz s1 = lenz s) as Hs1 by apply lenz_insert.
  destruct (IH (i + 1) d1 s1) as (d' & s' & Heq & Hd' & Hs' & Hn & Hlow); [lia|lia|lia|].
  rewrite Heq. exists d', s'. repeat split; try congruence.
  - intros j Hj. destruct (decide (j = i)) as [->|]; [|apply Hn; lia].
    rewrite Hlow by lia. unfold s1. rewrite nthz_insert, Z.eqb_refl by lia. done.
  - intros j Hj. rewrite Hlow by lia. unfold s1. rewrite nthz_insert by lia.
    destruct (Z.eqb_spec i j); [lia|done].
Qed.

Lemma links_seqZ s n : ∀ i,
  (∀ j, i <= j < i + Z.of_nat n - 1 → s_next <$> nthz s j = Some (j + 1)) →
  0 <= i → i + Z.of_nat n <= lenz s → ∃ z, links s i (seqZ i (Z.of_nat n)) z.
Proof.
  induction n as [|n IH]; intros i Hs Hi Hlen; [by exists i|].
  destruct (nthz_is_Some s i) as [x Hx]; [lia|].
  rewrite seqZ_cons by lia. replace (Z.pred (Z.of_nat (S n))) with (Z.of_nat n) by lia.
  destruct n as [|n].
  - exists (s_next x). simpl. eauto.
  - destruct (IH (Z.succ i)) as [z Hz]; [intros; apply Hs; lia|lia|lia|].
    exists z. simpl. split; [done|]. exists x. split; [done|].
    specialize (Hs i ltac:(lia)). rewrite Hx in Hs. simplify_eq/=.
    replace (s_next x) with (Z.succ i) by lia. done.
Qed.

Lemma new_inv d av us idx qs s :
  is_power_of_two qs = true → qs <= MAX_QUEUE_SIZE → lenz d = qs → lenz s = MAX_QUEUE_SIZE →
  lenz (a_ring av) = MAX_QUEUE_SIZE → lenz (u_ring us) = MAX_QUEUE_SIZE →
  (∀ j, 0 <= j < qs - 1 → s_next <$> nthz s j = Some (j + 1)) →
  vq_inv (mkVQ d av us idx qs 0 0 0 0 s 0 0) (seqZ 0 qs) [].
Proof.
  intros Hp Hq Hd Hs Ha Hu Hn. destruct (pow2_cases _ Hp Hq) as (k & Hk & Hqs).
  assert (0 < qs) by (rewrite Hqs; apply Z.pow_pos_nonneg; lia). unfold MAX_QUEUE_SIZE in *.
  split; simpl; try done.
  - by rewrite app_nil_r.
  - rewrite <-(Z2Nat.id qs) by lia. apply links_seqZ; [|lia|].
    + intros j Hj. apply Hn. lia.
    + lia.
  - intros i Hi. by rewrite Z.bits_0.
  - intros i Hi. by rewrite Z.bits_0.
Qed.

(** *** One operation against the specification *)

Lemma new_queue_inv mem idx qs :
  is_power_of_two qs = true → qs <= MAX_QUEUE_SIZE →
  lenz (a_ring (mem_avail mem)) = MAX_QUEUE_SIZE → lenz (u_ring (mem_used mem)) = MAX_QUEUE_SIZE →
  ∃ d s,
    link_descriptors 0 (Z.to_nat (qs - 1)) (map (mem_desc mem) (seq 0 (Z.to_nat qs)))
      (replicate (Z.to_nat MAX_QUEUE_SIZE) shadow_default) = Some (d, s) ∧
    vq_inv (mkVQ d (mem_avail mem) (mem_used mem) (as_u 32 idx) qs 0 0 0 0 s 0 0) (seqZ 0 qs) [].
Proof.
  intros Hp Hq Ha Hu. destruct (pow2_cases _ Hp Hq) as (k & Hk & Hqs).
  assert (0 < qs) by (rewrite Hqs; apply Z.pow_pos_nonneg; lia). unfold MAX_QUEUE_SIZE in *.
  set (d0 := map _ _). set (s0 := replicate _ _).
  assert (lenz d0 = qs) as Hd0 by (unfold lenz, d0; rewrite length_map, length_seq; lia).
  destruct (link_descriptors_ok (Z.to_nat (qs - 1)) 0 d0 s0) as (d & s & Heq & Hd & Hs & Hn & _);
    [done|lia|unfold lenz, s0; rewrite length_replicate; lia|].
  exists d, s. split; [done|]. apply new_inv; try done; [lia|]. intros j Hj. apply Hn. lia.
Qed.

Lemma new_abs {T} `{VirtioTransport T} mem idx dma_addr qs (t t' : T) q :
  lenz (a_ring (mem_avail mem)) = MAX_QUEUE_SIZE → lenz (u_ring (mem_used mem)) = MAX_QUEUE_SIZE →
  vq_new mem idx dma_addr qs t = (Ok q, t') → vq_abs q ∅.
Proof.
  intros Ha Hu. unfold vq_new. mrun.
  destruct (is_power_of_two qs) eqn:Hp; cbn [negb orb]; [|by mrun].
  intros (max & t0 & _ & H1)%M_bind_Ok_inv. revert H1. clear t. revert t0. intros t.
  destruct (max <? qs); cbn [negb orb]; [by mrun|]. destruct (Z.ltb_spec MAX_QUEUE_SIZE qs); [by mrun|]. mrun.
  destruct (new_queue_inv mem idx qs Hp ltac:(done) Ha Hu) as (d & s & Hlink & Hinv).
  destruct (layout_new qs) as [layout|]; [|done].
  intros (? & t1 & _ & H1)%M_bind_Ok_inv. rewrite or_panic_bind in H1. case_match; [|done].
  apply M_bind_Ok_inv in H1 as (? & t2 & _ & H1). rewrite or_panic_bind in H1. case_match; [|done].
  apply M_bind_Ok_inv in H1 as (? & t3 & _ & H1). rewrite Hlink in H1.
  rewrite or_panic_bind in H1. simplify_eq/=. exists (seqZ 0 qs), []. split; [|done].
  injection H1 as <- _. done.
Qed.

Lemma host_step_abs q q' m : host_step q q' → vq_abs q m → vq_abs q' m.
Proof.
  intros (Hd & Ha & Hu & Heq) (fl & cs & [[] ? ? ? ? ? ?] & ->). exists fl, cs. split; [|done].
  rewrite Heq. split; simpl; try done. split; simpl; try done; unfold lenz in *; congruence.
Qed.

Lemma host_complete_step token len q : host_step q (host_complete token len q).
Proof. repeat split; simpl. by rewrite length_insert. Qed.

(** [add] against the outstanding requests, on every branch. *)
Lemma add_abs q m g2h h2g :
  vq_abs q m → Forall (λ b, in_u 32 (buf_len b)) (g2h ++ h2g) →
  match add g2h h2g q with
  | (Ok token, q') =>
      g2h ++ h2g ≠ [] ∧ lenz g2h + lenz h2g + used_descs m <= queue_size q ∧
      m !! token = None ∧ vq_abs q' (<[token := (g2h, h2g)]> m) ∧
      nthz (a_ring (avail q')) (Z.land (avail_idx q) (queue_size q - 1)) = Some token ∧
      a_idx (avail q') = wrapping_add 16 (avail_idx q) 1
  | (Err e, q') =>
      q' = q ∧ (e = InvalidParameter ∧ g2h ++ h2g = [] ∨
                e = BufferTooSmall ∧ queue_size q < lenz g2h + lenz h2g + used_descs m)
  | (Panic, _) => False
  end.
Proof.
  intros Habs Hlens. pose proof (abs_used _ _ Habs) as Hused. destruct Habs as (fl & cs & Hinv & ->).
  destruct (decide (g2h ++ h2g = [])) as [[-> ->]%app_nil|Hne]; [by unfold add; mrun; simpl; auto|].
  destruct (Z.ltb_spec (queue_size q) (lenz g2h + lenz h2g + num_used q)) as [Hfull|Hroom].
  { unfold add. mrun. replace (bool_decide (g2h = []) && bool_decide (h2g = [])) with false.
    2: { symmetry. apply andb_false_iff. rewrite !bool_decide_eq_false. destruct g2h, h2g; naive_solver. }
    mrun. destruct (Z.ltb_spec (queue_size q) (lenz g2h + lenz h2g + num_used q)); [|lia].
    split; [done|]. right. split; [done|lia]. }
  destruct (add_inv q fl cs g2h h2g) as (q' & c & r & -> & Hinv' & Hhd & Hslot & Hidx); try done.
  split; [done|]. split; [lia|]. rewrite <-Hhd at 1. split.
  - apply requests_of_None. pose proof (inv_nodup _ _ _ Hinv') as (_ & _ & Hn)%NoDup_app.
    apply (heads_nodup (desc_shadow q')) in Hn; [|apply Hinv']. by apply NoDup_cons in Hn as [? _].
  - split; [|done]. exists r, (mkChain c (g2h, h2g) :: cs). split; [done|].
    by rewrite requests_of_cons, Hhd.
Qed.

Lemma abs_lookup q m i : vq_abs q m → 0 <= i < 32 →
  (m !! i = None ↔ Z.testbit (is_head q) i = false) ∧
  (Z.testbit (is_head q) i = true → Z.testbit (in_use q) i = true).
Proof.
  intros (fl & cs & Hinv & ->) Hi. rewrite (inv_is_head _ _ _ Hinv), (inv_in_use _ _ _ Hinv) by done.
  rewrite bool_decide_eq_false, !bool_decide_eq_true. split.
  - split; [|apply requests_of_None]. intros H (c & -> & Hc)%list_elem_of_fmap.
    unfold requests_of in H. apply not_elem_of_list_to_map_2 in H. rewrite map_map in H. apply H.
    apply list_elem_of_fmap. eauto.
  - intros (c & -> & Hc)%list_elem_of_fmap. apply elem_of_nodes. exists c. split; [done|].
    eapply chain_head_in. pose proof (inv_chains _ _ _ Hinv) as Hch. rewrite Forall_forall in Hch. by apply Hch.
Qed.

(** [pop_used] against the outstanding requests, whatever the host wrote. *)
Lemma pop_abs q m g h :
  vq_abs q m →
  match pop_used (mkPop q g h) with
  | (Ok n, p) => ∃ token r e,
      token_of_slot q = Some token ∧ m !! token = Some r ∧
      nthz (u_ring (used q)) (Z.land (last_used_idx q) (queue_size q - 1)) = Some e ∧
      n = Z.min (u_len e) (Z.min (total_len (r.1 ++ r.2)) (u_max 32)) ∧
      p_g2h p = g ++ r.1 ∧ p_h2g p = h ++ r.2 ∧ vq_abs (p_vq p) (delete token m) ∧
      last_used_idx (p_vq p) = wrapping_add 16 (last_used_idx q) 1
  | (Err e, p) =>
      p = mkPop q g h ∧ (e = NotReady ∧ can_pop q = false ∨
        e = InvalidDescriptor ∧ ∃ token, token_of_slot q = Some token ∧ m !! token = None)
  | (Panic, _) => False
  end.
Proof.
  intros Habs. assert (vq_typed q) as Hty by (destruct Habs as (? & ? & [] & _); done).
  destruct (can_pop q) eqn:Hcp; [|by unfold pop_used; mrun; simpl; rewrite Hcp; simpl; auto].
  pose proof (avail_slot_range q (last_used_idx q) Hty) as Hslot.
  destruct (nthz_is_Some (u_ring (used q)) (Z.land (last_used_idx q) (queue_size q - 1))) as [e He].
  { rewrite (ty_used _ Hty). unfold MAX_QUEUE_SIZE. lia. }
  assert (token_of_slot q = Some (as_u 16 (u_id e))) as Htok by (unfold token_of_slot; by rewrite He).
  assert (0 <= as_u 16 (u_id e)) as Htok0 by (apply Z.mod_pos_bound; lia).
  pose proof (ty_max _ Hty) as Hmax. unfold MAX_QUEUE_SIZE in Hmax.
  destruct (m !! as_u 16 (u_id e)) as [r|] eqn:Hm.
  - destruct Habs as (fl & cs & Hinv & ->).
    assert (∃ c, c ∈ cs ∧ c_head c = as_u 16 (u_id e)) as (c & Hc & Hid).
    { unfold requests_of in Hm. apply elem_of_list_to_map_2 in Hm.
      apply list_elem_of_fmap in Hm as (c & ? & ?). simplify_eq. eauto. }
    assert (∃ cs', cs ≡ₚ c :: cs') as [cs' Hp].
    { apply list_elem_of_split in Hc as (l1 & l2 & ->). exists (l1 ++ l2). solve_Permutation. }
    pose proof (inv_chains _ _ _ Hinv) as Hch.
    pose proof (inv_nodup _ _ _ Hinv) as (_ & _ & Hn)%NoDup_app.
    rewrite (requests_of_perm _ _ _ Hch Hn Hp) in *. rewrite Hp in Hch. rewrite (nodes_perm _ _ Hp) in Hn.
    apply (inv_reorder _ _ _ _ Hp) in Hinv.
    apply (heads_nodup _ _ Hch), NoDup_cons in Hn as [Hnc _].
    destruct (pop_inv q fl c cs' g h e) as (q' & -> & Hinv' & _ & Hlast); try done.
    rewrite requests_of_cons, <-Hid, lookup_insert_eq in Hm. injection Hm as <-.
    exists (as_u 16 (u_id e)), (c_req c), e. rewrite requests_of_cons, <-Hid, lookup_insert_eq.
    rewrite Htok, Hid. repeat (split; [done|]). split; [|done]. exists (c_nodes c ++ fl), cs'.
    split; [done|]. rewrite <-Hid, delete_insert_id; [done|]. by apply requests_of_None.
  - unfold pop_used. mrun. simpl. rewrite Hcp. simpl. mrun. rewrite He. mrun.
    destruct (Z.leb_spec (queue_size q) (as_u 16 (u_id e))); mrun; [by eauto 7|].
    rewrite shl_u_one by lia. mrun. rewrite !land_bit_zero by lia.
    destruct (abs_lookup q m (as_u 16 (u_id e)) Habs ltac:(lia)) as [[Hh _] _].
    rewrite (Hh Hm). destruct (Z.testbit (in_use q) _); simpl; mrun; eauto 7.
Qed.

(** *** Traces *)

Lemma replay_app tr tr' m : replay (tr ++ tr') m = replay tr m ≫= replay tr'.
Proof.
  revert m. induction tr as [|[t r|t r n] tr IH]; intros m; simpl; [done| |];
    case_decide; simpl; [apply IH|done|apply IH|done].
Qed.

Lemma reach_abs {T} `{VirtioTransport T} q tr :
  vq_reach (T := T) q tr → ∃ m, replay tr ∅ = Some m ∧ vq_abs q m.
Proof.
  induction 1 as [ | q q' tr _ (m & Hr & Ha) Hh | q q' tr g2h h2g tok _ (m & Hr & Ha) Hl Heq
    | q q' tr g2h h2g e _ (m & Hr & Ha) Hl Heq | q q' tr g2h h2g n tok _ (m & Hr & Ha) Ht Heq
    | q p tr e _ (m & Hr & Ha) Heq ].
  - exists ∅. split; [done|]. by eapply new_abs.
  - exists m. split; [done|]. by eapply host_step_abs.
  - pose proof (add_abs q m g2h h2g Ha Hl) as Hs. rewrite Heq in Hs.
    destruct Hs as (_ & _ & Hm & Ha' & _). exists (<[tok := (g2h, h2g)]> m).
    rewrite replay_app, Hr. simpl. by rewrite decide_True.
  - pose proof (add_abs q m g2h h2g Ha Hl) as Hs. rewrite Heq in Hs. destruct Hs as [-> _]. eauto.
  - pose proof (pop_abs q m [] [] Ha) as Hs. rewrite Heq in Hs.
    destruct Hs as (tok' & [g h] & e & Ht' & Hm & _ & Hn & Hg & Hh & Ha' & _). simplify_eq/=.
    exists (delete tok m). rewrite replay_app, Hr. simpl. rewrite decide_True; [done|].
    split; [done|]. lia.
  - pose proof (pop_abs q m [] [] Ha) as Hs. rewrite Heq in Hs. destruct Hs as [-> _]. eauto.
Qed.

(** ** Properties *)

(** C11 (safety). Whatever the host writes into the shared descriptor table and
    rings, and however its writes interleave with the driver: every buffer list
    [pop_used] returns is that of a request added before and not returned since,
    no token is live twice, the reported length never exceeds what the driver
    recorded, and neither [add] nor [pop_used] can abort. *)
Theorem vq_hostile_host_safe {T} `{VirtioTransport T} q tr :
  vq_reach (T := T) q tr →
  ∃ m, replay tr ∅ = Some m ∧ vq_abs q m ∧
    (∀ g2h h2g, Forall (λ b, in_u 32 (buf_len b)) (g2h ++ h2g) → fst (add g2h h2g q) ≠ Panic) ∧
    (∀ g h, fst (pop_used (mkPop q g h)) ≠ Panic).
Proof.
  intros Hr. destruct (reach_abs q tr Hr) as (m & Hm & Ha). exists m. do 2 (split; [done|]). split.
  - intros g2h h2g Hl. pose proof (add_abs q m g2h h2g Ha Hl). by destruct (add g2h h2g q) as [[] ?].
  - intros g h. pose proof (pop_abs q m g h Ha). by destruct (pop_used (mkPop q g h)) as [[] ?].
Qed.

(** C12 (refinement). [add] on every branch: it refuses an empty request and one
    that does not fit and then changes nothing; otherwise it opens the request
    under a fresh token and publishes that token in the available ring. *)
Theorem vq_add_refines q m g2h h2g :
  vq_abs q m → Forall (λ b, in_u 32 (buf_len b)) (g2h ++ h2g) →
  match add g2h h2g q with
  | (Ok token, q') =>
      g2h ++ h2g ≠ [] ∧ lenz g2h + lenz h2g + used_descs m <= queue_size q ∧
      m !! token = None ∧ vq_abs q' (<[token := (g2h, h2g)]> m) ∧
      nthz (a_ring (avail q')) (Z.land (avail_idx q) (queue_size q - 1)) = Some token ∧
      a_idx (avail q') = wrapping_add 16 (avail_idx q) 1
  | (Err e, q') =>
      q' = q ∧ (e = InvalidParameter ∧ g2h ++ h2g = [] ∨
                e = BufferTooSmall ∧ queue_size q < lenz g2h + lenz h2g + used_descs m)
  | (Panic, _) => False
  end.
Proof. apply add_abs. Qed.

(** C13 (refinement). [pop_used] on every branch: with nothing to pop or a used
    element that names no outstanding request it fails and changes nothing;
    otherwise it closes exactly that request, appends its buffers in order and
    clamps the host's length to the length recorded at [add]. *)
Theorem vq_pop_refines q m g h :
  vq_abs q m →
  match pop_used (mkPop q g h) with
  | (Ok n, p) => ∃ token r e,
      token_of_slot q = Some token ∧ m !! token = Some r ∧
      nthz (u_ring (used q)) (Z.land (last_used_idx q) (queue_size q - 1)) = Some e ∧
      n = Z.min (u_len e) (Z.min (total_len (r.1 ++ r.2)) (u_max 32)) ∧
      p_g2h p = g ++ r.1 ∧ p_h2g p = h ++ r.2 ∧ vq_abs (p_vq p) (delete token m) ∧
      last_used_idx (p_vq p) = wrapping_add 16 (last_used_idx q) 1
  | (Err e, p) =>
      p = mkPop q g h ∧ (e = NotReady ∧ can_pop q = false ∨
        e = InvalidDescriptor ∧ ∃ token, token_of_slot q = Some token ∧ m !! token = None)
  | (Panic, _) => False
  end.
Proof. apply pop_abs. Qed.

(** A request added and then completed by the host comes back
    with exactly its buffers, and the queue is left as before the request. *)
Theorem vq_add_complete_pop q m g2h h2g token q' len :
  vq_abs q m → Forall (λ b, in_u 32 (buf_len b)) (g2h ++ h2g) → in_u 16 (last_used_idx q') →
  add g2h h2g q = (Ok token, q') →
  ∃ q'', pop_used (mkPop (host_complete token len q') [] []) =
           (Ok (Z.min len (Z.min (total_len (g2h ++ h2g)) (u_max 32))), mkPop q'' g2h h2g) ∧
         vq_abs q'' m.
Proof.
  intros Habs Hl Hlast Hadd. pose proof (add_abs q m g2h h2g Habs Hl) as Hs. rewrite Hadd in Hs.
  destruct Hs as (_ & _ & Hm & Habs' & _).
  assert (vq_typed q') as Hty by (destruct Habs' as (? & ? & [] & _); done).
  apply (host_step_abs _ _ _ (host_complete_step token len q')) in Habs'. pose proof (pop_abs _ _ [] [] Habs') as Hs.
  assert (0 <= token < 2 ^ 16) as Htok.
  { destruct Habs' as (fl & cs & Hinv & Heq). destruct (decide (token ∈ map c_head cs)) as [Hin|Hni].
    - apply list_elem_of_fmap in Hin as (c & -> & Hc). pose proof (inv_chains _ _ _ Hinv) as Hch.
      rewrite Forall_forall in Hch. specialize (Hch c Hc). apply chain_head_in in Hch.
      assert (c_head c ∈ fl ++ nodes cs) as Hr by (apply elem_of_app; right; apply elem_of_nodes; eauto).
      apply (inv_range _ _ _ _ Hinv) in Hr. pose proof (ty_max _ (inv_typed _ _ _ Hinv)).
      unfold MAX_QUEUE_SIZE in *. lia.
    - apply requests_of_None in Hni. rewrite <-Heq, lookup_insert_eq in Hni. done. }
  assert (nthz (u_ring (used (host_complete token len q')))
            (Z.land (last_used_idx q') (queue_size q' - 1)) = Some (mkUsedElem token len)) as He.
  { simpl. pose proof (avail_slot_range q' (last_used_idx q') Hty).
    rewrite nthz_insert, Z.eqb_refl; [done|]. rewrite (ty_used _ Hty). unfold MAX_QUEUE_SIZE. lia. }
  assert (can_pop (host_complete token len q') = true) as Hcp.
  { unfold can_pop. cbn [used u_idx last_used_idx host_complete]. apply negb_true_iff, Z.eqb_neq.
    intros Heq. by apply (wrapping_succ_ne 16 (last_used_idx q')). }
  assert (token_of_slot (host_complete token len q') = Some token) as Hts.
  { unfold token_of_slot, as_u. simpl in *. rewrite He. simpl. by rewrite Z.mod_small. }
  destruct (pop_used (mkPop (host_complete token len q') [] [])) as [[n|e|] [q'' g h]]; [| |done].
  - destruct Hs as (tok & r & e & Ht & Hmt & He' & -> & Hg & Hh & Ha & _). simpl in *. simplify_eq.
    rewrite lookup_insert_eq in Hmt. simplify_eq/=. exists q''. split; [done|].
    by rewrite delete_insert_id in Ha.
  - destruct Hs as (_ & [[_ Hf]|(_ & tok & Ht & Hmt)]); [by rewrite Hcp in Hf|].
    rewrite Hts in Ht. injection Ht as <-. by rewrite lookup_insert_eq in Hmt.
Qed.

(** For every queue size [new] accepts, the ring layout keeps the
    descriptor table, the available ring and the used ring apart, page-aligns
    the used ring, and leaves room for the [MAX_QUEUE_SIZE]-entry ring structures
    the driver overlays on smaller queues. *)
Theorem layout_rings_disjoint qs :
  is_power_of_two qs = true → qs <= MAX_QUEUE_SIZE →
  ∃ l, layout_new qs = Some l ∧
    (size_of_Descriptor * qs <= avail_offset l ∧ avail_offset l + (4 + 2 * MAX_QUEUE_SIZE + 2) <= used_offset l ∧
     used_offset l + (4 + size_of_UsedElem * MAX_QUEUE_SIZE + 4) <= layout_size l ∧
     used_offset l mod PAGE_SIZE = 0 ∧ layout_size l = 2 * PAGE_SIZE).
Proof. apply layout_small. Qed.

(** [new] over a transport whose register writes succeed: it
    accepts exactly the powers of two up to the device maximum and 32, the queue
    it returns has no request outstanding, and every other size is refused
    before any register is written. *)
Theorem vq_new_spec {T} `{VirtioTransport T} mem idx dma_addr qs max (t : T)
  (Hd : ∀ a t, ∃ t', set_descriptors_address a t = (Ok tt, t'))
  (Ha : ∀ a t, ∃ t', set_avail_ring a t = (Ok tt, t'))
  (Hu : ∀ a t, ∃ t', set_used_ring a t = (Ok tt, t')) :
  get_queue_max_size t = (Ok max, t) → dma_addr + 2 * PAGE_SIZE < 2 ^ 64 →
  lenz (a_ring (mem_avail mem)) = MAX_QUEUE_SIZE → lenz (u_ring (mem_used mem)) = MAX_QUEUE_SIZE →
  match vq_new mem idx dma_addr qs t with
  | (Ok q, _) =>
      is_power_of_two qs = true ∧ qs <= max ∧ qs <= MAX_QUEUE_SIZE ∧
      vq_abs q ∅ ∧ queue_size q = qs ∧ available_desc q = Some qs
  | (Err e, t') =>
      e = InvalidParameter ∧ t' = t ∧
      (is_power_of_two qs = false ∨ max < qs ∨ MAX_QUEUE_SIZE < qs)
  | (Panic, _) => False
  end.
Proof.
  intros Hmax Hdma Hra Hru. unfold vq_new. mrun.
  destruct (is_power_of_two qs) eqn:Hp; cbn [negb orb]; [|by mrun; auto].
  rewrite (M_bind_Ok _ _ _ _ _ Hmax). destruct (Z.ltb_spec max qs); cbn [negb orb]; [by mrun; auto|].
  destruct (Z.ltb_spec MAX_QUEUE_SIZE qs); [by mrun; auto|]. mrun.
  destruct (new_queue_inv mem idx qs Hp ltac:(done) Hra Hru) as (d & s & Hlink & Hinv).
  destruct (layout_small qs Hp ltac:(done)) as (layout & -> & _ & Hoff1 & Hoff2 & _ & Hoff3). mrun.
  rewrite Hoff3 in Hoff2. change MAX_QUEUE_SIZE with 32 in Hoff1, Hoff2.
  change size_of_UsedElem with 8 in Hoff2.
  destruct (Hd dma_addr t) as [t1 Ht1]. rewrite (M_bind_Ok _ _ _ _ _ Ht1). mrun.
  unfold add_u, checked_add. destruct (Z.ltb_spec (dma_addr + avail_offset layout) (2 ^ 64)); [|lia]. mrun.
  destruct (Ha (dma_addr + avail_offset layout) t1) as [t2 Ht2]. rewrite (M_bind_Ok _ _ _ _ _ Ht2). mrun.
  destruct (Z.ltb_spec (dma_addr + used_offset layout) (2 ^ 64)); [|lia]. mrun.
  destruct (Hu (dma_addr + used_offset layout) t2) as [t3 Ht3]. rewrite (M_bind_Ok _ _ _ _ _ Ht3).
  rewrite Hlink. mrun. repeat (split; [done|]).
  split; [exists (seqZ 0 qs), []; done|]. split; [done|].
  unfold available_desc, sub_u. cbn [queue_size num_used].
  destruct (pow2_cases _ Hp ltac:(done)) as (k & ? & Hk).
  destruct (Z.leb_spec 0 qs); [by rewrite Z.sub_0_r|]. pose proof (Z.pow_nonneg 2 k). lia.
Qed.

(** ** Witnesses *)

#[local] Instance unit_transport : VirtioTransport unit := {
  vt_init := λ _, mret tt; get_status := mret 0; set_status := λ _, mret tt; add_status := λ _, mret tt;
  vt_reset := mret tt; get_features := mret 0; set_features := λ _, mret tt; set_queue := λ _, mret tt;
  get_queue_max_size := mret 16; set_queue_size := λ _, mret tt;
  set_descriptors_address := λ _, mret tt; set_avail_ring := λ _, mret tt; set_used_ring := λ _, mret tt;
  set_queue_enable := mret tt; set_interrupt_vector := λ _, mret 0; set_config_notify := λ _, mret tt;
  set_queue_notify := λ _, mret tt; notify_queue := λ _, mret tt; read_device_config := λ _, mret 0 }.

Definition demo_mem : RingMemory :=
  mkRingMem (λ _, mkDesc 7 7 7 7) (mkAvail 0 0 (replicate 32 0) 0)
    (mkUsed 0 0 (replicate 32 (mkUsedElem 0 0)) 0).

Definition demo_q : VirtQueue :=
  match vq_new (T := unit) demo_mem 0 4096 4 tt with
  | (Ok q, _) => q
  | _ => mkVQ [] (mem_avail demo_mem) (mem_used demo_mem) 0 0 0 0 0 0 [] 0 0
  end.

Definition demo_bufs : list VirtqueueBuf := [mkBuf 4096 44; mkBuf 8192 100].

Lemma demo_new : vq_new (T := unit) demo_mem 0 4096 4 tt = (Ok demo_q, tt).
Proof. reflexivity. Qed.

Lemma demo_abs : vq_abs demo_q ∅.
Proof. by eapply (new_abs (T := unit)); [| |apply demo_new]. Qed.

Lemma demo_bufs_ok l : l = [] ∨ l = demo_bufs → Forall (λ b, in_u 32 (buf_len b)) ([] ++ l).
Proof. intros [->| ->]; repeat constructor; vm_compute; (split; [discriminate|done]) || done. Qed.

Definition demo_q1 : VirtQueue := snd (add [] demo_bufs demo_q).

Lemma demo_abs1 : vq_abs demo_q1 (<[0 := ([], demo_bufs)]> ∅).
Proof.
  pose proof (add_abs demo_q ∅ [] demo_bufs demo_abs (demo_bufs_ok _ (or_intror eq_refl))) as H.
  assert (add [] demo_bufs demo_q = (Ok 0, demo_q1)) as Heq by (vm_compute; reflexivity).
  rewrite Heq in H. apply H.
Qed.

Lemma vq_hostile_host_safe_witness :
  ∃ m, replay [EAdd 0 ([], demo_bufs)] ∅ = Some m ∧ vq_abs demo_q1 m.
Proof.
  destruct (vq_hostile_host_safe (T := unit) demo_q1 [EAdd 0 ([], demo_bufs)]) as (m & Hm & Ha & _).
  - apply (reach_add demo_q demo_q1 [] [] demo_bufs 0).
    + by eapply reach_new; [| |apply demo_new].
    + apply demo_bufs_ok. by right.
    + vm_compute; reflexivity.
  - exists m. split; [exact Hm|exact Ha].
Defined.

Lemma vq_add_refines_witness :
  fst (add [] demo_bufs demo_q) = Ok 0 ∧ vq_abs demo_q1 (<[0 := ([], demo_bufs)]> ∅).
Proof.
  pose proof (vq_add_refines demo_q ∅ [] demo_bufs demo_abs (demo_bufs_ok _ (or_intror eq_refl))) as H.
  assert (add [] demo_bufs demo_q = (Ok 0, demo_q1)) as Heq by (vm_compute; reflexivity).
  rewrite Heq in H |- *. split; [reflexivity|apply H].
Defined.

Lemma vq_pop_refines_witness :
  fst (pop_used (mkPop (host_complete 0 4096 demo_q1) [] [])) = Ok 144 ∧
  vq_abs (p_vq (snd (pop_used (mkPop (host_complete 0 4096 demo_q1) [] [])))) ∅.
Proof.
  assert (vq_abs (host_complete 0 4096 demo_q1) (<[0 := ([], demo_bufs)]> ∅)) as Ha.
  { eapply host_step_abs; [apply host_complete_step|apply demo_abs1]. }
  pose proof (vq_pop_refines _ _ [] [] Ha) as H.
  destruct (pop_used (mkPop (host_complete 0 4096 demo_q1) [] [])) as [r p] eqn:E.
  assert (r = Ok 144) as -> by (apply (f_equal fst) in E; vm_compute in E; congruence).
  destruct H as (tok & r & e & Ht & _ & _ & _ & _ & _ & H & _). split; [reflexivity|].
  assert (tok = 0) as -> by (vm_compute in Ht; congruence).
  rewrite delete_insert_id in H; [exact H|apply lookup_empty].
Defined.

Lemma vq_add_complete_pop_witness :
  ∃ q'', pop_used (mkPop (host_complete 0 4096 demo_q1) [] []) = (Ok 144, mkPop q'' [] demo_bufs) ∧
         vq_abs q'' ∅.
Proof.
  apply (vq_add_complete_pop demo_q ∅ [] demo_bufs 0 demo_q1 4096).
  - apply demo_abs.
  - apply demo_bufs_ok. by right.
  - split; [discriminate|reflexivity].
  - vm_compute; reflexivity.
Defined.

Lemma layout_rings_disjoint_witness :
  ∃ l, layout_new 16 = Some l ∧ used_offset l mod PAGE_SIZE = 0.
Proof.
  destruct (layout_rings_disjoint 16) as (l & Hl & _ & _ & _ & H & _); [reflexivity|discriminate|].
  exists l. split; [exact Hl|exact H].
Defined.

Lemma vq_new_spec_witness : vq_abs demo_q ∅ ∧ available_desc demo_q = Some 4.
Proof.
  assert (match vq_new (T := unit) demo_mem 0 4096 4 tt with
          | (Ok q, _) => vq_abs q ∅ ∧ available_desc q = Some 4 | _ => False end) as H.
  { pose proof (vq_new_spec (T := unit) demo_mem 0 4096 4 16 tt) as H. rewrite demo_new in H |- *.
    destruct H as (_ & _ & _ & H1 & _ & H2); try reflexivity; try (intros a t; exists t; reflexivity).
    split; [exact H1|exact H2]. }
  rewrite demo_new in H. exact H.
Defined.
