(* ===== verification/Mmio.v ===== *)
(** * Mmio

    The allocator of device address space (src/devices/pci/src/mmio.rs) and
    the checked window over raw memory the virtio transport uses
    (src/devices/virtio/src/mem.rs).  The RAM map the firmware reports
    ([MEMORY_MAP]) is an argument; so is the device behind an MMIO access. *)
From stdpp Require Import base tactics numbers list list_numbers option gmap.
From S2P Require Import Prelude.
Local Open Scope Z_scope.

(** ** Device address space *)

Inductive PciError := PciInvalidParameter | MmioOutofResource | InvalidBarType | Misaligned.

Definition MMIO32_START : Z := 0xC0000000.
Definition MMIO32_SIZE : Z := 0x20000000.
Definition MMIO64_START : Z := 0x100000000.
Definition MMIO64_SIZE : Z := 0x40000000.
Definition MMIO_LOW_LIMIT : Z := 0x100000.

(** An entry of the memory map. *)
Record RamRegion := mkRam { ram_addr : Z; ram_size : Z }.

(** The two allocation cursors, [MMIO32] and [MMIO64]. *)
Record Mmio := mkMmio { MMIO32 : Z; MMIO64 : Z }.

(** [(addr.checked_add(align)? - 1) & !(align - 1)] *)
Definition align_up (addr align : Z) : option Z :=
  if align =? 0 then None
  else s ← checked_add 64 addr align; Some (Z.land (s - 1) (not_u 64 (align - 1))).

Definition overlaps_mmio (r : RamRegion) : bool :=
  let region_end := saturating_add 64 (ram_addr r) (ram_size r) in
  let mmio32_end := saturating_add 64 MMIO32_START MMIO32_SIZE in
  let mmio64_end := saturating_add 64 MMIO64_START MMIO64_SIZE in
  ((ram_addr r <? mmio32_end) && (MMIO32_START <? region_end))
  || ((ram_addr r <? mmio64_end) && (MMIO64_START <? region_end)).

Definition init_mmio (memory_map : list RamRegion) : M Mmio PciError unit :=
  if existsb overlaps_mmio memory_map then panicM
  else modifyS (λ _, mkMmio MMIO32_START MMIO64_START).

Fixpoint region_loop (base end_ : Z) (memory_map : list RamRegion) : bool :=
  match memory_map with
  | [] => false
  | region :: rest =>
      match checked_add 64 (ram_addr region) (ram_size region) with
      | None => true
      | Some region_end =>
          if (base <? region_end) && (ram_addr region <? end_) then true
          else region_loop base end_ rest
      end
  end.

Definition region_overlaps_private_dram (memory_map : list RamRegion) (base length : Z) : bool :=
  match checked_add 64 base length with
  | None => true
  | Some end_ => if base <? MMIO_LOW_LIMIT then true else region_loop base end_ memory_map
  end.

Definition alloc_mmio32 (size : Z) : M Mmio PciError Z :=
  st ← getS;
  addr ← ok_or (align_up (MMIO32 st) size) PciInvalidParameter;
  _ ← err_if ((MMIO32_SIZE <? size) || (MMIO32_START + MMIO32_SIZE - size <? addr)) MmioOutofResource;
  next ← ok_or (checked_add 32 (as_u 32 addr) size) PciInvalidParameter;
  _ ← modifyS (λ st, mkMmio next (MMIO64 st));
  mret (as_u 32 addr).

Definition alloc_mmio64 (size : Z) : M Mmio PciError Z :=
  st ← getS;
  addr ← ok_or (align_up (MMIO64 st) size) PciInvalidParameter;
  _ ← err_if ((MMIO64_SIZE <? size) || (MMIO64_START + MMIO64_SIZE - size <? addr)) MmioOutofResource;
  next ← ok_or (checked_add 64 addr size) PciInvalidParameter;
  _ ← modifyS (λ st, mkMmio (MMIO32 st) next);
  mret addr.

(** A sequence of requests (32-bit or 64-bit window, size), failures skipped;
    the result is the list of regions handed out. *)
Fixpoint alloc_all (reqs : list (bool * Z)) (st : Mmio) : list (Z * Z) * Mmio :=
  match reqs with
  | [] => ([], st)
  | (wide, size) :: rest =>
      match (if wide : bool then alloc_mmio64 size else alloc_mmio32 size) st with
      | (Ok a, st') => let '(l, st'') := alloc_all rest st' in ((a, size) :: l, st'')
      | (_, st') => alloc_all rest st'
      end
  end.

(** ** Checked windows over memory *)

(** Byte-addressed memory. *)
Definition Mem := Z → Z.

Definition mem_load (m : Mem) (a n : Z) : bytes := map m (seqZ a n).

Definition mem_store (m : Mem) (a : Z) (bs : bytes) : Mem :=
  λ x, match nthz bs (x - a) with Some b => b | None => m x end.

Record MemoryRegion := mkRegion { base : Z; length : Z }.

Record MemoryRegionError := mkRegionError { err_region : MemoryRegion; err_offset : Z }.

Definition region_new (memory_map : list RamRegion) (base length : Z) : option MemoryRegion :=
  _ ← checked_add 64 base length;
  if region_overlaps_private_dram memory_map base length then None
  else Some (mkRegion base length).

(** The test every access makes: [base + offset] does not overflow and
    [offset + size] stays within the region. *)
Definition out_of_region (r : MemoryRegion) (offset size : Z) : bool :=
  match checked_add 64 (base r) offset with
  | None => true
  | Some _ =>
      match checked_add 64 offset size with
      | None => true
      | Some end_ => length r <? end_
      end
  end.

(** [as_slice::<T>] and [as_mut_slice::<T>]: the addresses of the slice. *)
Definition as_slice (r : MemoryRegion) (size_of_T offset len : Z) : outcome MemoryRegionError (Z * Z) :=
  match checked_mul 64 len size_of_T with
  | None => Err (mkRegionError r offset)
  | Some byte_length =>
      if out_of_region r offset byte_length then Err (mkRegionError r offset)
      else Ok (base r + offset, byte_length)
  end.

(** [read::<T>] of a little-endian integer of [size_of_T] bytes. *)
Definition region_read (r : MemoryRegion) (size_of_T offset : Z) (m : Mem)
  : outcome MemoryRegionError Z :=
  if out_of_region r offset size_of_T then Err (mkRegionError r offset)
  else Ok (le_val (mem_load m (base r + offset) size_of_T)).

Definition region_write (r : MemoryRegion) (size_of_T offset value : Z) : M Mem MemoryRegionError unit :=
  if out_of_region r offset size_of_T then failM (mkRegionError r offset)
  else modifyS (λ m, mem_store m (base r + offset) (le_bytes (Z.to_nat size_of_T) value)).

(** What an MMIO access reaches: plain memory through volatile accesses, or the
    VMM through a TDVMCALL. *)
Class MmioDevice (D : Type) := {
  mmio_load : Z → Z → D → Z * D;       (* size, address *)
  mmio_store : Z → Z → Z → D → D }.    (* size, address, value *)

Definition mmio_refused (r : MemoryRegion) (size_of_T offset : Z) : bool :=
  out_of_region r offset size_of_T || negb ((base r + offset) mod size_of_T =? 0).

Definition mmio_read {D} `{MmioDevice D} (r : MemoryRegion) (size_of_T offset : Z)
  : M D MemoryRegionError Z :=
  if mmio_refused r size_of_T offset then failM (mkRegionError r offset)
  else λ d, let '(v, d') := mmio_load size_of_T (base r + offset) d in (Ok v, d').

Definition mmio_write {D} `{MmioDevice D} (r : MemoryRegion) (size_of_T offset value : Z)
  : M D MemoryRegionError unit :=
  if mmio_refused r size_of_T offset then failM (mkRegionError r offset)
  else modifyS (mmio_store size_of_T (base r + offset) value).

Definition read_u8 r := region_read r 1.
Definition read_u16 r := region_read r 2.
Definition read_u32 r := region_read r 4.
Definition read_u64 r := region_read r 8.
Definition write_u8 r := region_write r 1.
Definition write_u16 r := region_write r 2.
Definition write_u32 r := region_write r 4.
Definition write_u64 r := region_write r 8.
Definition mmio_read_u8 {D} `{MmioDevice D} r := mmio_read r 1.
Definition mmio_read_u16 {D} `{MmioDevice D} r := mmio_read r 2.
Definition mmio_read_u32 {D} `{MmioDevice D} r := mmio_read r 4.
Definition mmio_read_u64 {D} `{MmioDevice D} r := mmio_read r 8.
Definition mmio_write_u8 {D} `{MmioDevice D} r := mmio_write r 1.
Definition mmio_write_u16 {D} `{MmioDevice D} r := mmio_write r 2.
Definition mmio_write_u32 {D} `{MmioDevice D} r := mmio_write r 4.
Definition mmio_write_u64 {D} `{MmioDevice D} r := mmio_write r 8.

(** ** Lemmas *)

(** Rounding up never goes below the cursor and by less than [align]. *)
Lemma align_up_bounds addr align a :
  0 <= addr → 0 < align → align_up addr align = Some a → addr <= a < addr + align.
Proof.
  intros Ha Hal. unfold align_up. destruct (Z.eqb_spec align 0); [lia|].
  intros (s & [-> Hs]%checked_add_Some & [= <-])%bind_Some.
  pose proof (land_not_u_bounds 64 (addr + align - 1) (align - 1)). lia.
Qed.

Lemma align_up_aligned addr k a :
  0 <= addr → 0 <= k <= 64 → align_up addr (2 ^ k) = Some a → a mod 2 ^ k = 0.
Proof.
  intros Ha Hk. pose proof (Z.pow_pos_nonneg 2 k). unfold align_up.
  destruct (Z.eqb_spec (2 ^ k) 0); [lia|].
  intros (s & [-> Hs]%checked_add_Some & [= <-])%bind_Some. apply land_not_u_aligned; lia.
Qed.

(** A cursor inside its window. *)
Definition mmio_ok (st : Mmio) : Prop :=
  MMIO32_START <= MMIO32 st <= MMIO32_START + MMIO32_SIZE ∧
  MMIO64_START <= MMIO64 st <= MMIO64_START + MMIO64_SIZE.

(** A region inside the free part of one of the two windows. *)
Definition in_free (st : Mmio) (r : Z * Z) : Prop :=
  MMIO32 st <= r.1 ∧ r.1 + r.2 <= MMIO32_START + MMIO32_SIZE ∨
  MMIO64 st <= r.1 ∧ r.1 + r.2 <= MMIO64_START + MMIO64_SIZE.

Definition disjoint_regions (r r' : Z * Z) : Prop := r.1 + r.2 <= r'.1 ∨ r'.1 + r'.2 <= r.1.

Lemma alloc_mmio32_Ok st size a st' :
  mmio_ok st → 0 <= size → alloc_mmio32 size st = (Ok a, st') →
  0 < size ∧ align_up (MMIO32 st) size = Some a ∧ MMIO32 st <= a ∧
  a + size <= MMIO32_START + MMIO32_SIZE ∧ st' = mkMmio (a + size) (MMIO64 st).
Proof.
  unfold mmio_ok, MMIO32_START, MMIO32_SIZE. intros [H1 H2] Hsz.
  unfold alloc_mmio32, MMIO32_START, MMIO32_SIZE. mrun.
  destruct (align_up (MMIO32 st) size) as [addr|] eqn:Ha; [|done]. mrun.
  assert (0 < size) by (unfold align_up in Ha; destruct (Z.eqb_spec size 0); [done|lia]).
  destruct (Z.ltb_spec 536870912 size); [done|].
  destruct (Z.ltb_spec (3221225472 + 536870912 - size) addr); [done|]. simpl. mrun.
  apply align_up_bounds in Ha as Hb; [|lia|done].
  unfold as_u. rewrite Z.mod_small by lia.
  destruct (checked_add 32 addr size) as [n|] eqn:Hn; [|done]. apply checked_add_Some in Hn as [-> _].
  mrun. intros [= <- <-]. repeat split; lia || done.
Qed.

Lemma alloc_mmio64_Ok st size a st' :
  mmio_ok st → 0 <= size → alloc_mmio64 size st = (Ok a, st') →
  0 < size ∧ align_up (MMIO64 st) size = Some a ∧ MMIO64 st <= a ∧
  a + size <= MMIO64_START + MMIO64_SIZE ∧ st' = mkMmio (MMIO32 st) (a + size).
Proof.
  unfold mmio_ok, MMIO64_START, MMIO64_SIZE. intros [H1 H2] Hsz.
  unfold alloc_mmio64, MMIO64_START, MMIO64_SIZE. mrun.
  destruct (align_up (MMIO64 st) size) as [addr|] eqn:Ha; [|done]. mrun.
  assert (0 < size) by (unfold align_up in Ha; destruct (Z.eqb_spec size 0); [done|lia]).
  destruct (Z.ltb_spec 1073741824 size); [done|].
  destruct (Z.ltb_spec (4294967296 + 1073741824 - size) addr); [done|]. simpl. mrun.
  apply align_up_bounds in Ha as Hb; [|lia|done].
  destruct (checked_add 64 addr size) as [n|] eqn:Hn; [|done]. apply checked_add_Some in Hn as [-> _].
  mrun. intros [= <- <-]. repeat split; lia || done.
Qed.

Lemma alloc_fail_same (wide : bool) size st r st' :
  (if wide then alloc_mmio64 size else alloc_mmio32 size) st = (r, st') →
  (∃ a, r = Ok a) ∨ ((∃ e, r = Err e) ∧ st' = st).
Proof.
  destruct wide; unfold alloc_mmio64, alloc_mmio32; mrun;
    repeat (case_match; mrun); intros [= <- <-]; eauto.
Qed.

(** The windows do not meet, so a region of one is free of the other's. *)
Lemma windows_apart st st' r r' :
  mmio_ok st → mmio_ok st' → MMIO32 st <= MMIO32 st' → MMIO64 st <= MMIO64 st' → 0 <= r'.2 →
  (MMIO32_START <= r.1 ∧ 0 <= r.2 ∧ r.1 + r.2 <= MMIO32 st' ∨
   MMIO64_START <= r.1 ∧ 0 <= r.2 ∧ r.1 + r.2 <= MMIO64 st') →
  in_free st' r' → disjoint_regions r r'.
Proof.
  unfold mmio_ok, in_free, disjoint_regions, MMIO32_START, MMIO32_SIZE, MMIO64_START, MMIO64_SIZE. lia.
Qed.

Lemma alloc_all_inv reqs : ∀ st l st',
  mmio_ok st → Forall (λ r, 0 <= r.2) reqs → alloc_all reqs st = (l, st') →
  mmio_ok st' ∧ MMIO32 st <= MMIO32 st' ∧ MMIO64 st <= MMIO64 st' ∧
  Forall (λ r, 0 < r.2 ∧ in_free st r) l ∧
  (∀ i j ri rj, l !! i = Some ri → l !! j = Some rj → i ≠ j → disjoint_regions ri rj).
Proof.
  induction reqs as [|[wide size] reqs IH]; intros st l st' Hok Hf; simpl.
  { intros [= <- <-]. repeat split; try done; apply Hok. }
  apply Forall_cons in Hf as [Hsz Hf]. simpl in Hsz.
  destruct ((if wide then alloc_mmio64 size else alloc_mmio32 size) st) as [res st1] eqn:Hres.
  destruct (alloc_fail_same _ _ _ _ _ Hres) as [[a ->]|[[e ->] ->]]; [|by apply IH].
  destruct (alloc_all reqs st1) as [l1 st2] eqn:Hrest. intros [= <- <-].
  assert (mmio_ok st1 ∧ MMIO32 st <= MMIO32 st1 ∧ MMIO64 st <= MMIO64 st1 ∧ 0 < size ∧
          in_free st (a, size) ∧
          (MMIO32_START <= a ∧ a + size <= MMIO32 st1 ∨ MMIO64_START <= a ∧ a + size <= MMIO64 st1))
    as (Hok1 & H32 & H64 & Hpos & Hin & Hwin).
  { unfold mmio_ok, in_free in *. destruct wide;
      [apply alloc_mmio64_Ok in Hres as (? & _ & ? & ? & ->)|apply alloc_mmio32_Ok in Hres as (? & _ & ? & ? & ->)];
      try done; simpl; lia. }
  destruct (IH st1 l1 st2 Hok1 Hf Hrest) as (Hok2 & H32' & H64' & Hl & Hdis).
  split; [done|]. split; [lia|]. split; [lia|].
  assert (Forall (λ r, disjoint_regions (a, size) r) l1) as Hhd.
  { eapply Forall_impl; [exact Hl|]. intros r [Hr Hfr]. eapply (windows_apart st st1); try done; simpl; lia. }
  split.
  - constructor; [done|]. eapply Forall_impl; [exact Hl|]. unfold in_free. simpl. intros r [? ?].
    split; [done|]. lia.
  - rewrite Forall_lookup in Hhd. intros [|i] [|j] ri rj Hi Hj Hne; simplify_eq/=; [eauto| |].
    + specialize (Hhd _ _ Hi). unfold disjoint_regions in *. lia.
    + eapply (Hdis i j); try done. lia.
Qed.

(** The test of [region_overlaps_private_dram] against the RAM map. *)
Definition ram_apart (b len : Z) (r : RamRegion) : Prop :=
  ram_addr r + ram_size r < 2 ^ 64 ∧ (ram_addr r + ram_size r <= b ∨ b + len <= ram_addr r).

Lemma region_loop_false b e ram :
  region_loop b e ram = false ↔ Forall (ram_apart b (e - b)) ram.
Proof.
  induction ram as [|r ram IH]; simpl; [by split; [constructor|]|]. rewrite Forall_cons, <-IH.
  unfold ram_apart. unfold checked_add.
  destruct (Z.ltb_spec (ram_addr r + ram_size r) (2 ^ 64)); [|naive_solver lia].
  destruct (Z.ltb_spec b (ram_addr r + ram_size r)), (Z.ltb_spec (ram_addr r) e); simpl; naive_solver lia.
Qed.

Lemma region_new_spec ram b len r :
  region_new ram b len = Some r ↔
  r = mkRegion b len ∧ b + len < 2 ^ 64 ∧ MMIO_LOW_LIMIT <= b ∧ Forall (ram_apart b len) ram.
Proof.
  unfold region_new, region_overlaps_private_dram, checked_add.
  destruct (Z.ltb_spec (b + len) (2 ^ 64)); simpl; [|naive_solver lia].
  destruct (Z.ltb_spec b MMIO_LOW_LIMIT); [naive_solver lia|].
  pose proof (region_loop_false b (b + len) ram) as Hl. replace (b + len - b) with len in Hl by lia.
  destruct (region_loop b (b + len) ram); naive_solver.
Qed.

Lemma out_of_region_false r offset size :
  base r + length r < 2 ^ 64 → 0 <= size → 0 <= base r → 0 <= length r →
  out_of_region r offset size = false ↔ offset + size <= length r.
Proof.
  intros. unfold out_of_region, checked_add.
  destruct (Z.ltb_spec (base r + offset) (2 ^ 64)); [|split; [done|lia]].
  destruct (Z.ltb_spec (offset + size) (2 ^ 64)); [|split; [done|lia]].
  rewrite Z.ltb_ge. done.
Qed.

Lemma mem_load_store m a bs n : n = lenz bs → mem_load (mem_store m a bs) a n = bs.
Proof.
  intros ->. unfold mem_load. apply list_eq. intros i. rewrite list_lookup_fmap.
  destruct (decide (i < Datatypes.length bs)%nat) as [Hi|Hi].
  - rewrite lookup_seqZ_lt by (unfold lenz; lia). simpl. unfold mem_store, nthz.
    destruct (Z.leb_spec 0 (a + Z.of_nat i - a)); [|lia].
    replace (Z.to_nat (a + Z.of_nat i - a)) with i by lia.
    destruct (lookup_lt_is_Some_2 bs i Hi) as [x Hx]. by rewrite Hx.
  - rewrite lookup_seqZ_ge by (unfold lenz; lia). symmetry. apply lookup_ge_None. lia.
Qed.

Lemma mem_store_frame m a bs x : x < a ∨ a + lenz bs <= x → mem_store m a bs x = m x.
Proof.
  intros Hx. unfold mem_store. destruct (nthz bs (x - a)) eqn:E; [|done].
  apply nthz_Some in E. lia.
Qed.

(** ** Properties *)

(** After [init_mmio] accepted the RAM map, every run of allocation
    requests of any sizes hands out regions that lie in the MMIO windows, are
    pairwise disjoint and never meet a RAM region. *)
Theorem mmio_allocs_disjoint ram reqs st0 st l st' :
  Forall (λ r, 0 <= ram_addr r ∧ 0 <= ram_size r) ram → Forall (λ r, 0 <= r.2) reqs →
  init_mmio ram st0 = (Ok tt, st) → alloc_all reqs st = (l, st') →
  (∀ i j ri rj, l !! i = Some ri → l !! j = Some rj → i ≠ j → disjoint_regions ri rj) ∧
  Forall (λ r, 0 < r.2 ∧ in_free (mkMmio MMIO32_START MMIO64_START) r ∧
               Forall (λ m, disjoint_regions r (ram_addr m, ram_size m)) ram) l.
Proof.
  intros Hram Hreq Hinit Hall. unfold init_mmio in Hinit.
  destruct (existsb overlaps_mmio ram) eqn:Hov; [done|]. injection Hinit as <-.
  destruct (alloc_all_inv reqs (mkMmio MMIO32_START MMIO64_START) l st') as (_ & _ & _ & Hl & Hd); try done.
  split; [done|]. eapply Forall_impl; [exact Hl|]. intros r [Hr Hf]. do 2 (split; [done|]).
  apply Forall_forall. intros m Hm. rewrite Forall_forall in Hram. specialize (Hram m Hm).
  assert (overlaps_mmio m = false) as Hmm.
  { apply not_true_is_false. intros Ht. assert (existsb overlaps_mmio ram = true); [|congruence].
    apply existsb_exists. exists m. split; [by apply list_elem_of_In|done]. }
  unfold overlaps_mmio, saturating_add, u_max in Hmm.
  apply orb_false_iff in Hmm as [H32 H64]. apply andb_false_iff in H32, H64. rewrite !Z.ltb_ge in H32, H64.
  unfold in_free, disjoint_regions, MMIO32_START, MMIO32_SIZE, MMIO64_START, MMIO64_SIZE in *. simpl in *. lia.
Qed.

(** An allocation of a power-of-two size is aligned to its size. *)
Theorem alloc_aligned st k a st' :
  mmio_ok st → 0 <= k <= 32 →
  (alloc_mmio32 (2 ^ k) st = (Ok a, st') ∨ alloc_mmio64 (2 ^ k) st = (Ok a, st')) →
  a mod 2 ^ k = 0.
Proof.
  intros Hok Hk H. pose proof (Z.pow_pos_nonneg 2 k).
  unfold mmio_ok, MMIO32_START, MMIO64_START in Hok.
  destruct H as [H|H]; [apply alloc_mmio32_Ok in H as (_ & H & _)|apply alloc_mmio64_Ok in H as (_ & H & _)];
    try done; try lia; eapply align_up_aligned; try exact H; lia.
Qed.

(** A window over a host-chosen BAR is created exactly when the
    range is below 2^64, above the low megabyte and apart from all RAM; and an
    MMIO access that succeeds through such a window stays inside it, so it never
    reaches private memory, while a refused access leaves the device untouched. *)
Theorem mmio_access_outside_ram {D} `{MmioDevice D} ram b len r n offset (d : D) :
  region_new ram b len = Some r → 0 <= len → 0 < n → 0 <= offset →
  (b + len < 2 ^ 64 ∧ MMIO_LOW_LIMIT <= b ∧ Forall (ram_apart b len) ram) ∧
  match mmio_read r n offset d with
  | (Ok v, d') =>
      (v, d') = mmio_load n (b + offset) d ∧ (b + offset) mod n = 0 ∧
      MMIO_LOW_LIMIT <= b + offset ∧ b + offset + n <= b + len ∧
      Forall (λ m, ram_addr m + ram_size m <= b + offset ∨ b + offset + n <= ram_addr m) ram
  | (Err _, d') => d' = d ∧ (len < offset + n ∨ (b + offset) mod n ≠ 0)
  | (Panic, _) => False
  end ∧
  (fst (mmio_read r n offset d) = Err (mkRegionError r offset) →
   ∀ v, mmio_write r n offset v d = (Err (mkRegionError r offset), d)).
Proof.
  intros (-> & Hlt & Hlow & Hram)%region_new_spec Hlen Hn Hoff. split; [done|].
  assert (0 <= b) by (unfold MMIO_LOW_LIMIT in Hlow; lia).
  pose proof (out_of_region_false (mkRegion b len) offset n Hlt ltac:(lia) ltac:(done) ltac:(done)) as Ho.
  unfold mmio_read, mmio_write, mmio_refused. simpl in *.
  destruct (out_of_region (mkRegion b len) offset n); simpl.
  { split; [|done]. split; [done|]. left. destruct Ho as [_ Ho].
    destruct (Z.lt_ge_cases len (offset + n)); [done|]. by discriminate Ho. }
  destruct (Z.eqb_spec ((b + offset) mod n) 0); simpl; [|split; [|done]; split; [done|by right]].
  destruct (mmio_load n (b + offset) d) as [v d'] eqn:E. split; [|done].
  destruct Ho as [Ho _]. specialize (Ho eq_refl). repeat split; try done; try lia.
  eapply Forall_impl; [exact Hram|]. intros m [_ Hm]. lia.
Qed.

(** A write through a window either fails and changes nothing,
    exactly when it would leave the window, or is read back unchanged and alters
    no byte outside the bytes written. *)
Lemma region_write_read r n offset v m :
  base r + length r < 2 ^ 64 → 0 <= base r → 0 <= length r → 0 <= offset → 0 <= n → in_u (8 * n) v →
  match region_write r n offset v m with
  | (Ok _, m') =>
      offset + n <= length r ∧ region_read r n offset m' = Ok v ∧
      (∀ x, x < base r + offset ∨ base r + offset + n <= x → m' x = m x)
  | (Err e, m') => e = mkRegionError r offset ∧ m' = m ∧ length r < offset + n
  | (Panic, _) => False
  end.
Proof.
  intros Hlt Hb Hl Hoff Hn Hv. pose proof (out_of_region_false r offset n Hlt Hn Hb Hl) as Ho.
  unfold region_write, region_read. destruct (out_of_region r offset n) eqn:E; simpl.
  - repeat split. destruct Ho as [_ Ho]. destruct (Z.lt_ge_cases (length r) (offset + n)); [done|].
    by discriminate Ho.
  - split; [by apply Ho|]. assert (lenz (le_bytes (Z.to_nat n) v) = n) as Hlen.
    { unfold lenz. rewrite length_le_bytes. lia. }
    split.
    + rewrite mem_load_store by done. rewrite le_val_bytes, Z2Nat.id by lia.
      rewrite Z.mod_small by done. done.
    + intros x Hx. apply mem_store_frame. lia.
Qed.

(** ** Witnesses *)

Definition demo_ram : list RamRegion := [mkRam 0 0x80000000; mkRam 0x180000000 0x40000000].

Lemma mmio_allocs_disjoint_witness :
  disjoint_regions (0xC0000000, 0x1000) (0xC0004000, 0x4000).
Proof.
  destruct (mmio_allocs_disjoint demo_ram [(false, 0x1000); (true, 0x1000); (false, 0x4000)]
    (mkMmio 0 0) (mkMmio MMIO32_START MMIO64_START)
    [(0xC0000000, 0x1000); (0x100000000, 0x1000); (0xC0004000, 0x4000)]
    (mkMmio 0xC0008000 0x100001000)) as [Hd _].
  - repeat constructor; simpl; lia.
  - repeat constructor; simpl; lia.
  - vm_compute; reflexivity.
  - vm_compute; reflexivity.
  - apply (Hd 0%nat 2%nat); [reflexivity|reflexivity|discriminate].
Defined.

#[local] Instance unit_device : MmioDevice unit := {
  mmio_load := λ _ _ d, (0, d);
  mmio_store := λ _ _ _ d, d }.

Lemma mmio_access_outside_ram_witness :
  Forall (λ m, ram_addr m + ram_size m <= 0xC0000010 ∨ 0xC0000010 + 4 <= ram_addr m) demo_ram.
Proof.
  destruct (mmio_access_outside_ram (D := unit) demo_ram 0xC0000000 0x1000
    (mkRegion 0xC0000000 0x1000) 4 0x10 tt) as (_ & H & _); [vm_compute; reflexivity|lia|lia|lia|].
  simpl in H. apply H.
Defined.

