(* ===== verification/PciConfig.v ===== *)
(** * PciConfig: configuration space and BARs of a PCI device

    src/devices/pci/src/config.rs.  The configuration space is reached by memory
    accesses at [PCI_EX_BAR_BASE_ADDRESS] that the host answers as it likes (the
    class [MmioDevice]); the addresses of the BARs come from the allocator of
    Mmio.  The fields of [PciDevice] and its header that no code sets are left
    out. *)
From stdpp Require Import base tactics numbers list list_numbers option.
From S2P Require Import Prelude Mmio.
Local Open Scope Z_scope.

Definition PCI_EX_BAR_BASE_ADDRESS : Z := 0xE0000000.
Definition PCI_MEM32_BASE_ADDRESS_MASK : Z := 0xFFFFFFF0.
Definition PCI_MEM64_BASE_ADDRESS_MASK : Z := 0xFFFFFFFFFFFFFFF0.

(** [PciCommand] *)
Definition IO_SPACE : Z := 1.
Definition MEMORY_SPACE : Z := 2.
Definition BUS_MASTER : Z := 4.

Inductive PciBarType := Unused | MemorySpace32 | MemorySpace64 | IoSpace.

#[global] Instance PciBarType_eq_dec : EqDecision PciBarType.
Proof. solve_decision. Defined.

Record PciBar := mkBar { bar_address : Z; bar_type : PciBarType }.

Definition PciBar_default : PciBar := mkBar 0 Unused.

Record PciDevice := mkPciDevice {
  bus : Z; device_number : Z; func : Z;
  vendor_id : Z; device_id : Z;
  bars : list PciBar }.

(** [PciDevice::new] *)
Definition pci_new (bus device func : Z) : PciDevice :=
  mkPciDevice bus device func 0 0 (replicate 6 PciBar_default).

(** ** Mechanism #1: the address of a register behind port 0xCF8 *)

Definition cf8_address (bus device fnc reg : Z) : Z :=
  Z.lor (Z.lor (Z.lor (Z.lor (Z.shiftl bus 16) (Z.shiftl device 11)) (Z.shiftl fnc 8))
           (Z.land reg 0xfc)) (Z.shiftl 1 31).

Definition get_config_address (bus device func offset : Z) : Z :=
  let offset := Z.land offset 0xfc in
  let func := Z.land func 7 in
  let device := Z.land device 31 in
  Z.lor (Z.lor (Z.lor (Z.lor (Z.shiftl 1 31) (Z.shiftl bus 16)) (Z.shiftl device 11)) (Z.shiftl func 8)) offset.

(** The two ports, 0xCF8 for the address and 0xCFC for the data. *)
Class PciPorts (P : Type) := {
  port_read32 : Z → P → Z * P;     (** the register at a configuration address *)
  port_write32 : Z → Z → P → P }.

Section ports.
Context {P : Type} `{PciPorts P}.

Definition pci_cf8_read32 (bus device fnc reg : Z) (p : P) : Z * P :=
  port_read32 (cf8_address bus device fnc reg) p.
Definition pci_cf8_write32 (bus device fnc reg value : Z) (p : P) : P :=
  port_write32 (cf8_address bus device fnc reg) value p.

Definition cs_read32 (bus device func offset : Z) (p : P) : Z * P :=
  port_read32 (get_config_address bus device func offset) p.
Definition cs_write32 (bus device func offset value : Z) (p : P) : P :=
  port_write32 (get_config_address bus device func offset) value p.

(** [((config_data >> ((offset & 0b10) << 3)) & 0xFFFF) as u16] *)
Definition cs_read16 (bus device func offset : Z) (p : P) : Z * P :=
  let '(config_data, p) := cs_read32 bus device func (Z.land offset 0xfc) p in
  (Z.land (Z.shiftr config_data (Z.shiftl (Z.land offset 2) 3)) 0xFFFF, p).

Definition cs_write16 (bus device func offset value : Z) (p : P) : P :=
  let '(old, p) := cs_read32 bus device func offset p in
  let dest := Z.shiftl (Z.land offset 2) 3 in
  let mask := as_u 32 (Z.shiftl 0xffff dest) in
  cs_write32 bus device func offset (Z.lor (as_u 32 (Z.shiftl value dest)) (Z.land old (not_u 32 mask))) p.

Definition cs_read8 (bus device func offset : Z) (p : P) : Z * P :=
  let '(config_data, p) := cs_read32 bus device func (Z.land offset 0xfc) p in
  (Z.land (Z.shiftr config_data (Z.shiftl (Z.land offset 3) 3)) 0xFF, p).

Definition cs_write8 (bus device func offset value : Z) (p : P) : P :=
  let '(old, p) := cs_read32 bus device func offset p in
  let dest := Z.shiftl (Z.land offset 3) 3 in
  let mask := as_u 32 (Z.shiftl 0xff dest) in
  cs_write32 bus device func offset (Z.lor (as_u 32 (Z.shiftl value dest)) (Z.land old (not_u 32 mask))) p.

(** [pci_ex_bar_initialization] of src/migtd/src/driver/vsock.rs: the base of
    the memory-mapped configuration space, disabled while the high half is
    written. *)
Definition pci_ex_bar_initialization (p : P) : P :=
  let p := pci_cf8_write32 0 0 0 0x60 0 p in
  let p := pci_cf8_write32 0 0 0 0x64 (as_u 32 (Z.shiftr PCI_EX_BAR_BASE_ADDRESS 32)) p in
  pci_cf8_write32 0 0 0 0x60
    (as_u 32 (Z.lor (Z.shiftr (as_u 64 (Z.shiftl PCI_EX_BAR_BASE_ADDRESS 32)) 32) 1)) p.

End ports.

(** ** Memory-mapped configuration space *)

Section config.
Context {D : Type} `{MmioDevice D}.

(** The device, the host behind the accesses and the allocator of addresses. *)
Record PciSt := mkPci { dev : PciDevice; host : D; mmio : Mmio }.

Notation PM := (M PciSt PciError).

Definition set_host (h : D) (s : PciSt) : PciSt := mkPci (dev s) h (mmio s).
Definition set_bars (f : list PciBar → list PciBar) (s : PciSt) : PciSt :=
  mkPci (mkPciDevice (bus (dev s)) (device_number (dev s)) (func (dev s)) (vendor_id (dev s)) (device_id (dev s))
           (f (bars (dev s)))) (host s) (mmio s).
Definition set_ids (v d : Z) (s : PciSt) : PciSt :=
  mkPci (mkPciDevice (bus (dev s)) (device_number (dev s)) (func (dev s)) v d (bars (dev s))) (host s) (mmio s).

Definition on_mmio {X} (m : M Mmio PciError X) : PM X := λ s,
  let '(r, st) := m (mmio s) in (r, mkPci (dev s) (host s) st).

Definition config_address (bus device func offset : Z) : Z :=
  PCI_EX_BAR_BASE_ADDRESS + Z.shiftl bus 20 + Z.shiftl device 15 + Z.shiftl func 12 + offset.

(** [ConfigSpacePciEx::read::<T>] and [write::<T>] of [size] bytes. *)
Definition ex_read (size bus device func offset : Z) : PM Z := λ s,
  let addr := config_address bus device func offset in
  if negb (addr mod size =? 0) then (Err Misaligned, s)
  else let '(v, h) := mmio_load size addr (host s) in (Ok (as_u (8 * size) v), set_host h s).

Definition ex_write (size bus device func offset value : Z) : PM unit := λ s,
  let addr := config_address bus device func offset in
  if negb (addr mod size =? 0) then (Err Misaligned, s)
  else (Ok tt, set_host (mmio_store size addr value (host s)) s).

Definition cfg_read (size offset : Z) : PM Z :=
  s ← getS; ex_read size (bus (dev s)) (device_number (dev s)) (func (dev s)) offset.
Definition cfg_write (size offset value : Z) : PM unit :=
  s ← getS; ex_write size (bus (dev s)) (device_number (dev s)) (func (dev s)) offset value.

Definition read_u64 : Z → PM Z := cfg_read 8.
Definition read_u32 : Z → PM Z := cfg_read 4.
Definition read_u16 : Z → PM Z := cfg_read 2.
Definition read_u8 : Z → PM Z := cfg_read 1.
Definition write_u32 : Z → Z → PM unit := cfg_write 4.
Definition write_u16 : Z → Z → PM unit := cfg_write 2.
Definition write_u8 : Z → Z → PM unit := cfg_write 1.

Definition get_device_details (bus device func : Z) : PM (Z * Z) :=
  config_data ← ex_read 4 bus device func 0;
  mret (Z.land config_data 0xffff, Z.shiftr (Z.land config_data 0xffff0000) 0x10).

(** [for device in 0..MAX_DEVICES]; a failed read ends the search. *)
Fixpoint find_loop (vendor device_id : Z) (devices : list Z) : PM (option (Z * Z * Z)) :=
  match devices with
  | [] => mret None
  | d :: devices => λ s,
      match get_device_details 0 d 0 s with
      | (Ok details, s') =>
          if bool_decide ((vendor, device_id) = details) then (Ok (Some (0, d, 0)), s')
          else find_loop vendor device_id devices s'
      | (Err _, s') => (Ok None, s')
      | (Panic, s') => (Panic, s')
      end
  end.

Definition find_device (vendor device_id : Z) : PM (option (Z * Z * Z)) :=
  find_loop vendor device_id (seqZ 0 32).

(** ** Base address registers *)

Definition set_bar_addr (offset addr : Z) : PM unit := write_u32 offset addr.

Definition get_bar_size (offset : Z) : PM Z :=
  restore ← read_u32 offset;
  _ ← write_u32 offset (u_max 32);
  size ← read_u32 offset;
  _ ← write_u32 offset restore;
  let masked := Z.land size 0xFFFFFFF0 in
  mret (if masked =? 0 then 0 else wrapping_add 32 (not_u 32 masked) 1).

Definition get_bar_size64 (offset : Z) : PM Z :=
  restore_low ← read_u32 offset;
  offset4 ← or_panic (add_u 8 offset 4);
  restore_high ← read_u32 offset4;
  _ ← write_u32 offset (u_max 32);
  _ ← write_u32 offset4 (u_max 32);
  low ← read_u32 offset;
  high ← read_u32 offset4;
  _ ← write_u32 offset restore_low;
  _ ← write_u32 offset4 restore_high;
  let masked := Z.lor (Z.shiftl high 32) (Z.land low 0xFFFFFFF0) in
  mret (if masked =? 0 then 0 else wrapping_add 64 (not_u 64 masked) 1).

(** [self.bars[current_bar] = ..], an abort when the index is out of range. *)
Definition put_bar (current_bar : Z) (b : PciBar) : PM unit :=
  s ← getS;
  l ← or_panic (alterz (λ _, b) current_bar (bars (dev s)));
  modifyS (set_bars (λ _, l)).

Definition program_bar32 (offset : Z) : PM Z :=
  size ← get_bar_size offset;
  if 0 <? size then
    addr ← on_mmio (alloc_mmio32 size);
    _ ← set_bar_addr offset addr;
    mret addr
  else mret 0.

Definition program_bar64 (offset : Z) : PM Z :=
  size ← get_bar_size64 offset;
  if 0 <? size then
    addr ← on_mmio (alloc_mmio64 size);
    _ ← set_bar_addr offset (as_u 32 addr);
    offset4 ← or_panic (add_u 8 offset 4);
    _ ← set_bar_addr offset4 (as_u 32 (Z.shiftr addr 32));
    mret addr
  else mret 0.

(** [while current_bar_offset <= 0x24]: six registers at most. *)
Fixpoint bar_loop (fuel : nat) (offset current_bar : Z) : PM unit :=
  if 0x24 <? offset then mret tt
  else match fuel with
  | O => panicM
  | S fuel =>
      bar ← read_u32 offset;
      if Z.land bar 1 =? 1 then
        _ ← put_bar current_bar (mkBar (Z.land bar 0xfffffffc) IoSpace);
        bar_loop fuel (offset + 4) (current_bar + 1)
      else if Z.land (Z.shiftr bar 1) 3 =? 0 then
        addr ← program_bar32 offset;
        _ ← put_bar current_bar (mkBar (Z.land addr PCI_MEM32_BASE_ADDRESS_MASK) MemorySpace32);
        bar_loop fuel (offset + 4) (current_bar + 1)
      else if Z.land (Z.shiftr bar 1) 3 =? 2 then
        s ← getS;
        old ← or_panic (nthz (bars (dev s)) current_bar);
        _ ← put_bar current_bar (mkBar (bar_address old) MemorySpace64);
        addr ← program_bar64 offset;
        _ ← put_bar current_bar (mkBar (Z.land addr PCI_MEM64_BASE_ADDRESS_MASK) MemorySpace64);
        bar_loop fuel (offset + 8) (current_bar + 1)
      else failM InvalidBarType
  end.

(** [PciDevice::init] *)
Definition pci_init : PM unit :=
  s ← getS;
  details ← get_device_details (bus (dev s)) (device_number (dev s)) (func (dev s));
  _ ← modifyS (set_ids details.1 details.2);
  _ ← read_u16 0x4;
  _ ← read_u16 0x6;
  _ ← bar_loop 6 0x10 0;
  write_u16 0x4 (Z.lor (Z.lor IO_SPACE MEMORY_SPACE) BUS_MASTER).

End config.
Arguments PciSt : clear implicits.
