(* ===== verification/PciConfigSpec.v ===== *)
(** * PciConfigSpec: the BARs of an initialized device

    Whatever the host answers to configuration accesses, [PciDevice::init] does
    not abort and leaves every memory BAR at address 0 or at a region of its own
    in the MMIO windows (PciConfig, Mmio). *)
From stdpp Require Import base tactics numbers list list_numbers option.
From S2P Require Import Prelude Mmio PciConfig.
Local Open Scope Z_scope.

(** ** Bits *)

Lemma not_u_sub w a : 0 <= w → 0 <= a < 2 ^ w → not_u w a = 2 ^ w - 1 - a.
Proof.
  intros Hw Ha. unfold not_u.
  assert (Z.land a (Z.lxor a (Z.ones w)) = 0) as Hl.
  { apply Z.bits_inj'. intros j Hj. rewrite Z.land_spec, Z.lxor_spec, Z.bits_0.
    destruct (Z.lt_ge_cases j w).
    - rewrite Z.ones_spec_low by lia. by destruct (Z.testbit a j).
    - by rewrite (testbit_above w a j) by lia. }
  pose proof (Z.add_nocarry_lxor a (Z.lxor a (Z.ones w)) Hl) as Hs.
  rewrite <-Z.lxor_assoc, Z.lxor_nilpotent, Z.lxor_0_l in Hs. pose proof (Z.ones_equiv w). lia.
Qed.

(** Clearing the low four bits. *)
Lemma land_low4 w x : 4 <= w → 0 <= x < 2 ^ w → Z.land x (2 ^ w - 16) = x / 16 * 16.
Proof.
  intros Hw Hx. assert (2 ^ 4 <= 2 ^ w) by (apply Z.pow_le_mono_r; lia).
  replace (2 ^ w - 16) with (not_u w 15) by (rewrite not_u_sub; lia).
  rewrite land_not_u by lia. change 15 with (Z.ones 4). rewrite Z.ldiff_ones_r, Z.shiftl_mul_pow2, Z.shiftr_div_pow2 by lia.
  done.
Qed.

(** Two's complement of a mask of address bits. *)
Lemma mask_size w m : 4 <= w → 0 < m < 2 ^ w → m mod 16 = 0 →
  let size := wrapping_add w (not_u w m) 1 in 0 < size < 2 ^ w ∧ size mod 16 = 0 ∧ size = 2 ^ w - m.
Proof.
  intros Hw Hm H16. cbv zeta. unfold wrapping_add. rewrite not_u_sub by lia.
  replace (2 ^ w - 1 - m + 1) with (2 ^ w - m) by lia. rewrite Z.mod_small by lia. split; [lia|]. split; [|done].
  replace (2 ^ w) with (2 ^ (w - 4) * 16).
  - apply Z.mod_divide in H16 as [k ->]; [|done]. rewrite <-Z.mul_sub_distr_r. by apply Z.mod_mul.
  - change 16 with (2 ^ 4). rewrite <-Z.pow_add_r by lia. f_equal. lia.
Qed.

(** An allocation whose size is a multiple of 16 is aligned to 16. *)
Lemma align_up_16 addr align a :
  0 <= addr → 0 < align → align mod 16 = 0 → align_up addr align = Some a → a mod 16 = 0.
Proof.
  intros Ha Hal H16. unfold align_up. destruct (Z.eqb_spec align 0); [lia|].
  intros (s & [-> Hs]%checked_add_Some & [= <-])%bind_Some.
  rewrite land_not_u by lia. change 16 with (2 ^ 4). rewrite <-Z.land_ones by lia. apply Z.bits_inj'. intros j Hj.
  rewrite Z.land_spec, Z.ldiff_spec, Z.bits_0. destruct (Z.lt_ge_cases j 4); [|by rewrite Z.ones_spec_high, andb_false_r by lia].
  replace (Z.testbit (align - 1) j) with true; [by rewrite andb_false_r|]. symmetry.
  rewrite <-(Z.mod_pow2_bits_low _ 4) by lia. replace ((align - 1) mod 2 ^ 4) with (Z.ones 4); [by apply Z.ones_spec_low|].
  apply Z.mod_divide in H16 as [k ->]; [|done]. change (2 ^ 4) with 16.
  replace (k * 16 - 1) with (15 + (k - 1) * 16) by lia. by rewrite Z.mod_add.
Qed.

(** ** Runs *)

Section runs.
Context {D : Type} `{MmioDevice D}.
Notation PM := (M (PciSt D) PciError).

(** The bus, device and function that are initialized. *)
Context (fn : Z * Z * Z).

Definition function_of (s : PciSt D) : Z * Z * Z := (bus (dev s), device_number (dev s), func (dev s)).
Definition register (offset : Z) : Z := let '(b, d, f) := fn in config_address b d f offset.

(** A property of the BARs and the allocator: configuration accesses keep it. *)
Definition on (I : list PciBar → Mmio → Prop) (s : PciSt D) : Prop := function_of s = fn ∧ I (bars (dev s)) (mmio s).

(** What a host in state [h] answers when the register of a BAR, or the two of a
    64-bit one, is read after all ones were written to it. *)
Definition answer32 (offset : Z) (h : D) : Z :=
  as_u 32 (mmio_load 4 (register offset) (mmio_store 4 (register offset) (u_max 32) h)).1.

Definition answer64 (offset : Z) (h : D) : Z * Z :=
  let '(low, h) := mmio_load 4 (register offset)
    (mmio_store 4 (register (offset + 4)) (u_max 32) (mmio_store 4 (register offset) (u_max 32) h)) in
  (as_u 32 low, as_u 32 (mmio_load 4 (register (offset + 4)) h).1).

(** The number of bytes such an answer asks for: the low four bits are flags, the
    other bits that read as zero are the bits of the offset in the region. *)
Definition asked32 (v : Z) : Z := 2 ^ 32 - v / 16 * 16.
Definition asked64 (v : Z * Z) : Z := 2 ^ 64 - (v.2 * 2 ^ 32 + v.1 / 16 * 16).

(** [n] bytes is what the host asked for when the BAR at [offset] was probed. *)
Definition probed (ty : PciBarType) (offset n : Z) : Prop :=
  match ty with
  | MemorySpace32 => ∃ h, n = asked32 (answer32 offset h)
  | MemorySpace64 => ∃ h, n = asked64 (answer64 offset h)
  | _ => False
  end.

Implicit Types I : list PciBar → Mmio → Prop.

Lemma ex_read_safe I size b d f offset : 0 <= size →
  safe (on I) (ex_read size b d f offset) (λ v s, on I s ∧ 0 <= v < 2 ^ (8 * size)) (on I).
Proof.
  intros Hn s Hs. unfold ex_read. destruct (negb _); [done|].
  destruct (mmio_load _ _ _) as [v h]. split; [done|]. apply Z.mod_pos_bound. lia.
Qed.

Lemma read_safe I size offset : 0 <= size →
  safe (on I) (cfg_read size offset) (λ v s, on I s ∧ 0 <= v < 2 ^ (8 * size)) (on I).
Proof. intros Hn s Hs. unfold cfg_read. rewrite getS_bind. by apply ex_read_safe. Qed.

Lemma write_safe I size offset v : safe (on I) (cfg_write size offset v) (λ _, on I) (on I).
Proof.
  intros s Hs. unfold cfg_write, ex_write. rewrite getS_bind. by destruct (negb _).
Qed.

(** A probed size is 0, or a multiple of 16 that the host asked for. *)
Definition size_ok (ty : PciBarType) (offset w n : Z) : Prop := 0 <= n < 2 ^ w ∧ n mod 16 = 0 ∧ (0 < n → probed ty offset n).

Lemma read_bind {X} I size offset (f : Z → PM X) Q R :
  0 <= size → (∀ s, on I s → R s) → (∀ v, 0 <= v < 2 ^ (8 * size) → safe (on I) (f v) Q R) →
  safe (on I) (cfg_read size offset ≫= f) Q R.
Proof.
  intros Hn HR Hf. eapply safe_bind; [eapply safe_err; [by apply read_safe|done]|].
  intros v s [Hs Hv]. by apply Hf.
Qed.

Lemma write_bind {X} I size offset x (f : unit → PM X) Q R :
  (∀ s, on I s → R s) → safe (on I) (f tt) Q R → safe (on I) (cfg_write size offset x ≫= f) Q R.
Proof. intros HR Hf. eapply safe_bind; [eapply safe_err; [by apply write_safe|done]|]. by intros []. Qed.

(** Writing and reading the same function. *)
Lemma probe32_bind {X} I offset (f : Z → PM X) Q R :
  (∀ s, on I s → R s) → (∀ h, 0 <= answer32 offset h < 2 ^ 32 → safe (on I) (f (answer32 offset h)) Q R) →
  safe (on I) (_ ← write_u32 offset (u_max 32); v ← read_u32 offset; f v) Q R.
Proof.
  intros HR Hf s Hs. pose proof Hs as [Hfn _]. unfold write_u32, cfg_write, ex_write, read_u32, cfg_read, ex_read.
  rewrite M_bind_eq, getS_bind. destruct (negb _) eqn:Em; [by apply HR|]. rewrite M_bind_eq, getS_bind.
  cbn [set_host dev host]. rewrite Em. specialize (Hf (host s)). unfold answer32, register in Hf. rewrite <-Hfn in Hf.
  unfold function_of in Hf. destruct (mmio_load 4 _ _) as [v h]. apply Hf; [by apply Z.mod_pos_bound|done].
Qed.

Lemma probe64_bind {X} I offset (f : Z → Z → PM X) Q R :
  (∀ s, on I s → R s) →
  (∀ h, 0 <= (answer64 offset h).1 < 2 ^ 32 → 0 <= (answer64 offset h).2 < 2 ^ 32 →
     safe (on I) (f (answer64 offset h).1 (answer64 offset h).2) Q R) →
  safe (on I) (_ ← write_u32 offset (u_max 32); _ ← write_u32 (offset + 4) (u_max 32);
    low ← read_u32 offset; high ← read_u32 (offset + 4); f low high) Q R.
Proof.
  intros HR Hf s Hs. pose proof Hs as [Hfn _]. unfold write_u32, cfg_write, ex_write, read_u32, cfg_read, ex_read.
  rewrite M_bind_eq, getS_bind. destruct (negb _) eqn:Em; [by apply HR|]. rewrite M_bind_eq, getS_bind.
  cbn [set_host dev host]. destruct (negb _) eqn:Em4 at 1; [by apply HR|]. rewrite M_bind_eq, getS_bind.
  cbn [set_host dev host]. rewrite Em. specialize (Hf (host s)). unfold answer64, register in Hf. rewrite <-Hfn in Hf.
  unfold function_of in Hf. destruct (mmio_load 4 _ _) as [low h]. rewrite M_bind_eq, getS_bind. cbn [set_host dev host].
  rewrite Em4. destruct (mmio_load 4 _ h) as [high h']. apply Hf; [by apply Z.mod_pos_bound..|done].
Qed.

Lemma get_bar_size_safe I offset :
  safe (on I) (get_bar_size offset) (λ n s, on I s ∧ size_ok MemorySpace32 offset 32 n) (on I).
Proof.
  unfold get_bar_size. unfold read_u32 at 1. apply read_bind; [done|done|intros r _].
  apply probe32_bind; [done|]. intros h Hs. unfold write_u32. apply write_bind; [done|]. apply safe_ret. intros s Hi. split; [done|].
  change 0xFFFFFFF0 with (2 ^ 32 - 16). rewrite land_low4 by lia. set (size := answer32 offset h) in *.
  destruct (Z.eqb_spec (size / 16 * 16) 0); [by split|].
  pose proof (Z.div_mod size 16 ltac:(lia)). pose proof (Z.mod_pos_bound size 16 ltac:(lia)).
  assert (0 <= size / 16) by (apply Z.div_pos; lia).
  destruct (mask_size 32 (size / 16 * 16)) as (Hr & H16 & Hn); [lia|lia|by apply Z.mod_mul|].
  split; [lia|]. split; [done|]. intros _. exists h. by rewrite Hn.
Qed.

Lemma get_bar_size64_safe I offset : 0 <= offset <= 0x24 →
  safe (on I) (get_bar_size64 offset) (λ n s, on I s ∧ size_ok MemorySpace64 offset 64 n) (on I).
Proof.
  intros Ho. unfold get_bar_size64. unfold read_u32 at 1. apply read_bind; [done|done|intros r _].
  intros s Hs. unfold add_u, checked_add. destruct (Z.ltb_spec (offset + 4) (2 ^ 8)); [|lia]. rewrite or_panic_bind.
  revert s Hs. unfold read_u32 at 1. apply read_bind; [done|done|intros r2 _]. apply probe64_bind; [done|]. intros h Hlow Hhigh.
  unfold write_u32. do 2 (apply write_bind; [done|]). apply safe_ret. intros s Hi. split; [done|].
  change 0xFFFFFFF0 with (2 ^ 32 - 16). rewrite land_low4 by lia. unfold size_ok, probed, asked64.
  set (low := (answer64 offset h).1) in *. set (high := (answer64 offset h).2) in *.
  pose proof (Z.div_mod low 16 ltac:(lia)). pose proof (Z.mod_pos_bound low 16 ltac:(lia)).
  assert (0 <= low / 16) by (apply Z.div_pos; lia). rewrite lor_shiftl_add by lia.
  destruct (Z.eqb_spec (high * 2 ^ 32 + low / 16 * 16) 0); [by split|].
  destruct (mask_size 64 (high * 2 ^ 32 + low / 16 * 16)) as (Hr & H16 & Hn); [lia|lia| |].
  { replace (high * 2 ^ 32 + low / 16 * 16) with ((high * 2 ^ 28 + low / 16) * 16) by lia. by apply Z.mod_mul. }
  split; [lia|]. split; [done|]. intros _. exists h. by rewrite Hn.
Qed.

(** ** Placed BARs *)

(** A region handed out between two states of the allocator. *)
Definition placed (st0 st : Mmio) (r : Z * Z) : Prop :=
  0 < r.2 ∧ (MMIO32 st0 <= r.1 ∧ r.1 + r.2 <= MMIO32 st ∨ MMIO64 st0 <= r.1 ∧ r.1 + r.2 <= MMIO64 st).

(** A memory BAR that was programmed. *)
Definition occupied (b : PciBar) : Prop := bar_type b ≠ IoSpace ∧ bar_address b ≠ 0.

(** The register of BAR [i]: a 64-bit BAR before it takes two. *)
Definition is_64 (b : PciBar) : bool := bool_decide (bar_type b = MemorySpace64).
Definition bar_offset (l : list PciBar) (i : nat) : Z := 0x10 + 4 * Z.of_nat i + 4 * lenz (List.filter is_64 (take i l)).

(** After [cur] BARs: the sizes [sz] the host asked for make the programmed ones
    disjoint regions handed out since [st0]; an I/O BAR keeps a 32-bit address; the
    others are clear. *)
Record bars_inv (st0 : Mmio) (cur : Z) (sz : nat → Z) (l : list PciBar) (st : Mmio) : Prop := {
  bi_len : lenz l = 6;
  bi_ok : mmio_ok st;
  bi_mono : MMIO32 st0 <= MMIO32 st ∧ MMIO64 st0 <= MMIO64 st;
  bi_clear i b : l !! i = Some b → cur <= Z.of_nat i → bar_address b = 0;
  bi_io i b : l !! i = Some b → bar_type b = IoSpace → 0 <= bar_address b < 2 ^ 32;
  bi_probed i b : l !! i = Some b → occupied b → probed (bar_type b) (bar_offset l i) (sz i);
  bi_placed i b : l !! i = Some b → occupied b → placed st0 st (bar_address b, sz i);
  bi_apart i j b b' : l !! i = Some b → l !! j = Some b' → i ≠ j → occupied b → occupied b' →
    disjoint_regions (bar_address b, sz i) (bar_address b', sz j) }.

(** A region that is new: it meets no BAR that is already placed. *)
Definition fresh_region (st0 : Mmio) (sz : nat → Z) (l : list PciBar) (st : Mmio) (r : Z * Z) : Prop :=
  placed st0 st r ∧ ∀ i b, l !! i = Some b → occupied b → disjoint_regions (bar_address b, sz i) r.

Lemma advance_inv st0 cur sz l st st' r :
  mmio_ok st0 → bars_inv st0 cur sz l st → mmio_ok st' → MMIO32 st <= MMIO32 st' → MMIO64 st <= MMIO64 st' →
  placed st st' r → bars_inv st0 cur sz l st' ∧ fresh_region st0 sz l st' r.
Proof.
  unfold mmio_ok, placed, MMIO32_START, MMIO32_SIZE, MMIO64_START, MMIO64_SIZE.
  intros H0 [] Hok' H32 H64 [Hr Hp]. unfold mmio_ok, MMIO32_START, MMIO32_SIZE, MMIO64_START, MMIO64_SIZE in bi_ok0. split.
  - split; try done; [lia|]. intros i b Hl Hb. specialize (bi_placed0 i b Hl Hb). unfold placed in *. cbn in *. lia.
  - split; [unfold placed; lia|]. intros i b Hl Hb. specialize (bi_placed0 i b Hl Hb). unfold placed, disjoint_regions in *.
    cbn in *. lia.
Qed.

(** [offset] is the register of the next BAR. *)
Definition bars_at (st0 : Mmio) (cur offset : Z) (sz : nat → Z) (l : list PciBar) (st : Mmio) : Prop :=
  bars_inv st0 cur sz l st ∧ bar_offset l (Z.to_nat cur) = offset.

(** What programming a BAR returns: 0, or an aligned region of its own, of the size
    that was probed. *)
Definition bar_result (ty : PciBarType) (offset : Z) (st0 : Mmio) (cur : Z) (sz : nat → Z) (addr : Z) (l : list PciBar) (st : Mmio) : Prop :=
  bars_at st0 cur offset sz l st ∧
  (addr = 0 ∨ 0 <= addr < 2 ^ 33 ∧ addr mod 16 = 0 ∧ ∃ size, probed ty offset size ∧ fresh_region st0 sz l st (addr, size)).

Lemma bar_result_0 ty offset st0 cur sz l st : bars_at st0 cur offset sz l st → bar_result ty offset st0 cur sz 0 l st.
Proof. intros Hi. split; [done|by left]. Qed.

Lemma alloc32_safe ty offset st0 cur sz size : mmio_ok st0 → 0 < size → size mod 16 = 0 → probed ty offset size →
  safe (on (bars_at st0 cur offset sz)) (on_mmio (D := D) (alloc_mmio32 size))
    (λ a, on (λ l st, bar_result ty offset st0 cur sz a l st ∧ a < 2 ^ 32)) (on (bars_at st0 cur offset sz)).
Proof.
  intros H0 Hsz H16 Hp s (Hfn & Hs & Hoff). unfold on_mmio. destruct (alloc_mmio32 size (mmio s)) as [r st'] eqn:E.
  destruct (alloc_fail_same false size _ _ _ E) as [[a ->]|[[e ->] ->]]; [|by destruct s].
  apply alloc_mmio32_Ok in E as (_ & Hal & Hge & Hle & ->); [|apply Hs|lia].
  destruct (bi_ok _ _ _ _ _ Hs) as [Hok1 Hok2]. unfold on. cbn [dev mmio].
  destruct (advance_inv st0 cur sz (bars (dev s)) (mmio s) (mkMmio (a + size) (MMIO64 (mmio s))) (a, size)) as [Hi Hf];
    try done; unfold mmio_ok, placed in *; cbn [MMIO32 MMIO64 fst snd] in *; [lia..|].
  unfold MMIO32_START, MMIO32_SIZE in *. split; [done|]. split; [|lia]. split; [by split|]. right. split; [lia|]. split; [|by exists size].
  by eapply align_up_16; [| |exact H16|exact Hal]; lia.
Qed.

Lemma alloc64_safe ty offset st0 cur sz size : mmio_ok st0 → 0 < size → size mod 16 = 0 → probed ty offset size →
  safe (on (bars_at st0 cur offset sz)) (on_mmio (D := D) (alloc_mmio64 size))
    (λ a, on (bar_result ty offset st0 cur sz a)) (on (bars_at st0 cur offset sz)).
Proof.
  intros H0 Hsz H16 Hp s (Hfn & Hs & Hoff). unfold on_mmio. destruct (alloc_mmio64 size (mmio s)) as [r st'] eqn:E.
  destruct (alloc_fail_same true size _ _ _ E) as [[a ->]|[[e ->] ->]]; [|by destruct s].
  apply alloc_mmio64_Ok in E as (_ & Hal & Hge & Hle & ->); [|apply Hs|lia].
  destruct (bi_ok _ _ _ _ _ Hs) as [Hok1 Hok2]. unfold on. cbn [dev mmio].
  destruct (advance_inv st0 cur sz (bars (dev s)) (mmio s) (mkMmio (MMIO32 (mmio s)) (a + size)) (a, size)) as [Hi Hf];
    try done; unfold mmio_ok, placed in *; cbn [MMIO32 MMIO64 fst snd] in *; [lia..|].
  unfold MMIO64_START, MMIO64_SIZE in *. split; [done|]. split; [by split|]. right. split; [lia|]. split; [|by exists size].
  by eapply align_up_16; [| |exact H16|exact Hal]; lia.
Qed.

Lemma program_bar32_safe st0 cur sz offset : mmio_ok st0 →
  safe (on (bars_at st0 cur offset sz)) (program_bar32 offset)
    (λ a, on (λ l st, bar_result MemorySpace32 offset st0 cur sz a l st ∧ a < 2 ^ 32)) (on (bars_at st0 cur offset sz)).
Proof.
  intros H0. eapply safe_bind; [apply get_bar_size_safe|]. intros size s [Hs (Hr & H16 & Hp)]. revert s Hs.
  destruct (Z.ltb_spec 0 size); [|apply safe_ret; intros s [Hfn Hs]; split; [done|]; split; [by apply bar_result_0|lia]].
  eapply safe_bind; [apply alloc32_safe; auto|intros a].
  apply write_bind; [by intros s (? & [? _] & _)|]. by apply safe_ret.
Qed.

Lemma program_bar64_safe st0 cur sz offset : mmio_ok st0 → 0 <= offset <= 0x24 →
  safe (on (bars_at st0 cur offset sz)) (program_bar64 offset) (λ a, on (bar_result MemorySpace64 offset st0 cur sz a)) (on (bars_at st0 cur offset sz)).
Proof.
  intros H0 Ho. eapply safe_bind; [by apply get_bar_size64_safe|]. intros size s [Hs (Hr & H16 & Hp)]. revert s Hs.
  destruct (Z.ltb_spec 0 size); [|apply safe_ret; intros s [Hfn Hs]; split; [done|]; by apply bar_result_0].
  eapply safe_bind; [apply alloc64_safe; auto|intros a]. apply write_bind; [by intros s (? & ? & _)|].
  intros s Hs. unfold add_u, checked_add. destruct (Z.ltb_spec (offset + 4) (2 ^ 8)); [|lia]. rewrite or_panic_bind.
  revert s Hs. apply write_bind; [by intros s (? & ? & _)|]. by apply safe_ret.
Qed.

(** ** The loop *)

Definition upd (i : nat) (n : Z) (sz : nat → Z) : nat → Z := λ j, if decide (j = i) then n else sz j.

Lemma bar_offset_insert l (k i : nat) b : (i <= k)%nat → bar_offset (<[k := b]> l) i = bar_offset l i.
Proof. intros Hi. unfold bar_offset. by rewrite take_insert_ge. Qed.

Lemma bar_offset_next l (cur : Z) b : 0 <= cur < lenz l →
  bar_offset (<[Z.to_nat cur := b]> l) (Z.to_nat (cur + 1)) = bar_offset l (Z.to_nat cur) + (if is_64 b then 8 else 4).
Proof.
  intros Hc. unfold lenz in Hc. replace (Z.to_nat (cur + 1)) with (S (Z.to_nat cur)) by lia. unfold bar_offset.
  assert (<[Z.to_nat cur := b]> l !! Z.to_nat cur = Some b) as Hb by (apply list_lookup_insert_Some; left; split_and!; [done|done|lia]).
  rewrite (take_S_r _ _ _ Hb), take_insert_ge, List.filter_app by done. cbn [List.filter].
  unfold lenz. rewrite length_app. destruct (is_64 b); cbn [Datatypes.length]; lia.
Qed.

Lemma put_inv st0 cur sz l st b n :
  bars_inv st0 cur sz l st → 0 <= cur < 6 →
  (bar_type b = IoSpace → 0 <= bar_address b < 2 ^ 32) →
  (occupied b → probed (bar_type b) (bar_offset l (Z.to_nat cur)) n ∧ fresh_region st0 sz l st (bar_address b, n)) →
  bars_inv st0 (cur + 1) (upd (Z.to_nat cur) n sz) (<[Z.to_nat cur := b]> l) st.
Proof.
  intros [] Hc Hio Hf. unfold upd. split; try done.
  - by rewrite lenz_insert.
  - intros i b' Hl Hi. rewrite list_lookup_insert_ne in Hl by lia. eapply bi_clear0; [done|lia].
  - intros i b' Hl. destruct (decide (i = Z.to_nat cur)) as [->|Hne].
    + apply list_lookup_insert_Some in Hl as [(_ & <- & _)|[? _]]; [done|congruence].
    + rewrite list_lookup_insert_ne in Hl by done. by eapply bi_io0.
  - intros i b' Hl Hb'. case_decide as Hne.
    + subst i. apply list_lookup_insert_Some in Hl as [(_ & <- & _)|[? _]]; [|congruence].
      rewrite bar_offset_insert by done. by apply Hf.
    + rewrite list_lookup_insert_ne in Hl by done. rewrite bar_offset_insert; [by apply bi_probed0|].
      destruct (Z.le_gt_cases cur (Z.of_nat i)) as [Hi|]; [|lia]. destruct Hb' as [_ []]. by eapply bi_clear0.
  - intros i b' Hl Hb'. case_decide as Hne.
    + subst i. apply list_lookup_insert_Some in Hl as [(_ & <- & _)|[? _]]; [|congruence]. by apply Hf.
    + rewrite list_lookup_insert_ne in Hl by done. by apply bi_placed0.
  - intros i j bi bj Hi Hj Hne Ho Ho'. case_decide as Ei; case_decide as Ej; try (subst; congruence).
    + subst i. apply list_lookup_insert_Some in Hi as [(_ & <- & _)|[? _]]; [|congruence].
      rewrite list_lookup_insert_ne in Hj by done. destruct (Hf Ho) as (_ & _ & Hd). specialize (Hd j bj Hj Ho').
      unfold disjoint_regions in *. cbn in *. lia.
    + subst j. apply list_lookup_insert_Some in Hj as [(_ & <- & _)|[? _]]; [|congruence].
      rewrite list_lookup_insert_ne in Hi by done. destruct (Hf Ho') as (_ & _ & Hd). by apply Hd.
    + rewrite list_lookup_insert_ne in Hi, Hj by done. by eapply bi_apart0.
Qed.

Lemma put_bar_run cur b (s : PciSt D) : 0 <= cur < lenz (bars (dev s)) →
  put_bar cur b s = (Ok tt, set_bars (λ _, <[Z.to_nat cur := b]> (bars (dev s))) s).
Proof.
  intros Hc. unfold put_bar. rewrite getS_bind. unfold alterz.
  destruct (nthz_is_Some (bars (dev s)) cur Hc) as [x Hx]. by rewrite Hx.
Qed.

(** The BARs as they are after [cur] of them. *)
Definition binv (st0 : Mmio) (cur : Z) (s : PciSt D) : Prop := ∃ sz, on (bars_inv st0 cur sz) s.
Definition binv_at (st0 : Mmio) (cur offset : Z) (s : PciSt D) : Prop := ∃ sz, on (bars_at st0 cur offset sz) s.

Lemma binv_weaken st0 cur cur' s : cur <= cur' → binv st0 cur s → binv st0 cur' s.
Proof.
  intros Hc (sz & ? & []). exists sz. split; [done|]. split; try done. intros i b Hl Hi. eapply bi_clear0; [done|lia].
Qed.

Lemma at_weaken st0 cur offset sz s : cur <= 6 → on (bars_at st0 cur offset sz) s → binv st0 6 s.
Proof. intros Hc (Hfn & Hi & _). apply (binv_weaken _ cur); [done|]. by exists sz. Qed.

Lemma put_at st0 cur offset b sz n s :
  0 <= cur < 6 → on (bars_at st0 cur offset sz) s → (bar_type b = IoSpace → 0 <= bar_address b < 2 ^ 32) →
  (occupied b → probed (bar_type b) offset n ∧ fresh_region st0 sz (bars (dev s)) (mmio s) (bar_address b, n)) →
  ∃ s', put_bar cur b s = (Ok tt, s') ∧ binv_at st0 (cur + 1) (offset + (if is_64 b then 8 else 4)) s'.
Proof.
  intros Hc (Hfn & Hi & <-) Hio Hf. rewrite put_bar_run by (rewrite (bi_len _ _ _ _ _ Hi); lia). eexists. split; [done|].
  exists (upd (Z.to_nat cur) n sz). split; [done|]. split; [by apply put_inv|].
  apply bar_offset_next. rewrite (bi_len _ _ _ _ _ Hi). lia.
Qed.

Lemma put_result st0 cur offset a ty sz :
  0 <= cur < 6 → ty ≠ IoSpace →
  safe (on (bar_result ty offset st0 cur sz a)) (put_bar cur (mkBar a ty))
    (λ _, binv_at st0 (cur + 1) (offset + (if is_64 (mkBar a ty) then 8 else 4))) (binv st0 6).
Proof.
  intros Hc Hty s (Hfn & Hi & [->|(_ & _ & n & Hp)]).
  - by destruct (put_at st0 cur offset (mkBar 0 ty) sz 0 s) as (s' & -> & Hs'); [| |done|by intros [_ ?]|].
  - by destruct (put_at st0 cur offset (mkBar a ty) sz n s) as (s' & -> & Hs').
Qed.

Lemma mask32 a : 0 <= a < 2 ^ 32 → a mod 16 = 0 → Z.land a PCI_MEM32_BASE_ADDRESS_MASK = a.
Proof.
  intros Ha H16. change PCI_MEM32_BASE_ADDRESS_MASK with (2 ^ 32 - 16). rewrite land_low4 by lia.
  pose proof (Z.div_mod a 16 ltac:(lia)). lia.
Qed.

Lemma mask64 a : 0 <= a < 2 ^ 64 → a mod 16 = 0 → Z.land a PCI_MEM64_BASE_ADDRESS_MASK = a.
Proof.
  intros Ha H16. change PCI_MEM64_BASE_ADDRESS_MASK with (2 ^ 64 - 16). rewrite land_low4 by lia.
  pose proof (Z.div_mod a 16 ltac:(lia)). lia.
Qed.

Lemma io_address v : 0 <= v < 2 ^ 32 → 0 <= Z.land v 0xfffffffc < 2 ^ 32.
Proof.
  intros Hv. change 0xfffffffc with (not_u 32 3). pose proof (land_not_u_bounds 32 v 3 ltac:(lia) Hv ltac:(lia)).
  split; [|lia]. apply Z.land_nonneg. lia.
Qed.

Lemma bar_loop_safe st0 fuel : mmio_ok st0 → ∀ offset cur,
  0 <= cur → 0x10 + 4 * cur <= offset → 0x28 - offset <= 4 * Z.of_nat fuel →
  safe (binv_at st0 cur offset) (bar_loop fuel offset cur) (λ _, binv st0 6) (binv st0 6).
Proof.
  intros H0. induction fuel as [|fuel IH]; intros offset cur Hc Hoc Hf; cbn [bar_loop];
    destruct (Z.ltb_spec 0x24 offset) as [Hd|Hd].
  1, 3: apply safe_ret; intros s (sz & Hfn & [] & _); exists sz; split; [done|]; split; try done; intros i b Hl Hi;
    apply lookup_lt_Some in Hl; unfold lenz in *; lia.
  { lia. }
  assert (cur < 6) as Hc6 by lia.
  intros s (sz & Hs). revert s Hs. unfold read_u32. apply read_bind; [done|intros s; apply at_weaken; lia|].
  intros v Hv. change (2 ^ (8 * 4)) with (2 ^ 32) in Hv.
  destruct (Z.land v 1 =? 1); [|destruct (Z.land (Z.shiftr v 1) 3 =? 0); [|destruct (Z.land (Z.shiftr v 1) 3 =? 2)]].
  - apply safe_bind with (λ _, binv_at st0 (cur + 1) (offset + 4)); [|intros []; apply IH; lia].
    intros s Hs. destruct (put_at st0 cur offset (mkBar (Z.land v 0xfffffffc) IoSpace) sz 0 s) as (s' & -> & Hs');
      [lia|done|intros _; by apply io_address|by intros []|done].
  - eapply safe_bind; [eapply safe_err; [by apply program_bar32_safe|intros s; apply at_weaken; lia]|intros a].
    apply safe_bind with (λ _, binv_at st0 (cur + 1) (offset + 4)); [|intros []; apply IH; lia].
    intros s (Hfn & [Hi Ha] & Hlt). apply (put_result st0 cur offset _ MemorySpace32 sz); [lia|done|]. split; [done|]. split; [done|].
    destruct Ha as [->|(Hr & H16 & Hn)]; [by left|right]. by rewrite mask32 by lia.
  - apply safe_get. intros s (Hfn & Hs & Hoff).
    destruct (nthz_is_Some (bars (dev s)) cur) as [old Hold]; [rewrite (bi_len _ _ _ _ _ Hs); lia|].
    intros s1 ->. rewrite Hold, or_panic_bind, M_bind_eq, put_bar_run by (rewrite (bi_len _ _ _ _ _ Hs); lia).
    assert (bar_address old = 0) as ->.
    { unfold nthz in Hold. destruct (0 <=? cur); [|done]. eapply (bi_clear _ _ _ _ _ Hs); [exact Hold|lia]. }
    set (s2 := set_bars _ s). assert (on (bars_at st0 cur offset (upd (Z.to_nat cur) 0 sz)) s2) as Hs2.
    { split; [done|]. split; [|subst s2; cbn; by rewrite bar_offset_insert].
      assert (bars_inv st0 (cur + 1) (upd (Z.to_nat cur) 0 sz) (bars (dev s2)) (mmio s2)) as []
        by (apply put_inv; [done|lia|done|by intros [_ ?]]).
      split; try done. intros i b Hl Hi. destruct (decide (i = Z.to_nat cur)) as [->|]; [|eapply bi_clear0; [done|lia]].
      apply list_lookup_insert_Some in Hl as [(_ & <- & _)|[? _]]; [done|congruence]. }
    generalize dependent s2. intros s2 Hs2. revert s2 Hs2.
    eapply safe_bind; [eapply safe_err; [apply program_bar64_safe; [done|lia]|intros s2; apply at_weaken; lia]|intros a].
    apply safe_bind with (λ _, binv_at st0 (cur + 1) (offset + 8)); [|intros []; apply IH; lia].
    intros s2 (Hfn2 & Hi & Ha). eapply (put_result st0 cur offset _ MemorySpace64); [lia|done|]. split; [done|]. split; [exact Hi|].
    destruct Ha as [->|(Hr & H16 & Hn)]; [by left|right]. by rewrite mask64 by lia.
  - apply safe_fail. intros s. apply at_weaken. lia.
Qed.

End runs.

Section init.
Context {D : Type} `{MmioDevice D}.

Lemma pci_init_bars (s : PciSt D) :
  mmio_ok (mmio s) → bars (dev s) = replicate 6 PciBar_default →
  match pci_init s with
  | (Panic, _) => False
  | (_, s') => ∃ sz, bars_inv (function_of s) (mmio s) 6 sz (bars (dev s')) (mmio s')
  end.
Proof.
  intros Hok Hb. set (fn := function_of s).
  assert (binv_at fn (mmio s) 0 0x10 s) as Hs.
  { exists (λ _, 0). split; [done|]. split; [|done]. split; [by rewrite Hb|done|lia| | | | |]; rewrite Hb.
    - by intros i b [-> _]%lookup_replicate.
    - by intros i b [-> _]%lookup_replicate.
    - by intros i b [-> _]%lookup_replicate [_ ?].
    - by intros i b [-> _]%lookup_replicate [_ ?].
    - by intros i j b b' [-> _]%lookup_replicate ? ? [_ ?]. }
  set (st0 := mmio s) in *. clearbody st0 fn. clear Hb.
  enough (safe (binv_at fn st0 0 0x10) pci_init (λ _, binv fn st0 6) (binv fn st0 6)) as Hsafe.
  { specialize (Hsafe s Hs). unfold binv, on in Hsafe. destruct (pci_init s) as [[] ?]; naive_solver. }
  clear s Hs. apply safe_get. intros s Hs s0 ->. revert s Hs. intros s (sz & Hs).
  set (b := bus (dev s)). set (d := device_number (dev s)). set (f := func (dev s)). clearbody b d f.
  assert (∀ s, on fn (bars_at fn st0 0 0x10 sz) s → binv fn st0 6 s) as Hweak by (intros s1; apply at_weaken; lia).
  revert s Hs. eapply safe_bind; [|intros details].
  { eapply safe_bind; [eapply safe_err; [by apply ex_read_safe|done]|intros v].
    apply (safe_ret _ _ (λ _, on fn (bars_at fn st0 0 0x10 sz))). by intros s [? _]. }
  eapply safe_bind; [apply (safe_modifyS _ _ (λ _, on fn (bars_at fn st0 0 0x10 sz))); by intros s|intros []].
  do 2 (apply read_bind; [done|done|intros _ _]).
  eapply safe_bind with (λ _, binv fn st0 6).
  - eapply safe_pre; [apply (bar_loop_safe fn st0 6 Hok); lia|]. intros s Hs. by exists sz.
  - intros [] s (sz' & Hs'). pose proof (write_safe fn (bars_inv fn st0 6 sz') 2 0x4 (Z.lor (Z.lor IO_SPACE MEMORY_SPACE) BUS_MASTER)
      s Hs') as Hw. unfold write_u16. destruct (cfg_write _ _ _ s) as [[] ?]; [by exists sz'..|done].
Qed.

(** C34 Whatever the host answers to configuration accesses, the
    initialization of a PCI device does not abort, and whether it succeeds or
    fails: a memory BAR is either clear or at a region that the allocator handed
    out during this call inside its windows.  The region has the size that the host
    asked for in its answer to the probe of that BAR's register, or of its two
    registers when it is a 64-bit one, such regions are pairwise disjoint, and the
    address of an I/O BAR has 32 bits. *)
Theorem pci_bars_placed (s : PciSt D) :
  mmio_ok (mmio s) → bars (dev s) = replicate 6 PciBar_default →
  match pci_init s with
  | (Panic, _) => False
  | (_, s') => ∃ sz, bars_inv (function_of s) (mmio s) 6 sz (bars (dev s')) (mmio s')
  end.
Proof. apply pci_init_bars. Qed.

End init.

(** ** Witness *)

Module Demo.

(** A host that answers every read with the mask of a 4 KiB memory BAR. *)
#[local] Instance constant_host : MmioDevice unit := {
  mmio_load := λ _ _ d, (0xFFFFF000, d);
  mmio_store := λ _ _ _ d, d }.

Definition plugged : PciSt unit := mkPci (pci_new 0 3 0) tt (mkMmio MMIO32_START MMIO64_START).

Definition initialized : PciSt unit := Eval vm_compute in (pci_init plugged).2.

Lemma init_run : pci_init plugged = (Ok tt, initialized).
Proof. vm_compute. reflexivity. Qed.

Lemma pci_bars_placed_witness :
  ∃ sz : nat → Z, sz 0%nat = 0x1000 ∧ sz 5%nat = 0x1000 ∧ disjoint_regions (0xC0000000, sz 0%nat) (0xC0005000, sz 5%nat).
Proof.
  assert (mmio_ok (mmio plugged)) as Hok by (vm_compute; repeat split; discriminate).
  pose proof (pci_bars_placed plugged Hok eq_refl) as H. rewrite init_run in H. destruct H as [sz H]. exists sz.
  destruct (bi_probed _ _ _ _ _ _ H 0%nat (mkBar 0xC0000000 MemorySpace32) eq_refl ltac:(split; discriminate)) as [[] H0].
  destruct (bi_probed _ _ _ _ _ _ H 5%nat (mkBar 0xC0005000 MemorySpace32) eq_refl ltac:(split; discriminate)) as [[] H5].
  split; [exact H0|]. split; [exact H5|].
  apply (bi_apart _ _ _ _ _ _ H 0%nat 5%nat (mkBar 0xC0000000 MemorySpace32) (mkBar 0xC0005000 MemorySpace32));
    [reflexivity|reflexivity|discriminate| |]; split; discriminate.
Defined.

End Demo.
