(* ===== verification/VirtioPci.v ===== *)
(** * VirtioPci: virtio over PCI

    src/devices/virtio/src/virtio_pci.rs.  [init] walks the capability list of a
    device the host emulates, checks the regions it announces and keeps windows
    over them; the other operations of the trait [VirtioTransport] are register
    accesses through those windows. *)
From stdpp Require Import base tactics numbers list list_numbers option.
From S2P Require Import Prelude Mmio PciConfig VirtQueue.
Local Open Scope Z_scope.

(** ** Constants (consts.rs) *)

Definition COMMON_CONFIGURATION_REGISTERS_OFFSET : Z := 0x38.
Definition CAP_LEN : Z := 0x10.
Definition CYCLE_LEN : Z := 0x10.
Definition DEVICE_OFFSET : Z := 0x02.
Definition STATUS_OFFSET : Z := 0x06.
Definition PCI_CAP_POINTER : Z := 0x34.
Definition MAX_BARS_INDEX : Z := 5.
Definition VIRTIO_CAPABILITIES_SPECIFIC : Z := 0x09.
Definition VIRTIO_CFG_TYPE_OFFSET : Z := 3.
Definition VIRTIO_BAR_OFFSET : Z := 4.
Definition VIRTIO_CAP_OFFSET : Z := 8.
Definition VIRTIO_CAP_LENGTH_OFFSET : Z := 12.
Definition VIRTIO_DEVICE_FEATURE_SELECT_OFFSET : Z := 0x0.
Definition VIRTIO_DEVICE_FEATURE_OFFSET : Z := 0x04.
Definition VIRTIO_DRIVER_FEATURE_SELECT_OFFSET : Z := 0x08.
Definition VIRTIO_DRIVER_FEATURE_OFFSET : Z := 0x0c.
Definition VIRTIO_MSIX_CONFIG_OFFSET : Z := 0x10.
Definition VIRTIO_DEVICE_STATUS_OFFSET : Z := 0x14.
Definition VIRTIO_QUEUE_SELECT_OFFSET : Z := 0x16.
Definition VIRTIO_QUEUE_SIZE_OFFSET : Z := 0x18.
Definition VIRTIO_QUEUE_MSIX_VECTOR_OFFSET : Z := 0x1a.
Definition VIRTIO_QUEUE_ENABLE_OFFSET : Z := 0x1c.
Definition VIRTIO_QUEUE_NOTIFY_OFF_OFFSET : Z := 0x1e.
Definition VIRTIO_QUEUE_DESC_OFFSET : Z := 0x20.
Definition VIRTIO_QUEUE_AVAIL_OFFSET : Z := 0x28.
Definition VIRTIO_QUEUE_USED_OFFSET : Z := 0x30.
Definition MSIX_CAPABILITY_ID : Z := 0x11.
Definition MSIX_MESSAGE_CONTROL_OFFSET : Z := 0x2.
Definition MSIX_BIR_OFFSET : Z := 0x4.
Definition MSIX_MAX_VECTORS : Z := 0x800.

(** [VirtioPciCapabilityType] *)
Definition CommonConfig : Z := 1.
Definition NotifyConfig : Z := 2.
Definition IsrConfig : Z := 3.
Definition DeviceConfig : Z := 4.
Definition PciConfigCap : Z := 5.
Definition VIRTIO_PCI_MAX_CAP_TYPE : Z := 6.

(** [device_length_check]: the smallest device configuration of a device id. *)
Definition device_length_check (device_id length : Z) : option Z :=
  if device_id =? 0x1041 then sub_u length 12
  else if device_id =? 0x1042 then sub_u length 60
  else if device_id =? 0x1043 then sub_u length 12
  else if device_id =? 0x1045 then sub_u length 8
  else if device_id =? 0x1048 then sub_u length 36
  else if device_id =? 0x1050 then sub_u length 16
  else if device_id =? 0x1052 then sub_u length 294
  else if device_id =? 0x1053 then sub_u length 8
  else None.

(** ** State *)

(** [CheckRegionOverlap]: for each capability type, whether it was seen and its
    interval. *)
Record CheckRegionOverlap := mkCheck { flag : list bool; interval : list (Z * Z) }.

Definition check_default : CheckRegionOverlap := mkCheck (replicate 6 false) (replicate 6 (0, 0)).

Record VirtioPciTransport := mkTransport {
  region : MemoryRegion;
  notify_region : MemoryRegion;
  notify_off_multiplier : Z;
  device_config_region : MemoryRegion;
  msix_table : MemoryRegion;
  msix_table_free : Z }.

Definition no_region : MemoryRegion := mkRegion 0 0.
Definition transport_default : VirtioPciTransport := mkTransport no_region no_region 0 no_region no_region 0.

Section virtio_pci.
Context {D : Type} `{MmioDevice D} (memory_map : list RamRegion).

Record VpSt := mkVp { vp : VirtioPciTransport; pci : PciSt D }.

Notation VPM := (M VpSt VirtioError).

Definition set_vp (f : VirtioPciTransport → VirtioPciTransport) (s : VpSt) : VpSt := mkVp (f (vp s)) (pci s).
Definition set_region (r : MemoryRegion) (t : VirtioPciTransport) : VirtioPciTransport :=
  mkTransport r (notify_region t) (notify_off_multiplier t) (device_config_region t) (msix_table t) (msix_table_free t).
Definition set_notify_region (r : MemoryRegion) (t : VirtioPciTransport) : VirtioPciTransport :=
  mkTransport (region t) r (notify_off_multiplier t) (device_config_region t) (msix_table t) (msix_table_free t).
Definition set_multiplier (n : Z) (t : VirtioPciTransport) : VirtioPciTransport :=
  mkTransport (region t) (notify_region t) n (device_config_region t) (msix_table t) (msix_table_free t).
Definition set_device_region (r : MemoryRegion) (t : VirtioPciTransport) : VirtioPciTransport :=
  mkTransport (region t) (notify_region t) (notify_off_multiplier t) r (msix_table t) (msix_table_free t).
Definition set_msix (r : MemoryRegion) (t : VirtioPciTransport) : VirtioPciTransport :=
  mkTransport (region t) (notify_region t) (notify_off_multiplier t) (device_config_region t) r (msix_table_free t).
Definition set_msix_free (n : Z) (t : VirtioPciTransport) : VirtioPciTransport :=
  mkTransport (region t) (notify_region t) (notify_off_multiplier t) (device_config_region t) (msix_table t) n.

(** [From<PciError>] and [.map_err(|_| VirtioError::IoError)] *)
Definition on_pci_err {X} (e : VirtioError) (m : M (PciSt D) PciError X) : VPM X := λ s,
  let '(r, p) := m (pci s) in
  (match r with Ok x => Ok x | Err _ => Err e | Panic => Panic end, mkVp (vp s) p).
Definition on_pci {X} (m : M (PciSt D) PciError X) : VPM X := on_pci_err PciErr m.

(** [From<MemoryRegionError>] of an access through a window. *)
Definition on_region {X} (m : M D MemoryRegionError X) : VPM X := λ s,
  let '(r, h) := m (host (pci s)) in
  (match r with
   | Ok x => Ok x
   | Err e => Err (InvalidOffset (Mmio.base (err_region e)) (Mmio.length (err_region e)) (err_offset e))
   | Panic => Panic
   end, mkVp (vp s) (set_host h (pci s))).

Definition invalid {X} : VPM X := failM VirtQueue.InvalidParameter.

(** ** Regions *)

(** [CheckRegionOverlap::set_region] *)
Definition check_set_region (c : CheckRegionOverlap) (index b len : Z) : VPM CheckRegionOverlap :=
  if VIRTIO_PCI_MAX_CAP_TYPE <=? index then invalid
  else
    e ← or_panic (add_u 64 b len);
    fl ← or_panic (alterz (λ _, true) index (flag c));
    iv ← or_panic (alterz (λ _, (b, e)) index (interval c));
    mret (mkCheck fl iv).

(** The range [offset .. offset + length] above [address] does not overflow. *)
Definition range_ok (address offset length : Z) : bool :=
  if negb (Z.shiftr address 32 =? 0) then
    match checked_add 64 address offset with
    | Some a => bool_decide (is_Some (checked_add 64 a length))
    | None => false
    end
  else
    match checked_add 32 (as_u 32 address) offset, checked_add 32 offset length with
    | Some a, Some _ => bool_decide (is_Some (checked_add 32 a length))
    | _, _ => false
    end.

Definition window (b len : Z) : VPM MemoryRegion :=
  ok_or (region_new memory_map b len) VirtQueue.InvalidParameter.

(** The capability of type [cfg_type] at [cap_next]. *)
Definition virtio_cap (device_id cap_next : Z) (c : CheckRegionOverlap) : VPM CheckRegionOverlap :=
  _ ← err_if (negb (cap_next mod 4 =? 0)) VirtQueue.InvalidParameter;
  o ← or_panic (add_u 8 cap_next VIRTIO_CFG_TYPE_OFFSET);
  cfg_type ← on_pci (read_u8 o);
  o ← or_panic (add_u 8 cap_next VIRTIO_BAR_OFFSET);
  bar ← on_pci (read_u8 o);
  o ← or_panic (add_u 8 cap_next VIRTIO_CAP_OFFSET);
  offset ← on_pci (read_u32 o);
  o ← or_panic (add_u 8 cap_next VIRTIO_CAP_LENGTH_OFFSET);
  length ← on_pci (read_u32 o);
  _ ← err_if (MAX_BARS_INDEX <? bar) VirtQueue.InvalidParameter;
  s ← getS;
  b ← or_panic (nthz (bars (dev (pci s))) bar);
  let address := bar_address b in
  _ ← err_if (negb (range_ok address offset length)) VirtQueue.InvalidParameter;
  if cfg_type =? CommonConfig then
    _ ← err_if ((address =? 0) || (length <? COMMON_CONFIGURATION_REGISTERS_OFFSET)) VirtQueue.InvalidParameter;
    start ← or_panic (add_u 64 address offset);
    c ← check_set_region c cfg_type start length;
    r ← window start length;
    _ ← modifyS (set_vp (set_region r));
    mret c
  else if cfg_type =? NotifyConfig then
    _ ← err_if (cap_next =? u_max 8 - CAP_LEN + 1) VirtQueue.InvalidParameter;
    _ ← err_if ((address =? 0) || (length <? 4)) VirtQueue.InvalidParameter;
    start ← or_panic (add_u 64 address offset);
    c ← check_set_region c cfg_type start length;
    r ← window start length;
    _ ← modifyS (set_vp (set_notify_region r));
    o ← or_panic (add_u 8 cap_next CAP_LEN);
    m ← on_pci (read_u32 o);
    _ ← modifyS (set_vp (set_multiplier m));
    mret c
  else if cfg_type =? DeviceConfig then
    _ ← err_if (bool_decide (device_length_check device_id length = None)) VirtQueue.InvalidParameter;
    _ ← err_if (address =? 0) VirtQueue.InvalidParameter;
    start ← or_panic (add_u 64 address offset);
    c ← check_set_region c cfg_type start length;
    r ← window start length;
    _ ← modifyS (set_vp (set_device_region r));
    mret c
  else if (cfg_type =? PciConfigCap) || (cfg_type =? IsrConfig) then
    start ← or_panic (add_u 64 address offset);
    check_set_region c cfg_type start length
  else mret c.

(** The MSI-X capability at [cap_next]. *)
Definition msix_cap (cap_next : Z) : VPM unit :=
  o ← or_panic (add_u 8 cap_next MSIX_MESSAGE_CONTROL_OFFSET);
  mcr ← on_pci (read_u16 o);
  o4 ← or_panic (add_u 8 cap_next MSIX_BIR_OFFSET);
  w ← on_pci (read_u32 o4);
  let bir := Z.land w 7 in
  s ← getS;
  _ ← err_if (lenz (bars (dev (pci s))) <=? bir) VirtQueue.InvalidParameter;
  w ← on_pci (read_u32 o4);
  let table_offset := Z.land w 0xfffffff8 in
  let table_size := Z.land mcr 0x7ff in
  _ ← err_if (negb (Z.land table_offset 7 =? 0) || (MSIX_MAX_VECTORS <? table_size)) VirtQueue.InvalidParameter;
  n ← or_panic (add_u 16 table_size 1);
  _ ← modifyS (set_vp (set_msix_free n));
  s ← getS;
  b ← or_panic (nthz (bars (dev (pci s))) bir);
  start ← or_panic (add_u 64 (bar_address b) table_offset);
  r ← window start (n * 16);
  _ ← modifyS (set_vp (set_msix r));
  on_pci (write_u16 o (Z.lor mcr (Z.shiftl 1 15))).

(** ** The walk over the capabilities

    [while cap_next <= u8::MAX - CAP_LEN + 1 && cap_next > 0]; [cycle_list] is
    the array of pointers seen so far, zero where none was stored.  At most
    [CYCLE_LEN] turns. *)
Fixpoint cap_loop (fuel : nat) (device_id cap_next : Z) (cycle_flag : Z) (cycle_list : list Z)
    (c : CheckRegionOverlap) : VPM CheckRegionOverlap :=
  if (cap_next <=? u_max 8 - CAP_LEN + 1) && (0 <? cap_next) then
    match fuel with
    | O => panicM
    | S fuel =>
        _ ← err_if (bool_decide (cap_next ∈ cycle_list)) VirtQueue.InvalidParameter;
        cycle_list ← or_panic (alterz (λ _, cap_next) cycle_flag cycle_list);
        capability ← on_pci (read_u8 cap_next);
        c ← (if capability =? VIRTIO_CAPABILITIES_SPECIFIC then virtio_cap device_id cap_next c
             else if capability =? MSIX_CAPABILITY_ID then _ ← msix_cap cap_next; mret c
             else mret c);
        let cycle_flag := cycle_flag + 1 in
        _ ← err_if (CYCLE_LEN <=? cycle_flag) VirtQueue.InvalidParameter;
        o ← or_panic (add_u 8 cap_next 1);
        cap_next ← on_pci (read_u8 o);
        cap_loop fuel device_id cap_next cycle_flag cycle_list c
    end
  else mret c.

(** [interval.sort_by(|a, b| a[0].cmp(&b[0]))], a stable sort. *)
Fixpoint insert_interval (x : Z * Z) (l : list (Z * Z)) : list (Z * Z) :=
  match l with
  | [] => [x]
  | y :: l' => if y.1 <=? x.1 then y :: insert_interval x l' else x :: l
  end.
Definition sort_intervals (l : list (Z * Z)) : list (Z * Z) := foldl (λ s x, insert_interval x s) [] l.

(** [for i in 1..interval.len()]: each starts after its predecessor ends. *)
Fixpoint overlap_free (prev : Z * Z) (l : list (Z * Z)) : bool :=
  match l with
  | [] => true
  | x :: l' =>
      if (x.1 =? 0) || (x.2 =? 0) then overlap_free x l'
      else if x.1 <? prev.2 then false else overlap_free x l'
  end.

Definition check_regions (c : CheckRegionOverlap) : bool :=
  bool_decide (nthz (flag c) CommonConfig = Some true) && bool_decide (nthz (flag c) NotifyConfig = Some true) &&
  bool_decide (nthz (flag c) IsrConfig = Some true) && bool_decide (nthz (flag c) PciConfigCap = Some true) &&
  match sort_intervals (interval c) with [] => true | x :: l => overlap_free x l end.

Definition virtio_pci_init (_device_type : Z) : VPM unit :=
  _ ← on_pci_err IoError pci_init;
  status ← on_pci (read_u16 STATUS_OFFSET);
  device_id ← on_pci (read_u16 DEVICE_OFFSET);
  _ ← err_if (Z.land status (Z.shiftl 1 4) =? 0) VirtioUnsupportedDevice;
  cap_next ← on_pci (read_u8 PCI_CAP_POINTER);
  c ← cap_loop 16 device_id cap_next 0 (replicate 16 0) check_default;
  if check_regions c then mret tt else invalid.

(** ** Registers *)

Definition vp_region : VPM MemoryRegion := s ← getS; mret (region (vp s)).

Definition vp_get_status : VPM Z := r ← vp_region; on_region (mmio_read_u8 r VIRTIO_DEVICE_STATUS_OFFSET).
Definition vp_set_status (value : Z) : VPM unit :=
  r ← vp_region; on_region (mmio_write_u8 r VIRTIO_DEVICE_STATUS_OFFSET value).
Definition vp_add_status (value : Z) : VPM unit := st ← vp_get_status; vp_set_status (Z.lor st value).
Definition vp_reset : VPM unit := vp_set_status 0.

Definition vp_get_features : VPM Z :=
  r ← vp_region;
  _ ← on_region (mmio_write_u32 r VIRTIO_DEVICE_FEATURE_SELECT_OFFSET 0);
  lo ← on_region (mmio_read_u32 r VIRTIO_DEVICE_FEATURE_OFFSET);
  _ ← on_region (mmio_write_u32 r VIRTIO_DEVICE_FEATURE_SELECT_OFFSET 1);
  hi ← on_region (mmio_read_u32 r VIRTIO_DEVICE_FEATURE_OFFSET);
  mret (Z.lor lo (Z.shiftl hi 32)).

Definition vp_set_features (features : Z) : VPM unit :=
  r ← vp_region;
  _ ← on_region (mmio_write_u32 r VIRTIO_DRIVER_FEATURE_SELECT_OFFSET 0);
  _ ← on_region (mmio_write_u32 r VIRTIO_DRIVER_FEATURE_OFFSET (as_u 32 features));
  _ ← on_region (mmio_write_u32 r VIRTIO_DRIVER_FEATURE_SELECT_OFFSET 1);
  on_region (mmio_write_u32 r VIRTIO_DRIVER_FEATURE_OFFSET (as_u 32 (Z.shiftr features 32))).

Definition vp_set_queue (queue : Z) : VPM unit :=
  r ← vp_region; on_region (mmio_write_u16 r VIRTIO_QUEUE_SELECT_OFFSET queue).
Definition vp_get_queue_max_size : VPM Z := r ← vp_region; on_region (mmio_read_u16 r VIRTIO_QUEUE_SIZE_OFFSET).
Definition vp_set_queue_size (n : Z) : VPM unit :=
  r ← vp_region; on_region (mmio_write_u16 r VIRTIO_QUEUE_SIZE_OFFSET n).
Definition vp_set_descriptors_address (addr : Z) : VPM unit :=
  r ← vp_region; on_region (mmio_write_u64 r VIRTIO_QUEUE_DESC_OFFSET addr).
Definition vp_set_avail_ring (addr : Z) : VPM unit :=
  r ← vp_region; on_region (mmio_write_u64 r VIRTIO_QUEUE_AVAIL_OFFSET addr).
Definition vp_set_used_ring (addr : Z) : VPM unit :=
  r ← vp_region; on_region (mmio_write_u64 r VIRTIO_QUEUE_USED_OFFSET addr).
Definition vp_set_queue_enable : VPM unit :=
  r ← vp_region; on_region (mmio_write_u16 r VIRTIO_QUEUE_ENABLE_OFFSET 0x1).

(** [set_msix_entry]: the highest free entry of the table. *)
Definition set_msix_entry (vector : Z) : VPM Z :=
  s ← getS;
  let t := vp s in
  _ ← err_if (msix_table_free t =? 0) SetDeviceNotification;
  let msix_index := msix_table_free t - 1 in
  _ ← on_region (mmio_write_u32 (msix_table t) (msix_index * 16) 0xfee00000);
  _ ← on_region (mmio_write_u32 (msix_table t) (msix_index * 16 + 8) vector);
  _ ← on_region (mmio_write_u32 (msix_table t) (msix_index * 16 + 12) 0);
  _ ← modifyS (set_vp (set_msix_free msix_index));
  mret msix_index.

(** A vector register that must read back. *)
Definition notify_register (offset index : Z) : VPM unit :=
  r ← vp_region;
  _ ← on_region (mmio_write_u16 r offset index);
  result ← on_region (mmio_read_u16 r offset);
  err_if (negb (result =? index)) SetDeviceNotification.
Definition vp_set_config_notify : Z → VPM unit := notify_register VIRTIO_MSIX_CONFIG_OFFSET.
Definition vp_set_queue_notify : Z → VPM unit := notify_register VIRTIO_QUEUE_MSIX_VECTOR_OFFSET.

Definition vp_notify_queue (queue : Z) : VPM unit :=
  s ← getS;
  off ← on_region (mmio_read_u16 (region (vp s)) VIRTIO_QUEUE_NOTIFY_OFF_OFFSET);
  on_region (mmio_write_u32 (notify_region (vp s)) (off * notify_off_multiplier (vp s)) queue).

Definition vp_read_device_config (offset : Z) : VPM Z :=
  s ← getS; on_region (mmio_read_u32 (device_config_region (vp s)) offset).

(** [impl VirtioTransport for VirtioPciTransport] *)
#[global] Instance virtio_pci_transport : VirtioTransport VpSt := {
  vt_init := virtio_pci_init;
  get_status := vp_get_status;
  set_status := vp_set_status;
  add_status := vp_add_status;
  vt_reset := vp_reset;
  get_features := vp_get_features;
  set_features := vp_set_features;
  set_queue := vp_set_queue;
  get_queue_max_size := vp_get_queue_max_size;
  set_queue_size := vp_set_queue_size;
  set_descriptors_address := vp_set_descriptors_address;
  set_avail_ring := vp_set_avail_ring;
  set_used_ring := vp_set_used_ring;
  set_queue_enable := vp_set_queue_enable;
  set_interrupt_vector := set_msix_entry;
  set_config_notify := vp_set_config_notify;
  set_queue_notify := vp_set_queue_notify;
  notify_queue := vp_notify_queue;
  read_device_config := vp_read_device_config }.

End virtio_pci.
Arguments VpSt : clear implicits.
