(* ===== verification/VirtioPciSpec.v ===== *)
(** * VirtioPciSpec: the regions of a virtio device

    Whatever the host puts into configuration space, initialization terminates
    without abort, and the windows it keeps lie outside private memory and apart
    from each other (VirtioPci). *)
From stdpp Require Import base tactics numbers option list list_numbers sorting.
From S2P Require Import Prelude Mmio PciConfig PciConfigSpec VirtQueue VirtQueueSpec VirtioPci.
Local Open Scope Z_scope.

(** ** Sorting intervals *)

Definition by_start (x y : Z * Z) : Prop := x.1 <= y.1.

Lemma insert_interval_perm x l : insert_interval x l ≡ₚ x :: l.
Proof.
  induction l as [|y l IH]; cbn; [done|]. destruct (_ <=? _); [|done]. rewrite IH. apply perm_swap.
Qed.

Lemma insert_interval_sorted x l :
  StronglySorted by_start l → StronglySorted by_start (insert_interval x l).
Proof.
  induction 1 as [|y l Hs IH Hy]; cbn; [repeat constructor|]. destruct (Z.leb_spec y.1 x.1).
  - constructor; [done|]. rewrite insert_interval_perm. constructor; [done|done].
  - constructor; [by constructor|]. constructor; [unfold by_start; lia|]. eapply Forall_impl; [exact Hy|].
    unfold by_start. intros z Hz. lia.
Qed.

Lemma sort_intervals_spec l : sort_intervals l ≡ₚ l ∧ StronglySorted by_start (sort_intervals l).
Proof.
  unfold sort_intervals. enough (∀ acc, StronglySorted by_start acc →
    foldl (λ s x, insert_interval x s) acc l ≡ₚ acc ++ l ∧
    StronglySorted by_start (foldl (λ s x, insert_interval x s) acc l)) as Hg by (apply (Hg []); constructor).
  induction l as [|x l IH]; intros acc Hacc; cbn; [by rewrite app_nil_r|].
  destruct (IH (insert_interval x acc) (insert_interval_sorted _ _ Hacc)) as [Hp Hs]. split; [|done].
  rewrite Hp, insert_interval_perm. cbn. by rewrite Permutation_middle.
Qed.

Definition disjoint_intervals (x y : Z * Z) : Prop := x.2 <= y.1 ∨ y.2 <= x.1.

(** In a sorted list that passes the test, what starts above zero ends before
    the next begins. *)
Lemma overlap_free_spec l : ∀ x,
  StronglySorted by_start (x :: l) → Forall (λ z, z.1 <= z.2) (x :: l) → overlap_free x l = true →
  0 < x.1 → Forall (λ y, x.2 <= y.1) l.
Proof.
  induction l as [|y l IH]; intros x Hs Hw Ho Hx; [done|]. cbn in Ho.
  apply StronglySorted_inv in Hs as [Hs Hxy]. apply Forall_cons in Hxy as [Hxy _]. unfold by_start in Hxy.
  apply Forall_cons in Hw as [Hwx Hw]. pose proof (Forall_inv Hw) as Hwy. cbn in Hwy.
  destruct (Z.eqb_spec y.1 0); [lia|]. destruct (Z.eqb_spec y.2 0); [lia|]. cbn [orb] in Ho.
  destruct (Z.ltb_spec y.1 x.2); [done|]. constructor; [done|].
  eapply Forall_impl; [apply (IH y); [done|done|done|lia]|]. intros z Hz. cbn in Hz. lia.
Qed.

Lemma overlap_free_pairs l : ∀ x,
  StronglySorted by_start (x :: l) → Forall (λ z, z.1 <= z.2) (x :: l) → overlap_free x l = true →
  ∀ i j y z, (x :: l) !! i = Some y → (x :: l) !! j = Some z → (i < j)%nat → 0 < y.1 → y.2 <= z.1.
Proof.
  induction l as [|y l IH]; intros x Hs Hw Ho i j a b Hi Hj Hij Ha.
  { destruct i, j; cbn in Hj; [lia|done|lia|done]. }
  destruct i as [|i].
  - injection Hi as ->. destruct j as [|j]; [lia|]. cbn in Hj.
    pose proof (overlap_free_spec _ _ Hs Hw Ho Ha) as Hf. rewrite Forall_lookup in Hf. by eapply Hf.
  - destruct j as [|j]; [lia|]. cbn in Hi, Hj. cbn in Ho.
    apply StronglySorted_inv in Hs as [Hs _]. apply Forall_cons in Hw as [_ Hw].
    eapply (IH y); try done; [|lia]. destruct ((y.1 =? 0) || (y.2 =? 0)); [done|]. by destruct (_ <? _).
Qed.

(** The test accepts only intervals that are apart where they start above 0. *)
Lemma check_regions_apart c :
  check_regions c = true → Forall (λ z, z.1 <= z.2) (interval c) →
  ∀ i j y z, interval c !! i = Some y → interval c !! j = Some z → i ≠ j → 0 < y.1 → 0 < z.1 →
  disjoint_intervals y z.
Proof.
  unfold check_regions. intros [_ Ho]%andb_true_iff Hw i j y z Hi Hj Hne Hy Hz.
  destruct (sort_intervals_spec (interval c)) as [Hp Hs]. destruct (sort_intervals (interval c)) as [|x l].
  { apply Permutation_nil in Hp. rewrite Hp in Hi. done. }
  rewrite <-Hp in Hw. symmetry in Hp. apply Permutation_inj in Hp as [_ (f & Hf & Hl)].
  rewrite Hl in Hi, Hj. assert (f i ≠ f j) by (intros E; by apply Hne, Hf).
  pose proof (overlap_free_pairs _ _ Hs Hw Ho) as Hpairs.
  destruct (Nat.lt_total (f i) (f j)) as [Hlt|[Heq|Hlt]]; [left|done|right]; by eapply Hpairs.
Qed.

(** ** Invariant *)

Section init.
Context {D : Type} `{MmioDevice D} (memory_map : list RamRegion).
Notation VpSt := (VpSt D).
Notation VPM := (M VpSt VirtioError).

(** BARs as [pci_init] leaves them. *)
Definition bars_bounded (l : list PciBar) (st : Mmio) : Prop :=
  lenz l = 6 ∧ mmio_ok st ∧ Forall (λ b, 0 <= bar_address b < 2 ^ 33) l.

Lemma bars_inv_bounded `{MmioDevice D} fn st0 sz l st : mmio_ok st0 → bars_inv (D := D) fn st0 6 sz l st → bars_bounded l st.
Proof.
  intros Hst [Hlen Hok Hmono _ Hio _ Hpl _]. split; [done|]. split; [done|]. apply Forall_lookup. intros i b Hb.
  destruct (decide (bar_type b = IoSpace)) as [Ht|Ht]; [specialize (Hio i b Hb Ht); lia|].
  destruct (decide (bar_address b = 0)) as [->|Ha]; [lia|].
  specialize (Hpl i b Hb (conj Ht Ha)). unfold placed, mmio_ok in *. cbn in *.
  unfold MMIO32_START, MMIO32_SIZE, MMIO64_START, MMIO64_SIZE in *. lia.
Qed.

(** A window that was opened: outside the low megabyte and all RAM. *)
Definition opened (r : MemoryRegion) : Prop := region_new memory_map (Mmio.base r) (Mmio.length r) = Some r.

(** A window of the transport: not set, or opened. *)
Definition window_ok (r : MemoryRegion) : Prop := r = no_region ∨ opened r.

Definition windows_ok (t : VirtioPciTransport) : Prop :=
  window_ok (region t) ∧ window_ok (notify_region t) ∧ window_ok (device_config_region t) ∧
  window_ok (msix_table t) ∧ 0 <= msix_table_free t.

Definition on_bars (I : list PciBar → Mmio → Prop) (p : PciSt D) : Prop := I (bars (dev p)) (mmio p).

Definition vp_inv (s : VpSt) : Prop := on_bars bars_bounded (pci s) ∧ windows_ok (vp s).

(** The record of a capability type against the window kept for it. *)
Definition recorded_window (c : CheckRegionOverlap) (k : nat) (r : MemoryRegion) (min : Z) : Prop :=
  flag c !! k = Some true →
  interval c !! k = Some (Mmio.base r, Mmio.base r + Mmio.length r) ∧ opened r ∧ min <= Mmio.length r.

Record cap_inv (c : CheckRegionOverlap) (s : VpSt) : Prop := {
  ci_vp : vp_inv s;
  ci_flag : lenz (flag c) = 6;
  ci_interval : lenz (interval c) = 6;
  ci_ordered : Forall (λ z, z.1 <= z.2) (interval c);
  ci_common : recorded_window c 1 (region (vp s)) COMMON_CONFIGURATION_REGISTERS_OFFSET;
  ci_notify : recorded_window c 2 (notify_region (vp s)) 4;
  ci_device : recorded_window c 4 (device_config_region (vp s)) 0;
  ci_unset : flag c !! 4%nat = Some false → device_config_region (vp s) = no_region }.

Lemma opened_bounds r : opened r → MMIO_LOW_LIMIT <= Mmio.base r ∧ Mmio.base r + Mmio.length r < 2 ^ 64.
Proof. intros (_ & H1 & H2 & _)%region_new_spec. done. Qed.

(** ** Configuration accesses keep everything *)

Lemma on_pci_safe {X} (m : M (PciSt D) PciError X) e c (P : X → Prop) :
  (∀ fn I, safe (on fn I) m (λ v s, on fn I s ∧ P v) (on fn I)) →
  safe (cap_inv c) (on_pci_err e m) (λ v s, cap_inv c s ∧ P v) (cap_inv c).
Proof.
  intros Hm s Hs. unfold on_pci_err.
  specialize (Hm _ (λ l st, l = bars (dev (pci s)) ∧ st = mmio (pci s)) (pci s) (conj eq_refl (conj eq_refl eq_refl))).
  destruct (m (pci s)) as [[v|er|] p] eqn:E; [| |done].
  - destruct Hm as [(_ & H1 & H2) HP]. split; [|done]. destruct Hs as [[] ? ? ? ? ? ? ?]. split; try done. split; [|done].
    unfold on_bars. cbn. by rewrite H1, H2.
  - destruct Hm as (_ & H1 & H2). destruct Hs as [[] ? ? ? ? ? ? ?]. split; try done. split; [|done].
    unfold on_bars. cbn. by rewrite H1, H2.
Qed.

Lemma pci_read_bind {X} size o c (f : Z → VPM X) Q R :
  0 <= size → (∀ s, cap_inv c s → R s) →
  (∀ v, 0 <= v < 2 ^ (8 * size) → safe (cap_inv c) (f v) Q R) →
  safe (cap_inv c) (on_pci (cfg_read size o) ≫= f) Q R.
Proof.
  intros Hn HR Hf. eapply safe_bind.
  - eapply safe_err; [apply (on_pci_safe _ _ _ (λ v, 0 <= v < 2 ^ (8 * size))); intros fn I; by apply read_safe|done].
  - intros v s [Hs Hv]. by apply Hf.
Qed.

(** A sum that does not overflow. *)
Lemma add_bind {X} w P a b (f : Z → VPM X) Q R :
  a + b < 2 ^ w → safe P (f (a + b)) Q R → safe P (or_panic (add_u w a b) ≫= f) Q R.
Proof.
  intros Hab Hf s Hs. unfold add_u, checked_add. destruct (Z.ltb_spec (a + b) (2 ^ w)); [|lia].
  rewrite or_panic_bind. by apply Hf.
Qed.

(** ** One capability *)

Definition put_cap (c : CheckRegionOverlap) (k : nat) (b len : Z) : CheckRegionOverlap :=
  mkCheck (<[k := true]> (flag c)) (<[k := (b, b + len)]> (interval c)).

Lemma check_set_region_run c k b len (s : VpSt) :
  lenz (flag c) = 6 → lenz (interval c) = 6 → 0 <= k < 6 → b + len < 2 ^ 64 →
  check_set_region c k b len s = (Ok (put_cap c (Z.to_nat k) b len), s).
Proof.
  intros Hf Hi Hk Hlen. unfold check_set_region, VIRTIO_PCI_MAX_CAP_TYPE.
  destruct (Z.leb_spec 6 k); [lia|]. unfold add_u, checked_add. destruct (Z.ltb_spec (b + len) (2 ^ 64)); [|lia].
  rewrite or_panic_bind. unfold alterz.
  destruct (nthz_is_Some (flag c) k) as [x ->]; [lia|]. rewrite or_panic_bind.
  destruct (nthz_is_Some (interval c) k) as [y ->]; [lia|]. by rewrite or_panic_bind.
Qed.

Lemma window_bind {X} P b len (f : MemoryRegion → VPM X) Q (R : VpSt → Prop) :
  (∀ s, P s → R s) → (opened (mkRegion b len) → safe P (f (mkRegion b len)) Q R) →
  safe P (window memory_map b len ≫= f) Q R.
Proof.
  intros HR Hf s Hs. unfold window. rewrite ok_or_bind. destruct (region_new memory_map b len) as [r|] eqn:E; [|by apply HR].
  pose proof E as (-> & _)%region_new_spec. by apply Hf.
Qed.

Lemma record_start {X} c k b len (f : CheckRegionOverlap → VPM X) Q R :
  0 <= k < 6 → b + len < 2 ^ 64 → safe (cap_inv c) (f (put_cap c (Z.to_nat k) b len)) Q R →
  safe (cap_inv c) (check_set_region c k b len ≫= f) Q R.
Proof.
  intros Hk Hl Hf s Hs. rewrite M_bind_eq, check_set_region_run by (try apply Hs; lia). by apply Hf.
Qed.

(** A record of one type does not touch those of the others. *)
Lemma recorded_other c k j b len r m : k ≠ j → recorded_window c j r m → recorded_window (put_cap c k b len) j r m.
Proof. intros Hkj Hr. unfold recorded_window, put_cap. cbn. by rewrite !list_lookup_insert_ne by done. Qed.

Lemma recorded_new c k b len m :
  (k < 6)%nat → lenz (interval c) = 6 → opened (mkRegion b len) → m <= len →
  recorded_window (put_cap c k b len) k (mkRegion b len) m.
Proof.
  intros Hk Hi Ho Hm _. cbn. rewrite list_lookup_insert_eq by (unfold lenz in Hi; lia). done.
Qed.

Lemma put_cap_ordered c k b len : 0 <= len → Forall (λ z, z.1 <= z.2) (interval c) →
  Forall (λ z, z.1 <= z.2) (interval (put_cap c k b len)).
Proof. intros Hl Hf. cbn. apply Forall_insert; [done|]. cbn. lia. Qed.

Lemma vp_inv_set (s : VpSt) t : vp_inv s → windows_ok t → vp_inv (set_vp (λ _, t) s).
Proof. intros [Hb _] Ht. by split. Qed.

(** The three windows that are kept. *)
Lemma put_common c s b len : cap_inv c s → opened (mkRegion b len) → 0x38 <= len →
  cap_inv (put_cap c 1 b len) (set_vp (set_region (mkRegion b len)) s).
Proof.
  intros [[Hb (W1 & W2 & W3 & W4 & W5)] ? ? ? ? ? ? ?] Ho Hl. split; cbn; try (by rewrite lenz_insert).
  - split; [done|]. split; [by right|]. done.
  - apply put_cap_ordered; [lia|done].
  - apply recorded_new; [lia|done|done|done].
  - by apply recorded_other.
  - by apply recorded_other.
  - by rewrite list_lookup_insert_ne.
Qed.

Lemma put_notify c s b len : cap_inv c s → opened (mkRegion b len) → 4 <= len →
  cap_inv (put_cap c 2 b len) (set_vp (set_notify_region (mkRegion b len)) s).
Proof.
  intros [[Hb (W1 & W2 & W3 & W4 & W5)] ? ? ? ? ? ? ?] Ho Hl. split; cbn; try (by rewrite lenz_insert).
  - split; [done|]. split; [done|]. split; [by right|]. done.
  - apply put_cap_ordered; [lia|done].
  - by apply recorded_other.
  - apply recorded_new; [lia|done|done|done].
  - by apply recorded_other.
  - by rewrite list_lookup_insert_ne.
Qed.

Lemma put_device c s b len : cap_inv c s → opened (mkRegion b len) → 0 <= len →
  cap_inv (put_cap c 4 b len) (set_vp (set_device_region (mkRegion b len)) s).
Proof.
  intros [[Hb (W1 & W2 & W3 & W4 & W5)] Hfl Hiv ? ? ? ? ?] Ho Hl. split; cbn; try (by rewrite lenz_insert).
  - split; [done|]. split; [done|]. split; [done|]. split; [by right|]. done.
  - apply put_cap_ordered; [lia|done].
  - by apply recorded_other.
  - by apply recorded_other.
  - apply recorded_new; [lia|done|done|done].
  - rewrite list_lookup_insert_eq by (unfold lenz in Hfl; lia). done.
Qed.

(** The capabilities that are only recorded. *)
Lemma put_unused c s k b len : cap_inv c s → k = 3%nat ∨ k = 5%nat → 0 <= len → cap_inv (put_cap c k b len) s.
Proof.
  intros [] Hk Hl. split; cbn; try done; try (by rewrite lenz_insert).
  - by apply put_cap_ordered.
  - apply recorded_other; [lia|done].
  - apply recorded_other; [lia|done].
  - apply recorded_other; [lia|done].
  - by rewrite list_lookup_insert_ne by lia.
Qed.

Lemma cap_vp c s : cap_inv c s → vp_inv s.
Proof. apply ci_vp. Qed.
Hint Resolve cap_vp : core.

Lemma err_if_step {X} P (b : bool) e (f : unit → VPM X) Q (R : VpSt → Prop) :
  (∀ s, P s → R s) → (b = false → safe P (f tt) Q R) → safe P (err_if b e ≫= f) Q R.
Proof. intros HR Hf s Hs. rewrite err_if_bind. destruct b; [by apply HR|by apply Hf]. Qed.

(** The BAR a capability refers to. *)
Lemma bar_bind {X} c k (f : PciBar → VPM X) Q R :
  0 <= k < 6 → (∀ b, 0 <= bar_address b < 2 ^ 33 → safe (cap_inv c) (f b) Q R) →
  safe (cap_inv c) (s ← getS; b ← or_panic (nthz (bars (dev (pci s))) k); f b) Q R.
Proof.
  intros Hk Hf. apply safe_get. intros s Hs s' ->. destruct (ci_vp _ _ Hs) as [(Hl & _ & Hb) _].
  destruct (nthz_is_Some (bars (dev (pci s))) k) as [b Eb]; [lia|]. rewrite Eb, or_panic_bind. apply Hf; [|done].
  unfold nthz in Eb. destruct (0 <=? k); [|done]. rewrite Forall_lookup in Hb. by eapply Hb.
Qed.

Lemma virtio_cap_safe id cap c : 0 < cap <= 0xf0 →
  safe (cap_inv c) (virtio_cap memory_map id cap c) cap_inv vp_inv.
Proof.
  intros Hcap. unfold virtio_cap, read_u8, read_u32, VIRTIO_CFG_TYPE_OFFSET, VIRTIO_BAR_OFFSET, VIRTIO_CAP_OFFSET,
    VIRTIO_CAP_LENGTH_OFFSET.
  apply err_if_step; [by eauto|intros _]. apply add_bind; [lia|]. apply pci_read_bind; [done|by eauto|intros ty Hty].
  apply add_bind; [lia|]. apply pci_read_bind; [done|by eauto|intros bar Hbar]. apply add_bind; [lia|].
  apply pci_read_bind; [done|by eauto|intros off Hoff]. apply add_bind; [lia|].
  apply pci_read_bind; [done|by eauto|intros len Hlen]. change (2 ^ (8 * 4)) with (2 ^ 32) in *.
  apply err_if_step; [by eauto|]. unfold MAX_BARS_INDEX. intros Hb%Z.ltb_ge.
  apply bar_bind; [lia|intros b Hab]. apply err_if_step; [by eauto|intros _].
  destruct (Z.eqb_spec ty CommonConfig) as [->|]; [|destruct (Z.eqb_spec ty NotifyConfig) as [->|];
    [|destruct (Z.eqb_spec ty DeviceConfig) as [->|]; [|destruct (_ || _) eqn:E]]].
  - apply err_if_step; [by eauto|intros [_ Hl%Z.ltb_ge]%orb_false_iff]. apply add_bind; [lia|].
    apply record_start; [done|lia|]. apply window_bind; [by eauto|intros Ho].
    eapply safe_bind; [apply (safe_modifyS _ _ (λ _, cap_inv (put_cap c 1 (bar_address b + off) len)))|intros ?; by apply safe_ret].
    intros s Hs. by apply put_common.
  - apply err_if_step; [by eauto|intros Hn%Z.eqb_neq]. change (u_max 8 - CAP_LEN + 1) with 0xf0 in Hn.
    apply err_if_step; [by eauto|intros [_ Hl%Z.ltb_ge]%orb_false_iff]. apply add_bind; [lia|].
    apply record_start; [done|lia|]. apply window_bind; [by eauto|intros Ho].
    eapply safe_bind; [apply (safe_modifyS _ _ (λ _, cap_inv (put_cap c 2 (bar_address b + off) len)))|intros []].
    { intros s Hs. by apply put_notify. }
    apply add_bind; [unfold CAP_LEN; lia|]. apply pci_read_bind; [done|by eauto|intros m _].
    eapply safe_bind; [apply (safe_modifyS _ _ (λ _, cap_inv (put_cap c 2 (bar_address b + off) len)))|intros ?; by apply safe_ret].
    intros s []. by split.
  - apply err_if_step; [by eauto|intros _]. apply err_if_step; [by eauto|intros _]. apply add_bind; [lia|].
    apply record_start; [done|lia|]. apply window_bind; [by eauto|intros Ho].
    eapply safe_bind; [apply (safe_modifyS _ _ (λ _, cap_inv (put_cap c 4 (bar_address b + off) len)))|intros ?; by apply safe_ret].
    intros s Hs. apply put_device; [done|done|lia].
  - apply add_bind; [lia|]. intros s Hs.
    assert (ty = 5 ∨ ty = 3) as Hk by (apply orb_true_iff in E as [?%Z.eqb_eq|?%Z.eqb_eq]; [by left|by right]).
    rewrite check_set_region_run by (try apply Hs; lia). apply put_unused; [done| |lia]. destruct Hk as [-> | ->]; auto.
  - by apply safe_ret.
Qed.

Lemma msix_cap_safe cap c : 0 < cap <= 0xf0 → safe (cap_inv c) (msix_cap memory_map cap) (λ _, cap_inv c) vp_inv.
Proof.
  intros Hcap. unfold msix_cap, read_u16, read_u32, write_u16, MSIX_MESSAGE_CONTROL_OFFSET, MSIX_BIR_OFFSET.
  apply add_bind; [lia|]. apply pci_read_bind; [done|by eauto|intros mcr Hmcr]. apply add_bind; [lia|].
  apply pci_read_bind; [done|by eauto|intros w Hw].
  assert (0 <= Z.land w 7 < 8) as Hbir by (apply (land_mask_range w 3); lia).
  apply safe_get. intros s0 Hs0. apply safe_pre with (cap_inv c); [|by intros ? ->].
  destruct (ci_vp _ _ Hs0) as [(Hl0 & _) _]. rewrite Hl0.
  apply err_if_step; [by eauto|intros Hb%Z.leb_gt]. apply pci_read_bind; [done|by eauto|intros w' Hw'].
  apply err_if_step; [by eauto|intros _].
  assert (0 <= Z.land mcr 0x7ff < 2 ^ 11) as Hsz by (apply (land_mask_range mcr 11); lia).
  apply add_bind; [lia|].
  eapply safe_bind; [apply (safe_modifyS _ _ (λ _, cap_inv c))|intros []].
  { intros s [[Hb' (W1 & W2 & W3 & W4 & W5)] ? ? ? ? ? ? ?]. split; try done. split; [done|].
    do 4 (split; [done|]). cbn. lia. }
  apply bar_bind; [lia|intros b Hab].
  assert (0 <= Z.land w' 0xfffffff8 < 2 ^ 32) as Hoff.
  { change 0xfffffff8 with (not_u 32 7). change (2 ^ (8 * 4)) with (2 ^ 32) in Hw'.
    pose proof (land_not_u_bounds 32 w' 7 ltac:(lia) Hw' ltac:(lia)). split; [apply Z.land_nonneg; lia|lia]. }
  apply add_bind; [lia|]. apply window_bind; [by eauto|intros Ho].
  eapply safe_bind; [apply (safe_modifyS _ _ (λ _, cap_inv c))|intros []].
  { intros s [[Hb' (W1 & W2 & W3 & W4 & W5)] ? ? ? ? ? ? ?]. split; try done. split; [done|].
    do 3 (split; [done|]). split; [by right|done]. }
  eapply safe_weaken; [apply (on_pci_safe (cfg_write 2 _ _) PciErr c (λ _, True))|done|by intros ?? [? _]|by eauto].
  intros fn I. eapply safe_weaken; [apply (write_safe fn I)|done|done|done].
Qed.

(** ** The walk *)

Lemma cap_loop_safe id fuel : ∀ cap k cycle c,
  Z.of_nat fuel = 16 - k → 0 <= k < 16 → lenz cycle = 16 → 0 <= cap < 2 ^ 8 →
  safe (cap_inv c) (cap_loop memory_map fuel id cap k cycle c) cap_inv vp_inv.
Proof.
  induction fuel as [|fuel IH]; intros cap k cycle c Hf Hk Hc Hcap; [lia|]. cbn [cap_loop].
  change (u_max 8 - CAP_LEN + 1) with 0xf0.
  destruct (Z.leb_spec cap 0xf0); cbn [andb]; [|by apply safe_ret]. destruct (Z.ltb_spec 0 cap); [|by apply safe_ret].
  apply err_if_step; [by eauto|intros _].
  intros s Hs. unfold alterz. destruct (nthz_is_Some cycle k) as [x ->]; [lia|]. rewrite or_panic_bind. revert s Hs.
  unfold read_u8. apply pci_read_bind; [done|by eauto|intros ty _].
  eapply safe_bind with cap_inv.
  { destruct (_ =? _); [by apply virtio_cap_safe|]. destruct (_ =? _); [|by apply safe_ret].
    eapply safe_bind; [by apply msix_cap_safe|intros ?; by apply safe_ret]. }
  intros c'. apply err_if_step; [by eauto|]. unfold CYCLE_LEN. intros Hlt%Z.leb_gt. apply add_bind; [lia|].
  apply pci_read_bind; [done|by eauto|intros cap' Hcap']. apply IH; [lia|lia|by rewrite lenz_insert|done].
Qed.

(** A transport before its device is initialized ([VirtioPciTransport::new]). *)
Definition vp_start (s : VpSt) : Prop :=
  vp s = transport_default ∧ mmio_ok (mmio (pci s)) ∧ bars (dev (pci s)) = replicate 6 PciBar_default.

(** What the accepted capabilities guarantee. *)
Definition regions_apart (t : VirtioPciTransport) : Prop :=
  let apart r r' := disjoint_regions (Mmio.base r, Mmio.length r) (Mmio.base r', Mmio.length r') in
  opened (region t) ∧ COMMON_CONFIGURATION_REGISTERS_OFFSET <= Mmio.length (region t) ∧
  opened (notify_region t) ∧ 4 <= Mmio.length (notify_region t) ∧
  apart (region t) (notify_region t) ∧
  (device_config_region t = no_region ∨
   opened (device_config_region t) ∧ apart (region t) (device_config_region t) ∧
   apart (notify_region t) (device_config_region t)).

Lemma cap_inv_start s : on_bars bars_bounded (pci s) → vp s = transport_default → cap_inv check_default s.
Proof.
  intros Hb Ht. split; try done; rewrite ?Ht; try done.
  - split; [done|]. rewrite Ht. repeat (split; [by left|]). done.
  - repeat constructor; done.
Qed.

(** Two recorded windows are apart. *)
Lemma windows_apart_of c k j r r' m m' :
  check_regions c = true → Forall (λ z, z.1 <= z.2) (interval c) → k ≠ j →
  flag c !! k = Some true → flag c !! j = Some true →
  recorded_window c k r m → recorded_window c j r' m' →
  disjoint_regions (Mmio.base r, Mmio.length r) (Mmio.base r', Mmio.length r').
Proof.
  intros Hc Ho Hkj Fk Fj Rk Rj. destruct (Rk Fk) as (Ik & Ok1 & _). destruct (Rj Fj) as (Ij & Ok2 & _).
  apply opened_bounds in Ok1 as [L1 _]. apply opened_bounds in Ok2 as [L2 _]. unfold MMIO_LOW_LIMIT in *.
  pose proof (check_regions_apart c Hc Ho k j _ _ Ik Ij Hkj) as Hd. unfold disjoint_intervals, disjoint_regions in *.
  cbn in *. lia.
Qed.

Lemma check_regions_flags c : check_regions c = true → flag c !! 1%nat = Some true ∧ flag c !! 2%nat = Some true.
Proof.
  unfold check_regions. rewrite !andb_true_iff, !bool_decide_eq_true. intros [[[[H1 H2] _] _] _]. done.
Qed.

Lemma cap_inv_regions c s : cap_inv c s → check_regions c = true → regions_apart (vp s).
Proof.
  intros [Hvp Hfl Hiv Hord Hc Hn Hd Hu] Hck. destruct (check_regions_flags c Hck) as [F1 F2].
  destruct (Hc F1) as (_ & O1 & L1). destruct (Hn F2) as (_ & O2 & L2).
  split; [done|]. split; [done|]. split; [done|]. split; [done|].
  split; [by eapply (windows_apart_of c 1 2)|].
  destruct (flag c !! 4%nat) as [[]|] eqn:F4.
  - right. destruct (Hd F4) as (_ & O4 & _). split; [done|].
    split; [by eapply (windows_apart_of c 1 4)|by eapply (windows_apart_of c 2 4)].
  - left. by apply Hu.
  - apply lookup_ge_None in F4. unfold lenz in Hfl. lia.
Qed.

Lemma virtio_pci_init_safe n :
  safe vp_start (virtio_pci_init memory_map n) (λ _ s, vp_inv s ∧ regions_apart (vp s)) vp_inv.
Proof.
  unfold virtio_pci_init. apply safe_bind with (λ _ s, on_bars bars_bounded (pci s) ∧ vp s = transport_default).
  { intros s (Ht & Hm & Hb). unfold on_pci_err. pose proof (pci_init_bars (pci s) Hm Hb) as Hp.
    destruct (pci_init (pci s)) as [[[]|e|] p]; [| |done]; destruct Hp as [sz Hp]; apply bars_inv_bounded in Hp; try done.
    split; [done|]. rewrite Ht. repeat (split; [by left|]). done. }
  intros []. apply safe_pre with (cap_inv check_default); [|intros s [Hb Ht]; by apply cap_inv_start].
  unfold read_u16, read_u8. apply pci_read_bind; [done|by eauto|intros st _]. apply pci_read_bind; [done|by eauto|intros id _].
  apply err_if_step; [by eauto|intros _]. apply pci_read_bind; [done|by eauto|intros cap Hcap].
  eapply safe_bind; [by apply cap_loop_safe|]. intros c s Hs. destruct (check_regions c) eqn:Hck; [|exact (ci_vp _ _ Hs)].
  split; [by eauto|]. by eapply cap_inv_regions.
Qed.

(** Initialization of a virtio device over PCI terminates without
    abort whatever the host puts into configuration space, and when it succeeds
    the common, notification and device windows it keeps lie above the low
    megabyte, apart from all RAM and from each other, and the common window
    covers all the registers of the specification. *)
Theorem virtio_pci_regions_safe n s :
  vp_start s →
  match virtio_pci_init memory_map n s with
  | (Ok _, s') => regions_apart (vp s')
  | (Err _, s') => windows_ok (vp s')
  | (Panic, _) => False
  end.
Proof.
  intros Hs. pose proof (virtio_pci_init_safe n s Hs) as H1.
  destruct (virtio_pci_init memory_map n s) as [[u|e|] s']; [apply H1|apply H1|done].
Qed.

(** ** Registers *)

(** An access through a window does not abort and changes only the device. *)
Lemma on_region_safe {X} (m : M D MemoryRegionError X) :
  (∀ h, (m h).1 ≠ Panic) → safe vp_inv (on_region m) (λ _, vp_inv) vp_inv.
Proof.
  intros Hm s [Hb Hw]. unfold on_region. specialize (Hm (host (pci s))). by destruct (m (host (pci s))) as [[] h].
Qed.

Lemma mmio_read_safe r n o (h : D) : (mmio_read r n o h).1 ≠ Panic.
Proof. unfold mmio_read. destruct (mmio_refused _ _ _); [done|]. by destruct (mmio_load _ _ _). Qed.

Lemma mmio_write_safe r n o v (h : D) : (mmio_write r n o v h).1 ≠ Panic.
Proof. unfold mmio_write. by destruct (mmio_refused _ _ _). Qed.

Lemma reg_read r n o : safe vp_inv (on_region (mmio_read r n o)) (λ _, vp_inv) vp_inv.
Proof. apply on_region_safe. intros h. apply mmio_read_safe. Qed.

Lemma reg_write r n o v : safe vp_inv (on_region (mmio_write r n o v)) (λ _, vp_inv) vp_inv.
Proof. apply on_region_safe. intros h. apply mmio_write_safe. Qed.

Lemma region_step {X} (f : MemoryRegion → VPM X) :
  (∀ r, safe vp_inv (f r) (λ _, vp_inv) vp_inv) → safe vp_inv (vp_region ≫= f) (λ _, vp_inv) vp_inv.
Proof. intros Hf s Hs. unfold vp_region. rewrite M_bind_eq, getS_bind. by apply Hf. Qed.

(** ** The transport the drivers assume *)

Lemma state_step {X} (f : VpSt → VPM X) :
  (∀ s, vp_inv s → safe vp_inv (f s) (λ _, vp_inv) vp_inv) → safe vp_inv (getS ≫= f) (λ _, vp_inv) vp_inv.
Proof. intros Hf s Hs. rewrite getS_bind. by apply Hf. Qed.

Lemma then_step {X Y} (m : VPM X) (f : X → VPM Y) :
  safe vp_inv m (λ _, vp_inv) vp_inv → (∀ x, safe vp_inv (f x) (λ _, vp_inv) vp_inv) →
  safe vp_inv (m ≫= f) (λ _, vp_inv) vp_inv.
Proof. intros Hm Hf. by eapply safe_bind. Qed.

Lemma notify_register_safe o i : safe vp_inv (notify_register o i) (λ _, vp_inv) vp_inv.
Proof.
  apply region_step. intros r. apply then_step; [apply reg_write|intros _].
  apply then_step; [apply reg_read|intros v s Hs]. unfold err_if. by destruct (negb _).
Qed.

Lemma set_msix_entry_safe v : safe vp_inv (set_msix_entry v) (λ _, vp_inv) vp_inv.
Proof.
  apply state_step. intros s0 [_ (_ & _ & _ & _ & H0)]. apply err_if_step; [done|intros Hn%Z.eqb_neq].
  do 3 (apply then_step; [apply reg_write|intros _]). apply then_step; [|intros _; by apply safe_ret].
  apply safe_modifyS. intros s [Hb (W1 & W2 & W3 & W4 & W5)]. split; [done|]. do 4 (split; [done|]). cbn. lia.
Qed.

Lemma notify_queue_safe q : safe vp_inv (vp_notify_queue q) (λ _, vp_inv) vp_inv.
Proof. apply state_step. intros s0 _. apply then_step; [apply reg_read|intros off]. apply reg_write. Qed.

(** The drivers over [VirtioTransport] may take this one: their safety theorems
    assume no more of a transport. *)
#[global] Instance virtio_pci_safe : @TransportSafe VpSt (virtio_pci_transport memory_map).
Proof.
  refine (@Build_TransportSafe _ _ vp_start vp_inv _ _ _).
  - intros n. eapply safe_weaken; [apply virtio_pci_init_safe|done|by intros ? ? [? _]|done].
  - intros m [->|(x & Hm)]; [apply region_step; intros r; apply reg_write|].
    repeat (apply elem_of_cons in Hm as [->|Hm]);
      [..|by apply elem_of_nil in Hm]; cbn;
      first [apply notify_register_safe|apply notify_queue_safe|apply region_step; intros r; apply reg_write
        |apply then_step; [apply region_step; intros r; apply reg_read|intros st; apply region_step; intros r; apply reg_write]].
  - intros m [->|[->|(x & Hm)]]; [apply region_step; intros r; apply reg_read..|].
    repeat (apply elem_of_cons in Hm as [->|Hm]); [..|by apply elem_of_nil in Hm]; cbn; [apply set_msix_entry_safe|].
    apply state_step. intros s0 _. apply reg_read.
Defined.

End init.

(** ** Witness *)

Module Demo.

(** A vsock device in slot 3, read-only: 4 KiB memory BARs and the five
    capabilities. *)
Definition config_dwords : list (Z * Z) :=
  [(0x00, 0x10531af4); (0x04, 0x00100000); (0x34, 0x40);
   (0x40, 0x01105009); (0x44, 0); (0x48, 0x00); (0x4c, 0x38);
   (0x50, 0x02146409); (0x54, 0); (0x58, 0x40); (0x5c, 4); (0x60, 0);
   (0x64, 0x03107409); (0x68, 0); (0x6c, 0x50); (0x70, 4);
   (0x74, 0x04108409); (0x78, 0); (0x7c, 0x60); (0x80, 8);
   (0x84, 0x05100009); (0x88, 0); (0x8c, 0x70); (0x90, 4)].

Definition config_dword (o : Z) : Z :=
  match filter (λ p, p.1 = o) config_dwords with p :: _ => p.2 | [] => 0xfffff000 end.

#[local] Instance vsock_slot : MmioDevice unit := {
  mmio_load := λ n addr d,
    let o := addr - 0xE0018000 in (Z.shiftr (config_dword (o - o mod 4)) (8 * (o mod 4)) mod 2 ^ (8 * n), d);
  mmio_store := λ _ _ _ d, d }.

Definition private_ram : list RamRegion := [mkRam 0 0x80000000].

Definition plugged_in : VpSt unit :=
  mkVp transport_default (mkPci (pci_new 0 3 0) tt (mkMmio MMIO32_START MMIO64_START)).

Definition brought_up : VpSt unit := Eval vm_compute in (virtio_pci_init private_ram 19 plugged_in).2.

Lemma bring_up_run : virtio_pci_init private_ram 19 plugged_in = (Ok tt, brought_up).
Proof. vm_compute. reflexivity. Qed.

Lemma virtio_pci_regions_safe_witness :
  regions_apart private_ram (vp brought_up) ∧ device_config_region (vp brought_up) = mkRegion 0xC0000060 8.
Proof.
  split; [|reflexivity].
  assert (vp_start plugged_in) as Hs by (split; [done|]; split; [vm_compute; repeat split; discriminate|reflexivity]).
  pose proof (virtio_pci_regions_safe private_ram 19 plugged_in Hs) as H. rewrite bring_up_run in H. exact H.
Defined.

End Demo.
