(* ===== verification/Vsock.v ===== *)
(** * Vsock

    Addresses, errors and the packet header of the vsock driver:
    src/devices/vsock/src/lib.rs, transport/mod.rs and protocol.rs. *)
From stdpp Require Import base tactics numbers list list_numbers option gmap countable.
From S2P Require Import Prelude VirtQueue.
Local Open Scope Z_scope.

(** ** Errors *)

Module VsockTransportError.
Inductive t :=
  | Virtio (e : VirtioError)
  | Vmcall (status : Z)
  | CreateVirtQueue | Initilization | DmaAllocation | Timeout
  | InvalidParameter | InvalidVsockPacket | Interrupt | NotReady.
End VsockTransportError.

Module VsockError.
Inductive t :=
  | Initialization | DeviceNotAvailable | NoAvailablePort | AddressAlreadyUsed
  | Transport (e : VsockTransportError.t)
  | Truncated | Malformed | Illegal | REFUSED | NotReady.

(** [impl From<VsockTransportError> for VsockError] *)
Definition from_transport (e : VsockTransportError.t) : t :=
  match e with
  | VsockTransportError.NotReady => NotReady
  | _ => Transport e
  end.
End VsockError.

(** ** Addresses *)

Definition VSOCK_BUF_ALLOC : Z := 0x40000.

Record VsockAddr := mkAddr { addr_cid : Z; addr_port : Z }.

#[global] Instance VsockAddr_eq_dec : EqDecision VsockAddr.
Proof. solve_decision. Defined.
#[global] Instance VsockAddr_countable : Countable VsockAddr.
Proof.
  refine (inj_countable' (λ a, (addr_cid a, addr_port a)) (λ p, mkAddr p.1 p.2) _). by intros [].
Defined.

Definition VsockAddr_default : VsockAddr := mkAddr 0 0.
Definition VsockAddr_new (cid port : Z) : VsockAddr := mkAddr cid port.
(** [cid()] truncates to 32 bits. *)
Definition cid (a : VsockAddr) : Z := as_u 32 (addr_cid a).
Definition port (a : VsockAddr) : Z := addr_port a.
Definition set_port (p : Z) (a : VsockAddr) : VsockAddr := mkAddr (addr_cid a) p.

Record VsockAddrPair := mkPair { local : VsockAddr; remote : VsockAddr }.

#[global] Instance VsockAddrPair_eq_dec : EqDecision VsockAddrPair.
Proof. solve_decision. Defined.
#[global] Instance VsockAddrPair_countable : Countable VsockAddrPair.
Proof.
  refine (inj_countable' (λ a, (local a, remote a)) (λ p, mkPair p.1 p.2) _). by intros [].
Defined.

(** [align_up] of the vsock crate: rounds to the next page boundary. *)
Definition vsock_align_up (size : Z) : Z :=
  Z.land size (not_u 64 (PAGE_SIZE - 1)) + (if size mod PAGE_SIZE =? 0 then 0 else PAGE_SIZE).

(** ** Packet header *)

(** A field of the header is a byte range. *)
Definition SRC_CID : Z * Z := (0, 8).
Definition DST_CID : Z * Z := (8, 16).
Definition SRC_PORT : Z * Z := (16, 20).
Definition DST_PORT : Z * Z := (20, 24).
Definition LEN : Z * Z := (24, 28).
Definition TYPE : Z * Z := (28, 30).
Definition OP : Z * Z := (30, 32).
Definition FLAGS : Z * Z := (32, 36).
Definition BUF_ALLOC : Z * Z := (36, 40).
Definition FWD_CNT : Z * Z := (40, 44).
Definition HEADER_LEN : Z := 44.

Definition TYPE_STREAM : Z := 1.
Definition FLAG_SHUTDOWN_READ : Z := 1.
Definition FLAG_SHUTDOWN_WRITE : Z := 2.
Definition OP_REQUEST : Z := 1.
Definition OP_RESPONSE : Z := 2.
Definition OP_RST : Z := 3.
Definition OP_SHUTDOWN : Z := 4.
Definition OP_RW : Z := 5.
Definition OP_CREDIT_UPDATE : Z := 6.
Definition OP_CREDIT_REQUEST : Z := 7.

(** [LittleEndian::read_uN(&buf[field])]: [None] aborts (buffer too short). *)
Definition read_field (f : Z * Z) (buf : bytes) : option Z := le_val <$> slice buf f.1 f.2.

(** [LittleEndian::write_uN(&mut buf[field], v)] *)
Definition write_field (f : Z * Z) (v : Z) (buf : bytes) : option bytes :=
  write_at buf f.1 (le_bytes (Z.to_nat (f.2 - f.1)) v).

Definition src_cid := read_field SRC_CID.
Definition dst_cid := read_field DST_CID.
Definition src_port := read_field SRC_PORT.
Definition dst_port := read_field DST_PORT.
Definition data_len := read_field LEN.
Definition type_ := read_field TYPE.
Definition op := read_field OP.
Definition flags := read_field FLAGS.
Definition buf_alloc := read_field BUF_ALLOC.
Definition fwd_cnt := read_field FWD_CNT.

Definition set_src_cid := write_field SRC_CID.
Definition set_dst_cid := write_field DST_CID.
Definition set_src_port := write_field SRC_PORT.
Definition set_dst_port := write_field DST_PORT.
Definition set_data_len := write_field LEN.
Definition set_type := write_field TYPE.
Definition set_op := write_field OP.
Definition set_flags := write_field FLAGS.
Definition set_buf_alloc := write_field BUF_ALLOC.
Definition set_fwd_cnt := write_field FWD_CNT.

Definition panic_or {E A} (o : option A) : outcome E A :=
  match o with Some a => Ok a | None => Panic end.

Definition packet_check (buf : bytes) : outcome VsockError.t unit :=
  if lenz buf <? HEADER_LEN then Err VsockError.Truncated
  else
    t ← panic_or (type_ buf);
    if negb (t =? TYPE_STREAM) then Err VsockError.Malformed
    else
      o ← panic_or (op buf);
      if (o =? 0) || (7 <? o) then Err VsockError.Malformed
      else
        n ← panic_or (data_len buf);
        if lenz buf <? HEADER_LEN + n then Err VsockError.Truncated else Ok tt.

(** [Packet::new_checked]: the packet is the buffer. *)
Definition new_checked (buf : bytes) : outcome VsockError.t bytes :=
  _ ← packet_check buf; Ok buf.

(** [payload()]: [&buf[44..]] *)
Definition payload (buf : bytes) : option bytes := slice buf HEADER_LEN (lenz buf).

(** The header every operation of a stream builds: a zeroed buffer on which the
    setters are called in this order. *)
Record Header := mkHeader {
  h_src_cid : Z; h_dst_cid : Z; h_src_port : Z; h_dst_port : Z; h_op : Z;
  h_data_len : Z; h_flags : Z; h_fwd_cnt : Z; h_buf_alloc : Z }.

Definition build_header (h : Header) : option bytes :=
  b ← set_src_cid (h_src_cid h) (zeros HEADER_LEN);
  b ← set_dst_cid (h_dst_cid h) b;
  b ← set_src_port (h_src_port h) b;
  b ← set_dst_port (h_dst_port h) b;
  b ← set_type TYPE_STREAM b;
  b ← set_op (h_op h) b;
  b ← set_data_len (h_data_len h) b;
  b ← set_flags (h_flags h) b;
  b ← set_fwd_cnt (h_fwd_cnt h) b;
  set_buf_alloc (h_buf_alloc h) b.

(** The wire format the header stands for. *)
Definition wire_header (h : Header) : bytes :=
  le_bytes 8 (h_src_cid h) ++ le_bytes 8 (h_dst_cid h) ++ le_bytes 4 (h_src_port h) ++
  le_bytes 4 (h_dst_port h) ++ le_bytes 4 (h_data_len h) ++ le_bytes 2 TYPE_STREAM ++
  le_bytes 2 (h_op h) ++ le_bytes 4 (h_flags h) ++ le_bytes 4 (h_buf_alloc h) ++
  le_bytes 4 (h_fwd_cnt h).

(** Field values within their widths. *)
Definition header_ok (h : Header) : Prop :=
  in_u 64 (h_src_cid h) ∧ in_u 64 (h_dst_cid h) ∧ in_u 32 (h_src_port h) ∧ in_u 32 (h_dst_port h) ∧
  in_u 16 (h_op h) ∧ in_u 32 (h_data_len h) ∧ in_u 32 (h_flags h) ∧ in_u 32 (h_fwd_cnt h) ∧
  in_u 32 (h_buf_alloc h).

(** ** Lemmas *)

Definition wire_segs (h : Header) : list bytes :=
  [le_bytes 8 (h_src_cid h); le_bytes 8 (h_dst_cid h); le_bytes 4 (h_src_port h);
   le_bytes 4 (h_dst_port h); le_bytes 4 (h_data_len h); le_bytes 2 TYPE_STREAM;
   le_bytes 2 (h_op h); le_bytes 4 (h_flags h); le_bytes 4 (h_buf_alloc h); le_bytes 4 (h_fwd_cnt h)].

Lemma wire_header_segs h : wire_header h = concat (wire_segs h).
Proof. unfold wire_header, wire_segs. cbn [concat]. by rewrite app_nil_r. Qed.

Lemma length_wire_header h : length (wire_header h) = 44%nat.
Proof. unfold wire_header. by rewrite !length_app, !length_le_bytes. Qed.

Ltac write_next i :=
  unfold write_field; cbn [fst snd];
  match goal with
  | |- context [write_at (concat ?segs) ?a ?d] => rewrite (write_seg segs i _ d a eq_refl) by seg_len
  end; cbn [mbind option_bind list_insert insert].

Lemma build_header_wire h : build_header h = Some (wire_header h).
Proof.
  unfold build_header. rewrite wire_header_segs.
  change (zeros HEADER_LEN) with
    (concat [zeros 8; zeros 8; zeros 4; zeros 4; zeros 4; zeros 2; zeros 2; zeros 4; zeros 4; zeros 4]).
  unfold set_src_cid, set_dst_cid, set_src_port, set_dst_port, set_type, set_op, set_data_len,
    set_flags, set_fwd_cnt, set_buf_alloc, SRC_CID, DST_CID, SRC_PORT, DST_PORT, TYPE, OP, LEN,
    FLAGS, FWD_CNT, BUF_ALLOC, zeros.
  write_next 0%nat. write_next 1%nat. write_next 2%nat. write_next 3%nat. write_next 5%nat.
  write_next 6%nat. write_next 4%nat. write_next 7%nat. write_next 9%nat. write_next 8%nat.
  done.
Qed.

(** Reading a field of a header followed by anything. *)
Lemma read_field_seg h rest i seg f :
  wire_segs h !! i = Some seg → f.1 = lenz (concat (take i (wire_segs h))) → f.2 = f.1 + lenz seg →
  read_field f (wire_header h ++ rest) = Some (le_val seg).
Proof.
  intros Hi Ha Hb. unfold read_field. rewrite wire_header_segs.
  replace (concat (wire_segs h) ++ rest) with (concat (wire_segs h ++ [rest]))
    by (rewrite concat_app; cbn [concat]; by rewrite app_nil_r).
  rewrite (slice_seg _ i seg); [done| | |done].
  - rewrite lookup_app_l; [done|]. by eapply lookup_lt_Some.
  - rewrite take_app_le; [done|]. apply Nat.lt_le_incl. by eapply lookup_lt_Some.
Qed.

Ltac read_wire i :=
  match goal with
  | |- context [_ (wire_header ?h ++ ?rest) = Some _] =>
      etransitivity; [apply (read_field_seg h rest i _ _ eq_refl);
        unfold wire_segs, SRC_CID, DST_CID, SRC_PORT, DST_PORT, LEN, TYPE, OP, FLAGS, BUF_ALLOC, FWD_CNT;
        seg_len|]
  end; rewrite le_val_bytes, Z.mod_small by done; done.

(** Every getter reads back the value its setter stored. *)
Lemma header_fields h rest : header_ok h →
  let b := wire_header h ++ rest in
  src_cid b = Some (h_src_cid h) ∧ dst_cid b = Some (h_dst_cid h) ∧
  src_port b = Some (h_src_port h) ∧ dst_port b = Some (h_dst_port h) ∧
  data_len b = Some (h_data_len h) ∧ type_ b = Some TYPE_STREAM ∧ op b = Some (h_op h) ∧
  flags b = Some (h_flags h) ∧ buf_alloc b = Some (h_buf_alloc h) ∧ fwd_cnt b = Some (h_fwd_cnt h).
Proof.
  intros (H1 & H2 & H3 & H4 & H5 & H6 & H7 & H8 & H9). cbv zeta.
  split; [read_wire 0%nat|]. split; [read_wire 1%nat|]. split; [read_wire 2%nat|].
  split; [read_wire 3%nat|]. split; [read_wire 4%nat|]. split; [read_wire 5%nat|].
  split; [read_wire 6%nat|]. split; [read_wire 7%nat|]. split; [read_wire 8%nat|]. read_wire 9%nat.
Qed.


Lemma read_field_is_Some f buf : 0 <= f.1 <= f.2 → f.2 <= lenz buf → ∃ v, read_field f buf = Some v.
Proof.
  intros H1 H2. unfold read_field. destruct (slice_is_Some buf f.1 f.2 H1 H2) as [x ->]. by eexists.
Qed.

(** A buffer that passes the check, and only such a buffer, has a full header
    with a known operation and holds all the data it announces. *)
Lemma packet_check_spec buf :
  match packet_check buf with
  | Ok _ => HEADER_LEN <= lenz buf ∧ type_ buf = Some TYPE_STREAM ∧
      ∃ o n, op buf = Some o ∧ o ≠ 0 ∧ o <= 7 ∧ data_len buf = Some n ∧ HEADER_LEN + n <= lenz buf
  | Err e =>
      e = VsockError.Truncated ∧ lenz buf < HEADER_LEN ∨
      e = VsockError.Malformed ∧ type_ buf ≠ Some TYPE_STREAM ∨
      e = VsockError.Malformed ∧ (∃ o, op buf = Some o ∧ (o = 0 ∨ 7 < o)) ∨
      e = VsockError.Truncated ∧ ∃ n, data_len buf = Some n ∧ lenz buf < HEADER_LEN + n
  | Panic => False
  end.
Proof.
  unfold packet_check. destruct (Z.ltb_spec (lenz buf) HEADER_LEN); [by auto|]. unfold HEADER_LEN in *.
  destruct (read_field_is_Some TYPE buf) as [t Ht]; [by vm_compute|by simpl; lia|].
  destruct (read_field_is_Some OP buf) as [o Ho]; [by vm_compute|by simpl; lia|].
  destruct (read_field_is_Some LEN buf) as [n Hn]; [by vm_compute|by simpl; lia|].
  unfold type_, op, data_len. rewrite Ht, Ho, Hn. cbn [panic_or mbind outcome_bind].
  destruct (Z.eqb_spec t TYPE_STREAM) as [->|]; simpl; [|naive_solver].
  destruct (Z.eqb_spec o 0); simpl; [naive_solver|].
  destruct (Z.ltb_spec 7 o); simpl; [naive_solver|].
  destruct (Z.ltb_spec (lenz buf) (44 + n)); [|split; [done|]; split; [done|]; by exists o, n].
  do 3 right. eauto.
Qed.

(** ** Properties *)

(** The header an operation builds has the wire layout, every
    getter reads back what was set, and with at least [data_len] bytes appended
    it passes [new_checked] exactly when the operation code is one of the seven. *)
Theorem header_roundtrip h data :
  header_ok h →
  ∃ b, build_header h = Some b ∧ lenz b = HEADER_LEN ∧ b = wire_header h ∧
    src_cid (b ++ data) = Some (h_src_cid h) ∧ dst_cid (b ++ data) = Some (h_dst_cid h) ∧
    src_port (b ++ data) = Some (h_src_port h) ∧ dst_port (b ++ data) = Some (h_dst_port h) ∧
    op (b ++ data) = Some (h_op h) ∧ data_len (b ++ data) = Some (h_data_len h) ∧
    flags (b ++ data) = Some (h_flags h) ∧ fwd_cnt (b ++ data) = Some (h_fwd_cnt h) ∧
    buf_alloc (b ++ data) = Some (h_buf_alloc h) ∧ payload (b ++ data) = Some data ∧
    (h_data_len h <= lenz data →
     new_checked (b ++ data) = Ok (b ++ data) ↔ 1 <= h_op h <= 7).
Proof.
  intros Hok. exists (wire_header h). split; [apply build_header_wire|].
  assert (lenz (wire_header h) = HEADER_LEN) as Hlen by (unfold lenz; by rewrite length_wire_header).
  destruct (header_fields h data Hok) as (H1 & H2 & H3 & H4 & H5 & H6 & H7 & H8 & H9 & H10).
  repeat (split; [done|]). split.
  { unfold payload. rewrite lenz_app, Hlen.
    pose proof (slice_app (wire_header h) data [] HEADER_LEN (HEADER_LEN + lenz data)) as Hs.
    rewrite app_nil_r in Hs. by apply Hs. }
  intros Hd. unfold new_checked, packet_check. rewrite lenz_app, Hlen, H6, H7, H5.
  pose proof (lenz_nonneg data). destruct (Z.ltb_spec (HEADER_LEN + lenz data) HEADER_LEN); [lia|].
  cbn [panic_or mbind outcome_bind]. rewrite Z.eqb_refl. simpl.
  destruct Hok as (_ & _ & _ & _ & Hop & _). unfold in_u in Hop.
  destruct (Z.eqb_spec (h_op h) 0), (Z.ltb_spec 7 (h_op h)); simpl; try (split; [done|lia]).
  destruct (Z.ltb_spec (HEADER_LEN + lenz data) (HEADER_LEN + h_data_len h)); [lia|].
  split; [lia|done].
Qed.

Lemma header_roundtrip_witness :
  ∃ b, build_header (mkHeader 3 2 40001 1234 5 2 0 0 0x40000) = Some b ∧
       new_checked (b ++ [7; 8]) = Ok (b ++ [7; 8]).
Proof.
  destruct (header_roundtrip (mkHeader 3 2 40001 1234 5 2 0 0 0x40000) [7; 8])
    as (b & Hb & _ & _ & _ & _ & _ & _ & _ & _ & _ & _ & _ & _ & H).
  - unfold header_ok, in_u. simpl. lia.
  - exists b. split; [exact Hb|]. apply H; unfold lenz; simpl; lia.
Defined.
