(* ===== verification/VsockStream.v ===== *)
(** * VsockStream: stream sockets over an arbitrary vsock transport

    src/devices/vsock/src/stream.rs.  The global packet queues, the port table
    and the transport device form the [World]; the transport is the class
    [VsockTransport], implemented by the virtio and the VMCALL drivers.  An
    [await] that never completes is the result [Pending]; [OutOfFuel] is the
    model's own bound on the waiting loops. *)
From stdpp Require Import base tactics numbers list list_numbers option gmap countable.
From S2P Require Import Prelude VirtQueue Vsock.
Local Open Scope Z_scope.

(** ** Globals and transport *)

Record World (D : Type) := mkWorld {
  CONNECTION_PKT_QUEUES : gmap VsockAddrPair (list bytes);
  BINDING_PKT_QUEUES : gmap VsockAddr (list bytes);
  UNUSED_PORT_COUNTER : Z;
  USED_PORT : gset Z;
  device : D }.
Arguments mkWorld {D}.
Arguments CONNECTION_PKT_QUEUES {D}.
Arguments BINDING_PKT_QUEUES {D}.
Arguments UNUSED_PORT_COUNTER {D}.
Arguments USED_PORT {D}.
Arguments device {D}.

Definition set_conn {D} (f : gmap VsockAddrPair (list bytes) → gmap VsockAddrPair (list bytes))
    (w : World D) : World D :=
  mkWorld (f (CONNECTION_PKT_QUEUES w)) (BINDING_PKT_QUEUES w) (UNUSED_PORT_COUNTER w) (USED_PORT w) (device w).
Definition set_bind {D} (f : gmap VsockAddr (list bytes) → gmap VsockAddr (list bytes))
    (w : World D) : World D :=
  mkWorld (CONNECTION_PKT_QUEUES w) (f (BINDING_PKT_QUEUES w)) (UNUSED_PORT_COUNTER w) (USED_PORT w) (device w).
Definition set_ports {D} (c : Z) (u : gset Z) (w : World D) : World D :=
  mkWorld (CONNECTION_PKT_QUEUES w) (BINDING_PKT_QUEUES w) c u (device w).
Definition set_device {D} (d : D) (w : World D) : World D :=
  mkWorld (CONNECTION_PKT_QUEUES w) (BINDING_PKT_QUEUES w) (UNUSED_PORT_COUNTER w) (USED_PORT w) d.

(** What a transport driver offers to the streams ([vsock_transport_*]); the
    stream argument is used for its address pair and its transport context. *)
Class VsockTransport (D : Type) := {
  MAX_VSOCK_PKT_DATA_LEN : Z;
  vsock_transport_get_cid : M (World D) (aerr VsockTransportError.t) Z;
  vsock_transport_enqueue : VsockAddrPair → Z → bytes → bytes → M (World D) (aerr VsockTransportError.t) Z;
  vsock_transport_dequeue : VsockAddrPair → Z → M (World D) (aerr VsockTransportError.t) bytes }.

(** ** Streams *)

Module State.
Inductive t := Closed | Listening | RequestSend | Established | Closing.
#[global] Instance t_eq_dec : EqDecision t.
Proof. solve_decision. Defined.
End State.

Record VsockStream := mkStream {
  state : State.t;
  transport_context : Z;
  listen_backlog : Z;
  addr : VsockAddrPair;
  data_queue : list bytes;
  rx_cnt : Z;
  tx_cnt : Z;
  last_fwd_cnt : Z;
  peer_fwd_cnt : Z;
  peer_buf_alloc : Z }.

Definition set_state (x : State.t) (s : VsockStream) : VsockStream :=
  mkStream x (transport_context s) (listen_backlog s) (addr s) (data_queue s) (rx_cnt s) (tx_cnt s)
    (last_fwd_cnt s) (peer_fwd_cnt s) (peer_buf_alloc s).
Definition set_backlog (x : Z) (s : VsockStream) : VsockStream :=
  mkStream (state s) (transport_context s) x (addr s) (data_queue s) (rx_cnt s) (tx_cnt s)
    (last_fwd_cnt s) (peer_fwd_cnt s) (peer_buf_alloc s).
Definition set_addr (x : VsockAddrPair) (s : VsockStream) : VsockStream :=
  mkStream (state s) (transport_context s) (listen_backlog s) x (data_queue s) (rx_cnt s) (tx_cnt s)
    (last_fwd_cnt s) (peer_fwd_cnt s) (peer_buf_alloc s).
Definition set_data_queue (x : list bytes) (s : VsockStream) : VsockStream :=
  mkStream (state s) (transport_context s) (listen_backlog s) (addr s) x (rx_cnt s) (tx_cnt s)
    (last_fwd_cnt s) (peer_fwd_cnt s) (peer_buf_alloc s).
Definition set_rx_cnt (x : Z) (s : VsockStream) : VsockStream :=
  mkStream (state s) (transport_context s) (listen_backlog s) (addr s) (data_queue s) x (tx_cnt s)
    (last_fwd_cnt s) (peer_fwd_cnt s) (peer_buf_alloc s).
Definition set_tx_cnt (x : Z) (s : VsockStream) : VsockStream :=
  mkStream (state s) (transport_context s) (listen_backlog s) (addr s) (data_queue s) (rx_cnt s) x
    (last_fwd_cnt s) (peer_fwd_cnt s) (peer_buf_alloc s).
Definition set_last_fwd_cnt (x : Z) (s : VsockStream) : VsockStream :=
  mkStream (state s) (transport_context s) (listen_backlog s) (addr s) (data_queue s) (rx_cnt s) (tx_cnt s)
    x (peer_fwd_cnt s) (peer_buf_alloc s).
Definition set_peer_credit (alloc fwd : Z) (s : VsockStream) : VsockStream :=
  mkStream (state s) (transport_context s) (listen_backlog s) (addr s) (data_queue s) (rx_cnt s) (tx_cnt s)
    (last_fwd_cnt s) fwd alloc.

Definition peer_free_space (s : VsockStream) : Z :=
  saturating_sub (peer_buf_alloc s) (saturating_sub (tx_cnt s) (peer_fwd_cnt s)).

Definition free_space (s : VsockStream) : Z :=
  saturating_sub VSOCK_BUF_ALLOC (saturating_sub (rx_cnt s) (last_fwd_cnt s)).

(** The copy-out loop of [recv]: fills [buf] from the front of the queue and
    leaves the rest of a partly read buffer at the head.  The branch that drains
    a part of the head fills [buf], so the loop ends there. *)
Fixpoint copy_out (queue : list bytes) (buf : bytes) (used : Z) : option (bytes * list bytes * Z) :=
  match queue with
  | [] => Some (buf, [], used)
  | head :: rest =>
      if used <? lenz buf then
        let free := lenz buf - used in
        if lenz head <=? free then
          buf' ← write_at buf used head;
          copy_out rest buf' (used + lenz head)
        else
          part ← slice head 0 free;
          buf' ← write_at buf used part;
          Some (buf', drop (Z.to_nat free) head :: rest, used + free)
      else Some (buf, queue, used)
  end.

(** [while USED_PORT.contains(&port) { port = port.checked_add(1)? }] *)
Fixpoint next_free_port (fuel : nat) (used : gset Z) (port : Z) : option Z :=
  match fuel with
  | O => None
  | S f => if decide (port ∈ used) then p ← checked_add 32 port 1; next_free_port f used p else Some port
  end.

Record St (D : Type) := mkSt { world : World D; self : VsockStream }.
Arguments mkSt {D}.
Arguments world {D}.
Arguments self {D}.

Section stream.
Context {D : Type} `{VsockTransport D}.
Notation Err := (aerr VsockError.t).
Notation SM := (M (St D) Err).

Definition modify_self (f : VsockStream → VsockStream) : SM unit :=
  modifyS (λ s, mkSt (world s) (f (self s))).
Definition modify_world (f : World D → World D) : SM unit :=
  modifyS (λ s, mkSt (f (world s)) (self s)).

(** [From<VsockTransportError> for VsockError] at an [await?]. *)
Definition map_transport {A} (r : outcome (aerr VsockTransportError.t) A) : outcome Err A :=
  match r with
  | Ok a => Ok a
  | Prelude.Err (Failed e) => Prelude.Err (Failed (VsockError.from_transport e))
  | Prelude.Err Pending => Prelude.Err Pending
  | Prelude.Err OutOfFuel => Prelude.Err OutOfFuel
  | Panic => Panic
  end.

Definition on_world {A} (m : M (World D) (aerr VsockTransportError.t) A) : SM A :=
  λ s, let '(r, w) := m (world s) in (map_transport r, mkSt w (self s)).

Definition checked (buf : bytes) : SM bytes :=
  λ s, (match new_checked buf with
        | Ok p => Ok p | Prelude.Err e => Prelude.Err (Failed e) | Panic => Panic
        end, s).

Definition illegal {A} : SM A := failM (Failed VsockError.Illegal).

(** *** Queues and ports *)

Definition add_stream_to_connection_map (stream : VsockStream) (w : World D) : World D :=
  set_conn (insert (addr stream) []) w.
Definition remove_stream_from_connection_map (stream : VsockStream) (w : World D) : World D :=
  set_conn (delete (addr stream)) w.
Definition add_stream_to_binding_map (stream : VsockStream) (w : World D) : World D :=
  set_bind (insert (local (addr stream)) []) w.
Definition remove_stream_from_binding_map (stream : VsockStream) (w : World D) : World D :=
  set_bind (delete (local (addr stream))) w.

(** The search visits at most one more port than are in use. *)
Definition get_unused_port : M (World D) Err (option Z) :=
  w ← getS;
  match (p ← checked_add 32 (UNUSED_PORT_COUNTER w) 1;
         next_free_port (S (size (USED_PORT w))) (USED_PORT w) p) with
  | Some p => _ ← modifyS (set_ports p ({[p]} ∪ USED_PORT w)); mret (Some p)
  | None => mret None
  end.

Definition new_with_cid (cid ctx : Z) : M (World D) Err VsockStream :=
  p ← get_unused_port;
  p ← ok_or p (Failed VsockError.NoAvailablePort);
  mret (mkStream State.Closed ctx 0 (mkPair (mkAddr cid p) VsockAddr_default) [] 0 0 0 0 0).

Definition new : M (World D) Err VsockStream :=
  λ w, let '(r, w') := vsock_transport_get_cid w in
       match map_transport r with
       | Ok cid => new_with_cid cid 0 w'
       | Prelude.Err e => (Prelude.Err e, w')
       | Panic => (Panic, w')
       end.

Definition bind (a : VsockAddr) : SM unit :=
  s ← getS;
  _ ← err_if (bool_decide (port a ∈ USED_PORT (world s))) (Failed VsockError.AddressAlreadyUsed);
  _ ← modify_world (λ w, set_ports (UNUSED_PORT_COUNTER w) ({[port a]} ∪ USED_PORT w) w);
  modify_self (λ st, set_addr (mkPair (set_port (port a) (local (addr st))) (remote (addr st))) st).

Definition listen (backlog : Z) : SM unit :=
  s ← getS;
  if decide (state (self s) = State.Closed) then
    _ ← modify_self (λ st, set_state State.Listening (set_backlog backlog st));
    modify_world (add_stream_to_binding_map (self s))
  else illegal.

(** *** Sending one packet *)

Definition send_vsock_pkt (hdr data : bytes) : SM Z :=
  _ ← modify_self (λ st, set_last_fwd_cnt (rx_cnt st) st);
  s ← getS;
  on_world (vsock_transport_enqueue (addr (self s)) (transport_context (self s)) hdr data).

Definition dequeue : SM bytes :=
  s ← getS;
  on_world (vsock_transport_dequeue (addr (self s)) (transport_context (self s))).

(** The header of a packet to the peer of the stream. *)
Definition peer_header (st : VsockStream) (op len flags fwd : Z) : Header :=
  mkHeader (cid (local (addr st))) (cid (remote (addr st))) (port (local (addr st)))
    (port (remote (addr st))) op len flags fwd VSOCK_BUF_ALLOC.

Definition send_credit_update : SM unit :=
  s ← getS;
  hdr ← or_panic (build_header (peer_header (self s) OP_CREDIT_UPDATE 0 0 (rx_cnt (self s))));
  _ ← send_vsock_pkt hdr [];
  mret tt.

(** *** Connection setup *)

Definition accept : SM VsockStream :=
  s ← getS;
  if decide (state (self s) = State.Listening) then
    recv ← dequeue;
    packet ← checked recv;
    o ← or_panic (op packet);
    _ ← err_if (negb (o =? OP_REQUEST)) (Failed VsockError.Illegal);
    h ← or_panic (slice recv 0 HEADER_LEN);
    request ← checked h;
    rcid ← or_panic (src_cid request);
    rport ← or_panic (src_port request);
    hdr ← or_panic (build_header (mkHeader (cid (local (addr (self s)))) rcid
                      (port (local (addr (self s)))) rport OP_RESPONSE 0 0 0 VSOCK_BUF_ALLOC));
    _ ← send_vsock_pkt hdr [];
    fwd ← or_panic (fwd_cnt request);
    alloc ← or_panic (buf_alloc request);
    let new_stream :=
      mkStream State.Established 0 0 (mkPair (local (addr (self s))) (VsockAddr_new (as_u 32 rcid) rport))
        [] 0 0 0 fwd alloc in
    _ ← modify_world (add_stream_to_connection_map new_stream);
    mret new_stream
  else illegal.

Definition connect (a : VsockAddr) : SM unit :=
  s ← getS;
  if decide (state (self s) = State.Closed) then
    _ ← modify_self (λ st, set_addr (mkPair (local (addr st)) a) st);
    s ← getS;
    _ ← modify_world (add_stream_to_connection_map (self s));
    hdr ← or_panic (build_header (peer_header (self s) OP_REQUEST 0 0 0));
    _ ← send_vsock_pkt hdr [];
    _ ← modify_self (set_state State.RequestSend);
    recv ← dequeue;
    packet ← checked recv;
    t ← or_panic (type_ packet);
    dc ← or_panic (dst_cid packet);
    dp ← or_panic (dst_port packet);
    o ← or_panic (op packet);
    sp ← or_panic (src_port packet);
    sc ← or_panic (src_cid packet);
    if (t =? TYPE_STREAM) && (dc =? cid (local (addr (self s)))) && (dp =? port (local (addr (self s)))) &&
       (o =? OP_RESPONSE) && (sp =? port (remote (addr (self s)))) && (sc =? cid (remote (addr (self s)))) then
      alloc ← or_panic (buf_alloc packet);
      fwd ← or_panic (fwd_cnt packet);
      modify_self (λ st, set_peer_credit alloc fwd (set_state State.Established st))
    else failM (Failed VsockError.REFUSED)
  else illegal.

(** *** Shutdown *)

Definition reset : SM unit :=
  s ← getS;
  if decide (state (self s) = State.Closing) then
    recv ← dequeue;
    packet ← checked recv;
    o ← or_panic (op packet);
    if o =? OP_RST then
      hdr ← or_panic (build_header (peer_header (self s) OP_RST 0 0 (rx_cnt (self s))));
      _ ← send_vsock_pkt hdr [];
      _ ← modify_self (set_state State.Closed);
      modify_world (remove_stream_from_connection_map (self s))
    else modify_self (set_state State.Closing)
  else illegal.

Definition shutdown : SM unit :=
  s ← getS;
  if decide (state (self s) = State.Listening) then
    _ ← modify_self (set_state State.Closed);
    modify_world (remove_stream_from_binding_map (self s))
  else if decide (state (self s) = State.Established) then
    hdr ← or_panic (build_header (peer_header (self s) OP_SHUTDOWN 0
                      (Z.lor FLAG_SHUTDOWN_READ FLAG_SHUTDOWN_WRITE) (rx_cnt (self s))));
    _ ← send_vsock_pkt hdr [];
    _ ← modify_self (set_state State.Closing);
    reset
  else illegal.

(** *** Established streams *)

Definition recv_data (n : Z) : SM unit :=
  recv ← dequeue;
  if n <=? lenz recv then
    _ ← modify_self (λ st, set_rx_cnt (wrapping_add 32 (rx_cnt st) n) st);
    s ← getS;
    _ ← (if free_space (self s) <? as_u 32 MAX_VSOCK_PKT_DATA_LEN then send_credit_update else mret tt);
    modify_self (λ st, set_data_queue (data_queue st ++ [take (Z.to_nat n) recv]) st)
  else illegal.

Definition recv_packet_connected : SM unit :=
  recv ← dequeue;
  packet ← checked recv;
  alloc ← or_panic (buf_alloc packet);
  fwd ← or_panic (fwd_cnt packet);
  _ ← modify_self (set_peer_credit alloc fwd);
  o ← or_panic (op packet);
  if o =? OP_SHUTDOWN then shutdown
  else if o =? OP_RST then _ ← reset; illegal
  else if o =? OP_RW then
    n ← or_panic (data_len packet);
    if 0 <? n then recv_data n else mret tt
  else if o =? OP_CREDIT_UPDATE then modify_self (set_peer_credit alloc fwd)
  else if o =? OP_CREDIT_REQUEST then send_credit_update
  else illegal.

(** [while self.peer_free_space() == 0 { self.recv_packet_connected().await? }] *)
Fixpoint wait_space (fuel : nat) : SM unit :=
  match fuel with
  | O => failM OutOfFuel
  | S f =>
      s ← getS;
      if peer_free_space (self s) =? 0 then _ ← recv_packet_connected; wait_space f else mret tt
  end.

(** One packet of [send]: the chunk, its header and its transmission. *)
Definition send_chunk (buf : bytes) (bytes_sent : Z) : SM Z :=
  s ← getS;
  let chunk := Z.min (Z.min (lenz buf - bytes_sent) MAX_VSOCK_PKT_DATA_LEN) (peer_free_space (self s)) in
  hdr ← or_panic (build_header (peer_header (self s) OP_RW (as_u 32 chunk) 0 (rx_cnt (self s))));
  data ← or_panic (slice buf bytes_sent (bytes_sent + chunk));
  n ← send_vsock_pkt hdr data;
  s ← getS;
  tx ← or_panic (add_u 32 (tx_cnt (self s)) (as_u 32 n));
  _ ← modify_self (set_tx_cnt tx);
  mret n.

Fixpoint send_loop (fuel : nat) (buf : bytes) (bytes_sent : Z) : SM unit :=
  match fuel with
  | O => failM OutOfFuel
  | S f =>
      if bytes_sent <? lenz buf then
        _ ← wait_space (S f);
        n ← send_chunk buf bytes_sent;
        sent ← or_panic (add_u 64 bytes_sent n);
        send_loop f buf sent
      else mret tt
  end.

Definition send (fuel : nat) (buf : bytes) : SM Z :=
  s ← getS;
  if decide (state (self s) = State.Established) then
    _ ← send_loop fuel buf 0; mret (lenz buf)
  else illegal.

(** [while self.data_queue.is_empty() { self.recv_packet_connected().await? }] *)
Fixpoint wait_data (fuel : nat) : SM unit :=
  match fuel with
  | O => failM OutOfFuel
  | S f =>
      s ← getS;
      if decide (data_queue (self s) = []) then _ ← recv_packet_connected; wait_data f else mret tt
  end.

(** Returns the number of bytes read and the caller's buffer. *)
Definition recv (fuel : nat) (buf : bytes) : SM (Z * bytes) :=
  s ← getS;
  if decide (state (self s) = State.Established) then
    _ ← wait_data fuel;
    s ← getS;
    r ← or_panic (copy_out (data_queue (self s)) buf 0);
    let '(buf', queue', used) := r in
    _ ← modify_self (set_data_queue queue');
    mret (used, buf')
  else illegal.

End stream.
