(* ===== verification/VsockStreamSpec.v ===== *)
(** * VsockStreamSpec: what a vsock stream promises over any transport

    Port allocation, the life cycle of a stream, delivery order of [recv],
    fragmentation and flow control of [send] (VsockStream). *)
From stdpp Require Import base tactics numbers list list_numbers option gmap countable fin_sets.
From S2P Require Import Prelude VirtQueue Vsock VsockStream.
Local Open Scope Z_scope.

(** ** The contract of a transport *)

(** [frames] observes the header/data pairs handed to the device; a successful
    [enqueue] hands over exactly the frame it was given. *)
Class VsockTransportLaws (D : Type) `{VsockTransport D} := {
  frames : D → list (bytes * bytes);
  max_len_range : 0 < MAX_VSOCK_PKT_DATA_LEN < 2 ^ 32;
  enqueue_Ok : ∀ a c h d w n w',
    vsock_transport_enqueue a c h d w = (Ok n, w') →
    n = lenz d ∧ frames (device w') = frames (device w) ++ [(h, d)];
  enqueue_frames : ∀ a c h d w r w',
    vsock_transport_enqueue a c h d w = (r, w') →
    frames (device w') = frames (device w) ∨ frames (device w') = frames (device w) ++ [(h, d)];
  dequeue_frames : ∀ a c w r w',
    vsock_transport_dequeue a c w = (r, w') → frames (device w') = frames (device w) }.

(** ** The copy-out loop *)



Definition copy_post (q : list bytes) (buf : bytes) (used : Z) (r : bytes * list bytes * Z) : Prop :=
  let '(buf', q', used') := r in
  let n := Z.to_nat (used' - used) in
  used' = Z.min (lenz buf) (used + lenz (concat q)) ∧
  buf' = take (Z.to_nat used) buf ++ take n (concat q) ++ drop (Z.to_nat used') buf ∧
  concat q' = drop n (concat q) ∧ (Forall (.≠ []) q → Forall (.≠ []) q').

Lemma copy_out_spec q buf used : 0 <= used <= lenz buf →
  ∃ r, copy_out q buf used = Some r ∧ copy_post q buf used r.
Proof.
  revert buf used. induction q as [|head rest IH]; intros buf used Hu; cbn [copy_out].
  - eexists; split; [done|]. unfold copy_post. cbn [concat]. unfold lenz in *. simpl.
    replace (used - used) with 0 by lia. rewrite take_nil. simpl. rewrite take_drop.
    repeat split; [lia|done..].
  - destruct (Z.ltb_spec used (lenz buf)) as [Hlt|].
    2:{ eexists; split; [done|]. unfold copy_post. replace (used - used) with 0 by lia.
        pose proof (lenz_nonneg (concat (head :: rest))). rewrite drop_0, take_0, app_nil_l, take_drop.
        repeat split; [lia|done]. }
    destruct (Z.leb_spec (lenz head) (lenz buf - used)) as [Hle|Hgt].
    + rewrite write_at_Some by lia. cbn [mbind option_bind].
      set (buf1 := _ ++ _ ++ _).
      assert (lenz buf1 = lenz buf) as Hl1.
      { unfold buf1, lenz in *. rewrite !length_app, length_take, length_drop. lia. }
      assert (0 <= used + lenz head <= lenz buf1) as Hu1
        by (rewrite Hl1; pose proof (lenz_nonneg head); lia).
      destruct (IH buf1 (used + lenz head) Hu1) as ([[b' q'] u'] & -> & Hn & Hb & Hq & Hne).
      eexists; split; [done|]. unfold copy_post. rewrite Hl1 in Hn. cbn [concat].
      pose proof (lenz_nonneg (concat rest)). unfold lenz in *.
      rewrite length_app. split; [lia|].
      replace (Z.to_nat (u' - used)) with (length head + Z.to_nat (u' - (used + Z.of_nat (length head))))%nat by lia.
      rewrite take_app_add, drop_app_add.
      split; [|split; [done|]; intros Hf; apply Hne; by inversion Hf].
      rewrite Hb, <-!app_assoc. unfold buf1.
      replace (Z.to_nat (used + Z.of_nat (length head))) with (length (take (Z.to_nat used) buf) + length head)%nat
        by (rewrite length_take; lia).
      rewrite take_app_add, take_app_length, <-!app_assoc. f_equal. f_equal. f_equal.
      replace (Z.to_nat u') with
        (length (take (Z.to_nat used) buf) + (length head + Z.to_nat (u' - used - Z.of_nat (length head))))%nat
        by (rewrite length_take; lia).
      rewrite !drop_app_add, drop_drop. f_equal. rewrite length_take. lia.
    + pose proof (lenz_nonneg head).
      rewrite slice_take by lia. cbn [mbind option_bind].
      assert (length (take (Z.to_nat (lenz buf - used)) head) = Z.to_nat (lenz buf - used)) as Hlen
        by (rewrite length_take; unfold lenz in *; lia).
      rewrite write_at_Some by (unfold lenz in *; lia). cbn [mbind option_bind].
      eexists; split; [done|]. unfold copy_post. cbn [concat].
      replace (used + (lenz buf - used) - used) with (lenz buf - used) by lia.
      replace (used + (lenz buf - used)) with (lenz buf) by lia.
      split; [rewrite lenz_app; pose proof (lenz_nonneg (concat rest)); lia|].
      rewrite take_app_le, drop_app_le by (unfold lenz in *; lia).
      split; [|split; [done|]].
      * f_equal. f_equal. rewrite Hlen. f_equal. unfold lenz in *. lia.
      * intros Hf. inversion Hf; subst. constructor; [|done]. intros E.
        apply (f_equal length) in E. rewrite length_drop in E. unfold lenz in *. simpl in E. lia.
Qed.

(** ** Frame conditions of the internal operations *)

Section frame.
Context {D : Type} `{VsockTransport D}.
Implicit Types s : St D.

(** The part of the stream that the transport calls cannot touch. *)
Definition same_stream (f : VsockStream → VsockStream → Prop) : St D → St D → Prop :=
  λ s s', f (self s) (self s').

#[global] Instance same_stream_preorder f : PreOrder f → PreOrder (same_stream f).
Proof.
  intros [Hr Ht]. split.
  - intros s. apply Hr.
  - intros s1 s2 s3. apply Ht.
Qed.

Lemma keeps_on_world {A} (R : VsockStream → VsockStream → Prop) `{!PreOrder R}
    (m : M (World D) (aerr VsockTransportError.t) A) : keeps (same_stream R) (on_world m).
Proof.
  intros s r s'. unfold on_world. destruct (m (world s)) as [r1 w]. intros [= _ <-].
  unfold same_stream. simpl. reflexivity.
Qed.

Lemma keeps_checked R `{!PreOrder R} buf : keeps R (checked (D := D) buf).
Proof. intros s r s'. unfold checked. intros [= _ <-]. reflexivity. Qed.

Lemma keeps_modify_self (R : VsockStream → VsockStream → Prop) f :
  (∀ st, R st (f st)) → keeps (same_stream R) (modify_self (D := D) f).
Proof. intros Hf. apply keeps_modifyS. intros s. apply Hf. Qed.

Lemma keeps_modify_world (R : VsockStream → VsockStream → Prop) `{!PreOrder R} f :
  keeps (same_stream R) (modify_world (D := D) f).
Proof. apply keeps_modifyS. intros s. unfold same_stream. simpl. reflexivity. Qed.

Lemma modify_self_bind {B} (g : VsockStream → VsockStream) (f : unit → M (St D) (aerr VsockError.t) B) s :
  (modify_self g ≫= f) s = f tt (mkSt (world s) (g (self s))).
Proof. done. Qed.

Lemma keeps_dequeue (R : VsockStream → VsockStream → Prop) `{!PreOrder R} :
  keeps (same_stream R) (dequeue (D := D)).
Proof. unfold dequeue. keeps_auto. by apply keeps_on_world. Qed.

Lemma keeps_send_vsock_pkt (R : VsockStream → VsockStream → Prop) `{!PreOrder R} hdr data :
  (∀ st x, R st (set_last_fwd_cnt x st)) → keeps (same_stream R) (send_vsock_pkt (D := D) hdr data).
Proof.
  intros HR. unfold send_vsock_pkt. keeps_auto.
  - apply keeps_modify_self. auto.
  - by apply keeps_on_world.
Qed.

Lemma keeps_illegal {A} R `{!PreOrder R} : keeps R (illegal (D := D) (A := A)).
Proof. unfold illegal. eauto with migtd. Qed.

End frame.

#[export] Hint Resolve keeps_on_world keeps_checked keeps_modify_world keeps_dequeue keeps_illegal : migtd.

(** *** The receive queue only grows, by whole non-empty buffers. *)

Section queue.
Context {D : Type} `{VsockTransport D}.

Definition queue_le (st st' : VsockStream) : Prop :=
  ∃ arrived, data_queue st' = data_queue st ++ arrived ∧ Forall (.≠ []) arrived.

#[global] Instance queue_le_preorder : PreOrder queue_le.
Proof.
  split.
  - intros st. exists []. by rewrite app_nil_r.
  - intros s1 s2 s3 (a & Ha & Fa) (b & Hb & Fb). exists (a ++ b).
    rewrite Hb, Ha, app_assoc. split; [done|]. by apply Forall_app.
Qed.

Lemma queue_le_eq st st' : data_queue st' = data_queue st → queue_le st st'.
Proof. intros E. exists []. by rewrite app_nil_r. Qed.

Local Notation Q := (same_stream (D := D) queue_le).

Lemma queue_modify f : (∀ st, data_queue (f st) = data_queue st) → keeps Q (modify_self f).
Proof. intros Hf. apply keeps_modify_self. intros st. by apply queue_le_eq. Qed.

Lemma queue_send_pkt hdr data : keeps Q (send_vsock_pkt hdr data).
Proof. apply keeps_send_vsock_pkt; [typeclasses eauto|]. intros. by apply queue_le_eq. Qed.

Lemma queue_credit_update : keeps Q send_credit_update.
Proof. unfold send_credit_update. keeps_auto. apply queue_send_pkt. Qed.

Lemma queue_reset : keeps Q reset.
Proof. unfold reset. keeps_auto; first [apply queue_send_pkt|by apply queue_modify]. Qed.

Lemma queue_shutdown : keeps Q shutdown.
Proof.
  unfold shutdown. keeps_auto; first [apply queue_send_pkt|apply queue_reset|by apply queue_modify].
Qed.

Lemma queue_recv_data n : 0 < n → keeps Q (recv_data n).
Proof.
  intros Hn. unfold recv_data. apply keeps_bind; [typeclasses eauto|eauto with migtd typeclass_instances|].
  intros recv. destruct (Z.leb_spec n (lenz recv)) as [Hle|]; [|eauto with migtd typeclass_instances].
  keeps_auto; [by apply queue_modify|apply queue_credit_update|].
  apply keeps_modify_self. intros st. exists [take (Z.to_nat n) recv]. split; [done|].
  constructor; [|done]. intros E. apply (f_equal length) in E. rewrite length_take in E.
  unfold lenz in Hle. simpl in E. lia.
Qed.

Lemma queue_recv_packet_connected : keeps Q recv_packet_connected.
Proof.
  unfold recv_packet_connected. keeps_auto;
    try first [by apply queue_modify|apply queue_shutdown|apply queue_reset|apply queue_credit_update].
  apply queue_recv_data. by apply Z.ltb_lt.
Qed.

Lemma queue_wait_data fuel : keeps Q (wait_data fuel).
Proof.
  induction fuel as [|f IH]; cbn [wait_data]; keeps_auto; apply queue_recv_packet_connected.
Qed.

Lemma wait_data_nonempty fuel s s' :
  wait_data fuel s = (Ok tt, s') → data_queue (self s') ≠ [].
Proof.
  revert s. induction fuel as [|f IH]; intros s; cbn [wait_data]; [done|].
  rewrite getS_bind. case_decide.
  - intros (a & s1 & _ & H1)%M_bind_Ok_inv. by eapply IH.
  - intros [= <-]. done.
Qed.

End queue.

(** ** [send]: frames, fragmentation and credit *)

Section send.
Context {D : Type} `{VsockTransportLaws D}.
Implicit Types s : St D.

Definition log s : list (bytes * bytes) := frames (device (world s)).

(** Data bytes of a sequence of frames, in order. *)
Definition frame_data (l : list (bytes * bytes)) : bytes := concat (l.*2).

Lemma frame_data_app l k : frame_data (l ++ k) = frame_data l ++ frame_data k.
Proof. unfold frame_data. by rewrite fmap_app, concat_app. Qed.

(** Only frames without data are sent. *)
Definition ctl_le s s' : Prop := ∃ l, log s' = log s ++ l ∧ Forall (λ f, f.2 = []) l.

#[global] Instance ctl_le_preorder : PreOrder ctl_le.
Proof.
  split.
  - intros s. exists []. by rewrite app_nil_r.
  - intros s1 s2 s3 (a & Ha & Fa) (b & Hb & Fb). exists (a ++ b).
    rewrite Hb, Ha, app_assoc. split; [done|]. by apply Forall_app.
Qed.

Lemma ctl_le_eq s s' : log s' = log s → ctl_le s s'.
Proof. intros E. exists []. by rewrite app_nil_r. Qed.

Lemma ctl_modify_self f : keeps ctl_le (modify_self (D := D) f).
Proof. apply keeps_modifyS. intros s. by apply ctl_le_eq. Qed.

Lemma ctl_modify_world f : (∀ w, device (f w) = device w) → keeps ctl_le (modify_world (D := D) f).
Proof.
  intros Hf. apply keeps_modifyS. intros s. apply ctl_le_eq. unfold log. simpl. by rewrite Hf.
Qed.

Lemma ctl_dequeue : keeps ctl_le (dequeue (D := D)).
Proof.
  unfold dequeue. keeps_auto. intros s r s'. unfold on_world.
  destruct (vsock_transport_dequeue _ _ _) as [r1 w] eqn:E. intros [= _ <-].
  apply ctl_le_eq. unfold log. simpl. by eapply dequeue_frames.
Qed.

Lemma ctl_send_pkt hdr : keeps ctl_le (send_vsock_pkt (D := D) hdr []).
Proof.
  unfold send_vsock_pkt. keeps_auto; [apply ctl_modify_self|]. intros s r s'. unfold on_world.
  destruct (vsock_transport_enqueue _ _ _ _ _) as [r1 w] eqn:E. intros [= _ <-].
  apply enqueue_frames in E as [E|E].
  - by apply ctl_le_eq.
  - exists [(hdr, [])]. split; [done|]. by constructor.
Qed.

Lemma ctl_credit_update : keeps ctl_le (send_credit_update (D := D)).
Proof. unfold send_credit_update. keeps_auto. apply ctl_send_pkt. Qed.

Lemma ctl_reset : keeps ctl_le (reset (D := D)).
Proof.
  unfold reset. keeps_auto;
    first [apply ctl_dequeue|apply ctl_send_pkt|apply ctl_modify_self|by apply ctl_modify_world].
Qed.

Lemma ctl_shutdown : keeps ctl_le (shutdown (D := D)).
Proof.
  unfold shutdown. keeps_auto;
    first [apply ctl_reset|apply ctl_send_pkt|apply ctl_modify_self|by apply ctl_modify_world].
Qed.

Lemma ctl_recv_packet_connected : keeps ctl_le (recv_packet_connected (D := D)).
Proof.
  unfold recv_packet_connected, recv_data. keeps_auto;
    first [apply ctl_dequeue|apply ctl_reset|apply ctl_shutdown|apply ctl_credit_update|apply ctl_modify_self].
Qed.

Lemma ctl_wait_space fuel : keeps ctl_le (wait_space (D := D) fuel).
Proof. induction fuel; cbn [wait_space]; keeps_auto; apply ctl_recv_packet_connected. Qed.

Lemma wait_space_credit fuel s s' :
  wait_space fuel s = (Ok tt, s') → peer_free_space (self s') ≠ 0.
Proof.
  revert s. induction fuel as [|f IH]; intros s; cbn [wait_space]; [done|].
  rewrite getS_bind. destruct (Z.eqb_spec (peer_free_space (self s)) 0).
  - intros (a & s1 & _ & H1)%M_bind_Ok_inv. by eapply IH.
  - intros [= <-]. done.
Qed.

(** The chunk of the next packet. *)
Definition chunk_of (buf : bytes) (sent : Z) (st : VsockStream) : Z :=
  Z.min (Z.min (lenz buf - sent) MAX_VSOCK_PKT_DATA_LEN) (peer_free_space st).

(** What the peer may still receive after a packet was counted. *)
Definition within_credit (st : VsockStream) : Prop :=
  tx_cnt st <= peer_fwd_cnt st + peer_buf_alloc st.

Lemma chunk_range buf sent st :
  0 <= sent < lenz buf → peer_free_space st ≠ 0 →
  0 < chunk_of buf sent st <= MAX_VSOCK_PKT_DATA_LEN ∧ sent + chunk_of buf sent st <= lenz buf ∧
  as_u 32 (chunk_of buf sent st) = chunk_of buf sent st.
Proof.
  pose proof max_len_range. intros. unfold chunk_of, as_u.
  assert (0 <= peer_free_space st) by (unfold peer_free_space, saturating_sub; lia).
  rewrite Z.mod_small by lia. lia.
Qed.

Lemma chunk_credit buf sent st st' :
  0 <= sent < lenz buf → peer_free_space st ≠ 0 →
  tx_cnt st' = tx_cnt st + chunk_of buf sent st →
  peer_fwd_cnt st' = peer_fwd_cnt st → peer_buf_alloc st' = peer_buf_alloc st → within_credit st'.
Proof.
  intros Hs Hp Ht Hf Ha. unfold within_credit. rewrite Ht, Hf, Ha. unfold chunk_of, peer_free_space, saturating_sub in *. lia.
Qed.

(** The frame a chunk travels in. *)
Definition rw_frame (buf : bytes) (sent : Z) (st : VsockStream) : bytes * bytes :=
  (wire_header (peer_header st OP_RW (chunk_of buf sent st) 0 (rx_cnt st)),
   take (Z.to_nat (chunk_of buf sent st)) (drop (Z.to_nat sent) buf)).

Lemma send_chunk_inv buf sent s r s' :
  0 <= sent < lenz buf → peer_free_space (self s) ≠ 0 → send_chunk buf sent s = (r, s') →
  (log s' = log s ∨ log s' = log s ++ [rw_frame buf sent (self s)]) ∧
  (∀ n, r = Ok n → n = chunk_of buf sent (self s) ∧ log s' = log s ++ [rw_frame buf sent (self s)] ∧
     within_credit (self s')).
Proof.
  intros Hs Hp. destruct (chunk_range buf sent (self s) Hs Hp) as (Hc & Hle & Has).
  unfold send_chunk. rewrite getS_bind. cbv zeta. fold (chunk_of buf sent (self s)).
  rewrite Has, build_header_wire, or_panic_bind.
  unfold slice. rewrite (proj2 (Z.leb_le 0 sent)), (proj2 (Z.leb_le sent _)), (proj2 (Z.leb_le _ (lenz buf))) by lia.
  cbn [andb]. replace (sent + chunk_of buf sent (self s) - sent) with (chunk_of buf sent (self s)) by lia.
  rewrite or_panic_bind.
  change (wire_header (peer_header (self s) OP_RW (chunk_of buf sent (self s)) 0 (rx_cnt (self s))))
    with (rw_frame buf sent (self s)).1.
  change (take (Z.to_nat (chunk_of buf sent (self s))) (drop (Z.to_nat sent) buf))
    with (rw_frame buf sent (self s)).2.
  rewrite M_bind_eq. unfold send_vsock_pkt. rewrite modify_self_bind, getS_bind.
  unfold on_world. simpl world. simpl self.
  destruct (vsock_transport_enqueue _ _ _ _ _) as [r1 w] eqn:E.
  assert (frames (device w) = log s ∨ frames (device w) = log s ++ [rw_frame buf sent (self s)]) as Hf.
  { apply enqueue_frames in E. by destruct (rw_frame buf sent (self s)). }
  destruct r1 as [n|[| |]|]; cbn [map_transport]; [|intros [= <- <-]; by split..].
  apply enqueue_Ok in E as [-> E].
  assert (lenz (rw_frame buf sent (self s)).2 = chunk_of buf sent (self s)) as Hlen.
  { simpl. unfold lenz in *. rewrite length_take, length_drop. lia. }
  rewrite Hlen, getS_bind, Has. simpl self.
  unfold add_u. destruct (checked_add 32 _ _) as [tx|] eqn:Etx; rewrite or_panic_bind.
  2:{ intros [= <- <-]. split; [done|]. intros n [=]. }
  apply checked_add_Some in Etx as [-> _]. rewrite modify_self_bind. intros [= <- <-].
  split; [done|]. intros n [= <-]. split; [done|]. split.
  - unfold log in *. simpl. rewrite E. by destruct (rw_frame buf sent (self s)).
  - by eapply (chunk_credit buf sent (self s)).
Qed.

(** A control frame, or a non-empty data frame no longer than a packet whose
    header announces its length. *)
Definition frame_ok (f : bytes * bytes) : Prop :=
  f.2 = [] ∨
  0 < lenz f.2 <= MAX_VSOCK_PKT_DATA_LEN ∧ op f.1 = Some OP_RW ∧ data_len f.1 = Some (lenz f.2).

Lemma rw_frame_data buf sent st :
  0 <= sent < lenz buf → peer_free_space st ≠ 0 →
  lenz (rw_frame buf sent st).2 = chunk_of buf sent st ∧ frame_ok (rw_frame buf sent st) ∧
  drop (Z.to_nat sent) buf =
    (rw_frame buf sent st).2 ++ drop (Z.to_nat (sent + chunk_of buf sent st)) buf.
Proof.
  intros Hs Hp. destruct (chunk_range buf sent st Hs Hp) as (Hc & Hle & Has).
  assert (lenz (rw_frame buf sent st).2 = chunk_of buf sent st) as Hlen.
  { simpl. unfold lenz in *. rewrite length_take, length_drop. lia. }
  split; [done|]. split.
  - right. rewrite Hlen. split; [lia|]. pose proof max_len_range.
    unfold rw_frame, op, data_len. cbn [fst]. set (h := peer_header _ _ _ _ _).
    rewrite <-(app_nil_r (wire_header h)). split.
    + rewrite (read_field_seg h [] 6 _ OP eq_refl) by (unfold wire_segs, OP; seg_len).
      by rewrite le_val_bytes.
    + rewrite (read_field_seg h [] 4 _ LEN eq_refl) by (unfold wire_segs, LEN; seg_len).
      rewrite le_val_bytes. f_equal. exact Has.
  - simpl. rewrite <-(take_drop (Z.to_nat (chunk_of buf sent st)) (drop _ buf)) at 1.
    rewrite drop_drop. f_equal. f_equal. lia.
Qed.

Lemma frame_data_ctl l : Forall (λ f : bytes * bytes, f.2 = []) l → frame_data l = [].
Proof. induction 1 as [|[] l E _ IH]; [done|]. simpl in *. subst. exact IH. Qed.

Lemma ctl_frames_ok l : Forall (λ f : bytes * bytes, f.2 = []) l → Forall frame_ok l.
Proof. intros Hl. eapply Forall_impl; [exact Hl|]. intros f ?. by left. Qed.

Definition sends (s s' : St D) (data : bytes) (done : bool) (l : list (bytes * bytes)) : Prop :=
  log s' = log s ++ l ∧ Forall frame_ok l ∧ frame_data l `prefix_of` data ∧
  (done = true → frame_data l = data ∧ (data ≠ [] → within_credit (self s'))).

Lemma sends_ctl s s1 s' l data b l' :
  log s1 = log s ++ l → Forall (λ f, f.2 = []) l → sends s1 s' data b l' → sends s s' data b (l ++ l').
Proof.
  intros E F (E' & F' & P & Q). unfold sends. rewrite frame_data_app, (frame_data_ctl l F), app_nil_l, E', E, app_assoc.
  split; [done|]. split; [|done]. apply Forall_app. split; [by apply ctl_frames_ok|done].
Qed.

Lemma sends_stop s s' l data :
  log s' = log s ++ l → Forall frame_ok l → frame_data l `prefix_of` data → sends s s' data false l.
Proof. intros. unfold sends. naive_solver. Qed.

Lemma sends_cons s s1 s' f data b l :
  log s1 = log s ++ [f] → frame_ok f → within_credit (self s1) →
  (data = [] → s' = s1) →
  sends s1 s' data b l → sends s s' (f.2 ++ data) b (f :: l).
Proof.
  intros E F W N (E' & F' & P & Q). unfold sends.
  change (f :: l) with ([f] ++ l). rewrite E', E, <-app_assoc. split; [done|].
  split; [apply Forall_app; by split; [constructor|]|]. rewrite frame_data_app.
  replace (frame_data [f]) with f.2 by (unfold frame_data; simpl; by rewrite app_nil_r).
  split; [by apply prefix_app|]. intros Hb. destruct (Q Hb) as [-> HW]. split; [done|]. intros _.
  destruct data; [by rewrite N|by apply HW].
Qed.

Definition is_done {E A} (r : outcome E A) : bool := match r with Ok _ => true | _ => false end.

Lemma send_loop_stop fuel buf sent s r s' :
  lenz buf <= sent → send_loop (D := D) fuel buf sent s = (r, s') → s' = s.
Proof.
  intros Hs. destruct fuel; cbn [send_loop]; [by intros [= _ <-]|].
  rewrite (proj2 (Z.ltb_ge _ _) Hs). by intros [= _ <-].
Qed.

Lemma send_loop_inv fuel buf sent s r s' :
  0 <= sent <= lenz buf → send_loop fuel buf sent s = (r, s') →
  ∃ l, sends s s' (drop (Z.to_nat sent) buf) (is_done r) l.
Proof.
  revert sent s. induction fuel as [|fuel IH]; intros sent s Hs; cbn [send_loop].
  { intros [= <- <-]. exists []. apply sends_stop; [by rewrite app_nil_r|done|apply prefix_nil]. }
  destruct (Z.ltb_spec sent (lenz buf)) as [Hlt|Hge].
  2:{ intros [= <- <-]. exists []. rewrite drop_ge by (unfold lenz in *; lia).
      split; [by rewrite app_nil_r|]. done. }
  rewrite M_bind_eq. destruct (wait_space (S fuel) s) as [rw s1] eqn:Ew.
  destruct (ctl_wait_space _ _ _ _ Ew) as (l0 & E0 & F0).
  assert (∃ l, sends s s1 (drop (Z.to_nat sent) buf) false l) as Hstop.
  { exists l0. apply sends_stop; [done|by apply ctl_frames_ok|]. rewrite frame_data_ctl by done. apply prefix_nil. }
  destruct rw as [[]|e|]; [|intros [= <- <-]; exact Hstop..].
  apply wait_space_credit in Ew. rewrite M_bind_eq.
  destruct (send_chunk buf sent s1) as [rc s2] eqn:Ec.
  destruct (send_chunk_inv _ _ _ _ _ (conj (proj1 Hs) Hlt) Ew Ec) as [Hlog Hok].
  destruct (rw_frame_data buf sent (self s1) (conj (proj1 Hs) Hlt) Ew) as (Hlen & Hfok & Hdrop).
  set (f := rw_frame buf sent (self s1)) in *.
  assert (∃ l, sends s s2 (drop (Z.to_nat sent) buf) false l) as Hstop2.
  { destruct Hlog as [Hl|Hl].
    - exists (l0 ++ []). eapply sends_ctl; [done..|]. apply sends_stop; [by rewrite app_nil_r|done|apply prefix_nil].
    - exists (l0 ++ [f]). eapply sends_ctl; [done..|]. apply sends_stop; [done|by constructor|].
      rewrite Hdrop. unfold frame_data. simpl. rewrite app_nil_r. by apply prefix_app_r. }
  destruct rc as [n|e|]; [|intros [= <- <-]; exact Hstop2..].
  destruct (Hok n eq_refl) as (-> & Hl & Hw). unfold add_u.
  destruct (checked_add 64 _ _) as [sent'|] eqn:Ea; rewrite or_panic_bind; [|intros [= <- <-]; exact Hstop2].
  apply checked_add_Some in Ea as [-> _]. intros Hloop.
  destruct (chunk_range buf sent (self s1) (conj (proj1 Hs) Hlt) Ew) as (Hc & Hle & _).
  assert (0 <= sent + chunk_of buf sent (self s1) <= lenz buf) as Hs' by lia.
  destruct (IH _ _ Hs' Hloop) as (l & Hl').
  exists (l0 ++ f :: l). eapply sends_ctl; [done..|]. rewrite Hdrop. eapply sends_cons; [done..| |done].
  intros Hnil. eapply send_loop_stop; [|done]. apply (f_equal length) in Hnil. rewrite length_drop in Hnil.
  unfold lenz in *. simpl in Hnil. lia.
Qed.

(** *** Completion *)

(** A transport that takes every well-sized frame. *)
Definition ready_transport : Prop := ∀ a c h d (w : World D),
  lenz h = HEADER_LEN → lenz d <= MAX_VSOCK_PKT_DATA_LEN →
  ∃ w', vsock_transport_enqueue a c h d w = (Ok (lenz d), w').

Lemma send_chunk_complete buf sent s :
  ready_transport → 0 <= sent < lenz buf → peer_free_space (self s) ≠ 0 →
  tx_cnt (self s) + chunk_of buf sent (self s) < 2 ^ 32 →
  ∃ s', send_chunk buf sent s = (Ok (chunk_of buf sent (self s)), s') ∧
    tx_cnt (self s') = tx_cnt (self s) + chunk_of buf sent (self s) ∧
    peer_fwd_cnt (self s') = peer_fwd_cnt (self s) ∧ peer_buf_alloc (self s') = peer_buf_alloc (self s).
Proof.
  intros HR Hs Hp Htx. destruct (chunk_range buf sent (self s) Hs Hp) as (Hc & Hle & Has).
  destruct (rw_frame_data buf sent (self s) Hs Hp) as (Hlen & _ & _). simpl in Hlen.
  unfold send_chunk. rewrite getS_bind. cbv zeta. fold (chunk_of buf sent (self s)).
  rewrite Has, build_header_wire, or_panic_bind.
  unfold slice. rewrite (proj2 (Z.leb_le 0 sent)), (proj2 (Z.leb_le sent _)), (proj2 (Z.leb_le _ (lenz buf))) by lia.
  cbn [andb]. replace (sent + chunk_of buf sent (self s) - sent) with (chunk_of buf sent (self s)) by lia.
  rewrite or_panic_bind, M_bind_eq. unfold send_vsock_pkt.
  rewrite modify_self_bind, getS_bind. unfold on_world. simpl world. simpl self.
  edestruct HR as [w' ->]; [unfold lenz; by rewrite length_wire_header|rewrite Hlen; lia|].
  rewrite Hlen. cbn [map_transport]. rewrite getS_bind, Has. cbn [self tx_cnt set_last_fwd_cnt]. unfold add_u.
  rewrite (proj2 (checked_add_Some 32 _ _ _) (conj eq_refl Htx)), or_panic_bind.
  rewrite modify_self_bind. by eexists.
Qed.

Lemma peer_free_space_after st st' n :
  tx_cnt st' = tx_cnt st + n → peer_fwd_cnt st' = peer_fwd_cnt st →
  peer_buf_alloc st' = peer_buf_alloc st → 0 <= n →
  peer_free_space st - n <= peer_free_space st'.
Proof. intros Ht Hf Ha ?. unfold peer_free_space. rewrite Ht, Hf, Ha. unfold saturating_sub. lia. Qed.

Lemma send_loop_complete fuel buf sent s :
  ready_transport → 0 <= sent <= lenz buf → lenz buf < 2 ^ 64 →
  lenz buf - sent <= peer_free_space (self s) → tx_cnt (self s) + (lenz buf - sent) < 2 ^ 32 →
  lenz buf - sent < Z.of_nat fuel →
  ∃ s', send_loop fuel buf sent s = (Ok tt, s') ∧ tx_cnt (self s') = tx_cnt (self s) + (lenz buf - sent).
Proof.
  intros HR. revert sent s. induction fuel as [|fuel IH]; intros sent s Hs Hu Hp Htx Hfuel; [lia|].
  cbn [send_loop]. destruct (Z.ltb_spec sent (lenz buf)) as [Hlt|].
  2:{ eexists. split; [done|]. lia. }
  assert (peer_free_space (self s) ≠ 0) as Hp0 by lia.
  cbn [wait_space]. rewrite M_bind_eq, getS_bind.
  destruct (Z.eqb_spec (peer_free_space (self s)) 0); [done|].
  cbn [mret M_ret].
  destruct (chunk_range buf sent (self s) (conj (proj1 Hs) Hlt) Hp0) as (Hc & Hle & _).
  destruct (send_chunk_complete buf sent s) as (s1 & E1 & Ht & Hf & Ha); [done|lia|done|lia|].
  rewrite M_bind_eq, E1. unfold add_u.
  assert (sent + chunk_of buf sent (self s) < 2 ^ 64) as Hs64 by lia.
  rewrite (proj2 (checked_add_Some 64 _ _ _) (conj eq_refl Hs64)), or_panic_bind.
  pose proof (peer_free_space_after (self s) (self s1) _ Ht Hf Ha ltac:(lia)).
  destruct (IH (sent + chunk_of buf sent (self s)) s1) as (s2 & E2 & Ht2); [lia..|].
  exists s2. split; [done|]. lia.
Qed.

End send.

(** ** Life cycle *)

Section life.
Context {D : Type} `{VsockTransport D}.
Implicit Types s : St D.

Inductive api_op :=
  | Bind (a : VsockAddr) | Listen (backlog : Z) | Accept | Connect (a : VsockAddr)
  | Shutdown | Send (fuel : nat) (buf : bytes) | Recv (fuel : nat) (buf : bytes).

(** The public operations, with their results forgotten. *)
Definition run_op (o : api_op) : M (St D) (aerr VsockError.t) unit :=
  match o with
  | Bind a => bind a
  | Listen b => listen b
  | Accept => _ ← accept; mret tt
  | Connect a => connect a
  | Shutdown => shutdown
  | Send fuel buf => _ ← send fuel buf; mret tt
  | Recv fuel buf => _ ← recv fuel buf; mret tt
  end.

(** The states an operation is permitted in. *)
Definition permitted (o : api_op) (x : State.t) : bool :=
  match o, x with
  | Bind _, _ => true
  | (Listen _ | Connect _), State.Closed => true
  | Accept, State.Listening => true
  | Shutdown, (State.Listening | State.Established) => true
  | (Send _ _ | Recv _ _), State.Established => true
  | _, _ => false
  end.

(** From a permitted state, where the operation can lead ([ok]: it returned [Ok]). *)
Definition leads_to (o : api_op) (x y : State.t) (ok : bool) : Prop :=
  match o with
  | Bind _ | Accept => y = x
  | Listen _ => y = State.Listening ∧ ok = true
  | Connect _ => y = State.Established ∧ ok = true ∨ (y = State.Closed ∨ y = State.RequestSend) ∧ ok = false
  | Shutdown =>
      if decide (x = State.Listening) then y = State.Closed ∧ ok = true
      else y = State.Closed ∧ ok = true ∨ y = State.Closing ∨ y = State.Established ∧ ok = false
  | Send _ _ | Recv _ _ => y = State.Established ∨ y = State.Closing ∨ y = State.Closed
  end.

(** Going down: established, closing, closed; listening, closed. *)
Definition state_down (st st' : VsockStream) : Prop :=
  state st' = state st ∨ state st' = State.Closed ∨ state st = State.Established ∧ state st' = State.Closing.

#[global] Instance state_down_preorder : PreOrder state_down.
Proof. split; [by left|]. unfold state_down. intros s1 s2 s3. naive_solver congruence. Qed.

Definition state_same (st st' : VsockStream) : Prop := state st' = state st.

#[global] Instance state_same_preorder : PreOrder state_same.
Proof. split; [done|]. unfold state_same. intros s1 s2 s3. congruence. Qed.

Local Notation Same := (same_stream (D := D) state_same).
Local Notation Down := (same_stream (D := D) state_down).

Lemma same_send_pkt hdr data : keeps Same (send_vsock_pkt hdr data).
Proof. by apply keeps_send_vsock_pkt; [typeclasses eauto|]. Qed.

Lemma same_credit_update : keeps Same send_credit_update.
Proof. unfold send_credit_update. keeps_auto. apply same_send_pkt. Qed.

Lemma same_recv_data n : keeps Same (recv_data n).
Proof.
  unfold recv_data. keeps_auto; first [apply same_credit_update|by apply keeps_modify_self].
Qed.

Lemma same_accept : keeps Same accept.
Proof. unfold accept. keeps_auto; apply same_send_pkt. Qed.

(** Splits a run at its first step, keeping the state of the stream. *)
Lemma same_bind {A B} (m : M (St D) (aerr VsockError.t) A) (f : A → M (St D) (aerr VsockError.t) B) s r s'
    (P : outcome (aerr VsockError.t) B → State.t → Prop) :
  keeps Same m → (m ≫= f) s = (r, s') →
  (∀ e, P (Err e) (state (self s))) → P Panic (state (self s)) →
  (∀ a s1, state (self s1) = state (self s) → f a s1 = (r, s') → P r (state (self s'))) →
  P r (state (self s')).
Proof.
  intros Hm. rewrite M_bind_eq. destruct (m s) as [[a|e|] s1] eqn:E; apply Hm in E as E1;
    unfold same_stream, state_same in E1.
  - intros Hf _ _ Hk. by eapply Hk.
  - intros [= <- <-] He _ _. rewrite E1. apply He.
  - intros [= <- <-] _ HP _. by rewrite E1.
Qed.

Ltac same_step P side :=
  match goal with
  | Hrun : _ = (?r, ?s') |- P ?r _ =>
      eapply (same_bind _ _ _ _ _ P); [|exact Hrun|..]; clear Hrun;
      [first [apply same_send_pkt|apply keeps_modify_world; typeclasses eauto
             |by apply keeps_modify_self|eauto with migtd typeclass_instances]
      |intros ?; unfold P; side|unfold P; side|intros ? ? ? Hrun; cbv beta in Hrun]
  end.

Lemma reset_state s r s' :
  state (self s) = State.Closing → reset s = (r, s') →
  state (self s') = State.Closing ∨ state (self s') = State.Closed ∧ is_done r = true.
Proof.
  intros Hst. unfold reset. rewrite getS_bind, decide_True by done. intros Hrun.
  set (P := λ (r : outcome (aerr VsockError.t) unit) y, y = State.Closing ∨ y = State.Closed ∧ is_done r = true).
  change (P r (state (self s'))).
  do 3 (same_step P ltac:(left; congruence)).
  match type of Hrun with (if ?c then _ else _) _ = _ => destruct c end.
  - do 2 (same_step P ltac:(left; congruence)).
    rewrite modify_self_bind in Hrun.
    injection Hrun as <- <-. by right.
  - injection Hrun as <- <-. by left.
Qed.

Lemma shutdown_state s r s' :
  state (self s) = State.Established → shutdown s = (r, s') →
  state (self s') = State.Closed ∧ is_done r = true ∨ state (self s') = State.Closing ∨
  state (self s') = State.Established ∧ is_done r = false.
Proof.
  intros Hst. unfold shutdown. rewrite getS_bind, decide_False, decide_True by congruence. intros Hrun.
  set (P := λ (r : outcome (aerr VsockError.t) unit) y, y = State.Closed ∧ is_done r = true ∨
         y = State.Closing ∨ y = State.Established ∧ is_done r = false).
  change (P r (state (self s'))).
  do 2 (same_step P ltac:(do 2 right; split; [congruence|done])).
  rewrite modify_self_bind in Hrun.
  apply reset_state in Hrun; [|done]. unfold P. tauto.
Qed.

Lemma connect_state a s r s' :
  state (self s) = State.Closed → connect a s = (r, s') →
  state (self s') = State.Established ∧ is_done r = true ∨
  (state (self s') = State.Closed ∨ state (self s') = State.RequestSend) ∧ is_done r = false.
Proof.
  intros Hst. unfold connect. rewrite getS_bind, decide_True by done. intros Hrun.
  rewrite modify_self_bind, getS_bind in Hrun.
  set (P := λ (r : outcome (aerr VsockError.t) unit) y, y = State.Established ∧ is_done r = true ∨
         (y = State.Closed ∨ y = State.RequestSend) ∧ is_done r = false).
  change (P r (state (self s'))).
  set (s0 := mkSt (world s) _) in Hrun. assert (state (self s0) = State.Closed) by done.
  do 3 (same_step P ltac:(right; split; [left; congruence|done])).
  rewrite modify_self_bind in Hrun.
  match type of Hrun with (_ ≫= _) ?x = _ => assert (state (self x) = State.RequestSend) by done end.
  do 8 (same_step P ltac:(right; split; [right; congruence|done])).
  match type of Hrun with (if ?c then _ else _) _ = _ => destruct c end.
  - do 2 (same_step P ltac:(right; split; [right; congruence|done])).
    injection Hrun as <- <-. by left.
  - injection Hrun as <- <-. right. split; [right; congruence|done].
Qed.

Lemma down_same {A} (m : M (St D) (aerr VsockError.t) A) : keeps Same m → keeps Down m.
Proof. intros Hm s r s' E. left. by eapply Hm. Qed.

Lemma down_reset : keeps Down reset.
Proof.
  intros s r s' E. destruct (decide (state (self s) = State.Closing)) as [Hc|Hc].
  - unfold same_stream, state_down. destruct (reset_state _ _ _ Hc E) as [|[]]; rewrite Hc; tauto.
  - unfold reset in E. rewrite getS_bind, decide_False in E by done. injection E as <- <-. by left.
Qed.

Lemma shutdown_listening s r s' :
  state (self s) = State.Listening → shutdown s = (r, s') → state (self s') = State.Closed ∧ is_done r = true.
Proof.
  intros Hst. unfold shutdown. rewrite getS_bind, decide_True by done.
  rewrite modify_self_bind. by intros [= <- <-].
Qed.

Lemma shutdown_other s r s' :
  state (self s) ≠ State.Listening → state (self s) ≠ State.Established → shutdown s = (r, s') →
  r = Err (Failed VsockError.Illegal) ∧ s' = s.
Proof.
  intros H1 H2. unfold shutdown. rewrite getS_bind, !decide_False by done. by intros [= <- <-].
Qed.

Lemma down_shutdown : keeps Down shutdown.
Proof.
  intros s r s' E. unfold same_stream, state_down.
  destruct (decide (state (self s) = State.Listening)) as [Hl|Hl].
  { destruct (shutdown_listening _ _ _ Hl E) as [-> _]. tauto. }
  destruct (decide (state (self s) = State.Established)) as [He|He].
  - destruct (shutdown_state _ _ _ He E) as [[-> _]|[->|[-> _]]]; rewrite He; tauto.
  - destruct (shutdown_other _ _ _ Hl He E) as [_ ->]. tauto.
Qed.

Lemma down_recv_packet_connected : keeps Down recv_packet_connected.
Proof.
  unfold recv_packet_connected. keeps_auto;
    try first [apply down_reset|apply down_shutdown
              |apply down_same; first [apply same_recv_data|apply same_credit_update|by apply keeps_modify_self]].
Qed.

Lemma down_wait_data fuel : keeps Down (wait_data fuel).
Proof. induction fuel; cbn [wait_data]; keeps_auto; apply down_recv_packet_connected. Qed.

Lemma down_wait_space fuel : keeps Down (wait_space fuel).
Proof. induction fuel; cbn [wait_space]; keeps_auto; apply down_recv_packet_connected. Qed.

Lemma down_send_loop fuel buf sent : keeps Down (send_loop fuel buf sent).
Proof.
  revert sent. induction fuel; intros; cbn [send_loop]; keeps_auto; [apply (down_wait_space (S fuel))|].
  unfold send_chunk. apply down_same. keeps_auto; [apply same_send_pkt|by apply keeps_modify_self].
Qed.

Lemma down_established st st' : state_down st st' → state st = State.Established →
  state st' = State.Established ∨ state st' = State.Closing ∨ state st' = State.Closed.
Proof. unfold state_down. intuition congruence. Qed.

Lemma down_send fuel buf : keeps Down (send fuel buf).
Proof. unfold send. keeps_auto. apply down_send_loop. Qed.

Lemma down_recv fuel buf : keeps Down (recv fuel buf).
Proof.
  unfold recv. keeps_auto; [apply down_wait_data|]. apply down_same. by apply keeps_modify_self.
Qed.

(** Outside its states an operation changes nothing. *)
Lemma not_permitted o s :
  permitted o (state (self s)) = false → run_op o s = (Err (Failed VsockError.Illegal), s).
Proof.
  intros Hp. destruct o; cbn [permitted run_op] in *; try done;
    unfold listen, accept, connect, shutdown, send, recv;
    cbv [mbind M_bind getS]; destruct (state (self s)); done.
Qed.

Lemma keeps_unit {A} R `{!PreOrder R} (m : M (St D) (aerr VsockError.t) A) :
  keeps R m → keeps R (_ ← m; mret tt).
Proof. intros. keeps_auto. Qed.

Lemma permitted_step o s r s' :
  permitted o (state (self s)) = true → run_op o s = (r, s') →
  leads_to o (state (self s)) (state (self s')) (is_done r).
Proof.
  destruct o as [a|b| |a| |f b|f b]; cbn [run_op permitted leads_to]; intros Hp E.
  - assert (keeps Same (bind a)) as K
      by (unfold bind; keeps_auto; by apply keeps_modify_self). exact (K _ _ _ E).
  - destruct (state (self s)) eqn:Hs; try done. unfold listen in E.
    rewrite getS_bind, decide_True in E by done. rewrite modify_self_bind in E.
    by injection E as <- <-.
  - pose proof (keeps_unit _ _ same_accept) as K. exact (K _ _ _ E).
  - destruct (state (self s)) eqn:Hs; try done. by apply (connect_state a s).
  - case_decide as Hd; [by apply (shutdown_listening s)|].
    apply (shutdown_state s); [by destruct (state (self s))|done].
  - pose proof (keeps_unit _ _ (down_send f b)) as K. apply K in E.
    apply (down_established _ _ E). by destruct (state (self s)).
  - pose proof (keeps_unit _ _ (down_recv f b)) as K. apply K in E.
    apply (down_established _ _ E). by destruct (state (self s)).
Qed.

End life.

(** ** Ports *)

Lemma next_free_port_spec fuel used p :
  (size (filter (λ q : Z, (p <= q)%Z) used) < fuel)%nat →
  match next_free_port fuel used p with
  | Some q => p <= q ∧ q ∉ used ∧ (∀ x, p <= x < q → x ∈ used)
  | None => ∀ x, p <= x < 2 ^ 32 → x ∈ used
  end.
Proof.
  revert p. induction fuel as [|fuel IH]; intros p Hf; [lia|]. cbn [next_free_port].
  case_decide as Hp; [|split; [lia|]; split; [done|]; lia].
  destruct (checked_add 32 p 1) as [p'|] eqn:E; cbn [mbind option_bind].
  2:{ apply checked_add_None in E. intros x Hx. assert (x = p) as -> by lia. done. }
  apply checked_add_Some in E as [-> _].
  assert (size (filter (λ q : Z, (p + 1 <= q)%Z) used) < fuel)%nat as Hf'.
  { assert (filter (λ q, p + 1 <= q) used ⊂ filter (λ q, p <= q) used) as Hs%subset_size; [|lia].
    split; [set_solver by lia|]. intros Hs. assert (p ∈ filter (λ q, p + 1 <= q) used) as Hin by set_solver by lia.
    apply elem_of_filter in Hin. lia. }
  specialize (IH (p + 1) Hf'). destruct (next_free_port fuel used (p + 1)) as [q|].
  - destruct IH as (H1 & H2 & H3). split; [lia|]. split; [done|]. intros x Hx.
    destruct (decide (x = p)) as [->|]; [done|]. apply H3. lia.
  - intros x Hx. destruct (decide (x = p)) as [->|]; [done|]. apply IH. lia.
Qed.

Lemma get_unused_port_spec {D} (w : World D) :
  match get_unused_port w with
  | (Ok (Some p), w') =>
      UNUSED_PORT_COUNTER w < p ∧ p ∉ USED_PORT w ∧
      (∀ x, UNUSED_PORT_COUNTER w < x < p → x ∈ USED_PORT w) ∧
      w' = set_ports p ({[p]} ∪ USED_PORT w) w
  | (Ok None, w') => w' = w ∧ ∀ x, UNUSED_PORT_COUNTER w < x < 2 ^ 32 → x ∈ USED_PORT w
  | _ => False
  end.
Proof.
  unfold get_unused_port. rewrite getS_bind.
  destruct (checked_add 32 (UNUSED_PORT_COUNTER w) 1) as [p0|] eqn:E; cbn [mbind option_bind].
  2:{ apply checked_add_None in E. split; [done|]. intros x Hx. lia. }
  apply checked_add_Some in E as [-> _].
  pose proof (next_free_port_spec (S (size (USED_PORT w))) (USED_PORT w) (UNUSED_PORT_COUNTER w + 1)) as Hn.
  match type of Hn with ?a → _ => assert a as Ha by (apply Nat.lt_succ_r, subseteq_size; set_solver) end.
  specialize (Hn Ha). destruct (next_free_port _ _ _) as [p|].
  - destruct Hn as (H1 & H2 & H3). cbv [mbind M_bind modifyS mret M_ret]. split; [lia|]. split; [done|].
    split; [|done]. intros x Hx. apply H3. lia.
  - split; [done|]. intros x Hx. apply Hn. lia.
Qed.

(** ** Transports that deliver bare headers

    A transport whose [dequeue] only ever returns buffers of exactly one header:
    [Packet::new_checked] rejects a bare header that announces data, so such a
    transport never delivers any. *)

Class HeaderOnlyTransport (D : Type) `{VsockTransport D} := {
  wf_world : World D → Prop;
  wf_enqueue : ∀ a c h d w r w', vsock_transport_enqueue a c h d w = (r, w') → wf_world w → wf_world w';
  wf_dequeue : ∀ a c w r w', vsock_transport_dequeue a c w = (r, w') → wf_world w →
    wf_world w' ∧ ∀ b, r = Ok b → lenz b = HEADER_LEN;
  wf_conn_delete : ∀ k w, wf_world w → wf_world (set_conn (delete k) w);
  wf_bind_delete : ∀ k w, wf_world w → wf_world (set_bind (delete k) w) }.

Section header_only.
Context {D : Type} `{HeaderOnlyTransport D}.

Definition no_data (s : St D) : Prop := wf_world (world s) ∧ data_queue (self s) = [].
Definition stays_empty (s s' : St D) : Prop := no_data s → no_data s'.

#[global] Instance stays_empty_preorder : PreOrder stays_empty.
Proof. split; unfold stays_empty; [by intros ?|]. intros s1 s2 s3. tauto. Qed.

Lemma empty_modify_self f :
  (∀ st, data_queue (f st) = data_queue st) → keeps stays_empty (modify_self (D := D) f).
Proof. intros Hf. apply keeps_modifyS. intros s [Hw Hq]. split; [done|]. simpl. by rewrite Hf. Qed.

Lemma empty_modify_world f :
  (∀ w, wf_world w → wf_world (f w)) → keeps stays_empty (modify_world (D := D) f).
Proof. intros Hf. apply keeps_modifyS. intros s [Hw Hq]. split; [by apply Hf|done]. Qed.

Lemma dequeue_header (s : St D) r s' : dequeue s = (r, s') → no_data s →
  no_data s' ∧ ∀ b, r = Ok b → lenz b = HEADER_LEN.
Proof.
  unfold dequeue. rewrite getS_bind. unfold on_world.
  destruct (vsock_transport_dequeue _ _ _) as [r1 w] eqn:E. intros [= <- <-] [Hw Hq].
  destruct (wf_dequeue _ _ _ _ _ E Hw) as [Hw' Hb]. split; [done|].
  destruct r1 as [b'|[]|]; cbn [map_transport]; try done. intros b [= <-]. by apply Hb.
Qed.

Lemma empty_dequeue : keeps stays_empty (dequeue (D := D)).
Proof. intros s r s' E Hs. by eapply dequeue_header. Qed.

Lemma empty_send_pkt hdr data : keeps stays_empty (send_vsock_pkt (D := D) hdr data).
Proof.
  unfold send_vsock_pkt. keeps_auto; [by apply empty_modify_self|]. intros s r s'. unfold on_world.
  destruct (vsock_transport_enqueue _ _ _ _ _) as [r1 w] eqn:E. intros [= _ <-] [Hw Hq].
  split; [by eapply wf_enqueue|done].
Qed.

Lemma empty_credit_update : keeps stays_empty (send_credit_update (D := D)).
Proof. unfold send_credit_update. keeps_auto. apply empty_send_pkt. Qed.

Lemma empty_reset : keeps stays_empty (reset (D := D)).
Proof.
  unfold reset. keeps_auto; try first [apply empty_dequeue|apply empty_send_pkt|by apply empty_modify_self].
  apply empty_modify_world. intros w. apply wf_conn_delete.
Qed.

Lemma empty_shutdown : keeps stays_empty (shutdown (D := D)).
Proof.
  unfold shutdown. keeps_auto; try first [apply empty_send_pkt|apply empty_reset|by apply empty_modify_self].
  apply empty_modify_world. intros w. apply wf_bind_delete.
Qed.

(** A bare header that passes the check announces no data. *)
Lemma checked_header_no_data b : lenz b = HEADER_LEN → packet_check b = Ok tt → ∀ n, data_len b = Some n → n <= 0.
Proof.
  intros Hl Hc n Hn. pose proof (packet_check_spec b) as P. rewrite Hc in P.
  destruct P as (_ & _ & o & n' & _ & _ & _ & Hn' & Hle). rewrite Hn in Hn'. injection Hn' as <-. lia.
Qed.

Lemma empty_recv_packet_connected : keeps stays_empty (recv_packet_connected (D := D)).
Proof.
  intros s r s' E Hs. unfold recv_packet_connected in E. rewrite M_bind_eq in E.
  destruct (dequeue s) as [[b|e|] s1] eqn:Ed;
    destruct (dequeue_header _ _ _ Ed Hs) as [H1 Hb]; [|by injection E as <- <-..].
  specialize (Hb b eq_refl). rewrite M_bind_eq in E. unfold checked, new_checked in E.
  destruct (packet_check b) as [[]|e|] eqn:Ec; cbn [mbind outcome_bind] in E; [|by injection E as <- <-..].
  pose proof (checked_header_no_data b Hb Ec) as Hn. clear Ec Ed Hs s.
  revert H1. change (stays_empty s1 s'). revert E. generalize s1 r s'. clear s1 r s'.
  match goal with |- ∀ s1 r s', ?m s1 = _ → _ => change (keeps stays_empty m) end.
  keeps_auto; try first [by apply empty_modify_self|apply empty_shutdown|apply empty_reset|apply empty_credit_update].
  exfalso. match goal with
  | Hd : data_len b = Some ?n, Hlt : (0 <? ?n) = true |- _ => apply Hn in Hd; apply Z.ltb_lt in Hlt; lia
  end.
Qed.

Lemma empty_wait_data fuel (s : St D) r s' : wait_data fuel s = (r, s') → no_data s → r ≠ Ok tt.
Proof.
  revert s. induction fuel as [|f IH]; intros s; cbn [wait_data].
  - by intros [= <- <-].
  - rewrite getS_bind. intros E Hs. rewrite decide_True in E by apply Hs. rewrite M_bind_eq in E.
    destruct (recv_packet_connected s) as [[]s1] eqn:Er; [|by injection E as <- <-..].
    eapply IH; [exact E|]. by eapply empty_recv_packet_connected.
Qed.

Lemma recv_never_Ok fuel buf (s : St D) r s' :
  no_data s → recv fuel buf s = (r, s') → ∀ x, r ≠ Ok x.
Proof.
  intros Hs. unfold recv. rewrite getS_bind. case_decide; [|by intros [= <- <-]].
  rewrite M_bind_eq. destruct (wait_data fuel s) as [[[]|e|] s1] eqn:E; [|by intros [= <- <-]..].
  by destruct (empty_wait_data _ _ _ _ E Hs).
Qed.

End header_only.

(** ** A scripted transport

    The packets the peer will send are listed in advance; used to run the
    stream operations on concrete inputs. *)

Record Script := mkScript { outbox : list (bytes * bytes); inbox : list bytes }.

Definition script_dequeue : M (World Script) (aerr VsockTransportError.t) bytes :=
  w ← getS;
  match inbox (device w) with
  | [] => failM Pending
  | b :: rest => _ ← modifyS (set_device (mkScript (outbox (device w)) rest)); mret b
  end.

Definition script_enqueue (h d : bytes) : M (World Script) (aerr VsockTransportError.t) Z :=
  w ← getS;
  _ ← modifyS (set_device (mkScript (outbox (device w) ++ [(h, d)]) (inbox (device w))));
  mret (lenz d).

#[global] Instance script_transport : VsockTransport Script := {
  MAX_VSOCK_PKT_DATA_LEN := 0x10000;
  vsock_transport_get_cid := mret 3;
  vsock_transport_enqueue := λ _ _ h d, script_enqueue h d;
  vsock_transport_dequeue := λ _ _, script_dequeue }.

#[global] Instance script_laws : VsockTransportLaws Script.
Proof.
  refine {| frames := outbox |}; cbn.
  - lia.
  - intros a c h d w n w'. unfold script_enqueue. cbv [mbind M_bind getS modifyS mret M_ret]. by intros [= <- <-].
  - intros a c h d w r w'. unfold script_enqueue. cbv [mbind M_bind getS modifyS mret M_ret].
    intros [= <- <-]. by right.
  - intros a c w r w'. unfold script_dequeue. cbv [mbind M_bind getS modifyS mret M_ret failM].
    destruct (inbox (device w)) eqn:E; by intros [= <- <-].
Defined.

(** An established stream between ports 40001 and 1234. *)
Definition demo_pair : VsockAddrPair := mkPair (mkAddr 3 40001) (mkAddr 2 1234).
Definition demo_stream (queue : list bytes) : VsockStream :=
  mkStream State.Established 0 0 demo_pair queue 0 0 0 0 3.
Definition demo_st (queue : list bytes) (incoming : list bytes) : St Script :=
  mkSt (mkWorld {[demo_pair := []]} ∅ 40001 {[40001]} (mkScript [] incoming)) (demo_stream queue).

(** A credit update that opens the window. *)
Definition demo_credit : bytes := wire_header (mkHeader 2 3 1234 40001 OP_CREDIT_UPDATE 0 0 3 8).

(** ** Properties *)

(** (invariant). Over any transport, an operation of a stream called outside
    the states it is permitted in returns [Illegal] and changes nothing; in a
    permitted state it moves the stream only along the life cycle closed →
    listening → closed and closed → request sent → established → closing →
    closed, and [connect] returns [Ok] exactly when the stream is established.
    In particular nothing but [bind] is permitted once a stream is closing or a
    [connect] has failed after the request was sent. *)
Theorem stream_life_cycle {D} `{VsockTransport D} (o : api_op) (s : St D) :
  let '(r, s') := run_op o s in
  if permitted o (state (self s))
  then leads_to o (state (self s)) (state (self s')) (is_done r)
  else r = Err (Failed VsockError.Illegal) ∧ s' = s.
Proof.
  destruct (run_op o s) as [r s'] eqn:E. destruct (permitted o (state (self s))) eqn:Hp.
  - by eapply permitted_step.
  - rewrite not_permitted in E by done. by simplify_eq.
Qed.

(** [recv] delivers the received bytes in order, without loss
    or duplication: it fills the caller's buffer with the next bytes of the
    stream (those queued before, then those that arrived while it waited), as
    many as fit, and exactly the remaining bytes stay queued. *)
Theorem recv_delivers_in_order {D} `{VsockTransport D} fuel buf (s s' : St D) n buf' :
  recv fuel buf s = (Ok (n, buf'), s') →
  ∃ arrived,
    let pending := concat (data_queue (self s)) ++ concat arrived in
    n = Z.min (lenz buf) (lenz pending) ∧
    buf' = take (Z.to_nat n) pending ++ drop (Z.to_nat n) buf ∧
    concat (data_queue (self s')) = drop (Z.to_nat n) pending ∧
    (data_queue (self s) ≠ [] → arrived = []) ∧ (Forall (.≠ []) (data_queue (self s)) → buf ≠ [] → 0 < n).
Proof.
  unfold recv. rewrite getS_bind. case_decide; [|done].
  intros ([] & s1 & Hw & Hk)%M_bind_Ok_inv. rewrite getS_bind in Hk.
  pose proof (wait_data_nonempty _ _ _ Hw) as Hne.
  assert (data_queue (self s) ≠ [] → s1 = s) as Hsame.
  { intros Hq. destruct fuel; cbn [wait_data] in Hw; [done|]. rewrite getS_bind, decide_False in Hw by done. by injection Hw. }
  destruct (queue_wait_data _ _ _ _ Hw) as (arr & Hq & Harr).
  destruct (copy_out_spec (data_queue (self s1)) buf 0) as ([[b q] u] & Hc & Hu & Hb & Hrest & Hnn);
    [unfold lenz; lia|].
  rewrite Hc, or_panic_bind, modify_self_bind in Hk. injection Hk as -> -> <-.
  rewrite Z.sub_0_r, Hq, concat_app in *. exists arr. cbv zeta.
  split; [lia|]. split; [done|]. split; [done|]. split.
  - intros Hs. rewrite (Hsame Hs) in Hq. apply (f_equal length) in Hq. rewrite length_app in Hq.
    destruct arr; [done|simpl in Hq; lia].
  - intros Hall Hbuf. assert (Forall (.≠ []) (data_queue (self s) ++ arr)) as HF by (by apply Forall_app).
    destruct (data_queue (self s) ++ arr) as [|x l] eqn:E; [done|].
    assert (concat (data_queue (self s)) ++ concat arr = concat (x :: l)) as Ec
      by (rewrite <-E; symmetry; apply concat_app). rewrite Ec in Hu.
    apply Forall_inv in HF. destruct x; [done|]. destruct buf; [done|].
    cbn [concat] in Hu. rewrite lenz_app, !lenz_cons in Hu. unfold lenz in Hu. lia.
Qed.

Lemma recv_delivers_in_order_witness :
  ∃ s', recv 1 [0; 0; 0] (demo_st [[1; 2]; [3; 4]] []) = (Ok (3, [1; 2; 3]), s') ∧
        concat (data_queue (self s')) = [4].
Proof.
  eexists. split; [vm_compute; reflexivity|].
  edestruct (recv_delivers_in_order (D := Script) 1 [0; 0; 0] (demo_st [[1; 2]; [3; 4]] []))
    as (arr & _ & _ & H & Ha & _); [vm_compute; reflexivity|].
  rewrite H, Ha; [vm_compute; reflexivity|done].
Defined.

(** [send] hands the transport a sequence of frames of which
    the data parts, in order, are a prefix of the caller's buffer, and the whole
    buffer when it returns [Ok]; every data frame is non-empty, at most one
    maximal packet long and announces its length in an [OP_RW] header, and the
    last one keeps the bytes in flight within the credit the peer advertised. *)
Theorem send_fragments {D} `{VsockTransportLaws D} fuel buf (s s' : St D) r :
  send fuel buf s = (r, s') →
  ∃ l, log s' = log s ++ l ∧ Forall frame_ok l ∧ frame_data l `prefix_of` buf ∧
    (∀ n, r = Ok n → n = lenz buf ∧ frame_data l = buf ∧ (buf ≠ [] → within_credit (self s'))).
Proof.
  unfold send. rewrite getS_bind. case_decide.
  2:{ intros [= <- <-]. exists []. rewrite app_nil_r. repeat split; try done. apply prefix_nil. }
  rewrite M_bind_eq. destruct (send_loop fuel buf 0 s) as [r1 s1] eqn:E. intros Hr.
  assert (s1 = s') as -> by (destruct r1; by injection Hr).
  destruct (send_loop_inv fuel buf 0 s r1 s') as (l & Hl & Hf & Hp & Hd); [unfold lenz; lia|done|].
  exists l. split; [done|]. split; [done|]. split; [done|].
  intros n ->. destruct r1; [|done..]. injection Hr as <-.
  split; [done|]. by apply Hd.
Qed.

Lemma send_fragments_witness :
  ∃ s', send 6 [1; 2; 3; 4; 5] (demo_st [] [demo_credit]) = (Ok 5, s') ∧
        ∃ l, log s' = [] ++ l ∧ frame_data l = [1; 2; 3; 4; 5].
Proof.
  eexists. split; [vm_compute; reflexivity|].
  edestruct (send_fragments (D := Script) 6 [1; 2; 3; 4; 5] (demo_st [] [demo_credit]))
    as (l & Hl & _ & _ & H); [vm_compute; reflexivity|].
  exists l. split; [exact Hl|]. destruct (H 5 eq_refl) as (_ & Hd & _). exact Hd.
Defined.

(** When the peer's credit covers the buffer, the transport
    takes every well-sized frame and the 32-bit count of sent bytes does not
    overflow, [send] returns after at most one packet per byte and reports the
    whole buffer as sent. *)
Theorem send_completes {D} `{VsockTransportLaws D} fuel buf (s : St D) :
  ready_transport (D := D) →
  state (self s) = State.Established →
  lenz buf <= peer_free_space (self s) →
  0 <= tx_cnt (self s) ∧ tx_cnt (self s) + lenz buf < 2 ^ 32 →
  lenz buf < Z.of_nat fuel →
  ∃ s', send fuel buf s = (Ok (lenz buf), s') ∧ tx_cnt (self s') = tx_cnt (self s) + lenz buf.
Proof.
  intros HR Hst Hp Htx Hf. unfold send. rewrite getS_bind, decide_True by done.
  destruct (send_loop_complete fuel buf 0 s HR) as (s1 & E & Ht); [unfold lenz; lia|lia..|].
  rewrite M_bind_eq, E. eexists. split; [done|]. lia.
Qed.

Lemma send_completes_witness :
  ∃ s', send 4 [7; 8; 9] (demo_st [] []) = (Ok 3, s') ∧ tx_cnt (self s') = 3.
Proof.
  apply (send_completes (D := Script) 4 [7; 8; 9] (demo_st [] []));
    [|reflexivity|vm_compute; congruence|vm_compute; intuition congruence|reflexivity].
  intros a c h d w _ _. eexists. reflexivity.
Defined.

