(* ===== verification/VsockVmcall.v ===== *)
(** * VsockVmcall: the VMCALL transport of the vsock device

    src/devices/vsock/src/transport/vmcall.rs.  The VMM is a script: what the
    shared-memory allocator answers, what [tdvmcall_service] returns and the
    content of the shared response page at each poll, all chosen by the host. *)
From stdpp Require Import base tactics numbers list list_numbers option gmap countable.
From S2P Require Import Prelude VirtQueue Vsock VsockStream.
Local Open Scope Z_scope.

(** ** Constants *)

Definition CURRENT_VERSION : Z := 0.
Definition COMMAND_SEND : Z := 3.
Definition COMMAND_RECV : Z := 4.
Definition MAX_VSOCK_MTU : Z := 0x1000 * 16.
Definition VMCALL_COMMON_HEADER_LEN : Z := 36.
Definition VMCALL_STATUS_RESERVED : Z := 0xffffffff.
Definition VMCALL_REPLY_DATA_HEADER_LEN : Z := 12.
Definition VMCALL_MAX_PKT_DATA_LEN : Z := MAX_VSOCK_MTU - VMCALL_COMMON_HEADER_LEN - HEADER_LEN.

Definition VMCALL_SERVICE_MIGTD_GUID `{GuidBytes} : bytes :=
  guid_as_bytes 0xe60e6330 0x1e09 0x4387 [0xa4; 0x44; 0x8f; 0x32; 0xb8; 0xd6; 0x11; 0xe5].

(** ** Command and response pages *)

Module Command.
Record t := mk { data : bytes; offset : Z }.

Definition COMMAND_HEADER_LENGTH : Z := 24.

(** [None]: the page is too small; the copies inside a page of that size cannot abort. *)
Definition new (page guid : bytes) : outcome unit t :=
  if lenz page <? COMMAND_HEADER_LENGTH then Err tt
  else
    d ← panic_or (write_at (zeros (lenz page)) 0 guid);
    d ← panic_or (write_at d 16 (le_bytes 4 24));
    d ← panic_or (write_at d 20 (le_bytes 4 0));
    Ok (mk d 24).

(** Appends [bs] and updates the length field; aborts when the page is full. *)
Definition write (bs : bytes) (c : t) : outcome unit t :=
  d ← panic_or (write_at (data c) (offset c) bs);
  let off := offset c + lenz bs in
  d ← panic_or (write_at d 16 (le_bytes 4 (as_u 32 off)));
  Ok (mk d off).
End Command.

Module Response.
Definition RESPONSE_HDR_LEN : Z := 24.

(** [Response::fill]: the page as it is handed to the VMM. *)
Definition fill (page guid : bytes) : outcome unit bytes :=
  if lenz page <? RESPONSE_HDR_LEN then Err tt
  else
    d ← panic_or (write_at (zeros (lenz page)) 0 guid);
    d ← panic_or (write_at d 16 (le_bytes 4 (as_u 32 (lenz page))));
    d ← panic_or (write_at d 20 (le_bytes 4 VMCALL_STATUS_RESERVED));
    Ok d.

(** [Response::new]: the part of the page the length field covers. *)
Definition new (page : bytes) : outcome unit bytes :=
  if lenz page <? RESPONSE_HDR_LEN then Err tt
  else
    l ← panic_or (slice page 16 20);
    let len := le_val l in
    if (len <? RESPONSE_HDR_LEN) || (lenz page <? len) then Err tt
    else panic_or (slice page 0 len).

Definition guid (r : bytes) : option bytes := slice r 0 16.
Definition status (r : bytes) : option Z := le_val <$> slice r 20 24.
Definition data (r : bytes) : option bytes := slice r RESPONSE_HDR_LEN (lenz r).
End Response.

(** [for &bytes in data { command.write(bytes) }] *)
Fixpoint write_all (l : list bytes) (c : Command.t) : outcome unit Command.t :=
  match l with
  | [] => Ok c
  | b :: l => c ← Command.write b c; write_all l c
  end.

Definition map_unit {A} (e : VsockTransportError.t) (r : outcome unit A) : outcome VsockTransportError.t A :=
  match r with Ok a => Ok a | Err _ => Err e | Panic => Panic end.

Section vmcall.
Context `{GuidBytes}.

(** The page after [set_command]. *)
Definition set_command (page : bytes) (cmd : Z) (data : list bytes) (mid : Z) : outcome VsockTransportError.t bytes :=
  map_unit VsockTransportError.InvalidParameter (
    c ← Command.new page VMCALL_SERVICE_MIGTD_GUID;
    c ← Command.write [0] c;
    c ← Command.write [cmd] c;
    c ← Command.write [0; 0] c;
    c ← Command.write (le_bytes 8 mid) c;
    c ← write_all data c;
    Ok (Command.data c)).

Definition set_response (page : bytes) : outcome VsockTransportError.t bytes :=
  map_unit VsockTransportError.InvalidParameter (Response.fill page VMCALL_SERVICE_MIGTD_GUID).

(** The sanity check of a completed reply. *)
Definition reply_sane (reply : bytes) (cmd mid : Z) : outcome VsockTransportError.t bool :=
  d ← panic_or (Response.data reply);
  if lenz d <? VMCALL_REPLY_DATA_HEADER_LEN then Ok false else
  g ← panic_or (Response.guid reply);
  if negb (bool_decide (g = VMCALL_SERVICE_MIGTD_GUID)) then Ok false else
  st ← panic_or (Response.status reply);
  if negb (st =? 0) then Ok false else
  v ← panic_or (nthz d 0);
  if negb (v =? CURRENT_VERSION) then Ok false else
  c ← panic_or (nthz d 1);
  if negb (c =? cmd) then Ok false else
  m ← panic_or (slice d 4 VMCALL_REPLY_DATA_HEADER_LEN);
  Ok (le_val m =? mid).

End vmcall.

(** ** The VMM *)

Record VmmCall := mkCall {
  call_result : option Z;  (** the [TdVmcallError] of [tdvmcall_service], if any *)
  call_polls : list bytes  (** the response page at each poll *) }.

Record Vmm := mkVmm {
  vmm_alloc : list bool;         (** answers of [SharedMemory::new] *)
  vmm_script : list VmmCall;
  vmm_commands : list bytes      (** the command pages handed over so far *) }.

Notation TM := (M (World Vmm) (aerr VsockTransportError.t)).

Definition fail {D A} (e : VsockTransportError.t) : M (World D) (aerr VsockTransportError.t) A := failM (Failed e).

Definition liftT {D A} (r : outcome VsockTransportError.t A) : M (World D) (aerr VsockTransportError.t) A :=
  λ w, (match r with Ok a => Ok a | Err e => Err (Failed e) | Panic => Panic end, w).

(** [SharedMemory::new(pages)]: zeroed shared pages, or [None]. *)
Definition shared_memory (pages : Z) : TM bytes :=
  w ← getS;
  match vmm_alloc (device w) with
  | true :: rest =>
      _ ← modifyS (set_device (mkVmm rest (vmm_script (device w)) (vmm_commands (device w))));
      mret (zeros (pages * PAGE_SIZE))
  | false :: rest =>
      _ ← modifyS (set_device (mkVmm rest (vmm_script (device w)) (vmm_commands (device w))));
      fail VsockTransportError.DmaAllocation
  | [] => fail VsockTransportError.DmaAllocation
  end.

(** [tdx::tdvmcall_service]: the command page is handed to the VMM; the result
    is the sequence of contents the response page will show. *)
Definition tdvmcall_service (command response : bytes) : TM (list bytes) :=
  w ← getS;
  match vmm_script (device w) with
  | c :: rest =>
      _ ← modifyS (set_device (mkVmm (vmm_alloc (device w)) rest (vmm_commands (device w) ++ [command])));
      match call_result c with
      | Some e => fail (VsockTransportError.Vmcall e)
      | None => mret (fit (lenz response) <$> call_polls c)
      end
  | [] =>
      _ ← modifyS (set_device (mkVmm (vmm_alloc (device w)) [] (vmm_commands (device w) ++ [command])));
      failM Pending
  end.

(** ** Packet queues *)

Definition push_queues {D} (addrs : VsockAddrPair) (buf : bytes) (w : World D) : World D :=
  match buf with
  | [] => w
  | _ =>
      match CONNECTION_PKT_QUEUES w !! addrs with
      | Some q => set_conn (insert addrs (q ++ [buf])) w
      | None =>
          match BINDING_PKT_QUEUES w !! local addrs with
          | Some q => set_bind (insert (local addrs) (q ++ [buf])) w
          | None => w
          end
      end
  end.

Definition pop_queues {D} (addrs : VsockAddrPair) (w : World D) : option bytes * World D :=
  match CONNECTION_PKT_QUEUES w !! addrs with
  | Some [] => (None, w)
  | Some (b :: q) => (Some b, set_conn (insert addrs q) w)
  | None =>
      match BINDING_PKT_QUEUES w !! local addrs with
      | Some [] | None => (None, w)
      | Some (b :: q) => (Some b, set_bind (insert (local addrs) q) w)
      end
  end.

Definition push_stream_queues (addrs : VsockAddrPair) (buf : bytes) : TM unit :=
  modifyS (push_queues addrs buf).

Definition pop_stream_queues (addrs : VsockAddrPair) : TM (option bytes) :=
  λ w, let '(r, w') := pop_queues addrs w in (Ok r, w').

(** [Packet::new_checked(..).map_err(|_| InvalidVsockPacket)] *)
Definition checked_header (buf : bytes) : outcome VsockTransportError.t bytes :=
  match new_checked buf with
  | Ok p => Ok p
  | Err _ => Err VsockTransportError.InvalidVsockPacket
  | Panic => Panic
  end.

(** The key of the queue a packet belongs to. *)
Definition packet_key (hdr : bytes) : option VsockAddrPair :=
  dc ← dst_cid hdr; dp ← dst_port hdr; sc ← src_cid hdr; sp ← src_port hdr;
  Some (mkPair (VsockAddr_new (as_u 32 dc) dp) (VsockAddr_new (as_u 32 sc) sp)).

Definition recv_packet (pkt : bytes) : TM unit :=
  if lenz pkt <? HEADER_LEN then fail VsockTransportError.InvalidVsockPacket else
  header ← or_panic (slice pkt 0 HEADER_LEN);
  packet_hdr ← liftT (checked_header header);
  n ← or_panic (data_len packet_hdr);
  data ← (if negb (n =? 0) then
            if lenz pkt - HEADER_LEN <? n then fail VsockTransportError.InvalidParameter
            else or_panic (slice pkt HEADER_LEN (HEADER_LEN + n))
          else mret []);
  key ← or_panic (packet_key packet_hdr);
  _ ← push_stream_queues key header;
  push_stream_queues key data.

(** ** Send and receive *)

Section transport.
Context `{GuidBytes}.

(** The [poll_fn] of a send: [data_len] is returned when the reply is sane. *)
Fixpoint poll_send (polls : list bytes) (mid n : Z) : TM Z :=
  match polls with
  | [] => failM Pending
  | page :: polls =>
      reply ← liftT (map_unit VsockTransportError.InvalidParameter (Response.new page));
      st ← or_panic (Response.status reply);
      if st =? VMCALL_STATUS_RESERVED then poll_send polls mid n
      else
        ok ← liftT (reply_sane reply COMMAND_SEND mid);
        if negb ok then fail VsockTransportError.InvalidParameter else mret n
  end.

Definition vmcall_service_migtd_send (command response header data : bytes) (mid : Z) : TM Z :=
  command ← liftT (set_command command COMMAND_SEND [header; data] mid);
  response ← liftT (set_response response);
  polls ← tdvmcall_service command response;
  poll_send polls mid (lenz data).

Fixpoint poll_receive (polls : list bytes) (addrs : VsockAddrPair) (mid : Z) : TM bytes :=
  match polls with
  | [] => failM Pending
  | page :: polls =>
      reply ← liftT (map_unit VsockTransportError.InvalidParameter (Response.new page));
      st ← or_panic (Response.status reply);
      if st =? VMCALL_STATUS_RESERVED then poll_receive polls addrs mid
      else
        ok ← liftT (reply_sane reply COMMAND_RECV mid);
        if negb ok then fail VsockTransportError.InvalidParameter
        else
          d ← or_panic (Response.data reply);
          pkt ← or_panic (slice d VMCALL_REPLY_DATA_HEADER_LEN (lenz d));
          _ ← recv_packet pkt;
          r ← pop_stream_queues addrs;
          ok_or r (Failed VsockTransportError.InvalidVsockPacket)
  end.

Definition vmcall_service_migtd_receive (command response : bytes) (addrs : VsockAddrPair) (mid : Z) : TM bytes :=
  command ← liftT (set_command command COMMAND_RECV [] mid);
  response ← liftT (set_response response);
  polls ← tdvmcall_service command response;
  poll_receive polls addrs mid.

Definition vmcall_enqueue (ctx : Z) (hdr buf : bytes) : TM Z :=
  if negb (lenz hdr =? HEADER_LEN) || (VMCALL_MAX_PKT_DATA_LEN <? lenz buf) then
    fail VsockTransportError.InvalidParameter
  else
    let command_pages := vsock_align_up (VMCALL_COMMON_HEADER_LEN + lenz hdr + lenz buf) / PAGE_SIZE in
    command ← shared_memory command_pages;
    response ← shared_memory (vsock_align_up VMCALL_COMMON_HEADER_LEN / PAGE_SIZE);
    vmcall_service_migtd_send command response hdr buf ctx.

Definition vmcall_dequeue (addrs : VsockAddrPair) (ctx : Z) : TM bytes :=
  r ← pop_stream_queues addrs;
  match r with
  | Some data => mret data
  | None =>
      command ← shared_memory (vsock_align_up VMCALL_COMMON_HEADER_LEN / PAGE_SIZE);
      response ← shared_memory (MAX_VSOCK_MTU / PAGE_SIZE);
      vmcall_service_migtd_receive command response addrs ctx
  end.

Definition vmcall_get_cid : TM Z := fail VsockTransportError.InvalidParameter.

#[global] Instance vmcall_transport : VsockTransport Vmm := {
  MAX_VSOCK_PKT_DATA_LEN := VMCALL_MAX_PKT_DATA_LEN;
  vsock_transport_get_cid := vmcall_get_cid;
  vsock_transport_enqueue := λ _ ctx hdr buf, vmcall_enqueue ctx hdr buf;
  vsock_transport_dequeue := vmcall_dequeue }.

End transport.
