(* ===== verification/VsockVmcallSpec.v ===== *)
(** * VsockVmcallSpec: the VMCALL transport against an arbitrary VMM

    The command page a send or receive hands over, safety of the response
    parser, and the two transport contracts of VsockStreamSpec. *)
From stdpp Require Import base tactics numbers list list_numbers option gmap countable.
From S2P Require Import Prelude VirtQueue Vsock VsockStream VsockStreamSpec VsockVmcall.
Local Open Scope Z_scope.

(** ** Command pages *)

Section command.
Context `{GuidBytes}.

(** The page of a command: version, command code, reserved, request id, data. *)
Definition wire_command (cmd mid : Z) (data : bytes) (n : Z) : bytes :=
  page_of VMCALL_SERVICE_MIGTD_GUID ([CURRENT_VERSION; cmd; 0; 0] ++ le_bytes 8 mid ++ data) n.

Lemma length_migtd_guid : length VMCALL_SERVICE_MIGTD_GUID = 16%nat.
Proof. apply length_guid. Qed.

Notation migtd_page := (page_of VMCALL_SERVICE_MIGTD_GUID).

Lemma command_new_page n : 24 <= n →
  Command.new (zeros n) VMCALL_SERVICE_MIGTD_GUID = Ok (Command.mk (migtd_page [] n) 24).
Proof.
  intros Hn. unfold Command.new, Command.COMMAND_HEADER_LENGTH. rewrite lenz_zeros by lia.
  destruct (Z.ltb_spec n 24); [lia|]. pose proof (page_init _ length_migtd_guid n Hn) as E.
  destruct (write_at _ 0 _) as [d1|]; [|done]. cbn in E |- *.
  destruct (write_at d1 _ _) as [d2|]; [|done]. cbn in E |- *. by rewrite E.
Qed.

Lemma command_write_page body bs n :
  24 + lenz body + lenz bs <= n →
  Command.write bs (Command.mk (migtd_page body n) (24 + lenz body)) =
  Ok (Command.mk (migtd_page (body ++ bs) n) (24 + lenz (body ++ bs))).
Proof.
  intros Hn. unfold Command.write. cbn [Command.data Command.offset].
  pose proof (page_append _ length_migtd_guid body bs n Hn) as E.
  destruct (write_at _ (24 + lenz body) bs) as [d1|]; [|done]. cbn [mbind option_bind] in E.
  cbn [panic_or mbind outcome_bind]. rewrite E. cbn. by rewrite lenz_app, Z.add_assoc.
Qed.

Lemma write_all_page l body n :
  24 + lenz body + lenz (concat l) <= n →
  write_all l (Command.mk (migtd_page body n) (24 + lenz body)) =
  Ok (Command.mk (migtd_page (body ++ concat l) n) (24 + lenz (body ++ concat l))).
Proof.
  revert body. induction l as [|b l IH]; intros body Hn; cbn [write_all concat] in *.
  - by rewrite app_nil_r.
  - rewrite lenz_app in Hn. pose proof (lenz_nonneg (concat l)). pose proof (lenz_nonneg b).
    rewrite command_write_page by lia. cbn [mbind outcome_bind].
    rewrite IH by (rewrite lenz_app; lia). by rewrite <-app_assoc.
Qed.

Lemma set_command_page n cmd data mid :
  36 + lenz (concat data) <= n →
  set_command (zeros n) cmd data mid = Ok (wire_command cmd mid (concat data) n).
Proof.
  intros Hn. pose proof (lenz_nonneg (concat data)). unfold set_command.
  rewrite command_new_page by lia. cbn [mbind outcome_bind].
  change (Command.mk (migtd_page [] n) 24) with (Command.mk (migtd_page [] n) (24 + lenz (@nil Z))).
  rewrite command_write_page by (change (lenz [0]) with 1; change (lenz (@nil Z)) with 0; lia).
  cbn [mbind outcome_bind app].
  rewrite command_write_page by (unfold lenz; simpl; lia). cbn [mbind outcome_bind app].
  rewrite command_write_page by (unfold lenz; simpl; lia). cbn [mbind outcome_bind app].
  rewrite command_write_page by (unfold lenz; rewrite length_le_bytes; simpl; unfold lenz in *; lia).
  cbn [mbind outcome_bind].
  rewrite write_all_page by (unfold lenz; rewrite length_app, length_le_bytes; simpl; unfold lenz in *; lia).
  cbn [mbind outcome_bind map_unit Command.data]. unfold wire_command. by rewrite <-app_assoc.
Qed.

Lemma set_response_Ok n : 24 <= n → ∃ page, set_response (zeros n) = Ok page ∧ lenz page = n.
Proof.
  intros Hn. unfold set_response, Response.fill, Response.RESPONSE_HDR_LEN.
  rewrite lenz_zeros by lia. destruct (Z.ltb_spec n 24); [lia|].
  destruct (write_at_fits (zeros n) 0 VMCALL_SERVICE_MIGTD_GUID) as (d1 & -> & E1);
    [lia|rewrite lenz_zeros by lia; unfold lenz; rewrite length_migtd_guid; lia|].
  rewrite lenz_zeros in E1 by lia. cbn [panic_or mbind outcome_bind].
  destruct (write_at_fits d1 16 (le_bytes 4 (as_u 32 n))) as (d2 & -> & E2);
    [lia|rewrite lenz_le_bytes; lia|]. cbn [panic_or mbind outcome_bind].
  destruct (write_at_fits d2 20 (le_bytes 4 VMCALL_STATUS_RESERVED)) as (d3 & -> & E3);
    [lia|rewrite lenz_le_bytes; lia|]. cbn [panic_or mbind outcome_bind map_unit].
  exists d3. split; [done|]. lia.
Qed.

(** ** Decoding a command page, as the VMM does *)

Definition frame_of_command (page : bytes) : option (bytes * bytes) :=
  c ← nthz page 25;
  if c =? COMMAND_SEND then
    len ← le_val <$> slice page 16 20;
    h ← slice page VMCALL_COMMON_HEADER_LEN (VMCALL_COMMON_HEADER_LEN + HEADER_LEN);
    d ← slice page (VMCALL_COMMON_HEADER_LEN + HEADER_LEN) len;
    Some (h, d)
  else None.

Lemma nthz_app_r {A} (l k : list A) i : lenz l <= i → nthz (l ++ k) i = nthz k (i - lenz l).
Proof.
  unfold nthz, lenz. intros. rewrite !(proj2 (Z.leb_le 0 _)) by lia.
  rewrite lookup_app_r by lia. f_equal. lia.
Qed.

Lemma wire_command_code cmd mid data n : nthz (wire_command cmd mid data n) 25 = Some cmd.
Proof.
  unfold wire_command, page_of.
  rewrite nthz_app_r by (unfold lenz; rewrite length_migtd_guid; lia).
  rewrite nthz_app_r by (unfold lenz; rewrite length_migtd_guid, length_le_bytes; lia).
  rewrite nthz_app_r by (unfold lenz; rewrite length_migtd_guid, !length_le_bytes; lia).
  unfold lenz at 1 2 3. rewrite length_migtd_guid, !length_le_bytes. reflexivity.
Qed.

Lemma frame_of_wire_command mid h d n :
  lenz h = HEADER_LEN → lenz d <= VMCALL_MAX_PKT_DATA_LEN →
  frame_of_command (wire_command COMMAND_SEND mid (h ++ d) n) = Some (h, d).
Proof.
  intros Hh Hd. pose proof length_migtd_guid. unfold HEADER_LEN, VMCALL_MAX_PKT_DATA_LEN, MAX_VSOCK_MTU, VMCALL_COMMON_HEADER_LEN in *.
  unfold frame_of_command, VMCALL_COMMON_HEADER_LEN, HEADER_LEN. rewrite wire_command_code.
  cbn [mbind option_bind]. change (COMMAND_SEND =? COMMAND_SEND) with true. cbv iota.
  set (len := as_u 32 (24 + lenz ([CURRENT_VERSION; COMMAND_SEND; 0; 0] ++ le_bytes 8 mid ++ h ++ d))).
  assert (len = 80 + lenz d) as Hlen.
  { unfold len, as_u. rewrite !lenz_app. change (lenz [CURRENT_VERSION; COMMAND_SEND; 0; 0]) with 4.
    replace (lenz (le_bytes 8 mid)) with 8 by (unfold lenz; by rewrite length_le_bytes).
    pose proof (lenz_nonneg d). unfold HEADER_LEN in *. rewrite Z.mod_small; lia. }
  assert (wire_command COMMAND_SEND mid (h ++ d) n =
    concat [VMCALL_SERVICE_MIGTD_GUID; le_bytes 4 len; le_bytes 4 0; [CURRENT_VERSION; COMMAND_SEND; 0; 0];
            le_bytes 8 mid; h; d; zeros (n - 24 - lenz ([CURRENT_VERSION; COMMAND_SEND; 0; 0] ++ le_bytes 8 mid ++ h ++ d))]) as ->.
  { unfold wire_command, page_of. fold len. cbn [concat]. rewrite app_nil_r, <-!app_assoc. done. }
  rd_seg 1%nat page_len.
  rewrite le_val_bytes, Z.mod_small by (unfold HEADER_LEN in *; pose proof (lenz_nonneg d); lia).
  rd_seg 5%nat page_len.
  rd_seg 6%nat page_len. done.
Qed.

End command.

(** ** Parsing what the VMM wrote *)

Lemma response_new_spec page :
  match Response.new page with
  | Ok r => Response.RESPONSE_HDR_LEN <= lenz r ∧ (bytes_ok page → bytes_ok r)
  | Err _ => True
  | Panic => False
  end.
Proof.
  unfold Response.new. unfold Response.RESPONSE_HDR_LEN in *. destruct (Z.ltb_spec (lenz page) 24); [done|].
  destruct (slice_is_Some page 16 20) as [l ->]; [lia..|]. cbn [panic_or mbind outcome_bind].
  destruct (Z.ltb_spec (le_val l) 24); [done|]. destruct (Z.ltb_spec (lenz page) (le_val l)); [done|].
  cbn [orb]. destruct (slice_is_Some page 0 (le_val l)) as [r Hr]; [lia..|]. rewrite Hr. cbn [panic_or].
  split; [apply slice_Some_len in Hr; lia|]. intros Hb. by eapply slice_bytes_ok.
Qed.

Section host.
Context `{GuidBytes}.

Lemma reply_sane_spec reply cmd mid :
  Response.RESPONSE_HDR_LEN <= lenz reply →
  ∃ b, reply_sane reply cmd mid = Ok b ∧
    (b = true → ∃ d, Response.data reply = Some d ∧ VMCALL_REPLY_DATA_HEADER_LEN <= lenz d).
Proof.
  unfold Response.RESPONSE_HDR_LEN. intros Hr. unfold reply_sane, Response.data, Response.guid, Response.status.
  unfold Response.RESPONSE_HDR_LEN, VMCALL_REPLY_DATA_HEADER_LEN.
  destruct (slice_is_Some reply 24 (lenz reply)) as [d Hd]; [lia..|]. rewrite Hd. cbn [panic_or mbind outcome_bind].
  destruct (Z.ltb_spec (lenz d) 12); [by eexists|].
  destruct (slice_is_Some reply 0 16) as [g ->]; [lia..|]. cbn [panic_or mbind outcome_bind].
  destruct (negb _); [by eexists|].
  destruct (slice_is_Some reply 20 24) as [st ->]; [lia..|]. cbn [fmap option_fmap option_map panic_or mbind outcome_bind].
  destruct (negb _); [by eexists|].
  destruct (nthz_is_Some d 0) as [v ->]; [lia|]. cbn [panic_or mbind outcome_bind].
  destruct (negb _); [by eexists|].
  destruct (nthz_is_Some d 1) as [c ->]; [lia|]. cbn [panic_or mbind outcome_bind].
  destruct (negb _); [by eexists|].
  destruct (slice_is_Some d 4 12) as [m ->]; [lia..|]. cbn [panic_or mbind outcome_bind].
  eexists. split; [done|]. intros _. by exists d.
Qed.

Lemma status_Some reply : Response.RESPONSE_HDR_LEN <= lenz reply → ∃ st, Response.status reply = Some st.
Proof.
  unfold Response.status, Response.RESPONSE_HDR_LEN. intros.
  destruct (slice_is_Some reply 20 24) as [l ->]; [lia..|]. by eexists.
Qed.

(** ** Queues hold bare headers *)

Definition header_queues {D} (w : World D) : Prop :=
  (∀ k q, CONNECTION_PKT_QUEUES w !! k = Some q → Forall (λ b, lenz b = HEADER_LEN) q) ∧
  (∀ k q, BINDING_PKT_QUEUES w !! k = Some q → Forall (λ b, lenz b = HEADER_LEN) q).

Lemma header_queues_push {D} k b (w : World D) :
  b = [] ∨ lenz b = HEADER_LEN → header_queues w → header_queues (push_queues k b w).
Proof.
  intros Hb [Hc Hbd]. unfold push_queues. destruct b as [|x b]; [done|]. destruct Hb as [|Hb]; [done|].
  destruct (CONNECTION_PKT_QUEUES w !! k) as [q|] eqn:Eq;
    [|destruct (BINDING_PKT_QUEUES w !! local k) as [q|] eqn:Eb; [|done]];
    split; simpl; try done; intros k' q' Hl;
    apply lookup_insert_Some in Hl as [[<- <-]|[_ Hl]]; eauto;
    (apply Forall_app_2; [by eauto|by constructor]).
Qed.

Lemma header_queues_pop {D} k (w : World D) r w' :
  pop_queues k w = (r, w') → header_queues w →
  header_queues w' ∧ device w' = device w ∧ ∀ b, r = Some b → lenz b = HEADER_LEN.
Proof.
  intros E [Hc Hb]. unfold pop_queues in E.
  destruct (CONNECTION_PKT_QUEUES w !! k) as [[|x q]|] eqn:Eq;
    [|specialize (Hc _ _ Eq) as Hq
     |destruct (BINDING_PKT_QUEUES w !! local k) as [[|x q]|] eqn:Eb; [|specialize (Hb _ _ Eb) as Hq|]];
    injection E as <- <-; try done.
  - apply Forall_cons_1 in Hq as [Hx Hq]. split; [split; [|done]|by split; [|intros b [= <-]]].
    simpl. intros k' q' Hl. apply lookup_insert_Some in Hl as [[<- <-]|[_ Hl]]; eauto.
  - apply Forall_cons_1 in Hq as [Hx Hq]. split; [split; [done|]|by split; [|intros b [= <-]]].
    simpl. intros k' q' Hl. apply lookup_insert_Some in Hl as [[<- <-]|[_ Hl]]; eauto.
Qed.

(** What every step of the transport but the hypercall keeps: bare headers in
    the queues and the commands handed over. *)
Definition keeps_queues (w w' : World Vmm) : Prop :=
  (header_queues w → header_queues w') ∧ vmm_commands (device w') = vmm_commands (device w).

#[global] Instance keeps_queues_preorder : PreOrder keeps_queues.
Proof. split; unfold keeps_queues; [done|]. intros w1 w2 w3 [] []. split; [tauto|congruence]. Qed.

Lemma keeps_liftT {D A} (R : relation (World D)) `{!PreOrder R} (r : outcome VsockTransportError.t A) : keeps R (liftT r).
Proof. intros w r' w'. unfold liftT. by intros [= _ <-]. Qed.

Lemma keeps_fail {D A} (R : relation (World D)) `{!PreOrder R} e : keeps R (fail (A := A) e).
Proof. unfold fail. eauto with migtd. Qed.

Hint Resolve keeps_liftT keeps_fail : migtd.

Lemma queues_recv_packet pkt : keeps keeps_queues (recv_packet pkt).
Proof.
  intros w r w' E. unfold recv_packet in E.
  destruct (Z.ltb_spec (lenz pkt) HEADER_LEN); [by injection E as <- <-|].
  destruct (slice pkt 0 HEADER_LEN) as [h|] eqn:Eh; rewrite or_panic_bind in E; [|by injection E as <- <-].
  apply slice_Some_len in Eh as (Hlen & _). rewrite M_bind_eq in E. unfold liftT, checked_header, new_checked in E.
  destruct (packet_check h) as [[]|e|] eqn:Ec; cbn [mbind outcome_bind] in E; [|by injection E as <- <-..].
  rewrite or_panic_bind in E. destruct (data_len h) as [n|] eqn:En; [|by injection E as <- <-].
  assert (n <= 0) as Hn by (eapply checked_header_no_data; [|done..]; unfold HEADER_LEN in *; lia).
  assert (keeps_queues w w) by reflexivity.
  rewrite M_bind_eq in E. destruct (Z.eqb_spec n 0); cbn [negb] in E.
  - cbn in E. unfold push_stream_queues in E. destruct (packet_key h) as [k|]; cbn in E; injection E as _ <-; [|done].
    split.
    + intros Hw. apply (header_queues_push k []); [by left|]. apply header_queues_push; [right; lia|done].
    + unfold push_queues. destruct h; [done|].
      by destruct (CONNECTION_PKT_QUEUES w !! k), (BINDING_PKT_QUEUES w !! local k).
  - destruct (Z.ltb_spec (lenz pkt - HEADER_LEN) n); [by injection E as <- <-|].
    destruct (slice pkt HEADER_LEN (HEADER_LEN + n)) as [d|] eqn:Ed; cbn in E; [|by injection E as <- <-].
    apply slice_Some_len in Ed. lia.
Qed.

Lemma queues_pop k : keeps keeps_queues (pop_stream_queues k).
Proof.
  intros w r w'. unfold pop_stream_queues. destruct (pop_queues k w) as [r1 w1] eqn:E. intros [= _ <-].
  split; [intros Hw; by eapply header_queues_pop|].
  unfold pop_queues in E. destruct (CONNECTION_PKT_QUEUES w !! k) as [[]|];
    [..|destruct (BINDING_PKT_QUEUES w !! local k) as [[]|]]; by injection E as <- <-.
Qed.

Lemma queues_shared_memory n : keeps keeps_queues (shared_memory n).
Proof.
  unfold shared_memory. intros w r w' E. rewrite getS_bind in E.
  destruct (vmm_alloc (device w)) as [|[] l]; injection E as _ <-; (split; [by intros []; split|done]).
Qed.

Lemma queues_poll_send polls mid n : keeps keeps_queues (poll_send polls mid n).
Proof. induction polls; cbn [poll_send]; keeps_auto. Qed.

Lemma queues_poll_receive polls addrs mid : keeps keeps_queues (poll_receive polls addrs mid).
Proof.
  induction polls; cbn [poll_receive]; keeps_auto; [apply queues_recv_packet|apply queues_pop].
Qed.

End host.

Lemma vsock_align_up_spec x : 0 <= x < 2 ^ 64 →
  vsock_align_up x / PAGE_SIZE * PAGE_SIZE = vsock_align_up x ∧ x <= vsock_align_up x < x + PAGE_SIZE.
Proof.
  intros Hx. unfold vsock_align_up, PAGE_SIZE. rewrite land_not_u by lia.
  change (4096 - 1) with (Z.ones 12). rewrite Z.ldiff_ones_r, Z.shiftl_mul_pow2, Z.shiftr_div_pow2 by lia.
  change (2 ^ 12) with 4096. pose proof (Z.div_mod x 4096 ltac:(lia)) as Hd.
  pose proof (Z.mod_pos_bound x 4096 ltac:(lia)).
  destruct (Z.eqb_spec (x mod 4096) 0).
  - rewrite Z.add_0_r, Z.div_mul by lia. lia.
  - replace (x / 4096 * 4096 + 4096) with ((x / 4096 + 1) * 4096) by lia. rewrite Z.div_mul by lia. lia.
Qed.

Section enqueue.
Context `{GuidBytes}.

(** The outcome of a transport call: no abort, queues stay bare, and at most
    the command [page] is handed over. *)
Definition call_post {A} (page : bytes) (w : World Vmm) (r : outcome (aerr VsockTransportError.t) A) (w' : World Vmm) : Prop :=
  (header_queues w → header_queues w') ∧
  (vmm_commands (device w') = vmm_commands (device w) ∧ (∀ a, r ≠ Ok a) ∨
   vmm_commands (device w') = vmm_commands (device w) ++ [page]).

Lemma shared_memory_Ok n w m w' : shared_memory n w = (Ok m, w') → m = zeros (n * PAGE_SIZE).
Proof.
  unfold shared_memory. rewrite getS_bind. destruct (vmm_alloc (device w)) as [|[] l]; [done| |done].
  rewrite modifyS_bind. by intros [= <- <-].
Qed.

Lemma shared_memory_post {A} n (f : bytes → TM A) page w r w' :
  (shared_memory n ≫= f) w = (r, w') →
  (∀ w1, keeps_queues w w1 → f (zeros (n * PAGE_SIZE)) w1 = (r, w') → call_post page w1 r w') →
  call_post page w r w'.
Proof.
  rewrite M_bind_eq. destruct (shared_memory n w) as [[b|e|] w1] eqn:E; apply queues_shared_memory in E as K.
  - apply shared_memory_Ok in E as ->. intros Hf Hk. destruct (Hk w1 K Hf) as [H1 H2]. destruct K as [K1 K2].
    split; [tauto|]. by rewrite <-K2.
  - intros [= <- <-] _. destruct K. split; [done|]. by left.
  - intros [= <- <-] _. destruct K. split; [done|]. by left.
Qed.

Lemma service_post {A} page resp (f : list bytes → TM A) w r w' :
  (∀ polls, keeps keeps_queues (f polls)) →
  (tdvmcall_service page resp ≫= f) w = (r, w') → call_post page w r w'.
Proof.
  intros Hf. rewrite M_bind_eq. unfold tdvmcall_service. rewrite getS_bind.
  destruct (vmm_script (device w)) as [|c l].
  { rewrite modifyS_bind. intros [= <- <-]. split; [by intros []; split|by right]. }
  rewrite modifyS_bind. destruct (call_result c).
  { intros [= <- <-]. split; [by intros []; split|by right]. }
  cbn [mret M_ret]. intros E%Hf. destruct E as [E1 E2]. split.
  - intros []. by apply E1.
  - right. by rewrite E2.
Qed.

Lemma liftT_bind {A B} (r : outcome VsockTransportError.t A) (f : A → TM B) w a :
  r = Ok a → (liftT r ≫= f) w = f a w.
Proof. by intros ->. Qed.

Definition send_page (ctx : Z) (h d : bytes) : bytes :=
  wire_command COMMAND_SEND ctx (h ++ d) (vsock_align_up (VMCALL_COMMON_HEADER_LEN + lenz h + lenz d)).

Lemma small_u64 (d : bytes) : lenz d <= VMCALL_MAX_PKT_DATA_LEN → 0 <= lenz d <= 65456.
Proof.
  pose proof (lenz_nonneg d).
  unfold VMCALL_MAX_PKT_DATA_LEN, MAX_VSOCK_MTU, VMCALL_COMMON_HEADER_LEN, HEADER_LEN. lia.
Qed.

Lemma vmcall_enqueue_post ctx h d w r w' :
  vmcall_enqueue ctx h d w = (r, w') →
  call_post (send_page ctx h d) w r w' ∧
  (r ≠ Err (Failed VsockTransportError.InvalidParameter) →
     lenz h = HEADER_LEN ∧ lenz d <= VMCALL_MAX_PKT_DATA_LEN) ∧
  (lenz h = HEADER_LEN ∧ lenz d <= VMCALL_MAX_PKT_DATA_LEN ∨ w' = w).
Proof.
  intros E. unfold vmcall_enqueue in E. destruct (Z.eqb_spec (lenz h) HEADER_LEN) as [Hh|Hh]; cbn [negb orb] in E.
  2:{ injection E as <- <-. split; [split; [done|by left]|]. split; [done|by right]. }
  destruct (Z.ltb_spec VMCALL_MAX_PKT_DATA_LEN (lenz d)) as [Hd|Hd].
  { injection E as <- <-. split; [split; [done|by left]|]. split; [done|by right]. }
  split; [|split; [done|by left]].
  destruct (small_u64 d Hd) as [Hd1 Hd2]. unfold VMCALL_COMMON_HEADER_LEN, HEADER_LEN in *.
  destruct (vsock_align_up_spec (36 + lenz h + lenz d)) as [Ha Hb]; [lia|].
  destruct (vsock_align_up_spec 36) as [Ha' Hb']; [lia|].
  eapply shared_memory_post; [exact E|]. clear E. intros w1 _ E.
  eapply shared_memory_post; [exact E|]. clear E. intros w2 _ E.
  unfold vmcall_service_migtd_send in E. rewrite Ha, Ha' in E.
  erewrite liftT_bind in E by (apply set_command_page; cbn [concat]; rewrite app_nil_r, lenz_app; lia).
  destruct (set_response_Ok (vsock_align_up 36)) as (page & Hp & Hl); [lia|].
  erewrite liftT_bind in E by exact Hp.
  assert (concat [h; d] = h ++ d) as Hc by (cbn [concat]; by rewrite app_nil_r). rewrite Hc in E.
  eapply service_post; [|exact E]. intros polls. apply queues_poll_send.
Qed.

Lemma poll_send_Ok polls mid n w m w' : poll_send polls mid n w = (Ok m, w') → m = n.
Proof.
  revert w. induction polls as [|p polls IH]; intros w; cbn [poll_send]; [done|].
  intros (reply & w1 & _ & E)%M_bind_Ok_inv. rewrite or_panic_bind in E.
  destruct (Response.status reply); [|done]. destruct (_ =? _); [by eapply IH|].
  apply M_bind_Ok_inv in E as ([] & w2 & _ & E); [|done]. by injection E.
Qed.

Lemma vmcall_enqueue_Ok ctx h d w n w' :
  vmcall_enqueue ctx h d w = (Ok n, w') →
  n = lenz d ∧ lenz h = HEADER_LEN ∧ lenz d <= VMCALL_MAX_PKT_DATA_LEN ∧
  vmm_commands (device w') = vmm_commands (device w) ++ [send_page ctx h d].
Proof.
  intros E. destruct (vmcall_enqueue_post _ _ _ _ _ _ E) as ([_ Hc] & Hg & _).
  destruct Hg as [Hh Hd]; [done|]. destruct Hc as [[_ Hc]|Hc]; [by destruct (Hc n)|].
  split; [|done]. unfold vmcall_enqueue in E.
  destruct (negb _ || _); [done|].
  apply M_bind_Ok_inv in E as (m1 & w1 & _ & E). apply M_bind_Ok_inv in E as (m2 & w2 & _ & E).
  unfold vmcall_service_migtd_send in E.
  do 3 (apply M_bind_Ok_inv in E as (? & ? & _ & E)). by eapply poll_send_Ok.
Qed.

End enqueue.

Section dequeue.
Context `{GuidBytes}.

Definition recv_page (ctx : Z) : bytes :=
  wire_command COMMAND_RECV ctx [] (vsock_align_up VMCALL_COMMON_HEADER_LEN).

Lemma poll_receive_Ok polls addrs mid w b w' :
  header_queues w → poll_receive polls addrs mid w = (Ok b, w') → lenz b = HEADER_LEN.
Proof.
  revert w. induction polls as [|p polls IH]; intros w Hw; cbn [poll_receive]; [done|].
  intros (reply & w1 & E1 & E)%M_bind_Ok_inv. rewrite or_panic_bind in E.
  assert (w1 = w) as -> by (unfold liftT in E1; destruct (map_unit _ _); by injection E1).
  destruct (Response.status reply); [|done]. destruct (_ =? _); [by eapply IH|].
  apply M_bind_Ok_inv in E as (ok & w2 & E2 & E).
  assert (w2 = w) as -> by (unfold liftT in E2; destruct (reply_sane _ _ _); by injection E2).
  destruct ok; [|done]. cbn [negb] in E. rewrite or_panic_bind in E.
  destruct (Response.data reply) as [d|]; [|done]. rewrite or_panic_bind in E. destruct (slice d _ _) as [pkt|]; [|done].
  apply M_bind_Ok_inv in E as ([] & w3 & E3%queues_recv_packet & E). destruct E3 as [Hw3 _].
  rewrite M_bind_eq in E. unfold pop_stream_queues in E. destruct (pop_queues addrs w3) as [x w4] eqn:E4.
  apply header_queues_pop in E4 as (_ & _ & Hx); [|by apply Hw3]. cbv beta iota in E.
  destruct x; [|done]. injection E as <- <-. by apply Hx.
Qed.

(** The page sizes of a receive: one page for the command, sixteen for the response. *)
Lemma receive_setup addrs ctx (w : World Vmm) :
  ∃ resp, vmcall_service_migtd_receive (zeros (vsock_align_up VMCALL_COMMON_HEADER_LEN / PAGE_SIZE * PAGE_SIZE))
    (zeros (MAX_VSOCK_MTU / PAGE_SIZE * PAGE_SIZE)) addrs ctx w =
    (polls ← tdvmcall_service (recv_page ctx) resp; poll_receive polls addrs ctx) w.
Proof.
  unfold VMCALL_COMMON_HEADER_LEN. destruct (vsock_align_up_spec 36) as [Ha Hb]; [lia|]. rewrite Ha.
  destruct (set_response_Ok (MAX_VSOCK_MTU / PAGE_SIZE * PAGE_SIZE)) as (resp & Hr & _); [by vm_compute|].
  exists resp. unfold vmcall_service_migtd_receive.
  assert (36 + lenz (concat (@nil bytes)) <= vsock_align_up 36) as Hle by (change (lenz _) with 0; lia).
  rewrite (liftT_bind _ _ _ _ (set_command_page (vsock_align_up 36) COMMAND_RECV [] ctx Hle)).
  by rewrite (liftT_bind _ _ _ _ Hr).
Qed.

Lemma service_receive_header resp addrs ctx w r w' :
  (polls ← tdvmcall_service (recv_page ctx) resp; poll_receive polls addrs ctx) w = (r, w') →
  header_queues w → ∀ b, r = Ok b → lenz b = HEADER_LEN.
Proof.
  intros E Hw b ->. apply M_bind_Ok_inv in E as (polls & w1 & E1 & E). eapply poll_receive_Ok; [|exact E].
  unfold tdvmcall_service in E1. rewrite getS_bind in E1. destruct (vmm_script (device w)) as [|c l]; [done|].
  rewrite modifyS_bind in E1. destruct (call_result c); [done|]. injection E1 as _ <-. exact Hw.
Qed.

Lemma vmcall_dequeue_post addrs ctx w r w' :
  vmcall_dequeue addrs ctx w = (r, w') →
  (header_queues w → header_queues w' ∧ ∀ b, r = Ok b → lenz b = HEADER_LEN) ∧
  (vmm_commands (device w') = vmm_commands (device w) ∨
   vmm_commands (device w') = vmm_commands (device w) ++ [recv_page ctx]).
Proof.
  intros E. unfold vmcall_dequeue in E. rewrite M_bind_eq in E.
  destruct (pop_stream_queues addrs w) as [rp w1] eqn:Ep. pose proof (queues_pop _ _ _ _ Ep) as [K1 K2].
  unfold pop_stream_queues in Ep. destruct (pop_queues addrs w) as [x w2] eqn:Eq. injection Ep as <- ->.
  destruct x as [b|].
  { injection E as <- <-. split; [|by left]. intros Hw. split; [by apply K1|]. intros b' [= <-].
    apply header_queues_pop in Eq; naive_solver. }
  rewrite <-K2. cut (call_post (recv_page ctx) w1 r w' ∧ (header_queues w1 → ∀ b, r = Ok b → lenz b = HEADER_LEN)).
  { unfold call_post. naive_solver. }
  clear K1 K2 Eq. rewrite M_bind_eq in E.
  destruct (shared_memory _ w1) as [[c|e|] w2] eqn:E1; apply queues_shared_memory in E1 as K;
    [|injection E as <- <-; destruct K; split; [split; [done|by left]|done]..].
  apply shared_memory_Ok in E1 as ->. rewrite M_bind_eq in E.
  destruct (shared_memory _ w2) as [[c|e|] w3] eqn:E2; apply queues_shared_memory in E2 as K';
    pose proof (transitivity K K') as [T1 T2];
    [|injection E as <- <-; split; [split; [done|by left]|done]..].
  apply shared_memory_Ok in E2 as ->. destruct (receive_setup addrs ctx w3) as [resp Hr]. rewrite Hr in E.
  split.
  - destruct (service_post _ _ _ _ _ _ (λ polls, queues_poll_receive polls addrs ctx) E) as [P1 P2].
    unfold call_post. rewrite <-T2. tauto.
  - intros Hw. eapply service_receive_header; [exact E|by apply T1].
Qed.

End dequeue.

(** ** The contracts *)

#[global] Instance vmcall_laws `{GuidBytes} : VsockTransportLaws Vmm.
Proof.
  refine {| frames := λ d, omap frame_of_command (vmm_commands d) |}; cbn.
  - by vm_compute.
  - intros a c h d w n w' E. apply vmcall_enqueue_Ok in E as (-> & Hh & Hd & ->). split; [done|].
    rewrite omap_app. cbn [omap list_omap]. unfold send_page. by rewrite frame_of_wire_command.
  - intros a c h d w r w' E. apply vmcall_enqueue_post in E as ([_ Hc] & _ & Hhd).
    destruct Hc as [[Hc _]|Hc]; [left; by rewrite Hc|]. destruct Hhd as [[Hh Hd]|Hw]; [|left; by rewrite Hw].
    right. rewrite Hc, omap_app. cbn [omap list_omap]. unfold send_page. by rewrite frame_of_wire_command.
  - intros a c w r w' E. apply vmcall_dequeue_post in E as [_ [E|E]]; rewrite E; [done|].
    rewrite omap_app. cbn [omap list_omap]. unfold frame_of_command, recv_page. rewrite wire_command_code.
    cbn. by rewrite app_nil_r.
Defined.

#[global] Instance vmcall_header_only `{GuidBytes} : HeaderOnlyTransport Vmm.
Proof.
  refine {| wf_world := header_queues |}; cbn.
  - intros a c h d w r w' E. apply vmcall_enqueue_post in E as ([? _] & _). done.
  - intros a c w r w' E. by apply vmcall_dequeue_post in E as [? _].
  - intros k w [Hc Hb]. split; [|done]. cbn. intros k' q Hl. apply lookup_delete_Some in Hl as [_ Hl]. eauto.
  - intros k w [Hc Hb]. split; [done|]. cbn. intros k' q Hl. apply lookup_delete_Some in Hl as [_ Hl]. eauto.
Defined.

(** ** No content of the response page aborts the parser *)

Section safe.
Context `{GuidBytes}.

Lemma poll_send_safe polls mid n w : (poll_send polls mid n w).1 ≠ Panic.
Proof.
  induction polls as [|p polls IH]; cbn [poll_send]; [done|].
  rewrite M_bind_eq. unfold liftT at 1. pose proof (response_new_spec p) as Hr.
  destruct (Response.new p) as [reply|e|]; cbn [map_unit]; [|done..].
  destruct (status_Some reply (proj1 Hr)) as [st ->]. rewrite or_panic_bind.
  destruct (_ =? _); [done|]. destruct (reply_sane_spec reply COMMAND_SEND mid (proj1 Hr)) as (ok & -> & _).
  rewrite M_bind_eq. cbn [liftT]. by destruct ok.
Qed.

Lemma header_key h : lenz h = HEADER_LEN → ∃ k, packet_key h = Some k.
Proof.
  unfold HEADER_LEN. intros Hl. unfold packet_key, dst_cid, dst_port, src_cid, src_port.
  destruct (read_field_is_Some DST_CID h) as [a ->]; [by vm_compute|simpl; lia|].
  destruct (read_field_is_Some DST_PORT h) as [b ->]; [by vm_compute|simpl; lia|].
  destruct (read_field_is_Some SRC_CID h) as [c ->]; [by vm_compute|simpl; lia|].
  destruct (read_field_is_Some SRC_PORT h) as [d ->]; [by vm_compute|simpl; lia|].
  by eexists.
Qed.

Lemma data_len_nonneg b n : bytes_ok b → data_len b = Some n → 0 <= n.
Proof.
  unfold data_len, read_field. intros Hb. destruct (slice b _ _) as [l|] eqn:E; [|done].
  intros [= <-]. apply slice_bytes_ok in E; [|done]. apply le_val_range in E. apply E.
Qed.

(** The packet is dropped with an error, or it is a bare header without data. *)
Lemma recv_packet_safe pkt w : bytes_ok pkt → (recv_packet pkt w).1 ≠ Panic.
Proof.
  intros Hb. unfold recv_packet. destruct (Z.ltb_spec (lenz pkt) HEADER_LEN); [done|].
  destruct (slice_is_Some pkt 0 HEADER_LEN) as [h Eh]; [by vm_compute|done|].
  rewrite Eh, or_panic_bind. pose proof (slice_bytes_ok _ _ _ _ Hb Eh) as Hhb.
  apply slice_Some_len in Eh as (Hlen & _). rewrite Z.sub_0_r in Hlen.
  rewrite M_bind_eq. unfold liftT, checked_header, new_checked.
  pose proof (packet_check_spec h) as Hs. destruct (packet_check h) as [[]|e|] eqn:Ec;
    cbn [mbind outcome_bind]; [|done..].
  destruct Hs as (_ & _ & o & n & _ & _ & _ & Hn & _).
  pose proof (checked_header_no_data h Hlen Ec n Hn). pose proof (data_len_nonneg h n Hhb Hn).
  assert (n = 0) as -> by lia. rewrite or_panic_bind, Hn. cbn [Z.eqb negb]. rewrite ret_bind.
  destruct (header_key h Hlen) as [k ->]. by rewrite or_panic_bind.
Qed.

Lemma poll_receive_safe polls addrs mid w :
  Forall bytes_ok polls → (poll_receive polls addrs mid w).1 ≠ Panic.
Proof.
  induction 1 as [|p polls Hp _ IH]; cbn [poll_receive]; [done|].
  rewrite M_bind_eq. unfold liftT at 1. pose proof (response_new_spec p) as Hr.
  destruct (Response.new p) as [reply|e|]; cbn [map_unit]; [|done..].
  destruct (status_Some reply (proj1 Hr)) as [st ->]. rewrite or_panic_bind.
  destruct (_ =? _); [done|]. destruct (reply_sane_spec reply COMMAND_RECV mid (proj1 Hr)) as (ok & -> & Hok).
  rewrite M_bind_eq. cbn [liftT]. destruct ok; [|done]. cbn [negb].
  destruct (Hok eq_refl) as (d & Hd & Hl). rewrite Hd, or_panic_bind.
  unfold VMCALL_REPLY_DATA_HEADER_LEN in *.
  destruct (slice_is_Some d 12 (lenz d)) as [pkt Ek]; [lia..|]. rewrite Ek, or_panic_bind.
  rewrite M_bind_eq. destruct (recv_packet pkt w) as [[]w1] eqn:E.
  - rewrite M_bind_eq. unfold pop_stream_queues. destruct (pop_queues addrs w1) as [[] ?]; done.
  - done.
  - exfalso. apply (recv_packet_safe pkt w); [|by rewrite E].
    eapply slice_bytes_ok; [|exact Ek]. unfold Response.data in Hd. eapply slice_bytes_ok; [|exact Hd]. by apply Hr.
Qed.

(** The pages the VMM will show hold bytes. *)
Definition script_ok (w : World Vmm) : Prop :=
  Forall (λ c, Forall bytes_ok (call_polls c)) (vmm_script (device w)).

Lemma service_safe {A} page resp (f : list bytes → TM A) w :
  script_ok w → (∀ polls w', Forall bytes_ok polls → (f polls w').1 ≠ Panic) →
  ((tdvmcall_service page resp ≫= f) w).1 ≠ Panic.
Proof.
  intros Hw Hf. rewrite M_bind_eq. unfold tdvmcall_service. rewrite getS_bind.
  destruct (vmm_script (device w)) as [|c l] eqn:E; rewrite modifyS_bind; [done|].
  destruct (call_result c); [done|]. cbn [mret M_ret]. apply Hf.
  unfold script_ok in Hw. rewrite E in Hw. apply Forall_cons_1 in Hw as [Hc _].
  clear E Hf. induction Hc; constructor; [by apply fit_bytes_ok|done].
Qed.

Lemma shared_memory_safe {A} n (f : bytes → TM A) w :
  (∀ w1, vmm_script (device w1) = vmm_script (device w) → (f (zeros (n * PAGE_SIZE)) w1).1 ≠ Panic) →
  ((shared_memory n ≫= f) w).1 ≠ Panic.
Proof.
  intros Hf. rewrite M_bind_eq. unfold shared_memory. rewrite getS_bind.
  destruct (vmm_alloc (device w)) as [|[] l]; [done| |done]. rewrite modifyS_bind. cbn [mret M_ret]. by apply Hf.
Qed.

Lemma vmcall_enqueue_safe ctx h d w : script_ok w → (vmcall_enqueue ctx h d w).1 ≠ Panic.
Proof.
  intros Hw. unfold vmcall_enqueue. destruct (Z.eqb_spec (lenz h) HEADER_LEN) as [Hh|]; cbn [negb orb]; [|done].
  destruct (Z.ltb_spec VMCALL_MAX_PKT_DATA_LEN (lenz d)) as [|Hd]; [done|].
  destruct (small_u64 d Hd) as [Hd1 Hd2]. unfold VMCALL_COMMON_HEADER_LEN, HEADER_LEN in *.
  destruct (vsock_align_up_spec (36 + lenz h + lenz d)) as [Ha Hb]; [lia|].
  destruct (vsock_align_up_spec 36) as [Ha' Hb']; [lia|].
  apply shared_memory_safe. intros w1 E1. apply shared_memory_safe. intros w2 E2.
  unfold vmcall_service_migtd_send. rewrite Ha, Ha'.
  erewrite liftT_bind by (apply set_command_page; cbn [concat]; rewrite app_nil_r, lenz_app; lia).
  destruct (set_response_Ok (vsock_align_up 36)) as (page & Hp & Hl); [lia|].
  erewrite liftT_bind by exact Hp.
  apply service_safe; [unfold script_ok; by rewrite E2, E1|]. intros. apply poll_send_safe.
Qed.

Lemma vmcall_dequeue_safe addrs ctx w : script_ok w → (vmcall_dequeue addrs ctx w).1 ≠ Panic.
Proof.
  intros Hw. unfold vmcall_dequeue. rewrite M_bind_eq. unfold pop_stream_queues.
  destruct (pop_queues addrs w) as [x w1] eqn:Eq. cbv beta iota. destruct x; [done|].
  assert (w1 = w) as ->.
  { unfold pop_queues in Eq. destruct (CONNECTION_PKT_QUEUES w !! addrs) as [[]|];
      [..|destruct (BINDING_PKT_QUEUES w !! local addrs) as [[]|]]; by injection Eq. }
  apply shared_memory_safe. intros w1 E1. apply shared_memory_safe. intros w2 E2.
  destruct (receive_setup addrs ctx w2) as [resp ->].
  apply service_safe; [unfold script_ok; by rewrite E2, E1|]. intros. by apply poll_receive_safe.
Qed.

End safe.

(** ** Properties *)

(** A reply of the VMM to a request of kind [cmd]. *)
Definition demo_reply (cmd mid : Z) (data : bytes) : bytes :=
  VMCALL_SERVICE_MIGTD_GUID (H := efi_guid) ++ le_bytes 4 (36 + lenz data) ++ le_bytes 4 0 ++
  [CURRENT_VERSION; cmd; 0; 0] ++ le_bytes 8 mid ++ data.

Definition demo_world (calls : list VmmCall) : World Vmm :=
  mkWorld {[demo_pair := []]} ∅ 40001 {[40001]} (mkVmm [true; true; true; true] calls []).

Definition demo_header (n : Z) : bytes := wire_header (mkHeader 2 3 1234 40001 OP_RW n 0 0 64).

(** Whatever bytes the VMM puts into the shared response page, at
    whatever poll, and whatever it answers to the allocation and the call,
    neither sending nor receiving over the VMCALL transport aborts. *)
Theorem vmcall_hostile_vmm_safe `{GuidBytes} (addrs : VsockAddrPair) ctx hdr data (w : World Vmm) :
  script_ok w →
  (vmcall_enqueue ctx hdr data w).1 ≠ Panic ∧ (vmcall_dequeue addrs ctx w).1 ≠ Panic.
Proof. intros Hw. split; [by apply vmcall_enqueue_safe|by apply vmcall_dequeue_safe]. Qed.

Lemma vmcall_hostile_vmm_safe_witness :
  (vmcall_enqueue (H := efi_guid) 7 (demo_header 1) [5] (demo_world [mkCall None [[1; 2]; [255]]])).1 ≠ Panic.
Proof.
  apply (vmcall_hostile_vmm_safe (H := efi_guid) demo_pair 7 (demo_header 1) [5]).
  repeat constructor; vm_compute; intuition congruence.
Defined.

(** A successful send hands the VMM exactly one command page,
    whose length field covers the header and the data and from which the VMM
    decodes back the frame that was given; it reports all the data as sent, and
    only frames of one header and at most one packet of data are accepted. *)
Theorem vmcall_send_page `{GuidBytes} ctx hdr data (w w' : World Vmm) n :
  vmcall_enqueue ctx hdr data w = (Ok n, w') →
  n = lenz data ∧ lenz hdr = HEADER_LEN ∧ lenz data <= VMCALL_MAX_PKT_DATA_LEN ∧
  ∃ page, vmm_commands (device w') = vmm_commands (device w) ++ [page] ∧
    frame_of_command page = Some (hdr, data) ∧ slice page 28 36 = Some (le_bytes 8 ctx) ∧
    slice page 0 16 = Some VMCALL_SERVICE_MIGTD_GUID.
Proof.
  intros E. destruct (vmcall_enqueue_Ok _ _ _ _ _ _ E) as (-> & Hh & Hd & Hc).
  split; [done|]. split; [done|]. split; [done|]. exists (send_page ctx hdr data). split; [done|].
  split; [by apply frame_of_wire_command|].
  unfold send_page, wire_command, page_of. split.
  - set (L := le_bytes 4 (as_u 32 _)). set (Zs := zeros _).
    pose proof (slice_seg [VMCALL_SERVICE_MIGTD_GUID; L; le_bytes 4 0; [CURRENT_VERSION; COMMAND_SEND; 0; 0];
       le_bytes 8 ctx; hdr ++ data; Zs] 4 _ 28 36 eq_refl) as Hs.
    cbn [concat] in Hs. rewrite app_nil_r in Hs. rewrite <-!app_assoc in *. apply Hs.
    + unfold lenz, L. cbn [take concat]. repeat (rewrite ?length_app, ?length_le_bytes, ?length_migtd_guid; cbn [length]). lia.
    + unfold lenz. rewrite length_le_bytes. lia.
  - apply (slice_app [] VMCALL_SERVICE_MIGTD_GUID); [done|]. unfold lenz. rewrite length_migtd_guid. lia.
Qed.

Lemma vmcall_send_page_witness :
  ∃ w', vmcall_enqueue (H := efi_guid) 7 (demo_header 2) [5; 6]
          (demo_world [mkCall None [[]; demo_reply COMMAND_SEND 7 []]]) = (Err (Failed VsockTransportError.InvalidParameter), w') ∧
  ∃ w', vmcall_enqueue (H := efi_guid) 7 (demo_header 2) [5; 6]
          (demo_world [mkCall None [demo_reply COMMAND_SEND 7 []]]) = (Ok 2, w') ∧
        ∃ page, vmm_commands (device w') = [page] ∧ frame_of_command page = Some (demo_header 2, [5; 6]).
Proof.
  eexists. split; [vm_compute; reflexivity|]. eexists. split; [vm_compute; reflexivity|].
  edestruct (vmcall_send_page (H := efi_guid) 7 (demo_header 2) [5; 6]
    (demo_world [mkCall None [demo_reply COMMAND_SEND 7 []]])) as (_ & _ & _ & page & H1 & H2 & _);
    [vm_compute; reflexivity|].
  exists page. split; [exact H1|exact H2].
Defined.

(** Over the VMCALL transport no stream ever receives data: the
    transport checks the bare header of every incoming packet with
    [Packet::new_checked], which rejects a header that announces data beyond
    the buffer, so [recv] on a stream without queued data never returns [Ok]. *)
Theorem vmcall_recv_never_delivers `{GuidBytes} fuel buf (s : St Vmm) :
  header_queues (world s) → data_queue (self s) = [] →
  ∀ x s', recv fuel buf s ≠ (Ok x, s').
Proof.
  intros Hw Hq x s' E. eapply recv_never_Ok; [|exact E|done]. by split.
Qed.

Lemma vmcall_recv_never_delivers_witness :
  (recv (H := vmcall_transport (H := efi_guid)) 3 [0; 0]
    (mkSt (demo_world [mkCall None [demo_reply COMMAND_RECV 0 (demo_header 2 ++ [5; 6])]]) (demo_stream []))).1
  ≠ Ok (2, [5; 6]).
Proof.
  destruct (recv _ _ _) as [r s'] eqn:E. simpl. intros ->. revert E.
  apply (vmcall_recv_never_delivers (H := efi_guid)); [|reflexivity].
  split; simpl; intros k q; [|done]. intros Hl. apply lookup_singleton_Some in Hl as [_ <-]. constructor.
Defined.
