(* ===== verification/VsockVirtio.v ===== *)
(** * VsockVirtio: the virtio transport of the vsock device

    src/devices/vsock/src/transport/virtio_pci.rs over the virtqueues of
    VirtQueue.  The transport registers, the page allocator and the interrupt
    table are parameters (classes); the rings and the DMA pages are shared with
    the host, which may rewrite them between any two polls.  An access to a page
    that is not allocated, or a release of one that is not, is undefined
    behaviour in the source and a [Panic] here. *)
From stdpp Require Import base tactics numbers list list_numbers option gmap countable.
From S2P Require Import Prelude VirtQueue Vsock VsockStream VsockVmcall.
Local Open Scope Z_scope.

(** ** Constants *)

Definition QUEUE_RX : Z := 0.
Definition QUEUE_TX : Z := 1.
Definition QUEUE_EVENT : Z := 2.
Definition RX_VECTOR : Z := 0x52.
Definition TX_VECTOR : Z := 0x53.
Definition CONFIG_VECTOR : Z := 0x54.
Definition QUEUE_SIZE : Z := 16.
Definition RX_QUEUE_PREFILL_NUM : Z := 16.
Definition VSOCK_DEFAULT_BUF_SIZE : Z := PAGE_SIZE.
Definition VIRTIO_MAX_PKT_DATA_LEN : Z := 0x1000 * 16.

Definition VIRTIO_SUBSYSTEM_VSOCK : Z := 19.
Definition VIRTIO_STATUS_RESET : Z := 0.
Definition VIRTIO_STATUS_ACKNOWLEDGE : Z := 1.
Definition VIRTIO_STATUS_DRIVER : Z := 2.
Definition VIRTIO_STATUS_FEATURES_OK : Z := 8.
Definition VIRTIO_STATUS_DRIVER_OK : Z := 4.
Definition VIRTIO_STATUS_FAILED : Z := 128.

(** ** Data *)

Record DmaRecord := mkDma { dma_addr : Z; dma_size : Z }.

(** The trait [VsockDmaPageAllocator].  [live] is what the allocator has handed
    out and not taken back: base address to number of pages. *)
Class DmaPageAllocator (A : Type) := {
  alloc_pages : Z → A → option Z * A;
  free_pages : Z → Z → A → A;
  live : A → gmap Z Z }.

(** [RX_FLAG], [TX_FLAG], [CONFIG_FLAG] *)
Record IrqFlags := mkFlags { RX_FLAG : bool; TX_FLAG : bool; CONFIG_FLAG : bool }.

(** [register_interrupt_callback] of td-payload: which vectors it accepts. *)
Class InterruptTable := { register_interrupt_callback : Z → bool }.

Inductive Callback := RxCallback | TxCallback | ConfigCallback.

Section driver.
Context {T A : Type} `{VirtioTransport T} `{DmaPageAllocator A} `{InterruptTable}.

Record VirtioVsock := mkVsock {
  virtio_transport : T;
  rx : VirtQueue;
  tx : VirtQueue;
  event_queue : VirtQueue;
  dma_record : gmap Z DmaRecord;
  queue_dma_pages : Z;
  rx_buf_num : Z }.

(** A device with the page pool its allocator works on. *)
Record DevSt := mkDev { vsock : VirtioVsock; pool : A }.

Definition set_transport (t : T) (d : DevSt) : DevSt :=
  let v := vsock d in
  mkDev (mkVsock t (rx v) (tx v) (event_queue v) (dma_record v) (queue_dma_pages v) (rx_buf_num v)) (pool d).
Definition set_rx (q : VirtQueue) (d : DevSt) : DevSt :=
  let v := vsock d in
  mkDev (mkVsock (virtio_transport v) q (tx v) (event_queue v) (dma_record v) (queue_dma_pages v) (rx_buf_num v))
    (pool d).
Definition set_tx (q : VirtQueue) (d : DevSt) : DevSt :=
  let v := vsock d in
  mkDev (mkVsock (virtio_transport v) (rx v) q (event_queue v) (dma_record v) (queue_dma_pages v) (rx_buf_num v))
    (pool d).
Definition set_dma_record (f : gmap Z DmaRecord → gmap Z DmaRecord) (d : DevSt) : DevSt :=
  let v := vsock d in
  mkDev (mkVsock (virtio_transport v) (rx v) (tx v) (event_queue v) (f (dma_record v)) (queue_dma_pages v)
           (rx_buf_num v)) (pool d).
Definition set_rx_buf_num (n : Z) (d : DevSt) : DevSt :=
  let v := vsock d in
  mkDev (mkVsock (virtio_transport v) (rx v) (tx v) (event_queue v) (dma_record v) (queue_dma_pages v) n) (pool d).
Definition set_pool (a : A) (d : DevSt) : DevSt := mkDev (vsock d) a.

Notation DM := (M DevSt VsockTransportError.t).

(** [From<VirtioError> for VsockTransportError] at a [?]. *)
Definition map_virtio {X} (r : outcome VirtioError X) : outcome VsockTransportError.t X :=
  match r with Ok x => Ok x | Err e => Err (VsockTransportError.Virtio e) | Panic => Panic end.

Definition on_transport {X} (m : M T VirtioError X) : DM X := λ d,
  let '(r, t) := m (virtio_transport (vsock d)) in (map_virtio r, set_transport t d).

(** ** DMA pages *)

Definition allocate_dma_memory (size : Z) : DM (option DmaRecord) :=
  d ← getS;
  let sz := vsock_align_up size in
  let '(r, a) := alloc_pages (sz / PAGE_SIZE) (pool d) in
  _ ← modifyS (set_pool a);
  match r with
  | None => mret None
  | Some p =>
      _ ← modifyS (set_dma_record (insert p (mkDma p sz)));
      mret (Some (mkDma p sz))
  end.

(** [self.dma_allocator.free_pages(p, n)] of pages that are allocated. *)
Definition release (p n : Z) : DM unit :=
  d ← getS;
  if bool_decide (live (pool d) !! p = Some n) then modifyS (set_pool (free_pages p n (pool d)))
  else panicM.

Definition free_dma_memory (addr : Z) : DM (option Z) :=
  d ← getS;
  if addr =? queue_dma_pages (vsock d) then mret None
  else match dma_record (vsock d) !! addr with
  | None => mret None
  | Some record =>
      _ ← release (dma_addr record) (dma_size record / PAGE_SIZE);
      _ ← modifyS (set_dma_record (delete addr));
      mret (Some addr)
  end.

(** [impl Drop for VirtioVsock]: every recorded page goes back. *)
Fixpoint release_all (l : list (Z * DmaRecord)) : DM unit :=
  match l with
  | [] => mret tt
  | (_, r) :: l => _ ← release (dma_addr r) (dma_size r / PAGE_SIZE); release_all l
  end.

Definition drop_vsock : DM unit :=
  d ← getS; release_all (map_to_list (dma_record (vsock d))).

(** ** Creation *)

Definition create_queue (mem : RingMemory) (idx addr size : Z) : M T VirtioError VirtQueue :=
  _ ← set_queue idx;
  _ ← set_queue_size size;
  queue ← vq_new mem idx addr size;
  _ ← set_queue_enable;
  mret queue.

(** [Self::set_queue_notify] *)
Definition notify_through (queue index : Z) : M T VirtioError unit :=
  _ ← set_queue queue;
  _ ← set_queue_notify index;
  set_queue_enable.

(** What creation works on before there is a device. *)
Record Boot := mkBoot { b_transport : T; b_pool : A; b_callbacks : list (Z * Callback) }.

Notation BM := (M Boot VsockTransportError.t).

Definition boot_transport {X} (m : M T VirtioError X) : BM X := λ b,
  let '(r, t) := m (b_transport b) in (map_virtio r, mkBoot t (b_pool b) (b_callbacks b)).

Definition register_callback (vector : Z) (cb : Callback) : BM unit :=
  _ ← err_if (negb (register_interrupt_callback vector)) VsockTransportError.Interrupt;
  modifyS (λ b, mkBoot (b_transport b) (b_pool b) ((vector, cb) :: b_callbacks b)).

(** [.map_err(|_| Initilization)] *)
Definition init_error {X} (m : BM X) : BM X := λ b,
  match m b with
  | (Err _, b') => (Err VsockTransportError.Initilization, b')
  | r => r
  end.

Definition fail_device {X} : BM X :=
  _ ← boot_transport (add_status VIRTIO_STATUS_FAILED);
  failM VsockTransportError.Initilization.

(** [transport.init(..)] up to the queue size. *)
Definition negotiate : BM unit :=
  _ ← init_error (boot_transport (vt_init VIRTIO_SUBSYSTEM_VSOCK));
  _ ← boot_transport (add_status 64);
  _ ← boot_transport (set_status VIRTIO_STATUS_RESET);
  _ ← boot_transport (add_status VIRTIO_STATUS_ACKNOWLEDGE);
  _ ← boot_transport (add_status VIRTIO_STATUS_DRIVER);
  _ ← boot_transport (add_status VIRTIO_STATUS_FEATURES_OK);
  status ← boot_transport get_status;
  _ ← (if negb (Z.land status VIRTIO_STATUS_FEATURES_OK =? VIRTIO_STATUS_FEATURES_OK) then fail_device
       else mret tt);
  max_queue ← boot_transport get_queue_max_size;
  _ ← (if max_queue <? QUEUE_SIZE then fail_device else mret tt);
  boot_transport (set_queue_size QUEUE_SIZE).

(** [VirtioVsock::new]; [mem] is what the ring pages of each queue hold. *)
Definition vsock_new (mem : Z → RingMemory) : BM VirtioVsock :=
  _ ← negotiate;
  layout ← ok_or (layout_new QUEUE_SIZE) (VsockTransportError.Virtio CreateVirtioQueue);
  let queue_size := as_u 64 (Z.shiftl (layout_size layout) 2) in
  b ← getS;
  let '(r, a) := alloc_pages (queue_size / PAGE_SIZE) (b_pool b) in
  _ ← modifyS (λ b, mkBoot (b_transport b) a (b_callbacks b));
  queue_dma ← ok_or r VsockTransportError.DmaAllocation;
  queue_rx ← boot_transport (create_queue (mem QUEUE_RX) QUEUE_RX queue_dma QUEUE_SIZE);
  queue_tx_dma ← or_panic (add_u 64 queue_dma (layout_size layout));
  queue_tx ← boot_transport (create_queue (mem QUEUE_TX) QUEUE_TX queue_tx_dma QUEUE_SIZE);
  queue_event_dma ← or_panic (add_u 64 queue_tx_dma (layout_size layout));
  queue_event ← boot_transport (create_queue (mem QUEUE_EVENT) QUEUE_EVENT queue_event_dma QUEUE_SIZE);
  irq_index_rx ← boot_transport (set_interrupt_vector RX_VECTOR);
  _ ← boot_transport (notify_through QUEUE_RX irq_index_rx);
  irq_index_tx ← boot_transport (set_interrupt_vector TX_VECTOR);
  _ ← boot_transport (notify_through QUEUE_TX irq_index_tx);
  _ ← register_callback RX_VECTOR RxCallback;
  _ ← register_callback TX_VECTOR TxCallback;
  _ ← register_callback CONFIG_VECTOR ConfigCallback;
  b ← getS;
  mret (mkVsock (b_transport b) queue_rx queue_tx queue_event
          {[queue_dma := mkDma queue_dma queue_size]} queue_dma 0).

(** ** The receive queue *)

Definition kick_queue (queue : Z) : DM unit :=
  _ ← on_transport (set_queue queue);
  on_transport (notify_queue queue).

Definition rx_add (h2g : list VirtqueueBuf) : DM Z := λ d,
  let '(r, q) := add [] h2g (rx (vsock d)) in (map_virtio r, set_rx q d).

Definition tx_add (g2h : list VirtqueueBuf) : DM Z := λ d,
  let '(r, q) := add g2h [] (tx (vsock d)) in (map_virtio r, set_tx q d).

(** [while self.rx_buf_num < RX_QUEUE_PREFILL_NUM]; a turn adds 2. *)
Fixpoint rx_fill_loop (fuel : nat) : DM unit :=
  d ← getS;
  if rx_buf_num (vsock d) <? RX_QUEUE_PREFILL_NUM then
    match fuel with
    | O => panicM
    | S fuel' =>
        r ← allocate_dma_memory HEADER_LEN;
        pkt_header ← ok_or r VsockTransportError.DmaAllocation;
        r ← allocate_dma_memory VSOCK_DEFAULT_BUF_SIZE;
        data_buf ← ok_or r VsockTransportError.DmaAllocation;
        _ ← rx_add [mkBuf (dma_addr pkt_header) HEADER_LEN; mkBuf (dma_addr data_buf) VSOCK_DEFAULT_BUF_SIZE];
        _ ← modifyS (λ d, set_rx_buf_num (rx_buf_num (vsock d) + 2) d);
        rx_fill_loop fuel'
    end
  else mret tt.

Definition rx_queue_fill : DM unit :=
  d ← getS;
  if RX_QUEUE_PREFILL_NUM / 2 <? rx_buf_num (vsock d) then mret tt
  else
    _ ← rx_fill_loop (Z.to_nat (RX_QUEUE_PREFILL_NUM - rx_buf_num (vsock d)));
    kick_queue QUEUE_RX.

Definition rx_pop : DM (list VirtqueueBuf * list VirtqueueBuf) := λ d,
  let '(r, p) := pop_used (mkPop (rx (vsock d)) [] []) in
  ((_ ← map_virtio r; Ok (p_g2h p, p_h2g p)), set_rx (p_vq p) d).

Definition tx_pop : DM (list VirtqueueBuf * list VirtqueueBuf) := λ d,
  let '(r, p) := pop_used (mkPop (tx (vsock d)) [] []) in
  ((_ ← map_virtio r; Ok (p_g2h p, p_h2g p)), set_tx (p_vq p) d).

(** ** The machine

    The global [VSOCK_DEVICE], the interrupt flags, the pages shared with the
    host and what the host does to them at each poll. *)

Record HostAct := mkAct {
  act_rx : option RingMemory;        (** new content of the rx rings *)
  act_tx : option RingMemory;        (** new content of the tx rings *)
  act_mem : list (Z * Z)             (** bytes written to shared pages *) }.

Record Machine := mkMachine {
  VSOCK_DEVICE : option VirtioVsock;
  page_pool : A;
  shared_mem : gmap Z Z;
  callbacks : list (Z * Callback);
  irq_flags : IrqFlags;
  host_script : list HostAct }.

Definition set_vsock (d : DevSt) (m : Machine) : Machine :=
  mkMachine (Some (vsock d)) (pool d) (shared_mem m) (callbacks m) (irq_flags m) (host_script m).
Definition set_mem (x : gmap Z Z) (m : Machine) : Machine :=
  mkMachine (VSOCK_DEVICE m) (page_pool m) x (callbacks m) (irq_flags m) (host_script m).

Notation VM := (M (World Machine) (aerr VsockTransportError.t)).

(** [lock.get_mut().ok_or(Initilization)?] and a call on the device. *)
Definition on_device {X} (m : DM X) : VM X := λ w,
  match VSOCK_DEVICE (device w) with
  | None => (Err (Failed VsockTransportError.Initilization), w)
  | Some v =>
      let '(r, d) := m (mkDev v (page_pool (device w))) in
      (match r with Ok x => Ok x | Err e => Err (Failed e) | Panic => Panic end,
       set_device (set_vsock d (device w)) w)
  end.

(** [slice_from_raw_parts(addr, len)] and the copy out of it. *)
Definition read_dma (addr len : Z) : VM bytes :=
  w ← getS;
  match live (page_pool (device w)) !! addr with
  | Some n =>
      if len <=? n * PAGE_SIZE
      then mret ((λ i, as_u 8 (default 0 (shared_mem (device w) !! (addr + i)))) <$> seqZ 0 len)
      else panicM
  | None => panicM
  end.

(** [slice_from_raw_parts_mut(addr, size)[0..data.len()].copy_from_slice(data)] *)
Definition write_bytes (addr : Z) (data : bytes) (m : gmap Z Z) : gmap Z Z :=
  list_to_map (zip (seqZ addr (lenz data)) data) ∪ m.

Definition write_dma (addr size : Z) (data : bytes) : VM unit :=
  w ← getS;
  match live (page_pool (device w)) !! addr with
  | Some n =>
      if (size <=? n * PAGE_SIZE) && (lenz data <=? size)
      then modifyS (set_device (set_mem (write_bytes addr data (shared_mem (device w))) (device w)))
      else panicM
  | None => panicM
  end.

(** ** Receiving *)

Definition push_buf_into_stream_queues (addrs : VsockAddrPair) (buf : bytes) : VM unit :=
  modifyS (push_queues addrs buf).

Definition pop_buf_from_stream_queues (addrs : VsockAddrPair) : VM (option bytes) :=
  λ w, let '(r, w') := pop_queues addrs w in (Ok r, w').

Definition recv_pkt (pkt : list VirtqueueBuf) : VM unit :=
  pkt0 ← or_panic (nthz pkt 0);
  d ← on_device getS;
  hdr_buf ← (if bool_decide (is_Some (dma_record (vsock d) !! buf_addr pkt0)) then
               if negb (buf_len pkt0 =? HEADER_LEN) then fail VsockTransportError.InvalidVsockPacket
               else
                 b ← read_dma (buf_addr pkt0) (buf_len pkt0);
                 r ← on_device (free_dma_memory (buf_addr pkt0));
                 _ ← ok_or r (Failed VsockTransportError.DmaAllocation);
                 mret b
             else mret []);
  packet_hdr ← liftT (checked_header hdr_buf);
  n ← or_panic (data_len packet_hdr);
  pkt1 ← or_panic (nthz pkt 1);
  data_buf ← (if negb (n =? 0) then
                if buf_len pkt1 <? n then fail VsockTransportError.InvalidVsockPacket
                else
                  d ← on_device getS;
                  match dma_record (vsock d) !! buf_addr pkt1 with
                  | Some record => read_dma (buf_addr pkt1) (Z.min (buf_len pkt1) (dma_size record))
                  | None => mret []
                  end
              else mret []);
  r ← on_device (free_dma_memory (buf_addr pkt1));
  _ ← ok_or r (Failed VsockTransportError.DmaAllocation);
  key ← or_panic (packet_key packet_hdr);
  _ ← push_buf_into_stream_queues key hdr_buf;
  push_buf_into_stream_queues key data_buf.

Definition pop_used_rx : VM unit :=
  bufs ← on_device rx_pop;
  d ← on_device getS;
  if negb (lenz bufs.2 =? 2) then
    n ← or_panic (sub_u (rx_buf_num (vsock d)) (lenz bufs.2));
    _ ← on_device (modifyS (set_rx_buf_num n));
    fail VsockTransportError.InvalidVsockPacket
  else
    n ← or_panic (sub_u (rx_buf_num (vsock d)) 2);
    _ ← on_device (modifyS (set_rx_buf_num n));
    _ ← recv_pkt bufs.2;
    on_device rx_queue_fill.

(** ** Initialization and configuration *)

Definition vsock_transport_init (mem : Z → RingMemory) (virtio : T) : VM unit :=
  w ← getS;
  let m := device w in
  match vsock_new mem (mkBoot virtio (page_pool m) (callbacks m)) with
  | (Err e, b) =>
      _ ← modifyS (set_device (mkMachine (VSOCK_DEVICE m) (b_pool b) (shared_mem m) (b_callbacks b)
                                 (irq_flags m) (host_script m)));
      fail e
  | (Panic, _) => panicM
  | (Ok v, b) =>
      let m' := mkMachine (VSOCK_DEVICE m) (b_pool b) (shared_mem m) (b_callbacks b) (irq_flags m)
                  (host_script m) in
      (** [call_once]: a second device is dropped *)
      _ ← match VSOCK_DEVICE m with
          | None => modifyS (set_device (set_vsock (mkDev v (b_pool b)) m'))
          | Some v0 =>
              match drop_vsock (mkDev v (b_pool b)) with
              | (Ok _, d) => modifyS (set_device (set_vsock (mkDev v0 (pool d)) m'))
              | _ => panicM
              end
          end;
      _ ← on_device (on_transport (add_status VIRTIO_STATUS_DRIVER_OK));
      status ← on_device (on_transport get_status);
      if negb (Z.land status VIRTIO_STATUS_DRIVER_OK =? VIRTIO_STATUS_DRIVER_OK) then
        _ ← on_device (on_transport (add_status VIRTIO_STATUS_FAILED));
        fail VsockTransportError.Initilization
      else on_device rx_queue_fill
  end.

Definition virtio_get_cid : VM Z :=
  lo ← on_device (on_transport (read_device_config 0));
  hi ← on_device (on_transport (read_device_config 4));
  mret (Z.lor lo (Z.shiftl hi 32)).

(** ** Sending *)

(** One buffer in DMA memory. *)
Definition stage (data : bytes) : VM VirtqueueBuf :=
  r ← on_device (allocate_dma_memory (lenz data));
  dma ← ok_or r (Failed VsockTransportError.DmaAllocation);
  _ ← write_dma (dma_addr dma) (dma_size dma) data;
  mret (mkBuf (dma_addr dma) (as_u 32 (lenz data))).

(** The header and, when there is any, the data of a packet. *)
Definition stage_packet (hdr buf : bytes) : VM (list VirtqueueBuf) :=
  h ← stage hdr;
  if bool_decide (buf = []) then mret [h] else b ← stage buf; mret [h; b].

(** [vsock_transport_enqueue] up to the poll. *)
Definition enqueue_start (hdr buf : bytes) : VM unit :=
  if negb (lenz hdr =? HEADER_LEN) || (VIRTIO_MAX_PKT_DATA_LEN <? lenz buf)
  then fail VsockTransportError.InvalidParameter
  else
    g2h ← stage_packet hdr buf;
    _ ← on_device (tx_add g2h);
    on_device (kick_queue QUEUE_TX).

(** [for vq_buf in &g2h { device.free_dma_memory(vq_buf.addr).ok_or(DmaAllocation)?; }] *)
Fixpoint free_bufs (l : list VirtqueueBuf) : DM unit :=
  match l with
  | [] => mret tt
  | b :: l =>
      r ← free_dma_memory (buf_addr b);
      _ ← ok_or r VsockTransportError.DmaAllocation;
      free_bufs l
  end.

(** One poll of a send, and of a receive. *)
Definition poll_tx : VM (option unit) :=
  d ← on_device getS;
  if negb (can_pop (tx (vsock d))) then mret None
  else
    bufs ← on_device tx_pop;
    _ ← on_device (free_bufs bufs.1);
    mret (Some tt).

Definition poll_rx (addrs : VsockAddrPair) : VM (option bytes) :=
  d ← on_device getS;
  _ ← (if can_pop (rx (vsock d)) then pop_used_rx else mret tt);
  pop_buf_from_stream_queues addrs.

(** ** The host *)

(** The rings as the host leaves them; their sizes are fixed. *)
Definition host_rings (rm : option RingMemory) (q : VirtQueue) : VirtQueue :=
  match rm with
  | None => q
  | Some rm =>
      let a := mem_avail rm in
      let u := mem_used rm in
      mkVQ (map (mem_desc rm) (seq 0 (length (desc q))))
        (mkAvail (a_flags a) (a_idx a) (resize (length (a_ring (avail q))) 0 (a_ring a)) (a_used_event a))
        (mkUsed (u_flags u) (u_idx u) (resize (length (u_ring (used q))) (mkUsedElem 0 0) (u_ring u))
           (u_avail_event u))
        (queue_idx q) (queue_size q) (num_used q) (free_head q) (avail_idx q) (last_used_idx q)
        (desc_shadow q) (in_use q) (is_head q)
  end.

Definition host_act (a : HostAct) (m : Machine) : Machine :=
  mkMachine
    ((λ v, mkVsock (virtio_transport v) (host_rings (act_rx a) (rx v)) (host_rings (act_tx a) (tx v))
             (event_queue v) (dma_record v) (queue_dma_pages v) (rx_buf_num v)) <$> VSOCK_DEVICE m)
    (page_pool m)
    (foldl (λ x kv, <[kv.1 := kv.2]> x) (shared_mem m) (act_mem a))
    (callbacks m) (irq_flags m) (tail (host_script m)).

(** [poll_fn(..).await]: the host acts, then the future is polled. *)
Fixpoint poll_loop {X} (once : VM (option X)) (acts : list HostAct) : VM X :=
  match acts with
  | [] => failM Pending
  | a :: acts =>
      _ ← modifyS (λ w, set_device (host_act a (device w)) w);
      r ← once;
      match r with Some x => mret x | None => poll_loop once acts end
  end.

Definition poll_until {X} (once : VM (option X)) : VM X :=
  w ← getS; poll_loop once (host_script (device w)).

(** ** The transport of the streams *)

Definition virtio_enqueue (hdr buf : bytes) : VM Z :=
  _ ← enqueue_start hdr buf;
  _ ← poll_until poll_tx;
  mret (lenz buf).

Definition virtio_dequeue (addrs : VsockAddrPair) : VM bytes :=
  r ← pop_buf_from_stream_queues addrs;
  match r with
  | Some data => mret data
  | None => poll_until (poll_rx addrs)
  end.

Definition vsock_transport_can_send : VM bool :=
  d ← on_device getS;
  n ← or_panic (available_desc (tx (vsock d)));
  mret (1 <=? n).

Definition vsock_transport_can_recv : VM bool :=
  d ← on_device getS;
  mret (can_pop (rx (vsock d))).

#[global] Instance virtio_vsock_transport : VsockTransport Machine := {
  MAX_VSOCK_PKT_DATA_LEN := VIRTIO_MAX_PKT_DATA_LEN;
  vsock_transport_get_cid := virtio_get_cid;
  vsock_transport_enqueue := λ _ _ hdr buf, virtio_enqueue hdr buf;
  vsock_transport_dequeue := λ addrs _, virtio_dequeue addrs }.

(** ** Interrupts *)

Definition rx_callback (f : IrqFlags) : IrqFlags := mkFlags true (TX_FLAG f) (CONFIG_FLAG f).
Definition tx_callback (f : IrqFlags) : IrqFlags := mkFlags (RX_FLAG f) true (CONFIG_FLAG f).
Definition config_callback (f : IrqFlags) : IrqFlags := mkFlags (RX_FLAG f) (TX_FLAG f) true.

Definition run_callback (cb : Callback) : IrqFlags → IrqFlags :=
  match cb with RxCallback => rx_callback | TxCallback => tx_callback | ConfigCallback => config_callback end.

(** The handlers registered for [vector] run; they only set a flag. *)
Definition interrupt (vector : Z) (m : Machine) : Machine :=
  mkMachine (VSOCK_DEVICE m) (page_pool m) (shared_mem m) (callbacks m)
    (match list_find (λ c, c.1 = vector) (callbacks m) with
     | Some (_, c) => run_callback c.2 (irq_flags m)
     | None => irq_flags m
     end) (host_script m).

End driver.

Arguments VirtioVsock : clear implicits.
Arguments Machine : clear implicits.
Arguments DevSt : clear implicits.
