(* ===== verification/VsockVirtioSpec.v ===== *)
(** * VsockVirtioSpec: DMA safety of the virtio transport of vsock

    Whatever the host does to the rings and to the shared pages, and however its
    writes interleave with sends and receives: no page is released twice or
    while a queue still refers to it, the ring pages are never released, every
    access is inside an allocated page, and no operation aborts. *)
From stdpp Require Import base tactics numbers option gmap countable list list_numbers.
From S2P Require Import Prelude VirtQueue VirtQueueSpec Vsock VsockStream VsockStreamSpec VsockVmcall VsockVmcallSpec.
From S2P Require Import VsockVirtio.
Local Open Scope Z_scope.

(** ** What the driver relies on *)

(** The page allocator hands out runs of pages that overlap no live run. *)
Class DmaPageLaws (A : Type) `{DmaPageAllocator A} := {
  alloc_fresh n a p a' : 0 < n → alloc_pages n a = (Some p, a') →
    live a' = <[p := n]> (live a) ∧ live a !! p = None ∧ 0 <= p ∧ p + n * PAGE_SIZE < 2 ^ 64 ∧
    ∀ q k, live a !! q = Some k → p + n * PAGE_SIZE <= q ∨ q + k * PAGE_SIZE <= p;
  alloc_fail n a a' : alloc_pages n a = (None, a') → live a' = live a;
  free_live n a p : live a !! p = Some n → live (free_pages p n a) = delete p (live a) }.

(** A register access of the trait keeps the transport's invariant. *)
Ltac reg_safe :=
  lazymatch goal with |- safe _ _ _ _ => idtac | _ => red end;
  first
    [ apply safe_unit; by left
    | apply safe_value; by left
    | apply safe_value; right; by left
    | match goal with |- safe _ (_ ?x) _ _ => apply safe_unit; right; exists x; set_solver end
    | match goal with |- safe _ (_ ?x) _ _ => apply safe_value; right; right; exists x; set_solver end ].

(** ** The invariant *)

(** The rings of the three queues, rounded up by the driver to eight pages. *)
Definition RING_BYTES : Z := 8 * PAGE_SIZE.

(** All buffers of a set of requests. *)
Definition bufs_of (m : requests) : list VirtqueueBuf :=
  concat ((λ kv, kv.2.1 ++ kv.2.2) <$> map_to_list m).

Lemma bufs_of_insert m t r : m !! t = None → bufs_of (<[t := r]> m) ≡ₚ (r.1 ++ r.2) ++ bufs_of m.
Proof. intros Hm. unfold bufs_of. by rewrite map_to_list_insert. Qed.

Lemma bufs_of_delete m t r : m !! t = Some r → bufs_of m ≡ₚ (r.1 ++ r.2) ++ bufs_of (delete t m).
Proof.
  intros Hm. rewrite <-(insert_delete_id m t r Hm) at 1. apply bufs_of_insert. apply lookup_delete_eq.
Qed.

Lemma bufs_of_lookup m t r b : m !! t = Some r → b ∈ r.1 ++ r.2 → b ∈ bufs_of m.
Proof. intros Hm Hb. rewrite (bufs_of_delete _ _ _ Hm). set_solver. Qed.

Lemma used_descs_insert m t r : m !! t = None → used_descs (<[t := r]> m) = lenz r.1 + lenz r.2 + used_descs m.
Proof. intros Hm. unfold used_descs. rewrite map_fold_insert_L; [done| |done]. intros. lia. Qed.

Lemma used_descs_delete m t r : m !! t = Some r → used_descs m = lenz r.1 + lenz r.2 + used_descs (delete t m).
Proof.
  intros Hm. rewrite <-(insert_delete_id m t r Hm) at 1. apply used_descs_insert, lookup_delete_eq.
Qed.

Section driver.
Context {T A : Type} `{!VirtioTransport T} `{!DmaPageAllocator A} `{!InterruptTable}
  `{!TransportSafe T, !DmaPageLaws A}.
Notation DevSt := (DevSt T A).
Notation DM := (M DevSt VsockTransportError.t).
Implicit Types (d : DevSt) (pend : list VirtqueueBuf) (k : Z).

(** A buffer the driver owns: a recorded page that is not a ring page. *)
Definition buf_owned (d : DevSt) (b : VirtqueueBuf) : Prop :=
  buf_addr b ≠ queue_dma_pages (vsock d) ∧
  ∃ r, dma_record (vsock d) !! buf_addr b = Some r ∧ 0 <= buf_len b <= dma_size r ∧ in_u 32 (buf_len b).

(** [dev_inv d pend k]: [pend] are the buffers in the driver's hands (staged but
    not queued, or taken from a queue and not yet released) and [k] how far the
    counter of receive buffers runs ahead of the queue. *)
Record dev_inv (d : DevSt) (pend : list VirtqueueBuf) (k : Z) (mr mt : requests) : Prop := {
  i_transport : t_inv (virtio_transport (vsock d));
  i_rx : vq_abs (rx (vsock d)) mr;
  i_tx : vq_abs (tx (vsock d)) mt;
  i_rec key r : dma_record (vsock d) !! key = Some r →
    dma_addr r = key ∧ dma_size r mod PAGE_SIZE = 0 ∧ live (pool d) !! key = Some (dma_size r / PAGE_SIZE);
  i_ring : dma_record (vsock d) !! queue_dma_pages (vsock d) = Some (mkDma (queue_dma_pages (vsock d)) RING_BYTES);
  i_rx_shape t r : mr !! t = Some r →
    r.1 = [] ∧ ∃ h b, r.2 = [mkBuf h HEADER_LEN; mkBuf b VSOCK_DEFAULT_BUF_SIZE];
  i_tx_shape t r : mt !! t = Some r → r.2 = [];
  i_num : rx_buf_num (vsock d) = used_descs mr + k;
  i_nodup : NoDup (buf_addr <$> bufs_of mr ++ bufs_of mt ++ pend);
  i_owned : Forall (buf_owned d) (bufs_of mr ++ bufs_of mt ++ pend) }.

Definition inv (pend : list VirtqueueBuf) (k : Z) (d : DevSt) : Prop := ∃ mr mt, dev_inv d pend k mr mt.

(** Buffers may be leaked: they stay recorded until the device is dropped. *)
Lemma inv_leak pend pend' k d : pend' ⊆+ pend → inv pend k d → inv pend' k d.
Proof.
  intros (l & Hl)%submseteq_Permutation (mr & mt & []). exists mr, mt.
  assert (bufs_of mr ++ bufs_of mt ++ pend ≡ₚ (bufs_of mr ++ bufs_of mt ++ pend') ++ l) as Hp
    by (rewrite Hl; solve_Permutation).
  rewrite Hp in i_nodup0, i_owned0. split; try done.
  - rewrite fmap_app in i_nodup0. by apply NoDup_app in i_nodup0 as (? & _ & _).
  - by apply Forall_app in i_owned0 as [? _].
Qed.

Lemma inv_perm pend pend' k d : pend ≡ₚ pend' → inv pend k d → inv pend' k d.
Proof. intros Hp. apply inv_leak. by rewrite Hp. Qed.

(** Only the private part of the device matters. *)
Lemma inv_transport t d pend k : t_inv t → inv pend k d → inv pend k (set_transport t d).
Proof. intros Ht (mr & mt & []). exists mr, mt. by split. Qed.

(** Register accesses that return and keep the transport's invariant. *)
Definition quiet {X} (m : M T VirtioError X) : Prop := safe t_inv m (λ _, t_inv) t_inv.

Lemma on_transport_safe {X} (m : M T VirtioError X) pend k :
  quiet m → safe (inv pend k) (on_transport m) (λ _, inv pend k) (inv pend k).
Proof.
  intros Hm d Hd. unfold on_transport. assert (t_inv (virtio_transport (vsock d))) as Ht by (by destruct Hd as (? & ? & [])).
  specialize (Hm _ Ht). destruct (m _) as [[] t]; cbn; [by apply inv_transport..|done].
Qed.

Lemma kick_safe q pend k : safe (inv pend k) (kick_queue q) (λ _, inv pend k) (inv pend k).
Proof.
  eapply safe_bind; [apply on_transport_safe; reg_safe|intros []].
  apply on_transport_safe. reg_safe.
Qed.

(** *** Pages *)

Lemma allocate_run size d : 0 < size < 2 ^ 32 →
  (∃ d', allocate_dma_memory size d = (Ok None, d') ∧ vsock d' = vsock d ∧ live (pool d') = live (pool d)) ∨
  ∃ p a, let n := vsock_align_up size / PAGE_SIZE in
    allocate_dma_memory size d =
      (Ok (Some (mkDma p (n * PAGE_SIZE))), set_dma_record (insert p (mkDma p (n * PAGE_SIZE))) (set_pool a d)) ∧
    0 < n ∧ size <= n * PAGE_SIZE ∧ alloc_pages n (pool d) = (Some p, a).
Proof.
  intros Hs. destruct (vsock_align_up_spec size) as [Ha Hb]; [lia|]. unfold allocate_dma_memory.
  rewrite getS_bind. destruct (alloc_pages _ (pool d)) as [[p|] a] eqn:Ea; rewrite modifyS_bind.
  - right. exists p, a. cbv zeta. rewrite modifyS_bind, Ha. unfold PAGE_SIZE in *.
    split; [done|]. split; [lia|]. split; [lia|done].
  - left. eexists. split; [done|]. split; [done|]. by apply alloc_fail in Ea.
Qed.

(** A live address other than those recorded is not a buffer. *)
Lemma fresh_not_buf d pend k mr mt p :
  dev_inv d pend k mr mt → live (pool d) !! p = None →
  dma_record (vsock d) !! p = None ∧ p ≠ queue_dma_pages (vsock d) ∧
  p ∉ buf_addr <$> bufs_of mr ++ bufs_of mt ++ pend.
Proof.
  intros [] Hp. assert (dma_record (vsock d) !! p = None) as Hr.
  { destruct (dma_record (vsock d) !! p) as [r|] eqn:E; [|done]. apply i_rec0 in E. destruct E as (_ & _ & E). congruence. }
  split; [done|]. split; [congruence|].
  intros (b & -> & Hb)%list_elem_of_fmap. rewrite Forall_forall in i_owned0.
  destruct (i_owned0 b Hb) as (_ & r & E & _). congruence.
Qed.

(** A record more, with its pages, changes nothing for the others. *)
Lemma owned_insert d b p r a :
  dma_record (vsock d) !! p = None → buf_owned d b → buf_owned (set_dma_record (insert p r) (set_pool a d)) b.
Proof.
  intros Hp (Hq & r' & Hr & Hl). split; [done|]. exists r'. split; [|done]. cbn. by rewrite lookup_insert_ne by congruence.
Qed.

Lemma allocate_inv d pend k mr mt p n a len :
  dev_inv d pend k mr mt → 0 < n → alloc_pages n (pool d) = (Some p, a) → 0 <= len <= n * PAGE_SIZE →
  in_u 32 len →
  dev_inv (set_dma_record (insert p (mkDma p (n * PAGE_SIZE))) (set_pool a d)) (mkBuf p len :: pend) k mr mt.
Proof.
  intros Hi Hn Ha Hl Hl'. destruct (alloc_fresh _ _ _ _ Hn Ha) as (Hlive & Hfree & _ & _ & _).
  destruct (fresh_not_buf _ _ _ _ _ _ Hi Hfree) as (Hrec & Hq & Hin). destruct Hi.
  assert (bufs_of mr ++ bufs_of mt ++ mkBuf p len :: pend ≡ₚ mkBuf p len :: bufs_of mr ++ bufs_of mt ++ pend) as Hp
    by solve_Permutation.
  split; cbn; try done.
  - intros key r Hr. rewrite Hlive. apply lookup_insert_Some in Hr as [[<- <-]|[Hne Hr]]; cbn.
    + rewrite lookup_insert_eq, Z.mod_mul, Z.div_mul by (unfold PAGE_SIZE; lia). done.
    + rewrite lookup_insert_ne by done. by apply i_rec0.
  - rewrite lookup_insert_ne by done. done.
  - rewrite Hp. cbn. by apply NoDup_cons.
  - rewrite Hp. constructor.
    + split; [done|]. exists (mkDma p (n * PAGE_SIZE)). split; [cbn; by rewrite lookup_insert_eq|]. done.
    + eapply Forall_impl; [exact i_owned0|]. intros b. by apply owned_insert.
Qed.

Lemma inv_pool d a pend k : live a = live (pool d) → inv pend k d → inv pend k (set_pool a d).
Proof. intros Hl (mr & mt & []). exists mr, mt. split; try done. cbn. by rewrite Hl. Qed.

Lemma allocate_safe size len pend k :
  0 < size < 2 ^ 32 → 0 <= len <= size →
  safe (inv pend k) (allocate_dma_memory size)
    (λ r d, match r with None => inv pend k d | Some x => inv (mkBuf (dma_addr x) len :: pend) k d end) (inv pend k).
Proof.
  intros Hs Hl d Hd. destruct (allocate_run size d Hs) as [(d' & -> & E1 & E2)|(p & a & -> & Hn & Hle & Ha)].
  - destruct d' as [v' a']. cbn in *. subst v'. by apply inv_pool.
  - destruct Hd as (mr & mt & Hi). exists mr, mt. apply allocate_inv; try done; [lia|]. unfold in_u. lia.
Qed.

(** Releasing a buffer in the driver's hands. *)
Lemma free_inv d b pend k mr mt :
  dev_inv d (b :: pend) k mr mt →
  ∃ a, free_dma_memory (buf_addr b) d = (Ok (Some (buf_addr b)), set_dma_record (delete (buf_addr b)) (set_pool a d)) ∧
    dev_inv (set_dma_record (delete (buf_addr b)) (set_pool a d)) pend k mr mt.
Proof.
  intros []. assert (bufs_of mr ++ bufs_of mt ++ b :: pend ≡ₚ b :: bufs_of mr ++ bufs_of mt ++ pend) as Hp
    by solve_Permutation.
  rewrite Hp in i_owned0, i_nodup0. apply Forall_cons in i_owned0 as [(Hq & r & Hr & _) Ho].
  cbn in i_nodup0. apply NoDup_cons in i_nodup0 as [Hnin Hnd].
  destruct (i_rec0 _ _ Hr) as (Hra & Hrm & Hlive).
  unfold free_dma_memory. rewrite getS_bind. destruct (Z.eqb_spec (buf_addr b) (queue_dma_pages (vsock d))); [done|].
  rewrite Hr, M_bind_eq. unfold release. rewrite getS_bind, Hra, bool_decide_eq_true_2 by done.
  eexists. split; [reflexivity|]. split; cbn; try done.
  - intros key r' (Hne & Hr')%lookup_delete_Some. destruct (i_rec0 _ _ Hr') as (H1 & H2 & H3).
    split; [done|]. split; [done|]. rewrite (free_live _ _ _ Hlive). by rewrite lookup_delete_ne.
  - by rewrite lookup_delete_ne.
  - rewrite Forall_forall in *. intros b' Hb'. destruct (Ho b' Hb') as (Hq' & r' & Hr' & Hl'). split; [done|].
    exists r'. cbn. rewrite lookup_delete_ne; [done|]. intros E. apply Hnin. rewrite E. by apply list_elem_of_fmap_2.
Qed.

Lemma free_safe b pend k R :
  safe (inv (b :: pend) k) (free_dma_memory (buf_addr b)) (λ r d, is_Some r ∧ inv pend k d) R.
Proof.
  intros d (mr & mt & Hi). destruct (free_inv _ _ _ _ _ _ Hi) as (a & -> & Hi'). split; [by eexists|]. by exists mr, mt.
Qed.

Lemma free_bufs_safe l : ∀ pend k, safe (inv (l ++ pend) k) (free_bufs l) (λ _, inv pend k) (inv pend k).
Proof.
  induction l as [|b l IH]; intros pend k; cbn [free_bufs app].
  - by apply safe_ret.
  - eapply safe_bind; [apply free_safe|intros r]. eapply safe_bind; [|intros ?; apply IH].
    apply safe_ok_or; [by intros d a [_ Hd] _|]. by intros d [[? ->] _].
Qed.

(** *** Queues *)

Lemma inv_set_num n d pend k : inv pend k d → inv pend (k + n) (set_rx_buf_num (rx_buf_num (vsock d) + n) d).
Proof. intros (mr & mt & []). exists mr, mt. split; try done. cbn. lia. Qed.

Lemma pend_lens d bs pend k mr mt :
  dev_inv d (bs ++ pend) k mr mt → Forall (λ b, in_u 32 (buf_len b)) bs.
Proof.
  intros [_ _ _ _ _ _ _ _ _ Ho]. rewrite !Forall_app in Ho. destruct Ho as (_ & _ & Ho & _).
  eapply Forall_impl; [exact Ho|]. by intros b (_ & r & _ & _ & Hb).
Qed.

Lemma inv_same_rx q d pend k : q = rx (vsock d) → inv pend k d → inv pend k (set_rx q d).
Proof. intros ->. destruct d as [[] ?]. done. Qed.

Lemma inv_same_tx q d pend k : q = tx (vsock d) → inv pend k d → inv pend k (set_tx q d).
Proof. intros ->. destruct d as [[] ?]. done. Qed.

Lemma rx_add_safe h b pend k :
  safe (inv ([mkBuf h HEADER_LEN; mkBuf b VSOCK_DEFAULT_BUF_SIZE] ++ pend) k)
    (rx_add [mkBuf h HEADER_LEN; mkBuf b VSOCK_DEFAULT_BUF_SIZE]) (λ _, inv pend (k - 2)) (inv pend k).
Proof.
  set (bs := [_; _]). intros d (mr & mt & Hi). unfold rx_add.
  pose proof (add_abs (rx (vsock d)) mr [] bs (i_rx _ _ _ _ _ Hi) (pend_lens _ _ _ _ _ _ Hi)) as Hadd.
  destruct (add [] bs (rx (vsock d))) as [[tok|e|] q'] eqn:E; cbn [map_virtio]; [| |done].
  - destruct Hadd as (_ & _ & Hm & Ha & _). destruct Hi. exists (<[tok := ([], bs)]> mr), mt.
    assert (bufs_of (<[tok := ([], bs)]> mr) ++ bufs_of mt ++ pend ≡ₚ bufs_of mr ++ bufs_of mt ++ bs ++ pend) as Hp.
    { rewrite bufs_of_insert by done. cbn [fst snd app]. solve_Permutation. }
    split; cbn; try done.
    + intros t r Hr. apply lookup_insert_Some in Hr as [[<- <-]|[_ Hr]]; [|by eapply i_rx_shape0].
      split; [done|]. by exists h, b.
    + rewrite used_descs_insert by done. change (lenz ([], bs).1) with 0. change (lenz ([], bs).2) with 2. lia.
    + by rewrite Hp.
    + by rewrite Hp.
  - destruct Hadd as [-> _]. apply inv_same_rx; [done|].
    apply (inv_leak (bs ++ pend)); [by apply submseteq_inserts_l|]. by exists mr, mt.
Qed.

Lemma tx_add_safe bs pend k : safe (inv (bs ++ pend) k) (tx_add bs) (λ _, inv pend k) (inv pend k).
Proof.
  intros d (mr & mt & Hi). unfold tx_add.
  pose proof (add_abs (tx (vsock d)) mt bs [] (i_tx _ _ _ _ _ Hi)) as Hadd. rewrite app_nil_r in Hadd.
  specialize (Hadd (pend_lens _ _ _ _ _ _ Hi)).
  destruct (add bs [] (tx (vsock d))) as [[tok|e|] q'] eqn:E; cbn [map_virtio]; [| |done].
  - destruct Hadd as (_ & _ & Hm & Ha & _). destruct Hi. exists mr, (<[tok := (bs, [])]> mt).
    assert (bufs_of mr ++ bufs_of (<[tok := (bs, [])]> mt) ++ pend ≡ₚ bufs_of mr ++ bufs_of mt ++ bs ++ pend) as Hp.
    { rewrite bufs_of_insert by done. cbn [fst snd]. rewrite app_nil_r. solve_Permutation. }
    split; cbn; try done.
    + intros t r Hr. apply lookup_insert_Some in Hr as [[<- <-]|[_ Hr]]; [done|by eapply i_tx_shape0].
    + by rewrite Hp.
    + by rewrite Hp.
  - destruct Hadd as [-> _]. apply inv_same_tx; [done|].
    apply (inv_leak (bs ++ pend)); [by apply submseteq_inserts_l|]. by exists mr, mt.
Qed.

Lemma rx_pop_safe pend k :
  safe (inv pend k) rx_pop
    (λ r d, ∃ h b, r.2 = [mkBuf h HEADER_LEN; mkBuf b VSOCK_DEFAULT_BUF_SIZE] ∧ inv (r.2 ++ pend) (k + 2) d)
    (inv pend k).
Proof.
  intros d (mr & mt & Hi). unfold rx_pop.
  pose proof (pop_abs (rx (vsock d)) mr [] [] (i_rx _ _ _ _ _ Hi)) as Hpop.
  destruct (pop_used _) as [[n|e|] [q' g h]] eqn:E; cbn in Hpop |- *; [| |done].
  - destruct Hpop as (tok & r & _ & _ & Hm & _ & _ & -> & -> & Ha & _). destruct Hi.
    destruct (i_rx_shape0 _ _ Hm) as (Hr1 & hd & bd & Hr2). exists hd, bd. split; [done|].
    exists (delete tok mr), mt. pose proof (bufs_of_delete _ _ _ Hm) as Hd. pose proof (used_descs_delete _ _ _ Hm) as Hu.
    assert (bufs_of (delete tok mr) ++ bufs_of mt ++ r.2 ++ pend ≡ₚ bufs_of mr ++ bufs_of mt ++ pend) as Hp.
    { rewrite Hd, Hr1. cbn [app]. solve_Permutation. }
    split; cbn; try done.
    + intros t x (_ & Hx)%lookup_delete_Some. by eapply i_rx_shape0.
    + rewrite Hr1, Hr2 in Hu. change (lenz []) with 0 in Hu. change (lenz [_; _]) with 2 in Hu. lia.
    + by rewrite Hp.
    + by rewrite Hp.
  - destruct Hpop as [[= -> -> ->] _]. apply inv_same_rx; [done|]. by exists mr, mt.
Qed.

Lemma tx_pop_safe pend k :
  safe (inv pend k) tx_pop (λ r d, inv (r.1 ++ pend) k d) (inv pend k).
Proof.
  intros d (mr & mt & Hi). unfold tx_pop.
  pose proof (pop_abs (tx (vsock d)) mt [] [] (i_tx _ _ _ _ _ Hi)) as Hpop.
  destruct (pop_used _) as [[n|e|] [q' g h]] eqn:E; cbn in Hpop |- *; [| |done].
  - destruct Hpop as (tok & r & _ & _ & Hm & _ & _ & -> & -> & Ha & _). destruct Hi.
    exists mr, (delete tok mt). pose proof (bufs_of_delete _ _ _ Hm) as Hd. pose proof (i_tx_shape0 _ _ Hm) as Hr2.
    assert (bufs_of mr ++ bufs_of (delete tok mt) ++ r.1 ++ pend ≡ₚ bufs_of mr ++ bufs_of mt ++ pend) as Hp.
    { rewrite Hd, Hr2, app_nil_r. solve_Permutation. }
    split; cbn; try done.
    + intros t x (_ & Hx)%lookup_delete_Some. by eapply i_tx_shape0.
    + by rewrite Hp.
    + by rewrite Hp.
  - destruct Hpop as [[= -> -> ->] _]. apply inv_same_tx; [done|]. by exists mr, mt.
Qed.

(** The receive queue is filled up to its limit; the counter stays exact. *)
Definition counter (n : Z) (d : DevSt) : Prop := rx_buf_num (vsock d) = n.

Lemma counter_allocate size n : keeps (λ d d', counter n d → counter n d') (allocate_dma_memory size).
Proof.
  intros d r d'. unfold allocate_dma_memory. rewrite getS_bind.
  destruct (alloc_pages _ _) as [[]]; rewrite modifyS_bind; [rewrite modifyS_bind|]; by intros [= _ <-].
Qed.

Lemma counter_rx_add bs n : keeps (λ d d', counter n d → counter n d') (rx_add bs).
Proof. intros d r d'. unfold rx_add. destruct (add _ _ _). by intros [= _ <-]. Qed.

(** Allocation of a page that must succeed. *)
Lemma allocated_safe {X} size len pend k n (f : DmaRecord → DM X) Q (R : DevSt → Prop) :
  0 < size < 2 ^ 32 → 0 <= len <= size → (∀ d, inv pend k d → R d) →
  (∀ x, safe (λ d, inv (mkBuf (dma_addr x) len :: pend) k d ∧ counter n d) (f x) Q R) →
  safe (λ d, inv pend k d ∧ counter n d)
    (r ← allocate_dma_memory size; x ← ok_or r VsockTransportError.DmaAllocation; f x) Q R.
Proof.
  intros Hs Hl HR Hf.
  eapply safe_bind; [apply safe_frame; [apply counter_allocate|eapply safe_err; [by apply allocate_safe|done]]|].
  intros [x|]; [apply Hf|apply safe_fail; naive_solver].
Qed.

Lemma rx_fill_loop_safe fuel : ∀ pend n, RX_QUEUE_PREFILL_NUM - n <= Z.of_nat fuel →
  safe (λ d, inv pend 0 d ∧ counter n d) (rx_fill_loop fuel)
    (λ _ d, inv pend 0 d ∧ RX_QUEUE_PREFILL_NUM <= rx_buf_num (vsock d)) (inv pend 0).
Proof.
  induction fuel as [|fuel IH]; intros pend n Hf; cbn [rx_fill_loop]; apply safe_get; intros d [Hd <-];
    destruct (Z.ltb_spec (rx_buf_num (vsock d)) RX_QUEUE_PREFILL_NUM); try lia; try by apply safe_ret; intros ? ->.
  apply safe_pre with (λ d', inv pend 0 d' ∧ counter (rx_buf_num (vsock d)) d'); [|by intros ? ->].
  apply (allocated_safe HEADER_LEN HEADER_LEN); [unfold HEADER_LEN; lia..|done|intros h].
  apply (allocated_safe VSOCK_DEFAULT_BUF_SIZE VSOCK_DEFAULT_BUF_SIZE);
    [unfold VSOCK_DEFAULT_BUF_SIZE, PAGE_SIZE; lia..|by intros d'; apply inv_leak, submseteq_cons|intros b].
  eapply safe_bind.
  { eapply safe_pre; [apply safe_frame; [apply counter_rx_add|apply (rx_add_safe _ _ pend 0)]|].
    intros d1 [Hd1 Hc]. split; [|exact Hc]. apply (inv_perm _ _ _ _ (perm_swap _ _ _)). exact Hd1. }
  intros ?. eapply safe_bind; [|intros ?; apply (IH pend (rx_buf_num (vsock d) + 2)); lia].
  apply safe_modifyS. intros d' [Hd' Hc]. split; [apply (inv_set_num 2 _ _ _ Hd')|]. unfold counter in *. cbn. lia.
Qed.

Lemma rx_queue_fill_safe pend : safe (inv pend 0) rx_queue_fill (λ _, inv pend 0) (inv pend 0).
Proof.
  apply safe_get. intros d Hd. destruct (_ <? _); [by apply safe_ret; intros ? ->|].
  eapply safe_bind; [|intros ?; apply kick_safe].
  eapply safe_weaken; [apply (rx_fill_loop_safe _ pend (rx_buf_num (vsock d))); lia|by intros ? ->|by intros ?? [? _]|done].
Qed.

(** ** The machine *)

Notation VM := (M (World (Machine T A)) (aerr VsockTransportError.t)).
Implicit Types w : World (Machine T A).

(** The device is there and satisfies [P]. *)
Definition holds (P : DevSt → Prop) w : Prop :=
  ∃ v, VSOCK_DEVICE (device w) = Some v ∧ P (mkDev v (page_pool (device w))).

(** What holds between two operations. *)
Definition winv w : Prop := VSOCK_DEVICE (device w) = None ∨ holds (inv [] 0) w.

Lemma holds_impl (P Q : DevSt → Prop) w : (∀ d, P d → Q d) → holds P w → holds Q w.
Proof. intros HPQ (v & Hv & HP). exists v. split; [done|]. by apply HPQ. Qed.

Lemma on_device_safe {X} (m : DM X) P Q R :
  safe P m Q R → safe (holds P) (on_device m) (λ a, holds (Q a)) (holds R).
Proof.
  intros Hm w (v & Hv & HP). unfold on_device. rewrite Hv. specialize (Hm _ HP).
  destruct (m _) as [[a|e|] [v' a']]; [exists v'; by split..|done].
Qed.

(** Looking at the device. *)
Lemma peek_safe {X} P (f : DevSt → VM X) Q R :
  (∀ d, P d → safe (holds (λ d', d' = d)) (f d) Q R) → safe (holds P) (on_device getS ≫= f) Q R.
Proof.
  intros Hf w (v & Hv & HP). specialize (Hf _ HP). rewrite M_bind_eq. unfold on_device. rewrite Hv. cbn.
  apply Hf. exists v. done.
Qed.

(** A read of a buffer in the driver's hands stays inside its pages. *)
Lemma read_dma_safe {X} b len pend k (f : bytes → VM X) Q R :
  0 <= len <= buf_len b → b ∈ pend →
  (∀ bs, lenz bs = len → bytes_ok bs → safe (holds (inv pend k)) (f bs) Q R) →
  safe (holds (inv pend k)) (read_dma (buf_addr b) len ≫= f) Q R.
Proof.
  intros Hl Hb Hf w (v & Hv & Hi). rewrite M_bind_eq. unfold read_dma. rewrite getS_bind.
  pose proof Hi as (mr & mt & []). rewrite !Forall_app, !Forall_forall in i_owned0. destruct i_owned0 as (_ & _ & Ho).
  destruct (Ho b Hb) as (_ & r & Hr & Hrl & _). destruct (i_rec0 _ _ Hr) as (_ & Hm & Hlive). cbn in Hlive.
  rewrite Hlive. apply Z.div_exact in Hm; [|done].
  destruct (Z.leb_spec len (dma_size r / PAGE_SIZE * PAGE_SIZE)); [|lia]. cbn [mret M_ret].
  apply Hf; [| |exists v; by split].
  - unfold lenz. rewrite length_fmap, length_seqZ. lia.
  - apply Forall_fmap, Forall_true. intros i. apply Z.mod_pos_bound. lia.
Qed.

Lemma push_safe key buf P R : safe (holds P) (push_buf_into_stream_queues key buf) (λ _, holds P) R.
Proof.
  apply safe_modifyS. intros w. unfold holds, push_queues. destruct buf; [done|].
  by destruct (CONNECTION_PKT_QUEUES w !! key), (BINDING_PKT_QUEUES w !! local key).
Qed.

(** Releasing a buffer and insisting on the result. *)
Lemma give_back_safe {X} b pend k (f : Z → VM X) Q R :
  (∀ a, safe (holds (inv pend k)) (f a) Q R) →
  safe (holds (inv (b :: pend) k))
    (r ← on_device (free_dma_memory (buf_addr b)); a ← ok_or r (Failed VsockTransportError.DmaAllocation); f a) Q R.
Proof.
  intros Hf. eapply safe_bind.
  - eapply safe_err; [apply on_device_safe, (free_safe b pend k (λ _, False))|by intros w (v & _ & [])].
  - intros r w (v & Hv & [a ->] & Hi). apply Hf. by exists v.
Qed.

Lemma checked_header_safe {X} hdr P (f : bytes → VM X) Q (R : World (Machine T A) → Prop) :
  (∀ w, holds P w → R w) →
  (lenz hdr = HEADER_LEN → (∃ n, data_len hdr = Some n ∧ n <= 0) → (∃ key, packet_key hdr = Some key) →
   safe (holds P) (f hdr) Q R) →
  lenz hdr = HEADER_LEN → safe (holds P) (liftT (checked_header hdr) ≫= f) Q R.
Proof.
  intros HR Hf Hl w Hw. rewrite M_bind_eq. unfold liftT, checked_header, new_checked.
  pose proof (packet_check_spec hdr) as Hs. destruct (packet_check hdr) as [[]|e|] eqn:Ec; cbn; [|by apply HR|done].
  destruct Hs as (_ & _ & o & n & _ & _ & _ & Hn & _). apply Hf; try done; [|by apply header_key].
  exists n. split; [done|]. by eapply checked_header_no_data.
Qed.

Lemma recv_pkt_safe h b pend :
  safe (holds (inv (mkBuf h HEADER_LEN :: mkBuf b VSOCK_DEFAULT_BUF_SIZE :: pend) 0))
    (recv_pkt [mkBuf h HEADER_LEN; mkBuf b VSOCK_DEFAULT_BUF_SIZE])
    (λ _, holds (inv pend 0)) (holds (inv pend 0)).
Proof.
  unfold recv_pkt. change (nthz [mkBuf h HEADER_LEN; mkBuf b VSOCK_DEFAULT_BUF_SIZE] 0) with (Some (mkBuf h HEADER_LEN)).
  change (nthz [mkBuf h HEADER_LEN; mkBuf b VSOCK_DEFAULT_BUF_SIZE] 1) with (Some (mkBuf b VSOCK_DEFAULT_BUF_SIZE)).
  set (hb := mkBuf h HEADER_LEN). set (db := mkBuf b VSOCK_DEFAULT_BUF_SIZE).
  intros w Hw. rewrite or_panic_bind. revert w Hw.
  apply (peek_safe (inv (hb :: db :: pend) 0)). intros d Hd.
  assert (is_Some (dma_record (vsock d) !! h)) as Hrec.
  { destruct Hd as (mr & mt & []). rewrite !Forall_app in i_owned0. destruct i_owned0 as (_ & _ & Ho).
    apply Forall_cons in Ho as [(_ & r & Hr & _) _]. by exists r. }
  rewrite bool_decide_eq_true_2 by done. cbn [buf_len hb negb]. rewrite Z.eqb_refl. cbn [negb].
  apply safe_pre with (holds (inv (hb :: db :: pend) 0)); [|intros w; apply holds_impl; by intros ? ->].
  eapply safe_bind with (Q := λ hdr w, lenz hdr = HEADER_LEN ∧ holds (inv (db :: pend) 0) w).
  { apply (read_dma_safe hb HEADER_LEN); [cbn; unfold HEADER_LEN; lia|set_solver|]. intros bs Hl _.
    apply (give_back_safe hb). intros _. by apply safe_ret. }
  intros hdr w [Hl Hw]. revert w Hw.
  assert (∀ w, holds (inv (db :: pend) 0) w → holds (inv pend 0) w) as Hleak
    by (intros w; apply holds_impl; intros ?; apply inv_leak; by apply submseteq_cons).
  apply checked_header_safe; [done| |done]. intros _ (n & -> & Hn) (key & ->).
  intros w Hw. rewrite !or_panic_bind. revert w Hw.
  apply safe_bind with (λ _, holds (inv (db :: pend) 0)).
  - destruct (n =? 0); cbn [negb]; [by apply safe_ret|].
    destruct (_ <? n); [by apply safe_fail|]. apply peek_safe. intros d' Hd'.
    apply safe_pre with (holds (inv (db :: pend) 0)); [|intros w; apply holds_impl; by intros ? ->].
    destruct (dma_record (vsock d') !! _) as [r|] eqn:Er; [|by apply safe_ret].
    assert (0 <= Z.min (buf_len db) (dma_size r) <= buf_len db) as Hm.
    { destruct Hd' as (mr & mt & []). rewrite !Forall_app in i_owned0. destruct i_owned0 as (_ & _ & Ho).
      apply Forall_cons in Ho as [(_ & r' & Hr' & Hlen & _) _]. replace r' with r in Hlen by congruence. lia. }
    intros w Hw. pose proof (read_dma_safe db _ (db :: pend) 0 mret (λ _, holds (inv (db :: pend) 0)) (holds (inv pend 0)) Hm
      ltac:(set_solver) ltac:(intros; by apply safe_ret) w Hw) as Hr.
    rewrite M_bind_eq in Hr. by destruct (read_dma _ _ w) as [[] ?].
  - intros data. apply (give_back_safe db). intros _ w Hw. rewrite or_panic_bind. revert w Hw.
    eapply safe_bind; [apply push_safe|intros ?; apply push_safe].
Qed.

Lemma pop_used_rx_safe : safe (holds (inv [] 0)) pop_used_rx (λ _, holds (inv [] 0)) (holds (inv [] 0)).
Proof.
  eapply safe_bind; [apply on_device_safe, rx_pop_safe|]. intros [g h2g]. cbn [snd].
  eapply safe_pre with (holds (λ d, _)); [|done]. apply peek_safe. intros d (h & b & -> & Hi).
  assert (2 <= rx_buf_num (vsock d)) as Hn.
  { destruct Hi as (mr & mt & []). rewrite i_num0, <-(abs_used _ _ i_rx0).
    destruct i_rx0 as (fl & cs & [] & _). pose proof (lenz_nonneg (nodes cs)). lia. }
  change (lenz [mkBuf h HEADER_LEN; mkBuf b VSOCK_DEFAULT_BUF_SIZE] =? 2) with true. cbn [negb].
  intros w Hw. rewrite or_panic_bind. unfold sub_u. destruct (Z.leb_spec 2 (rx_buf_num (vsock d))); [|lia]. revert w Hw.
  eapply safe_bind.
  { apply on_device_safe. apply (safe_modifyS _ _ (λ _, inv ([mkBuf h HEADER_LEN; mkBuf b VSOCK_DEFAULT_BUF_SIZE] ++ []) 0)
      (inv [] 0)). intros ? ->.
    apply (inv_set_num (-2) d _ 2 Hi). }
  intros ?. eapply safe_bind; [apply recv_pkt_safe|intros ?; apply on_device_safe, rx_queue_fill_safe].
Qed.

(** Staging data for the device writes inside the pages just allocated. *)
Lemma stage_safe data pend k : 0 < lenz data < 2 ^ 32 →
  safe (holds (inv pend k)) (stage data) (λ b, holds (inv (b :: pend) k)) (holds (inv pend k)).
Proof.
  intros Hl w (v & Hv & Hi). unfold stage, on_device. rewrite M_bind_eq, Hv.
  destruct (allocate_run (lenz data) (mkDev v (page_pool (device w))) Hl)
    as [([v' a'] & -> & E1 & E2)|(p & a & -> & Hn & Hle & Ha)].
  - cbn in E1, E2. subst v'. cbn. exists v. split; [done|]. by apply (inv_pool (mkDev v (page_pool (device w)))).
  - set (n := vsock_align_up (lenz data) / PAGE_SIZE) in *. cbv beta iota. cbn [ok_or dma_addr dma_size].
    rewrite ret_bind, M_bind_eq. unfold write_dma. rewrite getS_bind.
    destruct (alloc_fresh _ _ _ _ Hn Ha) as (Hlive & _). cbn. rewrite Hlive, lookup_insert_eq, Z.leb_refl.
    destruct (Z.leb_spec (lenz data) (n * PAGE_SIZE)); [|lia]. cbn.
    eexists. split; [done|]. destruct Hi as (mr & mt & Hi). exists mr, mt. unfold as_u. rewrite Z.mod_small by lia.
    apply (allocate_inv (mkDev v (page_pool (device w))) _ _ _ _ _ _ _ _ Hi); try done; [lia|]. unfold in_u. lia.
Qed.

Lemma stage_packet_safe hdr buf :
  lenz hdr = HEADER_LEN → lenz buf <= VIRTIO_MAX_PKT_DATA_LEN →
  safe (holds (inv [] 0)) (stage_packet hdr buf) (λ g2h, holds (inv (g2h ++ []) 0)) (holds (inv [] 0)).
Proof.
  unfold HEADER_LEN, VIRTIO_MAX_PKT_DATA_LEN. intros Hh Hb. eapply safe_bind; [apply stage_safe; lia|intros h].
  case_bool_decide as Hne; [by apply safe_ret|].
  eapply safe_bind; [eapply safe_err; [apply stage_safe|]|].
  - pose proof (lenz_nonneg buf). destruct buf; [done|]. unfold lenz in *. cbn [length] in *. lia.
  - intros w. apply holds_impl. intros ?. by apply inv_leak, submseteq_nil_l.
  - intros b. apply safe_ret. intros w. apply holds_impl. intros ?. apply inv_perm. constructor.
Qed.

Lemma enqueue_start_safe hdr buf :
  safe (holds (inv [] 0)) (enqueue_start hdr buf) (λ _, holds (inv [] 0)) (holds (inv [] 0)).
Proof.
  unfold enqueue_start. destruct (Z.eqb_spec (lenz hdr) HEADER_LEN) as [Hh|]; cbn [negb orb]; [|by apply safe_fail].
  destruct (Z.ltb_spec VIRTIO_MAX_PKT_DATA_LEN (lenz buf)) as [|Hb]; [by apply safe_fail|].
  eapply safe_bind; [by apply stage_packet_safe|intros g2h].
  eapply safe_bind; [apply on_device_safe, tx_add_safe|intros ?; apply on_device_safe, kick_safe].
Qed.

Lemma poll_tx_safe : safe (holds (inv [] 0)) poll_tx (λ _, holds (inv [] 0)) (holds (inv [] 0)).
Proof.
  apply peek_safe. intros d Hd.
  apply safe_pre with (holds (inv [] 0)); [|intros w; apply holds_impl; by intros ? ->].
  destruct (can_pop _); cbn [negb]; [|by apply safe_ret].
  eapply safe_bind; [apply on_device_safe, tx_pop_safe|intros bufs].
  eapply safe_bind; [apply on_device_safe, free_bufs_safe|intros ?; by apply safe_ret].
Qed.

Lemma pop_stream_safe addrs P R : safe (holds P) (pop_buf_from_stream_queues addrs) (λ _, holds P) R.
Proof.
  intros w Hw. unfold pop_buf_from_stream_queues, pop_queues.
  by destruct (CONNECTION_PKT_QUEUES w !! addrs) as [[]|], (BINDING_PKT_QUEUES w !! local addrs) as [[]|].
Qed.

Lemma poll_rx_safe addrs : safe (holds (inv [] 0)) (poll_rx addrs) (λ _, holds (inv [] 0)) (holds (inv [] 0)).
Proof.
  apply peek_safe. intros d Hd.
  apply safe_pre with (holds (inv [] 0)); [|intros w; apply holds_impl; by intros ? ->].
  eapply safe_bind; [|intros ?; apply pop_stream_safe].
  destruct (can_pop _); [apply pop_used_rx_safe|by apply safe_ret].
Qed.

Lemma can_send_safe : safe (holds (inv [] 0)) vsock_transport_can_send (λ _, holds (inv [] 0)) (holds (inv [] 0)).
Proof.
  apply peek_safe. intros d Hd. apply safe_bind with (λ _, holds (inv [] 0)); [|intros ?; by apply safe_ret].
  apply safe_or_panic. intros w Hw. unfold available_desc, sub_u.
  assert (num_used (tx (vsock d)) <= queue_size (tx (vsock d))) as Hle.
  { destruct Hd as (mr & mt & [_ _ (fl & cs & Hi & _) _ _ _ _ _ _ _]). rewrite (inv_num _ _ _ Hi), <-(inv_size _ _ _ Hi).
    pose proof (lenz_nonneg fl). lia. }
  destruct (Z.leb_spec (num_used (tx (vsock d))) (queue_size (tx (vsock d)))); [|lia].
  eexists. split; [done|]. revert Hw. apply holds_impl. by intros ? ->.
Qed.

Lemma can_recv_safe : safe (holds (inv [] 0)) vsock_transport_can_recv (λ _, holds (inv [] 0)) (holds (inv [] 0)).
Proof. apply peek_safe. intros d Hd. apply safe_ret. intros w. apply holds_impl. by intros ? ->. Qed.

Lemma get_cid_safe : safe (holds (inv [] 0)) virtio_get_cid (λ _, holds (inv [] 0)) (holds (inv [] 0)).
Proof.
  eapply safe_bind; [apply on_device_safe, on_transport_safe; reg_safe|intros lo].
  eapply safe_bind; [apply on_device_safe, on_transport_safe; reg_safe|intros hi].
  by apply safe_ret.
Qed.

(** ** Creation *)

Lemma quiet_bind {X Y} (m : M T VirtioError X) (f : X → M T VirtioError Y) :
  quiet m → (∀ x, quiet (f x)) → quiet (m ≫= f).
Proof. intros Hm Hf. by eapply safe_bind. Qed.

Definition rings_ok (mem : Z → RingMemory) : Prop :=
  ∀ i, lenz (a_ring (mem_avail (mem i))) = MAX_QUEUE_SIZE ∧ lenz (u_ring (mem_used (mem i))) = MAX_QUEUE_SIZE.

Lemma vq_new_quiet mem idx addr :
  lenz (a_ring (mem_avail mem)) = MAX_QUEUE_SIZE → lenz (u_ring (mem_used mem)) = MAX_QUEUE_SIZE →
  addr + 2 * PAGE_SIZE < 2 ^ 64 → quiet (vq_new mem idx addr QUEUE_SIZE).
Proof.
  intros Ha Hu Haddr. unfold vq_new. change (is_power_of_two QUEUE_SIZE) with true. cbn [negb orb].
  apply quiet_bind; [reg_safe|intros max].
  destruct (max <? QUEUE_SIZE); [by intros t Ht|]. change (MAX_QUEUE_SIZE <? QUEUE_SIZE) with false.
  destruct (layout_small QUEUE_SIZE eq_refl ltac:(done)) as (layout & -> & _ & Ho1 & Ho2 & _ & Hs).
  rewrite Hs in Ho2. unfold QUEUE_SIZE, MAX_QUEUE_SIZE, size_of_UsedElem, PAGE_SIZE, size_of_Descriptor in *.
  intros t Ht. rewrite err_if_bind, ok_or_bind. revert t Ht.
  apply quiet_bind; [reg_safe|intros []].
  unfold add_u, checked_add. destruct (Z.ltb_spec (addr + avail_offset layout) (2 ^ 64)); [|lia].
  intros t Ht. rewrite or_panic_bind. revert t Ht.
  apply quiet_bind; [reg_safe|intros []].
  destruct (Z.ltb_spec (addr + used_offset layout) (2 ^ 64)); [|lia]. intros t Ht. rewrite or_panic_bind. revert t Ht.
  apply quiet_bind; [reg_safe|intros []].
  destruct (new_queue_inv mem idx 16 eq_refl ltac:(done) Ha Hu) as (ds & s & Hlink & _).
  unfold MAX_QUEUE_SIZE in Hlink. intros t Ht. by rewrite Hlink, or_panic_bind.
Qed.

Lemma create_queue_quiet mem idx addr :
  rings_ok mem → addr + 2 * PAGE_SIZE < 2 ^ 64 → quiet (create_queue (mem idx) idx addr QUEUE_SIZE).
Proof.
  intros Hm Ha. destruct (Hm idx). unfold create_queue.
  apply quiet_bind; [reg_safe|intros []].
  apply quiet_bind; [reg_safe|intros []].
  apply quiet_bind; [by apply vq_new_quiet|intros q].
  apply quiet_bind; [reg_safe|by intros ? t Ht].
Qed.

Lemma create_queue_abs mem idx addr t q t' :
  rings_ok mem → create_queue (mem idx) idx addr QUEUE_SIZE t = (Ok q, t') → vq_abs q ∅.
Proof.
  intros Hm. destruct (Hm idx). unfold create_queue.
  intros (? & ? & _ & (? & ? & _ & (q' & ? & E & (? & ? & _ & E')%M_bind_Ok_inv)%M_bind_Ok_inv)%M_bind_Ok_inv)%M_bind_Ok_inv.
  injection E' as <- _. by eapply new_abs.
Qed.

(** During creation the pool holds the live pages [L]. *)
Definition boot_live (L : gmap Z Z) (b : Boot (T := T) (A := A)) : Prop :=
  live (b_pool b) = L ∧ t_inv (b_transport b).

(** Before the transport is initialized. *)
Definition boot_start (L : gmap Z Z) (b : Boot (T := T) (A := A)) : Prop :=
  live (b_pool b) = L ∧ t_start (b_transport b).

Lemma boot_transport_safe {X} (m : M T VirtioError X) L :
  quiet m → safe (boot_live L) (boot_transport m) (λ x b, boot_live L b ∧ ∃ t t', m t = (Ok x, t')) (boot_live L).
Proof.
  intros Hm b [Hb Ht]. unfold boot_transport. specialize (Hm (b_transport b) Ht).
  destruct (m (b_transport b)) as [[x|e|] t'] eqn:E; cbn; [|done|done]. split; [done|]. by exists (b_transport b), t'.
Qed.

Lemma boot_unit_safe (m : M T VirtioError unit) L :
  quiet m → safe (boot_live L) (boot_transport m) (λ _, boot_live L) (boot_live L).
Proof. intros Hm. eapply safe_weaken; [by apply boot_transport_safe|done|by intros ?? [? _]|done]. Qed.

Lemma boot_value_safe (m : M T VirtioError Z) L :
  quiet m → safe (boot_live L) (boot_transport m) (λ _, boot_live L) (boot_live L).
Proof. intros Hm. eapply safe_weaken; [by apply boot_transport_safe|done|by intros ?? [? _]|done]. Qed.

Lemma register_safe v cb L : safe (boot_live L) (register_callback v cb) (λ _, boot_live L) (boot_live L).
Proof. apply safe_bind with (λ _, boot_live L); [by apply safe_err_if|intros ?; by apply safe_modifyS]. Qed.

Lemma fail_device_safe L : safe (boot_live L) (fail_device (X := unit)) (λ _, boot_live L) (boot_live L).
Proof.
  eapply safe_bind; [apply boot_unit_safe; reg_safe|intros ?].
  by apply safe_fail.
Qed.

Lemma negotiate_safe L : safe (boot_start L) negotiate (λ _, boot_live L) (boot_live L).
Proof.
  eapply safe_bind with (λ _, boot_live L).
  { intros b [Hb Ht]. unfold init_error, boot_transport.
    pose proof (safe_init VIRTIO_SUBSYSTEM_VSOCK _ Ht) as Hi. by destruct (vt_init _ _) as [[] ?]. }
  intros []. do 5 (eapply safe_bind; [apply boot_unit_safe; reg_safe|intros []]).
  eapply safe_bind; [apply boot_value_safe; reg_safe|intros st].
  apply safe_bind with (λ _, boot_live L); [destruct (negb _); [apply fail_device_safe|by apply safe_ret]|intros []].
  eapply safe_bind; [apply boot_value_safe; reg_safe|intros mx].
  apply safe_bind with (λ _, boot_live L); [destruct (_ <? _); [apply fail_device_safe|by apply safe_ret]|intros []].
  apply boot_unit_safe. reg_safe.
Qed.

(** What a new device starts with: its ring pages, no request and no buffer. *)
Definition fresh_device (L : gmap Z Z) (v : VirtioVsock T) (b : Boot (T := T) (A := A)) : Prop :=
  inv [] 0 (mkDev v (b_pool b)) ∧
  ∃ p, L !! p = None ∧ boot_live (<[p := 8]> L) b ∧ dma_record v = {[p := mkDma p RING_BYTES]}.

Lemma fresh_device_intro L p rxq txq ev b :
  L !! p = None → boot_live (<[p := 8]> L) b → vq_abs rxq ∅ → vq_abs txq ∅ →
  fresh_device L (mkVsock (b_transport b) rxq txq ev {[p := mkDma p RING_BYTES]} p 0) b.
Proof.
  intros Hp Hb Hr Ht. split; [|by exists p]. exists ∅, ∅. split; cbn; try done.
  - apply Hb.
  - intros key r (<- & <-)%lookup_singleton_Some. cbn. rewrite (proj1 Hb), lookup_insert_eq. done.
  - apply lookup_singleton_eq.
  - constructor.
Qed.

Lemma queue_step {X} mem idx addr L (f : VirtQueue → M (Boot (T := T) (A := A)) VsockTransportError.t X) Q R :
  rings_ok mem → addr + 2 * PAGE_SIZE < 2 ^ 64 → (∀ b, boot_live L b → R b) →
  (∀ q, vq_abs q ∅ → safe (boot_live L) (f q) Q R) →
  safe (boot_live L) (boot_transport (create_queue (mem idx) idx addr QUEUE_SIZE) ≫= f) Q R.
Proof.
  intros Hm Ha HR Hf. eapply safe_bind.
  - eapply safe_err; [apply boot_transport_safe; by apply create_queue_quiet|done].
  - intros q b [Hb (t & t' & E)]. apply Hf; [|done]. by eapply create_queue_abs.
Qed.

Lemma vsock_new_safe mem L :
  rings_ok mem → safe (boot_start L) (vsock_new mem) (fresh_device L) (λ b, L ⊆ live (b_pool b)).
Proof.
  intros Hm. unfold vsock_new. apply safe_bind with (λ _, boot_live L).
  { eapply safe_err; [apply negotiate_safe|]. by intros b [-> _]. }
  intros []. destruct (layout_small QUEUE_SIZE eq_refl ltac:(done)) as (layout & -> & _ & _ & _ & _ & Hs).
  intros b [Hb Ht]. rewrite ok_or_bind, getS_bind, Hs.
  change (as_u 64 (Z.shiftl (2 * PAGE_SIZE) 2)) with RING_BYTES. change (RING_BYTES / PAGE_SIZE) with 8.
  destruct (alloc_pages 8 (b_pool b)) as [[p|] a] eqn:Ea; rewrite modifyS_bind; cbn [ok_or].
  2:{ apply alloc_fail in Ea. change (L ⊆ live a). by rewrite Ea, Hb. }
  rewrite ret_bind. destruct (alloc_fresh 8 _ _ _ ltac:(done) Ea) as (Hlive & Hp & Hp0 & Hp1 & _). rewrite Hb in Hlive, Hp.
  set (b1 := mkBoot (b_transport b) a (b_callbacks b)). assert (boot_live (<[p := 8]> L) b1) as Hb1 by done.
  generalize dependent b1. clear b Hb Ht Ea a Hlive. intros b1 Hb1. revert b1 Hb1.
  assert (∀ b : Boot (T := T) (A := A), boot_live (<[p := 8]> L) b → L ⊆ live (b_pool b)) as HR
    by (intros b [-> _]; by apply insert_subseteq).
  unfold PAGE_SIZE in *. apply queue_step; [done|unfold PAGE_SIZE; lia|done|]. intros rxq Hrx.
  intros b Hb. unfold add_u, checked_add. destruct (Z.ltb_spec (p + 2 * 4096) (2 ^ 64)); [|lia].
  rewrite or_panic_bind. revert b Hb. apply queue_step; [done|unfold PAGE_SIZE; lia|done|]. intros txq Htx.
  intros b Hb. destruct (Z.ltb_spec (p + 2 * 4096 + 2 * 4096) (2 ^ 64)); [|lia].
  rewrite or_panic_bind. revert b Hb. apply queue_step; [done|unfold PAGE_SIZE; lia|done|]. intros evq Hev.
  apply safe_err with (boot_live (<[p := 8]> L)); [|done].
  assert (∀ i j, quiet (notify_through i j)) as Hn.
  { intros i j. apply quiet_bind; [reg_safe|intros []]. apply quiet_bind; [reg_safe|intros []]. reg_safe. }
  do 2 (eapply safe_bind; [apply boot_value_safe; reg_safe|intros ?];
        eapply safe_bind; [by apply boot_unit_safe|intros []]).
  do 3 (eapply safe_bind; [apply register_safe|intros []]).
  apply safe_get. intros b Hb. apply safe_ret. intros b' ->. by apply fresh_device_intro.
Qed.

(** More live pages do not disturb a device. *)
Lemma inv_more v a a' pend k : live a ⊆ live a' → inv pend k (mkDev v a) → inv pend k (mkDev v a').
Proof.
  intros Hs (mr & mt & []). exists mr, mt. split; try done. cbn in *. intros key r Hr.
  destruct (i_rec0 _ _ Hr) as (? & ? & ?). split; [done|]. split; [done|]. by eapply lookup_weaken.
Qed.

(** A device that was not installed gives back exactly its ring pages. *)
Lemma drop_fresh L v b : fresh_device L v b →
  ∃ d, drop_vsock (mkDev v (b_pool b)) = (Ok tt, d) ∧ live (pool d) = L.
Proof.
  intros (_ & p & Hp & Hb & Hr). unfold drop_vsock. rewrite getS_bind. cbn [vsock]. rewrite Hr, map_to_list_singleton.
  destruct Hb as [Hb _]. cbn [release_all]. unfold release. rewrite M_bind_eq, getS_bind. cbn [pool dma_addr dma_size].
  change (RING_BYTES / PAGE_SIZE) with 8. rewrite Hb, lookup_insert_eq, bool_decide_eq_true_2 by done.
  eexists. split; [reflexivity|]. cbn. rewrite (free_live 8); rewrite Hb; [|apply lookup_insert_eq].
  by rewrite delete_insert_id.
Qed.

Lemma driver_ok_safe :
  safe (holds (inv [] 0))
    (_ ← on_device (on_transport (add_status VIRTIO_STATUS_DRIVER_OK));
     status ← on_device (on_transport get_status);
     if negb (Z.land status VIRTIO_STATUS_DRIVER_OK =? VIRTIO_STATUS_DRIVER_OK) then
       _ ← on_device (on_transport (add_status VIRTIO_STATUS_FAILED));
       fail VsockTransportError.Initilization
     else on_device rx_queue_fill) (λ _, holds (inv [] 0)) (holds (inv [] 0)).
Proof.
  eapply safe_bind; [apply on_device_safe, on_transport_safe; reg_safe|intros []].
  eapply safe_bind; [apply on_device_safe, on_transport_safe; reg_safe|intros st]. destruct (negb _).
  - eapply safe_bind; [apply on_device_safe, on_transport_safe; reg_safe|intros []]. by apply safe_fail.
  - apply on_device_safe, rx_queue_fill_safe.
Qed.

Lemma init_safe mem t : rings_ok mem → t_start t → safe winv (vsock_transport_init mem t) (λ _, winv) winv.
Proof.
  intros Hm Ht w Hw. unfold vsock_transport_init. rewrite getS_bind.
  pose proof (vsock_new_safe mem (live (page_pool (device w))) Hm
    (mkBoot t (page_pool (device w)) (callbacks (device w))) (conj eq_refl Ht)) as Hnew.
  destruct (vsock_new mem _) as [[v|e|] b] eqn:E; [| |done].
  - match goal with |- match (?m0 ≫= ?f) w with _ => _ end =>
      enough (∃ w1, m0 w = (Ok tt, w1) ∧ holds (inv [] 0) w1) as (w1 & Hrun & H1) end.
    { rewrite (M_bind_Ok _ _ _ _ _ Hrun).
      exact (safe_weaken (holds (inv [] 0)) _ _ _ (λ _, winv) _ winv driver_ok_safe (λ _ x, x)
               (λ _ _ x, or_intror x) (λ _ x, or_intror x) w1 H1). }
    destruct (VSOCK_DEVICE (device w)) as [v0|] eqn:Hv.
    + destruct (drop_fresh _ _ _ Hnew) as (d & -> & Hlive). eexists. split; [done|]. exists v0. split; [done|].
      destruct Hw as [Hw|(v1 & Hv1 & Hi)]; [congruence|]. replace v0 with v1 by congruence.
      revert Hi. apply inv_more. cbn. by rewrite Hlive.
    + eexists. split; [done|]. exists v. split; [done|]. apply Hnew.
  - rewrite modifyS_bind. cbn. destruct Hw as [Hw|(v1 & Hv1 & Hi)]; [by left|right].
    exists v1. split; [done|]. revert Hi. by apply inv_more.
Qed.

(** ** The host *)

Lemma host_rings_step rm q : host_step q (host_rings rm q).
Proof.
  destruct rm as [rm|]; [|by destruct q].
  split; [cbn; by rewrite length_map, length_seq|]. split; [cbn; by rewrite length_resize|].
  split; [cbn; by rewrite length_resize|done].
Qed.

(** Any change of the rings that the host can make, and any of the memory. *)
Inductive host_move w : World (Machine T A) → Prop :=
  | host_moves v rxq txq evq mem script :
      VSOCK_DEVICE (device w) = Some v →
      host_step (rx v) rxq → host_step (tx v) txq → host_step (event_queue v) evq →
      host_move w (set_device (mkMachine
        (Some (mkVsock (virtio_transport v) rxq txq evq (dma_record v) (queue_dma_pages v) (rx_buf_num v)))
        (page_pool (device w)) mem (callbacks (device w)) (irq_flags (device w)) script) w).

Lemma host_move_inv w w' : host_move w w' → holds (inv [] 0) w → holds (inv [] 0) w'.
Proof.
  intros [v rxq txq evq mem script Hv Hr Ht He] (v1 & Hv1 & mr & mt & Hi). replace v1 with v in Hi by congruence.
  eexists. split; [done|]. exists mr, mt. destruct Hi. split; try done; by eapply host_step_abs.
Qed.

Lemma host_act_winv a w : winv w → winv (set_device (host_act a (device w)) w).
Proof.
  intros [Hw|Hw]; [left; cbn; by rewrite Hw|right]. destruct Hw as (v & Hv & mr & mt & Hi).
  eexists. split; [cbn; by rewrite Hv|]. exists mr, mt. destruct Hi.
  split; try done; (eapply host_step_abs; [apply host_rings_step|done]).
Qed.

(** ** Reachable states *)

(** Without a device every call fails and changes nothing. *)
Lemma lift_winv {X} (m : VM X) :
  (∀ w, VSOCK_DEVICE (device w) = None → ∃ e, m w = (Err e, w)) →
  safe (holds (inv [] 0)) m (λ _, holds (inv [] 0)) (holds (inv [] 0)) → safe winv m (λ _, winv) winv.
Proof.
  intros Hn Hm w [Hw|Hw].
  - destruct (Hn w Hw) as [e ->]. by left.
  - exact (safe_weaken _ _ _ _ (λ _, winv) _ winv Hm (λ _ x, x) (λ _ _ x, or_intror x) (λ _ x, or_intror x) w Hw).
Qed.

Lemma absent_bind {X Y} (m : DM X) (f : X → VM Y) w :
  VSOCK_DEVICE (device w) = None → ∃ e, (on_device m ≫= f) w = (Err e, w).
Proof. intros Hw. rewrite M_bind_eq. unfold on_device. rewrite Hw. by eexists. Qed.

Lemma poll_loop_safe {X} (once : VM (option X)) acts :
  safe winv once (λ _, winv) winv → safe winv (poll_loop once acts) (λ _, winv) winv.
Proof.
  intros Ho. induction acts as [|a acts IH]; cbn [poll_loop]; [by apply safe_fail|].
  apply safe_bind with (λ _, winv); [apply safe_modifyS; intros w; apply host_act_winv|intros ?].
  eapply safe_bind; [exact Ho|intros [x|]; [by apply safe_ret|exact IH]].
Qed.

Lemma poll_until_safe {X} (once : VM (option X)) :
  safe winv once (λ _, winv) winv → safe winv (poll_until once) (λ _, winv) winv.
Proof. intros Ho w Hw. unfold poll_until. rewrite getS_bind. by apply poll_loop_safe. Qed.

(** What the rest of the system calls, and what it polls. *)
Inductive op :=
  | OInit (mem : Z → RingMemory) (t : T)
  | OGetCid
  | OEnqueueStart (hdr buf : bytes)
  | OPollTx
  | OPollRx (addrs : VsockAddrPair)
  | OEnqueue (hdr buf : bytes)
  | ODequeue (addrs : VsockAddrPair)
  | OCanSend
  | OCanRecv.

Definition exec (o : op) : VM unit :=
  match o with
  | OInit mem t => vsock_transport_init mem t
  | OGetCid => _ ← virtio_get_cid; mret tt
  | OEnqueueStart hdr buf => enqueue_start hdr buf
  | OPollTx => _ ← poll_tx; mret tt
  | OPollRx addrs => _ ← poll_rx addrs; mret tt
  | OEnqueue hdr buf => _ ← virtio_enqueue hdr buf; mret tt
  | ODequeue addrs => _ ← virtio_dequeue addrs; mret tt
  | OCanSend => _ ← vsock_transport_can_send; mret tt
  | OCanRecv => _ ← vsock_transport_can_recv; mret tt
  end.

(** The ring pages a device is created on have the size of the rings. *)
Definition op_ok (o : op) : Prop := match o with OInit mem t => rings_ok mem ∧ t_start t | _ => True end.

Inductive reach : World (Machine T A) → Prop :=
  | reach_boot w : VSOCK_DEVICE (device w) = None → reach w
  | reach_exec w o r w' : reach w → op_ok o → exec o w = (r, w') → reach w'
  | reach_host_move w w' : reach w → host_move w w' → reach w'
  | reach_irq w vector : reach w → reach (set_device (interrupt vector (device w)) w)
  | reach_streams w w' : reach w → device w' = device w → reach w'.

Lemma enqueue_start_winv hdr buf : safe winv (enqueue_start hdr buf) (λ _, winv) winv.
Proof.
  apply lift_winv; [|apply enqueue_start_safe]. intros w Hw. unfold enqueue_start, stage_packet, stage, on_device.
  destruct (_ || _); [by eexists|]. rewrite !M_bind_eq, Hw. by eexists.
Qed.

Lemma poll_tx_winv : safe winv poll_tx (λ _, winv) winv.
Proof. apply lift_winv; [|apply poll_tx_safe]. intros w Hw. by apply absent_bind. Qed.

Lemma poll_rx_winv addrs : safe winv (poll_rx addrs) (λ _, winv) winv.
Proof. apply lift_winv; [|apply poll_rx_safe]. intros w Hw. by apply absent_bind. Qed.

Lemma pop_stream_winv addrs : safe winv (pop_buf_from_stream_queues addrs) (λ _, winv) winv.
Proof.
  intros w Hw. unfold pop_buf_from_stream_queues, pop_queues.
  by destruct (CONNECTION_PKT_QUEUES w !! addrs) as [[]|], (BINDING_PKT_QUEUES w !! local addrs) as [[]|].
Qed.

Lemma exec_safe o : op_ok o → safe winv (exec o) (λ _, winv) winv.
Proof.
  destruct o; cbn [exec op_ok]; intros Hok;
    [destruct Hok; by apply init_safe| |apply enqueue_start_winv|..];
    (apply safe_bind with (λ _, winv); [|intros ?; by apply safe_ret]).
  - apply lift_winv; [intros w Hw; by apply absent_bind|apply get_cid_safe].
  - apply poll_tx_winv.
  - apply poll_rx_winv.
  - eapply safe_bind; [apply enqueue_start_winv|intros ?].
    eapply safe_bind; [apply poll_until_safe, poll_tx_winv|intros ?; by apply safe_ret].
  - eapply safe_bind; [apply pop_stream_winv|intros [b|]; [by apply safe_ret|]].
    apply poll_until_safe, poll_rx_winv.
  - apply lift_winv; [intros w Hw; by apply absent_bind|apply can_send_safe].
  - apply lift_winv; [intros w Hw; by apply absent_bind|apply can_recv_safe].
Qed.

Lemma reach_winv w : reach w → winv w.
Proof.
  induction 1 as [w Hw|w o r w' _ IH Hok E|w w' _ IH Hh|w v _ IH|w w' _ IH Hd]; [by left| | | |].
  - pose proof (exec_safe o Hok w IH) as Hs. rewrite E in Hs. by destruct r.
  - destruct IH as [Hn|IH]; [destruct Hh; congruence|right]. by eapply host_move_inv.
  - exact IH.
  - unfold winv, holds. by rewrite Hd.
Qed.

(** What the pages and the queues of a device look like. *)
Definition dma_safe (v : VirtioVsock T) (a : A) : Prop :=
  ∃ mr mt, vq_abs (rx v) mr ∧ vq_abs (tx v) mt ∧
    NoDup (buf_addr <$> bufs_of mr ++ bufs_of mt) ∧
    (∀ b, b ∈ bufs_of mr ++ bufs_of mt →
       buf_addr b ≠ queue_dma_pages v ∧
       ∃ n, live a !! buf_addr b = Some n ∧ 0 <= buf_len b <= n * PAGE_SIZE) ∧
    live a !! queue_dma_pages v = Some 8 ∧ rx_buf_num v = used_descs mr.

Lemma inv_dma_safe v a : inv [] 0 (mkDev v a) → dma_safe v a.
Proof.
  intros (mr & mt & []). rewrite app_nil_r in *. cbn in *. exists mr, mt. split; [done|]. split; [done|]. split; [done|].
  destruct (i_rec0 _ _ i_ring0) as (_ & _ & Hring). split; [|split; [exact Hring|lia]]. intros b Hb. rewrite Forall_forall in i_owned0.
  destruct (i_owned0 b Hb) as (Hq & r & Hr & Hl & _). split; [done|].
  destruct (i_rec0 _ _ Hr) as (_ & Hm & Hlive). exists (dma_size r / PAGE_SIZE). split; [done|].
  apply Z.div_exact in Hm; [|done]. lia.
Qed.

(** C30 In every state that calls of the driver, interrupts, changes of the
    streams and any writes of the host to the rings and the shared pages can
    reach: no call aborts, accesses memory outside allocated pages or releases a
    page that is not allocated; every buffer a queue refers to lies in live
    pages of its own, distinct from those of every other buffer and from the
    ring pages, which stay allocated; and the counter of receive buffers is
    exact. *)
Theorem vsock_dma_hostile_host_safe w :
  reach w →
  (∀ o, op_ok o → (exec o w).1 ≠ Panic) ∧
  (∀ v, VSOCK_DEVICE (device w) = Some v → dma_safe v (page_pool (device w))).
Proof.
  intros Hw%reach_winv. split.
  - intros o Hok. pose proof (exec_safe o Hok w Hw). by destruct (exec o w) as [[] ?].
  - intros v Hv. destruct Hw as [Hw|(v' & Hv' & Hi)]; [congruence|].
    replace v with v' by congruence. by apply inv_dma_safe.
Qed.

(** ** What a send hands over *)

(** The bytes the device finds in a buffer. *)
Definition mem_at (m : Machine T A) (b : VirtqueueBuf) : bytes :=
  (λ i, as_u 8 (default 0 (shared_mem m !! (buf_addr b + i)))) <$> seqZ 0 (buf_len b).

Lemma write_bytes_in addr data m i x :
  data !! i = Some x → write_bytes addr data m !! (addr + Z.of_nat i) = Some x.
Proof.
  intros Hi. unfold write_bytes. apply lookup_union_Some_l, elem_of_list_to_map_1.
  - rewrite fst_zip by (rewrite length_seqZ; unfold lenz; lia). apply NoDup_seqZ.
  - apply list_elem_of_lookup. exists i. apply lookup_zip_with_Some. exists (addr + Z.of_nat i), x.
    split; [done|]. split; [|done]. apply lookup_seqZ. split; [lia|]. apply lookup_lt_Some in Hi. unfold lenz. lia.
Qed.

Lemma write_bytes_out addr data m j :
  j < addr ∨ addr + lenz data <= j → write_bytes addr data m !! j = m !! j.
Proof.
  intros Hj. unfold write_bytes. rewrite lookup_union_r; [done|]. apply not_elem_of_list_to_map_1.
  rewrite fst_zip by (rewrite length_seqZ; unfold lenz; lia). rewrite elem_of_seqZ. lia.
Qed.

(** Fresh pages hold what was copied into them, and no other buffer changes. *)
Lemma stage_run data w v b w' :
  0 < lenz data < 2 ^ 32 → bytes_ok data → VSOCK_DEVICE (device w) = Some v → stage data w = (Ok b, w') →
  buf_len b = lenz data ∧ mem_at (device w') b = data ∧
  (∃ v', VSOCK_DEVICE (device w') = Some v' ∧ tx v' = tx v) ∧
  (∃ n, live (page_pool (device w')) !! buf_addr b = Some n ∧ lenz data <= n * PAGE_SIZE) ∧
  ∀ b' n, live (page_pool (device w)) !! buf_addr b' = Some n → buf_len b' <= n * PAGE_SIZE →
    live (page_pool (device w')) !! buf_addr b' = Some n ∧ mem_at (device w') b' = mem_at (device w) b'.
Proof.
  intros Hl Hok Hv. unfold stage, on_device. rewrite M_bind_eq, Hv.
  destruct (allocate_run (lenz data) (mkDev v (page_pool (device w))) Hl)
    as [([v' a'] & -> & _)|(p & a & -> & Hn & Hle & Ha)]; [done|].
  set (n := vsock_align_up (lenz data) / PAGE_SIZE) in *. cbv beta iota. cbn [ok_or dma_addr dma_size].
  rewrite ret_bind, M_bind_eq. unfold write_dma. rewrite getS_bind.
  destruct (alloc_fresh _ _ _ _ Hn Ha) as (Hlive & Hfree & Hp0 & _ & Hdis). cbn in Hfree, Hdis. cbn.
  rewrite Hlive, lookup_insert_eq, Z.leb_refl.
  destruct (Z.leb_spec (lenz data) (n * PAGE_SIZE)); [|lia]. cbn [andb]. cbn. unfold as_u. rewrite Z.mod_small by lia.
  intros [= <- <-]. cbn [buf_len buf_addr device set_device set_mem page_pool VSOCK_DEVICE]. split; [done|]. split.
  - unfold mem_at. cbn. apply list_eq. intros i. rewrite list_lookup_fmap. destruct (data !! i) as [x|] eqn:Ex.
    + rewrite (proj2 (lookup_seqZ 0 (lenz data) i (Z.of_nat i))).
      2:{ apply lookup_lt_Some in Ex. unfold lenz. lia. }
      cbn. rewrite (write_bytes_in _ _ _ _ _ Ex). cbn. f_equal. unfold as_u. apply Z.mod_small.
      unfold bytes_ok in Hok. rewrite Forall_lookup in Hok. by apply (Hok i).
    + apply lookup_ge_None in Ex. rewrite lookup_seqZ_ge; [done|]. unfold lenz in *. lia.
  - split; [by eexists|]. cbn. rewrite Hlive. split; [exists n; by rewrite lookup_insert_eq|].
    intros b' n' Hb' Hlen. assert (buf_addr b' ≠ p) by congruence.
    split; [by rewrite lookup_insert_ne|]. unfold mem_at. cbn. apply list_fmap_ext. intros i j Hj%lookup_seqZ.
    rewrite write_bytes_out; [done|]. destruct (Hdis _ _ Hb'); unfold PAGE_SIZE in *; lia.
Qed.

Lemma tx_add_run g2h w v w' tok :
  winv w → Forall (λ b, in_u 32 (buf_len b)) g2h → VSOCK_DEVICE (device w) = Some v →
  on_device (tx_add g2h) w = (Ok tok, w') →
  shared_mem (device w') = shared_mem (device w) ∧
  ∃ v' mt, VSOCK_DEVICE (device w') = Some v' ∧ vq_abs (tx v) mt ∧ mt !! tok = None ∧
    vq_abs (tx v') (<[tok := (g2h, [])]> mt).
Proof.
  intros [Hn|(v1 & Hv1 & mr & mt & Hi)] Hl Hv; [congruence|]. replace v1 with v in Hi by congruence.
  unfold on_device. rewrite Hv. unfold tx_add. cbn.
  pose proof (add_abs (tx v) mt g2h [] (i_tx _ _ _ _ _ Hi)) as Hadd. rewrite app_nil_r in Hadd. specialize (Hadd Hl).
  destruct (add g2h [] (tx v)) as [[t|e|] q'] eqn:E; cbn; [|done|done]. intros [= <- <-]. split; [done|].
  destruct Hadd as (_ & _ & Hm & Ha & _). exists (mkVsock (virtio_transport v) (rx v) q' (event_queue v) (dma_record v)
    (queue_dma_pages v) (rx_buf_num v)), mt. split; [done|]. split; [apply Hi|]. by split.
Qed.

Lemma on_transport_run {X} (m : M T VirtioError X) w v x w' :
  VSOCK_DEVICE (device w) = Some v → on_device (on_transport m) w = (Ok x, w') →
  shared_mem (device w') = shared_mem (device w) ∧ ∃ v', VSOCK_DEVICE (device w') = Some v' ∧ tx v' = tx v.
Proof.
  intros Hv. unfold on_device, on_transport. rewrite Hv. cbn. destruct (m _) as [[y|e|] t']; cbn; [|done|done].
  intros [= <- <-]. split; [done|]. by eexists.
Qed.

Lemma on_device_bind_run {X Y} (m : DM X) (f : X → DM Y) w y w' :
  on_device (m ≫= f) w = (Ok y, w') → ∃ x w1, on_device m w = (Ok x, w1) ∧ on_device (f x) w1 = (Ok y, w').
Proof.
  unfold on_device. destruct (VSOCK_DEVICE (device w)) as [v|]; [|done]. rewrite M_bind_eq.
  destruct (m _) as [[x|e|] [v1 a1]]; [|done|done]. intros E. exists x. eexists. split; [done|]. cbn. by destruct (f x _).
Qed.

Lemma kick_run q w v x w' :
  VSOCK_DEVICE (device w) = Some v → on_device (kick_queue q) w = (Ok x, w') →
  shared_mem (device w') = shared_mem (device w) ∧ ∃ v', VSOCK_DEVICE (device w') = Some v' ∧ tx v' = tx v.
Proof.
  intros Hv. unfold kick_queue. intros (y & w1 & E1 & E2)%on_device_bind_run.
  destruct (on_transport_run _ _ _ _ _ Hv E1) as (Hm1 & v1 & Hv1 & Ht1).
  destruct (on_transport_run _ _ _ _ _ Hv1 E2) as (Hm2 & v2 & Hv2 & Ht2).
  split; [congruence|]. exists v2. split; [done|congruence].
Qed.

(** Both buffers of a packet. *)
Lemma stage_packet_run hdr buf w v g2h w' :
  lenz hdr = HEADER_LEN → lenz buf <= VIRTIO_MAX_PKT_DATA_LEN → bytes_ok hdr → bytes_ok buf →
  VSOCK_DEVICE (device w) = Some v →
  stage_packet hdr buf w = (Ok g2h, w') →
  mem_at (device w') <$> g2h = hdr :: match buf with [] => [] | _ => [buf] end ∧
  Forall (λ b, in_u 32 (buf_len b)) g2h ∧ ∃ v', VSOCK_DEVICE (device w') = Some v' ∧ tx v' = tx v.
Proof.
  unfold HEADER_LEN, VIRTIO_MAX_PKT_DATA_LEN, in_u. intros Hh Hb Oh Ob Hv.
  intros (h & w1 & E1 & E)%M_bind_Ok_inv.
  destruct (stage_run hdr w v h w1 ltac:(lia) Oh Hv E1) as (Lh & Mh & (v1 & Hv1 & Ht1) & (n & Hn & Hle) & _).
  case_bool_decide as Hne.
  - injection E as <- <-. subst buf. cbn. rewrite Mh. split; [done|]. split; [constructor; [lia|done]|]. by exists v1.
  - apply M_bind_Ok_inv in E as (b & w2 & E2 & E). injection E as <- <-.
    assert (0 < lenz buf) by (destruct buf; [done|]; unfold lenz; cbn; lia).
    destruct (stage_run buf w1 v1 b w2 ltac:(lia) Ob Hv1 E2) as (Lb & Mb & (v2 & Hv2 & Ht2) & _ & Hkeep).
    destruct (Hkeep h n Hn ltac:(lia)) as [_ Mh']. cbn [fmap list_fmap]. rewrite Mb, Mh', Mh. split; [by destruct buf|].
    split; [repeat constructor; lia|]. exists v2. by rewrite Ht2.
Qed.

(** A packet that is sent is handed to the device as one request whose
    buffers hold exactly the header and, when there is any, the data: the pages
    are fresh, so neither copy disturbs the other, and only packets of a full
    header and at most 64 KiB of data are accepted. *)
Theorem virtio_send_hands_over hdr buf w v w' u :
  reach w → VSOCK_DEVICE (device w) = Some v → bytes_ok hdr → bytes_ok buf →
  enqueue_start hdr buf w = (Ok u, w') →
  lenz hdr = HEADER_LEN ∧ lenz buf <= VIRTIO_MAX_PKT_DATA_LEN ∧
  ∃ v' mt tok g2h, VSOCK_DEVICE (device w') = Some v' ∧ vq_abs (tx v) mt ∧ mt !! tok = None ∧
    vq_abs (tx v') (<[tok := (g2h, [])]> mt) ∧
    mem_at (device w') <$> g2h = hdr :: match buf with [] => [] | _ => [buf] end.
Proof.
  intros Hw%reach_winv Hv Oh Ob. unfold enqueue_start.
  destruct (Z.eqb_spec (lenz hdr) HEADER_LEN) as [Hh|]; cbn [negb orb]; [|done].
  destruct (Z.ltb_spec VIRTIO_MAX_PKT_DATA_LEN (lenz buf)) as [|Hb]; [done|].
  intros (g2h & w2 & E & (tok & w3 & E3 & E4)%M_bind_Ok_inv)%M_bind_Ok_inv.
  split; [done|]. split; [done|].
  destruct (stage_packet_run _ _ _ _ _ _ Hh Hb Oh Ob Hv E) as (Hmem & Hlen & v2 & Hv2 & Ht2).
  assert (winv w2) as Hw2.
  { destruct Hw as [Hn|Hw]; [congruence|right]. pose proof (stage_packet_safe hdr buf Hh Hb w Hw) as Hs.
    rewrite E in Hs. revert Hs. apply holds_impl. intros ?. by apply inv_leak, submseteq_nil_l. }
  destruct (tx_add_run _ _ _ _ _ Hw2 Hlen Hv2 E3) as (Hm3 & v3 & mt & Hv3 & Ha & Hmt & Ha').
  destruct (kick_run _ _ _ _ _ Hv3 E4) as (Hm4 & v4 & Hv4 & Ht4).
  exists v4, mt, tok, g2h. rewrite Ht4, <-Ht2. repeat (split; [done|]).
  etrans; [|exact Hmem]. apply list_fmap_ext. intros i b _. unfold mem_at. by rewrite Hm4, Hm3.
Qed.

(** ** No data is delivered *)

Definition keeps_headers w w' : Prop := header_queues w → header_queues w'.

#[global] Instance keeps_headers_preorder : PreOrder keeps_headers.
Proof. split; unfold keeps_headers; [by intros w|]. intros w1 w2 w3. tauto. Qed.

Lemma headers_set_device m w : keeps_headers w (set_device m w).
Proof. by intros []. Qed.

Lemma headers_on_device {X} (m : DM X) : keeps keeps_headers (on_device m).
Proof.
  intros w r w'. unfold on_device. destruct (VSOCK_DEVICE (device w)); [|by intros [= _ <-]].
  destruct (m _) as [r1 d]. intros [= _ <-]. apply headers_set_device.
Qed.

Lemma headers_read a n : keeps keeps_headers (read_dma (T := T) (A := A) a n).
Proof.
  intros w r w'. unfold read_dma. rewrite getS_bind. destruct (live _ !! a); [|by intros [= _ <-]].
  destruct (_ <=? _); by intros [= _ <-].
Qed.

Lemma read_dma_len a n w bs w' : read_dma (T := T) (A := A) a n w = (Ok bs, w') → 0 <= n → lenz bs = n ∧ bytes_ok bs.
Proof.
  unfold read_dma. rewrite getS_bind. destruct (live _ !! a); [|done]. destruct (_ <=? _); [|done]. intros [= <- _] Hn.
  split; [unfold lenz; rewrite length_fmap, length_seqZ; lia|].
  apply Forall_fmap, Forall_true. intros i. apply Z.mod_pos_bound. lia.
Qed.

Lemma headers_write a n bs : keeps keeps_headers (write_dma (T := T) (A := A) a n bs).
Proof.
  intros w r w'. unfold write_dma. rewrite getS_bind. destruct (live _ !! a); [|by intros [= _ <-]].
  destruct (_ && _); intros [= _ <-]; [apply headers_set_device|done].
Qed.

Lemma headers_liftT {X} (r : outcome VsockTransportError.t X) : keeps keeps_headers (liftT r).
Proof. apply keeps_liftT, _. Qed.

Lemma headers_fail {X} e : keeps keeps_headers (fail (A := X) e).
Proof. apply keeps_fail, _. Qed.

Hint Resolve headers_on_device headers_read headers_write headers_liftT headers_fail : migtd.

(** A packet leaves at most its bare header in the queues. *)
Lemma headers_recv_pkt pkt : keeps keeps_headers (recv_pkt pkt).
Proof.
  unfold recv_pkt. apply keeps_bind; [typeclasses eauto|eauto with migtd typeclass_instances|intros pkt0]. apply keeps_bind; [typeclasses eauto|eauto with migtd typeclass_instances|intros d].
  apply keeps_bind_Ok; [typeclasses eauto|keeps_auto|]. intros hdr w1 w2 Hhdr.
  assert (hdr = [] ∨ lenz hdr = HEADER_LEN ∧ bytes_ok hdr) as Hh.
  { destruct (bool_decide _); [|by injection Hhdr as <- _; left].
    destruct (Z.eqb_spec (buf_len pkt0) HEADER_LEN) as [El|]; cbn [negb] in Hhdr; [|done]. right.
    apply M_bind_Ok_inv in Hhdr as (bs & w3 & Hr & Hhdr). apply M_bind_Ok_inv in Hhdr as (r & w4 & _ & Hhdr).
    apply M_bind_Ok_inv in Hhdr as (a & w5 & _ & Hhdr). injection Hhdr as <- _.
    rewrite El in Hr. by apply read_dma_len in Hr. }
  apply keeps_bind_Ok; [typeclasses eauto|eauto with migtd typeclass_instances|]. intros hdr' w3 w4 Hc.
  assert (hdr' = hdr ∧ packet_check hdr = Ok tt) as [-> Hck].
  { unfold liftT, checked_header, new_checked in Hc. destruct (packet_check hdr) as [[]| |]; cbn in Hc; [|done..].
    by injection Hc as <- _. }
  destruct Hh as [->|[Hl Hok]]; [done|].
  apply keeps_or_panic_bind; [typeclasses eauto|]. intros n Hn. pose proof (checked_header_no_data hdr Hl Hck n Hn).
  pose proof (data_len_nonneg hdr n Hok Hn). assert (n = 0) as -> by lia. cbn [Z.eqb negb].
  apply keeps_bind; [typeclasses eauto|eauto with migtd typeclass_instances|intros pkt1]. intros w r w'. rewrite ret_bind. revert w r w'.
  apply keeps_bind; [typeclasses eauto|eauto with migtd typeclass_instances|intros r]. apply keeps_bind; [typeclasses eauto|eauto with migtd typeclass_instances|intros a].
  apply keeps_bind; [typeclasses eauto|eauto with migtd typeclass_instances|intros key].
  apply keeps_bind; [typeclasses eauto|apply keeps_modifyS; intros w Hw; apply header_queues_push; auto|intros ?].
  apply keeps_modifyS. intros w Hw. apply header_queues_push; auto.
Qed.

Lemma headers_pop_stream addrs : keeps keeps_headers (pop_buf_from_stream_queues (T := T) (A := A) addrs).
Proof.
  intros w r w'. unfold pop_buf_from_stream_queues. destruct (pop_queues addrs w) as [x w1] eqn:E. intros [= _ <-] Hw.
  apply header_queues_pop in E as (? & _ & _); done.
Qed.

Lemma headers_poll_rx addrs : keeps keeps_headers (poll_rx addrs).
Proof.
  unfold poll_rx. apply keeps_bind; [typeclasses eauto|eauto with migtd typeclass_instances|intros d]. apply keeps_bind; [typeclasses eauto| |intros ?; apply headers_pop_stream].
  destruct (can_pop _); [|apply keeps_ret, _]. unfold pop_used_rx. keeps_auto. apply headers_recv_pkt.
Qed.

Lemma headers_poll_loop {X} (once : VM (option X)) acts :
  keeps keeps_headers once → keeps keeps_headers (poll_loop once acts).
Proof.
  intros Ho. induction acts as [|a acts IH]; cbn [poll_loop]; [apply keeps_failM, _|].
  apply keeps_bind; [typeclasses eauto|apply keeps_modifyS; intros w; apply headers_set_device|intros ?]. apply keeps_bind; [typeclasses eauto|done|intros [x|]]; [apply keeps_ret, _|done].
Qed.

Lemma headers_enqueue hdr buf : keeps keeps_headers (virtio_enqueue hdr buf).
Proof.
  unfold virtio_enqueue, enqueue_start, stage_packet, stage, poll_until. keeps_auto.
  apply headers_poll_loop. unfold poll_tx. keeps_auto.
Qed.

(** What a poll of a receive returns is a header. *)
Lemma pop_stream_header addrs w b w' : header_queues w →
  pop_buf_from_stream_queues (T := T) (A := A) addrs w = (Ok (Some b), w') → lenz b = HEADER_LEN.
Proof.
  intros Hw. unfold pop_buf_from_stream_queues. destruct (pop_queues addrs w) as [x w1] eqn:E. intros [= -> <-].
  apply header_queues_pop in E as (_ & _ & Hb); [|done]. by apply Hb.
Qed.

Lemma poll_loop_header addrs acts : ∀ w b w', header_queues w →
  poll_loop (poll_rx addrs) acts w = (Ok b, w') → lenz b = HEADER_LEN.
Proof.
  induction acts as [|a acts IH]; intros w b w' Hw; cbn [poll_loop]; [done|]. rewrite modifyS_bind.
  intros (r & w1 & E1 & E)%M_bind_Ok_inv.
  pose proof (headers_poll_rx _ _ _ _ E1 Hw) as Hw1. destruct r as [x|]; [|by eapply IH].
  injection E as <- <-. unfold poll_rx in E1. apply M_bind_Ok_inv in E1 as (d & w2 & E2%headers_on_device & E1).
  apply M_bind_Ok_inv in E1 as ([] & w3 & E3 & E1). eapply pop_stream_header; [|exact E1].
  destruct (can_pop _); [|injection E3 as <-; by apply E2]. revert E3. unfold pop_used_rx. intros E3.
  assert (keeps keeps_headers pop_used_rx) as Hk by (unfold pop_used_rx; keeps_auto; apply headers_recv_pkt).
  apply Hk in E3. by apply E3, E2.
Qed.

#[global] Instance virtio_header_only : HeaderOnlyTransport (Machine T A).
Proof.
  refine {| wf_world := header_queues |}; cbn.
  - intros a c h d w r w' E. by apply headers_enqueue in E.
  - intros a c w r w' E Hw. unfold virtio_dequeue in E. rewrite M_bind_eq in E.
    destruct (pop_buf_from_stream_queues a w) as [rp w1] eqn:Ep. pose proof (headers_pop_stream _ _ _ _ Ep Hw) as Hw1.
    destruct rp as [[b|]|e|].
    + injection E as <- <-. split; [done|]. intros b' [= <-]. exact (pop_stream_header _ _ _ _ Hw Ep).
    + unfold poll_until in E. rewrite getS_bind in E. split; [by eapply headers_poll_loop; [apply headers_poll_rx|..]|].
      intros b ->. by eapply poll_loop_header.
    + injection E as <- <-. by split.
    + injection E as <- <-. by split.
  - intros k w [Hc Hb]. split; [|done]. cbn. intros k' q Hl. apply lookup_delete_Some in Hl as [_ Hl]. eauto.
  - intros k w [Hc Hb]. split; [done|]. cbn. intros k' q Hl. apply lookup_delete_Some in Hl as [_ Hl]. eauto.
Defined.

(** Over the virtio transport, too, no stream ever receives data: the
    transport checks the bare header with [Packet::new_checked], so a packet
    that announces data is dropped and [recv] on a stream without queued data
    never returns [Ok]. *)
Theorem virtio_recv_never_delivers fuel buf (s : St (Machine T A)) :
  header_queues (world s) → data_queue (self s) = [] → ∀ x s', recv fuel buf s ≠ (Ok x, s').
Proof. intros Hw Hq x s' E. eapply recv_never_Ok; [|exact E|done]. by split. Qed.

End driver.

(** ** Witnesses *)

Module Demo.

(** Registers that accept everything and a device that agrees. *)
#[local] Instance registers : VirtioTransport unit := {
  vt_init := λ _, mret tt; get_status := mret 255; set_status := λ _, mret tt; add_status := λ _, mret tt;
  vt_reset := mret tt; get_features := mret 0; set_features := λ _, mret tt; set_queue := λ _, mret tt;
  get_queue_max_size := mret 16; set_queue_size := λ _, mret tt;
  set_descriptors_address := λ _, mret tt; set_avail_ring := λ _, mret tt; set_used_ring := λ _, mret tt;
  set_queue_enable := mret tt; set_interrupt_vector := λ _, mret 0; set_config_notify := λ _, mret tt;
  set_queue_notify := λ _, mret tt; notify_queue := λ _, mret tt; read_device_config := λ _, mret 3 }.

#[local] Instance registers_safe : TransportSafe unit.
Proof.
  refine {| t_start := λ _, True; t_inv := λ _, True |}.
  - done.
  - intros m Hm t _. destruct Hm as [->|[x Hm]]; [done|]. rewrite !elem_of_cons, elem_of_nil in Hm. naive_solver.
  - intros m Hm t _. destruct Hm as [->|[->|[x Hm]]]; [done|done|]. rewrite !elem_of_cons, elem_of_nil in Hm. naive_solver.
Defined.

(** An allocator that hands out the pages above all live ones. *)
Definition top (m : gmap Z Z) : Z := map_fold (λ q k x, Z.max x (q + Z.abs k * PAGE_SIZE)) 0 m + PAGE_SIZE.

Lemma top_above m : 0 < top m ∧ ∀ q k, m !! q = Some k → q + Z.abs k * PAGE_SIZE < top m.
Proof.
  unfold top. set (f := λ q k x, Z.max x (q + Z.abs k * PAGE_SIZE)).
  enough (0 <= map_fold f 0 m ∧ ∀ q k, m !! q = Some k → q + Z.abs k * PAGE_SIZE <= map_fold f 0 m) as [H1 H2].
  { unfold PAGE_SIZE in *. split; [lia|]. intros q k Hq. specialize (H2 q k Hq). lia. }
  revert m. apply (map_fold_weak_ind (λ x m, 0 <= x ∧ ∀ q k, m !! q = Some k → q + Z.abs k * PAGE_SIZE <= x)).
  - split; [done|]. intros q k. by rewrite lookup_empty.
  - intros q k m x _ [H1 H2]. unfold f. split; [lia|]. intros q' k' Hl.
    apply lookup_insert_Some in Hl as [[<- <-]|[_ Hl]]; [lia|]. specialize (H2 _ _ Hl). lia.
Qed.

#[local] Instance pages : DmaPageAllocator (gmap Z Z) := {
  alloc_pages := λ n m, if top m + n * PAGE_SIZE <? 2 ^ 64 then (Some (top m), <[top m := n]> m) else (None, m);
  free_pages := λ p _ m, delete p m;
  live := λ m, m }.

#[local] Instance pages_laws : DmaPageLaws (gmap Z Z).
Proof.
  split; cbn.
  - intros n m p m' Hn. destruct (Z.ltb_spec (top m + n * PAGE_SIZE) (2 ^ 64)); [|done]. intros [= <- <-].
    destruct (top_above m) as [H1 H2]. split; [done|]. split.
    { destruct (m !! top m) as [k|] eqn:E; [|done]. specialize (H2 _ _ E). unfold PAGE_SIZE in *. lia. }
    split; [lia|]. split; [done|]. intros q k Hq. specialize (H2 _ _ Hq). unfold PAGE_SIZE in *. right. lia.
  - intros n m m'. destruct (_ <? _); by intros [= <-].
  - done.
Qed.

#[local] Instance vectors : InterruptTable := { register_interrupt_callback := λ v, v <? 256 }.

Notation W := (World (Machine unit (gmap Z Z))).

Definition powered_on : W :=
  mkWorld {[demo_pair := []]} ∅ 40001 {[40001]}
    (mkMachine None ∅ ∅ [] (mkFlags false false false) []).

Definition rings (_ : Z) : RingMemory := demo_mem.

Lemma rings_size : op_ok (OInit rings tt).
Proof. split; [|done]. intros i. done. Qed.

Definition started : W := Eval vm_compute in (exec (OInit rings tt) powered_on).2.

Lemma start_run : exec (OInit rings tt) powered_on = (Ok tt, started).
Proof. vm_compute. reflexivity. Qed.

Lemma started_reach : reach started.
Proof.
  apply (reach_exec powered_on (OInit rings tt) (Ok tt)); [by apply reach_boot|apply rings_size|apply start_run].
Qed.

Definition started_device : option (VirtioVsock unit) := Eval vm_compute in VSOCK_DEVICE (device started).

Lemma vsock_dma_hostile_host_safe_witness :
  match started_device with
  | Some v => rx_buf_num v = 16 ∧ dma_safe v (page_pool (device started))
  | None => False
  end.
Proof.
  split; [reflexivity|]. apply (vsock_dma_hostile_host_safe started started_reach). reflexivity.
Defined.

Definition a_header : bytes := Eval vm_compute in wire_header (mkHeader 3 2 40001 1234 OP_RW 3 0 0 0x40000).

Definition sent : W := Eval vm_compute in (enqueue_start a_header [7; 8; 9] started).2.

Lemma send_run : enqueue_start a_header [7; 8; 9] started = (Ok tt, sent).
Proof. vm_compute. reflexivity. Qed.

Lemma virtio_send_hands_over_witness :
  ∃ g2h, mem_at (device sent) <$> g2h = [a_header; [7; 8; 9]].
Proof.
  destruct started_device as [v|] eqn:Ev; [|discriminate Ev].
  destruct (virtio_send_hands_over a_header [7; 8; 9] started v sent tt started_reach) as (_ & _ & v' & mt & tok & g2h & _ & _ & _ & _ & H).
  - rewrite <-Ev. reflexivity.
  - repeat constructor; vm_compute; congruence.
  - repeat constructor; vm_compute; congruence.
  - exact send_run.
  - exists g2h. exact H.
Defined.

Lemma virtio_recv_never_delivers_witness :
  (recv 3 [0; 0] (mkSt started (demo_stream []))).1 ≠ Ok (2, [5; 6]).
Proof.
  destruct (recv _ _ _) as [r s'] eqn:E. simpl. intros ->. revert E.
  assert (CONNECTION_PKT_QUEUES started = {[demo_pair := []]}) as Hc by (vm_compute; reflexivity).
  assert (BINDING_PKT_QUEUES started = ∅) as Hb by (vm_compute; reflexivity).
  apply virtio_recv_never_delivers; [|reflexivity]. split; cbn [world]; intros k q.
  - rewrite Hc. intros Hl. apply lookup_singleton_Some in Hl as [_ <-]. constructor.
  - rewrite Hb. intros Hl. discriminate (eq_trans (eq_sym (lookup_empty k)) Hl).
Defined.

End Demo.
