(* ===== verification/Serial.v ===== *)
(** * Serial: the virtio serial driver

    src/devices/virtio_serial/src/{lib,event,port}.rs over the virtqueues of
    VirtQueue.  The transport registers, the page allocator, the interrupt table
    and the timer are parameters (classes).  The rings and the DMA pages are shared
    with the host, which may rewrite them before every look at a queue; interrupts
    may arrive and time may pass there too.  An access to a page that is not allocated, or a
    release of one that is not, is undefined behaviour in the source and a [Panic]
    here. *)
From stdpp Require Import base tactics numbers option gmap countable list list_numbers.
From S2P Require Import Prelude VirtQueue Vsock VsockStream VsockVmcall VsockVirtio.
Local Open Scope Z_scope.

(** ** Constants *)

Definition MAX_PORT_SUPPORTED : Z := 2.
Definition DEFAULT_BUF_SIZE : Z := PAGE_SIZE.
Definition SERIAL_TIMEOUT : Z := 0x8000.
Definition PORT0_RECEIVEQ : Z := 0.
Definition PORT0_TRANSMITQ : Z := 1.
Definition CONTROL_RECEIVEQ : Z := 2.
Definition CONTROL_TRANSMITQ : Z := 3.
Definition IRQ_VECTOR : Z := 0x52.
Definition SERIAL_QUEUE_SIZE : Z := 16.
Definition SERIAL_PREFILL_NUM : Z := 16.
Definition CONFIG_MAX_NR_PORTS_OFFSET : Z := 4.
Definition VIRTIO_SUBSYSTEM_CONSOLE : Z := 3.

(** ** Data *)

Module VirtioSerialError.
Inductive t :=
  | Initialization | Virtio (e : VirtioError) | InvalidParameter | OutOfResource | Device | Timeout
  | PortNotAvailable (id : Z) | PortAlreadyUsed (id : Z) | Interrupt | NotReady.
End VirtioSerialError.

Record VirtioConsoleControl := mkControl { cc_id : Z; cc_event : Z; cc_value : Z }.

Definition control_as_bytes (c : VirtioConsoleControl) : bytes :=
  le_bytes 4 (cc_id c) ++ le_bytes 2 (cc_event c) ++ le_bytes 2 (cc_value c).

Definition CONTROL_SIZE : Z := 8.

Inductive ControlEvent :=
  | DeviceReady | DeviceAdd | DeviceRemove | PortReady | ConsolePort | Resize | PortOpen | PortName | UnknownEvent.

Definition control_event_of (value : Z) : ControlEvent :=
  match value with
  | 0 => DeviceReady | 1 => DeviceAdd | 2 => DeviceRemove | 3 => PortReady
  | 4 => ConsolePort | 5 => Resize | 6 => PortOpen | 7 => PortName
  | _ => UnknownEvent
  end.

(** [event as u16] of the three events the driver sends. *)
Definition DEVICE_READY : Z := 0.
Definition PORT_READY : Z := 3.
Definition PORT_OPEN : Z := 6.

(** The trait [Timer]. *)
Class Timer (Tm : Type) := {
  set_timeout : Z → Tm → option Z * Tm;
  is_timeout : Tm → bool;
  reset_timeout : Tm → Tm }.

(** [align_up] of this crate. *)
Definition serial_align_up (size : Z) : Z :=
  Z.land size (not_u 64 (PAGE_SIZE - 1)) + (if size mod PAGE_SIZE =? 0 then 0 else PAGE_SIZE).

(** [Self::port_queue_index] *)
Definition port_queue_index (port_id : Z) : Z :=
  if port_id =? 0 then 0 else saturating_add 16 2 (Z.min (as_u 16 port_id * 2) (u_max 16)).

Section driver.
Context {T A Tm : Type} `{VirtioTransport T} `{DmaPageAllocator A} `{InterruptTable} `{Timer Tm}.

Record VirtioSerial := mkSerial {
  virtio : T;
  dma_allocation : gmap Z DmaRecord;
  queues : list VirtQueue;
  receive_queues_prefill : list Z;
  max_nr_ports : Z;
  connected_ports : gset Z;
  allocated_ports : gset Z }.

(** What the host, the interrupts and the clock do before the driver looks again. *)
Record SerialAct := mkSerialAct {
  act_rings : list (option RingMemory);  (** new content of the rings, by queue *)
  act_bytes : list (Z * Z);              (** bytes written to shared pages *)
  act_irq : bool;                        (** an interrupt arrived *)
  act_time : Tm → Tm }.

(** The device with everything around it: the page pool, the timer, the global
    [RECEIVE_QUEUES] and [IRQ_FLAG], the shared pages and what will happen to them. *)
Record SerialSt := mkSerialSt {
  serial : VirtioSerial;
  serial_pool : A;
  timer : Tm;
  RECEIVE_QUEUES : gmap Z (list bytes);
  IRQ_FLAG : bool;
  serial_mem : gmap Z Z;
  script : list SerialAct }.

Definition upd_serial (f : VirtioSerial → VirtioSerial) (s : SerialSt) : SerialSt :=
  mkSerialSt (f (serial s)) (serial_pool s) (timer s) (RECEIVE_QUEUES s) (IRQ_FLAG s) (serial_mem s) (script s).
Definition set_serial_pool (a : A) (s : SerialSt) : SerialSt :=
  mkSerialSt (serial s) a (timer s) (RECEIVE_QUEUES s) (IRQ_FLAG s) (serial_mem s) (script s).
Definition set_timer (t : Tm) (s : SerialSt) : SerialSt :=
  mkSerialSt (serial s) (serial_pool s) t (RECEIVE_QUEUES s) (IRQ_FLAG s) (serial_mem s) (script s).
Definition set_receive_queues (m : gmap Z (list bytes)) (s : SerialSt) : SerialSt :=
  mkSerialSt (serial s) (serial_pool s) (timer s) m (IRQ_FLAG s) (serial_mem s) (script s).
Definition set_irq_flag (b : bool) (s : SerialSt) : SerialSt :=
  mkSerialSt (serial s) (serial_pool s) (timer s) (RECEIVE_QUEUES s) b (serial_mem s) (script s).
Definition set_serial_mem (m : gmap Z Z) (s : SerialSt) : SerialSt :=
  mkSerialSt (serial s) (serial_pool s) (timer s) (RECEIVE_QUEUES s) (IRQ_FLAG s) m (script s).

Definition set_virtio (t : T) (v : VirtioSerial) : VirtioSerial :=
  mkSerial t (dma_allocation v) (queues v) (receive_queues_prefill v) (max_nr_ports v) (connected_ports v) (allocated_ports v).
Definition set_allocation (m : gmap Z DmaRecord) (v : VirtioSerial) : VirtioSerial :=
  mkSerial (virtio v) m (queues v) (receive_queues_prefill v) (max_nr_ports v) (connected_ports v) (allocated_ports v).
Definition set_queues (l : list VirtQueue) (v : VirtioSerial) : VirtioSerial :=
  mkSerial (virtio v) (dma_allocation v) l (receive_queues_prefill v) (max_nr_ports v) (connected_ports v) (allocated_ports v).
Definition set_prefill (l : list Z) (v : VirtioSerial) : VirtioSerial :=
  mkSerial (virtio v) (dma_allocation v) (queues v) l (max_nr_ports v) (connected_ports v) (allocated_ports v).
Definition set_max_nr_ports (n : Z) (v : VirtioSerial) : VirtioSerial :=
  mkSerial (virtio v) (dma_allocation v) (queues v) (receive_queues_prefill v) n (connected_ports v) (allocated_ports v).
Definition set_connected (p : gset Z) (v : VirtioSerial) : VirtioSerial :=
  mkSerial (virtio v) (dma_allocation v) (queues v) (receive_queues_prefill v) (max_nr_ports v) p (allocated_ports v).
Definition set_allocated (p : gset Z) (v : VirtioSerial) : VirtioSerial :=
  mkSerial (virtio v) (dma_allocation v) (queues v) (receive_queues_prefill v) (max_nr_ports v) (connected_ports v) p.

Notation SM := (M SerialSt (aerr VirtioSerialError.t)).

Definition upd (f : VirtioSerial → VirtioSerial) : SM unit := modifyS (upd_serial f).

(** [From<VirtioError> for VirtioSerialError] at a [?]. *)
Definition serial_virtio {X} (r : outcome VirtioError X) : outcome (aerr VirtioSerialError.t) X :=
  match r with Ok x => Ok x | Err e => Err (Failed (VirtioSerialError.Virtio e)) | Panic => Panic end.

Definition on_virtio {X} (m : M T VirtioError X) : SM X := λ s,
  let '(r, t) := m (virtio (serial s)) in (serial_virtio r, upd_serial (set_virtio t) s).

(** [self.queues.index(i).borrow_mut()]; the operators [index] abort out of range. *)
Definition on_queue {X} (i : Z) (m : M VirtQueue VirtioError X) : SM X := λ s,
  match nthz (queues (serial s)) i with
  | Some q => let '(r, q') := m q in (serial_virtio r, upd_serial (set_queues (<[Z.to_nat i := q']> (queues (serial s)))) s)
  | None => (Panic, s)
  end.

(** ** DMA pages *)

Definition serial_allocate (size : Z) : SM (option DmaRecord) :=
  s ← getS;
  let sz := serial_align_up size in
  let '(r, a) := alloc_pages (sz / PAGE_SIZE) (serial_pool s) in
  _ ← modifyS (set_serial_pool a);
  match r with
  | None => mret None
  | Some p =>
      _ ← upd (λ v, set_allocation (<[p := mkDma p sz]> (dma_allocation v)) v);
      mret (Some (mkDma p sz))
  end.

Definition serial_free (addr : Z) : SM (option Z) :=
  s ← getS;
  match dma_allocation (serial s) !! addr with
  | None => mret None
  | Some record =>
      if bool_decide (live (serial_pool s) !! dma_addr record = Some (dma_size record / PAGE_SIZE)) then
        _ ← modifyS (set_serial_pool (free_pages (dma_addr record) (dma_size record / PAGE_SIZE) (serial_pool s)));
        _ ← upd (λ v, set_allocation (delete addr (dma_allocation v)) v);
        mret (Some addr)
      else panicM
  end.

(** [self.allocate_dma_memory(size).ok_or(OutOfResource)?] and the like. *)
Definition allocate_or (size : Z) : SM DmaRecord := r ← serial_allocate size; ok_or r (Failed VirtioSerialError.OutOfResource).
Definition free_or (addr : Z) : SM Z := r ← serial_free addr; ok_or r (Failed VirtioSerialError.OutOfResource).

(** [from_raw_parts(addr, len)] and what is read through it. *)
Definition serial_read (addr len : Z) : SM bytes :=
  s ← getS;
  match live (serial_pool s) !! addr with
  | Some n =>
      if len <=? n * PAGE_SIZE
      then mret ((λ i, as_u 8 (default 0 (serial_mem s !! (addr + i)))) <$> seqZ 0 len)
      else panicM
  | None => panicM
  end.

(** [from_raw_parts_mut(addr, size)[0..data.len()].copy_from_slice(data)] *)
Definition serial_write (addr size : Z) (data : bytes) : SM unit :=
  s ← getS;
  match live (serial_pool s) !! addr with
  | Some n =>
      if (size <=? n * PAGE_SIZE) && (lenz data <=? size)
      then modifyS (set_serial_mem (write_bytes addr data (serial_mem s)))
      else panicM
  | None => panicM
  end.

(** ** The host *)

(** Every queue gets its new rings, if any. *)
Fixpoint host_queues (rs : list (option RingMemory)) (qs : list VirtQueue) : list VirtQueue :=
  match rs, qs with
  | r :: rs, q :: qs => host_rings r q :: host_queues rs qs
  | _, _ => qs
  end.

Definition serial_act (a : SerialAct) (s : SerialSt) : SerialSt :=
  mkSerialSt (set_queues (host_queues (act_rings a) (queues (serial s))) (serial s)) (serial_pool s) (act_time a (timer s))
    (RECEIVE_QUEUES s) (IRQ_FLAG s || act_irq a)
    (foldl (λ x kv, <[kv.1 := kv.2]> x) (serial_mem s) (act_bytes a)) (tail (script s)).

(** The host moves, when it still does. *)
Definition host_turn : SM unit :=
  s ← getS; match script s with [] => mret tt | a :: _ => modifyS (serial_act a) end.

(** [self.queues.index(i).borrow_mut().can_pop()] *)
Definition can_pop_now (i : Z) : SM bool :=
  _ ← host_turn; s ← getS; q ← or_panic (nthz (queues (serial s)) i); mret (can_pop q).

(** [pop_used(&mut g2h, &mut h2g)?] of empty vectors: the length, [g2h] and [h2g]. *)
Definition pop_queue (i : Z) : SM (Z * list VirtqueueBuf * list VirtqueueBuf) :=
  _ ← host_turn;
  on_queue i (λ q, let '(r, p) := pop_used (mkPop q [] []) in ((n ← r; Ok (n, p_g2h p, p_h2g p)), p_vq p)).

(** ** Waiting (event.rs) *)

(** [wait_for_event]: the processor halts until something happens; without an
    interrupt or a timeout to come it never returns. *)
Fixpoint wait_loop (acts : list SerialAct) : SM bool :=
  s ← getS;
  if IRQ_FLAG s then _ ← modifyS (set_irq_flag false); mret true
  else
    match acts with
    | [] => failM Pending
    | a :: acts =>
        _ ← modifyS (serial_act a);
        s ← getS;
        if negb (IRQ_FLAG s) && is_timeout (timer s)
        then _ ← modifyS (set_timer (reset_timeout (timer s))); mret false
        else wait_loop acts
    end.

Definition wait_for_event : SM bool := s ← getS; wait_loop (script s).

(** [!vq.borrow_mut().can_pop()] *)
Definition nothing_used (i : Z) : SM bool := ready ← can_pop_now i; mret (negb ready).

(** [while !vq.can_pop() && !timer.is_timeout() { if !wait_for_event(..) && !vq.can_pop() .. }] *)
Fixpoint wait_used (fuel : nat) (i : Z) : SM unit :=
  ready ← can_pop_now i;
  s ← getS;
  if (ready : bool) || is_timeout (timer s) then mret tt
  else
    match fuel with
    | O => panicM
    | S fuel =>
        event ← wait_for_event;
        late ← match event with true => mret false | false => nothing_used i end;
        if late : bool then failM (Failed VirtioSerialError.Timeout) else wait_used fuel i
    end.

(** [set_timeout(..).ok_or(InvalidParameter)?], the loop above and [reset_timeout]. *)
Definition wait_with_timeout (i : Z) : SM unit :=
  s ← getS;
  let '(r, t) := set_timeout SERIAL_TIMEOUT (timer s) in
  _ ← modifyS (set_timer t);
  _ ← ok_or r (Failed VirtioSerialError.InvalidParameter);
  s ← getS;
  _ ← wait_used (S (S (length (script s)))) i;
  modifyS (λ s, set_timer (reset_timeout (timer s)) s).

(** [while !vq.borrow_mut().can_pop() {}] *)
Fixpoint spin_loop (acts : list SerialAct) (i : Z) : SM unit :=
  ready ← can_pop_now i;
  if ready : bool then mret tt else match acts with [] => failM Pending | _ :: acts => spin_loop acts i end.

Definition spin_until_used (i : Z) : SM unit := s ← getS; spin_loop (script s) i.

(** ** Queues *)

Definition kick_serial (queue : Z) : SM unit := _ ← on_virtio (set_queue queue); on_virtio (notify_queue queue).

(** [for vq_buf in &g2h { self.free_dma_memory(vq_buf.addr).ok_or(OutOfResource)?; }] *)
Fixpoint free_all (l : list VirtqueueBuf) : SM unit :=
  match l with [] => mret tt | b :: l => _ ← free_or (buf_addr b); free_all l end.

(** A copy of the data in DMA memory goes to a queue. *)
Definition queue_data (data : bytes) (queue : Z) : SM unit :=
  dma ← allocate_or (lenz data);
  _ ← serial_write (dma_addr dma) (dma_size dma) data;
  _ ← on_queue queue (add [mkBuf (dma_addr dma) (as_u 32 (lenz data))] []);
  kick_serial queue.

Definition send_control (data : bytes) : SM Z :=
  _ ← queue_data data CONTROL_TRANSMITQ;
  _ ← wait_with_timeout CONTROL_TRANSMITQ;
  p ← pop_queue CONTROL_TRANSMITQ;
  _ ← free_all p.1.2;
  mret (lenz data).

Definition enqueue (data : bytes) (port_id : Z) : SM Z :=
  _ ← err_if (bool_decide (data = []) || (u_max 32 <? lenz data)) (Failed VirtioSerialError.InvalidParameter);
  _ ← err_if (MAX_PORT_SUPPORTED <=? port_id) (Failed VirtioSerialError.InvalidParameter);
  queue_idx ← or_panic (add_u 16 (port_queue_index port_id) 1);
  _ ← queue_data data queue_idx;
  _ ← spin_until_used queue_idx;
  p ← pop_queue queue_idx;
  _ ← free_all p.1.2;
  mret (lenz data).

(** A receive buffer for a queue. *)
Definition add_receive_buffer (queue : Z) : SM unit :=
  data_buf ← allocate_or DEFAULT_BUF_SIZE;
  _ ← on_queue queue (add [] [mkBuf (dma_addr data_buf) DEFAULT_BUF_SIZE]);
  mret tt.

(** [while self.receive_queues_prefill[1] < RX_QUEUE_PREFILL_NUM] *)
Fixpoint control_fill_loop (fuel : nat) : SM unit :=
  s ← getS;
  n ← or_panic (nthz (receive_queues_prefill (serial s)) (CONTROL_RECEIVEQ / 2));
  if n <? SERIAL_PREFILL_NUM then
    match fuel with
    | O => panicM
    | S fuel =>
        _ ← add_receive_buffer CONTROL_RECEIVEQ;
        _ ← upd (λ v, set_prefill (<[Z.to_nat (CONTROL_RECEIVEQ / 2) := n + 1]> (receive_queues_prefill v)) v);
        control_fill_loop fuel
    end
  else mret tt.

Definition fill_control_queue : SM unit :=
  s ← getS;
  n ← or_panic (nthz (receive_queues_prefill (serial s)) (CONTROL_RECEIVEQ / 2));
  if SERIAL_PREFILL_NUM / 2 <? n then mret tt
  else
    _ ← control_fill_loop (Z.to_nat (SERIAL_PREFILL_NUM - n));
    kick_serial CONTROL_RECEIVEQ.

(** [while prefill_nr < RX_QUEUE_PREFILL_NUM]; the local [prefill_nr] at the end. *)
Fixpoint port_fill_loop (fuel : nat) (queue_idx prefill_nr : Z) : SM Z :=
  if prefill_nr <? SERIAL_PREFILL_NUM then
    match fuel with
    | O => panicM
    | S fuel => _ ← add_receive_buffer queue_idx; port_fill_loop fuel queue_idx (prefill_nr + 1)
    end
  else mret prefill_nr.

Definition fill_port_queue (port_id : Z) : SM unit :=
  let queue_idx := port_queue_index port_id in
  s ← getS;
  n ← or_panic (nthz (receive_queues_prefill (serial s)) (queue_idx / 2));
  if SERIAL_PREFILL_NUM / 2 <? n then mret tt
  else
    n' ← port_fill_loop (Z.to_nat (SERIAL_PREFILL_NUM - n)) queue_idx n;
    _ ← upd (λ v, set_prefill (<[Z.to_nat (queue_idx / 2) := n']> (receive_queues_prefill v)) v);
    kick_serial queue_idx.

(** ** Control messages *)

Definition send_event (id event : Z) : SM unit := _ ← send_control (control_as_bytes (mkControl id event 1)); mret tt.
Definition device_ready : SM unit := send_event 0 DEVICE_READY.
Definition port_ready (id : Z) : SM unit := send_event id PORT_READY.
Definition open_port (id : Z) : SM unit := send_event id PORT_OPEN.

Definition handle_control_msg (control_msg : bytes) : SM unit :=
  _ ← err_if (lenz control_msg <? CONTROL_SIZE) (Failed VirtioSerialError.InvalidParameter);
  id ← or_panic (slice control_msg 0 4);
  event ← or_panic (slice control_msg 4 6);
  val ← or_panic (slice control_msg 6 8);
  let port_id := le_val id in
  s ← getS;
  _ ← err_if ((max_nr_ports (serial s) <=? port_id) || (MAX_PORT_SUPPORTED <=? port_id)) (Failed VirtioSerialError.InvalidParameter);
  match control_event_of (le_val event) with
  | DeviceAdd => _ ← fill_port_queue port_id; port_ready port_id
  | DeviceRemove => upd (λ v, set_connected (connected_ports v ∖ {[port_id]}) v)
  | PortOpen =>
      if le_val val =? 1 then
        _ ← upd (λ v, set_connected ({[port_id]} ∪ connected_ports v) v);
        open_port port_id
      else mret tt
  | ConsolePort | Resize | PortName => mret tt
  | DeviceReady | PortReady | UnknownEvent => failM (Failed VirtioSerialError.InvalidParameter)
  end.

(** The error of a handler is kept until its buffer is released. *)
Definition attempt {X} (m : SM X) : SM (outcome (aerr VirtioSerialError.t) X) := λ s,
  match m s with (Panic, s') => (Panic, s') | (Err Pending, s') => (Err Pending, s') | (r, s') => (Ok r, s') end.

(** [for vq_buf in &h2g]; the waiting pump releases a buffer before it returns the
    handler's error, the other one does not. *)
Fixpoint handle_buffers (wait : bool) (h2g : list VirtqueueBuf) : SM unit :=
  match h2g with
  | [] => mret tt
  | b :: h2g =>
      s ← getS;
      _ ← match dma_allocation (serial s) !! buf_addr b with
          | Some record =>
              control_msg ← serial_read (buf_addr b) (Z.min (buf_len b) (dma_size record));
              if wait then
                result ← attempt (handle_control_msg control_msg);
                _ ← free_or (buf_addr b);
                liftO result
              else
                _ ← handle_control_msg control_msg;
                _ ← free_or (buf_addr b);
                mret tt
          | None => mret tt
          end;
      handle_buffers wait h2g
  end.

(** [while .. can_pop()]: a turn takes a buffer the host has. *)
Fixpoint drain_control (wait : bool) (fuel : nat) : SM unit :=
  ready ← can_pop_now CONTROL_RECEIVEQ;
  if ready : bool then
    match fuel with
    | O => panicM
    | S fuel =>
        p ← pop_queue CONTROL_RECEIVEQ;
        _ ← handle_buffers wait p.2;
        drain_control wait fuel
    end
  else mret tt.

Definition DRAIN_FUEL : nat := Z.to_nat (SERIAL_QUEUE_SIZE + 1).

Definition recv_control_nonblock : SM unit :=
  ready ← can_pop_now CONTROL_RECEIVEQ;
  if ready : bool then drain_control false DRAIN_FUEL else mret tt.

Definition recv_control : SM unit :=
  _ ← wait_with_timeout CONTROL_RECEIVEQ;
  drain_control true DRAIN_FUEL.

(** ** Receiving *)

Definition port_queue_push (port_id : Z) (buf : bytes) : SM unit :=
  if bool_decide (buf = []) then mret tt
  else
    s ← getS;
    q ← ok_or (RECEIVE_QUEUES s !! port_id) (Failed VirtioSerialError.InvalidParameter);
    modifyS (set_receive_queues (<[port_id := q ++ [buf]]> (RECEIVE_QUEUES s))).

Definition port_queue_pop (port_id : Z) : SM (option bytes) :=
  s ← getS;
  match RECEIVE_QUEUES s !! port_id with
  | Some (buf :: q) => _ ← modifyS (set_receive_queues (<[port_id := q]> (RECEIVE_QUEUES s))); mret (Some buf)
  | _ => mret None
  end.

(** [for buffer in h2g]; [len] is the whole length, [remaining] what is left of it. *)
Fixpoint receive_buffers (port_id len remaining : Z) (h2g : list VirtqueueBuf) : SM unit :=
  match h2g with
  | [] => mret tt
  | buffer :: h2g =>
      _ ← err_if (remaining =? 0) (Failed VirtioSerialError.InvalidParameter);
      s ← getS;
      match dma_allocation (serial s) !! buf_addr buffer with
      | None => receive_buffers port_id len remaining h2g
      | Some record =>
          let safe_len := Z.min (buf_len buffer) (dma_size record) in
          let used_len := Z.min (Z.min len (buf_len buffer)) safe_len in
          data_buf ← serial_read (buf_addr buffer) used_len;
          remaining ← ok_or (sub_u remaining (as_u 32 used_len)) (Failed VirtioSerialError.InvalidParameter);
          _ ← port_queue_push port_id data_buf;
          _ ← free_or (buf_addr buffer);
          receive_buffers port_id len remaining h2g
      end
  end.

Definition receive_data (port_id : Z) (h2g : list VirtqueueBuf) (len : Z) : SM unit := receive_buffers port_id len len h2g.

Definition serial_pop_rx (port_id : Z) : SM unit :=
  let queue_idx := port_queue_index port_id in
  p ← pop_queue queue_idx;
  s ← getS;
  prefill_num ← or_panic (nthz (receive_queues_prefill (serial s)) (queue_idx / 2));
  _ ← err_if (prefill_num <? lenz p.2) (Failed VirtioSerialError.Device);
  _ ← upd (λ v, set_prefill (<[Z.to_nat (queue_idx / 2) := prefill_num - lenz p.2]> (receive_queues_prefill v)) v);
  _ ← receive_data port_id p.2 p.1.1;
  fill_port_queue port_id.

Definition dequeue (port_id : Z) : SM bytes :=
  r ← port_queue_pop port_id;
  match r with
  | Some data => mret data
  | None =>
      ready ← can_pop_now (port_queue_index port_id);
      _ ← err_if (negb ready) (Failed VirtioSerialError.NotReady);
      _ ← serial_pop_rx port_id;
      r ← port_queue_pop port_id;
      ok_or r (Failed VirtioSerialError.NotReady)
  end.

Definition can_recv (port_id : Z) : SM bool :=
  s ← getS;
  match RECEIVE_QUEUES s !! port_id with
  | Some (_ :: _) => mret true
  | _ => can_pop_now (port_queue_index port_id)
  end.

(** ** Ports *)

Definition port_queue_create (port_id : Z) : SM unit :=
  _ ← err_if (MAX_PORT_SUPPORTED <? port_id) (Failed VirtioSerialError.InvalidParameter);
  modifyS (λ s, set_receive_queues (<[port_id := []]> (RECEIVE_QUEUES s)) s).

Definition port_queue_delete (port_id : Z) : SM unit :=
  _ ← err_if (MAX_PORT_SUPPORTED <? port_id) (Failed VirtioSerialError.InvalidParameter);
  modifyS (λ s, set_receive_queues (delete port_id (RECEIVE_QUEUES s)) s).

Definition allocate_port (id : Z) : SM unit :=
  _ ← port_queue_create id;
  s ← getS;
  _ ← err_if (negb (bool_decide (id ∈ connected_ports (serial s)))) (Failed (VirtioSerialError.PortNotAvailable id));
  _ ← err_if (bool_decide (id ∈ allocated_ports (serial s))) (Failed (VirtioSerialError.PortAlreadyUsed id));
  upd (λ v, set_allocated ({[id]} ∪ allocated_ports v) v).

Definition free_port (id : Z) : SM unit :=
  _ ← port_queue_delete id;
  s ← getS;
  _ ← err_if (negb (bool_decide (id ∈ connected_ports (serial s)))) (Failed (VirtioSerialError.PortNotAvailable id));
  upd (λ v, set_allocated (allocated_ports v ∖ {[id]}) v).

(** ** Initialization *)

(** [transport.init(..).map_err(|_| Device)?] *)
Definition init_or_device (m : SM unit) : SM unit := λ s,
  match m s with (Err _, s') => (Err (Failed VirtioSerialError.Device), s') | r => r end.

Definition fail_serial : SM unit :=
  _ ← on_virtio (add_status VIRTIO_STATUS_FAILED); failM (Failed VirtioSerialError.Device).

Definition init_status : SM unit :=
  _ ← init_or_device (on_virtio (vt_init VIRTIO_SUBSYSTEM_CONSOLE));
  _ ← on_virtio (add_status 64);
  _ ← on_virtio (set_status VIRTIO_STATUS_RESET);
  _ ← on_virtio (add_status VIRTIO_STATUS_ACKNOWLEDGE);
  _ ← on_virtio (add_status VIRTIO_STATUS_DRIVER);
  _ ← on_virtio (add_status VIRTIO_STATUS_FEATURES_OK);
  status ← on_virtio get_status;
  _ ← (if negb (Z.land status VIRTIO_STATUS_FEATURES_OK =? VIRTIO_STATUS_FEATURES_OK) then fail_serial else mret tt);
  max_queue ← on_virtio get_queue_max_size;
  if max_queue <? SERIAL_QUEUE_SIZE then fail_serial else mret tt.

Definition read_serial_config : SM unit :=
  n ← on_virtio (read_device_config CONFIG_MAX_NR_PORTS_OFFSET); upd (set_max_nr_ports n).

(** [Self::create_queue] is the code of the vsock driver; a receive queue gets a
    counter.  [mem] is what the ring pages of each queue hold. *)
Definition program_queue (mem : Z → RingMemory) (idx queue_address : Z) (receive : bool) : SM unit :=
  queue ← on_virtio (create_queue (mem idx) idx queue_address SERIAL_QUEUE_SIZE);
  _ ← upd (λ v, set_queues (queues v ++ [queue]) v);
  if receive then upd (λ v, set_prefill (receive_queues_prefill v ++ [0]) v) else mret tt.

(** The queues after the first: [queue_address += queue_layout.size()] before each. *)
Fixpoint program_queues (mem : Z → RingMemory) (size : Z) (l : list (Z * bool)) (queue_address : Z) : SM unit :=
  match l with
  | [] => mret tt
  | (idx, receive) :: l =>
      queue_address ← or_panic (add_u 64 queue_address size);
      _ ← program_queue mem idx queue_address receive;
      program_queues mem size l queue_address
  end.

(** The queues of ports 1 .. N. *)
Definition more_ports : list (Z * bool) :=
  concat ((λ port_id, let index := 4 + (port_id - 1) * 2 in [(index, true); (index + 1, false)]) <$> seqZ 1 (MAX_PORT_SUPPORTED - 1)).

Definition init_queues (mem : Z → RingMemory) : SM unit :=
  queue_layout ← ok_or (layout_new SERIAL_QUEUE_SIZE) (Failed (VirtioSerialError.Virtio CreateVirtioQueue));
  let queue_size := layout_size queue_layout * (2 + MAX_PORT_SUPPORTED * 2) in
  queue_dma_pages ← allocate_or queue_size;
  let queue_address := dma_addr queue_dma_pages in
  _ ← program_queue mem PORT0_RECEIVEQ queue_address true;
  program_queues mem (layout_size queue_layout)
    ([(PORT0_TRANSMITQ, false); (CONTROL_RECEIVEQ, true); (CONTROL_TRANSMITQ, false)] ++ more_ports) queue_address.

Fixpoint notify_all (l : list Z) (irq_index : Z) : SM unit :=
  match l with [] => mret tt | q :: l => _ ← on_virtio (notify_through q irq_index); notify_all l irq_index end.

Definition init_notification : SM unit :=
  _ ← err_if (negb (register_interrupt_callback IRQ_VECTOR)) (Failed VirtioSerialError.Interrupt);
  irq_index ← on_virtio (set_interrupt_vector IRQ_VECTOR);
  notify_all ([PORT0_RECEIVEQ; CONTROL_RECEIVEQ; PORT0_TRANSMITQ; CONTROL_TRANSMITQ] ++ more_ports.*1) irq_index.

Definition driver_ok : SM unit :=
  _ ← on_virtio (add_status VIRTIO_STATUS_DRIVER_OK);
  status ← on_virtio get_status;
  if negb (Z.land status VIRTIO_STATUS_DRIVER_OK =? VIRTIO_STATUS_DRIVER_OK) then fail_serial else mret tt.

Definition init_control : SM unit :=
  _ ← fill_control_queue; _ ← device_ready; recv_control.

Definition serial_init (mem : Z → RingMemory) : SM unit :=
  _ ← init_status;
  _ ← read_serial_config;
  _ ← init_queues mem;
  _ ← init_notification;
  _ ← driver_ok;
  init_control.

(** [VirtioSerial::new] *)
Definition serial_new (t : T) : VirtioSerial := mkSerial t ∅ [] [] 0 ∅ ∅.

(** The device is registered once; a further call only runs the initialization. *)
Definition register_serial_device (mem : Z → RingMemory) (registered : bool) (device : VirtioSerial) : SM unit :=
  _ ← (if registered then mret tt else upd (λ _, device));
  serial_init mem.

(** ** Serial ports (port.rs), once a device is registered *)

Record VirtioSerialPort := mkPort { port_id : Z; cache : list bytes }.

(** [loop { .. dequeue(..)?; .. if !can_recv(..) { break; } }]; the new cache.  What
    is in the cache when [dequeue] fails stays there. *)
Fixpoint gather (fuel : nat) (id : Z) (cache : list bytes) : SM (list bytes * option VirtioSerialError.t) :=
  match fuel with
  | O => failM OutOfFuel
  | S fuel =>
      r ← attempt (dequeue id);
      match r with
      | Ok recv_bytes =>
          let cache := cache ++ [recv_bytes] in
          more ← can_recv id;
          if more : bool then gather fuel id cache else mret (cache, None)
      | Err (Failed e) => mret (cache, Some e)
      | Err e => failM e
      | Panic => panicM
      end
  end.

(** [while !self.cache.is_empty() && recvd < data.len()]; [expect] is
    [data.len() - recvd]: the bytes copied and the cache left. *)
Fixpoint take_cache (cache : list bytes) (expect : Z) : bytes * list bytes :=
  match cache with
  | [] => ([], [])
  | front :: cache' =>
      if expect <=? 0 then ([], cache)
      else if lenz front <=? expect then
        let '(data, c) := take_cache cache' (expect - lenz front) in (front ++ data, c)
      else (take (Z.to_nat expect) front, drop (Z.to_nat expect) front :: cache')
  end.

(** [VirtioSerialPort::recv] into a buffer of [len] bytes. *)
Definition port_recv (fuel : nat) (port : VirtioSerialPort) (len : Z) : SM (VirtioSerialPort * outcome VirtioSerialError.t bytes) :=
  g ← (if bool_decide (cache port = []) then gather fuel (port_id port) [] else mret (cache port, None));
  match g.2 with
  | Some e => mret (mkPort (port_id port) g.1, Err e)
  | None => let '(data, c) := take_cache g.1 len in mret (mkPort (port_id port) c, Ok data)
  end.

Definition port_send (port : VirtioSerialPort) (data : bytes) : SM Z := enqueue data (port_id port).
Definition port_open (port : VirtioSerialPort) : SM unit := allocate_port (port_id port).
Definition port_close (port : VirtioSerialPort) : SM unit := free_port (port_id port).

End driver.

Arguments VirtioSerial : clear implicits.
Arguments SerialSt : clear implicits.
Arguments SerialAct : clear implicits.
