(* ===== verification/SerialSpec.v ===== *)
(** * SerialSpec: the virtio serial driver against a hostile host

    Whatever the host does to the rings and to the shared pages of the driver of
    Serial, and whenever: no page is released twice or while a queue still refers to
    it, every access is inside an allocated page, no operation aborts, and draining
    the control queue ends.  What a port receives it delivers in order. *)
From stdpp Require Import base tactics numbers option gmap countable list list_numbers.
From S2P Require Import Prelude VirtQueue VirtQueueSpec Vsock VsockStream VsockVmcall VsockVmcallSpec VsockVirtio VsockVirtioSpec.
From S2P Require Import Serial.
Local Open Scope Z_scope.

(** ** The table of DMA pages *)

Section table.
Context {A : Type} `{!DmaPageAllocator A} `{!DmaPageLaws A}.
Implicit Types (rec : gmap Z DmaRecord) (a : A) (bufs : list VirtqueueBuf) (ring : Z).

Definition owned rec ring (b : VirtqueueBuf) : Prop :=
  buf_addr b ≠ ring ∧ ∃ r, rec !! buf_addr b = Some r ∧ 0 <= buf_len b <= dma_size r ∧ in_u 32 (buf_len b).

(** Every record is of live pages, the ring pages at [ring] stay, and the buffers
    [bufs] are in different recorded pages. *)
Record table_ok rec a ring bufs : Prop := {
  tb_rec key r : rec !! key = Some r →
    dma_addr r = key ∧ dma_size r mod PAGE_SIZE = 0 ∧ live a !! key = Some (dma_size r / PAGE_SIZE);
  tb_ring : is_Some (rec !! ring);
  tb_nodup : NoDup (buf_addr <$> bufs);
  tb_owned : Forall (owned rec ring) bufs }.

Lemma table_leak rec a ring bufs bufs' : bufs' ⊆+ bufs → table_ok rec a ring bufs → table_ok rec a ring bufs'.
Proof.
  intros (l & Hl)%submseteq_Permutation []. rewrite Hl in *. split; try done.
  - rewrite fmap_app in tb_nodup0. by apply NoDup_app in tb_nodup0 as (? & _ & _).
  - by apply Forall_app in tb_owned0 as [? _].
Qed.

Lemma table_perm rec a ring bufs bufs' : bufs ≡ₚ bufs' → table_ok rec a ring bufs → table_ok rec a ring bufs'.
Proof. intros Hp. apply table_leak. by rewrite Hp. Qed.

Lemma table_pool rec a a' ring bufs : live a' = live a → table_ok rec a ring bufs → table_ok rec a' ring bufs.
Proof. intros Hl []. split; try done. by rewrite Hl. Qed.

(** Fresh pages are a buffer more. *)
Lemma table_alloc rec a ring bufs n p a' len :
  table_ok rec a ring bufs → 0 < n → alloc_pages n a = (Some p, a') → 0 <= len <= n * PAGE_SIZE → in_u 32 len →
  table_ok (<[p := mkDma p (n * PAGE_SIZE)]> rec) a' ring (mkBuf p len :: bufs).
Proof.
  intros [] Hn Ha Hl Hl'. destruct (alloc_fresh _ _ _ _ Hn Ha) as (Hlive & Hfree & _).
  assert (rec !! p = None) as Hrec.
  { destruct (rec !! p) as [r|] eqn:E; [|done]. apply tb_rec0 in E as (_ & _ & E). congruence. }
  assert (p ≠ ring) as Hne by (intros ->; destruct tb_ring0; congruence).
  split.
  - intros key r Hr. rewrite Hlive. apply lookup_insert_Some in Hr as [[<- <-]|[Hk Hr]]; cbn.
    + rewrite lookup_insert_eq, Z.mod_mul, Z.div_mul by (unfold PAGE_SIZE; lia). done.
    + rewrite lookup_insert_ne by done. by apply tb_rec0.
  - by rewrite lookup_insert_ne by done.
  - cbn. apply NoDup_cons. split; [|done]. intros (b & -> & Hb)%list_elem_of_fmap.
    rewrite Forall_forall in tb_owned0. destruct (tb_owned0 b Hb) as (_ & r & E & _). congruence.
  - constructor.
    + split; [done|]. eexists. by rewrite lookup_insert_eq.
    + eapply Forall_impl; [exact tb_owned0|]. intros b (Hq & r & Hr & Hb). split; [done|]. exists r.
      by rewrite lookup_insert_ne by congruence.
Qed.

Lemma table_free rec a ring b bufs : table_ok rec a ring (b :: bufs) →
  ∃ r, rec !! buf_addr b = Some r ∧ dma_addr r = buf_addr b ∧ live a !! buf_addr b = Some (dma_size r / PAGE_SIZE) ∧
    0 <= buf_len b <= dma_size r ∧
    table_ok (delete (buf_addr b) rec) (free_pages (buf_addr b) (dma_size r / PAGE_SIZE) a) ring bufs.
Proof.
  intros []. apply Forall_cons in tb_owned0 as [(Hq & r & Hr & Hl & _) Ho]. cbn in tb_nodup0. apply NoDup_cons in tb_nodup0 as [Hnin Hnd].
  destruct (tb_rec0 _ _ Hr) as (Hra & Hm & Hlive). exists r. split_and!; try done; try lia. split.
  - intros key r' (Hne & Hr')%lookup_delete_Some. destruct (tb_rec0 _ _ Hr') as (H1 & H2 & H3).
    split; [done|]. split; [done|]. rewrite (free_live _ _ _ Hlive). by rewrite lookup_delete_ne.
  - by rewrite lookup_delete_ne.
  - done.
  - rewrite Forall_forall in *. intros b' Hb'. destruct (Ho b' Hb') as (Hq' & r' & Hr' & Hl'). split; [done|].
    exists r'. rewrite lookup_delete_ne; [done|]. intros E. apply Hnin. rewrite E. by apply list_elem_of_fmap_2.
Qed.

(** The first buffer's pages. *)
Lemma table_head rec a ring b bufs : table_ok rec a ring (b :: bufs) →
  ∃ r n, rec !! buf_addr b = Some r ∧ 0 <= buf_len b <= dma_size r ∧ live a !! buf_addr b = Some n ∧ dma_size r = n * PAGE_SIZE.
Proof.
  intros []. apply Forall_cons in tb_owned0 as [(Hq & r & Hr & Hl & _) Ho]. destruct (tb_rec0 _ _ Hr) as (_ & Hm & Hlive).
  exists r, (dma_size r / PAGE_SIZE). split_and!; try done; try lia. apply Z.div_exact in Hm; [lia|done].
Qed.
End table.

(** ** The invariant *)

Notation all_bufs ms := (concat (bufs_of <$> ms)).

Lemma all_bufs_insert (ms : list requests) i m m' : ms !! i = Some m →
  ∃ rest, all_bufs ms ≡ₚ bufs_of m ++ rest ∧ all_bufs (<[i := m']> ms) ≡ₚ bufs_of m' ++ rest.
Proof.
  intros Hi. exists (all_bufs (take i ms) ++ all_bufs (drop (S i) ms)). split.
  - rewrite <-(take_drop_middle ms i m Hi) at 1. rewrite fmap_app, concat_app. cbn. solve_Permutation.
  - rewrite insert_take_drop by (by eapply lookup_lt_Some). rewrite fmap_app, concat_app. cbn. solve_Permutation.
Qed.

Lemma requests_insert (m : requests) t r : m !! t = None → size (<[t := r]> m) = S (size m).
Proof. apply (map_size_insert_None (M := gmap Z)). Qed.

Lemma requests_delete (m : requests) t r : m !! t = Some r → size m = S (size (delete t m)).
Proof. intros Hm. rewrite <-(insert_delete_id m t r Hm) at 1. apply requests_insert, lookup_delete_eq. Qed.

Section driver.
Context {T A Tm : Type} `{!VirtioTransport T} `{!DmaPageAllocator A} `{!InterruptTable} `{!Timer Tm}
  `{!TransportSafe T, !DmaPageLaws A}.
Notation St := (SerialSt T A Tm).
Notation SM := (M St (aerr VirtioSerialError.t)).
Implicit Types (s : St) (pend : list VirtqueueBuf) (k : nat) (ring : Z).

(** The place of the control receive queue. *)
Definition CONTROL : nat := 2%nat.

(** [dev_ok ring k pend s ms]: the queues hold the requests [ms], at most [k] of
    them in the control receive queue, and [pend] are the buffers in the driver's
    hands. *)
Record dev_ok ring k pend s (ms : list requests) : Prop := {
  so_transport : t_inv (virtio (serial s));
  so_queues : Forall2 vq_abs (queues (serial s)) ms;
  so_six : length ms = 6%nat;
  so_prefill : length (receive_queues_prefill (serial s)) = 3%nat;
  so_range : Forall (λ n, 0 <= n <= SERIAL_PREFILL_NUM) (receive_queues_prefill (serial s));
  so_control m : ms !! CONTROL = Some m → (size m ≤ k)%nat;
  so_table : table_ok (dma_allocation (serial s)) (serial_pool s) ring (all_bufs ms ++ pend) }.

Definition sinv ring k pend s : Prop := ∃ ms, dev_ok ring k pend s ms.

Lemma sinv_leak ring k k' pend pend' s : (k ≤ k')%nat → pend' ⊆+ pend → sinv ring k pend s → sinv ring k' pend' s.
Proof.
  intros Hk Hp (ms & []). exists ms. split; try done.
  - intros m Hm. specialize (so_control0 m Hm). lia.
  - eapply table_leak; [|exact so_table0]. by apply submseteq_app.
Qed.

Lemma sinv_perm ring k pend pend' s : pend ≡ₚ pend' → sinv ring k pend s → sinv ring k pend' s.
Proof. intros Hp. apply sinv_leak; [done|by rewrite Hp]. Qed.

(** The parts of the state the invariant speaks of. *)
Lemma sinv_same ring k pend s s' :
  virtio (serial s') = virtio (serial s) → queues (serial s') = queues (serial s) →
  receive_queues_prefill (serial s') = receive_queues_prefill (serial s) →
  dma_allocation (serial s') = dma_allocation (serial s) → serial_pool s' = serial_pool s →
  sinv ring k pend s → sinv ring k pend s'.
Proof. intros E1 E2 E3 E4 E5 (ms & []). exists ms. by split; rewrite ?E1, ?E2, ?E3, ?E4, ?E5. Qed.

(** A computation that leaves the invariant alone. *)
Definition still {X} (m : SM X) : Prop := ∀ ring k pend, safe (sinv ring k pend) m (λ _, sinv ring k pend) (sinv ring k pend).

Lemma still_bind {X Y} (m : SM X) (f : X → SM Y) : still m → (∀ x, still (f x)) → still (m ≫= f).
Proof. intros Hm Hf ring k pend. eapply safe_bind; [apply Hm|]. intros x. apply Hf. Qed.
Lemma still_ret {X} (x : X) : still (mret x).
Proof. intros ring k pend. by apply safe_ret. Qed.
Lemma still_fail {X} e : still (failM e : SM X).
Proof. intros ring k pend. by apply safe_fail. Qed.
Lemma still_ok_or {X} (o : option X) e : still (ok_or o e).
Proof. destruct o; [apply still_ret|apply still_fail]. Qed.
Lemma still_err_if c e : still (err_if c e).
Proof. destruct c; [apply still_fail|apply still_ret]. Qed.
Lemma still_check {X} c e (f : unit → SM X) : (c = false → still (f tt)) → still (err_if c e ≫= f).
Proof. intros Hf. destruct c; [apply still_fail|by apply Hf]. Qed.
Lemma still_some {X Y} (x : Y) o (f : Y → SM X) : o = Some x → still (f x) → still (or_panic o ≫= f).
Proof. by intros -> Hf. Qed.
Lemma still_getS {X} (f : St → SM X) : (∀ s, still (f s)) → still (getS ≫= f).
Proof. intros Hf ring k pend s Hs. by apply Hf. Qed.
Lemma still_if {X} (c : bool) (m1 m2 : SM X) : still m1 → still m2 → still (if c then m1 else m2).
Proof. by destruct c. Qed.

Lemma still_modify (f : St → St) : (∀ s, serial (f s) = serial s ∧ serial_pool (f s) = serial_pool s) → still (modifyS f).
Proof. intros Hf ring k pend. apply safe_modifyS. intros s. destruct (Hf s) as [E1 E2]. apply sinv_same; by rewrite ?E1. Qed.

(** The fields of the device the invariant does not mention. *)
Lemma still_upd (f : VirtioSerial T → VirtioSerial T) :
  (∀ v, virtio (f v) = virtio v ∧ queues (f v) = queues v ∧ receive_queues_prefill (f v) = receive_queues_prefill v ∧
        dma_allocation (f v) = dma_allocation v) → still (upd f).
Proof. intros Hf ring k pend. apply safe_modifyS. intros s. destruct (Hf (serial s)) as (? & ? & ? & ?). by apply sinv_same. Qed.

Lemma still_virtio {X} (m : M T VirtioError X) : quiet m → still (on_virtio m).
Proof.
  intros Hm ring k pend s (ms & []). unfold on_virtio. specialize (Hm _ so_transport0).
  destruct (m _) as [[] t]; cbn; [exists ms; by split..|done].
Qed.

Lemma still_kick q : still (kick_serial q).
Proof. apply still_bind; [apply still_virtio; reg_safe|intros []]. apply still_virtio. reg_safe. Qed.

(** *** Pages *)

Lemma allocate_still ring k pend size len : 0 < size < 2 ^ 32 → 0 <= len <= size →
  safe (sinv ring k pend) (allocate_or size)
    (λ x s, sinv ring k (mkBuf (dma_addr x) len :: pend) s ∧ size <= dma_size x ∧ live (serial_pool s) !! dma_addr x = Some (dma_size x / PAGE_SIZE) ∧
            dma_size x / PAGE_SIZE * PAGE_SIZE = dma_size x) (sinv ring k pend).
Proof.
  intros Hs Hl s (ms & Hi). destruct (vsock_align_up_spec size) as [Ha Hb]; [lia|]. change vsock_align_up with serial_align_up in *.
  unfold allocate_or, serial_allocate, upd. rewrite M_bind_eq, getS_bind.
  destruct (alloc_pages (serial_align_up size / PAGE_SIZE) (serial_pool s)) as [[p|] a] eqn:Ea; rewrite modifyS_bind; cbn.
  - set (n := serial_align_up size / PAGE_SIZE) in *. assert (0 < n) as Hn by (unfold PAGE_SIZE in *; lia).
    destruct (alloc_fresh _ _ _ _ Hn Ea) as (Hlive & _). rewrite modifyS_bind. cbn. rewrite Hlive, lookup_insert_eq. split_and!; [|lia|done|done].
    destruct Hi. exists ms. split; try done. cbn. rewrite <-Ha.
    eapply table_perm; [|eapply (table_alloc _ _ _ _ n p a len); try done; [lia|unfold in_u; lia]]. solve_Permutation.
  - destruct Hi. exists ms. split; try done. cbn. eapply table_pool; [|done]. by eapply alloc_fail.
Qed.

Lemma free_still ring k b pend : safe (sinv ring k (b :: pend)) (free_or (buf_addr b)) (λ _, sinv ring k pend) (sinv ring k pend).
Proof.
  intros s (ms & Hi). destruct Hi.
  assert (all_bufs ms ++ b :: pend ≡ₚ b :: all_bufs ms ++ pend) as Hp by solve_Permutation.
  destruct (table_free _ _ _ _ _ (table_perm _ _ _ _ _ Hp so_table0)) as (r & Hr & Ha & Hlive & _ & Ht).
  unfold free_or, serial_free, upd. rewrite M_bind_eq, getS_bind, Hr, Ha, bool_decide_true by done. rewrite !modifyS_bind. cbn. exists ms. by split.
Qed.

(** Reading a buffer in the driver's hands. *)
Lemma read_still {X} ring k b pend (f : bytes → SM X) len Q R : len <= buf_len b →
  (∀ bs, bytes_ok bs → safe (sinv ring k (b :: pend)) (f bs) Q R) →
  safe (sinv ring k (b :: pend)) (serial_read (buf_addr b) len ≫= f) Q R.
Proof.
  intros Hl Hf s (ms & Hi). rewrite M_bind_eq. unfold serial_read. rewrite getS_bind. pose proof Hi as [].
  assert (all_bufs ms ++ b :: pend ≡ₚ b :: all_bufs ms ++ pend) as Hp by solve_Permutation.
  destruct (table_head _ _ _ _ _ (table_perm _ _ _ _ _ Hp so_table0)) as (r & n & _ & Hb & -> & Hn).
  destruct (Z.leb_spec len (n * PAGE_SIZE)); [|lia]. cbn [mret M_ret]. apply Hf; [|by exists ms].
  apply Forall_fmap, Forall_true. intros i. apply Z.mod_pos_bound. lia.
Qed.

(** *** Queues *)

Lemma host_queues_abs rs : ∀ qs (ms : list requests), Forall2 vq_abs qs ms → Forall2 vq_abs (host_queues rs qs) ms.
Proof.
  induction rs as [|r rs IH]; intros qs ms Hq; [by destruct qs|]. destruct Hq as [|q m qs ms Hq Hqs]; [done|].
  cbn. constructor; [|by apply IH]. eapply host_step_abs; [apply host_rings_step|done].
Qed.

Lemma act_inv ring k pend a s : sinv ring k pend s → sinv ring k pend (serial_act a s).
Proof. intros (ms & []). exists ms. split; try done. by apply host_queues_abs. Qed.

Lemma still_host : still host_turn.
Proof. apply still_getS. intros s. destruct (script s); [apply still_ret|]. intros ring k pend. apply safe_modifyS. intros s'. apply act_inv. Qed.

Definition queue_no (i : Z) : Prop := 0 <= i < 6.

Lemma queue_there ring k pend s ms i : queue_no i → dev_ok ring k pend s ms →
  ∃ q m, nthz (queues (serial s)) i = Some q ∧ ms !! Z.to_nat i = Some m ∧ vq_abs q m.
Proof.
  intros Hi []. pose proof (Forall2_length _ _ _ so_queues0) as Hl. unfold queue_no in Hi.
  destruct (nthz_is_Some (queues (serial s)) i) as [q Hq]; [unfold lenz; lia|]. exists q.
  assert (queues (serial s) !! Z.to_nat i = Some q) as Hq' by (unfold nthz in Hq; by destruct (0 <=? i)).
  destruct (Forall2_lookup_l _ _ _ _ _ so_queues0 Hq') as (m & Hm & Ha). by exists m.
Qed.

Lemma still_can_pop i : queue_no i → still (can_pop_now i).
Proof.
  intros Hi. apply still_bind; [apply still_host|intros []]. intros ring k pend s Hs. rewrite getS_bind, or_panic_bind.
  pose proof Hs as (ms & Hm). by destruct (queue_there _ _ _ _ _ _ Hi Hm) as (q & m & -> & _).
Qed.

(** The bound on the control queue after an operation on queue [i]. *)
Definition more (i : Z) k : nat := if i =? CONTROL_RECEIVEQ then S k else k.

Lemma control_insert ring k k' pend s ms i m m' : queue_no i → dev_ok ring k pend s ms → ms !! Z.to_nat i = Some m →
  (i ≠ CONTROL_RECEIVEQ → k ≤ k')%nat → (i = CONTROL_RECEIVEQ → (size m ≤ k)%nat → (size m' ≤ k')%nat) →
  ∀ x, <[Z.to_nat i := m']> ms !! CONTROL = Some x → (size x ≤ k')%nat.
Proof.
  intros Hi [] Hm Hk Hs x Hx. unfold queue_no in Hi. apply list_lookup_insert_Some in Hx as [(E & <- & _)|[Hne Hx]].
  - apply Hs; [unfold CONTROL, CONTROL_RECEIVEQ in *; lia|]. apply so_control0. by rewrite <-E.
  - specialize (so_control0 x Hx). assert (i ≠ CONTROL_RECEIVEQ) as Hi' by (intros ->; by apply Hne). specialize (Hk Hi'). lia.
Qed.

(** Requests leave and enter a queue. *)
Lemma queue_change ring k k' pend pend' s ms i q' m m' :
  queue_no i → dev_ok ring k pend s ms → ms !! Z.to_nat i = Some m → vq_abs q' m' → (i ≠ CONTROL_RECEIVEQ → k ≤ k')%nat →
  (i = CONTROL_RECEIVEQ → (size m ≤ k)%nat → (size m' ≤ k')%nat) → bufs_of m ++ pend ≡ₚ bufs_of m' ++ pend' →
  sinv ring k' pend' (upd_serial (set_queues (<[Z.to_nat i := q']> (queues (serial s)))) s).
Proof.
  intros Hi Hd Hm Ha Hk Hs Hp. pose proof (control_insert ring k k' pend s ms i m m' Hi Hd Hm Hk Hs) as Hc.
  exists (<[Z.to_nat i := m']> ms). destruct Hd. split; cbn; try done.
  - by apply Forall2_insert.
  - by rewrite length_insert.
  - destruct (all_bufs_insert ms (Z.to_nat i) m m' Hm) as (rest & E1 & E2). eapply table_perm; [|exact so_table0].
    rewrite E1, E2. transitivity (rest ++ (bufs_of m ++ pend)); [solve_Permutation|]. rewrite Hp. solve_Permutation.
Qed.

Lemma queue_same ring k pend s ms i q : queue_no i → dev_ok ring k pend s ms → nthz (queues (serial s)) i = Some q →
  sinv ring k pend (upd_serial (set_queues (<[Z.to_nat i := q]> (queues (serial s)))) s).
Proof.
  intros Hi Hd Hq. rewrite list_insert_id; [|unfold nthz in Hq; by destruct (0 <=? i)]. exists ms. by destruct Hd.
Qed.

Lemma pend_fits ring k bs pend s ms : dev_ok ring k (bs ++ pend) s ms → Forall (λ b, in_u 32 (buf_len b)) bs.
Proof.
  intros []. destruct so_table0. rewrite !Forall_app in tb_owned0. destruct tb_owned0 as (_ & Ho & _).
  eapply Forall_impl; [exact Ho|]. by intros b (_ & r & _ & _ & Hb).
Qed.

Lemma add_still ring k g2h h2g pend i : queue_no i →
  safe (sinv ring k ((g2h ++ h2g) ++ pend)) (on_queue i (add g2h h2g)) (λ _, sinv ring (more i k) pend) (sinv ring k pend).
Proof.
  intros Hi s (ms & Hd). destruct (queue_there _ _ _ _ _ _ Hi Hd) as (q & m & Hq & Hm & Ha). unfold on_queue. rewrite Hq.
  pose proof (add_abs q m g2h h2g Ha (pend_fits _ _ _ _ _ _ Hd)) as Hadd.
  destruct (add g2h h2g q) as [[tok|e|] q'] eqn:E; cbn [serial_virtio]; [| |done].
  - destruct Hadd as (_ & _ & Hn & Ha' & _). eapply queue_change; try done.
    + intros _. unfold more. destruct (_ =? _); lia.
    + intros -> Hs. unfold more. rewrite Z.eqb_refl, requests_insert by done. lia.
    + rewrite bufs_of_insert by done. cbn. solve_Permutation.
  - destruct Hadd as [-> _]. apply (sinv_leak ring k k (((g2h ++ h2g) ++ pend))); [done|by apply submseteq_inserts_l|]. by eapply queue_same.
Qed.

(** Taking a request from the control queue is possible at most [k] times. *)
Definition fewer (i : Z) k : nat := if i =? CONTROL_RECEIVEQ then pred k else k.

Lemma pop_still ring k pend i : queue_no i →
  safe (sinv ring k pend) (pop_queue i)
    (λ p s, sinv ring (fewer i k) (p.1.2 ++ p.2 ++ pend) s ∧ (i = CONTROL_RECEIVEQ → (0 < k)%nat)) (sinv ring k pend).
Proof.
  intros Hi. eapply safe_bind; [apply still_host|intros []]. intros s (ms & Hd).
  destruct (queue_there _ _ _ _ _ _ Hi Hd) as (q & m & Hq & Hm & Ha). unfold on_queue. rewrite Hq.
  pose proof (pop_abs q m [] [] Ha) as Hpop.
  destruct (pop_used _) as [[n|e|] [q' g h]] eqn:E; cbn in Hpop |- *; [| |done].
  - destruct Hpop as (tok & r & ? & _ & Hl & _ & _ & -> & -> & Ha' & _).
    pose proof (requests_delete m tok r Hl) as Hsz.
    assert (i = CONTROL_RECEIVEQ → size m ≤ k)%nat as Hc.
    { intros ->. apply (so_control _ _ _ _ _ Hd). exact Hm. }
    split; [|intros E0; specialize (Hc E0); lia]. unfold fewer. eapply queue_change; try done.
    + intros Hne. by rewrite (proj2 (Z.eqb_neq _ _) Hne).
    + intros -> Hs. rewrite Z.eqb_refl. lia.
    + rewrite (bufs_of_delete m tok r Hl). cbn. solve_Permutation.
  - destruct Hpop as [[= -> -> ->] _]. by eapply queue_same.
Qed.

(** *** Waiting *)

(** What can still happen before a wait ends: interrupts to come and the one that
    was not looked at. *)
Definition ahead s : nat := length (script s) + (if IRQ_FLAG s then 1 else 0).

Lemma act_ahead a l s : script s = a :: l → (ahead (serial_act a s) ≤ ahead s)%nat ∧ script (serial_act a s) = l.
Proof. intros E. unfold ahead. cbn. rewrite E. cbn. split; [|done]. destruct (IRQ_FLAG s), (act_irq a); cbn; lia. Qed.

Lemma can_pop_ahead i s r s' : can_pop_now i s = (r, s') → (ahead s' ≤ ahead s)%nat.
Proof.
  unfold can_pop_now, host_turn. rewrite M_bind_eq, getS_bind.
  destruct (script s) as [|a l] eqn:E; cbn [mret M_ret modifyS]; rewrite getS_bind, or_panic_bind;
    (destruct (nthz _ i); intros [= _ <-]); try done; by eapply act_ahead.
Qed.

Lemma wait_loop_ahead acts : ∀ s b s', script s = acts → wait_loop acts s = (Ok b, s') → (ahead s' < ahead s)%nat.
Proof.
  induction acts as [|a acts IH]; intros s b s' Es; cbn [wait_loop]; rewrite getS_bind; destruct (IRQ_FLAG s) eqn:Ef.
  1,3: rewrite modifyS_bind; intros [= _ <-]; unfold ahead; cbn; rewrite Ef; lia.
  { done. }
  rewrite modifyS_bind, getS_bind. destruct (act_ahead a acts s Es) as [Ha Es'].
  destruct (negb (IRQ_FLAG (serial_act a s)) && is_timeout (timer (serial_act a s))) eqn:Et.
  - rewrite modifyS_bind. intros [= _ <-]. apply andb_true_iff in Et as [Hf%negb_true_iff _].
    unfold ahead in *. cbn in *. rewrite Es, Ef in *. rewrite Hf. cbn. lia.
  - intros E. specialize (IH _ _ _ Es' E). lia.
Qed.

Lemma still_wait_loop acts : still (wait_loop acts).
Proof.
  induction acts as [|a acts IH]; cbn [wait_loop]; apply still_getS; intros s;
    (apply still_if; [apply still_bind; [by apply still_modify|intros []; apply still_ret]|]); [apply still_fail|].
  apply still_bind; [intros ring k pend; apply safe_modifyS; intros s'; apply act_inv|intros []]. apply still_getS. intros s'.
  apply still_if; [|done]. apply still_bind; [by apply still_modify|intros []; apply still_ret].
Qed.

Lemma still_nothing i : queue_no i → still (nothing_used i).
Proof. intros Hi. apply still_bind; [by apply still_can_pop|intros b; apply still_ret]. Qed.

(** There is enough fuel for the wait. *)
Lemma wait_used_safe ring k pend i fuel : queue_no i →
  safe (λ s, sinv ring k pend s ∧ (ahead s < fuel)%nat) (wait_used fuel i) (λ _, sinv ring k pend) (sinv ring k pend).
Proof.
  intros Hi. induction fuel as [|fuel IH]; [intros s [_ Hf]; lia|]. intros s [Hs Hf]. cbn [wait_used]. rewrite M_bind_eq.
  pose proof (still_can_pop i Hi ring k pend s Hs) as H1. destruct (can_pop_now i s) as [[ready|e|] s1] eqn:E1; [|done..].
  pose proof (can_pop_ahead i s _ s1 E1) as A1. rewrite getS_bind. destruct (ready || _); [done|]. rewrite M_bind_eq.
  unfold wait_for_event. rewrite getS_bind.
  pose proof (still_wait_loop (script s1) ring k pend s1 H1) as H2. destruct (wait_loop (script s1) s1) as [[event|e|] s2] eqn:E2; [|done..].
  pose proof (wait_loop_ahead _ s1 event s2 eq_refl E2) as A2. rewrite M_bind_eq. destruct event.
  - apply IH. split; [done|lia].
  - pose proof (still_nothing i Hi ring k pend s2 H2) as H3. destruct (nothing_used i s2) as [[late|e|] s3] eqn:E3; [|done..].
    destruct late; [done|]. apply IH. split; [done|].
    unfold nothing_used in E3. apply M_bind_Ok_inv in E3 as (b & s4 & E4 & [= _ <-]). pose proof (can_pop_ahead i s2 _ s4 E4). lia.
Qed.

Lemma still_wait i : queue_no i → still (wait_with_timeout i).
Proof.
  intros Hi. apply still_getS. intros s. destruct (set_timeout _ _) as [r t]. apply still_bind; [by apply still_modify|intros []].
  apply still_bind; [apply still_ok_or|intros _]. intros ring k pend s1 H1. rewrite getS_bind. revert s1 H1. intros s1 H1.
  assert (safe (λ s, s = s1) (wait_used (S (S (length (script s1)))) i ≫= λ _, modifyS (λ s, set_timer (reset_timeout (timer s)) s))
            (λ _, sinv ring k pend) (sinv ring k pend)) as Hw; [|by apply (Hw s1)].
  eapply safe_bind; [eapply safe_pre; [apply (wait_used_safe ring k pend i); done|]|intros []; by apply still_modify].
  intros ? ->. split; [done|]. unfold ahead. destruct (IRQ_FLAG s1); lia.
Qed.

Lemma still_spin i acts : queue_no i → still (spin_loop acts i).
Proof.
  intros Hi. induction acts as [|a acts IH]; cbn [spin_loop]; (apply still_bind; [by apply still_can_pop|intros ready]);
    (apply still_if; [apply still_ret|]); [apply still_fail|done].
Qed.

(** *** Sending *)

Lemma free_all_safe ring k l : ∀ pend, safe (sinv ring k (l ++ pend)) (free_all l) (λ _, sinv ring k pend) (sinv ring k pend).
Proof.
  induction l as [|b l IH]; intros pend; cbn [free_all app]; [by apply safe_ret|].
  eapply safe_bind; [eapply safe_err; [apply free_still|]|intros ?; apply IH].
  intros s. apply sinv_leak; [done|by apply submseteq_inserts_l].
Qed.

(** Data on its way to queue [i] is in pages of its own. *)
Lemma still_queue_data data i : queue_no i → i ≠ CONTROL_RECEIVEQ → 0 < lenz data < 2 ^ 32 → still (queue_data data i).
Proof.
  intros Hi Hne Hl ring k pend. eapply safe_bind; [apply (allocate_still ring k pend (lenz data) (lenz data)); lia|intros x].
  intros s (Hs & Hsz & Hlive & Hn). unfold serial_write. rewrite M_bind_eq, getS_bind, Hlive.
  rewrite (proj2 (Z.leb_le _ _)) by lia. rewrite (proj2 (Z.leb_le _ _)) by lia. cbn [andb modifyS].
  assert (sinv ring k (mkBuf (dma_addr x) (lenz data) :: pend) (set_serial_mem (write_bytes (dma_addr x) data (serial_mem s)) s)) as H1
    by (by apply (sinv_same _ _ _ s)).
  unfold as_u. rewrite Z.mod_small by lia. revert H1. generalize (set_serial_mem (write_bytes (dma_addr x) data (serial_mem s)) s).
  eapply safe_bind; [apply (add_still ring k [_] [] pend i Hi)|intros ?]. unfold more. rewrite (proj2 (Z.eqb_neq _ _) Hne). apply still_kick.
Qed.

(** The buffers of a finished request go back. *)
Lemma still_pop_free i : queue_no i → i ≠ CONTROL_RECEIVEQ → ∀ {X} (x : X), still (p ← pop_queue i; _ ← free_all p.1.2; mret x).
Proof.
  intros Hi Hne X x ring k pend. eapply safe_bind; [by apply pop_still|intros p]. unfold fewer. rewrite (proj2 (Z.eqb_neq _ _) Hne).
  assert (∀ s, sinv ring k (p.2 ++ pend) s → sinv ring k pend s) as Hl by (intros s; apply sinv_leak; [done|by apply submseteq_inserts_l]).
  eapply safe_bind; [eapply safe_weaken; [apply (free_all_safe ring k p.1.2 (p.2 ++ pend))|by intros s [Hs _]|done|done]|].
  intros ?. by apply safe_ret.
Qed.

Lemma still_send_control data : 0 < lenz data < 2 ^ 32 → still (send_control data).
Proof.
  intros Hl. apply still_bind; [by apply still_queue_data|intros _]. apply still_bind; [by apply still_wait|intros _].
  by apply still_pop_free.
Qed.

Lemma port_index id : 0 <= id < MAX_PORT_SUPPORTED → port_queue_index id = 0 ∨ port_queue_index id = 4.
Proof. unfold MAX_PORT_SUPPORTED. intros Hi. assert (id = 0 ∨ id = 1) as [-> | ->] by lia; by vm_compute; auto. Qed.

Lemma still_enqueue data id : 0 <= id → still (enqueue data id).
Proof.
  intros Hid. unfold enqueue. apply still_check. intros [Hd%bool_decide_eq_false Hl%Z.ltb_ge]%orb_false_iff. apply still_check. intros Hm%Z.leb_gt.
  assert (0 < lenz data < 2 ^ 32) as Hlen by (unfold u_max in Hl; destruct data; [done|unfold lenz in *; cbn [length] in *; lia]).
  assert (∃ i, add_u 16 (port_queue_index id) 1 = Some i ∧ queue_no i ∧ i ≠ CONTROL_RECEIVEQ) as (i & Ei & Hi & Hne).
  { destruct (port_index id ltac:(lia)) as [-> | ->]; eexists; by repeat split. }
  apply (still_some i _ _ Ei). apply still_bind; [by apply still_queue_data|intros []].
  apply still_bind; [apply still_getS; intros s; by apply still_spin|intros []]. by apply still_pop_free.
Qed.

Lemma still_add_receive i : queue_no i → i ≠ CONTROL_RECEIVEQ → still (add_receive_buffer i).
Proof.
  intros Hi Hne ring k pend. eapply safe_bind; [apply (allocate_still ring k pend DEFAULT_BUF_SIZE DEFAULT_BUF_SIZE); done|intros x].
  eapply safe_bind; [eapply safe_pre; [apply (add_still ring k [] [_] pend i Hi)|by intros s [Hs _]]|intros ?].
  apply safe_ret. intros s. unfold more. by rewrite (proj2 (Z.eqb_neq _ _) Hne).
Qed.

Lemma port_fill_loop_safe ring k pend i fuel : ∀ n, queue_no i → i ≠ CONTROL_RECEIVEQ → 0 <= n <= SERIAL_PREFILL_NUM → SERIAL_PREFILL_NUM - n <= Z.of_nat fuel →
  safe (sinv ring k pend) (port_fill_loop fuel i n) (λ n' s, n' = SERIAL_PREFILL_NUM ∧ sinv ring k pend s) (sinv ring k pend).
Proof.
  induction fuel as [|fuel IH]; intros n Hi Hne Hn Hf; cbn [port_fill_loop]; destruct (Z.ltb_spec n SERIAL_PREFILL_NUM); try lia;
    try by (apply safe_ret; intros s Hs; split; [lia|done]).
  eapply safe_bind; [by apply still_add_receive|intros []]. apply IH; [done|done|lia|lia].
Qed.

(** A counter is set. *)
Lemma still_prefill j n : 0 <= n <= SERIAL_PREFILL_NUM → still (upd (λ v, set_prefill (<[j := n]> (receive_queues_prefill v)) v)).
Proof.
  intros Hn ring k pend. apply safe_modifyS. intros s (ms & []). exists ms. split; cbn; try done.
  - by rewrite length_insert.
  - by apply Forall_insert.
Qed.

Lemma prefill_there ring k pend s j : 0 <= j < 3 → sinv ring k pend s →
  ∃ n, nthz (receive_queues_prefill (serial s)) j = Some n ∧ 0 <= n <= SERIAL_PREFILL_NUM.
Proof.
  intros Hj (ms & []). destruct (nthz_is_Some (receive_queues_prefill (serial s)) j) as [n Hn]; [unfold lenz; lia|].
  exists n. split; [done|]. unfold nthz in Hn. destruct (0 <=? j); [|done]. by eapply (Forall_lookup_1 _ _ _ _ so_range0).
Qed.

Lemma still_fill_port id : 0 <= id < MAX_PORT_SUPPORTED → still (fill_port_queue id).
Proof.
  intros Hid. assert (queue_no (port_queue_index id) ∧ port_queue_index id ≠ CONTROL_RECEIVEQ ∧ 0 <= port_queue_index id / 2 < 3) as (Hq & Hne & Hj)
    by (by destruct (port_index id Hid) as [-> | ->]).
  unfold fill_port_queue. generalize dependent (port_queue_index id). intros i Hq Hne Hj ring k pend s Hs. rewrite getS_bind, or_panic_bind.
  destruct (prefill_there ring k pend s (i / 2) Hj Hs) as (n & -> & Hn). destruct (_ <? n); [done|]. revert s Hs.
  eapply safe_bind; [apply (port_fill_loop_safe ring k pend i _ n Hq Hne Hn); lia|intros n'].
  intros s [-> Hs]. revert s Hs. apply still_bind; [by apply still_prefill|intros []; apply still_kick].
Qed.

(** *** Control messages *)

Lemma length_control c : lenz (control_as_bytes c) = CONTROL_SIZE.
Proof. unfold control_as_bytes. by rewrite !lenz_app, !lenz_le_bytes. Qed.

Lemma still_send_event id e : still (send_event id e).
Proof. apply still_bind; [apply still_send_control; by rewrite length_control|intros ?; apply still_ret]. Qed.

Lemma still_handle msg : bytes_ok msg → still (handle_control_msg msg).
Proof.
  intros Hok. apply still_check. intros Hl%Z.ltb_ge. unfold CONTROL_SIZE in Hl.
  destruct (slice_is_Some msg 0 4) as [id Hi]; [lia..|]. destruct (slice_is_Some msg 4 6) as [ev He]; [lia..|]. destruct (slice_is_Some msg 6 8) as [va Hv]; [lia..|].
  apply (still_some id _ _ Hi), (still_some ev _ _ He), (still_some va _ _ Hv). apply still_getS. intros s.
  apply still_check. intros [_ Hm%Z.leb_gt]%orb_false_iff.
  assert (0 <= le_val id) as Hid0 by (apply le_val_range; by eapply slice_bytes_ok).
  destruct (control_event_of _); try apply still_fail; try apply still_ret; try by apply still_upd.
  - apply still_bind; [by apply still_fill_port|intros []; apply still_send_event].
  - apply still_if; [|apply still_ret]. apply still_bind; [by apply still_upd|intros []; apply still_send_event].
Qed.

(** The record of a buffer in the driver's hands covers it. *)
Lemma held_record ring k b pend s : sinv ring k (b :: pend) s →
  ∃ r, dma_allocation (serial s) !! buf_addr b = Some r ∧ Z.min (buf_len b) (dma_size r) = buf_len b ∧ in_u 32 (buf_len b).
Proof.
  intros (ms & []). destruct so_table0. rewrite Forall_app in tb_owned0. destruct tb_owned0 as [_ Ho].
  apply Forall_cons in Ho as [(_ & r & Hr & Hl & Hu) _]. exists r. split; [done|]. split; [lia|done].
Qed.

Lemma attempt_safe {X} ring k pend (m : SM X) : still m → safe (sinv ring k pend) (attempt m) (λ _, sinv ring k pend) (sinv ring k pend).
Proof. intros Hm s Hs. specialize (Hm ring k pend s Hs). unfold attempt. by destruct (m s) as [[x|[]|] s']. Qed.

Lemma attempt_run {X} (m : SM X) s r s' : still m → attempt m s = (Ok r, s') → r ≠ Panic.
Proof. unfold attempt. intros _. destruct (m s) as [[x|[]|] s1]; by intros [= <- <-]. Qed.

Lemma handle_buffers_safe wait ring k l : ∀ pend,
  safe (sinv ring k (l ++ pend)) (handle_buffers wait l) (λ _, sinv ring k pend) (sinv ring k pend).
Proof.
  induction l as [|b l IH]; intros pend; cbn [handle_buffers app]; [by apply safe_ret|].
  assert (∀ s, sinv ring k (l ++ pend) s → sinv ring k pend s) as Hl by (intros s; apply sinv_leak; [done|by apply submseteq_inserts_l]).
  assert (∀ s, sinv ring k (b :: l ++ pend) s → sinv ring k pend s) as Hbl
    by (intros s Hs; apply Hl; revert Hs; apply sinv_leak; [done|by apply submseteq_cons]).
  apply safe_get. intros s0 Hs0. destruct (held_record _ _ _ _ _ Hs0) as (r & Hr & Hmin & Hu). rewrite Hr, Hmin.
  apply safe_bind with (λ _, sinv ring k (l ++ pend)); [|intros []; apply IH]. apply safe_pre with (sinv ring k (b :: l ++ pend)); [|by intros ? ->].
  apply read_still; [done|]. intros bs Hok. destruct wait.
  - intros s Hs. rewrite M_bind_eq. pose proof (attempt_safe ring k _ _ (still_handle bs Hok) s Hs) as Ha.
    destruct (attempt _ s) as [[res|e|] s1] eqn:E; [|by apply Hbl|done]. pose proof (attempt_run _ _ _ _ (still_handle bs Hok) E) as Hne.
    revert s1 Ha E. intros s1 Ha _. rewrite M_bind_eq. pose proof (free_still ring k b (l ++ pend) s1 Ha) as Hf.
    destruct (free_or _ s1) as [[x|e|] s2]; [|by apply Hl|done]. unfold liftO. by destruct res; [|apply Hl|].
  - eapply safe_bind; [eapply safe_err; [by apply still_handle|done]|intros []].
    eapply safe_bind; [eapply safe_err; [apply free_still|done]|intros ?; by apply safe_ret].
Qed.

(** Draining ends: every turn takes one of the buffers the host has. *)
Lemma drain_safe wait ring pend fuel : ∀ k, (k < fuel)%nat →
  safe (sinv ring k pend) (drain_control wait fuel) (λ _, sinv ring k pend) (sinv ring k pend).
Proof.
  induction fuel as [|fuel IH]; intros k Hf; [lia|]. cbn [drain_control].
  eapply safe_bind; [by apply still_can_pop|intros ready]. destruct ready; [|by apply safe_ret].
  eapply safe_bind; [by apply pop_still|intros p]. change (fewer CONTROL_RECEIVEQ k) with (pred k). intros s [Hs Hk]. specialize (Hk eq_refl). revert s Hs.
  assert (∀ s, sinv ring (pred k) pend s → sinv ring k pend s) as Hup by (intros s; apply sinv_leak; [lia|done]).
  eapply safe_bind.
  - eapply safe_weaken; [apply (handle_buffers_safe wait ring (pred k) p.2 pend)| |done|exact Hup].
    intros s. apply sinv_leak; [done|by apply submseteq_inserts_l].
  - intros []. eapply safe_weaken; [apply (IH (pred k)); lia|done|intros ?; exact Hup|exact Hup].
Qed.

Lemma control_nonblock_safe ring k pend : (k < DRAIN_FUEL)%nat →
  safe (sinv ring k pend) recv_control_nonblock (λ _, sinv ring k pend) (sinv ring k pend).
Proof.
  intros Hk. eapply safe_bind; [by apply still_can_pop|intros ready]. destruct ready; [by apply drain_safe|by apply safe_ret].
Qed.

Lemma recv_control_safe ring k pend : (k < DRAIN_FUEL)%nat →
  safe (sinv ring k pend) recv_control (λ _, sinv ring k pend) (sinv ring k pend).
Proof. intros Hk. eapply safe_bind; [by apply still_wait|intros []]. by apply drain_safe. Qed.

(** *** Receiving *)

Lemma still_push id buf : still (port_queue_push id buf).
Proof.
  apply still_if; [apply still_ret|]. apply still_getS. intros s. apply still_bind; [apply still_ok_or|intros q]. by apply still_modify.
Qed.

Lemma still_pop id : still (port_queue_pop id).
Proof.
  apply still_getS. intros s. destruct (RECEIVE_QUEUES s !! id) as [[|buf q]|]; try apply still_ret.
  apply still_bind; [by apply still_modify|intros []; apply still_ret].
Qed.

Lemma receive_safe ring k id len l : ∀ pend remaining,
  safe (sinv ring k (l ++ pend)) (receive_buffers id len remaining l) (λ _, sinv ring k pend) (sinv ring k pend).
Proof.
  induction l as [|b l IH]; intros pend remaining; cbn [receive_buffers app]; [by apply safe_ret|].
  assert (∀ s, sinv ring k (l ++ pend) s → sinv ring k pend s) as Hl by (intros s; apply sinv_leak; [done|by apply submseteq_inserts_l]).
  assert (∀ s, sinv ring k (b :: l ++ pend) s → sinv ring k pend s) as Hbl
    by (intros s Hs; apply Hl; revert Hs; apply sinv_leak; [done|by apply submseteq_cons]).
  apply safe_bind with (λ _, sinv ring k (b :: l ++ pend)); [apply safe_err_if; auto|intros []].
  apply safe_get. intros s0 Hs0. destruct (held_record _ _ _ _ _ Hs0) as (r & Hr & Hmin & Hu). rewrite Hr, Hmin.
  apply safe_pre with (sinv ring k (b :: l ++ pend)); [|by intros ? ->]. unfold in_u in Hu.
  apply read_still; [lia|]. intros bs _.
  apply safe_bind with (λ _, sinv ring k (b :: l ++ pend)); [by apply safe_ok_or; auto|intros rem].
  eapply safe_bind; [eapply safe_err; [apply still_push|done]|intros []].
  eapply safe_bind; [eapply safe_err; [apply free_still|done]|intros ?]. apply IH.
Qed.

Lemma still_pop_rx id : 0 <= id < MAX_PORT_SUPPORTED → still (serial_pop_rx id).
Proof.
  intros Hid. assert (queue_no (port_queue_index id) ∧ port_queue_index id ≠ CONTROL_RECEIVEQ ∧ 0 <= port_queue_index id / 2 < 3) as (Hq & Hne & Hj)
    by (by destruct (port_index id Hid) as [-> | ->]).
  unfold serial_pop_rx. intros ring k pend. eapply safe_bind; [by apply pop_still|intros p].
  unfold fewer. rewrite (proj2 (Z.eqb_neq _ _) Hne). intros s [Hs _]. rewrite getS_bind, or_panic_bind.
  destruct (prefill_there _ _ _ _ _ Hj Hs) as (n & -> & Hn). rewrite err_if_bind.
  assert (sinv ring k (p.2 ++ pend) s) as Hs' by (revert Hs; apply sinv_leak; [done|by apply submseteq_inserts_l]). clear Hs.
  destruct (Z.ltb_spec n (lenz p.2)); [revert Hs'; apply sinv_leak; [done|by apply submseteq_inserts_l]|]. revert s Hs'.
  pose proof (lenz_nonneg p.2). eapply safe_bind; [eapply safe_err; [apply still_prefill; lia|]|intros []].
  { intros s. apply sinv_leak; [done|by apply submseteq_inserts_l]. }
  eapply safe_bind; [apply receive_safe|intros []]. by apply still_fill_port.
Qed.

Lemma still_dequeue id : 0 <= id < MAX_PORT_SUPPORTED → still (dequeue id).
Proof.
  intros Hid. assert (queue_no (port_queue_index id)) as Hq by (by destruct (port_index id Hid) as [-> | ->]).
  apply still_bind; [apply still_pop|]. intros [data|]; [apply still_ret|]. apply still_bind; [by apply still_can_pop|intros ready].
  apply still_bind; [apply still_err_if|intros []]. apply still_bind; [by apply still_pop_rx|intros []].
  apply still_bind; [apply still_pop|intros r; apply still_ok_or].
Qed.

Lemma still_can_recv id : 0 <= id < MAX_PORT_SUPPORTED → still (can_recv id).
Proof.
  intros Hid. assert (queue_no (port_queue_index id)) as Hq by (by destruct (port_index id Hid) as [-> | ->]).
  apply still_getS. intros s. destruct (RECEIVE_QUEUES s !! id) as [[|]|]; [by apply still_can_pop|apply still_ret|by apply still_can_pop].
Qed.

Lemma still_gather fuel id : 0 <= id < MAX_PORT_SUPPORTED → ∀ c, still (gather fuel id c).
Proof.
  intros Hid. induction fuel as [|fuel IH]; intros c; cbn [gather]; [apply still_fail|]. intros ring k pend s Hs. rewrite M_bind_eq.
  pose proof (attempt_safe ring k pend _ (still_dequeue id Hid) s Hs) as Ha.
  destruct (attempt _ s) as [[res|e|] s1] eqn:E; [|done..]. pose proof (attempt_run _ _ _ _ (still_dequeue id Hid) E) as Hne.
  destruct res as [bs|[e| |]|]; [|done..]. revert s1 Ha E. intros s1 Ha _. revert s1 Ha.
  apply still_bind; [by apply still_can_recv|intros b]. apply still_if; [apply IH|apply still_ret].
Qed.

Lemma still_recv fuel port len : 0 <= port_id port < MAX_PORT_SUPPORTED → still (port_recv fuel port len).
Proof.
  intros Hid. apply still_bind; [apply still_if; [by apply still_gather|apply still_ret]|intros [c [e|]]]; [apply still_ret|].
  destruct (take_cache _ _). apply still_ret.
Qed.

(** *** Ports *)

Lemma still_allocate_port id : still (allocate_port id).
Proof.
  apply still_bind; [apply still_bind; [apply still_err_if|intros []; by apply still_modify]|intros []]. apply still_getS. intros s.
  do 2 (apply still_bind; [apply still_err_if|intros []]). by apply still_upd.
Qed.

Lemma still_free_port id : still (free_port id).
Proof.
  apply still_bind; [apply still_bind; [apply still_err_if|intros []; by apply still_modify]|intros []]. apply still_getS. intros s.
  apply still_bind; [apply still_err_if|intros []]. by apply still_upd.
Qed.

(** ** Initialization *)

(** Register accesses, for any property of the rest of the state. *)
Lemma virtio_safe {X} (P : St → Prop) (m : M T VirtioError X) : quiet m →
  (∀ s, P s → t_inv (virtio (serial s))) → (∀ s t, P s → t_inv t → P (upd_serial (set_virtio t) s)) → safe P (on_virtio m) (λ _, P) P.
Proof.
  intros Hm Ht Hp s Hs. unfold on_virtio. specialize (Hm _ (Ht s Hs)). destruct (m _) as [[] t]; cbn; [by apply Hp..|done].
Qed.

(** A device without queues, pages and ports, before and after its transport is
    initialized. *)
Definition bare (Q : T → Prop) s : Prop :=
  Q (virtio (serial s)) ∧ dma_allocation (serial s) = ∅ ∧ queues (serial s) = [] ∧ receive_queues_prefill (serial s) = [].

Lemma bare_safe {X} (m : M T VirtioError X) : quiet m → safe (bare t_inv) (on_virtio m) (λ _, bare t_inv) (bare t_inv).
Proof. intros Hm. apply virtio_safe; [done|by intros s []|]. by intros s t (_ & ? & ? & ?). Qed.

Lemma fail_serial_safe : safe (bare t_inv) fail_serial (λ _, bare t_inv) (bare t_inv).
Proof. eapply safe_bind; [apply bare_safe; reg_safe|intros []; by apply safe_fail]. Qed.

Lemma init_status_safe : safe (bare t_start) init_status (λ _, bare t_inv) (bare t_inv).
Proof.
  apply safe_bind with (λ _, bare t_inv).
  { intros s (Ht & Hr). unfold init_or_device, on_virtio. pose proof (safe_init VIRTIO_SUBSYSTEM_CONSOLE _ Ht) as Hi.
    destruct (vt_init _ _) as [[u|e|] t]; [exact (conj Hi Hr)|exact (conj Hi Hr)|done]. }
  intros []. do 5 (eapply safe_bind; [apply bare_safe; reg_safe|intros []]).
  eapply safe_bind; [apply bare_safe; reg_safe|intros st].
  apply safe_bind with (λ _, bare t_inv); [destruct (negb _); [apply fail_serial_safe|by apply safe_ret]|intros []].
  eapply safe_bind; [apply bare_safe; reg_safe|intros mx]. destruct (_ <? _); [apply fail_serial_safe|by apply safe_ret].
Qed.

(** [j] queues without requests, [l] of them for receiving, in the pages at [ring]. *)
Definition programmed ring (j l : nat) s : Prop :=
  t_inv (virtio (serial s)) ∧ Forall2 vq_abs (queues (serial s)) (replicate j ∅) ∧
  receive_queues_prefill (serial s) = replicate l 0 ∧ table_ok (dma_allocation (serial s)) (serial_pool s) ring [].

Lemma program_safe mem idx addr receive ring j l : rings_ok mem → addr + 2 * PAGE_SIZE < 2 ^ 64 →
  safe (programmed ring j l) (program_queue mem idx addr receive)
    (λ _, programmed ring (S j) (if receive then S l else l)) (λ _, True).
Proof.
  intros Hm Ha s (Ht & Hq & Hp & Htb). unfold program_queue. rewrite M_bind_eq. unfold on_virtio.
  pose proof (create_queue_quiet mem idx addr Hm Ha _ Ht) as Hquiet. change QUEUE_SIZE with SERIAL_QUEUE_SIZE in Hquiet.
  destruct (create_queue _ _ _ _ _) as [[q|e|] t] eqn:E; cbn [serial_virtio]; [|done..].
  pose proof (create_queue_abs mem idx addr _ _ _ Hm E) as Hq'. unfold upd. rewrite modifyS_bind.
  assert (Forall2 vq_abs (queues (serial s) ++ [q]) (replicate (S j) (∅ : requests))) as Hqs.
  { rewrite replicate_S_end. apply Forall2_app; [done|]. by repeat constructor. }
  destruct receive; cbn; (split; [done|]); (split; [done|]); (split; [|done]); [|done]. rewrite replicate_S_end, <-Hp. done.
Qed.

Lemma program_queues_safe mem size ring qs : ∀ addr j l, rings_ok mem → 0 <= size → 0 <= addr →
  addr + size * lenz qs + 2 * PAGE_SIZE < 2 ^ 64 →
  safe (programmed ring j l) (program_queues mem size qs addr)
    (λ _, programmed ring (length qs + j) (length (filter (λ p, p.2 = true) qs) + l)) (λ _, True).
Proof.
  induction qs as [|[idx receive] qs IH]; intros addr j l Hm Hs Ha Hb; cbn [program_queues]; [by apply safe_ret|].
  unfold lenz in Hb. cbn [length] in Hb. unfold add_u, checked_add. destruct (Z.ltb_spec (addr + size) (2 ^ 64)); [|unfold PAGE_SIZE in *; nia].
  intros s Hs'. rewrite or_panic_bind. revert s Hs'.
  eapply safe_bind; [apply program_safe; [done|unfold PAGE_SIZE in *; nia]|intros []].
  eapply safe_weaken; [apply (IH (addr + size)); [done|done|lia|unfold lenz; nia]|done| |done].
  intros u s. cbn [length]. rewrite filter_cons. destruct receive; cbn; by rewrite ?Nat.add_succ_r.
Qed.

(** The six queues, in fresh pages. *)
Lemma init_queues_safe mem : rings_ok mem →
  safe (bare t_inv) (init_queues mem) (λ _ s, ∃ ring, programmed ring 6 3 s) (λ _, True).
Proof.
  intros Hm s (Ht & Hd & Hq & Hp). unfold init_queues. rewrite ok_or_bind. change (layout_new SERIAL_QUEUE_SIZE) with (Some (mkLayout 256 4096 8192)).
  cbv beta iota zeta. cbn [layout_size]. rewrite M_bind_eq. unfold allocate_or, serial_allocate, upd. rewrite M_bind_eq, getS_bind.
  change (serial_align_up (8192 * (2 + MAX_PORT_SUPPORTED * 2)) / PAGE_SIZE) with 12.
  change (serial_align_up (8192 * (2 + MAX_PORT_SUPPORTED * 2))) with (12 * PAGE_SIZE).
  destruct (alloc_pages 12 (serial_pool s)) as [[p|] a] eqn:Ea; rewrite modifyS_bind; [|done]. cbv iota. rewrite modifyS_bind. cbn [mret M_ret ok_or].
  destruct (alloc_fresh 12 _ _ _ ltac:(lia) Ea) as (Hlive & _ & Hp0 & Hp1 & _). unfold PAGE_SIZE in Hp1.
  set (s1 := upd_serial _ _). assert (programmed p 0 0 s1) as H1.
  { unfold programmed, s1. cbn. rewrite Hq, Hp, Hd. split; [done|]. split; [constructor|]. split; [done|]. split.
    - intros key r (<- & <-)%lookup_singleton_Some. by rewrite Hlive, lookup_insert_eq.
    - rewrite lookup_insert_eq. by eexists.
    - constructor.
    - constructor. }
  cbn [dma_addr]. clearbody s1. revert s1 H1.
  eapply safe_bind; [apply program_safe; [done|unfold PAGE_SIZE; lia]|intros []].
  eapply safe_weaken; [apply (program_queues_safe mem 8192 p); [done|lia|done|]|done| |done].
  - change (lenz _) with 5. unfold PAGE_SIZE. lia.
  - intros [] s1 Hs. by exists p.
Qed.

Lemma programmed_inv ring s : programmed ring 6 3 s → sinv ring 0 [] s.
Proof.
  intros (Ht & Hq & Hp & Htb). exists (replicate 6 ∅). split; try done.
  - by rewrite Hp.
  - rewrite Hp. by repeat constructor.
  - intros m [= <-]. done.
Qed.

Lemma still_notify_all l irq : still (notify_all l irq).
Proof.
  induction l as [|q l IH]; cbn [notify_all]; [apply still_ret|]. apply still_bind; [|done]. apply still_virtio.
  do 2 (apply quiet_bind; [reg_safe|intros []]). reg_safe.
Qed.

Lemma still_notification : still init_notification.
Proof.
  apply still_bind; [apply still_err_if|intros []]. apply still_bind; [apply still_virtio; reg_safe|intros irq]. apply still_notify_all.
Qed.

Lemma still_driver_ok : still driver_ok.
Proof.
  apply still_bind; [apply still_virtio; reg_safe|intros []]. apply still_bind; [apply still_virtio; reg_safe|intros st].
  apply still_if; [|apply still_ret]. apply still_bind; [apply still_virtio; reg_safe|intros []; apply still_fail].
Qed.

(** The counter of the control queue. *)
Definition filled n s : Prop := nthz (receive_queues_prefill (serial s)) (CONTROL_RECEIVEQ / 2) = Some n.

Lemma add_receive_filled n i : keeps (λ s s', filled n s → filled n s') (add_receive_buffer i).
Proof.
  intros s r s'. unfold add_receive_buffer, allocate_or, serial_allocate, upd. rewrite M_bind_eq, M_bind_eq, getS_bind.
  destruct (alloc_pages _ _) as [[p|] a]; rewrite modifyS_bind; [|by intros [= _ <-]]. cbv iota. rewrite modifyS_bind. cbn [mret M_ret ok_or].
  rewrite M_bind_eq. unfold on_queue. destruct (nthz _ i) as [q|]; [|by intros [= _ <-]].
  destruct (add _ _ q) as [[x|e|] q']; cbn; by intros [= _ <-].
Qed.

Lemma control_fill_safe ring fuel : ∀ n, 0 <= n <= SERIAL_PREFILL_NUM → SERIAL_PREFILL_NUM - n <= Z.of_nat fuel →
  safe (λ s, sinv ring (Z.to_nat n) [] s ∧ filled n s) (control_fill_loop fuel)
    (λ _, sinv ring (Z.to_nat SERIAL_PREFILL_NUM) []) (sinv ring (Z.to_nat SERIAL_PREFILL_NUM) []).
Proof.
  induction fuel as [|fuel IH]; intros n Hn Hf s [Hs Hfill]; cbn [control_fill_loop]; rewrite getS_bind, or_panic_bind, Hfill;
    (destruct (Z.ltb_spec n SERIAL_PREFILL_NUM); [|cbn; revert Hs; apply sinv_leak; [lia|done]]); [lia|].
  pose proof (conj Hs Hfill : (λ s, sinv ring (Z.to_nat n) [] s ∧ filled n s) s) as Hp. revert s Hp Hs Hfill. intros s Hp _ _. revert s Hp.
  apply safe_bind with (λ _ s, sinv ring (Z.to_nat (n + 1)) [] s ∧ filled n s); [apply safe_frame; [apply add_receive_filled|]|intros []].
  - eapply safe_bind; [eapply safe_err; [apply (allocate_still ring _ [] DEFAULT_BUF_SIZE DEFAULT_BUF_SIZE); done|]|intros x].
    { intros s. apply sinv_leak; [lia|done]. }
    eapply safe_bind; [eapply safe_weaken; [apply (add_still ring (Z.to_nat n) [] [_] [] CONTROL_RECEIVEQ ltac:(done))|by intros s [Hs _]|done|]|intros ?].
    { intros s. apply sinv_leak; [lia|done]. }
    apply safe_ret. intros s. apply sinv_leak; [|done]. unfold more. cbn. lia.
  - intros s [Hs Hfill]. unfold upd. rewrite modifyS_bind. apply (IH (n + 1)); [lia|lia|]. split.
    + destruct Hs as (ms & []). exists ms. split; cbn; try done; [by rewrite length_insert|apply Forall_insert; [done|lia]].
    + unfold filled in *. destruct (nthz_Some _ _ _ Hfill) as [_ Hl]. unfold nthz, lenz in *.
      change (CONTROL_RECEIVEQ / 2) with 1 in *. apply list_lookup_insert_eq. lia.
Qed.

Lemma fill_control_safe ring : safe (sinv ring 0 []) fill_control_queue (λ _, sinv ring 16 []) (sinv ring 16 []).
Proof.
  intros s Hs. unfold fill_control_queue. rewrite getS_bind, or_panic_bind.
  destruct (prefill_there ring 0 [] s (CONTROL_RECEIVEQ / 2) ltac:(done) Hs) as (n & Hn & Hr). rewrite Hn.
  destruct (_ <? n); [revert Hs; apply sinv_leak; [lia|done]|].
  assert (sinv ring (Z.to_nat n) [] s ∧ filled n s) as Hp by (split; [revert Hs; apply sinv_leak; [lia|done]|done]).
  revert s Hp Hs Hn. intros s Hp _ _. revert s Hp.
  eapply safe_bind; [apply control_fill_safe; [done|lia]|intros []; apply still_kick].
Qed.

Lemma serial_init_safe mem : rings_ok mem → safe (bare t_start) (serial_init mem) (λ _ s, ∃ ring, sinv ring 16 [] s) (λ _, True).
Proof.
  intros Hm. eapply safe_bind; [eapply safe_err; [apply init_status_safe|done]|intros []].
  eapply safe_bind with (λ _, bare t_inv); [|intros []].
  { eapply safe_bind; [eapply safe_err; [apply bare_safe; reg_safe|done]|intros n]. apply safe_modifyS. done. }
  eapply safe_bind; [by apply init_queues_safe|intros []]. intros s (ring & Hs%programmed_inv). revert s Hs.
  eapply safe_bind; [eapply safe_err; [apply still_notification|done]|intros []].
  eapply safe_bind; [eapply safe_err; [apply still_driver_ok|done]|intros []].
  eapply safe_bind; [eapply safe_err; [apply fill_control_safe|done]|intros []].
  eapply safe_bind; [eapply safe_err; [apply still_send_event|done]|intros []].
  eapply safe_weaken; [apply (recv_control_safe ring 16 [])|done| |done]; [unfold DRAIN_FUEL, SERIAL_QUEUE_SIZE; lia|]. intros [] s Hs. by exists ring.
Qed.

(** ** Runs *)

(** What a user of the driver does, and what the host does in between. *)
Inductive serial_op :=
  | OSend (port : VirtioSerialPort) (data : bytes)
  | ORecv (fuel : nat) (port : VirtioSerialPort) (len : Z)
  | OControl
  | OOpen (port : VirtioSerialPort)
  | OClose (port : VirtioSerialPort)
  | OHost (a : SerialAct Tm).

(** Sending and opening check the port; receiving on a port that does not exist
    indexes out of range. *)
Definition op_ok (o : serial_op) : Prop :=
  match o with
  | OSend port _ => 0 <= port_id port
  | ORecv _ port _ => 0 <= port_id port < MAX_PORT_SUPPORTED
  | _ => True
  end.

Definition exec_op (o : serial_op) : SM unit :=
  match o with
  | OSend port data => _ ← port_send port data; mret tt
  | ORecv fuel port len => _ ← port_recv fuel port len; mret tt
  | OControl => recv_control_nonblock
  | OOpen port => port_open port
  | OClose port => port_close port
  | OHost a => modifyS (serial_act a)
  end.

(** Operations one after the other, whether they fail or not; [None] if one aborts. *)
Fixpoint run_ops (ops : list serial_op) s : option St :=
  match ops with
  | [] => Some s
  | o :: ops => match exec_op o s with (Panic, _) => None | (_, s') => run_ops ops s' end
  end.

(** Every buffer a queue refers to lies in live pages of its own. *)
Definition pages_safe s : Prop := ∃ ms, Forall2 vq_abs (queues (serial s)) ms ∧ NoDup (buf_addr <$> all_bufs ms) ∧
  ∀ b, b ∈ all_bufs ms → ∃ n, live (serial_pool s) !! buf_addr b = Some n ∧ 0 <= buf_len b <= n * PAGE_SIZE.

Lemma sinv_safe ring k s : sinv ring k [] s → pages_safe s.
Proof.
  intros (ms & []). rewrite app_nil_r in so_table0. destruct so_table0. exists ms. split; [done|]. split; [done|]. intros b Hb.
  rewrite Forall_forall in tb_owned0. destruct (tb_owned0 b Hb) as (_ & r & Hr & Hl & _). destruct (tb_rec0 _ _ Hr) as (_ & Hm & Hlive).
  exists (dma_size r / PAGE_SIZE). split; [done|]. apply Z.div_exact in Hm; [lia|done].
Qed.

Lemma serial_exec_safe ring o : op_ok o → safe (sinv ring 16 []) (exec_op o) (λ _, sinv ring 16 []) (sinv ring 16 []).
Proof.
  destruct o; cbn [op_ok exec_op]; intros Ho.
  - apply still_bind; [by apply still_enqueue|intros ?; apply still_ret].
  - apply still_bind; [by apply still_recv|intros ?; apply still_ret].
  - apply control_nonblock_safe. unfold DRAIN_FUEL, SERIAL_QUEUE_SIZE. lia.
  - apply still_allocate_port.
  - apply still_free_port.
  - apply safe_modifyS. intros s. apply act_inv.
Qed.

Lemma run_safe ring ops : ∀ s, Forall op_ok ops → sinv ring 16 [] s → ∃ s', run_ops ops s = Some s' ∧ sinv ring 16 [] s'.
Proof.
  induction ops as [|o ops IH]; intros s Ho Hs; [by exists s|]. apply Forall_cons in Ho as [Ho Hos]. cbn [run_ops].
  pose proof (serial_exec_safe ring o Ho s Hs) as He. destruct (exec_op o s) as [[|e|] s1]; [by apply IH..|done].
Qed.

(** ** Waits that do not end *)

(** An operation is still waiting only when the host has nothing more to do: every
    other run of it returns. *)
Definition ends {X} (m : SM X) : Prop := ∀ s s', m s = (Err Pending, s') → script s' = [].

Lemma ends_bind {X Y} (m : SM X) (f : X → SM Y) : ends m → (∀ x, ends (f x)) → ends (m ≫= f).
Proof.
  intros Hm Hf s s'. rewrite M_bind_eq. destruct (m s) as [[x|e|] s1] eqn:E; [by apply Hf| |done].
  intros [= -> <-]. by eapply Hm.
Qed.
Lemma ends_ret {X} (x : X) : ends (mret x). Proof. done. Qed.
Lemma ends_getS : ends getS. Proof. done. Qed.
Lemma ends_modifyS f : ends (modifyS f). Proof. done. Qed.
Lemma ends_panic {X} : ends (panicM (A := X)). Proof. done. Qed.
Lemma ends_fail {X} e : ends (failM (A := X) (Failed e)). Proof. done. Qed.
Lemma ends_fuel {X} : ends (failM (A := X) OutOfFuel). Proof. done. Qed.
Lemma ends_or_panic {X} (o : option X) : ends (or_panic o). Proof. by destruct o. Qed.
Lemma ends_ok_or {X} (o : option X) e : ends (ok_or o (Failed e)). Proof. by destruct o. Qed.
Lemma ends_err_if c e : ends (err_if c (Failed e)). Proof. by destruct c. Qed.
Lemma ends_on_virtio {X} (m : M T VirtioError X) : ends (on_virtio m).
Proof. intros s s'. unfold on_virtio. by destruct (m _) as [[] t]. Qed.
Lemma ends_on_queue {X} i (m : M VirtQueue VirtioError X) : ends (on_queue i m).
Proof. intros s s'. unfold on_queue. destruct (nthz _ _); [|done]. by destruct (m _) as [[] q]. Qed.
Lemma ends_device m : ends (init_or_device m).
Proof. intros s s'. unfold init_or_device. by destruct (m s) as [[] ?]. Qed.
Lemma ends_attempt {X Y} (m : SM X) (f : outcome (aerr VirtioSerialError.t) X → SM Y) :
  ends m → (∀ x, x ≠ Err Pending → ends (f x)) → ends (attempt m ≫= f).
Proof.
  intros Hm Hf s s'. rewrite M_bind_eq. unfold attempt. specialize (Hm s). destruct (m s) as [[x|[]|] s1]; try by apply Hf.
  - intros [= <-]. by apply Hm.
  - done.
Qed.
Lemma ends_liftO {X} (x : outcome (aerr VirtioSerialError.t) X) : x ≠ Err Pending → ends (liftO x).
Proof. intros Hx s s'. unfold liftO. by intros [= ->]. Qed.

Create HintDb ends discriminated.
Hint Resolve ends_ret ends_getS ends_modifyS ends_panic ends_fail ends_fuel ends_or_panic ends_ok_or ends_err_if ends_on_virtio
  ends_on_queue ends_device ends_liftO : ends.

Ltac ends_step :=
  first [ solve [auto 2 with ends] | apply ends_attempt; [|intros ??] | apply ends_bind; [|intros ?]
        | match goal with |- ends (match ?x with _ => _ end) => destruct x end | progress cbn beta iota zeta ].
Ltac ends_auto := repeat ends_step.

Lemma ends_host_turn : ends host_turn. Proof. unfold host_turn. ends_auto. Qed.
Hint Resolve ends_host_turn : ends.
Lemma ends_can_pop i : ends (can_pop_now i). Proof. unfold can_pop_now. ends_auto. Qed.
Lemma ends_pop_queue i : ends (pop_queue i). Proof. unfold pop_queue. ends_auto. Qed.
Lemma ends_allocate_or n : ends (allocate_or n). Proof. unfold allocate_or, serial_allocate, upd. ends_auto. Qed.
Lemma ends_free_or n : ends (free_or n). Proof. unfold free_or, serial_free, upd. ends_auto. Qed.
Lemma ends_serial_read a n : ends (serial_read a n). Proof. unfold serial_read. ends_auto. Qed.
Lemma ends_serial_write a n d : ends (serial_write a n d). Proof. unfold serial_write. ends_auto. Qed.
Hint Resolve ends_can_pop ends_pop_queue ends_allocate_or ends_free_or ends_serial_read ends_serial_write : ends.

(** The two waits look at the host until its script is over. *)
Lemma ends_wait_loop acts s s' : script s = acts → wait_loop acts s = (Err Pending, s') → script s' = [].
Proof.
  revert s. induction acts as [|a acts IH]; intros s Hs; cbn [wait_loop]; rewrite getS_bind; (destruct (IRQ_FLAG s); [done|]).
  - by intros [= <-].
  - rewrite modifyS_bind, getS_bind. destruct (_ && _); [done|]. apply IH. cbn. by rewrite Hs.
Qed.

Lemma can_pop_script i s b s' : can_pop_now i s = (Ok b, s') → script s' = tail (script s).
Proof.
  unfold can_pop_now, host_turn. rewrite M_bind_eq, getS_bind. destruct (script s) as [|a l] eqn:E; cbn [mret M_ret].
  - rewrite getS_bind, or_panic_bind. destruct (nthz _ _); [|done]. by intros [= _ <-].
  - unfold modifyS. rewrite getS_bind, or_panic_bind. destruct (nthz _ _); [|done]. intros [= _ <-]. cbn. by rewrite E.
Qed.

Lemma ends_spin_loop acts i s s' : script s = acts → spin_loop acts i s = (Err Pending, s') → script s' = [].
Proof.
  revert s. induction acts as [|a acts IH]; intros s Hs; cbn [spin_loop]; rewrite M_bind_eq;
    destruct (can_pop_now i s) as [[b|e|] s1] eqn:E; try done; try (intros [= -> <-]; by eapply ends_can_pop).
  - apply can_pop_script in E. rewrite Hs in E. destruct b; [done|]. by intros [= <-].
  - apply can_pop_script in E. rewrite Hs in E. destruct b; [done|]. by apply IH.
Qed.

Lemma ends_wait : ends wait_for_event.
Proof. intros s s'. unfold wait_for_event. rewrite getS_bind. by apply ends_wait_loop. Qed.
Lemma ends_spin i : ends (spin_until_used i).
Proof. intros s s'. unfold spin_until_used. rewrite getS_bind. by apply ends_spin_loop. Qed.
Hint Resolve ends_wait ends_spin : ends.

Lemma ends_wait_used fuel i : ends (wait_used fuel i).
Proof. induction fuel; cbn [wait_used]; unfold nothing_used; ends_auto. Qed.
Hint Resolve ends_wait_used : ends.
Lemma ends_wait_with_timeout i : ends (wait_with_timeout i). Proof. unfold wait_with_timeout. ends_auto. Qed.
Lemma ends_kick i : ends (kick_serial i). Proof. unfold kick_serial. ends_auto. Qed.
Lemma ends_free_all l : ends (free_all l). Proof. induction l; cbn [free_all]; ends_auto. Qed.
Hint Resolve ends_wait_with_timeout ends_kick ends_free_all : ends.
Lemma ends_queue_data d i : ends (queue_data d i). Proof. unfold queue_data. ends_auto. Qed.
Hint Resolve ends_queue_data : ends.
Lemma ends_send_event id e : ends (send_event id e). Proof. unfold send_event, send_control. ends_auto. Qed.
Lemma ends_enqueue d id : ends (enqueue d id). Proof. unfold enqueue. ends_auto. Qed.
Lemma ends_add_receive_buffer i : ends (add_receive_buffer i). Proof. unfold add_receive_buffer. ends_auto. Qed.
Hint Resolve ends_send_event ends_enqueue ends_add_receive_buffer : ends.
Lemma ends_control_fill n : ends (control_fill_loop n). Proof. induction n; cbn [control_fill_loop]; unfold upd; ends_auto. Qed.
Lemma ends_port_fill n i (k : Z) : ends (port_fill_loop n i k).
Proof. revert k. induction n; intros k; cbn [port_fill_loop]; ends_auto. Qed.
Hint Resolve ends_control_fill ends_port_fill : ends.
Lemma ends_fill_port id : ends (fill_port_queue id). Proof. unfold fill_port_queue, upd. ends_auto. Qed.
Hint Resolve ends_fill_port : ends.
Lemma ends_handle_control d : ends (handle_control_msg d). Proof. unfold handle_control_msg, upd, port_ready, open_port. ends_auto. Qed.
Hint Resolve ends_handle_control : ends.
Lemma ends_handle_buffers w l : ends (handle_buffers w l). Proof. induction l; cbn [handle_buffers]; ends_auto. Qed.
Hint Resolve ends_handle_buffers : ends.
Lemma ends_drain w n : ends (drain_control w n). Proof. induction n; cbn [drain_control]; ends_auto. Qed.
Hint Resolve ends_drain : ends.
Lemma ends_queue_pop id : ends (port_queue_pop id). Proof. unfold port_queue_pop. ends_auto. Qed.
Lemma ends_queue_push id d : ends (port_queue_push id d). Proof. unfold port_queue_push. ends_auto. Qed.
Hint Resolve ends_queue_pop ends_queue_push : ends.
Lemma ends_receive_buffers id n (k : Z) l : ends (receive_buffers id n k l).
Proof. revert k. induction l; intros k; cbn [receive_buffers]; ends_auto. Qed.
Hint Resolve ends_receive_buffers : ends.
Lemma ends_dequeue id : ends (dequeue id). Proof. unfold dequeue, serial_pop_rx, receive_data, upd. ends_auto. Qed.
Hint Resolve ends_dequeue : ends.
Lemma ends_gather n id c : ends (gather n id c).
Proof. revert c. induction n; intros c; cbn [gather]; unfold can_recv; ends_auto; done. Qed.
Hint Resolve ends_gather : ends.

Lemma ends_exec o : ends (exec_op o).
Proof.
  destruct o; cbn [exec_op]; unfold port_send, port_recv, port_open, port_close, recv_control_nonblock, allocate_port, free_port,
    port_queue_create, port_queue_delete, upd; ends_auto.
Qed.

Lemma ends_program_queues mem n l a : ends (program_queues mem n l a).
Proof. revert a. induction l as [|[] l IH]; intros a; cbn [program_queues]; unfold program_queue, upd; ends_auto. Qed.
Lemma ends_notify_all l i : ends (notify_all l i). Proof. induction l; cbn [notify_all]; ends_auto. Qed.
Hint Resolve ends_program_queues ends_notify_all : ends.

Lemma ends_register mem b d : ends (register_serial_device mem b d).
Proof.
  unfold register_serial_device, serial_init, init_status, read_serial_config, init_queues, init_notification, driver_ok, init_control,
    fill_control_queue, device_ready, recv_control, program_queue, fail_serial, upd. ends_auto.
Qed.

(** C31 The serial driver against a hostile host.  Whatever the host puts into the
    rings, the shared pages and the registers, and whenever, registering the device
    does not abort: it returns, or it waits for an interrupt that the host never
    raises.  Once it has succeeded every sequence of sends, receives on ports 0 and
    1, control polls, opens and closes runs without an abort, an access outside
    allocated pages or a double release, and every buffer a queue refers to lies in
    live pages of its own; an operation that waits for ever waits for a host that
    does nothing any more.  (A receive takes data as long as the host has more, which
    the model bounds with fuel; the control queue is drained in a bounded number of
    turns.)  The operations are those that check the port, and receives on the
    ports that exist: receiving on a port from 2 on indexes the queues out of range. *)
Theorem serial_hostile_host_safe mem (t : T) s r s1 :
  rings_ok mem → t_start t → register_serial_device mem false (serial_new t) s = (r, s1) →
  r ≠ Panic ∧ (r = Err Pending → script s1 = []) ∧
  (r = Ok tt → ∀ ops, Forall op_ok ops → ∃ s2, run_ops ops s1 = Some s2 ∧ pages_safe s2 ∧
     ∀ o, (exec_op o s2).1 = Err Pending → script (exec_op o s2).2 = []).
Proof.
  intros Hm Ht E. pose proof (ends_register mem false (serial_new t) s s1) as Hend. rewrite E in Hend. revert E Hend.
  unfold register_serial_device, upd. rewrite modifyS_bind. intros E Hend.
  assert (bare t_start (upd_serial (λ _, serial_new t) s)) as Hb by done.
  pose proof (serial_init_safe mem Hm _ Hb) as Hi. rewrite E in Hi. split; [by destruct r|]. split; [by intros ->; apply Hend|].
  intros -> ops Ho. destruct Hi as (ring & Hi).
  destruct (run_safe ring ops s1 Ho Hi) as (s2 & E2 & H2). exists s2. split; [done|]. split; [by eapply sinv_safe|].
  intros o Hp. apply (ends_exec o s2). rewrite <-Hp. by destruct (exec_op o s2).
Qed.

(** ** Order of the data *)

Definition joined (q : option (list bytes)) : bytes := match q with Some q => concat q | None => [] end.
Definition queued (id : Z) s : bytes := joined (RECEIVE_QUEUES s !! id).

(** No empty piece waits. *)
Definition chunks_ok s : Prop := map_Forall (λ _ q, Forall (λ c : bytes, c ≠ []) q) (RECEIVE_QUEUES s).

(** Data only arrives, at the end. *)
Definition arrives (id : Z) s s' : Prop := (chunks_ok s → chunks_ok s') ∧ ∃ new, queued id s' = queued id s ++ new.

#[local] Instance arrives_preorder id : PreOrder (arrives id).
Proof.
  split; [intros s; split; [done|]; exists []; by rewrite app_nil_r|].
  intros a b c [H1 (n1 & E1)] [H2 (n2 & E2)]. split; [auto|]. exists (n1 ++ n2). by rewrite E2, E1, app_assoc.
Qed.

Lemma arrives_same id s s' : RECEIVE_QUEUES s' = RECEIVE_QUEUES s → arrives id s s'.
Proof. intros E. unfold arrives, chunks_ok, queued. rewrite E. split; [done|]. exists []. by rewrite app_nil_r. Qed.

Lemma arrives_modify id (f : St → St) : (∀ s, RECEIVE_QUEUES (f s) = RECEIVE_QUEUES s) → keeps (arrives id) (modifyS f : SM unit).
Proof. intros Hf. apply keeps_modifyS. intros s. by apply arrives_same. Qed.

Lemma arrives_virtio {X} id (m : M T VirtioError X) : keeps (arrives id) (on_virtio m : SM X).
Proof. intros s r s'. unfold on_virtio. destruct (m _). intros [= _ <-]. by apply arrives_same. Qed.

Lemma arrives_queue {X} id i (m : M VirtQueue VirtioError X) : keeps (arrives id) (on_queue i m : SM X).
Proof. intros s r s'. unfold on_queue. destruct (nthz _ i) as [q|]; [destruct (m q)|]; intros [= _ <-]; by apply arrives_same. Qed.

Lemma arrives_upd id f : keeps (arrives id) (upd f : SM unit).
Proof. by apply arrives_modify. Qed.
#[local] Hint Resolve arrives_virtio arrives_queue arrives_upd : migtd.

Lemma arrives_host id : keeps (arrives id) (host_turn : SM unit).
Proof. unfold host_turn. keeps_auto. by apply arrives_modify. Qed.

Lemma arrives_allocate id n : keeps (arrives id) (serial_allocate n : SM (option DmaRecord)).
Proof. unfold serial_allocate. keeps_auto. by apply arrives_modify. Qed.

Lemma arrives_free id a : keeps (arrives id) (serial_free a : SM (option Z)).
Proof. unfold serial_free. keeps_auto. by apply arrives_modify. Qed.

Lemma arrives_read id a n : keeps (arrives id) (serial_read a n : SM bytes).
Proof. unfold serial_read. keeps_auto. Qed.
#[local] Hint Resolve arrives_host arrives_allocate arrives_free arrives_read : migtd.

Lemma arrives_can_pop id i : keeps (arrives id) (can_pop_now i : SM bool).
Proof. unfold can_pop_now. keeps_auto. Qed.

Lemma arrives_pop_queue id i : keeps (arrives id) (pop_queue i : SM _).
Proof. unfold pop_queue. keeps_auto. Qed.

Lemma arrives_fill_loop id fuel : ∀ i n, keeps (arrives id) (port_fill_loop fuel i n : SM Z).
Proof. induction fuel as [|fuel IH]; intros i n; cbn [port_fill_loop]; unfold add_receive_buffer, allocate_or; keeps_auto. Qed.
#[local] Hint Resolve arrives_can_pop arrives_pop_queue arrives_fill_loop : migtd.

Lemma arrives_push id p buf : keeps (arrives id) (port_queue_push p buf : SM unit).
Proof.
  intros s r s'. unfold port_queue_push. case_bool_decide as Hb; [intros [= _ <-]; reflexivity|]. rewrite getS_bind, ok_or_bind.
  destruct (RECEIVE_QUEUES s !! p) as [q|] eqn:Eq; [|intros [= _ <-]; reflexivity]. intros [= _ <-]. split.
  - intros Hc. apply map_Forall_insert_2; [|done]. apply Forall_app. split; [by apply (Hc p)|by repeat constructor].
  - unfold queued. cbn [RECEIVE_QUEUES set_receive_queues]. destruct (decide (id = p)) as [->|Hne].
    + exists buf. rewrite lookup_insert_eq, Eq. cbn [joined]. rewrite concat_app. cbn. by rewrite app_nil_r.
    + exists []. by rewrite lookup_insert_ne, app_nil_r.
Qed.
#[local] Hint Resolve arrives_push : migtd.

Lemma arrives_receive id p len l : ∀ remaining, keeps (arrives id) (receive_buffers p len remaining l : SM unit).
Proof. induction l as [|b l IH]; intros remaining; cbn [receive_buffers]; unfold free_or; keeps_auto. Qed.

Lemma arrives_fill id p : keeps (arrives id) (fill_port_queue p : SM unit).
Proof. unfold fill_port_queue, kick_serial. keeps_auto. Qed.
#[local] Hint Resolve arrives_receive arrives_fill : migtd.

Lemma arrives_pop_rx id p : keeps (arrives id) (serial_pop_rx p : SM unit).
Proof. unfold serial_pop_rx, receive_data. keeps_auto. Qed.

Lemma arrives_can_recv id p : keeps (arrives id) (can_recv p : SM bool).
Proof. unfold can_recv. keeps_auto. Qed.

(** Taking the first piece. *)
Lemma pop_first id s r s' : port_queue_pop id s = (r, s') →
  (r = Ok None ∧ s' = s) ∨ ∃ buf, r = Ok (Some buf) ∧ queued id s = buf ++ queued id s' ∧ (chunks_ok s → buf ≠ [] ∧ chunks_ok s').
Proof.
  unfold port_queue_pop. rewrite getS_bind. destruct (RECEIVE_QUEUES s !! id) as [[|buf q]|] eqn:Eq; [intros [= <- <-]; by left| |intros [= <- <-]; by left].
  rewrite modifyS_bind. intros [= <- <-]. right. exists buf. split; [done|]. unfold queued. cbn [RECEIVE_QUEUES set_receive_queues]. rewrite Eq, lookup_insert_eq. split; [done|].
  intros Hc. pose proof (Hc id _ Eq) as Hq. apply Forall_cons in Hq as [Hb Hq]. split; [done|]. by apply map_Forall_insert_2.
Qed.

(** A step under which data only arrives, and what follows it. *)
Lemma arrives_step {X Y} id (m : SM X) (f : X → SM Y) s r s' : keeps (arrives id) m → (m ≫= f) s = (r, s') →
  (arrives id s s' ∧ ∀ y, r ≠ Ok y) ∨ ∃ x s1, arrives id s s1 ∧ f x s1 = (r, s').
Proof.
  intros Hm. rewrite M_bind_eq. destruct (m s) as [[x|e|] s1] eqn:E; [|intros [= <- <-]; left; split; [by eapply Hm|done]..].
  intros Hf. right. exists x, s1. split; [by eapply Hm|done].
Qed.

(** What [dequeue] gives is at the front of what waits. *)
Definition fronts (id : Z) s (r : outcome (aerr VirtioSerialError.t) bytes) s' : Prop :=
  match r with
  | Ok data => (∃ new, data ++ queued id s' = queued id s ++ new) ∧ (chunks_ok s → data ≠ [] ∧ chunks_ok s')
  | _ => arrives id s s'
  end.

Lemma fronts_after id s s1 r s' : arrives id s s1 → fronts id s1 r s' → fronts id s r s'.
Proof.
  intros Ha. destruct r as [data|e|]; cbn; [|by apply (transitivity Ha)..]. destruct Ha as [Hc (n & En)].
  intros [(n' & En') Hc']. split; [|auto]. exists (n ++ n'). by rewrite En', En, app_assoc.
Qed.

Lemma fronts_stop id s r s' : arrives id s s' → (∀ y, r ≠ Ok y) → fronts id s r s'.
Proof. intros Ha Hr. destruct r as [data|e|]; [by destruct (Hr data)|done..]. Qed.

Lemma dequeue_first id s r s' : dequeue id s = (r, s') → fronts id s r s'.
Proof.
  unfold dequeue. rewrite M_bind_eq. destruct (port_queue_pop id s) as [r0 s0] eqn:E0.
  destruct (pop_first id s r0 s0 E0) as [[-> ->]|(buf & -> & Hq & Hc)].
  2:{ intros [= <- <-]. split; [|done]. exists []. by rewrite app_nil_r. }
  intros [[Ha Hr]|(ready & s1 & H1 & E1)]%(arrives_step id); [by apply fronts_stop| |apply arrives_can_pop]. apply (fronts_after _ _ _ _ _ H1).
  apply (arrives_step id) in E1 as [[Ha Hr]|([] & s2 & H2 & E2)]; [by apply fronts_stop| |apply keeps_err_if, _]. apply (fronts_after _ _ _ _ _ H2).
  apply (arrives_step id) in E2 as [[Ha Hr]|([] & s3 & H3 & E3)]; [by apply fronts_stop| |apply arrives_pop_rx]. apply (fronts_after _ _ _ _ _ H3).
  revert E3. rewrite M_bind_eq. destruct (port_queue_pop id s3) as [r4 s4] eqn:E4.
  destruct (pop_first id s3 r4 s4 E4) as [[-> ->]|(buf & -> & Hq & Hc)]; intros [= <- <-]; [change (arrives id s3 s3); reflexivity|].
  split; [|done]. exists []. by rewrite app_nil_r.
Qed.

Definition pieces (c : list bytes) : Prop := Forall (λ b, b ≠ []) c.

Lemma gather_order fuel id : ∀ c s c' e s', gather fuel id c s = (Ok (c', e), s') →
  (∃ new, concat c' ++ queued id s' = concat c ++ queued id s ++ new) ∧
  (chunks_ok s → pieces c → chunks_ok s' ∧ pieces c' ∧ (e = None → c' ≠ [])).
Proof.
  induction fuel as [|fuel IH]; intros c s c' e s'; cbn [gather]; [done|]. rewrite M_bind_eq. unfold attempt.
  destruct (dequeue id s) as [r s1] eqn:Ed. pose proof (dequeue_first id s r s1 Ed) as Hd.
  destruct r as [data|[e0| |]|]; try done.
  2:{ intros [= <- <- <-]. destruct Hd as [Hc (n & En)]. split; [exists n; by rewrite En|]. intros Hs Hp. auto. }
  destruct Hd as [(n & En) Hc]. intros (more & s2 & Em & E)%M_bind_Ok_inv. pose proof (arrives_can_recv id id _ _ _ Em) as [Hc2 (n2 & En2)].
  assert (concat (c ++ [data]) ++ queued id s2 = concat c ++ queued id s ++ n ++ n2) as Hcat.
  { rewrite concat_app, En2, <-app_assoc. cbn. rewrite app_nil_r. f_equal. by rewrite (app_assoc data), En, app_assoc. }
  assert (chunks_ok s → pieces c → chunks_ok s2 ∧ pieces (c ++ [data])) as Hok.
  { intros Hs Hp. destruct (Hc Hs) as [Hd Hs1]. split; [auto|]. apply Forall_app. split; [done|by repeat constructor]. }
  destruct more.
  - destruct (IH _ _ _ _ _ E) as [(n3 & En3) Hp]. split; [|intros Hs Hpc; by apply Hp; apply Hok].
    exists (n ++ n2 ++ n3). rewrite En3, app_assoc, Hcat, <-!app_assoc. done.
  - injection E as <- <- <-. split; [by exists (n ++ n2)|]. intros Hs Hp. destruct (Hok Hs Hp). split_and!; [done|done|]. intros _. by destruct c.
Qed.

Lemma take_cache_spec c : ∀ n data c', take_cache c n = (data, c') →
  data ++ concat c' = concat c ∧ (pieces c → pieces c') ∧ (0 <= n → lenz data <= n) ∧ (pieces c → c ≠ [] → 0 < n → data ≠ []).
Proof.
  induction c as [|b c IH]; intros n data c'; cbn [take_cache]; [by intros [= <- <-]|].
  destruct (Z.leb_spec n 0); [intros [= <- <-]; split_and!; [done|done|done|lia]|].
  destruct (Z.leb_spec (lenz b) n) as [Hle|Hgt].
  - destruct (take_cache c (n - lenz b)) as [d c1] eqn:E. intros [= <- <-]. destruct (IH _ _ _ E) as (H1 & H2 & H3 & _). split_and!.
    + cbn. by rewrite <-app_assoc, H1.
    + intros [_ Hp]%Forall_cons. auto.
    + intros _. rewrite lenz_app. lia.
    + intros [Hb _]%Forall_cons _ _. by destruct b.
  - intros [= <- <-]. assert (0 < n < lenz b) as Hn by lia. unfold lenz in Hn. split_and!.
    + cbn. by rewrite app_assoc, take_drop.
    + intros [Hb Hp]%Forall_cons. constructor; [|done]. intros E%(f_equal length). rewrite length_drop in E. cbn in E. lia.
    + intros _. unfold lenz. rewrite length_take. lia.
    + intros _ _ _ E%(f_equal length). rewrite length_take in E. cbn in E. lia.
Qed.

(** A serial port delivers its data in order and without loss.  What [recv]
    returns, followed by what the port has cached and what waits in its queue, is
    what was cached and waited before, followed by what arrived meanwhile; a
    successful [recv] returns at most as much as the caller's buffer holds, and
    never nothing. *)
Theorem serial_recv_in_order fuel port len s port' r s' :
  chunks_ok s → pieces (cache port) → 0 < len → port_recv fuel port len s = (Ok (port', r), s') →
  port_id port' = port_id port ∧ chunks_ok s' ∧ pieces (cache port') ∧
  (∃ new, match r with Ok data => data | _ => [] end ++ concat (cache port') ++ queued (port_id port) s' =
          concat (cache port) ++ queued (port_id port) s ++ new) ∧
  ∀ data, r = Ok data → data ≠ [] ∧ lenz data <= len.
Proof.
  intros Hs Hp Hl. unfold port_recv. intros ([c e] & s1 & Eg & E)%M_bind_Ok_inv. cbn [fst snd] in E.
  assert ((∃ new, concat c ++ queued (port_id port) s1 = concat (cache port) ++ queued (port_id port) s ++ new) ∧
    chunks_ok s1 ∧ pieces c ∧ (e = None → c ≠ [])) as ((n & En) & Hs1 & Hpc & Hne).
  { case_bool_decide as Hc.
    - rewrite Hc. destruct (gather_order _ _ _ _ _ _ _ Eg) as [Hn Hok]. split; [done|]. apply Hok; [done|constructor].
    - injection Eg as <- <- <-. split_and!; try done. exists []. by rewrite app_nil_r. }
  destruct e as [e|].
  - injection E as <- <- <-. split_and!; try done. by exists n.
  - destruct (take_cache c len) as [data c'] eqn:Et. injection E as <- <- <-. destruct (take_cache_spec _ _ _ _ Et) as (H1 & H2 & H3 & H4).
    split_and!; [done|done|auto| |]; cbn [port_id cache].
    + exists n. by rewrite app_assoc, H1.
    + intros ? [= <-]. split; [auto|]. apply H3. lia.
Qed.
End driver.

(** ** A device that adds a port and sends three bytes *)

Module Demo.
Import VsockVirtioSpec.Demo.
#[local] Existing Instances VsockVirtioSpec.Demo.registers VsockVirtioSpec.Demo.registers_safe VsockVirtioSpec.Demo.pages VsockVirtioSpec.Demo.pages_laws VsockVirtioSpec.Demo.vectors.

(** A timer that never expires. *)
#[local] Instance clock : Timer unit := { set_timeout n t := (Some n, t); is_timeout _ := false; reset_timeout t := t }.

Notation St := (SerialSt unit (gmap Z Z) unit).

(** Rings in which the device has used [n] requests, those of [l] first. *)
Definition used_up (n : Z) (l : list UsedElem) : option RingMemory :=
  Some (mkRingMem (mem_desc demo_mem) (mem_avail demo_mem) (mkUsed 0 n l 0)).

(** The device answers control messages, adds port 1 and opens it. *)
Definition sent_up (n : Z) : SerialAct unit := mkSerialAct [None; None; None; used_up n (replicate 16 (mkUsedElem 0 8))] [] false id.
Definition quiet_act : SerialAct unit := mkSerialAct [] [] false id.
Definition control_up (n addr : Z) (msg : bytes) : SerialAct unit :=
  mkSerialAct [None; None; used_up n [mkUsedElem 0 8; mkUsedElem 1 8]] (zip (seqZ addr 8) msg) true id.

Definition DEVICE_ADD_1 : bytes := [1; 0; 0; 0; 1; 0; 0; 0].
Definition PORT_OPEN_1 : bytes := [1; 0; 0; 0; 6; 0; 1; 0].
Definition answers : list (SerialAct unit) :=
  [sent_up 1; quiet_act; control_up 1 57344 DEVICE_ADD_1; quiet_act; quiet_act; sent_up 2; quiet_act;
   control_up 2 65536 PORT_OPEN_1; quiet_act; sent_up 3; quiet_act].

Definition powered : St := mkSerialSt (serial_new tt) ∅ tt ∅ false ∅ answers.
Definition ready : St := Eval vm_compute in (register_serial_device rings false (serial_new tt) powered).2.

Lemma ready_run : register_serial_device rings false (serial_new tt) powered = (Ok tt, ready).
Proof. vm_compute. reflexivity. Qed.

Definition port1 : VirtioSerialPort := mkPort 1 [].

(** Three bytes arrive on port 1. *)
Definition data_up : SerialAct unit :=
  mkSerialAct [None; None; None; None; used_up 1 [mkUsedElem 0 3]] (zip (seqZ 188416 3) [7; 8; 9]) true id.

Lemma serial_hostile_host_safe_witness :
  ∃ s, run_ops [OOpen port1; OHost data_up; ORecv 3 port1 2; OControl; OClose port1] ready = Some s ∧ pages_safe s.
Proof.
  destruct (serial_hostile_host_safe rings tt powered (Ok tt) ready) as (_ & _ & H); [by intros i|done|exact ready_run|].
  destruct (H eq_refl [OOpen port1; OHost data_up; ORecv 3 port1 2; OControl; OClose port1]) as (s & E & Hs & _).
  { repeat constructor; vm_compute; congruence. }
  exists s. exact (conj E Hs).
Defined.

(** A host that says nothing leaves the registration waiting, *)
Example silent_host_waits : (register_serial_device rings false (serial_new tt) (mkSerialSt (serial_new tt) ∅ tt ∅ false ∅ [])).1 = Err Pending.
Proof. vm_compute. reflexivity. Qed.

(** and a receive on port 2, which [enqueue] refuses to send on, aborts. *)
Example recv_port_2_aborts : (port_recv 3 (mkPort 2 []) 2 ready).1 = Panic.
Proof. vm_compute. reflexivity. Qed.

Definition opened : St := Eval vm_compute in (serial_act data_up (port_open port1 ready).2).
Definition received : VirtioSerialPort * outcome VirtioSerialError.t bytes * St :=
  Eval vm_compute in match port_recv 3 port1 2 opened with (Ok p, s) => (p, s) | (_, s) => (port1, Panic, s) end.

Lemma serial_recv_in_order_witness : received.1 = (mkPort 1 [[9]], Ok [7; 8]) ∧
  ∃ new, [7; 8] ++ [9] ++ queued 1 received.2 = [] ++ queued 1 opened ++ new.
Proof.
  split; [reflexivity|].
  assert (port_recv 3 port1 2 opened = (Ok (mkPort 1 [[9]], Ok [7; 8]), received.2)) as E by (vm_compute; reflexivity).
  assert (RECEIVE_QUEUES opened = {[1 := []]}) as Hr by (vm_compute; reflexivity).
  assert (chunks_ok opened) as Hc by (unfold chunks_ok; rewrite Hr; apply map_Forall_singleton; constructor).
  destruct (serial_recv_in_order 3 port1 2 opened _ _ _ Hc ltac:(constructor) ltac:(lia) E) as (_ & _ & _ & H & _). exact H.
Defined.

End Demo.
