(* ===== verification/VmcallRaw.v ===== *)
(** * VmcallRaw: the migration data channel over raw TDVMCALLs

    src/devices/vmcall_raw/src/stream.rs and transport/vmcall.rs.  The VMM is a
    script: the answers of the shared-memory allocator, the result of each
    [tdvmcall_migtd_*] and, per call, the contents the shared buffer takes
    between polls and whether an interrupt is raised there. *)
From stdpp Require Import base tactics numbers list list_numbers option gmap.
From S2P Require Import Prelude VirtQueue Vsock VsockStream VsockStreamSpec.
Local Open Scope Z_scope.

(** ** Data *)

Module VmcallRawError.
Inductive t :=
  | Initialization | DeviceNotAvailable | NoAvailablePort | AddressAlreadyUsed | TransportError
  | Truncated | Malformed | Illegal | REFUSED | NotReady | TdVmcallErr | VmmCanceled | Interrupt.
End VmcallRawError.

Definition MAX_VMCALL_RAW_STREAM_MTU : Z := 0x1000 * 16.
Definition VMCALL_RAW_GHCI_HEADER_LEN : Z := 12.
Definition VMCALL_RAW_SEND_PAYLOAD_MTU : Z := MAX_VMCALL_RAW_STREAM_MTU - VMCALL_RAW_GHCI_HEADER_LEN.
Definition TDX_VMCALL_VMM_SUCCESS : Z := 1.
Definition TDX_VMCALL_STATUS_NOT_COMPLETED : Z := 2.
Definition TDX_VMCALL_STATUS_VMM_CANCEL : Z := 3.

(** [size.checked_add(PAGE_SIZE - 1).map(|s| s & !(PAGE_SIZE - 1))] *)
Definition raw_align_up (size : Z) : option Z :=
  s ← checked_add 64 size (PAGE_SIZE - 1); Some (Z.land s (not_u 64 (PAGE_SIZE - 1))).

(** What happens before a poll: the VMM rewrites the buffer, and may interrupt. *)
Record RawEvent := mkEvent { ev_interrupt : bool; ev_buffer : bytes }.

Record RawCall := mkRawCall {
  raw_ok : bool;              (** the [tdvmcall_migtd_*] instruction succeeds *)
  raw_events : list RawEvent }.

Record RawVmm := mkRawVmm {
  VMCALL_MIG_CONTEXT_FLAGS : gmap Z bool;
  raw_alloc : list bool;      (** answers of [SharedMemory::new] *)
  raw_script : list RawCall;
  raw_sent : list (Z * bytes) (** request id and buffer of each send *) }.

Definition set_flags (f : gmap Z bool → gmap Z bool) (v : RawVmm) : RawVmm :=
  mkRawVmm (f (VMCALL_MIG_CONTEXT_FLAGS v)) (raw_alloc v) (raw_script v) (raw_sent v).

(** The stream: [addr.transport_context] and the queue. *)
Record VmcallRaw := mkRaw { transport_context : Z; data_queue : list bytes }.

Notation RM := (M RawVmm (aerr VmcallRawError.t)).

Definition rfail {A} (e : VmcallRawError.t) : RM A := failM (Failed e).

(** ** Transport *)

(** The interrupt handler raises every flag. *)
Definition vmcall_raw_intr_notification (v : RawVmm) : RawVmm := set_flags (fmap (λ _, true)) v.

Definition raw_shared_memory (pages : Z) : RM bytes :=
  v ← getS;
  match raw_alloc v with
  | b :: rest =>
      _ ← modifyS (λ v, mkRawVmm (VMCALL_MIG_CONTEXT_FLAGS v) rest (raw_script v) (raw_sent v));
      if b : bool then mret (zeros (pages * PAGE_SIZE)) else rfail VmcallRawError.Illegal
  | [] => rfail VmcallRawError.Illegal
  end.

(** [tdvmcall_migtd_send] and [tdvmcall_migtd_receive] of tdx-tdcall. *)
Definition raw_call (sent : option (Z * bytes)) : RM (list RawEvent) :=
  v ← getS;
  let log := raw_sent v ++ option_list sent in
  match raw_script v with
  | c :: rest =>
      _ ← modifyS (λ v, mkRawVmm (VMCALL_MIG_CONTEXT_FLAGS v) (raw_alloc v) rest log);
      if raw_ok c then mret (raw_events c) else rfail VmcallRawError.TdVmcallErr
  | [] =>
      _ ← modifyS (λ v, mkRawVmm (VMCALL_MIG_CONTEXT_FLAGS v) (raw_alloc v) [] log);
      failM Pending
  end.

(** The payload, [data_status] and [data_length] of a buffer. *)
Definition process_buffer (buffer : bytes) : option (bytes * Z * Z) :=
  if lenz buffer <? 12 then None
  else
    payload ← slice buffer 12 (lenz buffer);
    st ← slice buffer 0 8;
    len ← slice buffer 8 12;
    Some (payload, le_val st, le_val len).

(** [None] is [Poll::Pending]. *)
Definition poll_vmcall_completion (mid : Z) (buffer : bytes) : RM (option (bytes * Z)) :=
  v ← getS;
  match VMCALL_MIG_CONTEXT_FLAGS v !! mid with
  | None => rfail VmcallRawError.Illegal
  | Some false => mret None
  | Some true =>
      _ ← modifyS (set_flags (insert mid false));
      r ← or_panic (process_buffer buffer);
      let '(payload, data_status, data_length) := r in
      let b0 := data_status mod 256 in
      let b1 := (data_status / 256) mod 256 in
      if (b0 =? TDX_VMCALL_STATUS_NOT_COMPLETED) && (b1 =? TDX_VMCALL_STATUS_VMM_CANCEL) then
        rfail VmcallRawError.VmmCanceled
      else if negb (b0 =? TDX_VMCALL_VMM_SUCCESS) then mret None
      else mret (Some (payload, data_length))
  end.

(** [poll_fn]: polls after each event until [poll_vmcall_completion] is ready. *)
Fixpoint poll_events (events : list RawEvent) (mid size : Z) : RM (bytes * Z) :=
  match events with
  | [] => failM Pending
  | ev :: events =>
      _ ← modifyS (λ v, if ev_interrupt ev then vmcall_raw_intr_notification v else v);
      r ← poll_vmcall_completion mid (fit size (ev_buffer ev));
      match r with
      | Some x => mret x
      | None => poll_events events mid size
      end
  end.

Definition vmcall_service_migtd_send (mid : Z) (data_buffer : bytes) : RM Z :=
  events ← raw_call (Some (mid, data_buffer));
  _ ← poll_events events mid (lenz data_buffer);
  mret 0.

Definition vmcall_service_migtd_receive (stream : VmcallRaw) (size : Z) : RM bytes :=
  let mid := transport_context stream in
  events ← raw_call None;
  r ← poll_events events mid size;
  let '(payload, data_length) := r in
  if data_length =? 0 then rfail VmcallRawError.Malformed
  else ok_or (slice payload 0 data_length) (Failed VmcallRawError.TdVmcallErr).

Definition vmcall_raw_transport_enqueue (stream : VmcallRaw) (buf : bytes) : RM Z :=
  _ ← err_if (2 ^ 32 <=? lenz buf) (Failed VmcallRawError.Illegal);
  size ← ok_or (checked_add 64 12 (lenz buf)) (Failed VmcallRawError.Illegal);
  aligned ← ok_or (raw_align_up size) (Failed VmcallRawError.Illegal);
  b ← raw_shared_memory (aligned / PAGE_SIZE);
  b ← or_panic (write_at b 0 (le_bytes 8 0));
  b ← or_panic (write_at b 8 (le_bytes 4 (lenz buf)));
  b ← or_panic (write_at b 12 buf);
  truncated ← or_panic (slice b 0 size);
  vmcall_service_migtd_send (transport_context stream) truncated.

Definition vmcall_raw_transport_dequeue (stream : VmcallRaw) : RM bytes :=
  b ← raw_shared_memory (MAX_VMCALL_RAW_STREAM_MTU / PAGE_SIZE);
  vmcall_service_migtd_receive stream (lenz b).

Definition vmcall_raw_transport_can_recv : bool := false.

(** ** Streams *)

Definition new_with_mid (mid : Z) : VmcallRaw := mkRaw mid [].

(** [vmcall_raw_transport_init] registers the handler of the interrupt vector;
    [registered] is the answer of the interrupt table. *)
Definition raw_connect (registered : bool) (stream : VmcallRaw) : RM unit :=
  _ ← err_if (negb registered) (Failed VmcallRawError.Interrupt);
  modifyS (set_flags (insert (transport_context stream) false)).

Definition raw_reset (stream : VmcallRaw) : RM unit :=
  modifyS (set_flags (delete (transport_context stream))).

Definition raw_shutdown (stream : VmcallRaw) : RM unit := raw_reset stream.

Fixpoint raw_send_loop (fuel : nat) (stream : VmcallRaw) (buf : bytes) (sent : Z) : RM unit :=
  match fuel with
  | O => failM OutOfFuel
  | S f =>
      if sent <? lenz buf then
        let end_ := Z.min (lenz buf) (sent + VMCALL_RAW_SEND_PAYLOAD_MTU) in
        chunk ← or_panic (slice buf sent end_);
        _ ← vmcall_raw_transport_enqueue stream chunk;
        raw_send_loop f stream buf end_
      else mret tt
  end.

(** Every turn sends at least one byte, so one turn per byte and a last test
    are enough. *)
Definition raw_send (stream : VmcallRaw) (buf : bytes) : RM Z :=
  _ ← raw_send_loop (S (length buf)) stream buf 0;
  mret (lenz buf).

(** The stream itself changes on the receive side. *)
Record RawSt := mkRawSt { raw_vmm : RawVmm; raw_self : VmcallRaw }.
Notation RSM := (M RawSt (aerr VmcallRawError.t)).

Definition on_vmm {A} (m : RM A) : RSM A :=
  λ s, let '(r, v) := m (raw_vmm s) in (r, mkRawSt v (raw_self s)).

Definition raw_recv_packet_connected : RSM unit :=
  s ← getS;
  recv ← on_vmm (vmcall_raw_transport_dequeue (raw_self s));
  match recv with
  | [] => mret tt
  | _ => modifyS (λ s, mkRawSt (raw_vmm s)
           (mkRaw (transport_context (raw_self s)) (data_queue (raw_self s) ++ [recv])))
  end.

(** The loop stops after one turn: [vmcall_raw_transport_can_recv] is constant. *)
Definition raw_fill : RSM unit :=
  _ ← raw_recv_packet_connected;
  if negb vmcall_raw_transport_can_recv then mret tt else failM OutOfFuel.

Definition raw_recv (buf : bytes) : RSM (Z * bytes) :=
  s ← getS;
  _ ← (if decide (data_queue (raw_self s) = []) then raw_fill else mret tt);
  s ← getS;
  r ← or_panic (copy_out (data_queue (raw_self s)) buf 0);
  let '(buf', queue', used) := r in
  _ ← modifyS (λ s, mkRawSt (raw_vmm s) (mkRaw (transport_context (raw_self s)) queue'));
  mret (used, buf').
