(* ===== verification/VmcallRawSpec.v ===== *)
(** * VmcallRawSpec: the raw migration channel against an arbitrary VMM

    Safety whatever the VMM writes, framing of [send], order of [recv], and
    delivery once the VMM completes a call (VmcallRaw). *)
From stdpp Require Import base tactics numbers list list_numbers option gmap.
From S2P Require Import Prelude VirtQueue Vsock VsockStream VsockStreamSpec VmcallRaw.
Local Open Scope Z_scope.

(** ** Buffers *)

(** A buffer of the channel: status, length, payload. *)
Definition wire_buffer (status : Z) (d : bytes) : bytes := le_bytes 8 status ++ le_bytes 4 (lenz d) ++ d.

Lemma lenz_wire_buffer st d : lenz (wire_buffer st d) = 12 + lenz d.
Proof. unfold wire_buffer. rewrite !lenz_app, !lenz_le_bytes. lia. Qed.

Lemma process_buffer_Some b : 12 <= lenz b → ∃ p st len, process_buffer b = Some (p, st, len) ∧ lenz p = lenz b - 12.
Proof.
  intros Hb. unfold process_buffer. destruct (Z.ltb_spec (lenz b) 12); [lia|].
  destruct (slice_is_Some b 12 (lenz b)) as [p Hp]; [lia..|]. rewrite Hp.
  destruct (slice_is_Some b 0 8) as [st ->]; [lia..|]. destruct (slice_is_Some b 8 12) as [len ->]; [lia..|].
  cbn [mbind option_bind]. apply slice_Some_len in Hp as (Hl & _). by repeat eexists.
Qed.

Lemma process_wire_buffer st d rest : in_u 64 st → in_u 32 (lenz d) →
  process_buffer (wire_buffer st d ++ rest) = Some (d ++ rest, st, lenz d).
Proof.
  intros Hst Hd. unfold process_buffer. rewrite lenz_app, lenz_wire_buffer.
  pose proof (lenz_nonneg d). pose proof (lenz_nonneg rest).
  destruct (Z.ltb_spec (12 + lenz d + lenz rest) 12); [lia|].
  assert (wire_buffer st d ++ rest = concat [le_bytes 8 st; le_bytes 4 (lenz d); d ++ rest]) as ->
    by (unfold wire_buffer; cbn [concat]; by rewrite app_nil_r, <-!app_assoc).
  replace (12 + lenz d + lenz rest) with (12 + lenz (d ++ rest)) by (rewrite lenz_app; lia).
  rd_seg 2%nat ltac:(seg_len).
  rd_seg 0%nat seg_len. rd_seg 1%nat seg_len. rewrite !le_val_bytes, !Z.mod_small by done. done.
Qed.

(** ** Frame conditions *)

(** Polling and allocating leave the log of sends alone. *)
Definition same_sent (v v' : RawVmm) : Prop := raw_sent v' = raw_sent v.

#[global] Instance same_sent_preorder : PreOrder same_sent.
Proof. split; unfold same_sent; [done|]. intros ? ? ?. congruence. Qed.

Lemma keeps_rfail {A} R `{!PreOrder R} e : keeps R (rfail (A := A) e).
Proof. unfold rfail. eauto with migtd. Qed.
#[export] Hint Resolve keeps_rfail : migtd.

Lemma sent_poll mid b : keeps same_sent (poll_vmcall_completion mid b).
Proof. unfold poll_vmcall_completion. keeps_auto. by apply keeps_modifyS. Qed.

Lemma sent_poll_events events mid n : keeps same_sent (poll_events events mid n).
Proof.
  induction events as [|ev events IH]; cbn [poll_events]; keeps_auto; [|apply sent_poll].
  apply keeps_modifyS. intros v. by destruct (ev_interrupt ev).
Qed.

Lemma sent_shared_memory n : keeps same_sent (raw_shared_memory n).
Proof. unfold raw_shared_memory. keeps_auto; by apply keeps_modifyS. Qed.

(** A call that is not a send leaves the log alone; a send adds its buffer. *)
Lemma raw_call_sent x v r v' : raw_call x v = (r, v') → raw_sent v' = raw_sent v ++ option_list x.
Proof.
  unfold raw_call. rewrite getS_bind. destruct (raw_script v) as [|c l]; rewrite modifyS_bind.
  - by intros [= _ <-].
  - destruct (raw_ok c); by intros [= _ <-].
Qed.

(** ** No abort *)

Lemma poll_safe mid b v : 12 <= lenz b →
  (poll_vmcall_completion mid b v).1 ≠ Panic ∧ (poll_vmcall_completion mid b v).1 ≠ Err OutOfFuel.
Proof.
  intros Hb. unfold poll_vmcall_completion. rewrite getS_bind.
  destruct (VMCALL_MIG_CONTEXT_FLAGS v !! mid) as [[]|]; [|done..]. rewrite modifyS_bind.
  destruct (process_buffer_Some b Hb) as (p & st & len & -> & _). rewrite or_panic_bind.
  destruct (_ && _); [done|]. by destruct (negb _).
Qed.

Definition good {E A} (r : outcome (aerr E) A) : Prop := r ≠ Panic ∧ r ≠ Err OutOfFuel.

Lemma good_bind {S E A B} (m : M S (aerr E) A) (f : A → M S (aerr E) B) s :
  good (m s).1 → (∀ a s', m s = (Ok a, s') → good (f a s').1) → good ((m ≫= f) s).1.
Proof.
  intros [H1 H2] Hf. rewrite M_bind_eq. destruct (m s) as [[a|e|] s'] eqn:Em.
  - by apply Hf.
  - split; [done|]. intros [= ->]. done.
  - done.
Qed.

Lemma poll_events_safe events mid n v : 12 <= n → good (poll_events events mid n v).1.
Proof.
  intros Hn. revert v. induction events as [|ev events IH]; intros v; cbn [poll_events]; [done|].
  rewrite modifyS_bind. apply good_bind.
  - apply poll_safe. rewrite lenz_fit; lia.
  - intros [x|] v' _; [done|apply IH].
Qed.

Lemma raw_call_safe x v : good (raw_call x v).1.
Proof.
  unfold raw_call. rewrite getS_bind. destruct (raw_script v) as [|c l]; rewrite modifyS_bind; [done|].
  by destruct (raw_ok c).
Qed.

Lemma raw_shared_memory_safe n v : good (raw_shared_memory n v).1.
Proof. unfold raw_shared_memory. rewrite getS_bind. by destruct (raw_alloc v) as [|[] l]. Qed.

Lemma raw_shared_memory_Ok n v b v' : raw_shared_memory n v = (Ok b, v') → b = zeros (n * PAGE_SIZE).
Proof.
  unfold raw_shared_memory. rewrite getS_bind. destruct (raw_alloc v) as [|[] l]; [done| |done].
  rewrite modifyS_bind. by intros [= <- _].
Qed.

(** [align_up] of this crate rounds up to a page. *)
Lemma raw_align_up_spec n a : 0 <= n → raw_align_up n = Some a → a / PAGE_SIZE * PAGE_SIZE = a ∧ n <= a.
Proof.
  intros Hn. unfold raw_align_up, PAGE_SIZE. intros (s & [-> Hs]%checked_add_Some & [= <-])%bind_Some.
  rewrite land_not_u by lia. change (4096 - 1) with (Z.ones 12) at 2 4 6.
  rewrite Z.ldiff_ones_r, Z.shiftl_mul_pow2, Z.shiftr_div_pow2 by lia. change (2 ^ 12) with 4096.
  rewrite Z.div_mul by lia. split; [done|].
  pose proof (Z.div_mod (n + (4096 - 1)) 4096 ltac:(lia)). pose proof (Z.mod_pos_bound (n + (4096 - 1)) 4096 ltac:(lia)). lia.
Qed.

(** The buffer an enqueue hands over. *)
Lemma enqueue_buffer (buf : bytes) a :
  12 + lenz buf <= a → lenz buf < 2 ^ 32 →
  (b ← write_at (zeros a) 0 (le_bytes 8 0); b ← write_at b 8 (le_bytes 4 (lenz buf));
   b ← write_at b 12 buf; slice b 0 (12 + lenz buf)) = Some (wire_buffer 0 buf).
Proof.
  intros Ha Hb. pose proof (lenz_nonneg buf).
  assert (zeros a = concat [zeros 8; zeros 4; zeros (lenz buf); zeros (a - 12 - lenz buf)]) as ->.
  { cbn [concat]. rewrite app_nil_r, <-!zeros_add by lia. f_equal. lia. }
  assert (∀ n, length (zeros n) = Z.to_nat n) by apply length_zeros.
  wr_seg 0%nat ltac:(unfold lenz; cbn [take concat length]; rewrite ?length_le_bytes, ?length_zeros; lia).
  wr_seg 1%nat ltac:(unfold lenz; cbn [take concat]; rewrite ?length_app, ?length_le_bytes, ?length_zeros; cbn [length]; lia).
  wr_seg 2%nat ltac:(unfold lenz in *; cbn [take concat]; rewrite ?length_app, ?length_le_bytes, ?length_zeros; cbn [length]; lia).
  cbn [concat]. rewrite app_nil_r.
  pose proof (slice_app [] (wire_buffer 0 buf) (zeros (a - 12 - lenz buf)) 0 (12 + lenz buf)) as Hs.
  unfold wire_buffer in *. rewrite <-!app_assoc in Hs. apply Hs; [done|]. by rewrite <-lenz_wire_buffer with (st := 0).
Qed.

(** ** Sending *)

Lemma or_panic_chain {S E A B C} (o : option A) (f : A → option B) (g : B → M S E C) s :
  (a ← or_panic o; b ← or_panic (f a); g b) s = (b ← or_panic (a ← o; f a); g b) s.
Proof. by destruct o. Qed.

Lemma good_Err {E A B} (e : aerr E) : good (Err e : outcome (aerr E) A) → good (Err e : outcome (aerr E) B).
Proof. intros [_ H]. split; [done|]. intros [= ->]. done. Qed.

(** The hypercall and its polls. *)
Lemma service_send_post mid b v :
  12 <= lenz b →
  let '(r, v') := vmcall_service_migtd_send mid b v in
  good r ∧ raw_sent v' = raw_sent v ++ [(mid, b)].
Proof.
  intros Hb. destruct (vmcall_service_migtd_send mid b v) as [r v'] eqn:E. split.
  - change r with ((r, v').1). rewrite <-E. unfold vmcall_service_migtd_send.
    apply good_bind; [apply raw_call_safe|]. intros events v1 _.
    apply good_bind; [by apply poll_events_safe|]. done.
  - unfold vmcall_service_migtd_send in E. rewrite M_bind_eq in E.
    destruct (raw_call _ v) as [rc v1] eqn:Ec. apply raw_call_sent in Ec. etransitivity; [|exact Ec].
    destruct rc as [events|e|]; [|by injection E as <- <-..].
    rewrite M_bind_eq in E. destruct (poll_events events mid (lenz b) v1) as [rp v2] eqn:Ep.
    apply sent_poll_events in Ep. destruct rp; by injection E as <- <-.
Qed.

(** An enqueue of one chunk: it hands over at most the framed chunk, exactly it
    when it succeeds, and never aborts. *)
Lemma enqueue_post stream buf v :
  lenz buf <= VMCALL_RAW_SEND_PAYLOAD_MTU →
  let '(r, v') := vmcall_raw_transport_enqueue stream buf v in
  good r ∧ (raw_sent v' = raw_sent v ∧ (∀ n, r ≠ Ok n) ∨
            raw_sent v' = raw_sent v ++ [(transport_context stream, wire_buffer 0 buf)]).
Proof.
  unfold VMCALL_RAW_SEND_PAYLOAD_MTU, MAX_VMCALL_RAW_STREAM_MTU, VMCALL_RAW_GHCI_HEADER_LEN. intros Hl.
  pose proof (lenz_nonneg buf).
  destruct (vmcall_raw_transport_enqueue stream buf v) as [r v'] eqn:Er. revert Er.
  unfold vmcall_raw_transport_enqueue. rewrite err_if_bind.
  destruct (Z.leb_spec (2 ^ 32) (lenz buf)); [lia|].
  assert (12 + lenz buf < 2 ^ 64) as H64 by lia.
  rewrite (proj2 (checked_add_Some 64 12 (lenz buf) _) (conj eq_refl H64)), ok_or_bind, ok_or_bind.
  destruct (raw_align_up (12 + lenz buf)) as [a|] eqn:Ea; [|by intros [= <- <-]; split; [|left]].
  apply raw_align_up_spec in Ea as [Ha Hle]; [|lia].
  rewrite M_bind_eq. pose proof (raw_shared_memory_safe (a / PAGE_SIZE) v) as Hg.
  destruct (raw_shared_memory _ v) as [rm v1] eqn:Em. pose proof (sent_shared_memory _ _ _ _ Em) as Hs.
  unfold same_sent in Hs. simpl in Hg.
  destruct rm as [b|e|]; [|intros [= <- <-]; split; [by eapply good_Err|by left]|by destruct Hg].
  apply raw_shared_memory_Ok in Em as ->. rewrite Ha.
  pose proof (enqueue_buffer buf a Hle ltac:(lia)) as Hbuf.
  destruct (write_at (zeros a) 0 _) as [b1|]; [|done]. cbn [mbind option_bind] in Hbuf. rewrite or_panic_bind.
  destruct (write_at b1 8 _) as [b2|]; [|done]. cbn [mbind option_bind] in Hbuf. rewrite or_panic_bind.
  destruct (write_at b2 12 _) as [b3|]; [|done]. cbn [mbind option_bind] in Hbuf. rewrite or_panic_bind.
  rewrite Hbuf, or_panic_bind. intros Es. rewrite <-Hs.
  pose proof (service_send_post (transport_context stream) (wire_buffer 0 buf) v1) as Hp.
  rewrite Es in Hp. destruct Hp; [rewrite lenz_wire_buffer; lia|]. split; [done|by right].
Qed.

(** The payloads of a list of sends. *)
Definition payloads (l : list (Z * bytes)) : bytes := concat ((λ f, drop 12 f.2) <$> l).

Definition raw_frame_ok (mid : Z) (f : Z * bytes) : Prop :=
  f.1 = mid ∧ ∃ d, f.2 = wire_buffer 0 d ∧ 0 < lenz d ∧ lenz f.2 <= MAX_VMCALL_RAW_STREAM_MTU.

Lemma payloads_cons mid d l : payloads ((mid, wire_buffer 0 d) :: l) = d ++ payloads l.
Proof.
  unfold payloads. cbn [fmap list_fmap concat snd]. f_equal.
Qed.

Definition raw_sends (stream : VmcallRaw) (v v' : RawVmm) (data : bytes) (fin : bool) : Prop :=
  ∃ l, raw_sent v' = raw_sent v ++ l ∧ Forall (raw_frame_ok (transport_context stream)) l ∧
    payloads l `prefix_of` data ∧ (fin = true → payloads l = data).

Lemma raw_sends_stop stream v v' data : raw_sent v' = raw_sent v → raw_sends stream v v' data false.
Proof. intros E. exists []. rewrite E, app_nil_r. split; [done|]. split; [done|]. split; [apply prefix_nil|done]. Qed.

Lemma raw_sends_cons stream v v1 v' d data fin :
  0 < lenz d <= VMCALL_RAW_SEND_PAYLOAD_MTU →
  raw_sent v1 = raw_sent v ++ [(transport_context stream, wire_buffer 0 d)] →
  raw_sends stream v1 v' data fin → raw_sends stream v v' (d ++ data) fin.
Proof.
  unfold VMCALL_RAW_SEND_PAYLOAD_MTU, VMCALL_RAW_GHCI_HEADER_LEN. intros Hd E (l & El & Fl & Pl & Ql).
  exists ((transport_context stream, wire_buffer 0 d) :: l). rewrite El, E, <-app_assoc. split; [done|].
  rewrite payloads_cons. split; [|split; [by apply prefix_app|intros Hf; by rewrite Ql]].
  constructor; [|done]. split; [done|]. exists d. simpl. rewrite lenz_wire_buffer. split; [done|]. lia.
Qed.

Lemma slice_rest {A} (l : list A) a b : 0 <= a <= b → b <= lenz l →
  ∃ d, slice l a b = Some d ∧ lenz d = b - a ∧ drop (Z.to_nat a) l = d ++ drop (Z.to_nat b) l.
Proof.
  intros Hab Hb. destruct (slice_is_Some l a b Hab Hb) as [d Hd]. exists d. split; [done|].
  split; [by apply slice_Some_len in Hd as [? _]|]. unfold slice in Hd. destruct (_ && _); [|done].
  injection Hd as <-. rewrite <-(take_drop (Z.to_nat (b - a)) (drop (Z.to_nat a) l)) at 1. f_equal.
  rewrite drop_drop. f_equal. lia.
Qed.

Lemma raw_send_loop_post fuel stream buf sent v :
  0 <= sent <= lenz buf → lenz buf - sent < Z.of_nat fuel →
  let '(r, v') := raw_send_loop fuel stream buf sent v in
  good r ∧ raw_sends stream v v' (drop (Z.to_nat sent) buf) (is_done r).
Proof.
  revert sent v. induction fuel as [|fuel IH]; intros sent v Hs Hf; [lia|]. cbn [raw_send_loop].
  destruct (Z.ltb_spec sent (lenz buf)) as [Hlt|].
  2:{ cbn. split; [done|]. exists []. rewrite app_nil_r, drop_ge by (unfold lenz in *; lia).
      split; [done|]. split; [done|]. split; [apply prefix_nil|done]. }
  set (e := Z.min (lenz buf) (sent + VMCALL_RAW_SEND_PAYLOAD_MTU)).
  assert (sent < e <= lenz buf ∧ e - sent <= VMCALL_RAW_SEND_PAYLOAD_MTU) as [He1 He2].
  { unfold e, VMCALL_RAW_SEND_PAYLOAD_MTU, MAX_VMCALL_RAW_STREAM_MTU, VMCALL_RAW_GHCI_HEADER_LEN. lia. }
  destruct (slice_rest buf sent e) as (d & Hd & Hl & Hdrop); [lia..|].
  rewrite Hd, or_panic_bind, M_bind_eq. pose proof (enqueue_post stream d v ltac:(lia)) as Hp.
  destruct (vmcall_raw_transport_enqueue stream d v) as [[n|x|] v1]; destruct Hp as [Hg Hp].
  - destruct Hp as [[_ Hp]|Hp]; [by destruct (Hp n)|].
    specialize (IH e v1 ltac:(lia) ltac:(lia)). destruct (raw_send_loop fuel stream buf e v1) as [r v'].
    destruct IH as [Hg' IH]. split; [done|]. rewrite Hdrop. eapply raw_sends_cons; [lia|done..].
  - split; [by eapply good_Err|]. rewrite Hdrop. destruct Hp as [[Hp _]|Hp]; [by apply raw_sends_stop|].
    eapply raw_sends_cons; [lia|done|]. by apply raw_sends_stop.
  - by destruct Hg.
Qed.

(** ** Receiving *)

Lemma poll_Ok mid b v p n v' :
  poll_vmcall_completion mid b v = (Ok (Some (p, n)), v') →
  ∃ st, process_buffer b = Some (p, st, n) ∧ st mod 256 = TDX_VMCALL_VMM_SUCCESS.
Proof.
  unfold poll_vmcall_completion. rewrite getS_bind.
  destruct (VMCALL_MIG_CONTEXT_FLAGS v !! mid) as [[]|]; [|done..]. rewrite modifyS_bind, or_panic_bind.
  destruct (process_buffer b) as [[[p' st] n']|]; [|done]. destruct (_ && _); [done|].
  destruct (Z.eqb_spec (st mod 256) TDX_VMCALL_VMM_SUCCESS); [|done]. intros [= <- <- _]. by exists st.
Qed.

Lemma poll_events_len events mid n v p len v' :
  12 <= n → poll_events events mid n v = (Ok (p, len), v') → lenz p = n - 12.
Proof.
  intros Hn. revert v. induction events as [|ev events IH]; intros v; cbn [poll_events]; [done|].
  rewrite modifyS_bind. intros ([[p' l']|] & v1 & E1 & E2)%M_bind_Ok_inv; [|by eapply IH].
  injection E2 as -> -> ->. apply poll_Ok in E1 as (st & Hp & _).
  destruct (process_buffer_Some (fit n (ev_buffer ev))) as (p1 & st1 & l1 & E & Hl); [rewrite lenz_fit; lia|].
  rewrite E in Hp. injection Hp as -> -> ->. rewrite lenz_fit in Hl; lia.
Qed.

Lemma slice_eq {A} (l d : list A) a b : slice l a b = Some d →
  0 <= a <= b ∧ b <= lenz l ∧ d = take (Z.to_nat (b - a)) (drop (Z.to_nat a) l).
Proof.
  unfold slice. destruct (_ && _) eqn:E; [|done]. intros [= <-]. rewrite !andb_true_iff, !Z.leb_le in E. split; [lia|]. split; [lia|done].
Qed.

Lemma process_buffer_eq b p st len : process_buffer b = Some (p, st, len) →
  p = drop 12 b ∧ st = le_val (take 8 b) ∧ len = le_val (take 4 (drop 8 b)).
Proof.
  unfold process_buffer. destruct (_ <? 12); [done|].
  intros (x & Hx & (y & Hy & (z & Hz & E)%bind_Some)%bind_Some)%bind_Some. injection E as -> <- <-.
  apply slice_eq in Hx as (_ & _ & ->), Hy as (_ & _ & ->), Hz as (_ & _ & ->). split; [|split; [|done]].
  - apply take_ge. rewrite length_drop. unfold lenz. lia.
  - by rewrite drop_0.
Qed.

(** The packet of a buffer as the VMM left it: a completed status, and the payload
    of the length that the header announces and the buffer holds. *)
Definition packet_of (buffer d : bytes) : Prop :=
  le_val (take 8 buffer) mod 256 = TDX_VMCALL_VMM_SUCCESS ∧
  let len := le_val (take 4 (drop 8 buffer)) in
  0 < len ∧ 12 + len <= lenz buffer ∧ d = take (Z.to_nat len) (drop 12 buffer).

(** .. at one of the polls of the next call. *)
Definition left_packet (size : Z) (v : RawVmm) (d : bytes) : Prop :=
  ∃ c rest ev, raw_script v = c :: rest ∧ ev ∈ raw_events c ∧ packet_of (fit size (ev_buffer ev)) d.

Lemma poll_events_Ok events mid n v p len v' :
  poll_events events mid n v = (Ok (p, len), v') →
  ∃ ev st, ev ∈ events ∧ process_buffer (fit n (ev_buffer ev)) = Some (p, st, len) ∧ st mod 256 = TDX_VMCALL_VMM_SUCCESS.
Proof.
  revert v. induction events as [|ev events IH]; intros v; cbn [poll_events]; [done|].
  rewrite modifyS_bind. intros ([[p' l']|] & v1 & E1 & E2)%M_bind_Ok_inv.
  - injection E2 as -> -> ->. apply poll_Ok in E1 as (st & Hp & Hst). exists ev, st. split; [left|done].
  - destruct (IH v1 E2) as (ev' & st & Hin & H). exists ev', st. split; [by right|done].
Qed.

(** A received packet is one that the VMM left. *)
Lemma raw_receive_Ok stream n v d v' : 12 <= n → vmcall_service_migtd_receive stream n v = (Ok d, v') → left_packet n v d.
Proof.
  intros Hn E. unfold vmcall_service_migtd_receive in E. cbv zeta in E.
  apply M_bind_Ok_inv in E as (events & v2 & Ec & E). apply M_bind_Ok_inv in E as ([p len] & v3 & Ep & E).
  apply poll_events_Ok in Ep as (ev & st & Hin & Hp & Hst).
  destruct (Z.eqb_spec len 0) as [|Hne]; [done|]. destruct (slice p 0 len) as [x|] eqn:Es; [|done]. injection E as -> ->.
  unfold raw_call in Ec. rewrite getS_bind in Ec. destruct (raw_script v) as [|c rest] eqn:Ev; [done|].
  rewrite modifyS_bind in Ec. destruct (raw_ok c); [|done]. injection Ec as <- _.
  exists c, rest, ev. split; [done|]. split; [done|].
  assert (lenz (fit n (ev_buffer ev)) = n) as Hb by (apply lenz_fit; lia). set (buffer := fit _ _) in *. clearbody buffer.
  apply process_buffer_eq in Hp as (-> & -> & ->). apply slice_eq in Es as (H0 & Hle & ->). rewrite Z.sub_0_r, drop_0.
  assert (lenz (drop 12 buffer) = lenz buffer - 12) as Hd by (unfold lenz in *; rewrite length_drop; lia).
  unfold packet_of. cbv zeta. split; [done|]. split; [lia|]. split; [lia|done].
Qed.

Lemma dequeue_Ok stream v d v' : vmcall_raw_transport_dequeue stream v = (Ok d, v') → left_packet MAX_VMCALL_RAW_STREAM_MTU v d.
Proof.
  unfold vmcall_raw_transport_dequeue. intros (b & v1 & Eb & E)%M_bind_Ok_inv.
  assert (raw_script v1 = raw_script v) as Hsc.
  { unfold raw_shared_memory in Eb. rewrite getS_bind in Eb. destruct (raw_alloc v) as [|[] l]; [done| |done]. by injection Eb as _ <-. }
  apply raw_shared_memory_Ok in Eb as ->. rewrite lenz_zeros in E by (by vm_compute).
  apply raw_receive_Ok in E; [|by vm_compute]. unfold left_packet in *. by rewrite Hsc in E.
Qed.

Lemma left_packet_nonempty n v d : left_packet n v d → d ≠ [].
Proof.
  intros (c & rest & ev & _ & _ & _ & Hl & Hb & ->). set (len := le_val _) in *. intros E%(f_equal length).
  rewrite length_take, length_drop in E. cbn in E. unfold lenz in Hb. lia.
Qed.

Lemma dequeue_safe stream v : good (vmcall_raw_transport_dequeue stream v).1.
Proof.
  unfold vmcall_raw_transport_dequeue. apply good_bind; [apply raw_shared_memory_safe|]. intros b v1 Eb.
  apply raw_shared_memory_Ok in Eb as ->. rewrite lenz_zeros by (by vm_compute).
  unfold vmcall_service_migtd_receive. cbv zeta. apply good_bind; [apply raw_call_safe|]. intros events v2 _.
  apply good_bind; [apply poll_events_safe; by vm_compute|]. intros [p n] v3 _.
  destruct (_ =? _); [done|]. by destruct (slice p 0 n).
Qed.

Lemma on_vmm_eq {A} (m : RM A) s : on_vmm m s = ((m (raw_vmm s)).1, mkRawSt (m (raw_vmm s)).2 (raw_self s)).
Proof. unfold on_vmm. by destruct (m (raw_vmm s)). Qed.

(** Filling the queue: one packet, or a failure that leaves the queue. *)
Lemma raw_fill_post s :
  let '(r, s') := raw_fill s in
  good r ∧ match r with
  | Ok _ => ∃ d, data_queue (raw_self s') = data_queue (raw_self s) ++ [d] ∧ d ≠ [] ∧ left_packet MAX_VMCALL_RAW_STREAM_MTU (raw_vmm s) d
  | _ => raw_self s' = raw_self s
  end.
Proof.
  unfold raw_fill. rewrite M_bind_eq. unfold raw_recv_packet_connected.
  rewrite getS_bind, M_bind_eq, on_vmm_eq.
  pose proof (dequeue_safe (raw_self s) (raw_vmm s)) as Hg.
  destruct (vmcall_raw_transport_dequeue _ _) as [[d|e|] v] eqn:E; cbn [fst snd] in *.
  - apply dequeue_Ok in E as Hl. pose proof (left_packet_nonempty _ _ _ Hl). destruct d as [|x d]; [done|]. cbn. split; [done|].
    exists (x :: d). done.
  - split; [by eapply good_Err|done].
  - by destruct Hg.
Qed.

(** ** Delivery *)

(** An event that leaves the call in flight: no interrupt, or an interrupt with
    a status that is neither success nor cancellation. *)
Definition quiet (size : Z) (ev : RawEvent) : Prop :=
  ev_interrupt ev = false ∨
  match process_buffer (fit size (ev_buffer ev)) with
  | Some (_, st, _) =>
      st mod 256 ≠ TDX_VMCALL_VMM_SUCCESS ∧
      (st mod 256 ≠ TDX_VMCALL_STATUS_NOT_COMPLETED ∨ (st / 256) mod 256 ≠ TDX_VMCALL_STATUS_VMM_CANCEL)
  | None => False
  end.

Definition waiting (mid : Z) (v : RawVmm) : Prop := VMCALL_MIG_CONTEXT_FLAGS v !! mid = Some false.

Lemma notified mid v : waiting mid v →
  VMCALL_MIG_CONTEXT_FLAGS (vmcall_raw_intr_notification v) !! mid = Some true.
Proof. intros Hw. simpl. rewrite lookup_fmap, Hw. done. Qed.

Lemma poll_quiet ev mid n v : quiet n ev → waiting mid v →
  ∃ v', poll_vmcall_completion mid (fit n (ev_buffer ev))
          (if ev_interrupt ev then vmcall_raw_intr_notification v else v) = (Ok None, v') ∧ waiting mid v'.
Proof.
  intros Hq Hw. unfold poll_vmcall_completion. rewrite getS_bind. destruct (ev_interrupt ev) eqn:Ei.
  - destruct Hq as [|Hq]; [congruence|]. rewrite (notified mid v Hw), modifyS_bind, or_panic_bind.
    destruct (process_buffer _) as [[[p st] len]|]; [|done]. destruct Hq as [H1 H2].
    destruct (Z.eqb_spec (st mod 256) TDX_VMCALL_STATUS_NOT_COMPLETED), (Z.eqb_spec ((st / 256) mod 256) TDX_VMCALL_STATUS_VMM_CANCEL),
      (Z.eqb_spec (st mod 256) TDX_VMCALL_VMM_SUCCESS); cbn [andb negb];
      try (exfalso; tauto); eexists; (split; [reflexivity|]); unfold waiting; simpl; apply lookup_insert_eq.
  - unfold waiting in Hw. rewrite Hw. by eexists.
Qed.

Lemma fit_app n b : lenz b <= n → fit n b = b ++ zeros (n - lenz b).
Proof.
  intros Hl. pose proof (lenz_nonneg b). unfold fit.
  replace n with ((n - lenz b) + lenz b) at 2 by lia. rewrite zeros_add by lia.
  rewrite app_assoc, take_app_le by (rewrite length_app, length_zeros; unfold lenz in *; lia).
  apply take_ge. rewrite length_app, length_zeros. unfold lenz in *. lia.
Qed.

Lemma poll_complete d mid n v :
  12 + lenz d <= n → lenz d < 2 ^ 32 → waiting mid v →
  ∃ v', poll_vmcall_completion mid (fit n (wire_buffer TDX_VMCALL_VMM_SUCCESS d)) (vmcall_raw_intr_notification v) =
    (Ok (Some (d ++ zeros (n - 12 - lenz d), lenz d)), v') ∧ waiting mid v'.
Proof.
  intros Hn Hd Hw. pose proof (lenz_nonneg d). unfold poll_vmcall_completion. rewrite getS_bind, (notified mid v Hw), modifyS_bind.
  rewrite fit_app by (rewrite lenz_wire_buffer; lia).
  rewrite process_wire_buffer by (unfold in_u, TDX_VMCALL_VMM_SUCCESS; lia). rewrite or_panic_bind, lenz_wire_buffer.
  replace (n - (12 + lenz d)) with (n - 12 - lenz d) by lia.
  eexists. split; [reflexivity|]. unfold waiting. simpl. apply lookup_insert_eq.
Qed.

Lemma poll_events_complete events d more mid n v :
  Forall (quiet n) events → 12 + lenz d <= n → lenz d < 2 ^ 32 → waiting mid v →
  ∃ v', poll_events (events ++ mkEvent true (wire_buffer TDX_VMCALL_VMM_SUCCESS d) :: more) mid n v =
    (Ok (d ++ zeros (n - 12 - lenz d), lenz d), v') ∧ waiting mid v'.
Proof.
  intros Hq Hn Hd. revert v. induction Hq as [|ev events Hev _ IH]; intros v Hw; cbn [app poll_events].
  - rewrite modifyS_bind. cbn [ev_interrupt ev_buffer]. destruct (poll_complete d mid n v Hn Hd Hw) as (v' & E & Hw').
    rewrite M_bind_eq, E. by eexists.
  - rewrite modifyS_bind. destruct (poll_quiet ev mid n v Hev Hw) as (v' & E & Hw'). rewrite M_bind_eq, E. by apply IH.
Qed.

Lemma dequeue_complete stream events d more alloc script sent flags :
  Forall (quiet MAX_VMCALL_RAW_STREAM_MTU) events → 0 < lenz d <= VMCALL_RAW_SEND_PAYLOAD_MTU →
  flags !! transport_context stream = Some false →
  ∃ v', vmcall_raw_transport_dequeue stream
    (mkRawVmm flags (true :: alloc)
      (mkRawCall true (events ++ mkEvent true (wire_buffer TDX_VMCALL_VMM_SUCCESS d) :: more) :: script) sent) =
    (Ok d, v') ∧ waiting (transport_context stream) v'.
Proof.
  intros Hq Hd Hf. unfold vmcall_raw_transport_dequeue, raw_shared_memory.
  rewrite M_bind_eq, getS_bind. cbn [raw_alloc]. rewrite modifyS_bind. cbn [mret M_ret].
  rewrite lenz_zeros by (by vm_compute).
  change (MAX_VMCALL_RAW_STREAM_MTU / PAGE_SIZE * PAGE_SIZE) with MAX_VMCALL_RAW_STREAM_MTU.
  unfold vmcall_service_migtd_receive, raw_call. cbv zeta. rewrite M_bind_eq, getS_bind. cbn [raw_script].
  rewrite modifyS_bind. cbn [raw_ok raw_events mret M_ret].
  unfold VMCALL_RAW_SEND_PAYLOAD_MTU, VMCALL_RAW_GHCI_HEADER_LEN in Hd.
  assert (lenz d < 2 ^ 32) by (unfold MAX_VMCALL_RAW_STREAM_MTU in Hd; lia).
  edestruct (poll_events_complete events d more (transport_context stream) MAX_VMCALL_RAW_STREAM_MTU)
    as (v' & E & Hw); [done|lia|done| |].
  2:{ rewrite M_bind_eq, E. destruct (Z.eqb_spec (lenz d) 0); [lia|].
      pose proof (slice_app [] d (zeros (MAX_VMCALL_RAW_STREAM_MTU - 12 - lenz d)) 0 (lenz d) eq_refl eq_refl) as Hs.
      rewrite app_nil_l in Hs. rewrite Hs. by eexists. }
  exact Hf.
Qed.

(** ** Properties *)

(** [recv] returns the received bytes in order, without loss:
    the caller gets the next bytes of the queue, after at most one packet was
    received into an empty queue, and the rest stays queued; on an error the
    queue is unchanged. *)
Lemma raw_recv_post buf s :
  let '(r, s') := raw_recv buf s in
  match r with
  | Ok (n, buf') =>
      ∃ arrived, (arrived = [] ∨ left_packet MAX_VMCALL_RAW_STREAM_MTU (raw_vmm s) arrived) ∧ (arrived = [] ↔ data_queue (raw_self s) ≠ []) ∧
        let pending := concat (data_queue (raw_self s)) ++ arrived in
        n = Z.min (lenz buf) (lenz pending) ∧
        buf' = take (Z.to_nat n) pending ++ drop (Z.to_nat n) buf ∧
        concat (data_queue (raw_self s')) = drop (Z.to_nat n) pending
  | _ => raw_self s' = raw_self s
  end.
Proof.
  unfold raw_recv. rewrite getS_bind, M_bind_eq. case_decide as Hq.
  - pose proof (raw_fill_post s) as Hp. destruct (raw_fill s) as [[[]|e|] s1]; [|apply Hp..].
    destruct Hp as (_ & d & Hd & Hne & Hl). rewrite Hq in Hd. rewrite getS_bind.
    destruct (copy_out_spec (data_queue (raw_self s1)) buf 0) as ([[b q] u] & Hc & Hu & Hb & Hr & _); [unfold lenz; lia|].
    rewrite Hc, or_panic_bind, modifyS_bind. cbn. exists d. rewrite Hq. split; [by right|]. split; [done|].
    rewrite Hd in *. cbn [concat app] in *. rewrite app_nil_r in *. rewrite Z.sub_0_r, Z.add_0_l in *. done.
  - cbn [mret M_ret]. rewrite getS_bind.
    destruct (copy_out_spec (data_queue (raw_self s)) buf 0) as ([[b q] u] & Hc & Hu & Hb & Hr & _); [unfold lenz; lia|].
    rewrite Hc, or_panic_bind, modifyS_bind. cbn. exists []. split; [by left|]. split; [done|].
    rewrite app_nil_r. rewrite Z.sub_0_r, Z.add_0_l in *. done.
Qed.

(** C38 (safety). Whatever the VMM writes into the shared buffers, whatever
    interrupts it raises and whatever its calls return, neither [send] nor
    [recv] of the raw channel aborts, and both finish their loops within the
    bounds the model gives them.  What [recv] takes from the VMM is one packet at
    most: the payload of a buffer that the VMM completed, of the length that its
    header announces and that the buffer holds after the header, byte for byte; the
    caller's buffer keeps its length and gets at most that many bytes, and the
    others stay queued. *)
Theorem raw_hostile_vmm_safe (stream : VmcallRaw) buf v s :
  (raw_send stream buf v).1 ≠ Panic ∧ (raw_send stream buf v).1 ≠ Err OutOfFuel ∧
  (raw_recv buf s).1 ≠ Panic ∧ (raw_recv buf s).1 ≠ Err OutOfFuel ∧
  ∀ n buf' s', raw_recv buf s = (Ok (n, buf'), s') →
    lenz buf' = lenz buf ∧ 0 <= n <= lenz buf ∧
    ∃ arrived, (arrived = [] ∨ left_packet MAX_VMCALL_RAW_STREAM_MTU (raw_vmm s) arrived) ∧
      take (Z.to_nat n) buf' ++ concat (data_queue (raw_self s')) = concat (data_queue (raw_self s)) ++ arrived.
Proof.
  assert (good (raw_send stream buf v).1) as [H1 H2].
  { unfold raw_send. apply good_bind; [|done].
    pose proof (raw_send_loop_post (S (length buf)) stream buf 0 v) as Hp.
    destruct (raw_send_loop _ stream buf 0 v) as [r v']. apply Hp; unfold lenz; lia. }
  assert (good (raw_recv buf s).1) as [H3 H4].
  { unfold raw_recv. rewrite getS_bind. apply good_bind.
    - case_decide; [|done]. pose proof (raw_fill_post s) as Hp. destruct (raw_fill s) as [r s']. apply Hp.
    - intros [] s' _. rewrite getS_bind.
      destruct (copy_out_spec (data_queue (raw_self s')) buf 0) as ([[b q] u] & -> & _); [unfold lenz; lia|]. done. }
  split_and!; [done..|]. intros n buf' s' E. pose proof (raw_recv_post buf s) as Hp. rewrite E in Hp.
  destruct Hp as (arrived & Ha & _ & Hl & -> & ->).
  set (p := concat _ ++ arrived) in *. pose proof (lenz_nonneg buf). pose proof (lenz_nonneg p).
  assert (length (take (Z.to_nat n) p) = Z.to_nat n) as Ht by (rewrite length_take; unfold lenz in *; lia).
  split; [|split; [lia|]].
  - unfold lenz in *. rewrite length_app, length_drop, Ht. lia.
  - exists arrived. split; [done|]. rewrite take_app_le, take_ge, take_drop by lia. done.
Qed.

(** [send] splits the buffer into calls of at most one MTU,
    each a zero status, its length and a non-empty payload under the request
    id of the stream; the payloads in order are a prefix of the buffer, and the
    whole buffer when [send] returns [Ok]. *)
Theorem raw_send_fragments (stream : VmcallRaw) buf v :
  let '(r, v') := raw_send stream buf v in
  ∃ l, raw_sent v' = raw_sent v ++ l ∧ Forall (raw_frame_ok (transport_context stream)) l ∧
    payloads l `prefix_of` buf ∧ match r with Ok n => n = lenz buf ∧ payloads l = buf | _ => True end.
Proof.
  pose proof (raw_send_loop_post (S (length buf)) stream buf 0 v) as Hp.
  unfold raw_send. rewrite M_bind_eq. destruct (raw_send_loop _ stream buf 0 v) as [r v'].
  destruct Hp as [_ (l & El & Fl & Pl & Ql)]; [unfold lenz; lia..|]. rewrite drop_0 in *.
  destruct r; exists l; (split; [done|]; split; [done|]; split; [done|]); [|done..].
  split; [done|]. by apply Ql.
Qed.

(** Once the VMM completes a receive with a payload of at most
    one MTU, after any number of polls without interrupt or with interrupts for
    other requests, [recv] on a connected stream with an empty queue returns
    the payload, as much as fits, and queues the rest. *)
Theorem raw_recv_delivers mid events d more alloc script sent flags buf :
  Forall (quiet MAX_VMCALL_RAW_STREAM_MTU) events →
  0 < lenz d <= VMCALL_RAW_SEND_PAYLOAD_MTU →
  flags !! mid = Some false →
  let v := mkRawVmm flags (true :: alloc)
    (mkRawCall true (events ++ mkEvent true (wire_buffer TDX_VMCALL_VMM_SUCCESS d) :: more) :: script) sent in
  let n := Z.min (lenz buf) (lenz d) in
  ∃ s', raw_recv buf (mkRawSt v (new_with_mid mid)) = (Ok (n, take (Z.to_nat n) d ++ drop (Z.to_nat n) buf), s') ∧
        concat (data_queue (raw_self s')) = drop (Z.to_nat n) d.
Proof.
  intros Hq Hd Hf v n. subst v.
  destruct (dequeue_complete (new_with_mid mid) events d more alloc script sent flags Hq Hd Hf) as (v' & E & _).
  unfold raw_recv. rewrite getS_bind, M_bind_eq. cbn [raw_self new_with_mid data_queue]. rewrite decide_True by done.
  unfold raw_fill. rewrite M_bind_eq. unfold raw_recv_packet_connected. rewrite getS_bind, M_bind_eq, on_vmm_eq.
  cbn [raw_self raw_vmm]. rewrite E. cbn [fst snd].
  assert (d ≠ []) as Hne by (intros ->; unfold lenz in Hd; simpl in Hd; lia).
  destruct (copy_out_spec [d] buf 0) as ([[b q] u] & Hc & Hu & Hb & Hr & _); [unfold lenz; lia|].
  cbn [concat] in Hu, Hb, Hr. rewrite app_nil_r in Hu, Hb, Hr. rewrite Z.sub_0_r in Hb, Hr.
  assert (u = n) as -> by (unfold n; lia).
  eexists. split.
  - destruct d as [|x d]; [done|]. unfold modifyS at 1. cbn [vmcall_raw_transport_can_recv negb mret M_ret].
    rewrite getS_bind. change (copy_out _ buf 0) with (copy_out [x :: d] buf 0). rewrite Hc, or_panic_bind, modifyS_bind, Hb.
    reflexivity.
  - exact Hr.
Qed.

Lemma raw_recv_delivers_witness :
  let events := [mkEvent false []; mkEvent true []] in
  let v := mkRawVmm {[7 := false]} [true]
    [mkRawCall true (events ++ [mkEvent true (wire_buffer TDX_VMCALL_VMM_SUCCESS [1; 2; 3])])] [] in
  ∃ s', raw_recv [0; 0] (mkRawSt v (new_with_mid 7)) = (Ok (2, [1; 2]), s') ∧
        concat (data_queue (raw_self s')) = [3].
Proof.
  apply (raw_recv_delivers 7 [mkEvent false []; mkEvent true []] [1; 2; 3] [] [] [] [] {[7 := false]} [0; 0]).
  - constructor; [by left|]. constructor; [|constructor]. right. vm_compute. split; [discriminate|left; discriminate].
  - vm_compute. split; [reflexivity|discriminate].
  - reflexivity.
Defined.

Lemma raw_hostile_vmm_safe_witness :
  let v := mkRawVmm {[7 := false]} [true] [mkRawCall true [mkEvent false []; mkEvent true (wire_buffer TDX_VMCALL_VMM_SUCCESS [1; 2; 3])]] [] in
  (raw_recv [0; 0] (mkRawSt v (new_with_mid 7))).1 = Ok (2, [1; 2]) ∧ left_packet MAX_VMCALL_RAW_STREAM_MTU v [1; 2; 3].
Proof.
  intros v. set (s := mkRawSt v (new_with_mid 7)).
  assert (∃ s', raw_recv [0; 0] s = (Ok (2, [1; 2]), s') ∧ concat (data_queue (raw_self s')) = [3]) as (s' & E & Hq).
  { apply (raw_recv_delivers 7 [mkEvent false []] [1; 2; 3] [] [] [] [] {[7 := false]} [0; 0]).
    - constructor; [by left|constructor].
    - vm_compute. split; [reflexivity|discriminate].
    - reflexivity. }
  split; [by rewrite E|].
  destruct (raw_hostile_vmm_safe (new_with_mid 7) [0; 0] v s) as (_ & _ & _ & _ & H).
  destruct (H 2 [1; 2] s' E) as (_ & _ & arrived & Ha & Hc). rewrite Hq in Hc.
  change ([1; 2; 3] = arrived) in Hc. subst arrived. by destruct Ha.
Defined.
