(* ===== verification/MigData.v ===== *)
(** * MigData: requests, results and service pages of the migration TD

    src/migtd/src/migration/mod.rs and data.rs: the result codes, the request
    structures and their parsers, the command and response pages of the service
    call and the HOB list of a request.  The Cargo features that change these
    types are the fields of the class [Features].  [pread] of a derived [Pread]
    reads the fields of the [repr(C)] structure in order, little-endian. *)
From stdpp Require Import base tactics numbers list list_numbers option gmap.
From S2P Require Import Prelude.
Local Open Scope Z_scope.

Class Features := {
  vmcall_raw : bool;
  policy_v2 : bool;
  vsock : bool;  (** [vmcall-vsock] or [virtio-vsock] *)
  AzCVMEmu : bool }.

(** ** Results *)

Module MigrationResult.
Inductive t :=
  | Success | InvalidParameter | Unsupported | OutOfResource | TdxModuleError | NetworkError
  | SecureSessionError | MutualAttestationError | PolicyUnsatisfiedError | InvalidPolicyError
  | VmmCanceled | VmmInternalError | UnsupportedOperationError | InitializationError.

#[global] Instance t_eq_dec : EqDecision t.
Proof. solve_decision. Defined.

(** [r as u8] *)
Definition as_u8 (r : t) : Z :=
  match r with
  | Success => 0 | InvalidParameter => 1 | Unsupported => 2 | OutOfResource => 3
  | TdxModuleError => 4 | NetworkError => 5 | SecureSessionError => 6
  | MutualAttestationError => 7 | PolicyUnsatisfiedError => 8 | InvalidPolicyError => 9
  | VmmCanceled => 10 | VmmInternalError => 11 | UnsupportedOperationError => 12
  | InitializationError => 255
  end.

Definition try_from (value : Z) : option t :=
  match value with
  | 0 => Some Success | 1 => Some InvalidParameter | 2 => Some Unsupported
  | 3 => Some OutOfResource | 4 => Some TdxModuleError | 5 => Some NetworkError
  | 6 => Some SecureSessionError | 7 => Some MutualAttestationError
  | 8 => Some PolicyUnsatisfiedError | 9 => Some InvalidPolicyError
  | 10 => Some VmmCanceled | 11 => Some VmmInternalError
  | 12 => Some UnsupportedOperationError | 255 => Some InitializationError
  | _ => None
  end.
End MigrationResult.
Notation MigrationResult := MigrationResult.t.

Module DataStatusOperation.
Inductive t := StartMigration | StartRebinding | GetTDReport | EnableLogArea | GetMigtdData.

Definition try_from (value : Z) : option t :=
  match value with
  | 1 => Some StartMigration | 2 => Some StartRebinding | 3 => Some GetTDReport
  | 4 => Some EnableLogArea | 5 => Some GetMigtdData | _ => None
  end.
End DataStatusOperation.

(** ** [pread]: reading a structure field by field *)

Notation Rd := (M bytes unit).

Definition gread_bytes (n : nat) : Rd bytes :=
  b ← getS;
  if (length b <? n)%nat then failM tt else _ ← modifyS (drop n); mret (take n b).

Definition gread (n : nat) : Rd Z := x ← gread_bytes n; mret (le_val x).

(** [payload.pread(0).map_err(|_| InvalidParameter)] *)
Definition pread {A} (m : Rd A) (b : bytes) : outcome MigrationResult A :=
  match m b with
  | (Ok a, _) => Ok a
  | _ => Err MigrationResult.InvalidParameter
  end.

(** ** TDINFO_STRUCT *)

Definition TD_INFO_SIZE : Z := 512.
Definition TD_INFO_MROWNER_OFFSET : Z := 8 + 8 + 48 + 48.
Definition TD_INFO_MROWNERCONFIG_OFFSET : Z := TD_INFO_MROWNER_OFFSET + 48.
Definition TD_INFO_OWNER_FIELD_SIZE : Z := 48.

Definition td_info_mrowner (td_info : bytes) : option bytes :=
  slice td_info TD_INFO_MROWNER_OFFSET (TD_INFO_MROWNER_OFFSET + TD_INFO_OWNER_FIELD_SIZE).

Definition td_info_mrownerconfig (td_info : bytes) : option bytes :=
  slice td_info TD_INFO_MROWNERCONFIG_OFFSET (TD_INFO_MROWNERCONFIG_OFFSET + TD_INFO_OWNER_FIELD_SIZE).

(** ** Requests *)

(** Fields a feature removes hold 0 and [[]]. *)
Record MigtdMigrationInformation := mkMigInfo {
  mig_request_id : Z;
  migration_source : Z;
  has_init_data : Z;
  mi_reserved : bytes;
  target_td_uuid : list Z;
  binding_handle : Z;
  mig_policy_id : Z;
  communication_id : Z;
  init_td_info : bytes }.

Section features.
Context `{Features}.

Definition size_of_MigtdMigrationInformation : Z :=
  8 + 1 + 1 + 6 + 32 + 8 + (if vmcall_raw then 0 else 16) + (if policy_v2 then TD_INFO_SIZE else 0).

Definition MIGTD_MIGRATION_INFO_HEADER_SIZE : Z := size_of_MigtdMigrationInformation - TD_INFO_SIZE.

Definition pread_mig_info : Rd MigtdMigrationInformation :=
  id ← gread 8;
  src ← gread 1;
  has ← gread 1;
  res ← gread_bytes 6;
  u0 ← gread 8; u1 ← gread 8; u2 ← gread 8; u3 ← gread 8;
  bh ← gread 8;
  pol ← (if vmcall_raw then mret 0 else gread 8);
  comm ← (if vmcall_raw then mret 0 else gread 8);
  init ← (if policy_v2 then gread_bytes 512 else mret []);
  mret (mkMigInfo id src has res [u0; u1; u2; u3] bh pol comm init).

(** [read_from_bytes] with the [policy_v2] feature. *)
Definition read_mig_info_v2 (data_length : Z) (payload : bytes) : outcome MigrationResult MigtdMigrationInformation :=
  let short_size := MIGTD_MIGRATION_INFO_HEADER_SIZE in
  let full_size := size_of_MigtdMigrationInformation in
  if negb (data_length =? short_size) && negb (data_length =? full_size) then
    Err MigrationResult.InvalidParameter
  else if as_u 32 (lenz payload) <? data_length then Err MigrationResult.InvalidParameter
  else
    parsed ← (if data_length =? full_size then pread pread_mig_info payload
              else
                match slice payload 0 short_size with
                | Some h =>
                    match write_at (zeros full_size) 0 h with
                    | Some padded => pread pread_mig_info padded
                    | None => Panic
                    end
                | None => Panic
                end);
    if negb (bool_decide (mi_reserved parsed = zeros 6)) then Err MigrationResult.InvalidParameter
    else if 1 <? has_init_data parsed then Err MigrationResult.InvalidParameter
    else if negb (Bool.eqb (has_init_data parsed =? 1) (data_length =? full_size)) then
      Err MigrationResult.InvalidParameter
    else Ok parsed.

(** [read_from_bytes] without it. *)
Definition read_mig_info_v1 (data_length : Z) (payload : bytes) : outcome MigrationResult MigtdMigrationInformation :=
  if negb (data_length =? size_of_MigtdMigrationInformation) then Err MigrationResult.InvalidParameter
  else
    parsed ← pread pread_mig_info payload;
    if negb (bool_decide (mi_reserved parsed = zeros 6)) then Err MigrationResult.InvalidParameter
    else if negb (has_init_data parsed =? 0) then Err MigrationResult.InvalidParameter
    else Ok parsed.

Definition read_mig_info_from_bytes (data_length : Z) (payload : bytes) :=
  if policy_v2 then read_mig_info_v2 data_length payload else read_mig_info_v1 data_length payload.

End features.

Definition init_td_info_if_present (i : MigtdMigrationInformation) : option bytes :=
  if has_init_data i =? 1 then Some (init_td_info i) else None.

(** [ReportInfo] and [MigtdDataInfo] have the same two fields. *)
Record ReportInfo := mkReportInfo { ri_mig_request_id : Z; reportdata : bytes }.

Definition pread_report_info : Rd ReportInfo :=
  id ← gread 8; d ← gread_bytes 64; mret (mkReportInfo id d).

(** [impl_read_from_bytes_with_optional!]: the whole structure, or the request
    id alone with the default for the rest. *)
Definition read_report_info (data_length : Z) (payload : bytes) : outcome MigrationResult ReportInfo :=
  let request_id_only := 8 in
  let full_size := 72 in
  if negb (data_length =? request_id_only) && negb (data_length =? full_size) then
    Err MigrationResult.InvalidParameter
  else if data_length =? full_size then pread pread_report_info payload
  else id ← pread (gread 8) payload; Ok (mkReportInfo id (zeros 64)).

Record EnableLogAreaInfo := mkLogArea { la_mig_request_id : Z; log_max_level : Z; la_reserved : bytes }.

Definition pread_log_area : Rd EnableLogAreaInfo :=
  id ← gread 8; l ← gread 1; r ← gread_bytes 7; mret (mkLogArea id l r).

Definition read_log_area (data_length : Z) (payload : bytes) : outcome MigrationResult EnableLogAreaInfo :=
  if negb (data_length =? 16) then Err MigrationResult.InvalidParameter
  else
    info ← pread pread_log_area payload;
    if existsb (λ b, negb (b =? 0)) (la_reserved info) then Err MigrationResult.InvalidParameter else Ok info.

Record MigtdStreamSocketInfo := mkSocketInfo {
  ss_communication_id : Z; mig_td_cid : Z; mig_channel_port : Z; quote_service_port : Z }.

Definition pread_socket_info : Rd MigtdStreamSocketInfo :=
  c ← gread 8; t ← gread 8; p ← gread 4; q ← gread 4; mret (mkSocketInfo c t p q).

Record MigtdMigpolicy := mkMigpolicy { mp_policy_id : Z; mp_policy_size : Z; mig_policy : bytes }.

Record MigrationInformation := mkInformation {
  mig_info : MigtdMigrationInformation;
  mig_socket_info : option MigtdStreamSocketInfo;
  mi_policy : option MigtdMigpolicy }.

Definition is_src (i : MigrationInformation) : bool := migration_source (mig_info i) =? 1.

(** ** Command and response pages of the service call *)

Module VmcallServiceCommand.
Record t := mk { data : bytes; offset : Z }.

Definition COMMAND_HEADER_LENGTH : Z := 24.

(** [None] when the page is shorter than the header. *)
Definition new (page guid : bytes) : option t :=
  if lenz page <? COMMAND_HEADER_LENGTH then None
  else
    d ← write_at (zeros (lenz page)) 0 guid;
    d ← write_at d 16 (le_bytes 4 24);
    d ← write_at d 20 (le_bytes 4 0);
    Some (mk d 24).

Definition write (bs : bytes) : M t MigrationResult unit :=
  c ← getS;
  room ← or_panic (sub_u (lenz (data c)) (offset c));
  _ ← err_if (room <? lenz bs) MigrationResult.InvalidParameter;
  d ← or_panic (write_at (data c) (offset c) bs);
  let off := offset c + lenz bs in
  d ← or_panic (write_at d 16 (le_bytes 4 (as_u 32 off)));
  modifyS (λ _, mk d off).
End VmcallServiceCommand.

Module VmcallServiceResponse.
Definition RESPONSE_HEADER_LENGTH : Z := 24.

(** [try_read]: the whole buffer, once its length field is plausible. *)
Definition try_read (data : bytes) : option bytes :=
  if lenz data <? RESPONSE_HEADER_LENGTH then None
  else
    l ← slice data 16 20;
    let len := le_val l in
    if (len <? RESPONSE_HEADER_LENGTH) || (lenz data <? len) then None else Some data.

Definition new (response guid : bytes) : option bytes :=
  if lenz response <? RESPONSE_HEADER_LENGTH then None
  else
    d ← write_at (zeros (lenz response)) 0 guid;
    d ← write_at d 16 (le_bytes 4 (as_u 32 (lenz response)));
    write_at d 20 (le_bytes 4 0).

Definition read_guid (data : bytes) : option bytes := slice data 0 16.

Definition read_status (data : bytes) : option Z := le_val <$> slice data 20 24.

(** [read_data::<T>(offset)] for a [T] of [size] bytes. *)
Definition read_data (data : bytes) (offset size : Z) : option bytes :=
  if lenz data <? 24 + offset + size then None else slice data (24 + offset) (24 + offset + size).
End VmcallServiceResponse.

Section guids.
Context `{GuidBytes}.

Definition VMCALL_SERVICE_COMMON_GUID : bytes :=
  guid_as_bytes 0xfb6fc5e1 0x3378 0x4acb [0x89; 0x64; 0xfa; 0x5e; 0xe4; 0x3b; 0x9c; 0x8a].
Definition SERVICE_MIGTD_GUID : bytes :=
  guid_as_bytes 0xe60e6330 0x1e09 0x4387 [0xa4; 0x44; 0x8f; 0x32; 0xb8; 0xd6; 0x11; 0xe5].
Definition MIGRATION_INFORMATION_HOB_GUID : bytes :=
  guid_as_bytes 0x42b5e398 0xa199 0x4d30 [0xbe; 0xfc; 0xc7; 0x5a; 0xc3; 0xda; 0x5d; 0x7c].
Definition MIGPOLICY_HOB_GUID : bytes :=
  guid_as_bytes 0xd64f771a 0xf0c9 0x4d33 [0x99; 0x8b; 0xe; 0x3d; 0x8b; 0x94; 0xa; 0x61].
Definition STREAM_SOCKET_INFO_HOB_GUID : bytes :=
  guid_as_bytes 0x7a103b9d 0x552b 0x485f [0xbb; 0x4c; 0x2f; 0x3d; 0x2e; 0x8b; 0x1e; 0xe].

End guids.

(** ** The HOB list of a request

    td-shim provides the walk to the next HOB, the payload of a GUID extension
    HOB and the type codes; the walk always moves forward. *)

Class HobLib := {
  align_to_next_hob_offset : Z → Z → Z → option Z;
  get_guid_data : bytes → option bytes;
  HOB_TYPE_GUID_EXTENSION : Z;
  HOB_TYPE_END_OF_HOB_LIST : Z;
  hob_types_differ : HOB_TYPE_GUID_EXTENSION ≠ HOB_TYPE_END_OF_HOB_LIST;
  next_hob_forward : ∀ cap offset len o, align_to_next_hob_offset cap offset len = Some o → offset < o }.

Section hob.
Context `{Features} `{GuidBytes} `{HobLib}.

(** The HOB header: type, length, reserved. *)
Definition pread_hob_header : Rd (Z * Z) :=
  t ← gread 2; l ← gread 2; _ ← gread 4; mret (t, l).

(** A GUID extension HOB: header and GUID. *)
Definition pread_guid_extension : Rd (Z * bytes) :=
  h ← pread_hob_header; name ← gread_bytes 16; mret (h.2, name).

Definition pread_opt {A} (m : Rd A) (b : bytes) : option A :=
  match m b with (Ok a, _) => Some a | _ => None end.

(** The HOB at [offset] and the offset of the next one. *)
Definition get_next_hob (hob : bytes) (offset : Z) : option (bytes * Z) :=
  if lenz hob <=? offset then None
  else
    hob_slice ← slice hob offset (lenz hob);
    h ← pread_opt pread_hob_header hob_slice;
    offset' ← align_to_next_hob_offset (lenz hob) offset h.2;
    Some (hob_slice, offset').

(** The HOBs collected by the loop. *)
Record HobScan := mkScan {
  mig_info_hob : option bytes; mig_socket_hob : option bytes; policy_info_hob : option bytes }.

(** One turn of the loop on a HOB: [None] returns [None], [Some None] breaks. *)
Definition scan_hob (hob : bytes) (s : HobScan) : option (option HobScan) :=
  h ← pread_opt pread_hob_header hob;
  if h.1 =? HOB_TYPE_GUID_EXTENSION then
    g ← pread_opt pread_guid_extension hob;
    guid_hob ← slice hob 0 g.1;
    if bool_decide (g.2 = MIGRATION_INFORMATION_HOB_GUID) then
      match mig_info_hob s with
      | Some _ => None
      | None => Some (Some (mkScan (Some guid_hob) (mig_socket_hob s) (policy_info_hob s)))
      end
    else if bool_decide (g.2 = STREAM_SOCKET_INFO_HOB_GUID) then
      match mig_socket_hob s with
      | Some _ => None
      | None => Some (Some (mkScan (mig_info_hob s) (Some guid_hob) (policy_info_hob s)))
      end
    else if bool_decide (g.2 = MIGPOLICY_HOB_GUID) then
      match policy_info_hob s with
      | Some _ => None
      | None => Some (Some (mkScan (mig_info_hob s) (mig_socket_hob s) (Some guid_hob)))
      end
    else None
  else if h.1 =? HOB_TYPE_END_OF_HOB_LIST then Some None
  else None.

(** The loop; [Err true] is an early [return None], [Err false] lack of fuel. *)
Fixpoint scan_hobs (fuel : nat) (hob : bytes) (offset : Z) (s : HobScan) : outcome bool HobScan :=
  match fuel with
  | O => Err false
  | S f =>
      match get_next_hob hob offset with
      | None => Ok s
      | Some (h, offset') =>
          match scan_hob h s with
          | None => Err true
          | Some None => Ok s
          | Some (Some s') => scan_hobs f hob offset' s'
          end
      end
  end.

Definition create_migration_information (s : HobScan) : option MigrationInformation :=
  mig_info_hob ← mig_info_hob s;
  mig_info_data ← get_guid_data mig_info_hob;
  mig_info ← (if policy_v2 then
                match read_mig_info_v2 (as_u 32 (lenz mig_info_data)) mig_info_data with
                | Ok i => Some i | _ => None
                end
              else pread_opt pread_mig_info mig_info_data);
  socket ← (if vsock then
              h ← mig_socket_hob s; d ← get_guid_data h; i ← pread_opt pread_socket_info d; Some (Some i)
            else Some None);
  let policy :=
    h ← policy_info_hob s;
    raw ← get_guid_data h;
    hd ← pread_opt (i ← gread 8; n ← gread 4; mret (i, n)) raw;
    d ← slice raw 16 (16 + hd.2);
    Some (mkMigpolicy hd.1 hd.2 d) in
  Some (mkInformation mig_info socket policy).

(** The loop moves forward at least one byte per turn. *)
Definition read_mig_info (hob : bytes) : option MigrationInformation :=
  match scan_hobs (S (length hob)) hob 0 (mkScan None None None) with
  | Ok s => create_migration_information s
  | _ => None
  end.

End hob.
