(* ===== verification/MigDataSpec.v ===== *)
(** * MigDataSpec: requests are parsed exactly

    The wire form of the request structures and the theorem that a parser
    accepts exactly the well-formed encodings; result codes; service pages; the
    HOB list (MigData). *)
From stdpp Require Import base tactics numbers list list_numbers option gmap.
From S2P Require Import Prelude MigData.
Local Open Scope Z_scope.

(** ** Reading fields *)

Lemma gread_bytes_app n x rest : length x = n → gread_bytes n (x ++ rest) = (Ok x, rest).
Proof.
  intros <-. unfold gread_bytes. rewrite getS_bind, length_app.
  rewrite (proj2 (Nat.ltb_ge _ _)) by lia. rewrite modifyS_bind, drop_app_length, take_app_length. done.
Qed.

Lemma gread_app n z rest : in_u (8 * Z.of_nat n) z → gread n (le_bytes n z ++ rest) = (Ok z, rest).
Proof.
  intros Hz. unfold gread. rewrite (M_bind_Ok _ _ _ _ _ (gread_bytes_app n _ rest (length_le_bytes n z))).
  rewrite le_val_bytes, Z.mod_small by done. done.
Qed.

Lemma gread_bytes_inv n b x b' : gread_bytes n b = (Ok x, b') → b = x ++ b' ∧ length x = n.
Proof.
  unfold gread_bytes. rewrite getS_bind. destruct (Nat.ltb_spec (length b) n); [done|].
  rewrite modifyS_bind. intros [= <- <-]. rewrite take_drop, length_take. split; [done|lia].
Qed.

Lemma gread_inv n b z b' : bytes_ok b → gread n b = (Ok z, b') →
  b = le_bytes n z ++ b' ∧ bytes_ok b' ∧ in_u (8 * Z.of_nat n) z.
Proof.
  intros Hb. unfold gread. intros (x & b1 & [-> Hl]%gread_bytes_inv & E)%M_bind_Ok_inv.
  injection E as <- <-. apply Forall_app in Hb as [Hx Hb]. subst n.
  rewrite le_bytes_val by done. split; [done|]. split; [done|]. by apply le_val_range.
Qed.

Lemma gread_bind {A} n z rest (f : Z → Rd A) :
  in_u (8 * Z.of_nat n) z → (gread n ≫= f) (le_bytes n z ++ rest) = f z rest.
Proof. intros Hz. by rewrite (M_bind_Ok _ _ _ _ _ (gread_app n z rest Hz)). Qed.

Lemma gread_bytes_bind {A} n x rest (f : bytes → Rd A) :
  length x = n → (gread_bytes n ≫= f) (x ++ rest) = f x rest.
Proof. intros Hx. by rewrite (M_bind_Ok _ _ _ _ _ (gread_bytes_app n x rest Hx)). Qed.

(** One field of an encoding. *)
Ltac gread_step := first [rewrite gread_bind by assumption|rewrite gread_bytes_bind by assumption].

(** ** Migration information *)

Section info.
Context `{Features}.

Definition wire_header (i : MigtdMigrationInformation) : bytes :=
  le_bytes 8 (mig_request_id i) ++ le_bytes 1 (migration_source i) ++ le_bytes 1 (has_init_data i) ++
  mi_reserved i ++ concat (map (le_bytes 8) (target_td_uuid i)) ++ le_bytes 8 (binding_handle i) ++
  (if vmcall_raw then [] else le_bytes 8 (mig_policy_id i) ++ le_bytes 8 (communication_id i)).

(** What the VMM sends: the header, and the TDINFO_STRUCT when announced. *)
Definition wire_mig_info (i : MigtdMigrationInformation) : bytes :=
  wire_header i ++ (if has_init_data i =? 1 then init_td_info i else []).

Record fields_ok (i : MigtdMigrationInformation) : Prop := {
  f_id : in_u 64 (mig_request_id i);
  f_src : in_u 8 (migration_source i);
  f_has : in_u 8 (has_init_data i);
  f_res : length (mi_reserved i) = 6%nat;
  f_uuid : length (target_td_uuid i) = 4%nat;
  f_uuid_range : Forall (in_u 64) (target_td_uuid i);
  f_bh : in_u 64 (binding_handle i);
  f_pol : if vmcall_raw then mig_policy_id i = 0 ∧ communication_id i = 0
          else in_u 64 (mig_policy_id i) ∧ in_u 64 (communication_id i);
  f_init : if policy_v2 then length (init_td_info i) = 512%nat else init_td_info i = [] }.

(** A request as GHCI prescribes it. *)
Record info_ok (i : MigtdMigrationInformation) : Prop := {
  i_fields : fields_ok i;
  i_reserved : mi_reserved i = zeros 6;
  i_has : has_init_data i = 0 ∨ has_init_data i = 1 ∧ policy_v2 = true;
  i_absent : has_init_data i = 0 → policy_v2 = true → init_td_info i = zeros 512 }.

Lemma lenz_wire_header i : fields_ok i → lenz (wire_header i) = 56 + (if vmcall_raw then 0 else 16).
Proof.
  intros Hi. unfold wire_header. destruct (target_td_uuid i) as [|u0 [|u1 [|u2 [|u3 [|]]]]] eqn:Eu;
    pose proof (f_uuid i Hi) as Hu; rewrite Eu in Hu; try done.
  cbn [map concat]. pose proof (f_res i Hi).
  destruct vmcall_raw; unfold lenz; repeat (rewrite ?length_app, ?length_le_bytes; cbn [length]); lia.
Qed.

(** Reading the structure and writing it are inverse. *)
Lemma pread_mig_info_wire i rest : fields_ok i →
  pread_mig_info (wire_header i ++ init_td_info i ++ rest) = (Ok i, rest).
Proof.
  intros [Hid Hs Hh Hr Hu Hur Hb Hp Hini]. unfold wire_header, pread_mig_info.
  destruct i as [id src has res uuid bh pol comm init]. cbn [mig_request_id migration_source has_init_data mi_reserved
    target_td_uuid binding_handle mig_policy_id communication_id init_td_info] in *.
  destruct uuid as [|u0 [|u1 [|u2 [|u3 [|]]]]]; try done.
  apply Forall_cons_1 in Hur as [H0 Hur]. apply Forall_cons_1 in Hur as [H1 Hur].
  apply Forall_cons_1 in Hur as [H2 Hur]. apply Forall_cons_1 in Hur as [H3 _].
  cbn [map concat]. rewrite <-!app_assoc.
  do 8 gread_step. rewrite app_nil_l. gread_step.
  destruct vmcall_raw, policy_v2; rewrite <-?app_assoc; cbn [app].
  - destruct Hp as [-> ->]. rewrite !ret_bind. gread_step. done.
  - destruct Hp as [-> ->]. subst init. by rewrite !ret_bind.
  - destruct Hp as [Hp1 Hp2]. do 3 gread_step. done.
  - destruct Hp as [Hp1 Hp2]. subst init. do 2 gread_step. by rewrite ret_bind.
Qed.

Lemma Forall4 {A} (P : A → Prop) a b c d : P a → P b → P c → P d → Forall P [a; b; c; d].
Proof. intros. repeat (apply Forall_cons_2; [assumption|]). apply Forall_nil_2. Qed.

Lemma pread_mig_info_inv b i rest : bytes_ok b → pread_mig_info b = (Ok i, rest) →
  b = wire_header i ++ init_td_info i ++ rest ∧ fields_ok i.
Proof.
  intros Hb E. unfold pread_mig_info in E.
  apply M_bind_Ok_inv in E as (id & b1 & E1 & E). apply gread_inv in E1 as (-> & Hb1 & Hid); [|done]. clear Hb.
  apply M_bind_Ok_inv in E as (src & b2 & E1 & E). apply gread_inv in E1 as (-> & Hb2 & Hs); [|done]. clear Hb1.
  apply M_bind_Ok_inv in E as (has & b3 & E1 & E). apply gread_inv in E1 as (-> & Hb3 & Hh); [|done]. clear Hb2.
  apply M_bind_Ok_inv in E as (res & b4 & E1 & E). apply gread_bytes_inv in E1 as [-> Hr].
  apply Forall_app in Hb3 as [_ Hb4].
  apply M_bind_Ok_inv in E as (u0 & b5 & E1 & E). apply gread_inv in E1 as (-> & Hb5 & H0); [|done]. clear Hb4.
  apply M_bind_Ok_inv in E as (u1 & b6 & E1 & E). apply gread_inv in E1 as (-> & Hb6 & H1); [|done]. clear Hb5.
  apply M_bind_Ok_inv in E as (u2 & b7 & E1 & E). apply gread_inv in E1 as (-> & Hb7 & H2); [|done]. clear Hb6.
  apply M_bind_Ok_inv in E as (u3 & b8 & E1 & E). apply gread_inv in E1 as (-> & Hb8 & H3); [|done]. clear Hb7.
  apply M_bind_Ok_inv in E as (bh & b9 & E1 & E). apply gread_inv in E1 as (-> & Hb9 & Hbh); [|done]. clear Hb8.
  unfold wire_header. destruct vmcall_raw eqn:Er.
  - rewrite !ret_bind in E. destruct policy_v2 eqn:Ev.
    + apply M_bind_Ok_inv in E as (init & b10 & E1 & E). apply gread_bytes_inv in E1 as [-> Hi]. injection E as <- <-.
      cbn. split; [by rewrite <-!app_assoc, !app_nil_l|]. constructor; try done; [by apply Forall4|by rewrite Er|by rewrite Ev].
    + rewrite ret_bind in E. injection E as <- <-.
      cbn. split; [by rewrite <-!app_assoc, !app_nil_l|]. constructor; try done; [by apply Forall4|by rewrite Er|by rewrite Ev].
  - apply M_bind_Ok_inv in E as (pol & b10 & E1 & E). apply gread_inv in E1 as (-> & Hb10 & Hp); [|done].
    apply M_bind_Ok_inv in E as (comm & b11 & E1 & E). apply gread_inv in E1 as (-> & Hb11 & Hc); [|done].
    destruct policy_v2 eqn:Ev.
    + apply M_bind_Ok_inv in E as (init & b12 & E1 & E). apply gread_bytes_inv in E1 as [-> Hi]. injection E as <- <-.
      cbn. split; [by rewrite <-!app_assoc, ?app_nil_l|]. constructor; try done; [by apply Forall4|by rewrite Er|by rewrite Ev].
    + rewrite ret_bind in E. injection E as <- <-.
      cbn. split; [by rewrite <-!app_assoc, ?app_nil_l|]. constructor; try done; [by apply Forall4|by rewrite Er|by rewrite Ev].
Qed.

Lemma pread_Ok {A} (m : Rd A) b a : pread m b = Ok a ↔ ∃ rest, m b = (Ok a, rest).
Proof. unfold pread. destruct (m b) as [[] ?]; naive_solver. Qed.

Lemma header_size_v2 : policy_v2 = true →
  MIGTD_MIGRATION_INFO_HEADER_SIZE = 56 + (if vmcall_raw then 0 else 16) ∧
  size_of_MigtdMigrationInformation = 56 + (if vmcall_raw then 0 else 16) + 512.
Proof.
  intros E. unfold MIGTD_MIGRATION_INFO_HEADER_SIZE, size_of_MigtdMigrationInformation. rewrite E.
  unfold TD_INFO_SIZE. destruct vmcall_raw; lia.
Qed.

(** The short form padded to the full size. *)
Lemma pad_header (h : bytes) (n : Z) : lenz h + 512 = n → write_at (zeros n) 0 h = Some (h ++ zeros 512).
Proof.
  intros <-. pose proof (lenz_nonneg h). rewrite zeros_add by lia.
  rewrite <-(app_nil_l (zeros (lenz h) ++ _)). rewrite (write_at_app [] (zeros (lenz h)) (zeros 512) h 0); [done|done|].
  rewrite length_zeros. unfold lenz. lia.
Qed.

Lemma info_checks i (b : bool) :
  fields_ok i → policy_v2 = true →
  (if negb (bool_decide (mi_reserved i = zeros 6)) then Err MigrationResult.InvalidParameter
   else if 1 <? has_init_data i then Err MigrationResult.InvalidParameter
   else if negb (Bool.eqb (has_init_data i =? 1) b) then Err MigrationResult.InvalidParameter else Ok i)
  = Ok i ↔ mi_reserved i = zeros 6 ∧ has_init_data i = (if b then 1 else 0).
Proof.
  intros Hf Hv. pose proof (f_has i Hf) as Hh. unfold in_u in Hh.
  case_bool_decide; simpl; [|split; [done|by intros [? _]]].
  destruct (Z.ltb_spec 1 (has_init_data i)); [split; [done|intros [_ E]; destruct b; lia]|].
  destruct b; destruct (Z.eqb_spec (has_init_data i) 1); simpl;
    (split; [intros E; first [discriminate E|split; [done|lia]]|intros [_ E]; first [reflexivity|lia]]).
Qed.

Lemma info_checks_Ok i (b : bool) x :
  (if negb (bool_decide (mi_reserved i = zeros 6)) then Err MigrationResult.InvalidParameter
   else if 1 <? has_init_data i then Err MigrationResult.InvalidParameter
   else if negb (Bool.eqb (has_init_data i =? 1) b) then Err MigrationResult.InvalidParameter else Ok i) = Ok x →
  x = i.
Proof. destruct (negb _); [done|]. destruct (_ <? _); [done|]. destruct (negb _); [done|]. by intros [= <-]. Qed.

Lemma as_u_le (p : bytes) n : as_u 32 (lenz p) <? n = false → n <= lenz p.
Proof.
  intros E%Z.ltb_ge. pose proof (lenz_nonneg p). unfold as_u in E.
  pose proof (Z.mod_le (lenz p) (2 ^ 32) ltac:(lia) ltac:(lia)). lia.
Qed.

Lemma app_split {A} (l1 l2 k1 k2 : list A) : l1 ++ l2 = k1 ++ k2 → length l1 = length k1 → l1 = k1 ∧ l2 = k2.
Proof. intros E Hl. by apply app_inj_1. Qed.

Lemma read_v2_sound n p i : policy_v2 = true → bytes_ok p → read_mig_info_v2 n p = Ok i →
  info_ok i ∧ n = lenz (wire_mig_info i) ∧ wire_mig_info i `prefix_of` p.
Proof.
  intros Hv Hp. destruct (header_size_v2 Hv) as [Hs Hf]. unfold read_mig_info_v2.
  destruct (Z.eqb_spec n size_of_MigtdMigrationInformation) as [->|Hn].
  - rewrite andb_false_r. destruct (_ <? _) eqn:El; [done|].
    destruct (pread pread_mig_info p) as [x| |] eqn:Ex; cbn [mbind outcome_bind]; [|done..].
    apply pread_Ok in Ex as [rest Ex]. apply pread_mig_info_inv in Ex as [-> Hfx]; [|done].
    intros Hc. pose proof (info_checks_Ok _ _ _ Hc) as <-. apply info_checks in Hc as [Hr Hh]; [|done..].
    unfold wire_mig_info. rewrite Hh. cbn [Z.eqb Pos.eqb]. pose proof (f_init i Hfx) as Hi. rewrite Hv in Hi.
    split; [|split].
    + constructor; [done|done|by right|]. rewrite Hh. done.
    + rewrite lenz_app, lenz_wire_header by done. unfold lenz. rewrite Hf, Hi. lia.
    + rewrite app_assoc. by apply prefix_app_r.
  - destruct (Z.eqb_spec n MIGTD_MIGRATION_INFO_HEADER_SIZE) as [->|]; [|done]. cbn [negb andb].
    destruct (_ <? _) eqn:El; [done|]. apply as_u_le in El.
    set (k := 56 + (if vmcall_raw then 0 else 16)) in *. assert (0 < k) by (unfold k; destruct vmcall_raw; lia).
    rewrite slice_take by lia.
    assert (lenz (take (Z.to_nat MIGTD_MIGRATION_INFO_HEADER_SIZE) p) = k) as Hlen
      by (unfold lenz in *; rewrite length_take; lia).
    set (h := take _ p) in *. rewrite (pad_header h) by lia.
    destruct (pread pread_mig_info (h ++ zeros 512)) as [x| |] eqn:Ex; cbn [mbind outcome_bind]; [|done..].
    apply pread_Ok in Ex as [rest Ex]. apply pread_mig_info_inv in Ex as [Eb Hfx].
    2:{ apply Forall_app. split; [by apply Forall_take|]. unfold zeros. apply Forall_replicate. by unfold in_u. }
    intros Hc. pose proof (info_checks_Ok _ _ _ Hc) as <-. apply info_checks in Hc as [Hr Hh]; [|done..].
    pose proof (f_init i Hfx) as Hi. rewrite Hv in Hi. pose proof (lenz_wire_header i Hfx) as Hw. fold k in Hw.
    apply app_split in Eb as [Eh Ez]; [|unfold lenz in *; lia].
    assert (rest = []) as ->.
    { apply (f_equal length) in Ez. rewrite length_zeros, length_app, Hi in Ez. destruct rest; [done|simpl in Ez; lia]. }
    rewrite app_nil_r in Ez. unfold wire_mig_info. rewrite Hh. cbn [Z.eqb]. rewrite app_nil_r, <-Eh.
    split; [|split; [lia|by apply prefix_take]].
    constructor; [done|done|by left|]. by rewrite Ez.
Qed.

Lemma read_v2_complete n p i : policy_v2 = true → lenz p < 2 ^ 32 → info_ok i →
  n = lenz (wire_mig_info i) → wire_mig_info i `prefix_of` p → read_mig_info_v2 n p = Ok i.
Proof.
  intros Hv Hp32 [Hfx Hres Hhas Habs] -> [rest ->]. destruct (header_size_v2 Hv) as [Hs Hf].
  pose proof (lenz_wire_header i Hfx) as Hw. pose proof (f_init i Hfx) as Hi. rewrite Hv in Hi.
  set (k := 56 + (if vmcall_raw then 0 else 16)) in *. assert (0 < k) by (unfold k; destruct vmcall_raw; lia).
  pose proof (lenz_nonneg rest). unfold read_mig_info_v2. rewrite lenz_app in *.
  unfold as_u. rewrite Z.mod_small by (pose proof (lenz_nonneg (wire_mig_info i)); lia).
  rewrite (proj2 (Z.ltb_ge (lenz (wire_mig_info i) + lenz rest) _)) by lia.
  unfold wire_mig_info in *. destruct Hhas as [Hh|[Hh _]]; rewrite Hh in *; cbn [Z.eqb Pos.eqb] in *.
  - rewrite app_nil_r in *. rewrite Hw, Hs, Hf. rewrite Z.eqb_refl.
    destruct (Z.eqb_spec k (k + 512)); [lia|]. cbn [negb andb].
    rewrite slice_take by (rewrite lenz_app; lia).
    rewrite take_app_length' by (unfold lenz in *; lia). rewrite (pad_header (wire_header i)) by lia.
    rewrite <-(Habs eq_refl Hv).
    pose proof (pread_mig_info_wire i [] Hfx) as E. rewrite app_nil_r in E.
    rewrite (proj2 (pread_Ok _ _ _) (ex_intro _ _ E)). cbn [mbind outcome_bind].
    apply (info_checks i false); [done..|]. by rewrite Hh.
  - rewrite lenz_app, Hw, Hs, Hf. assert (lenz (init_td_info i) = 512) as -> by (unfold lenz; lia).
    rewrite Z.eqb_refl, andb_false_r. rewrite <-app_assoc.
    rewrite (proj2 (pread_Ok _ _ _) (ex_intro _ _ (pread_mig_info_wire i rest Hfx))). cbn [mbind outcome_bind].
    apply (info_checks i true); [done..|]. by rewrite Hh.
Qed.

Lemma read_v1_exact n p i : policy_v2 = false → bytes_ok p →
  read_mig_info_v1 n p = Ok i ↔ info_ok i ∧ n = lenz (wire_mig_info i) ∧ wire_mig_info i `prefix_of` p.
Proof.
  intros Hv Hp. unfold read_mig_info_v1.
  assert (size_of_MigtdMigrationInformation = 56 + (if vmcall_raw then 0 else 16)) as ->
    by (unfold size_of_MigtdMigrationInformation; rewrite Hv; destruct vmcall_raw; lia).
  split.
  - destruct (Z.eqb_spec n (56 + (if vmcall_raw then 0 else 16))) as [->|]; [|done]. cbn [negb].
    destruct (pread pread_mig_info p) as [x| |] eqn:Ex; cbn [mbind outcome_bind]; [|done..].
    apply pread_Ok in Ex as [rest Ex]. apply pread_mig_info_inv in Ex as [-> Hfx]; [|done].
    case_bool_decide as Hr; [|done]. cbn [negb]. destruct (Z.eqb_spec (has_init_data x) 0) as [Hh|]; [|done].
    intros [= <-]. pose proof (f_init x Hfx) as Hi. rewrite Hv in Hi.
    unfold wire_mig_info. rewrite Hh. cbn [Z.eqb]. rewrite app_nil_r, lenz_wire_header by done.
    split; [|split; [done|by apply prefix_app_r]]. constructor; [done|done|by left|]. by rewrite Hv.
  - intros ([Hfx Hres Hhas _] & -> & [rest ->]). destruct Hhas as [Hh|[_ Hv']]; [|congruence].
    unfold wire_mig_info in *. rewrite Hh in *. cbn [Z.eqb] in *. rewrite app_nil_r, lenz_wire_header by done.
    rewrite Z.eqb_refl. cbn [negb]. pose proof (f_init i Hfx) as Hi. rewrite Hv in Hi.
    pose proof (pread_mig_info_wire i rest Hfx) as E. rewrite Hi, app_nil_l in E.
    rewrite (proj2 (pread_Ok _ _ _) (ex_intro _ _ E)). cbn [mbind outcome_bind].
    rewrite bool_decide_eq_true_2 by done. by rewrite Hh.
Qed.

Lemma read_mig_info_iff n p i : bytes_ok p → lenz p < 2 ^ 32 →
  read_mig_info_from_bytes n p = Ok i ↔
  info_ok i ∧ n = lenz (wire_mig_info i) ∧ wire_mig_info i `prefix_of` p.
Proof.
  intros Hp Hl. unfold read_mig_info_from_bytes. destruct policy_v2 eqn:Hv; [|by apply read_v1_exact].
  split; [by apply read_v2_sound|]. intros (Hi & Hn & Hpre). by apply read_v2_complete.
Qed.

(** The parser never aborts. *)
Lemma pread_no_panic {A} (m : Rd A) b : pread m b ≠ Panic.
Proof. unfold pread. by destruct (m b) as [[] ?]. Qed.

Lemma read_mig_info_no_panic n p : read_mig_info_from_bytes n p ≠ Panic.
Proof.
  unfold read_mig_info_from_bytes. destruct policy_v2 eqn:Hv.
  - destruct (header_size_v2 Hv) as [Hs Hf]. unfold read_mig_info_v2.
    destruct (negb _ && _) eqn:En; [done|]. destruct (_ <? _) eqn:El; [done|]. apply as_u_le in El.
    match goal with |- (?m ≫= _) ≠ _ => assert (m ≠ Panic) as Hm end.
    { revert En. destruct (Z.eqb_spec n size_of_MigtdMigrationInformation); [intros _; apply pread_no_panic|].
      destruct (Z.eqb_spec n MIGTD_MIGRATION_INFO_HEADER_SIZE) as [->|]; [intros _|done].
      assert (0 < MIGTD_MIGRATION_INFO_HEADER_SIZE) by (rewrite Hs; destruct vmcall_raw; lia).
      rewrite slice_take by lia. rewrite (pad_header (take _ p)); [apply pread_no_panic|].
      unfold lenz in *. rewrite length_take. lia. }
    match goal with |- (?m ≫= _) ≠ _ => destruct m as [x| |] end; cbn [mbind outcome_bind]; [|done..].
    by repeat match goal with |- context [if ?c then _ else _] => destruct c end.
  - unfold read_mig_info_v1. destruct (negb _); [done|].
    pose proof (pread_no_panic pread_mig_info p). destruct (pread pread_mig_info p); cbn [mbind outcome_bind]; [|done..].
    by repeat match goal with |- context [if ?c then _ else _] => destruct c end.
Qed.

End info.

(** ** Command pages *)

Section command.
Context (guid : bytes) (Hguid : length guid = 16%nat).

Lemma service_command_new page : 24 <= lenz page →
  VmcallServiceCommand.new page guid = Some (VmcallServiceCommand.mk (page_of guid [] (lenz page)) 24).
Proof.
  intros Hn. unfold VmcallServiceCommand.new, VmcallServiceCommand.COMMAND_HEADER_LENGTH.
  destruct (Z.ltb_spec (lenz page) 24); [lia|]. pose proof (page_init guid Hguid _ Hn) as E.
  destruct (write_at _ 0 _) as [d1|]; [|done]. cbn in E |- *.
  destruct (write_at d1 _ _) as [d2|]; [|done]. cbn in E |- *. by rewrite E.
Qed.

Lemma service_command_write body bs n : 24 + lenz body <= n →
  let c := VmcallServiceCommand.mk (page_of guid body n) (24 + lenz body) in
  VmcallServiceCommand.write bs c =
    if n <? 24 + lenz body + lenz bs then (Err MigrationResult.InvalidParameter, c)
    else (Ok tt, VmcallServiceCommand.mk (page_of guid (body ++ bs) n) (24 + lenz (body ++ bs))).
Proof.
  intros Hn c. unfold VmcallServiceCommand.write. rewrite getS_bind. unfold c.
  cbn [VmcallServiceCommand.data VmcallServiceCommand.offset].
  rewrite (lenz_page_of guid Hguid) by lia. unfold sub_u. rewrite (proj2 (Z.leb_le _ _)) by lia.
  rewrite or_panic_bind, err_if_bind.
  destruct (Z.ltb_spec (n - (24 + lenz body)) (lenz bs)), (Z.ltb_spec n (24 + lenz body + lenz bs)); try lia; [done|].
  pose proof (page_append guid Hguid body bs n ltac:(lia)) as E.
  destruct (write_at _ (24 + lenz body) bs) as [d1|]; [|done]. cbn [mbind option_bind] in E.
  rewrite or_panic_bind. cbv zeta. rewrite E, or_panic_bind. unfold modifyS. by rewrite lenz_app, Z.add_assoc.
Qed.

End command.

(** ** The HOB list *)

Section hob.
Context `{Features} `{GuidBytes} `{HobLib}.

Lemma get_next_hob_forward hob o h o' : get_next_hob hob o = Some (h, o') → o < lenz hob ∧ o < o'.
Proof.
  unfold get_next_hob. destruct (Z.leb_spec (lenz hob) o); [done|].
  intros (x & _ & E)%bind_Some. apply bind_Some in E as (y & _ & E). apply bind_Some in E as (z & E1 & E2).
  injection E2 as _ ->. apply next_hob_forward in E1. lia.
Qed.

Lemma scan_hobs_fuel fuel hob o s :
  lenz hob - o < Z.of_nat fuel → (0 < fuel)%nat → scan_hobs fuel hob o s ≠ Err false.
Proof.
  revert o s. induction fuel as [|f IH]; intros o s Hf Hpos; [lia|]. cbn [scan_hobs].
  destruct (get_next_hob hob o) as [[h o']|] eqn:E; [|done]. apply get_next_hob_forward in E.
  destruct (scan_hob h s) as [[s'|]|]; [|done..]. apply IH; lia.
Qed.

(** The GUID of a GUID extension HOB. *)
Definition hob_name (h : bytes) : option bytes := snd <$> pread_opt pread_guid_extension h.

Definition hob_type (h : bytes) : option Z := fst <$> pread_opt pread_hob_header h.

(** The HOBs before the end of the list. *)
Fixpoint visited (fuel : nat) (hob : bytes) (o : Z) : list bytes :=
  match fuel with
  | O => []
  | S f =>
      match get_next_hob hob o with
      | Some (h, o') =>
          if bool_decide (hob_type h = Some HOB_TYPE_END_OF_HOB_LIST) then [] else h :: visited f hob o'
      | None => []
      end
  end.

(** What the scan knows about the names it has seen. *)
Record scan_inv (s : HobScan) (names : list bytes) : Prop := {
  sc_nodup : NoDup names;
  sc_known : ∀ n, n ∈ names → n = MIGRATION_INFORMATION_HOB_GUID ∨ n = STREAM_SOCKET_INFO_HOB_GUID ∨ n = MIGPOLICY_HOB_GUID;
  sc_info : mig_info_hob s = None ↔ MIGRATION_INFORMATION_HOB_GUID ∉ names;
  sc_sock : mig_socket_hob s = None → STREAM_SOCKET_INFO_HOB_GUID ∈ names →
    STREAM_SOCKET_INFO_HOB_GUID = MIGRATION_INFORMATION_HOB_GUID;
  sc_pol : policy_info_hob s = None → MIGPOLICY_HOB_GUID ∈ names →
    MIGPOLICY_HOB_GUID = MIGRATION_INFORMATION_HOB_GUID ∨ MIGPOLICY_HOB_GUID = STREAM_SOCKET_INFO_HOB_GUID }.

Lemma scan_hob_step h s s' names : scan_inv s names → scan_hob h s = Some (Some s') →
  ∃ n, hob_name h = Some n ∧ hob_type h = Some HOB_TYPE_GUID_EXTENSION ∧ scan_inv s' (names ++ [n]).
Proof.
  intros [Hnd Hk Hi Hso Hp] E. unfold scan_hob in E. apply bind_Some in E as ([t l] & Eh & E). cbn [fst snd] in E.
  destruct (Z.eqb_spec t HOB_TYPE_GUID_EXTENSION) as [->|]; [|by destruct (_ =? _)].
  apply bind_Some in E as ([l' n] & Eg & E). apply bind_Some in E as (gh & _ & E). cbn [fst snd] in E.
  exists n. unfold hob_name, hob_type. rewrite Eg, Eh. split; [done|]. split; [done|].
  assert (n ∉ names → NoDup (names ++ [n])) as Hnd'.
  { intros Hn. apply NoDup_app. split; [done|]. split; [|apply NoDup_singleton]. set_solver. }
  case_bool_decide as E1; [|case_bool_decide as E2; [|case_bool_decide as E3; [|done]]].
  - destruct (mig_info_hob s) eqn:Em; [done|]. injection E as <-. subst n.
    assert (MIGRATION_INFORMATION_HOB_GUID ∉ names) by (by apply Hi).
    split; cbn; [auto|set_solver|set_solver|set_solver|set_solver].
  - destruct (mig_socket_hob s) eqn:Em; [done|]. injection E as <-. subst n.
    split; cbn; [apply Hnd'; naive_solver|set_solver|set_solver|done|set_solver].
  - destruct (policy_info_hob s) eqn:Em; [done|]. injection E as <-. subst n.
    split; cbn; [apply Hnd'; naive_solver|set_solver|set_solver|set_solver|done].
Qed.

Lemma scan_hobs_inv fuel hob o s names s' :
  scan_inv s names → scan_hobs fuel hob o s = Ok s' →
  ∃ new, hob_name <$> visited fuel hob o = Some <$> new ∧ scan_inv s' (names ++ new).
Proof.
  revert o s names. induction fuel as [|f IH]; intros o s names Hs E; cbn [scan_hobs visited] in *; [done|].
  destruct (get_next_hob hob o) as [[h o']|] eqn:En.
  2:{ injection E as <-. exists []. by rewrite app_nil_r. }
  destruct (scan_hob h s) as [[s1|]|] eqn:Eh; [| |done].
  - destruct (scan_hob_step _ _ _ _ Hs Eh) as (n & Hn & Ht & Hs1).
    rewrite bool_decide_eq_false_2 by (rewrite Ht; intros [= E']; by apply hob_types_differ).
    destruct (IH _ _ _ Hs1 E) as (new & Hv & Hs'). exists (n :: new). cbn. rewrite Hv, Hn. split; [done|].
    by rewrite <-app_assoc in Hs'.
  - injection E as <-. exists []. rewrite app_nil_r. split; [|done].
    assert (hob_type h = Some HOB_TYPE_END_OF_HOB_LIST) as ->; [|by rewrite bool_decide_eq_true_2].
    unfold scan_hob in Eh. apply bind_Some in Eh as ([t l] & Eh & E). unfold hob_type. rewrite Eh. cbn in *.
    destruct (Z.eqb_spec t HOB_TYPE_GUID_EXTENSION).
    + apply bind_Some in E as ([l' n] & Eg & E). apply bind_Some in E as (gh & _ & E).
      by repeat (case_bool_decide || case_match).
    + by destruct (Z.eqb_spec t HOB_TYPE_END_OF_HOB_LIST) as [->|].
Qed.

Lemma scan_inv_empty : scan_inv (mkScan None None None) [].
Proof. split; cbn; [apply NoDup_nil_2|set_solver..]. Qed.

(** The migration-information HOB kept by the scan is one of the list. *)
Definition info_from (s : HobScan) (hobs : list bytes) : Prop :=
  ∀ g, mig_info_hob s = Some g →
    ∃ h, h ∈ hobs ∧ hob_name h = Some MIGRATION_INFORMATION_HOB_GUID ∧ g `prefix_of` h.

Lemma info_from_mono s l k : l ⊆ k → info_from s l → info_from s k.
Proof. intros Hlk Hs g (h & Hh & ?)%Hs. exists h. split; [by apply Hlk|done]. Qed.

Lemma slice_0_prefix {A} (l : list A) n k : slice l 0 n = Some k → k `prefix_of` l.
Proof. unfold slice. destruct (_ && _ && _); [|done]. intros [= <-]. apply prefix_take. Qed.

Lemma scan_hob_info h s s' hobs :
  info_from s hobs → scan_hob h s = Some (Some s') → info_from s' (h :: hobs).
Proof.
  intros Hs E. assert (info_from s (h :: hobs)) as Hs1 by (eapply info_from_mono; [|done]; set_solver).
  unfold scan_hob in E. apply bind_Some in E as ([t l] & _ & E).
  destruct (_ =? _); [|by destruct (_ =? _)].
  apply bind_Some in E as ([l' n] & Eg & E). apply bind_Some in E as (gh & Egh & E). cbn [fst snd] in *.
  case_bool_decide as E1; [|case_bool_decide as E2; [|case_bool_decide as E3; [|done]]].
  - destruct (mig_info_hob s) eqn:Em; [done|]. injection E as <-. intros g [= <-].
    exists h. split; [set_solver|]. unfold hob_name. rewrite Eg. subst n. split; [done|].
    by apply slice_0_prefix in Egh.
  - destruct (mig_socket_hob s) eqn:Em; [done|]. by injection E as <-.
  - destruct (policy_info_hob s) eqn:Em; [done|]. by injection E as <-.
Qed.

Lemma scan_hob_not_end h s s' : scan_hob h s = Some (Some s') → hob_type h ≠ Some HOB_TYPE_END_OF_HOB_LIST.
Proof.
  intros E Ht. unfold scan_hob in E. apply bind_Some in E as ([t l] & Eh & E).
  unfold hob_type in Ht. rewrite Eh in Ht. injection Ht as Ht. cbn [fst] in E, Ht.
  destruct (Z.eqb_spec t HOB_TYPE_GUID_EXTENSION); [by apply hob_types_differ; congruence|]. by destruct (_ =? _).
Qed.

Lemma scan_hobs_info fuel hob o s pre s' : info_from s pre → scan_hobs fuel hob o s = Ok s' →
  info_from s' (visited fuel hob o ++ pre).
Proof.
  revert o s pre. induction fuel as [|f IH]; intros o s pre Hs E; cbn [scan_hobs visited] in *; [done|].
  destruct (get_next_hob hob o) as [[h o']|] eqn:En; [|by injection E as <-].
  destruct (scan_hob h s) as [[s1|]|] eqn:Eh; [| |done].
  - pose proof (IH _ _ _ (scan_hob_info _ _ _ _ Hs Eh) E) as HI.
    case_bool_decide as Ht; [exfalso|]; [by eapply scan_hob_not_end|].
    eapply info_from_mono; [|exact HI]. set_solver.
  - injection E as <-. eapply info_from_mono; [|exact Hs]. set_solver.
Qed.

End hob.


Lemma migration_result_byte v r : MigrationResult.try_from v = Some r → v = MigrationResult.as_u8 r.
Proof. unfold MigrationResult.try_from. repeat case_match; try done; by intros [= <-]. Qed.

(** ** Claims *)

Section claims.
Context `{F : Features}.

(** The request parser accepts a buffer exactly when it starts
    with the wire form of a well-formed request of the announced length (with
    its TDINFO_STRUCT exactly when the flag says so, zero reserved bytes), and
    returns that request; everything else is an error and nothing aborts. *)
Theorem mig_info_exact n p i (Hp : bytes_ok p) (Hl : lenz p < 2 ^ 32) :
  (read_mig_info_from_bytes n p = Ok i ↔
   info_ok i ∧ n = lenz (wire_mig_info i) ∧ wire_mig_info i `prefix_of` p) ∧
  read_mig_info_from_bytes n p ≠ Panic.
Proof. split; [by apply read_mig_info_iff|apply read_mig_info_no_panic]. Qed.

End claims.

Section hob_claims.
Context `{F : Features} `{G : GuidBytes} `{L : HobLib}.

(** A request given as a HOB list is accepted only if, up to the end
    of the list, every HOB is one of the three known GUID extensions, none
    twice, with the migration information among them, and that HOB's data is
    what the request is made of.  The scan ends within one turn per byte of the
    list. *)
Theorem read_mig_info_strict hob :
  scan_hobs (S (length hob)) hob 0 (mkScan None None None) ≠ Err false ∧
  (∀ i, read_mig_info hob = Some i →
    ∃ names, hob_name <$> visited (S (length hob)) hob 0 = Some <$> names ∧ NoDup names ∧
      (∀ n, n ∈ names → n = MIGRATION_INFORMATION_HOB_GUID ∨ n = STREAM_SOCKET_INFO_HOB_GUID ∨
                        n = MIGPOLICY_HOB_GUID) ∧
      MIGRATION_INFORMATION_HOB_GUID ∈ names ∧
      ∃ h g d, h ∈ visited (S (length hob)) hob 0 ∧ hob_name h = Some MIGRATION_INFORMATION_HOB_GUID ∧
        g `prefix_of` h ∧ get_guid_data g = Some d ∧
        (if policy_v2 then read_mig_info_v2 (as_u 32 (lenz d)) d = Ok (mig_info i)
         else pread_opt pread_mig_info d = Some (mig_info i))).
Proof.
  split; [apply scan_hobs_fuel; unfold lenz; lia|]. intros i E. unfold read_mig_info in E.
  destruct (scan_hobs _ _ _ _) as [s| |] eqn:Es; [|done..].
  destruct (scan_hobs_inv _ _ _ _ _ _ scan_inv_empty Es) as (names & Hv & [Hnd Hk Hi _ _]).
  assert (info_from (mkScan None None None) []) as Hf by done.
  pose proof (scan_hobs_info _ _ _ _ _ _ Hf Es) as Hinfo. rewrite app_nil_r in Hinfo.
  unfold create_migration_information in E. apply bind_Some in E as (g & Eg & E).
  apply bind_Some in E as (d & Ed & E). apply bind_Some in E as (mi & Emi & E).
  apply bind_Some in E as (so & _ & E). injection E as <-.
  exists names. split; [done|]. split; [done|]. split; [done|]. split.
  { destruct (decide (MIGRATION_INFORMATION_HOB_GUID ∈ names)); [done|]. apply Hi in n. congruence. }
  destruct (Hinfo g Eg) as (h & Hh & Hn & Hp). exists h, g, d. repeat split; [done..|]. cbn [mig_info].
  destruct policy_v2; [|done]. destruct (read_mig_info_v2 _ d); by simplify_eq.
Qed.

End hob_claims.

(** ** Witnesses *)

Definition demo_features : Features :=
  {| vmcall_raw := true; policy_v2 := true; vsock := false; AzCVMEmu := false |}.

(** A request with id 7 for the source side, without initial TDINFO. *)
Definition demo_info : MigtdMigrationInformation :=
  mkMigInfo 7 1 0 (zeros 6) [1; 2; 3; 4] 9 0 0 (zeros 512).

Definition demo_payload : bytes := wire_mig_info (H := demo_features) demo_info ++ [1; 2; 3].

Lemma demo_info_read : read_mig_info_from_bytes (H := demo_features) 56 demo_payload = Ok demo_info.
Proof. vm_compute. reflexivity. Qed.

Lemma mig_info_exact_witness :
  read_mig_info_from_bytes (H := demo_features) 56 demo_payload = Ok demo_info ∧
  info_ok (H := demo_features) demo_info.
Proof.
  assert (bytes_ok demo_payload) as Hp
    by (apply Forall_forall; intros x Hx; vm_compute in Hx; unfold in_u; set_solver by lia).
  destruct (proj1 (mig_info_exact (F := demo_features) 56 demo_payload demo_info Hp ltac:(vm_compute; reflexivity)))
    as [Hs _]. split; [exact demo_info_read|exact (proj1 (Hs demo_info_read))].
Defined.

(** The HOB library as documented: lengths are rounded up to eight bytes, the
    data of a GUID extension follows its 24-byte header. *)
Definition demo_next (cap offset len : Z) : option Z :=
  let o := offset + (len + 7) / 8 * 8 in
  if (0 <? len) && (o <=? cap) then Some o else None.

Lemma demo_next_forward cap offset len o : demo_next cap offset len = Some o → offset < o.
Proof.
  unfold demo_next. destruct (Z.ltb_spec 0 len); [|done]. destruct (_ <=? _); [|done]. intros [= <-].
  assert (1 <= (len + 7) / 8) by (apply Z.div_le_lower_bound; lia). lia.
Qed.

Definition demo_hoblib : HobLib :=
  {| align_to_next_hob_offset := demo_next; get_guid_data := λ h, slice h 24 (lenz h);
     HOB_TYPE_GUID_EXTENSION := 4; HOB_TYPE_END_OF_HOB_LIST := 0xffff;
     hob_types_differ := ltac:(done); next_hob_forward := demo_next_forward |}.

(** One migration-information HOB and the end of the list. *)
Definition demo_hob : bytes :=
  le_bytes 2 4 ++ le_bytes 2 80 ++ zeros 4 ++ MIGRATION_INFORMATION_HOB_GUID (H := efi_guid) ++
  wire_mig_info (H := demo_features) demo_info ++ le_bytes 2 0xffff ++ le_bytes 2 8 ++ zeros 4.

Lemma demo_hob_read :
  read_mig_info (H := demo_features) (H0 := efi_guid) (H1 := demo_hoblib) demo_hob =
  Some (mkInformation demo_info None None).
Proof. vm_compute. reflexivity. Qed.

Lemma read_mig_info_strict_witness :
  read_mig_info (H := demo_features) (H0 := efi_guid) (H1 := demo_hoblib) demo_hob =
    Some (mkInformation demo_info None None) ∧
  ∃ names, hob_name <$> visited (H1 := demo_hoblib) (S (length demo_hob)) demo_hob 0 = Some <$> names ∧ NoDup names.
Proof.
  split; [exact demo_hob_read|].
  destruct (proj2 (read_mig_info_strict (F := demo_features) (G := efi_guid) (L := demo_hoblib) demo_hob) _ demo_hob_read)
    as (names & Hv & Hnd & _). exists names. exact (conj Hv Hnd).
Defined.
