(* ===== verification/PreSession.v ===== *)
(** * PreSession: the messages exchanged before a secure session

    src/migtd/src/migration/pre_session_data.rs over a byte stream that
    implements [AsyncRead] and [AsyncWrite] (src/async/async_io).  The stream is
    the class [ByteStream]; what the exchange relies on is [StreamLaws], and
    [ReliableStream] is a stream that loses nothing.  Loops that read or write
    until a buffer is done take one unit of fuel per byte of the buffer.  The heap of
    the TD is the class [Heap]: a buffer larger than it can give aborts the TD. *)
From stdpp Require Import base tactics numbers list list_numbers option gmap.
From S2P Require Import Prelude MigData.
Local Open Scope Z_scope.

(** ** The stream interface *)

(** [read] into a buffer of the given size yields the bytes stored at its start,
    [write] the number of bytes taken from the start of the buffer. *)
Class ByteStream (T : Type) := {
  read : Z → M T (aerr unit) bytes;
  write : bytes → M T (aerr unit) Z }.

(** ** The heap *)

(** The heap of the TD (lib.rs). *)
Definition HEAP_SIZE : Z := 0x700000.

Definition HELLO_PACKET_PAYLOAD_SIZE : Z := 8.

(** The largest buffer the allocator can give when the peer's data is received: what
    is left of [HEAP_SIZE], and room for a hello payload at least. *)
Class Heap := {
  heap_room : Z;
  heap_hello : HELLO_PACKET_PAYLOAD_SIZE <= heap_room;
  heap_size : heap_room <= HEAP_SIZE }.

(** [vec![0u8; n]]: without the room for it the allocation error aborts the TD. *)
Definition vec_zeroed {T} `{Heap} (n : Z) : M T (aerr MigrationResult) unit :=
  if n <=? heap_room then mret tt else panicM.

(** [map_err(|_| NetworkError)] *)
Definition network {T A} (m : M T (aerr unit) A) : M T (aerr MigrationResult) A := λ t,
  match m t with
  | (Ok a, t') => (Ok a, t')
  | (Err (Failed _), t') => (Err (Failed MigrationResult.NetworkError), t')
  | (Err Pending, t') => (Err Pending, t')
  | (Err OutOfFuel, t') => (Err OutOfFuel, t')
  | (Panic, t') => (Panic, t')
  end.

(** ** Message headers *)

Record PreSessionMessage := mkMessage { type : Z; reserved : bytes; length_ : Z }.

Definition PRE_SESSION_DATA_TYPE : Z := 1.
Definition START_SESSION_TYPE : Z := 2.
Definition HELLO_PACKET_TYPE : Z := 0xff.

Definition message_as_bytes (m : PreSessionMessage) : bytes :=
  le_bytes 1 (type m) ++ reserved m ++ le_bytes 4 (length_ m).

Definition message_read_from_bytes (bs : bytes) : option PreSessionMessage :=
  if lenz bs <? 8 then None
  else
    t ← nthz bs 0;
    r ← slice bs 1 4;
    l ← slice bs 4 8;
    Some (mkMessage t r (le_val l)).

(** ** Hello payload *)

Record HelloPacketPayload := mkHello {
  magic_word : bytes; lowest_supported_version : Z; highest_supported_version : Z }.

Definition HELLO_PACKET_MAGIC_WORD : bytes := [0x4d; 0x47; 0x54; 0x44].
Definition LOWEST_VERSION : Z := 0x0100.
Definition HIGHEST_VERSION : Z := 0x0100.

Definition hello_new : HelloPacketPayload := mkHello HELLO_PACKET_MAGIC_WORD LOWEST_VERSION HIGHEST_VERSION.

Definition hello_as_bytes (h : HelloPacketPayload) : bytes :=
  magic_word h ++ le_bytes 2 (lowest_supported_version h) ++ le_bytes 2 (highest_supported_version h).

Definition hello_read_from_bytes (bs : bytes) : option HelloPacketPayload :=
  if lenz bs <? 8 then None
  else
    m ← slice bs 0 4;
    lo ← slice bs 4 6;
    hi ← slice bs 6 8;
    if negb (bool_decide (m = HELLO_PACKET_MAGIC_WORD)) then None
    else Some (mkHello m (le_val lo) (le_val hi)).

Definition negotiate_supported_version (h : HelloPacketPayload) : option Z :=
  let low := Z.max LOWEST_VERSION (lowest_supported_version h) in
  let high := Z.min HIGHEST_VERSION (highest_supported_version h) in
  if high <? low then None else Some high.

(** ** Peer data *)

Definition encode_peer_data (policy issuer_chain : bytes) : option bytes :=
  if (2 ^ 32 <=? lenz policy) || (2 ^ 32 <=? lenz issuer_chain) then None
  else Some (le_bytes 4 (lenz policy) ++ policy ++ le_bytes 4 (lenz issuer_chain) ++ issuer_chain).

Definition decode_peer_data (data : bytes) : option (bytes * bytes) :=
  if lenz data <? 4 then None
  else
    pl ← slice data 0 4;
    let policy_len := le_val pl in
    chain_len_offset ← checked_add 64 4 policy_len;
    need ← checked_add 64 chain_len_offset 4;
    if lenz data <? need then None
    else
      policy ← slice data 4 chain_len_offset;
      cl ← slice data chain_len_offset (chain_len_offset + 4);
      let chain_len := le_val cl in
      let chain_offset := chain_len_offset + 4 in
      end_ ← checked_add 64 chain_offset chain_len;
      if negb (lenz data =? end_) then None
      else
        issuer_chain ← slice data chain_offset end_;
        Some (policy, issuer_chain).

(** ** Sending and receiving *)

Section exchange.
Context {T : Type} `{ByteStream T} {HP : Heap}.

Notation PM := (M T (aerr MigrationResult)).

Definition invalid {A} : PM A := failM (Failed MigrationResult.InvalidParameter).

(** [while sent < data.len()]; [rest] is [data[sent..]]. *)
Fixpoint send_loop (fuel : nat) (rest : bytes) : PM unit :=
  match rest with
  | [] => mret tt
  | _ =>
      match fuel with
      | O => failM OutOfFuel
      | S f => n ← network (write rest); send_loop f (drop (Z.to_nat n) rest)
      end
  end.

Definition send_pre_session_data (data : bytes) : PM unit := send_loop (length data) data.

(** [while recvd < data.len()]; [acc] is [data[..recvd]]. *)
Fixpoint receive_loop (fuel : nat) (len : Z) (acc : bytes) : PM bytes :=
  if lenz acc <? len then
    match fuel with
    | O => failM OutOfFuel
    | S f => bs ← network (read (len - lenz acc)); receive_loop f len (acc ++ bs)
    end
  else mret acc.

Definition receive_pre_session_data (len : Z) : PM bytes := receive_loop (Z.to_nat len) len [].

Definition send_pre_session_data_packet (pre_session_data : bytes) : PM unit :=
  let header := mkMessage PRE_SESSION_DATA_TYPE [0; 0; 0] (as_u 32 (lenz pre_session_data)) in
  _ ← send_pre_session_data (message_as_bytes header);
  send_pre_session_data pre_session_data.

Definition receive_header : PM PreSessionMessage :=
  header_buffer ← receive_pre_session_data 8;
  ok_or (message_read_from_bytes header_buffer) (Failed MigrationResult.InvalidParameter).

Definition receive_pre_session_data_packet : PM bytes :=
  header ← receive_header;
  _ ← err_if (negb (type header =? PRE_SESSION_DATA_TYPE)) (Failed MigrationResult.InvalidParameter);
  _ ← vec_zeroed (length_ header);
  receive_pre_session_data (length_ header).

Definition send_start_session_packet : PM unit :=
  send_pre_session_data (message_as_bytes (mkMessage START_SESSION_TYPE [0; 0; 0] 0)).

Definition receive_start_session_packet : PM unit :=
  packet ← receive_header;
  _ ← err_if (negb (type packet =? START_SESSION_TYPE)) (Failed MigrationResult.InvalidParameter);
  err_if (negb (length_ packet =? 0)) (Failed MigrationResult.InvalidParameter).

Definition send_hello_packet : PM unit :=
  _ ← send_pre_session_data (message_as_bytes (mkMessage HELLO_PACKET_TYPE [0; 0; 0] 8));
  send_pre_session_data (hello_as_bytes hello_new).

Definition receive_hello_packet : PM HelloPacketPayload :=
  header ← receive_header;
  _ ← err_if (negb (type header =? HELLO_PACKET_TYPE)) (Failed MigrationResult.InvalidParameter);
  _ ← err_if (negb (length_ header =? HELLO_PACKET_PAYLOAD_SIZE)) (Failed MigrationResult.InvalidParameter);
  _ ← vec_zeroed HELLO_PACKET_PAYLOAD_SIZE;
  hello_payload ← receive_pre_session_data HELLO_PACKET_PAYLOAD_SIZE;
  ok_or (hello_read_from_bytes hello_payload) (Failed MigrationResult.InvalidParameter).

Definition exchange_hello_packet : PM Z :=
  _ ← send_hello_packet;
  remote ← receive_hello_packet;
  ok_or (negotiate_supported_version remote) (Failed MigrationResult.InvalidParameter).

(** The configuration: the policy and its issuer chain, when present. *)
Context (get_policy get_policy_issuer_chain : option bytes).

Definition local_peer_data : option bytes :=
  policy ← get_policy;
  issuer_chain ← get_policy_issuer_chain;
  encode_peer_data policy issuer_chain.

Definition pre_session_data_exchange : PM bytes :=
  _ ← exchange_hello_packet;
  local_blob ← ok_or local_peer_data (Failed MigrationResult.InvalidParameter);
  _ ← send_pre_session_data_packet local_blob;
  peer_blob ← receive_pre_session_data_packet;
  peer ← ok_or (decode_peer_data peer_blob) (Failed MigrationResult.InvalidParameter);
  _ ← err_if ((lenz peer.1 =? 0) || (lenz peer.2 =? 0)) (Failed MigrationResult.InvalidParameter);
  _ ← send_start_session_packet;
  _ ← receive_start_session_packet;
  mret peer_blob.

End exchange.

(** ** What the exchange relies on *)

(** [sent] and [rcvd] are the bytes the stream has taken and delivered so far. *)
Class StreamLaws (T : Type) `{ByteStream T} := {
  sent : T → bytes;
  rcvd : T → bytes;
  write_law t bs r t' : write bs t = (r, t') → bs ≠ [] →
    rcvd t' = rcvd t ∧
    match r with
    | Ok n => 0 < n <= lenz bs ∧ sent t' = sent t ++ take (Z.to_nat n) bs
    | Err e => e ≠ OutOfFuel ∧ sent t' = sent t
    | Panic => False
    end;
  read_law t n r t' : read n t = (r, t') → 0 < n →
    sent t' = sent t ∧
    match r with
    | Ok bs => 0 < lenz bs <= n ∧ rcvd t' = rcvd t ++ bs
    | Err e => e ≠ OutOfFuel ∧ rcvd t' = rcvd t
    | Panic => False
    end }.

(** A stream that loses nothing: writes succeed, and reads deliver the bytes
    that have arrived and wait only when there are none. *)
Class ReliableStream (T : Type) `{StreamLaws T} := {
  arrived : T → bytes;
  write_reliable t bs : bs ≠ [] →
    ∃ n t', write bs t = (Ok n, t') ∧ arrived t' = arrived t;
  read_reliable t n : 0 < n →
    (arrived t = [] ∧ ∃ t', read n t = (Err Pending, t')) ∨
    (∃ bs rest t', arrived t = bs ++ rest ∧ read n t = (Ok bs, t') ∧ arrived t' = rest) }.

(** A stream that moves the bytes in the chunks of a schedule. *)
Record Chan := mkChan { ch_in : bytes; ch_rcvd : bytes; ch_out : bytes; ch_sizes : list Z }.

Definition chunk (c : Chan) (n : Z) : Z := Z.min n (Z.max 1 (default n (head (ch_sizes c)))).

#[global] Instance chan_stream : ByteStream Chan := {
  read n c :=
    if lenz (ch_in c) =? 0 then (Err Pending, c)
    else
      let k := Z.to_nat (chunk c n) in
      (Ok (take k (ch_in c)),
       mkChan (drop k (ch_in c)) (ch_rcvd c ++ take k (ch_in c)) (ch_out c) (tail (ch_sizes c)));
  write bs c :=
    let k := chunk c (lenz bs) in
    (Ok k, mkChan (ch_in c) (ch_rcvd c) (ch_out c ++ take (Z.to_nat k) bs) (tail (ch_sizes c))) }.
