(* ===== verification/PreSessionSpec.v ===== *)
(** * PreSessionSpec: the exchange before a session delivers the peer's data

    Over any stream that obeys [StreamLaws] an exchange that succeeds has
    received exactly one well-formed transcript of the peer and sent exactly its
    own; over reliable streams two sides always complete, each with the other's
    blob (PreSession). *)
From stdpp Require Import base tactics numbers list list_numbers option gmap.
From S2P Require Import Prelude MigData PreSession.
Local Open Scope Z_scope.

(** ** Wire forms *)

Record message_ok (m : PreSessionMessage) : Prop := {
  m_type : in_u 8 (type m); m_res : length (reserved m) = 3%nat; m_len : in_u 32 (length_ m) }.

Lemma message_as_bytes_segs m :
  message_as_bytes m = concat [le_bytes 1 (type m); reserved m; le_bytes 4 (length_ m)].
Proof. unfold message_as_bytes. cbn [concat]. by rewrite app_nil_r. Qed.

Lemma lenz_message m : message_ok m → lenz (message_as_bytes m) = 8.
Proof. intros [_ Hr _]. unfold message_as_bytes. rewrite !lenz_app, !lenz_le_bytes. unfold lenz. lia. Qed.

Lemma le_bytes_1 z : in_u 8 z → le_bytes 1 z = [z].
Proof.
  intros Hz. pose proof (le_bytes_val [z]) as E. cbn [length] in E.
  unfold le_val in E. cbn in E. rewrite Z.lor_0_r in E. apply E. by constructor.
Qed.

Lemma message_read_as_bytes m : message_ok m → message_read_from_bytes (message_as_bytes m) = Some m.
Proof.
  intros Hm. unfold message_read_from_bytes. rewrite (lenz_message m Hm). cbn [Z.ltb Z.compare Pos.compare Pos.compare_cont].
  destruct Hm as [Ht Hr Hl].
  assert (nthz (message_as_bytes m) 0 = Some (type m)) as ->
    by (unfold message_as_bytes; by rewrite le_bytes_1).
  rewrite message_as_bytes_segs. cbn [mbind option_bind].
  rd_seg 1%nat seg_len. rd_seg 2%nat seg_len.
  rewrite le_val_bytes, Z.mod_small by done. by destruct m.
Qed.

Lemma slice_join {A} (l : list A) a b c x y :
  slice l a b = Some x → slice l b c = Some y → slice l a c = Some (x ++ y).
Proof.
  intros Hx Hy. pose proof (slice_Some_len _ _ _ _ Hx). pose proof (slice_Some_len _ _ _ _ Hy).
  revert Hx Hy. unfold slice.
  destruct (_ && _ && _); [|done]. destruct (_ && _ && _); [|done]. intros [= <-] [= <-].
  rewrite !(proj2 (Z.leb_le _ _)) by lia. simpl. f_equal.
  replace (Z.to_nat (c - a)) with (Z.to_nat (b - a) + Z.to_nat (c - b))%nat by lia.
  replace (Z.to_nat b) with (Z.to_nat a + Z.to_nat (b - a))%nat at 1 by lia.
  by rewrite <-drop_drop, take_take_drop.
Qed.

Lemma slice_all {A} (l : list A) : slice l 0 (lenz l) = Some l.
Proof.
  rewrite slice_take by (pose proof (lenz_nonneg l); lia). unfold lenz. by rewrite Nat2Z.id, firstn_all.
Qed.

Lemma slice_one {A} (l : list A) x : nthz l 0 = Some x → slice l 0 1 = Some [x].
Proof. destruct l as [|y l]; [done|]. intros [= ->]. rewrite slice_take; [done|]. unfold lenz. cbn [length]. lia. Qed.

Lemma in_u_slice bs a b x n : bytes_ok bs → slice bs a b = Some x → n = 8 * (b - a) → in_u n (le_val x).
Proof.
  intros Hb Hx ->. destruct (slice_Some_len _ _ _ _ Hx) as [<- _].
  apply le_val_range. by eapply slice_bytes_ok.
Qed.

Lemma le_bytes_slice bs a b x n : bytes_ok bs → slice bs a b = Some x → Z.of_nat n = b - a → le_bytes n (le_val x) = x.
Proof.
  intros Hb Hx Hn. destruct (slice_Some_len _ _ _ _ Hx) as [Hl _].
  replace n with (length x) by (unfold lenz in Hl; lia). apply le_bytes_val. by eapply slice_bytes_ok.
Qed.

Lemma message_read_inv bs m : bytes_ok bs → lenz bs = 8 → message_read_from_bytes bs = Some m →
  bs = message_as_bytes m ∧ message_ok m.
Proof.
  intros Hb Hl. unfold message_read_from_bytes. rewrite Hl. cbn [Z.ltb Z.compare Pos.compare Pos.compare_cont].
  intros (t & Ht & E)%bind_Some. apply bind_Some in E as (r & Hr & E). apply bind_Some in E as (l & Hle & E).
  injection E as <-. pose proof (slice_one _ _ Ht) as Ht1.
  pose proof (in_u_slice _ _ _ _ 8 Hb Ht1 eq_refl) as Htr.
  assert (le_val [t] = t) as Et by (unfold le_val; cbn; apply Z.lor_0_r). rewrite Et in Htr. split.
  - pose proof (slice_join _ _ _ _ _ _ (slice_join _ _ _ _ _ _ Ht1 Hr) Hle) as Ha.
    rewrite <-Hl, slice_all in Ha. injection Ha as ->. unfold message_as_bytes. cbn [type reserved length_].
    by rewrite (le_bytes_slice _ _ _ _ 4 Hb Hle eq_refl), le_bytes_1 by done.
  - constructor; cbn; [done| |by eapply in_u_slice].
    apply slice_Some_len in Hr as [Hr _]. unfold lenz in Hr. lia.
Qed.

Record hello_ok (h : HelloPacketPayload) : Prop := {
  h_magic : magic_word h = HELLO_PACKET_MAGIC_WORD;
  h_low : in_u 16 (lowest_supported_version h);
  h_high : in_u 16 (highest_supported_version h) }.

Lemma hello_as_bytes_segs h : hello_as_bytes h =
  concat [magic_word h; le_bytes 2 (lowest_supported_version h); le_bytes 2 (highest_supported_version h)].
Proof. unfold hello_as_bytes. cbn [concat]. by rewrite app_nil_r. Qed.

Lemma lenz_hello h : hello_ok h → lenz (hello_as_bytes h) = 8.
Proof. intros [Hm _ _]. unfold hello_as_bytes. rewrite Hm, !lenz_app, !lenz_le_bytes. done. Qed.

Local Ltac hello_len := unfold HELLO_PACKET_MAGIC_WORD; seg_len.

Lemma hello_read_as_bytes h : hello_ok h → hello_read_from_bytes (hello_as_bytes h) = Some h.
Proof.
  intros Hh. unfold hello_read_from_bytes. rewrite (lenz_hello h Hh). cbn [Z.ltb Z.compare Pos.compare Pos.compare_cont].
  destruct Hh as [Hm Hlo Hhi]. rewrite hello_as_bytes_segs, Hm. cbn [mbind option_bind].
  rd_seg 0%nat hello_len. rd_seg 1%nat hello_len. rd_seg 2%nat hello_len.
  rewrite bool_decide_eq_true_2 by done. cbn [negb].
  rewrite !le_val_bytes, !Z.mod_small by done. destruct h. cbn in *. by subst.
Qed.

Lemma hello_read_inv bs h : bytes_ok bs → lenz bs = 8 → hello_read_from_bytes bs = Some h →
  bs = hello_as_bytes h ∧ hello_ok h.
Proof.
  intros Hb Hl. unfold hello_read_from_bytes. rewrite Hl. cbn [Z.ltb Z.compare Pos.compare Pos.compare_cont].
  intros (m & Hm & E)%bind_Some. apply bind_Some in E as (lo & Hlo & E). apply bind_Some in E as (hi & Hhi & E).
  case_bool_decide as Em; [|done]. injection E as <-. split.
  - pose proof (slice_join _ _ _ _ _ _ (slice_join _ _ _ _ _ _ Hm Hlo) Hhi) as Ha.
    rewrite <-Hl, slice_all in Ha. injection Ha as ->. unfold hello_as_bytes.
    cbn [magic_word lowest_supported_version highest_supported_version].
    by rewrite (le_bytes_slice _ _ _ _ 2 Hb Hhi eq_refl), (le_bytes_slice _ _ _ _ 2 Hb Hlo eq_refl), <-app_assoc.
  - constructor; cbn; [done|by eapply in_u_slice..].
Qed.

(** ** Peer data *)

Lemma decode_encode p c d : encode_peer_data p c = Some d → decode_peer_data d = Some (p, c).
Proof.
  unfold encode_peer_data. destruct (Z.leb_spec (2 ^ 32) (lenz p)) as [|Hp]; [done|].
  destruct (Z.leb_spec (2 ^ 32) (lenz c)) as [|Hc]; [done|]. intros E. apply (inj Some) in E as <-.
  pose proof (lenz_nonneg p). pose proof (lenz_nonneg c).
  set (d := _ ++ _). assert (lenz d = 8 + lenz p + lenz c) as Hd
    by (unfold d; rewrite !lenz_app, !lenz_le_bytes; lia).
  unfold decode_peer_data. rewrite Hd, (proj2 (Z.ltb_ge _ 4)) by lia.
  replace d with (concat [le_bytes 4 (lenz p); p; le_bytes 4 (lenz c); c]) by (cbn [concat]; by rewrite app_nil_r).
  rd_seg 0%nat seg_len. rewrite le_val_bytes, Z.mod_small by (cbn in *; lia).
  unfold checked_add. rewrite !(proj2 (Z.ltb_lt _ (2 ^ 64))) by lia. cbn [mbind option_bind].
  rewrite !(proj2 (Z.ltb_lt _ (2 ^ 64))) by lia. cbn [mbind option_bind].
  rewrite (proj2 (Z.ltb_ge _ _)) by lia.
  rd_seg 1%nat seg_len. rd_seg 2%nat seg_len. rewrite le_val_bytes, Z.mod_small by (cbn in *; lia).
  rewrite (proj2 (Z.ltb_lt _ (2 ^ 64))) by lia. cbn [mbind option_bind].
  rewrite (proj2 (Z.eqb_eq _ _)) by lia. cbn [negb].
  rd_seg 3%nat seg_len. done.
Qed.

Lemma decode_inv p c d : bytes_ok d → decode_peer_data d = Some (p, c) → encode_peer_data p c = Some d.
Proof.
  intros Hb. unfold decode_peer_data. destruct (Z.ltb_spec (lenz d) 4); [done|].
  intros (pl & Hpl & E)%bind_Some. apply bind_Some in E as (o & [-> _]%checked_add_Some & E).
  apply bind_Some in E as (need & [-> _]%checked_add_Some & E).
  destruct (Z.ltb_spec (lenz d) (4 + le_val pl + 4)); [done|].
  apply bind_Some in E as (q & Hq & E). apply bind_Some in E as (cl & Hcl & E).
  apply bind_Some in E as (e & [-> _]%checked_add_Some & E).
  destruct (Z.eqb_spec (lenz d) (4 + le_val pl + 4 + le_val cl)) as [He|]; [|done].
  apply bind_Some in E as (ch & Hch & E). injection E as <- <-.
  pose proof (in_u_slice _ _ _ _ 32 Hb Hpl eq_refl) as Hpr.
  pose proof (in_u_slice _ _ _ _ 32 Hb Hcl ltac:(lia)) as Hcr.
  pose proof (slice_Some_len _ _ _ _ Hq) as [Hql _]. pose proof (slice_Some_len _ _ _ _ Hch) as [Hchl _].
  unfold encode_peer_data, in_u in *. rewrite !(proj2 (Z.leb_gt _ _)) by lia. cbn [orb]. f_equal.
  pose proof (slice_join _ _ _ _ _ _ (slice_join _ _ _ _ _ _ Hpl Hq) (slice_join _ _ _ _ _ _ Hcl Hch)) as Ha.
  rewrite <-He, slice_all in Ha. apply (inj Some) in Ha. rewrite Ha.
  replace (lenz q) with (le_val pl) by lia. replace (lenz ch) with (le_val cl) by lia.
  rewrite (le_bytes_slice _ _ _ _ 4 Hb Hpl), (le_bytes_slice _ _ _ _ 4 Hb Hcl) by lia. by rewrite <-app_assoc.
Qed.

(** ** The heap *)

Lemma M_bind_Panic_inv {S E A B} (f : A → M S E B) (m : M S E A) s s' :
  (m ≫= f) s = (Panic, s') → m s = (Panic, s') ∨ ∃ a s1, m s = (Ok a, s1) ∧ f a s1 = (Panic, s').
Proof. rewrite M_bind_eq. destruct (m s) as [[] ?]; naive_solver. Qed.

Lemma vec_bind {HP : Heap} {T A} n (f : unit → M T (aerr MigrationResult) A) t :
  (vec_zeroed n ≫= f) t = if n <=? heap_room then f tt t else (Panic, t).
Proof. unfold vec_zeroed. by destruct (_ <=? _). Qed.

Lemma vec_hello_bind {HP : Heap} {T A} (f : unit → M T (aerr MigrationResult) A) t :
  (vec_zeroed HELLO_PACKET_PAYLOAD_SIZE ≫= f) t = f tt t.
Proof. rewrite vec_bind. by rewrite (proj2 (Z.leb_le _ _)) by apply heap_hello. Qed.

(** ** Any stream *)

Section laws.
Context {T : Type} `{StreamLaws T} {HP : Heap}.

(** A run returns or waits: it does not exhaust its fuel, does not abort unless
    [may_abort], and only adds to what was sent and received. *)
Definition progress {A} (may_abort : bool) (m : M T (aerr MigrationResult) A) : Prop := ∀ t r t', m t = (r, t') →
  (may_abort = false → r ≠ Panic) ∧ r ≠ Err OutOfFuel ∧ sent t `prefix_of` sent t' ∧ rcvd t `prefix_of` rcvd t'.

Lemma progress_bind {A B} ab (m : M T (aerr MigrationResult) A) (f : A → M T (aerr MigrationResult) B) :
  progress ab m → (∀ a, progress ab (f a)) → progress ab (m ≫= f).
Proof.
  intros Hm Hf t r t'. rewrite M_bind_eq. destruct (m t) as [[a|e|] t1] eqn:E; apply Hm in E as (Hp & Hn & Hs & Hr).
  - intros (Hp' & Hn' & Hs' & Hr')%Hf. split_and!; [done..|by etrans|by etrans].
  - intros [= <- <-]. split_and!; try done. by intros [= ->].
  - intros [= <- <-]. split_and!; try done. by intros ?%Hp.
Qed.

Lemma progress_ret {A} ab (a : A) : progress ab (mret a).
Proof. intros t r t' [= <- <-]. done. Qed.
Lemma progress_ok_or {A} ab (o : option A) e : progress ab (ok_or o (Failed e)).
Proof. destruct o; intros t r t' [= <- <-]; done. Qed.
Lemma progress_err_if ab c e : progress ab (err_if c (Failed e)).
Proof. destruct c; intros t r t' [= <- <-]; done. Qed.
Lemma progress_vec n : progress true (vec_zeroed n).
Proof. unfold vec_zeroed. destruct (_ <=? _); intros t r t' [= <- <-]; done. Qed.
Lemma progress_vec_hello ab : progress ab (vec_zeroed HELLO_PACKET_PAYLOAD_SIZE).
Proof.
  unfold vec_zeroed. pose proof heap_hello. rewrite (proj2 (Z.leb_le _ _)) by done. apply progress_ret.
Qed.

Lemma write_spec bs t r t' : bs ≠ [] → network (write bs) t = (r, t') →
  rcvd t' = rcvd t ∧
  match r with
  | Ok n => 0 < n <= lenz bs ∧ sent t' = sent t ++ take (Z.to_nat n) bs
  | Err e => e ≠ OutOfFuel ∧ sent t' = sent t
  | Panic => False
  end.
Proof.
  intros Hbs. unfold network. destruct (write bs t) as [r0 t0] eqn:E. apply write_law in E as [Hr Hs]; [|done].
  destruct r0 as [n|[[]| |]|]; intros [= <- <-]; try done; by destruct Hs.
Qed.

Lemma read_spec n t r t' : 0 < n → network (read n) t = (r, t') →
  sent t' = sent t ∧
  match r with
  | Ok bs => 0 < lenz bs <= n ∧ rcvd t' = rcvd t ++ bs
  | Err e => e ≠ OutOfFuel ∧ rcvd t' = rcvd t
  | Panic => False
  end.
Proof.
  intros Hn. unfold network. destruct (read n t) as [r0 t0] eqn:E. apply read_law in E as [Hr Hs]; [|done].
  destruct r0 as [bs|[[]| |]|]; intros [= <- <-]; try done; by destruct Hs.
Qed.

Lemma send_loop_spec fuel rest t r t' : (length rest <= fuel)%nat → send_loop fuel rest t = (r, t') →
  rcvd t' = rcvd t ∧ sent t `prefix_of` sent t' ∧
  match r with Ok _ => sent t' = sent t ++ rest | Err e => e ≠ OutOfFuel | Panic => False end.
Proof.
  revert rest t. induction fuel as [|f IH]; intros rest t Hf; destruct rest as [|b rest];
    [intros [= <- <-]; by rewrite app_nil_r|simpl in Hf; lia|intros [= <- <-]; by rewrite app_nil_r|].
  cbn [send_loop]. rewrite M_bind_eq. destruct (network _ t) as [r1 t1] eqn:E. apply write_spec in E as [Hr Hs]; [|done].
  destruct r1 as [n|e|]; [|intros [= <- <-]; destruct Hs as [? ->]; done|done].
  destruct Hs as [Hn Hs]. intros E%IH; [|rewrite length_drop; cbn [length] in *; lia].
  destruct E as (Hr' & Hs' & Hm). split; [congruence|]. split; [etrans; [|done]; rewrite Hs; by apply prefix_app_r|].
  destruct r; [|done..]. by rewrite Hm, Hs, <-app_assoc, take_drop.
Qed.

Lemma send_spec data t r t' : send_pre_session_data data t = (r, t') →
  rcvd t' = rcvd t ∧ sent t `prefix_of` sent t' ∧
  match r with Ok _ => sent t' = sent t ++ data | Err e => e ≠ OutOfFuel | Panic => False end.
Proof. by apply send_loop_spec. Qed.

Lemma receive_loop_spec fuel len acc t r t' : len - lenz acc <= Z.of_nat fuel → lenz acc <= Z.max 0 len →
  receive_loop fuel len acc t = (r, t') →
  sent t' = sent t ∧ rcvd t `prefix_of` rcvd t' ∧
  match r with
  | Ok bs => lenz bs = Z.max 0 len ∧ ∃ k, bs = acc ++ k ∧ rcvd t' = rcvd t ++ k
  | Err e => e ≠ OutOfFuel
  | Panic => False
  end.
Proof.
  revert acc t. induction fuel as [|f IH]; intros acc t Hf Ha; cbn [receive_loop];
    pose proof (lenz_nonneg acc); (destruct (Z.ltb_spec (lenz acc) len);
      [|intros [= <- <-]; split; [done|]; split; [done|]; split; [lia|exists []; by rewrite !app_nil_r]]); [lia|].
  rewrite M_bind_eq. destruct (network _ t) as [r1 t1] eqn:E. apply read_spec in E as [Hs Hr]; [|lia].
  destruct r1 as [bs|e|]; [|intros [= <- <-]; destruct Hr as [? ->]; done|done].
  destruct Hr as [Hbs Hr]. intros E%IH; [|rewrite lenz_app; lia..].
  destruct E as (Hs' & Hr' & Hm). split; [congruence|]. split; [etrans; [|done]; rewrite Hr; by apply prefix_app_r|].
  destruct r; [|done..]. destruct Hm as (Hl & k & -> & Hk). split; [done|]. exists (bs ++ k).
  by rewrite Hk, Hr, <-!app_assoc.
Qed.

Lemma receive_spec len t r t' : receive_pre_session_data len t = (r, t') →
  sent t' = sent t ∧ rcvd t `prefix_of` rcvd t' ∧
  match r with
  | Ok bs => lenz bs = Z.max 0 len ∧ rcvd t' = rcvd t ++ bs
  | Err e => e ≠ OutOfFuel
  | Panic => False
  end.
Proof.
  intros E. apply receive_loop_spec in E as (Hs & Hr & Hm); [|change (lenz []) with 0; lia..].
  split; [done|]. split; [done|]. destruct r; [|done..]. destruct Hm as (Hl & k & -> & Hk). done.
Qed.

Lemma progress_send ab data : progress ab (send_pre_session_data data).
Proof.
  intros t r t' (Hr & Hs & Hm)%send_spec. rewrite Hr.
  split_and!; [by intros _ ->|by intros ->|done|done].
Qed.

Lemma progress_receive ab len : progress ab (receive_pre_session_data len).
Proof.
  intros t r t' (Hs & Hr & Hm)%receive_spec. rewrite Hs.
  split_and!; [by intros _ ->|by intros ->|done|done].
Qed.

Ltac progress_auto :=
  repeat (intros; first [apply progress_send|apply progress_receive|apply progress_ok_or|apply progress_err_if|apply progress_ret
    |apply progress_vec_hello|apply progress_vec|apply progress_bind]).

Lemma progress_hello ab : progress ab exchange_hello_packet.
Proof. unfold exchange_hello_packet, send_hello_packet, receive_hello_packet, receive_header. progress_auto. Qed.

Lemma progress_exchange pol chain : progress true (pre_session_data_exchange pol chain).
Proof.
  unfold pre_session_data_exchange, exchange_hello_packet, send_hello_packet, receive_hello_packet,
    send_pre_session_data_packet, receive_pre_session_data_packet, send_start_session_packet,
    receive_start_session_packet, receive_header.
  progress_auto.
Qed.

Lemma send_Ok data t u t' : send_pre_session_data data t = (Ok u, t') →
  rcvd t' = rcvd t ∧ sent t' = sent t ++ data.
Proof. intros E%send_spec. naive_solver. Qed.

Lemma receive_Ok len t bs t' : receive_pre_session_data len t = (Ok bs, t') →
  sent t' = sent t ∧ lenz bs = Z.max 0 len ∧ rcvd t' = rcvd t ++ bs.
Proof. intros E%receive_spec. naive_solver. Qed.

Lemma receive_header_Ok t m t' : receive_header t = (Ok m, t') →
  sent t' = sent t ∧ ∃ b, lenz b = 8 ∧ rcvd t' = rcvd t ++ b ∧ message_read_from_bytes b = Some m.
Proof.
  unfold receive_header. intros (b & t1 & (Hs & Hl & Hr)%receive_Ok & E)%M_bind_Ok_inv.
  destruct (message_read_from_bytes b) as [m'|] eqn:Em; [|done]. injection E as <- <-. split; [done|]. by exists b.
Qed.

Lemma vec_Ok n (t : T) u t' : vec_zeroed n t = (Ok u, t') → n <= heap_room ∧ t' = t.
Proof. unfold vec_zeroed. destruct (Z.leb_spec n heap_room); [|done]. by intros [= _ ->]. Qed.

Lemma progress_header ab : progress ab receive_header.
Proof. unfold receive_header. progress_auto. Qed.

Lemma receive_start_Ok t u t' : receive_start_session_packet t = (Ok u, t') →
  sent t' = sent t ∧ ∃ b m, lenz b = 8 ∧ rcvd t' = rcvd t ++ b ∧ message_read_from_bytes b = Some m ∧
    type m = START_SESSION_TYPE ∧ length_ m = 0.
Proof.
  unfold receive_start_session_packet. intros (m & t1 & (Hs & b & Hb & Hr & Hm)%receive_header_Ok & E)%M_bind_Ok_inv.
  apply M_bind_Ok_inv in E as (u1 & t2 & [E1%negb_false_iff%Z.eqb_eq ->]%err_if_Ok & [E2%negb_false_iff%Z.eqb_eq ->]%err_if_Ok).
  split; [done|]. by exists b, m.
Qed.

Lemma receive_packet_Ok t blob t' : receive_pre_session_data_packet t = (Ok blob, t') →
  sent t' = sent t ∧ ∃ b m, lenz b = 8 ∧ rcvd t' = rcvd t ++ b ++ blob ∧ message_read_from_bytes b = Some m ∧
    type m = PRE_SESSION_DATA_TYPE ∧ lenz blob = Z.max 0 (length_ m) ∧ length_ m <= heap_room.
Proof.
  unfold receive_pre_session_data_packet. intros (m & t1 & (Hs & b & Hb & Hr & Hm)%receive_header_Ok & E)%M_bind_Ok_inv.
  apply M_bind_Ok_inv in E as (u1 & t2 & [E1%negb_false_iff%Z.eqb_eq ->]%err_if_Ok & E).
  apply M_bind_Ok_inv in E as (u2 & t3 & [Hroom ->]%vec_Ok & (Hs2 & Hl & Hr2)%receive_Ok).
  split; [congruence|]. exists b, m. by rewrite Hr2, Hr, <-app_assoc.
Qed.

(** The only abort: a data header that announces more than the heap can give. *)
Lemma receive_packet_Panic t t' : receive_pre_session_data_packet t = (Panic, t') →
  ∃ b m, lenz b = 8 ∧ rcvd t' = rcvd t ++ b ∧ message_read_from_bytes b = Some m ∧
    type m = PRE_SESSION_DATA_TYPE ∧ heap_room < length_ m.
Proof.
  unfold receive_pre_session_data_packet. intros [E|(m & t1 & (_ & b & Hb & Hr & Hm)%receive_header_Ok & E)]%M_bind_Panic_inv.
  { by apply (progress_header false) in E as [Hp _]; destruct (Hp eq_refl). }
  rewrite err_if_bind in E. destruct (negb _) eqn:E1; [done|]. apply negb_false_iff, Z.eqb_eq in E1.
  rewrite M_bind_eq in E. unfold vec_zeroed in E. destruct (Z.leb_spec (length_ m) heap_room).
  { by apply (progress_receive false) in E as [Hp _]; destruct (Hp eq_refl). }
  injection E as <-. by exists b, m.
Qed.

Lemma receive_hello_Ok t h t' : receive_hello_packet t = (Ok h, t') →
  sent t' = sent t ∧ ∃ b m p, lenz b = 8 ∧ lenz p = 8 ∧ rcvd t' = rcvd t ++ b ++ p ∧
    message_read_from_bytes b = Some m ∧ type m = HELLO_PACKET_TYPE ∧ length_ m = 8 ∧
    hello_read_from_bytes p = Some h.
Proof.
  unfold receive_hello_packet. intros (m & t1 & (Hs & b & Hb & Hr & Hm)%receive_header_Ok & E)%M_bind_Ok_inv.
  apply M_bind_Ok_inv in E as (u1 & t2 & [E1%negb_false_iff%Z.eqb_eq ->]%err_if_Ok & E).
  apply M_bind_Ok_inv in E as (u2 & t3 & [E2%negb_false_iff%Z.eqb_eq ->]%err_if_Ok & E).
  apply M_bind_Ok_inv in E as (u3 & t5 & [_ ->]%vec_Ok & E).
  apply M_bind_Ok_inv in E as (p & t4 & (Hs2 & Hl & Hr2)%receive_Ok & [Hh ->]%ok_or_Ok).
  split; [congruence|]. exists b, m, p. by rewrite Hr2, Hr, <-app_assoc.
Qed.

Lemma send_two_Ok d1 d2 t u t' :
  (_ ← send_pre_session_data d1; send_pre_session_data d2) t = (Ok u, t') →
  rcvd t' = rcvd t ∧ sent t' = sent t ++ d1 ++ d2.
Proof.
  intros (u1 & t1 & [Hr1 Hs1]%send_Ok & [Hr2 Hs2]%send_Ok)%M_bind_Ok_inv.
  by rewrite Hr2, Hs2, Hs1, <-app_assoc, Hr1.
Qed.

End laws.

Ltac progress_auto :=
  repeat (intros; first [apply progress_send|apply progress_receive|apply progress_ok_or|apply progress_err_if|apply progress_ret
    |apply progress_vec_hello|apply progress_vec|apply progress_bind]).

(** ** Transcripts *)

(** What a side sends: hello, its blob, the start message; [r1 r2 r3] are the
    reserved bytes, which the receiver ignores. *)
Definition hello_msg (r : bytes) (h : HelloPacketPayload) : bytes :=
  message_as_bytes (mkMessage HELLO_PACKET_TYPE r 8) ++ hello_as_bytes h.
Definition data_msg (r blob : bytes) : bytes :=
  message_as_bytes (mkMessage PRE_SESSION_DATA_TYPE r (as_u 32 (lenz blob))) ++ blob.
Definition start_msg (r : bytes) : bytes := message_as_bytes (mkMessage START_SESSION_TYPE r 0).

Definition local_transcript (blob : bytes) : bytes :=
  hello_msg [0; 0; 0] hello_new ++ data_msg [0; 0; 0] blob ++ start_msg [0; 0; 0].

(** A transcript a peer may send: any reserved bytes, any compatible versions. *)
Record peer_transcript (blob tr : bytes) : Prop := {
  pt_parts : ∃ r1 r2 r3 h, length r1 = 3%nat ∧ length r2 = 3%nat ∧ length r3 = 3%nat ∧ hello_ok h ∧
    lowest_supported_version h <= HIGHEST_VERSION ∧ LOWEST_VERSION <= highest_supported_version h ∧
    tr = hello_msg r1 h ++ data_msg r2 blob ++ start_msg r3;
  pt_len : lenz blob < 2 ^ 32;
  pt_data : ∃ policy chain, policy ≠ [] ∧ chain ≠ [] ∧ encode_peer_data policy chain = Some blob }.

Lemma message_of_fields b m ty l : bytes_ok b → lenz b = 8 → message_read_from_bytes b = Some m →
  type m = ty → length_ m = l →
  ∃ r, length r = 3%nat ∧ b = message_as_bytes (mkMessage ty r l) ∧ in_u 32 l.
Proof.
  intros Hb Hl Hm <- <-. apply message_read_inv in Hm as [-> [Ht Hr Hle]]; [|done..].
  exists (reserved m). by destruct m.
Qed.

Lemma negotiate_iff h v : negotiate_supported_version h = Some v ↔
  v = HIGHEST_VERSION ∧ lowest_supported_version h <= HIGHEST_VERSION ∧ LOWEST_VERSION <= highest_supported_version h.
Proof.
  unfold negotiate_supported_version, LOWEST_VERSION, HIGHEST_VERSION.
  destruct (Z.ltb_spec (Z.min 256 (highest_supported_version h)) (Z.max 256 (lowest_supported_version h))).
  - split; [done|lia].
  - split; [intros [= <-]; lia|intros (-> & ? & ?); f_equal; lia].
Qed.

Lemma nonempty_lenz {A} (l : list A) : (lenz l =? 0) = false ↔ l ≠ [].
Proof. rewrite Z.eqb_neq. unfold lenz. destruct l; simpl; [done|]. split; [done|lia]. Qed.

Section sound.
Context {T : Type} `{StreamLaws T} {HP : Heap} (policy chain : option bytes).

Lemma exchange_Ok t blob t' : pre_session_data_exchange policy chain t = (Ok blob, t') →
  ∃ local, local_peer_data policy chain = Some local ∧ sent t' = sent t ++ local_transcript local ∧
  ∃ new, rcvd t' = rcvd t ++ new ∧ lenz blob <= heap_room ∧ (bytes_ok new → peer_transcript blob new).
Proof.
  unfold pre_session_data_exchange, exchange_hello_packet. intros E.
  apply M_bind_Ok_inv in E as (v & t3 & E & E2).
  apply M_bind_Ok_inv in E as (u1 & t1 & [Hr1 Hs1]%send_two_Ok & E).
  apply M_bind_Ok_inv in E as (h & t2 & (Hs2 & b1 & m1 & p1 & Hb1 & Hp1 & Hr2 & Hm1 & Ht1 & Hl1 & Hh)%receive_hello_Ok
    & [[-> Hv]%negotiate_iff ->]%ok_or_Ok).
  apply M_bind_Ok_inv in E2 as (local & t4 & [El ->]%ok_or_Ok & E).
  apply M_bind_Ok_inv in E as (u2 & t5 & [Hr5 Hs5]%send_two_Ok & E).
  apply M_bind_Ok_inv in E as (blob' & t6 & (Hs6 & b2 & m2 & Hb2 & Hr6 & Hm2 & Ht2 & Hl2 & Hroom)%receive_packet_Ok & E).
  apply M_bind_Ok_inv in E as (pc & t7 & [Ed ->]%ok_or_Ok & E).
  apply M_bind_Ok_inv in E as (u3 & t8 & [[Hn1%nonempty_lenz Hn2%nonempty_lenz]%orb_false_iff ->]%err_if_Ok & E).
  apply M_bind_Ok_inv in E as (u4 & t9 & [Hr9 Hs9]%send_Ok & E).
  apply M_bind_Ok_inv in E as (u5 & t10 & (Hs10 & b3 & m3 & Hb3 & Hr10 & Hm3 & Ht3 & Hl3)%receive_start_Ok & E).
  injection E as <- <-. exists local. split; [done|]. split.
  { rewrite Hs10, Hs9, Hs6, Hs5, Hs2, Hs1. unfold local_transcript, hello_msg, data_msg, start_msg. by rewrite <-!app_assoc. }
  exists (b1 ++ p1 ++ b2 ++ blob' ++ b3). split.
  { rewrite Hr10, Hr9, Hr6, Hr5, Hr2, Hr1. by rewrite <-!app_assoc. }
  split; [pose proof heap_hello; unfold HELLO_PACKET_PAYLOAD_SIZE in *; lia|].
  intros (Ho1 & (Ho2 & (Ho3 & (Ho4 & Ho5)%Forall_app)%Forall_app)%Forall_app)%Forall_app.
  destruct (message_of_fields _ _ _ _ Ho1 Hb1 Hm1 Ht1 Hl1) as (r1 & Hr1' & -> & _).
  destruct (message_of_fields _ _ _ _ Ho3 Hb2 Hm2 Ht2 eq_refl) as (r2 & Hr2' & -> & Hin).
  destruct (message_of_fields _ _ _ _ Ho5 Hb3 Hm3 Ht3 Hl3) as (r3 & Hr3' & -> & _).
  apply hello_read_inv in Hh as [-> Hh]; [|done..]. unfold in_u in Hin.
  rewrite Z.max_r in Hl2 by lia. destruct pc as [pp cc]. apply decode_inv in Ed; [|done].
  split; [|lia|by exists pp, cc].
  exists r1, r2, r3, h. split_and!; try done; [lia..|].
  unfold hello_msg, data_msg, start_msg, as_u. rewrite Hl2, Z.mod_small by lia. by rewrite <-!app_assoc.
Qed.

Lemma exchange_Panic t t' : pre_session_data_exchange policy chain t = (Panic, t') →
  ∃ hello header m, rcvd t' = rcvd t ++ hello ++ header ∧ lenz hello = 16 ∧ lenz header = 8 ∧
    message_read_from_bytes header = Some m ∧ type m = PRE_SESSION_DATA_TYPE ∧ heap_room < length_ m.
Proof.
  unfold pre_session_data_exchange. intros [E|(v & t3 & E & E2)]%M_bind_Panic_inv.
  { by apply (progress_hello false) in E as [Hp _]; destruct (Hp eq_refl). }
  unfold exchange_hello_packet in E. apply M_bind_Ok_inv in E as (u1 & t1 & [Hr1 _]%send_two_Ok & E).
  apply M_bind_Ok_inv in E as (h & t2 & (_ & b1 & m1 & p1 & Hb1 & Hp1 & Hr2 & _)%receive_hello_Ok & [_ ->]%ok_or_Ok).
  rewrite ok_or_bind in E2. destruct (local_peer_data policy chain) as [local|]; [|done].
  apply M_bind_Panic_inv in E2 as [E|(u2 & t5 & [Hr5 _]%send_two_Ok & E)].
  { unfold send_pre_session_data_packet in E. assert (progress (T := T) false
      (_ ← send_pre_session_data (message_as_bytes (mkMessage PRE_SESSION_DATA_TYPE [0; 0; 0] (as_u 32 (lenz local)))); send_pre_session_data local)) as Hs by progress_auto.
    by apply Hs in E as [Hp _]; destruct (Hp eq_refl). }
  apply M_bind_Panic_inv in E as [(b & m & Hb & Hr & Hm & Ht & Hl)%receive_packet_Panic|(blob & t6 & _ & E)].
  { exists (b1 ++ p1), b, m. rewrite Hr, Hr5, Hr2, Hr1, lenz_app, <-!app_assoc. split_and!; try done. lia. }
  match type of E with ?m t6 = _ => assert (progress false m) as Hs end.
  { unfold send_start_session_packet, receive_start_session_packet, receive_header. progress_auto. }
  by apply Hs in E as [Hp _]; destruct (Hp eq_refl).
Qed.

End sound.

(** ** Reliable streams *)

Section reliable.
Context {T : Type} `{ReliableStream T} {HP : Heap}.

(** A step that succeeds: its result, what it sends, what it consumes. *)
Definition runs {A} (m : M T (aerr MigrationResult) A) (t : T) (a : A) (out rest : bytes) (t' : T) : Prop :=
  m t = (Ok a, t') ∧ sent t' = sent t ++ out ∧ arrived t' = rest.

Lemma send_loop_reliable fuel data t : (length data <= fuel)%nat →
  ∃ t', send_loop fuel data t = (Ok tt, t') ∧ arrived t' = arrived t.
Proof.
  revert data t. induction fuel as [|f IH]; intros [|b data] t Hf; try (by exists t); [cbn [length] in Hf; lia|].
  destruct (write_reliable t (b :: data)) as (n & t1 & E & Ha); [done|]. cbn [send_loop].
  assert (network (write (b :: data)) t = (Ok n, t1)) as En by (unfold network; by rewrite E).
  rewrite (M_bind_Ok _ _ _ _ _ En). apply write_law in E as [_ [Hn _]]; [|done].
  destruct (IH (drop (Z.to_nat n) (b :: data)) t1) as (t' & E' & Ha').
  { rewrite length_drop. cbn [length] in *. lia. }
  exists t'. split; [done|congruence].
Qed.

Lemma send_reliable data t : ∃ t', runs (send_pre_session_data data) t tt data (arrived t) t'.
Proof.
  destruct (send_loop_reliable (length data) data t) as (t' & E & Ha); [done|]. exists t'.
  pose proof (send_Ok _ _ _ _ E) as [_ Hs]. done.
Qed.

Lemma receive_loop_reliable fuel n acc m rest t :
  arrived t = m ++ rest → lenz acc + lenz m = n → (length m <= fuel)%nat →
  ∃ t', receive_loop fuel n acc t = (Ok (acc ++ m), t') ∧ arrived t' = rest.
Proof.
  revert acc m t. induction fuel as [|f IH]; intros acc m t Ha Hn Hf; cbn [receive_loop].
  - destruct m; [|cbn [length] in Hf; lia]. change (lenz (@nil Z)) with 0 in Hn.
    rewrite (proj2 (Z.ltb_ge _ _)) by lia. exists t. by rewrite app_nil_r.
  - destruct (Z.ltb_spec (lenz acc) n) as [Hlt|].
    2:{ destruct m; [exists t; by rewrite app_nil_r|]. rewrite lenz_cons in Hn. pose proof (lenz_nonneg m). lia. }
    destruct (read_reliable t (n - lenz acc)) as [[He _]|(bs & rest' & t1 & Hb & E & Ha1)]; [lia| |].
    { rewrite He in Ha. destruct m; [|done]. change (lenz (@nil Z)) with 0 in Hn. lia. }
    assert (network (read (n - lenz acc)) t = (Ok bs, t1)) as En by (unfold network; by rewrite E).
    rewrite (M_bind_Ok _ _ _ _ _ En). apply read_law in E as [_ [Hbs _]]; [|lia].
    assert (∃ m', m = bs ++ m') as [m' ->].
    { rewrite Ha in Hb. destruct (app_eq_inv _ _ _ _ Hb) as [(k & -> & _)|(k & E & _)]; [by exists k|].
      subst bs. rewrite lenz_app in Hbs. assert (lenz k = 0) as Hk by (pose proof (lenz_nonneg k); lia).
      unfold lenz in Hk. destruct k; [|simpl in Hk; lia]. exists []. by rewrite !app_nil_r. }
    rewrite Ha, <-app_assoc in Hb. apply (inj _) in Hb. subst rest'. rewrite lenz_app in Hn. rewrite length_app in Hf.
    destruct (IH (acc ++ bs) m' t1) as (t' & E' & Ha'); [done|rewrite lenz_app; lia|unfold lenz in *; lia|].
    exists t'. by rewrite E', <-app_assoc.
Qed.

Lemma receive_reliable n m rest t : arrived t = m ++ rest → lenz m = n →
  ∃ t', runs (receive_pre_session_data n) t m [] rest t'.
Proof.
  intros Ha Hn. destruct (receive_loop_reliable (Z.to_nat n) n [] m rest t) as (t' & E & Ha'); [done|done|unfold lenz in *; lia|].
  exists t'. pose proof (receive_Ok _ _ _ _ E) as [Hs _]. unfold runs. by rewrite app_nil_r.
Qed.

Lemma receive_header_reliable m rest t : arrived t = message_as_bytes m ++ rest → message_ok m →
  ∃ t', runs receive_header t m [] rest t'.
Proof.
  intros Ha Hm. destruct (receive_reliable 8 _ _ _ Ha (lenz_message m Hm)) as (t' & E & Hs).
  exists t'. split; [|done]. unfold receive_header. rewrite (M_bind_Ok _ _ _ _ _ E), message_read_as_bytes by done. done.
Qed.

Lemma receive_hello_reliable r h rest t : arrived t = hello_msg r h ++ rest → length r = 3%nat → hello_ok h →
  ∃ t', runs receive_hello_packet t h [] rest t'.
Proof.
  intros Ha Hr Hh. unfold hello_msg in Ha. rewrite <-app_assoc in Ha.
  destruct (receive_header_reliable _ _ _ Ha) as (t1 & E1 & Hs1 & Ha1); [by constructor|].
  destruct (receive_reliable 8 _ _ _ Ha1 (lenz_hello h Hh)) as (t2 & E2 & Hs2 & Ha2).
  exists t2. split; [|split; [|done]].
  - unfold receive_hello_packet. rewrite (M_bind_Ok _ _ _ _ _ E1), !err_if_bind. cbn [type length_].
    rewrite !Z.eqb_refl. cbn [negb]. rewrite vec_hello_bind, (M_bind_Ok _ _ _ _ _ E2), hello_read_as_bytes by done. done.
  - by rewrite Hs2, Hs1, !app_nil_r.
Qed.

Lemma receive_packet_reliable r blob rest t : arrived t = data_msg r blob ++ rest → length r = 3%nat →
  lenz blob < 2 ^ 32 → lenz blob <= heap_room → ∃ t', runs receive_pre_session_data_packet t blob [] rest t'.
Proof.
  intros Ha Hr Hl Hroom. unfold data_msg in Ha. rewrite <-app_assoc in Ha. pose proof (lenz_nonneg blob).
  unfold as_u in Ha. rewrite Z.mod_small in Ha by lia.
  destruct (receive_header_reliable _ _ _ Ha) as (t1 & E1 & Hs1 & Ha1); [by constructor|].
  destruct (receive_reliable _ _ _ _ Ha1 eq_refl) as (t2 & E2 & Hs2 & Ha2).
  exists t2. split; [|split; [|done]].
  - unfold receive_pre_session_data_packet. rewrite (M_bind_Ok _ _ _ _ _ E1), err_if_bind. cbn [type length_].
    rewrite Z.eqb_refl. cbn [negb]. by rewrite vec_bind, (proj2 (Z.leb_le _ _)) by done.
  - by rewrite Hs2, Hs1, !app_nil_r.
Qed.

(** A data header announces more than the heap can give. *)
Lemma receive_packet_aborts r n rest t : arrived t = message_as_bytes (mkMessage PRE_SESSION_DATA_TYPE r n) ++ rest → length r = 3%nat →
  in_u 32 n → heap_room < n → ∃ t', receive_pre_session_data_packet t = (Panic, t').
Proof.
  intros Ha Hr Hn Hl. destruct (receive_header_reliable _ _ _ Ha) as (t1 & E1 & _); [by constructor|].
  exists t1. unfold receive_pre_session_data_packet. rewrite (M_bind_Ok _ _ _ _ _ E1), err_if_bind. cbn [type length_].
  rewrite Z.eqb_refl. cbn [negb]. rewrite vec_bind. by rewrite (proj2 (Z.leb_gt _ _)) by done.
Qed.

Lemma receive_start_reliable r rest t : arrived t = start_msg r ++ rest → length r = 3%nat →
  ∃ t', runs receive_start_session_packet t tt [] rest t'.
Proof.
  intros Ha Hr. destruct (receive_header_reliable _ _ _ Ha) as (t1 & E1 & Hs1 & Ha1); [by constructor|].
  exists t1. split; [|done]. unfold receive_start_session_packet. by rewrite (M_bind_Ok _ _ _ _ _ E1).
Qed.

(** With nothing arrived every receive waits. *)
Lemma receive_header_waits t : arrived t = [] → ∃ t', receive_header t = (Err Pending, t') ∧ sent t' = sent t.
Proof.
  intros Ha. destruct (read_reliable t 8) as [[_ [t' E]]|(bs & rest & t1 & Hb & E & _)]; [lia| |].
  - exists t'. split; [|apply read_law in E as [? _]; [done|lia]].
    unfold receive_header, receive_pre_session_data. change (Z.to_nat 8) with 8%nat. cbn [receive_loop].
    change (lenz (@nil Z)) with 0. change (8 - 0) with 8. cbn [Z.ltb Z.compare].
    rewrite !M_bind_eq. unfold network at 1. by rewrite E.
  - rewrite Ha in Hb. symmetry in Hb. apply app_eq_nil in Hb as [-> _].
    apply read_law in E as [_ [Hbs _]]; [|lia]. change (lenz (@nil Z)) with 0 in Hbs. lia.
Qed.

Lemma M_bind_waits {A B} (m : M T (aerr MigrationResult) A) (f : A → M T (aerr MigrationResult) B) t t' :
  m t = (Err Pending, t') → (m ≫= f) t = (Err Pending, t').
Proof. intros E. by rewrite M_bind_eq, E. Qed.

Lemma runs_bind {A B} (m : M T (aerr MigrationResult) A) (f : A → M T (aerr MigrationResult) B) t a out rest t1 b out' rest' t' :
  runs m t a out rest t1 → runs (f a) t1 b out' rest' t' → runs (m ≫= f) t b (out ++ out') rest' t'.
Proof.
  intros (E & Hs & _) (E' & Hs' & Ha'). split; [by rewrite (M_bind_Ok _ _ _ _ _ E)|].
  split; [by rewrite Hs', Hs, app_assoc|done].
Qed.

Lemma send_two_reliable d1 d2 t :
  ∃ t', runs (_ ← send_pre_session_data d1; send_pre_session_data d2) t tt (d1 ++ d2) (arrived t) t'.
Proof.
  destruct (send_reliable d1 t) as (t1 & H1'). destruct (send_reliable d2 t1) as (t2 & H2').
  exists t2. eapply runs_bind; [done|]. destruct H1' as (_ & _ & <-). done.
Qed.

End reliable.

(** ** The exchange as a function of what has arrived *)

(** The messages of a side, in order. *)
Definition parts (r1 r2 r3 : bytes) (h : HelloPacketPayload) (blob : bytes) : list bytes :=
  [hello_msg r1 h; data_msg r2 blob; start_msg r3].

Definition local_parts (blob : bytes) : list bytes := parts [0; 0; 0] [0; 0; 0] [0; 0; 0] hello_new blob.

Section stages.
Context {T : Type} `{ReliableStream T} {HP : Heap} (policy chain : option bytes) (local : bytes).
Context (Hlocal : local_peer_data policy chain = Some local).
Context (blob p c r1 r2 r3 : bytes) (h : HelloPacketPayload).
Context (Hr1 : length r1 = 3%nat) (Hr2 : length r2 = 3%nat) (Hr3 : length r3 = 3%nat) (Hh : hello_ok h).
Context (Hlow : lowest_supported_version h <= HIGHEST_VERSION) (Hhigh : LOWEST_VERSION <= highest_supported_version h).
Context (Hblob : encode_peer_data p c = Some blob) (Hlen : lenz blob < 2 ^ 32) (Hroom : lenz blob <= heap_room) (Hp : p ≠ []) (Hc : c ≠ []).

(** With the first [k] messages of the peer at hand a side has sent its own
    first [k + 1] and waits, until the third completes the exchange. *)
Lemma exchange_stage k t : (k <= 3)%nat → arrived t = concat (take k (parts r1 r2 r3 h blob)) →
  ∃ t', pre_session_data_exchange policy chain t = (if (k <? 3)%nat then Err Pending else Ok blob, t') ∧
        sent t' = sent t ++ concat (take (S k) (local_parts local)).
Proof.
  intros Hk Ha. unfold pre_session_data_exchange, exchange_hello_packet.
  destruct (send_two_reliable (message_as_bytes (mkMessage HELLO_PACKET_TYPE [0; 0; 0] 8)) (hello_as_bytes hello_new) t)
    as (t1 & E1 & Hs1 & Ha1). fold (hello_msg [0; 0; 0] hello_new) in Hs1. rewrite Ha in Ha1.
  rewrite !M_bind_eq. unfold send_hello_packet. rewrite E1.
  destruct k as [|k].
  { destruct (receive_header_waits t1 Ha1) as (t2 & E2 & Hs2). exists t2. rewrite !M_bind_eq. unfold receive_hello_packet.
    rewrite (M_bind_waits _ _ _ _ E2). split; [done|]. rewrite Hs2, Hs1. cbn. by rewrite app_nil_r. }
  cbn [take concat parts] in Ha1.
  destruct (receive_hello_reliable _ _ _ _ Ha1 Hr1 Hh) as (t2 & E2 & Hs2 & Ha2). rewrite app_nil_r in Hs2.
  rewrite !M_bind_eq, E2. rewrite (proj2 (negotiate_iff h HIGHEST_VERSION)) by done. cbn [ok_or mret M_ret].
  rewrite Hlocal, ok_or_bind.
  destruct (send_two_reliable (message_as_bytes (mkMessage PRE_SESSION_DATA_TYPE [0; 0; 0] (as_u 32 (lenz local)))) local t2)
    as (t3 & E3 & Hs3 & Ha3). fold (data_msg [0; 0; 0] local) in Hs3. rewrite Ha2 in Ha3.
  unfold send_pre_session_data_packet. rewrite (M_bind_Ok _ _ _ _ _ E3).
  destruct k as [|k].
  { destruct (receive_header_waits t3 Ha3) as (t4 & E4 & Hs4). exists t4. unfold receive_pre_session_data_packet.
    rewrite (M_bind_waits _ _ _ _ (M_bind_waits _ _ _ _ E4)). split; [done|].
    rewrite Hs4, Hs3, Hs2, Hs1. cbn. by rewrite app_nil_r, <-app_assoc. }
  cbn [take concat] in Ha3.
  destruct (receive_packet_reliable _ _ _ _ Ha3 Hr2 Hlen Hroom) as (t4 & E4 & Hs4 & Ha4). rewrite app_nil_r in Hs4.
  rewrite (M_bind_Ok _ _ _ _ _ E4), (decode_encode _ _ _ Hblob), ok_or_bind, err_if_bind. cbn [fst snd].
  rewrite (proj2 (nonempty_lenz p) Hp), (proj2 (nonempty_lenz c) Hc). cbn [orb].
  destruct (send_reliable (start_msg [0; 0; 0]) t4) as (t5 & E5 & Hs5 & Ha5). rewrite Ha4 in Ha5.
  unfold send_start_session_packet. fold (start_msg [0; 0; 0]). rewrite (M_bind_Ok _ _ _ _ _ E5).
  destruct k as [|k].
  { destruct (receive_header_waits t5 Ha5) as (t6 & E6 & Hs6). exists t6. unfold receive_start_session_packet.
    rewrite (M_bind_waits _ _ _ _ (M_bind_waits _ _ _ _ E6)). split; [done|].
    rewrite Hs6, Hs5, Hs4, Hs3, Hs2, Hs1. cbn. by rewrite app_nil_r, <-!app_assoc. }
  assert (k = 0%nat) as -> by lia. cbn [take concat] in Ha5.
  destruct (receive_start_reliable _ _ _ Ha5 Hr3) as (t6 & E6 & Hs6 & Ha6). rewrite app_nil_r in Hs6.
  exists t6. rewrite (M_bind_Ok _ _ _ _ _ E6). split; [done|].
  rewrite Hs6, Hs5, Hs4, Hs3, Hs2, Hs1. cbn [take concat local_parts parts]. by rewrite app_nil_r, <-!app_assoc.
Qed.

End stages.

(** ** A reliable stream *)

Lemma chan_chunk_range c n : 0 < n → 0 < chunk c n <= n.
Proof. unfold chunk. lia. Qed.

Lemma chan_write_law (t : Chan) bs r t' : write bs t = (r, t') → bs ≠ [] →
  ch_rcvd t' = ch_rcvd t ∧
  match r with
  | Ok n => 0 < n <= lenz bs ∧ ch_out t' = ch_out t ++ take (Z.to_nat n) bs
  | Err e => e ≠ OutOfFuel ∧ ch_out t' = ch_out t
  | Panic => False
  end.
Proof.
  intros [= <- <-] Hbs%nonempty_lenz%Z.eqb_neq. pose proof (lenz_nonneg bs). split; [done|]. split; [|done].
  apply chan_chunk_range. lia.
Qed.

Lemma chan_read_law (t : Chan) n r t' : read n t = (r, t') → 0 < n →
  ch_out t' = ch_out t ∧
  match r with
  | Ok bs => 0 < lenz bs <= n ∧ ch_rcvd t' = ch_rcvd t ++ bs
  | Err e => e ≠ OutOfFuel ∧ ch_rcvd t' = ch_rcvd t
  | Panic => False
  end.
Proof.
  intros E Hn. cbn [read chan_stream] in E. destruct (Z.eqb_spec (lenz (ch_in t)) 0) as [|Hne]; [by injection E as <- <-|].
  injection E as <- <-. split; [done|]. split; [|done]. pose proof (chan_chunk_range t n Hn).
  unfold lenz in *. rewrite length_take. lia.
Qed.

#[global] Instance chan_laws : StreamLaws Chan :=
  {| sent := ch_out; rcvd := ch_rcvd; write_law := chan_write_law; read_law := chan_read_law |}.

Lemma chan_write_reliable (t : Chan) bs : bs ≠ [] → ∃ n t', write bs t = (Ok n, t') ∧ ch_in t' = ch_in t.
Proof. intros _. cbn. eauto. Qed.

Lemma chan_read_reliable (t : Chan) n : 0 < n →
  (ch_in t = [] ∧ ∃ t', read n t = (Err Pending, t')) ∨
  (∃ bs rest t', ch_in t = bs ++ rest ∧ read n t = (Ok bs, t') ∧ ch_in t' = rest).
Proof.
  intros Hn. cbn [read chan_stream]. destruct (Z.eqb_spec (lenz (ch_in t)) 0) as [E|].
  - left. unfold lenz in E. destruct (ch_in t); [eauto|cbn [length] in E; lia].
  - right. eexists _, _, _. split; [symmetry; apply take_drop|]. split; done.
Qed.

#[global] Instance chan_reliable : ReliableStream Chan :=
  {| arrived := ch_in; write_reliable := chan_write_reliable; read_reliable := chan_read_reliable |}.

(** ** Two sides

    Each side is a function of the bytes that have arrived; what one has sent
    after [k] rounds is what the other has received in the next.  [sizes] splits
    every read and write of every round in any way. *)

Section pair.
Context {HP : Heap} (sizes : nat → list Z) (polA chainA polB chainB : option bytes).

Definition side (pol chain : option bytes) (k : nat) (input : bytes) : outcome (aerr MigrationResult) bytes * Chan :=
  pre_session_data_exchange pol chain (mkChan input [] [] (sizes k)).

(** What A and B have received after [k] rounds. *)
Fixpoint rounds (k : nat) : bytes * bytes :=
  match k with
  | O => ([], [])
  | S j =>
      let '(ia, ib) := rounds j in
      (ch_out (side polB chainB j ib).2, ch_out (side polA chainA j ia).2)
  end.

End pair.

Section pair_lemmas.
Context {HP : Heap} (sizes : nat → list Z) (polA chainA polB chainB blobA blobB : bytes).
Context (HA : encode_peer_data polA chainA = Some blobA) (HB : encode_peer_data polB chainB = Some blobB).
Context (HlA : lenz blobA < 2 ^ 32) (HlB : lenz blobB < 2 ^ 32) (HrA : lenz blobA <= heap_room) (HrB : lenz blobB <= heap_room).
Context (HpA : polA ≠ []) (HcA : chainA ≠ []) (HpB : polB ≠ []) (HcB : chainB ≠ []).

Lemma hello_new_ok : hello_ok hello_new.
Proof. by split. Qed.

Lemma side_stage pol chain local peer pp pc k j :
  encode_peer_data pol chain = Some local → encode_peer_data pp pc = Some peer → lenz peer < 2 ^ 32 →
  lenz peer <= heap_room → pp ≠ [] → pc ≠ [] → (k <= 3)%nat →
  (side sizes (Some pol) (Some chain) j (concat (take k (local_parts peer)))).1 =
    (if (k <? 3)%nat then Err Pending else Ok peer) ∧
  ch_out (side sizes (Some pol) (Some chain) j (concat (take k (local_parts peer)))).2 =
    concat (take (S k) (local_parts local)).
Proof.
  intros Hl Hpe Hlen Hroom Hp Hc Hk.
  destruct (exchange_stage (T := Chan) (Some pol) (Some chain) local Hl peer pp pc [0; 0; 0] [0; 0; 0] [0; 0; 0] hello_new
    eq_refl eq_refl eq_refl hello_new_ok ltac:(done) ltac:(done) Hpe Hlen Hroom Hp Hc k
    (mkChan (concat (take k (local_parts peer))) [] [] (sizes j)) Hk eq_refl) as (t' & E & Hs).
  unfold side. rewrite E. done.
Qed.

Lemma rounds_stage k : (k <= 3)%nat →
  rounds sizes (Some polA) (Some chainA) (Some polB) (Some chainB) k =
  (concat (take k (local_parts blobB)), concat (take k (local_parts blobA))).
Proof.
  induction k as [|k IH]; intros Hk; [done|]. cbn [rounds]. rewrite IH by lia.
  rewrite (proj2 (side_stage _ _ _ _ _ _ k k HB HA HlA HrA HpA HcA ltac:(lia))).
  by rewrite (proj2 (side_stage _ _ _ _ _ _ k k HA HB HlB HrB HpB HcB ltac:(lia))).
Qed.

Lemma take_parts k blob : (3 <= k)%nat → take k (local_parts blob) = local_parts blob.
Proof. intros. by apply take_ge. Qed.

Lemma rounds_done k : (3 <= k)%nat →
  rounds sizes (Some polA) (Some chainA) (Some polB) (Some chainB) k =
  (concat (take 3 (local_parts blobB)), concat (take 3 (local_parts blobA))).
Proof.
  induction k as [|k IH]; intros Hk; [lia|]. destruct (decide (k = 2%nat)) as [->|]; [by apply rounds_stage|].
  cbn [rounds]. rewrite IH by lia.
  rewrite (proj2 (side_stage _ _ _ _ _ _ 3 k HB HA HlA HrA HpA HcA ltac:(lia))).
  by rewrite (proj2 (side_stage _ _ _ _ _ _ 3 k HA HB HlB HrB HpB HcB ltac:(lia))).
Qed.

End pair_lemmas.

(** ** Claims *)

(** The peer-data blob: decoding undoes encoding, and a byte
    string decodes only if it is the encoding of what it decodes to, so trailing
    bytes, short data and wrong lengths are all refused. *)
Theorem peer_data_roundtrip p c d :
  (encode_peer_data p c = Some d → decode_peer_data d = Some (p, c)) ∧
  (bytes_ok d → decode_peer_data d = Some (p, c) → encode_peer_data p c = Some d).
Proof. split; [apply decode_encode|apply decode_inv]. Qed.

Section sound_claim.
Context {T : Type} {BS : ByteStream T} {SL : StreamLaws T} {HP : Heap}.

(** C9 (safety) Over any stream, whatever the peer sends and however reads and
    writes are split: an exchange that succeeds returns the blob of exactly one
    well-formed transcript of the peer, with a common version and a non-empty
    policy and issuer chain, and has sent exactly its own transcript; otherwise
    it reports an error or waits, with one exception: it aborts, and only then, when
    the peer's hello was followed by the header of a data message that announces more
    bytes than the heap can give, for which the buffer is allocated unchecked. *)
Theorem exchange_sound policy chain t r t'
  (E : pre_session_data_exchange policy chain t = (r, t')) :
  r ≠ Err OutOfFuel ∧
  (r = Panic → ∃ hello header m, rcvd t' = rcvd t ++ hello ++ header ∧ lenz hello = 16 ∧ lenz header = 8 ∧
     message_read_from_bytes header = Some m ∧ type m = PRE_SESSION_DATA_TYPE ∧ heap_room < length_ m) ∧
  (∀ blob, r = Ok blob →
    ∃ local new, local_peer_data policy chain = Some local ∧ sent t' = sent t ++ local_transcript local ∧
      rcvd t' = rcvd t ++ new ∧ lenz blob <= heap_room ∧ (bytes_ok new → peer_transcript blob new)).
Proof.
  destruct (progress_exchange policy chain t r t' E) as (_ & Hf & _). split; [done|]. split; [intros ->; by apply (exchange_Panic policy chain)|].
  intros blob ->. destruct (exchange_Ok policy chain t blob t' E) as (local & Hl & Hs & new & Hr & Hn).
  by exists local, new.
Qed.

End sound_claim.

Section abort_claim.
Context {T : Type} `{ReliableStream T} {HP : Heap}.

(** C40 (error) A peer that is not authenticated yet can abort the TD: over a
    reliable stream a compatible hello and the eight bytes of a data header, whose
    length has 32 bits and is more than the heap can give, abort the exchange of any
    TD that has a policy and an issuer chain. *)
Theorem oversized_blob_aborts policy chain local r1 r2 h n rest t
  (Hlocal : local_peer_data policy chain = Some local)
  (Hr1 : length r1 = 3%nat) (Hh : hello_ok h)
  (Hv : lowest_supported_version h <= HIGHEST_VERSION ∧ LOWEST_VERSION <= highest_supported_version h)
  (Hr2 : length r2 = 3%nat) (Hn : in_u 32 n) (Hroom : heap_room < n)
  (Ha : arrived t = hello_msg r1 h ++ message_as_bytes (mkMessage PRE_SESSION_DATA_TYPE r2 n) ++ rest) :
  (pre_session_data_exchange policy chain t).1 = Panic.
Proof.
  unfold pre_session_data_exchange, exchange_hello_packet.
  destruct (send_two_reliable (message_as_bytes (mkMessage HELLO_PACKET_TYPE [0; 0; 0] 8)) (hello_as_bytes hello_new) t)
    as (t1 & E1 & _ & Ha1). rewrite Ha in Ha1. rewrite !M_bind_eq. unfold send_hello_packet. rewrite E1.
  destruct (receive_hello_reliable _ _ _ _ Ha1 Hr1 Hh) as (t2 & E2 & _ & Ha2).
  rewrite !M_bind_eq, E2, (proj2 (negotiate_iff h HIGHEST_VERSION)) by done. cbn [ok_or mret M_ret]. rewrite Hlocal, ok_or_bind.
  destruct (send_two_reliable (message_as_bytes (mkMessage PRE_SESSION_DATA_TYPE [0; 0; 0] (as_u 32 (lenz local)))) local t2)
    as (t3 & E3 & _ & Ha3). rewrite Ha2 in Ha3. unfold send_pre_session_data_packet. rewrite (M_bind_Ok _ _ _ _ _ E3).
  destruct (receive_packet_aborts _ _ _ _ Ha3 Hr2 Hn Hroom) as (t4 & E4). by rewrite M_bind_eq, E4.
Qed.

End abort_claim.

(** C10 (liveness) Two sides with a policy and an issuer chain that fit the heap,
    connected by reliable streams, both complete, after three rounds of messages, each with
    the other's blob, however the streams split the bytes. *)
Theorem exchange_completes {HP : Heap} sizes polA chainA polB chainB blobA blobB k
  (HA : encode_peer_data polA chainA = Some blobA) (HB : encode_peer_data polB chainB = Some blobB)
  (HlA : lenz blobA < 2 ^ 32) (HlB : lenz blobB < 2 ^ 32) (HrA : lenz blobA <= heap_room) (HrB : lenz blobB <= heap_room)
  (HpA : polA ≠ []) (HcA : chainA ≠ []) (HpB : polB ≠ []) (HcB : chainB ≠ []) (Hk : (3 <= k)%nat) :
  let io := rounds sizes (Some polA) (Some chainA) (Some polB) (Some chainB) k in
  (side sizes (Some polA) (Some chainA) k io.1).1 = Ok blobB ∧
  (side sizes (Some polB) (Some chainB) k io.2).1 = Ok blobA.
Proof.
  intros io. unfold io. rewrite (rounds_done sizes _ _ _ _ _ _ HA HB HlA HlB HrA HrB HpA HcA HpB HcB k Hk).
  split.
  - exact (proj1 (side_stage sizes _ _ _ _ _ _ 3 k HA HB HlB HrB HpB HcB ltac:(lia))).
  - exact (proj1 (side_stage sizes _ _ _ _ _ _ 3 k HB HA HlA HrA HpA HcA ltac:(lia))).
Qed.

(** A heap with half of its bytes left. *)
#[local, refine] Instance demo_heap : Heap := { heap_room := HEAP_SIZE / 2 }.
Proof. all: by vm_compute. Defined.

Definition demo_sizes (k : nat) : list Z := [3; 1; 100; 5; 2; 7; 1; 1; 4].

Definition demo_io : bytes * bytes := rounds demo_sizes (Some [1; 2]) (Some [3]) (Some [4]) (Some [5; 6; 7]) 3.

Lemma exchange_completes_witness :
  (side demo_sizes (Some [1; 2]) (Some [3]) 3 demo_io.1).1 = Ok [1; 0; 0; 0; 4; 3; 0; 0; 0; 5; 6; 7].
Proof.
  exact (proj1 (exchange_completes demo_sizes [1; 2] [3] [4] [5; 6; 7] [2; 0; 0; 0; 1; 2; 1; 0; 0; 0; 3]
    [1; 0; 0; 0; 4; 3; 0; 0; 0; 5; 6; 7] 3 ltac:(vm_compute; reflexivity) ltac:(vm_compute; reflexivity)
    ltac:(done) ltac:(done) ltac:(done) ltac:(done) ltac:(done) ltac:(done) ltac:(done) ltac:(done) ltac:(lia))).
Defined.

(** A hello and a header that announces 4 GiB. *)
Definition demo_flood : Chan :=
  mkChan (hello_msg [0; 0; 0] hello_new ++ message_as_bytes (mkMessage PRE_SESSION_DATA_TYPE [0; 0; 0] (u_max 32))) [] [] [].

Lemma oversized_blob_aborts_witness : (pre_session_data_exchange (Some [1; 2]) (Some [3]) demo_flood).1 = Panic.
Proof.
  exact (oversized_blob_aborts (T := Chan) (Some [1; 2]) (Some [3]) [2; 0; 0; 0; 1; 2; 1; 0; 0; 0; 3] [0; 0; 0] [0; 0; 0] hello_new (u_max 32) [] demo_flood
    ltac:(vm_compute; reflexivity) eq_refl hello_new_ok ltac:(done) eq_refl ltac:(done) ltac:(done) ltac:(vm_compute; reflexivity)).
Defined.

Definition demo_in : bytes := Eval vm_compute in demo_io.1.

Definition demo_end : Chan := Eval vm_compute in (side demo_sizes (Some [1; 2]) (Some [3]) 3 demo_in).2.

Lemma demo_exchange :
  pre_session_data_exchange (Some [1; 2]) (Some [3]) (mkChan demo_in [] [] (demo_sizes 3)) =
  (Ok [1; 0; 0; 0; 4; 3; 0; 0; 0; 5; 6; 7], demo_end).
Proof. vm_compute. reflexivity. Qed.

Lemma demo_in_ok : bytes_ok demo_in.
Proof. apply (bool_decide_unpack _). vm_compute. exact I. Qed.

Lemma exchange_sound_witness : peer_transcript [1; 0; 0; 0; 4; 3; 0; 0; 0; 5; 6; 7] demo_in.
Proof.
  destruct (proj2 (proj2 (exchange_sound (T := Chan) _ _ _ _ _ demo_exchange)) _ eq_refl)
    as (local & new & _ & _ & Hr & _ & Hn).
  cbn in Hr. subst new. exact (Hn demo_in_ok).
Defined.
