(* ===== verification/Session.v ===== *)
(** * Session: requests from the VMM and reports to it

    src/migtd/src/migration/session.rs: waiting for a request and reporting its
    status, over raw TDVMCALLs (feature [vmcall-raw]) and over the service call
    (without it and without [vmcall-interrupt]).  The VMM is a script: the
    answers of the shared-memory allocator, the results of the TDVMCALLs and
    what each copy of a shared buffer contains; everything it is told is
    recorded. *)
From stdpp Require Import base tactics numbers list list_numbers option gmap.
From S2P Require Import Prelude MigData.
Local Open Scope Z_scope.

(** [core::task::Poll] *)
Inductive Poll (A : Type) := Ready (a : A) | Waiting.
Arguments Ready {A} a.
Arguments Waiting {A}.

Inductive WaitForRequestResponse :=
  | StartMigration (i : MigrationInformation)
  | StartRebinding (i : MigtdMigrationInformation)
  | GetTdReport (i : ReportInfo)
  | EnableLogArea (i : EnableLogAreaInfo)
  | GetMigtdData (i : ReportInfo).

Definition request_id_of (w : WaitForRequestResponse) : Z :=
  match w with
  | StartMigration i => mig_request_id (mig_info i)
  | StartRebinding i => mig_request_id i
  | GetTdReport i => ri_mig_request_id i
  | EnableLogArea i => la_mig_request_id i
  | GetMigtdData i => ri_mig_request_id i
  end.

Record RequestDataBufferHeader := mkReqHeader { datastatus : Z; req_length : Z }.

Definition req_header_as_bytes (h : RequestDataBufferHeader) : bytes :=
  le_bytes 8 (datastatus h) ++ le_bytes 4 (req_length h).

Definition REQ_HEADER_LEN : Z := 12.
Definition VMM_SUCCESS : Z := 1.
Definition SESSION_PAGE_SIZE : Z := 0x1000.

(** ** Parsing a request *)

Definition process_buffer (buffer : bytes) : RequestDataBufferHeader :=
  if lenz buffer <? REQ_HEADER_LEN then mkReqHeader 0 0
  else mkReqHeader (le_val (take 8 buffer)) (le_val (take 4 (drop 8 buffer))).

(** The requests being processed, and the error to report for the one parsed. *)
Record ReqState := mkReqState {
  REQUESTS : gset Z;
  pending_error_report : option (Z * MigrationResult) }.

Notation Req := (λ A, ReqState → A * ReqState).

Definition try_accept_request (mig_request_id : Z) (response : WaitForRequestResponse) :
  Req (Poll (outcome MigrationResult WaitForRequestResponse)) := λ s,
  if bool_decide (mig_request_id ∈ REQUESTS s) then (Waiting, s)
  else (Ready (Ok response), mkReqState ({[mig_request_id]} ∪ REQUESTS s) (pending_error_report s)).

Definition get_request_payload (data_buffer : bytes) (reqbufferhdrlen data_length : Z) : outcome MigrationResult bytes :=
  match checked_add 64 reqbufferhdrlen data_length with
  | None => Err MigrationResult.InvalidParameter
  | Some e =>
      match slice data_buffer reqbufferhdrlen e with
      | Some s => Ok s
      | None => Err MigrationResult.InvalidParameter
      end
  end.

Definition read_request_id (data_buffer : bytes) (reqbufferhdrlen : Z) : option Z :=
  e ← checked_add 64 reqbufferhdrlen 8;
  bs ← slice data_buffer reqbufferhdrlen e;
  Some (le_val bs).

Definition reject_request (request_id : option Z) (status : MigrationResult) :
  Req (Poll (outcome MigrationResult WaitForRequestResponse)) := λ s,
  (Ready (Err status),
   mkReqState (REQUESTS s)
     (match request_id with Some id => Some (id, status) | None => pending_error_report s end)).

(** [decode_and_dispatch!] *)
Definition decode_and_dispatch {A} (request_id : option Z) (decoded : outcome MigrationResult A)
  (id_of : A → Z) (response : A → WaitForRequestResponse) :
  Req (Poll (outcome MigrationResult WaitForRequestResponse)) := λ s,
  match decoded with
  | Ok info => try_accept_request (id_of info) (response info) s
  | Err status => reject_request request_id status s
  | Panic => (Ready Panic, s)
  end.

Section raw.
Context `{Features}.

Definition parse_request (data_buffer : bytes) (reqbufferhdrlen : Z) :
  Req (Poll (outcome MigrationResult WaitForRequestResponse)) := λ s,
  let reqbufferhdr := process_buffer data_buffer in
  let data_status := datastatus reqbufferhdr in
  let data_length := req_length reqbufferhdr in
  if (data_status =? 0) && (data_length =? 0) then (Waiting, s)
  else
    let request_id := read_request_id data_buffer reqbufferhdrlen in
    if negb (as_u 8 data_status =? VMM_SUCCESS) then reject_request request_id MigrationResult.VmmInternalError s
    else
      match DataStatusOperation.try_from (as_u 8 (Z.shiftr data_status 8)) with
      | None => reject_request request_id MigrationResult.UnsupportedOperationError s
      | Some op =>
          match get_request_payload data_buffer reqbufferhdrlen data_length with
          | Err status => reject_request request_id status s
          | Panic => (Ready Panic, s)
          | Ok slice =>
              match op with
              | DataStatusOperation.StartMigration =>
                  decode_and_dispatch request_id (read_mig_info_from_bytes data_length slice) mig_request_id
                    (λ i, StartMigration (mkInformation i None None)) s
              | DataStatusOperation.StartRebinding =>
                  if vmcall_raw && policy_v2 then
                    decode_and_dispatch request_id (read_mig_info_from_bytes data_length slice) mig_request_id
                      StartRebinding s
                  else reject_request request_id MigrationResult.UnsupportedOperationError s
              | DataStatusOperation.GetTDReport =>
                  if AzCVMEmu then
                    decode_and_dispatch request_id (read_report_info data_length slice) ri_mig_request_id GetTdReport s
                  else reject_request request_id MigrationResult.UnsupportedOperationError s
              | DataStatusOperation.EnableLogArea =>
                  decode_and_dispatch request_id (read_log_area data_length slice) la_mig_request_id EnableLogArea s
              | DataStatusOperation.GetMigtdData =>
                  if vmcall_raw && policy_v2 then
                    decode_and_dispatch request_id (read_report_info data_length slice) ri_mig_request_id GetMigtdData s
                  else reject_request request_id MigrationResult.UnsupportedOperationError s
              end
          end
      end.

End raw.

(** ** The VMM *)

(** One poll of a wait: whether the interrupt flag is up, and the private copy
    of the shared buffer ([None] when it cannot be allocated). *)
Record WaitPoll := mkWaitPoll { wp_flag : bool; wp_copy : option bytes }.

(** One service call: whether it succeeds and the private copy of the response. *)
Record ServiceCall := mkService { sc_ok : bool; sc_copy : option bytes }.

Record Vmm := mkVmm {
  requests : gset Z;              (** [REQUESTS] *)
  vm_allocs : list bool;          (** answers of [SharedMemory::new] *)
  vm_calls : list bool;           (** results of the raw TDVMCALLs *)
  vm_waits : list WaitPoll;
  vm_report_polls : list bytes;   (** the shared buffer at each poll of a report *)
  vm_services : list ServiceCall;
  vm_reports : list (Z * Z * bytes);  (** request id, status word, buffer *)
  vm_commands : list bytes }.     (** command pages *)

Notation SM := (M Vmm (aerr MigrationResult)).

Definition sfail {A} (e : MigrationResult) : SM A := failM (Failed e).

Definition set_requests (r : gset Z) (v : Vmm) : Vmm :=
  mkVmm r (vm_allocs v) (vm_calls v) (vm_waits v) (vm_report_polls v) (vm_services v) (vm_reports v) (vm_commands v).

(** [SharedMemory::new(pages).ok_or(OutOfResource)?]: a zeroed buffer. *)
Definition shared_memory (pages : Z) : SM bytes :=
  v ← getS;
  match vm_allocs v with
  | true :: l =>
      _ ← modifyS (λ v, mkVmm (requests v) l (vm_calls v) (vm_waits v) (vm_report_polls v) (vm_services v) (vm_reports v) (vm_commands v));
      mret (zeros (pages * SESSION_PAGE_SIZE))
  | false :: l =>
      _ ← modifyS (λ v, mkVmm (requests v) l (vm_calls v) (vm_waits v) (vm_report_polls v) (vm_services v) (vm_reports v) (vm_commands v));
      sfail MigrationResult.OutOfResource
  | [] => sfail MigrationResult.OutOfResource
  end.

(** A raw TDVMCALL; its failure becomes [InvalidParameter]. *)
Definition tdvmcall : SM unit :=
  v ← getS;
  match vm_calls v with
  | b :: l =>
      _ ← modifyS (λ v, mkVmm (requests v) (vm_allocs v) l (vm_waits v) (vm_report_polls v) (vm_services v) (vm_reports v) (vm_commands v));
      err_if (negb b) (Failed MigrationResult.InvalidParameter)
  | [] => sfail MigrationResult.InvalidParameter
  end.

(** ** Raw: reporting *)

(** [ReportStatusResponse]: status in bits 7:0, error code in bits 15:8. *)
Definition report_status_word (pre_migration_status error_code : Z) : Z :=
  Z.lor pre_migration_status (Z.shiftl error_code 8).

(** The polls after a report: the shared header's first byte announces success. *)
Fixpoint report_poll (polls : list bytes) (size : Z) : SM unit :=
  match polls with
  | [] => failM Pending
  | b :: l =>
      _ ← modifyS (λ v, mkVmm (requests v) (vm_allocs v) (vm_calls v) (vm_waits v) l (vm_services v) (vm_reports v) (vm_commands v));
      if as_u 8 (datastatus (process_buffer (fit size b))) =? VMM_SUCCESS then mret tt else report_poll l size
  end.

Definition report_status (status request_id : Z) (data : bytes) : SM unit :=
  let shared_page_nums := (REQ_HEADER_LEN + lenz data + SESSION_PAGE_SIZE - 1) / SESSION_PAGE_SIZE in
  data_buffer ← shared_memory shared_page_nums;
  value ← ok_or (MigrationResult.try_from status) (Failed MigrationResult.InvalidParameter);
  let reportstatus := if decide (value = MigrationResult.Success) then report_status_word 0 0 else report_status_word 1 status in
  let reqbufferhdr := mkReqHeader 0 (if 0 <? lenz data then as_u 32 (lenz data) else 0) in
  d ← or_panic (write_at data_buffer 0 (req_header_as_bytes reqbufferhdr));
  d ← or_panic (if 0 <? lenz data then write_at d REQ_HEADER_LEN data else Some d);
  _ ← modifyS (λ v, mkVmm (requests v) (vm_allocs v) (vm_calls v) (vm_waits v) (vm_report_polls v) (vm_services v)
        (vm_reports v ++ [(request_id, reportstatus, d)]) (vm_commands v));
  _ ← tdvmcall;
  v ← getS;
  report_poll (vm_report_polls v) (lenz d).

(** ** Raw: waiting *)

Section wait.
Context `{Features} (policy event_log : option bytes).

Definition calculate_shared_page_nums (reqbufferhdrlen : Z) : outcome MigrationResult Z :=
  match policy, event_log with
  | Some p, Some e =>
      let total_size := reqbufferhdrlen + TD_INFO_SIZE + lenz p + lenz e + 1024 in
      Ok ((total_size + SESSION_PAGE_SIZE - 1) / SESSION_PAGE_SIZE)
  | _, _ => Err MigrationResult.InvalidParameter
  end.

(** The polls of a wait: the result, and the error to report. *)
Fixpoint wait_poll (polls : list WaitPoll) (size : Z) (report : option (Z * MigrationResult)) :
  SM (outcome MigrationResult WaitForRequestResponse * option (Z * MigrationResult)) :=
  match polls with
  | [] => failM Pending
  | p :: l =>
      _ ← modifyS (λ v, mkVmm (requests v) (vm_allocs v) (vm_calls v) l (vm_report_polls v) (vm_services v) (vm_reports v) (vm_commands v));
      if negb (wp_flag p) then wait_poll l size report
      else
        match wp_copy p with
        | None => mret (Err MigrationResult.OutOfResource, report)
        | Some b =>
            v ← getS;
            let '(r, s') := parse_request (fit size b) REQ_HEADER_LEN (mkReqState (requests v) report) in
            _ ← modifyS (set_requests (REQUESTS s'));
            match r with
            | Waiting => wait_poll l size (pending_error_report s')
            | Ready res => mret (res, pending_error_report s')
            end
        end
  end.

(** [report_status(...)] whose error is only logged. *)
Definition report_wait_for_request_error (request_id : Z) (status : MigrationResult) : SM unit := λ v,
  match report_status (MigrationResult.as_u8 status) request_id [] v with
  | (Err (Failed _), v') => (Ok tt, v')
  | r => r
  end.

Definition wait_for_request : SM WaitForRequestResponse :=
  shared_page_nums ← liftO (match calculate_shared_page_nums REQ_HEADER_LEN with
                            | Ok n => Ok n | Err e => Err (Failed e) | Panic => Panic end);
  data_buffer ← shared_memory shared_page_nums;
  d ← or_panic (write_at data_buffer 0 (req_header_as_bytes (mkReqHeader 0 0)));
  _ ← tdvmcall;
  v ← getS;
  r ← wait_poll (vm_waits v) (lenz d) None;
  match r.1 with
  | Ok w => mret w
  | Err status =>
      _ ← (match r.2 with Some (id, st) => report_wait_for_request_error id st | None => mret tt end);
      sfail status
  | Panic => panicM
  end.

End wait.

(** ** Service call: query, wait, report, shutdown *)

Section service.
Context `{Features} `{GuidBytes} `{HobLib}.

Definition QUERY_COMMAND : Z := 0.
Definition MIG_COMMAND_SHUT_DOWN : Z := 0.
Definition MIG_COMMAND_WAIT : Z := 1.
Definition MIG_COMMAND_REPORT_STATUS : Z := 2.

(** A [write] on a command page, with its error as the caller's. *)
Definition cmd_write (c : VmcallServiceCommand.t) (bs : bytes) : SM VmcallServiceCommand.t := λ v,
  match VmcallServiceCommand.write bs c with
  | (Ok _, c') => (Ok c', v)
  | (Err e, _) => (Err (Failed e), v)
  | (Panic, _) => (Panic, v)
  end.

Definition cmd_new (page guid : bytes) : SM VmcallServiceCommand.t :=
  ok_or (VmcallServiceCommand.new page guid) (Failed MigrationResult.InvalidParameter).

(** [tdvmcall_service] and the copy of the response it leaves. *)
Definition tdvmcall_service (cmd rsp : bytes) : SM (option bytes) :=
  v ← getS;
  _ ← modifyS (λ v, mkVmm (requests v) (vm_allocs v) (vm_calls v) (vm_waits v) (vm_report_polls v) (tail (vm_services v))
        (vm_reports v) (vm_commands v ++ [cmd]));
  match vm_services v with
  | c :: _ =>
      _ ← err_if (negb (sc_ok c)) (Failed MigrationResult.InvalidParameter);
      mret (fit (lenz rsp) <$> sc_copy c)
  | [] => failM Pending
  end.

(** [copy_to_private_shadow], [try_read], the GUID check and [read_data]. *)
Definition read_response (copy : option bytes) (guid : bytes) (size : Z) : SM (bytes * bytes) :=
  private_mem ← ok_or copy (Failed MigrationResult.OutOfResource);
  rsp ← ok_or (VmcallServiceResponse.try_read private_mem) (Failed MigrationResult.InvalidParameter);
  g ← or_panic (VmcallServiceResponse.read_guid rsp);
  _ ← err_if (negb (bool_decide (g = guid))) (Failed MigrationResult.InvalidParameter);
  d ← ok_or (VmcallServiceResponse.read_data rsp 0 size) (Failed MigrationResult.InvalidParameter);
  mret (private_mem, d).

Definition query : SM unit :=
  cmd_mem ← shared_memory 1;
  rsp_mem ← shared_memory 1;
  cmd ← cmd_new cmd_mem VMCALL_SERVICE_COMMON_GUID;
  cmd ← cmd_write cmd [0; QUERY_COMMAND; 0; 0];
  cmd ← cmd_write cmd SERVICE_MIGTD_GUID;
  rsp ← ok_or (VmcallServiceResponse.new rsp_mem VMCALL_SERVICE_COMMON_GUID) (Failed MigrationResult.InvalidParameter);
  copy ← tdvmcall_service (VmcallServiceCommand.data cmd) rsp;
  r ← read_response copy VMCALL_SERVICE_COMMON_GUID 20;
  command ← or_panic (nthz r.2 1);
  status ← or_panic (nthz r.2 2);
  _ ← err_if (negb (command =? QUERY_COMMAND) || negb (bool_decide (drop 4 r.2 = SERVICE_MIGTD_GUID)))
        (Failed MigrationResult.InvalidParameter);
  err_if (negb (status =? 0)) (Failed MigrationResult.Unsupported).

(** One poll of the wait: [None] waits. *)
Definition service_wait_poll (cmd rsp : bytes) : SM (option MigrationInformation) :=
  copy ← tdvmcall_service cmd rsp;
  r ← read_response copy SERVICE_MIGTD_GUID 4;
  command ← or_panic (nthz r.2 1);
  operation ← or_panic (nthz r.2 2);
  _ ← err_if (negb (command =? MIG_COMMAND_WAIT)) (Failed MigrationResult.InvalidParameter);
  if operation =? 1 then
    hob ← or_panic (slice r.1 28 (lenz r.1));
    mig_info ← ok_or (read_mig_info hob) (Failed MigrationResult.InvalidParameter);
    let request_id := mig_request_id (MigData.mig_info mig_info) in
    v ← getS;
    if bool_decide (request_id ∈ requests v) then mret None
    else _ ← modifyS (set_requests ({[request_id]} ∪ requests v)); mret (Some mig_info)
  else if operation =? 0 then mret None
  else sfail MigrationResult.InvalidParameter.

(** [fuel] bounds the number of polls. *)
Fixpoint service_wait_loop (fuel : nat) (cmd rsp : bytes) : SM MigrationInformation :=
  match fuel with
  | O => failM Pending
  | S f =>
      r ← service_wait_poll cmd rsp;
      match r with Some i => mret i | None => service_wait_loop f cmd rsp end
  end.

Definition service_wait_for_request : SM MigrationInformation :=
  cmd_mem ← shared_memory 1;
  rsp_mem ← shared_memory 1;
  cmd ← cmd_new cmd_mem SERVICE_MIGTD_GUID;
  cmd ← cmd_write cmd [0; MIG_COMMAND_WAIT; 0; 0];
  rsp ← ok_or (VmcallServiceResponse.new rsp_mem SERVICE_MIGTD_GUID) (Failed MigrationResult.InvalidParameter);
  v ← getS;
  service_wait_loop (S (length (vm_services v))) (VmcallServiceCommand.data cmd) rsp.

Definition shutdown : SM unit :=
  cmd_mem ← shared_memory 1;
  rsp_mem ← shared_memory 1;
  cmd ← cmd_new cmd_mem SERVICE_MIGTD_GUID;
  cmd ← cmd_write cmd [0; MIG_COMMAND_SHUT_DOWN; 0; 0];
  _ ← tdvmcall_service (VmcallServiceCommand.data cmd) rsp_mem;
  mret tt.

Definition service_report_status (status request_id : Z) : SM unit :=
  cmd_mem ← shared_memory 1;
  rsp_mem ← shared_memory 1;
  cmd ← cmd_new cmd_mem SERVICE_MIGTD_GUID;
  cmd ← cmd_write cmd ([0; MIG_COMMAND_REPORT_STATUS; 1; status] ++ le_bytes 8 request_id);
  rsp ← ok_or (VmcallServiceResponse.new rsp_mem SERVICE_MIGTD_GUID) (Failed MigrationResult.InvalidParameter);
  copy ← tdvmcall_service (VmcallServiceCommand.data cmd) rsp;
  r ← read_response copy SERVICE_MIGTD_GUID 4;
  command ← or_panic (nthz r.2 1);
  err_if (negb (command =? MIG_COMMAND_REPORT_STATUS)) (Failed MigrationResult.InvalidParameter).

End service.
