(* ===== verification/SessionSpec.v ===== *)
(** * SessionSpec: requests are accepted exactly, once, and answered

    The wire form of a request and the theorems about parsing, waiting and
    reporting (Session). *)
From stdpp Require Import base tactics numbers list list_numbers option gmap.
From S2P Require Import Prelude MigData MigDataSpec PreSessionSpec Session.
Local Open Scope Z_scope.

(** ** Wire forms *)

(** A report request: the whole structure, or its id alone for zero data. *)
Definition report_payload (i : ReportInfo) (p : bytes) : Prop :=
  in_u 64 (ri_mig_request_id i) ∧ length (reportdata i) = 64%nat ∧
  (p = le_bytes 8 (ri_mig_request_id i) ++ reportdata i ∨
   reportdata i = zeros 64 ∧ p = le_bytes 8 (ri_mig_request_id i)).

Definition log_payload (i : EnableLogAreaInfo) (p : bytes) : Prop :=
  in_u 64 (la_mig_request_id i) ∧ in_u 8 (log_max_level i) ∧ la_reserved i = zeros 7 ∧
  p = le_bytes 8 (la_mig_request_id i) ++ le_bytes 1 (log_max_level i) ++ zeros 7.

Section wire.
Context `{Features}.

(** [p] is the payload of the request [w], which the build supports. *)
Definition payload_of (w : WaitForRequestResponse) (p : bytes) : Prop :=
  match w with
  | StartMigration i => ∃ mi, i = mkInformation mi None None ∧ info_ok mi ∧ p = wire_mig_info mi
  | StartRebinding i => vmcall_raw && policy_v2 = true ∧ info_ok i ∧ p = wire_mig_info i
  | GetTdReport i => AzCVMEmu = true ∧ report_payload i p
  | EnableLogArea i => log_payload i p
  | GetMigtdData i => vmcall_raw && policy_v2 = true ∧ report_payload i p
  end.

End wire.

Definition op_code (w : WaitForRequestResponse) : Z :=
  match w with
  | StartMigration _ => 1 | StartRebinding _ => 2 | GetTdReport _ => 3 | EnableLogArea _ => 4 | GetMigtdData _ => 5
  end.

(** The buffer carries a successful request [w]: status word, length, payload. *)
Definition carries `{Features} (b : bytes) (w : WaitForRequestResponse) : Prop :=
  ∃ status p rest, in_u 64 status ∧ as_u 8 status = 1 ∧ as_u 8 (Z.shiftr status 8) = op_code w ∧
    payload_of w p ∧ b = le_bytes 8 status ++ le_bytes 4 (lenz p) ++ p ++ rest.

(** ** Payload parsers *)

Lemma pread_Err {A} (m : Rd A) b e : pread m b = Err e → e = MigrationResult.InvalidParameter.
Proof. unfold pread. destruct (m b) as [[] ?]; naive_solver. Qed.

Lemma app_full_length {A} (l k rest : list A) n : l ++ rest = k → length k = n → length l = n → rest = [].
Proof. intros <- Hk Hl. rewrite length_app in Hk. destruct rest; [done|simpl in Hk; lia]. Qed.

Lemma read_report_iff n p i : bytes_ok p → lenz p = n → read_report_info n p = Ok i ↔ report_payload i p.
Proof.
  intros Hp Hn. unfold read_report_info, report_payload. split.
  - destruct (Z.eqb_spec n 8) as [E1|], (Z.eqb_spec n 72) as [E2|]; try lia; cbn [negb andb]; [| |done].
    + destruct (pread (gread 8) p) as [id| |] eqn:Ei; cbn [mbind outcome_bind]; [|done..]. intros [= <-]. cbn [ri_mig_request_id reportdata].
      apply pread_Ok in Ei as [rest Ei]. apply gread_inv in Ei as (-> & _ & Hid); [|done].
      split; [done|]. split; [done|]. right. split; [done|].
      rewrite lenz_app, lenz_le_bytes in Hn. unfold lenz in Hn. destruct rest; [by rewrite app_nil_r|simpl in Hn; lia].
    + intros E'. apply pread_Ok in E' as [rest E']. unfold pread_report_info in E'.
      apply M_bind_Ok_inv in E' as (id & b1 & F1 & E'). apply gread_inv in F1 as (-> & Hb1 & Hid); [|done].
      apply M_bind_Ok_inv in E' as (d & b2 & F2 & E'). apply gread_bytes_inv in F2 as [-> Hd].
      injection E' as <- <-. cbn [ri_mig_request_id reportdata]. split; [done|]. split; [done|]. left.
      rewrite !lenz_app, lenz_le_bytes in Hn. unfold lenz in Hn. destruct b2; [by rewrite app_nil_r|simpl in Hn; lia].
  - destruct i as [id d]. cbn [ri_mig_request_id reportdata]. intros (Hid & Hd & [->|[-> ->]]).
    + rewrite lenz_app, lenz_le_bytes in Hn. assert (n = 72) as -> by (unfold lenz in Hn; lia). cbn [negb andb Z.eqb Pos.eqb].
      apply pread_Ok. exists []. unfold pread_report_info. gread_step.
      rewrite <-(app_nil_r d) at 1. by rewrite gread_bytes_bind.
    + rewrite lenz_le_bytes in Hn. subst n. cbn [negb andb Z.eqb Pos.eqb Z.of_nat Pos.of_succ_nat Pos.succ].
      assert (pread (gread 8) (le_bytes 8 id) = Ok id) as ->; [|done].
      apply pread_Ok. exists []. rewrite <-(app_nil_r (le_bytes 8 id)). by apply gread_app.
Qed.

Lemma reserved_zero (r : bytes) : length r = 7%nat → existsb (λ b, negb (b =? 0)) r = false ↔ r = zeros 7.
Proof.
  intros Hr. split; [|intros ->; done]. intros E.
  assert (∀ k : bytes, existsb (λ b, negb (b =? 0)) k = false → k = replicate (length k) 0) as Hk.
  { induction k as [|x k IH]; [done|]. cbn. intros [Ex%negb_false_iff%Z.eqb_eq Ek]%orb_false_iff. subst x. by rewrite <-IH. }
  rewrite (Hk r E), Hr. done.
Qed.

Lemma read_log_iff n p i : bytes_ok p → lenz p = n → read_log_area n p = Ok i ↔ log_payload i p.
Proof.
  intros Hp Hn. unfold read_log_area, log_payload. split.
  - destruct (Z.eqb_spec n 16) as [->|]; cbn [negb]; [|done].
    destruct (pread _ p) as [x| |] eqn:Ei; cbn [mbind outcome_bind]; [|done..].
    apply pread_Ok in Ei as [rest E']. unfold pread_log_area in E'.
    apply M_bind_Ok_inv in E' as (id & b1 & E1 & E'). apply gread_inv in E1 as (-> & Hb1 & Hid); [|done].
    apply M_bind_Ok_inv in E' as (l & b2 & E2 & E'). apply gread_inv in E2 as (-> & Hb2 & Hl); [|done].
    apply M_bind_Ok_inv in E' as (r & b3 & E3 & E'). apply gread_bytes_inv in E3 as [-> Hr].
    injection E' as <- <-. cbn [la_reserved]. destruct (existsb _ r) eqn:Er; [done|]. apply reserved_zero in Er; [|done].
    intros [= <-]. cbn. subst r. split_and!; try done.
    rewrite !lenz_app, !lenz_le_bytes in Hn. change (lenz (zeros 7)) with 7 in Hn. unfold lenz in Hn.
    destruct b3; [by rewrite app_nil_r|simpl in Hn; lia].
  - destruct i as [id l r]. cbn [la_mig_request_id log_max_level la_reserved]. intros (Hid & Hl & -> & ->).
    rewrite !lenz_app, !lenz_le_bytes in Hn. change (lenz (zeros 7)) with 7 in Hn. subst n. cbn [negb Z.eqb Z.add Pos.eqb Z.of_nat Pos.of_succ_nat Pos.succ Pos.add].
    assert (pread pread_log_area (le_bytes 8 id ++ le_bytes 1 l ++ zeros 7) = Ok (mkLogArea id l (zeros 7))) as ->; [|done].
    apply pread_Ok. exists []. unfold pread_log_area. gread_step. gread_step.
    rewrite <-(app_nil_r (zeros 7)). by rewrite gread_bytes_bind.
Qed.

Lemma read_report_no_panic n p : read_report_info n p ≠ Panic.
Proof.
  unfold read_report_info. destruct (negb _ && _); [done|]. destruct (_ =? _); [apply pread_no_panic|].
  pose proof (pread_no_panic (gread 8) p). by destruct (pread (gread 8) p).
Qed.

Lemma read_log_no_panic n p : read_log_area n p ≠ Panic.
Proof.
  unfold read_log_area. destruct (negb _); [done|]. pose proof (pread_no_panic pread_log_area p).
  destruct (pread pread_log_area p); cbn [mbind outcome_bind]; [|done..]. by destruct (existsb _ _).
Qed.

Lemma read_info_full `{Features} n p i : bytes_ok p → lenz p = n → lenz p < 2 ^ 32 →
  read_mig_info_from_bytes n p = Ok i ↔ info_ok i ∧ p = wire_mig_info i.
Proof.
  intros Hp Hn Hl. rewrite read_mig_info_iff by done. split.
  - intros (Hi & Hw & [rest ->]). split; [done|]. rewrite lenz_app in Hn.
    assert (lenz rest = 0) as E by lia. unfold lenz in E. destruct rest; [by rewrite app_nil_r|simpl in E; lia].
  - intros [Hi ->]. split_and!; [done|done|done].
Qed.

(** ** Parsing *)

Section parse.
Context `{F : Features}.

Lemma req_header_segs status n p rest :
  le_bytes 8 status ++ le_bytes 4 n ++ p ++ rest = concat [le_bytes 8 status; le_bytes 4 n; p; rest].
Proof. cbn [concat]. by rewrite app_nil_r. Qed.

Lemma process_buffer_wire status n rest : in_u 64 status → in_u 32 n →
  process_buffer (le_bytes 8 status ++ le_bytes 4 n ++ rest) = mkReqHeader status n.
Proof.
  intros Hs Hn. unfold process_buffer. rewrite !lenz_app, !lenz_le_bytes.
  pose proof (lenz_nonneg rest). unfold REQ_HEADER_LEN. rewrite (proj2 (Z.ltb_ge _ _)) by lia.
  rewrite take_app_length' by (by rewrite length_le_bytes).
  rewrite drop_app_length' by (by rewrite length_le_bytes).
  rewrite take_app_length' by (by rewrite length_le_bytes).
  by rewrite !le_val_bytes, !Z.mod_small.
Qed.

Lemma payload_wire status p rest : lenz p < 2 ^ 32 →
  get_request_payload (le_bytes 8 status ++ le_bytes 4 (lenz p) ++ p ++ rest) REQ_HEADER_LEN (lenz p) = Ok p.
Proof.
  intros Hp. pose proof (lenz_nonneg p). unfold get_request_payload, checked_add, REQ_HEADER_LEN.
  rewrite (proj2 (Z.ltb_lt _ _)) by lia. rewrite req_header_segs. rd_seg 2%nat seg_len. done.
Qed.

(** A payload that was found is where the header says. *)
Lemma payload_inv b p : bytes_ok b → REQ_HEADER_LEN <= lenz b →
  get_request_payload b REQ_HEADER_LEN (req_length (process_buffer b)) = Ok p →
  lenz p = req_length (process_buffer b) ∧ bytes_ok p ∧ in_u 64 (datastatus (process_buffer b)) ∧
  ∃ rest, b = le_bytes 8 (datastatus (process_buffer b)) ++ le_bytes 4 (lenz p) ++ p ++ rest.
Proof.
  intros Hb Hl. unfold REQ_HEADER_LEN in Hl. assert (12 <= length b)%nat as Hn by (unfold lenz in Hl; lia).
  unfold process_buffer, REQ_HEADER_LEN. rewrite (proj2 (Z.ltb_ge _ _)) by lia. cbn [req_length datastatus].
  set (h1 := take 8 b). set (h2 := take 4 (drop 8 b)). intros E.
  assert (b = h1 ++ h2 ++ drop 12 b) as Eb.
  { unfold h1, h2. replace (drop 12 b) with (drop 4 (drop 8 b)) by (by rewrite drop_drop). by rewrite !take_drop. }
  assert (length h1 = 8%nat ∧ length h2 = 4%nat) as [L1 L2]
    by (unfold h1, h2; rewrite !length_take, length_drop; lia).
  rewrite Eb in Hb. apply Forall_app in Hb as [Hb1 [Hb2 Hb3]%Forall_app].
  pose proof (le_val_range h1 Hb1) as R1. pose proof (le_val_range h2 Hb2) as R2.
  unfold get_request_payload in E. destruct (checked_add _ _ _) as [e|] eqn:Ee; [|done].
  apply checked_add_Some in Ee as [-> _]. destruct (slice b 12 _) as [q|] eqn:Eq; [|done]. injection E as <-.
  destruct (slice_Some_len _ _ _ _ Eq) as (Hq & _ & Hmax). assert (lenz q = le_val h2) as Lq by lia. split; [done|].
  assert (q = take (Z.to_nat (le_val h2)) (drop 12 b)) as Eqq.
  { unfold slice in Eq. destruct (_ && _ && _); [|done]. injection Eq as <-.
    replace (12 + le_val h2 - 12) with (le_val h2) by lia. done. }
  split; [subst q; by apply Forall_take|]. unfold lenz in R1. rewrite L1 in R1. split; [exact R1|].
  exists (drop (Z.to_nat (le_val h2)) (drop 12 b)). rewrite Lq.
  assert (le_bytes 8 (le_val h1) = h1) as -> by (rewrite <-L1; by apply le_bytes_val).
  assert (le_bytes 4 (le_val h2) = h2) as -> by (rewrite <-L2; by apply le_bytes_val).
  rewrite Eqq, take_drop. exact Eb.
Qed.

(** What [carries] fixes of the parser's inputs. *)
Lemma carries_header b w : lenz b < 2 ^ 32 → carries b w →
  ∃ status p, process_buffer b = mkReqHeader status (lenz p) ∧ as_u 8 status = 1 ∧
    as_u 8 (Z.shiftr status 8) = op_code w ∧ get_request_payload b REQ_HEADER_LEN (lenz p) = Ok p ∧ payload_of w p.
Proof.
  intros Hl (status & p & rest & Hs & H1 & H2 & Hp & ->). pose proof (lenz_nonneg p). pose proof (lenz_nonneg rest).
  rewrite !lenz_app, !lenz_le_bytes in Hl. exists status, p.
  rewrite process_buffer_wire by (done || unfold in_u; lia). split_and!; try done. apply payload_wire. lia.
Qed.

Lemma dispatch_cases {A} rid (decoded : outcome MigrationResult A) id_of resp s p k :
  (∀ i, decoded = Ok i ↔ payload_of (resp i) p) → (∀ w, op_code w = k → payload_of w p → ∃ i, w = resp i) →
  (∀ i, op_code (resp i) = k ∧ request_id_of (resp i) = id_of i) → decoded ≠ Panic →
  (∃ w, op_code w = k ∧ payload_of w p ∧
        decode_and_dispatch rid decoded id_of resp s = try_accept_request (request_id_of w) w s) ∨
  ((∀ w, op_code w = k → ¬ payload_of w p) ∧
   ∃ e, decode_and_dispatch rid decoded id_of resp s = reject_request rid e s).
Proof.
  intros Hd Hr Hk Hp. unfold decode_and_dispatch. destruct decoded as [i|e|] eqn:E; [left|right|done].
  - exists (resp i). destruct (Hk i) as [-> ->]. split; [done|]. split; [by apply Hd|done].
  - split; [|by exists e]. intros w Hw Hpw. destruct (Hr w Hw Hpw) as [i ->]. apply Hd in Hpw. done.
Qed.

(** Without support in the build nothing is accepted. *)
Lemma unsupported_cases rid s p k : (∀ w, op_code w = k → ¬ payload_of w p) →
  (∃ w, op_code w = k ∧ payload_of w p ∧ reject_request rid MigrationResult.UnsupportedOperationError s =
        try_accept_request (request_id_of w) w s) ∨
  ((∀ w, op_code w = k → ¬ payload_of w p) ∧
   ∃ e, reject_request rid MigrationResult.UnsupportedOperationError s = reject_request rid e s).
Proof. intros Hw. right. split; [done|]. by eexists. Qed.

Definition op_byte (op : DataStatusOperation.t) : Z :=
  match op with
  | DataStatusOperation.StartMigration => 1 | DataStatusOperation.StartRebinding => 2
  | DataStatusOperation.GetTDReport => 3 | DataStatusOperation.EnableLogArea => 4
  | DataStatusOperation.GetMigtdData => 5
  end.

Lemma op_try_from k op : DataStatusOperation.try_from k = Some op ↔ k = op_byte op.
Proof.
  split; [|intros ->; by destruct op]. unfold DataStatusOperation.try_from.
  repeat case_match; try done; by intros [= <-].
Qed.

(** The last step of parsing, by operation. *)
Definition dispatch (op : DataStatusOperation.t) (rid : option Z) (n : Z) (p : bytes) :
  Req (Poll (outcome MigrationResult WaitForRequestResponse)) := λ s,
  match op with
  | DataStatusOperation.StartMigration =>
      decode_and_dispatch rid (read_mig_info_from_bytes n p) mig_request_id
        (λ i, StartMigration (mkInformation i None None)) s
  | DataStatusOperation.StartRebinding =>
      if vmcall_raw && policy_v2 then
        decode_and_dispatch rid (read_mig_info_from_bytes n p) mig_request_id StartRebinding s
      else reject_request rid MigrationResult.UnsupportedOperationError s
  | DataStatusOperation.GetTDReport =>
      if AzCVMEmu then decode_and_dispatch rid (read_report_info n p) ri_mig_request_id GetTdReport s
      else reject_request rid MigrationResult.UnsupportedOperationError s
  | DataStatusOperation.EnableLogArea =>
      decode_and_dispatch rid (read_log_area n p) la_mig_request_id EnableLogArea s
  | DataStatusOperation.GetMigtdData =>
      if vmcall_raw && policy_v2 then
        decode_and_dispatch rid (read_report_info n p) ri_mig_request_id GetMigtdData s
      else reject_request rid MigrationResult.UnsupportedOperationError s
  end.

Lemma op_cases op rid s p : bytes_ok p → lenz p < 2 ^ 32 →
  (∃ w, op_code w = op_byte op ∧ payload_of w p ∧
        dispatch op rid (lenz p) p s = try_accept_request (request_id_of w) w s) ∨
  ((∀ w, op_code w = op_byte op → ¬ payload_of w p) ∧
   ∃ e, dispatch op rid (lenz p) p s = reject_request rid e s).
Proof.
  intros Hp Hl. destruct op; cbn [dispatch op_byte].
  - apply dispatch_cases; [|intros [] ? ?; naive_solver|done|apply read_mig_info_no_panic].
    intros i. rewrite read_info_full by done. cbn. naive_solver.
  - destruct (vmcall_raw && policy_v2) eqn:Ef; [|apply unsupported_cases; intros [] ? Hw; cbn in *; naive_solver congruence].
    apply dispatch_cases; [|intros [] ? ?; naive_solver|done|apply read_mig_info_no_panic].
    intros i. rewrite read_info_full by done. cbn. naive_solver.
  - destruct AzCVMEmu eqn:Ef; [|apply unsupported_cases; intros [] ? Hw; cbn in *; naive_solver congruence].
    apply dispatch_cases; [|intros [] ? ?; naive_solver|done|apply read_report_no_panic].
    intros i. rewrite read_report_iff by done. cbn. naive_solver.
  - apply dispatch_cases; [|intros [] ? ?; naive_solver|done|apply read_log_no_panic].
    intros i. by rewrite read_log_iff by done.
  - destruct (vmcall_raw && policy_v2) eqn:Ef; [|apply unsupported_cases; intros [] ? Hw; cbn in *; naive_solver congruence].
    apply dispatch_cases; [|intros [] ? ?; naive_solver|done|apply read_report_no_panic].
    intros i. rewrite read_report_iff by done. cbn. naive_solver.
Qed.

Lemma parse_request_cases b s : bytes_ok b → lenz b < 2 ^ 32 →
  ((∀ w, ¬ carries b w) ∧ process_buffer b = mkReqHeader 0 0 ∧ parse_request b REQ_HEADER_LEN s = (Waiting, s)) ∨
  (∃ w, carries b w ∧ parse_request b REQ_HEADER_LEN s = try_accept_request (request_id_of w) w s) ∨
  ((∀ w, ¬ carries b w) ∧
   ∃ e, parse_request b REQ_HEADER_LEN s = reject_request (read_request_id b REQ_HEADER_LEN) e s).
Proof.
  intros Hb Hl. unfold parse_request.
  destruct (process_buffer b) as [st n] eqn:Eh. cbn [datastatus req_length].
  destruct ((st =? 0) && (n =? 0)) eqn:E0.
  { apply andb_prop in E0 as [->%Z.eqb_eq ->%Z.eqb_eq]. left. split_and!; [|done..].
    intros w (st & p & Eb & Hst & _)%carries_header; [|done]. rewrite Eh in Eb. injection Eb as <- _. done. }
  right. destruct (Z.eqb_spec (as_u 8 st) VMM_SUCCESS) as [Hst|Nst]; cbn [negb].
  2:{ right; split; [|by eexists]; intros w (st' & p & Eb & Hst & _)%carries_header; [|done].
      rewrite Eh in Eb. injection Eb as <- _. done. }
  assert (REQ_HEADER_LEN <= lenz b) as Hlen.
  { unfold process_buffer in Eh. destruct (Z.ltb_spec (lenz b) REQ_HEADER_LEN); [|done].
    injection Eh as <- <-. done. }
  destruct (DataStatusOperation.try_from _) as [op|] eqn:Eop.
  2:{ right; split; [|by eexists]; intros w (st' & p & Eb & _ & Hop & _)%carries_header; [|done].
      rewrite Eh in Eb. injection Eb as <- _. rewrite Hop in Eop. by destruct w. }
  apply op_try_from in Eop.
  destruct (get_request_payload b REQ_HEADER_LEN n) as [p|e|] eqn:Ep.
  2:{ right; split; [|by eexists]; intros w (st' & p & Eb & _ & _ & Hp & _)%carries_header; [|done].
      rewrite Eh in Eb. injection Eb as -> ->. congruence. }
  2:{ unfold get_request_payload in Ep. repeat case_match; done. }
  pose proof (payload_inv b p Hb Hlen) as Hinv. rewrite Eh in Hinv. cbn [req_length datastatus] in Hinv.
  destruct (Hinv Ep) as (Hn & Hpb & Hstr & rest & Eb). subst n.
  assert (lenz p < 2 ^ 32) as Hlp.
  { rewrite Eb, !lenz_app, !lenz_le_bytes in Hl. pose proof (lenz_nonneg rest). lia. }
  destruct (op_cases op (read_request_id b REQ_HEADER_LEN) s p Hpb Hlp) as [(w & Hw & Hpw & E)|(Hno & e & E)].
  - left. exists w. split; [|exact E]. exists st, p, rest. split_and!; try done. by rewrite Hw.
  - right. split; [|by exists e].
    intros w (st' & p' & Eb' & _ & Hop & Hp' & Hpw)%carries_header; [|done].
    rewrite Eh in Eb'. injection Eb' as <- Hlen'. rewrite <-Hlen', Ep in Hp'. injection Hp' as <-.
    apply (Hno w); [congruence|done].
Qed.

End parse.

(** ** Memory and calls *)

(** Nothing but the allocator and the call results was consumed. *)
Definition quiet (v v' : Vmm) : Prop :=
  requests v' = requests v ∧ vm_waits v' = vm_waits v ∧ vm_report_polls v' = vm_report_polls v ∧
  vm_services v' = vm_services v ∧ vm_reports v' = vm_reports v ∧ vm_commands v' = vm_commands v.

#[global] Instance quiet_preorder : PreOrder quiet.
Proof. split; [done|]. intros v1 v2 v3 (?&?&?&?&?&?) (?&?&?&?&?&?). unfold quiet. split_and!; congruence. Qed.

Lemma session_memory_post pages v r v' : shared_memory pages v = (r, v') →
  quiet v v' ∧ (r = Ok (zeros (pages * SESSION_PAGE_SIZE)) ∨ r = Err (Failed MigrationResult.OutOfResource)).
Proof.
  unfold shared_memory. rewrite getS_bind. destruct (vm_allocs v) as [|[] l]; intros [= <- <-];
    (split; [done|]); auto.
Qed.

Lemma tdvmcall_post v r v' : tdvmcall v = (r, v') →
  quiet v v' ∧ (r = Ok tt ∨ r = Err (Failed MigrationResult.InvalidParameter)).
Proof.
  unfold tdvmcall. rewrite getS_bind. destruct (vm_calls v) as [|[] l]; intros [= <- <-]; (split; [done|]); auto.
Qed.

(** ** Reports *)

(** The buffer of a report: empty status, length, data, padding. *)
Definition report_page (data : bytes) (n : Z) : bytes :=
  le_bytes 8 0 ++ le_bytes 4 (lenz data) ++ data ++ zeros (n - 12 - lenz data).

Definition report_pages (data : bytes) : Z := (12 + lenz data + 0x1000 - 1) / 0x1000 * 0x1000.

Definition report_word (st : Z) : Z := if st =? 0 then 0 else Z.lor 1 (Z.shiftl st 8).

Lemma report_pages_room data : 12 + lenz data <= report_pages data.
Proof.
  unfold report_pages. pose proof (lenz_nonneg data).
  pose proof (Z.mod_pos_bound (12 + lenz data + 0x1000 - 1) 0x1000 ltac:(lia)).
  pose proof (Z.div_mod (12 + lenz data + 0x1000 - 1) 0x1000 ltac:(lia)). lia.
Qed.

Lemma report_buffer data n : lenz data < 2 ^ 32 → 12 + lenz data <= n →
  (d ← write_at (zeros n) 0 (req_header_as_bytes (mkReqHeader 0 (if 0 <? lenz data then as_u 32 (lenz data) else 0)));
   if 0 <? lenz data then write_at d REQ_HEADER_LEN data else Some d) = Some (report_page data n).
Proof.
  intros Hl Hn. pose proof (lenz_nonneg data). unfold req_header_as_bytes. cbn [datastatus req_length].
  assert ((if 0 <? lenz data then as_u 32 (lenz data) else 0) = lenz data) as ->.
  { destruct (Z.ltb_spec 0 (lenz data)); [|lia]. unfold as_u. rewrite Z.mod_small; lia. }
  assert (zeros n = concat [zeros 12; zeros (lenz data); zeros (n - 12 - lenz data)]) as ->.
  { cbn [concat]. rewrite app_nil_r, <-!zeros_add by lia. f_equal. lia. }
  wr_seg 0%nat page_len. unfold report_page. destruct (Z.ltb_spec 0 (lenz data)).
  - rewrite (write_seg _ 1 (zeros (lenz data))); [|done|page_len|unfold REQ_HEADER_LEN; page_len].
    cbn [concat list_insert insert]. by rewrite app_nil_r, <-!app_assoc.
  - assert (data = []) as -> by (destruct data; [done|rewrite lenz_cons in *; pose proof (lenz_nonneg data); lia]).
    cbn [concat]. rewrite app_nil_r. change (lenz (@nil Z)) with 0. by rewrite <-!app_assoc.
Qed.

Definition confirms (size : Z) (b : bytes) : Prop := as_u 8 (datastatus (process_buffer (fit size b))) = VMM_SUCCESS.

Lemma report_poll_post polls size v r v' : report_poll polls size v = (r, v') →
  requests v' = requests v ∧ vm_reports v' = vm_reports v ∧ vm_commands v' = vm_commands v ∧
  (r = Ok tt ∧ Exists (confirms size) polls ∨ r = Err Pending ∧ Forall (λ b, ¬ confirms size b) polls).
Proof.
  revert v. induction polls as [|b l IH]; intros v; cbn [report_poll].
  - intros [= <- <-]. naive_solver.
  - rewrite modifyS_bind. destruct (Z.eqb_spec (as_u 8 (datastatus (process_buffer (fit size b)))) VMM_SUCCESS) as [E|E].
    + intros [= <- <-]. cbn. split_and!; [done..|]. left. split; [done|]. by apply Exists_cons_hd.
    + intros (Hq & Hr & Hc & Hcase)%IH. cbn in *. split_and!; [done..|].
      destruct Hcase as [[-> ?]|[-> ?]]; [left; split; [done|by apply Exists_cons_tl]|right; split; [done|by constructor]].
Qed.

Lemma report_status_post st id data v r v' : lenz data < 2 ^ 32 → report_status st id data v = (r, v') →
  requests v' = requests v ∧ vm_commands v' = vm_commands v ∧
  (vm_reports v' = vm_reports v ∧ (∃ e, r = Err (Failed e)) ∨
   ∃ res, MigrationResult.try_from st = Some res ∧
     vm_reports v' = vm_reports v ++ [(id, report_word st, report_page data (report_pages data))] ∧
     (r = Err (Failed MigrationResult.InvalidParameter) ∨
      r = Ok tt ∧ Exists (confirms (report_pages data)) (vm_report_polls v) ∨
      r = Err Pending ∧ Forall (λ b, ¬ confirms (report_pages data) b) (vm_report_polls v))).
Proof.
  intros Hl. unfold report_status. rewrite M_bind_eq.
  destruct (shared_memory _ v) as [r1 v1] eqn:E1. apply session_memory_post in E1 as [Hq1 [->| ->]].
  2:{ intros [= <- <-]. destruct Hq1 as (?&?&?&?&?&?). naive_solver. }
  rewrite ok_or_bind. destruct (MigrationResult.try_from st) as [res|] eqn:Est.
  2:{ intros [= <- <-]. destruct Hq1 as (?&?&?&?&?&?). naive_solver. }
  assert ((if decide (res = MigrationResult.Success) then report_status_word 0 0 else report_status_word 1 st) = report_word st) as ->.
  { apply migration_result_byte in Est as ->. by destruct res. }
  pose proof (report_buffer data (report_pages data) Hl (report_pages_room data)) as Hbuf.
  fold (report_pages data) in *. change ((REQ_HEADER_LEN + lenz data + SESSION_PAGE_SIZE - 1) / SESSION_PAGE_SIZE * SESSION_PAGE_SIZE) with (report_pages data).
  destruct (write_at (zeros (report_pages data)) 0 _) as [d1|] eqn:Ed1; [|done]. cbn [mbind option_bind] in Hbuf.
  rewrite or_panic_bind, Hbuf, or_panic_bind, modifyS_bind, M_bind_eq.
  destruct (tdvmcall _) as [r2 v2] eqn:E2. apply tdvmcall_post in E2 as [Hq2 Hr2].
  destruct Hq1 as (A1&A2&A3&A4&A5&A6), Hq2 as (B1&B2&B3&B4&B5&B6). cbn [requests vm_waits vm_report_polls vm_services vm_reports vm_commands] in B1, B2, B3, B4, B5, B6.
  destruct Hr2 as [->| ->].
  2:{ intros [= <- <-]. split_and!; [congruence..|]. right. exists res. split; [done|]. split; [by rewrite B5, A5|by left]. }
  rewrite getS_bind. assert (lenz (report_page data (report_pages data)) = report_pages data) as ->.
  { pose proof (report_pages_room data). pose proof (lenz_nonneg data). unfold report_page.
    rewrite !lenz_app, !lenz_le_bytes, lenz_zeros by lia. lia. }
  intros (C1 & C2 & C3 & Hc)%report_poll_post. split_and!; [congruence..|]. right. exists res. split; [done|].
  split; [by rewrite C2, B5, A5|]. right. rewrite B3, A3 in Hc. done.
Qed.

(** ** Waiting *)

Section waiting.
Context `{F : Features}.

Lemma try_accept_cases id w s : try_accept_request id w s =
  if bool_decide (id ∈ REQUESTS s) then (Waiting, s)
  else (Ready (Ok w), mkReqState ({[id]} ∪ REQUESTS s) (pending_error_report s)).
Proof. done. Qed.

Definition copy_ok (p : WaitPoll) : Prop := match wp_copy p with Some b => bytes_ok b | None => True end.

(** The request [w] arrived in one of the polls. *)
Definition arrives (size : Z) (w : WaitForRequestResponse) (p : WaitPoll) : Prop :=
  ∃ b, wp_flag p = true ∧ wp_copy p = Some b ∧ carries (fit size b) w.

Lemma wait_poll_post polls size v r v' :
  0 <= size < 2 ^ 32 → Forall copy_ok polls → wait_poll polls size None v = (r, v') →
  vm_reports v' = vm_reports v ∧ vm_report_polls v' = vm_report_polls v ∧
  match r with
  | Ok (Ok w, rep) => rep = None ∧ request_id_of w ∉ requests v ∧
      requests v' = {[request_id_of w]} ∪ requests v ∧ Exists (arrives size w) polls
  | Ok (Err e, rep) => requests v' = requests v ∧ (rep = None ∨ ∃ id, rep = Some (id, e))
  | Err e => e = Pending ∧ requests v' = requests v
  | _ => False
  end.
Proof.
  intros Hsz. revert v. induction polls as [|p l IH]; intros v Hok; cbn [wait_poll]; [by intros [= <- <-]|].
  apply Forall_cons in Hok as [Hp Hok]. rewrite modifyS_bind.
  assert (∀ w, Exists (arrives size w) l → Exists (arrives size w) (p :: l)) as Htl by (intros; by apply Exists_cons_tl).
  destruct (wp_flag p) eqn:Ef; cbn [negb].
  2:{ intros (Hr & Hrp & Hm)%IH; [|done]. cbn in Hr, Hrp. split; [done|]. split; [done|]. cbn in Hm. destruct r as [[[] ?]| |]; naive_solver. }
  unfold copy_ok in Hp. destruct (wp_copy p) as [b|] eqn:Ec; [|intros [= <- <-]; cbn; auto].
  rewrite getS_bind. cbn [requests].
  assert (bytes_ok (fit size b) ∧ lenz (fit size b) < 2 ^ 32) as [Hb Hl] by (split; [by apply fit_bytes_ok|rewrite lenz_fit; lia]).
  destruct (parse_request_cases (fit size b) (mkReqState (requests v) None) Hb Hl)
    as [(_ & _ & E)|[(w & Hw & E)|(_ & e & E)]]; rewrite E; clear E.
  - rewrite modifyS_bind. cbn [REQUESTS pending_error_report]. intros (Hr & Hrp & Hm)%IH; [|done].
    cbn in Hr, Hrp, Hm. split; [done|]. split; [done|]. destruct r as [[[] ?]| |]; naive_solver.
  - rewrite try_accept_cases. cbn [REQUESTS pending_error_report]. case_bool_decide as Hin; rewrite modifyS_bind.
    + cbn [REQUESTS pending_error_report]. intros (Hr & Hrp & Hm)%IH; [|done].
      cbn in Hr, Hrp, Hm. split; [done|]. split; [done|]. destruct r as [[[] ?]| |]; naive_solver.
    + intros [= <- <-]. cbn. split_and!; try done. apply Exists_cons_hd. by exists b.
  - unfold reject_request. rewrite modifyS_bind. intros [= <- <-]. cbn. split_and!; try done.
    destruct (read_request_id _ _); naive_solver.
Qed.

Lemma shared_pages policy event_log n : calculate_shared_page_nums policy event_log REQ_HEADER_LEN = Ok n →
  ∃ p e, policy = Some p ∧ event_log = Some e ∧
    12 <= n * SESSION_PAGE_SIZE <= lenz p + lenz e + 12 + 512 + 1024 + 4096.
Proof.
  unfold calculate_shared_page_nums. destruct policy as [p|], event_log as [e|]; [|done..]. intros [= <-].
  exists p, e. split_and!; [done..| |]; unfold SESSION_PAGE_SIZE, REQ_HEADER_LEN, TD_INFO_SIZE;
    pose proof (lenz_nonneg p); pose proof (lenz_nonneg e);
    set (x := 12 + 512 + lenz p + lenz e + 1024 + 0x1000 - 1);
    pose proof (Z.mod_pos_bound x 0x1000 ltac:(lia)); pose proof (Z.div_mod x 0x1000 ltac:(lia)); unfold x in *; lia.
Qed.

Lemma wait_error_report id e v r v' : report_wait_for_request_error id e v = (r, v') →
  requests v' = requests v ∧ (r = Ok tt ∨ r = Err Pending) ∧
  (vm_reports v' = vm_reports v ∨
   vm_reports v' = vm_reports v ++ [(id, report_word (MigrationResult.as_u8 e), report_page [] 4096)]).
Proof.
  unfold report_wait_for_request_error. destruct (report_status _ id [] v) as [r1 v1] eqn:E.
  apply report_status_post in E as (Hq & _ & Hc); [|done]. change (report_pages []) with 4096 in Hc.
  destruct Hc as [[Hr [e' ->]]|(res & _ & Hr & [->|[[-> _]|[-> _]]])]; intros [= <- <-]; naive_solver.
Qed.

End waiting.

(** ** The service call *)

Section service.
Context `{F : Features} `{G : GuidBytes} `{L : HobLib}.

Lemma cmd_new_run guid v : length guid = 16%nat →
  cmd_new (zeros (1 * SESSION_PAGE_SIZE)) guid v = (Ok (VmcallServiceCommand.mk (page_of guid [] 4096) 24), v).
Proof.
  intros Hg. unfold cmd_new. rewrite (service_command_new guid Hg); rewrite lenz_zeros; done.
Qed.

Lemma cmd_write_run guid body bs v : length guid = 16%nat → 24 + lenz body + lenz bs <= 4096 →
  cmd_write (VmcallServiceCommand.mk (page_of guid body 4096) (24 + lenz body)) bs v =
  (Ok (VmcallServiceCommand.mk (page_of guid (body ++ bs) 4096) (24 + lenz (body ++ bs))), v).
Proof.
  intros Hg Hl. unfold cmd_write. pose proof (lenz_nonneg bs).
  rewrite (service_command_write guid Hg) by lia. by rewrite (proj2 (Z.ltb_ge _ _)) by lia.
Qed.

(** The response page handed to the VMM. *)
Lemma response_new guid : length guid = 16%nat →
  ∃ r, VmcallServiceResponse.new (zeros (1 * SESSION_PAGE_SIZE)) guid = Some r ∧ lenz r = 4096.
Proof.
  intros Hg. unfold VmcallServiceResponse.new. rewrite lenz_zeros by done.
  change (1 * SESSION_PAGE_SIZE) with 4096. change (4096 <? VmcallServiceResponse.RESPONSE_HEADER_LENGTH) with false. cbn [andb].
  destruct (write_at_fits (zeros 4096) 0 guid) as (d1 & -> & L1); [lia|rewrite lenz_zeros by lia; unfold lenz; lia|].
  cbn [mbind option_bind]. rewrite lenz_zeros in L1 by lia.
  destruct (write_at_fits d1 16 (le_bytes 4 (as_u 32 4096))) as (d2 & -> & L2); [lia|rewrite lenz_le_bytes; lia|].
  cbn [mbind option_bind].
  destruct (write_at_fits d2 20 (le_bytes 4 0)) as (d3 & -> & L3); [lia|rewrite lenz_le_bytes; lia|].
  exists d3. split; [done|lia].
Qed.

Lemma service_call_post cmd rsp v r v' : tdvmcall_service cmd rsp v = (r, v') →
  requests v' = requests v ∧ vm_reports v' = vm_reports v ∧ vm_commands v' = vm_commands v ++ [cmd] ∧
  vm_services v' = tail (vm_services v) ∧
  match r with
  | Ok copy => ∀ b, copy = Some b → lenz b = lenz rsp
  | Err e => e = Failed MigrationResult.InvalidParameter ∨ e = Pending
  | Panic => False
  end.
Proof.
  unfold tdvmcall_service. rewrite getS_bind, modifyS_bind. destruct (vm_services v) as [|c l]; [intros [= <- <-]; cbn; split_and!; auto|].
  rewrite err_if_bind. destruct (negb (sc_ok c)); intros [= <- <-]; cbn; split_and!; auto.
  intros b Eb. apply fmap_Some in Eb as (x & _ & ->). apply lenz_fit, lenz_nonneg.
Qed.

Lemma read_response_post copy guid size v r v' : 0 <= size → read_response copy guid size v = (r, v') →
  v' = v ∧
  match r with
  | Ok (mem, d) => copy = Some mem ∧ lenz d = size ∧ 24 + size <= lenz mem ∧ take 16 mem = guid
  | Err e => ∃ x, e = Failed x
  | Panic => False
  end.
Proof.
  intros Hs. unfold read_response. rewrite ok_or_bind. destruct copy as [mem|]; [|intros [= <- <-]; eauto].
  rewrite ok_or_bind. destruct (VmcallServiceResponse.try_read mem) as [m|] eqn:Et; [|intros [= <- <-]; eauto].
  assert (m = mem ∧ 24 <= lenz mem) as [-> Hl].
  { unfold VmcallServiceResponse.try_read, VmcallServiceResponse.RESPONSE_HEADER_LENGTH in Et.
    destruct (Z.ltb_spec (lenz mem) 24); [done|]. apply bind_Some in Et as (l & _ & Et).
    destruct (_ || _); [done|]. by injection Et as <-. }
  unfold VmcallServiceResponse.read_guid. rewrite slice_take, or_panic_bind by lia. change (Z.to_nat 16) with 16%nat.
  rewrite err_if_bind. case_bool_decide as Hg; cbn [negb]; [|intros [= <- <-]; eauto].
  rewrite ok_or_bind. unfold VmcallServiceResponse.read_data. rewrite !Z.add_0_r.
  destruct (Z.ltb_spec (lenz mem) (24 + size)); [intros [= <- <-]; eauto|].
  destruct (slice mem 24 (24 + size)) as [d|] eqn:Ed; [|intros [= <- <-]; eauto].
  intros [= <- <-]. split; [done|]. split; [done|]. apply slice_Some_len in Ed as [? _]. split; [lia|done].
Qed.

(** An operation sent [k] copies of the command page [page] and did nothing else. *)
Definition sent_commands (v v' : Vmm) (page : bytes) : Prop :=
  requests v' = requests v ∧ ∃ k, vm_commands v' = vm_commands v ++ replicate k page.

Lemma sent_none v v' page : quiet v v' → sent_commands v v' page.
Proof. intros (?&?&?&?&?&?). split; [done|]. exists 0%nat. by rewrite app_nil_r. Qed.

Lemma sent_one v v1 v' page : quiet v v1 → requests v' = requests v1 → vm_commands v' = vm_commands v1 ++ [page] →
  sent_commands v v' page.
Proof. intros (?&?&?&?&?&?) ? ?. split; [congruence|]. exists 1%nat. cbn. congruence. Qed.

(** Two pages of shared memory, the start of every operation. *)
Lemma two_pages {A} (f : bytes → bytes → SM A) v r v' :
  (c ← shared_memory 1; s ← shared_memory 1; f c s) v = (r, v') →
  (r = Err (Failed MigrationResult.OutOfResource) ∧ quiet v v') ∨
  (∃ v1, quiet v v1 ∧ f (zeros (1 * SESSION_PAGE_SIZE)) (zeros (1 * SESSION_PAGE_SIZE)) v1 = (r, v')).
Proof.
  rewrite M_bind_eq. destruct (shared_memory 1 v) as [r1 v1] eqn:E1. apply session_memory_post in E1 as [Q1 [->| ->]].
  2:{ intros [= <- <-]. auto. }
  rewrite M_bind_eq. destruct (shared_memory 1 v1) as [r2 v2] eqn:E2. apply session_memory_post in E2 as [Q2 [->| ->]].
  2:{ intros [= <- <-]. left. split; [done|]. by etrans. }
  intros E. right. exists v2. split; [by etrans|done].
Qed.

Lemma length_common_guid : length VMCALL_SERVICE_COMMON_GUID = 16%nat.
Proof. apply length_guid. Qed.
Lemma length_service_guid : length SERVICE_MIGTD_GUID = 16%nat.
Proof. apply length_guid. Qed.

Lemma cmd_write_first guid bs v : length guid = 16%nat → 24 + lenz bs <= 4096 →
  cmd_write (VmcallServiceCommand.mk (page_of guid [] 4096) 24) bs v =
  (Ok (VmcallServiceCommand.mk (page_of guid bs 4096) (24 + lenz bs)), v).
Proof. intros Hg Hl. exact (cmd_write_run guid [] bs v Hg Hl). Qed.

Lemma nthz_lt {A} (l : list A) i : 0 <= i < lenz l → is_Some (nthz l i).
Proof. intros. destruct (nthz_is_Some l i) as [x ->]; [done|]. eauto. Qed.

Definition query_page : bytes := page_of VMCALL_SERVICE_COMMON_GUID ([0; 0; 0; 0] ++ SERVICE_MIGTD_GUID) 4096.
Definition wait_page : bytes := page_of SERVICE_MIGTD_GUID [0; 1; 0; 0] 4096.
Definition report_cmd_page (status id : Z) : bytes :=
  page_of SERVICE_MIGTD_GUID ([0; 2; 1; status] ++ le_bytes 8 id) 4096.
Definition shutdown_page : bytes := page_of SERVICE_MIGTD_GUID [0; 0; 0; 0] 4096.

Lemma query_post v r v' : query v = (r, v') → r ≠ Panic ∧ sent_commands v v' query_page.
Proof.
  unfold query. intros [[-> Q]|(v1 & Q & E)]%two_pages; [split; [done|by apply sent_none]|]. revert E.
  rewrite (M_bind_Ok _ _ _ _ _ (cmd_new_run _ v1 length_common_guid)).
  rewrite (M_bind_Ok _ _ _ _ _ (cmd_write_first _ [0; QUERY_COMMAND; 0; 0] v1 length_common_guid ltac:(done))).
  rewrite (M_bind_Ok _ _ _ _ _ (cmd_write_run VMCALL_SERVICE_COMMON_GUID [0; QUERY_COMMAND; 0; 0] SERVICE_MIGTD_GUID v1
    length_common_guid ltac:(unfold lenz; rewrite length_service_guid; cbn; lia))).
  destruct (response_new _ length_common_guid) as (rsp & -> & Hrsp). rewrite ok_or_bind. cbn [VmcallServiceCommand.data].
  rewrite M_bind_eq. destruct (tdvmcall_service _ rsp v1) as [r2 v2] eqn:E2.
  apply service_call_post in E2 as (R2 & _ & C2 & _ & P2). pose proof (sent_one v v1 v2 query_page Q R2 C2) as Hs.
  destruct r2 as [copy|e|]; [|intros [= <- <-]; by destruct P2 as [->| ->]|done].
  rewrite M_bind_eq. destruct (read_response copy _ 20 v2) as [r3 v3] eqn:E3.
  apply read_response_post in E3 as [-> P3]; [|lia]. destruct r3 as [[mem d]|e|]; [|intros [= <- <-]; done|done].
  destruct P3 as (_ & Hd & _). cbn [fst snd].
  destruct (nthz_lt d 1) as [c ->]; [lia|]. rewrite or_panic_bind.
  destruct (nthz_lt d 2) as [st ->]; [lia|]. rewrite or_panic_bind, err_if_bind.
  destruct (_ || _); [by intros [= <- <-]|]. destruct (negb _); by intros [= <- <-].
Qed.

Lemma service_report_post st id v r v' : service_report_status st id v = (r, v') →
  r ≠ Panic ∧ sent_commands v v' (report_cmd_page st id).
Proof.
  unfold service_report_status. intros [[-> Q]|(v1 & Q & E)]%two_pages; [split; [done|by apply sent_none]|]. revert E.
  rewrite (M_bind_Ok _ _ _ _ _ (cmd_new_run _ v1 length_service_guid)).
  rewrite (M_bind_Ok _ _ _ _ _ (cmd_write_first _ ([0; MIG_COMMAND_REPORT_STATUS; 1; st] ++ le_bytes 8 id) v1 length_service_guid
    ltac:(rewrite lenz_app, lenz_le_bytes; unfold lenz; cbn; lia))).
  destruct (response_new _ length_service_guid) as (rsp & -> & Hrsp). rewrite ok_or_bind. cbn [VmcallServiceCommand.data].
  rewrite M_bind_eq. destruct (tdvmcall_service _ rsp v1) as [r2 v2] eqn:E2.
  apply service_call_post in E2 as (R2 & _ & C2 & _ & P2). pose proof (sent_one v v1 v2 (report_cmd_page st id) Q R2 C2) as Hs.
  destruct r2 as [copy|e|]; [|intros [= <- <-]; by destruct P2 as [->| ->]|done].
  rewrite M_bind_eq. destruct (read_response copy _ 4 v2) as [r3 v3] eqn:E3.
  apply read_response_post in E3 as [-> P3]; [|lia]. destruct r3 as [[mem d]|e|]; [|intros [= <- <-]; done|done].
  destruct P3 as (_ & Hd & _). cbn [fst snd].
  destruct (nthz_lt d 1) as [c ->]; [lia|]. rewrite or_panic_bind. destruct (negb _); by intros [= <- <-].
Qed.

Lemma shutdown_post v r v' : shutdown v = (r, v') → r ≠ Panic ∧ sent_commands v v' shutdown_page.
Proof.
  unfold shutdown. intros [[-> Q]|(v1 & Q & E)]%two_pages; [split; [done|by apply sent_none]|]. revert E.
  rewrite (M_bind_Ok _ _ _ _ _ (cmd_new_run _ v1 length_service_guid)).
  rewrite (M_bind_Ok _ _ _ _ _ (cmd_write_first _ [0; MIG_COMMAND_SHUT_DOWN; 0; 0] v1 length_service_guid ltac:(done))).
  cbn [VmcallServiceCommand.data]. rewrite M_bind_eq. destruct (tdvmcall_service _ _ v1) as [r2 v2] eqn:E2.
  apply service_call_post in E2 as (R2 & _ & C2 & _ & P2). pose proof (sent_one v v1 v2 shutdown_page Q R2 C2) as Hs.
  destruct r2 as [copy|e|]; [by intros [= <- <-]|intros [= <- <-]; by destruct P2 as [->| ->]|done].
Qed.

(** A wait changes the set of requests only by the one it returns. *)
Definition accepts_new (v v' : Vmm) (r : option MigrationInformation) : Prop :=
  match r with
  | Some i => mig_request_id (mig_info i) ∉ requests v ∧
              requests v' = {[mig_request_id (mig_info i)]} ∪ requests v
  | None => requests v' = requests v
  end.

Lemma service_wait_poll_post rsp v r v' : service_wait_poll wait_page rsp v = (r, v') →
  vm_commands v' = vm_commands v ++ [wait_page] ∧ vm_services v' = tail (vm_services v) ∧
  match r with
  | Ok o => accepts_new v v' o
  | Err e => requests v' = requests v ∧ e ≠ OutOfFuel
  | Panic => False
  end.
Proof.
  unfold service_wait_poll. rewrite M_bind_eq. destruct (tdvmcall_service _ rsp v) as [r2 v2] eqn:E2.
  apply service_call_post in E2 as (R2 & _ & C2 & S2 & P2).
  destruct r2 as [copy|e|]; [|intros [= <- <-]; destruct P2 as [->| ->]; done|done].
  rewrite M_bind_eq. destruct (read_response copy _ 4 v2) as [r3 v3] eqn:E3.
  apply read_response_post in E3 as [-> P3]; [|lia]. destruct r3 as [[mem d]|e|]; [|intros [= <- <-]; by destruct P3 as [x ->]|done].
  destruct P3 as (_ & Hd & Hm & _). cbn [fst snd].
  destruct (nthz_lt d 1) as [c ->]; [lia|]. rewrite or_panic_bind.
  destruct (nthz_lt d 2) as [op ->]; [lia|]. rewrite or_panic_bind, err_if_bind.
  destruct (negb (c =? _)); [by intros [= <- <-]|].
  destruct (op =? 1); [|destruct (op =? 0); by intros [= <- <-]].
  destruct (slice_is_Some mem 28 (lenz mem)) as [hob ->]; [lia..|]. rewrite or_panic_bind, ok_or_bind.
  destruct (read_mig_info hob) as [i|]; [|by intros [= <- <-]]. cbv zeta. rewrite getS_bind.
  case_bool_decide as Hin; [by intros [= <- <-]|]. rewrite modifyS_bind. intros [= <- <-]. cbn.
  split; [done|]. split; [done|]. rewrite <-R2. done.
Qed.

Lemma service_wait_loop_post fuel rsp v r v' : service_wait_loop fuel wait_page rsp v = (r, v') →
  (∃ k, vm_commands v' = vm_commands v ++ replicate k wait_page) ∧
  match r with
  | Ok i => accepts_new v v' (Some i)
  | Err e => requests v' = requests v ∧ e ≠ OutOfFuel
  | Panic => False
  end.
Proof.
  revert v. induction fuel as [|f IH]; intros v; cbn [service_wait_loop].
  - intros [= <- <-]. split; [exists 0%nat; by rewrite app_nil_r|done].
  - rewrite M_bind_eq. destruct (service_wait_poll wait_page rsp v) as [r1 v1] eqn:E1.
    apply service_wait_poll_post in E1 as (C1 & _ & P1).
    assert (∃ k, vm_commands v1 = vm_commands v ++ replicate k wait_page) as Hk1 by (by exists 1%nat).
    destruct r1 as [[i|]|e|]; [intros [= <- <-]; done| |intros [= <- <-]; done|done].
    intros [[k Ck] P]%IH. split; [exists (S k); by rewrite Ck, C1, <-app_assoc|].
    unfold accepts_new in *. rewrite P1 in P. done.
Qed.

Lemma service_wait_post v r v' : service_wait_for_request v = (r, v') →
  (∃ k, vm_commands v' = vm_commands v ++ replicate k wait_page) ∧
  match r with
  | Ok i => accepts_new v v' (Some i)
  | Err e => requests v' = requests v ∧ e ≠ OutOfFuel
  | Panic => False
  end.
Proof.
  unfold service_wait_for_request. intros [[-> Q]|(v1 & Q & E)]%two_pages.
  { destruct (sent_none v v' wait_page Q) as [? ?]. done. }
  revert E. rewrite (M_bind_Ok _ _ _ _ _ (cmd_new_run _ v1 length_service_guid)).
  rewrite (M_bind_Ok _ _ _ _ _ (cmd_write_first _ [0; MIG_COMMAND_WAIT; 0; 0] v1 length_service_guid ltac:(done))).
  destruct (response_new _ length_service_guid) as (rsp & -> & Hrsp). rewrite ok_or_bind, getS_bind.
  cbn [VmcallServiceCommand.data]. intros [[k Ck] P]%service_wait_loop_post. destruct Q as (Q1&_&_&_&_&Q6).
  split; [exists k; congruence|]. unfold accepts_new in *. rewrite Q1 in P. done.
Qed.

End service.

(** A buffer carries at most one request. *)
Lemma payload_unique `{F : Features} w1 w2 p : bytes_ok p → lenz p < 2 ^ 32 → op_code w1 = op_code w2 →
  payload_of w1 p → payload_of w2 p → w1 = w2.
Proof.
  intros Hp Hl Ho H1 H2. destruct w1, w2; try done; cbn in H1, H2.
  - destruct H1 as (m1 & -> & I1), H2 as (m2 & -> & I2). apply (read_info_full (lenz p)) in I1, I2; [|done..]. congruence.
  - destruct H1 as (_ & I1), H2 as (_ & I2). apply (read_info_full (lenz p)) in I1, I2; [|done..]. congruence.
  - destruct H1 as (_ & I1), H2 as (_ & I2). apply (read_report_iff (lenz p)) in I1, I2; [|done..]. congruence.
  - apply (read_log_iff (lenz p)) in H1, H2; [|done..]. congruence.
  - destruct H1 as (_ & I1), H2 as (_ & I2). apply (read_report_iff (lenz p)) in I1, I2; [|done..]. congruence.
Qed.

Lemma carries_unique `{F : Features} b w1 w2 : bytes_ok b → lenz b < 2 ^ 32 → carries b w1 → carries b w2 → w1 = w2.
Proof.
  intros Hb Hl H1 H2. destruct H1 as (st & p & rest & Hst & Hs1 & Ho1 & Hp1 & Eb).
  apply carries_header in H2 as (st2 & p2 & Eh & _ & Ho2 & Eg & Hp2); [|done].
  pose proof (lenz_nonneg p). pose proof (lenz_nonneg rest).
  assert (lenz p < 2 ^ 32) as Hlp by (rewrite Eb, !lenz_app, !lenz_le_bytes in Hl; lia).
  rewrite Eb, process_buffer_wire in Eh by (done || unfold in_u; lia). injection Eh as <- Hlen.
  rewrite <-Hlen, Eb, payload_wire in Eg by done. injection Eg as <-.
  rewrite Eb in Hb. apply Forall_app in Hb as [_ [_ [Hb _]%Forall_app]%Forall_app].
  apply (payload_unique _ _ p); [done|done|congruence|done|done].
Qed.

(** ** Claims *)

Section claims.
Context `{F : Features}.

(** C8 (functional) A raw request buffer is accepted exactly when it carries a
    successful, supported, well-formed request (any trailing bytes) whose id is
    not being processed, and the id is then being processed; any other buffer is
    refused, with the error noted for the id it names and nothing accepted, or,
    when it is still empty or repeats an id, waited on.  Parsing never aborts. *)
Theorem parse_request_exact b s (Hb : bytes_ok b) (Hl : lenz b < 2 ^ 32) :
  (∀ w s', parse_request b REQ_HEADER_LEN s = (Ready (Ok w), s') ↔
    carries b w ∧ request_id_of w ∉ REQUESTS s ∧
    s' = mkReqState ({[request_id_of w]} ∪ REQUESTS s) (pending_error_report s)) ∧
  (∀ e s', parse_request b REQ_HEADER_LEN s = (Ready (Err e), s') →
    (∀ w, ¬ carries b w) ∧ REQUESTS s' = REQUESTS s ∧
    pending_error_report s' =
      match read_request_id b REQ_HEADER_LEN with Some id => Some (id, e) | None => pending_error_report s end) ∧
  (∀ s', parse_request b REQ_HEADER_LEN s = (Waiting, s') →
    s' = s ∧ (process_buffer b = mkReqHeader 0 0 ∨ ∃ w, carries b w ∧ request_id_of w ∈ REQUESTS s)) ∧
  (parse_request b REQ_HEADER_LEN s).1 ≠ Ready Panic.
Proof.
  destruct (parse_request_cases b s Hb Hl) as [(Hno & Hh & E)|[(w & Hw & E)|(Hno & e & E)]]; rewrite E.
  - split_and!; [|done| |done]; [intros w s'; split; [done|intros [Hw _]; by destruct (Hno w)]|]. intros s' [= <-]. auto.
  - rewrite try_accept_cases. case_bool_decide as Hin.
    + split_and!; [|done| |done].
      * intros w' s'. split; [done|]. intros (Hw' & Hn & _). by rewrite (carries_unique b w w') in Hin.
      * intros s' [= <-]. split; [done|]. right. by exists w.
    + split_and!; [|done|done|done]. intros w' s'. split.
      * intros [= <- <-]. done.
      * intros (Hw' & Hn & ->). by rewrite (carries_unique b w w').
  - unfold reject_request. split_and!; [|intros e' s' [= <- <-]|done|done].
    + intros w s'. split; [done|]. intros [Hw _]. by destruct (Hno w).
    + done.
Qed.

(** Waiting for a raw request: whatever the VMM writes, a request is
    returned only if it arrived in one of the polled buffers and its id was not
    being processed, and exactly its id is added; a failure adds nothing and
    reports at most the returned status, once; nothing aborts. *)
Theorem wait_for_request_once policy event_log v r v'
  (Hok : Forall copy_ok (vm_waits v)) (Hsz : ∀ p e, policy = Some p → event_log = Some e → lenz p + lenz e < 2 ^ 31)
  (E : wait_for_request policy event_log v = (r, v')) :
  match r with
  | Ok w => request_id_of w ∉ requests v ∧ requests v' = {[request_id_of w]} ∪ requests v ∧
      vm_reports v' = vm_reports v ∧ ∃ size, Exists (arrives size w) (vm_waits v)
  | Err (Failed e) => requests v' = requests v ∧
      (vm_reports v' = vm_reports v ∨
       ∃ id, vm_reports v' = vm_reports v ++ [(id, report_word (MigrationResult.as_u8 e), report_page [] 4096)])
  | Err Pending => requests v' = requests v
  | Err OutOfFuel => False
  | Panic => False
  end.
Proof.
  revert E. unfold wait_for_request. rewrite liftO_bind.
  destruct (calculate_shared_page_nums policy event_log REQ_HEADER_LEN) as [n|e|] eqn:En; [|intros [= <- <-]; auto|].
  2:{ unfold calculate_shared_page_nums in En. by repeat case_match. }
  apply shared_pages in En as (p & e & -> & -> & Hn). specialize (Hsz p e eq_refl eq_refl).
  rewrite M_bind_eq. destruct (shared_memory n v) as [r1 v1] eqn:E1. apply session_memory_post in E1 as [Q1 [->| ->]].
  2:{ intros [= <- <-]. destruct Q1 as (?&?&?&?&?&?). auto. }
  destruct (write_at_fits (zeros (n * SESSION_PAGE_SIZE)) 0 (req_header_as_bytes (mkReqHeader 0 0))) as (d & -> & Ld);
    [done|rewrite lenz_zeros by lia; change (lenz (req_header_as_bytes (mkReqHeader 0 0))) with 12; lia|].
  rewrite lenz_zeros in Ld by lia. rewrite or_panic_bind, M_bind_eq.
  destruct (tdvmcall v1) as [r2 v2] eqn:E2. apply tdvmcall_post in E2 as [Q2 Hr2].
  assert (quiet v v2) as Q by (by etrans). destruct Q as (A1&A2&A3&A4&A5&A6).
  destruct Hr2 as [->| ->]; [|intros [= <- <-]; auto].
  rewrite getS_bind, M_bind_eq. destruct (wait_poll (vm_waits v2) (lenz d) None v2) as [r3 v3] eqn:E3.
  apply wait_poll_post in E3 as (R3 & _ & P3); [|lia|by rewrite A2]. rewrite A1, A2 in P3. rewrite A5 in R3.
  destruct r3 as [[[w|e3|] rep]|e3|]; [| |done| |done]; cbn [fst snd].
  - intros [= <- <-]. destruct P3 as (_ & ? & ? & ?). split_and!; eauto.
  - destruct P3 as (P3 & Hrep). destruct Hrep as [->|[id ->]].
    + rewrite ret_bind. intros [= <- <-]. auto.
    + rewrite M_bind_eq. destruct (report_wait_for_request_error id e3 v3) as [r4 v4] eqn:E4.
      apply wait_error_report in E4 as (B1 & Hr4 & B2). rewrite P3 in B1. rewrite R3 in B2.
      destruct Hr4 as [->| ->]; intros [= <- <-]; [|done]. split; [done|]. naive_solver.
  - destruct P3 as [-> P3]. intros [= <- <-]. done.
Qed.

End claims.

(** A raw report hands the VMM one buffer with the request id,
    the status word (0, or 1 with the error code in bits 15:8) and the data
    behind its header, succeeds only once the VMM confirms, waits while it does
    not, and refuses bytes that are no result code before telling the VMM
    anything. *)
Theorem report_status_exact st id data v r v'
  (Hl : lenz data < 2 ^ 32) (E : report_status st id data v = (r, v')) :
  requests v' = requests v ∧
  (vm_reports v' = vm_reports v ∧ (∃ e, r = Err (Failed e)) ∨
   ∃ res, MigrationResult.try_from st = Some res ∧
     vm_reports v' = vm_reports v ++ [(id, report_word st, report_page data (report_pages data))] ∧
     (r = Err (Failed MigrationResult.InvalidParameter) ∨
      r = Ok tt ∧ Exists (confirms (report_pages data)) (vm_report_polls v) ∨
      r = Err Pending ∧ Forall (λ b, ¬ confirms (report_pages data) b) (vm_report_polls v))).
Proof. destruct (report_status_post st id data v r v' Hl E) as (H1 & _ & H2). done. Qed.

Section service_claim.
Context `{F : Features} `{G : GuidBytes} `{L : HobLib}.

(** Over the service call no answer of the VMM makes querying,
    waiting, reporting or shutting down abort; each sends only its own command
    page, and only a wait that returns a request changes the requests being
    processed, by the new id it returns. *)
Theorem service_calls_safe v :
  (∀ r v', query v = (r, v') → r ≠ Panic ∧ sent_commands v v' query_page) ∧
  (∀ st id r v', service_report_status st id v = (r, v') → r ≠ Panic ∧ sent_commands v v' (report_cmd_page st id)) ∧
  (∀ r v', shutdown v = (r, v') → r ≠ Panic ∧ sent_commands v v' shutdown_page) ∧
  (∀ r v', service_wait_for_request v = (r, v') →
     (∃ k, vm_commands v' = vm_commands v ++ replicate k wait_page) ∧
     match r with
     | Ok i => accepts_new v v' (Some i)
     | Err e => requests v' = requests v ∧ e ≠ OutOfFuel
     | Panic => False
     end).
Proof.
  split_and!; intros *; [apply query_post|apply service_report_post|apply shutdown_post|apply service_wait_post].
Qed.

End service_claim.

(** ** Witnesses *)

(** A migration request with id 7, and one that names an unknown operation. *)
Definition demo_request : bytes :=
  le_bytes 8 0x0101 ++ le_bytes 4 56 ++ wire_mig_info (H := demo_features) demo_info ++ [0; 0].

Definition demo_migration : WaitForRequestResponse := StartMigration (mkInformation demo_info None None).

Lemma demo_request_ok : bytes_ok demo_request.
Proof. apply (bool_decide_unpack _). vm_compute. exact I. Qed.

Lemma demo_parse :
  parse_request (H := demo_features) demo_request REQ_HEADER_LEN (mkReqState ∅ None) =
    (Ready (Ok demo_migration), mkReqState ({[7]} ∪ ∅) None).
Proof. vm_compute. reflexivity. Qed.

Lemma parse_request_exact_witness :
  parse_request (H := demo_features) demo_request REQ_HEADER_LEN (mkReqState ∅ None) =
    (Ready (Ok demo_migration), mkReqState ({[7]} ∪ ∅) None) ∧
  carries (H := demo_features) demo_request demo_migration.
Proof.
  split; [exact demo_parse|].
  exact (proj1 (proj1 (proj1 (parse_request_exact (F := demo_features) demo_request (mkReqState ∅ None)
    demo_request_ok ltac:(vm_compute; reflexivity)) _ _) demo_parse)).
Defined.

(** A VMM that first raises no interrupt, then delivers [b]. *)
Definition demo_vmm (b : bytes) : Vmm :=
  mkVmm ∅ [true; true] [true; true] [mkWaitPoll false None; mkWaitPoll true (Some b)] [[0]; [1; 0; 0; 0; 0; 0; 0; 0; 0; 0; 0; 0]]
    [] [] [].

(** An operation the build does not know. *)
Definition demo_bad_request : bytes := le_bytes 8 0x0901 ++ le_bytes 4 8 ++ le_bytes 8 5.

Lemma demo_waits_ok : Forall copy_ok (vm_waits (demo_vmm demo_bad_request)).
Proof.
  apply Forall_cons_2; [exact I|]. apply Forall_cons_2; [|apply Forall_nil_2].
  apply (bool_decide_unpack (bytes_ok demo_bad_request)). vm_compute. exact I.
Qed.

Definition demo_after : Vmm :=
  Eval vm_compute in (wait_for_request (H := demo_features) (Some [1]) (Some [2]) (demo_vmm demo_bad_request)).2.

Lemma wait_for_request_once_witness :
  requests demo_after = ∅ ∧ vm_reports demo_after = [(5, 0x0c01, report_page [] 4096)].
Proof.
  assert (wait_for_request (H := demo_features) (Some [1]) (Some [2]) (demo_vmm demo_bad_request) =
    (Err (Failed MigrationResult.UnsupportedOperationError), demo_after)) as E by (vm_compute; reflexivity).
  split; [|vm_compute; reflexivity].
  exact (proj1 (wait_for_request_once (F := demo_features) (Some [1]) (Some [2]) _ _ _ demo_waits_ok
    ltac:(intros p e [= <-] [= <-]; done) E)).
Defined.

Lemma report_status_exact_witness :
  vm_reports (report_status 6 9 [1; 2; 3] (demo_vmm [])).2 = [(9, 0x0601, report_page [1; 2; 3] 4096)].
Proof.
  destruct (report_status_exact 6 9 [1; 2; 3] (demo_vmm []) (Ok tt) (report_status 6 9 [1; 2; 3] (demo_vmm [])).2
    ltac:(done) ltac:(vm_compute; reflexivity)) as [_ [[_ [e He]]|(res & _ & Hr & _)]]; [discriminate He|exact Hr].
Defined.

Lemma service_calls_safe_witness :
  (query (H0 := efi_guid) (demo_vmm [])).1 ≠ Panic.
Proof.
  destruct (query (H0 := efi_guid) (demo_vmm [])) as [r v'] eqn:E.
  exact (proj1 (proj1 (service_calls_safe (F := demo_features) (G := efi_guid) (L := demo_hoblib) (demo_vmm [])) r v' E)).
Defined.
