(* ===== verification/ServtdExt.v ===== *)
(** * ServtdExt: the TDX module and the service TD extension structure

    src/migtd/src/migration/servtd_ext.rs.  The TDX module is the class
    [TdxModule]: any state with the calls the code makes on a target TD and the
    system, and the write of the TD's own fields; [TdWorld] records every call
    with its result, and the calls fail with [TdxModuleError]. *)
From stdpp Require Import base tactics numbers list list_numbers option gmap.
From S2P Require Import Prelude MigData.
Local Open Scope Z_scope.

(** ** The TDX module *)

(** Contents come back in 64-bit registers. *)
Class TdxModule (TM : Type) := {
  servtd_rd : Z → Z → list Z → TM → option Z * TM;
  servtd_wr : Z → Z → Z → list Z → TM → bool * TM;
  sys_rd : Z → TM → option Z * TM;
  vm_write : Z → Z → Z → TM → bool * TM;
  rebind_approve : Z → bytes → list Z → TM → bool * TM;
  servtd_rd_range h f u t x t' : servtd_rd h f u t = (Some x, t') → in_u 64 x;
  sys_rd_range f t x t' : sys_rd f t = (Some x, t') → in_u 64 x }.

Inductive TdCall :=
  | ServtdRd (binding_handle field : Z) (uuid : list Z) (result : option Z)
  | ServtdWr (binding_handle field value : Z) (uuid : list Z) (ok : bool)
  | SysRd (field : Z) (result : option Z)
  | VmWr (field value mask : Z) (ok : bool)
  | RebindApprove (binding_handle : Z) (token : bytes) (uuid : list Z) (ok : bool).

Record TdWorld (TM : Type) := mkTdWorld { td_module : TM; td_log : list TdCall }.
Arguments mkTdWorld {TM}.
Arguments td_module {TM}.
Arguments td_log {TM}.

Section calls.
Context {TM : Type} `{TdxModule TM}.

Notation TdM := (M (TdWorld TM) (aerr MigrationResult)).

Definition tdcall_servtd_rd (binding_handle field : Z) (uuid : list Z) : TdM Z := λ w,
  let '(r, tm) := servtd_rd binding_handle field uuid (td_module w) in
  let w' := mkTdWorld tm (td_log w ++ [ServtdRd binding_handle field uuid r]) in
  match r with Some x => (Ok x, w') | None => (Err (Failed MigrationResult.TdxModuleError), w') end.

Definition tdcall_servtd_wr (binding_handle field value : Z) (uuid : list Z) : TdM unit := λ w,
  let '(ok, tm) := servtd_wr binding_handle field value uuid (td_module w) in
  let w' := mkTdWorld tm (td_log w ++ [ServtdWr binding_handle field value uuid ok]) in
  if ok : bool then (Ok tt, w') else (Err (Failed MigrationResult.TdxModuleError), w').

Definition tdcall_sys_rd (field : Z) : TdM Z := λ w,
  let '(r, tm) := sys_rd field (td_module w) in
  let w' := mkTdWorld tm (td_log w ++ [SysRd field r]) in
  match r with Some x => (Ok x, w') | None => (Err (Failed MigrationResult.TdxModuleError), w') end.

Definition tdcall_vm_write (field value mask : Z) : TdM unit := λ w,
  let '(ok, tm) := vm_write field value mask (td_module w) in
  let w' := mkTdWorld tm (td_log w ++ [VmWr field value mask ok]) in
  if ok : bool then (Ok tt, w') else (Err (Failed MigrationResult.TdxModuleError), w').

Definition tdcall_servtd_rebind_approve (binding_handle : Z) (token : bytes) (uuid : list Z) : TdM unit := λ w,
  let '(ok, tm) := rebind_approve binding_handle token uuid (td_module w) in
  let w' := mkTdWorld tm (td_log w ++ [RebindApprove binding_handle token uuid ok]) in
  if ok : bool then (Ok tt, w') else (Err (Failed MigrationResult.TdxModuleError), w').

(** ** SERVTD_EXT *)

Definition TDCS_FIELD_SERVTD_INIT_SERVTD_INFO_HASH : Z := 0x191000030000020E.
Definition TDCS_FIELD_SERVTD_INIT_ATTR : Z := 0x191000030000020D.
Definition TDCS_FIELD_INIT_CPUSVN : Z := 0x1110000300000060.
Definition TDCS_FIELD_INIT_TEE_TCB_SVN : Z := 0x1110000300000062.
Definition TDCS_FIELD_INIT_TEE_MODEL : Z := 0x1110000200000064.
Definition TDCS_FIELD_SERVTD_INFO_HASH : Z := 0x1910000300000207.
Definition TDCS_FIELD_SERVTD_ATTR : Z := 0x1910000300000202.
Definition TDCS_FIELD_SERVTD_ACCEPT_SERVTD_EXT_HASH : Z := 0x1910000300000214.
Definition TDCS_FIELD_WRITE_MASK : Z := u_max 64.
Definition EXPECTED_SERVTD_ATTR : Z := 0.

Record ServtdExt := mkServtdExt {
  init_servtd_info_hash : bytes;
  init_attr : bytes;
  se_reserved : bytes;
  init_cpusvn : bytes;
  init_tee_tcb_svn : bytes;
  init_tee_model : bytes;
  se_reserved1 : bytes;
  cur_servtd_info_hash : bytes;
  cur_servtd_attr : bytes;
  se_reserved2 : bytes }.

Definition SERVTD_EXT_SIZE : Z := 272.

Definition ext_as_bytes (e : ServtdExt) : bytes :=
  init_servtd_info_hash e ++ init_attr e ++ se_reserved e ++ init_cpusvn e ++ init_tee_tcb_svn e ++
  init_tee_model e ++ se_reserved1 e ++ cur_servtd_info_hash e ++ cur_servtd_attr e ++ se_reserved2 e.

Definition ext_read_from_bytes (bs : bytes) : option ServtdExt :=
  if lenz bs <? SERVTD_EXT_SIZE then None
  else
    f1 ← slice bs 0 48; f2 ← slice bs 48 56; f3 ← slice bs 56 64; f4 ← slice bs 64 80;
    f5 ← slice bs 80 96; f6 ← slice bs 96 108; f7 ← slice bs 108 112; f8 ← slice bs 112 160;
    f9 ← slice bs 160 168; f10 ← slice bs 168 272;
    Some (mkServtdExt f1 f2 f3 f4 f5 f6 f7 f8 f9 f10).

(** [digest_sha384] of the crypto crate's back end. *)
Definition calculate_approved_servtd_ext_hash (digest_sha384 : bytes → option bytes) (e : ServtdExt) :
  outcome MigrationResult bytes :=
  let e' := mkServtdExt (init_servtd_info_hash e) (init_attr e) (se_reserved e) (init_cpusvn e) (init_tee_tcb_svn e)
              (init_tee_model e) (se_reserved1 e) (zeros (lenz (cur_servtd_info_hash e)))
              (zeros (lenz (cur_servtd_attr e))) (se_reserved2 e) in
  match digest_sha384 (ext_as_bytes e') with
  | Some h => Ok h
  | None => Err MigrationResult.InvalidParameter
  end.

(** The sizes [buf.chunks_mut(elem_size)] cuts a buffer of [len] bytes into. *)
Definition chunk_sizes (elem_size len : nat) : list nat :=
  replicate (len / elem_size) elem_size ++
  (if (len mod elem_size =? 0)%nat then [] else [(len mod elem_size)%nat]).

(** [read_field]: one word per chunk, of which the first bytes are kept. *)
Fixpoint read_chunks (binding_handle : Z) (uuid : list Z) (field : Z) (sizes : list nat) : TdM bytes :=
  match sizes with
  | [] => mret []
  | n :: l =>
      x ← tdcall_servtd_rd binding_handle field uuid;
      rest ← read_chunks binding_handle uuid (field + 1) l;
      mret (take n (le_bytes 8 x) ++ rest)
  end.

Definition read_servtd_ext (binding_handle : Z) (uuid : list Z) : TdM ServtdExt :=
  let read_field base elem_size len := read_chunks binding_handle uuid base (chunk_sizes elem_size len) in
  init_servtd_info_hash ← read_field TDCS_FIELD_SERVTD_INIT_SERVTD_INFO_HASH 8%nat 48%nat;
  init_attr ← read_field TDCS_FIELD_SERVTD_INIT_ATTR 8%nat 8%nat;
  init_cpusvn ← read_field TDCS_FIELD_INIT_CPUSVN 8%nat 16%nat;
  init_tee_tcb_svn ← read_field TDCS_FIELD_INIT_TEE_TCB_SVN 8%nat 16%nat;
  init_tee_model ← read_field TDCS_FIELD_INIT_TEE_MODEL 4%nat 12%nat;
  cur_servtd_info_hash ← read_field TDCS_FIELD_SERVTD_INFO_HASH 8%nat 48%nat;
  cur_servtd_attr ← read_field TDCS_FIELD_SERVTD_ATTR 8%nat 8%nat;
  _ ← err_if (negb (le_val cur_servtd_attr =? EXPECTED_SERVTD_ATTR)) (Failed MigrationResult.InvalidParameter);
  mret (mkServtdExt init_servtd_info_hash init_attr (zeros 8) init_cpusvn init_tee_tcb_svn init_tee_model (zeros 4)
          cur_servtd_info_hash cur_servtd_attr (zeros 104)).

Definition verify_servtd_attr (binding_handle : Z) (uuid : list Z) : TdM unit :=
  actual_attr ← tdcall_servtd_rd binding_handle TDCS_FIELD_SERVTD_ATTR uuid;
  err_if (negb (actual_attr =? EXPECTED_SERVTD_ATTR)) (Failed MigrationResult.InvalidParameter).

(** [for (idx, chunk) in hash.chunks_exact(8).enumerate()] *)
Fixpoint write_words (field : Z) (words : nat) (hash : bytes) : TdM unit :=
  match words with
  | O => mret tt
  | S n =>
      _ ← tdcall_vm_write field (le_val (take 8 hash)) TDCS_FIELD_WRITE_MASK;
      write_words (field + 1) n (drop 8 hash)
  end.

Definition write_approved_servtd_ext_hash (servtd_ext_hash : bytes) : TdM unit :=
  _ ← err_if (negb (lenz servtd_ext_hash =? 48)) (Failed MigrationResult.InvalidParameter);
  write_words TDCS_FIELD_SERVTD_ACCEPT_SERVTD_EXT_HASH (length servtd_ext_hash / 8) servtd_ext_hash.

End calls.

(** ** Lemmas *)

Record ext_ok (e : ServtdExt) : Prop := {
  x_hash : length (init_servtd_info_hash e) = 48%nat;
  x_attr : length (init_attr e) = 8%nat;
  x_res : length (se_reserved e) = 8%nat;
  x_cpusvn : length (init_cpusvn e) = 16%nat;
  x_tcb : length (init_tee_tcb_svn e) = 16%nat;
  x_model : length (init_tee_model e) = 12%nat;
  x_res1 : length (se_reserved1 e) = 4%nat;
  x_cur : length (cur_servtd_info_hash e) = 48%nat;
  x_cur_attr : length (cur_servtd_attr e) = 8%nat;
  x_res2 : length (se_reserved2 e) = 104%nat }.

Lemma ext_segs e rest : ext_as_bytes e ++ rest =
  concat [init_servtd_info_hash e; init_attr e; se_reserved e; init_cpusvn e; init_tee_tcb_svn e;
          init_tee_model e; se_reserved1 e; cur_servtd_info_hash e; cur_servtd_attr e; se_reserved2 e; rest].
Proof. unfold ext_as_bytes. cbn [concat]. by rewrite app_nil_r, <-!app_assoc. Qed.

Lemma lenz_ext e : ext_ok e → lenz (ext_as_bytes e) = SERVTD_EXT_SIZE.
Proof.
  intros []. unfold ext_as_bytes, SERVTD_EXT_SIZE. rewrite !lenz_app. unfold lenz. lia.
Qed.

Lemma ext_read_as_bytes e rest : ext_ok e → ext_read_from_bytes (ext_as_bytes e ++ rest) = Some e.
Proof.
  intros He. unfold ext_read_from_bytes. rewrite lenz_app, (lenz_ext e He). pose proof (lenz_nonneg rest).
  rewrite (proj2 (Z.ltb_ge _ _)) by lia. destruct He. rewrite ext_segs.
  do 5 (first [rd_seg 0%nat seg_len|rd_seg 1%nat seg_len|rd_seg 2%nat seg_len|rd_seg 3%nat seg_len|rd_seg 4%nat seg_len]).
  rd_seg 5%nat seg_len. rd_seg 6%nat seg_len. rd_seg 7%nat seg_len. rd_seg 8%nat seg_len. rd_seg 9%nat seg_len.
  by destruct e.
Qed.

(** The log of reading consecutive fields. *)
Definition rd_log (bh base : Z) (uuid : list Z) (xs : list Z) : list TdCall :=
  imap (λ i x, ServtdRd bh (base + Z.of_nat i) uuid (Some x)) xs.

Lemma rd_log_cons bh base uuid x xs :
  rd_log bh base uuid (x :: xs) = ServtdRd bh base uuid (Some x) :: rd_log bh (base + 1) uuid xs.
Proof.
  unfold rd_log. cbn [imap]. f_equal; [f_equal; lia|]. apply imap_ext. intros i y _. cbn. f_equal. lia.
Qed.

Section lemmas.
Context {TM : Type} `{TdxModule TM}.

Lemma servtd_rd_post bh f u (w : TdWorld TM) r w' : tdcall_servtd_rd bh f u w = (r, w') →
  ∃ o, td_log w' = td_log w ++ [ServtdRd bh f u o] ∧
    match o with Some x => in_u 64 x ∧ r = Ok x | None => r = Err (Failed MigrationResult.TdxModuleError) end.
Proof.
  unfold tdcall_servtd_rd. destruct (servtd_rd bh f u (td_module w)) as [o tm] eqn:E.
  destruct o as [x|]; intros [= <- <-]; [exists (Some x)|exists None]; cbn; [|done].
  split; [done|]. split; [by eapply servtd_rd_range|done].
Qed.

Lemma read_chunks_Ok bh u f sizes (w : TdWorld TM) bs w' : read_chunks bh u f sizes w = (Ok bs, w') →
  ∃ xs, length xs = length sizes ∧ Forall (in_u 64) xs ∧
    bs = concat (zip_with (λ n x, take n (le_bytes 8 x)) sizes xs) ∧ td_log w' = td_log w ++ rd_log bh f u xs.
Proof.
  revert f w bs. induction sizes as [|n l IH]; intros f w bs; cbn [read_chunks].
  - intros [= <- <-]. exists []. by rewrite app_nil_r.
  - intros (x & w1 & E1 & E)%M_bind_Ok_inv. apply servtd_rd_post in E1 as ([x'|] & L1 & Hx); [|done].
    destruct Hx as [Hx [= <-]].
    apply M_bind_Ok_inv in E as (rest & w2 & E2 & E). injection E as <- <-.
    apply IH in E2 as (xs & Hl & Hxs & -> & L2). exists (x :: xs). rewrite rd_log_cons, L2, L1, <-app_assoc. cbn.
    split_and!; [by f_equal|by constructor|done|done].
Qed.

(** Nothing but reads is in the log of reading chunks. *)
Lemma words_full (xs : list Z) n : n = length xs →
  concat (zip_with (λ n x, take n (le_bytes 8 x)) (replicate n 8%nat) xs) = concat (map (le_bytes 8) xs).
Proof.
  intros ->. induction xs as [|x xs IH]; [done|]. cbn [replicate length zip_with concat map].
  rewrite IH, take_ge by (by rewrite length_le_bytes). done.
Qed.

Lemma length_words n (xs : list Z) : length (concat (map (le_bytes n) xs)) = (n * length xs)%nat.
Proof. induction xs as [|x xs IH]; cbn [map concat length]; [lia|]. rewrite length_app, length_le_bytes, IH. lia. Qed.

Lemma read_words_Ok bh u f n len (w : TdWorld TM) bs w' :
  chunk_sizes 8 len = replicate n 8%nat → read_chunks bh u f (chunk_sizes 8 len) w = (Ok bs, w') →
  ∃ xs, length xs = n ∧ Forall (in_u 64) xs ∧ bs = concat (map (le_bytes 8) xs) ∧ td_log w' = td_log w ++ rd_log bh f u xs.
Proof.
  intros Hs E. apply read_chunks_Ok in E as (xs & Hl & Hx & -> & L). rewrite Hs in *. rewrite length_replicate in Hl.
  exists xs. by rewrite words_full.
Qed.

Lemma write_words_post f n hash (w : TdWorld TM) r w' : (8 * n <= length hash)%nat → bytes_ok hash →
  write_words f n hash w = (r, w') →
  ∃ oks words, length oks = length words ∧ td_log w' = td_log w ++
      imap (λ i p, VmWr (f + Z.of_nat i) p.1 TDCS_FIELD_WRITE_MASK p.2) (zip words oks) ∧
    concat (map (le_bytes 8) words) `prefix_of` hash ∧
    match r with
    | Ok _ => length words = n ∧ Forall (eq true) oks
    | Err e => e = Failed MigrationResult.TdxModuleError ∧ ∃ l, oks = l ++ [false] ∧ Forall (eq true) l
    | Panic => False
    end.
Proof.
  revert f hash w. induction n as [|n IH]; intros f hash w Hn Hb; cbn [write_words].
  - intros [= <- <-]. exists [], []. cbn. rewrite app_nil_r. split_and!; try done. apply prefix_nil.
  - rewrite M_bind_eq. unfold tdcall_vm_write. destruct (vm_write _ _ _ (td_module w)) as [ok tm].
    assert (le_bytes 8 (le_val (take 8 hash)) = take 8 hash) as Hw.
    { pose proof (le_bytes_val (take 8 hash) (Forall_take _ _ _ Hb)) as Hv. rewrite length_take_le in Hv by lia. done. }
    destruct ok.
    + intros E. apply IH in E as (oks & words & Hl & Lg & Hp & Hm); [|rewrite length_drop; lia|by apply Forall_drop].
      exists (true :: oks), (le_val (take 8 hash) :: words). split; [by cbn; f_equal|]. split; [|split].
      * rewrite Lg. cbn [td_log zip zip_with imap]. rewrite <-app_assoc. f_equal. cbn [app]. f_equal; [f_equal; cbn; lia|].
        apply imap_ext. intros i p _. cbn. f_equal. lia.
      * cbn [map concat]. rewrite Hw. destruct Hp as [k Hk]. exists k. by rewrite <-app_assoc, <-Hk, take_drop.
      * destruct r; [| |done]; [destruct Hm as [<- ?]; split; [done|by constructor]|].
        destruct Hm as (-> & l & -> & Hall). split; [done|]. exists (true :: l). split; [done|by constructor].
    + intros [= <- <-]. exists [false], [le_val (take 8 hash)]. cbn [map concat app]. split_and!; try done.
      * cbn. repeat f_equal. lia.
      * rewrite app_nil_r, Hw. apply prefix_take.
      * by exists [].
Qed.

Lemma read_servtd_ext_Ok bh uuid (w : TdWorld TM) e w' : read_servtd_ext bh uuid w = (Ok e, w') →
  ext_ok e ∧ ext_read_from_bytes (ext_as_bytes e) = Some e ∧ cur_servtd_attr e = le_bytes 8 EXPECTED_SERVTD_ATTR ∧
  ∃ h c t m k a : list Z, length h = 6%nat ∧ length c = 2%nat ∧ length t = 2%nat ∧ length m = 3%nat ∧
    length k = 6%nat ∧ length a = 1%nat ∧
    e = mkServtdExt (concat (map (le_bytes 8) h)) (concat (map (le_bytes 8) a)) (zeros 8)
          (concat (map (le_bytes 8) c)) (concat (map (le_bytes 8) t))
          (concat (map (λ x, take 4 (le_bytes 8 x)) m)) (zeros 4) (concat (map (le_bytes 8) k))
          (le_bytes 8 EXPECTED_SERVTD_ATTR) (zeros 104) ∧
    td_log w' = td_log w ++ rd_log bh TDCS_FIELD_SERVTD_INIT_SERVTD_INFO_HASH uuid h ++
      rd_log bh TDCS_FIELD_SERVTD_INIT_ATTR uuid a ++ rd_log bh TDCS_FIELD_INIT_CPUSVN uuid c ++
      rd_log bh TDCS_FIELD_INIT_TEE_TCB_SVN uuid t ++ rd_log bh TDCS_FIELD_INIT_TEE_MODEL uuid m ++
      rd_log bh TDCS_FIELD_SERVTD_INFO_HASH uuid k ++
      [ServtdRd bh TDCS_FIELD_SERVTD_ATTR uuid (Some EXPECTED_SERVTD_ATTR)].
Proof.
  intros E. unfold read_servtd_ext in E.
  apply M_bind_Ok_inv in E as (f1 & w1 & E1 & E). apply (read_words_Ok _ _ _ 6) in E1 as (h & Hh & _ & -> & L1); [|done].
  apply M_bind_Ok_inv in E as (f2 & w2 & E1 & E). apply (read_words_Ok _ _ _ 1) in E1 as (a & Ha & _ & -> & L2); [|done].
  apply M_bind_Ok_inv in E as (f3 & w3 & E1 & E). apply (read_words_Ok _ _ _ 2) in E1 as (c & Hc & _ & -> & L3); [|done].
  apply M_bind_Ok_inv in E as (f4 & w4 & E1 & E). apply (read_words_Ok _ _ _ 2) in E1 as (t & Ht & _ & -> & L4); [|done].
  apply M_bind_Ok_inv in E as (f5 & w5 & E1 & E). apply read_chunks_Ok in E1 as (m & Hm & _ & -> & L5).
  apply M_bind_Ok_inv in E as (f6 & w6 & E1 & E). apply (read_words_Ok _ _ _ 6) in E1 as (k & Hk & _ & -> & L6); [|done].
  apply M_bind_Ok_inv in E as (f7 & w7 & E1 & E). apply (read_words_Ok _ _ _ 1) in E1 as (b & Hb & Hbr & -> & L7); [|done].
  rewrite err_if_bind in E. destruct (Z.eqb_spec (le_val (concat (map (le_bytes 8) b))) EXPECTED_SERVTD_ATTR) as [Hattr|]; [|done].
  injection E as <- <-. destruct b as [|x [|]]; [done| |done]. cbn [map concat] in Hattr. rewrite app_nil_r, le_val_bytes in Hattr.
  apply Forall_cons_1 in Hbr as [Hx _]. rewrite Z.mod_small in Hattr by done. subst x.
  destruct m as [|m0 [|m1 [|m2 [|]]]]; try done. cbn [map concat]. rewrite app_nil_r.
  match goal with |- ext_ok ?e ∧ _ => assert (ext_ok e) as He end.
  { constructor; cbn [init_servtd_info_hash init_attr se_reserved init_cpusvn init_tee_tcb_svn init_tee_model se_reserved1
      cur_servtd_info_hash cur_servtd_attr se_reserved2]; rewrite ?length_words, ?Hh, ?Ha, ?Hc, ?Ht, ?Hk; done. }
  split; [done|]. split; [by rewrite <-(app_nil_r (ext_as_bytes _)), ext_read_as_bytes|]. split; [done|].
  exists h, c, t, [m0; m1; m2], k, a. split_and!; try done.
  rewrite L7, L6, L5, L4, L3, L2, L1, <-!app_assoc. done.
Qed.

(** ** Claims *)

(** A SERVTD_EXT read from a target TD is made of the words of
    exactly its seven fields, in order, little-endian, with zero reserved bytes;
    its current SERVTD_ATTR is the expected one, and its byte form reads back. *)
Theorem servtd_ext_read bh uuid (w : TdWorld TM) e w' (E : read_servtd_ext bh uuid w = (Ok e, w')) :
  ext_ok e ∧ ext_read_from_bytes (ext_as_bytes e) = Some e ∧ cur_servtd_attr e = le_bytes 8 EXPECTED_SERVTD_ATTR ∧
  ∃ h c t m k a : list Z, length h = 6%nat ∧ length c = 2%nat ∧ length t = 2%nat ∧ length m = 3%nat ∧
    length k = 6%nat ∧ length a = 1%nat ∧
    e = mkServtdExt (concat (map (le_bytes 8) h)) (concat (map (le_bytes 8) a)) (zeros 8)
          (concat (map (le_bytes 8) c)) (concat (map (le_bytes 8) t))
          (concat (map (λ x, take 4 (le_bytes 8 x)) m)) (zeros 4) (concat (map (le_bytes 8) k))
          (le_bytes 8 EXPECTED_SERVTD_ATTR) (zeros 104) ∧
    td_log w' = td_log w ++ rd_log bh TDCS_FIELD_SERVTD_INIT_SERVTD_INFO_HASH uuid h ++
      rd_log bh TDCS_FIELD_SERVTD_INIT_ATTR uuid a ++ rd_log bh TDCS_FIELD_INIT_CPUSVN uuid c ++
      rd_log bh TDCS_FIELD_INIT_TEE_TCB_SVN uuid t ++ rd_log bh TDCS_FIELD_INIT_TEE_MODEL uuid m ++
      rd_log bh TDCS_FIELD_SERVTD_INFO_HASH uuid k ++
      [ServtdRd bh TDCS_FIELD_SERVTD_ATTR uuid (Some EXPECTED_SERVTD_ATTR)].
Proof. exact (read_servtd_ext_Ok bh uuid w e w' E). Qed.

(** The approved hash reaches the TD's own fields as its six
    little-endian words in order; a hash of another length is refused without a
    call, and a failing call ends the writing. *)
Theorem approved_hash_written hash (w : TdWorld TM) r w' (Hb : bytes_ok hash)
  (E : write_approved_servtd_ext_hash hash w = (r, w')) :
  if lenz hash =? 48 then
    ∃ oks words, length oks = length words ∧ td_log w' = td_log w ++
        imap (λ i p, VmWr (TDCS_FIELD_SERVTD_ACCEPT_SERVTD_EXT_HASH + Z.of_nat i) p.1 TDCS_FIELD_WRITE_MASK p.2)
          (zip words oks) ∧
      match r with
      | Ok _ => concat (map (le_bytes 8) words) = hash ∧ Forall (eq true) oks
      | Err e => e = Failed MigrationResult.TdxModuleError ∧ concat (map (le_bytes 8) words) `prefix_of` hash ∧
          ∃ l, oks = l ++ [false] ∧ Forall (eq true) l
      | Panic => False
      end
  else r = Err (Failed MigrationResult.InvalidParameter) ∧ w' = w.
Proof.
  unfold write_approved_servtd_ext_hash in E. rewrite err_if_bind in E.
  destruct (Z.eqb_spec (lenz hash) 48) as [Hl|]; cbn [negb] in E; [|by injection E as <- <-].
  assert (length hash = 48%nat) as Hn by (unfold lenz in Hl; lia). rewrite Hn in E.
  apply write_words_post in E as (oks & words & Ho & Lg & Hp & Hm); [|rewrite Hn; cbn; lia|done].
  exists oks, words. split; [done|]. split; [done|]. destruct r as [u|e|]; [|naive_solver|done].
  destruct Hm as [Hw Hall]. split; [|done]. destruct Hp as [rest Hp].
  assert (rest = []) as ->; [|by rewrite app_nil_r in Hp].
  apply (f_equal length) in Hp. rewrite length_app, length_words, Hw, Hn in Hp. destruct rest; [done|]. cbn in Hp. lia.
Qed.

End lemmas.

(** ** Witnesses *)

(** A module that keeps its fields in a map. *)
Definition field_of (t : gmap Z Z) (f : Z) : Z := as_u 64 (default 0 (t !! f)).

Lemma field_of_range t f : in_u 64 (field_of t f).
Proof. unfold field_of, as_u, in_u. apply Z.mod_pos_bound. lia. Qed.

Definition demo_module : TdxModule (gmap Z Z) :=
  {| servtd_rd := λ _ f _ t, (Some (field_of t f), t);
     servtd_wr := λ _ f x _ t, (true, <[f := x]> t);
     sys_rd := λ f t, (Some (field_of t f), t);
     vm_write := λ f x _ t, (true, <[f := x]> t);
     rebind_approve := λ _ _ _ t, (true, t);
     servtd_rd_range := λ h f u t x t' E, eq_ind _ (in_u 64) (field_of_range t f) x (Some_inj _ _ (f_equal fst E));
     sys_rd_range := λ f t x t' E, eq_ind _ (in_u 64) (field_of_range t f) x (Some_inj _ _ (f_equal fst E)) |}.

Definition demo_tds : gmap Z Z := {[ TDCS_FIELD_SERVTD_INIT_ATTR := 5; TDCS_FIELD_INIT_TEE_MODEL + 1 := 0x12345678 ]}.

Definition demo_ext : ServtdExt :=
  mkServtdExt (zeros 48) (le_bytes 8 5) (zeros 8) (zeros 16) (zeros 16) (zeros 4 ++ [0x78; 0x56; 0x34; 0x12] ++ zeros 4)
    (zeros 4) (zeros 48) (zeros 8) (zeros 104).

Lemma servtd_ext_read_witness : ext_read_from_bytes (ext_as_bytes demo_ext) = Some demo_ext.
Proof.
  destruct (read_servtd_ext (H := demo_module) 9 [1; 2; 3; 4] (mkTdWorld demo_tds [])) as [r w'] eqn:E.
  assert (r = Ok demo_ext) as -> by (apply (f_equal fst) in E; cbn [fst] in E; rewrite <-E; vm_compute; reflexivity).
  exact (proj1 (proj2 (servtd_ext_read (H := demo_module) 9 [1; 2; 3; 4] (mkTdWorld demo_tds []) demo_ext w' E))).
Defined.
