(* ===== verification/KeyExchange.v ===== *)
(** * KeyExchange: exchanging the migration session keys

    src/migtd/src/migration/session.rs, [exchange_msk] and what it calls, with
    the RA-TLS session (without the feature [spdm_attestation]).  The secure
    session is the class [SecureSession]: a session set up over the transport
    for the source or the destination, and reads and writes in it; the transport
    is any [ByteStream].  A wait that the schedule never completes is what
    [with_timeout] turns into [NetworkError]. *)
From stdpp Require Import base tactics numbers list list_numbers option gmap.
From S2P Require Import Prelude MigData PreSession ServtdExt.
Local Open Scope Z_scope.

Definition TDCS_FIELD_MIG_DEC_KEY : Z := 0x9810000300000010.
Definition TDCS_FIELD_MIG_ENC_KEY : Z := 0x9810000300000018.
Definition TDCS_FIELD_MIG_VERSION : Z := 0x9810000100000020.
Definition GSM_FIELD_MIN_EXPORT_VERSION : Z := 0x2000000100000001.
Definition GSM_FIELD_MAX_EXPORT_VERSION : Z := 0x2000000100000002.
Definition GSM_FIELD_MIN_IMPORT_VERSION : Z := 0x2000000100000003.
Definition GSM_FIELD_MAX_IMPORT_VERSION : Z := 0x2000000100000004.

(** ** Exchange information *)

(** [key] holds the four words of a [MigrationSessionKey]. *)
Record ExchangeInformation := mkExchange {
  key : list Z; min_ver : Z; max_ver : Z; ei_reserved : bytes }.

Definition EXCHANGE_SIZE : Z := 40.

Definition validate (i : ExchangeInformation) : outcome (aerr MigrationResult) unit :=
  if bool_decide (ei_reserved i = zeros 4) then Ok tt else Err (Failed MigrationResult.InvalidParameter).

Definition exchange_as_bytes (i : ExchangeInformation) : bytes :=
  concat (map (le_bytes 8) (key i)) ++ le_bytes 2 (min_ver i) ++ le_bytes 2 (max_ver i) ++ ei_reserved i.

(** The structure whose [as_bytes_mut] holds [bs]. *)
Definition exchange_of_bytes (bs : bytes) : option ExchangeInformation :=
  k0 ← slice bs 0 8; k1 ← slice bs 8 16; k2 ← slice bs 16 24; k3 ← slice bs 24 32;
  lo ← slice bs 32 34; hi ← slice bs 34 36; r ← slice bs 36 40;
  Some (mkExchange [le_val k0; le_val k1; le_val k2; le_val k3] (le_val lo) (le_val hi) r).

Definition cal_mig_version (is_src : bool) (local_info remote_info : ExchangeInformation) :
  outcome (aerr MigrationResult) Z :=
  let '(min_export, max_export, min_import, max_import) :=
    if is_src then (min_ver local_info, max_ver local_info, min_ver remote_info, max_ver remote_info)
    else (min_ver remote_info, max_ver remote_info, min_ver local_info, max_ver local_info) in
  if (max_export <? min_export) || (max_import <? min_import) || (max_export <? min_import) || (max_import <? min_export)
  then Err (Failed MigrationResult.InvalidParameter)
  else Ok (Z.min max_export max_import).

(** ** Keys and version in the target TD *)

Section td.
Context {TM : Type} `{TdxModule TM}.

Notation TdM := (M (TdWorld TM) (aerr MigrationResult)).

(** [for idx in 0..msk.fields.len()] *)
Fixpoint read_key (info : MigtdMigrationInformation) (field : Z) (words : nat) : TdM (list Z) :=
  match words with
  | O => mret []
  | S n =>
      x ← tdcall_servtd_rd (binding_handle info) field (target_td_uuid info);
      l ← read_key info (field + 1) n;
      mret (x :: l)
  end.

Definition read_msk (info : MigtdMigrationInformation) : TdM (list Z) := read_key info TDCS_FIELD_MIG_ENC_KEY 4.

Fixpoint write_key (info : MigtdMigrationInformation) (field : Z) (words : list Z) : TdM unit :=
  match words with
  | [] => mret tt
  | x :: l =>
      _ ← tdcall_servtd_wr (binding_handle info) field x (target_td_uuid info);
      write_key info (field + 1) l
  end.

Definition write_msk (info : MigtdMigrationInformation) (msk : list Z) : TdM unit :=
  write_key info TDCS_FIELD_MIG_DEC_KEY msk.

Definition set_mig_version (info : MigtdMigrationInformation) (mig_ver : Z) : TdM unit :=
  tdcall_servtd_wr (binding_handle info) TDCS_FIELD_MIG_VERSION mig_ver (target_td_uuid info).

Definition exchange_info (info : MigtdMigrationInformation) (is_src : bool) : TdM ExchangeInformation :=
  msk ← read_msk info;
  let '(field_min, field_max) :=
    if is_src then (GSM_FIELD_MIN_EXPORT_VERSION, GSM_FIELD_MAX_EXPORT_VERSION)
    else (GSM_FIELD_MIN_IMPORT_VERSION, GSM_FIELD_MAX_IMPORT_VERSION) in
  min_version ← tdcall_sys_rd field_min;
  max_version ← tdcall_sys_rd field_max;
  _ ← err_if ((u_max 16 <? min_version) || (u_max 16 <? max_version)) (Failed MigrationResult.InvalidParameter);
  mret (mkExchange msk min_version max_version (zeros 4)).

End td.

(** ** The session *)

Class SecureSession (T SS : Type) := {
  session_new : bool → T → option bytes → outcome (aerr MigrationResult) SS;
  session_write : bytes → M SS (aerr MigrationResult) Z;
  session_read : Z → M SS (aerr MigrationResult) bytes;
  session_shutdown : M SS (aerr MigrationResult) unit }.

(** [with_timeout(...).await?] *)
Definition with_timeout {S A} (m : M S (aerr MigrationResult) A) : M S (aerr MigrationResult) A := λ s,
  match m s with
  | (Err Pending, s') => (Err (Failed MigrationResult.NetworkError), s')
  | r => r
  end.

Section exchange.
Context {T SS TM : Type} `{ByteStream T} `{SecureSession T SS} `{TdxModule TM} `{Features} {HP : Heap}.
Context (setup_transport : MigrationInformation → outcome (aerr MigrationResult) T).
Context (policy chain : option bytes).
Context (verify_init_migtd_data_policy_binding : bytes → bool).

Notation TdM := (M (TdWorld TM) (aerr MigrationResult)).

(** The part of [migration_src_exchange_msk] and [migration_dst_exchange_msk]
    inside the session: the two differ only in the side they set up. *)
Definition session_exchange (local : ExchangeInformation) : M SS (aerr MigrationResult) ExchangeInformation :=
  _ ← with_timeout (session_write (exchange_as_bytes local));
  bs ← with_timeout (session_read EXCHANGE_SIZE);
  _ ← err_if (lenz bs <? EXCHANGE_SIZE) (Failed MigrationResult.NetworkError);
  remote ← or_panic (exchange_of_bytes bs);
  _ ← liftO (validate remote);
  _ ← session_shutdown;
  mret remote.

Definition migration_exchange_msk (is_src : bool) (transport : T) (peer_data : option bytes)
  (local : ExchangeInformation) : outcome (aerr MigrationResult) ExchangeInformation :=
  s ← session_new is_src transport peer_data;
  (session_exchange local s).1.

(** The transport and, with [policy_v2], the peer's data. *)
Definition connect_peer (info : MigrationInformation) : outcome (aerr MigrationResult) (T * option bytes) :=
  transport ← setup_transport info;
  if policy_v2 then
    match with_timeout (pre_session_data_exchange policy chain) transport with
    | (Ok peer_data, t') => Ok (t', Some peer_data)
    | (Err e, _) => Err e
    | (Panic, _) => Panic
    end
  else Ok (transport, None).

Definition check_binding (info : MigrationInformation) : outcome (aerr MigrationResult) unit :=
  if policy_v2 then
    match init_td_info_if_present (mig_info info) with
    | Some init_td_info =>
        if verify_init_migtd_data_policy_binding init_td_info then Ok tt
        else Err (Failed MigrationResult.PolicyUnsatisfiedError)
    | None => Ok tt
    end
  else Ok tt.

Definition exchange_msk (info : MigrationInformation) : TdM unit :=
  _ ← liftO (check_binding info);
  tp ← liftO (connect_peer info);
  local ← exchange_info (mig_info info) (is_src info);
  remote ← liftO (migration_exchange_msk (is_src info) tp.1 tp.2 local);
  mig_ver ← liftO (cal_mig_version (is_src info) local remote);
  _ ← verify_servtd_attr (binding_handle (mig_info info)) (target_td_uuid (mig_info info));
  _ ← set_mig_version (mig_info info) mig_ver;
  write_msk (mig_info info) (key remote).

End exchange.
