(* ===== verification/KeyExchangeSpec.v ===== *)
(** * KeyExchangeSpec: keys are written last, and both sides agree

    Version negotiation, the order of the checks and the writes to the target
    TD, and the agreement of the two sides of an exchange (KeyExchange). *)
From stdpp Require Import base tactics numbers list list_numbers option gmap.
From S2P Require Import Prelude MigData MigDataSpec PreSession PreSessionSpec ServtdExt KeyExchange.
Local Open Scope Z_scope.

(** ** Exchange information *)

Record exchange_ok (i : ExchangeInformation) : Prop := {
  x_key : length (key i) = 4%nat;
  x_words : Forall (in_u 64) (key i);
  x_min : in_u 16 (min_ver i);
  x_max : in_u 16 (max_ver i);
  x_zero : ei_reserved i = zeros 4 }.

Lemma exchange_roundtrip i : exchange_ok i → exchange_of_bytes (exchange_as_bytes i) = Some i.
Proof.
  intros [Hk Hw Hmin Hmax Hr]. destruct i as [k lo hi r]. cbn [key min_ver max_ver ei_reserved] in *. subst r.
  destruct k as [|k0 [|k1 [|k2 [|k3 [|]]]]]; try done.
  apply Forall_cons_1 in Hw as [H0 Hw]. apply Forall_cons_1 in Hw as [H1 Hw].
  apply Forall_cons_1 in Hw as [H2 Hw]. apply Forall_cons_1 in Hw as [H3 _].
  assert (exchange_as_bytes (mkExchange [k0; k1; k2; k3] lo hi (zeros 4)) =
    concat [le_bytes 8 k0; le_bytes 8 k1; le_bytes 8 k2; le_bytes 8 k3; le_bytes 2 lo; le_bytes 2 hi; zeros 4]) as ->.
  { unfold exchange_as_bytes. cbn [key min_ver max_ver ei_reserved map concat]. by rewrite !app_nil_r, <-!app_assoc. }
  unfold exchange_of_bytes.
  rd_seg 0%nat page_len. rd_seg 1%nat page_len. rd_seg 2%nat page_len. rd_seg 3%nat page_len.
  rd_seg 4%nat page_len. rd_seg 5%nat page_len. rd_seg 6%nat page_len.
  by rewrite !le_val_bytes, !Z.mod_small.
Qed.

Lemma lenz_exchange i : exchange_ok i → lenz (exchange_as_bytes i) = EXCHANGE_SIZE.
Proof.
  intros [Hk _ _ _ Hr]. unfold exchange_as_bytes. rewrite Hr, !lenz_app, !lenz_le_bytes. unfold lenz.
  rewrite length_words, Hk. done.
Qed.

(** The versions a side accepts. *)
Definition supports (i : ExchangeInformation) (v : Z) : Prop := min_ver i <= v <= max_ver i.

Lemma cal_mig_version_cases is_src l r :
  (cal_mig_version is_src l r = Ok (Z.min (max_ver l) (max_ver r)) ∧
   supports l (Z.min (max_ver l) (max_ver r)) ∧ supports r (Z.min (max_ver l) (max_ver r))) ∨
  (cal_mig_version is_src l r = Err (Failed MigrationResult.InvalidParameter) ∧
   ∀ v, supports l v → supports r v → False).
Proof.
  unfold cal_mig_version, supports. destruct is_src; cbv zeta beta iota.
  - destruct (Z.ltb_spec (max_ver l) (min_ver l)), (Z.ltb_spec (max_ver r) (min_ver r)),
      (Z.ltb_spec (max_ver l) (min_ver r)), (Z.ltb_spec (max_ver r) (min_ver l)); cbn [orb];
      first [left; split; [done|lia]|right; split; [done|lia]].
  - rewrite (Z.min_comm (max_ver r)).
    destruct (Z.ltb_spec (max_ver r) (min_ver r)), (Z.ltb_spec (max_ver l) (min_ver l)),
      (Z.ltb_spec (max_ver r) (min_ver l)), (Z.ltb_spec (max_ver l) (min_ver r)); cbn [orb];
      first [left; split; [done|lia]|right; split; [done|lia]].
Qed.

(** ** Reads and writes of the target TD *)

Definition is_write (c : TdCall) : bool :=
  match c with ServtdWr _ _ _ _ _ | VmWr _ _ _ _ | RebindApprove _ _ _ _ => true | _ => false end.

Definition no_writes (l : list TdCall) : Prop := Forall (λ c, is_write c = false) l.

Lemma no_writes_app l k : no_writes l → no_writes k → no_writes (l ++ k).
Proof. apply Forall_app_2. Qed.

Lemma no_writes_rd bh f u xs : no_writes (rd_log bh f u xs).
Proof. apply Forall_forall. intros c Hc. apply elem_of_lookup_imap in Hc as (i & x & -> & _). done. Qed.

(** The writes of an exchange in order: the version, then the key. *)
Definition msk_writes (v : Z) (k : list Z) : list (Z * Z) :=
  (TDCS_FIELD_MIG_VERSION, v) :: imap (λ i x, (TDCS_FIELD_MIG_DEC_KEY + Z.of_nat i, x)) k.

(** The calls [ws] as far as they went: all but the last succeeded. *)
Definition wr_log (bh : Z) (uuid : list Z) (ws : list (Z * Z)) (oks : list bool) : list TdCall :=
  zip_with (λ p ok, ServtdWr bh p.1 p.2 uuid ok) ws oks.

Lemma wr_log_false bh uuid f x ws : wr_log bh uuid ((f, x) :: ws) [false] = [ServtdWr bh f x uuid false].
Proof. unfold wr_log. cbn [zip_with]. by rewrite zip_with_nil_r. Qed.

Definition wr_result {A} (n : nat) (oks : list bool) (r : outcome (aerr MigrationResult) A) : Prop :=
  match r with
  | Ok _ => oks = replicate n true
  | Err e => e = Failed MigrationResult.TdxModuleError ∧ ∃ k, (k < n)%nat ∧ oks = replicate k true ++ [false]
  | Panic => False
  end.

Lemma fields_cons (f x : Z) k :
  imap (λ i x, (f + Z.of_nat i, x)) (x :: k) = (f, x) :: imap (λ i x, (f + 1 + Z.of_nat i, x)) k.
Proof. cbn [imap]. f_equal; [f_equal; lia|]. apply imap_ext. intros i y _. cbn. f_equal. lia. Qed.

Section td.
Context {TM : Type} `{TdxModule TM}.

(** A run that only reads. *)
Definition reads {A} (m : M (TdWorld TM) (aerr MigrationResult) A) : Prop :=
  ∀ w r w', m w = (r, w') → ∃ new, td_log w' = td_log w ++ new ∧ no_writes new.

Lemma reads_bind {A B} (m : M (TdWorld TM) (aerr MigrationResult) A) (f : A → M (TdWorld TM) (aerr MigrationResult) B) :
  reads m → (∀ a, reads (f a)) → reads (m ≫= f).
Proof.
  intros Hm Hf w r w'. rewrite M_bind_eq. destruct (m w) as [[a|e|] w1] eqn:E; apply Hm in E as (n1 & L1 & N1).
  - intros (n2 & L2 & N2)%Hf. exists (n1 ++ n2). rewrite L2, L1, <-app_assoc. split; [done|by apply no_writes_app].
  - intros [= <- <-]. eauto.
  - intros [= <- <-]. eauto.
Qed.

Lemma reads_ret {A} (a : A) : reads (mret a).
Proof. intros w r w' [= <- <-]. exists []. rewrite app_nil_r. split; [done|apply Forall_nil_2]. Qed.
Lemma reads_err_if c e : reads (err_if c e).
Proof. destruct c; intros w r w' [= <- <-]; exists []; rewrite app_nil_r; (split; [done|apply Forall_nil_2]). Qed.
Lemma reads_servtd_rd bh f u : reads (tdcall_servtd_rd bh f u).
Proof. intros w r w' (o & L & _)%servtd_rd_post. exists [ServtdRd bh f u o]. split; [done|]. by repeat constructor. Qed.
Lemma reads_sys_rd f : reads (tdcall_sys_rd f).
Proof.
  intros w r w' E. unfold tdcall_sys_rd in E. destruct (sys_rd f (td_module w)) as [o tm].
  exists [SysRd f o]. split; [by destruct o; injection E as <- <-|by repeat constructor].
Qed.
Lemma reads_read_key info f n : reads (read_key info f n).
Proof.
  revert f. induction n as [|n IH]; intros f; cbn [read_key]; [apply reads_ret|].
  apply reads_bind; [apply reads_servtd_rd|]. intros x. apply reads_bind; [done|]. intros l. apply reads_ret.
Qed.

Lemma reads_exchange_info info s : reads (exchange_info info s).
Proof.
  unfold exchange_info. apply reads_bind; [apply reads_read_key|]. intros k. destruct s;
    (apply reads_bind; [apply reads_sys_rd|]; intros a; apply reads_bind; [apply reads_sys_rd|]; intros b;
     apply reads_bind; [apply reads_err_if|]; intros u; apply reads_ret).
Qed.

Lemma reads_verify bh u : reads (verify_servtd_attr bh u).
Proof. apply reads_bind; [apply reads_servtd_rd|]. intros x. apply reads_err_if. Qed.

(** What a successful [exchange_info] is made of. *)
Lemma read_key_Ok info f n (w : TdWorld TM) k w' : read_key info f n w = (Ok k, w') →
  length k = n ∧ Forall (in_u 64) k ∧ td_log w' = td_log w ++ rd_log (binding_handle info) f (target_td_uuid info) k.
Proof.
  revert f w k. induction n as [|n IH]; intros f w k; cbn [read_key].
  - intros [= <- <-]. by rewrite app_nil_r.
  - intros (x & w1 & E1 & E)%M_bind_Ok_inv. apply servtd_rd_post in E1 as ([x'|] & L1 & Hx); [|done].
    destruct Hx as [Hx [= <-]]. apply M_bind_Ok_inv in E as (l & w2 & E2 & E). injection E as <- <-.
    apply IH in E2 as (Hl & Hw & L2).
    rewrite rd_log_cons, L2, L1, <-app_assoc. cbn. split_and!; [by f_equal|by constructor|done].
Qed.

Lemma sys_rd_Ok f (w : TdWorld TM) x w' : tdcall_sys_rd f w = (Ok x, w') → in_u 64 x ∧ td_log w' = td_log w ++ [SysRd f (Some x)].
Proof.
  unfold tdcall_sys_rd. destruct (sys_rd f (td_module w)) as [[y|] tm] eqn:E; intros [= <- <-]. split; [by eapply sys_rd_range|done].
Qed.

(** What a side reads for the exchange: the encryption key of its target TD, and the
    export versions of the source or the import versions of the destination. *)
Definition info_reads (info : MigtdMigrationInformation) (s : bool) (i : ExchangeInformation) : list TdCall :=
  rd_log (binding_handle info) TDCS_FIELD_MIG_ENC_KEY (target_td_uuid info) (key i) ++
  [SysRd (if s then GSM_FIELD_MIN_EXPORT_VERSION else GSM_FIELD_MIN_IMPORT_VERSION) (Some (min_ver i));
   SysRd (if s then GSM_FIELD_MAX_EXPORT_VERSION else GSM_FIELD_MAX_IMPORT_VERSION) (Some (max_ver i))].

Lemma exchange_info_Ok info s (w : TdWorld TM) i w' : exchange_info info s w = (Ok i, w') →
  exchange_ok i ∧ td_log w' = td_log w ++ info_reads info s i.
Proof.
  unfold exchange_info. intros (k & w1 & (Hk & Hw & L1)%read_key_Ok & E)%M_bind_Ok_inv.
  set (f1 := if s then GSM_FIELD_MIN_EXPORT_VERSION else GSM_FIELD_MIN_IMPORT_VERSION).
  set (f2 := if s then GSM_FIELD_MAX_EXPORT_VERSION else GSM_FIELD_MAX_IMPORT_VERSION).
  assert ((a ← tdcall_sys_rd f1; b ← tdcall_sys_rd f2;
    _ ← err_if ((u_max 16 <? a) || (u_max 16 <? b)) (Failed MigrationResult.InvalidParameter);
    mret (mkExchange k a b (zeros 4))) w1 = (Ok i, w')) as E' by (by destruct s).
  apply M_bind_Ok_inv in E' as (a & w2 & [Ha L2]%sys_rd_Ok & E'). apply M_bind_Ok_inv in E' as (b & w3 & [Hb L3]%sys_rd_Ok & E').
  rewrite err_if_bind in E'. destruct (_ || _) eqn:Eo; [done|]. injection E' as <- <-.
  apply orb_false_iff in Eo as [Ha'%Z.ltb_ge Hb'%Z.ltb_ge]. unfold in_u, u_max in *.
  split; [constructor; cbn [key min_ver max_ver ei_reserved]; [done|done|unfold in_u; lia|unfold in_u; lia|done]|].
  unfold info_reads. cbn [key min_ver max_ver]. by rewrite L3, L2, L1, <-!app_assoc.
Qed.

Lemma verify_Ok bh u (w : TdWorld TM) x w' : verify_servtd_attr bh u w = (Ok x, w') →
  td_log w' = td_log w ++ [ServtdRd bh TDCS_FIELD_SERVTD_ATTR u (Some EXPECTED_SERVTD_ATTR)].
Proof.
  unfold verify_servtd_attr. intros (a & w1 & E1 & E)%M_bind_Ok_inv.
  apply servtd_rd_post in E1 as ([y|] & L1 & Hy); [|done]. destruct Hy as [_ [= <-]].
  apply err_if_Ok in E as [He%negb_false_iff%Z.eqb_eq ->]. by subst a.
Qed.

Lemma servtd_wr_post bh f x u (w : TdWorld TM) r w' : tdcall_servtd_wr bh f x u w = (r, w') →
  ∃ ok : bool, td_log w' = td_log w ++ [ServtdWr bh f x u ok] ∧
    r = if ok then Ok tt else Err (Failed MigrationResult.TdxModuleError).
Proof.
  unfold tdcall_servtd_wr. destruct (servtd_wr bh f x u (td_module w)) as [[] tm]; intros [= <- <-];
    [by exists true|by exists false].
Qed.

Lemma write_key_post info f k (w : TdWorld TM) r w' : write_key info f k w = (r, w') →
  ∃ oks, td_log w' = td_log w ++ wr_log (binding_handle info) (target_td_uuid info)
      (imap (λ i x, (f + Z.of_nat i, x)) k) oks ∧ wr_result (length k) oks r.
Proof.
  revert f w. induction k as [|x k IH]; intros f w; cbn [write_key].
  - intros [= <- <-]. exists []. by rewrite app_nil_r.
  - rewrite M_bind_eq. destruct (tdcall_servtd_wr _ _ _ _ w) as [r1 w1] eqn:E1.
    apply servtd_wr_post in E1 as ([] & L1 & ->).
    + intros (oks & L2 & Hr)%IH. exists (true :: oks). split.
      * by rewrite L2, L1, <-app_assoc, fields_cons.
      * destruct r; [by cbn in *; subst| |done]. destruct Hr as (-> & j & Hj & ->). split; [done|].
        exists (S j). cbn. split; [lia|done].
    + intros [= <- <-]. exists [false]. rewrite fields_cons. split; [by rewrite L1, wr_log_false|].
      split; [done|]. exists 0%nat. cbn. split; [lia|done].
Qed.

(** The two final steps together. *)
Lemma finish_post info v k (w : TdWorld TM) r w' :
  (_ ← set_mig_version info v; write_msk info k) w = (r, w') →
  ∃ oks, td_log w' = td_log w ++ wr_log (binding_handle info) (target_td_uuid info) (msk_writes v k) oks ∧
    wr_result (S (length k)) oks r.
Proof.
  rewrite M_bind_eq. unfold set_mig_version. destruct (tdcall_servtd_wr _ _ _ _ w) as [r1 w1] eqn:E1.
  apply servtd_wr_post in E1 as ([] & L1 & ->).
  - intros (oks & L2 & Hr)%write_key_post. exists (true :: oks). split.
    + rewrite L2, L1, <-app_assoc. done.
    + destruct r; [by cbn in *; subst| |done]. destruct Hr as (-> & j & Hj & ->). split; [done|].
      exists (S j). cbn. split; [lia|done].
  - intros [= <- <-]. exists [false]. split; [by rewrite L1; unfold msk_writes; rewrite wr_log_false|]. split; [done|]. exists 0%nat. cbn. split; [lia|done].
Qed.

End td.

(** ** The exchange *)

Section exchange.
Context {T SS TM : Type} {BS : ByteStream T} {SE : SecureSession T SS} {TD : TdxModule TM} {F : Features} {HP : Heap}.
Context (setup : MigrationInformation → outcome (aerr MigrationResult) T) (policy chain : option bytes).
Context (binding_ok : bytes → bool).

(** The exchange reached the target TD with these results of its steps. *)
Record exchanged (info : MigrationInformation) (w : TdWorld TM) (local remote : ExchangeInformation) (v : Z) : Prop := {
  ex_binding : check_binding binding_ok info = Ok tt;
  ex_local : (exchange_info (mig_info info) (is_src info) w).1 = Ok local;
  ex_peer : ∃ t pd, connect_peer setup policy chain info = Ok (t, pd) ∧
              migration_exchange_msk (is_src info) t pd local = Ok remote;
  ex_version : cal_mig_version (is_src info) local remote = Ok v }.

Lemma liftO_inv {S E A B} (o : outcome E A) (f : A → M S E B) s r s' : (liftO o ≫= f) s = (r, s') →
  (∃ a, o = Ok a ∧ f a s = (r, s')) ∨ (s' = s ∧ ∀ b, r ≠ Ok b).
Proof. rewrite liftO_bind. destruct o; [eauto|by intros [= <- <-]; right..]. Qed.

Lemma exchange_msk_post info (w : TdWorld TM) r w' : exchange_msk setup policy chain binding_ok info w = (r, w') →
  (∃ new, td_log w' = td_log w ++ new ∧ no_writes new ∧ r ≠ Ok tt) ∨
  (∃ local remote v pre oks, exchanged info w local remote v ∧
    let mi := mig_info info in
    td_log w' = td_log w ++ pre ++ [ServtdRd (binding_handle mi) TDCS_FIELD_SERVTD_ATTR (target_td_uuid mi) (Some EXPECTED_SERVTD_ATTR)]
      ++ wr_log (binding_handle mi) (target_td_uuid mi) (msk_writes v (key remote)) oks ∧
    no_writes pre ∧ wr_result (S (length (key remote))) oks r).
Proof.
  unfold exchange_msk. intros E.
  assert (∀ w', w' = w → ∃ new, td_log w' = td_log w ++ new ∧ no_writes new) as Hnone.
  { intros w0 ->. exists []. rewrite app_nil_r. split; [done|apply Forall_nil_2]. }
  apply liftO_inv in E as [([] & Hb & E)|[-> Hr]]; [|left; destruct (Hnone w eq_refl) as (n & ? & ?); by exists n].
  apply liftO_inv in E as [([t pd] & Hp & E)|[-> Hr]]; [|left; destruct (Hnone w eq_refl) as (n & ? & ?); by exists n].
  rewrite M_bind_eq in E. destruct (exchange_info (mig_info info) (is_src info) w) as [r1 w1] eqn:E1.
  pose proof (reads_exchange_info (mig_info info) (is_src info) _ _ _ E1) as (n1 & L1 & N1).
  destruct r1 as [local|e|]; [|left; injection E as <- <-; by exists n1..].
  apply liftO_inv in E as [(remote & Hrem & E)|[-> Hr]]; [|left; by exists n1].
  apply liftO_inv in E as [(v & Hv & E)|[-> Hr]]; [|left; by exists n1].
  rewrite M_bind_eq in E. destruct (verify_servtd_attr _ _ w1) as [r2 w2] eqn:E2.
  pose proof (reads_verify _ _ _ _ _ E2) as (n2 & L2 & N2).
  destruct r2 as [u|e|]; [|left; injection E as <- <-; exists (n1 ++ n2); rewrite L2, L1, <-app_assoc;
    split_and!; [done|by apply no_writes_app|done]..].
  apply verify_Ok in E2. apply finish_post in E as (oks & L3 & Hr). right. exists local, remote, v, n1, oks. split_and!; [|by rewrite L3, E2, L1, <-!app_assoc|done|done].
  constructor; [done|by rewrite E1|by exists t, pd|done].
Qed.

(** The peer's information came out of the session and was checked. *)
Lemma migration_exchange_Ok s t pd local remote : migration_exchange_msk s t pd local = Ok remote →
  ∃ ss ss1 ss2 n bs, session_new s t pd = Ok ss ∧ session_write (T := T) (exchange_as_bytes local) ss = (Ok n, ss1) ∧
    session_read (T := T) EXCHANGE_SIZE ss1 = (Ok bs, ss2) ∧ EXCHANGE_SIZE <= lenz bs ∧
    exchange_of_bytes bs = Some remote ∧ ei_reserved remote = zeros 4.
Proof.
  unfold migration_exchange_msk. destruct (session_new s t pd) as [ss| |] eqn:Es; cbn [mbind outcome_bind]; [|done..].
  destruct (session_exchange local ss) as [r s'] eqn:E. cbn [fst]. intros ->. unfold session_exchange in E.
  assert (∀ {A} (m : M SS (aerr MigrationResult) A) x y z, with_timeout m x = (Ok y, z) → m x = (Ok y, z)) as Hto.
  { intros A m x y z. unfold with_timeout. by destruct (m x) as [[|[]|] ?]. }
  apply M_bind_Ok_inv in E as (n & ss1 & E1%Hto & E). apply M_bind_Ok_inv in E as (bs & ss2 & E2%Hto & E).
  apply M_bind_Ok_inv in E as (u & ss3 & [Hl%Z.ltb_ge ->]%err_if_Ok & E).
  rewrite or_panic_bind in E. destruct (exchange_of_bytes bs) as [rem|] eqn:Eb; [|done].
  rewrite liftO_bind in E. unfold validate in E. case_bool_decide as Hz; [|done].
  apply M_bind_Ok_inv in E as (u2 & ss4 & _ & E). injection E as <- _.
  by exists ss, ss1, ss2, n, bs.
Qed.

(** With a peer's information at hand, the rest of an exchange is the check of the
    version, the check of the attributes and the writes. *)
Lemma exchange_msk_from info (w w1 : TdWorld TM) t pd local remote :
  check_binding binding_ok info = Ok tt → connect_peer setup policy chain info = Ok (t, pd) →
  exchange_info (mig_info info) (is_src info) w = (Ok local, w1) → migration_exchange_msk (is_src info) t pd local = Ok remote →
  exchange_msk setup policy chain binding_ok info w =
  (mig_ver ← liftO (cal_mig_version (is_src info) local remote);
   _ ← verify_servtd_attr (binding_handle (mig_info info)) (target_td_uuid (mig_info info));
   _ ← set_mig_version (mig_info info) mig_ver;
   write_msk (mig_info info) (key remote)) w1.
Proof.
  intros Hb Hc Hl Hm. unfold exchange_msk. rewrite liftO_bind, Hb, liftO_bind, Hc, (M_bind_Ok _ _ _ _ _ Hl), liftO_bind. cbn [fst snd]. by rewrite Hm.
Qed.

End exchange.

(** ** Two sessions that are the ends of one channel *)

(** What a secure session promises to its user.  [wrote] is what this side wrote into
    it, [unread] what the peer wrote and this side has not read, a record per write;
    [arrive] is the arrival of more.  Writes are taken, a read waits for the first
    record and returns it whole when it fits. *)
Class SessionLaws (T SS : Type) `{SecureSession T SS} := {
  wrote : SS → list bytes;
  unread : SS → list bytes;
  arrive : list bytes → SS → SS;
  session_fresh s t pd ss : session_new s t pd = Ok ss → wrote ss = [] ∧ unread ss = [];
  write_taken bs ss : bs ≠ [] →
    ∃ n ss', session_write bs ss = (Ok n, ss') ∧ wrote ss' = wrote ss ++ [bs] ∧ unread ss' = unread ss;
  read_waits n ss : unread ss = [] → ∃ ss', session_read n ss = (Err Pending, ss') ∧ wrote ss' = wrote ss;
  read_delivers n ss r rest : unread ss = r :: rest → lenz r <= n →
    ∃ more ss', session_read n ss = (Ok (r ++ more), ss') ∧ lenz (r ++ more) <= n ∧ wrote ss' = wrote ss;
  shutdown_done ss : ∃ ss', session_shutdown ss = (Ok tt, ss') ∧ wrote ss' = wrote ss;
  arrive_unread l ss : unread (arrive l ss) = unread ss ++ l;
  arrive_wrote l ss : wrote (arrive l ss) = wrote ss }.

(** The sessions in which the first records [input] of the peer have arrived. *)
Definition fed {T SS} `{SessionLaws T SS} (input : list bytes) : SecureSession T SS := {|
  session_new := λ s t pd, ss ← session_new s t pd; Ok (arrive input ss);
  session_write := session_write (T := T); session_read := session_read (T := T); session_shutdown := session_shutdown (T := T) |}.

Section session.
Context {T SS : Type} {SE : SecureSession T SS} {SL : SessionLaws T SS}.

Lemma exchange_nonempty i : exchange_ok i → exchange_as_bytes i ≠ [].
Proof. intros Hi E. pose proof (lenz_exchange i Hi) as Hl. by rewrite E in Hl. Qed.

Lemma with_timeout_Ok {A} (m : M SS (aerr MigrationResult) A) ss a ss' : m ss = (Ok a, ss') → with_timeout m ss = (Ok a, ss').
Proof. unfold with_timeout. by intros ->. Qed.

(** A side that has nothing to read has written its information and waits ... *)
Lemma session_waits local ss : exchange_ok local → wrote ss = [] → unread ss = [] →
  (session_exchange (T := T) local ss).1 = Err (Failed MigrationResult.NetworkError) ∧
  wrote (session_exchange (T := T) local ss).2 = [exchange_as_bytes local].
Proof.
  intros Hl Hw Hu. destruct (write_taken _ ss (exchange_nonempty _ Hl)) as (n & ss1 & E1 & Hw1 & Hu1). rewrite Hw in Hw1. rewrite Hu in Hu1.
  destruct (read_waits EXCHANGE_SIZE ss1 Hu1) as (ss2 & E2 & Hw2).
  unfold session_exchange. rewrite (M_bind_Ok _ _ _ _ _ (with_timeout_Ok _ _ _ _ E1)), M_bind_eq. unfold with_timeout. rewrite E2.
  split; [done|]. cbn. by rewrite Hw2, Hw1.
Qed.

(** ... and with the peer's information at hand it returns it. *)
Lemma session_completes local peer ss : exchange_ok local → exchange_ok peer → wrote ss = [] → unread ss = [exchange_as_bytes peer] →
  (session_exchange (T := T) local ss).1 = Ok peer ∧ wrote (session_exchange (T := T) local ss).2 = [exchange_as_bytes local].
Proof.
  intros Hl Hp Hw Hu. destruct (write_taken _ ss (exchange_nonempty _ Hl)) as (n & ss1 & E1 & Hw1 & Hu1). rewrite Hw in Hw1. rewrite Hu in Hu1.
  pose proof (lenz_exchange peer Hp) as Hlp.
  destruct (read_delivers EXCHANGE_SIZE ss1 _ [] Hu1) as (more & ss2 & E2 & Hm & Hw2); [lia|].
  assert (more = []) as ->. { rewrite lenz_app in Hm. destruct more; [done|]. unfold lenz in *. cbn [length] in Hm. lia. }
  rewrite app_nil_r in E2. destruct (shutdown_done ss2) as (ss3 & E3 & Hw3).
  unfold session_exchange. rewrite (M_bind_Ok _ _ _ _ _ (with_timeout_Ok _ _ _ _ E1)), (M_bind_Ok _ _ _ _ _ (with_timeout_Ok _ _ _ _ E2)).
  rewrite err_if_bind, Hlp. change (EXCHANGE_SIZE <? EXCHANGE_SIZE) with false. rewrite exchange_roundtrip, or_panic_bind, liftO_bind by done.
  unfold validate. rewrite bool_decide_eq_true_2 by apply Hp. rewrite (M_bind_Ok _ _ _ _ _ E3). split; [done|]. cbn. by rewrite Hw3, Hw2, Hw1.
Qed.

Lemma fed_exchange input s t pd ss local : session_new s t pd = Ok ss →
  migration_exchange_msk (H0 := fed input) s t pd local = (session_exchange (T := T) local (arrive input ss)).1.
Proof. intros E. unfold migration_exchange_msk. cbn [session_new fed]. by rewrite E. Qed.

End session.

(** Each side is a function of the records that have arrived: what one has written
    after [k] rounds is what the other has received in the next. *)
Section rounds.
Context {TA SA TB SB : Type} {EA : SecureSession TA SA} {LA : SessionLaws TA SA} {EB : SecureSession TB SB} {LB : SessionLaws TB SB}.
Context (lA lB : ExchangeInformation) (ssA : SA) (ssB : SB).

Fixpoint msk_rounds (k : nat) : list bytes * list bytes :=
  match k with
  | O => ([], [])
  | S j =>
      let '(ia, ib) := msk_rounds j in
      (wrote (session_exchange (T := TB) lB (arrive ib ssB)).2, wrote (session_exchange (T := TA) lA (arrive ia ssA)).2)
  end.

Context (HlA : exchange_ok lA) (HlB : exchange_ok lB) (HA : wrote ssA = [] ∧ unread ssA = []) (HB : wrote ssB = [] ∧ unread ssB = []).

Lemma rounds_exchanged k : msk_rounds (S k) = ([exchange_as_bytes lB], [exchange_as_bytes lA]).
Proof.
  destruct HA as [HwA HuA], HB as [HwB HuB]. induction k as [|k IH].
  - cbn [msk_rounds]. rewrite (proj2 (session_waits lB (arrive [] ssB) HlB ltac:(by rewrite arrive_wrote) ltac:(by rewrite arrive_unread, HuB))).
    by rewrite (proj2 (session_waits lA (arrive [] ssA) HlA ltac:(by rewrite arrive_wrote) ltac:(by rewrite arrive_unread, HuA))).
  - change (msk_rounds (S (S k))) with (let '(ia, ib) := msk_rounds (S k) in
      (wrote (session_exchange (T := TB) lB (arrive ib ssB)).2, wrote (session_exchange (T := TA) lA (arrive ia ssA)).2)). rewrite IH.
    rewrite (proj2 (session_completes lB lA (arrive _ ssB) HlB HlA ltac:(by rewrite arrive_wrote) ltac:(by rewrite arrive_unread, HuB))).
    by rewrite (proj2 (session_completes lA lB (arrive _ ssA) HlA HlB ltac:(by rewrite arrive_wrote) ltac:(by rewrite arrive_unread, HuA))).
Qed.

End rounds.

(** ** Claims *)

(** (functional) The migration version is the greatest one both sides
    support, the same whichever side computes it; there is an error exactly
    when they have none in common. *)
Theorem mig_version_greatest_common is_src l r :
  (∀ v, cal_mig_version is_src l r = Ok v ↔
     supports l v ∧ supports r v ∧ ∀ v', supports l v' → supports r v' → v' <= v) ∧
  (cal_mig_version is_src l r = Err (Failed MigrationResult.InvalidParameter) ↔
     ∀ v, ¬ (supports l v ∧ supports r v)) ∧
  cal_mig_version is_src l r = cal_mig_version (negb is_src) r l ∧
  cal_mig_version is_src l r ≠ Panic.
Proof.
  assert (cal_mig_version is_src l r = cal_mig_version (negb is_src) r l) as Hsym by (by destruct is_src).
  destruct (cal_mig_version_cases is_src l r) as [(E & Hl & Hr)|[E Hno]]; rewrite E in *.
  - split_and!; try done.
    + intros v. split; [intros [= <-]; unfold supports in *; split_and!; try lia; intros; lia|].
      intros (H1 & H2 & H3). f_equal. specialize (H3 _ Hl Hr). unfold supports in *. lia.
    + split; [done|]. intros Hn. by destruct (Hn _ (conj Hl Hr)).
  - split_and!; try done.
    + intros v. split; [done|]. intros (H1 & H2 & _). by destruct (Hno v).
    + split; [|done]. intros _ v [H1 H2]. by apply (Hno v).
Qed.

Section safety.
Context {T SS TM : Type} {BS : ByteStream T} {SE : SecureSession T SS} {TD : TdxModule TM} {F : Features} {HP : Heap}.
Context (setup : MigrationInformation → outcome (aerr MigrationResult) T) (policy chain : option bytes).
Context (binding_ok : bytes → bool).

(** C1 (safety) Whatever the peer, the VMM and the TDX module do, an exchange
    writes to the target TD only after the policy binding was verified, the
    peer's information came out of an established session and was validated, a
    common version was found and the SERVTD_ATTR read last was the expected one;
    it then writes the version and the peer's key words in order, stopping at
    the first failure, and succeeds exactly when all of them succeed. *)
Theorem exchange_msk_writes_last info (w : TdWorld TM) r w'
  (E : exchange_msk setup policy chain binding_ok info w = (r, w')) :
  (∃ new, td_log w' = td_log w ++ new ∧ no_writes new ∧ r ≠ Ok tt) ∨
  (∃ local remote v pre oks, exchanged setup policy chain binding_ok info w local remote v ∧
    td_log w' = td_log w ++ pre ++
      [ServtdRd (binding_handle (mig_info info)) TDCS_FIELD_SERVTD_ATTR (target_td_uuid (mig_info info)) (Some EXPECTED_SERVTD_ATTR)] ++
      wr_log (binding_handle (mig_info info)) (target_td_uuid (mig_info info)) (msk_writes v (key remote)) oks ∧
    no_writes pre ∧ wr_result (S (length (key remote))) oks r).
Proof. exact (exchange_msk_post setup policy chain binding_ok info w r w' E). Qed.

End safety.

(** What the calls [log] of one side are, and how it ended, when the information of
    the peer is [remote] and the version [v]: the reads of its own information, the
    read of the attributes and, if these are the expected ones, the writes of the version
    and of the peer's key as far as the TDX module accepted them. *)
Definition installed (info : MigrationInformation) (local remote : ExchangeInformation) (v : Z)
  (log : list TdCall) (r : outcome (aerr MigrationResult) unit) : Prop :=
  let bh := binding_handle (mig_info info) in
  let uuid := target_td_uuid (mig_info info) in
  ∃ attr tail, log = info_reads (mig_info info) (is_src info) local ++ [ServtdRd bh TDCS_FIELD_SERVTD_ATTR uuid attr] ++ tail ∧
    if decide (attr = Some EXPECTED_SERVTD_ATTR)
    then ∃ oks, tail = wr_log bh uuid (msk_writes v (key remote)) oks ∧ wr_result 5 oks r
    else tail = [] ∧ ∀ u, r ≠ Ok u.

Lemma finish_installed {TM} `{TdxModule TM} info local remote v (w : TdWorld TM) r w' : length (key remote) = 4%nat →
  (_ ← verify_servtd_attr (binding_handle (mig_info info)) (target_td_uuid (mig_info info));
   _ ← set_mig_version (mig_info info) v;
   write_msk (mig_info info) (key remote)) w = (r, w') →
  ∃ new, td_log w' = td_log w ++ new ∧ installed info local remote v (info_reads (mig_info info) (is_src info) local ++ new) r.
Proof.
  intros Hk. rewrite M_bind_eq. destruct (verify_servtd_attr _ _ w) as [r1 w1] eqn:E1. unfold verify_servtd_attr in E1. rewrite M_bind_eq in E1.
  destruct (tdcall_servtd_rd _ _ _ w) as [r0 w0] eqn:E0. apply servtd_rd_post in E0 as (attr & L0 & Ha).
  assert (∀ r2 w2, (r2, w2) = (r, w') → w2 = w0 → attr ≠ Some EXPECTED_SERVTD_ATTR → (∀ u, r2 ≠ Ok u) →
    ∃ new, td_log w' = td_log w ++ new ∧ installed info local remote v (info_reads (mig_info info) (is_src info) local ++ new) r) as Hbad.
  { intros r2 w2 [= -> ->] -> Hne Hr. eexists. split; [exact L0|]. exists attr, []. split; [done|]. by rewrite decide_False. }
  destruct attr as [x|]; [destruct Ha as [_ ->]|subst r0; injection E1 as <- <-; intros E; by apply (Hbad _ _ E)].
  destruct (Z.eqb_spec x EXPECTED_SERVTD_ATTR) as [->|Hx]; injection E1 as <- <-.
  - intros (oks & L2 & Hr)%finish_post. rewrite Hk in Hr. eexists. split; [by rewrite L2, L0, <-app_assoc|].
    exists (Some EXPECTED_SERVTD_ATTR). eexists. split; [done|]. rewrite decide_True by done. by exists oks.
  - intros E. apply (Hbad _ _ E); [done|congruence|done].
Qed.

Section agreement.
Context {TA SA MA TB SB MB : Type} {HA HB : Heap}.
Context {BA : ByteStream TA} {EA : SecureSession TA SA} {LA : SessionLaws TA SA} {DA : TdxModule MA} {FA : Features}.
Context {BB : ByteStream TB} {EB : SecureSession TB SB} {LB : SessionLaws TB SB} {DB : TdxModule MB} {FB : Features}.
Context (setupA : MigrationInformation → outcome (aerr MigrationResult) TA) (polA chainA : option bytes) (bindA : bytes → bool).
Context (setupB : MigrationInformation → outcome (aerr MigrationResult) TB) (polB chainB : option bytes) (bindB : bytes → bool).

(** C2 (functional) When source and destination are connected by the two ends of one
    session and pass their binding checks, each gets exactly the information the other
    wrote, after one round.  If no version is supported by both, both fail and write
    nothing.  Otherwise the calls of either side to the TDX module are these: it
    reads its own encryption key and versions and the attributes, and then writes the
    greatest version both support and, as its decryption key, the encryption key the
    other side read, unless the attributes are wrong or the module refuses a write. *)
Theorem exchange_msk_agrees infoA infoB (wA wA1 : TdWorld MA) (wB wB1 : TdWorld MB) lA lB tA pdA ssA tB pdB ssB k
  (Hsrc : is_src infoA = true) (Hdst : is_src infoB = false)
  (HbA : check_binding (H2 := FA) bindA infoA = Ok tt) (HbB : check_binding (H2 := FB) bindB infoB = Ok tt)
  (HcA : connect_peer (H2 := FA) (HP := HA) setupA polA chainA infoA = Ok (tA, pdA)) (HcB : connect_peer (H2 := FB) (HP := HB) setupB polB chainB infoB = Ok (tB, pdB))
  (HlA : exchange_info (mig_info infoA) true wA = (Ok lA, wA1)) (HlB : exchange_info (mig_info infoB) false wB = (Ok lB, wB1))
  (HsA : session_new true tA pdA = Ok ssA) (HsB : session_new false tB pdB = Ok ssB) (Hk : (1 <= k)%nat) :
  let io := msk_rounds lA lB ssA ssB k in
  let '(rA, wA') := exchange_msk (H0 := fed io.1) (H2 := FA) (HP := HA) setupA polA chainA bindA infoA wA in
  let '(rB, wB') := exchange_msk (H0 := fed io.2) (H2 := FB) (HP := HB) setupB polB chainB bindB infoB wB in
  migration_exchange_msk (H0 := fed io.1) true tA pdA lA = Ok lB ∧ migration_exchange_msk (H0 := fed io.2) false tB pdB lB = Ok lA ∧
  ((∀ v, supports lA v → supports lB v → False) →
     rA = Err (Failed MigrationResult.InvalidParameter) ∧ rB = Err (Failed MigrationResult.InvalidParameter) ∧
     td_log wA' = td_log wA ++ info_reads (mig_info infoA) true lA ∧ td_log wB' = td_log wB ++ info_reads (mig_info infoB) false lB) ∧
  (∀ v, supports lA v → supports lB v → (∀ v', supports lA v' → supports lB v' → v' <= v) →
     ∃ newA newB, td_log wA' = td_log wA ++ newA ∧ td_log wB' = td_log wB ++ newB ∧
       installed infoA lA lB v newA rA ∧ installed infoB lB lA v newB rB).
Proof.
  destruct (exchange_info_Ok _ _ _ _ _ HlA) as [OkA LogA], (exchange_info_Ok _ _ _ _ _ HlB) as [OkB LogB].
  pose proof (session_fresh _ _ _ _ HsA) as FrA. pose proof (session_fresh _ _ _ _ HsB) as FrB.
  intros io. assert (io = ([exchange_as_bytes lB], [exchange_as_bytes lA])) as ->.
  { unfold io. destruct k as [|k]; [lia|]. by apply rounds_exchanged. }
  cbn [fst snd].
  assert (migration_exchange_msk (H0 := fed [exchange_as_bytes lB]) true tA pdA lA = Ok lB) as MA'.
  { rewrite (fed_exchange _ _ _ _ _ _ HsA). apply session_completes; [done|done|by rewrite arrive_wrote; apply FrA|by rewrite arrive_unread, (proj2 FrA)]. }
  assert (migration_exchange_msk (H0 := fed [exchange_as_bytes lA]) false tB pdB lB = Ok lA) as MB'.
  { rewrite (fed_exchange _ _ _ _ _ _ HsB). apply session_completes; [done|done|by rewrite arrive_wrote; apply FrB|by rewrite arrive_unread, (proj2 FrB)]. }
  rewrite (exchange_msk_from (SE := fed [exchange_as_bytes lB]) (F := FA) (HP := HA) setupA polA chainA bindA infoA wA wA1 tA pdA lA lB) by (rewrite ?Hsrc; done).
  rewrite (exchange_msk_from (SE := fed [exchange_as_bytes lA]) (F := FB) (HP := HB) setupB polB chainB bindB infoB wB wB1 tB pdB lB lA) by (rewrite ?Hdst; done).
  rewrite !liftO_bind. rewrite Hsrc, Hdst. change (cal_mig_version false lB lA) with (cal_mig_version true lA lB).
  destruct (cal_mig_version_cases true lA lB) as [(-> & Sl & Sr)|[-> Hno]].
  - match goal with |- context [?m wA1] => destruct (m wA1) as [rA wA'] eqn:EA' end.
    match goal with |- context [?m wB1] => destruct (m wB1) as [rB wB'] eqn:EB' end.
    split; [done|]. split; [done|]. split; [intros Hn; by destruct (Hn _ Sl Sr)|]. intros v Hv1 Hv2 Hmax.
    assert (v = Z.min (max_ver lA) (max_ver lB)) as -> by (specialize (Hmax _ Sl Sr); unfold supports in *; lia).
    apply (finish_installed infoA lA lB) in EA' as (nA & LA' & IA); [|apply OkB].
    apply (finish_installed infoB lB lA) in EB' as (nB & LB' & IB); [|apply OkA].
    exists (info_reads (mig_info infoA) true lA ++ nA), (info_reads (mig_info infoB) false lB ++ nB).
    rewrite LA', LogA, LB', LogB, <-!app_assoc. rewrite Hsrc in IA. rewrite Hdst in IB. done.
  - split_and!; [done|done|done|]. intros v Hv1 Hv2. by destruct (Hno v).
Qed.

End agreement.

(** ** Witnesses *)

#[local] Existing Instance demo_heap.

(** A session that is a pair of the records written and those not read. *)
#[local] Instance demo_pipe : SecureSession Chan (list bytes * list bytes) :=
  {| session_new := λ _ _ _, Ok ([], []);
     session_write := λ bs s, (Ok (lenz bs), (s.1 ++ [bs], s.2));
     session_read := λ n s, match s.2 with [] => (Err Pending, s) | r :: l => (Ok (take (Z.to_nat n) r), (s.1, l)) end;
     session_shutdown := λ s, (Ok tt, s) |}.

#[local, refine] Instance demo_pipe_laws : SessionLaws Chan (list bytes * list bytes) :=
  {| wrote := fst; unread := snd; arrive := λ l s, (s.1, s.2 ++ l) |}.
Proof.
  - by intros s t pd ss [= <-].
  - intros bs ss _. cbn. eauto.
  - intros n [w u] Hu. cbn in Hu. subst u. by exists (w, []).
  - intros n [w u] r rest Hu Hn. cbn in Hu. subst u. exists [], (w, rest). cbn. by rewrite app_nil_r, take_ge by (unfold lenz in Hn; lia).
  - intros ss. cbn. eauto.
  - done.
  - done.
Defined.

Definition demo_fields (k lo hi : Z) : gmap Z Z :=
  {[ TDCS_FIELD_MIG_ENC_KEY := k; TDCS_FIELD_MIG_ENC_KEY + 1 := k + 1; TDCS_FIELD_MIG_ENC_KEY + 2 := k + 2;
     TDCS_FIELD_MIG_ENC_KEY + 3 := k + 3; GSM_FIELD_MIN_EXPORT_VERSION := lo; GSM_FIELD_MAX_EXPORT_VERSION := hi;
     GSM_FIELD_MIN_IMPORT_VERSION := lo; GSM_FIELD_MAX_IMPORT_VERSION := hi ]}.

Definition demo_localA : ExchangeInformation := mkExchange [100; 101; 102; 103] 1 5 (zeros 4).
Definition demo_localB : ExchangeInformation := mkExchange [200; 201; 202; 203] 2 3 (zeros 4).

Definition demo_infoA : MigrationInformation := mkInformation demo_info None None.
Definition demo_infoB : MigrationInformation :=
  mkInformation (mkMigInfo 8 0 0 (zeros 6) [5; 6; 7; 8] 10 0 0 []) None None.

Definition demo_plain : Features := {| vmcall_raw := true; policy_v2 := false; vsock := false; AzCVMEmu := false |}.

Definition demo_setup (input : bytes) : MigrationInformation → outcome (aerr MigrationResult) Chan :=
  λ _, Ok (mkChan input [] [] []).

Definition demo_worldA : TdWorld (gmap Z Z) := mkTdWorld (demo_fields 100 1 5) [].
Definition demo_worldB : TdWorld (gmap Z Z) := mkTdWorld (demo_fields 200 2 3) [].

Notation run_demo l F input pol chain info w :=
  (exchange_msk (H0 := fed [exchange_as_bytes l]) (H1 := demo_module) (H2 := F)
     (demo_setup input) pol chain (λ _, true) info w).

Lemma demo_local_ok : exchange_ok demo_localA ∧ exchange_ok demo_localB.
Proof. split; constructor; try done; repeat (apply Forall_cons_2; [done|]); apply Forall_nil_2. Qed.

Definition demo_readA : TdWorld (gmap Z Z) :=
  Eval vm_compute in (exchange_info (H := demo_module) (mig_info demo_infoA) true demo_worldA).2.
Definition demo_readB : TdWorld (gmap Z Z) :=
  Eval vm_compute in (exchange_info (H := demo_module) (mig_info demo_infoB) false demo_worldB).2.

Lemma demo_infos :
  exchange_info (H := demo_module) (mig_info demo_infoA) true demo_worldA = (Ok demo_localA, demo_readA) ∧
  exchange_info (H := demo_module) (mig_info demo_infoB) false demo_worldB = (Ok demo_localB, demo_readB).
Proof. split; vm_compute; reflexivity. Qed.

Definition demo_peerA : Chan * option bytes :=
  Eval vm_compute in match connect_peer (H2 := demo_features) (demo_setup demo_in) (Some [1; 2]) (Some [3]) demo_infoA with
                     | Ok p => p | _ => (mkChan [] [] [] [], None) end.

Lemma demo_connects :
  connect_peer (H2 := demo_features) (demo_setup demo_in) (Some [1; 2]) (Some [3]) demo_infoA = Ok (demo_peerA.1, demo_peerA.2) ∧
  connect_peer (H2 := demo_plain) (demo_setup []) None None demo_infoB = Ok (mkChan [] [] [] [], None).
Proof. split; vm_compute; reflexivity. Qed.

Definition demo_endA : TdWorld (gmap Z Z) :=
  Eval vm_compute in (run_demo demo_localB demo_features demo_in (Some [1; 2]) (Some [3]) demo_infoA demo_worldA).2.
Definition demo_endB : TdWorld (gmap Z Z) :=
  Eval vm_compute in (run_demo demo_localA demo_plain [] None None demo_infoB demo_worldB).2.

Lemma demo_runA :
  run_demo demo_localB demo_features demo_in (Some [1; 2]) (Some [3]) demo_infoA demo_worldA = (Ok tt, demo_endA).
Proof. vm_compute. reflexivity. Qed.

Lemma demo_runB : run_demo demo_localA demo_plain [] None None demo_infoB demo_worldB = (Ok tt, demo_endB).
Proof. vm_compute. reflexivity. Qed.

(** Both sides end with the key of the other and version 3. *)
Lemma exchange_msk_agrees_witness : ∃ newA newB, td_log demo_endA = newA ∧ td_log demo_endB = newB ∧
  installed demo_infoA demo_localA demo_localB 3 newA (Ok tt) ∧ installed demo_infoB demo_localB demo_localA 3 newB (Ok tt).
Proof.
  pose proof (exchange_msk_agrees (DA := demo_module) (FA := demo_features) (DB := demo_module) (FB := demo_plain)
    (demo_setup demo_in) (Some [1; 2]) (Some [3]) (λ _, true) (demo_setup []) None None (λ _, true)
    demo_infoA demo_infoB demo_worldA demo_readA demo_worldB demo_readB demo_localA demo_localB
    demo_peerA.1 demo_peerA.2 ([], []) (mkChan [] [] [] []) None ([], []) 1
    eq_refl eq_refl eq_refl eq_refl (proj1 demo_connects) (proj2 demo_connects) (proj1 demo_infos) (proj2 demo_infos)
    eq_refl eq_refl (le_n 1)) as H. cbv zeta in H.
  change (msk_rounds demo_localA demo_localB ([], []) ([], []) 1) with ([exchange_as_bytes demo_localB], [exchange_as_bytes demo_localA]) in H.
  cbv beta iota delta [fst snd] in H. rewrite demo_runA in H. rewrite demo_runB in H. destruct H as (_ & _ & _ & H). apply (H 3); [done|done|].
  unfold supports. cbn [demo_localA demo_localB min_ver max_ver]. lia.
Defined.

(** A peer without a common version. *)
Definition demo_old : ExchangeInformation := mkExchange [1; 2; 3; 4] 7 9 (zeros 4).

Definition demo_end_bad : TdWorld (gmap Z Z) :=
  Eval vm_compute in (run_demo demo_old demo_plain [] None None demo_infoB demo_worldB).2.

Lemma demo_run_bad : run_demo demo_old demo_plain [] None None demo_infoB demo_worldB =
  (Err (Failed MigrationResult.InvalidParameter), demo_end_bad).
Proof. vm_compute. reflexivity. Qed.

Lemma exchange_msk_writes_last_witness : no_writes (td_log demo_end_bad).
Proof.
  destruct (exchange_msk_writes_last (SE := fed [exchange_as_bytes demo_old]) (TD := demo_module) (F := demo_plain)
    (demo_setup []) None None (λ _, true) demo_infoB demo_worldB (Err (Failed MigrationResult.InvalidParameter)) demo_end_bad
    demo_run_bad) as [(new & Hl & Hn & _)|(l & rem & v & pre & oks & _ & _ & _ & [H _])]; [|discriminate H].
  rewrite Hl. exact Hn.
Defined.
