(* ===== verification/Scheduler.v ===== *)
(** * Scheduler: the executor and the request loop

    src/async/async_runtime/src/executor.rs ([Executor]) and
    src/migtd/src/bin/migtd/main.rs ([handle_pre_mig], with the feature
    [vmcall-raw]).  The executor is a function on any kind of task; the loop is a
    step relation over the task that waits for requests, the pending request,
    the requests being processed and the tasks that process them. *)
From stdpp Require Import base tactics numbers list list_numbers option gmap.
From S2P Require Import Prelude MigData MigDataSpec Session SessionSpec.
Local Open Scope Z_scope.

(** ** The executor *)

Section executor.
Context {W Task : Type}.

(** Polling a task: [None] when it is ready, the suspended task otherwise. *)
Context (poll : Task → W → option Task * W).

Record Executor := mkExecutor { tasks : option (list Task) }.

Definition task_list (e : Executor) : list Task := default [] (tasks e).

Definition add_task (t : Task) (e : Executor) : Executor := mkExecutor (Some (task_list e ++ [t])).

(** [for _ in 0..tasks.len()]: take the first task, poll it, put it last if it
    is pending. *)
Fixpoint poll_loop (n : nat) (q : list Task) (w : W) : outcome unit (list Task) * W :=
  match n with
  | O => (Ok q, w)
  | S m =>
      match q with
      | [] => (Panic, w)
      | t :: q' =>
          match poll t w with
          | (Some t', w') => poll_loop m (q' ++ [t']) w'
          | (None, w') => poll_loop m q' w'
          end
      end
  end.

Definition poll_tasks (e : Executor) (w : W) : outcome unit Z * Executor * W :=
  match poll_loop (length (task_list e)) (task_list e) w with
  | (Ok q, w') => (Ok (lenz q), mkExecutor (Some q), w')
  | (Err x, w') => (Err x, e, w')
  | (Panic, w') => (Panic, e, w')
  end.

(** One pass over the tasks in order, keeping those that stay pending. *)
Fixpoint pass (q : list Task) (w : W) : list Task * W :=
  match q with
  | [] => ([], w)
  | t :: q' =>
      let '(o, w1) := poll t w in
      let '(l, w2) := pass q' w1 in
      (option_list o ++ l, w2)
  end.

Lemma poll_loop_pass q done w : poll_loop (length q) (q ++ done) w = (Ok (done ++ (pass q w).1), (pass q w).2).
Proof.
  revert done w. induction q as [|t q IH]; intros done w; cbn [length poll_loop pass app]; [by rewrite app_nil_r|].
  destruct (poll t w) as [[t'|] w1] eqn:E.
  - rewrite <-app_assoc, IH. destruct (pass q w1) as [l w2]. cbn. by rewrite <-app_assoc.
  - rewrite IH. by destruct (pass q w1) as [l w2].
Qed.

End executor.

(** ** Processing a request *)

Section process.
Context `{Features}.

(** What the operations of a request return: a status and the data to report. *)
Class Operations := {
  exchange_msk_op : MigrationInformation → outcome MigrationResult unit;
  start_rebinding_op : MigtdMigrationInformation → outcome MigrationResult unit * bytes;
  get_tdreport_op : ReportInfo → outcome MigrationResult unit * bytes;
  enable_logarea_op : EnableLogAreaInfo → outcome MigrationResult unit * bytes;
  get_migtd_data_op : ReportInfo → outcome MigrationResult unit * bytes }.

Context `{Operations}.

Definition run_operation (w : WaitForRequestResponse) : outcome MigrationResult unit * bytes :=
  match w with
  | StartMigration i => (exchange_msk_op i, [])
  | StartRebinding i => start_rebinding_op i
  | GetTdReport i => get_tdreport_op i
  | EnableLogArea i => enable_logarea_op i
  | GetMigtdData i => get_migtd_data_op i
  end.

(** [.map(|_| Success).unwrap_or_else(|e| e)] *)
Definition status_of (r : outcome MigrationResult unit) : outcome (aerr MigrationResult) MigrationResult :=
  match r with Ok _ => Ok MigrationResult.Success | Err e => Ok e | Panic => Panic end.

(** [let _ = report_status(...).await] *)
Definition try_report (status id : Z) (data : bytes) : SM unit := λ v,
  match report_status status id data v with
  | (Err (Failed _), v') => (Ok tt, v')
  | r => r
  end.

Definition process_request (w : WaitForRequestResponse) : SM unit :=
  let '(r, data) := run_operation w in
  status ← liftO (status_of r);
  _ ← try_report (MigrationResult.as_u8 status) (request_id_of w) data;
  modifyS (λ v, set_requests (requests v ∖ {[request_id_of w]}) v).

End process.

(** ** The request loop *)

Definition MAX_CONCURRENCY_REQUESTS : nat := 12.

(** Where the waiting task is: at the check before a wait, or in the wait with
    the error it would report. *)
Inductive Waiter := AtSlot | InWait (report : option (Z * MigrationResult)).

Record Loop := mkLoop {
  waiter : Waiter;
  PENDING_REQUEST : option WaitForRequestResponse;
  in_flight : gset Z;                          (** [REQUESTS] *)
  running : list WaitForRequestResponse;       (** tasks processing a request *)
  accepted : list WaitForRequestResponse;      (** history *)
  finished : list WaitForRequestResponse }.

Definition loop_start : Loop := mkLoop AtSlot None ∅ [] [] [].

Section step.
Context `{F : Features}.

Inductive step : Loop → Loop → Prop :=
  | step_slot l : waiter l = AtSlot → PENDING_REQUEST l = None →
      (size (in_flight l) < MAX_CONCURRENCY_REQUESTS)%nat →
      step l (mkLoop (InWait None) None (in_flight l) (running l) (accepted l) (finished l))
  (* the wait fails before a buffer is parsed *)
  | step_wait_fails l rep : waiter l = InWait rep →
      step l (mkLoop AtSlot (PENDING_REQUEST l) (in_flight l) (running l) (accepted l) (finished l))
  | step_poll_waiting l rep b s' : waiter l = InWait rep →
      parse_request b REQ_HEADER_LEN (mkReqState (in_flight l) rep) = (Waiting, s') →
      step l (mkLoop (InWait (pending_error_report s')) (PENDING_REQUEST l) (REQUESTS s') (running l) (accepted l) (finished l))
  | step_poll_accept l rep b w s' : waiter l = InWait rep →
      parse_request b REQ_HEADER_LEN (mkReqState (in_flight l) rep) = (Ready (Ok w), s') →
      step l (mkLoop AtSlot (Some w) (REQUESTS s') (running l) (accepted l ++ [w]) (finished l))
  | step_poll_reject l rep b e s' : waiter l = InWait rep →
      parse_request b REQ_HEADER_LEN (mkReqState (in_flight l) rep) = (Ready (Err e), s') →
      step l (mkLoop AtSlot (PENDING_REQUEST l) (REQUESTS s') (running l) (accepted l) (finished l))
  (* the main loop takes the pending request into a new task *)
  | step_take l w : PENDING_REQUEST l = Some w →
      step l (mkLoop (waiter l) None (in_flight l) (running l ++ [w]) (accepted l) (finished l))
  (* a task reports and removes its id *)
  | step_finish l l1 w l2 : running l = l1 ++ w :: l2 →
      step l (mkLoop (waiter l) (PENDING_REQUEST l) (in_flight l ∖ {[request_id_of w]}) (l1 ++ l2) (accepted l)
                (finished l ++ [w])).

Definition reachable (l : Loop) : Prop := rtc step loop_start l.

(** The requests the program holds. *)
Definition held (l : Loop) : list WaitForRequestResponse := option_list (PENDING_REQUEST l) ++ running l.

Record loop_inv (l : Loop) : Prop := {
  li_ids : NoDup (request_id_of <$> held l);
  li_set : in_flight l = list_to_set (request_id_of <$> held l);
  li_room : (size (in_flight l) <= MAX_CONCURRENCY_REQUESTS)%nat;
  li_wait : waiter l ≠ AtSlot → PENDING_REQUEST l = None ∧ (size (in_flight l) < MAX_CONCURRENCY_REQUESTS)%nat;
  li_history : accepted l ≡ₚ finished l ++ held l }.

End step.

(** ** Lemmas *)

(** What a parse can do to the set of requests, for any buffer. *)
Definition parse_effect (s s' : ReqState) (r : Poll (outcome MigrationResult WaitForRequestResponse)) : Prop :=
  match r with
  | Ready (Ok w) => request_id_of w ∉ REQUESTS s ∧ REQUESTS s' = {[request_id_of w]} ∪ REQUESTS s
  | _ => REQUESTS s' = REQUESTS s
  end.

Lemma dispatch_effect {A} rid (d : outcome MigrationResult A) id_of resp s r s' :
  (∀ i, request_id_of (resp i) = id_of i) → decode_and_dispatch rid d id_of resp s = (r, s') → parse_effect s s' r.
Proof.
  intros Hid. unfold decode_and_dispatch, try_accept_request, reject_request.
  destruct d as [i|e|]; [|by intros [= <- <-]..]. case_bool_decide as Hin; intros [= <- <-]; [done|].
  cbn. by rewrite Hid.
Qed.

Lemma reject_effect rid e s r s' : reject_request rid e s = (r, s') → parse_effect s s' r.
Proof. by intros [= <- <-]. Qed.

Lemma parse_request_effect `{F : Features} b n s r s' : parse_request b n s = (r, s') → parse_effect s s' r.
Proof.
  unfold parse_request. destruct (_ && _); [by intros [= <- <-]|]. destruct (negb _); [apply reject_effect|].
  destruct (DataStatusOperation.try_from _) as [[]|]; [..|apply reject_effect];
    (destruct (get_request_payload _ _ _); [|apply reject_effect|by intros [= <- <-]]);
    try case_match; first [apply reject_effect|by apply dispatch_effect].
Qed.

Section loop.
Context `{F : Features}.

Lemma loop_inv_start : loop_inv loop_start.
Proof. constructor; cbn; [apply NoDup_nil_2|done|rewrite size_empty; unfold MAX_CONCURRENCY_REQUESTS; lia|done|done]. Qed.

(** Ids of the held requests after one is added or one is removed. *)
Lemma size_in_flight l : loop_inv l → size (in_flight l) = length (held l).
Proof.
  intros [Hnd Hset _ _ _]. rewrite Hset, size_list_to_set by done. by rewrite length_fmap.
Qed.

Lemma loop_inv_step l l' : loop_inv l → step l l' → loop_inv l'.
Proof.
  intros Hinv Hstep. destruct Hinv as [Hnd Hset Hroom Hwait Hhist] eqn:Hinv'. clear Hinv'.
  destruct Hstep as [l Hw Hp Hs|l rep Hw|l rep b s' Hw E|l rep b w s' Hw E|l rep b e s' Hw E|l w Hp|l l1 w l2 Hr].
  - unfold held in *. rewrite Hp in *. by constructor.
  - by constructor.
  - apply parse_request_effect in E. cbn in E. rewrite Hw in Hwait. destruct Hwait as [Hp Hs]; [done|].
    constructor; cbn; rewrite ?E; try done.
  - apply parse_request_effect in E as [Hnew E]. cbn [REQUESTS] in Hnew, E. rewrite Hw in Hwait. destruct Hwait as [Hp Hs]; [done|].
    unfold held in *. rewrite Hp in *. cbn [option_list app] in *. constructor; cbn.
    + constructor; [|done]. rewrite Hset in Hnew. by rewrite elem_of_list_to_set in Hnew.
    + by rewrite E, Hset.
    + rewrite E, size_union, size_singleton by set_solver. lia.
    + done.
    + rewrite Hhist. rewrite <-app_assoc. apply Permutation_app_head. by rewrite Permutation_app_comm.
  - apply parse_request_effect in E. cbn in E. rewrite Hw in Hwait. destruct Hwait as [Hp Hs]; [done|].
    constructor; cbn; rewrite ?E; try done.
  - unfold held in *. rewrite Hp in *. cbn [option_list app] in *.
    assert (running l ++ [w] ≡ₚ w :: running l) as Hperm by (by rewrite Permutation_app_comm).
    constructor; cbn.
    + by rewrite (fmap_Permutation _ _ _ Hperm).
    + rewrite Hset. apply set_eq. intros x. rewrite !elem_of_list_to_set. by rewrite (fmap_Permutation _ _ _ Hperm).
    + done.
    + intros Hn. destruct (Hwait Hn). congruence.
    + by rewrite Hhist, Hperm.
  - unfold held in *. rewrite Hr in *. set (p := option_list (PENDING_REQUEST l)) in *.
    assert (p ++ l1 ++ w :: l2 ≡ₚ w :: p ++ l1 ++ l2) as Hperm by solve_Permutation.
    rewrite (fmap_Permutation _ _ _ Hperm) in Hnd. cbn in Hnd. apply NoDup_cons in Hnd as [Hni Hnd].
    assert (in_flight l ∖ {[request_id_of w]} = list_to_set (request_id_of <$> p ++ l1 ++ l2)) as Hset'.
    { rewrite Hset. apply set_eq. intros x. rewrite elem_of_difference, !elem_of_list_to_set, elem_of_singleton.
      rewrite (fmap_Permutation _ _ _ Hperm). cbn. rewrite elem_of_cons. split; [naive_solver|].
      intros Hx. split; [by right|]. intros ->. done. }
    assert (size (in_flight l ∖ {[request_id_of w]}) <= size (in_flight l))%nat as Hsz by (apply subseteq_size; set_solver).
    constructor; cbn; unfold held; cbn.
    + done.
    + done.
    + lia.
    + intros Hn. destruct (Hwait Hn) as [Hp' Hs']. split; [done|]. lia.
    + rewrite Hhist, Hperm. fold p. solve_Permutation.
Qed.

Lemma reachable_inv l : reachable l → loop_inv l.
Proof. apply rtc_ind_r; [apply loop_inv_start|]. intros x y _ Hs Hx. by eapply loop_inv_step. Qed.

End loop.

(** ** Claims *)

Section claims.
Context `{F : Features}.

(** C7 (invariant) In every state the request loop reaches, whatever the VMM
    sends: no two held requests have the same id, the ids being processed are
    exactly those of the held requests, of which there are at most twelve; every
    request ever accepted is finished, running or pending, so none is lost or
    run twice; and unless the loop waits for the VMM, it can check for a new
    request, take the pending one, or has one running. *)
Theorem request_loop_safe l (Hl : reachable l) :
  NoDup (request_id_of <$> held l) ∧ in_flight l = list_to_set (request_id_of <$> held l) ∧
  (length (held l) <= MAX_CONCURRENCY_REQUESTS)%nat ∧ accepted l ≡ₚ finished l ++ held l ∧
  (∀ rep, waiter l = InWait rep → PENDING_REQUEST l = None) ∧
  (waiter l = AtSlot →
    PENDING_REQUEST l = None ∧ (size (in_flight l) < MAX_CONCURRENCY_REQUESTS)%nat ∨
    PENDING_REQUEST l ≠ None ∨ running l ≠ []).
Proof.
  apply reachable_inv in Hl as Hi. pose proof (size_in_flight l Hi) as Hsz. destruct Hi as [Hnd Hset Hroom Hwait Hhist].
  split_and!; try done; [lia| |].
  - intros rep Hw. apply Hwait. by rewrite Hw.
  - intros _. destruct (PENDING_REQUEST l) as [w|] eqn:Ep; [by right; left|].
    destruct (decide (size (in_flight l) < MAX_CONCURRENCY_REQUESTS)%nat); [by left|]. right; right.
    intros E. unfold held in Hsz. rewrite Ep, E in Hsz. cbn in Hsz. unfold MAX_CONCURRENCY_REQUESTS in *. lia.
Qed.

End claims.

(** One round of the executor polls every task exactly once, in
    the order of the queue and none that was not there at the start, keeps the
    pending ones in that order, reports how many are left and never aborts. *)
Theorem poll_tasks_round {W Task : Type} (poll : Task → W → option Task * W) e w :
  poll_tasks poll e w =
  (Ok (lenz (pass poll (task_list e) w).1), mkExecutor (Some (pass poll (task_list e) w).1), (pass poll (task_list e) w).2).
Proof.
  unfold poll_tasks. pose proof (poll_loop_pass poll (task_list e) [] w) as E. rewrite app_nil_r in E. by rewrite E.
Qed.

Section process_claim.
Context `{O : Operations}.

(** A task that processes a request reports its id with the
    status of the operation, at most once, waits until the VMM confirms, and
    when it ends its id, and no other, is no longer being processed. *)
Theorem request_reported w v r v' res data
  (Hop : run_operation w = (res, data)) (Hp : res ≠ Panic) (Hd : lenz data < 2 ^ 32) (E : process_request w v = (r, v')) :
  let st := match res with Ok _ => MigrationResult.Success | Err e => e | Panic => MigrationResult.Success end in
  (vm_reports v' = vm_reports v ∨
   vm_reports v' = vm_reports v ++
     [(request_id_of w, report_word (MigrationResult.as_u8 st), report_page data (report_pages data))]) ∧
  ((r = Ok tt ∧ requests v' = requests v ∖ {[request_id_of w]}) ∨
   (r = Err Pending ∧ requests v' = requests v ∧ Forall (λ b, ¬ confirms (report_pages data) b) (vm_report_polls v))).
Proof.
  intros st. unfold process_request in E. rewrite Hop, liftO_bind in E.
  assert (status_of res = Ok st) as Hst by (unfold status_of, st; by destruct res). rewrite Hst, M_bind_eq in E.
  unfold try_report in E. destruct (report_status _ _ data v) as [r1 v1] eqn:E1.
  apply report_status_post in E1 as (Hq & _ & Hc); [|done].
  destruct Hc as [[Hr [e ->]]|(st' & _ & Hr & Hcase)].
  - injection E as <- <-. cbn. rewrite Hr, Hq. auto.
  - destruct Hcase as [->|[[-> _]|[-> Hn]]]; injection E as <- <-; cbn; rewrite Hr, ?Hq; auto.
Qed.

End process_claim.

(** ** Witnesses *)

(** A loop that has taken the request of [SessionSpec]. *)
Definition demo_loop : Loop := mkLoop AtSlot None ({[7]} ∪ ∅) [demo_migration] [demo_migration] [].

Lemma demo_reachable : reachable (F := demo_features) demo_loop.
Proof.
  unfold reachable. eapply rtc_l.
  { apply step_slot; [done|done|]. cbn. rewrite size_empty. unfold MAX_CONCURRENCY_REQUESTS. lia. }
  eapply rtc_l.
  { eapply (step_poll_accept _ None demo_request demo_migration); [done|]. exact demo_parse. }
  eapply rtc_l; [by eapply step_take|]. apply rtc_refl.
Qed.

Lemma request_loop_safe_witness : length (held demo_loop) = 1%nat ∧ accepted demo_loop ≡ₚ finished demo_loop ++ held demo_loop.
Proof.
  exact (conj eq_refl (proj1 (proj2 (proj2 (proj2 (request_loop_safe (F := demo_features) demo_loop demo_reachable)))))).
Defined.

Definition demo_operations : Operations :=
  {| exchange_msk_op := λ _, Err MigrationResult.SecureSessionError;
     start_rebinding_op := λ _, (Ok tt, []); get_tdreport_op := λ _, (Ok tt, []);
     enable_logarea_op := λ _, (Ok tt, []); get_migtd_data_op := λ _, (Ok tt, []) |}.

Definition demo_busy : Vmm := set_requests {[7; 8]} (demo_vmm []).

Lemma request_reported_witness :
  requests (process_request (H0 := demo_operations) demo_migration demo_busy).2 = {[7; 8]} ∖ {[7]}.
Proof.
  destruct (proj2 (request_reported (O := demo_operations) demo_migration demo_busy (Ok tt)
    (process_request (H0 := demo_operations) demo_migration demo_busy).2 (Err MigrationResult.SecureSessionError) []
    eq_refl ltac:(done) ltac:(done) ltac:(vm_compute; reflexivity))) as [[_ Hr]|[He _]]; [exact Hr|discriminate He].
Defined.
