(* ===== verification/Rebinding.v ===== *)
(** * Rebinding: handing a target TD over to a new migration TD

    src/migtd/src/migration/rebinding.rs with the RA-TLS session (without the
    feature [spdm_attestation]) and the features [vmcall-raw] and [policy_v2].
    The session is the class [RebindSession]; the random number generator, the
    local report and the peer's certificate are parameters.  Loops over a buffer
    take one unit of fuel per byte: a session whose reads and writes move
    nothing, on which the code would spin, ends in [OutOfFuel]. *)
From stdpp Require Import base tactics numbers list list_numbers option gmap.
From S2P Require Import Prelude MigData PreSession ServtdExt KeyExchange.
Local Open Scope Z_scope.

Definition TDCS_FIELD_SERVTD_REBIND_ACCEPT_TOKEN : Z := 0x191000030000021E.
Definition TDCS_FIELD_SERVTD_REBIND_ATTR : Z := 0x1910000300000222.

(** [peer_servtd_ext] is the SERVTD_EXT extension of the peer's certificate. *)
Class RebindSession (T SS : Type) := {
  client_rebinding : T → bytes → bytes → ServtdExt → outcome MigrationResult SS;
  server_rebinding : T → bytes → outcome MigrationResult SS;
  tls_write : bytes → M SS (aerr unit) Z;
  tls_read : Z → M SS (aerr unit) bytes;
  tls_shutdown : M SS (aerr MigrationResult) unit;
  peer_servtd_ext : SS → option bytes }.

(** [RebindingToken::read_from_bytes] *)
Definition token_read_from_bytes (bs : bytes) : option bytes :=
  if lenz bs <? 32 then None else Some (take 32 bs).

(** [map_err(|_| e)] *)
Definition map_failed {S A} (e : MigrationResult) (m : M S (aerr unit) A) : M S (aerr MigrationResult) A := λ s,
  match m s with
  | (Ok a, s') => (Ok a, s')
  | (Err (Failed _), s') => (Err (Failed e), s')
  | (Err Pending, s') => (Err Pending, s')
  | (Err OutOfFuel, s') => (Err OutOfFuel, s')
  | (Panic, s') => (Panic, s')
  end.

(** ** Writes to the TD's own fields *)

Section td.
Context {TM : Type} `{TdxModule TM}.

Notation TdM := (M (TdWorld TM) (aerr MigrationResult)).

Definition write_rebinding_session_token (rebind_token : bytes) : TdM unit :=
  _ ← err_if (negb (lenz rebind_token =? 32)) (Failed MigrationResult.InvalidParameter);
  write_words TDCS_FIELD_SERVTD_REBIND_ACCEPT_TOKEN (length rebind_token / 8) rebind_token.

Definition write_servtd_rebind_attr (servtd_attr : bytes) : TdM unit :=
  _ ← err_if (negb (lenz servtd_attr =? 8)) (Failed MigrationResult.InvalidParameter);
  tdcall_vm_write TDCS_FIELD_SERVTD_REBIND_ATTR (le_val servtd_attr) TDCS_FIELD_WRITE_MASK.

Definition approve_rebinding (info : MigtdMigrationInformation) (rebind_token : bytes) : TdM unit :=
  tdcall_servtd_rebind_approve (binding_handle info) rebind_token (target_td_uuid info).

End td.

(** ** The session *)

Section session.
Context {T SS : Type} `{RebindSession T SS}.

(** [while sent < data.len()]; [rest] is [data[sent..]]. *)
Fixpoint tls_write_loop (fuel : nat) (rest : bytes) : M SS (aerr MigrationResult) unit :=
  match rest with
  | [] => mret tt
  | _ =>
      match fuel with
      | O => failM OutOfFuel
      | S f =>
          n ← map_failed MigrationResult.SecureSessionError (tls_write rest);
          tls_write_loop f (drop (Z.to_nat n) rest)
      end
  end.

Definition tls_session_write_all (data : bytes) : M SS (aerr MigrationResult) unit := tls_write_loop (length data) data.

Fixpoint tls_read_loop (fuel : nat) (len : Z) (acc : bytes) : M SS (aerr MigrationResult) bytes :=
  if lenz acc <? len then
    match fuel with
    | O => failM OutOfFuel
    | S f =>
        bs ← map_failed MigrationResult.NetworkError (tls_read (len - lenz acc));
        tls_read_loop f len (acc ++ bs)
    end
  else mret acc.

Definition tls_session_read_exact (len : Z) : M SS (aerr MigrationResult) bytes := tls_read_loop (Z.to_nat len) len [].

Definition tls_send_rebind_token (rebind_token : bytes) : M SS (aerr MigrationResult) unit :=
  with_timeout (tls_session_write_all rebind_token).

Definition tls_receive_rebind_token : M SS (aerr MigrationResult) bytes :=
  data ← with_timeout (tls_session_read_exact 32);
  ok_or (token_read_from_bytes data) (Failed MigrationResult.InvalidParameter).

Definition get_servtd_ext_from_cert (s : SS) : outcome (aerr MigrationResult) ServtdExt :=
  match peer_servtd_ext s with
  | None => Err (Failed MigrationResult.SecureSessionError)
  | Some bs =>
      match ext_read_from_bytes bs with
      | Some e => Ok e
      | None => Err (Failed MigrationResult.InvalidParameter)
      end
  end.

End session.

(** ** Rebinding *)

Section rebind.
Context {T SS TM : Type} `{ByteStream T} `{RebindSession T SS} `{TdxModule TM} {HP : Heap}.
Context (setup_transport : Z → outcome (aerr MigrationResult) T) (policy chain : option bytes).
Context (verify_init_migtd_data_policy_binding : bytes → bool).
Context (digest_sha384 : bytes → option bytes).

(** [create_rebind_token]: what the generator fills in, and
    [local_init_td_info]: the report of the running TD. *)
Context (create_rebind_token : option bytes) (local_init_td_info : outcome MigrationResult bytes).

Notation TdM := (M (TdWorld TM) (aerr MigrationResult)).

Definition failed {A} (r : outcome MigrationResult A) : outcome (aerr MigrationResult) A :=
  match r with Ok a => Ok a | Err e => Err (Failed e) | Panic => Panic end.

(** [rebinding_old_prepare] up to the shutdown of its session, which it returns. *)
Definition rebinding_old_session (transport : T) (info : MigtdMigrationInformation) (peer_data : bytes) : TdM SS :=
  servtd_ext ← read_servtd_ext (binding_handle info) (target_td_uuid info);
  init_td_info ← liftO (match init_td_info_if_present info with
                        | Some t => Ok t
                        | None => failed local_init_td_info
                        end);
  s ← liftO (match client_rebinding transport peer_data init_td_info servtd_ext with
             | Ok s => Ok s
             | Err _ => Err (Failed MigrationResult.SecureSessionError)
             | Panic => Panic
             end);
  rebind_token ← ok_or create_rebind_token (Failed MigrationResult.InvalidParameter);
  let '(r, s1) := tls_send_rebind_token rebind_token s in
  _ ← liftO r;
  _ ← approve_rebinding info rebind_token;
  mret s1.

Definition rebinding_old_prepare (transport : T) (info : MigtdMigrationInformation) (peer_data : bytes) : TdM unit :=
  s1 ← rebinding_old_session transport info peer_data;
  liftO (tls_shutdown s1).1.

Definition rebinding_new_prepare (transport : T) (info : MigtdMigrationInformation) (peer_data : bytes) : TdM unit :=
  s ← liftO (failed (server_rebinding transport peer_data));
  let '(r, s1) := tls_receive_rebind_token s in
  rebind_token ← liftO r;
  servtd_ext ← liftO (get_servtd_ext_from_cert s1);
  _ ← write_rebinding_session_token rebind_token;
  _ ← write_servtd_rebind_attr (cur_servtd_attr servtd_ext);
  let servtd_ext := mkServtdExt (init_servtd_info_hash servtd_ext) (init_attr servtd_ext) (se_reserved servtd_ext)
        (init_cpusvn servtd_ext) (init_tee_tcb_svn servtd_ext) (init_tee_model servtd_ext) (se_reserved1 servtd_ext)
        (zeros (lenz (cur_servtd_info_hash servtd_ext))) (zeros (lenz (cur_servtd_attr servtd_ext))) (se_reserved2 servtd_ext) in
  hash ← liftO (failed (calculate_approved_servtd_ext_hash digest_sha384 servtd_ext));
  _ ← write_approved_servtd_ext_hash hash;
  liftO (tls_shutdown s1).1.

(** The checks of [start_rebinding] before the session: the policy binding, the
    transport and the peer's data; both sides run the same code. *)
Definition rebind_peer (info : MigtdMigrationInformation) : outcome (aerr MigrationResult) (T * bytes) :=
  _ ← match init_td_info_if_present info with
      | Some t =>
          if verify_init_migtd_data_policy_binding t then Ok tt
          else Err (Failed MigrationResult.PolicyUnsatisfiedError)
      | None => Ok tt
      end;
  transport ← setup_transport (mig_request_id info);
  let '(r, transport) := with_timeout (pre_session_data_exchange policy chain) transport in
  peer_data ← r;
  Ok (transport, peer_data).

Definition start_rebinding (info : MigtdMigrationInformation) : TdM unit :=
  tp ← liftO (rebind_peer info);
  if migration_source info =? 1 then rebinding_old_prepare tp.1 info tp.2
  else rebinding_new_prepare tp.1 info tp.2.

End rebind.
