(* ===== verification/RebindingSpec.v ===== *)
(** * RebindingSpec: rebinding is approved last, with one token

    The order of the checks and the writes of either side of a rebinding, and
    the agreement of the two (Rebinding). *)
From stdpp Require Import base tactics numbers list list_numbers option gmap.
From S2P Require Import Prelude MigData MigDataSpec PreSession PreSessionSpec ServtdExt KeyExchange KeyExchangeSpec Rebinding.
Local Open Scope Z_scope.

(** ** Words written to the TD's own fields *)

(** The fields and words of [n] words of [bs] written from [base] on. *)
Definition word_writes (base : Z) (n : nat) (bs : bytes) : list (Z * Z) :=
  map (λ i, (base + Z.of_nat i, le_val (take 8 (drop (8 * i) bs)))) (seq 0 n).

Lemma word_writes_S base n bs : word_writes base (S n) bs = (base, le_val (take 8 bs)) :: word_writes (base + 1) n (drop 8 bs).
Proof.
  unfold word_writes. cbn [seq map]. rewrite Z.add_0_r. f_equal. rewrite <-seq_shift, map_map. apply map_ext. intros i.
  rewrite drop_drop. f_equal; [lia|]. do 3 f_equal. lia.
Qed.

(** The words of bytes are the bytes. *)
Lemma word_writes_bytes base n bs : length bs = (8 * n)%nat → bytes_ok bs →
  concat (map (λ p, le_bytes 8 p.2) (word_writes base n bs)) = bs.
Proof.
  revert base bs. induction n as [|n IH]; intros base bs Hl Hb; [by destruct bs|]. rewrite word_writes_S. cbn [map concat snd].
  rewrite IH; [|rewrite length_drop; lia|by apply Forall_drop].
  pose proof (le_bytes_val (take 8 bs) (Forall_take _ _ _ Hb)) as Hv. rewrite length_take_le in Hv by lia. by rewrite Hv, take_drop.
Qed.

(** The calls of the writes [ws] as far as they went. *)
Definition vm_wr_log (ws : list (Z * Z)) (oks : list bool) : list TdCall :=
  zip_with (λ p ok, VmWr p.1 p.2 TDCS_FIELD_WRITE_MASK ok) ws oks.

(** The writes [ws] stopped at the first that was refused, or all were done and the
    result is [r']. *)
Definition wrote_all {A} (ws : list (Z * Z)) (oks : list bool) (r r' : outcome (aerr MigrationResult) A) : Prop :=
  (∃ k, (k < length ws)%nat ∧ oks = replicate k true ++ [false] ∧ r = Err (Failed MigrationResult.TdxModuleError)) ∨
  (oks = replicate (length ws) true ∧ r = r').

Section td.
Context {TM : Type} `{TdxModule TM}.

(** A run that does the writes [ws] and ends with [r']. *)
Definition writes {A} (m : M (TdWorld TM) (aerr MigrationResult) A) (ws : list (Z * Z)) (r' : outcome (aerr MigrationResult) A) : Prop :=
  ∀ w r w', m w = (r, w') → ∃ oks, td_log w' = td_log w ++ vm_wr_log ws oks ∧ wrote_all ws oks r r'.

Lemma writes_pure {A} (o : outcome (aerr MigrationResult) A) : writes (liftO o) [] o.
Proof. intros w r w' [= <- <-]. exists []. rewrite app_nil_r. split; [done|by right]. Qed.

Lemma vm_wr_log_app ws1 ws2 oks2 : vm_wr_log (ws1 ++ ws2) (replicate (length ws1) true ++ oks2) = vm_wr_log ws1 (replicate (length ws1) true) ++ vm_wr_log ws2 oks2.
Proof. unfold vm_wr_log. apply zip_with_app. by rewrite length_replicate. Qed.

Lemma vm_wr_log_stop ws1 ws2 k : (k < length ws1)%nat →
  vm_wr_log (ws1 ++ ws2) (replicate k true ++ [false]) = vm_wr_log ws1 (replicate k true ++ [false]).
Proof.
  unfold vm_wr_log. revert k. induction ws1 as [|p l IH]; intros k Hk; cbn [length] in Hk; [lia|].
  destruct k as [|k]; cbn [replicate app zip_with]; [by rewrite !zip_with_nil_r|]. f_equal. apply IH. lia.
Qed.

Lemma writes_bind {A B} (m : M (TdWorld TM) (aerr MigrationResult) A) (f : A → M (TdWorld TM) (aerr MigrationResult) B) a ws1 ws2 r' :
  writes m ws1 (Ok a) → writes (f a) ws2 r' → writes (m ≫= f) (ws1 ++ ws2) r'.
Proof.
  intros Hm Hf w r w'. rewrite M_bind_eq. destruct (m w) as [r1 w1] eqn:E. apply Hm in E as (oks1 & L1 & [(k & Hk & -> & ->)|[-> ->]]).
  - intros [= <- <-]. exists (replicate k true ++ [false]). rewrite vm_wr_log_stop by done. split; [done|]. left. exists k. rewrite length_app.
    split_and!; try done. lia.
  - intros (oks2 & L2 & H2)%Hf. exists (replicate (length ws1) true ++ oks2). rewrite vm_wr_log_app, L2, L1, <-app_assoc. split; [done|].
    destruct H2 as [(k & Hk & -> & ->)|[-> ->]]; [left|right].
    + exists (length ws1 + k)%nat. rewrite length_app, replicate_add, <-app_assoc. split_and!; try done. lia.
    + by rewrite length_app, replicate_add.
Qed.

Lemma writes_vm f x : writes (tdcall_vm_write f x TDCS_FIELD_WRITE_MASK) [(f, x)] (Ok tt).
Proof.
  intros w r w'. unfold tdcall_vm_write. destruct (vm_write _ _ _ (td_module w)) as [[] tm]; intros [= <- <-].
  - exists [true]. split; [done|by right].
  - exists [false]. split; [done|]. left. exists 0%nat. cbn. split_and!; try done. lia.
Qed.

Lemma writes_words f n bs : writes (write_words f n bs) (word_writes f n bs) (Ok tt).
Proof.
  revert f bs. induction n as [|n IH]; intros f bs; cbn [write_words].
  - intros w r w' [= <- <-]. exists []. rewrite app_nil_r. split; [done|by right].
  - rewrite word_writes_S. change (?x :: ?l) with ([x] ++ l). eapply writes_bind; [apply writes_vm|apply IH].
Qed.

Lemma writes_checked {A} c e (f : unit → M (TdWorld TM) (aerr MigrationResult) A) ws r' : c = false → writes (f tt) ws r' → writes (err_if c e ≫= f) ws r'.
Proof. intros -> Hf w r w'. rewrite err_if_bind. apply Hf. Qed.

Lemma reads_pure {A} (o : outcome (aerr MigrationResult) A) : reads (TM := TM) (liftO o).
Proof. intros w r w' [= <- <-]. exists []. rewrite app_nil_r. split; [done|apply Forall_nil_2]. Qed.
Lemma reads_chunks bh u f sizes : reads (TM := TM) (read_chunks bh u f sizes).
Proof.
  revert f. induction sizes as [|n l IH]; intros f; cbn [read_chunks]; [apply reads_ret|].
  apply reads_bind; [apply reads_servtd_rd|]. intros x. apply reads_bind; [done|]. intros r. apply reads_ret.
Qed.
Lemma reads_servtd_ext bh u : reads (TM := TM) (read_servtd_ext bh u).
Proof.
  unfold read_servtd_ext. cbv zeta. repeat (apply reads_bind; [first [apply reads_chunks|apply reads_err_if]|intros ?]).
  apply reads_ret.
Qed.

End td.

(** ** The two sides *)

Section rebind.
Context {T SS TM : Type} {BS : ByteStream T} {RS : RebindSession T SS} {TD : TdxModule TM} {HP : Heap}.
Context (setup : Z → outcome (aerr MigrationResult) T) (policy chain : option bytes) (binding_ok : bytes → bool).
Context (sha384 : bytes → option bytes) (token : option bytes) (local_td_info : outcome MigrationResult bytes).

Notation start := (start_rebinding (TM := TM) setup policy chain binding_ok sha384 token local_td_info).

(** The structure whose hash is approved. *)
Definition cleared (e : ServtdExt) : ServtdExt :=
  mkServtdExt (init_servtd_info_hash e) (init_attr e) (se_reserved e) (init_cpusvn e) (init_tee_tcb_svn e)
    (init_tee_model e) (se_reserved1 e) (zeros (lenz (cur_servtd_info_hash e))) (zeros (lenz (cur_servtd_attr e)))
    (se_reserved2 e).

Lemma cleared_twice e : cleared (cleared e) = cleared e.
Proof. unfold cleared. cbn. rewrite !lenz_zeros by apply lenz_nonneg. done. Qed.

(** The checks before either side acts on the target TD. *)
Record admitted (info : MigtdMigrationInformation) (t : T) (peer_data : bytes) : Prop := {
  ad_binding : ∀ ti, init_td_info_if_present info = Some ti → binding_ok ti = true;
  ad_peer : ∃ t0, setup (mig_request_id info) = Ok t0 ∧
              with_timeout (pre_session_data_exchange policy chain) t0 = (Ok peer_data, t) }.

(** The old side has sent the token over its session, which is now [s1]. *)
Definition old_sent (info : MigtdMigrationInformation) (t : T) (pd : bytes) (e : ServtdExt) (tok : bytes) (s1 : SS) : Prop :=
  token = Some tok ∧
  ∃ ti s, client_rebinding t pd ti e = Ok s ∧ tls_send_rebind_token (T := T) tok s = (Ok tt, s1) ∧
    (init_td_info_if_present info = Some ti ∨ init_td_info_if_present info = None ∧ local_td_info = Ok ti).

Lemma approve_post info tok (w : TdWorld TM) r w' : approve_rebinding info tok w = (r, w') →
  ∃ ok : bool, td_log w' = td_log w ++ [RebindApprove (binding_handle info) tok (target_td_uuid info) ok] ∧
    r = if ok then Ok tt else Err (Failed MigrationResult.TdxModuleError).
Proof.
  unfold approve_rebinding, tdcall_servtd_rebind_approve. destruct (rebind_approve _ _ _ (td_module w)) as [[] tm];
    intros [= <- <-]; [by exists true|by exists false].
Qed.

Lemma no_new {A} (w : TdWorld TM) (r : outcome (aerr MigrationResult) A) : (∀ b, r ≠ Ok b) →
  ∃ new, td_log w = td_log w ++ new ∧ no_writes new ∧ ∀ b, r ≠ Ok b.
Proof. intros Hr. exists []. rewrite app_nil_r. split; [done|]. split; [apply Forall_nil_2|done]. Qed.

Lemma old_post t info pd (w : TdWorld TM) r w' :
  rebinding_old_session token local_td_info t info pd w = (r, w') →
  (∃ new, td_log w' = td_log w ++ new ∧ no_writes new ∧ ∀ b, r ≠ Ok b) ∨
  (∃ e tok s1 pre ok, (read_servtd_ext (binding_handle info) (target_td_uuid info) w).1 = Ok e ∧
    old_sent info t pd e tok s1 ∧ no_writes pre ∧
    td_log w' = td_log w ++ pre ++ [RebindApprove (binding_handle info) tok (target_td_uuid info) ok] ∧
    r = if ok : bool then Ok s1 else Err (Failed MigrationResult.TdxModuleError)).
Proof.
  unfold rebinding_old_session. rewrite M_bind_eq. destruct (read_servtd_ext _ _ w) as [r1 w1] eqn:E1.
  pose proof (reads_servtd_ext _ _ _ _ _ E1) as (n1 & L1 & N1).
  assert (∀ r' : outcome (aerr MigrationResult) SS, (∀ b, r' ≠ Ok b) →
    ∃ new, td_log w1 = td_log w ++ new ∧ no_writes new ∧ ∀ b, r' ≠ Ok b) as Hn by (intros r' Hr; by exists n1).
  destruct r1 as [e|e|]; [|intros [= <- <-]; left; by apply Hn..].
  intros [(ti & Eti & E)|[-> Hr]]%liftO_inv; [|left; by apply Hn].
  apply liftO_inv in E as [(s & Es & E)|[-> Hr]]; [|left; by apply Hn].
  rewrite ok_or_bind in E. destruct token as [tok|] eqn:Et; [|injection E as <- <-; left; by apply Hn].
  destruct (tls_send_rebind_token tok s) as [r2 s1] eqn:E2.
  apply liftO_inv in E as [([] & -> & E)|[-> Hr]]; [|left; by apply Hn].
  rewrite M_bind_eq in E. destruct (approve_rebinding info tok w1) as [r3 w3] eqn:E3.
  apply approve_post in E3 as (ok & L3 & ->). right. exists e, tok, s1, n1, ok. split; [done|]. split.
  { split; [done|]. exists ti, s. split; [by destruct (client_rebinding t pd ti e); simplify_eq|]. split; [done|].
    destruct (init_td_info_if_present info) as [x|]; [injection Eti as ->; by left|].
    right. split; [done|]. by destruct local_td_info; cbn in Eti; simplify_eq. }
  split; [done|]. destruct ok; injection E as <- <-; (split; [by rewrite L3, L1, <-app_assoc|done]).
Qed.

(** The new side took the token and the certificate's SERVTD_EXT from its session. *)
Definition new_received (t : T) (pd : bytes) (tok : bytes) (e : ServtdExt) (s1 : SS) : Prop :=
  ∃ s, server_rebinding t pd = Ok s ∧ tls_receive_rebind_token (T := T) s = (Ok tok, s1) ∧
    get_servtd_ext_from_cert (T := T) s1 = Ok e.

(** The hash it approves, and its writes: the token, the attributes and the hash. *)
Definition approved (e : ServtdExt) : option bytes :=
  h ← sha384 (ext_as_bytes (cleared e)); if lenz h =? 48 then Some h else None.

Definition rebind_writes (tok : bytes) (e : ServtdExt) : list (Z * Z) :=
  word_writes TDCS_FIELD_SERVTD_REBIND_ACCEPT_TOKEN 4 tok ++
  [(TDCS_FIELD_SERVTD_REBIND_ATTR, le_val (cur_servtd_attr e))] ++
  match approved e with Some h => word_writes TDCS_FIELD_SERVTD_ACCEPT_SERVTD_EXT_HASH 6 h | None => [] end.

Lemma failed_Ok {A} (o : outcome MigrationResult A) a : failed o = Ok a ↔ o = Ok a.
Proof. destruct o; cbn; naive_solver. Qed.

Lemma received_sizes t pd tok e s1 : new_received t pd tok e s1 → lenz tok = 32 ∧ lenz (cur_servtd_attr e) = 8.
Proof.
  intros (s & _ & Er & Ee). unfold tls_receive_rebind_token in Er. apply M_bind_Ok_inv in Er as (bs & s2 & _ & [Er _]%ok_or_Ok).
  unfold token_read_from_bytes in Er. destruct (Z.ltb_spec (lenz bs) 32); [done|]. injection Er as <-. unfold lenz in *. rewrite length_take. split; [lia|].
  unfold get_servtd_ext_from_cert in Ee. destruct (peer_servtd_ext s1) as [x|]; [|done]. destruct (ext_read_from_bytes x) as [e'|] eqn:Ex; [|done].
  injection Ee as ->. unfold ext_read_from_bytes in Ex. destruct (_ <? _); [done|].
  repeat (apply bind_Some in Ex as (? & ?%slice_Some_len & Ex)). injection Ex as <-. cbn. unfold lenz in *. lia.
Qed.

(** What the new side does once it has the token and the SERVTD_EXT. *)
Definition new_finish (tok : bytes) (e : ServtdExt) (s1 : SS) : M (TdWorld TM) (aerr MigrationResult) unit :=
  _ ← write_rebinding_session_token tok;
  _ ← write_servtd_rebind_attr (cur_servtd_attr e);
  hash ← liftO (failed (calculate_approved_servtd_ext_hash sha384 (cleared e)));
  _ ← write_approved_servtd_ext_hash hash;
  liftO (tls_shutdown (T := T) s1).1.

Lemma new_writes tok e s1 : lenz tok = 32 → lenz (cur_servtd_attr e) = 8 →
  writes (new_finish tok e s1) (rebind_writes tok e)
    (match approved e with Some _ => (tls_shutdown (T := T) s1).1 | None => Err (Failed MigrationResult.InvalidParameter) end).
Proof.
  intros Ht Ha. unfold new_finish, rebind_writes. eapply writes_bind.
  { unfold write_rebinding_session_token. apply writes_checked; [by rewrite Ht|]. assert (length tok = 32%nat) as -> by (unfold lenz in Ht; lia). apply writes_words. }
  eapply writes_bind. { unfold write_servtd_rebind_attr. apply writes_checked; [by rewrite Ha|]. apply writes_vm. }
  unfold approved, calculate_approved_servtd_ext_hash. fold (cleared (cleared e)). rewrite cleared_twice.
  destruct (sha384 (ext_as_bytes (cleared e))) as [h|]; [|apply writes_pure]. cbn [mbind option_bind failed].
  intros w r w'. rewrite liftO_bind. revert w r w'. unfold write_approved_servtd_ext_hash. destruct (Z.eqb_spec (lenz h) 48) as [Hh|Hh].
  - rewrite <-(app_nil_r (word_writes _ 6 h)). eapply writes_bind; [|apply writes_pure]. apply writes_checked; [done|].
    assert (length h = 48%nat) as -> by (unfold lenz in Hh; lia). apply writes_words.
  - intros w r w' [= <- <-]. exists []. rewrite app_nil_r. split; [done|by right].
Qed.

Lemma new_post t info pd (w : TdWorld TM) r w' :
  rebinding_new_prepare sha384 t info pd w = (r, w') →
  (w' = w ∧ ∀ b, r ≠ Ok b) ∨
  (∃ tok e s1, new_received t pd tok e s1 ∧ new_finish tok e s1 w = (r, w')).
Proof.
  unfold rebinding_new_prepare. intros [(s & Es%failed_Ok & E)|[-> Hr]]%liftO_inv; [|by left].
  destruct (tls_receive_rebind_token s) as [r2 s1] eqn:E2.
  apply liftO_inv in E as [(tok & -> & E)|[-> Hr]]; [|by left].
  apply liftO_inv in E as [(e & Ee & E)|[-> Hr]]; [|by left]. right. exists tok, e, s1. split; [by exists s|done].
Qed.

Lemma rebind_peer_Ok info t pd : rebind_peer setup policy chain binding_ok info = Ok (t, pd) → admitted info t pd.
Proof.
  intros ([] & Eb & E)%bind_Ok. apply bind_Ok in E as (t0 & Et & E). destruct (with_timeout _ t0) as [r1 t1] eqn:E1.
  apply bind_Ok in E as (pd' & -> & [= -> ->]). split; [|by exists t0].
  intros ti Hti. rewrite Hti in Eb. by destruct (binding_ok ti).
Qed.

Lemma start_inv info (w : TdWorld TM) r w' : start info w = (r, w') →
  (w' = w ∧ ∀ b, r ≠ Ok b) ∨
  (∃ t pd, admitted info t pd ∧
    (if migration_source info =? 1 then rebinding_old_prepare token local_td_info t info pd
     else rebinding_new_prepare sha384 t info pd) w = (r, w')).
Proof.
  unfold start_rebinding. intros [([t pd] & Ep%rebind_peer_Ok & E)|[-> Hr]]%liftO_inv; [|by left].
  right. exists t, pd. split; [done|]. by destruct (migration_source info =? 1).
Qed.

End rebind.

(** ** Claims *)

Section safety.
Context {T SS TM : Type} {BS : ByteStream T} {RS : RebindSession T SS} {TD : TdxModule TM} {HP : Heap}.
Context (setup : Z → outcome (aerr MigrationResult) T) (policy chain : option bytes) (binding_ok : bytes → bool).
Context (sha384 : bytes → option bytes) (token : option bytes) (local_td_info : outcome MigrationResult bytes).

(** C5 (safety) A rebinding acts only after its checks.  The old side approves,
    once, the token it sent, after the policy binding, the exchange with the
    peer, reading SERVTD_EXT with the expected SERVTD_ATTR, its session and the
    sending succeeded.  The new side, after its session delivered the token and the
    certificate's SERVTD_EXT, writes exactly these, in order, up to the first that is
    refused: the four words of the token, the SERVTD_ATTR of the SERVTD_EXT, and the
    six words of the hash of the SERVTD_EXT with its current fields cleared; it fails
    if a write was refused or there is no such hash.  Without the checks nothing is
    written and the rebinding fails. *)
Theorem rebinding_writes_last info (w : TdWorld TM) r w'
  (E : start_rebinding setup policy chain binding_ok sha384 token local_td_info info w = (r, w')) :
  (∃ new, td_log w' = td_log w ++ new ∧ no_writes new ∧ ∀ b, r ≠ Ok b) ∨
  (∃ t pd, admitted setup policy chain binding_ok info t pd ∧
    if migration_source info =? 1 then
      ∃ e tok s1 pre ok, (read_servtd_ext (binding_handle info) (target_td_uuid info) w).1 = Ok e ∧
        cur_servtd_attr e = le_bytes 8 EXPECTED_SERVTD_ATTR ∧ old_sent token local_td_info info t pd e tok s1 ∧ no_writes pre ∧
        td_log w' = td_log w ++ pre ++ [RebindApprove (binding_handle info) tok (target_td_uuid info) ok] ∧
        r = if ok : bool then (tls_shutdown (T := T) s1).1 else Err (Failed MigrationResult.TdxModuleError)
    else
      ∃ tok e s1 oks, new_received t pd tok e s1 ∧ td_log w' = td_log w ++ vm_wr_log (rebind_writes sha384 tok e) oks ∧
        wrote_all (rebind_writes sha384 tok e) oks r
          (match approved sha384 e with Some _ => (tls_shutdown (T := T) s1).1 | None => Err (Failed MigrationResult.InvalidParameter) end)).
Proof.
  apply start_inv in E as [[-> Hr]|(t & pd & Had & E)]; [left; by apply no_new|].
  destruct (migration_source info =? 1) eqn:Es.
  - unfold rebinding_old_prepare in E. rewrite M_bind_eq in E. destruct (rebinding_old_session _ _ t info pd w) as [r1 w1] eqn:E0.
    apply old_post in E0 as [(new & L & N & Hr)|(e & tok & s1 & pre & ok & E1 & Ho & Hp & L & ->)].
    { left. exists new. destruct r1 as [s1|e|]; [by destruct (Hr s1)|..]; injection E as <- <-; done. }
    right. exists t, pd. split; [done|]. exists e, tok, s1, pre, ok.
    destruct (read_servtd_ext _ _ w) as [r2 w2] eqn:Er. cbn in E1. subst r2.
    destruct (read_servtd_ext_Ok _ _ _ _ _ Er) as (_ & _ & Ha & _).
    destruct ok; injection E as <- <-; done.
  - apply new_post in E as [[-> Hr]|(tok & e & s1 & Hn & E)]; [left; by apply no_new|].
    right. exists t, pd. split; [done|]. destruct (received_sizes _ _ _ _ _ Hn) as [Ht Ha].
    apply (new_writes sha384 tok e s1 Ht Ha) in E as (oks & L & Hw). by exists tok, e, s1, oks.
Qed.

End safety.

(** ** Two sessions that are the ends of one channel *)

(** What the session of a rebinding promises.  [sent_data] is what this side wrote,
    [to_read] what the peer wrote and this side has not read, [own_ext] the SERVTD_EXT
    in the certificate of this side; [meet] connects the session to a peer that
    wrote the given bytes and showed the given extension. *)
Class RebindLaws (T SS : Type) `{RebindSession T SS} := {
  sent_data : SS → bytes;
  to_read : SS → bytes;
  own_ext : SS → bytes;
  meet : bytes → bytes → SS → SS;
  client_shows t pd ti e s : client_rebinding t pd ti e = Ok s → sent_data s = [] ∧ own_ext s = ext_as_bytes e;
  server_fresh t pd s : server_rebinding t pd = Ok s → to_read s = [];
  tls_write_taken bs s : bs ≠ [] →
    ∃ n s', tls_write bs s = (Ok n, s') ∧ 0 < n <= lenz bs ∧ sent_data s' = sent_data s ++ take (Z.to_nat n) bs ∧ own_ext s' = own_ext s;
  tls_read_waits n s : to_read s = [] → ∃ s', tls_read n s = (Err Pending, s');
  tls_read_delivers n s : 0 < n → to_read s ≠ [] →
    ∃ bs s', tls_read n s = (Ok bs, s') ∧ 0 < lenz bs <= n ∧ bs ++ to_read s' = to_read s ∧ peer_servtd_ext s' = peer_servtd_ext s;
  tls_shutdown_done s : (tls_shutdown s).1 = Ok tt;
  meet_reads bs x s : to_read (meet bs x s) = to_read s ++ bs;
  meet_shows bs x s : peer_servtd_ext (meet bs x s) = Some x }.

(** The sessions of a new side whose peer is the old side with the session [s]. *)
Definition met {TA SA TB SB} `{RebindLaws TA SA} `{RebindLaws TB SB} (s : SA) : RebindSession TB SB := {|
  client_rebinding := client_rebinding;
  server_rebinding := λ t pd, s' ← server_rebinding (T := TB) t pd; Ok (meet (sent_data s) (own_ext s) s');
  tls_write := tls_write (T := TB); tls_read := tls_read (T := TB); tls_shutdown := tls_shutdown (T := TB);
  peer_servtd_ext := peer_servtd_ext (T := TB) |}.

Section sessions.
Context {T SS : Type} {RS : RebindSession T SS} {RL : RebindLaws T SS}.

Lemma map_failed_Ok {A} e (m : M SS (aerr unit) A) s a s' : m s = (Ok a, s') → map_failed e m s = (Ok a, s').
Proof. unfold map_failed. by intros ->. Qed.

Lemma write_loop_sends fuel : ∀ rest s, (length rest <= fuel)%nat →
  ∃ s', tls_write_loop (T := T) fuel rest s = (Ok tt, s') ∧ sent_data s' = sent_data s ++ rest ∧ own_ext s' = own_ext s.
Proof.
  induction fuel as [|fuel IH]; intros rest s Hl.
  - destruct rest; [|cbn in Hl; lia]. exists s. by rewrite app_nil_r.
  - destruct rest as [|x rest]; [exists s; by rewrite app_nil_r|]. set (l := x :: rest) in *.
    destruct (tls_write_taken l s ltac:(done)) as (n & s1 & E1 & Hn & Hs & Ho).
    destruct (IH (drop (Z.to_nat n) l) s1) as (s2 & E2 & Hs2 & Ho2); [rewrite length_drop; unfold lenz in Hn; lia|].
    exists s2. cbn [tls_write_loop l]. rewrite (M_bind_Ok _ _ _ _ _ (map_failed_Ok _ _ _ _ _ E1)). split; [done|].
    split; [|congruence]. by rewrite Hs2, Hs, <-app_assoc, take_drop.
Qed.

Lemma token_sent tok s : ∃ s', tls_send_rebind_token (T := T) tok s = (Ok tt, s') ∧ sent_data s' = sent_data s ++ tok ∧ own_ext s' = own_ext s.
Proof.
  destruct (write_loop_sends (length tok) tok s) as (s' & E & H); [done|]. exists s'. split; [|done].
  unfold tls_send_rebind_token, tls_session_write_all, with_timeout. by rewrite E.
Qed.

Lemma read_loop_receives fuel len : ∀ acc s, len - lenz acc <= Z.of_nat fuel → lenz acc + lenz (to_read s) = len →
  ∃ s', tls_read_loop (T := T) fuel len acc s = (Ok (acc ++ to_read s), s') ∧ peer_servtd_ext s' = peer_servtd_ext s.
Proof.
  induction fuel as [|fuel IH]; intros acc s Hf Hl; cbn [tls_read_loop]; pose proof (lenz_nonneg (to_read s)); destruct (Z.ltb_spec (lenz acc) len); try lia.
  1, 3: exists s; (assert (to_read s = []) as -> by (destruct (to_read s); [done|unfold lenz in *; cbn [length] in *; lia])); by rewrite app_nil_r.
  destruct (tls_read_delivers (len - lenz acc) s ltac:(lia)) as (bs & s1 & E1 & Hb & Hr & Hp).
  { intros E. rewrite E in Hl. change (lenz []) with 0 in Hl. lia. }
  rewrite (M_bind_Ok _ _ _ _ _ (map_failed_Ok _ _ _ _ _ E1)).
  destruct (IH (acc ++ bs) s1) as (s2 & E2 & Hp2); [rewrite lenz_app; lia|rewrite <-Hr, lenz_app in Hl; rewrite lenz_app; lia|].
  exists s2. rewrite E2, <-app_assoc, Hr. split; [done|congruence].
Qed.

Lemma token_received s tok : length tok = 32%nat → to_read s = tok →
  ∃ s', tls_receive_rebind_token (T := T) s = (Ok tok, s') ∧ peer_servtd_ext s' = peer_servtd_ext s.
Proof.
  intros Hl <-. destruct (read_loop_receives 32 32 [] s) as (s' & E & Hp); [done|unfold lenz; cbn; lia|]. exists s'. split; [|done].
  unfold tls_receive_rebind_token, tls_session_read_exact, with_timeout. rewrite M_bind_eq. change (Z.to_nat 32) with 32%nat. rewrite E.
  unfold token_read_from_bytes. cbn [app]. replace (lenz (to_read s) <? 32) with false by (symmetry; apply Z.ltb_ge; unfold lenz; lia).
  by rewrite take_ge by lia.
Qed.

End sessions.

Section agreement.
Context {TA SA MA TB SB MB : Type} {HA HB : Heap}.
Context {BA : ByteStream TA} {RA : RebindSession TA SA} {LA : RebindLaws TA SA} {DA : TdxModule MA}.
Context {BB : ByteStream TB} {RB : RebindSession TB SB} {LB : RebindLaws TB SB} {DB : TdxModule MB}.
Context (setupA : Z → outcome (aerr MigrationResult) TA) (polA chainA : option bytes) (bindA : bytes → bool).
Context (shaA : bytes → option bytes) (tokA : option bytes) (infoA_local : outcome MigrationResult bytes).
Context (setupB : Z → outcome (aerr MigrationResult) TB) (polB chainB : option bytes) (bindB : bytes → bool).
Context (shaB : bytes → option bytes) (tokB : option bytes) (infoB_local : outcome MigrationResult bytes).

(** C6 (functional) The old side, when its session and the TDX module let it, completes
    with one approval, of a token it made, and leaves a session in which it wrote that
    token under a certificate that shows the SERVTD_EXT it read from the target TD.
    The new side, connected to that session, takes the very token the old side approved: it writes
    its words, the expected SERVTD_ATTR and the hash of that SERVTD_EXT with its
    current fields cleared to its own fields, up to the first write the TDX module
    refuses, and succeeds when none is refused and the hash could be computed. *)
Theorem rebinding_agrees infoA infoB (wA wA' : TdWorld MA) (wB : TdWorld MB) tA pdA sA tB pdB sB tok
  (Hold : migration_source infoA = 1) (Hnew : migration_source infoB = 0)
  (HcA : rebind_peer (HP := HA) setupA polA chainA bindA infoA = Ok (tA, pdA))
  (HcB : rebind_peer (HP := HB) setupB polB chainB bindB infoB = Ok (tB, pdB))
  (Htok : tokA = Some tok) (Hlen : length tok = 32%nat)
  (HA' : rebinding_old_session tokA infoA_local tA infoA pdA wA = (Ok sA, wA'))
  (HsB : server_rebinding (T := TB) tB pdB = Ok sB) :
  start_rebinding (HP := HA) setupA polA chainA bindA shaA tokA infoA_local infoA wA = (Ok tt, wA') ∧
  ∃ e pre, (read_servtd_ext (binding_handle infoA) (target_td_uuid infoA) wA).1 = Ok e ∧ no_writes pre ∧
    td_log wA' = td_log wA ++ pre ++ [RebindApprove (binding_handle infoA) tok (target_td_uuid infoA) true] ∧
    le_val (cur_servtd_attr e) = EXPECTED_SERVTD_ATTR ∧
    let '(rB, wB') := start_rebinding (H0 := met sA) (HP := HB) setupB polB chainB bindB shaB tokB infoB_local infoB wB in
    ∃ oks, td_log wB' = td_log wB ++ vm_wr_log (rebind_writes shaB tok e) oks ∧
      wrote_all (rebind_writes shaB tok e) oks rB
        (if approved shaB e then Ok tt else Err (Failed MigrationResult.InvalidParameter)).
Proof.
  split.
  { unfold start_rebinding. rewrite liftO_bind, HcA, Hold. cbn [Z.eqb Pos.eqb fst snd]. unfold rebinding_old_prepare.
    rewrite (M_bind_Ok _ _ _ _ _ HA'). unfold liftO. by rewrite tls_shutdown_done. }
  apply old_post in HA' as [(_ & _ & _ & Hr)|(e & tok' & s1 & pre & ok & He & Ho & Hp & L & Hr)]; [by destruct (Hr sA)|].
  destruct ok; [|done]. injection Hr as <-. destruct Ho as (Ht & ti & s & Es & Hsend & _). rewrite Htok in Ht. injection Ht as <-.
  destruct (client_shows _ _ _ _ _ Es) as [Hs0 Hx]. destruct (token_sent tok s) as (s1' & Hsend' & Hs1 & Hx1).
  rewrite Hsend in Hsend'. injection Hsend' as <-. rewrite Hs0 in Hs1. rewrite Hx in Hx1.
  destruct (read_servtd_ext _ _ wA) as [rA vA] eqn:EA. cbn in He. subst rA.
  destruct (read_servtd_ext_Ok _ _ _ _ _ EA) as (Hok' & Hrt & Ha & _).
  exists e, pre. split; [done|]. split; [done|]. split; [done|]. split; [by rewrite Ha|].
  destruct (token_received (meet (sent_data sA) (own_ext sA) sB) tok Hlen) as (s2 & E2 & Hp2).
  { by rewrite meet_reads, (server_fresh _ _ _ HsB), Hs1. }
  rewrite meet_shows, Hx1 in Hp2.
  assert (new_received (RS := met sA) tB pdB tok e s2) as Hrec.
  { exists (meet (sent_data sA) (own_ext sA) sB). split; [cbn [server_rebinding met]; by rewrite HsB|]. split; [exact E2|].
    unfold get_servtd_ext_from_cert. cbn [peer_servtd_ext met]. by rewrite Hp2, Hrt. }
  assert (start_rebinding (H0 := met sA) (HP := HB) setupB polB chainB bindB shaB tokB infoB_local infoB wB =
    new_finish (RS := met sA) shaB tok e s2 wB) as ->.
  { unfold start_rebinding. rewrite liftO_bind, HcB, Hnew. cbn [Z.eqb fst snd]. unfold rebinding_new_prepare.
    destruct Hrec as (s3 & E3 & E4 & E5). rewrite liftO_bind, E3. cbn [failed]. rewrite E4, liftO_bind, liftO_bind, E5. done. }
  destruct (received_sizes (RS := met sA) _ _ _ _ _ Hrec) as [Hl1 Hl2].
  destruct (new_finish _ tok e s2 wB) as [rB wB'] eqn:EB.
  apply (new_writes (RS := met sA) shaB tok e s2 Hl1 Hl2) in EB as (oks & LB' & HwB). exists oks. split; [done|].
  cbn [tls_shutdown met] in HwB. rewrite tls_shutdown_done in HwB. by destruct (approved shaB e).
Qed.

End agreement.

(** ** Witnesses *)

Definition demo_token : bytes := Eval vm_compute in zeros 30 ++ [1; 2].

#[local] Existing Instance demo_heap.

(** A session that is the bytes written, those to read and the two extensions. *)
Record DemoRebind := mkDemoRebind { dr_sent : bytes; dr_left : bytes; dr_own : bytes; dr_peer : option bytes }.

#[local] Instance demo_rebind : RebindSession Chan DemoRebind :=
  {| client_rebinding := λ _ _ _ e, Ok (mkDemoRebind [] [] (ext_as_bytes e) None);
     server_rebinding := λ _ _, Ok (mkDemoRebind [] [] [] None);
     tls_write := λ bs s, (Ok (lenz bs), mkDemoRebind (dr_sent s ++ bs) (dr_left s) (dr_own s) (dr_peer s));
     tls_read := λ n s, match dr_left s with
       | [] => (Err Pending, s)
       | l => (Ok (take (Z.to_nat n) l), mkDemoRebind (dr_sent s) (drop (Z.to_nat n) l) (dr_own s) (dr_peer s))
       end;
     tls_shutdown := λ s, (Ok tt, s);
     peer_servtd_ext := dr_peer |}.

#[local, refine] Instance demo_rebind_laws : RebindLaws Chan DemoRebind :=
  {| sent_data := dr_sent; to_read := dr_left; own_ext := dr_own;
     meet := λ bs x s, mkDemoRebind (dr_sent s) (dr_left s ++ bs) (dr_own s) (Some x) |}.
Proof.
  - by intros t pd ti e s [= <-].
  - by intros t pd s [= <-].
  - intros bs s Hbs. eexists _, _. split; [reflexivity|]. cbn [dr_sent dr_own].
    split; [destruct bs; [done|unfold lenz; cbn [length]; lia]|]. unfold lenz. by rewrite Nat2Z.id, firstn_all.
  - intros n [se l o p] Hl. cbn in Hl. subst l. by eexists.
  - intros n [se l o p] Hn Hl. cbn in Hl. destruct l as [|x l]; [done|]. eexists _, _. split; [reflexivity|]. cbn [dr_left dr_peer].
    split; [unfold lenz; rewrite length_take; cbn [length]; lia|]. split; [apply take_drop|done].
  - done.
  - done.
  - done.
Defined.

Definition demo_new_info : MigtdMigrationInformation := mkMigInfo 8 0 0 (zeros 6) [5; 6; 7; 8] 10 0 0 (zeros 512).

Definition demo_open (_ : Z) : outcome (aerr MigrationResult) Chan := Ok (mkChan demo_in [] [] []).

Definition demo_peer : Chan * bytes :=
  Eval vm_compute in match rebind_peer demo_open (Some [1; 2]) (Some [3]) (λ _, true) demo_info with Ok p => p | _ => (mkChan [] [] [] [], []) end.

Lemma demo_peers :
  rebind_peer demo_open (Some [1; 2]) (Some [3]) (λ _, true) demo_info = Ok (demo_peer.1, demo_peer.2) ∧
  rebind_peer demo_open (Some [1; 2]) (Some [3]) (λ _, true) demo_new_info = Ok (demo_peer.1, demo_peer.2).
Proof. split; vm_compute; reflexivity. Qed.

Definition demo_old_run : outcome (aerr MigrationResult) DemoRebind * TdWorld (gmap Z Z) :=
  Eval vm_compute in rebinding_old_session (H1 := demo_module) (Some demo_token) (Ok (zeros 512)) demo_peer.1 demo_info demo_peer.2 (mkTdWorld demo_tds []).
Definition demo_old_left : DemoRebind := Eval vm_compute in match demo_old_run.1 with Ok s => s | _ => mkDemoRebind [] [] [] None end.
Definition demo_old_end : TdWorld (gmap Z Z) := Eval vm_compute in demo_old_run.2.

Lemma demo_rebind_old : rebinding_old_session (H1 := demo_module) (Some demo_token) (Ok (zeros 512)) demo_peer.1 demo_info demo_peer.2 (mkTdWorld demo_tds []) =
  (Ok demo_old_left, demo_old_end).
Proof. vm_compute. reflexivity. Qed.

Notation new_demo := (start_rebinding (H0 := met demo_old_left) (H1 := demo_module) demo_open (Some [1; 2]) (Some [3])
  (λ _, true) (λ _, Some (zeros 48)) None (Ok (zeros 512)) demo_new_info (mkTdWorld demo_tds [])).

Definition demo_new_end : TdWorld (gmap Z Z) := Eval vm_compute in new_demo.2.

Lemma demo_rebind_new : new_demo = (Ok tt, demo_new_end).
Proof. vm_compute. reflexivity. Qed.

Lemma rebinding_agrees_witness :
  ∃ pre e oks, td_log demo_old_end = pre ++ [RebindApprove 9 demo_token [1; 2; 3; 4] true] ∧
    td_log demo_new_end = vm_wr_log (rebind_writes (λ _, Some (zeros 48)) demo_token e) oks ∧
    wrote_all (rebind_writes (λ _, Some (zeros 48)) demo_token e) oks (Ok tt) (Ok tt).
Proof.
  destruct (rebinding_agrees (RA := demo_rebind) (LA := demo_rebind_laws) (DA := demo_module) (RB := demo_rebind) (LB := demo_rebind_laws) (DB := demo_module)
    demo_open (Some [1; 2]) (Some [3]) (λ _, true) (λ _, Some (zeros 48)) (Some demo_token) (Ok (zeros 512))
    demo_open (Some [1; 2]) (Some [3]) (λ _, true) (λ _, Some (zeros 48)) None (Ok (zeros 512))
    demo_info demo_new_info (mkTdWorld demo_tds []) demo_old_end (mkTdWorld demo_tds []) demo_peer.1 demo_peer.2 demo_old_left
    demo_peer.1 demo_peer.2 (mkDemoRebind [] [] [] None) demo_token eq_refl eq_refl (proj1 demo_peers) (proj2 demo_peers)
    eq_refl eq_refl demo_rebind_old eq_refl) as (_ & e & pre & _ & _ & L & _ & H).
  rewrite demo_rebind_new in H. destruct H as (oks & LB & HB). exists pre, e, oks. exact (conj L (conj LB HB)).
Defined.

(** The new side wrote what it received. *)
Lemma rebinding_writes_last_witness : ∃ t pd tok e s1 oks, new_received (RS := met demo_old_left) t pd tok e s1 ∧
  td_log demo_new_end = vm_wr_log (rebind_writes (λ _, Some (zeros 48)) tok e) oks.
Proof.
  destruct (rebinding_writes_last (RS := met demo_old_left) (TD := demo_module) _ _ _ _ _ _ _ _ _ _ _ demo_rebind_new)
    as [(new & _ & _ & Hr)|(t & pd & _ & H)]; [by destruct (Hr tt)|].
  change (migration_source demo_new_info =? 1) with false in H. destruct H as (tok & e & s1 & oks & Hn & L & _).
  exists t, pd, tok, e, s1, oks. exact (conj Hn L).
Defined.

(** A policy binding that does not hold stops a rebinding at once. *)
Definition demo_bound_info : MigtdMigrationInformation := mkMigInfo 7 1 1 (zeros 6) [1; 2; 3; 4] 9 0 0 (zeros 512).

Example demo_rebind_refused :
  start_rebinding (H1 := demo_module) demo_open (Some [1; 2]) (Some [3])
    (λ _, false) (λ _, Some (zeros 48)) (Some demo_token) (Ok (zeros 512)) demo_bound_info (mkTdWorld demo_tds []) =
  (Err (Failed MigrationResult.PolicyUnsatisfiedError), mkTdWorld demo_tds []).
Proof. reflexivity. Qed.
