(* ===== verification/EventLog.v ===== *)
(** * EventLog: the measured event log

    src/migtd/src/event_log.rs.  The reader of the log format is the
    cc-measurement crate, the class [CcLog]; SHA-384 is a parameter.  The
    theorems say what a log that passes [verify_event_log] must contain; a
    second log accepted for the same report differs only if the hash function
    has a collision. *)
From stdpp Require Import base tactics numbers list list_numbers option gmap.
From S2P Require Import Prelude MigData.
Local Open Scope Z_scope.

(** ** Events *)

(** The fields of a [CcEventHeader] the code uses. *)
Record CcEventHeader := mkEventHeader { mr_index : Z; event_type : Z; digest : bytes; event_size : Z }.

(** [CcEventLogReader::new]: the size of the first event and the events; the
    structures have the given sizes and byte forms, and digests 48 bytes. *)
Class CcLog := {
  read_events : bytes → option (Z * list (CcEventHeader * bytes));
  header_as_bytes : CcEventHeader → bytes;
  SIZE_PCR_HEADER : Z;
  SIZE_CC_HEADER : Z;
  EV_EFI_PLATFORM_FIRMWARE_BLOB2 : Z;
  EV_PLATFORM_CONFIG_FLAGS : Z;
  PLATFORM_FIRMWARE_BLOB2_PAYLOAD : bytes;
  PLATFORM_CONFIG_SECURE_AUTHORITY : bytes;
  PLATFORM_CONFIG_SVN : bytes;
  read_events_digests bs n l : read_events bs = Some (n, l) → Forall (λ e, length (digest e.1) = 48%nat) l;
  read_events_sizes bs n l : read_events bs = Some (n, l) → 0 <= n ∧ Forall (λ e, 0 <= event_size e.1) l;
  SIZE_PCR_HEADER_nonneg : 0 <= SIZE_PCR_HEADER;
  length_header h : lenz (header_as_bytes h) = SIZE_CC_HEADER }.

Definition EV_EVENT_TAG : Z := 6.
Definition TAGGED_EVENT_ID_POLICY : Z := 1.
Definition TAGGED_EVENT_ID_ROOT_CA : Z := 2.
Definition TAGGED_EVENT_ID_POLICY_ISSUER_CHAIN : Z := 3.

(** [TaggedEvent::new] *)
Definition tagged_event (tag_id : Z) (data : bytes) : bytes :=
  le_bytes 4 tag_id ++ le_bytes 4 (as_u 32 (lenz data)) ++ data.

Module EventName.
Inductive t := TdShim | SecureBootKey | MigTdCore | MigTdCoreSvn | MigTdPolicy | SgxRootKey | MigTdPolicySigner | Unknown.
#[global] Instance t_eq_dec : EqDecision t.
Proof. solve_decision. Defined.
End EventName.

Record CcEvent := mkCcEvent { ce_header : CcEventHeader; ce_data : option bytes }.

(** A [BTreeMap] as the list of its bindings, the newest first. *)
Notation EventMap := (list (EventName.t * CcEvent)).

Fixpoint event_get (m : EventMap) (n : EventName.t) : option CcEvent :=
  match m with
  | [] => None
  | (k, e) :: m' => if decide (k = n) then Some e else event_get m' n
  end.

Definition starts_with (bs prefix : bytes) : bool := bool_decide (take (length prefix) bs = prefix).

Section log.
Context `{CcLog} (digest_sha384 : bytes → option bytes).

Definition event_log_size (event_log : bytes) : option Z :=
  r ← read_events event_log;
  Some (foldl (λ size e, size + (SIZE_CC_HEADER + event_size e.1)) (SIZE_PCR_HEADER + r.1) r.2).

(** [raw] is the area the CCEL table names; one byte more than the events is
    returned, because the reader drops an event that ends where its input does. *)
Definition get_event_log (raw : bytes) : outcome unit bytes :=
  match event_log_size raw with
  | None => Err tt
  | Some size => match slice raw 0 (size + 1) with Some l => Ok l | None => Panic end
  end.

(** One event of [parse_events]: [Err] is an early [return None]. *)
Definition parse_event (m : EventMap) (e : CcEventHeader * bytes) : outcome unit EventMap :=
  let '(h, data) := e in
  if event_type h =? EV_EFI_PLATFORM_FIRMWARE_BLOB2 then
    match nthz data 0 with
    | None => Panic
    | Some desc_size =>
        match slice data 1 (1 + desc_size) with
        | None => Err tt
        | Some desc =>
            Ok (if bool_decide (desc = PLATFORM_FIRMWARE_BLOB2_PAYLOAD)
                then (EventName.MigTdCore, mkCcEvent h None) :: m else m)
        end
    end
  else if event_type h =? EV_PLATFORM_CONFIG_FLAGS then
    if starts_with data PLATFORM_CONFIG_SECURE_AUTHORITY then Ok ((EventName.SecureBootKey, mkCcEvent h None) :: m)
    else if starts_with data PLATFORM_CONFIG_SVN then
      match slice data 16 20 with
      | None => Err tt
      | Some l =>
          match slice data 20 (20 + le_val l) with
          | None => Err tt
          | Some info => Ok ((EventName.MigTdCoreSvn, mkCcEvent h (Some info)) :: m)
          end
      end
    else Ok m
  else if event_type h =? EV_EVENT_TAG then
    match slice data 0 4 with
    | None => Err tt
    | Some t =>
        let tag_id := le_val t in
        Ok (if tag_id =? TAGGED_EVENT_ID_POLICY then (EventName.MigTdPolicy, mkCcEvent h None) :: m
            else if tag_id =? TAGGED_EVENT_ID_ROOT_CA then (EventName.SgxRootKey, mkCcEvent h None) :: m
            else if tag_id =? TAGGED_EVENT_ID_POLICY_ISSUER_CHAIN then (EventName.MigTdPolicySigner, mkCcEvent h None) :: m
            else m)
    end
  else Ok m.

Fixpoint parse_loop (m : EventMap) (l : list (CcEventHeader * bytes)) : outcome unit EventMap :=
  match l with
  | [] => Ok m
  | e :: l' => m' ← parse_event m e; parse_loop m' l'
  end.

Definition parse_events (event_log : bytes) : outcome unit EventMap :=
  match read_events event_log with
  | None => Err tt
  | Some (_, l) => parse_loop [] l
  end.

(** ** Replay *)

(** One event: the digest into the upper half of the register's buffer, the hash
    of the whole into the lower half. *)
Definition replay_event (rtmrs : list bytes) (h : CcEventHeader) : outcome unit (list bytes) :=
  let rtmr_index := if (1 <=? mr_index h) && (mr_index h <=? 4) then mr_index h - 1 else 0xff in
  if rtmr_index <=? 3 then
    match nthz rtmrs rtmr_index with
    | None => Panic
    | Some b =>
        match write_at b 48 (digest h) with
        | None => Panic
        | Some b =>
            match digest_sha384 b with
            | None => Err tt
            | Some d =>
                match write_at b 0 d with
                | None => Panic
                | Some b => Ok (<[Z.to_nat rtmr_index := b]> rtmrs)
                end
            end
        end
    end
  else Err tt.

Fixpoint replay_loop (rtmrs : list bytes) (l : list (CcEventHeader * bytes)) : outcome unit (list bytes) :=
  match l with
  | [] => Ok rtmrs
  | (h, _) :: l' => r ← replay_event rtmrs h; replay_loop r l'
  end.

(** Without the features [AzCVMEmu] and [use-mock-quote]. *)
Definition verify_event_log (event_log : bytes) (report_rtmrs : list bytes) : outcome unit unit :=
  match read_events event_log with
  | None => Err tt
  | Some (_, l) =>
      rtmrs ← replay_loop (replicate 4 (zeros 96)) l;
      if bool_decide (report_rtmrs = take 48 <$> rtmrs) then Ok tt else Err tt
  end.

(** ** Extending *)

(** The registers are behind a TD call: it may fail, and each extension that
    reached it is recorded. *)
Record MrWorld := mkMr { mr_ok : list bool; mr_extended : list (Z * bytes) }.

Definition extend_rtmr (d : bytes) (index : Z) : M MrWorld unit unit :=
  _ ← err_if (negb ((1 <=? index) && (index <=? 4))) tt;
  w ← getS;
  match mr_ok w with
  | true :: l => modifyS (λ w, mkMr l (mr_extended w ++ [(index - 1, d)]))
  | _ => failM tt
  end.

Definition calculate_digest (hash_data : bytes) : outcome unit bytes :=
  match digest_sha384 hash_data with
  | None => Err tt
  | Some d => if lenz d =? 48 then Ok d else Panic
  end.

(** The log that is written in place, and its new size. *)
Definition write_tagged_event_log (event_log : bytes) (mr : Z) (hash_data : bytes) (tag : Z) (data : bytes) :
  M MrWorld unit (Z * bytes) :=
  log_size ← ok_or (event_log_size event_log) tt;
  let event := tagged_event tag data in
  d ← liftO (calculate_digest hash_data);
  _ ← extend_rtmr d mr;
  let header := mkEventHeader mr EV_EVENT_TAG d (as_u 32 (lenz event)) in
  _ ← err_if (lenz event_log <? log_size + SIZE_CC_HEADER + lenz event) tt;
  log ← or_panic (write_at event_log log_size (header_as_bytes header));
  log ← or_panic (write_at log (log_size + SIZE_CC_HEADER) event);
  mret (log_size + SIZE_CC_HEADER + lenz event, log).

End log.

(** ** Lemmas *)

Section spec.
Context `{L : CcLog} (sha384 : bytes → option bytes).
Context (Hsha : ∀ x d, sha384 x = Some d → length d = 48%nat).

(** The digests of the events measured into register [i], in order. *)
Definition digests_of (i : nat) (l : list (CcEventHeader * bytes)) : list bytes :=
  (λ e, digest e.1) <$> filter (λ e, mr_index e.1 = Z.of_nat i + 1) l.

(** A register after extending it with [ds]. *)
Fixpoint extend_all (r : bytes) (ds : list bytes) : option bytes :=
  match ds with
  | [] => Some r
  | d :: ds' => match sha384 (r ++ d) with Some r' => extend_all r' ds' | None => None end
  end.

Definition valid_index (e : CcEventHeader * bytes) : Prop := 1 <= mr_index e.1 <= 4.

(** A register's buffer: its value, then the last digest. *)
Definition buffer_of (b r : bytes) : Prop := length b = 96%nat ∧ take 48 b = r.

Lemma buffer_step b r d x : buffer_of b r → length d = 48%nat → length x = 48%nat →
  write_at b 48 d = Some (r ++ d) ∧ write_at (r ++ d) 0 x = Some (x ++ d) ∧ buffer_of (x ++ d) x.
Proof.
  intros [Hb Hr] Hd Hx. assert (length r = 48%nat) as Hlr by (rewrite <-Hr, length_take; lia).
  split; [|split].
  - rewrite write_at_Some by (unfold lenz; lia). change (Z.to_nat 48) with 48%nat.
    rewrite Hr, drop_ge, app_nil_r by lia. done.
  - rewrite write_at_Some by (unfold lenz; rewrite ?length_app; lia). change (Z.to_nat 0) with 0%nat.
    rewrite take_0. cbn [app Nat.add]. by rewrite Hx, drop_app_length' by done.
  - split; [rewrite length_app; lia|by rewrite take_app_length'].
Qed.

Lemma digests_of_cons i e l : digests_of i (e :: l) =
  (if decide (mr_index e.1 = Z.of_nat i + 1) then [digest e.1] else []) ++ digests_of i l.
Proof. unfold digests_of. rewrite filter_cons. by case_decide. Qed.

Lemma digests_of_invalid i l : Forall valid_index l → (4 <= i)%nat → digests_of i l = [].
Proof.
  intros Hl Hi. induction Hl as [|e l He _ IH]; [done|]. rewrite digests_of_cons, IH.
  unfold valid_index in He. by rewrite decide_False by lia.
Qed.

Lemma parse_loop_app m l1 l2 : parse_loop m (l1 ++ l2) = m' ← parse_loop m l1; parse_loop m' l2.
Proof.
  revert m. induction l1 as [|e l1 IH]; intros m; [done|]. cbn [app parse_loop].
  destruct (parse_event m e); cbn [mbind outcome_bind]; [apply IH|done|done].
Qed.

Lemma replay_loop_spec l rtmrs rs :
  length rs = 4%nat → Forall2 buffer_of rtmrs rs → Forall (λ e, length (digest e.1) = 48%nat) l →
  (∃ out rs', replay_loop sha384 rtmrs l = Ok out ∧ Forall2 buffer_of out rs' ∧ length rs' = 4%nat ∧
     Forall valid_index l ∧
     ∀ i r, rs !! i = Some r → extend_all r (digests_of i l) = rs' !! i) ∨
  (replay_loop sha384 rtmrs l = Err tt ∧
     (¬ Forall valid_index l ∨ ∃ i r, rs !! i = Some r ∧ extend_all r (digests_of i l) = None)).
Proof.
  revert rtmrs rs. induction l as [|[h data] l IH]; intros rtmrs rs Hlen Hbuf Hd; cbn [replay_loop].
  { left. exists rtmrs, rs. split_and!; try done. }
  apply Forall_cons in Hd as [Hdh Hd]. cbn [fst] in Hdh. unfold replay_event.
  destruct ((1 <=? mr_index h) && (mr_index h <=? 4)) eqn:Ei.
  2:{ right. split; [done|]. left. intros [[H1 H2] _]%Forall_cons. cbn in *.
      rewrite (proj2 (Z.leb_le _ _) H1), (proj2 (Z.leb_le _ _) H2) in Ei. done. }
  apply andb_prop in Ei as [H1%Z.leb_le H2%Z.leb_le]. rewrite (proj2 (Z.leb_le (mr_index h - 1) 3)) by lia.
  set (j := Z.to_nat (mr_index h - 1)). assert (mr_index h = Z.of_nat j + 1) as Ej by (unfold j; lia).
  destruct (lookup_lt_is_Some_2 rs j) as [r Hr]; [unfold j; lia|].
  destruct (Forall2_lookup_r _ _ _ _ _ Hbuf Hr) as (b & Hb & Hbr).
  assert (nthz rtmrs (mr_index h - 1) = Some b) as ->.
  { unfold nthz. rewrite (proj2 (Z.leb_le _ _)) by lia. done. }
  destruct (sha384 (r ++ digest h)) as [x|] eqn:Ex.
  - destruct (buffer_step b r (digest h) x Hbr Hdh (Hsha _ _ Ex)) as (-> & Ew & Hnew). rewrite Ex, Ew. cbn [mbind outcome_bind].
    destruct (IH (<[j := x ++ digest h]> rtmrs) (<[j := x]> rs)) as [(out & rs' & E & Ho & Hl' & Hv & Hch)|[E Hbad]];
      [by rewrite length_insert|by apply Forall2_insert|done| |].
    + left. exists out, rs'. split_and!; try done; [by constructor; [split|]|].
      intros i ri Hi. rewrite digests_of_cons. cbn [fst]. case_decide as Hij.
      * assert (i = j) as -> by lia. rewrite Hr in Hi. injection Hi as <-. cbn. rewrite Ex.
        apply Hch. apply list_lookup_insert_eq. by eapply lookup_lt_Some.
      * apply Hch. rewrite list_lookup_insert_ne by lia. done.
    + right. split; [done|]. destruct Hbad as [Hnv|(i & ri & Hi & Hbad)]; [left; by intros [_ ?]%Forall_cons|].
      right. destruct (decide (i = j)) as [->|Hij].
      * exists j, r. split; [done|]. rewrite digests_of_cons. cbn [fst]. rewrite decide_True by done. cbn. rewrite Ex.
        rewrite list_lookup_insert_eq in Hi by (by eapply lookup_lt_Some). by injection Hi as <-.
      * exists i, ri. rewrite list_lookup_insert_ne in Hi by done. split; [done|].
        rewrite digests_of_cons. cbn [fst]. by rewrite decide_False by lia.
  - destruct (buffer_step b r (digest h) (zeros 48) Hbr Hdh eq_refl) as (-> & _ & _). rewrite Ex.
    right. split; [done|]. right. exists j, r. split; [done|]. rewrite digests_of_cons. cbn [fst].
    rewrite decide_True by done. cbn. by rewrite Ex.
Qed.

(** What [verify_event_log] accepts. *)
Definition replays (l : list (CcEventHeader * bytes)) (report : list bytes) : Prop :=
  Forall valid_index l ∧ length report = 4%nat ∧
  ∀ i r, report !! i = Some r → extend_all (zeros 48) (digests_of i l) = Some r.

Lemma verify_spec log report n l : read_events log = Some (n, l) →
  (verify_event_log sha384 log report = Ok tt ↔ replays l report) ∧ verify_event_log sha384 log report ≠ Panic.
Proof.
  intros Hr. unfold verify_event_log. rewrite Hr. pose proof (read_events_digests _ _ _ Hr) as Hd.
  destruct (replay_loop_spec l (replicate 4 (zeros 96)) (replicate 4 (zeros 48))) as [(out & rs' & E & Ho & Hl & Hv & Hch)|[E Hbad]];
    [done|apply Forall2_replicate; by split|done|..]; rewrite E; cbn [mbind outcome_bind].
  - assert (take 48 <$> out = rs') as ->.
    { clear -Ho. induction Ho as [|b r o rs [_ Hb] _ IH]; [done|]. cbn. by rewrite Hb, IH. }
    assert (∀ i, (i < 4)%nat → extend_all (zeros 48) (digests_of i l) = rs' !! i) as Hch'.
    { intros i Hi. apply Hch. by apply lookup_replicate_2. }
    case_bool_decide as Hrep; (split; [|done]); split; try done.
    + intros _. subst report. split_and!; [done|done|]. intros i r Hi. rewrite <-Hi. apply Hch'.
      apply lookup_lt_Some in Hi. lia.
    + intros (_ & Hlen & Hall). destruct Hrep. apply list_eq. intros i.
      destruct (report !! i) as [r|] eqn:Ei.
      * rewrite <-(Hall _ _ Ei). apply Hch'. apply lookup_lt_Some in Ei. lia.
      * symmetry. apply lookup_ge_None. apply lookup_ge_None in Ei. lia.
  - split; [|done]. split; [done|]. intros (Hv & Hlen & Hall). exfalso. destruct Hbad as [Hnv|(i & r & Hi & Hn)]; [done|].
    assert (i < 4)%nat as Hi4 by (apply lookup_lt_Some in Hi; rewrite length_replicate in Hi; done).
    destruct (lookup_lt_is_Some_2 report i) as [x Hx]; [lia|]. apply lookup_replicate in Hi as [-> _].
    rewrite (Hall _ _ Hx) in Hn. done.
Qed.

(** ** Binding *)

Definition collision : Prop := ∃ x y d, x ≠ y ∧ sha384 x = Some d ∧ sha384 y = Some d.

Definition zero_preimage : Prop := ∃ x, sha384 x = Some (zeros 48).

Lemma extend_all_app r ds d : extend_all r (ds ++ [d]) = c ← extend_all r ds; sha384 (c ++ d).
Proof.
  revert r. induction ds as [|x ds IH]; intros r; cbn; [by destruct (sha384 (r ++ d))|].
  destruct (sha384 (r ++ x)); [apply IH|done].
Qed.

Lemma extend_all_length r ds x : length r = 48%nat → extend_all r ds = Some x → length x = 48%nat.
Proof.
  revert r. induction ds as [|d ds IH]; intros r Hr; cbn; [by intros [= <-]|].
  destruct (sha384 (r ++ d)) as [y|] eqn:E; [|done]. apply IH. by apply Hsha in E.
Qed.

Lemma extend_all_inj ds1 ds2 x :
  extend_all (zeros 48) ds1 = Some x → extend_all (zeros 48) ds2 = Some x → ds1 = ds2 ∨ collision ∨ zero_preimage.
Proof.
  revert ds2 x. induction ds1 as [|d1 ds1 IH] using rev_ind; intros ds2 x E1 E2.
  - cbn in E1. injection E1 as <-. destruct ds2 as [|d2 ds2 _] using rev_ind; [by left|].
    rewrite extend_all_app in E2. apply bind_Some in E2 as (c & _ & E2). right; right. by eexists.
  - rewrite extend_all_app in E1. apply bind_Some in E1 as (c1 & C1 & E1).
    destruct ds2 as [|d2 ds2 _] using rev_ind.
    + cbn in E2. injection E2 as <-. right; right. by eexists.
    + rewrite extend_all_app in E2. apply bind_Some in E2 as (c2 & C2 & E2).
      destruct (decide (c1 ++ d1 = c2 ++ d2)) as [Heq|]; [|right; left; by exists (c1 ++ d1), (c2 ++ d2), x].
      pose proof (extend_all_length (zeros 48) _ _ eq_refl C1) as L1. pose proof (extend_all_length (zeros 48) _ _ eq_refl C2) as L2.
      apply app_inj_1 in Heq as [-> ->]; [|congruence]. destruct (IH ds2 c2 C1 C2) as [->|?]; [by left|by right].
Qed.

(** ** Appending a tagged event *)

Lemma event_log_size_nonneg log n : event_log_size log = Some n → 0 <= n.
Proof.
  unfold event_log_size. destruct (read_events log) as [[m l]|] eqn:E; [|done]. cbn [mbind option_bind fst snd].
  intros [= <-]. apply read_events_sizes in E as [Hm Hl]. pose proof SIZE_PCR_HEADER_nonneg.
  pose proof (length_header (mkEventHeader 0 0 [] 0)) as Hs. pose proof (lenz_nonneg (header_as_bytes (mkEventHeader 0 0 [] 0))).
  assert (0 <= SIZE_PCR_HEADER + m) as Hb by lia. revert Hb. generalize (SIZE_PCR_HEADER + m).
  induction Hl as [|e l He _ IH]; intros z Hz; cbn [foldl]; [done|]. apply IH. lia.
Qed.

Lemma split_segments (l : bytes) a b c : 0 <= a → 0 <= b → 0 <= c → a + b + c <= lenz l →
  ∃ l1 l2 l3 l4, l = l1 ++ l2 ++ l3 ++ l4 ∧ lenz l1 = a ∧ lenz l2 = b ∧ lenz l3 = c.
Proof.
  unfold lenz. intros Ha Hb Hc Hl.
  exists (take (Z.to_nat a) l), (take (Z.to_nat b) (drop (Z.to_nat a) l)),
    (take (Z.to_nat c) (drop (Z.to_nat b) (drop (Z.to_nat a) l))), (drop (Z.to_nat c) (drop (Z.to_nat b) (drop (Z.to_nat a) l))).
  rewrite !take_drop. rewrite !length_take, !length_drop. split; [done|]. lia.
Qed.

(** What an append does, in the order it does it: the register first, the log
    only when the event fits. *)
Lemma write_tagged_post log mr hd tag data w o w' :
  write_tagged_event_log sha384 log mr hd tag data w = (o, w') →
  o ≠ Panic ∧
  ∀ size log', o = Ok (size, log') → ∃ n d, event_log_size log = Some n ∧ sha384 hd = Some d ∧
    mr_extended w' = mr_extended w ++ [(mr - 1, d)] ∧
    size = n + SIZE_CC_HEADER + lenz (tagged_event tag data) ∧ length log' = length log ∧
    take (Z.to_nat n) log' = take (Z.to_nat n) log ∧
    slice log' n size = Some (header_as_bytes (mkEventHeader mr EV_EVENT_TAG d (as_u 32 (lenz (tagged_event tag data))))
      ++ tagged_event tag data).
Proof.
  unfold write_tagged_event_log, extend_rtmr, calculate_digest. intros E.
  destruct (event_log_size log) as [n|] eqn:En; [|by injection E as <- <-].
  pose proof (event_log_size_nonneg _ _ En) as Hn. pose proof (length_header (mkEventHeader 0 0 [] 0)) as Hs.
  set (ev := tagged_event tag data) in *. clearbody ev.
  destruct (sha384 hd) as [d|] eqn:Ed; [|by injection E as <- <-]. pose proof (Hsha _ _ Ed) as Hd.
  rewrite (proj2 (Z.eqb_eq (lenz d) 48)) in E by (unfold lenz; lia).
  destruct ((1 <=? mr) && (mr <=? 4)) eqn:Em; [|by injection E as <- <-].
  destruct w as [[|[] ok] ext]; [by injection E as <- <-| |by injection E as <- <-].
  cbv beta iota delta [mbind M_bind ok_or mret M_ret liftO err_if negb getS mr_ok mr_extended modifyS failM or_panic panicM] in E.
  set (hdr := mkEventHeader mr EV_EVENT_TAG d (as_u 32 (lenz ev))) in *.
  pose proof (length_header hdr) as Hh. remember (header_as_bytes hdr) as hb eqn:Ehb.
  destruct (lenz log <? n + SIZE_CC_HEADER + lenz ev) eqn:El; [by injection E as <- <-|].
  apply Z.ltb_ge in El. rewrite <-Hh in *. pose proof (lenz_nonneg hb) as ?. pose proof (lenz_nonneg ev) as ?.
  destruct (split_segments log n (lenz hb) (lenz ev)) as (l1 & l2 & l3 & l4 & -> & H1 & H2 & H3); [lia..|].
  rewrite (write_at_app l1 l2 (l3 ++ l4)) in E by (unfold lenz in *; lia).
  replace (l1 ++ hb ++ l3 ++ l4) with ((l1 ++ hb) ++ l3 ++ l4) in E by (by rewrite <-app_assoc).
  rewrite (write_at_app (l1 ++ hb) l3 l4) in E by (unfold lenz in *; rewrite ?length_app; lia).
  injection E as <- <-. split; [done|]. intros size log' [= <- <-]. exists n, d. unfold lenz in *.
  split_and!; try done; [rewrite !length_app; lia|rewrite <-!app_assoc, !take_app_length' by lia; done|].
  rewrite <-app_assoc. replace (hb ++ ev ++ l4) with ((hb ++ ev) ++ l4) by (by rewrite <-app_assoc).
  transitivity (Some (hb ++ ev)); [|by rewrite Ehb]. apply slice_app; unfold lenz; rewrite ?length_app; lia.
Qed.

(** C29 [verify_event_log] never aborts on a log its reader accepts, and accepts
    exactly the logs all of whose events name one of the four registers and
    whose digests, extended in order into a zero register, give the value the
    report has for that register. *)
Theorem event_log_verified log report n l : read_events log = Some (n, l) →
  verify_event_log sha384 log report ≠ Panic ∧
  (verify_event_log sha384 log report = Ok tt ↔
   Forall valid_index l ∧ length report = 4%nat ∧
   ∀ i r, report !! i = Some r → extend_all (zeros 48) (digests_of i l) = Some r).
Proof. intros Hr. by destruct (verify_spec log report n l Hr). Qed.

(** The report pins the log down: two logs that pass [verify_event_log] with
    the same report have, register by register, the same digests in the same
    order, unless the hash function has a collision or a preimage of the zero
    register. *)
Theorem event_log_binding log1 log2 n1 n2 l1 l2 report i :
  read_events log1 = Some (n1, l1) → read_events log2 = Some (n2, l2) →
  verify_event_log sha384 log1 report = Ok tt → verify_event_log sha384 log2 report = Ok tt →
  digests_of i l1 = digests_of i l2 ∨ collision ∨ zero_preimage.
Proof.
  intros R1 R2 V1 V2.
  apply (verify_spec _ _ _ _ R1) in V1 as (I1 & Hlen & D1). apply (verify_spec _ _ _ _ R2) in V2 as (I2 & _ & D2).
  destruct (report !! i) as [r|] eqn:Ei; [eapply extend_all_inj; eauto|].
  left. apply lookup_ge_None in Ei. by rewrite !digests_of_invalid by (done || lia).
Qed.

(** A firmware blob event without data aborts [parse_events]: its first byte is
    read before any length check. *)
Lemma parse_empty_blob_panics log n l1 h l2 m :
  read_events log = Some (n, l1 ++ (h, []) :: l2) → event_type h = EV_EFI_PLATFORM_FIRMWARE_BLOB2 →
  parse_loop [] l1 = Ok m → parse_events log = Panic.
Proof.
  intros Hr Ht Hm. unfold parse_events. rewrite Hr, parse_loop_app, Hm. cbn [mbind outcome_bind parse_loop].
  unfold parse_event. by rewrite Ht, Z.eqb_refl.
Qed.

End spec.

(** ** A concrete reader

    Headers of 60 bytes (register, type, digest, data size) and no event before
    them; as in the crate, an event that ends where the input does is dropped. *)
Module Sample.

Definition event_header (b : bytes) : option CcEventHeader :=
  mr ← slice b 0 4; ty ← slice b 4 8; d ← slice b 8 56; sz ← slice b 56 60;
  Some (mkEventHeader (le_val mr) (le_val ty) d (as_u 32 (le_val sz))).

Fixpoint events (fuel : nat) (b : bytes) : list (CcEventHeader * bytes) :=
  match fuel, event_header b with
  | S fuel, Some h =>
      let e := 60 + event_size h in
      match slice b 60 e with
      | Some data => if e <? lenz b then (h, data) :: events fuel (drop (Z.to_nat e) b) else []
      | None => []
      end
  | _, _ => []
  end.

Lemma events_wf fuel b : Forall (λ e, length (digest e.1) = 48%nat ∧ 0 <= event_size e.1) (events fuel b).
Proof.
  revert b. induction fuel as [|fuel IH]; intros b; cbn [events]; [constructor|].
  destruct (event_header b) as [h|] eqn:Eh; [|constructor].
  destruct (slice b 60 _); [|constructor]. destruct (_ <? _); [|constructor]. constructor; [|apply IH].
  unfold event_header in Eh. apply bind_Some in Eh as (? & _ & Eh). apply bind_Some in Eh as (? & _ & Eh).
  apply bind_Some in Eh as (d & Hd & Eh). apply bind_Some in Eh as (? & _ & Eh). injection Eh as <-.
  apply slice_Some_len in Hd as [Hd _]. cbn [fst digest event_size]. unfold lenz in Hd.
  split; [lia|]. apply Z.mod_pos_bound. lia.
Qed.

#[refine] Instance log : CcLog := {
  read_events b := Some (0, events (length b) b);
  header_as_bytes h := fit 60 (le_bytes 4 (mr_index h) ++ le_bytes 4 (event_type h) ++ digest h ++ le_bytes 4 (event_size h));
  SIZE_PCR_HEADER := 0; SIZE_CC_HEADER := 60;
  EV_EFI_PLATFORM_FIRMWARE_BLOB2 := 0x8000000a; EV_PLATFORM_CONFIG_FLAGS := 0xa;
  PLATFORM_FIRMWARE_BLOB2_PAYLOAD := [1]; PLATFORM_CONFIG_SECURE_AUTHORITY := [2]; PLATFORM_CONFIG_SVN := [3] }.
Proof.
  - intros bs n l [= <- <-]. eapply Forall_impl; [apply events_wf|]. by intros ? [].
  - intros bs n l [= <- <-]. split; [done|]. eapply Forall_impl; [apply events_wf|]. by intros ? [].
  - done.
  - intros h. by apply lenz_fit.
Defined.

(** The digest itself: enough to run the replay. *)
Definition last_digest (x : bytes) : option bytes := Some (take 48 (drop 48 x ++ zeros 48)).

Lemma last_digest_len x d : last_digest x = Some d → length d = 48%nat.
Proof.
  intros E. apply (inj Some) in E. rewrite <-E, length_take, length_app. unfold zeros.
  rewrite length_replicate. lia.
Qed.

Definition event (mr ty : Z) (d : Z) (data : bytes) : bytes :=
  header_as_bytes (mkEventHeader mr ty (replicate 48 d) (lenz data)) ++ data.

Definition log1 : bytes := Eval vm_compute in event 1 6 7 [1; 0; 0; 0] ++ event 3 6 9 [] ++ event 1 6 8 [5] ++ [0].
Definition log2 : bytes := Eval vm_compute in event 1 6 7 [] ++ event 1 6 8 [] ++ event 3 6 9 [4] ++ [0].
Definition empty_blob : bytes := Eval vm_compute in event 1 0x8000000a 7 [] ++ [0].
Definition events1 : list (CcEventHeader * bytes) := Eval vm_compute in events (length log1) log1.
Definition events2 : list (CcEventHeader * bytes) := Eval vm_compute in events (length log2) log2.
Definition report : list bytes := [replicate 48 8; zeros 48; replicate 48 9; zeros 48].

Lemma log1_events : read_events log1 = Some (0, events1).
Proof. vm_compute. reflexivity. Qed.

Lemma log2_events : read_events log2 = Some (0, events2).
Proof. vm_compute. reflexivity. Qed.

Lemma log1_verified : verify_event_log last_digest log1 report = Ok tt.
Proof. vm_compute. reflexivity. Qed.

Lemma log2_verified : verify_event_log last_digest log2 report = Ok tt.
Proof. vm_compute. reflexivity. Qed.

Lemma empty_blob_panics : parse_events empty_blob = Panic.
Proof. vm_compute. reflexivity. Qed.

(** The register is extended before the space is checked: an append to a full
    log fails and leaves the register ahead of the log. *)
Lemma append_full_log_extends :
  write_tagged_event_log last_digest log1 3 [9] TAGGED_EVENT_ID_POLICY [9] (mkMr [true] []) =
  (Err tt, mkMr [] [(2, zeros 48)]).
Proof. vm_compute. reflexivity. Qed.

Lemma event_log_verified_witness :
  Forall valid_index events1 ∧ extend_all last_digest (zeros 48) (digests_of 0 events1) = Some (replicate 48 8).
Proof.
  destruct (event_log_verified last_digest last_digest_len log1 report 0 events1 log1_events) as [_ [Hv _]].
  destruct (Hv log1_verified) as (Hi & _ & Hd). split; [exact Hi|]. apply Hd. reflexivity.
Defined.

Lemma event_log_binding_witness :
  digests_of 0 events1 = digests_of 0 events2 ∨ collision last_digest ∨ zero_preimage last_digest.
Proof.
  exact (event_log_binding last_digest last_digest_len log1 log2 0 0 events1 events2 report 0
           log1_events log2_events log1_verified log2_verified).
Defined.

End Sample.
