(* ===== verification/PolicyV2.v ===== *)
(** * PolicyV2: signed migration policies and their evaluation

    src/policy/src/lib.rs and src/policy/src/v2 (feature [policy_v2]).  A Rust
    [String] is a [string] of its UTF-8 bytes, so that the derived comparison is
    the comparison of bytes.  JSON (serde_json) and signatures are the classes
    [PolicyJson] and [PolicyCrypto]. *)
From Stdlib Require Import Ascii.
From stdpp Require Import base tactics numbers list list_numbers option strings.
From S2P Require Import Prelude EventLog.
Local Open Scope Z_scope.

Module PolicyError.
Inductive t :=
  | FailGetReport | InvalidParameter | InvalidPolicy | InvalidEventLog | InvalidTdReport
  | PlatformNotFound (s : string) | PlatformNotMatch (s s' : string)
  | UnqualifiedPlatformInfo | UnqualifiedQeInfo | UnqualifiedTdxModuleInfo | UnqualifiedMigTdInfo
  | Crypto | SignatureVerificationFailed | InvalidCollateral | InvalidOperation | InvalidReference
  | InvalidServtdIdentity | InvalidServtdTcbMapping | PolicyHashMismatch | InvalidQuote | SvnMismatch
  | TcbEvaluation | CrlEvaluation | HashCalculation | QuoteVerification | TdReportVerification
  | QuoteGeneration | GetTdxReport | PeerCertChainValidation.
End PolicyError.

Notation PResult := (outcome PolicyError.t).

(** ** Strings and numbers *)

Definition as_bytes (s : string) : bytes := (λ c, Z.of_N (Ascii.N_of_ascii c)) <$> String.list_ascii_of_string s.

Definition string_of_bytes (bs : bytes) : string :=
  String.string_of_list_ascii ((λ b, Ascii.ascii_of_N (Z.to_N b)) <$> bs).

Definition between (a b x : Z) : bool := (a <=? x) && (x <=? b).

Definition is_cont (x : Z) : bool := between 0x80 0xBF x.

(** The well-formed byte sequences of UTF-8. *)
Fixpoint utf8_valid (bs : bytes) : bool :=
  match bs with
  | [] => true
  | a :: r =>
      if a <? 0x80 then utf8_valid r
      else match r with
      | b :: r2 =>
          if between 0xC2 0xDF a then is_cont b && utf8_valid r2
          else match r2 with
          | c :: r3 =>
              if between 0xE0 0xEF a then
                (if a =? 0xE0 then between 0xA0 0xBF b else if a =? 0xED then between 0x80 0x9F b else is_cont b)
                && is_cont c && utf8_valid r3
              else match r3 with
              | d :: r4 =>
                  between 0xF0 0xF4 a
                  && (if a =? 0xF0 then between 0x90 0xBF b else if a =? 0xF4 then between 0x80 0x8F b else is_cont b)
                  && is_cont c && is_cont d && utf8_valid r4
              | [] => false
              end
          | [] => false
          end
      | [] => false
      end
  end.

(** [str::from_utf8] *)
Definition from_utf8 (bs : bytes) : option string := if utf8_valid bs then Some (string_of_bytes bs) else None.

(** [char::to_digit] for an ASCII character. *)
Definition to_digit (radix : Z) (c : Ascii.ascii) : option Z :=
  let n := Z.of_N (Ascii.N_of_ascii c) in
  let d := if between 48 57 n then n - 48
           else if between 97 122 n then n - 87
           else if between 65 90 n then n - 55 else radix in
  if d <? radix then Some d else None.

Fixpoint parse_digits (radix bound acc : Z) (s : string) : option Z :=
  match s with
  | EmptyString => Some acc
  | String.String c s' =>
      d ← to_digit radix c;
      let acc' := acc * radix + d in
      if acc' <? bound then parse_digits radix bound acc' s' else None
  end.

(** [from_str_radix] of an unsigned [w]-bit integer: a leading plus sign is
    accepted, an empty digit sequence is not. *)
Definition from_str_radix (w radix : Z) (s : string) : option Z :=
  let digits s := match s with EmptyString => None | _ => parse_digits radix (2 ^ w) 0 s end in
  match s with
  | String.String c s' => if bool_decide (c = "+"%char) then digits s' else digits s
  | EmptyString => None
  end.

Definition hex_digit (n : Z) : Ascii.ascii := Ascii.ascii_of_N (Z.to_N (if n <? 10 then 48 + n else 55 + n)).

(** [format!("{b:02X}")] of each byte. *)
Fixpoint bytes_to_hex_string (bs : bytes) : string :=
  match bs with
  | [] => EmptyString
  | b :: bs' => String.String (hex_digit (b / 16)) (String.String (hex_digit (b mod 16)) (bytes_to_hex_string bs'))
  end.

Definition is_ascii (s : string) : bool := forallb (λ b, b <? 128) (as_bytes s).

Fixpoint hex_loop (s : string) : PResult bytes :=
  match s with
  | String.String a (String.String b s') =>
      x ← or_err (from_str_radix 8 16 (String.String a (String.String b EmptyString))) PolicyError.InvalidParameter;
      l ← hex_loop s';
      Ok (x :: l)
  | _ => Ok []
  end.

Definition hex_string_to_bytes (hex : string) : PResult bytes :=
  if bool_decide (hex = EmptyString) || negb (Nat.even (String.length hex)) || negb (is_ascii hex)
  then Err PolicyError.InvalidParameter
  else hex_loop hex.

(** [to_ascii_uppercase] *)
Definition upper (c : Ascii.ascii) : Ascii.ascii :=
  let n := Ascii.N_of_ascii c in
  if (97 <=? n)%N && (n <=? 122)%N then Ascii.ascii_of_N (n - 32) else c.

Fixpoint to_ascii_uppercase (s : string) : string :=
  match s with EmptyString => EmptyString | String.String c s' => String.String (upper c) (to_ascii_uppercase s') end.

(** [s.split("..")], with the part before the next separator in [cur]. *)
Fixpoint split_dots (cur s : string) : list string :=
  match s with
  | EmptyString => [cur]
  | String.String c s' =>
      match s' with
      | String.String d s'' =>
          if bool_decide (c = "."%char ∧ d = "."%char) then cur :: split_dots EmptyString s''
          else split_dots (cur +:+ String.String c EmptyString) s'
      | EmptyString => split_dots (cur +:+ String.String c EmptyString) s'
      end
  end.

(** ** TCB statuses, compared by rank *)

Module TcbStatus.
Inductive t :=
  | UpToDate | SWHardeningNeeded | ConfigurationNeeded | ConfigurationAndSWHardeningNeeded
  | OutOfDate | OutOfDateConfigurationNeeded | Revoked.

Definition as_str (s : t) : string :=
  match s with
  | UpToDate => "UpToDate"
  | SWHardeningNeeded => "SWHardeningNeeded"
  | ConfigurationNeeded => "ConfigurationNeeded"
  | ConfigurationAndSWHardeningNeeded => "ConfigurationAndSWHardeningNeeded"
  | OutOfDate => "OutOfDate"
  | OutOfDateConfigurationNeeded => "OutOfDateConfigurationNeeded"
  | Revoked => "Revoked"
  end.

Definition rank (s : t) : Z :=
  match s with
  | UpToDate | SWHardeningNeeded | OutOfDate => 2
  | ConfigurationNeeded | ConfigurationAndSWHardeningNeeded | OutOfDateConfigurationNeeded => 1
  | Revoked => 0
  end.

Definition try_from (v : string) : PResult t :=
  if bool_decide (v = "UpToDate") then Ok UpToDate
  else if bool_decide (v = "SWHardeningNeeded") then Ok SWHardeningNeeded
  else if bool_decide (v = "ConfigurationNeeded") then Ok ConfigurationNeeded
  else if bool_decide (v = "ConfigurationAndSWHardeningNeeded") then Ok ConfigurationAndSWHardeningNeeded
  else if bool_decide (v = "OutOfDate") then Ok OutOfDate
  else if bool_decide (v = "OutOfDateConfigurationNeeded") then Ok OutOfDateConfigurationNeeded
  else if bool_decide (v = "Revoked") then Ok Revoked
  else Err PolicyError.InvalidParameter.

(** [PartialEq] and [PartialOrd] *)
Definition eq (a b : t) : bool := rank a =? rank b.
Definition ge (a b : t) : bool := rank b <=? rank a.

Definition contains (l : list t) (v : t) : bool := existsb (λ x, eq x v) l.
End TcbStatus.

Module ServtdTcbStatus.
Inductive t := UpToDate | OutOfDate | Revoked.

Definition as_str (s : t) : string :=
  match s with UpToDate => "UpToDate" | OutOfDate => "OutOfDate" | Revoked => "Revoked" end.

Definition rank (s : t) : Z := match s with UpToDate | OutOfDate => 2 | Revoked => 0 end.

Definition try_from (v : string) : PResult t :=
  if bool_decide (v = "UpToDate") then Ok UpToDate
  else if bool_decide (v = "OutOfDate") then Ok OutOfDate
  else if bool_decide (v = "Revoked") then Ok Revoked
  else Err PolicyError.InvalidParameter.

Definition eq (a b : t) : bool := rank a =? rank b.

Definition contains (l : list t) (v : t) : bool := existsb (λ x, eq x v) l.
End ServtdTcbStatus.

(** [.and_then(|s| s.try_into().ok())] *)
Definition ok {A} (r : PResult A) : option A := match r with Ok a => Some a | _ => None end.

(** ** Properties *)

Module Reference.
Inductive t := Integer (n : Z) | String (s : string) | IntegerList (l : list Z) | StringList (l : list string).
End Reference.

Record PolicyProperty := mkProperty { operation : string; reference : Reference.t }.

(** A reference to the evaluating side itself. *)
Definition is_relative (s : string) : bool := bool_decide (s = "self") || bool_decide (s = "init").

Definition is_in_range (value : Z) (range : string) : PResult bool :=
  match split_dots EmptyString range with
  | [a; b] =>
      start ← or_err (from_str_radix 32 10 a) PolicyError.InvalidReference;
      end_ ← or_err (from_str_radix 32 10 b) PolicyError.InvalidReference;
      Ok ((start <=? value) && (value <=? end_))
  | _ => Err PolicyError.InvalidOperation
  end.

Definition compare_integer (op : string) (value r : Z) : PResult bool :=
  if bool_decide (op = "equal") then Ok (value =? r)
  else if bool_decide (op = "greater-or-equal") then Ok (r <=? value)
  else Err PolicyError.InvalidOperation.

Definition evaluate_integer (p : PolicyProperty) (value : Z) (relative_reference : option Z) : PResult bool :=
  match reference p with
  | Reference.Integer r => compare_integer (operation p) value r
  | Reference.String r =>
      if is_relative r then
        rel ← or_err relative_reference PolicyError.InvalidReference;
        compare_integer (operation p) value rel
      else if bool_decide (operation p = "in-range") || bool_decide (operation p = "in-time-range")
      then is_in_range value r
      else Err PolicyError.InvalidOperation
  | Reference.IntegerList items =>
      if bool_decide (operation p = "subset") then Ok (existsb (Z.eqb value) items)
      else Err PolicyError.InvalidOperation
  | Reference.StringList _ => Err PolicyError.InvalidReference
  end.

(** Every value against the one at its position; the lengths are equal. *)
Fixpoint all_at (f : Z → Z → bool) (values reference : list Z) : PResult bool :=
  match values, reference with
  | [], _ => Ok true
  | v :: vs, r :: rs => if f v r then all_at f vs rs else Ok false
  | _ :: _, [] => Panic
  end.

Definition integer_list_op (op : string) (values reference : list Z) : PResult bool :=
  if negb (lenz values =? lenz reference) then Ok false
  else if bool_decide (op = "array-equal") then all_at Z.eqb values reference
  else if bool_decide (op = "array-greater-or-equal") then all_at (λ v r, r <=? v) values reference
  else Err PolicyError.InvalidOperation.

Definition evaluate_integer_list (p : PolicyProperty) (values : list Z) (relative_reference : option (list Z)) : PResult bool :=
  match reference p with
  | Reference.IntegerList r => integer_list_op (operation p) values r
  | Reference.String r =>
      if negb (is_relative r) then Err PolicyError.InvalidReference
      else rel ← or_err relative_reference PolicyError.InvalidReference; integer_list_op (operation p) values rel
  | _ => Err PolicyError.InvalidReference
  end.

Definition evaluate_string (p : PolicyProperty) (value : string) (relative_reference : option string) : PResult bool :=
  match reference p with
  | Reference.String r =>
      reference_value ← (if is_relative r then or_err relative_reference PolicyError.InvalidReference else Ok r);
      if bool_decide (operation p = "equal") then Ok (bool_decide (value = reference_value))
      else if bool_decide (operation p = "greater-or-equal") then Ok (String.leb reference_value value)
      else Err PolicyError.InvalidOperation
  | Reference.StringList l =>
      if bool_decide (operation p = "allow-list") then Ok (bool_decide (value ∈ l))
      else if bool_decide (operation p = "deny-list") then Ok (negb (bool_decide (value ∈ l)))
      else Err PolicyError.InvalidOperation
  | _ => Err PolicyError.InvalidReference
  end.

Definition ALWAYS_ALLOW : list TcbStatus.t := [TcbStatus.UpToDate; TcbStatus.OutOfDate; TcbStatus.SWHardeningNeeded].
Definition ALWAYS_DENY : list TcbStatus.t := [TcbStatus.Revoked].

(** The statuses an allow list adds. *)
Fixpoint allow_loop (items : list string) (policy_allow : list TcbStatus.t) : PResult (list TcbStatus.t) :=
  match items with
  | [] => Ok policy_allow
  | item :: items' =>
      _ ← TcbStatus.try_from item;
      allow_loop items'
        (if bool_decide (item = TcbStatus.as_str TcbStatus.ConfigurationNeeded)
         then policy_allow ++ [TcbStatus.ConfigurationNeeded; TcbStatus.ConfigurationAndSWHardeningNeeded; TcbStatus.OutOfDateConfigurationNeeded]
         else policy_allow)
  end.


Definition evaluate_tcb_status (p : PolicyProperty) (value : TcbStatus.t) (relative_reference : option TcbStatus.t) : PResult bool :=
  if TcbStatus.contains ALWAYS_DENY value then Ok false
  else if TcbStatus.contains ALWAYS_ALLOW value then Ok true
  else
    match reference p with
    | Reference.String r =>
        reference_value ← (if is_relative r then or_err relative_reference PolicyError.InvalidReference else TcbStatus.try_from r);
        if bool_decide (operation p = "equal") then Ok (TcbStatus.eq value reference_value)
        else if bool_decide (operation p = "greater-or-equal") then Ok (TcbStatus.ge value reference_value)
        else Err PolicyError.InvalidOperation
    | Reference.StringList l =>
        policy_allow ←
          (if bool_decide (operation p = "allow-list") then allow_loop l []
           else if bool_decide (operation p = "deny-list") then _ ← collect TcbStatus.try_from l; Ok []
           else Err PolicyError.InvalidOperation);
        Ok (TcbStatus.contains policy_allow value)
    | _ => Err PolicyError.InvalidReference
    end.

Definition evaluate_servtd_tcb_status (p : PolicyProperty) (value : ServtdTcbStatus.t)
    (relative_reference : option ServtdTcbStatus.t) : PResult bool :=
  if ServtdTcbStatus.contains [ServtdTcbStatus.Revoked] value then Ok false
  else if ServtdTcbStatus.contains [ServtdTcbStatus.UpToDate; ServtdTcbStatus.OutOfDate] value then Ok true
  else Ok false.

(** ** Policies *)

(** Everything a policy is evaluated on. *)
Record PolicyEvaluationInfo := mkInfo {
  tee_tcb_svn : option bytes; tcb_date : option string; tcb_status : option string;
  tcb_evaluation_number : option Z; fmspc : option bytes; migtd_isvsvn : option Z;
  migtd_tcb_status : option string; migtd_tcb_date : option string;
  pck_crl_num : option Z; root_ca_crl_num : option Z }.

Record TcbPolicy := mkTcbPolicy {
  tp_tcb_date : option PolicyProperty; tp_tcb_status_accepted : option PolicyProperty;
  tp_tcb_evaluation_data_number : option PolicyProperty }.

Record CrlPolicy := mkCrlPolicy { cp_pck_crl_num : option PolicyProperty; cp_root_ca_crl_num : option PolicyProperty }.

Record PlatformPolicy := mkPlatformPolicy { pp_fmspc : option PolicyProperty }.

Record GlobalPolicy := mkGlobal { gp_tcb : option TcbPolicy; gp_platform : option PlatformPolicy; gp_crl : option CrlPolicy }.

Record MigTdIdentityPolicy := mkIdentityPolicy {
  ip_isvsvn : option PolicyProperty; ip_tcb_date : option PolicyProperty; ip_tcb_status_accepted : option PolicyProperty }.

Inductive PolicyTypes := Global (g : GlobalPolicy) | Servtd (migtd_identity : MigTdIdentityPolicy).

(** [if let Some(property) = p { if !eval(property)? { return Err(e) } }] *)
Definition check_property (p : option PolicyProperty) (eval : PolicyProperty → PResult bool) (e : PolicyError.t) : PResult unit :=
  match p with
  | None => Ok tt
  | Some p => b ← eval p; require b e
  end.

Section evaluate.
Context (value relative_reference : PolicyEvaluationInfo).

Definition TcbPolicy_evaluate (t : TcbPolicy) : PResult unit :=
  _ ← check_property (tp_tcb_evaluation_data_number t) (λ p,
        n ← or_err (tcb_evaluation_number value) PolicyError.TcbEvaluation;
        evaluate_integer p n (tcb_evaluation_number relative_reference)) PolicyError.TcbEvaluation;
  _ ← check_property (tp_tcb_status_accepted t) (λ p,
        s ← or_err (s ← tcb_status value; ok (TcbStatus.try_from s)) PolicyError.TcbEvaluation;
        evaluate_tcb_status p s (s ← tcb_status relative_reference; ok (TcbStatus.try_from s))) PolicyError.TcbEvaluation;
  check_property (tp_tcb_date t) (λ p,
        d ← or_err (tcb_date value) PolicyError.TcbEvaluation;
        evaluate_string p d (tcb_date relative_reference)) PolicyError.TcbEvaluation.

Definition PlatformPolicy_evaluate (c : PlatformPolicy) : PResult unit :=
  check_property (pp_fmspc c) (λ p,
        f ← or_err (fmspc value) PolicyError.TcbEvaluation;
        evaluate_string p (bytes_to_hex_string f) (bytes_to_hex_string <$> fmspc relative_reference)) PolicyError.TcbEvaluation.

Definition CrlPolicy_evaluate (c : CrlPolicy) : PResult unit :=
  _ ← check_property (cp_pck_crl_num c) (λ p,
        n ← or_err (pck_crl_num value) PolicyError.CrlEvaluation;
        evaluate_integer p n (pck_crl_num relative_reference)) PolicyError.CrlEvaluation;
  check_property (cp_root_ca_crl_num c) (λ p,
        n ← or_err (root_ca_crl_num value) PolicyError.CrlEvaluation;
        evaluate_integer p n (root_ca_crl_num relative_reference)) PolicyError.CrlEvaluation.

(** [if let Some(x) = o { x.evaluate(..)? }] *)
Definition when_some {A} (o : option A) (f : A → PResult unit) : PResult unit :=
  match o with Some a => f a | None => Ok tt end.

Definition GlobalPolicy_evaluate (g : GlobalPolicy) : PResult unit :=
  _ ← when_some (gp_tcb g) TcbPolicy_evaluate;
  _ ← when_some (gp_platform g) PlatformPolicy_evaluate;
  when_some (gp_crl g) CrlPolicy_evaluate.

Definition ServtdPolicy_evaluate (i : MigTdIdentityPolicy) : PResult unit :=
  _ ← check_property (ip_isvsvn i) (λ p,
        n ← or_err (migtd_isvsvn value) PolicyError.UnqualifiedMigTdInfo;
        evaluate_integer p n (migtd_isvsvn relative_reference)) PolicyError.SvnMismatch;
  _ ← check_property (ip_tcb_date i) (λ p,
        d ← or_err (migtd_tcb_date value) PolicyError.UnqualifiedMigTdInfo;
        evaluate_string p d (migtd_tcb_date relative_reference)) PolicyError.SvnMismatch;
  check_property (ip_tcb_status_accepted i) (λ p,
        s ← or_err (s ← migtd_tcb_status value; ok (ServtdTcbStatus.try_from s)) PolicyError.UnqualifiedMigTdInfo;
        evaluate_servtd_tcb_status p s (s ← migtd_tcb_status relative_reference; ok (ServtdTcbStatus.try_from s)))
        PolicyError.SvnMismatch.

Fixpoint evaluate_policy_block (block : list PolicyTypes) (skip_global : bool) : PResult unit :=
  match block with
  | [] => Ok tt
  | t :: block' =>
      _ ← match t with
          | Global g => if skip_global then Ok tt else GlobalPolicy_evaluate g
          | Servtd m => ServtdPolicy_evaluate m
          end;
      evaluate_policy_block block' skip_global
  end.

End evaluate.

(** ** Collateral of the platform and of the service TD *)

Record Platform := mkPlatform { pl_fmspc : string; pl_tcb_info_issuer_chain : string; pl_tcb_info : string }.

Record Collaterals := mkCollaterals {
  cs_major_version : Z; cs_minor_version : Z; cs_tee_type : Z; cs_root_ca : string; cs_pck_crl_issuer_chain : string;
  cs_root_ca_crl : string; cs_pck_crl : string; cs_platforms : list Platform;
  cs_qe_identity_issuer_chain : string; cs_qe_identity : string }.

Record Collateral := mkCollateral {
  co_major_version : Z; co_minor_version : Z; co_tee_type : Z; co_root_ca : string; co_pck_crl_issuer_chain : string;
  co_root_ca_crl : string; co_pck_crl : string; co_tcb_info_issuer_chain : string; co_tcb_info : string;
  co_qe_identity_issuer_chain : string; co_qe_identity : string }.

Definition get_tcb_with_fmspc (c : Collaterals) (f : string) : option Platform :=
  head (filter (λ p, pl_fmspc p = f) (cs_platforms c)).

Definition get_collateral_with_fmspc (f : bytes) (c : Collaterals) : PResult Collateral :=
  if negb (lenz f =? 6) then Err PolicyError.InvalidParameter
  else
    platform_tcb ← or_err (get_tcb_with_fmspc c (bytes_to_hex_string f)) PolicyError.InvalidCollateral;
    Ok (mkCollateral (cs_major_version c) (cs_minor_version c) (cs_tee_type c) (cs_root_ca c)
          (cs_pck_crl_issuer_chain c) (cs_root_ca_crl c) (cs_pck_crl c)
          (pl_tcb_info_issuer_chain platform_tcb) (pl_tcb_info platform_tcb)
          (cs_qe_identity_issuer_chain c) (cs_qe_identity c)).

Record TcbLevel := mkTcbLevel { tl_isvsvn : Z; tl_tcb_date : string; tl_tcb_status : string }.

Record TdIdentity := mkTdIdentity {
  ti_id : string; ti_version : Z; ti_issue_date : string; ti_next_update : string; ti_tcb_evaluation_number : Z;
  ti_xfam : string; ti_attributes : string; ti_mr_config_id : string; ti_mr_owner : string; ti_mr_owner_config : string;
  ti_mrsigner : string; ti_isv_prod_id : Z; ti_tcb_levels : list TcbLevel }.

Definition get_tcb_level_by_svn (i : TdIdentity) (svn : Z) : option TcbLevel :=
  head (filter (λ l, tl_isvsvn l = svn) (ti_tcb_levels i)).

Record Measurements := mkMeasurements {
  ms_mrtd : string; ms_rtmr0 : string; ms_rtmr1 : string; ms_rtmr2 : option string; ms_rtmr3 : option string }.

Definition new_from_bytes (mrtd rtmr0 rtmr1 : bytes) (rtmr2 rtmr3 : option bytes) : Measurements :=
  mkMeasurements (bytes_to_hex_string mrtd) (bytes_to_hex_string rtmr0) (bytes_to_hex_string rtmr1)
    (bytes_to_hex_string <$> rtmr2) (bytes_to_hex_string <$> rtmr3).

Definition measurements_uppercase (m : Measurements) : Measurements :=
  mkMeasurements (to_ascii_uppercase (ms_mrtd m)) (to_ascii_uppercase (ms_rtmr0 m)) (to_ascii_uppercase (ms_rtmr1 m))
    (to_ascii_uppercase <$> ms_rtmr2 m) (to_ascii_uppercase <$> ms_rtmr3 m).

(** The optional registers: a pattern without a value matches anything. *)
Definition optional_matches (pattern target : option string) : bool :=
  match pattern, target with
  | Some p, Some t => bool_decide (p = t)
  | Some _, None => false
  | None, _ => true
  end.

Definition compare_measurements (pattern target : Measurements) : bool :=
  let pattern := measurements_uppercase pattern in
  let target := measurements_uppercase target in
  if negb (bool_decide (ms_mrtd pattern = ms_mrtd target)) || negb (bool_decide (ms_rtmr0 pattern = ms_rtmr0 target))
     || negb (bool_decide (ms_rtmr1 pattern = ms_rtmr1 target)) then false
  else optional_matches (ms_rtmr2 pattern) (ms_rtmr2 target) && optional_matches (ms_rtmr3 pattern) (ms_rtmr3 target).

Record SvnMapping := mkSvnMapping { sm_td_measurements : Measurements; sm_isvsvn : Z }.

Record TdTcbMapping := mkTdTcbMapping {
  tm_id : string; tm_version : Z; tm_issue_date : string; tm_next_update : string; tm_mr_signer : string;
  tm_isv_prod_id : Z; tm_svn_mappings : list SvnMapping }.

Fixpoint find_svn (l : list SvnMapping) (m : Measurements) : option Z :=
  match l with
  | [] => None
  | x :: l' => if compare_measurements (sm_td_measurements x) m then Some (sm_isvsvn x) else find_svn l' m
  end.

Definition get_engine_svn_by_measurements (t : TdTcbMapping) (m : Measurements) : option Z := find_svn (tm_svn_mappings t) m.

(** ** The verified report of a quote *)

Definition REPORT_DATA_SIZE : Z := 822.

Module MigTdInfoProperty.
Inductive t := Attributes | Xfam | MrTd | MrConfigId | MrOwner | MrOwnerConfig | Rtmr0 | Rtmr1 | Rtmr2 | Rtmr3 | Unknown.
#[global] Instance t_eq_dec : EqDecision t.
Proof. solve_decision. Defined.
End MigTdInfoProperty.

Definition R_MIGTD_ATTR_TD : Z * Z := (120, 128).
Definition R_MIGTD_XFAM : Z * Z := (128, 136).
Definition R_MIGTD_MRTD : Z * Z := (136, 184).
Definition R_MIGTD_MRCONFIGID : Z * Z := (184, 232).
Definition R_MIGTD_MROWNER : Z * Z := (232, 280).
Definition R_MIGTD_MROWNERCONFIG : Z * Z := (280, 328).
Definition R_MIGTD_RTMR0 : Z * Z := (328, 376).
Definition R_MIGTD_RTMR1 : Z * Z := (376, 424).
Definition R_MIGTD_RTMR2 : Z * Z := (424, 472).
Definition R_MIGTD_RTMR3 : Z * Z := (472, 520).
Definition R_TCB_DATE : Z * Z := (734, 742).
Definition R_TCB_STATUS : Z * Z := (742, 774).

(** [&report[r]], which aborts when the range is outside. *)
Definition range_of (report : bytes) (r : Z * Z) : PResult bytes :=
  match slice report r.1 r.2 with Some b => Ok b | None => Panic end.

(** The map of properties, as the list of its bindings. *)
Notation Report := (list (MigTdInfoProperty.t * bytes)).

Definition property_ranges : list (MigTdInfoProperty.t * (Z * Z)) :=
  [(MigTdInfoProperty.Attributes, R_MIGTD_ATTR_TD); (MigTdInfoProperty.Xfam, R_MIGTD_XFAM);
   (MigTdInfoProperty.MrTd, R_MIGTD_MRTD); (MigTdInfoProperty.MrConfigId, R_MIGTD_MRCONFIGID);
   (MigTdInfoProperty.MrOwner, R_MIGTD_MROWNER); (MigTdInfoProperty.MrOwnerConfig, R_MIGTD_MROWNERCONFIG);
   (MigTdInfoProperty.Rtmr0, R_MIGTD_RTMR0); (MigTdInfoProperty.Rtmr1, R_MIGTD_RTMR1);
   (MigTdInfoProperty.Rtmr2, R_MIGTD_RTMR2); (MigTdInfoProperty.Rtmr3, R_MIGTD_RTMR3)].

Definition setup_migtd_info (report : bytes) : PResult Report :=
  collect (λ e : MigTdInfoProperty.t * (Z * Z), b ← range_of report e.2; Ok (e.1, b)) property_ranges.

Definition Report_new (report : bytes) : PResult Report :=
  if negb (lenz report =? REPORT_DATA_SIZE) then Err PolicyError.InvalidParameter else setup_migtd_info report.

Definition get_migtd_info_property (r : Report) (name : MigTdInfoProperty.t) : PResult bytes :=
  or_err (snd <$> head (filter (λ e, e.1 = name) r)) PolicyError.InvalidParameter.

Definition get_engine_svn_by_report (t : TdTcbMapping) (r : Report) : option Z :=
  let hex p := bytes_to_hex_string <$> ok (get_migtd_info_property r p) in
  mrtd ← hex MigTdInfoProperty.MrTd;
  rtmr0 ← hex MigTdInfoProperty.Rtmr0;
  rtmr1 ← hex MigTdInfoProperty.Rtmr1;
  rtmr2 ← hex MigTdInfoProperty.Rtmr2;
  rtmr3 ← hex MigTdInfoProperty.Rtmr3;
  get_engine_svn_by_measurements t (mkMeasurements mrtd rtmr0 rtmr1 (Some rtmr2) (Some rtmr3)).

(** ** Signed data *)

(** A JSON text kept as it was read, and the signature over it in hex. *)
Record RawSigned := mkRaw { raw_data : string; signature : string }.

Record ServtdCollateral := mkServtdCollateral {
  sc_major_version : Z; sc_minor_version : Z;
  servtd_identity_issuer_chain : string; sc_servtd_identity : RawSigned;
  servtd_tcb_mapping_issuer_chain : string; sc_servtd_tcb_mapping : RawSigned }.

Record PolicyData := mkPolicyData {
  pd_id : string; pd_version : string; policy_svn : Z;
  pd_policy : option (list PolicyTypes); forward_policy : option (list PolicyTypes);
  backward_policy : option (list PolicyTypes);
  pd_collaterals : Collaterals; servtd_collateral : ServtdCollateral }.

Definition validate (d : PolicyData) : bool :=
  negb (bool_decide (pd_id d = EmptyString)) && bool_decide (pd_version d = "2.0").

Definition evaluate_policy_common (d : PolicyData) (value relative_reference : PolicyEvaluationInfo) (skip_global : bool) : PResult unit :=
  when_some (pd_policy d) (λ b, evaluate_policy_block value relative_reference b skip_global).

Definition evaluate_policy_forward (d : PolicyData) (value relative_reference : PolicyEvaluationInfo) (skip_global : bool) : PResult unit :=
  when_some (forward_policy d) (λ b, evaluate_policy_block value relative_reference b skip_global).

Definition evaluate_policy_backward (d : PolicyData) (value relative_reference : PolicyEvaluationInfo) (skip_global : bool) : PResult unit :=
  when_some (backward_policy d) (λ b, evaluate_policy_block value relative_reference b skip_global).

Definition evaluate_against_policy (d other_policy : PolicyData) : PResult unit :=
  require (negb (policy_svn d <? policy_svn other_policy)) PolicyError.SvnMismatch.

Record VerifiedPolicy := mkVerified {
  policy_data : PolicyData;
  servtd_identity : TdIdentity; vp_servtd_identity_issuer_chain : string;
  servtd_tcb_mapping : TdTcbMapping; vp_servtd_tcb_mapping_issuer_chain : string;
  policy_issuer_chain : string }.

Definition get_collaterals (v : VerifiedPolicy) : Collaterals := pd_collaterals (policy_data v).

(** The readers serde derives. *)
Class PolicyJson := {
  json_raw_policy : bytes → option RawSigned;
  json_policy_data : string → option PolicyData;
  json_td_identity : string → option TdIdentity;
  json_td_tcb_mapping : string → option TdTcbMapping;
  json_tcb_evaluation_data_number : string → option Z }.

(** Signatures and certificate chains: [verify_cert_chain_and_signature chain data
    signature] and [validate_peer_cert_chain local peer]. *)
Class PolicyCrypto := {
  verify_cert_chain_and_signature : bytes → bytes → bytes → bool;
  validate_peer_cert_chain : bytes → bytes → bool }.

Section verify.
Context `{PolicyJson} `{PolicyCrypto} (digest_sha384 : bytes → option bytes).

(** Decode the signature, check it over the raw text, then read the text. *)
Definition verify_signed {A} (from_str : string → option A) (invalid : PolicyError.t) (r : RawSigned) (issuer_chain : bytes) : PResult A :=
  sig ← hex_string_to_bytes (signature r);
  _ ← require (verify_cert_chain_and_signature issuer_chain (as_bytes (raw_data r)) sig) PolicyError.SignatureVerificationFailed;
  or_err (from_str (raw_data r)) invalid.

Definition verify_policy_data_signature := verify_signed json_policy_data PolicyError.InvalidPolicy.
Definition servtd_identity_verify_signature := verify_signed json_td_identity PolicyError.InvalidServtdIdentity.
Definition servtd_tcb_mapping_verify_signature := verify_signed json_td_tcb_mapping PolicyError.InvalidServtdTcbMapping.

Definition deserialize_from_json (slice : bytes) : PResult RawSigned := or_err (json_raw_policy slice) PolicyError.InvalidPolicy.

Definition verify (r : RawSigned) (issuer_chain : bytes) : PResult VerifiedPolicy :=
  policy_issuer_chain ← or_err (from_utf8 issuer_chain) PolicyError.InvalidPolicy;
  policy_data ← verify_policy_data_signature r issuer_chain;
  let c := servtd_collateral policy_data in
  servtd_identity ← servtd_identity_verify_signature (sc_servtd_identity c) (as_bytes (servtd_identity_issuer_chain c));
  servtd_tcb_mapping ← servtd_tcb_mapping_verify_signature (sc_servtd_tcb_mapping c) (as_bytes (servtd_tcb_mapping_issuer_chain c));
  if negb (validate policy_data) then Err PolicyError.InvalidParameter
  else Ok (mkVerified policy_data servtd_identity (servtd_identity_issuer_chain c)
             servtd_tcb_mapping (servtd_tcb_mapping_issuer_chain c) policy_issuer_chain).

Definition get_tcb_evaluation_number_from_collateral (c : Collateral) : PResult Z :=
  or_err (json_tcb_evaluation_data_number (co_tcb_info c)) PolicyError.InvalidCollateral.

(** A [CcEventHeader] holds one digest. *)
Definition verify_event_hash (events : EventMap) (event_name : EventName.t) (data_to_hash : bytes) : PResult bool :=
  match event_get events event_name with
  | None => Ok false
  | Some event =>
      expected_hash ← or_err (digest_sha384 data_to_hash) PolicyError.HashCalculation;
      Ok (bool_decide (expected_hash = digest (ce_header event)))
  end.

Definition check_policy_integrity (policy : bytes) (events : EventMap) : PResult unit :=
  b ← verify_event_hash events EventName.MigTdPolicy policy;
  require b PolicyError.PolicyHashMismatch.

End verify.
