(* ===== verification/PolicyV2Spec.v ===== *)
(** * PolicyV2Spec: what a policy accepts

    The language of policies as relations, one rule per kind of property, and
    the theorem that evaluation accepts exactly what the relations accept;
    upgrades stay accepted; hexadecimal text and measurements (PolicyV2). *)
From Stdlib Require Import Ascii.
From stdpp Require Import base tactics numbers list list_numbers option strings.
From S2P Require Import Prelude EventLog PolicyV2.
Local Open Scope Z_scope.

(** ** Outcomes *)

#[export] Hint Resolve bind_no_panic or_err_no_panic require_no_panic : policy.

(** ** Text and bytes *)

Lemma as_bytes_string bs : bytes_ok bs → as_bytes (string_of_bytes bs) = bs.
Proof.
  intros Hb. unfold as_bytes, string_of_bytes. rewrite String.list_ascii_of_string_of_list_ascii.
  induction Hb as [|x l Hx _ IH]; cbn; [done|]. f_equal; [|done]. unfold in_u in Hx.
  rewrite Ascii.N_ascii_embedding; [|apply N2Z.inj_lt]; rewrite Z2N.id; lia.
Qed.

Lemma string_as_bytes s : string_of_bytes (as_bytes s) = s.
Proof.
  unfold string_of_bytes, as_bytes. rewrite <-list_fmap_compose. rewrite (list_fmap_ext _ id).
  - by rewrite list_fmap_id, String.string_of_list_ascii_of_string.
  - intros i c _. cbn. by rewrite N2Z.id, Ascii.ascii_N_embedding.
Qed.

Lemma as_bytes_ok s : bytes_ok (as_bytes s).
Proof.
  unfold as_bytes, bytes_ok. apply Forall_fmap, Forall_true. intros c. cbn. unfold in_u. pose proof (Ascii.N_ascii_bounded c). lia.
Qed.

(** ** Splitting a range *)

Fixpoint no_dot (s : string) : Prop :=
  match s with EmptyString => True | String.String c s' => c ≠ "."%char ∧ no_dot s' end.

Lemma append_assoc (a b c : string) : (a +:+ b) +:+ c = a +:+ (b +:+ c).
Proof. induction a as [|x a IH]; [done|]. change (String.String x ((a +:+ b) +:+ c) = String.String x (a +:+ (b +:+ c))). by rewrite IH. Qed.

Lemma append_nil_r (a : string) : a +:+ EmptyString = a.
Proof. induction a as [|x a IH]; [done|]. change (String.String x (a +:+ EmptyString) = String.String x a). by rewrite IH. Qed.

Lemma append_cons x (a b : string) : String.String x a +:+ b = String.String x (a +:+ b).
Proof. done. Qed.

Lemma split_dots_cons cur c s : split_dots cur (String.String c s) =
  match s with
  | String.String d s'' =>
      if bool_decide (c = "."%char ∧ d = "."%char) then cur :: split_dots EmptyString s''
      else split_dots (cur +:+ String.String c EmptyString) s
  | EmptyString => split_dots (cur +:+ String.String c EmptyString) s
  end.
Proof. done. Qed.

(** The parts joined by the separator are the text. *)
Fixpoint join (l : list string) : string :=
  match l with
  | [] => EmptyString
  | [a] => a
  | a :: l' => a +:+ ".." +:+ join l'
  end.

Lemma split_dots_join : ∀ n s cur, (String.length s <= n)%nat → join (split_dots cur s) = cur +:+ s ∧ split_dots cur s ≠ [].
Proof.
  induction n as [|n IH]; intros s cur Hn.
  { destruct s; [|cbn in Hn; lia]. cbn. by rewrite append_nil_r. }
  destruct s as [|c s]; [cbn; by rewrite append_nil_r|]. rewrite split_dots_cons. cbn in Hn.
  assert (join (split_dots (cur +:+ String.String c EmptyString) s) = cur +:+ String.String c s ∧
          split_dots (cur +:+ String.String c EmptyString) s ≠ []) as Hstep.
  { destruct (IH s (cur +:+ String.String c EmptyString)) as [-> ?]; [lia|]. by rewrite append_assoc. }
  destruct s as [|d s]; [done|]. case_bool_decide as Hcd; [|done]. destruct Hcd as [-> ->].
  destruct (IH s EmptyString) as [Hj Hne]; [cbn in Hn; lia|]. split; [|done].
  destruct (split_dots EmptyString s) as [|x l]; [done|]. change (join (cur :: x :: l)) with (cur +:+ ".." +:+ join (x :: l)).
  by rewrite Hj.
Qed.

Lemma split_dots_no_dot s cur : no_dot s → split_dots cur s = [cur +:+ s].
Proof.
  revert cur. induction s as [|c s IH]; intros cur; [cbn; by rewrite append_nil_r|]. intros [Hc Hs].
  rewrite split_dots_cons. assert (split_dots (cur +:+ String.String c EmptyString) s = [cur +:+ String.String c s]) as Hstep.
  { rewrite IH by done. by rewrite append_assoc. }
  destruct s; [done|]. by rewrite bool_decide_false by (by intros [? _]).
Qed.

Lemma split_dots_range a b cur : no_dot a → no_dot b → split_dots cur (a +:+ ".." +:+ b) = [cur +:+ a; b].
Proof.
  revert cur. induction a as [|c a IH]; intros cur.
  { intros _ Hb. change (split_dots cur (String.String "." (String.String "." b)) = [cur +:+ EmptyString; b]).
    rewrite split_dots_cons, bool_decide_true by done. by rewrite split_dots_no_dot, append_nil_r. }
  intros [Hc Ha] Hb. rewrite append_cons, split_dots_cons.
  assert (split_dots (cur +:+ String.String c EmptyString) (a +:+ ".." +:+ b) = [cur +:+ String.String c a; b]) as Hstep.
  { rewrite IH by done. by rewrite append_assoc. }
  destruct (a +:+ ".." +:+ b); [done|]. by rewrite bool_decide_false by (by intros [? _]).
Qed.

Lemma parse_digits_no_dot bound acc s n : parse_digits 10 bound acc s = Some n → no_dot s.
Proof.
  revert acc. induction s as [|c s IH]; intros acc; [done|]. cbn [parse_digits no_dot]. intros E.
  apply bind_Some in E as (d & Hd & E). destruct (_ <? bound); [|done]. split; [|by eapply IH].
  intros ->. by vm_compute in Hd.
Qed.

Lemma decimal_no_dot s n : from_str_radix 32 10 s = Some n → no_dot s.
Proof.
  unfold from_str_radix. destruct s as [|c s]; [done|]. case_bool_decide as Hc.
  - intros E. split; [subst c; done|]. destruct s; [done|]. by eapply parse_digits_no_dot.
  - apply parse_digits_no_dot.
Qed.

(** ** The language of properties *)

Definition relative (s : string) : Prop := s = "self" ∨ s = "init".

Inductive compares : string → Z → Z → Prop :=
  | compares_equal v : compares "equal" v v
  | compares_ge v r : r <= v → compares "greater-or-equal" v r.

Inductive accepts_integer (v : Z) (rel : option Z) : PolicyProperty → Prop :=
  | ai_integer op r : compares op v r → accepts_integer v rel (mkProperty op (Reference.Integer r))
  | ai_relative op s r : relative s → rel = Some r → compares op v r →
      accepts_integer v rel (mkProperty op (Reference.String s))
  | ai_range op a b lo hi : op = "in-range" ∨ op = "in-time-range" →
      from_str_radix 32 10 a = Some lo → from_str_radix 32 10 b = Some hi → lo <= v <= hi →
      accepts_integer v rel (mkProperty op (Reference.String (a +:+ ".." +:+ b)))
  | ai_subset l : v ∈ l → accepts_integer v rel (mkProperty "subset" (Reference.IntegerList l)).

Inductive compares_string : string → string → string → Prop :=
  | cs_equal v : compares_string "equal" v v
  | cs_ge v r : String.le r v → compares_string "greater-or-equal" v r.

Inductive accepts_string (v : string) (rel : option string) : PolicyProperty → Prop :=
  | as_text op s : ¬ relative s → compares_string op v s → accepts_string v rel (mkProperty op (Reference.String s))
  | as_relative op s r : relative s → rel = Some r → compares_string op v r →
      accepts_string v rel (mkProperty op (Reference.String s))
  | as_allow l : v ∈ l → accepts_string v rel (mkProperty "allow-list" (Reference.StringList l))
  | as_deny l : v ∉ l → accepts_string v rel (mkProperty "deny-list" (Reference.StringList l)).

(** A status is accepted outright, never, or, with a configuration needed, when
    the property names a status that is not higher or an allow list names
    [ConfigurationNeeded]. *)
Definition valid_status (s : string) : Prop := ∃ t, s = TcbStatus.as_str t.

Inductive accepts_status (v : TcbStatus.t) (rel : option TcbStatus.t) : PolicyProperty → Prop :=
  | at_always p : TcbStatus.rank v = 2 → accepts_status v rel p
  | at_reference op s r : TcbStatus.rank v = 1 →
      (relative s ∧ rel = Some r ∨ s = TcbStatus.as_str r) →
      compares op (TcbStatus.rank v) (TcbStatus.rank r) → accepts_status v rel (mkProperty op (Reference.String s))
  | at_allow l : TcbStatus.rank v = 1 → Forall valid_status l → TcbStatus.as_str TcbStatus.ConfigurationNeeded ∈ l →
      accepts_status v rel (mkProperty "allow-list" (Reference.StringList l)).

Lemma is_relative_spec s : is_relative s = true ↔ relative s.
Proof. unfold is_relative, relative. rewrite orb_true_iff, !bool_decide_eq_true. done. Qed.

Lemma is_relative_false s : is_relative s = false ↔ ¬ relative s.
Proof. rewrite <-is_relative_spec. by destruct (is_relative s). Qed.

Lemma compare_integer_spec op v r : compare_integer op v r = Ok true ↔ compares op v r.
Proof.
  unfold compare_integer. split.
  - case_bool_decide as H1; [subst|case_bool_decide as H2; [subst|done]]; intros [= E].
    + apply Z.eqb_eq in E as ->. constructor.
    + apply Z.leb_le in E. by constructor.
  - destruct 1 as [v|v r Hv]; cbn; f_equal; [apply Z.eqb_refl|by apply Z.leb_le].
Qed.

Lemma split_pair s a b : split_dots EmptyString s = [a; b] → s = a +:+ ".." +:+ b.
Proof. intros E. destruct (split_dots_join _ s EmptyString (le_n _)) as [Hj _]. rewrite E in Hj. by symmetry. Qed.

Lemma is_in_range_spec v s : is_in_range v s = Ok true ↔
  ∃ a b lo hi, s = a +:+ ".." +:+ b ∧ from_str_radix 32 10 a = Some lo ∧ from_str_radix 32 10 b = Some hi ∧ lo <= v <= hi.
Proof.
  unfold is_in_range. split.
  - destruct (split_dots EmptyString s) as [|a [|b [|]]] eqn:E; try done. apply split_pair in E.
    intros (lo & Hlo & (hi & Hhi & Hv)%bind_Ok)%bind_Ok. apply or_err_Ok in Hlo, Hhi.
    injection Hv as [H1%Z.leb_le H2%Z.leb_le]%andb_prop. by exists a, b, lo, hi.
  - intros (a & b & lo & hi & -> & Ha & Hb & [H1%Z.leb_le H2%Z.leb_le]).
    rewrite split_dots_range by (by eapply decimal_no_dot). change (EmptyString +:+ a) with a.
    cbn [mbind outcome_bind]. rewrite Ha, Hb. cbn. by rewrite H1, H2.
Qed.

Lemma decimal_range_not_relative a b lo : from_str_radix 32 10 a = Some lo → ¬ relative (a +:+ ".." +:+ b).
Proof.
  intros _ [E|E]; apply (f_equal (split_dots EmptyString)) in E.
  - assert (join (split_dots EmptyString (a +:+ ".." +:+ b)) = "self") as Hj by (by rewrite E).
    destruct (split_dots_join _ (a +:+ ".." +:+ b) EmptyString (le_n _)) as [Hj' _]. rewrite Hj' in Hj.
    by destruct a as [|? [|? [|? [|? [|? ?]]]]].
  - assert (join (split_dots EmptyString (a +:+ ".." +:+ b)) = "init") as Hj by (by rewrite E).
    destruct (split_dots_join _ (a +:+ ".." +:+ b) EmptyString (le_n _)) as [Hj' _]. rewrite Hj' in Hj.
    by destruct a as [|? [|? [|? [|? [|? ?]]]]].
Qed.

Lemma evaluate_integer_spec p v rel : evaluate_integer p v rel = Ok true ↔ accepts_integer v rel p.
Proof.
  destruct p as [op ref]. unfold evaluate_integer. cbn [reference operation]. split.
  - destruct ref as [r|s|l|l].
    + intros ?%compare_integer_spec. by constructor.
    + destruct (is_relative s) eqn:Er.
      * intros (r & ->%or_err_Ok & ?%compare_integer_spec)%bind_Ok. apply is_relative_spec in Er. by eapply ai_relative.
      * destruct (bool_decide (op = "in-range") || _) eqn:Eo; [|done]. apply orb_prop in Eo.
        rewrite !bool_decide_eq_true in Eo. intros (a & b & lo & hi & -> & ? & ? & ?)%is_in_range_spec. by eapply ai_range.
    + case_bool_decide as Ho; [subst op|done]. intros [= (x & Hx & ->%Z.eqb_eq)%existsb_exists]. constructor. by apply list_elem_of_In.
    + done.
  - inversion 1 as [op' r Hc|op' s r Hr Hrel Hc|op' a b lo hi Ho Ha Hb Hv|l Hl]; subst.
    + by apply compare_integer_spec.
    + rewrite (proj2 (is_relative_spec s)) by done. cbn. by apply compare_integer_spec.
    + rewrite (proj2 (is_relative_false _)) by (by eapply decimal_range_not_relative).
      assert (bool_decide (op = "in-range") || bool_decide (op = "in-time-range") = true) as ->
        by (rewrite orb_true_iff, !bool_decide_eq_true; done).
      apply is_in_range_spec. by exists a, b, lo, hi.
    + cbn. f_equal. apply existsb_exists. exists v. split; [by apply list_elem_of_In|apply Z.eqb_refl].
Qed.

Lemma evaluate_string_spec p v rel : evaluate_string p v rel = Ok true ↔ accepts_string v rel p.
Proof.
  destruct p as [op ref]. unfold evaluate_string. cbn [reference operation].
  assert (∀ r, (if bool_decide (op = "equal") then Ok (bool_decide (v = r))
      else if bool_decide (op = "greater-or-equal") then Ok (String.leb r v) else Err PolicyError.InvalidOperation) = Ok true
      ↔ compares_string op v r) as Hop.
  { intros r. split.
    - case_bool_decide as H1; [subst|case_bool_decide as H2; [subst|done]]; intros [= E].
      + apply bool_decide_eq_true in E as ->. constructor.
      + constructor. unfold String.le. by rewrite E.
    - inversion 1 as [v'|v' r' Hr]; subst.
      + by rewrite !bool_decide_true.
      + rewrite bool_decide_false, bool_decide_true by done. f_equal. apply Is_true_true. exact Hr. }
  split.
  - destruct ref as [r|s|l|l]; try done.
    + destruct (is_relative s) eqn:Er.
      * intros (r & ->%or_err_Ok & ?%Hop)%bind_Ok. apply is_relative_spec in Er. by eapply as_relative.
      * intros (r & [= <-] & ?%Hop)%bind_Ok. apply is_relative_false in Er. by constructor.
    + destruct (bool_decide_reflect (op = "allow-list")) as [->|_];
        [|destruct (bool_decide_reflect (op = "deny-list")) as [->|_]; [|done]]; intros [= E].
      * constructor. by apply bool_decide_eq_true in E.
      * constructor. apply negb_true_iff in E. by apply bool_decide_eq_false in E.
  - inversion 1 as [op' s Hr Hc|op' s r Hr Hrel Hc|l Hl|l Hl]; subst.
    + rewrite (proj2 (is_relative_false s)) by done. cbn. by apply Hop.
    + rewrite (proj2 (is_relative_spec s)) by done. cbn. by apply Hop.
    + cbn. f_equal. by apply bool_decide_eq_true.
    + cbn. f_equal. apply negb_true_iff. by apply bool_decide_eq_false.
Qed.

(** ** Statuses *)

Lemma try_from_spec s t : TcbStatus.try_from s = Ok t ↔ s = TcbStatus.as_str t.
Proof.
  split; [|intros ->; by destruct t]. unfold TcbStatus.try_from.
  repeat (case_bool_decide as Hs; [by intros [= <-]|clear Hs]). done.
Qed.

Lemma try_from_no_panic s : TcbStatus.try_from s ≠ Panic.
Proof. unfold TcbStatus.try_from. by repeat case_bool_decide. Qed.

Lemma servtd_try_from_spec s t : ServtdTcbStatus.try_from s = Ok t ↔ s = ServtdTcbStatus.as_str t.
Proof.
  split; [|intros ->; by destruct t]. unfold ServtdTcbStatus.try_from.
  repeat (case_bool_decide as Hs; [by intros [= <-]|clear Hs]). done.
Qed.

Lemma contains_app l k v : TcbStatus.contains (l ++ k) v = TcbStatus.contains l v || TcbStatus.contains k v.
Proof. unfold TcbStatus.contains. apply existsb_app. Qed.

Lemma allow_loop_Ok items acc l v : allow_loop items acc = Ok l →
  Forall valid_status items ∧
  (TcbStatus.contains l v = true ↔ TcbStatus.contains acc v = true ∨
     TcbStatus.as_str TcbStatus.ConfigurationNeeded ∈ items ∧ TcbStatus.rank v = 1).
Proof.
  revert acc. induction items as [|i items IH]; intros acc; cbn [allow_loop].
  { intros [= <-]. split; [done|]. split; [by left|]. intros [?|[[]%elem_of_nil _]]; done. }
  intros (t & Ht%try_from_spec & E)%bind_Ok. destruct (IH _ E) as [Hv Hc].
  split; [constructor; [by exists t|done]|]. rewrite Hc, elem_of_cons. case_bool_decide as Hi.
  - rewrite contains_app, orb_true_iff.
    assert (TcbStatus.contains [TcbStatus.ConfigurationNeeded; TcbStatus.ConfigurationAndSWHardeningNeeded;
      TcbStatus.OutOfDateConfigurationNeeded] v = true ↔ TcbStatus.rank v = 1) as Hk by (by destruct v).
    rewrite Hk. naive_solver.
  - split; [tauto|]. intros [?|[[?|?] ?]]; [tauto|congruence|tauto].
Qed.

Lemma allow_loop_valid items acc : Forall valid_status items → ∃ l, allow_loop items acc = Ok l.
Proof.
  intros Hv. revert acc. induction Hv as [|i items [t ->] _ IH]; intros acc; cbn [allow_loop]; [by eexists|].
  rewrite (proj2 (try_from_spec _ t)) by done. cbn [mbind outcome_bind]. apply IH.
Qed.

Lemma contains_deny v : TcbStatus.contains ALWAYS_DENY v = (TcbStatus.rank v =? 0).
Proof. by destruct v. Qed.

Lemma contains_allow v : TcbStatus.contains ALWAYS_ALLOW v = (TcbStatus.rank v =? 2).
Proof. by destruct v. Qed.

Lemma evaluate_status_spec p v rel : evaluate_tcb_status p v rel = Ok true ↔ accepts_status v rel p.
Proof.
  destruct p as [op ref]. unfold evaluate_tcb_status. rewrite contains_deny, contains_allow. cbn [reference operation].
  destruct (TcbStatus.rank v =? 0) eqn:E0; [|destruct (TcbStatus.rank v =? 2) eqn:E2].
  { split; [done|]. apply Z.eqb_eq in E0. inversion 1; congruence. }
  { split; [|done]. intros _. constructor. by apply Z.eqb_eq. }
  assert (TcbStatus.rank v = 1) as Hv by (by destruct v). split.
  - destruct ref as [r|s|l|l]; try done.
    + intros (r & Hr & Hop)%bind_Ok. apply (at_reference v rel op s r Hv).
      * destruct (is_relative s) eqn:Es; [left; split; [by apply is_relative_spec|by apply or_err_Ok in Hr]|].
        right. by apply try_from_spec.
      * revert Hop. case_bool_decide as H1; [subst|case_bool_decide as H2; [subst|done]]; intros [= E].
        -- apply Z.eqb_eq in E as <-. constructor.
        -- constructor. by apply Z.leb_le.
    + intros (pa & Hpa & [= Hc])%bind_Ok. revert Hpa. case_bool_decide as H1; [subst|case_bool_decide; [|done]].
      * intros Hl. destruct (allow_loop_Ok _ _ _ v Hl) as [Hvalid Hiff]. apply Hiff in Hc as [|[? _]]; [done|].
        by apply at_allow.
      * intros (? & _ & [= <-])%bind_Ok. done.
  - inversion 1 as [p' Hr|op' s r Hr Href Hc|l Hr Hl Hin]; subst; [congruence| |].
    + assert ((if is_relative s then or_err rel PolicyError.InvalidReference else TcbStatus.try_from s) = Ok r) as ->.
      { destruct Href as [[Hs ->]| ->]; [by rewrite (proj2 (is_relative_spec s)) by done|].
        rewrite (proj2 (is_relative_false _)) by (by destruct r; intros [?|?]). by apply try_from_spec. }
      cbn [mbind outcome_bind]. inversion Hc as [x|x y Hle]; subst.
      * rewrite bool_decide_true by done. f_equal. apply Z.eqb_eq. congruence.
      * rewrite bool_decide_false, bool_decide_true by done. f_equal. by apply Z.leb_le.
    + destruct (allow_loop_valid l [] Hl) as [pa Hpa]. rewrite bool_decide_true by done. rewrite Hpa. cbn.
      f_equal. apply (allow_loop_Ok _ _ _ v Hpa). by right.
Qed.

Lemma evaluate_servtd_status_spec p v rel : evaluate_servtd_tcb_status p v rel = Ok true ↔ v ≠ ServtdTcbStatus.Revoked.
Proof. by destruct v. Qed.

(** ** Blocks *)

Definition accepts (p : option PolicyProperty) (Q : PolicyProperty → Prop) : Prop := ∀ q, p = Some q → Q q.

Section blocks.
Context (v rel : PolicyEvaluationInfo).

(** The status text of the reference, when it names a status. *)
Definition status_of (s : option string) : option TcbStatus.t := s ← s; ok (TcbStatus.try_from s).

Definition accepts_tcb (t : TcbPolicy) : Prop :=
  accepts (tp_tcb_evaluation_data_number t) (λ p,
    ∃ n, tcb_evaluation_number v = Some n ∧ accepts_integer n (tcb_evaluation_number rel) p) ∧
  accepts (tp_tcb_status_accepted t) (λ p,
    ∃ s, tcb_status v = Some (TcbStatus.as_str s) ∧ accepts_status s (status_of (tcb_status rel)) p) ∧
  accepts (tp_tcb_date t) (λ p, ∃ d, tcb_date v = Some d ∧ accepts_string d (tcb_date rel) p).

Definition accepts_platform (c : PlatformPolicy) : Prop :=
  accepts (pp_fmspc c) (λ p,
    ∃ f, fmspc v = Some f ∧ accepts_string (bytes_to_hex_string f) (bytes_to_hex_string <$> fmspc rel) p).

Definition accepts_crl (c : CrlPolicy) : Prop :=
  accepts (cp_pck_crl_num c) (λ p, ∃ n, pck_crl_num v = Some n ∧ accepts_integer n (pck_crl_num rel) p) ∧
  accepts (cp_root_ca_crl_num c) (λ p, ∃ n, root_ca_crl_num v = Some n ∧ accepts_integer n (root_ca_crl_num rel) p).

Definition accepts_global (g : GlobalPolicy) : Prop :=
  (∀ t, gp_tcb g = Some t → accepts_tcb t) ∧ (∀ c, gp_platform g = Some c → accepts_platform c) ∧
  (∀ c, gp_crl g = Some c → accepts_crl c).

Definition accepts_servtd (i : MigTdIdentityPolicy) : Prop :=
  accepts (ip_isvsvn i) (λ p, ∃ n, migtd_isvsvn v = Some n ∧ accepts_integer n (migtd_isvsvn rel) p) ∧
  accepts (ip_tcb_date i) (λ p, ∃ d, migtd_tcb_date v = Some d ∧ accepts_string d (migtd_tcb_date rel) p) ∧
  accepts (ip_tcb_status_accepted i) (λ _,
    ∃ s, migtd_tcb_status v = Some (ServtdTcbStatus.as_str s) ∧ s ≠ ServtdTcbStatus.Revoked).

Definition accepts_entry (skip_global : bool) (t : PolicyTypes) : Prop :=
  match t with Global g => skip_global = false → accepts_global g | Servtd i => accepts_servtd i end.

Lemma check_property_spec p eval e (Q : PolicyProperty → Prop) :
  (∀ q, eval q = Ok true ↔ Q q) → check_property p eval e = Ok tt ↔ accepts p Q.
Proof.
  intros Heval. unfold check_property, accepts. destruct p as [p|]; [|by split].
  rewrite bind_Ok. split.
  - intros (b & Hb & ->%require_Ok) q [= <-]. by apply Heval.
  - intros HQ. exists true. split; [by apply Heval, HQ|done].
Qed.

Lemma when_some_spec {A} (o : option A) f (Q : A → Prop) :
  (∀ a, f a = Ok tt ↔ Q a) → when_some o f = Ok tt ↔ ∀ a, o = Some a → Q a.
Proof. intros Hf. destruct o as [a|]; cbn; [|by split]. rewrite Hf. split; [by intros ? ? [= <-]|auto]. Qed.

Lemma seq_Ok (m1 m2 : PResult unit) : (m1 ≫= λ _, m2) = Ok tt ↔ m1 = Ok tt ∧ m2 = Ok tt.
Proof. rewrite bind_Ok. split; [by intros ([] & ? & ?)|intros [? ?]; by exists tt]. Qed.

Lemma or_err_bind_Ok {A} (o : option A) e (f : A → PResult bool) :
  (or_err o e ≫= f) = Ok true ↔ ∃ a, o = Some a ∧ f a = Ok true.
Proof.
  rewrite bind_Ok. split; intros (a & H1 & H2); exists a; (split; [|done]); by apply (or_err_Ok o e).
Qed.

Lemma exists_iff {A} (P Q : A → Prop) : (∀ a, P a ↔ Q a) → (∃ a, P a) ↔ ∃ a, Q a.
Proof. intros H. split; intros (a & Ha); exists a; by apply H. Qed.

Lemma evaluate_tcb_spec t : TcbPolicy_evaluate v rel t = Ok tt ↔ accepts_tcb t.
Proof.
  unfold TcbPolicy_evaluate, accepts_tcb. rewrite !seq_Ok. apply Morphisms_Prop.and_iff_morphism; [|apply Morphisms_Prop.and_iff_morphism].
  - apply check_property_spec. intros q. rewrite or_err_bind_Ok. apply exists_iff. intros n. by rewrite evaluate_integer_spec.
  - apply check_property_spec. intros q. rewrite or_err_bind_Ok. apply exists_iff. intros s. rewrite evaluate_status_spec.
    assert ((s' ← tcb_status v; ok (TcbStatus.try_from s')) = Some s ↔ tcb_status v = Some (TcbStatus.as_str s)) as ->; [|done].
    destruct (tcb_status v) as [x|]; cbn; [|done]. split.
    + destruct (TcbStatus.try_from x) eqn:E; cbn; [|done..]. intros [= <-]. by apply try_from_spec in E as ->.
    + intros [= ->]. by rewrite (proj2 (try_from_spec _ s)).
  - apply check_property_spec. intros q. rewrite or_err_bind_Ok. apply exists_iff. intros n. by rewrite evaluate_string_spec.
Qed.

Lemma evaluate_global_spec g : GlobalPolicy_evaluate v rel g = Ok tt ↔ accepts_global g.
Proof.
  unfold GlobalPolicy_evaluate, accepts_global. rewrite !seq_Ok.
  apply Morphisms_Prop.and_iff_morphism; [|apply Morphisms_Prop.and_iff_morphism]; apply when_some_spec.
  - apply evaluate_tcb_spec.
  - intros c. apply check_property_spec. intros q. rewrite or_err_bind_Ok. apply exists_iff. intros n. by rewrite evaluate_string_spec.
  - intros c. unfold CrlPolicy_evaluate, accepts_crl. rewrite seq_Ok.
    apply Morphisms_Prop.and_iff_morphism; apply check_property_spec; intros q; rewrite or_err_bind_Ok; apply exists_iff; intros n;
      by rewrite evaluate_integer_spec.
Qed.

Lemma evaluate_servtd_spec i : ServtdPolicy_evaluate v rel i = Ok tt ↔ accepts_servtd i.
Proof.
  unfold ServtdPolicy_evaluate, accepts_servtd. rewrite !seq_Ok.
  apply Morphisms_Prop.and_iff_morphism; [|apply Morphisms_Prop.and_iff_morphism]; apply check_property_spec; intros q;
    rewrite or_err_bind_Ok; apply exists_iff; intros n.
  - by rewrite evaluate_integer_spec.
  - by rewrite evaluate_string_spec.
  - rewrite evaluate_servtd_status_spec.
    assert ((s' ← migtd_tcb_status v; ok (ServtdTcbStatus.try_from s')) = Some n ↔
      migtd_tcb_status v = Some (ServtdTcbStatus.as_str n)) as ->; [|done].
    destruct (migtd_tcb_status v) as [x|]; cbn; [|done]. split.
    + destruct (ServtdTcbStatus.try_from x) eqn:E; cbn; [|done..]. intros [= <-]. by apply servtd_try_from_spec in E as ->.
    + intros [= ->]. by rewrite (proj2 (servtd_try_from_spec _ n)).
Qed.

Lemma evaluate_block_spec block skip_global :
  evaluate_policy_block v rel block skip_global = Ok tt ↔ Forall (accepts_entry skip_global) block.
Proof.
  induction block as [|t block IH]; cbn [evaluate_policy_block]; [by split|].
  rewrite seq_Ok, IH, Forall_cons. apply Morphisms_Prop.and_iff_morphism; [|done].
  destruct t as [g|i]; cbn [accepts_entry]; [|apply evaluate_servtd_spec].
  destruct skip_global; [by split|]. rewrite evaluate_global_spec. split; auto.
Qed.

End blocks.

(** ** Evaluation never aborts *)

Lemma compare_integer_no_panic op a b : compare_integer op a b ≠ Panic.
Proof. unfold compare_integer. by repeat case_bool_decide. Qed.

Lemma evaluate_integer_no_panic p a b : evaluate_integer p a b ≠ Panic.
Proof.
  unfold evaluate_integer. destruct (reference p); [apply compare_integer_no_panic| |by case_bool_decide|done].
  destruct (is_relative _); [apply bind_no_panic; [auto with policy|intros; apply compare_integer_no_panic]|].
  destruct (_ || _); [|done]. unfold is_in_range. destruct (split_dots _ _) as [|? [|? [|]]]; try done.
  apply bind_no_panic; [auto with policy|]. intros. apply bind_no_panic; [auto with policy|done].
Qed.

Lemma evaluate_string_no_panic p a b : evaluate_string p a b ≠ Panic.
Proof.
  unfold evaluate_string. destruct (reference p); try done.
  - apply bind_no_panic; [destruct (is_relative _); [auto with policy|done]|]. intros r _. by repeat case_bool_decide.
  - by repeat case_bool_decide.
Qed.

Lemma allow_loop_no_panic l acc : allow_loop l acc ≠ Panic.
Proof. revert acc. induction l as [|x l IH]; intros acc; cbn; [done|]. apply bind_no_panic; [apply try_from_no_panic|auto]. Qed.

Lemma evaluate_status_no_panic p a b : evaluate_tcb_status p a b ≠ Panic.
Proof.
  unfold evaluate_tcb_status. destruct (TcbStatus.contains _ _); [done|]. destruct (TcbStatus.contains _ _); [done|].
  destruct (reference p); try done; (apply bind_no_panic; [|intros ? _; by repeat case_bool_decide]).
  - destruct (is_relative _); [auto with policy|apply try_from_no_panic].
  - case_bool_decide; [apply allow_loop_no_panic|]. case_bool_decide; [|done].
    apply bind_no_panic; [apply collect_no_panic, try_from_no_panic|done].
Qed.

Lemma check_property_no_panic p eval e : (∀ q, eval q ≠ Panic) → check_property p eval e ≠ Panic.
Proof. intros H. destruct p; cbn; [|done]. apply bind_no_panic; [done|]. intros. apply require_no_panic. Qed.

Lemma evaluate_servtd_status_no_panic p a b : evaluate_servtd_tcb_status p a b ≠ Panic.
Proof. by destruct a. Qed.

#[export] Hint Resolve evaluate_integer_no_panic evaluate_string_no_panic evaluate_status_no_panic
  evaluate_servtd_status_no_panic check_property_no_panic : policy.

(** Sequences of checks, each of which does not abort. *)
Ltac no_panic := repeat first
  [ done | solve [auto with policy] | apply bind_no_panic; [|intros ? _] | apply check_property_no_panic; intros ? ].

Lemma evaluate_block_no_panic v rel block skip : evaluate_policy_block v rel block skip ≠ Panic.
Proof.
  induction block as [|t block IH]; cbn; [done|]. apply bind_no_panic; [|done]. destruct t as [g|i].
  - destruct skip; [done|]. unfold GlobalPolicy_evaluate, when_some, TcbPolicy_evaluate, PlatformPolicy_evaluate, CrlPolicy_evaluate.
    destruct (gp_tcb g), (gp_platform g), (gp_crl g); no_panic.
  - unfold ServtdPolicy_evaluate. no_panic.
Qed.

(** C28 Evaluation of a policy block never aborts, and succeeds exactly when every
    entry is accepted by the language of policies: each property present has a
    value and accepts it, service TD entries always and global entries unless
    they are skipped. *)
Theorem policy_block_exact v rel block skip_global :
  evaluate_policy_block v rel block skip_global ≠ Panic ∧
  (evaluate_policy_block v rel block skip_global = Ok tt ↔ Forall (accepts_entry v rel skip_global) block).
Proof. split; [apply evaluate_block_no_panic|apply evaluate_block_spec]. Qed.

(** ** Upgrades *)

(** Every value known before is known after, and related by [R]. *)
Definition opt_up {A} (R : A → A → Prop) (o o' : option A) : Prop := ∀ a, o = Some a → ∃ b, o' = Some b ∧ R a b.

Definition status_up (s s' : string) : Prop :=
  ∀ t, s = TcbStatus.as_str t → ∃ t', s' = TcbStatus.as_str t' ∧ TcbStatus.rank t <= TcbStatus.rank t'.

Definition servtd_status_up (s s' : string) : Prop :=
  ∀ t, s = ServtdTcbStatus.as_str t → ∃ t', s' = ServtdTcbStatus.as_str t' ∧ ServtdTcbStatus.rank t <= ServtdTcbStatus.rank t'.

Record upgrade (v v' : PolicyEvaluationInfo) : Prop := {
  up_number : opt_up Z.le (tcb_evaluation_number v) (tcb_evaluation_number v');
  up_status : opt_up status_up (tcb_status v) (tcb_status v');
  up_date : opt_up String.le (tcb_date v) (tcb_date v');
  up_fmspc : opt_up eq (fmspc v) (fmspc v');
  up_svn : opt_up Z.le (migtd_isvsvn v) (migtd_isvsvn v');
  up_migtd_status : opt_up servtd_status_up (migtd_tcb_status v) (migtd_tcb_status v');
  up_migtd_date : opt_up String.le (migtd_tcb_date v) (migtd_tcb_date v');
  up_pck : opt_up Z.le (pck_crl_num v) (pck_crl_num v');
  up_root : opt_up Z.le (root_ca_crl_num v) (root_ca_crl_num v') }.

(** A property that only sets a lower bound. *)
Definition lower_bound (p : option PolicyProperty) : Prop := accepts p (λ q, operation q = "greater-or-equal").

Definition lower_bounds (t : PolicyTypes) : Prop :=
  match t with
  | Global g =>
      (∀ t, gp_tcb g = Some t → lower_bound (tp_tcb_evaluation_data_number t) ∧ lower_bound (tp_tcb_date t)) ∧
      (∀ c, gp_crl g = Some c → lower_bound (cp_pck_crl_num c) ∧ lower_bound (cp_root_ca_crl_num c))
  | Servtd i => lower_bound (ip_isvsvn i) ∧ lower_bound (ip_tcb_date i)
  end.

Lemma accepts_integer_up p a b rel : operation p = "greater-or-equal" → a <= b → accepts_integer a rel p → accepts_integer b rel p.
Proof.
  intros Hop Hab. inversion 1 as [op r Hc|op s r Hs Hr Hc|op x y lo hi Ho|l]; subst; cbn in Hop; subst.
  - inversion Hc; subst. apply ai_integer, compares_ge. lia.
  - inversion Hc; subst. eapply ai_relative; [done..|]. apply compares_ge. lia.
  - by destruct Ho.
  - done.
Qed.

Lemma accepts_string_up p a b rel : operation p = "greater-or-equal" → String.le a b → accepts_string a rel p → accepts_string b rel p.
Proof.
  intros Hop Hab. inversion 1 as [op s Hs Hc|op s r Hs Hr Hc|l|l]; subst; cbn in Hop; subst; try done; inversion Hc; subst.
  - apply as_text; [done|]. apply cs_ge. by etrans.
  - eapply as_relative; [done..|]. apply cs_ge. by etrans.
Qed.

Lemma accepts_status_up p a b rel : TcbStatus.rank a <= TcbStatus.rank b → accepts_status a rel p → accepts_status b rel p.
Proof.
  intros Hab Ha. destruct (decide (TcbStatus.rank b = 2)) as [?|Hb]; [by apply at_always|].
  assert (TcbStatus.rank a = TcbStatus.rank b) as Hr.
  { inversion Ha as [p' H2|op s r H1|l H1]; subst; destruct a, b; cbn in *; lia. }
  inversion Ha as [p' H2|op s r H1 Hs Hc|l H1 Hl Hin]; subst; [congruence|..].
  - rewrite Hr in *. by eapply at_reference.
  - rewrite Hr in *. by apply at_allow.
Qed.

Lemma accepts_up {A} (R : A → A → Prop) p o o' (Q : A → PolicyProperty → Prop) :
  opt_up R o o' → (∀ q, p = Some q → ∀ a b, R a b → Q a q → Q b q) →
  accepts p (λ q, ∃ a, o = Some a ∧ Q a q) → accepts p (λ q, ∃ a, o' = Some a ∧ Q a q).
Proof.
  intros Hup HQ Hacc q Hq. destruct (Hacc q Hq) as (a & Ha & HQa). destruct (Hup a Ha) as (b & Hb & HR).
  exists b. split; [done|]. by eapply HQ.
Qed.

Lemma accepts_lower_int p o o' rel : lower_bound p → opt_up Z.le o o' →
  accepts p (λ q, ∃ n, o = Some n ∧ accepts_integer n rel q) → accepts p (λ q, ∃ n, o' = Some n ∧ accepts_integer n rel q).
Proof. intros Hl Hup. apply (accepts_up _ _ _ _ (λ n q, accepts_integer n rel q) Hup). intros. eapply accepts_integer_up; eauto. Qed.

Lemma accepts_lower_string p o o' rel : lower_bound p → opt_up String.le o o' →
  accepts p (λ q, ∃ n, o = Some n ∧ accepts_string n rel q) → accepts p (λ q, ∃ n, o' = Some n ∧ accepts_string n rel q).
Proof. intros Hl Hup. apply (accepts_up _ _ _ _ (λ n q, accepts_string n rel q) Hup). intros. eapply accepts_string_up; eauto. Qed.

Lemma accepts_tcb_up v v' rel t : upgrade v v' → lower_bound (tp_tcb_evaluation_data_number t) → lower_bound (tp_tcb_date t) →
  accepts_tcb v rel t → accepts_tcb v' rel t.
Proof.
  intros Hup Hn Hd (An & As & Ad). split_and!.
  - eapply accepts_lower_int; [done|apply (up_number _ _ Hup)|done].
  - intros q Hq. destruct (As q Hq) as (s & Hs & Ha). destruct (up_status _ _ Hup _ Hs) as (x & Hx & Hup').
    destruct (Hup' s eq_refl) as (s' & -> & Hr). exists s'. split; [done|]. by eapply accepts_status_up.
  - eapply accepts_lower_string; [done|apply (up_date _ _ Hup)|done].
Qed.

Lemma accepts_servtd_up v v' rel i : upgrade v v' → lower_bound (ip_isvsvn i) → lower_bound (ip_tcb_date i) →
  accepts_servtd v rel i → accepts_servtd v' rel i.
Proof.
  intros Hup Hn Hd (An & Ad & As). split_and!.
  - eapply accepts_lower_int; [done|apply (up_svn _ _ Hup)|done].
  - eapply accepts_lower_string; [done|apply (up_migtd_date _ _ Hup)|done].
  - intros q Hq. destruct (As q Hq) as (s & Hs & Hne). destruct (up_migtd_status _ _ Hup _ Hs) as (x & Hx & Hup').
    destruct (Hup' s eq_refl) as (s' & -> & Hr). exists s'. split; [done|]. intros ->. by destruct s.
Qed.

Lemma accepts_entry_up v v' rel skip t : upgrade v v' → lower_bounds t →
  accepts_entry v rel skip t → accepts_entry v' rel skip t.
Proof.
  intros Hup Hl. destruct t as [g|i]; [|intros Ha; destruct Hl; by eapply accepts_servtd_up].
  destruct Hl as [Hlt Hlc]. intros Ha Hskip. destruct (Ha Hskip) as (At & Ap & Ac). split_and!.
  - intros t Ht. destruct (Hlt t Ht). by eapply accepts_tcb_up, At.
  - intros c Hc q Hq. destruct (Ap c Hc q Hq) as (f & Hf & Hacc). destruct (up_fmspc _ _ Hup _ Hf) as (f' & Hf' & <-). by exists f.
  - intros c Hc. destruct (Hlc c Hc), (Ac c Hc). split.
    + eapply accepts_lower_int; [done|apply (up_pck _ _ Hup)|done].
    + eapply accepts_lower_int; [done|apply (up_root _ _ Hup)|done].
Qed.

(** A peer that a block of lower bounds accepts stays accepted after an
    upgrade: higher numbers, later dates and statuses of no lower rank on the
    same platform never turn an acceptance into a rejection. *)
Theorem policy_upgrade_accepted v v' rel block skip_global :
  Forall lower_bounds block → upgrade v v' →
  evaluate_policy_block v rel block skip_global = Ok tt → evaluate_policy_block v' rel block skip_global = Ok tt.
Proof.
  intros Hl Hup. rewrite !evaluate_block_spec. intros Ha. rewrite Forall_forall in *. intros t Ht.
  eapply accepts_entry_up; eauto.
Qed.

(** A revoked platform or migration TD is never accepted: a block that checks
    a status accepts only a known status other than [Revoked], whatever the
    property says, and an unknown or missing status is an error. *)
Theorem policy_revoked_rejected v rel block skip_global :
  evaluate_policy_block v rel block skip_global = Ok tt →
  (∀ g t, skip_global = false → Global g ∈ block → gp_tcb g = Some t → is_Some (tp_tcb_status_accepted t) →
     ∃ s, tcb_status v = Some (TcbStatus.as_str s) ∧ s ≠ TcbStatus.Revoked) ∧
  (∀ i, Servtd i ∈ block → is_Some (ip_tcb_status_accepted i) →
     ∃ s, migtd_tcb_status v = Some (ServtdTcbStatus.as_str s) ∧ s ≠ ServtdTcbStatus.Revoked).
Proof.
  rewrite evaluate_block_spec, Forall_forall. intros Ha. split.
  - intros g t Hs Hin Ht [p Hp]. destruct (Ha _ Hin Hs) as (At & _ & _). destruct (At t Ht) as (_ & As & _).
    destruct (As p Hp) as (s & Hv & Hacc). exists s. split; [done|]. intros ->. by inversion Hacc.
  - intros i Hin [p Hp]. destruct (Ha _ Hin) as (_ & _ & As). by apply (As p).
Qed.

(** ** Hexadecimal text *)

(** A fact about every character, by evaluation. *)
Lemma all_ascii (P : ascii → bool) : forallb P ((λ n, ascii_of_nat n) <$> seq 0 256) = true → ∀ c, P c = true.
Proof.
  intros H c. rewrite forallb_forall in H. apply H. rewrite <-(ascii_nat_embedding c), <-list_elem_of_In.
  apply list_elem_of_fmap. exists (nat_of_ascii c). split; [done|]. apply elem_of_seq. pose proof (nat_ascii_bounded c). lia.
Qed.

Definition digit_ok (c : ascii) : bool :=
  forallb (λ d, Bool.eqb (bool_decide (to_digit 16 c = Some d)) (bool_decide (upper c = hex_digit d))) (seqZ 0 16)
  && match to_digit 16 c with Some d => (0 <=? d) && (d <? 16) | None => true end.

Lemma digits_ok : forallb digit_ok ((λ n, ascii_of_nat n) <$> seq 0 256) = true.
Proof. vm_compute. reflexivity. Qed.

(** [d] is the value of the digit [c], whatever its case. *)
Lemma to_digit_spec c d : to_digit 16 c = Some d ↔ 0 <= d < 16 ∧ upper c = hex_digit d.
Proof.
  pose proof (all_ascii digit_ok digits_ok c) as [H1 H2]%andb_prop.
  assert (0 <= d < 16 → to_digit 16 c = Some d ↔ upper c = hex_digit d) as Hd.
  { intros Hr. rewrite forallb_forall in H1. specialize (H1 d). rewrite <-list_elem_of_In in H1.
    rewrite elem_of_seqZ in H1. specialize (H1 ltac:(lia)). apply Bool.eqb_prop in H1.
    split; intros E; eapply bool_decide_eq_true_1; [rewrite <-H1|rewrite H1]; by apply bool_decide_eq_true_2. }
  split; [|intros [? ?]; by apply Hd]. intros E. rewrite E in H2.
  apply andb_prop in H2 as [H2%Z.leb_le H3%Z.ltb_lt]. split; [done|]. by apply Hd.
Qed.

Lemma hex_pair_spec a b x : a ≠ "+"%char →
  from_str_radix 8 16 (String.String a (String.String b EmptyString)) = Some x ↔
  in_u 8 x ∧ upper a = hex_digit (x / 16) ∧ upper b = hex_digit (x mod 16).
Proof.
  intros Ha. unfold from_str_radix. rewrite bool_decide_false by done. cbn [parse_digits]. unfold in_u. change (2 ^ 8) with 256.
  split.
  - intros (d & [Hd Hu]%to_digit_spec & E)%bind_Some. destruct (_ <? 256); [|done].
    apply bind_Some in E as (e & [He Hv]%to_digit_spec & E). destruct (_ <? 256) eqn:Hlt; [|done]. apply Z.ltb_lt in Hlt.
    injection E as <-. rewrite Z.mul_0_l, Z.add_0_l.
    replace ((d * 16 + e) / 16) with d by (apply (Z.div_unique _ _ _ e); lia).
    replace ((d * 16 + e) mod 16) with e by (apply (Z.mod_unique _ _ d); lia). split; [lia|done].
  - intros (Hx & Hu & Hv). assert (0 <= x / 16 < 16) by (split; [apply Z.div_pos; lia|apply Z.div_lt_upper_bound; lia]).
    pose proof (Z.mod_pos_bound x 16 ltac:(lia)).
    rewrite (proj2 (to_digit_spec a (x / 16))) by done. cbn [mbind option_bind]. rewrite (proj2 (Z.ltb_lt _ 256)) by lia.
    rewrite (proj2 (to_digit_spec b (x mod 16))) by done. cbn [mbind option_bind].
    pose proof (Z.div_mod x 16 ltac:(lia)). rewrite (proj2 (Z.ltb_lt _ 256)) by lia. f_equal. lia.
Qed.

Fixpoint no_plus (s : string) : Prop :=
  match s with EmptyString => True | String.String c s' => c ≠ "+"%char ∧ no_plus s' end.

Lemma hex_loop_spec bs s : no_plus s → Nat.even (String.length s) = true →
  hex_loop s = Ok bs ↔ bytes_ok bs ∧ to_ascii_uppercase s = bytes_to_hex_string bs.
Proof.
  revert bs. assert (∀ n s bs, (String.length s <= n)%nat → no_plus s → Nat.even (String.length s) = true →
    hex_loop s = Ok bs ↔ bytes_ok bs ∧ to_ascii_uppercase s = bytes_to_hex_string bs) as Hmain; [|intros; by eapply Hmain].
  clear s. induction n as [|n IH]; intros s bs Hn Hp He.
  { destruct s; [|cbn in Hn; lia]. cbn. split; [intros [= <-]; by split; [constructor|]|]. by destruct bs as [|? ?]; [|intros [_ ?]]. }
  destruct s as [|a [|b s]]; [|done|].
  { cbn. split; [intros [= <-]; by split; [constructor|]|]. by destruct bs as [|? ?]; [|intros [_ ?]]. }
  destruct Hp as (Ha & Hb & Hp). cbn [hex_loop to_ascii_uppercase]. cbn [String.length] in Hn, He.
  rewrite bind_Ok. split.
  - intros (x & Hpair%or_err_Ok & (l & Hl & [= <-])%bind_Ok). apply hex_pair_spec in Hpair as (Hx & Hu & Hv); [|done].
    apply IH in Hl as [Hl Hs]; [|lia|done..]. split; [by constructor|]. cbn. by rewrite Hu, Hv, Hs.
  - destruct bs as [|x l]; [by intros [_ ?]|]. intros [[Hx Hl]%Forall_cons [= Hu Hv Hs]]. exists x.
    split; [by apply or_err_Ok, hex_pair_spec|]. rewrite bind_Ok. exists l. split; [|done]. apply IH; [lia|done..].
Qed.

(** Upper-case hexadecimal is ASCII without a plus sign. *)
Lemma hex_digit_plain d : 0 <= d < 16 → hex_digit d ≠ "+"%char ∧ Z.of_N (N_of_ascii (hex_digit d)) < 128 ∧ upper (hex_digit d) = hex_digit d.
Proof.
  intros Hd. assert (forallb (λ d, negb (bool_decide (hex_digit d = "+"%char)) && (Z.of_N (N_of_ascii (hex_digit d)) <? 128)
    && bool_decide (upper (hex_digit d) = hex_digit d)) (seqZ 0 16) = true) as H by (vm_compute; reflexivity).
  rewrite forallb_forall in H. specialize (H d). rewrite <-list_elem_of_In, elem_of_seqZ in H.
  specialize (H ltac:(lia)). apply andb_prop in H as [[H1 H2]%andb_prop H3]. split_and!.
  - by apply negb_true_iff, bool_decide_eq_false_1 in H1.
  - by apply Z.ltb_lt in H2.
  - by apply bool_decide_eq_true_1 in H3.
Qed.

Lemma byte_digits b : in_u 8 b → 0 <= b / 16 < 16 ∧ 0 <= b mod 16 < 16.
Proof.
  unfold in_u. change (2 ^ 8) with 256. intros Hb.
  split; [split; [apply Z.div_pos; lia|apply Z.div_lt_upper_bound; lia]|apply Z.mod_pos_bound; lia].
Qed.

Lemma hex_string_plain bs : bytes_ok bs →
  no_plus (bytes_to_hex_string bs) ∧ is_ascii (bytes_to_hex_string bs) = true ∧
  Nat.even (String.length (bytes_to_hex_string bs)) = true ∧
  to_ascii_uppercase (bytes_to_hex_string bs) = bytes_to_hex_string bs.
Proof.
  induction 1 as [|b bs Hb _ (Hp & Ha & He & Hu)]; [done|].
  destruct (byte_digits b Hb) as [H1 H2]. destruct (hex_digit_plain _ H1) as (P1 & A1 & U1), (hex_digit_plain _ H2) as (P2 & A2 & U2).
  cbn [bytes_to_hex_string no_plus String.length Nat.even to_ascii_uppercase]. split_and!; try done.
  - unfold is_ascii, as_bytes. cbn [String.list_ascii_of_string fmap list_fmap forallb].
    rewrite (proj2 (Z.ltb_lt _ _) A1), (proj2 (Z.ltb_lt _ _) A2). exact Ha.
  - by rewrite U1, U2, Hu.
Qed.

(** Hexadecimal text: what [bytes_to_hex_string] prints is read back, for any
    non-empty byte string. *)
Theorem hex_roundtrip bs : bytes_ok bs → bs ≠ [] → hex_string_to_bytes (bytes_to_hex_string bs) = Ok bs.
Proof.
  intros Hb Hne. destruct (hex_string_plain bs Hb) as (Hp & Ha & He & Hu). unfold hex_string_to_bytes.
  rewrite bool_decide_false by (by destruct bs). rewrite He, Ha. cbn [negb orb]. by apply hex_loop_spec.
Qed.

(** ** Measurements *)

(** A text that spells these bytes, in either case. *)
Definition spells (s : string) (bs : bytes) : Prop := to_ascii_uppercase s = bytes_to_hex_string bs.

Lemma spells_hex s bs : no_plus s → bs ≠ [] → hex_string_to_bytes s = Ok bs → spells s bs.
Proof.
  intros Hp Hne. unfold hex_string_to_bytes. destruct (bool_decide (s = EmptyString)); [done|]. cbn [orb].
  destruct (Nat.even (String.length s)) eqn:He; [|done]. cbn [negb orb]. destruct (is_ascii s); [|done]. cbn [negb].
  intros E. by apply hex_loop_spec in E as [_ ?].
Qed.

Definition spells_optional (s : option string) (bs : option bytes) : Prop :=
  ∀ t, s = Some t → ∃ b, bs = Some b ∧ spells t b.

(** A mapping that describes the measured registers. *)
Definition describes (p : Measurements) (mrtd rtmr0 rtmr1 : bytes) (rtmr2 rtmr3 : option bytes) : Prop :=
  spells (ms_mrtd p) mrtd ∧ spells (ms_rtmr0 p) rtmr0 ∧ spells (ms_rtmr1 p) rtmr1 ∧
  spells_optional (ms_rtmr2 p) rtmr2 ∧ spells_optional (ms_rtmr3 p) rtmr3.

Lemma optional_matches_spec s bs : (∀ b, bs = Some b → bytes_ok b) →
  optional_matches (to_ascii_uppercase <$> s) (to_ascii_uppercase <$> (bytes_to_hex_string <$> bs)) = true ↔ spells_optional s bs.
Proof.
  intros Hb. unfold spells_optional. destruct s as [s|]; cbn; [|by split]. destruct bs as [b|]; cbn.
  - rewrite bool_decide_eq_true. destruct (hex_string_plain b (Hb b eq_refl)) as (_ & _ & _ & ->). split.
    + intros Hs t [= <-]. by exists b.
    + intros H. destruct (H s eq_refl) as (b' & [= <-] & ?). done.
  - split; [done|]. intros H. by destruct (H s eq_refl) as (? & ? & _).
Qed.

Lemma compare_measurements_spec p mrtd rtmr0 rtmr1 rtmr2 rtmr3 :
  bytes_ok mrtd → bytes_ok rtmr0 → bytes_ok rtmr1 → (∀ b, rtmr2 = Some b → bytes_ok b) → (∀ b, rtmr3 = Some b → bytes_ok b) →
  compare_measurements p (new_from_bytes mrtd rtmr0 rtmr1 rtmr2 rtmr3) = true ↔ describes p mrtd rtmr0 rtmr1 rtmr2 rtmr3.
Proof.
  intros Hm H0 H1 H2 H3. unfold compare_measurements, describes, spells, measurements_uppercase, new_from_bytes.
  cbn [ms_mrtd ms_rtmr0 ms_rtmr1 ms_rtmr2 ms_rtmr3].
  destruct (hex_string_plain _ Hm) as (_ & _ & _ & ->), (hex_string_plain _ H0) as (_ & _ & _ & ->), (hex_string_plain _ H1) as (_ & _ & _ & ->).
  rewrite <-(optional_matches_spec _ rtmr2), <-(optional_matches_spec _ rtmr3) by done.
  do 3 (case_bool_decide; cbn [negb orb]; [|by split; [|intros (? & ? & ? & _)]]).
  rewrite andb_true_iff. tauto.
Qed.

(** The SVN of a migration TD is the one of the first mapping whose MRTD,
    RTMR0 and RTMR1, read as hexadecimal text in either case, are the measured
    ones, and whose RTMR2 and RTMR3, where it gives them, are known and equal;
    there is none exactly when no mapping describes the measurements. *)
Theorem engine_svn_exact t mrtd rtmr0 rtmr1 rtmr2 rtmr3 :
  bytes_ok mrtd → bytes_ok rtmr0 → bytes_ok rtmr1 → (∀ b, rtmr2 = Some b → bytes_ok b) → (∀ b, rtmr3 = Some b → bytes_ok b) →
  match get_engine_svn_by_measurements t (new_from_bytes mrtd rtmr0 rtmr1 rtmr2 rtmr3) with
  | Some svn => ∃ l1 m l2, tm_svn_mappings t = l1 ++ m :: l2 ∧ sm_isvsvn m = svn ∧
      describes (sm_td_measurements m) mrtd rtmr0 rtmr1 rtmr2 rtmr3 ∧
      Forall (λ m, ¬ describes (sm_td_measurements m) mrtd rtmr0 rtmr1 rtmr2 rtmr3) l1
  | None => Forall (λ m, ¬ describes (sm_td_measurements m) mrtd rtmr0 rtmr1 rtmr2 rtmr3) (tm_svn_mappings t)
  end.
Proof.
  intros Hm H0 H1 H2 H3. unfold get_engine_svn_by_measurements. induction (tm_svn_mappings t) as [|m l IH]; [constructor|].
  cbn [find_svn]. pose proof (compare_measurements_spec (sm_td_measurements m) _ _ _ _ _ Hm H0 H1 H2 H3) as Hc.
  destruct (compare_measurements _ _).
  - exists [], m, l. split_and!; [done..|by apply Hc|constructor].
  - assert (¬ describes (sm_td_measurements m) mrtd rtmr0 rtmr1 rtmr2 rtmr3) as Hn by (intros ?%Hc; done).
    destruct (find_svn l _) as [svn|]; [|by constructor].
    destruct IH as (l1 & m' & l2 & -> & Hs & Hd & Hf). exists (m :: l1), m', l2. split_and!; try done. by constructor.
Qed.

(** The digits are read by [u8::from_str_radix], which also takes a sign. *)
Lemma hex_accepts_plus : hex_string_to_bytes "+1" = Ok [1].
Proof. vm_compute. reflexivity. Qed.

(** ** Witnesses *)

Definition demo_status : PolicyProperty := mkProperty "allow-list" (Reference.StringList ["UpToDate"; "ConfigurationNeeded"]).
Definition demo_tcb : TcbPolicy :=
  mkTcbPolicy (Some (mkProperty "greater-or-equal" (Reference.String "2025-01-01T00:00:00Z"))) (Some demo_status)
    (Some (mkProperty "greater-or-equal" (Reference.String "self"))).
Definition demo_global : GlobalPolicy :=
  mkGlobal (Some demo_tcb) (Some (mkPlatformPolicy (Some (mkProperty "allow-list" (Reference.StringList ["10C06F000000"]))))) None.
Definition demo_block : list PolicyTypes :=
  [Global demo_global; Servtd (mkIdentityPolicy (Some (mkProperty "greater-or-equal" (Reference.Integer 3))) None (Some demo_status))].
Definition demo_info (number svn : Z) (date status : string) : PolicyEvaluationInfo :=
  mkInfo None (Some date) (Some status) (Some number) (Some [16; 0xC0; 0x6F; 0; 0; 0]) (Some svn) (Some "OutOfDate") None None None.
Definition demo_old : PolicyEvaluationInfo := demo_info 15 3 "2025-06-15T12:00:00Z" "ConfigurationNeeded".
Definition demo_new : PolicyEvaluationInfo := demo_info 18 4 "2025-09-01T00:00:00Z" "UpToDate".

Lemma demo_old_accepted : evaluate_policy_block demo_old demo_old demo_block false = Ok tt.
Proof. vm_compute. reflexivity. Qed.

Lemma demo_upgrade : upgrade demo_old demo_new.
Proof.
  split; intros a; cbn; (intros [= <-]; eexists; (split; [reflexivity|])) || done; try (unfold Z.le; done); try reflexivity.
  - intros t Ht. exists TcbStatus.UpToDate. split; [done|]. by destruct t.
  - intros t Ht. by exists t.
Qed.

Lemma demo_lower_bounds : Forall lower_bounds demo_block.
Proof.
  repeat (apply Forall_cons; split); [split|split|constructor].
  - intros t [= <-]. split; by intros q [= <-].
  - done.
  - by intros q [= <-].
  - done.
Qed.

Lemma policy_upgrade_accepted_witness : evaluate_policy_block demo_new demo_old demo_block false = Ok tt.
Proof. exact (policy_upgrade_accepted demo_old demo_new demo_old demo_block false demo_lower_bounds demo_upgrade demo_old_accepted). Defined.

Lemma policy_revoked_rejected_witness :
  ∃ s, tcb_status demo_old = Some (TcbStatus.as_str s) ∧ s ≠ TcbStatus.Revoked.
Proof.
  apply (proj1 (policy_revoked_rejected demo_old demo_old demo_block false demo_old_accepted) demo_global demo_tcb eq_refl).
  - left.
  - reflexivity.
  - eexists. reflexivity.
Defined.

Lemma hex_roundtrip_witness : hex_string_to_bytes (bytes_to_hex_string [16; 192; 111; 0]) = Ok [16; 192; 111; 0].
Proof. apply hex_roundtrip; [repeat constructor; unfold in_u; lia|discriminate]. Defined.

Definition demo_mapping : TdTcbMapping :=
  mkTdTcbMapping "MigTD" 1 "2025" "2026" "" 0
    [mkSvnMapping (mkMeasurements "ff01" "AA" "BB" None (Some "cc")) 7; mkSvnMapping (mkMeasurements "ff00" "aA" "bb" None (Some "CC")) 5].

Lemma engine_svn_exact_witness :
  get_engine_svn_by_measurements demo_mapping (new_from_bytes [255; 0] [170] [187] None (Some [204])) = Some 5 ∧
  ∃ l1 m l2, tm_svn_mappings demo_mapping = l1 ++ m :: l2 ∧ sm_isvsvn m = 5 ∧
    describes (sm_td_measurements m) [255; 0] [170] [187] None (Some [204]) ∧
    Forall (λ m, ¬ describes (sm_td_measurements m) [255; 0] [170] [187] None (Some [204])) l1.
Proof.
  split; [vm_compute; reflexivity|].
  refine (engine_svn_exact demo_mapping [255; 0] [170] [187] None (Some [204]) _ _ _ _ _);
    try (repeat constructor; unfold in_u; lia); intros b [= <-]; repeat constructor; unfold in_u; lia.
Defined.
