(* ===== verification/Quote.v ===== *)
(** * Quote: generating a quote with retries

    src/migtd/src/quote.rs.  The TDX module and the quoting service are a script
    of answers; every request to the service and every delay is recorded.  The
    loop makes at most [MAX_RETRIES + 1] rounds, which is its fuel. *)
From stdpp Require Import base tactics numbers list list_numbers option.
From S2P Require Import Prelude MigData.
Local Open Scope Z_scope.

(** Shorter for testing with the emulator. *)
Definition INITIAL_DELAY_MS `{Features} : Z := if AzCVMEmu then 20 else 1000.
Definition MAX_RETRIES : Z := 5.

Module QuoteError.
Inductive t := ReportGenerationFailed | QuoteGenerationFailed.
End QuoteError.

(** What the service answers: a quote, that it is busy, or another error. *)
Inductive quote_answer := Quote (q : bytes) | Busy | QuoteFailed.

(** The reports the TDX module will give for the data they are asked with ([None]
    is an error), the answers of the service, the reports it was sent and the
    delays made, oldest first.  A script that has ended answers with an error. *)
Record QuoteWorld := mkQuoteWorld {
  q_reports : list (bytes → option bytes); q_answers : list quote_answer; q_asked : list bytes; q_delays : list Z }.

Definition tdcall_report (additional_data : bytes) : M QuoteWorld (aerr QuoteError.t) bytes := λ w,
  match q_reports w with
  | f :: l =>
      (match f additional_data with Some r => Ok r | None => Err (Failed QuoteError.ReportGenerationFailed) end,
       mkQuoteWorld l (q_answers w) (q_asked w) (q_delays w))
  | [] => (Err (Failed QuoteError.ReportGenerationFailed), w)
  end.

Definition get_quote (report : bytes) : M QuoteWorld (aerr QuoteError.t) quote_answer := λ w,
  let w' l := mkQuoteWorld (q_reports w) l (q_asked w ++ [report]) (q_delays w) in
  match q_answers w with
  | a :: l => (Ok a, w' l)
  | [] => (Ok QuoteFailed, w' [])
  end.

Definition delay_milliseconds (ms : Z) : M QuoteWorld (aerr QuoteError.t) unit :=
  modifyS (λ w, mkQuoteWorld (q_reports w) (q_answers w) (q_asked w) (q_delays w ++ [ms])).

Fixpoint quote_loop (additional_data : bytes) (fuel : nat) (attempt busy_delay_ms : Z) : M QuoteWorld (aerr QuoteError.t) (bytes * bytes) :=
  match fuel with
  | O => failM OutOfFuel
  | S f =>
      report_bytes ← tdcall_report additional_data;
      a ← get_quote report_bytes;
      match a with
      | Quote q => mret (q, report_bytes)
      | Busy =>
          attempt ← or_panic (add_u 32 attempt 1);
          _ ← err_if (MAX_RETRIES <? attempt) (Failed QuoteError.QuoteGenerationFailed);
          _ ← delay_milliseconds busy_delay_ms;
          busy_delay_ms ← or_panic (checked_mul 64 busy_delay_ms 2);
          quote_loop additional_data f attempt busy_delay_ms
      | QuoteFailed => failM (Failed QuoteError.QuoteGenerationFailed)
      end
  end.

Definition get_quote_with_retry `{Features} (additional_data : bytes) : M QuoteWorld (aerr QuoteError.t) (bytes * bytes) :=
  quote_loop additional_data (S (Z.to_nat MAX_RETRIES)) 0 INITIAL_DELAY_MS.

(** ** Specification *)

(** The delays of the first [n] retries. *)
Fixpoint backoff (n : nat) (d : Z) : list Z := match n with O => [] | S n => d :: backoff n (2 * d) end.

Lemma sum_backoff n d : foldr Z.add 0 (backoff n d) = d * (2 ^ Z.of_nat n - 1).
Proof.
  revert d. induction n as [|n IH]; intros d; cbn [backoff foldr]; [lia|].
  rewrite IH, Nat2Z.inj_succ, Z.pow_succ_r by lia. lia.
Qed.

(** The result of a run after [k] busy answers: each round asks once, each busy
    answer but the last is followed by the next delay. *)
Lemma quote_loop_spec ad fuel a d w o w' :
  0 <= a → a + Z.of_nat fuel = MAX_RETRIES + 1 → 0 < d → d * 2 ^ Z.of_nat fuel < 2 ^ 64 →
  (fuel ≠ 0)%nat → quote_loop ad fuel a d w = (o, w') →
  o ≠ Panic ∧ o ≠ Err OutOfFuel ∧ o ≠ Err Pending ∧
  (∃ n, (n < fuel)%nat ∧ q_delays w' = q_delays w ++ backoff n d) ∧
  (∃ asked, q_asked w' = q_asked w ++ asked ∧ (length asked <= fuel)%nat ∧
     ∀ q r, o = Ok (q, r) → (∃ pre, asked = pre ++ [r]) ∧ Quote q ∈ q_answers w ∧ ∃ f, f ∈ q_reports w ∧ f ad = Some r).
Proof.
  revert a d w. induction fuel as [|f IH]; intros a d w Ha Hf Hd Hb Hne E; [done|]. clear Hne.
  assert (Z.of_nat (S f) = Z.of_nat f + 1) as HS by lia. rewrite HS in *. rewrite Z.pow_add_r in Hb by lia. change (2 ^ 1) with 2 in Hb.
  pose proof (Z.pow_pos_nonneg 2 (Z.of_nat f) ltac:(lia) ltac:(lia)) as Hp.
  assert (∀ asked : list bytes, ∃ n, (n < S f)%nat ∧ q_delays w = q_delays w ++ backoff n d) as Hnil.
  { intros _. exists 0%nat. split; [lia|]. cbn. by rewrite app_nil_r. }
  cbn [quote_loop] in E. unfold tdcall_report, get_quote, mbind, M_bind in E.
  destruct (q_reports w) as [|rf reps] eqn:Er; cbn in E; [|destruct (rf ad) as [r|] eqn:Erf; cbn in E].
  1,3: injection E as <- <-; split_and!; try done; [by apply (Hnil [])|exists []; cbn; rewrite app_nil_r; split_and!; [done|lia|done]].
  destruct (q_answers w) as [|[q| |] ans] eqn:Ea; cbn [q_answers q_reports q_asked q_delays] in E; rewrite ?Ea in E; cbn in E.
  1,4: injection E as <- <-; split_and!; try done; [by apply (Hnil [])|exists [r]; cbn; split_and!; [done|lia|done]].
  { injection E as <- <-; split_and!; try done; [by apply (Hnil [])|]. exists [r]. cbn. split_and!; [done|lia|].
    intros ? ? [= <- <-]. split; [by exists []|]. split; [left|]. exists rf. split; [left|done]. }
  unfold add_u, checked_add in E. rewrite (proj2 (Z.ltb_lt (a + 1) (2 ^ 32))) in E by (unfold MAX_RETRIES in *; lia).
  cbn [or_panic mret M_ret] in E. unfold err_if in E. destruct (MAX_RETRIES <? a + 1) eqn:Em.
  { injection E as <- <-; split_and!; try done; [by apply (Hnil [])|exists [r]; cbn; split_and!; [done|lia|done]]. }
  apply Z.ltb_ge in Em. cbn in E. unfold checked_mul in E. rewrite (proj2 (Z.ltb_lt (d * 2) (2 ^ 64))) in E by nia. cbn in E.
  destruct (IH (a + 1) (d * 2) _ ltac:(lia) ltac:(lia) ltac:(lia) ltac:(lia) ltac:(lia) E) as (N1 & N2 & N3 & (n & Hn & Hdel) & (asked & Hask & Hlen & Hok)).
  cbn [q_delays q_asked q_answers] in *. split_and!; try done.
  - exists (S n). split; [lia|]. rewrite Hdel, <-app_assoc. cbn. by rewrite Z.mul_comm.
  - exists (r :: asked). rewrite Hask, <-app_assoc. split_and!; [done|cbn; lia|].
    intros q x Hq. destruct (Hok q x Hq) as (Hl & Hin & g & Hg & Hgx). split; [|split; [by right|exists g; split; [by right|done]]].
    destruct Hl as [pre ->]. by exists (r :: pre).
Qed.

(** C39 Generating a quote always ends: it never aborts, asks the service at most
    six times, and the delays are one second, or 20 milliseconds with the emulator,
    and its doublings, 31 times the first together at most; a quote it returns was answered to the report it returns,
    the last one sent, which the TDX module gave for the requested data. *)
Theorem quote_retry_bounded `{F : Features} ad w o w' : get_quote_with_retry ad w = (o, w') →
  o ≠ Panic ∧ o ≠ Err OutOfFuel ∧ o ≠ Err Pending ∧
  (∃ n, (n <= 5)%nat ∧ q_delays w' = q_delays w ++ backoff n (if AzCVMEmu then 20 else 1000) ∧
     foldr Z.add 0 (backoff n (if AzCVMEmu then 20 else 1000)) <= if AzCVMEmu then 620 else 31000) ∧
  (∃ asked, q_asked w' = q_asked w ++ asked ∧ (length asked <= 6)%nat ∧
     ∀ q r, o = Ok (q, r) → (∃ pre, asked = pre ++ [r]) ∧ Quote q ∈ q_answers w ∧ ∃ f, f ∈ q_reports w ∧ f ad = Some r).
Proof.
  intros E. unfold get_quote_with_retry, INITIAL_DELAY_MS in E. change (S (Z.to_nat MAX_RETRIES)) with 6%nat in E.
  apply quote_loop_spec in E as (N1 & N2 & N3 & (n & Hn & Hdel) & Hask); [|done|done|by destruct AzCVMEmu..|done]. split_and!; try done.
  exists n. split_and!; [lia|done|]. rewrite sum_backoff.
  assert (2 ^ Z.of_nat n <= 2 ^ 5) as Hle by (apply Z.pow_le_mono_r; lia). change (2 ^ 5) with 32 in Hle. destruct AzCVMEmu; lia.
Qed.

#[local] Instance demo_features : Features := {| vmcall_raw := true; policy_v2 := true; vsock := false; AzCVMEmu := false |}.

Definition demo_world : QuoteWorld := mkQuoteWorld [λ _, Some [1]; λ _, Some [2]; λ ad, Some (3 :: ad)] [Busy; Busy; Quote [9]] [] [].

Definition demo_after : QuoteWorld := Eval vm_compute in (get_quote_with_retry [7] demo_world).2.

Lemma demo_quote_run : get_quote_with_retry [7] demo_world = (Ok ([9], [3; 7]), demo_after).
Proof. vm_compute. reflexivity. Qed.

Lemma quote_retry_bounded_witness :
  ∃ asked, q_asked demo_after = [] ++ asked ∧ (length asked <= 6)%nat ∧
    ∀ q r, Ok ([9], [3; 7]) = @Ok (aerr QuoteError.t) _ (q, r) → (∃ pre, asked = pre ++ [r]) ∧ Quote q ∈ q_answers demo_world ∧ ∃ f, f ∈ q_reports demo_world ∧ f [7] = Some r.
Proof.
  destruct (quote_retry_bounded [7] demo_world (Ok ([9], [3; 7])) demo_after demo_quote_run) as (_ & _ & _ & _ & H). exact H.
Defined.
