(* ===== verification/MigPolicy.v ===== *)
(** * MigPolicy: authenticating a peer against the policy

    src/migtd/src/mig_policy.rs with the feature [policy_v2] and without the
    emulation and test features.  Quote verification, certificates, CRLs, dates
    and TD reports are the class [Attestation]; the local policy and issuer chain
    are arguments; the local quote is generated by Quote. *)
From Stdlib Require Import Ascii.
From stdpp Require Import base tactics numbers list list_numbers option strings.
From S2P Require Import Prelude MigData PreSession ServtdExt EventLog PolicyV2 Quote.
Local Open Scope Z_scope.

Definition SERVTD_ATTR_IGNORE_ATTRIBUTES : Z := 0x100000000.
Definition SERVTD_ATTR_IGNORE_XFAM : Z := 0x200000000.
Definition SERVTD_ATTR_IGNORE_MRTD : Z := 0x400000000.
Definition SERVTD_ATTR_IGNORE_MRCONFIGID : Z := 0x800000000.
Definition SERVTD_ATTR_IGNORE_MROWNER : Z := 0x1000000000.
Definition SERVTD_ATTR_IGNORE_MROWNERCONFIG : Z := 0x2000000000.
Definition SERVTD_ATTR_IGNORE_RTMR0 : Z := 0x4000000000.
Definition SERVTD_ATTR_IGNORE_RTMR1 : Z := 0x8000000000.
Definition SERVTD_ATTR_IGNORE_RTMR2 : Z := 0x10000000000.
Definition SERVTD_ATTR_IGNORE_RTMR3 : Z := 0x20000000000.

(** The fields of a TDINFO_STRUCT of 512 bytes, as in the TDX module. *)
Definition TI_ATTRIBUTES : Z * Z := (0, 8).
Definition TI_XFAM : Z * Z := (8, 16).
Definition TI_MRTD : Z * Z := (16, 64).
Definition TI_MRCONFIGID : Z * Z := (64, 112).
Definition TI_MROWNER : Z * Z := (112, 160).
Definition TI_MROWNERCONFIG : Z * Z := (160, 208).
Definition TI_RTMR0 : Z * Z := (208, 256).
Definition TI_RTMR1 : Z * Z := (256, 304).
Definition TI_RTMR2 : Z * Z := (304, 352).
Definition TI_RTMR3 : Z * Z := (352, 400).

(** A TD report: the MAC structure with the data and the two hashes it carries,
    the TEE TCB information with its SVN, and the TDINFO_STRUCT. *)
Record TdxReport := mkTdxReport {
  report_mac : bytes; rm_report_data : bytes; rm_tee_tcb_info_hash : bytes; rm_tee_info_hash : bytes;
  tee_tcb_info : bytes; tr_tee_tcb_svn : bytes; td_info : bytes }.

(** [attestation::Collateral], whose texts are C strings. *)
Record AttCollateral := mkAttCollateral {
  ac_major_version : Z; ac_minor_version : Z; ac_tee_type : Z; ac_pck_crl_issuer_chain : string;
  ac_root_ca_crl : string; ac_pck_crl : string; ac_tcb_info_issuer_chain : string; ac_tcb_info : string;
  ac_qe_identity_issuer_chain : string; ac_qe_identity : string }.

(** What the policy checks use of other crates.  [verify_quote_with_collaterals] is
    the quote verifier of the attestation library, [tdcall_verify_report] answers for
    a MAC structure, [iso8601] is the date format of chrono.  The certificate readers
    [get_fmspc_from_quote], [get_crl_number], [pem_cert_to_der] and
    [get_policy_signer_key_hash] are those of X509 ([x509_attestation] of RaTlsSpec),
    which never abort; [None] is any error of theirs. *)
Class Attestation := {
  get_fmspc_from_quote : bytes → option bytes;
  verify_quote_with_collaterals : bytes → AttCollateral → option bytes;
  get_crl_number : bytes → option Z;
  iso8601 : Z → option string;
  pem_cert_to_der : bytes → option bytes;
  get_policy_signer_key_hash : bytes → option bytes;
  TdxReport_read_from_bytes : bytes → option TdxReport;
  TdxReport_as_bytes : TdxReport → bytes;
  tdcall_verify_report : bytes → bool;
  length_td_info bs r : TdxReport_read_from_bytes bs = Some r → lenz (td_info r) = TD_INFO_SIZE;
  length_report_data bs r : TdxReport_read_from_bytes bs = Some r → lenz (rm_report_data r) = 64;
  read_as_bytes bs r : TdxReport_read_from_bytes bs = Some r → TdxReport_read_from_bytes (TdxReport_as_bytes r) = Some r }.

(** [map_err(|_| e)] *)
Definition map_err {A} (e : PolicyError.t) (r : PResult A) : PResult A :=
  match r with Ok a => Ok a | Err _ => Err e | Panic => Panic end.

(** [map_err(|_| e)] on an error without information. *)
Definition map_unit {A} (e : PolicyError.t) (r : outcome unit A) : PResult A :=
  match r with Ok a => Ok a | Err _ => Err e | Panic => Panic end.

(** ** Reading reports *)

Definition get_rtmrs_from_suppl_data (suppl_data : bytes) : PResult (list bytes) :=
  if lenz suppl_data <? REPORT_DATA_SIZE then Err PolicyError.InvalidParameter
  else collect (range_of suppl_data) [R_MIGTD_RTMR0; R_MIGTD_RTMR1; R_MIGTD_RTMR2; R_MIGTD_RTMR3].

Definition get_rtmrs_from_tdinfo (ti : bytes) : PResult (list bytes) :=
  collect (range_of ti) [TI_RTMR0; TI_RTMR1; TI_RTMR2; TI_RTMR3].

Definition get_rtmrs_from_tdreport (td_report : TdxReport) : PResult (list bytes) := get_rtmrs_from_tdinfo (td_info td_report).

Fixpoint until_null (bs : bytes) : bytes :=
  match bs with [] => [] | b :: bs' => if b =? 0 then [] else b :: until_null bs' end.

Definition slice_to_string_null_terminated (bs : bytes) : PResult string :=
  or_err (from_utf8 (until_null bs)) PolicyError.InvalidParameter.

(** [CString::new] *)
Definition cstring (s : string) : PResult string :=
  if bool_decide (0 ∈ as_bytes s) then Err PolicyError.InvalidCollateral else Ok s.

Definition convert_collateral_to_cstring (c : Collateral) : PResult AttCollateral :=
  f1 ← cstring (co_pck_crl_issuer_chain c);
  f2 ← cstring (co_root_ca_crl c);
  f3 ← cstring (co_pck_crl c);
  f4 ← cstring (co_tcb_info_issuer_chain c);
  f5 ← cstring (co_tcb_info c);
  f6 ← cstring (co_qe_identity_issuer_chain c);
  f7 ← cstring (co_qe_identity c);
  Ok (mkAttCollateral (co_major_version c) (co_minor_version c) (co_tee_type c) f1 f2 f3 f4 f5 f6 f7).

(** ** The initial TDINFO_STRUCT *)

(** [field.fill(0)] *)
Definition fill_zero (b : bytes) (r : Z * Z) : bytes :=
  take (Z.to_nat r.1) b ++ zeros (r.2 - r.1) ++ drop (Z.to_nat r.2) b.

Definition IGNORE_MASKS : list (Z * (Z * Z)) :=
  [(SERVTD_ATTR_IGNORE_ATTRIBUTES, TI_ATTRIBUTES); (SERVTD_ATTR_IGNORE_XFAM, TI_XFAM);
   (SERVTD_ATTR_IGNORE_MRTD, TI_MRTD); (SERVTD_ATTR_IGNORE_MRCONFIGID, TI_MRCONFIGID);
   (SERVTD_ATTR_IGNORE_MROWNER, TI_MROWNER); (SERVTD_ATTR_IGNORE_MROWNERCONFIG, TI_MROWNERCONFIG);
   (SERVTD_ATTR_IGNORE_RTMR0, TI_RTMR0); (SERVTD_ATTR_IGNORE_RTMR1, TI_RTMR1);
   (SERVTD_ATTR_IGNORE_RTMR2, TI_RTMR2); (SERVTD_ATTR_IGNORE_RTMR3, TI_RTMR3)].

(** The ten conditional fills, in order. *)
Definition apply_masks (servtd_attr : Z) (ti : bytes) : bytes :=
  foldl (λ ti m, if Z.land servtd_attr m.1 =? 0 then ti else fill_zero ti m.2) ti IGNORE_MASKS.

Definition verify_peer_init_tdinfo_against_owner (peer_init_td_info peer_mrowner peer_mrownerconfig : bytes) : PResult unit :=
  if negb (lenz peer_init_td_info =? TD_INFO_SIZE) || negb (lenz peer_mrowner =? 48) || negb (lenz peer_mrownerconfig =? 48)
  then Err PolicyError.InvalidParameter
  else
    match td_info_mrowner peer_init_td_info, td_info_mrownerconfig peer_init_td_info with
    | Some init_mrowner, Some init_mrownerconfig =>
        if negb (bool_decide (init_mrowner = peer_mrowner)) then Err PolicyError.PolicyHashMismatch
        else if negb (bool_decide (drop 4 init_mrownerconfig = zeros 44)) then Err PolicyError.InvalidParameter
        else if negb (bool_decide (drop 4 peer_mrownerconfig = zeros 44)) then Err PolicyError.InvalidParameter
        else if le_val (take 4 peer_mrownerconfig) <? le_val (take 4 init_mrownerconfig) then Err PolicyError.SvnMismatch
        else Ok tt
    | _, _ => Panic
    end.

Definition verify_peer_init_tdinfo_against_suppl_data (peer_init_td_info verified_suppl_data : bytes) : PResult unit :=
  if lenz verified_suppl_data <? REPORT_DATA_SIZE then Err PolicyError.InvalidParameter
  else
    mrowner ← range_of verified_suppl_data R_MIGTD_MROWNER;
    mrownerconfig ← range_of verified_suppl_data R_MIGTD_MROWNERCONFIG;
    verify_peer_init_tdinfo_against_owner peer_init_td_info mrowner mrownerconfig.

Section hash.
Context (digest_sha384 : bytes → option bytes).

Definition verify_servtd_info_hash (tdinfo_bytes : bytes) (servtd_attr : Z) (expected : bytes) : PResult bytes :=
  if lenz tdinfo_bytes <? TD_INFO_SIZE then Err PolicyError.InvalidParameter
  else
    let td_info := apply_masks servtd_attr (take (Z.to_nat TD_INFO_SIZE) tdinfo_bytes) in
    info_hash ← or_err (digest_sha384 td_info) PolicyError.HashCalculation;
    if negb (bool_decide (info_hash = expected)) then Err PolicyError.InvalidTdReport else Ok td_info.

Definition verify_init_tdinfo (init_tdinfo : bytes) (servtd_ext : ServtdExt) : PResult bytes :=
  verify_servtd_info_hash init_tdinfo (le_val (init_attr servtd_ext)) (init_servtd_info_hash servtd_ext).

End hash.

(** ** Authentication *)

Section auth.
Context `{PolicyJson} `{PolicyCrypto} `{Attestation} `{CcLog} {FT : Features} (digest_sha384 : bytes → option bytes).

(** [VERIFIED_POLICY] and the policy issuer chain of the configuration volume. *)
Context (VERIFIED_POLICY : option VerifiedPolicy) (local_issuer_chain : option bytes).

Definition get_verified_policy : PResult VerifiedPolicy := or_err VERIFIED_POLICY PolicyError.InvalidParameter.

Definition get_policy_issuer_chain : PResult bytes := or_err local_issuer_chain PolicyError.InvalidParameter.

Definition verify_quote (quote : bytes) (collaterals : Collaterals) : PResult (bytes * bytes) :=
  f ← or_err (get_fmspc_from_quote quote) PolicyError.InvalidQuote;
  collateral ← get_collateral_with_fmspc f collaterals;
  collateral_cstr ← convert_collateral_to_cstring collateral;
  suppl_data ← or_err (verify_quote_with_collaterals quote collateral_cstr) PolicyError.QuoteVerification;
  Ok (f, suppl_data).

Definition unix_to_iso8601 (unix_timestamp : Z) : PResult string := or_err (iso8601 unix_timestamp) PolicyError.InvalidParameter.

Definition get_tcb_date_and_status_from_suppl_data (suppl_data : bytes) : PResult (string * string) :=
  if lenz suppl_data <? REPORT_DATA_SIZE then Err PolicyError.InvalidParameter
  else
    tcb_date_bytes ← range_of suppl_data R_TCB_DATE;
    tcb_status_bytes ← range_of suppl_data R_TCB_STATUS;
    tcb_status ← slice_to_string_null_terminated tcb_status_bytes;
    date ← unix_to_iso8601 (le_val tcb_date_bytes);
    Ok (date, tcb_status).

Definition setup_evaluation_data (f suppl_data : bytes) (policy : VerifiedPolicy) (collaterals : Collaterals) : PResult PolicyEvaluationInfo :=
  ds ← get_tcb_date_and_status_from_suppl_data suppl_data;
  collateral ← get_collateral_with_fmspc f collaterals;
  number ← get_tcb_evaluation_number_from_collateral collateral;
  report_value ← Report_new suppl_data;
  let migtd_svn := get_engine_svn_by_report (servtd_tcb_mapping policy) report_value in
  let migtd_tcb := svn ← migtd_svn; get_tcb_level_by_svn (servtd_identity policy) svn in
  pck ← or_err (get_crl_number (as_bytes (cs_pck_crl collaterals))) PolicyError.InvalidCollateral;
  root ← or_err (get_crl_number (as_bytes (cs_root_ca_crl collaterals))) PolicyError.InvalidCollateral;
  Ok (mkInfo None (Some ds.1) (Some ds.2) (Some number) (Some f) migtd_svn
        (tl_tcb_status <$> migtd_tcb) (tl_tcb_date <$> migtd_tcb) (Some pck) (Some root)).

Definition setup_evaluation_data_with_tdreport (tdreport : TdxReport) (policy : VerifiedPolicy) : PResult PolicyEvaluationInfo :=
  mrtd ← range_of (td_info tdreport) TI_MRTD;
  rtmr0 ← range_of (td_info tdreport) TI_RTMR0;
  rtmr1 ← range_of (td_info tdreport) TI_RTMR1;
  let migtd_svn := get_engine_svn_by_measurements (servtd_tcb_mapping policy) (new_from_bytes mrtd rtmr0 rtmr1 None None) in
  let migtd_tcb := svn ← migtd_svn; get_tcb_level_by_svn (servtd_identity policy) svn in
  Ok (mkInfo (Some (tr_tee_tcb_svn tdreport)) None None None None migtd_svn
        (tl_tcb_status <$> migtd_tcb) (tl_tcb_date <$> migtd_tcb) None None).

Definition verify_tdreport (tdreport : bytes) : PResult TdxReport :=
  tdx_report ← or_err (TdxReport_read_from_bytes tdreport) PolicyError.InvalidTdReport;
  _ ← require (tdcall_verify_report (report_mac tdx_report)) PolicyError.TdReportVerification;
  tdinfo_hash ← or_err (digest_sha384 (td_info tdx_report)) PolicyError.HashCalculation;
  tee_tcb_info_hash ← or_err (digest_sha384 (tee_tcb_info tdx_report)) PolicyError.HashCalculation;
  let validity := bool_decide (rm_tee_tcb_info_hash tdx_report = tee_tcb_info_hash)
                  && negb (bool_decide (rm_tee_info_hash tdx_report = zeros 48))
                  && bool_decide (rm_tee_info_hash tdx_report = tdinfo_hash) in
  if negb validity then Err PolicyError.InvalidTdReport else Ok tdx_report.

Definition verify_policy_and_event_log (event_log mig_policy policy_issuer_chain : bytes) (rtmrs : list bytes) : PResult VerifiedPolicy :=
  unverified_policy ← deserialize_from_json mig_policy;
  _ ← map_unit PolicyError.InvalidEventLog (verify_event_log digest_sha384 event_log rtmrs);
  verified_policy ← verify unverified_policy policy_issuer_chain;
  local_policy ← get_verified_policy;
  local_chain ← get_policy_issuer_chain;
  _ ← require (validate_peer_cert_chain local_chain (as_bytes (PolicyV2.policy_issuer_chain verified_policy))) PolicyError.PeerCertChainValidation;
  _ ← require (validate_peer_cert_chain (as_bytes (vp_servtd_identity_issuer_chain local_policy))
                 (as_bytes (vp_servtd_identity_issuer_chain verified_policy))) PolicyError.PeerCertChainValidation;
  _ ← require (validate_peer_cert_chain (as_bytes (vp_servtd_tcb_mapping_issuer_chain local_policy))
                 (as_bytes (vp_servtd_tcb_mapping_issuer_chain verified_policy))) PolicyError.PeerCertChainValidation;
  events ← map_unit PolicyError.InvalidEventLog (parse_events event_log);
  _ ← check_policy_integrity digest_sha384 mig_policy events;
  Ok verified_policy.

Definition authenticate_remote_common (quote event_log mig_policy policy_issuer_chain : bytes) :
  PResult (PolicyEvaluationInfo * VerifiedPolicy * bytes) :=
  policy ← get_verified_policy;
  fs ← map_err PolicyError.QuoteVerification (verify_quote quote (get_collaterals policy));
  rtmrs ← get_rtmrs_from_suppl_data fs.2;
  verified_policy ← verify_policy_and_event_log event_log mig_policy policy_issuer_chain rtmrs;
  evaluation_data ← setup_evaluation_data fs.1 fs.2 verified_policy (get_collaterals policy);
  Ok (evaluation_data, verified_policy, fs.2).

Definition authenticate_rebinding_common (tdreport event_log mig_policy policy_issuer_chain : bytes) :
  PResult (PolicyEvaluationInfo * VerifiedPolicy * TdxReport) :=
  tdreport_verified ← verify_tdreport tdreport;
  rtmrs ← get_rtmrs_from_tdreport tdreport_verified;
  verified_policy ← verify_policy_and_event_log event_log mig_policy policy_issuer_chain rtmrs;
  evaluation_data ← setup_evaluation_data_with_tdreport tdreport_verified verified_policy;
  Ok (evaluation_data, verified_policy, tdreport_verified).

Notation PM := (M QuoteWorld PolicyError.t).

(** [get_quote_with_retry] with the errors of this module. *)
Definition local_quote : PM bytes := λ w,
  match get_quote_with_retry (zeros 64) w with
  | (Ok (quote, _), w') => (Ok quote, w')
  | (Err (Failed QuoteError.ReportGenerationFailed), w') => (Err PolicyError.GetTdxReport, w')
  | (Err _, w') => (Err PolicyError.QuoteGeneration, w')
  | (Panic, w') => (Panic, w')
  end.

Definition get_local_tcb_evaluation_info : PM PolicyEvaluationInfo :=
  policy ← liftO get_verified_policy;
  quote ← local_quote;
  fs ← liftO (verify_quote quote (get_collaterals policy));
  liftO (setup_evaluation_data fs.1 fs.2 policy (get_collaterals policy)).

Definition authenticate_migration_dest (quote_dst event_log_dst mig_policy_dst policy_issuer_chain : bytes) : PM bytes :=
  c ← liftO (authenticate_remote_common quote_dst event_log_dst mig_policy_dst policy_issuer_chain);
  let '(evaluation_data_dst, verified_policy_dst, suppl_data) := c in
  relative_reference ← get_local_tcb_evaluation_info;
  policy ← liftO get_verified_policy;
  _ ← liftO (evaluate_policy_common (policy_data policy) evaluation_data_dst relative_reference false);
  _ ← liftO (evaluate_policy_forward (policy_data policy) evaluation_data_dst relative_reference false);
  _ ← liftO (evaluate_against_policy (policy_data verified_policy_dst) (policy_data policy));
  mret suppl_data.

Definition authenticate_migration_source (quote_src event_log_src mig_policy_src policy_issuer_chain : bytes) : PM bytes :=
  c ← liftO (authenticate_remote_common quote_src event_log_src mig_policy_src policy_issuer_chain);
  let '(evaluation_data_src, _, suppl_data) := c in
  relative_reference ← get_local_tcb_evaluation_info;
  policy ← liftO get_verified_policy;
  _ ← liftO (evaluate_policy_common (policy_data policy) evaluation_data_src relative_reference false);
  _ ← liftO (evaluate_policy_backward (policy_data policy) evaluation_data_src relative_reference false);
  mret suppl_data.

Definition authenticate_remote (is_src : bool) (quote_peer policy_peer event_log_peer : bytes) : PM bytes :=
  p ← ok_or (decode_peer_data policy_peer) PolicyError.InvalidParameter;
  if is_src then authenticate_migration_dest quote_peer event_log_peer p.1 p.2
  else authenticate_migration_source quote_peer event_log_peer p.1 p.2.

Definition authenticate_rebinding_new (tdreport_dst event_log_dst mig_policy_dst : bytes) : PM bytes :=
  p ← ok_or (decode_peer_data mig_policy_dst) PolicyError.InvalidParameter;
  c ← liftO (authenticate_rebinding_common tdreport_dst event_log_dst p.1 p.2);
  let '(evaluation_data_dst, verified_policy_dst, tdx_report) := c in
  relative_reference ← get_local_tcb_evaluation_info;
  policy ← liftO get_verified_policy;
  _ ← liftO (evaluate_policy_common (policy_data policy) evaluation_data_dst relative_reference true);
  _ ← liftO (evaluate_policy_forward (policy_data policy) evaluation_data_dst relative_reference true);
  _ ← liftO (evaluate_against_policy (policy_data verified_policy_dst) (policy_data policy));
  mret (TdxReport_as_bytes tdx_report).

(** The initial measurements must be in the TCB mapping of the local policy. *)
Definition check_init_measurements (policy : VerifiedPolicy) (init_td_info : bytes) : PResult Z :=
  mrtd ← range_of init_td_info TI_MRTD;
  rtmr0 ← range_of init_td_info TI_RTMR0;
  rtmr1 ← range_of init_td_info TI_RTMR1;
  or_err (get_engine_svn_by_measurements (servtd_tcb_mapping policy) (new_from_bytes mrtd rtmr0 rtmr1 None None)) PolicyError.SvnMismatch.

Definition authenticate_rebinding_old (tdreport_src event_log_src mig_policy_src init_tdinfo servtd_ext_src : bytes) : PM bytes :=
  p ← ok_or (decode_peer_data mig_policy_src) PolicyError.InvalidParameter;
  c ← liftO (authenticate_rebinding_common tdreport_src event_log_src p.1 p.2);
  let '(evaluation_data_src, _, tdx_report) := c in
  policy ← liftO get_verified_policy;
  mrowner ← liftO (range_of (td_info tdx_report) TI_MROWNER);
  mrownerconfig ← liftO (range_of (td_info tdx_report) TI_MROWNERCONFIG);
  _ ← liftO (verify_peer_init_tdinfo_against_owner init_tdinfo mrowner mrownerconfig);
  servtd_ext_src_obj ← ok_or (ext_read_from_bytes servtd_ext_src) PolicyError.InvalidParameter;
  init_td_info ← liftO (verify_init_tdinfo digest_sha384 init_tdinfo servtd_ext_src_obj);
  _ ← liftO (check_init_measurements policy init_td_info);
  relative_reference ← get_local_tcb_evaluation_info;
  _ ← liftO (evaluate_policy_backward (policy_data policy) evaluation_data_src relative_reference true);
  mret (TdxReport_as_bytes tdx_report).

Definition authenticate_migration_source_with_init_tdinfo (quote_src peer_data event_log_src init_tdinfo servtd_ext_src : bytes) : PM bytes :=
  p ← ok_or (decode_peer_data peer_data) PolicyError.InvalidParameter;
  c ← liftO (authenticate_remote_common quote_src event_log_src p.1 p.2);
  let '(evaluation_data_src, _, suppl_data) := c in
  relative_reference ← get_local_tcb_evaluation_info;
  policy ← liftO get_verified_policy;
  _ ← liftO (evaluate_policy_common (policy_data policy) evaluation_data_src relative_reference false);
  _ ← liftO (evaluate_policy_backward (policy_data policy) evaluation_data_src relative_reference false);
  _ ← liftO (verify_peer_init_tdinfo_against_suppl_data init_tdinfo suppl_data);
  servtd_ext_obj ← ok_or (ext_read_from_bytes servtd_ext_src) PolicyError.InvalidParameter;
  init_td_info ← liftO (verify_init_tdinfo digest_sha384 init_tdinfo servtd_ext_obj);
  _ ← liftO (check_init_measurements policy init_td_info);
  mret suppl_data.

(** [own_report] is the TD report of the running TD. *)
Definition verify_own_tdinfo (own_report : option TdxReport) : PResult unit :=
  policy ← get_verified_policy;
  tdx_report ← or_err own_report PolicyError.GetTdxReport;
  mrownerconfig ← range_of (td_info tdx_report) TI_MROWNERCONFIG;
  if negb (bool_decide (mrownerconfig = le_bytes 4 (policy_svn (policy_data policy)) ++ zeros 44)) then Err PolicyError.SvnMismatch
  else
    chain ← get_policy_issuer_chain;
    policy_key_hash ← or_err (get_policy_signer_key_hash chain) PolicyError.InvalidCollateral;
    mrowner ← range_of (td_info tdx_report) TI_MROWNER;
    if negb (bool_decide (mrowner = policy_key_hash)) then Err PolicyError.PolicyHashMismatch else Ok tt.

Definition verify_init_migtd_data_policy_binding (init_td_info : bytes) : PResult unit :=
  policy ← get_verified_policy;
  chain ← get_policy_issuer_chain;
  policy_key_hash ← or_err (get_policy_signer_key_hash chain) PolicyError.InvalidCollateral;
  match td_info_mrowner init_td_info, td_info_mrownerconfig init_td_info with
  | Some mrowner, Some init_mrownerconfig =>
      if negb (bool_decide (mrowner = policy_key_hash)) then Err PolicyError.PolicyHashMismatch
      else if negb (bool_decide (drop 4 init_mrownerconfig = zeros 44)) then Err PolicyError.InvalidParameter
      else if policy_svn (policy_data policy) <? le_val (take 4 init_mrownerconfig) then Err PolicyError.SvnMismatch
      else Ok tt
  | _, _ => Panic
  end.

End auth.

(** ** Initialisation *)

(** The policy that was verified first, and the root CA of the quote library. *)
Record PolicyState := mkPolicyState { ps_verified : option VerifiedPolicy; ps_root_ca : option bytes }.

Definition init_policy `{PolicyJson} `{PolicyCrypto} `{Attestation} (set_ca : bytes → bool) (policy_json cert_chain : bytes) :
  M PolicyState PolicyError.t string :=
  raw ← liftO (deserialize_from_json policy_json);
  verified_policy ← liftO (verify raw cert_chain);
  root_ca_der ← ok_or (pem_cert_to_der (as_bytes (cs_root_ca (get_collaterals verified_policy)))) PolicyError.InvalidCollateral;
  _ ← err_if (negb (set_ca root_ca_der)) PolicyError.InvalidCollateral;
  _ ← modifyS (λ s, mkPolicyState (Some (default verified_policy (ps_verified s))) (Some (default root_ca_der (ps_root_ca s))));
  s ← getS;
  mret (pd_version (policy_data (default verified_policy (ps_verified s)))).
