(* ===== verification/MigPolicySpec.v ===== *)
(** * MigPolicySpec: what an authenticated peer has shown

    Soundness of the authentication of a migration peer and of either side of a
    rebinding: a peer is accepted only with a verified quote or report, an event
    log that replays to it, a signed policy measured in that log, and values the
    local policy accepts (MigPolicy). *)
From Stdlib Require Import Ascii.
From stdpp Require Import base tactics numbers list list_numbers option strings.
From S2P Require Import Prelude MigData PreSession ServtdExt EventLog PolicyV2 PolicyV2Spec Quote MigPolicy.
Local Open Scope Z_scope.

(** ** Running the steps *)

Lemma map_err_Ok {A} e (r : PResult A) a : map_err e r = Ok a ↔ r = Ok a.
Proof. destruct r; cbn; split; congruence. Qed.

Lemma map_unit_Ok {A} e (r : outcome unit A) a : map_unit e r = Ok a ↔ r = Ok a.
Proof. destruct r; cbn; split; congruence. Qed.

Lemma range_of_Ok b r x : range_of b r = Ok x ↔ slice b r.1 r.2 = Some x.
Proof. unfold range_of. destruct (slice b r.1 r.2); split; intros E1; by simplify_eq. Qed.

Section spec.
Context `{J : PolicyJson} `{C : PolicyCrypto} `{A : Attestation} `{L : CcLog} {FT : Features} (sha384 : bytes → option bytes).
Context (Hsha : ∀ x d, sha384 x = Some d → length d = 48%nat).
Context (VP : option VerifiedPolicy) (chain : option bytes).

(** ** The policy event *)

(** An event of the log whose tag is the one of the policy. *)
Definition policy_event (e : CcEventHeader * bytes) : Prop :=
  event_type e.1 = EV_EVENT_TAG ∧ ∃ t, slice e.2 0 4 = Some t ∧ le_val t = TAGGED_EVENT_ID_POLICY.

Lemma parse_event_policy m e m' ce : parse_event m e = Ok m' → event_get m' EventName.MigTdPolicy = Some ce →
  event_get m EventName.MigTdPolicy = Some ce ∨ policy_event e ∧ ce_header ce = e.1.
Proof.
  destruct e as [h data]. unfold parse_event.
  destruct (event_type h =? EV_EFI_PLATFORM_FIRMWARE_BLOB2).
  { destruct (nthz data 0) as [sz|]; [|done]. destruct (slice data 1 _); [|done]. intros [= <-].
    case_bool_decide; cbn; auto. }
  destruct (event_type h =? EV_PLATFORM_CONFIG_FLAGS).
  { destruct (starts_with _ _); [intros [= <-]; cbn; auto|]. destruct (starts_with _ _); [|intros [= <-]; cbn; auto].
    destruct (slice data 16 20); [|done]. destruct (slice data 20 _); [|done]. intros [= <-]; cbn; auto. }
  destruct (event_type h =? EV_EVENT_TAG) eqn:Et; [|intros [= <-]; cbn; auto].
  destruct (slice data 0 4) as [t|] eqn:Es; [|done]. intros [= <-].
  destruct (le_val t =? TAGGED_EVENT_ID_POLICY) eqn:Ep.
  - cbn. intros [= <-]. right. apply Z.eqb_eq in Et, Ep. split; [|done]. split; [done|]. by exists t.
  - destruct (le_val t =? TAGGED_EVENT_ID_ROOT_CA); [cbn; auto|]. destruct (le_val t =? TAGGED_EVENT_ID_POLICY_ISSUER_CHAIN); cbn; auto.
Qed.

Lemma parse_loop_policy l m m' ce : parse_loop m l = Ok m' → event_get m' EventName.MigTdPolicy = Some ce →
  event_get m EventName.MigTdPolicy = Some ce ∨ ∃ e, e ∈ l ∧ policy_event e ∧ ce_header ce = e.1.
Proof.
  revert m. induction l as [|e l IH]; intros m; cbn [parse_loop]; [intros [= <-]; auto|].
  intros (m1 & H1 & H2)%bind_Ok Hg. destruct (IH _ H2 Hg) as [Hg'|(e' & Hin & He)]; [|right; exists e'; split; [by right|done]].
  destruct (parse_event_policy _ _ _ _ H1 Hg') as [?|[? ?]]; [by left|]. right. exists e. split; [left|done].
Qed.

(** [policy] was measured into the log: an event tagged as the policy carries its
    hash, and its register replays to the value in the report. *)
Definition policy_measured (l : list (CcEventHeader * bytes)) (report : list bytes) (policy : bytes) : Prop :=
  replays sha384 l report ∧
  ∃ e i d r, e ∈ l ∧ policy_event e ∧ digest e.1 = d ∧ sha384 policy = Some d ∧ d ∈ digests_of i l ∧
    report !! i = Some r ∧ extend_all sha384 (zeros 48) (digests_of i l) = Some r.

Lemma digest_in_register e l : e ∈ l → valid_index e → digest e.1 ∈ digests_of (Z.to_nat (mr_index e.1 - 1)) l.
Proof.
  intros Hin Hv. unfold digests_of. apply list_elem_of_fmap. exists e. split; [done|].
  apply list_elem_of_filter. split; [unfold valid_index in Hv; lia|done].
Qed.

Lemma policy_measured_intro n l log report policy events :
  read_events log = Some (n, l) → replays sha384 l report → parse_events log = Ok events →
  check_policy_integrity sha384 policy events = Ok tt → policy_measured l report policy.
Proof.
  intros Hr Hrep Hp Hc. split; [done|]. unfold parse_events in Hp. rewrite Hr in Hp.
  unfold check_policy_integrity in Hc. step Hc. unfold verify_event_hash in Hs.
  destruct (event_get events EventName.MigTdPolicy) as [ce|] eqn:Eg; [|by injection Hs as <-].
  step Hs. injection Hs as <-. apply require_Ok, bool_decide_eq_true in Hc as ->.
  destruct (parse_loop_policy _ _ _ _ Hp Eg) as [?|(e & Hin & He & Hh)]; [done|].
  destruct Hrep as (Hv & Hlen & Hd). rewrite Forall_forall in Hv. specialize (Hv e Hin).
  destruct (lookup_lt_is_Some_2 report (Z.to_nat (mr_index e.1 - 1))) as [r Hr']; [unfold valid_index in Hv; lia|].
  exists e, (Z.to_nat (mr_index e.1 - 1)), (digest e.1), r. rewrite Hh in Hs0.
  split_and!; try done; [by apply digest_in_register|by apply Hd].
Qed.

(** ** The common checks *)

(** The peer's policy [vp] is signed, and its chains belong to the local ones. *)
Definition policy_endorsed (lp : VerifiedPolicy) (mig_policy peer_chain : bytes) (vp : VerifiedPolicy) : Prop :=
  ∃ raw local_chain, json_raw_policy mig_policy = Some raw ∧ verify raw peer_chain = Ok vp ∧ chain = Some local_chain ∧
    validate_peer_cert_chain local_chain (as_bytes (policy_issuer_chain vp)) = true ∧
    validate_peer_cert_chain (as_bytes (vp_servtd_identity_issuer_chain lp)) (as_bytes (vp_servtd_identity_issuer_chain vp)) = true ∧
    validate_peer_cert_chain (as_bytes (vp_servtd_tcb_mapping_issuer_chain lp)) (as_bytes (vp_servtd_tcb_mapping_issuer_chain vp)) = true.

Lemma verify_policy_and_event_log_sound log mp pc rtmrs vp :
  verify_policy_and_event_log sha384 VP chain log mp pc rtmrs = Ok vp →
  ∃ lp n l, VP = Some lp ∧ read_events log = Some (n, l) ∧ policy_endorsed lp mp pc vp ∧ policy_measured l rtmrs mp.
Proof.
  intros E. unfold verify_policy_and_event_log in E. do 10 step E. injection E as <-.
  apply map_unit_Ok in Hs0, Hs7.
  destruct (read_events log) as [[n l]|] eqn:Er; [|unfold verify_event_log in Hs0; by rewrite Er in Hs0].
  destruct a0. apply (verify_spec sha384 Hsha _ _ _ _ Er) in Hs0. destruct a8.
  exists a2, n, l. split; [done|]. split; [done|]. split.
  - exists a, a3. by split_and!.
  - by eapply policy_measured_intro.
Qed.

(** The quote is verified with the local collateral for its platform. *)
Definition quote_verified (lp : VerifiedPolicy) (quote f suppl : bytes) : Prop :=
  ∃ c cc, get_fmspc_from_quote quote = Some f ∧ get_collateral_with_fmspc f (get_collaterals lp) = Ok c ∧
    convert_collateral_to_cstring c = Ok cc ∧ verify_quote_with_collaterals quote cc = Some suppl.

Lemma verify_quote_sound quote lp f suppl : verify_quote quote (get_collaterals lp) = Ok (f, suppl) → quote_verified lp quote f suppl.
Proof.
  intros E. unfold verify_quote in E. do 4 step E. assert (a = f ∧ a2 = suppl) as [<- <-] by (by injection E).
  by exists a0, a1.
Qed.

(** The registers of the verified report. *)
Definition suppl_rtmrs (suppl : bytes) (rtmrs : list bytes) : Prop :=
  REPORT_DATA_SIZE <= lenz suppl ∧
  rtmrs = [take 48 (drop 328 suppl); take 48 (drop 376 suppl); take 48 (drop 424 suppl); take 48 (drop 472 suppl)].

Lemma get_rtmrs_sound suppl rtmrs : get_rtmrs_from_suppl_data suppl = Ok rtmrs → suppl_rtmrs suppl rtmrs.
Proof.
  unfold get_rtmrs_from_suppl_data. destruct (lenz suppl <? REPORT_DATA_SIZE) eqn:El; [done|]. apply Z.ltb_ge in El.
  rewrite collect_Ok. intros H. split; [done|].
  do 4 (inversion H as [|? ? ? ? Hx H']; subst; clear H; rename H' into H; apply range_of_Ok in Hx; unfold slice in Hx; cbn in Hx;
        match type of Hx with (if ?c then _ else _) = _ => destruct c; [|done] end; apply (inj Some) in Hx; subst).
  inversion H. done.
Qed.

(** What the authentication of a migration peer establishes. *)
Record peer_attested (lp : VerifiedPolicy) (quote event_log mp pc suppl : bytes) (vp : VerifiedPolicy) (e : PolicyEvaluationInfo) : Prop := {
  pa_quote : ∃ f, quote_verified lp quote f suppl ∧ setup_evaluation_data f suppl vp (get_collaterals lp) = Ok e;
  pa_endorsed : policy_endorsed lp mp pc vp;
  pa_measured : ∃ n l rtmrs, read_events event_log = Some (n, l) ∧ suppl_rtmrs suppl rtmrs ∧ policy_measured l rtmrs mp }.

Lemma remote_common_sound quote log mp pc e vp suppl :
  authenticate_remote_common sha384 VP chain quote log mp pc = Ok (e, vp, suppl) →
  ∃ lp, VP = Some lp ∧ peer_attested lp quote log mp pc suppl vp e.
Proof.
  intros E. unfold authenticate_remote_common in E. do 5 step E. destruct a0 as [f s]. cbn [fst snd] in *.
  assert (a3 = e ∧ a2 = vp ∧ s = suppl) as (<- & <- & <-) by (by injection E). apply map_err_Ok in Hs0.
  destruct (verify_policy_and_event_log_sound _ _ _ _ _ Hs2) as (lp & n & l & Hlp & Hr & Hend & Hm).
  assert (a = lp) as -> by congruence. exists lp. split; [done|]. split; [|done|].
  - exists f. split; [by apply verify_quote_sound|done].
  - exists n, l, a1. split_and!; [done|by apply get_rtmrs_sound|done].
Qed.

(** The local side's own values, from a fresh quote. *)
Definition local_info (lp : VerifiedPolicy) (w w' : QuoteWorld) (rel : PolicyEvaluationInfo) : Prop :=
  ∃ quote report f suppl, get_quote_with_retry (zeros 64) w = (Ok (quote, report), w') ∧ quote_verified lp quote f suppl ∧
    setup_evaluation_data f suppl lp (get_collaterals lp) = Ok rel.

Lemma local_info_sound w w' rel : get_local_tcb_evaluation_info VP w = (Ok rel, w') →
  ∃ lp, VP = Some lp ∧ local_info lp w w' rel.
Proof.
  intros E. unfold get_local_tcb_evaluation_info in E. step E. apply or_err_Ok in Hs. step E. rename Hs0 into Hq.
  step E. apply liftO_Ok in E as [E ->]. exists a. split; [done|]. destruct a1 as [f suppl].
  unfold local_quote in Hq. destruct (get_quote_with_retry (zeros 64) w) as [[[q r]|[[]| |]|] w1] eqn:Eq; try done.
  assert (q = a0 ∧ w1 = s) as [<- <-] by (by injection Hq). exists q, r, f, suppl. split_and!; [done|by apply verify_quote_sound|done].
Qed.

(** The blocks of a policy, when it has them. *)
Definition satisfies (b : option (list PolicyTypes)) (e rel : PolicyEvaluationInfo) (skip_global : bool) : Prop :=
  ∀ block, b = Some block → Forall (accepts_entry e rel skip_global) block.

Lemma evaluate_satisfies b e rel skip :
  when_some b (λ b, evaluate_policy_block e rel b skip) = Ok tt → satisfies b e rel skip.
Proof. intros H block ->. by apply evaluate_block_spec. Qed.

Lemma against_policy_Ok d o : evaluate_against_policy d o = Ok tt → policy_svn o <= policy_svn d.
Proof. unfold evaluate_against_policy. intros H%require_Ok%negb_true_iff%Z.ltb_ge. done. Qed.

Lemma remote_accepts is_src quote pp log w suppl w' :
  authenticate_remote sha384 VP chain is_src quote pp log w = (Ok suppl, w') →
  ∃ lp mp pc vp e rel, VP = Some lp ∧ decode_peer_data pp = Some (mp, pc) ∧
    peer_attested lp quote log mp pc suppl vp e ∧ local_info lp w w' rel ∧
    satisfies (pd_policy (policy_data lp)) e rel false ∧
    satisfies (if is_src then forward_policy (policy_data lp) else backward_policy (policy_data lp)) e rel false ∧
    (is_src = true → policy_svn (policy_data lp) <= policy_svn (policy_data vp)).
Proof.
  intros E. unfold authenticate_remote in E. step E. destruct a as [mp pc]. cbn [fst snd] in E.
  destruct is_src; [unfold authenticate_migration_dest in E|unfold authenticate_migration_source in E];
    step E; destruct a as [[e vp] sup]; destruct (remote_common_sound _ _ _ _ _ _ _ Hs0) as (lp & Hlp & Hatt);
    step E; destruct (local_info_sound _ _ _ Hs1) as (lp' & Hlp' & Hloc); assert (lp' = lp) as -> by congruence;
    step E; apply or_err_Ok in Hs2; assert (a0 = lp) as -> by congruence; do 2 (step E).
  - step E. assert (sup = suppl ∧ s = w') as [<- <-] by (by injection E). destruct a0, a1, a2.
    exists lp, mp, pc, vp, e, a. split_and!; try done; [by apply evaluate_satisfies..|]. intros _. by apply against_policy_Ok.
  - assert (sup = suppl ∧ s = w') as [<- <-] by (by injection E). destruct a0, a1.
    exists lp, mp, pc, vp, e, a. split_and!; try done; by apply evaluate_satisfies.
Qed.

(** C16 A migration peer is accepted only when its quote verifies with the local
    collateral of its platform, its event log replays to the registers of that
    quote, its policy is signed by chains that belong to the local ones and was
    measured into the log, and its values, relative to the local side's own from
    a fresh quote, satisfy the common policy and the forward policy (the peer is
    the destination) or the backward one; a destination's policy is at least as
    new as the local one. *)
Theorem authenticate_remote_sound is_src quote pp log w suppl w' :
  authenticate_remote sha384 VP chain is_src quote pp log w = (Ok suppl, w') →
  ∃ lp mp pc vp e rel, VP = Some lp ∧ decode_peer_data pp = Some (mp, pc) ∧
    peer_attested lp quote log mp pc suppl vp e ∧ local_info lp w w' rel ∧
    satisfies (pd_policy (policy_data lp)) e rel false ∧
    satisfies (if is_src then forward_policy (policy_data lp) else backward_policy (policy_data lp)) e rel false ∧
    (is_src = true → policy_svn (policy_data lp) <= policy_svn (policy_data vp)).
Proof. apply remote_accepts. Qed.

(** ** Rebinding *)

Record report_verified (bs : bytes) (r : TdxReport) : Prop := {
  rv_read : TdxReport_read_from_bytes bs = Some r;
  rv_mac : tdcall_verify_report (report_mac r) = true;
  rv_info : sha384 (td_info r) = Some (rm_tee_info_hash r);
  rv_nonzero : rm_tee_info_hash r ≠ zeros 48;
  rv_tcb : sha384 (tee_tcb_info r) = Some (rm_tee_tcb_info_hash r) }.

Lemma verify_tdreport_sound bs r : verify_tdreport sha384 bs = Ok r → report_verified bs r.
Proof.
  intros E. unfold verify_tdreport in E. do 4 step E. cbv zeta in E.
  destruct (bool_decide (rm_tee_tcb_info_hash a = a2)) eqn:E1; [|done].
  destruct (bool_decide (rm_tee_info_hash a = zeros 48)) eqn:E2; [done|].
  destruct (bool_decide (rm_tee_info_hash a = a1)) eqn:E3; [|done]. cbn in E. injection E as <-.
  apply bool_decide_eq_true in E1, E3. apply bool_decide_eq_false in E2. subst a1 a2. by split.
Qed.

Definition report_rtmrs (ti : bytes) : list bytes :=
  [take 48 (drop 208 ti); take 48 (drop 256 ti); take 48 (drop 304 ti); take 48 (drop 352 ti)].

Lemma range_of_take b r : 0 <= r.1 <= r.2 → r.2 <= lenz b → range_of b r = Ok (take (Z.to_nat (r.2 - r.1)) (drop (Z.to_nat r.1) b)).
Proof.
  intros H1 H2. apply range_of_Ok. unfold slice.
  rewrite (proj2 (Z.leb_le 0 _)), (proj2 (Z.leb_le r.1 _)), (proj2 (Z.leb_le r.2 _)) by lia. done.
Qed.

Lemma rtmrs_of_report bs r : TdxReport_read_from_bytes bs = Some r → get_rtmrs_from_tdreport r = Ok (report_rtmrs (td_info r)).
Proof.
  intros Hr. pose proof (length_td_info _ _ Hr) as Hl. unfold TD_INFO_SIZE in Hl.
  unfold get_rtmrs_from_tdreport, get_rtmrs_from_tdinfo, TI_RTMR0, TI_RTMR1, TI_RTMR2, TI_RTMR3.
  cbn [collect]. rewrite !range_of_take by (cbn [fst snd]; lia). done.
Qed.

(** What either side of a rebinding establishes about the other. *)
Record rebind_attested (lp : VerifiedPolicy) (tdreport event_log mp pc : bytes) (r : TdxReport) (vp : VerifiedPolicy) (e : PolicyEvaluationInfo) : Prop := {
  ra_report : report_verified tdreport r;
  ra_info : setup_evaluation_data_with_tdreport r vp = Ok e;
  ra_endorsed : policy_endorsed lp mp pc vp;
  ra_measured : ∃ n l, read_events event_log = Some (n, l) ∧ policy_measured l (report_rtmrs (td_info r)) mp }.

Lemma rebinding_common_sound tdreport log mp pc e vp r :
  authenticate_rebinding_common sha384 VP chain tdreport log mp pc = Ok (e, vp, r) →
  ∃ lp, VP = Some lp ∧ rebind_attested lp tdreport log mp pc r vp e.
Proof.
  intros E. unfold authenticate_rebinding_common in E. do 4 step E.
  assert (a2 = e ∧ a1 = vp ∧ a = r) as (<- & <- & <-) by (by injection E). apply verify_tdreport_sound in Hs.
  rewrite (rtmrs_of_report tdreport a (rv_read _ _ Hs)) in Hs0. injection Hs0 as <-.
  destruct (verify_policy_and_event_log_sound _ _ _ _ _ Hs1) as (lp & n & l & Hlp & Hr & Hend & Hm).
  exists lp. split; [done|]. split; try done. by exists n, l.
Qed.

(** ** The initial TDINFO_STRUCT *)

(** Byte [k] lies in a field that [attr] says to ignore. *)
Definition masked (attr : Z) (k : nat) : Prop :=
  ∃ m, m ∈ IGNORE_MASKS ∧ Z.land attr m.1 ≠ 0 ∧ m.2.1 <= Z.of_nat k < m.2.2.

#[local] Instance masked_dec attr k : Decision (masked attr k).
Proof.
  destruct (decide (Exists (λ m : Z * (Z * Z), Z.land attr m.1 ≠ 0 ∧ m.2.1 <= Z.of_nat k < m.2.2) IGNORE_MASKS)) as [H|H];
    [left|right]; unfold masked; by rewrite <-Exists_exists.
Defined.

Lemma fill_zero_lookup b r k : 0 <= r.1 <= r.2 → r.2 <= lenz b →
  length (fill_zero b r) = length b ∧
  fill_zero b r !! k = if decide (r.1 <= Z.of_nat k < r.2) then Some 0 else b !! k.
Proof.
  intros H1 H2. unfold lenz in H2. unfold fill_zero, zeros, bytes.
  split; [rewrite !length_app, length_take, length_replicate, length_drop; lia|].
  case_decide as Hk.
  - rewrite lookup_app_r by (rewrite length_take; lia). rewrite lookup_app_l by (rewrite length_replicate, length_take; lia).
    apply lookup_replicate_2. rewrite length_take. lia.
  - destruct (decide (Z.of_nat k < r.1)).
    + rewrite lookup_app_l by (rewrite length_take; lia). apply lookup_take_lt. lia.
    + rewrite lookup_app_r by (rewrite length_take; lia). rewrite lookup_app_r by (rewrite length_replicate, length_take; lia).
      rewrite length_take, length_replicate, lookup_drop. f_equal. lia.
Qed.

Lemma apply_masks_fold (masks : list (Z * (Z * Z))) attr b k : Forall (λ m, 0 <= m.2.1 <= m.2.2 ∧ m.2.2 <= lenz b) masks →
  let b' := foldl (λ ti m, if Z.land attr m.1 =? 0 then ti else fill_zero ti m.2) b masks in
  length b' = length b ∧
  ((∃ m, m ∈ masks ∧ Z.land attr m.1 ≠ 0 ∧ m.2.1 <= Z.of_nat k < m.2.2) → b' !! k = Some 0) ∧
  (¬ (∃ m, m ∈ masks ∧ Z.land attr m.1 ≠ 0 ∧ m.2.1 <= Z.of_nat k < m.2.2) → b' !! k = b !! k).
Proof.
  revert b. induction masks as [|m masks IH] using rev_ind; intros b Hm; cbn zeta.
  { split; [done|]. split; [|done]. intros (m & Hin & _). by apply elem_of_nil in Hin. }
  apply Forall_app in Hm as [Hm Hlast]. inversion Hlast as [|? ? [Hr Hl] _]; subst. rewrite foldl_app. cbn [foldl].
  destruct (IH b Hm) as (Hlen & Hin & Hout). match type of Hlen with length ?x = _ => set (b' := x) in * end.
  destruct (Z.land attr m.1 =? 0) eqn:Ez.
  { apply Z.eqb_eq in Ez. split; [done|]. split.
    - intros (x & [Hx|Hx%list_elem_of_singleton]%elem_of_app & Hz & Hk); [|subst; done]. apply Hin. by exists x.
    - intros Hn. apply Hout. intros (x & Hx & Hz & Hk). apply Hn. exists x. split; [apply elem_of_app; by left|done]. }
  apply Z.eqb_neq in Ez. destruct (fill_zero_lookup b' m.2 k Hr) as [Hlen' Hk']; [unfold lenz in *; lia|].
  split; [lia|]. rewrite Hk'. split.
  - intros (x & [Hx|Hx%list_elem_of_singleton]%elem_of_app & Hz & Hk); case_decide; try done; [|subst; done].
    apply Hin. by exists x.
  - intros Hn. rewrite decide_False.
    + apply Hout. intros (x & Hx & Hz & Hk). apply Hn. exists x. split; [apply elem_of_app; by left|done].
    + intros Hk. apply Hn. exists m. split; [apply elem_of_app; right; by apply list_elem_of_singleton|done].
Qed.

Lemma masks_in_range (b : bytes) : lenz b = TD_INFO_SIZE → Forall (λ m : Z * (Z * Z), 0 <= m.2.1 <= m.2.2 ∧ m.2.2 <= lenz b) IGNORE_MASKS.
Proof. intros ->. unfold TD_INFO_SIZE. repeat constructor; cbn; lia. Qed.

Lemma apply_masks_lookup attr (b : bytes) k : lenz b = TD_INFO_SIZE →
  length (apply_masks attr b) = length b ∧
  (masked attr k → apply_masks attr b !! k = Some 0) ∧ (¬ masked attr k → apply_masks attr b !! k = b !! k).
Proof. intros Hb. exact (apply_masks_fold IGNORE_MASKS attr b k (masks_in_range b Hb)). Qed.

(** The TDINFO_STRUCT [ti] is [init] with the ignored fields cleared, and hashes
    to what the TDX module recorded. *)
Definition info_matches (init : bytes) (attr : Z) (expected ti : bytes) : Prop :=
  TD_INFO_SIZE <= lenz init ∧ lenz ti = TD_INFO_SIZE ∧ sha384 ti = Some expected ∧
  ∀ k, (k < 512)%nat → (masked attr k → ti !! k = Some 0) ∧ (¬ masked attr k → ti !! k = init !! k).

Lemma masked_form (init : bytes) attr ti : TD_INFO_SIZE <= lenz init →
  lenz ti = TD_INFO_SIZE ∧ (∀ k, (k < 512)%nat → (masked attr k → ti !! k = Some 0) ∧ (¬ masked attr k → ti !! k = init !! k)) ↔
  ti = apply_masks attr (take (Z.to_nat TD_INFO_SIZE) init).
Proof.
  intros El. assert (lenz (take (Z.to_nat TD_INFO_SIZE) init) = TD_INFO_SIZE) as Hlen
    by (unfold lenz, TD_INFO_SIZE in *; rewrite length_take; lia).
  pose proof (λ k, apply_masks_lookup attr _ k Hlen) as Hlk.
  assert (∀ k, (k < 512)%nat → take (Z.to_nat TD_INFO_SIZE) init !! k = init !! k) as Htake
    by (intros k Hk; apply lookup_take_lt; unfold TD_INFO_SIZE; lia).
  split.
  - intros [Hl' Hk']. apply list_eq. intros k. destruct (decide (k < 512)%nat) as [Hk|Hk].
    + destruct (Hlk k) as (_ & H1 & H2), (Hk' k Hk) as [H3 H4]. destruct (decide (masked attr k)) as [Hm|Hm];
        [etrans; [exact (H3 Hm)|symmetry; exact (H1 Hm)]|].
      etrans; [exact (H4 Hm)|]. symmetry. etrans; [exact (H2 Hm)|by apply Htake].
    + pose proof (proj1 (Hlk 0%nat)) as Hl. unfold lenz, TD_INFO_SIZE in *.
      etrans; [apply lookup_ge_None_2; lia|]. symmetry. apply lookup_ge_None_2. lia.
  - intros ->. split; [unfold lenz in *; by rewrite (proj1 (Hlk 0%nat))|]. intros k Hk.
    destruct (Hlk k) as (_ & H1 & H2). split; [done|]. intros Hn. etrans; [exact (H2 Hn)|by apply Htake].
Qed.

Lemma verify_servtd_info_hash_spec init attr expected ti :
  verify_servtd_info_hash sha384 init attr expected = Ok ti ↔ info_matches init attr expected ti.
Proof.
  unfold verify_servtd_info_hash, info_matches. destruct (lenz init <? TD_INFO_SIZE) eqn:El.
  { apply Z.ltb_lt in El. split; [done|lia]. }
  apply Z.ltb_ge in El. pose proof (masked_form init attr ti El) as Hform. rewrite bind_Ok. split.
  - intros (d & Hd%or_err_Ok & E). case_bool_decide as Heq; [|done]. cbn [negb] in E. injection E as E. symmetry in E.
    apply Hform in E as Hf. destruct Hf as [Hl Hk]. subst ti d. done.
  - intros (_ & Hl & Hd & Hk). assert (ti = apply_masks attr (take (Z.to_nat TD_INFO_SIZE) init)) as -> by (by apply Hform).
    exists expected. split; [by apply or_err_Ok|]. by rewrite bool_decide_true.
Qed.

(** [verify_servtd_info_hash] never aborts, and returns a structure exactly
    when it is the given TDINFO_STRUCT with the fields cleared that the attributes
    say to ignore, no other byte changed, and has the recorded hash. *)
Theorem init_tdinfo_masked init attr expected :
  verify_servtd_info_hash sha384 init attr expected ≠ Panic ∧
  ∀ ti, verify_servtd_info_hash sha384 init attr expected = Ok ti ↔ info_matches init attr expected ti.
Proof.
  split; [|intros ti; apply verify_servtd_info_hash_spec]. unfold verify_servtd_info_hash. destruct (lenz init <? TD_INFO_SIZE); [done|].
  cbv zeta. apply bind_no_panic; [auto with policy|]. intros d _. by destruct (negb _).
Qed.

(** The peer's initial TDINFO_STRUCT against its current report: the same policy
    signer, both policy SVNs well-formed, and the initial one not above. *)
Definition init_consistent (init mrowner mrownerconfig : bytes) : Prop :=
  lenz init = TD_INFO_SIZE ∧ lenz mrowner = 48 ∧ lenz mrownerconfig = 48 ∧
  take 48 (drop 112 init) = mrowner ∧ take 44 (drop 164 init) = zeros 44 ∧ drop 4 mrownerconfig = zeros 44 ∧
  le_val (take 4 (drop 160 init)) <= le_val (take 4 mrownerconfig).

Lemma init_against_owner_spec init mrowner mrownerconfig :
  verify_peer_init_tdinfo_against_owner init mrowner mrownerconfig ≠ Panic ∧
  (verify_peer_init_tdinfo_against_owner init mrowner mrownerconfig = Ok tt ↔ init_consistent init mrowner mrownerconfig).
Proof.
  unfold verify_peer_init_tdinfo_against_owner, init_consistent, td_info_mrowner, td_info_mrownerconfig.
  destruct (lenz init =? TD_INFO_SIZE) eqn:E1; cbn [negb orb]; [|split; [done|]; apply Z.eqb_neq in E1; split; [done|tauto]].
  destruct (lenz mrowner =? 48) eqn:E2; cbn [negb orb]; [|split; [done|]; apply Z.eqb_neq in E2; split; [done|tauto]].
  destruct (lenz mrownerconfig =? 48) eqn:E3; cbn [negb orb]; [|split; [done|]; apply Z.eqb_neq in E3; split; [done|tauto]].
  apply Z.eqb_eq in E1, E2, E3.
  assert (slice init TD_INFO_MROWNER_OFFSET (TD_INFO_MROWNER_OFFSET + TD_INFO_OWNER_FIELD_SIZE) = Some (take 48 (drop 112 init))) as ->
    by (apply range_of_Ok with (r := (112, 160)), range_of_take; cbn; unfold TD_INFO_SIZE in *; lia).
  assert (slice init TD_INFO_MROWNERCONFIG_OFFSET (TD_INFO_MROWNERCONFIG_OFFSET + TD_INFO_OWNER_FIELD_SIZE) = Some (take 48 (drop 160 init))) as ->
    by (apply range_of_Ok with (r := (160, 208)), range_of_take; cbn; unfold TD_INFO_SIZE in *; lia).
  assert (drop 4 (take 48 (drop 160 init)) = take 44 (drop 164 init)) as ->
    by (change 48%nat with (4 + 44)%nat; rewrite skipn_firstn_comm; cbn [Nat.sub]; by rewrite drop_drop).
  assert (take 4 (take 48 (drop 160 init)) = take 4 (drop 160 init)) as -> by (by rewrite take_take).
  case_bool_decide as H1; cbn [negb]; [|split; [done|]; split; [done|tauto]].
  case_bool_decide as H2; cbn [negb]; [|split; [done|]; split; [done|tauto]].
  case_bool_decide as H3; cbn [negb]; [|split; [done|]; split; [done|tauto]].
  destruct (_ <? _) eqn:E4; (split; [done|]); [apply Z.ltb_lt in E4; split; [done|lia]|apply Z.ltb_ge in E4; tauto].
Qed.

(** The measurements of the initial TDINFO_STRUCT are in the local TCB mapping. *)
Definition init_known (lp : VerifiedPolicy) (ti : bytes) : Prop :=
  ∃ svn, get_engine_svn_by_measurements (servtd_tcb_mapping lp)
    (new_from_bytes (take 48 (drop 16 ti)) (take 48 (drop 208 ti)) (take 48 (drop 256 ti)) None None) = Some svn.

Lemma check_init_Ok lp ti svn : check_init_measurements lp ti = Ok svn → init_known lp ti.
Proof.
  intros E. unfold check_init_measurements in E. do 3 step E. apply or_err_Ok in E.
  repeat match goal with H : range_of _ _ = Ok _ |- _ => apply range_of_Ok in H; unfold slice in H; cbn [fst snd TI_MRTD TI_RTMR0 TI_RTMR1] in H;
    match type of H with (if ?c then _ else _) = _ => destruct c; [|done] end; apply (inj Some) in H; subst end.
  by exists svn.
Qed.

Lemma rebinding_old_accepts tdreport log pp init ext w out w' :
  authenticate_rebinding_old sha384 VP chain tdreport log pp init ext w = (Ok out, w') →
  ∃ lp mp pc r vp e rel x ti, VP = Some lp ∧ decode_peer_data pp = Some (mp, pc) ∧
    rebind_attested lp tdreport log mp pc r vp e ∧
    init_consistent init (take 48 (drop 112 (td_info r))) (take 48 (drop 160 (td_info r))) ∧
    ext_read_from_bytes ext = Some x ∧ info_matches init (le_val (init_attr x)) (init_servtd_info_hash x) ti ∧
    init_known lp ti ∧ local_info lp w w' rel ∧
    satisfies (backward_policy (policy_data lp)) e rel true ∧ out = TdxReport_as_bytes r.
Proof.
  intros E. unfold authenticate_rebinding_old in E. step E. destruct a as [mp pc]. cbn [fst snd] in E.
  step E. destruct a as [[e vp] r]. destruct (rebinding_common_sound _ _ _ _ _ _ _ Hs0) as (lp & Hlp & Hatt).
  step E. apply or_err_Ok in Hs1. assert (a = lp) as -> by congruence.
  do 2 step E. step E. destruct a1. apply (init_against_owner_spec init) in Hs4. step E. rename a1 into x.
  step E. rename a1 into ti. apply verify_servtd_info_hash_spec in Hs6. step E. apply check_init_Ok in Hs7.
  step E. destruct (local_info_sound _ _ _ Hs8) as (lp' & Hlp' & Hloc). assert (lp' = lp) as -> by congruence.
  step E. destruct a3. apply evaluate_satisfies in Hs9.
  assert (TdxReport_as_bytes r = out ∧ s = w') as [<- <-] by (by injection E).
  pose proof (length_td_info _ _ (rv_read _ _ (ra_report _ _ _ _ _ _ _ _ Hatt))) as Hl. unfold TD_INFO_SIZE in Hl.
  unfold TI_MROWNER, TI_MROWNERCONFIG in *. rewrite range_of_take in Hs2, Hs3 by (cbn; lia).
  injection Hs2 as <-. injection Hs3 as <-.
  exists lp, mp, pc, r, vp, e, a2, x, ti. split_and!; done.
Qed.

(** C17 The new migration TD accepts the old one only when its report verifies
    locally, its event log replays to that report, its policy is signed by chains
    that belong to the local ones and was measured, its initial TDINFO_STRUCT
    names the same policy signer with an SVN not above the current one, hashes,
    with the ignored fields cleared, to what the TDX module recorded in
    SERVTD_EXT, and has measurements of the local TCB mapping, and the backward
    policy accepts it. *)
Theorem rebinding_old_sound tdreport log pp init ext w out w' :
  authenticate_rebinding_old sha384 VP chain tdreport log pp init ext w = (Ok out, w') →
  ∃ lp mp pc r vp e rel x ti, VP = Some lp ∧ decode_peer_data pp = Some (mp, pc) ∧
    rebind_attested lp tdreport log mp pc r vp e ∧
    init_consistent init (take 48 (drop 112 (td_info r))) (take 48 (drop 160 (td_info r))) ∧
    ext_read_from_bytes ext = Some x ∧ info_matches init (le_val (init_attr x)) (init_servtd_info_hash x) ti ∧
    init_known lp ti ∧ local_info lp w w' rel ∧
    satisfies (backward_policy (policy_data lp)) e rel true ∧ out = TdxReport_as_bytes r.
Proof. apply rebinding_old_accepts. Qed.

(** The old migration TD accepts the new one under the common and the forward
    policy, with a policy at least as new as the local one. *)
Lemma rebinding_new_sound tdreport log pp w out w' :
  authenticate_rebinding_new sha384 VP chain tdreport log pp w = (Ok out, w') →
  ∃ lp mp pc r vp e rel, VP = Some lp ∧ decode_peer_data pp = Some (mp, pc) ∧
    rebind_attested lp tdreport log mp pc r vp e ∧ local_info lp w w' rel ∧
    satisfies (pd_policy (policy_data lp)) e rel true ∧ satisfies (forward_policy (policy_data lp)) e rel true ∧
    policy_svn (policy_data lp) <= policy_svn (policy_data vp) ∧ out = TdxReport_as_bytes r.
Proof.
  intros E. unfold authenticate_rebinding_new in E. step E. destruct a as [mp pc]. cbn [fst snd] in E.
  step E. destruct a as [[e vp] r]. destruct (rebinding_common_sound _ _ _ _ _ _ _ Hs0) as (lp & Hlp & Hatt).
  step E. destruct (local_info_sound _ _ _ Hs1) as (lp' & Hlp' & Hloc). assert (lp' = lp) as -> by congruence.
  step E. apply or_err_Ok in Hs2. assert (a0 = lp) as -> by congruence. do 3 step E.
  destruct a0, a1, a2. apply against_policy_Ok in Hs5.
  assert (TdxReport_as_bytes r = out ∧ s = w') as [<- <-] by (by injection E).
  exists lp, mp, pc, r, vp, e, a. split_and!; try done; by apply evaluate_satisfies.
Qed.

(** ** Aborts *)

Definition empty_blob_event (log : bytes) : Prop :=
  ∃ n l h, read_events log = Some (n, l) ∧ (h, []) ∈ l ∧ event_type h = EV_EFI_PLATFORM_FIRMWARE_BLOB2.

Lemma bind_panic {E X Y} (m : outcome E X) (f : X → outcome E Y) : (m ≫= f) = Panic → m = Panic ∨ ∃ a, m = Ok a ∧ f a = Panic.
Proof. destruct m as [a| |]; cbn; [|done|by left]. intros H. right. by exists a. Qed.

Lemma bind_M_panic {S E X Y} (m : M S E X) (f : X → M S E Y) s :
  ((m ≫= f) s).1 = Panic → (m s).1 = Panic ∨ ∃ a s', m s = (Ok a, s') ∧ (f a s').1 = Panic.
Proof. unfold mbind, M_bind. destruct (m s) as [[a| |] s1]; cbn; [|done|by left]. intros H. right. by exists a, s1. Qed.

Lemma parse_event_panic m e : parse_event m e = Panic → e.2 = [] ∧ event_type e.1 = EV_EFI_PLATFORM_FIRMWARE_BLOB2.
Proof.
  destruct e as [h data]. unfold parse_event.
  destruct (event_type h =? EV_EFI_PLATFORM_FIRMWARE_BLOB2) eqn:Et.
  { destruct data as [|x data]; [|change (nthz (x :: data) 0) with (Some x); by repeat case_match].
    intros _. split; [done|]. by apply Z.eqb_eq. }
  destruct (event_type h =? EV_PLATFORM_CONFIG_FLAGS).
  { destruct (starts_with _ _); [done|]. destruct (starts_with _ _); [|done].
    destruct (slice data 16 20); [|done]. by destruct (slice data 20 _). }
  destruct (event_type h =? EV_EVENT_TAG); [|done]. by destruct (slice data 0 4).
Qed.

Lemma parse_events_panic log : parse_events log = Panic → empty_blob_event log.
Proof.
  unfold parse_events. destruct (read_events log) as [[n l]|] eqn:Er; [|done]. intros H.
  assert (∃ h, (h, []) ∈ l ∧ event_type h = EV_EFI_PLATFORM_FIRMWARE_BLOB2) as (h & Hin & Ht); [|by exists n, l, h].
  clear Er. revert H. generalize (@nil (EventName.t * CcEvent)). induction l as [|[h data] l IH]; intros m; [done|]. cbn [parse_loop].
  intros [Hp|(m' & _ & Hp)]%bind_panic.
  - apply parse_event_panic in Hp as [Hd Ht]. cbn in Hd. subst data. exists h. split; [left|done].
  - destruct (IH _ Hp) as (h' & ? & ?). exists h'. split; [by right|done].
Qed.

Lemma hex_no_panic s : hex_string_to_bytes s ≠ Panic.
Proof.
  unfold hex_string_to_bytes. destruct (_ || _); [done|].
  assert (∀ n s, (String.length s <= n)%nat → hex_loop s ≠ Panic) as Hl; [|by eapply Hl].
  induction n as [|n IH]; intros [|a [|b t]] Hn; cbn in Hn; try done; try lia. cbn [hex_loop].
  apply bind_no_panic; [auto with policy|]. intros x _. apply bind_no_panic; [apply IH; lia|done].
Qed.

Lemma verify_no_panic raw pc : verify raw pc ≠ Panic.
Proof.
  unfold verify, verify_policy_data_signature, servtd_identity_verify_signature, servtd_tcb_mapping_verify_signature, verify_signed.
  repeat first [apply bind_no_panic; [|intros ? _] | apply hex_no_panic | solve [auto with policy]].
  by destruct (negb _).
Qed.

Lemma verify_policy_and_event_log_panic log mp pc rtmrs :
  verify_policy_and_event_log sha384 VP chain log mp pc rtmrs = Panic → empty_blob_event log.
Proof.
  unfold verify_policy_and_event_log. intros H.
  repeat (apply bind_panic in H as [H|(? & ? & H)]; [try (by exfalso; revert H; first [apply or_err_no_panic|apply require_no_panic|apply verify_no_panic])|]).
  - destruct (verify_event_log sha384 log rtmrs) eqn:Ev; cbn in H; try done. unfold verify_event_log in Ev.
    destruct (read_events log) as [[n l]|] eqn:Er; [|done].
    destruct (verify_spec sha384 Hsha log rtmrs n l Er) as [_ Hn]. unfold verify_event_log in Hn. by rewrite Er in Hn.
  - apply parse_events_panic. by destruct (parse_events log).
  - exfalso. revert H. unfold verify_event_hash.
    destruct (event_get _ _); [|done]. apply bind_no_panic; [auto with policy|done].
  - by apply require_no_panic in H.
  - done.
Qed.

Lemma range_of_no_panic (b : bytes) r : 0 <= r.1 <= r.2 → r.2 <= lenz b → range_of b r ≠ Panic.
Proof. intros H1 H2. by rewrite range_of_take. Qed.

Lemma collect_range_no_panic {X Y} (b : bytes) (l : list X) (rg : X → Z * Z) (g : X → bytes → PResult Y) :
  Forall (λ x, 0 <= (rg x).1 <= (rg x).2 ∧ (rg x).2 <= lenz b) l → (∀ x y, g x y ≠ Panic) →
  collect (λ x, y ← range_of b (rg x); g x y) l ≠ Panic.
Proof.
  intros Hl Hg. induction Hl as [|x l [H1 H2] _ IH]; cbn; [done|].
  apply bind_no_panic; [apply bind_no_panic; [by apply range_of_no_panic|auto]|]. intros y _. by apply bind_no_panic.
Qed.

Lemma get_collateral_no_panic f c : get_collateral_with_fmspc f c ≠ Panic.
Proof. unfold get_collateral_with_fmspc. destruct (negb _); [done|]. apply bind_no_panic; [auto with policy|done]. Qed.

Lemma setup_evaluation_no_panic f suppl vp cs : setup_evaluation_data f suppl vp cs ≠ Panic.
Proof.
  unfold setup_evaluation_data. apply bind_no_panic.
  { unfold get_tcb_date_and_status_from_suppl_data. destruct (lenz suppl <? REPORT_DATA_SIZE) eqn:El; [done|].
    apply Z.ltb_ge in El. unfold REPORT_DATA_SIZE in El.
    repeat (apply bind_no_panic; [first [apply range_of_no_panic; cbn; lia|apply or_err_no_panic]|intros ? _]). done. }
  intros ds _. apply bind_no_panic; [apply get_collateral_no_panic|]. intros c _. apply bind_no_panic; [apply or_err_no_panic|]. intros n _.
  apply bind_no_panic.
  { unfold Report_new. destruct (lenz suppl =? REPORT_DATA_SIZE) eqn:El; [|done]. apply Z.eqb_eq in El. cbn [negb].
    unfold setup_migtd_info. apply (collect_range_no_panic suppl property_ranges snd (λ e b, Ok (e.1, b))); [|done]. rewrite El. unfold REPORT_DATA_SIZE. repeat constructor; cbn; lia. }
  intros r _. cbv zeta. apply bind_no_panic; [auto with policy|]. intros. apply bind_no_panic; [auto with policy|done].
Qed.

Lemma verify_quote_no_panic q cs : verify_quote q cs ≠ Panic.
Proof.
  unfold verify_quote. apply bind_no_panic; [auto with policy|]. intros f _. apply bind_no_panic; [apply get_collateral_no_panic|].
  intros c _. apply bind_no_panic.
  - unfold convert_collateral_to_cstring, cstring. repeat (apply bind_no_panic; [by case_bool_decide|intros ? _]). done.
  - intros cc _. apply bind_no_panic; [auto with policy|done].
Qed.

Lemma get_rtmrs_no_panic suppl : get_rtmrs_from_suppl_data suppl ≠ Panic.
Proof.
  unfold get_rtmrs_from_suppl_data. destruct (lenz suppl <? REPORT_DATA_SIZE) eqn:El; [done|]. apply Z.ltb_ge in El.
  unfold REPORT_DATA_SIZE in El. cbn [collect].
  repeat (apply bind_no_panic; [first [apply range_of_no_panic; cbn; lia|idtac]|intros ? _]); done.
Qed.

Lemma remote_common_panic q log mp pc :
  authenticate_remote_common sha384 VP chain q log mp pc = Panic → empty_blob_event log.
Proof.
  unfold authenticate_remote_common. intros H.
  apply bind_panic in H as [H|(? & ? & H)]; [by apply or_err_no_panic in H|].
  apply bind_panic in H as [H|([f s] & ? & H)].
  { exfalso. revert H. pose proof (verify_quote_no_panic q (get_collaterals x)). by destruct (verify_quote _ _). }
  apply bind_panic in H as [H|(? & ? & H)]; [by apply get_rtmrs_no_panic in H|].
  apply bind_panic in H as [H|(? & ? & H)]; [by eapply verify_policy_and_event_log_panic|].
  apply bind_panic in H as [H|(? & ? & H)]; [by apply setup_evaluation_no_panic in H|done].
Qed.

Lemma local_info_no_panic w : (get_local_tcb_evaluation_info VP w).1 ≠ Panic.
Proof.
  intros H. unfold get_local_tcb_evaluation_info in H.
  apply bind_M_panic in H as [H|(? & ? & _ & H)]; [by apply or_err_no_panic in H|].
  apply bind_M_panic in H as [H|(? & ? & _ & H)].
  { unfold local_quote in H. destruct (get_quote_with_retry _ _) as [o w1] eqn:Eq.
    unfold get_quote_with_retry, INITIAL_DELAY_MS in Eq. apply quote_loop_spec in Eq as (Hn & _); [|done|done|by destruct AzCVMEmu..|done].
    by destruct o as [[]|[[]| |]|]. }
  apply bind_M_panic in H as [H|(? & ? & _ & H)]; [by apply verify_quote_no_panic in H|].
  by apply setup_evaluation_no_panic in H.
Qed.

Lemma when_some_block_no_panic b e rel skip : when_some b (λ b, evaluate_policy_block e rel b skip) ≠ Panic.
Proof. destruct b; cbn; [apply evaluate_block_no_panic|done]. Qed.

Lemma remote_panics is_src quote pp log w :
  (authenticate_remote sha384 VP chain is_src quote pp log w).1 = Panic → empty_blob_event log.
Proof.
  unfold authenticate_remote, authenticate_migration_dest, authenticate_migration_source. intros H.
  apply bind_M_panic in H as [H|([mp pc] & ? & _ & H)]; [unfold ok_or in H; by case_match|].
  destruct is_src; cbn [fst snd] in H;
    (apply bind_M_panic in H as [H|([[e vp] sup] & ? & _ & H)]; [exact (remote_common_panic _ _ _ _ H)|]);
    (apply bind_M_panic in H as [H|(rel & ? & _ & H)]; [by apply local_info_no_panic in H|]);
    (apply bind_M_panic in H as [H|(lp & ? & _ & H)]; [by apply or_err_no_panic in H|]);
    do 2 (apply bind_M_panic in H as [H|(? & ? & _ & H)]; [by apply when_some_block_no_panic in H|]).
  - apply bind_M_panic in H as [H|(? & ? & _ & H)]; [by apply require_no_panic in H|done].
  - done.
Qed.

(** Authentication of a migration peer aborts for one reason only: the peer's
    event log holds a firmware blob event without data.  Every other content of
    the quote, the policy and the log ends in a result or an error. *)
Theorem authenticate_aborts_on_empty_blob is_src quote pp log w :
  (authenticate_remote sha384 VP chain is_src quote pp log w).1 = Panic → empty_blob_event log.
Proof. apply remote_panics. Qed.

End spec.

(** ** A concrete environment *)

Module Demo.

#[local] Existing Instance demo_features.

Definition hash := EventLog.Sample.last_digest.

Definition zero_measurements : Measurements :=
  Eval vm_compute in mkMeasurements (bytes_to_hex_string (zeros 48)) (bytes_to_hex_string (zeros 48)) (bytes_to_hex_string (zeros 48)) None None.

Definition identity : TdIdentity := mkTdIdentity "MigTD" 1 "" "" 1 "" "" "" "" "" "" 0 [mkTcbLevel 2 "2025-01-01T00:00:00Z" "UpToDate"].
Definition mapping : TdTcbMapping := mkTdTcbMapping "MigTD" 1 "" "" "" 0 [mkSvnMapping zero_measurements 2].
Definition collaterals : Collaterals := mkCollaterals 1 0 0 "" "" "" "" [mkPlatform "000000000000" "" "tcb"] "" "".
Definition svn_policy : PolicyTypes := Servtd (mkIdentityPolicy (Some (mkProperty "greater-or-equal" (Reference.Integer 1))) None (Some demo_status)).
Definition data : PolicyData :=
  mkPolicyData "id" "2.0" 3 (Some [Global (mkGlobal (Some (mkTcbPolicy None (Some demo_status) None)) None None)]) (Some [svn_policy]) (Some [svn_policy])
    collaterals (mkServtdCollateral 1 0 "chain" (mkRaw "i" "00") "chain" (mkRaw "m" "00")).

#[local] Instance json : PolicyJson := {
  json_raw_policy _ := Some (mkRaw "p" "00"); json_policy_data _ := Some data; json_td_identity _ := Some identity;
  json_td_tcb_mapping _ := Some mapping; json_tcb_evaluation_data_number _ := Some 7 }.

#[local] Instance crypto : PolicyCrypto := {
  verify_cert_chain_and_signature _ _ sig := bool_decide (sig = [0]); validate_peer_cert_chain a b := bool_decide (a = b) }.

(** The peer's policy, of which the second half is the hash; the verified report
    holds it in RTMR3 (and, for another quote, a firmware blob in RTMR0). *)
Definition policy : bytes := Eval vm_compute in replicate 48 1 ++ replicate 48 5.
Definition suppl (rtmr0 : Z) : bytes :=
  zeros 328 ++ replicate 48 rtmr0 ++ zeros 96 ++ replicate 48 5 ++ zeros 222 ++ as_bytes "UpToDate" ++ zeros 72.
Definition suppl0 : bytes := Eval vm_compute in suppl 0.
Definition suppl7 : bytes := Eval vm_compute in suppl 7.

#[local, refine] Instance attestation : Attestation := {
  get_fmspc_from_quote _ := Some (zeros 6);
  verify_quote_with_collaterals q _ := Some (if bool_decide (q = [7]) then suppl7 else suppl0);
  get_crl_number _ := Some 1; iso8601 _ := Some "2025-06-01T00:00:00Z"; pem_cert_to_der b := Some b;
  get_policy_signer_key_hash _ := Some (zeros 48);
  TdxReport_read_from_bytes bs := if lenz bs =? 512 then Some (mkTdxReport [1] (zeros 64) (zeros 48) (take 48 (drop 48 bs)) [] [] bs) else None;
  TdxReport_as_bytes := td_info; tdcall_verify_report _ := true }.
Proof.
  all: intros bs r; destruct (lenz bs =? 512) eqn:E; try done; intros [= <-].
  - by apply Z.eqb_eq.
  - done.
  - cbn. by rewrite E.
Defined.

Definition lp : VerifiedPolicy := mkVerified data identity "chain" mapping "chain" "chain".
Definition chain : bytes := Eval vm_compute in as_bytes "chain".
Definition peer : bytes := Eval vm_compute in default [] (encode_peer_data policy chain).
Definition log : bytes := Eval vm_compute in EventLog.Sample.event 4 6 5 [1; 0; 0; 0] ++ [0].
Definition blob_log : bytes := Eval vm_compute in EventLog.Sample.event 4 6 5 [1; 0; 0; 0] ++ EventLog.Sample.event 1 0x8000000a 7 [] ++ [0].
Definition world : QuoteWorld := mkQuoteWorld [λ _, Some [1]] [Quote [9]] [] [].
Definition after : QuoteWorld := mkQuoteWorld [] [] [[1]] [].

Lemma remote_run : authenticate_remote (H2 := EventLog.Sample.log) hash (Some lp) (Some chain) true [1] peer log world = (Ok suppl0, after).
Proof. vm_compute. reflexivity. Qed.

Lemma blob_run : (authenticate_remote (H2 := EventLog.Sample.log) hash (Some lp) (Some chain) true [7] peer blob_log world).1 = Panic.
Proof. vm_compute. reflexivity. Qed.

Definition report : bytes := Eval vm_compute in zeros 64 ++ replicate 48 3 ++ zeros 240 ++ replicate 48 5 ++ zeros 112.
Definition ext : bytes := Eval vm_compute in take 48 (drop 48 report) ++ zeros 224.

Lemma rebind_run :
  authenticate_rebinding_old (H2 := EventLog.Sample.log) hash (Some lp) (Some chain) report log peer report ext world = (Ok report, after).
Proof. vm_compute. reflexivity. Qed.

Lemma authenticate_remote_sound_witness :
  ∃ lp' mp pc vp e rel, Some lp = Some lp' ∧ decode_peer_data peer = Some (mp, pc) ∧
    peer_attested (L := EventLog.Sample.log) hash (Some chain) lp' [1] log mp pc suppl0 vp e ∧ local_info lp' world after rel ∧
    satisfies (pd_policy (policy_data lp')) e rel false ∧ satisfies (forward_policy (policy_data lp')) e rel false ∧
    (true = true → policy_svn (policy_data lp') <= policy_svn (policy_data vp)).
Proof.
  exact (authenticate_remote_sound (L := EventLog.Sample.log) hash EventLog.Sample.last_digest_len (Some lp) (Some chain)
           true [1] peer log world suppl0 after remote_run).
Defined.

Lemma authenticate_aborts_on_empty_blob_witness : empty_blob_event (L := EventLog.Sample.log) blob_log.
Proof.
  exact (authenticate_aborts_on_empty_blob (L := EventLog.Sample.log) hash EventLog.Sample.last_digest_len (Some lp) (Some chain)
           true [7] peer blob_log world blob_run).
Defined.

Lemma rebinding_old_sound_witness :
  ∃ lp' mp pc r vp e rel x ti, Some lp = Some lp' ∧ decode_peer_data peer = Some (mp, pc) ∧
    rebind_attested (L := EventLog.Sample.log) hash (Some chain) lp' report log mp pc r vp e ∧
    init_consistent report (take 48 (drop 112 (td_info r))) (take 48 (drop 160 (td_info r))) ∧
    ext_read_from_bytes ext = Some x ∧ info_matches hash report (le_val (init_attr x)) (init_servtd_info_hash x) ti ∧
    init_known lp' ti ∧ local_info lp' world after rel ∧
    satisfies (backward_policy (policy_data lp')) e rel true ∧ report = TdxReport_as_bytes r.
Proof.
  exact (rebinding_old_sound (L := EventLog.Sample.log) hash EventLog.Sample.last_digest_len (Some lp) (Some chain)
           report log peer report ext world report after rebind_run).
Defined.

End Demo.
