(* ===== verification/Logging.v ===== *)
(** * Logging: the log areas shared with the VMM

    src/migtd/src/migration/logging.rs (feature [vmcall-raw]).  Records go to one
    private page per virtual CPU until the VMM enables the log areas, then to one
    shared page per virtual CPU, which the VMM reads and can also write.  The
    pages are data, so that a host that changes a shared one is a change of state
    between two operations; the console output of debug builds is left out. *)
From stdpp Require Import base tactics numbers option strings list list_numbers.
From S2P Require Import Prelude MigData PolicyV2.
Local Open Scope Z_scope.

(** Pages are compared as lists. *)
#[local] Notation bytes := (list Z).

Definition LOG_PAGE_SIZE : Z := 0x1000.
Definition MIGRATION_REQUEST_ID_SENTINEL : Z := 0xFFFFFFFFFFFFFFFF.

Module Level.
Inductive t := Error | Warn | Info | Debug | Trace.
End Level.

Module LevelFilter.
Inductive t := Off | Error | Warn | Info | Debug | Trace.

Definition rank (f : t) : Z :=
  match f with Off => 0 | Error => 1 | Warn => 2 | Info => 3 | Debug => 4 | Trace => 5 end.
End LevelFilter.

Definition u8_to_levelfilter (value : Z) : LevelFilter.t :=
  match value with
  | 0 => LevelFilter.Off | 1 => LevelFilter.Error | 2 => LevelFilter.Warn | 3 => LevelFilter.Info
  | 4 => LevelFilter.Debug | _ => LevelFilter.Trace
  end.

Definition u8_to_loglevel (value : Z) : option Level.t :=
  match value with
  | 1 => Some Level.Error | 2 => Some Level.Warn | 3 => Some Level.Info | 4 => Some Level.Debug
  | 5 => Some Level.Trace | _ => None
  end.

Definition loglevel_to_u8 (level : Level.t) : Z :=
  match level with Level.Error => 1 | Level.Warn => 2 | Level.Info => 3 | Level.Debug => 4 | Level.Trace => 5 end.

(** [level <= filter] of the log crate *)
Definition level_le (l : Level.t) (f : LevelFilter.t) : bool := loglevel_to_u8 l <=? LevelFilter.rank f.

Definition LOGAREA_SIGNATURE : bytes :=
  [0x4d; 0x69; 0x67; 0x54; 0x44; 0x20; 0x4c; 0x6f; 0x67; 0x41; 0x72; 0x65; 0x61; 0x20; 0x31; 0x00].

Definition LOGENTRYHEADERSIZE : Z := 24.
Definition LOGAREABUFFERHEADERSIZE : Z := 40.

(** [LogAreaBufferHeader] as bytes *)
Definition area_header (vcpuindex startoffset endoffset : Z) : bytes :=
  LOGAREA_SIGNATURE ++ le_bytes 4 vcpuindex ++ le_bytes 4 0 ++ le_bytes 8 startoffset ++ le_bytes 8 endoffset.

(** [LogEntryHeader] as bytes *)
Definition entry_header (log_entry_id mig_request_id loglevel length : Z) : bytes :=
  le_bytes 8 log_entry_id ++ le_bytes 8 mig_request_id ++ [loglevel] ++ [0; 0; 0] ++ le_bytes 4 length.

(** ** One page *)

(** Aborts are [Panic]; [Err tt] is the bound of the model on the loop below. *)
Notation PageM := (outcome unit).

Definition idx {A} (o : option A) : PageM A := match o with Some a => Ok a | None => Panic end.

(** [data_buffer[a..b].fill(0)] *)
Definition fill0 (p : bytes) (a b : Z) : PageM bytes := if a <=? b then idx (write_at p a (zeros (b - a))) else Panic.

(** [a + LOGENTRYHEADERSIZE + msg.len()] in [usize] *)
Definition entry_end (a n : Z) : PageM Z := x ← idx (add_u 64 a LOGENTRYHEADERSIZE); idx (add_u 64 x n).

(** The identifier and the length of the entry at [start]. *)
Definition entry_at (p : bytes) (start : Z) : PageM (Z * Z) :=
  e ← idx (add_u 64 start LOGENTRYHEADERSIZE);
  h ← idx (slice p start e);
  id ← idx (slice h 0 8);
  len ← idx (slice h 20 24);
  Ok (le_val id, le_val len).

(** The loop that drops the oldest entries; an entry is at least its header, so
    [reqdatasize] turns are enough. *)
Fixpoint evict (fuel : nat) (p : bytes) (currentstartoffset reqdatasize : Z) : PageM (bytes * Z) :=
  if reqdatasize <=? 0 then Ok (p, currentstartoffset)
  else match fuel with
  | O => Err tt
  | S fuel =>
      e ← idx (add_u 64 currentstartoffset LOGENTRYHEADERSIZE);
      let start := if LOG_PAGE_SIZE <=? e then LOGAREABUFFERHEADERSIZE else currentstartoffset in
      hdr ← entry_at p start;
      let totallength := hdr.2 + LOGENTRYHEADERSIZE in
      p ← fill0 p start (start + totallength);
      evict fuel p (start + totallength) (saturating_sub reqdatasize totallength)
  end.

(** Where the next entry goes: the page, [currentstartoffset], [currentendoffset]. *)
Definition make_room (p : bytes) (start_offset end_offset n : Z) : PageM (bytes * Z * Z) :=
  e ← entry_end end_offset n;
  if (LOG_PAGE_SIZE <? e) || (end_offset <? start_offset) then
    pe ← (if LOG_PAGE_SIZE <? e
          then p ← fill0 p end_offset LOG_PAGE_SIZE; Ok (p, LOGAREABUFFERHEADERSIZE)
          else Ok (p, end_offset));
    let '(p, currentendoffset) := pe in
    if currentendoffset <? start_offset then
      p ← fill0 p currentendoffset start_offset;
      e' ← entry_end currentendoffset n;
      if start_offset <? e' then
        let reqdatasize := saturating_sub (LOGENTRYHEADERSIZE + n) (start_offset - currentendoffset) in
        ps ← evict (Z.to_nat reqdatasize) p start_offset reqdatasize;
        Ok (ps.1, ps.2, currentendoffset)
      else Ok (p, start_offset, currentendoffset)
    else Ok (p, start_offset, currentendoffset)
  else Ok (p, start_offset, end_offset).

(** The two resets of the start offset. *)
Definition reset_start (p : bytes) (currentstartoffset : Z) : PageM (bytes * Z) :=
  e ← idx (add_u 64 currentstartoffset LOGENTRYHEADERSIZE);
  ps ← (if LOG_PAGE_SIZE <=? e
        then p ← fill0 p currentstartoffset LOG_PAGE_SIZE; Ok (p, LOGAREABUFFERHEADERSIZE)
        else Ok (p, currentstartoffset));
  let '(p, start) := ps in
  if start =? LOGAREABUFFERHEADERSIZE then Ok (p, start)
  else
    hdr ← entry_at p start;
    Ok (p, if (hdr.2 =? 0) && (hdr.1 =? 0) then LOGAREABUFFERHEADERSIZE else start).

(** [entrylog] from the offsets of the page on. *)
Definition append_entry (p : bytes) (log_entry_id request_id log_level : Z) (msg : bytes) : PageM bytes :=
  s ← idx (slice p 24 32);
  e ← idx (slice p 32 40);
  r ← make_room p (le_val s) (le_val e) (lenz msg);
  let '(p, start, end_) := r in
  r ← reset_start p start;
  let '(p, start) := r in
  last ← entry_end end_ (lenz msg);
  p ← fill0 p end_ last;
  p ← idx (write_at p end_ (entry_header log_entry_id request_id log_level (as_u 32 (lenz msg))));
  p ← idx (write_at p (end_ + LOGENTRYHEADERSIZE) msg);
  p ← idx (write_at p 24 (le_bytes 8 start));
  idx (write_at p 32 (le_bytes 8 (end_ + LOGENTRYHEADERSIZE + lenz msg))).

(** ** The logger *)

(** [LOGGING_INFORMATION], the two vectors of pages (a shared page with its
    address), the pages given back, the log crate's logger and level, and the
    response buffer of the request being served. *)
Record Logging := mkLogging {
  num_vcpus : Z; logarea_created : bool; logarea_initialized : bool; logentry_id : Z;
  provisional_logs_enabled : bool; maxloglevel : Z;
  logareas : list (Z * bytes); provisional_logareas : list bytes; freed : list Z;
  logger_set : bool; max_level : LevelFilter.t; rsp_data : bytes }.

Definition set_pages (a : list (Z * bytes)) (p : list bytes) (f : list Z) (s : Logging) : Logging :=
  mkLogging (num_vcpus s) (logarea_created s) (logarea_initialized s) (logentry_id s) (provisional_logs_enabled s)
    (maxloglevel s) a p f (logger_set s) (max_level s) (rsp_data s).

Definition set_created (n : Z) (s : Logging) : Logging :=
  mkLogging n true (logarea_initialized s) (logentry_id s) true (maxloglevel s) (logareas s) (provisional_logareas s) (freed s)
    (logger_set s) (max_level s) (rsp_data s).

Definition set_provisional_off (s : Logging) : Logging :=
  mkLogging (num_vcpus s) (logarea_created s) (logarea_initialized s) (logentry_id s) false (maxloglevel s) (logareas s) []
    (freed s) (logger_set s) (max_level s) (rsp_data s).

Definition set_maxloglevel (l : Z) (s : Logging) : Logging :=
  mkLogging (num_vcpus s) (logarea_created s) (logarea_initialized s) (logentry_id s) (provisional_logs_enabled s) l
    (logareas s) (provisional_logareas s) (freed s) (logger_set s) (max_level s) (rsp_data s).

Definition set_initialized (s : Logging) : Logging :=
  mkLogging (num_vcpus s) (logarea_created s) true (logentry_id s) (provisional_logs_enabled s) (maxloglevel s)
    (logareas s) (provisional_logareas s) (freed s) (logger_set s) (max_level s) (rsp_data s).

Definition set_logentry_id (i : Z) (s : Logging) : Logging :=
  mkLogging (num_vcpus s) (logarea_created s) (logarea_initialized s) i (provisional_logs_enabled s) (maxloglevel s)
    (logareas s) (provisional_logareas s) (freed s) (logger_set s) (max_level s) (rsp_data s).

Definition set_logger (b : bool) (f : LevelFilter.t) (s : Logging) : Logging :=
  mkLogging (num_vcpus s) (logarea_created s) (logarea_initialized s) (logentry_id s) (provisional_logs_enabled s) (maxloglevel s)
    (logareas s) (provisional_logareas s) (freed s) b f (rsp_data s).

Definition set_rsp_data (d : bytes) (s : Logging) : Logging :=
  mkLogging (num_vcpus s) (logarea_created s) (logarea_initialized s) (logentry_id s) (provisional_logs_enabled s) (maxloglevel s)
    (logareas s) (provisional_logareas s) (freed s) (logger_set s) (max_level s) d.

Definition LOGGING_INFORMATION : Logging := mkLogging 0 false false 0 false 0 [] [] [] false LevelFilter.Off [].

(** An operation of the logger: [Err] carries the code's own error. *)
Notation LogM := (M Logging (aerr MigrationResult.t)).

Definition extend_data (bs : bytes) : LogM unit := modifyS (λ s, set_rsp_data (rsp_data s ++ bs) s).

(** *** Creating the areas *)

(** [alloc i] is what [alloc_shared_pages] returns for the [i]-th page: its
    address and content. *)
Fixpoint create_loop (alloc : Z → option (Z * bytes)) (index : Z) (count : nat) : LogM unit :=
  match count with
  | O => mret tt
  | S count =>
      match alloc index with
      | None =>
          s ← getS;
          _ ← modifyS (set_pages [] [] (freed s ++ (logareas s).*1));
          failM (Failed MigrationResult.OutOfResource)
      | Some (addr, content) =>
          let header := area_header index LOGAREABUFFERHEADERSIZE LOGAREABUFFERHEADERSIZE in
          data_buffer ← or_panic (write_at content 0 header);
          provisional_buffer ← or_panic (write_at (zeros LOG_PAGE_SIZE) 0 header);
          _ ← modifyS (λ s, set_pages (logareas s ++ [(addr, data_buffer)]) (provisional_logareas s ++ [provisional_buffer]) (freed s) s);
          create_loop alloc (index + 1) count
      end
  end.

(** [td_info] is the register [r8] of the call that reports the virtual CPUs,
    [None] when the call fails. *)
Definition create_logarea (td_info : option Z) (alloc : Z → option (Z * bytes)) : LogM unit :=
  r8 ← ok_or td_info (Failed MigrationResult.TdxModuleError);
  let n := as_u 32 r8 in
  _ ← create_loop alloc 0 (Z.to_nat n);
  modifyS (set_created n).

Definition free_provisional_logarea : LogM unit :=
  s ← getS;
  if provisional_logs_enabled s then modifyS set_provisional_off else mret tt.

(** *** Writing a record *)

Definition next_id (v : Z) : Z := if v =? u_max 64 then 1 else v + 1.

(** [PROVISIONAL_LOGAREAPTR] or [LOGAREAPTR], at the index of the CPU. *)
Definition page_of_cpu (provisional : bool) (i : Z) : LogM bytes :=
  s ← getS;
  if provisional then or_panic (nthz (provisional_logareas s) i)
  else r ← or_panic (nthz (logareas s) i); mret r.2.

Definition store_page (provisional : bool) (i : Z) (p : bytes) : LogM unit :=
  modifyS (λ s,
    if provisional then set_pages (logareas s) (<[Z.to_nat i := p]> (provisional_logareas s)) (freed s) s
    else set_pages (alter (λ e : Z * bytes, (e.1, p)) (Z.to_nat i) (logareas s)) (provisional_logareas s) (freed s) s).

(** A page operation inside the logger. *)
Definition page_op {A} (r : PageM A) : LogM A :=
  match r with Ok a => mret a | Err _ => failM OutOfFuel | Panic => panicM end.

(** [cpu] is the initial APIC identifier that CPUID reports, if it reports one. *)
Definition entrylog (cpu : option Z) (msg : bytes) (loglevel : Level.t) (request_id : Z) : LogM unit :=
  s ← getS;
  let log_level := loglevel_to_u8 loglevel in
  let provisional := provisional_logs_enabled s in
  if (logarea_initialized s && (log_level <=? maxloglevel s)) || (provisional && (log_level <=? loglevel_to_u8 Level.Trace)) then
    if LOG_PAGE_SIZE - (LOGAREABUFFERHEADERSIZE + LOGENTRYHEADERSIZE) <? lenz msg then mret tt
    else match cpu with
    | None => mret tt
    | Some currvcpuindex =>
        data_buffer ← page_of_cpu provisional currvcpuindex;
        v ← or_panic (slice data_buffer 16 20);
        if negb (currvcpuindex =? le_val v) then mret tt
        else
          _ ← modifyS (λ s, set_logentry_id (next_id (logentry_id s)) s);
          s ← getS;
          p ← page_op (append_entry data_buffer (logentry_id s) request_id log_level msg);
          store_page provisional currvcpuindex p
    end
  else mret tt.

(** [enabled] of the backend; [debug] is [cfg(debug_assertions)]. *)
Definition enabled (debug : bool) (level : Level.t) (s : Logging) : bool :=
  level_le level
    (if logarea_initialized s then u8_to_levelfilter (maxloglevel s)
     else if provisional_logs_enabled s then (if debug then LevelFilter.Trace else LevelFilter.Info)
     else max_level s).

(** [Log::log]: the formatted arguments, and the request the record names: absent,
    present as a number, or present as something else. *)
Definition backend_log (debug : bool) (cpu : option Z) (level : Level.t) (request_id : option (option Z)) (args : bytes) : LogM unit :=
  s ← getS;
  if enabled debug level s then
    let mig_request_id := match request_id with Some (Some r) => r | _ => MIGRATION_REQUEST_ID_SENTINEL end in
    entrylog cpu (args ++ [10]) level mig_request_id
  else mret tt.

(** [log::log!]: the log crate's own gate, then the installed logger. *)
Definition log_record (debug : bool) (cpu : option Z) (level : Level.t) (request_id : option (option Z)) (args : bytes) : LogM unit :=
  s ← getS;
  if level_le level (max_level s) && logger_set s then backend_log debug cpu level request_id args else mret tt.

(** *** Enabling the areas *)

(** The decimal digits of a [u8], and its hexadecimal ones, lower case. *)
Definition dec_u8 (n : Z) : bytes :=
  if n <? 10 then [48 + n] else if n <? 100 then [48 + n / 10; 48 + n mod 10] else [48 + n / 100; 48 + n / 10 mod 10; 48 + n mod 10].

Definition hex_lower (d : Z) : Z := if d <? 10 then 48 + d else 87 + d.

Definition hex_u8 (n : Z) : bytes := if n <? 16 then [hex_lower n] else [hex_lower (n / 16); hex_lower (n mod 16)].

(** The loop over the CPUs: the private page is copied, the area's address and
    size go to the response. *)
Fixpoint publish_loop (provisional : bool) (index : Z) (count : nat) : LogM unit :=
  match count with
  | O => mret tt
  | S count =>
      s ← getS;
      area ← or_panic (nthz (logareas s) index);
      _ ← (if provisional then
             p ← or_panic (nthz (provisional_logareas s) index);
             if lenz p =? lenz area.2 then store_page false index p else panicM
           else mret tt);
      _ ← extend_data (le_bytes 8 area.1 ++ le_bytes 8 LOG_PAGE_SIZE);
      publish_loop provisional (index + 1) count
  end.

Definition not_created_text : bytes :=
  as_bytes "Error: LogArea has not been successfuly created by create_logarea()" ++ [10].

Definition enable_logarea (debug : bool) (cpu : option Z) (level request_id : Z) : LogM unit :=
  let log_max_level := if debug then level else Z.min level 3 in
  s ← getS;
  if negb (logarea_created s) then
    _ ← extend_data not_created_text;
    failM (Failed MigrationResult.UnsupportedOperationError)
  else match u8_to_loglevel log_max_level with
  | Some _ =>
      _ ← modifyS (set_maxloglevel log_max_level);
      _ ← extend_data (le_bytes 4 (num_vcpus s) ++ le_bytes 4 0);
      _ ← publish_loop (provisional_logs_enabled s) 0 (Z.to_nat (num_vcpus s));
      _ ← free_provisional_logarea;
      _ ← modifyS set_initialized;
      _ ← modifyS (λ s, set_logger (logger_set s) (u8_to_levelfilter log_max_level) s);
      log_record debug cpu Level.Info (Some (Some request_id))
        (as_bytes "enable_logarea: Logging has been enabled with MaxLevel: " ++ dec_u8 log_max_level ++ [10])
  | None =>
      _ ← log_record debug cpu Level.Error (Some (Some request_id))
        (as_bytes "enable_logarea: rejected request with invalid MaxLogLevel: " ++ dec_u8 log_max_level ++ [10]);
      _ ← extend_data (as_bytes "Error: enable_logarea(): Invalid MaxLogLevel: " ++ hex_u8 log_max_level ++ as_bytes " requested" ++ [10]);
      failM (Failed MigrationResult.InvalidParameter)
  end.

(** [init_vmm_logger]: [set_logger] fails when a logger is installed. *)
Definition init_vmm_logger (s : Logging) : bool * Logging :=
  if logger_set s then (false, s) else (true, set_logger true LevelFilter.Trace s).
