(* ===== verification/LoggingSpec.v ===== *)
(** * LoggingSpec: what the log areas hold

    A log area that the host leaves alone holds, for a reader that follows its
    offsets, the records written to it since it was last started over; in a
    release build records above [Info] reach no area whatever the VMM asks for. *)
From stdpp Require Import base tactics numbers option strings relations list list_numbers.
From S2P Require Import Prelude MigData PolicyV2 Logging.
Local Open Scope Z_scope.

(** Pages are compared as lists. *)
#[local] Notation bytes := (list Z).

(** ** Entries and areas *)

Record entry := mkEntry { en_id : Z; en_request : Z; en_level : Z; en_msg : bytes }.

Definition enc (e : entry) : bytes := entry_header (en_id e) (en_request e) (en_level e) (lenz (en_msg e)) ++ en_msg e.

Definition enc_all (es : list entry) : bytes := concat (enc <$> es).

Definition MSG_MAX : Z := LOG_PAGE_SIZE - (LOGAREABUFFERHEADERSIZE + LOGENTRYHEADERSIZE).

(** The page of CPU [v] with the entries [es], from the first place on. *)
Definition area (v : Z) (es : list entry) (p : bytes) : Prop :=
  lenz p = LOG_PAGE_SIZE ∧
  ∃ rest, p = area_header v LOGAREABUFFERHEADERSIZE (LOGAREABUFFERHEADERSIZE + lenz (enc_all es)) ++ enc_all es ++ rest.

(** A new entry goes after the others, or, when it does not fit, alone to the
    start of the page. *)
Definition push (es : list entry) (e : entry) : list entry :=
  if LOG_PAGE_SIZE <? LOGAREABUFFERHEADERSIZE + lenz (enc_all es) + lenz (enc e) then [e] else es ++ [e].

(** Arithmetic on the sizes of a page. *)
Ltac sizes := unfold MSG_MAX, LOG_PAGE_SIZE, LOGAREABUFFERHEADERSIZE, LOGENTRYHEADERSIZE in *; lia.

Lemma lenz_area_header v s e : lenz (area_header v s e) = LOGAREABUFFERHEADERSIZE.
Proof. unfold area_header. rewrite !lenz_app, !lenz_le_bytes. done. Qed.

Lemma lenz_entry_header a b c d : lenz (entry_header a b c d) = LOGENTRYHEADERSIZE.
Proof. unfold entry_header. rewrite !lenz_app, !lenz_le_bytes. done. Qed.

Lemma lenz_enc e : lenz (enc e) = LOGENTRYHEADERSIZE + lenz (en_msg e).
Proof. unfold enc. by rewrite lenz_app, lenz_entry_header. Qed.

Lemma enc_all_app a b : enc_all (a ++ b) = enc_all a ++ enc_all b.
Proof. unfold enc_all. by rewrite fmap_app, concat_app. Qed.

Lemma enc_all_one e : enc_all [e] = enc e.
Proof. unfold enc_all. cbn. apply app_nil_r. Qed.

(** ** One append *)

(** Zeroing a stretch of a page and filling it again. *)
Lemma fill0_app (a l b : bytes) x y : x = lenz a → y = x + lenz l → fill0 (a ++ l ++ b) x y = Ok (a ++ zeros (lenz l) ++ b).
Proof.
  intros -> ->. unfold fill0. rewrite (proj2 (Z.leb_le _ _)) by (pose proof (lenz_nonneg l); lia).
  replace (lenz a + lenz l - lenz a) with (lenz l) by lia.
  rewrite (write_at_app a l b); [done|done|]. by rewrite length_zeros, to_nat_lenz.
Qed.

Lemma write_tail (a t d : bytes) x : x = lenz a → lenz d <= lenz t →
  write_at (a ++ t) x d = Some (a ++ d ++ drop (length d) t).
Proof.
  intros -> Hd. unfold lenz in Hd. rewrite <-(take_drop (length d) t) at 1.
  apply write_at_app; [done|]. rewrite length_take. lia.
Qed.

Lemma fill0_tail (a t : bytes) x y : x = lenz a → x <= y <= x + lenz t →
  fill0 (a ++ t) x y = Ok (a ++ zeros (y - x) ++ drop (Z.to_nat (y - x)) t).
Proof.
  intros -> Hy. unfold fill0. rewrite (proj2 (Z.leb_le _ _)) by lia.
  rewrite write_tail; [by rewrite length_zeros|done|]. rewrite lenz_zeros; lia.
Qed.

(** The last steps of an append, at the end of [h ++ body]. *)
Lemma store_entry v s e body t id req lvl msg end_ : end_ = LOGAREABUFFERHEADERSIZE + lenz body →
  LOGENTRYHEADERSIZE + lenz msg <= lenz t →
  (p ← fill0 (area_header v s e ++ body ++ t) end_ (end_ + LOGENTRYHEADERSIZE + lenz msg);
   p ← idx (write_at p end_ (entry_header id req lvl (lenz msg)));
   p ← idx (write_at p (end_ + LOGENTRYHEADERSIZE) msg);
   p ← idx (write_at p 24 (le_bytes 8 LOGAREABUFFERHEADERSIZE));
   idx (write_at p 32 (le_bytes 8 (end_ + LOGENTRYHEADERSIZE + lenz msg)))) =
  Ok (area_header v LOGAREABUFFERHEADERSIZE (end_ + LOGENTRYHEADERSIZE + lenz msg) ++
      body ++ enc (mkEntry id req lvl msg) ++ drop (Z.to_nat (LOGENTRYHEADERSIZE + lenz msg)) t) :> PageM bytes.
Proof.
  intros He Ht. pose proof (lenz_nonneg msg) as Hm.
  assert (lenz (area_header v s e ++ body) = end_) as Hh by (rewrite lenz_app, lenz_area_header; done).
  rewrite app_assoc, fill0_tail by (rewrite ?Hh; unfold LOGENTRYHEADERSIZE in *; lia). cbn [mbind outcome_bind].
  replace (end_ + LOGENTRYHEADERSIZE + lenz msg - end_) with (LOGENTRYHEADERSIZE + lenz msg) by lia.
  assert (lenz (zeros (LOGENTRYHEADERSIZE + lenz msg)) = LOGENTRYHEADERSIZE + lenz msg) as Hz by (apply lenz_zeros; unfold LOGENTRYHEADERSIZE; lia).
  rewrite write_tail by (rewrite ?Hh, ?lenz_app, ?Hz, ?lenz_entry_header; pose proof (lenz_nonneg (drop (Z.to_nat (LOGENTRYHEADERSIZE + lenz msg)) t)); lia).
  cbn [idx mbind outcome_bind]. rewrite zeros_add by (unfold LOGENTRYHEADERSIZE; lia).
  rewrite <-(app_assoc (zeros LOGENTRYHEADERSIZE)).
  assert (length (entry_header id req lvl (lenz msg)) = length (zeros LOGENTRYHEADERSIZE)) as Hl.
  { pose proof (lenz_entry_header id req lvl (lenz msg)) as H1. unfold lenz in H1 at 1. rewrite length_zeros. unfold LOGENTRYHEADERSIZE in *. lia. }
  rewrite Hl, drop_app_length. rewrite (app_assoc (area_header v s e ++ body)).
  rewrite (write_at_app _ (zeros (lenz msg))); [|rewrite lenz_app, Hh, lenz_entry_header; done|by rewrite length_zeros, to_nat_lenz].
  cbn [idx mbind outcome_bind]. unfold area_header at 1. rewrite <-!app_assoc.
  set (rest := entry_header _ _ _ _ ++ _).
  rewrite (app_assoc LOGAREA_SIGNATURE), (app_assoc (LOGAREA_SIGNATURE ++ _)).
  rewrite (write_at_app _ (le_bytes 8 s)); [|by rewrite !lenz_app, !lenz_le_bytes|by rewrite !length_le_bytes].
  cbn [idx mbind outcome_bind]. rewrite (app_assoc (_ ++ le_bytes 4 0)).
  rewrite (write_at_app _ (le_bytes 8 e)); [|by rewrite !lenz_app, !lenz_le_bytes|by rewrite !length_le_bytes].
  cbn [idx]. unfold area_header, rest, enc. cbn [en_id en_request en_level en_msg]. by rewrite <-!app_assoc.
Qed.

Lemma start_at v s e t : slice (area_header v s e ++ t) 24 32 = Some (le_bytes 8 s).
Proof.
  unfold area_header. rewrite <-!app_assoc. rewrite (app_assoc LOGAREA_SIGNATURE), (app_assoc (LOGAREA_SIGNATURE ++ _)).
  apply slice_app; by rewrite ?lenz_app, ?lenz_le_bytes.
Qed.

Lemma end_at v s e t : slice (area_header v s e ++ t) 32 40 = Some (le_bytes 8 e).
Proof.
  unfold area_header. rewrite <-!app_assoc.
  rewrite (app_assoc LOGAREA_SIGNATURE), (app_assoc (LOGAREA_SIGNATURE ++ _)), (app_assoc (_ ++ le_bytes 4 0)).
  apply slice_app; by rewrite ?lenz_app, ?lenz_le_bytes.
Qed.

Lemma vcpu_at v s e t : slice (area_header v s e ++ t) 16 20 = Some (le_bytes 4 v).
Proof. unfold area_header. rewrite <-!app_assoc. apply slice_app; by rewrite ?lenz_app, ?lenz_le_bytes. Qed.

Lemma le_val_u n z : in_u (8 * Z.of_nat n) z → le_val (le_bytes n z) = z.
Proof. intros H. rewrite le_val_bytes. by apply Z.mod_small. Qed.

Lemma entry_end_small a n : 0 <= a → 0 <= n → a + LOGENTRYHEADERSIZE + n < 2 ^ 64 → entry_end a n = Ok (a + LOGENTRYHEADERSIZE + n).
Proof.
  intros Ha Hn H. unfold entry_end, add_u, checked_add. rewrite (proj2 (Z.ltb_lt _ _)) by lia. cbn [idx mbind outcome_bind].
  by rewrite (proj2 (Z.ltb_lt _ _)).
Qed.

Lemma reset_start_first p : reset_start p LOGAREABUFFERHEADERSIZE = Ok (p, LOGAREABUFFERHEADERSIZE).
Proof. reflexivity. Qed.

(** Where the next entry goes in an area, and that it fits there. *)
Lemma make_room_exact v es rest n : 0 <= n <= MSG_MAX → lenz (enc_all es ++ rest) = LOG_PAGE_SIZE - LOGAREABUFFERHEADERSIZE →
  let e := LOGAREABUFFERHEADERSIZE + lenz (enc_all es) in
  let h := area_header v LOGAREABUFFERHEADERSIZE e in
  make_room (h ++ enc_all es ++ rest) LOGAREABUFFERHEADERSIZE e n =
    Ok (if LOG_PAGE_SIZE <? e + LOGENTRYHEADERSIZE + n
        then (h ++ enc_all es ++ zeros (lenz rest), LOGAREABUFFERHEADERSIZE, LOGAREABUFFERHEADERSIZE)
        else (h ++ enc_all es ++ rest, LOGAREABUFFERHEADERSIZE, e)).
Proof.
  intros Hn Hl e h. pose proof (lenz_nonneg (enc_all es)) as Hes. pose proof (lenz_nonneg rest) as Hr.
  rewrite lenz_app in Hl. unfold make_room. rewrite entry_end_small by (unfold e; sizes). cbn [mbind outcome_bind].
  rewrite (proj2 (Z.ltb_ge e LOGAREABUFFERHEADERSIZE)) by (unfold e; lia). rewrite orb_false_r.
  destruct (LOG_PAGE_SIZE <? e + LOGENTRYHEADERSIZE + n); [|done].
  rewrite (app_assoc h), fill0_tail by (rewrite ?lenz_app; unfold h, e; rewrite ?lenz_area_header; lia).
  cbn [mbind outcome_bind]. rewrite (proj2 (Z.ltb_ge _ _)) by done.
  replace (LOG_PAGE_SIZE - e) with (lenz rest) by (unfold e; lia).
  by rewrite to_nat_lenz, drop_all, app_nil_r, <-app_assoc.
Qed.

(** An append to an area: the entry goes after the others, or to the start of a
    page whose free part is cleared. *)
Lemma append_exact v es rest id req lvl msg : lenz msg <= MSG_MAX → lenz (enc_all es ++ rest) = LOG_PAGE_SIZE - LOGAREABUFFERHEADERSIZE →
  let e := LOGAREABUFFERHEADERSIZE + lenz (enc_all es) in
  let x := mkEntry id req lvl msg in
  append_entry (area_header v LOGAREABUFFERHEADERSIZE e ++ enc_all es ++ rest) id req lvl msg =
    Ok (if LOG_PAGE_SIZE <? e + lenz (enc x)
        then area_header v LOGAREABUFFERHEADERSIZE (LOGAREABUFFERHEADERSIZE + lenz (enc x)) ++ enc x ++ drop (length (enc x)) (enc_all es ++ zeros (lenz rest))
        else area_header v LOGAREABUFFERHEADERSIZE (e + lenz (enc x)) ++ enc_all es ++ enc x ++ drop (length (enc x)) rest).
Proof.
  intros Hm Hl e x. pose proof (lenz_nonneg msg) as Hm0. pose proof (lenz_nonneg (enc_all es)) as Hes. pose proof (lenz_nonneg rest) as Hr.
  pose proof (make_room_exact v es rest (lenz msg) ltac:(lia) Hl) as Hroom. cbv zeta in Hroom. fold e in Hroom.
  rewrite lenz_app in Hl. assert (in_u 64 e) as He by (unfold e, in_u; sizes).
  unfold append_entry. rewrite start_at, end_at. cbn [idx mbind outcome_bind].
  rewrite (le_val_u 8 e), (le_val_u 8 LOGAREABUFFERHEADERSIZE) by done. rewrite Hroom. cbn [mbind outcome_bind].
  assert (lenz (enc x) = LOGENTRYHEADERSIZE + lenz msg) as Hx by apply lenz_enc.
  replace (length (enc x)) with (Z.to_nat (LOGENTRYHEADERSIZE + lenz msg)) by (unfold lenz in *; lia). rewrite Hx, Z.add_assoc.
  assert (as_u 32 (lenz msg) = lenz msg) as -> by (apply Z.mod_small; sizes).
  destruct (Z.ltb_spec LOG_PAGE_SIZE (e + LOGENTRYHEADERSIZE + lenz msg)) as [Hf|Hf];
    rewrite reset_start_first; cbn [mbind outcome_bind]; rewrite entry_end_small by sizes; cbn [mbind outcome_bind].
  - pose proof (store_entry v LOGAREABUFFERHEADERSIZE e [] (enc_all es ++ zeros (lenz rest)) id req lvl msg LOGAREABUFFERHEADERSIZE) as Hst.
    cbn [app] in Hst. rewrite Hst by (try done; rewrite lenz_app, lenz_zeros by lia; unfold e in *; sizes).
    by rewrite Z.add_assoc.
  - apply (store_entry v LOGAREABUFFERHEADERSIZE e (enc_all es) rest id req lvl msg); [done|]. unfold e in Hf. sizes.
Qed.

(** An append to an area, complete: it succeeds, and the entry is in place. *)
Lemma append_area v es p id req lvl msg : area v es p → lenz msg <= MSG_MAX →
  ∃ p', append_entry p id req lvl msg = Ok p' ∧ area v (push es (mkEntry id req lvl msg)) p'.
Proof.
  intros [Hp [rest ->]] Hm. rewrite lenz_app, lenz_area_header in Hp.
  pose proof (append_exact v es rest id req lvl msg Hm ltac:(lia)) as E. cbv zeta in E. rewrite E. eexists. split; [done|].
  clear E. rewrite lenz_app in Hp. pose proof (lenz_nonneg (enc_all es)). pose proof (lenz_nonneg rest). pose proof (lenz_nonneg msg).
  set (x := mkEntry id req lvl msg). assert (lenz (enc x) = LOGENTRYHEADERSIZE + lenz msg) as Hx by apply lenz_enc.
  unfold push. destruct (Z.ltb_spec LOG_PAGE_SIZE (LOGAREABUFFERHEADERSIZE + lenz (enc_all es) + lenz (enc x))) as [Hf|Hf].
  - split; [|rewrite enc_all_one; by eexists]. rewrite !lenz_app, lenz_area_header. unfold lenz at 2.
    rewrite length_drop, length_app, length_zeros. unfold lenz in *. sizes.
  - split.
    + rewrite !lenz_app, lenz_area_header. unfold lenz at 3. rewrite length_drop. unfold lenz in *. sizes.
    + rewrite enc_all_app, enc_all_one, lenz_app, !Z.add_assoc. eexists. by rewrite <-!app_assoc.
Qed.

(** ** Reading an area

    A reader starts at the start offset and takes entries up to the end offset. *)
Fixpoint walk (fuel : nat) (p : bytes) (pos end_ : Z) : option (list entry) :=
  if pos =? end_ then Some []
  else match fuel with
  | O => None
  | S fuel =>
      h ← slice p pos (pos + 24);
      lvl ← nthz h 16;
      let len := le_val (take 4 (drop 20 h)) in
      msg ← slice p (pos + 24) (pos + 24 + len);
      rest ← walk fuel p (pos + 24 + len) end_;
      Some (mkEntry (le_val (take 8 h)) (le_val (take 8 (drop 8 h))) lvl msg :: rest)
  end.

Definition vmm_read (p : bytes) : option (list entry) :=
  s ← slice p 24 32;
  e ← slice p 32 40;
  walk (length p) p (le_val s) (le_val e).

Definition entry_ok (e : entry) : Prop := in_u 64 (en_id e) ∧ in_u 64 (en_request e) ∧ lenz (en_msg e) <= MSG_MAX.

Lemma entry_header_fields a b c d : in_u 64 a → in_u 64 b → in_u 32 d → let h := entry_header a b c d in
  le_val (take 8 h) = a ∧ le_val (take 8 (drop 8 h)) = b ∧ nthz h 16 = Some c ∧ le_val (take 4 (drop 20 h)) = d.
Proof.
  intros Ha Hb Hd. unfold entry_header. cbv zeta.
  rewrite !(take_app_length' (le_bytes 8 a)), (drop_app_length' (le_bytes 8 a)), (take_app_length' (le_bytes 8 b)) by (by rewrite length_le_bytes).
  rewrite (le_val_u 8 a), (le_val_u 8 b) by done. split_and!; try done.
  rewrite (app_assoc (le_bytes 8 a)), (app_assoc (le_bytes 8 a ++ _) [c]), (app_assoc ((le_bytes 8 a ++ _) ++ [c])).
    rewrite drop_app_length' by (rewrite !length_app, !length_le_bytes; done).
    rewrite take_ge by (by rewrite length_le_bytes). by apply (le_val_u 4).
Qed.

Lemma walk_area es fuel (pre post : bytes) : Forall entry_ok es → (length es <= fuel)%nat →
  walk fuel (pre ++ enc_all es ++ post) (lenz pre) (lenz pre + lenz (enc_all es)) = Some es.
Proof.
  revert fuel pre. induction es as [|e es IH]; intros fuel pre Hok Hf.
  { change (lenz (enc_all [])) with 0. rewrite Z.add_0_r. destruct fuel; cbn [walk]; by rewrite Z.eqb_refl. }
  apply Forall_cons in Hok as [(Hi & Hr & Hm) Hok]. destruct fuel as [|fuel]; [cbn in Hf; lia|]. cbn [walk].
  pose proof (lenz_nonneg (en_msg e)) as Hm0. pose proof (lenz_nonneg (enc_all es)) as He0.
  change (e :: es) with ([e] ++ es). rewrite enc_all_app, enc_all_one, lenz_app, lenz_enc.
  rewrite (proj2 (Z.eqb_neq _ _)) by sizes. unfold enc. rewrite <-!app_assoc.
  destruct (entry_header_fields (en_id e) (en_request e) (en_level e) (lenz (en_msg e)) Hi Hr) as (E1 & E2 & E3 & E4); [unfold in_u; sizes|].
  rewrite (slice_app pre (entry_header _ _ _ _)) by (rewrite ?lenz_entry_header; done). cbn [mbind option_bind].
  rewrite E3. cbn [mbind option_bind]. rewrite E4, (app_assoc pre).
  rewrite (slice_app (pre ++ _) (en_msg e)) by (rewrite ?lenz_app, ?lenz_entry_header; done). cbn [mbind option_bind].
  rewrite (app_assoc (pre ++ _)).
  replace (lenz pre + 24 + lenz (en_msg e)) with (lenz ((pre ++ entry_header (en_id e) (en_request e) (en_level e) (lenz (en_msg e))) ++ en_msg e))
    by (by rewrite !lenz_app, lenz_entry_header).
  replace (lenz pre + (LOGENTRYHEADERSIZE + lenz (en_msg e) + lenz (enc_all es)))
    with (lenz ((pre ++ entry_header (en_id e) (en_request e) (en_level e) (lenz (en_msg e))) ++ en_msg e) + lenz (enc_all es))
    by (rewrite !lenz_app, lenz_entry_header; lia).
  rewrite IH by (done || (cbn in Hf; lia)). cbn [mbind option_bind]. rewrite E1, E2. by destruct e.
Qed.

Lemma enc_all_length es : (length es <= length (enc_all es))%nat.
Proof.
  induction es as [|e es IH]; [done|]. change (e :: es) with ([e] ++ es). rewrite enc_all_app, enc_all_one, !length_app.
  pose proof (lenz_enc e) as H. pose proof (lenz_nonneg (en_msg e)). unfold lenz in *. unfold LOGENTRYHEADERSIZE in *. cbn [length]. lia.
Qed.

(** What is in an area is what a reader finds. *)
Lemma area_read v es p : area v es p → Forall entry_ok es → vmm_read p = Some es.
Proof.
  intros [Hl [rest ->]] Hok. unfold vmm_read. rewrite start_at, end_at. cbn [mbind option_bind].
  rewrite !lenz_app, lenz_area_header in Hl. pose proof (lenz_nonneg rest). pose proof (lenz_nonneg (enc_all es)).
  rewrite (le_val_u 8 LOGAREABUFFERHEADERSIZE), (le_val_u 8 (_ + _)) by (done || (unfold in_u; sizes)).
  rewrite <-(lenz_area_header v LOGAREABUFFERHEADERSIZE (LOGAREABUFFERHEADERSIZE + lenz (enc_all es))) at 2 3.
  apply walk_area; [done|]. pose proof (enc_all_length es). rewrite !length_app. lia.
Qed.

(** ** The logger against its abstract state

    Per CPU the entries of its page; [al_public] once the VMM has enabled the
    areas. *)
Record alog := mkAlog {
  al_public : bool; al_max : Z; al_id : Z; al_logger : bool; al_filter : LevelFilter.t; al_entries : list (list entry) }.

Section logger.
Context (debug : bool).

Definition al_admits (level : Level.t) (a : alog) : bool :=
  level_le level (al_filter a) && al_logger a
  && level_le level (if al_public a then u8_to_levelfilter (al_max a) else if debug then LevelFilter.Trace else LevelFilter.Info)
  && (if al_public a then loglevel_to_u8 level <=? al_max a else true).

Definition al_request (request : option (option Z)) : Z :=
  match request with Some (Some r) => r | _ => MIGRATION_REQUEST_ID_SENTINEL end.

Definition al_append (i : Z) (x : entry) (a : alog) : alog :=
  mkAlog (al_public a) (al_max a) (en_id x) (al_logger a) (al_filter a) (alter (λ es, push es x) (Z.to_nat i) (al_entries a)).

Definition al_record (cpu : option Z) (level : Level.t) (request : option (option Z)) (args : bytes) (a : alog) : alog :=
  match cpu with
  | Some i =>
      if al_admits level a && (lenz (args ++ [10]) <=? MSG_MAX)
      then al_append i (mkEntry (next_id (al_id a)) (al_request request) (loglevel_to_u8 level) (args ++ [10])) a else a
  | None => a
  end.

Definition al_publish (m : Z) (a : alog) : alog :=
  mkAlog true m (al_id a) (al_logger a) (u8_to_levelfilter m) (al_entries a).

Definition al_enable (cpu : option Z) (level request : Z) (a : alog) : alog :=
  let m := if debug then level else Z.min level 3 in
  match u8_to_loglevel m with
  | Some _ => al_record cpu Level.Info (Some (Some request))
      (as_bytes "enable_logarea: Logging has been enabled with MaxLevel: " ++ dec_u8 m ++ [10]) (al_publish m a)
  | None => al_record cpu Level.Error (Some (Some request))
      (as_bytes "enable_logarea: rejected request with invalid MaxLogLevel: " ++ dec_u8 m ++ [10]) a
  end.

(** The page of CPU [i] holds the entries [es]. *)
Definition holds_entries (pages : list bytes) (entries : list (list entry)) : Prop :=
  length pages = length entries ∧
  ∀ i es, entries !! i = Some es → Forall entry_ok es ∧ ∃ p, pages !! i = Some p ∧ area (Z.of_nat i) es p.

(** The state represents [a]. *)
Record represents (a : alog) (s : Logging) : Prop := {
  re_created : logarea_created s = true;
  re_cpus : num_vcpus s = lenz (al_entries a);
  re_few : lenz (al_entries a) <= 2 ^ 32;
  re_public : logarea_initialized s = al_public a;
  re_private : provisional_logs_enabled s = negb (al_public a);
  re_max : maxloglevel s = al_max a;
  re_id : logentry_id s = al_id a ∧ in_u 64 (al_id a);
  re_gate : logger_set s = al_logger a ∧ max_level s = al_filter a;
  re_shared : length (logareas s) = length (al_entries a) ∧ Forall (λ e, lenz e.2 = LOG_PAGE_SIZE) (logareas s);
  re_pages : holds_entries (if al_public a then (logareas s).*2 else provisional_logareas s) (al_entries a) }.

Definition cpu_ok (a : alog) (cpu : option Z) : Prop := ∀ i, cpu = Some i → 0 <= i < lenz (al_entries a).

Lemma next_id_range v : in_u 64 v → in_u 64 (next_id v).
Proof. unfold next_id, in_u, u_max. intros H. destruct (Z.eqb_spec v (2 ^ 64 - 1)); lia. Qed.

Lemma level_range l : 1 <= loglevel_to_u8 l <= 5.
Proof. destruct l; cbn; lia. Qed.

(** Replacing one page. *)
Lemma holds_alter (pages : list bytes) entries i (p : bytes) es x : holds_entries pages entries → entries !! i = Some es →
  area (Z.of_nat i) (push es x) p → entry_ok x →
  holds_entries (<[i := p]> pages) (alter (λ es, push es x) i entries).
Proof.
  intros [Hl H] He Hp Hx. split; [by rewrite length_insert, length_alter|].
  intros j es' Hj. destruct (decide (j = i)) as [->|Hn].
  - rewrite list_lookup_alter_eq, He in Hj. injection Hj as <-. split.
    + unfold push. destruct (H _ _ He) as [Hok _]. destruct (_ <? _); [by apply Forall_singleton|].
      apply Forall_app. split; [done|by apply Forall_singleton].
    + exists p. split; [|done]. apply list_lookup_insert_eq. rewrite Hl. by eapply lookup_lt_Some.
  - rewrite list_lookup_alter_ne in Hj by done. rewrite list_lookup_insert_ne by done. by apply H.
Qed.

Lemma alter_snd (f : Z * bytes → Z * bytes) i (p : bytes) (l : list (Z * bytes)) : (∀ e, f e = (e.1, p)) → (alter f i l).*2 = <[i := p]> l.*2.
Proof.
  intros Hf. apply list_eq. intros j. rewrite list_lookup_fmap. destruct (decide (j = i)) as [->|Hn].
  - rewrite list_lookup_alter_eq. destruct (l !! i) as [e|] eqn:El; cbn.
    + rewrite list_lookup_insert_eq by (rewrite length_fmap; by eapply lookup_lt_Some). by rewrite Hf.
    + symmetry. apply lookup_ge_None. rewrite length_insert, length_fmap. by apply lookup_ge_None.
  - rewrite list_lookup_alter_ne, list_lookup_insert_ne by done. by rewrite list_lookup_fmap.
Qed.

(** Records leave the response and the addresses of the areas alone. *)
Definition frame (s s' : Logging) : Prop := rsp_data s' = rsp_data s ∧ (logareas s').*1 = (logareas s).*1.

Lemma alter_fst (f : Z * bytes → Z * bytes) i (l : list (Z * bytes)) : (∀ e, (f e).1 = e.1) → (alter f i l).*1 = l.*1.
Proof.
  intros Hf. revert i. induction l as [|e l IH]; intros [|i]; cbn; try done; [by rewrite Hf|]. f_equal. apply IH.
Qed.

Definition al_write (cpu : option Z) (level : Level.t) (request : Z) (msg : bytes) (a : alog) : alog :=
  match cpu with
  | Some i =>
      if (if al_public a then loglevel_to_u8 level <=? al_max a else true) && (lenz msg <=? MSG_MAX)
      then al_append i (mkEntry (next_id (al_id a)) request (loglevel_to_u8 level) msg) a else a
  | None => a
  end.

(** The page of a CPU, and the page after an append. *)
Lemma page_of_cpu_area a s i : represents a s → 0 <= i < lenz (al_entries a) →
  ∃ es p, al_entries a !! Z.to_nat i = Some es ∧ Forall entry_ok es ∧ area i es p ∧
    page_of_cpu (negb (al_public a)) i s = (Ok p, s).
Proof.
  intros R Hi. unfold lenz in Hi. destruct (lookup_lt_is_Some_2 (al_entries a) (Z.to_nat i)) as [es He]; [lia|].
  destruct (re_pages _ _ R) as [_ Hp]. destruct (Hp _ _ He) as (Hok & p & Hpi & Ha). rewrite Z2Nat.id in Ha by lia.
  exists es, p. split_and!; try done. unfold page_of_cpu. rewrite getS_bind. unfold nthz. rewrite (proj2 (Z.leb_le 0 i)) by lia.
  destruct (al_public a); cbn [negb].
  - rewrite list_lookup_fmap in Hpi. destruct (logareas s !! Z.to_nat i) as [[addr q]|]; [|done]. cbn in Hpi. injection Hpi as ->. done.
  - by rewrite Hpi.
Qed.

Lemma store_represents a s i es x p : represents a s → 0 <= i < lenz (al_entries a) → al_entries a !! Z.to_nat i = Some es →
  area i (push es x) p → entry_ok x →
  ∃ s', store_page (negb (al_public a)) i p (set_logentry_id (en_id x) s) = (Ok tt, s') ∧
    represents (al_append i x a) s' ∧ frame s s'.
Proof.
  intros R Hi He Ha Hx. eexists. split; [reflexivity|]. split.
  2: { split; destruct (al_public a); cbn; try done. by rewrite alter_fst. }
  destruct R, Hx as (Hid & Hx).
  assert (holds_entries (<[Z.to_nat i := p]> (if al_public a then (logareas s).*2 else provisional_logareas s))
    (alter (λ es, push es x) (Z.to_nat i) (al_entries a))) as Hh.
  { eapply holds_alter; [done|done|by rewrite Z2Nat.id by lia|done]. }
  destruct (al_public a) eqn:Hpub; cbn [negb] in *; split; cbn [al_append al_public al_entries al_max al_id al_logger al_filter set_pages
    set_logentry_id logarea_created num_vcpus logarea_initialized provisional_logs_enabled maxloglevel logentry_id logger_set max_level
    logareas provisional_logareas]; rewrite ?Hpub; unfold lenz; rewrite ?length_alter; try done.
  - destruct re_shared0 as [Hl Hf]. split; [done|]. apply Forall_alter; [done|]. intros e _ _. cbn. by destruct Ha.
  - by rewrite (alter_snd _ _ p).
Qed.

Lemma entrylog_refines a s cpu msg level request : represents a s → cpu_ok a cpu → in_u 64 request →
  ∃ s', entrylog cpu msg level request s = (Ok tt, s') ∧ represents (al_write cpu level request msg a) s' ∧ frame s s'.
Proof.
  intros R Hc Hr. unfold entrylog. rewrite getS_bind. rewrite (re_public _ _ R), (re_private _ _ R), (re_max _ _ R).
  assert ((al_public a && (loglevel_to_u8 level <=? al_max a)) || (negb (al_public a) && (loglevel_to_u8 level <=? loglevel_to_u8 Level.Trace)) =
    (if al_public a then loglevel_to_u8 level <=? al_max a else true)) as ->.
  { destruct (al_public a); cbn [negb andb orb]; [apply orb_false_r|]. apply Z.leb_le. destruct level; done. }
  unfold al_write. destruct (if al_public a then _ else true); [|exists s; by destruct cpu]. cbn [andb].
  fold MSG_MAX. destruct (Z.ltb_spec MSG_MAX (lenz msg)) as [Hm|Hm].
  { rewrite (proj2 (Z.leb_gt _ _)) by lia. exists s. by destruct cpu. }
  rewrite (proj2 (Z.leb_le _ _)) by lia. destruct cpu as [i|]; [|by exists s]. specialize (Hc i eq_refl).
  destruct (page_of_cpu_area a s i R Hc) as (es & p & He & Hok & Ha & Hpg). rewrite M_bind_eq, Hpg.
  pose proof (re_few _ _ R) as Hfew. destruct (re_id _ _ R) as [Hid Hidr].
  assert (slice p 16 20 = Some (le_bytes 4 i)) as -> by (destruct Ha as [_ [rest ->]]; apply vcpu_at).
  rewrite or_panic_bind. rewrite (le_val_u 4 i) by (unfold in_u; lia). rewrite Z.eqb_refl. cbn [negb].
  rewrite modifyS_bind, getS_bind. cbn [logentry_id set_logentry_id]. rewrite Hid.
  set (x := mkEntry (next_id (al_id a)) request (loglevel_to_u8 level) msg).
  destruct (append_area i es p (next_id (al_id a)) request (loglevel_to_u8 level) msg Ha Hm) as (p' & Hp' & Ha'). rewrite Hp'. cbn [page_op].
  rewrite ret_bind. apply (store_represents a s i es x p'); try done. split_and!; [by apply next_id_range|done|done].
Qed.

Lemma log_record_refines a s cpu level request args : represents a s → cpu_ok a cpu → in_u 64 (al_request request) →
  ∃ s', log_record debug cpu level request args s = (Ok tt, s') ∧ represents (al_record cpu level request args a) s' ∧ frame s s'.
Proof.
  intros R Hc Hr. unfold log_record, backend_log. rewrite getS_bind. destruct (re_gate _ _ R) as [-> ->].
  destruct (level_le level (al_filter a) && al_logger a) eqn:Hg.
  2: { exists s. split; [done|]. unfold al_record, al_admits. rewrite Hg. by destruct cpu. }
  rewrite getS_bind. unfold enabled. rewrite (re_public _ _ R), (re_private _ _ R), (re_max _ _ R).
  assert ((if al_public a then u8_to_levelfilter (al_max a)
     else if negb (al_public a) then if debug then LevelFilter.Trace else LevelFilter.Info else max_level s) =
     (if al_public a then u8_to_levelfilter (al_max a) else if debug then LevelFilter.Trace else LevelFilter.Info)) as ->
     by (by destruct (al_public a)).
  destruct (level_le level (if al_public a then _ else _)) eqn:He.
  2: { exists s. split; [done|]. unfold al_record, al_admits. rewrite He, andb_false_r. by destruct cpu. }
  destruct (entrylog_refines a s cpu (args ++ [10]) level (al_request request) R Hc Hr) as (s' & Hs & HR & Hf).
  exists s'. split; [exact Hs|]. split; [|exact Hf]. revert HR. unfold al_write, al_record, al_admits. rewrite Hg, He. done.
Qed.

(** *** Enabling the areas *)

(** The table the VMM gets: the address and the size of every area. *)
Definition table (addrs : list Z) : bytes := concat ((λ a, le_bytes 8 a ++ le_bytes 8 LOG_PAGE_SIZE) <$> addrs).

Lemma table_cons a l : table (a :: l) = le_bytes 8 a ++ le_bytes 8 LOG_PAGE_SIZE ++ table l.
Proof. unfold table. cbn. by rewrite <-app_assoc. Qed.

(** Every private page has the size of the shared page it is copied to. *)
Definition copyable (s : Logging) : Prop :=
  ∀ i e, logareas s !! i = Some e → lenz e.2 = LOG_PAGE_SIZE ∧ ∃ p, provisional_logareas s !! i = Some p ∧ lenz p = LOG_PAGE_SIZE.

(** One turn of the loop. *)
Lemma publish_step (provisional : bool) index s e : 0 <= index → logareas s !! Z.to_nat index = Some e → (provisional = true → copyable s) →
  ∃ areas, (_ ← (if provisional then
             p ← or_panic (nthz (provisional_logareas s) index);
             if lenz p =? lenz e.2 then store_page false index p else panicM
           else mret tt);
      extend_data (le_bytes 8 e.1 ++ le_bytes 8 LOG_PAGE_SIZE)) s =
    (Ok tt, set_rsp_data (rsp_data s ++ le_bytes 8 e.1 ++ le_bytes 8 LOG_PAGE_SIZE) (set_pages areas (provisional_logareas s) (freed s) s)) ∧
    areas.*1 = (logareas s).*1 ∧
    (∀ i e, logareas s !! i = Some e → ∃ e', areas !! i = Some e' ∧ (lenz e.2 = LOG_PAGE_SIZE → lenz e'.2 = LOG_PAGE_SIZE) ∧
      if provisional && bool_decide (i = Z.to_nat index) then provisional_logareas s !! i = Some e'.2 else e' = e).
Proof.
  intros Hi He Hp. destruct provisional.
  2: { exists (logareas s). split; [by destruct s|]. split; [done|]. intros i e' Hx. by exists e'. }
  destruct (Hp eq_refl _ _ He) as (Hle & p & Hpp & Hlp).
  exists (alter (λ x : Z * bytes, (x.1, p)) (Z.to_nat index) (logareas s)). split.
  { assert (nthz (provisional_logareas s) index = Some p) as Hn by (unfold nthz; by rewrite (proj2 (Z.leb_le 0 index))).
    rewrite M_bind_eq, Hn, or_panic_bind, Hle, Hlp. done. }
  split.
  - apply list_eq. intros i. rewrite !list_lookup_fmap, list_lookup_alter. case_decide; [subst|done]. by destruct (logareas s !! _).
  - intros i x Hx. rewrite list_lookup_alter. case_decide as Hd.
    + subst i. exists (x.1, p). rewrite bool_decide_eq_true_2 by done. split; [exact (f_equal (fmap (λ x, (x.1, p))) Hx)|done].
    + exists x. rewrite bool_decide_eq_false_2 by congruence. done.
Qed.

Lemma publish_loop_spec (provisional : bool) count index s : 0 <= index → length (logareas s) = (Z.to_nat index + count)%nat →
  (provisional = true → copyable s) →
  ∃ areas, publish_loop provisional index count s =
      (Ok tt, set_rsp_data (rsp_data s ++ table (drop (Z.to_nat index) (logareas s).*1))
                (set_pages areas (provisional_logareas s) (freed s) s)) ∧
    areas.*1 = (logareas s).*1 ∧
    (∀ i e, logareas s !! i = Some e → ∃ e', areas !! i = Some e' ∧ (lenz e.2 = LOG_PAGE_SIZE → lenz e'.2 = LOG_PAGE_SIZE) ∧
      if provisional && (index <=? Z.of_nat i) then provisional_logareas s !! i = Some e'.2 else e' = e).
Proof.
  revert index s. induction count as [|count IH]; intros index s Hi Hl Hp; cbn [publish_loop].
  { exists (logareas s). split; [|split; [done|]].
    - rewrite drop_ge by (rewrite length_fmap; lia). change (table []) with (@nil Z). rewrite app_nil_r. by destruct s.
    - intros i e He. apply lookup_lt_Some in He as Hlt. exists e. rewrite (proj2 (Z.leb_gt _ _)) by lia. by rewrite andb_false_r. }
  rewrite getS_bind. destruct (lookup_lt_is_Some_2 (logareas s) (Z.to_nat index)) as [e He]; [lia|].
  assert (nthz (logareas s) index = Some e) as -> by (unfold nthz; by rewrite (proj2 (Z.leb_le 0 index))).
  rewrite or_panic_bind. destruct (publish_step provisional index s e Hi He Hp) as (a1 & Hs1 & Ha1 & Hpt1).
  rewrite M_bind_eq in Hs1. rewrite M_bind_eq. 
  match type of Hs1 with context [let (_, _) := ?m in _] => destruct m as [[u| |] s0] eqn:E0 end; try done.
  rewrite M_bind_eq. rewrite Hs1. clear Hs1 E0 s0 u. set (s1 := set_rsp_data _ _).
  assert (length a1 = length (logareas s)) as Hla by (pose proof (f_equal length Ha1) as H; by rewrite !length_fmap in H).
  destruct (IH (index + 1) s1) as (a2 & Hs2 & Ha2 & Hpt2); [lia|cbn; rewrite Hla; lia| |].
  { intros ->. intros i e1 H1. cbn in H1. destruct (lookup_lt_is_Some_2 (logareas s) i) as [e0 H0]; [rewrite <-Hla; by eapply lookup_lt_Some|].
    destruct (Hp eq_refl _ _ H0) as (Hl0 & Hex). destruct (Hpt1 _ _ H0) as (e' & He' & Hle' & _). rewrite H1 in He'. injection He' as <-. auto. }
  exists a2. rewrite Hs2. cbn. split; [|split].
  - assert ((logareas s).*1 !! Z.to_nat index = Some e.1) as H1 by (rewrite list_lookup_fmap; exact (f_equal (fmap fst) He)).
    rewrite Ha1, (drop_S _ _ _ H1), table_cons. replace (Z.to_nat (index + 1)) with (S (Z.to_nat index)) by lia. by rewrite <-!app_assoc.
  - by rewrite Ha2.
  - intros i e0 H0. destruct (Hpt1 _ _ H0) as (e1 & H1 & Hl1 & Hc1). destruct (Hpt2 i e1 H1) as (e2 & H2 & Hl2 & Hc2).
    exists e2. split; [done|]. split; [auto|]. cbn in Hc2. destruct provisional; cbn [andb] in *; [|congruence].
    destruct (Z.leb_spec (index + 1) (Z.of_nat i)), (Z.leb_spec index (Z.of_nat i)), (bool_decide_reflect (i = Z.to_nat index)); try lia; try congruence.
Qed.

Lemma area_size v es p : area v es p → lenz p = LOG_PAGE_SIZE.
Proof. by intros []. Qed.

Lemma represents_copyable a s : represents a s → al_public a = false → copyable s.
Proof.
  intros R Hp i e He. destruct (re_shared _ _ R) as [Hl Hf]. split; [exact (proj1 (Forall_forall _ _) Hf e (list_elem_of_lookup_2 _ _ _ He))|].
  destruct (re_pages _ _ R) as [_ Hpg]. rewrite Hp in Hpg.
  destruct (lookup_lt_is_Some_2 (al_entries a) i) as [es Hes]; [rewrite <-Hl; by eapply lookup_lt_Some|].
  destruct (Hpg _ _ Hes) as (_ & p & H1 & H2). exists p. split; [done|by eapply area_size].
Qed.

(** The state after the areas are published. *)
Lemma publish_represents a s m areas : represents a s →
  areas.*1 = (logareas s).*1 →
  (∀ i e, logareas s !! i = Some e → ∃ e', areas !! i = Some e' ∧ (lenz e.2 = LOG_PAGE_SIZE → lenz e'.2 = LOG_PAGE_SIZE) ∧
     if negb (al_public a) && (0 <=? Z.of_nat i) then provisional_logareas s !! i = Some e'.2 else e' = e) →
  ∀ d prov b, b = false → represents (al_publish m a)
    (mkLogging (num_vcpus s) (logarea_created s) true (logentry_id s) b m areas prov (freed s) (logger_set s) (u8_to_levelfilter m) d).
Proof.
  intros R Ha Hpt d prov b ->. assert (length areas = length (logareas s)) as Hla
    by (pose proof (f_equal length Ha) as H; by rewrite !length_fmap in H).
  destruct R as [Hcr Hcpu Hfew Hpub Hpriv Hmax [Hid Hidr] [Hlog Hfil] [Hsl Hsf] [Hpl Hpp]].
  split; cbn [al_publish al_entries al_public al_max al_id al_logger al_filter num_vcpus logarea_created logarea_initialized logentry_id
    provisional_logs_enabled maxloglevel logareas provisional_logareas logger_set max_level]; try done.
  - split; [by rewrite Hla|]. apply Forall_lookup. intros i e' He'.
    destruct (lookup_lt_is_Some_2 (logareas s) i) as [e He]; [rewrite <-Hla; by eapply lookup_lt_Some|].
    destruct (Hpt _ _ He) as (e'' & He'' & Hl & _). rewrite He' in He''. injection He'' as <-. apply Hl.
    exact (proj1 (Forall_forall _ _) Hsf e (list_elem_of_lookup_2 _ _ _ He)).
  - split; [rewrite length_fmap; by rewrite Hla|]. intros i es Hes. destruct (Hpp _ _ Hes) as (Hok & p & Hp & Har). split; [done|].
    exists p. split; [|done]. destruct (lookup_lt_is_Some_2 (logareas s) i) as [e He]; [rewrite Hsl; by eapply lookup_lt_Some|].
    destruct (Hpt _ _ He) as (e' & He' & _ & Hc). rewrite list_lookup_fmap, He'. cbn.
    rewrite (proj2 (Z.leb_le 0 _)), andb_true_r in Hc by lia. destruct (al_public a); cbn [negb] in Hc.
    + subst e'. rewrite list_lookup_fmap, He in Hp. done.
    + by rewrite Hp in Hc.
Qed.

Lemma free_provisional_run s : free_provisional_logarea s =
  (Ok tt, if provisional_logs_enabled s then set_provisional_off s else s).
Proof. unfold free_provisional_logarea. rewrite getS_bind. by destruct (provisional_logs_enabled s). Qed.

Lemma enable_refines a s cpu level request : represents a s → cpu_ok a cpu → in_u 64 request →
  ∃ r s', enable_logarea debug cpu level request s = (r, s') ∧ represents (al_enable cpu level request a) s' ∧
    ((r = Ok tt ∧ rsp_data s' = rsp_data s ++ le_bytes 4 (lenz (al_entries a)) ++ le_bytes 4 0 ++ table (logareas s).*1) ∨
     r = Err (Failed MigrationResult.InvalidParameter) ∧ u8_to_loglevel (if debug then level else Z.min level 3) = None).
Proof.
  intros R Hc Hr. unfold enable_logarea, al_enable. rewrite getS_bind, (re_created _ _ R). cbn [negb].
  set (m := if debug then level else Z.min level 3). destruct (u8_to_loglevel m) as [l|].
  2: { destruct (log_record_refines a s cpu Level.Error (Some (Some request))
         (as_bytes "enable_logarea: rejected request with invalid MaxLogLevel: " ++ dec_u8 m ++ [10]) R Hc Hr) as (s' & Hs & HR & _).
       rewrite M_bind_eq, Hs. eexists _, _. split; [reflexivity|]. split; [|by right]. destruct HR. by split. }
  rewrite modifyS_bind. unfold extend_data. rewrite modifyS_bind. rewrite (re_private _ _ R), (re_cpus _ _ R).
  set (s1 := set_rsp_data _ _). unfold lenz at 1. rewrite Nat2Z.id.
  destruct (publish_loop_spec (negb (al_public a)) (length (al_entries a)) 0 s1) as (areas & Hpub & Ha & Hpt).
  { done. } { cbn. by rewrite (proj1 (re_shared _ _ R)). } { intros Hn. apply (represents_copyable a s R). by destruct (al_public a). }
  rewrite M_bind_eq, Hpub, M_bind_eq, free_provisional_run, modifyS_bind, modifyS_bind.
  set (s2 := set_logger _ _ _).
  assert (represents (al_publish m a) s2 ∧ rsp_data s2 = rsp_data s ++ le_bytes 4 (lenz (al_entries a)) ++ le_bytes 4 0 ++ table (logareas s).*1 ∧
    (logareas s2).*1 = (logareas s).*1) as (R2 & Hrsp & _).
  { unfold s2, s1. cbn. rewrite (re_private _ _ R). cbn in Ha, Hpt. rewrite drop_0.
    destruct (negb (al_public a)) eqn:Hn; cbn; (split; [|by rewrite <-!app_assoc]); apply (publish_represents a s m areas R Ha); try done.
    all: first [by rewrite Hn|exact (eq_trans (re_private _ _ R) Hn)]. }
  destruct (log_record_refines (al_publish m a) s2 cpu Level.Info (Some (Some request))
    (as_bytes "enable_logarea: Logging has been enabled with MaxLevel: " ++ dec_u8 m ++ [10]) R2 Hc Hr) as (s3 & Hs3 & R3 & [Hf _]).
  exists (Ok tt), s3. split; [exact Hs3|]. split; [done|]. left. by rewrite Hf.
Qed.

(** *** Creating the areas *)

Lemma first_area i p : write_at (zeros LOG_PAGE_SIZE) 0 (area_header i LOGAREABUFFERHEADERSIZE LOGAREABUFFERHEADERSIZE) = Some p → area i [] p.
Proof.
  intros Hw. assert (lenz (zeros LOG_PAGE_SIZE) = LOG_PAGE_SIZE) as Hz by (apply lenz_zeros; sizes).
  pose proof (write_tail [] (zeros LOG_PAGE_SIZE) (area_header i LOGAREABUFFERHEADERSIZE LOGAREABUFFERHEADERSIZE) 0 eq_refl) as Ht.
  rewrite lenz_area_header, Hz, !app_nil_l in Ht. rewrite Ht in Hw by sizes. apply (inj Some) in Hw. subst p.
  split; [|eexists; reflexivity]. rewrite lenz_app, lenz_area_header. unfold lenz. rewrite length_drop. unfold lenz in Hz.
  pose proof (lenz_area_header i LOGAREABUFFERHEADERSIZE LOGAREABUFFERHEADERSIZE) as Hh. unfold lenz in Hh. sizes.
Qed.

Lemma header_fits (c : bytes) i : lenz c = LOG_PAGE_SIZE →
  ∃ p, write_at c 0 (area_header i LOGAREABUFFERHEADERSIZE LOGAREABUFFERHEADERSIZE) = Some p ∧ lenz p = LOG_PAGE_SIZE.
Proof. intros Hc. rewrite <-Hc. apply write_at_fits; [done|]. rewrite lenz_area_header. sizes. Qed.

Definition fresh (s : Logging) (n : nat) : Prop :=
  length (logareas s) = n ∧ Forall (λ e, lenz e.2 = LOG_PAGE_SIZE) (logareas s) ∧
  holds_entries (provisional_logareas s) (replicate n []).

Lemma create_loop_spec alloc count index s : 0 <= index → fresh s (Z.to_nat index) →
  (∀ i, index <= i < index + Z.of_nat count → ∃ e, alloc i = Some e ∧ lenz e.2 = LOG_PAGE_SIZE) →
  ∃ areas prov, let s' := set_pages areas prov (freed s) s in
    create_loop alloc index count s = (Ok tt, s') ∧ fresh s' (Z.to_nat index + count).
Proof.
  revert index s. induction count as [|count IH]; intros index s Hi Hf Hal; cbn [create_loop].
  { exists (logareas s), (provisional_logareas s). rewrite Nat.add_0_r. split; [by destruct s|done]. }
  destruct (Hal index) as ([addr c] & -> & Hc); [lia|]. destruct (header_fits c index Hc) as (p & -> & Hp).
  rewrite or_panic_bind. destruct (header_fits (zeros LOG_PAGE_SIZE) index) as (q & Hq & Hlq); [apply lenz_zeros; sizes|].
  rewrite Hq, or_panic_bind, modifyS_bind. apply first_area in Hq. set (s1 := set_pages _ _ _ _).
  destruct Hf as (Hl & Hsz & Hpl & Hpp). destruct (IH (index + 1) s1) as (areas & prov & Hs & Hf'); [lia| |intros; apply Hal; lia|].
  - rewrite Z2Nat.inj_add by lia. split_and!; cbn; [rewrite length_app, Hl; done|apply Forall_app; by rewrite Forall_singleton|].
    rewrite replicate_add. split; [rewrite !length_app, Hpl; done|]. intros i es Hes.
    apply lookup_app_Some in Hes as [Hes|[Hge Hes]].
    + destruct (Hpp _ _ Hes) as (Hok & r & Hr & Har). split; [done|]. exists r. split; [by apply lookup_app_l_Some|done].
    + rewrite length_replicate in Hge, Hes. apply lookup_replicate in Hes as [-> Hlt]. split; [constructor|]. exists q.
      rewrite length_replicate in Hpl. rewrite lookup_app_r, Hpl by lia.
      replace (i - Z.to_nat index)%nat with 0%nat by (change (Z.to_nat 1) with 1%nat in Hlt; lia). split; [done|].
      replace (Z.of_nat i) with index; [done|]. change (Z.to_nat 1) with 1%nat in Hlt. lia.
  - exists areas, prov. cbn in *. split; [by rewrite Hs|]. rewrite Z2Nat.inj_add in Hf' by lia.
    replace (Z.to_nat index + S count)%nat with (Z.to_nat index + Z.to_nat 1 + count)%nat by (change (Z.to_nat 1) with 1%nat; lia). done.
Qed.

(** What is there before the areas are created. *)
Definition blank (s : Logging) : Prop :=
  logareas s = [] ∧ provisional_logareas s = [] ∧ logarea_initialized s = false ∧ in_u 64 (logentry_id s).

Lemma create_represents s r8 alloc : blank s →
  (∀ i, 0 <= i < as_u 32 r8 → ∃ e, alloc i = Some e ∧ lenz e.2 = LOG_PAGE_SIZE) →
  ∃ s', create_logarea (Some r8) alloc s = (Ok tt, s') ∧
    represents (mkAlog false (maxloglevel s) (logentry_id s) (logger_set s) (max_level s) (replicate (Z.to_nat (as_u 32 r8)) [])) s'.
Proof.
  intros (Ha & Hp & Hi & Hid) Hal. unfold create_logarea. rewrite ok_or_bind.
  assert (0 <= as_u 32 r8 < 2 ^ 32) as Hr by (apply Z.mod_pos_bound; lia).
  destruct (create_loop_spec alloc (Z.to_nat (as_u 32 r8)) 0 s) as (areas & prov & Hs & Hf).
  { done. } { unfold fresh. rewrite Ha, Hp. split; [done|]. split; [by apply Forall_nil|]. split; [done|]. intros [|i] es Hx; done. }
  { intros i Hx. apply Hal. lia. }
  cbv zeta. rewrite M_bind_eq, Hs. eexists. split; [reflexivity|]. destruct Hf as (Hl & Hsz & Hh).
  split; cbn [set_created set_pages logarea_created num_vcpus logarea_initialized provisional_logs_enabled maxloglevel logentry_id logger_set
    max_level logareas provisional_logareas al_public al_max al_id al_logger al_filter al_entries negb]; unfold lenz; rewrite ?length_replicate; try done; lia.
Qed.

(** *** Runs *)

(** What can happen to the logger: a record, a request of the VMM to enable the
    areas, the host writing to the shared pages. *)
Inductive log_op :=
  | Record (cpu : option Z) (level : Level.t) (request : option (option Z)) (args : bytes)
  | Enable (cpu : option Z) (level request : Z)
  | HostWrite (f : Z → bytes → bytes).

Definition host_write (f : Z → bytes → bytes) (s : Logging) : Logging :=
  set_pages ((λ e : Z * bytes, (e.1, fit LOG_PAGE_SIZE (f e.1 e.2))) <$> logareas s) (provisional_logareas s) (freed s) s.

Definition exec (o : log_op) : LogM unit :=
  match o with
  | Record cpu level request args => log_record debug cpu level request args
  | Enable cpu level request => enable_logarea debug cpu level request
  | HostWrite f => modifyS (host_write f)
  end.

(** A request that is refused is not the end; an abort is. *)
Fixpoint run (ops : list log_op) (s : Logging) : outcome (aerr MigrationResult.t) unit * Logging :=
  match ops with
  | [] => (Ok tt, s)
  | o :: ops' =>
      match exec o s with
      | (Ok _, s') | (Err (Failed _), s') => run ops' s'
      | (r, s') => (r, s')
      end
  end.

Definition al_step (o : log_op) (a : alog) : alog :=
  match o with
  | Record cpu level request args => al_record cpu level request args a
  | Enable cpu level request => al_enable cpu level request a
  | HostWrite _ => a
  end.

Definition al_run (ops : list log_op) (a : alog) : alog := foldl (λ a o, al_step o a) a ops.

(** The operations are possible: the CPU is one of those reported, the values fit
    their types, and the host leaves the pages alone once they are in use. *)
Definition op_ok (a : alog) (o : log_op) : Prop :=
  match o with
  | Record cpu _ request _ => cpu_ok a cpu ∧ in_u 64 (al_request request)
  | Enable cpu _ request => cpu_ok a cpu ∧ in_u 64 request
  | HostWrite _ => al_public a = false
  end.

Fixpoint undisturbed (a : alog) (ops : list log_op) : Prop :=
  match ops with
  | [] => True
  | o :: ops' => op_ok a o ∧ undisturbed (al_step o a) ops'
  end.

Lemma host_write_represents a s f : represents a s → al_public a = false → represents a (host_write f s).
Proof.
  intros [] Hp. split; try done; cbn [host_write set_pages logareas provisional_logareas].
  - rewrite length_fmap. split; [by destruct re_shared0|]. apply Forall_fmap, Forall_true. intros e. cbn. apply lenz_fit. sizes.
  - rewrite Hp in *. done.
Qed.

Lemma exec_refines a s o : represents a s → op_ok a o →
  ∃ r s', exec o s = (r, s') ∧ (r = Ok tt ∨ ∃ e, r = Err (Failed e)) ∧ represents (al_step o a) s'.
Proof.
  intros R Ho. destruct o as [cpu level request args|cpu level request|f]; cbn [exec al_step op_ok] in *.
  - destruct Ho as [Hc Hr]. destruct (log_record_refines a s cpu level request args R Hc Hr) as (s' & Hs & HR & _).
    exists (Ok tt), s'. auto.
  - destruct Ho as [Hc Hr]. destruct (enable_refines a s cpu level request R Hc Hr) as (r & s' & Hs & HR & Hcase).
    exists r, s'. split; [done|]. split; [|done]. destruct Hcase as [[-> _]|[-> _]]; eauto.
  - exists (Ok tt), (host_write f s). split; [done|]. split; [by left|]. by apply host_write_represents.
Qed.

Lemma run_refines ops a s : represents a s → undisturbed a ops → ∃ s', run ops s = (Ok tt, s') ∧ represents (al_run ops a) s'.
Proof.
  revert a s. induction ops as [|o ops IH]; intros a s R Hu; [by exists s|]. destruct Hu as [Ho Hu].
  destruct (exec_refines a s o R Ho) as (r & s' & Hs & Hr & HR). cbn [run]. rewrite Hs.
  destruct Hr as [->|[e ->]]; exact (IH _ _ HR Hu).
Qed.

(** C35 The log areas hold what was logged.  From a fresh start with a page per
    CPU, every sequence of records of these CPUs, requests to enable the areas and, while the
    records are still private, arbitrary writes of the host to the shared pages
    runs without an abort, and once the areas are public a reader that follows
    their offsets finds in the page of every CPU exactly the entries of the
    abstract logger: the admitted records of that CPU in order, since the page was
    last started over, with consecutive identifiers. *)
Theorem log_areas_faithful r8 alloc ops (s0 := (init_vmm_logger LOGGING_INFORMATION).2) :
  let a0 := mkAlog false 0 0 true LevelFilter.Trace (replicate (Z.to_nat (as_u 32 r8)) []) in
  (∀ i, 0 <= i < as_u 32 r8 → ∃ e, alloc i = Some e ∧ lenz e.2 = LOG_PAGE_SIZE) →
  undisturbed a0 ops →
  ∃ s1 s2, create_logarea (Some r8) alloc s0 = (Ok tt, s1) ∧ run ops s1 = (Ok tt, s2) ∧
    let a := al_run ops a0 in
    (al_public a = true → ∀ i es, al_entries a !! i = Some es → ∃ e, logareas s2 !! i = Some e ∧ vmm_read e.2 = Some es).
Proof.
  intros a0 Hal Hu. destruct (create_represents s0 r8 alloc) as (s1 & Hs1 & R1); [by split_and!|done|].
  destruct (run_refines ops a0 s1 R1 Hu) as (s2 & Hs2 & R2). exists s1, s2. split; [done|]. split; [done|].
  intros a Hp i es Hes. destruct (re_pages _ _ R2) as [_ Hpg]. fold a in Hpg. rewrite Hp in Hpg.
  destruct (Hpg _ _ Hes) as (Hok & p & Hp' & Har). rewrite list_lookup_fmap in Hp'.
  destruct (logareas s2 !! i) as [e|]; [|done]. cbn in Hp'. injection Hp' as <-. exists e. split; [done|]. by eapply area_read.
Qed.
End logger.

(** ** What a release build logs *)

(** A release build keeps the level of the areas at [Info] or below. *)
Definition capped (s : Logging) : Prop := 0 <= maxloglevel s <= 3.

Definition stays_capped (s s' : Logging) : Prop := capped s → capped s'.

#[local] Instance stays_capped_preorder : PreOrder stays_capped.
Proof. split; [by intros s H|]. intros a b c H1 H2 H. by apply H2, H1. Qed.

Lemma capped_modify (f : Logging → Logging) : (∀ s, maxloglevel (f s) = maxloglevel s) →
  keeps stays_capped (modifyS f : LogM unit).
Proof. intros Hf. apply keeps_modifyS. intros s H. unfold capped. by rewrite Hf. Qed.

Lemma capped_entrylog cpu msg level request : keeps stays_capped (entrylog cpu msg level request).
Proof.
  unfold entrylog, page_of_cpu, store_page, page_op. keeps_auto; try (by apply capped_modify).
  apply capped_modify. intros s. by case_match.
Qed.

Lemma capped_log_record debug cpu level request args : keeps stays_capped (log_record debug cpu level request args).
Proof. unfold log_record, backend_log. keeps_auto; apply capped_entrylog. Qed.

Lemma capped_publish_loop provisional count index : keeps stays_capped (publish_loop provisional index count).
Proof.
  revert index. induction count as [|count IH]; intros index; cbn [publish_loop]; keeps_auto; try apply IH.
  all: unfold store_page, extend_data; apply capped_modify; intros s; by try case_match.
Qed.

Lemma capped_create td_info alloc : keeps stays_capped (create_logarea td_info alloc).
Proof.
  assert (∀ count index, keeps stays_capped (create_loop alloc index count)) as Hl.
  { induction count as [|count IH]; intros index; cbn [create_loop]; keeps_auto; try apply IH; by apply capped_modify. }
  unfold create_logarea. keeps_auto. by apply capped_modify.
Qed.

Lemma capped_enable cpu level request : 0 <= level → keeps stays_capped (enable_logarea false cpu level request).
Proof.
  intros Hl. unfold enable_logarea, free_provisional_logarea, extend_data.
  keeps_auto; try apply capped_log_record; try apply capped_publish_loop; try (by apply capped_modify).
  apply keeps_modifyS. intros s _. unfold capped. cbn. lia.
Qed.

(** The steps of a release build: what the program does, and the host writing to
    the shared pages. *)
Inductive log_step : Logging → Logging → Prop :=
  | step_init s : log_step s (init_vmm_logger s).2
  | step_create td_info alloc s : log_step s (create_logarea td_info alloc s).2
  | step_enable cpu level request s : in_u 8 level → log_step s (enable_logarea false cpu level request s).2
  | step_record cpu level request args s : log_step s (log_record false cpu level request args s).2
  | step_free s : log_step s (free_provisional_logarea s).2
  | step_host f s : log_step s (host_write f s).

Lemma keeps_snd {A} (m : LogM A) s : keeps stays_capped m → capped s → capped (m s).2.
Proof. intros H. apply (H s (m s).1). by destruct (m s). Qed.

Lemma step_capped s s' : log_step s s' → capped s → capped s'.
Proof.
  intros [] Hc; try (apply keeps_snd; [|done]).
  - unfold init_vmm_logger. by destruct (logger_set s0).
  - apply capped_create.
  - apply capped_enable. by destruct H.
  - apply capped_log_record.
  - unfold free_provisional_logarea. keeps_auto; by apply capped_modify.
  - done.
Qed.

Lemma reachable_capped s s' : rtc log_step s s' → capped s → capped s'.
Proof. induction 1; [done|]. intros. eauto using step_capped. Qed.

(** Detailed records stay inside a release build.  In every state reachable
    from the start, through any requests of the VMM and any writes to the shared
    pages, a record of level [Debug] or [Trace] changes nothing: it reaches no page,
    private or shared, whatever level the VMM asked for. *)
Theorem release_log_capped s cpu level request args : rtc log_step LOGGING_INFORMATION s →
  level = Level.Debug ∨ level = Level.Trace →
  log_record false cpu level request args s = (Ok tt, s).
Proof.
  intros Hs Hl. pose proof (reachable_capped _ _ Hs ltac:(done)) as Hc. unfold log_record, backend_log. rewrite getS_bind.
  destruct (_ && _); [|done]. rewrite getS_bind. unfold enabled.
  assert (∀ f, LevelFilter.rank f <= 3 → level_le level f = false) as Hf.
  { intros f Hf. apply Z.leb_gt. destruct Hl as [-> | ->]; cbn; lia. }
  destruct (logarea_initialized s) eqn:Hi.
  { rewrite Hf; [done|]. destruct Hc as [H1 H2]. assert (maxloglevel s = 0 ∨ maxloglevel s = 1 ∨ maxloglevel s = 2 ∨ maxloglevel s = 3) as H by lia.
    destruct H as [-> | [-> | [-> | ->]]]; done. }
  destruct (provisional_logs_enabled s) eqn:Hp; [by rewrite Hf|]. destruct (level_le _ _); [|done].
  unfold entrylog. rewrite getS_bind, Hi, Hp. done.
Qed.

(** ** A concrete logger *)

Module LogSample.

Definition alloc (i : Z) : option (Z * bytes) := Some (0x1000 * (i + 1), zeros LOG_PAGE_SIZE).

Definition ops : list log_op :=
  [Record (Some 0) Level.Info None [104; 105]; Record (Some 1) Level.Debug None [120]; HostWrite (λ _ _, [1; 2; 3]);
   Enable (Some 1) 5 7; Record (Some 0) Level.Error (Some (Some 9)) [33]].

Definition a0 : alog := mkAlog false 0 0 true LevelFilter.Trace (replicate 2 []).

Lemma ops_undisturbed : undisturbed false a0 ops.
Proof.
  cbn [undisturbed ops op_ok]. unfold cpu_ok, in_u. split_and!;
    first [exact I|intros i [= <-]; vm_compute; by split|vm_compute; done].
Qed.

Lemma alloc_ok i : 0 <= i < 2 → ∃ e, alloc i = Some e ∧ lenz e.2 = LOG_PAGE_SIZE.
Proof. intros _. eexists. split; [reflexivity|]. apply lenz_zeros. sizes. Qed.

(** CPU 0 logged twice; the level the VMM asked for was lowered to [Info]. *)
Lemma log_areas_faithful_witness : ∃ s2 e, logareas s2 !! 0%nat = Some e ∧
  vmm_read e.2 = Some [mkEntry 1 MIGRATION_REQUEST_ID_SENTINEL 3 [104; 105; 10]; mkEntry 3 9 1 [33; 10]].
Proof.
  destruct (log_areas_faithful false 2 alloc ops alloc_ok ops_undisturbed) as (s1 & s2 & _ & _ & H).
  destruct (H ltac:(vm_compute; reflexivity) 0%nat _ ltac:(vm_compute; reflexivity)) as (e & He & Hr). by exists s2, e.
Defined.

Lemma release_log_capped_witness :
  log_record false (Some 0) Level.Debug None [1] (init_vmm_logger LOGGING_INFORMATION).2 = (Ok tt, (init_vmm_logger LOGGING_INFORMATION).2).
Proof. apply release_log_capped; [apply rtc_once, step_init|by left]. Defined.

(** Once the areas are public the host can abort the program through the offsets
    of a shared page, which are used as they are read. *)
Definition tampered (end_ : Z) : bytes := area_header 0 LOGAREABUFFERHEADERSIZE end_ ++ zeros (LOG_PAGE_SIZE - LOGAREABUFFERHEADERSIZE).

Lemma host_offset_aborts : append_entry (tampered (2 ^ 64 - 1)) 1 0 3 [104] = Panic ∧ append_entry (tampered 0x2000) 1 0 3 [104] = Panic.
Proof. split; vm_compute; reflexivity. Qed.

End LogSample.
