(* ===== verification/PolicyV1.v ===== *)
(** * PolicyV1: migration policies of version 1 and their evaluation

    src/policy/src/v1 and the parts of src/policy/src/lib.rs it uses, and the
    version 1 check of src/migtd/src/mig_policy.rs.  The text of a policy becomes
    a tree of members through the class [PolicyV1Json] (serde_json); the visitors
    the crate writes by hand, the choice between the untagged kinds of block and
    the ordered maps are definitions of this file. *)
From Stdlib Require Import Ascii.
From stdpp Require Import base tactics numbers option strings list list_numbers.
From S2P Require Import Prelude EventLog PolicyV2 MigPolicy.
Local Open Scope Z_scope.

(** ** Properties: an operation and what the value is compared with *)

Module Operation.
Inductive t := Equal | GreaterOrEqual | Subset | InRange | InTimeRange | ArrayEqual | ArrayGreaterOrEqual.

Definition deserialize (s : string) : option t :=
  if bool_decide (s = "equal") then Some Equal
  else if bool_decide (s = "greater-or-equal") then Some GreaterOrEqual
  else if bool_decide (s = "subset") then Some Subset
  else if bool_decide (s = "in-range") then Some InRange
  else if bool_decide (s = "in-time-range") then Some InTimeRange
  else if bool_decide (s = "array-equal") then Some ArrayEqual
  else if bool_decide (s = "array-greater-or-equal") then Some ArrayGreaterOrEqual
  else None.
End Operation.

Module Ref.
Inductive t :=
  | Integer (i : Z)
  | String (s : string)
  | Local
  | IntegerRange (start end_ : Z)
  | Array (items : list Z).
End Ref.

Record Property := mkProp { prop_operation : Operation.t; prop_reference : Ref.t }.

Definition USIZE_MAX : Z := 2 ^ 64 - 1.

Definition parse_range (input : string) : option (Z * Z) :=
  match split_dots EmptyString input with
  | [a; b] =>
      start ← (if bool_decide (a = EmptyString) then Some 0 else from_str_radix 64 10 a);
      end_ ← (if bool_decide (b = EmptyString) then Some USIZE_MAX else from_str_radix 64 10 b);
      Some (start, end_)
  | _ => None
  end.

Definition parse_str (s : string) : Ref.t :=
  if bool_decide (s = "self") then Ref.Local
  else match parse_range s with
  | Some (a, b) => Ref.IntegerRange a b
  | None => Ref.String s
  end.

Definition Integer_verify (i : Z) (op : Operation.t) (peer : Z) : bool :=
  match op with
  | Operation.Equal => peer =? i
  | Operation.GreaterOrEqual => i <=? peer
  | _ => false
  end.

Definition RefString_verify (s : string) (op : Operation.t) (peer : string) : bool :=
  match op with Operation.Equal => bool_decide (peer = s) | _ => false end.

(** The bytes of [input] as a little-endian [u64], which [Property::verify]
    repeats for [usize]. *)
Definition slice_to_u64 (input : bytes) : option Z :=
  if 8 <? lenz input then None else Some (le_val (input ++ zeros (8 - lenz input))).

(** [a.iter().zip(b.iter()).all(f)] *)
Fixpoint zip_all (f : Z → Z → bool) (a b : bytes) : bool :=
  match a, b with
  | x :: a', y :: b' => f x y && zip_all f a' b'
  | _, _ => true
  end.

(** The order a property relative to this side asks for: the migration's source
    wants a destination at least as good, the destination a source at most as
    good. *)
Definition towards (is_src : bool) (l p : Z) : bool := if is_src then l <=? p else p <=? l.

Definition RefLocal_verify (is_src : bool) (op : Operation.t) (local peer : bytes) : bool :=
  if negb (lenz local =? lenz peer) then false
  else match op with
  | Operation.Equal => bool_decide (peer = local)
  | Operation.GreaterOrEqual =>
      match slice_to_u64 local, slice_to_u64 peer with
      | Some l, Some p => towards is_src l p
      | _, _ => false
      end
  | Operation.ArrayEqual => bool_decide (local = peer)
  | Operation.ArrayGreaterOrEqual => zip_all (towards is_src) local peer
  | _ => false
  end.

Definition IntegerRange_verify (start end_ : Z) (op : Operation.t) (peer : Z) : bool :=
  match op with
  | Operation.InRange | Operation.InTimeRange => (start <=? peer) && (peer <? end_)
  | _ => false
  end.

Definition Array_verify (items : list Z) (op : Operation.t) (peer : bytes) : bool :=
  if negb (lenz peer =? lenz items) then false
  else match op with
  | Operation.ArrayEqual => bool_decide (items = peer)
  | Operation.ArrayGreaterOrEqual => zip_all Z.leb items peer
  | _ => false
  end.

(** [format_bytes_hex] prints as [bytes_to_hex_string] of version 2 does. *)
Definition format_bytes_hex (input : bytes) : string := bytes_to_hex_string input.

Definition Property_verify (p : Property) (is_src : bool) (local peer : bytes) : bool :=
  match prop_reference p with
  | Ref.Integer i =>
      match slice_to_u64 peer with Some v => Integer_verify i (prop_operation p) v | None => false end
  | Ref.String s => RefString_verify s (prop_operation p) (format_bytes_hex peer)
  | Ref.Local => RefLocal_verify is_src (prop_operation p) local peer
  | Ref.IntegerRange a b =>
      match slice_to_u64 peer with Some v => IntegerRange_verify a b (prop_operation p) v | None => false end
  | Ref.Array items => Array_verify items (prop_operation p) peer
  end.

(** ** Policies *)

(** A [BTreeMap<String, Property>] as the list of its entries in the order of
    their keys, which is the order it is iterated in. *)
Notation PropertyMap := (list (string * Property)).

Inductive Policy :=
  | Platform (fmspc : string) (tcb_info : PropertyMap)
  | Qe (qe_identity : PropertyMap)
  | TdxModule (tdx_module_identity : PropertyMap)
  | Migtd (td_info : PropertyMap) (event_log : option PropertyMap).

Record MigPolicy := mkMigPolicy { mp_id : bytes; blocks : list Policy }.

Definition get_platform_info_policy (p : MigPolicy) : list (string * PropertyMap) :=
  omap (λ b, match b with Platform f t => Some (f, t) | _ => None end) (blocks p).

Definition get_qe_info_policy (p : MigPolicy) : option PropertyMap :=
  head (omap (λ b, match b with Qe q => Some q | _ => None end) (blocks p)).

Definition get_migtd_info_policy (p : MigPolicy) : option (PropertyMap * option PropertyMap) :=
  head (omap (λ b, match b with Migtd t e => Some (t, e) | _ => None end) (blocks p)).

(** *** What serde_json delivers *)

Inductive RawReference := RawStr (s : string) | RawU64 (n : Z) | RawSeq (items : list Z) | RawOther.

Record RawProperty := mkRawProp { raw_operation : string; raw_reference : RawReference }.

Notation RawMap := (list (string * RawProperty)).

(** The members of a block that have the shape some kind of block asks for. *)
Record RawBlock := mkRawBlock {
  rb_fmspc : option string; rb_platform : option RawMap; rb_qe : option RawMap;
  rb_tdx_module : option RawMap; rb_migtd : option (RawMap * option RawMap) }.

Class PolicyV1Json := {
  json_document : string → option (string * list RawBlock);
  guid_from_str : string → option bytes }.

(** [ReferenceVisitor]; a sequence is one of [u8]. *)
Definition Reference_deserialize (r : RawReference) : option Ref.t :=
  match r with
  | RawStr s => Some (parse_str s)
  | RawU64 n => Some (Ref.Integer n)
  | RawSeq l => if forallb (between 0 255) l then Some (Ref.Array l) else None
  | RawOther => None
  end.

Definition Property_deserialize (r : RawProperty) : option Property :=
  op ← Operation.deserialize (raw_operation r);
  v ← Reference_deserialize (raw_reference r);
  Some (mkProp op v).

(** [BTreeMap::insert] *)
Fixpoint btree_insert (k : string) (v : Property) (m : PropertyMap) : PropertyMap :=
  match m with
  | [] => [(k, v)]
  | (k', v') :: m' =>
      match String.compare k k' with
      | Lt => (k, v) :: m
      | Eq => (k, v) :: m'
      | Gt => (k', v') :: btree_insert k v m'
      end
  end.

Fixpoint map_deserialize (acc : PropertyMap) (l : RawMap) : option PropertyMap :=
  match l with
  | [] => Some acc
  | (k, r) :: l' => p ← Property_deserialize r; map_deserialize (btree_insert k p acc) l'
  end.

Definition platform_deserialize (r : RawBlock) : option Policy :=
  f ← rb_fmspc r; raw ← rb_platform r; m ← map_deserialize [] raw; Some (Platform f m).

Definition qe_deserialize (r : RawBlock) : option Policy :=
  raw ← rb_qe r; m ← map_deserialize [] raw; Some (Qe m).

Definition tdx_module_deserialize (r : RawBlock) : option Policy :=
  raw ← rb_tdx_module r; m ← map_deserialize [] raw; Some (TdxModule m).

Definition migtd_deserialize (r : RawBlock) : option Policy :=
  raw ← rb_migtd r;
  m ← map_deserialize [] raw.1;
  match raw.2 with
  | None => Some (Migtd m None)
  | Some e => e' ← map_deserialize [] e; Some (Migtd m (Some e'))
  end.

(** [#[serde(untagged)]]: the first kind the block can be read as. *)
Definition Policy_deserialize (r : RawBlock) : option Policy :=
  match platform_deserialize r with
  | Some p => Some p
  | None =>
      match qe_deserialize r with
      | Some p => Some p
      | None => match tdx_module_deserialize r with Some p => Some p | None => migtd_deserialize r end
      end
  end.

Definition MigPolicy_deserialize `{PolicyV1Json} (text : string) : option MigPolicy :=
  d ← json_document text;
  id ← guid_from_str d.1;
  bs ← mapM Policy_deserialize d.2;
  Some (mkMigPolicy id bs).

(** ** The report of a quote *)

Module PlatformInfoProperty.
Inductive t := Fmspc | SgxTcbComponents | PceSvn | TdxTcbComponents | Unknown.
#[global] Instance t_eq_dec : EqDecision t.
Proof. solve_decision. Defined.

Definition from (v : string) : t :=
  if bool_decide (v = "fmspc") then Fmspc
  else if bool_decide (v = "sgxtcbcomponents") then SgxTcbComponents
  else if bool_decide (v = "pcesvn") then PceSvn
  else if bool_decide (v = "tdxtcbcomponents") then TdxTcbComponents
  else Unknown.
End PlatformInfoProperty.

Module QeInfoProperty.
Inductive t := MiscSelect | Attributes | MrEnclave | MrSigner | IsvProID | IsvSvn | Unknown.
#[global] Instance t_eq_dec : EqDecision t.
Proof. solve_decision. Defined.

Definition from (v : string) : t :=
  if bool_decide (v = "MISCSELECT") then MiscSelect
  else if bool_decide (v = "ATTRIBUTES") then Attributes
  else if bool_decide (v = "MRSIGNER") then MrSigner
  else if bool_decide (v = "ISVPRODID") then IsvProID
  else if bool_decide (v = "ISVSVN") then IsvSvn
  else Unknown.
End QeInfoProperty.

Module TdxModuleInfoProperty.
Inductive t := TdxModuleMajorVersion | TdxModuleSvn | MrSeam | MrSignerSeam | Attributes | Unknown.
#[global] Instance t_eq_dec : EqDecision t.
Proof. solve_decision. Defined.

Definition from (v : string) : t :=
  if bool_decide (v = "TDXModuleMajorVersion") then TdxModuleMajorVersion
  else if bool_decide (v = "TDXModuleSVN") then TdxModuleSvn
  else if bool_decide (v = "MRSEAM") then MrSeam
  else if bool_decide (v = "MRSIGNERSEAM") then MrSignerSeam
  else if bool_decide (v = "ATTRIBUTES") then Attributes
  else Unknown.
End TdxModuleInfoProperty.

Definition migtd_property_from (v : string) : MigTdInfoProperty.t :=
  if bool_decide (v = "ATTRIBUTES") then MigTdInfoProperty.Attributes
  else if bool_decide (v = "XFAM") then MigTdInfoProperty.Xfam
  else if bool_decide (v = "MRTD") then MigTdInfoProperty.MrTd
  else if bool_decide (v = "MRCONFIGID") then MigTdInfoProperty.MrConfigId
  else if bool_decide (v = "MROWNER") then MigTdInfoProperty.MrOwner
  else if bool_decide (v = "MROWNERCONFIG") then MigTdInfoProperty.MrOwnerConfig
  else if bool_decide (v = "RTMR0") then MigTdInfoProperty.Rtmr0
  else if bool_decide (v = "RTMR1") then MigTdInfoProperty.Rtmr1
  else if bool_decide (v = "RTMR2") then MigTdInfoProperty.Rtmr2
  else if bool_decide (v = "RTMR3") then MigTdInfoProperty.Rtmr3
  else MigTdInfoProperty.Unknown.

Definition event_name_from (v : string) : EventName.t :=
  if bool_decide (v = "Digest.TdShim") then EventName.TdShim
  else if bool_decide (v = "Digest.SecureBootKey") then EventName.SecureBootKey
  else if bool_decide (v = "Digest.MigTdCore") then EventName.MigTdCore
  else if bool_decide (v = "Digest.MigTdCoreSvn") then EventName.MigTdCoreSvn
  else if bool_decide (v = "Digest.MigTdPolicy") then EventName.MigTdPolicy
  else if bool_decide (v = "Digest.MigTdSgxRootKey") then EventName.SgxRootKey
  else EventName.Unknown.

Definition R_TDX_MODULE_MRSEAM : Z * Z := (16, 64).
Definition R_TDX_MODULE_MRSEAMSIGNER : Z * Z := (64, 112).
Definition R_TDX_MODULE_ATTR_SEAM : Z * Z := (112, 120).
Definition R_PLATFORM_FMSPC : Z * Z := (584, 590).
Definition R_PLATFORM_TDX_TCB_COMPONENTS : Z * Z := (590, 606).
Definition R_PLATFORM_PCE_SVN : Z * Z := (606, 608).
Definition R_PLATFORM_SGX_TCB_COMPONENTS : Z * Z := (608, 624).
Definition R_TDX_MODULE_MAJOR_VER : Z * Z := (624, 625).
Definition R_TDX_MODULE_SVN : Z * Z := (625, 626).
Definition R_QE_MISC_SELECT : Z * Z := (626, 630).
Definition R_QE_ATTRIBUTES : Z * Z := (634, 650).
Definition R_QE_MRENCLAVE : Z * Z := (666, 698).
Definition R_QE_MRSIGNER : Z * Z := (698, 730).
Definition R_QE_ISV_PRO_ID : Z * Z := (730, 732).
Definition R_QE_ISV_SVN : Z * Z := (732, 734).

(** The properties a map is filled with, from the ranges of the report. *)
Definition setup {K} (ranges : list (K * (Z * Z))) (report : bytes) : PResult (list (K * bytes)) :=
  collect (λ e : K * (Z * Z), b ← range_of report e.2; Ok (e.1, b)) ranges.

Definition platform_ranges : list (PlatformInfoProperty.t * (Z * Z)) :=
  [(PlatformInfoProperty.Fmspc, R_PLATFORM_FMSPC); (PlatformInfoProperty.SgxTcbComponents, R_PLATFORM_SGX_TCB_COMPONENTS);
   (PlatformInfoProperty.PceSvn, R_PLATFORM_PCE_SVN); (PlatformInfoProperty.TdxTcbComponents, R_PLATFORM_TDX_TCB_COMPONENTS)].

Definition setup_platform_info (report : bytes) : PResult (list (PlatformInfoProperty.t * bytes)) := setup platform_ranges report.

Definition qe_ranges : list (QeInfoProperty.t * (Z * Z)) :=
  [(QeInfoProperty.MiscSelect, R_QE_MISC_SELECT); (QeInfoProperty.Attributes, R_QE_ATTRIBUTES);
   (QeInfoProperty.MrEnclave, R_QE_MRENCLAVE); (QeInfoProperty.MrSigner, R_QE_MRSIGNER);
   (QeInfoProperty.IsvProID, R_QE_ISV_PRO_ID); (QeInfoProperty.IsvSvn, R_QE_ISV_SVN)].

Definition setup_qe_info (report : bytes) : PResult (list (QeInfoProperty.t * bytes)) := setup qe_ranges report.

Definition tdx_module_ranges : list (TdxModuleInfoProperty.t * (Z * Z)) :=
  [(TdxModuleInfoProperty.TdxModuleMajorVersion, R_TDX_MODULE_MAJOR_VER); (TdxModuleInfoProperty.TdxModuleSvn, R_TDX_MODULE_SVN);
   (TdxModuleInfoProperty.MrSeam, R_TDX_MODULE_MRSEAM); (TdxModuleInfoProperty.MrSignerSeam, R_TDX_MODULE_MRSEAMSIGNER);
   (TdxModuleInfoProperty.Attributes, R_TDX_MODULE_ATTR_SEAM)].

Definition setup_tdx_module_info (report : bytes) : PResult (list (TdxModuleInfoProperty.t * bytes)) := setup tdx_module_ranges report.

Record ReportV1 := mkReportV1 {
  platform_info : list (PlatformInfoProperty.t * bytes);
  qe_info : list (QeInfoProperty.t * bytes);
  tdx_module_info : list (TdxModuleInfoProperty.t * bytes);
  migtd_info : Report }.

Definition ReportV1_new (report : bytes) : PResult ReportV1 :=
  if negb (lenz report =? REPORT_DATA_SIZE) then Err PolicyError.InvalidParameter
  else
    p ← setup_platform_info report;
    q ← setup_qe_info report;
    t ← setup_tdx_module_info report;
    m ← setup_migtd_info report;
    Ok (mkReportV1 p q t m).

(** [map.get(name).ok_or(InvalidParameter).copied()] *)
Definition get_property {K} `{EqDecision K} (m : list (K * bytes)) (name : K) : PResult bytes :=
  or_err (snd <$> head (filter (λ e, e.1 = name) m)) PolicyError.InvalidParameter.

Definition get_platform_info_property (r : ReportV1) (name : PlatformInfoProperty.t) : PResult bytes :=
  get_property (platform_info r) name.

Definition get_qe_info_property (r : ReportV1) (name : QeInfoProperty.t) : PResult bytes := get_property (qe_info r) name.

Definition get_tdx_module_info_property (r : ReportV1) (name : TdxModuleInfoProperty.t) : PResult bytes :=
  get_property (tdx_module_info r) name.

(** ** Evaluation *)

Definition MIGTD_ATTRIBUTES_MASK : bytes := [0xff; 0xff; 0x00; 0x30; 0x00; 0x00; 0x00; 0x40].
Definition MIGTD_XFAM_MASK : bytes := [0x03; 0x18; 0x00; 0x00; 0x00; 0x00; 0x00; 0x00].

Definition mask_bytes_array (data mask : bytes) : bytes := zip_with Z.land data mask ++ drop (length mask) data.

(** [masked[..8].copy_from_slice(value)], which aborts on another length, then
    the mask. *)
Definition masked_value (value mask : bytes) : PResult bytes :=
  if lenz value =? 8 then Ok (mask_bytes_array value mask) else Panic.

Section verify.
Context (is_src : bool).

(** The loop over the properties of a block: the values of the two reports a name
    stands for, then the property's verdict on them. *)
Fixpoint verify_each (values : string → PResult (bytes * bytes)) (unqualified : PolicyError.t) (m : PropertyMap) : PResult unit :=
  match m with
  | [] => Ok tt
  | (name, action) :: m' =>
      v ← values name;
      if Property_verify action is_src v.1 v.2 then verify_each values unqualified m' else Err unqualified
  end.

Section reports.
Context (local_report peer_report : ReportV1).

Definition platform_values (name : string) : PResult (bytes * bytes) :=
  let property := PlatformInfoProperty.from name in
  local ← get_platform_info_property local_report property;
  remote ← get_platform_info_property peer_report property;
  Ok (local, remote).

Definition find_platform (policy : list (string * PropertyMap)) (peer_fmspc : string) : option (string * PropertyMap) :=
  head (filter (λ p : string * PropertyMap, p.1 = peer_fmspc) policy).

Definition target_platform (policy : list (string * PropertyMap)) (local_fmspc peer_fmspc : string) :
  PResult (string * PropertyMap) :=
  match policy with
  | [p] =>
      if bool_decide (p.1 = "self") then
        if bool_decide (local_fmspc = peer_fmspc) then Ok p
        else Err (PolicyError.PlatformNotMatch local_fmspc peer_fmspc)
      else or_err (find_platform policy peer_fmspc) (PolicyError.PlatformNotFound peer_fmspc)
  | _ => or_err (find_platform policy peer_fmspc) (PolicyError.PlatformNotFound peer_fmspc)
  end.

Definition verify_platform_info (policy : list (string * PropertyMap)) : PResult unit :=
  local ← get_platform_info_property local_report PlatformInfoProperty.Fmspc;
  peer ← get_platform_info_property peer_report PlatformInfoProperty.Fmspc;
  target ← target_platform policy (format_bytes_hex local) (format_bytes_hex peer);
  verify_each platform_values PolicyError.UnqualifiedPlatformInfo target.2.

Definition qe_values (name : string) : PResult (bytes * bytes) :=
  let property := QeInfoProperty.from name in
  local ← get_qe_info_property local_report property;
  remote ← get_qe_info_property peer_report property;
  Ok (local, remote).

Definition verify_qe_info (policy : PropertyMap) : PResult unit :=
  verify_each qe_values PolicyError.UnqualifiedQeInfo policy.

Definition tdx_module_values (name : string) : PResult (bytes * bytes) :=
  let property := TdxModuleInfoProperty.from name in
  local ← get_tdx_module_info_property local_report property;
  remote ← get_tdx_module_info_property peer_report property;
  Ok (local, remote).

(** The inner loop: whether every property of one block holds. *)
Fixpoint tdx_module_block (m : PropertyMap) : PResult bool :=
  match m with
  | [] => Ok true
  | (name, action) :: m' =>
      v ← tdx_module_values name;
      if Property_verify action is_src v.1 v.2 then tdx_module_block m' else Ok false
  end.

(** The outer loop, with [verify_result] as the blocks before left it. *)
Fixpoint tdx_module_loop (verify_result : bool) (bs : list Policy) : PResult bool :=
  match bs with
  | [] => Ok verify_result
  | TdxModule t :: bs' => r ← tdx_module_block t; if r : bool then Ok true else tdx_module_loop false bs'
  | _ :: bs' => tdx_module_loop verify_result bs'
  end.

(** With the feature [log], the properties of every block are looked up again to
    be logged. *)
Fixpoint tdx_module_log (bs : list Policy) : PResult unit :=
  match bs with
  | [] => Ok tt
  | TdxModule t :: bs' => _ ← collect (λ e : string * Property, tdx_module_values e.1) t; tdx_module_log bs'
  | _ :: bs' => tdx_module_log bs'
  end.

Context (feature_log : bool).

Definition verify_tdx_module_info (policy : MigPolicy) : PResult unit :=
  verify_result ← tdx_module_loop true (blocks policy);
  if verify_result : bool then Ok tt
  else
    _ ← (if feature_log then tdx_module_log (blocks policy) else Ok tt);
    Err PolicyError.UnqualifiedTdxModuleInfo.

Definition migtd_values (name : string) : PResult (bytes * bytes) :=
  let property := migtd_property_from name in
  local ← get_migtd_info_property (migtd_info local_report) property;
  remote ← get_migtd_info_property (migtd_info peer_report) property;
  match property with
  | MigTdInfoProperty.Attributes =>
      l ← masked_value local MIGTD_ATTRIBUTES_MASK; r ← masked_value remote MIGTD_ATTRIBUTES_MASK; Ok (l, r)
  | MigTdInfoProperty.Xfam =>
      l ← masked_value local MIGTD_XFAM_MASK; r ← masked_value remote MIGTD_XFAM_MASK; Ok (l, r)
  | _ => Ok (local, remote)
  end.

Context (local_events peer_events : EventMap).

Definition verify_event (event_name : EventName.t) (policy : Property) : bool :=
  match event_get local_events event_name, event_get peer_events event_name with
  | Some local, Some peer =>
      match ce_data local with
      | Some data =>
          match ce_data peer with
          | Some data_peer => Property_verify policy is_src data data_peer
          | None => false
          end
      | None => Property_verify policy is_src (digest (ce_header local)) (digest (ce_header peer))
      end
  | _, _ => false
  end.

Fixpoint verify_events (m : PropertyMap) : PResult unit :=
  match m with
  | [] => Ok tt
  | (name, value) :: m' =>
      let event_name := event_name_from name in
      if bool_decide (event_name = EventName.Unknown) then Err PolicyError.InvalidEventLog
      else if verify_event event_name value then verify_events m'
      else Err PolicyError.UnqualifiedMigTdInfo
  end.

Definition verify_migtd_info (td_info : PropertyMap) (event_log : option PropertyMap) : PResult unit :=
  _ ← verify_each migtd_values PolicyError.UnqualifiedMigTdInfo td_info;
  match event_log with Some e => verify_events e | None => Ok tt end.

(** The last loop of [verify_policy]. *)
Fixpoint verify_blocks (bs : list Policy) : PResult unit :=
  match bs with
  | [] => Ok tt
  | Platform _ _ :: bs' | TdxModule _ :: bs' => verify_blocks bs'
  | Qe q :: bs' => _ ← verify_qe_info q; verify_blocks bs'
  | Migtd t e :: bs' => _ ← verify_migtd_info t e; verify_blocks bs'
  end.
End reports.
End verify.

(** [s.trim_matches(char::from(0))] *)
Fixpoint skip_nul (l : list Ascii.ascii) : list Ascii.ascii :=
  match l with
  | c :: l' => if bool_decide (c = Ascii.zero) then skip_nul l' else l
  | [] => []
  end.

Definition trim_nul (s : string) : string :=
  String.string_of_list_ascii (reverse (skip_nul (reverse (skip_nul (String.list_ascii_of_string s))))).

Section policy.
Context `{PolicyV1Json} (feature_log : bool).

Definition read_policy (policy : bytes) : option MigPolicy :=
  s ← from_utf8 policy; MigPolicy_deserialize (trim_nul s).

Definition verify_policy (is_src : bool) (policy report : bytes) (events : EventMap) (report_peer : bytes) (events_peer : EventMap) :
  PResult unit :=
  if (lenz report <? REPORT_DATA_SIZE) || (lenz report_peer <? REPORT_DATA_SIZE) then Err PolicyError.InvalidParameter
  else
    p ← or_err (read_policy policy) PolicyError.InvalidPolicy;
    report_local ← ReportV1_new report;
    report_peer ← ReportV1_new report_peer;
    _ ← verify_platform_info is_src report_local report_peer (get_platform_info_policy p);
    _ ← verify_tdx_module_info is_src report_local report_peer feature_log p;
    verify_blocks is_src report_local report_peer events events_peer (blocks p).

(** ** The check before a migration (mig_policy.rs, version 1) *)

Context `{CcLog} (digest_sha384 : bytes → option bytes).

Definition authenticate_policy_v1 (event_log policy : option bytes) (is_src : bool)
    (verified_report_local verified_report_peer event_log_peer : bytes) : PResult unit :=
  event_log ← or_err event_log PolicyError.InvalidEventLog;
  policy ← or_err policy PolicyError.InvalidParameter;
  rtmrs ← get_rtmrs_from_suppl_data verified_report_peer;
  _ ← map_unit PolicyError.InvalidEventLog (verify_event_log digest_sha384 event_log_peer rtmrs);
  events ← map_unit PolicyError.InvalidParameter (parse_events event_log);
  events_peer ← map_unit PolicyError.InvalidParameter (parse_events event_log_peer);
  verify_policy is_src policy verified_report_local events verified_report_peer events_peer.
End policy.
