(* ===== verification/PolicyV1Spec.v ===== *)
(** * PolicyV1Spec: what a version 1 policy accepts

    The evaluation of a policy against a declarative reading of it: which bytes of
    the two reports a property's name stands for, when a property holds of two
    values, and which blocks have to hold; and that the two ends of a migration
    that hold the same policy reach the same verdict on properties relative to
    themselves. *)
From Stdlib Require Import Ascii.
From stdpp Require Import base tactics numbers option strings list list_numbers.
From S2P Require Import Prelude EventLog PolicyV2 MigPolicy PolicyV1.
From S2P Require Import PolicyV2Spec MigPolicySpec.
Local Open Scope Z_scope.

(** ** Properties *)

(** The bytes of a value as a number: at most eight. *)
Definition small (b : bytes) : Prop := lenz b <= 8.

Definition ordered (is_src : bool) (l p : Z) : Prop := if is_src then l <= p else p <= l.

(** When a property holds of this side's value and the peer's. *)
Definition holds (p : Property) (is_src : bool) (local peer : bytes) : Prop :=
  match prop_reference p, prop_operation p with
  | Ref.Integer i, Operation.Equal => small peer ∧ le_val peer = i
  | Ref.Integer i, Operation.GreaterOrEqual => small peer ∧ i <= le_val peer
  | Ref.IntegerRange a b, (Operation.InRange | Operation.InTimeRange) => small peer ∧ a <= le_val peer < b
  | Ref.String s, Operation.Equal => bytes_to_hex_string peer = s
  | Ref.Local, (Operation.Equal | Operation.ArrayEqual) => peer = local
  | Ref.Local, Operation.GreaterOrEqual =>
      small peer ∧ length local = length peer ∧ ordered is_src (le_val local) (le_val peer)
  | Ref.Local, Operation.ArrayGreaterOrEqual => Forall2 (ordered is_src) local peer
  | Ref.Array l, Operation.ArrayEqual => peer = l
  | Ref.Array l, Operation.ArrayGreaterOrEqual => Forall2 Z.le l peer
  | _, _ => False
  end.

Lemma le_val_pad b n : le_val (b ++ replicate n 0) = le_val b.
Proof.
  unfold le_val. induction b as [|x b IH]; cbn [app little_endian_to_Z]; [|by rewrite IH].
  induction n as [|n IH]; [done|]. cbn [replicate little_endian_to_Z]. by rewrite IH.
Qed.

Lemma slice_to_u64_spec b v : slice_to_u64 b = Some v ↔ small b ∧ v = le_val b.
Proof.
  unfold slice_to_u64, small, zeros. rewrite le_val_pad. destruct (Z.ltb_spec 8 (lenz b)); [split; [done|lia]|].
  split; [intros [= <-]; split; [lia|done]|by intros [_ ->]].
Qed.

Lemma slice_to_u64_small b : slice_to_u64 b = if 8 <? lenz b then None else Some (le_val b).
Proof. unfold slice_to_u64, zeros. by rewrite le_val_pad. Qed.

Lemma zip_all_Forall2 f (R : Z → Z → Prop) a b : (∀ x y, f x y = true ↔ R x y) → length a = length b →
  zip_all f a b = true ↔ Forall2 R a b.
Proof.
  intros Hf. revert b. induction a as [|x a IH]; intros [|y b] Hl; try discriminate Hl.
  { split; [constructor|done]. }
  cbn. rewrite andb_true_iff, Hf, IH by (cbn in Hl; lia). split; [by intros []; constructor|by inversion 1].
Qed.

Lemma towards_ordered is_src l p : towards is_src l p = true ↔ ordered is_src l p.
Proof. destruct is_src; apply Z.leb_le. Qed.

Lemma RefLocal_holds is_src op local peer :
  RefLocal_verify is_src op local peer = true ↔ holds (mkProp op Ref.Local) is_src local peer.
Proof.
  unfold RefLocal_verify, holds. cbn [prop_reference prop_operation]. unfold lenz.
  destruct (Z.eqb_spec (Z.of_nat (length local)) (Z.of_nat (length peer))) as [E|E]; cbn [negb].
  - destruct op; cbn; rewrite ?bool_decide_eq_true, ?slice_to_u64_small; try done.
    + unfold small, lenz. rewrite E. destruct (Z.ltb_spec 8 (Z.of_nat (length peer))); [split; [done|lia]|].
      rewrite towards_ordered. split; [intros; split_and!; [lia|lia|done]|by intros (_ & _ & ?)].
    + apply zip_all_Forall2; [apply towards_ordered|lia].
  - split; [done|]. intros Hh. exfalso. apply E. destruct op; cbn in Hh; try done; subst; try done.
    + lia.
    + by rewrite (Forall2_length _ _ _ Hh).
Qed.

(** The crate's verdict is the declarative one. *)
Lemma verify_holds p is_src local peer : Property_verify p is_src local peer = true ↔ holds p is_src local peer.
Proof.
  destruct p as [op r]. destruct r as [i|s| |a b|items]; unfold Property_verify; cbn [prop_reference prop_operation].
  - rewrite slice_to_u64_small. unfold holds, small. destruct (Z.ltb_spec 8 (lenz peer));
      destruct op; cbn; rewrite ?Z.eqb_eq, ?Z.leb_le; (split; [try done|]); try lia; intuition lia.
  - unfold RefString_verify, holds, format_bytes_hex. destruct op; cbn; rewrite ?bool_decide_eq_true; done.
  - apply RefLocal_holds.
  - rewrite slice_to_u64_small. unfold holds, small. destruct (Z.ltb_spec 8 (lenz peer));
      destruct op; cbn; rewrite ?andb_true_iff, ?Z.leb_le, ?Z.ltb_lt; (split; [try done|]); try lia; intuition lia.
  - unfold Array_verify, holds, lenz. cbn [prop_reference prop_operation].
    destruct (Z.eqb_spec (Z.of_nat (length peer)) (Z.of_nat (length items))) as [E|E]; cbn [negb].
    + destruct op; cbn; rewrite ?bool_decide_eq_true; try done. apply zip_all_Forall2; [apply Z.leb_le|lia].
    + split; [done|]. intros Hh. exfalso. apply E. destruct op; cbn in Hh; try done; subst; try done.
      by rewrite (Forall2_length _ _ _ Hh).
Qed.

(** The two ends of a migration reach the same verdict on a property relative to
    the evaluating side. *)
Lemma zip_all_flip f g a b : (∀ x y, f x y = g y x) → zip_all f a b = zip_all g b a.
Proof. intros Hf. revert b. induction a as [|x a IH]; intros [|y b]; try done. cbn. by rewrite Hf, IH. Qed.

Lemma relative_symmetric p is_src local peer : prop_reference p = Ref.Local →
  Property_verify p is_src local peer = Property_verify p (negb is_src) peer local.
Proof.
  intros Hr. unfold Property_verify. rewrite Hr. unfold RefLocal_verify. rewrite (Z.eqb_sym (lenz local)).
  destruct (lenz peer =? lenz local); cbn [negb]; [|done].
  destruct (prop_operation p); try done; try (apply bool_decide_ext; by split; intros ->).
  - destruct (slice_to_u64 local), (slice_to_u64 peer); by destruct is_src.
  - apply zip_all_flip. intros x y. by destruct is_src.
Qed.

(** ** The values of the reports *)

(** The bytes of a report a name stands for, and the mask they are taken under. *)
Notation Table := (list (string * (Z * Z * option bytes))).

Definition sub (report : bytes) (r : Z * Z) : bytes := take (Z.to_nat (r.2 - r.1)) (drop (Z.to_nat r.1) report).

Definition under (mask : option bytes) (b : bytes) : bytes :=
  match mask with Some m => zip_with Z.land b m | None => b end.

Fixpoint value_of (t : Table) (report : bytes) (name : string) : option bytes :=
  match t with
  | [] => None
  | (n, (r, m)) :: t' => if decide (name = n) then Some (under m (sub report r)) else value_of t' report name
  end.

Definition platform_table : Table :=
  [("fmspc", (584, 590, None)); ("sgxtcbcomponents", (608, 624, None));
   ("pcesvn", (606, 608, None)); ("tdxtcbcomponents", (590, 606, None))].

Definition qe_table : Table :=
  [("MISCSELECT", (626, 630, None)); ("ATTRIBUTES", (634, 650, None)); ("MRSIGNER", (698, 730, None));
   ("ISVPRODID", (730, 732, None)); ("ISVSVN", (732, 734, None))].

Definition tdx_module_table : Table :=
  [("TDXModuleMajorVersion", (624, 625, None)); ("TDXModuleSVN", (625, 626, None)); ("MRSEAM", (16, 64, None));
   ("MRSIGNERSEAM", (64, 112, None)); ("ATTRIBUTES", (112, 120, None))].

Definition migtd_table : Table :=
  [("ATTRIBUTES", (120, 128, Some MIGTD_ATTRIBUTES_MASK)); ("XFAM", (128, 136, Some MIGTD_XFAM_MASK));
   ("MRTD", (136, 184, None)); ("MRCONFIGID", (184, 232, None)); ("MROWNER", (232, 280, None));
   ("MROWNERCONFIG", (280, 328, None)); ("RTMR0", (328, 376, None)); ("RTMR1", (376, 424, None));
   ("RTMR2", (424, 472, None)); ("RTMR3", (472, 520, None))].

Definition both (t : Table) (local peer : bytes) (name : string) : PResult (bytes * bytes) :=
  match value_of t local name, value_of t peer name with
  | Some l, Some p => Ok (l, p)
  | _, _ => Err PolicyError.InvalidParameter
  end.

Definition fields {K} (ranges : list (K * (Z * Z))) (report : bytes) : list (K * bytes) :=
  (λ e : K * (Z * Z), (e.1, sub report e.2)) <$> ranges.

Definition report_of (report : bytes) : ReportV1 :=
  mkReportV1 (fields platform_ranges report) (fields qe_ranges report) (fields tdx_module_ranges report)
    (fields property_ranges report).

Lemma setup_fields {K} (ranges : list (K * (Z * Z))) report :
  Forall (λ e, 0 <= e.2.1 <= e.2.2 ∧ e.2.2 <= lenz report) ranges → setup ranges report = Ok (fields ranges report).
Proof.
  unfold setup, fields. induction 1 as [|[k r] l [H1 H2] _ IH]; [done|]. cbn [collect fst snd].
  rewrite range_of_take by done. cbn [mbind outcome_bind]. rewrite IH. done.
Qed.

Lemma ReportV1_new_spec report :
  ReportV1_new report = if lenz report =? REPORT_DATA_SIZE then Ok (report_of report) else Err PolicyError.InvalidParameter.
Proof.
  unfold ReportV1_new. destruct (Z.eqb_spec (lenz report) REPORT_DATA_SIZE) as [E|E]; [cbn [negb]|done].
  unfold setup_platform_info, setup_qe_info, setup_tdx_module_info.
  change (setup_migtd_info report) with (setup property_ranges report).
  rewrite !setup_fields by (repeat constructor; cbn; rewrite ?E; unfold REPORT_DATA_SIZE; lia). done.
Qed.

(** Split on the names a conversion knows. *)
Ltac names := repeat match goal with
  | |- context [bool_decide (?n = ?s)] =>
      destruct (decide (n = s)) as [->|?]; [try reflexivity|rewrite (bool_decide_eq_false_2 (n = s)), ?(decide_False (P := n = s)) by done]
  end; try reflexivity.

Lemma platform_values_spec local peer name :
  platform_values (report_of local) (report_of peer) name = both platform_table local peer name.
Proof. unfold platform_values, both, PlatformInfoProperty.from. cbn [value_of platform_table]. names. Qed.

Lemma qe_values_spec local peer name : qe_values (report_of local) (report_of peer) name = both qe_table local peer name.
Proof. unfold qe_values, both, QeInfoProperty.from. cbn [value_of qe_table]. names. Qed.

Lemma tdx_module_values_spec local peer name :
  tdx_module_values (report_of local) (report_of peer) name = both tdx_module_table local peer name.
Proof. unfold tdx_module_values, both, TdxModuleInfoProperty.from. cbn [value_of tdx_module_table]. names. Qed.

Lemma masked_sub report r mask : lenz report = REPORT_DATA_SIZE → 0 <= r.1 → r.2 = r.1 + 8 → r.2 <= REPORT_DATA_SIZE → length mask = 8%nat →
  masked_value (sub report r) mask = Ok (under (Some mask) (sub report r)).
Proof.
  intros Hl H1 H2 H3 Hm. unfold masked_value, mask_bytes_array, under.
  assert (length (sub report r) = 8%nat) as Hs by (unfold sub, lenz in *; rewrite length_take, length_drop; lia).
  unfold lenz. rewrite Hs. cbn [Z.of_nat]. by rewrite drop_ge, app_nil_r by lia.
Qed.

Definition migtd_range (k : MigTdInfoProperty.t) : option (Z * Z) := snd <$> head (filter (λ e, e.1 = k) property_ranges).

Lemma migtd_field report k :
  get_migtd_info_property (migtd_info (report_of report)) k = or_err (sub report <$> migtd_range k) PolicyError.InvalidParameter.
Proof. by destruct k. Qed.

(** What the masks do to one of the two masked fields. *)
Lemma masked_pair local peer r mask : lenz local = REPORT_DATA_SIZE → lenz peer = REPORT_DATA_SIZE →
  0 <= r.1 → r.2 = r.1 + 8 → r.2 <= REPORT_DATA_SIZE → length mask = 8%nat →
  (l ← masked_value (sub local r) mask; p ← masked_value (sub peer r) mask; Ok (l, p)) =
  Ok (under (Some mask) (sub local r), under (Some mask) (sub peer r)) :> PResult (bytes * bytes).
Proof. intros. by rewrite !masked_sub by done. Qed.

Lemma migtd_values_spec local peer name : lenz local = REPORT_DATA_SIZE → lenz peer = REPORT_DATA_SIZE →
  migtd_values (report_of local) (report_of peer) name = both migtd_table local peer name.
Proof.
  intros Hl Hp. unfold migtd_values. rewrite !migtd_field.
  destruct (decide (name = "ATTRIBUTES")) as [->|H1].
  { exact (masked_pair local peer (120, 128) MIGTD_ATTRIBUTES_MASK Hl Hp ltac:(done) eq_refl ltac:(done) eq_refl). }
  destruct (decide (name = "XFAM")) as [->|H2].
  { exact (masked_pair local peer (128, 136) MIGTD_XFAM_MASK Hl Hp ltac:(done) eq_refl ltac:(done) eq_refl). }
  unfold both, migtd_property_from. cbn [value_of migtd_table].
  rewrite !bool_decide_eq_false_2, !(decide_False (P := name = "ATTRIBUTES")), !(decide_False (P := name = "XFAM")) by done.
  names.
Qed.

(** ** Which policies accept which peer *)

Section accept.
Context (is_src : bool) (local peer : bytes) (local_events peer_events : EventMap).

(** Every property of a map holds of the values its name stands for. *)
Definition qualified (t : Table) (m : PropertyMap) : Prop :=
  ∀ n a, (n, a) ∈ m → ∃ l p, value_of t local n = Some l ∧ value_of t peer n = Some p ∧ holds a is_src l p.

(** The block of the peer's platform: the only one, for "self", when the two
    platforms are the same; otherwise the first one that names the peer's. *)
Definition platform_block (platforms : list (string * PropertyMap)) (m : PropertyMap) : Prop :=
  let name r := bytes_to_hex_string (sub r (584, 590)) in
  (platforms = [("self", m)] ∧ name local = name peer) ∨
  (¬ (∃ m', platforms = [("self", m')]) ∧
   ∃ before after, platforms = before ++ (name peer, m) :: after ∧ name peer ∉ before.*1).

(** An event: its data where this side has data for it, its digest otherwise. *)
Definition event_holds (n : EventName.t) (a : Property) : Prop :=
  ∃ l p, event_get local_events n = Some l ∧ event_get peer_events n = Some p ∧
    match ce_data l with
    | Some d => ∃ d', ce_data p = Some d' ∧ holds a is_src d d'
    | None => holds a is_src (digest (ce_header l)) (digest (ce_header p))
    end.

Definition events_qualified (m : PropertyMap) : Prop :=
  ∀ n a, (n, a) ∈ m → event_name_from n ≠ EventName.Unknown ∧ event_holds (event_name_from n) a.

Record accepts (p : MigPolicy) : Prop := {
  acc_lengths : lenz local = REPORT_DATA_SIZE ∧ lenz peer = REPORT_DATA_SIZE;
  acc_platform : ∃ m, platform_block (get_platform_info_policy p) m ∧ qualified platform_table m;
  acc_tdx_module : (∀ m, TdxModule m ∉ blocks p) ∨ ∃ m, TdxModule m ∈ blocks p ∧ qualified tdx_module_table m;
  acc_qe : ∀ m, Qe m ∈ blocks p → qualified qe_table m;
  acc_migtd : ∀ m e, Migtd m e ∈ blocks p → qualified migtd_table m ∧ ∀ m', e = Some m' → events_qualified m' }.

(** Every TDX module property has a name of the table. *)
Definition modules_named (p : MigPolicy) : Prop :=
  ∀ m n a, TdxModule m ∈ blocks p → (n, a) ∈ m → is_Some (value_of tdx_module_table local n).

Lemma value_of_same t r r' n : is_Some (value_of t r n) ↔ is_Some (value_of t r' n).
Proof. induction t as [|[k [g m]] t IH]; cbn; [done|]. case_decide; [|done]. split; eauto. Qed.

Lemma both_Ok t n v : both t local peer n = Ok v ↔ value_of t local n = Some v.1 ∧ value_of t peer n = Some v.2.
Proof.
  unfold both. destruct (value_of t local n), (value_of t peer n), v; cbn; split; try done; try (by intros [? ?]);
    [by intros [= -> ->]|by intros [[= ->] [= ->]]].
Qed.

Lemma qualified_nil t : qualified t [].
Proof. intros n a H. by apply elem_of_nil in H. Qed.

Lemma qualified_cons t n a m :
  qualified t ((n, a) :: m) ↔ (∃ v, both t local peer n = Ok v ∧ holds a is_src v.1 v.2) ∧ qualified t m.
Proof.
  split.
  - intros H. split; [|intros n' a' Hin; apply H; by right]. destruct (H n a) as (l & p & Hl & Hp & Hh); [left|].
    exists (l, p). by rewrite both_Ok.
  - intros [(v & Hv & Hh) Hq] n' a' [[= -> ->]|Hin]%elem_of_cons; [|by apply Hq]. apply both_Ok in Hv as [Hl Hp].
    by exists v.1, v.2.
Qed.

Lemma verify_each_Ok t e m : verify_each is_src (both t local peer) e m = Ok tt ↔ qualified t m.
Proof.
  induction m as [|[n a] m IH]; [split; [intros; apply qualified_nil|done]|]. rewrite qualified_cons, <-IH. cbn [verify_each].
  destruct (both t local peer n) as [v| |] eqn:E; cbn [mbind outcome_bind]; [|by split; [|intros [(v & Hv & _) _]]..].
  destruct (Property_verify a is_src v.1 v.2) eqn:Ev.
  - apply verify_holds in Ev. split; [eauto|by intros [_ ?]].
  - split; [done|]. intros [(v' & [= <-] & Hh) _]. apply verify_holds in Hh. congruence.
Qed.

Lemma verify_each_no_panic t e m : verify_each is_src (both t local peer) e m ≠ Panic.
Proof.
  induction m as [|[n a] m IH]; cbn; [done|]. apply bind_no_panic; [unfold both; by repeat case_match|].
  intros v _. by case_match.
Qed.

Lemma verify_each_ext values values' e m : (∀ n, values n = values' n) →
  verify_each is_src values e m = verify_each is_src values' e m.
Proof. intros H. induction m as [|[n a] m IH]; [done|]. cbn. by rewrite H, IH. Qed.

(** *** Platforms *)

Lemma find_platform_spec l f p : find_platform l f = Some p ↔
  p.1 = f ∧ ∃ before after, l = before ++ p :: after ∧ f ∉ before.*1.
Proof.
  unfold find_platform. induction l as [|q l IH].
  - cbn. split; [done|]. intros [_ ([|? ?] & ? & H & _)]; done.
  - rewrite filter_cons. case_decide as Hq; cbn.
    + split.
      * intros [= ->]. split; [done|]. exists [], l. split; [done|]. by apply not_elem_of_nil.
      * intros (Hp & [|q' before] & after & [= -> H] & Hn); [done|]. cbn in Hn. apply not_elem_of_cons in Hn as [? ?]. congruence.
    + rewrite IH. split; intros (Hp & before & after & H & Hn); (split; [done|]).
      * exists (q :: before), after. split; [by rewrite H|]. cbn. apply not_elem_of_cons. split; [congruence|done].
      * destruct before as [|q' before]; [simplify_eq/=|]. exists before, after. cbn in Hn. apply not_elem_of_cons in Hn as [_ ?].
        by injection H as <- H.
Qed.

Lemma single_self_dec (l : list (string * PropertyMap)) :
  (∃ m, l = [("self", m)]) ∨ (¬ (∃ m, l = [("self", m)]) ∧ ∀ a b, target_platform l a b =
    or_err (find_platform l b) (PolicyError.PlatformNotFound b)).
Proof.
  destruct l as [|[f m] [|q l]]; [right; split; [by intros [? ?]|done]| |right; split; [by intros [? ?]|done]].
  destruct (decide (f = "self")) as [->|Hf]; [left; by exists m|right]. split; [intros [? ?]; congruence|].
  intros a b. cbn [target_platform fst]. by rewrite bool_decide_eq_false_2.
Qed.

Lemma target_platform_spec l m : (∃ f, target_platform l (bytes_to_hex_string (sub local (584, 590)))
    (bytes_to_hex_string (sub peer (584, 590))) = Ok (f, m)) ↔ platform_block l m.
Proof.
  unfold platform_block. cbv zeta. set (nl := bytes_to_hex_string (sub local _)). set (np := bytes_to_hex_string (sub peer _)).
  destruct (single_self_dec l) as [[m' ->]|[Hns Ht]].
  - cbn [target_platform fst]. rewrite bool_decide_eq_true_2 by done. case_bool_decide as Hn; split.
    + intros [f [= <- <-]]. by left.
    + intros [[[= ->] _]|[[] _]]; eauto.
    + by intros [? ?].
    + intros [[_ ?]|[[] _]]; [done|eauto].
  - rewrite Ht. split.
    + intros [f [Hf H]%or_err_Ok%find_platform_spec]. cbn in Hf. subst f. by right.
    + intros [[-> _]|[_ H]]; [destruct Hns; by exists m|]. exists np. by apply or_err_Ok, find_platform_spec.
Qed.

Lemma fmspc_of report : get_platform_info_property (report_of report) PlatformInfoProperty.Fmspc = Ok (sub report (584, 590)).
Proof. reflexivity. Qed.

Lemma platform_Ok l : verify_platform_info is_src (report_of local) (report_of peer) l = Ok tt ↔
  ∃ m, platform_block l m ∧ qualified platform_table m.
Proof.
  unfold verify_platform_info. rewrite !fmspc_of. cbn [mbind outcome_bind]. unfold format_bytes_hex. split.
  - intros ((f & m) & Ht & Hv)%bind_Ok. exists m. rewrite <-target_platform_spec. split; [by exists f|].
    rewrite (verify_each_ext _ _ _ _ (platform_values_spec local peer)) in Hv. by apply verify_each_Ok in Hv.
  - intros (m & (f & ->)%target_platform_spec & Hq). cbn [mbind outcome_bind snd].
    rewrite (verify_each_ext _ _ _ _ (platform_values_spec local peer)). by apply verify_each_Ok.
Qed.

Lemma platform_no_panic l : verify_platform_info is_src (report_of local) (report_of peer) l ≠ Panic.
Proof.
  unfold verify_platform_info. rewrite !fmspc_of. cbn [mbind outcome_bind]. apply bind_no_panic.
  - unfold target_platform. repeat case_match; try done; apply or_err_no_panic.
  - intros [f m] _. rewrite (verify_each_ext _ _ _ _ (platform_values_spec local peer)). apply verify_each_no_panic.
Qed.

(** *** TDX modules *)

Lemma tdx_block_true m : tdx_module_block is_src (report_of local) (report_of peer) m = Ok true ↔ qualified tdx_module_table m.
Proof.
  induction m as [|[n a] m IH]; [split; [intros; apply qualified_nil|done]|]. rewrite qualified_cons, <-IH. cbn [tdx_module_block].
  rewrite tdx_module_values_spec. destruct (both _ _ _ _) as [v| |]; cbn [mbind outcome_bind]; [|by split; [|intros [(v & ? & _) _]]..].
  destruct (Property_verify a is_src v.1 v.2) eqn:Ev.
  - apply verify_holds in Ev. split; [eauto|by intros [_ ?]].
  - split; [done|]. intros [(v' & [= <-] & Hh) _]. apply verify_holds in Hh. congruence.
Qed.

Lemma tdx_block_named m : (∀ n a, (n, a) ∈ m → is_Some (value_of tdx_module_table local n)) →
  ∃ b, tdx_module_block is_src (report_of local) (report_of peer) m = Ok b.
Proof.
  induction m as [|[n a] m IH]; intros Hn; [by exists true|]. cbn [tdx_module_block]. rewrite tdx_module_values_spec.
  destruct (Hn n a) as [l Hl]; [left|]. destruct (proj1 (value_of_same tdx_module_table local peer n)) as [p Hp]; [by exists l|].
  rewrite (proj2 (both_Ok _ _ (l, p))) by done. cbn [mbind outcome_bind]. destruct (Property_verify _ _ _ _); [|by exists false].
  apply IH. intros n' a' ?. apply (Hn n' a'). by right.
Qed.

Lemma tdx_block_no_panic m : tdx_module_block is_src (report_of local) (report_of peer) m ≠ Panic.
Proof.
  induction m as [|[n a] m IH]; cbn; [done|]. rewrite tdx_module_values_spec.
  apply bind_no_panic; [unfold both; by repeat case_match|]. intros v _. by case_match.
Qed.

Lemma tdx_loop_sound b bs : tdx_module_loop is_src (report_of local) (report_of peer) b bs = Ok true →
  (b = true ∧ ∀ m, TdxModule m ∉ bs) ∨ ∃ m, TdxModule m ∈ bs ∧ qualified tdx_module_table m.
Proof.
  revert b. induction bs as [|[] bs IH]; intros b; cbn [tdx_module_loop].
  { intros [= ->]. left. split; [done|]. intros m. apply not_elem_of_nil. }
  3: { intros ([] & Hr & H)%bind_Ok; [right; exists tdx_module_identity; split; [left|by apply tdx_block_true]|].
       destruct (IH _ H) as [[? _]|(m & ? & ?)]; [done|]. right. exists m. split; [by right|done]. }
  all: intros [[-> Hm]|(m & ? & ?)]%IH; [left; split; [done|]; intros m [?|?]%elem_of_cons; [done|by eapply Hm]|];
    right; exists m; split; [by right|done].
Qed.

Lemma tdx_loop_complete b bs :
  (∀ m n a, TdxModule m ∈ bs → (n, a) ∈ m → is_Some (value_of tdx_module_table local n)) →
  (b = true ∧ ∀ m, TdxModule m ∉ bs) ∨ (∃ m, TdxModule m ∈ bs ∧ qualified tdx_module_table m) →
  tdx_module_loop is_src (report_of local) (report_of peer) b bs = Ok true.
Proof.
  revert b. induction bs as [|c bs IH]; intros b Hn; cbn [tdx_module_loop].
  { intros [[-> _]|(m & H & _)]; [done|]. by apply elem_of_nil in H. }
  intros Hc. assert (∀ m n a, TdxModule m ∈ bs → (n, a) ∈ m → is_Some (value_of tdx_module_table local n)) as Hn'
    by (intros m n a Hm; apply (Hn m n a); by right).
  destruct c.
  3: { destruct (tdx_block_named tdx_module_identity) as [r Hr]; [intros n a; apply (Hn _ n a); left|]. rewrite Hr. cbn [mbind outcome_bind].
       destruct r; [done|]. apply IH; [done|]. right. destruct Hc as [[_ Hm]|(m & [[= ->]|Hin]%elem_of_cons & Hq)].
       - destruct (Hm tdx_module_identity). left.
       - apply tdx_block_true in Hq. congruence.
       - by exists m. }
  all: apply IH; [done|]; destruct Hc as [[-> Hm]|(m & [?|Hin]%elem_of_cons & Hq)];
    [left; split; [done|]; intros m H; apply (Hm m); by right|done|right; by exists m].
Qed.

Lemma tdx_loop_no_panic b bs : tdx_module_loop is_src (report_of local) (report_of peer) b bs ≠ Panic.
Proof.
  revert b. induction bs as [|[] bs IH]; intros b; cbn; try done. apply bind_no_panic; [apply tdx_block_no_panic|]. by intros [] _.
Qed.

Lemma tdx_log_no_panic bs : tdx_module_log (report_of local) (report_of peer) bs ≠ Panic.
Proof.
  induction bs as [|[] bs IH]; cbn; try done. apply bind_no_panic; [|done]. apply collect_no_panic. intros [n a].
  rewrite tdx_module_values_spec. unfold both. by repeat case_match.
Qed.

Lemma tdx_info_Ok feature_log p : verify_tdx_module_info is_src (report_of local) (report_of peer) feature_log p = Ok tt ↔
  tdx_module_loop is_src (report_of local) (report_of peer) true (blocks p) = Ok true.
Proof.
  unfold verify_tdx_module_info. destruct (tdx_module_loop _ _ _ _ _) as [[]| |] eqn:E; cbn; [done| |done..].
  split; [|done]. intros (? & _ & H)%bind_Ok. done.
Qed.

(** *** The other blocks *)

Lemma verify_event_holds n a : verify_event is_src local_events peer_events n a = true ↔ event_holds n a.
Proof.
  unfold verify_event, event_holds. destruct (event_get local_events n) as [l|] eqn:El; [|by split; [|intros (? & ? & ? & _)]].
  destruct (event_get peer_events n) as [p|] eqn:Ep; [|by split; [|intros (? & ? & _ & ? & _)]].
  destruct (ce_data l) as [d|] eqn:Ed.
  - destruct (ce_data p) as [d'|] eqn:Ed'.
    + rewrite verify_holds. split; [intros H; exists l, p; rewrite Ed; eauto|].
      intros (l' & p' & [= <-] & [= <-] & H). rewrite Ed in H. destruct H as (x & Hx & Hh). congruence.
    + split; [done|]. intros (l' & p' & [= <-] & [= <-] & H). rewrite Ed in H. destruct H as (x & Hx & Hh). congruence.
  - rewrite verify_holds. split; [intros H; exists l, p; by rewrite Ed|].
    intros (l' & p' & [= <-] & [= <-] & H). by rewrite Ed in H.
Qed.

Lemma verify_events_Ok m : verify_events is_src local_events peer_events m = Ok tt ↔ events_qualified m.
Proof.
  unfold events_qualified. induction m as [|[n a] m IH]; cbn [verify_events].
  { split; [|done]. intros _ n a H. by apply elem_of_nil in H. }
  transitivity ((event_name_from n ≠ EventName.Unknown ∧ event_holds (event_name_from n) a) ∧ events_qualified m).
  - rewrite <-verify_event_holds. case_bool_decide; [by split; [|intros [[] _]]|].
    destruct (verify_event _ _ _ _ _); [|by split; [|intros [[] _]]]. rewrite IH. unfold events_qualified. intuition.
  - unfold events_qualified. split.
    + intros [H1 H2] n' a' [[= -> ->]|?]%elem_of_cons; [done|by apply H2].
    + intros H. split; [apply H; left|]. intros n' a' ?. apply H. by right.
Qed.

Lemma verify_events_no_panic m : verify_events is_src local_events peer_events m ≠ Panic.
Proof. induction m as [|[n a] m IH]; cbn; [done|]. by repeat case_match. Qed.

Section lengths.
Context (Hlocal : lenz local = REPORT_DATA_SIZE) (Hpeer : lenz peer = REPORT_DATA_SIZE).

Lemma migtd_each e m : verify_each is_src (migtd_values (report_of local) (report_of peer)) e m =
  verify_each is_src (both migtd_table local peer) e m.
Proof. apply verify_each_ext. intros n. by apply migtd_values_spec. Qed.

Lemma qe_each e m : verify_each is_src (qe_values (report_of local) (report_of peer)) e m =
  verify_each is_src (both qe_table local peer) e m.
Proof. apply verify_each_ext. intros n. apply qe_values_spec. Qed.

Lemma migtd_Ok m e : verify_migtd_info is_src (report_of local) (report_of peer) local_events peer_events m e = Ok tt ↔
  qualified migtd_table m ∧ ∀ m', e = Some m' → events_qualified m'.
Proof.
  unfold verify_migtd_info. rewrite migtd_each. split.
  - intros ([] & H1%verify_each_Ok & H2)%bind_Ok. split; [done|]. intros m' ->. by apply verify_events_Ok.
  - intros [H1 H2]. rewrite (proj2 (verify_each_Ok _ _ _) H1). cbn [mbind outcome_bind].
    destruct e as [m'|]; [|done]. by apply verify_events_Ok, H2.
Qed.

Definition block_ok (c : Policy) : Prop :=
  match c with
  | Qe m => qualified qe_table m
  | Migtd m e => qualified migtd_table m ∧ ∀ m', e = Some m' → events_qualified m'
  | _ => True
  end.

Lemma bind_unit_Ok {E} (r r' : outcome E unit) : (_ ← r; r') = Ok tt ↔ r = Ok tt ∧ r' = Ok tt.
Proof. destruct r as [[]| |]; cbn; split; try done; by intros []. Qed.

Lemma blocks_Ok bs : verify_blocks is_src (report_of local) (report_of peer) local_events peer_events bs = Ok tt ↔ Forall block_ok bs.
Proof.
  induction bs as [|c bs IH]; [done|]. rewrite Forall_cons. destruct c; cbn [verify_blocks block_ok].
  - rewrite IH. intuition.
  - rewrite bind_unit_Ok, IH. unfold verify_qe_info. by rewrite qe_each, verify_each_Ok.
  - rewrite IH. intuition.
  - by rewrite bind_unit_Ok, IH, migtd_Ok.
Qed.

Lemma blocks_no_panic bs : verify_blocks is_src (report_of local) (report_of peer) local_events peer_events bs ≠ Panic.
Proof.
  induction bs as [|[] bs IH]; cbn [verify_blocks]; try done; apply bind_no_panic; try done.
  - unfold verify_qe_info. rewrite qe_each. apply verify_each_no_panic.
  - unfold verify_migtd_info. rewrite migtd_each. apply bind_no_panic; [apply verify_each_no_panic|]. intros _ _.
    case_match; [apply verify_events_no_panic|done].
Qed.
End lengths.
End accept.

(** ** The whole check *)

Section check.
Context `{J : PolicyV1Json} (feature_log : bool).

(** The check of two reports of the right length. *)
Definition evaluation (is_src : bool) (p : MigPolicy) (local peer : bytes) (events events_peer : EventMap) : PResult unit :=
  _ ← verify_platform_info is_src (report_of local) (report_of peer) (get_platform_info_policy p);
  _ ← verify_tdx_module_info is_src (report_of local) (report_of peer) feature_log p;
  verify_blocks is_src (report_of local) (report_of peer) events events_peer (blocks p).

Lemma verify_policy_eq is_src policy local events peer events_peer :
  verify_policy feature_log is_src policy local events peer events_peer =
  if (lenz local <? REPORT_DATA_SIZE) || (lenz peer <? REPORT_DATA_SIZE) then Err PolicyError.InvalidParameter
  else match read_policy policy with
  | None => Err PolicyError.InvalidPolicy
  | Some p =>
      if (lenz local =? REPORT_DATA_SIZE) && (lenz peer =? REPORT_DATA_SIZE) then evaluation is_src p local peer events events_peer
      else Err PolicyError.InvalidParameter
  end.
Proof.
  unfold verify_policy. destruct (_ || _); [done|]. destruct (read_policy policy) as [p|]; [|done]. cbn [or_err mbind outcome_bind].
  rewrite !ReportV1_new_spec. destruct (lenz local =? REPORT_DATA_SIZE), (lenz peer =? REPORT_DATA_SIZE); done.
Qed.

Lemma evaluation_sound is_src p local peer events events_peer : lenz local = REPORT_DATA_SIZE → lenz peer = REPORT_DATA_SIZE →
  evaluation is_src p local peer events events_peer = Ok tt → accepts is_src local peer events events_peer p.
Proof.
  intros Hl Hp. unfold evaluation. rewrite !bind_unit_Ok, platform_Ok, tdx_info_Ok, blocks_Ok, Forall_forall by done.
  intros (H1 & H2 & H3). split; [done|done| |..].
  - destruct (tdx_loop_sound _ _ _ _ _ H2) as [[_ ?]|?]; auto.
  - intros m Hm. exact (H3 _ Hm).
  - intros m e Hm. exact (H3 _ Hm).
Qed.

Lemma evaluation_complete is_src p local peer events events_peer : modules_named local p →
  accepts is_src local peer events events_peer p → evaluation is_src p local peer events events_peer = Ok tt.
Proof.
  intros Hn [[Hl Hp] H1 H2 H3 H4]. unfold evaluation. rewrite !bind_unit_Ok, platform_Ok, tdx_info_Ok, blocks_Ok, Forall_forall by done.
  split_and!; [done| |].
  - apply tdx_loop_complete; [done|]. destruct H2; auto.
  - intros [] Hc; cbn; auto.
Qed.

Lemma evaluation_no_panic is_src p local peer events events_peer : lenz local = REPORT_DATA_SIZE → lenz peer = REPORT_DATA_SIZE →
  evaluation is_src p local peer events events_peer ≠ Panic.
Proof.
  intros Hl Hp. apply bind_no_panic; [apply platform_no_panic|]. intros _ _. apply bind_no_panic; [|intros; by apply blocks_no_panic].
  unfold verify_tdx_module_info. apply bind_no_panic; [apply tdx_loop_no_panic|]. intros [] _; [done|].
  apply bind_no_panic; [|done]. destruct feature_log; [apply tdx_log_no_panic|done].
Qed.

(** ** Both ends of a migration *)

(** Every property compares the two sides with each other. *)
Definition relative_map (m : PropertyMap) : Prop := Forall (λ e, prop_reference e.2 = Ref.Local) m.

Definition relative_block (b : Policy) : Prop :=
  match b with
  | Platform _ m | Qe m | TdxModule m | Migtd m None => relative_map m
  | Migtd m (Some e) => relative_map m ∧ relative_map e
  end.

(** The only platform block is the one for the same platform. *)
Definition relative (p : MigPolicy) : Prop :=
  (∃ m, get_platform_info_policy p = [("self", m)]) ∧ Forall relative_block (blocks p).

Lemma both_swap t local peer n : both t peer local n = v ← both t local peer n; Ok (v.2, v.1).
Proof. unfold both. by destruct (value_of t local n), (value_of t peer n). Qed.

Lemma verify_each_swap t is_src local peer e m : relative_map m →
  verify_each is_src (both t local peer) e m = verify_each (negb is_src) (both t peer local) e m.
Proof.
  induction 1 as [|[n a] m Hr _ IH]; [done|]. cbn [verify_each]. rewrite (both_swap t local peer).
  destruct (both t local peer n); cbn [mbind outcome_bind fst snd]; [|done..]. by rewrite (relative_symmetric a is_src), IH.
Qed.

Lemma tdx_block_swap is_src local peer m : relative_map m →
  tdx_module_block is_src (report_of local) (report_of peer) m = tdx_module_block (negb is_src) (report_of peer) (report_of local) m.
Proof.
  induction 1 as [|[n a] m Hr _ IH]; [done|]. cbn [tdx_module_block]. rewrite !tdx_module_values_spec, (both_swap _ local peer).
  destruct (both _ local peer n); cbn [mbind outcome_bind fst snd]; [|done..]. by rewrite (relative_symmetric a is_src), IH.
Qed.

Lemma tdx_loop_swap is_src local peer b bs : Forall relative_block bs →
  tdx_module_loop is_src (report_of local) (report_of peer) b bs = tdx_module_loop (negb is_src) (report_of peer) (report_of local) b bs.
Proof.
  intros H. revert b. induction H as [|[] bs Hc _ IH]; intros b; cbn [tdx_module_loop]; try done.
  rewrite tdx_block_swap by done. destruct (tdx_module_block _ _ _ _) as [[]| |]; cbn; done.
Qed.

(** The two logs carry data for the same events. *)
Definition same_data (ea eb : EventMap) : Prop :=
  ∀ n l p, event_get ea n = Some l → event_get eb n = Some p → is_Some (ce_data l) ↔ is_Some (ce_data p).

Lemma verify_events_swap is_src ea eb m : same_data ea eb → relative_map m →
  verify_events is_src ea eb m = verify_events (negb is_src) eb ea m.
Proof.
  intros Hd. induction 1 as [|[n a] m Hr _ IH]; [done|]. cbn [verify_events]. case_bool_decide; [done|].
  rewrite IH. assert (verify_event is_src ea eb (event_name_from n) a = verify_event (negb is_src) eb ea (event_name_from n) a) as ->; [|done].
  unfold verify_event. destruct (event_get ea _) as [l|] eqn:El, (event_get eb _) as [p|] eqn:Ep; try done.
  pose proof (Hd _ _ _ El Ep) as Hlp. destruct (ce_data l), (ce_data p); try by apply relative_symmetric.
  - destruct (proj1 Hlp); [by eexists|done].
  - destruct (proj2 Hlp); [by eexists|done].
Qed.

Lemma blocks_swap is_src local peer ea eb bs : lenz local = REPORT_DATA_SIZE → lenz peer = REPORT_DATA_SIZE → same_data ea eb →
  Forall relative_block bs →
  verify_blocks is_src (report_of local) (report_of peer) ea eb bs = verify_blocks (negb is_src) (report_of peer) (report_of local) eb ea bs.
Proof.
  intros Hl Hp Hd. induction 1 as [|c bs Hc _ IH]; [done|]. destruct c; cbn [verify_blocks]; [done| |done|]; rewrite IH; f_equal.
  - unfold verify_qe_info. rewrite !qe_each. by apply verify_each_swap.
  - unfold verify_migtd_info. rewrite !migtd_each by done. destruct event_log as [e|]; cbn in Hc.
    + destruct Hc as [Hm He]. by rewrite (verify_each_swap _ is_src), (verify_events_swap is_src).
    + by rewrite (verify_each_swap _ is_src).
Qed.

Lemma platform_swap is_src local peer m : relative_map m →
  verify_platform_info is_src (report_of local) (report_of peer) [("self", m)] = Ok tt ↔
  verify_platform_info (negb is_src) (report_of peer) (report_of local) [("self", m)] = Ok tt.
Proof.
  intros Hm. unfold verify_platform_info. rewrite !fmspc_of. cbn [mbind outcome_bind target_platform fst snd].
  rewrite bool_decide_eq_true_2 by done. set (a := format_bytes_hex (sub local _)). set (b := format_bytes_hex (sub peer _)).
  destruct (decide (a = b)) as [Ha|Ha].
  - rewrite !bool_decide_eq_true_2 by done. cbn [mbind outcome_bind snd].
    rewrite !(verify_each_ext _ _ _ _ _ (platform_values_spec _ _)). by rewrite (verify_each_swap _ is_src).
  - rewrite !bool_decide_eq_false_2 by congruence. done.
Qed.

Lemma relative_platform p m : Forall relative_block (blocks p) → get_platform_info_policy p = [("self", m)] → relative_map m.
Proof.
  intros Hf He. assert (("self", m) ∈ get_platform_info_policy p) as Hin by (rewrite He; left).
  unfold get_platform_info_policy in Hin. apply list_elem_of_omap in Hin as ([] & Hb & [= -> ->]).
  exact (proj1 (Forall_forall _ _) Hf _ Hb).
Qed.

Lemma evaluation_swap is_src p local peer ea eb : lenz local = REPORT_DATA_SIZE → lenz peer = REPORT_DATA_SIZE → same_data ea eb →
  relative p → evaluation is_src p local peer ea eb = Ok tt ↔ evaluation (negb is_src) p peer local eb ea = Ok tt.
Proof.
  intros Hl Hp Hd [[m Hm] Hr]. unfold evaluation. rewrite !bind_unit_Ok, !tdx_info_Ok, Hm.
  rewrite (platform_swap is_src) by by eapply relative_platform.
  by rewrite (tdx_loop_swap is_src), (blocks_swap is_src).
Qed.

(** C26 A version 1 policy is evaluated as it reads.  On any policy text, reports
    and event logs [verify_policy] does not abort; if it accepts, the text is a
    policy that accepts the peer declaratively (reports of the right length, a
    block for the peer's platform that holds, a TDX module block that holds unless
    there is none, every quoting enclave and MigTD block, every event); and it
    accepts whenever the policy does, provided its TDX module properties are named
    as the report names them. *)
Theorem policy_v1_exact is_src policy local events peer events_peer :
  verify_policy feature_log is_src policy local events peer events_peer ≠ Panic ∧
  (verify_policy feature_log is_src policy local events peer events_peer = Ok tt →
     ∃ p, read_policy policy = Some p ∧ accepts is_src local peer events events_peer p) ∧
  (∀ p, read_policy policy = Some p → modules_named local p → accepts is_src local peer events events_peer p →
     verify_policy feature_log is_src policy local events peer events_peer = Ok tt).
Proof.
  rewrite verify_policy_eq. split_and!.
  - destruct (_ || _); [done|]. destruct (read_policy policy); [|done].
    destruct (Z.eqb_spec (lenz local) REPORT_DATA_SIZE), (Z.eqb_spec (lenz peer) REPORT_DATA_SIZE); cbn; try done.
    by apply evaluation_no_panic.
  - destruct (_ || _); [done|]. destruct (read_policy policy) as [p|]; [|done].
    destruct (Z.eqb_spec (lenz local) REPORT_DATA_SIZE), (Z.eqb_spec (lenz peer) REPORT_DATA_SIZE); cbn; try done.
    intros H. exists p. split; [done|]. by apply evaluation_sound.
  - intros p -> Hn Ha. destruct (acc_lengths _ _ _ _ _ _ Ha) as [-> ->]. cbn. by apply evaluation_complete.
Qed.
(** ** The check before a migration *)

Context `{L : CcLog} (sha384 : bytes → option bytes).
Context (Hsha : ∀ x d, sha384 x = Some d → length d = 48%nat).

(** Only the version of the core carries data. *)
Lemma parse_event_data m e m' : parse_event m e = Ok m' →
  (∀ n ce, event_get m n = Some ce → is_Some (ce_data ce) ↔ n = EventName.MigTdCoreSvn) →
  ∀ n ce, event_get m' n = Some ce → is_Some (ce_data ce) ↔ n = EventName.MigTdCoreSvn.
Proof.
  intros He Hm n ce. revert He. destruct e as [h data]. unfold parse_event.
  repeat case_match; intros [= <-]; repeat case_match; cbn [event_get]; intros Hg; repeat case_decide; simplify_eq;
    try (by apply Hm); cbn; split; try done; try (by intros [? ?]); eauto.
Qed.

Lemma parse_events_data log m : parse_events log = Ok m →
  ∀ n ce, event_get m n = Some ce → is_Some (ce_data ce) ↔ n = EventName.MigTdCoreSvn.
Proof.
  unfold parse_events. destruct (read_events log) as [[? l]|]; [|done].
  assert (∀ n ce, event_get [] n = Some ce → is_Some (ce_data ce) ↔ n = EventName.MigTdCoreSvn) as H0 by done.
  revert H0. generalize (@nil (EventName.t * CcEvent)) as m0. induction l as [|e l IH]; intros m0 H0; cbn [parse_loop]; [by intros [= <-]|].
  intros (m1 & H1 & H2)%bind_Ok. eapply IH; [|done]. by eapply parse_event_data.
Qed.

Lemma parse_events_same la lb ea eb : parse_events la = Ok ea → parse_events lb = Ok eb → same_data ea eb.
Proof. intros Ha Hb n l p Hl Hp. by rewrite (parse_events_data _ _ Ha _ _ Hl), (parse_events_data _ _ Hb _ _ Hp). Qed.

(** The registers of a report. *)
Definition registers (report : bytes) : list bytes := sub report <$> [(328, 376); (376, 424); (424, 472); (472, 520)].

Lemma rtmrs_spec report : get_rtmrs_from_suppl_data report =
  if lenz report <? REPORT_DATA_SIZE then Err PolicyError.InvalidParameter else Ok (registers report).
Proof.
  unfold get_rtmrs_from_suppl_data. destruct (Z.ltb_spec (lenz report) REPORT_DATA_SIZE) as [|Hl]; [done|]. unfold REPORT_DATA_SIZE in Hl.
  cbn [collect]. rewrite !range_of_take by (unfold R_MIGTD_RTMR0, R_MIGTD_RTMR1, R_MIGTD_RTMR2, R_MIGTD_RTMR3; cbn [fst snd]; lia). done.
Qed.

(** What a successful check went through. *)
Lemma authenticate_Ok log policy is_src local peer log_peer :
  authenticate_policy_v1 feature_log sha384 log policy is_src local peer log_peer = Ok tt ↔
  ∃ l p ea eb, log = Some l ∧ policy = Some p ∧ REPORT_DATA_SIZE <= lenz peer ∧
    verify_event_log sha384 log_peer (registers peer) = Ok tt ∧
    parse_events l = Ok ea ∧ parse_events log_peer = Ok eb ∧ verify_policy feature_log is_src p local ea peer eb = Ok tt.
Proof.
  unfold authenticate_policy_v1. rewrite rtmrs_spec. split.
  - intros (l & Hl & (p & Hp & (rs & Hr & ([] & Hv & (ea & Ha & (eb & Hb & H)%bind_Ok)%bind_Ok)%bind_Ok)%bind_Ok)%bind_Ok)%bind_Ok.
    apply or_err_Ok in Hl, Hp. apply map_unit_Ok in Hv, Ha, Hb.
    destruct (Z.ltb_spec (lenz peer) REPORT_DATA_SIZE); [done|]. injection Hr as <-. by exists l, p, ea, eb.
  - intros (l & p & ea & eb & -> & -> & Hlen & Hv & Ha & Hb & H). cbn [or_err mbind outcome_bind].
    destruct (Z.ltb_spec (lenz peer) REPORT_DATA_SIZE); [lia|]. cbn [mbind outcome_bind]. rewrite Hv, Ha, Hb. done.
Qed.

(** A version 1 check that succeeds binds the peer: the peer's event log, read
    by the crate that reads it, replays to the runtime registers of the peer's
    verified report (every register, from zero, through the digests of its
    events), and the policy of this side accepts the two reports and the events
    of the two logs. *)
Theorem authenticate_v1_sound log policy is_src local peer log_peer :
  authenticate_policy_v1 feature_log sha384 log policy is_src local peer log_peer = Ok tt →
  ∃ l text p ea eb n es, log = Some l ∧ policy = Some text ∧ read_policy text = Some p ∧
    read_events log_peer = Some (n, es) ∧ replays sha384 es (registers peer) ∧
    parse_events l = Ok ea ∧ parse_events log_peer = Ok eb ∧ accepts is_src local peer ea eb p.
Proof.
  intros (l & text & ea & eb & -> & -> & _ & Hv & Ha & Hb & H)%authenticate_Ok.
  destruct (read_events log_peer) as [[n es]|] eqn:Er; [|unfold verify_event_log in Hv; by rewrite Er in Hv].
  apply (verify_spec sha384 Hsha log_peer (registers peer) n es Er) in Hv. rewrite verify_policy_eq in H.
  destruct (_ || _); [done|]. destruct (read_policy text) as [p|] eqn:Ep; [|done].
  destruct (Z.eqb_spec (lenz local) REPORT_DATA_SIZE), (Z.eqb_spec (lenz peer) REPORT_DATA_SIZE); cbn in H; try done.
  exists l, text, p, ea, eb, n, es. split_and!; try done. by apply evaluation_sound.
Qed.

(** Two ends that hold the same version 1 policy, made of properties relative
    to the evaluating side, and whose event logs replay to their reports agree:
    the source accepts the destination exactly when the destination accepts the
    source. *)
Theorem policy_v1_ends_agree text p src dst log_src log_dst : read_policy text = Some p → relative p →
  verify_event_log sha384 log_src (registers src) = Ok tt → verify_event_log sha384 log_dst (registers dst) = Ok tt →
  authenticate_policy_v1 feature_log sha384 (Some log_src) (Some text) true src dst log_dst = Ok tt ↔
  authenticate_policy_v1 feature_log sha384 (Some log_dst) (Some text) false dst src log_src = Ok tt.
Proof.
  intros Ep Hrel Hs Hd. rewrite !authenticate_Ok.
  assert (∀ is_src a b ea eb, parse_events a = Ok ea → parse_events b = Ok eb → ∀ ra rb,
    verify_policy feature_log is_src text ra ea rb eb = Ok tt →
    REPORT_DATA_SIZE <= lenz ra ∧ verify_policy feature_log (negb is_src) text rb eb ra ea = Ok tt) as Hgo.
  { intros is_src a b ea eb Ha Hb ra rb. rewrite !verify_policy_eq, Ep. rewrite (orb_comm (lenz rb <? _)), (andb_comm (lenz rb =? _)).
    destruct (Z.ltb_spec (lenz ra) REPORT_DATA_SIZE), (lenz rb <? REPORT_DATA_SIZE); cbn [orb]; try done.
    destruct (Z.eqb_spec (lenz ra) REPORT_DATA_SIZE), (Z.eqb_spec (lenz rb) REPORT_DATA_SIZE); cbn [andb]; try done.
    intros He. split; [lia|]. apply (evaluation_swap is_src) in He; try done. by eapply parse_events_same. }
  split; intros (l & t & ea & eb & [= <-] & [= <-] & Hl & Hv & Ha & Hb & H).
  - destruct (Hgo true _ _ _ _ Ha Hb _ _ H). by exists log_dst, text, eb, ea.
  - destruct (Hgo false _ _ _ _ Ha Hb _ _ H). by exists log_src, text, eb, ea.
Qed.
End check.

(** ** A concrete policy *)

Module V1Sample.

Definition at_least_self : RawProperty := mkRawProp "greater-or-equal" (RawStr "self").
Definition equal_self : RawProperty := mkRawProp "equal" (RawStr "self").

Definition document : list RawBlock :=
  [mkRawBlock (Some "self") (Some [("pcesvn", at_least_self); ("fmspc", equal_self)]) None None None;
   mkRawBlock None None (Some [("ISVSVN", at_least_self)]) None None;
   mkRawBlock None None None (Some [("TDXModuleSVN", at_least_self)]) None;
   mkRawBlock None None None None
     (Some ([("ATTRIBUTES", equal_self)], Some [("Digest.MigTdCoreSvn", at_least_self); ("Digest.MigTdPolicy", equal_self)]))].

#[local] Existing Instance Sample.log.

#[local] Instance json : PolicyV1Json := {
  json_document s := if decide (s = "policy") then Some ("id", document) else None;
  guid_from_str _ := Some (zeros 16) }.

Definition text : bytes := as_bytes "policy" ++ [0; 0].

Definition sample_policy : MigPolicy := Eval vm_compute in default (mkMigPolicy [] []) (read_policy text).

(** A side whose core has version [svn]: its log and its report. *)
Definition side_log (svn : Z) : bytes :=
  Sample.event 1 6 7 [1; 0; 0; 0] ++ Sample.event 2 10 5 ([3] ++ zeros 15 ++ [2; 0; 0; 0] ++ [svn; 0]) ++ [0].

Definition side_report : bytes :=
  zeros 328 ++ replicate 48 7 ++ replicate 48 5 ++ zeros 96 ++ zeros 64 ++ [0; 0x80; 0x6f; 5; 0; 0] ++ zeros 232.

Lemma text_read : read_policy text = Some sample_policy.
Proof. vm_compute. reflexivity. Qed.

Lemma sample_relative : relative sample_policy.
Proof. split; [eexists; reflexivity|]. repeat constructor. Qed.

Lemma side_log_verified (svn : Z) : svn = 3 ∨ svn = 4 →
  verify_event_log Sample.last_digest (side_log svn) (registers side_report) = Ok tt.
Proof. intros [-> | ->]; vm_compute; reflexivity. Qed.

(** The source of version 3 accepts a destination of version 4, not the reverse. *)
Lemma source_accepts : authenticate_policy_v1 false Sample.last_digest (Some (side_log 3)) (Some text) true side_report side_report (side_log 4) = Ok tt.
Proof. vm_compute. reflexivity. Qed.

Lemma downgrade_refused : authenticate_policy_v1 false Sample.last_digest (Some (side_log 4)) (Some text) true side_report side_report (side_log 3) =
  Err PolicyError.UnqualifiedMigTdInfo.
Proof. vm_compute. reflexivity. Qed.

(** The name the crate stores the enclave's measurement under is not one a policy
    can use: the property is refused whatever the reports hold. *)
Lemma mrenclave_unnamed is_src a e local peer :
  verify_each is_src (both qe_table local peer) e [("MRENCLAVE", a)] = Err PolicyError.InvalidParameter.
Proof. reflexivity. Qed.

Lemma authenticate_v1_sound_witness : ∃ p ea eb, accepts true side_report side_report ea eb p.
Proof.
  destruct (authenticate_v1_sound false Sample.last_digest Sample.last_digest_len _ _ _ _ _ _ source_accepts)
    as (l & t & p & ea & eb & n & es & _ & _ & _ & _ & _ & _ & _ & Ha).
  exists p, ea, eb. exact Ha.
Defined.

Lemma policy_v1_ends_agree_witness :
  authenticate_policy_v1 false Sample.last_digest (Some (side_log 4)) (Some text) false side_report side_report (side_log 3) = Ok tt.
Proof.
  exact (proj1 (policy_v1_ends_agree false Sample.last_digest text sample_policy side_report side_report (side_log 3) (side_log 4)
    text_read sample_relative (side_log_verified 3 ltac:(auto)) (side_log_verified 4 ltac:(auto))) source_accepts).
Defined.

Lemma policy_v1_exact_witness :
  ∃ p, read_policy text = Some p ∧ accepts true side_report side_report
    (default [] (ok (map_unit PolicyError.InvalidParameter (parse_events (side_log 3)))))
    (default [] (ok (map_unit PolicyError.InvalidParameter (parse_events (side_log 4))))) p.
Proof. apply (policy_v1_exact false true text side_report). vm_compute. reflexivity. Defined.

End V1Sample.
