(* ===== verification/X509.v ===== *)
(** * X509: certificates, chains and signatures

    src/crypto/src/x509.rs, lib.rs, crl.rs and rustls_impl/{ecdsa,hash}.rs, and the
    FMSPC of a PCK certificate of src/policy/src/v2/collaterals.rs.  The
    DER and PEM codecs (crates der and rustls-pki-types) and the primitives of
    ring are the classes [Der] and [Ring]; the data types, the builder, the walk
    over chains and the checks are the code's. *)
From stdpp Require Import base tactics numbers list list_numbers option strings.
From S2P Require Import Prelude PolicyV2.
Local Open Scope Z_scope.

(** ** Errors (lib.rs) *)

Module CryptoError.
Inductive t :=
  | CalculateDigest | GetRandom | GenerateKeyPair | GenerateCertificate | ParseCertificate | EcdsaSign | EcdsaVerify
  | SetupTlsContext | InvalidDnsName | TlsStream | TlsGetPeerCert | TlsVerifyPeerCert (msg : string) | TlsConnection
  | DecodePemCert | CertChainVerification (msg : string) | SignatureVerification | UnsupportedAlgorithm
  | CrlNumberNotFound | PeerCertChainValidation (msg : string) | Unexpected.
End CryptoError.

Notation CResult := (outcome CryptoError.t).

(** ** Data (x509.rs) *)

(** An object identifier by its arcs. *)
Definition ObjectIdentifier := list Z.

(** [AnyRef]: the tag and the content of a value. *)
Record AnyRef := mkAny { any_tag : Z; any_value : bytes }.

Definition TAG_OBJECT_IDENTIFIER : Z := 0x06.
Definition TAG_UTF8_STRING : Z := 0x0C.
Definition TAG_PRINTABLE_STRING : Z := 0x13.

Record BitString := mkBits { unused_bits : Z; raw_bytes : bytes }.

(** [BitStringRef::as_bytes]: only of a string of whole bytes. *)
Definition bits_as_bytes (b : BitString) : option bytes := if unused_bits b =? 0 then Some (raw_bytes b) else None.

Record AlgorithmIdentifier := mkAlg { algorithm : ObjectIdentifier; parameters : option AnyRef }.
Record DistinguishedName := mkDN { attribute_type : ObjectIdentifier; dn_value : AnyRef }.

(** A point in time, in seconds. *)
Inductive Time := Utc (t : Z) | Generalized (t : Z).

Record Validity := mkValidity { not_before : Time; not_after : Time }.
Record SubjectPublicKeyInfo := mkSpki { spki_algorithm : AlgorithmIdentifier; subject_public_key : BitString }.
Record Extension := mkExtension { extn_id : ObjectIdentifier; critical : option bool; extn_value : option bytes }.

Record TBSCertificate := mkTbs {
  version : bytes; serial_number : bytes; tbs_signature : AlgorithmIdentifier;
  issuer : list (list DistinguishedName); validity : Validity; subject : list (list DistinguishedName);
  subject_public_key_info : SubjectPublicKeyInfo;
  issuer_unique_id : option BitString; subject_unique_id : option BitString;
  extensions : option (list Extension) }.

Record Certificate := mkCert {
  tbs_certificate : TBSCertificate; signature_algorithm : AlgorithmIdentifier; signature_value : BitString }.

#[global] Instance AnyRef_eq_dec : EqDecision AnyRef.
Proof. solve_decision. Defined.
#[global] Instance DistinguishedName_eq_dec : EqDecision DistinguishedName.
Proof. solve_decision. Defined.

(** ** Codecs and primitives *)

(** The crates der and rustls-pki-types.  [der_fits] is the limit on the length
    of a value (256 MiB), [pem_certs] the certificates of a PEM text in order,
    [None] for one that does not decode. *)
Class Der := {
  der_fits : bytes → bool;
  generalized_time : Z → option Z;                    (* GeneralizedTime::from_unix_duration *)
  oid_as_bytes : ObjectIdentifier → bytes;
  cert_from_der : bytes → option Certificate;
  cert_to_der : Certificate → option bytes;
  tbs_to_der : TBSCertificate → option bytes;
  oids_from_der : bytes → option (list ObjectIdentifier);
  oids_to_der : list ObjectIdentifier → option bytes;
  bits_to_der : BitString → option bytes;
  basic_constraints_from_der : bytes → option (option bool * option Z);
  pem_certs : bytes → list (option bytes);
  crl_from_pem : bytes → option bytes;
  crl_extensions_from_der : bytes → option (option (list Extension));
  u32_from_der : bytes → option Z;
  inner_values_from_der : bytes → option (list (ObjectIdentifier * option AnyRef));   (* Vec::<InnerValue>::from_der *)
  cert_from_to_der c d : cert_to_der c = Some d → cert_from_der d = Some c;
  oids_from_to_der l d : oids_to_der l = Some d → oids_from_der d = Some l }.

(** The verification algorithms of ring the code names. *)
Inductive VerificationAlgorithm := ECDSA_P384_SHA384_ASN1 | ECDSA_P384_SHA384_FIXED.

(** ring: hashing, key pairs (a PKCS#8 document each) and signatures.  Signing
    draws randomness, its first argument. *)
Class Ring := {
  sha384 : bytes → bytes;
  generate_pkcs8 : Z → option bytes;
  key_public : bytes → option bytes;
  key_sign : Z → bytes → bytes → option bytes;
  ring_verify : VerificationAlgorithm → bytes → bytes → bytes → bool;
  length_sha384 d : lenz (sha384 d) = 48;
  sign_verify r k pk data s : key_public k = Some pk → key_sign r k data = Some s →
    ring_verify ECDSA_P384_SHA384_ASN1 pk data s = true }.

Definition SHA384_DIGEST_SIZE : Z := 48.

(** ** Hash and signatures (hash.rs, ecdsa.rs) *)

Section primitives.
Context `{Ring}.

Definition digest_sha384 (data : bytes) : CResult bytes :=
  let digest := sha384 data in
  if negb (lenz digest =? SHA384_DIGEST_SIZE) then Err CryptoError.CalculateDigest else Ok digest.

(** [EcdsaPk], its PKCS#8 document. *)
Record EcdsaPk := mkPk { pk : bytes }.

Definition EcdsaPk_new (rand : Z) : CResult EcdsaPk :=
  d ← or_err (generate_pkcs8 rand) CryptoError.GenerateKeyPair; Ok (mkPk d).

Definition ecdsa_pk_sign (rand : Z) (k : EcdsaPk) (data : bytes) : CResult bytes :=
  match key_public (pk k) with
  | None => Err CryptoError.GenerateKeyPair
  | Some _ => or_err (key_sign rand (pk k) data) CryptoError.EcdsaSign
  end.

Definition public_key (k : EcdsaPk) : CResult bytes := or_err (key_public (pk k)) CryptoError.GenerateKeyPair.

Definition ecdsa_verify_with_algorithm (pk data sig : bytes) (a : VerificationAlgorithm) : CResult unit :=
  require (ring_verify a pk data sig) CryptoError.EcdsaVerify.
Definition ecdsa_verify (pk data sig : bytes) : CResult unit :=
  ecdsa_verify_with_algorithm pk data sig ECDSA_P384_SHA384_ASN1.
Definition ecdsa_verify_with_raw_public_key (pk data sig : bytes) : CResult unit :=
  ecdsa_verify_with_algorithm pk data sig ECDSA_P384_SHA384_FIXED.

Definition ecdsa_sign (rand : Z) (pkcs8 data : bytes) : CResult bytes :=
  match key_public pkcs8 with
  | None => Err CryptoError.EcdsaSign
  | Some _ => or_err (key_sign rand pkcs8 data) CryptoError.EcdsaSign
  end.

End primitives.

(** ** DER headers written by hand (x509.rs) *)

Definition DER_SEQUENCE_TAG : Z := 0x30.
Definition DER_BIT_STRING_TAG : Z := 0x03.

(** [size[leading_zero_bytes..]] *)
Fixpoint skip_zeros (l : bytes) : bytes :=
  match l with
  | x :: l' => if x =? 0 then skip_zeros l' else l
  | [] => []
  end.

(** [asn1_wrap]: the tag and the length, in the short or the long form, before
    the content.  The assertion fails for no length of more than 127 bytes. *)
Definition asn1_wrap (tag : Z) (bytes_a bytes_b : bytes) : outcome CryptoError.t bytes :=
  let len := lenz bytes_a + lenz bytes_b in
  if len <=? 0x7f then Ok (tag :: as_u 8 len :: bytes_a ++ bytes_b)
  else
    let size := rev (le_bytes 8 len) in
    let rest := skip_zeros size in
    if bool_decide (rest = []) then Panic
    else Ok (tag :: (0x80 + lenz rest) :: rest ++ bytes_a ++ bytes_b).

Definition wrap_in_sequence (bs : bytes) : outcome CryptoError.t bytes := asn1_wrap DER_SEQUENCE_TAG bs [].
Definition wrap_in_bit_string (bs : bytes) : outcome CryptoError.t bytes := asn1_wrap DER_BIT_STRING_TAG [0] bs.

(** ** The builder (x509.rs) *)

Section builder.
Context `{Der}.

(** [BitStringRef::new(0, bytes)], [OctetStringRef::new] and [UintRef::new]. *)
Definition bit_string_new (bs : bytes) : option BitString := if der_fits bs then Some (mkBits 0 bs) else None.
Definition octet_string_new (bs : bytes) : option bytes := if der_fits bs then Some bs else None.
Definition uint_new (bs : bytes) : option bytes := if der_fits bs then Some bs else None.
Definition any_new (tag : Z) (bs : bytes) : option AnyRef := if der_fits bs then Some (mkAny tag bs) else None.

Definition text (s : string) : bytes := (λ a, Z.of_N (Ascii.N_of_ascii a)) <$> String.list_ascii_of_string s.

(** The names the certificate carries as issuer and subject. *)
Definition default_name : option (list (list DistinguishedName)) :=
  country ← any_new TAG_PRINTABLE_STRING (text "XX");
  locality ← any_new TAG_UTF8_STRING (text "Default City");
  organization ← any_new TAG_UTF8_STRING (text "Default Company Ltd");
  Some [[mkDN [2; 5; 4; 6] country]; [mkDN [2; 5; 4; 7] locality]; [mkDN [2; 5; 4; 10] organization]].

(** [Certificate::new] *)
Definition Certificate_new (signature algorithm : AlgorithmIdentifier) (public_key : bytes) : option Certificate :=
  version ← uint_new [2];
  serial_number ← uint_new [1];
  issuer ← default_name;
  not_before ← generalized_time 0;
  not_after ← generalized_time 0;
  spk ← bit_string_new public_key;
  signature_value ← bit_string_new [];
  Some (mkCert (mkTbs version serial_number signature issuer (mkValidity (Generalized not_before) (Generalized not_after))
                  issuer (mkSpki algorithm spk) None None None) signature signature_value).

Definition with_tbs (f : TBSCertificate → TBSCertificate) (c : Certificate) : Certificate :=
  mkCert (f (tbs_certificate c)) (signature_algorithm c) (signature_value c).

Definition with_validity (v : Validity) (t : TBSCertificate) : TBSCertificate :=
  mkTbs (version t) (serial_number t) (tbs_signature t) (issuer t) v (subject t) (subject_public_key_info t)
    (issuer_unique_id t) (subject_unique_id t) (extensions t).
Definition with_spki (k : SubjectPublicKeyInfo) (t : TBSCertificate) : TBSCertificate :=
  mkTbs (version t) (serial_number t) (tbs_signature t) (issuer t) (validity t) (subject t) k
    (issuer_unique_id t) (subject_unique_id t) (extensions t).
Definition with_extensions (e : option (list Extension)) (t : TBSCertificate) : TBSCertificate :=
  mkTbs (version t) (serial_number t) (tbs_signature t) (issuer t) (validity t) (subject t) (subject_public_key_info t)
    (issuer_unique_id t) (subject_unique_id t) e.

Definition set_not_before (time : Z) (c : Certificate) : option Certificate :=
  t ← generalized_time time;
  Some (with_tbs (λ tbs, with_validity (mkValidity (Generalized t) (not_after (validity tbs))) tbs) c).

Definition set_not_after (time : Z) (c : Certificate) : option Certificate :=
  t ← generalized_time time;
  Some (with_tbs (λ tbs, with_validity (mkValidity (not_before (validity tbs)) (Generalized t)) tbs) c).

Definition set_public_key (a : AlgorithmIdentifier) (public_key : bytes) (c : Certificate) : option Certificate :=
  spk ← bit_string_new public_key; Some (with_tbs (with_spki (mkSpki a spk)) c).

Definition Extension_new (id : ObjectIdentifier) (critical : option bool) (value : option bytes) : option Extension :=
  match value with
  | Some v => o ← octet_string_new v; Some (mkExtension id critical (Some o))
  | None => Some (mkExtension id critical None)
  end.

Definition add_extension (e : Extension) (c : Certificate) : Certificate :=
  with_tbs (λ tbs, with_extensions (Some (default [] (extensions tbs) ++ [e])) tbs) c.

Definition set_signature (sig : bytes) (c : Certificate) : option Certificate :=
  s ← bit_string_new sig; Some (mkCert (tbs_certificate c) (signature_algorithm c) s).

(** [CertificateBuilder::sign]: the callback writes the signature. *)
Definition builder_sign (signer : bytes → bytes → bytes) (signature : bytes) (c : Certificate) : option Certificate :=
  tbs ← tbs_to_der (tbs_certificate c); set_signature (signer tbs signature) c.

End builder.

(** ** Chains (lib.rs) *)

Definition BASIC_CONSTRAINTS_OID : ObjectIdentifier := [2; 5; 29; 19].
Definition ECDSA_WITH_SHA384 : ObjectIdentifier := [1; 2; 840; 10045; 4; 3; 3].
Definition CRL_NUMBER_OID : ObjectIdentifier := [2; 5; 29; 20].

Section chains.
Context `{Der} `{Ring}.

Definition parse_cert (der : bytes) : CResult Certificate := or_err (cert_from_der der) CryptoError.ParseCertificate.

Definition extract_cert_chain_from_pem (cert_chain_pem : bytes) : CResult (list bytes) :=
  cert_chain ← collect (λ c, or_err c CryptoError.DecodePemCert) (pem_certs cert_chain_pem);
  if bool_decide (cert_chain = []) then Err (CryptoError.CertChainVerification "No certificates found in chain")
  else Ok cert_chain.

Definition extract_public_key_from_cert (cert : Certificate) : CResult bytes :=
  or_err (bits_as_bytes (subject_public_key (subject_public_key_info (tbs_certificate cert)))) CryptoError.ParseCertificate.

Definition verify_signature_with_algorithm (public_key message sig : bytes) (a : AlgorithmIdentifier) : CResult unit :=
  if bool_decide (algorithm a = ECDSA_WITH_SHA384) then
    match ecdsa_verify_with_algorithm public_key message sig ECDSA_P384_SHA384_ASN1 with
    | Ok _ => Ok tt
    | _ => Err CryptoError.SignatureVerification
    end
  else Err CryptoError.UnsupportedAlgorithm.

Definition verify_cert_signature (subject_cert issuer_cert : Certificate) : CResult unit :=
  issuer_public_key ← extract_public_key_from_cert issuer_cert;
  sig ← or_err (bits_as_bytes (signature_value subject_cert)) CryptoError.ParseCertificate;
  tbs_cert_der ← or_err (tbs_to_der (tbs_certificate subject_cert)) CryptoError.ParseCertificate;
  verify_signature_with_algorithm issuer_public_key tbs_cert_der sig (signature_algorithm subject_cert).

Definition verify_signature_with_cert (cert_der message sig : bytes) : CResult unit :=
  cert ← parse_cert cert_der;
  public_key ← extract_public_key_from_cert cert;
  verify_signature_with_algorithm public_key message sig (signature_algorithm cert).

(** [for i in 0..cert_chain.len() - 1] *)
Fixpoint chain_loop (cert_chain : list bytes) : CResult unit :=
  match cert_chain with
  | subject :: ((issuer :: _) as rest) =>
      subject_cert ← parse_cert subject;
      issuer_cert ← parse_cert issuer;
      _ ← verify_cert_signature subject_cert issuer_cert;
      chain_loop rest
  | _ => Ok tt
  end.

Definition verify_certificate_chain (cert_chain : list bytes) : CResult unit :=
  match cert_chain with
  | [] => Err (CryptoError.CertChainVerification "Empty certificate chain")
  | [_] => Ok tt
  | _ => chain_loop cert_chain
  end.

Definition verify_cert_chain_and_signature (cert_chain_pem message sig : bytes) : CResult unit :=
  cert_chain ← extract_cert_chain_from_pem cert_chain_pem;
  _ ← verify_certificate_chain cert_chain;
  match cert_chain with
  | leaf_cert :: _ => verify_signature_with_cert leaf_cert message sig
  | [] => Panic
  end.

Definition get_policy_signer_key_hash (cert_chain_pem : bytes) : CResult bytes :=
  cert_chain ← extract_cert_chain_from_pem cert_chain_pem;
  match cert_chain with
  | [] => Err (CryptoError.CertChainVerification "No certificates found in chain")
  | leaf_cert :: _ =>
      cert ← parse_cert leaf_cert;
      public_key ← extract_public_key_from_cert cert;
      match digest_sha384 public_key with
      | Ok hash => if lenz hash =? SHA384_DIGEST_SIZE then Ok hash else Panic
      | _ => Err CryptoError.CalculateDigest
      end
  end.

Fixpoint ca_loop (exts : list Extension) : CResult bool :=
  match exts with
  | [] => Ok false
  | ext :: exts =>
      if bool_decide (extn_id ext = BASIC_CONSTRAINTS_OID) then
        value ← or_err (extn_value ext) CryptoError.ParseCertificate;
        bc ← or_err (basic_constraints_from_der value) CryptoError.ParseCertificate;
        Ok (default false bc.1)
      else ca_loop exts
  end.

Definition is_ca_certificate (cert : Certificate) : CResult bool :=
  match extensions (tbs_certificate cert) with
  | None => Ok false
  | Some exts => ca_loop exts
  end.

Definition check_root_ca_match (local_chain peer_chain : list bytes) : CResult unit :=
  match last local_chain, last peer_chain with
  | Some local_root, Some peer_root =>
      require (bool_decide (local_root = peer_root))
        (CryptoError.PeerCertChainValidation "Root CA mismatch between local and peer certificate chains")
  | _, _ => Panic
  end.

(** [for cert_der in peer_chain.iter().skip(1)] *)
Fixpoint issuers_loop (chain : list bytes) : CResult unit :=
  match chain with
  | [] => Ok tt
  | cert_der :: chain =>
      issuer ← parse_cert cert_der;
      ca ← is_ca_certificate issuer;
      if negb ca then Err (CryptoError.PeerCertChainValidation
        "Peer chain contains a non-CA issuer certificate (BasicConstraints cA=TRUE missing)")
      else issuers_loop chain
  end.

Definition validate_peer_cert_chain (local_chain_pem peer_chain_pem : bytes) : CResult unit :=
  local_chain ← extract_cert_chain_from_pem local_chain_pem;
  peer_chain ← extract_cert_chain_from_pem peer_chain_pem;
  _ ← verify_certificate_chain peer_chain;
  _ ← check_root_ca_match local_chain peer_chain;
  match local_chain, peer_chain with
  | local :: _, peer :: issuers =>
      local_leaf ← parse_cert local;
      peer_leaf ← parse_cert peer;
      if negb (bool_decide (subject (tbs_certificate local_leaf) = subject (tbs_certificate peer_leaf)))
      then Err (CryptoError.PeerCertChainValidation "Leaf certificate Subject Name mismatch between local and peer chains")
      else issuers_loop issuers
  | _, _ => Panic
  end.

(** ** CRL numbers (crl.rs) *)

Fixpoint crl_number_loop (exts : list Extension) : CResult Z :=
  match exts with
  | [] => Err CryptoError.CrlNumberNotFound
  | ext :: exts =>
      if bool_decide (extn_id ext = CRL_NUMBER_OID) then
        v ← or_err (extn_value ext) CryptoError.CrlNumberNotFound;
        or_err (u32_from_der v) CryptoError.CrlNumberNotFound
      else crl_number_loop exts
  end.

Definition get_crl_number (crl : bytes) : CResult Z :=
  crl_der ← or_err (crl_from_pem crl) CryptoError.DecodePemCert;
  exts ← or_err (crl_extensions_from_der crl_der) CryptoError.ParseCertificate;
  match exts with
  | Some cs => crl_number_loop cs
  | None => Err CryptoError.CrlNumberNotFound
  end.

(** [public_key_spki]: the key behind the algorithm identifier of P-384, given by
    rustls-pki-types; an unusable key aborts. *)
Definition public_key_spki (ecdsa_p384 : bytes) (k : EcdsaPk) : outcome CryptoError.t bytes :=
  match key_public (pk k) with
  | None => Panic
  | Some pub_key =>
      a ← wrap_in_sequence ecdsa_p384;
      b ← wrap_in_bit_string pub_key;
      wrap_in_sequence (a ++ b)
  end.

End chains.

(** ** The FMSPC of a quote (policy/src/v2/collaterals.rs) *)

(** [String::from_utf8_lossy]: the longest start of a character that the next byte
    does not continue becomes one U+FFFD. *)
Definition REPLACEMENT : bytes := [0xEF; 0xBF; 0xBD].

Definition second_of_3 (a b : Z) : bool :=
  between 0xE0 0xEF a && (if a =? 0xE0 then between 0xA0 0xBF b else if a =? 0xED then between 0x80 0x9F b else is_cont b).
Definition second_of_4 (a b : Z) : bool :=
  between 0xF0 0xF4 a && (if a =? 0xF0 then between 0x90 0xBF b else if a =? 0xF4 then between 0x80 0x8F b else is_cont b).

Fixpoint from_utf8_lossy (bs : bytes) : bytes :=
  match bs with
  | [] => []
  | a :: r =>
      if a <? 0x80 then a :: from_utf8_lossy r
      else match r with
      | [] => REPLACEMENT
      | b :: r2 =>
          if between 0xC2 0xDF a && is_cont b then a :: b :: from_utf8_lossy r2
          else if second_of_3 a b then
            match r2 with
            | [] => REPLACEMENT
            | c :: r3 => if is_cont c then a :: b :: c :: from_utf8_lossy r3 else REPLACEMENT ++ from_utf8_lossy r2
            end
          else if second_of_4 a b then
            match r2 with
            | [] => REPLACEMENT
            | c :: r3 =>
                if is_cont c then
                  match r3 with
                  | [] => REPLACEMENT
                  | d :: r4 => if is_cont d then a :: b :: c :: d :: from_utf8_lossy r4 else REPLACEMENT ++ from_utf8_lossy r3
                  end
                else REPLACEMENT ++ from_utf8_lossy r2
            end
          else REPLACEMENT ++ from_utf8_lossy r
      end
  end.

(** [str::find] *)
Fixpoint str_find (needle s : bytes) : option Z :=
  if bool_decide (take (length needle) s = needle) then Some 0
  else match s with [] => None | _ :: s => i ← str_find needle s; Some (i + 1) end.

Definition PEM_CERT_BEGIN : bytes := text "-----BEGIN CERTIFICATE-----" ++ [10].
Definition PEM_CERT_END : bytes := text "-----END CERTIFICATE-----" ++ [10].
Definition PCK_FMSPC_EXTENSION_OID : ObjectIdentifier := [1; 2; 840; 113741; 1; 13; 1].
Definition PCK_FMSPC_OID : ObjectIdentifier := [1; 2; 840; 113741; 1; 13; 1; 4].
Definition TAG_OCTET_STRING : Z := 0x04.

Section pck.
Context `{Der}.

(** The first certificate of a PEM text. *)
Definition pem_cert_to_der (cert : bytes) : CResult bytes :=
  match pem_certs cert with Some der :: _ => Ok der | _ => Err CryptoError.DecodePemCert end.

(** [for val in vals]; [None] when no value has the identifier. *)
Fixpoint fmspc_value (vals : list (ObjectIdentifier * option AnyRef)) : option (PResult bytes) :=
  match vals with
  | [] => None
  | (id, value) :: vals =>
      if bool_decide (id = PCK_FMSPC_OID) then
        Some (v ← or_err value PolicyError.InvalidQuote;
              if any_tag v =? TAG_OCTET_STRING then
                if lenz (any_value v) =? 6 then Ok (any_value v) else Err PolicyError.InvalidQuote
              else Err PolicyError.InvalidQuote)
      else fmspc_value vals
  end.

(** [for ext in extensions.get()] *)
Fixpoint fmspc_extension (exts : list Extension) : PResult bytes :=
  match exts with
  | [] => Err PolicyError.InvalidQuote
  | ext :: exts =>
      if bool_decide (extn_id ext = PCK_FMSPC_EXTENSION_OID) then
        value ← or_err (extn_value ext) PolicyError.InvalidQuote;
        vals ← or_err (inner_values_from_der value) PolicyError.InvalidQuote;
        match fmspc_value vals with Some r => r | None => fmspc_extension exts end
      else fmspc_extension exts
  end.

Definition parse_fmspc_from_pck_cert (pck_der : bytes) : PResult bytes :=
  x509 ← or_err (cert_from_der pck_der) PolicyError.InvalidQuote;
  exts ← or_err (extensions (tbs_certificate x509)) PolicyError.InvalidQuote;
  fmspc_extension exts.

Definition get_fmspc_from_quote (quote : bytes) : PResult bytes :=
  let mid := from_utf8_lossy quote in
  start_index ← or_err (str_find PEM_CERT_BEGIN mid) PolicyError.InvalidQuote;
  end_index ← or_err (i ← str_find PEM_CERT_END (drop (Z.to_nat start_index) mid);
                      i ← checked_add 64 i start_index;
                      checked_add 64 i (lenz PEM_CERT_END)) PolicyError.InvalidQuote;
  if end_index <=? start_index then Err PolicyError.InvalidQuote
  else
    match slice mid start_index end_index with
    | None => Panic
    | Some pck_cert =>
        pck_der ← match pem_cert_to_der pck_cert with Ok der => Ok der | Err _ => Err PolicyError.InvalidQuote | Panic => Panic end;
        parse_fmspc_from_pck_cert pck_der
    end.

End pck.
