(* ===== verification/X509Spec.v ===== *)
(** * X509Spec: what a validated chain shows

    A chain is accepted exactly when its leaf is issued, through certificates
    marked as authorities, under the root of the local chain and carries the
    subject of the local leaf; the headers written by hand are DER (X509). *)
From stdpp Require Import base tactics numbers list list_numbers option strings.
From S2P Require Import Prelude X509.
Local Open Scope Z_scope.

(** ** DER headers *)

(** The reader of a definite-length DER value: tag, content, what follows. *)
Definition tlv_read (bs : bytes) : option (Z * bytes * bytes) :=
  match bs with
  | tag :: l :: rest =>
      if l <? 0x80 then c ← slice rest 0 l; Some (tag, c, drop (Z.to_nat l) rest)
      else
        size ← slice rest 0 (l - 0x80);
        let n := le_val (rev size) in
        let body := drop (Z.to_nat (l - 0x80)) rest in
        c ← slice body 0 n;
        Some (tag, c, drop (Z.to_nat n) body)
  | _ => None
  end.

Lemma le_val_snoc_0 l : le_val (l ++ [0]) = le_val l.
Proof. unfold le_val. induction l as [|x l IH]; cbn; [done|]. by rewrite IH. Qed.

Lemma skip_zeros_val l : le_val (rev (skip_zeros l)) = le_val (rev l).
Proof.
  induction l as [|x l IH]; cbn [skip_zeros]; [done|]. destruct (Z.eqb_spec x 0) as [->|]; [|done].
  rewrite IH. cbn [rev]. by rewrite le_val_snoc_0.
Qed.

Lemma skip_zeros_length l : (length (skip_zeros l) <= length l)%nat.
Proof. induction l as [|x l IH]; cbn; [lia|]. destruct (x =? 0); cbn; lia. Qed.

Lemma be_size_val n : 0 <= n < 2 ^ 64 → le_val (rev (skip_zeros (rev (le_bytes 8 n)))) = n.
Proof. intros Hn. rewrite skip_zeros_val, rev_involutive, le_val_bytes. by rewrite Z.mod_small. Qed.

(** A value wrapped by hand reads back as DER: the writer never fails an
    assertion, and a reader of the result, whatever follows it, finds the tag,
    exactly the content and what follows, in the short form below 128 bytes of
    content and in the long form from there on. *)
Theorem asn1_wrap_reads_back tag a b rest :
  lenz a + lenz b < 2 ^ 64 →
  ∃ w, asn1_wrap tag a b = Ok w ∧ tlv_read (w ++ rest) = Some (tag, a ++ b, rest) ∧
    (lenz a + lenz b < 0x80 → lenz w = 2 + lenz a + lenz b) ∧ lenz w <= 10 + lenz a + lenz b.
Proof.
  intros Hlen. unfold asn1_wrap. rewrite <-lenz_app in Hlen |- *.
  enough (∀ c, lenz c < 2 ^ 64 → ∃ w,
    (if lenz c <=? 0x7f then Ok (E:=CryptoError.t) (tag :: as_u 8 (lenz c) :: c)
     else let size := rev (le_bytes 8 (lenz c)) in let rest := skip_zeros size in
       if bool_decide (rest = []) then Panic else Ok (tag :: (0x80 + lenz rest) :: rest ++ c)) = Ok w ∧
    tlv_read (w ++ rest) = Some (tag, c, rest) ∧ (lenz c < 0x80 → lenz w = 2 + lenz c) ∧ lenz w <= 10 + lenz c) as Hc.
  { destruct (Hc (a ++ b) Hlen) as (w & E & Hr & Hs & Hl). exists w. rewrite lenz_app in *. split_and!; [done|done|lia|lia]. }
  clear a b Hlen. intros c Hlen. pose proof (lenz_nonneg c) as Hc0. pose proof (lenz_nonneg rest) as Hr0.
  destruct (Z.leb_spec (lenz c) 0x7f).
  - eexists. split; [done|]. unfold as_u. rewrite Z.mod_small by lia. cbn [app tlv_read].
    destruct (Z.ltb_spec (lenz c) 0x80); [|lia]. rewrite slice_take by (rewrite lenz_app; lia).
    cbn [mbind option_bind]. rewrite !to_nat_lenz, take_app_length, drop_app_length.
    split; [done|]. rewrite !lenz_cons. lia.
  - cbv zeta. set (sz := skip_zeros (rev (le_bytes 8 (lenz c)))).
    assert (le_val (rev sz) = lenz c) as Hv by (apply be_size_val; lia).
    assert (0 < lenz sz <= 8) as Hsz.
    { split.
      - destruct sz; [cbn in Hv; lia|]. rewrite lenz_cons. pose proof (lenz_nonneg sz). lia.
      - unfold lenz. pose proof (skip_zeros_length (rev (le_bytes 8 (lenz c)))) as Hl.
        rewrite length_rev, length_le_bytes in Hl. fold sz in Hl. lia. }
    clearbody sz. rewrite bool_decide_false by (intros ->; by destruct Hsz).
    eexists. split; [done|]. cbn [app tlv_read]. destruct (Z.ltb_spec (0x80 + lenz sz) 0x80); [lia|].
    rewrite <-app_assoc. replace (0x80 + lenz sz - 0x80) with (lenz sz) by lia.
    rewrite slice_take by (rewrite lenz_app; pose proof (lenz_nonneg (c ++ rest)); lia).
    cbn [mbind option_bind]. rewrite !to_nat_lenz, take_app_length, drop_app_length. cbv zeta. rewrite Hv.
    rewrite slice_take by (rewrite lenz_app; lia).
    cbn [mbind option_bind]. rewrite !to_nat_lenz, take_app_length, drop_app_length. split; [done|].
    rewrite !lenz_cons, lenz_app. lia.
Qed.

(** ** Chains *)

Section chains.
Context `{Der} `{Ring}.

(** [c] carries a signature of its signed part under the key of [i]. *)
Definition cert_signed (c i : Certificate) : Prop :=
  ∃ key sig tbs, bits_as_bytes (subject_public_key (subject_public_key_info (tbs_certificate i))) = Some key ∧
    bits_as_bytes (signature_value c) = Some sig ∧ tbs_to_der (tbs_certificate c) = Some tbs ∧
    algorithm (signature_algorithm c) = ECDSA_WITH_SHA384 ∧ ring_verify ECDSA_P384_SHA384_ASN1 key tbs sig = true.

(** The first BasicConstraints of [c] marks it as an authority. *)
Definition marked_ca (c : Certificate) : Prop :=
  ∃ exts pre e post v n, extensions (tbs_certificate c) = Some exts ∧ exts = pre ++ e :: post ∧
    Forall (λ e, extn_id e ≠ BASIC_CONSTRAINTS_OID) pre ∧ extn_id e = BASIC_CONSTRAINTS_OID ∧
    extn_value e = Some v ∧ basic_constraints_from_der v = Some (Some true, n).

(** A chain of DER certificates, leaf first, that ends in [root]: each is signed
    by the next, and all but the first are authorities. *)
Inductive chain_to (root : bytes) : list bytes → Prop :=
  | chain_root : chain_to root [root]
  | chain_link c i l cc ic :
      chain_to root (i :: l) → cert_from_der c = Some cc → cert_from_der i = Some ic →
      cert_signed cc ic → marked_ca ic → chain_to root (c :: i :: l).

(** The certificates of a PEM text, at least one. *)
Definition pem_chain (pem : bytes) (chain : list bytes) : Prop := pem_certs pem = Some <$> chain ∧ chain ≠ [].

Lemma collect_options (e : CryptoError.t) (l : list (option bytes)) chain :
  collect (λ c, or_err c e) l = Ok chain ↔ l = Some <$> chain.
Proof.
  rewrite collect_Ok. split.
  - induction 1 as [|o x ls l' Ho _ IH]; [done|]. apply or_err_Ok in Ho as ->. cbn. by rewrite IH.
  - intros ->. induction chain; constructor; [done|done].
Qed.

Lemma extract_spec pem chain : extract_cert_chain_from_pem pem = Ok chain ↔ pem_chain pem chain.
Proof.
  unfold extract_cert_chain_from_pem, pem_chain. rewrite bind_Ok. setoid_rewrite collect_options. split.
  - intros (l & Hl & E). case_bool_decide; [done|]. by injection E as ->.
  - intros [Hl Hne]. exists chain. split; [done|]. by rewrite bool_decide_false.
Qed.

Lemma extract_no_panic pem : extract_cert_chain_from_pem pem ≠ Panic.
Proof.
  unfold extract_cert_chain_from_pem. apply bind_no_panic; [apply collect_no_panic; intros x; apply or_err_no_panic|]. intros l _. by case_bool_decide.
Qed.

Lemma with_algorithm_spec key msg sig a :
  verify_signature_with_algorithm key msg sig a = Ok tt ↔
  algorithm a = ECDSA_WITH_SHA384 ∧ ring_verify ECDSA_P384_SHA384_ASN1 key msg sig = true.
Proof.
  unfold verify_signature_with_algorithm, ecdsa_verify_with_algorithm. case_bool_decide; [|naive_solver].
  destruct (ring_verify _ _ _ _); cbn; naive_solver.
Qed.

Lemma with_algorithm_no_panic key msg sig a : verify_signature_with_algorithm key msg sig a ≠ Panic.
Proof. unfold verify_signature_with_algorithm. case_bool_decide; [|done]. by destruct (ecdsa_verify_with_algorithm _ _ _ _). Qed.

Lemma cert_signature_spec c i : verify_cert_signature c i = Ok tt ↔ cert_signed c i.
Proof.
  unfold verify_cert_signature, extract_public_key_from_cert, cert_signed. rewrite bind_Ok.
  setoid_rewrite bind_Ok. setoid_rewrite bind_Ok. setoid_rewrite or_err_Ok. setoid_rewrite with_algorithm_spec. naive_solver.
Qed.

Lemma cert_signature_no_panic c i : verify_cert_signature c i ≠ Panic.
Proof.
  unfold verify_cert_signature, extract_public_key_from_cert.
  repeat (apply bind_no_panic; [apply or_err_no_panic|intros ? _]). apply with_algorithm_no_panic.
Qed.

Lemma ca_loop_spec exts : ca_loop exts = Ok true ↔
  ∃ pre e post v n, exts = pre ++ e :: post ∧ Forall (λ e, extn_id e ≠ BASIC_CONSTRAINTS_OID) pre ∧
    extn_id e = BASIC_CONSTRAINTS_OID ∧ extn_value e = Some v ∧ basic_constraints_from_der v = Some (Some true, n).
Proof.
  induction exts as [|x exts IH]; cbn [ca_loop].
  { split; [done|]. by intros ([] & ? & ? & ? & ? & ? & _). }
  case_bool_decide as Hx.
  - rewrite bind_Ok. setoid_rewrite bind_Ok. setoid_rewrite or_err_Ok. split.
    + intros (v & Hv & [[[]|] n] & Hb & E); try done. exists [], x, exts, v, n. by split_and!; [|constructor|..].
    + intros ([|y pre] & e & post & v & n & [= -> ->] & Hpre & He & Hv & Hb).
      * exists v. split; [done|]. by exists (Some true, n).
      * apply Forall_cons in Hpre as [? _]. congruence.
  - rewrite IH. split.
    + intros (pre & e & post & v & n & -> & Hpre & ?). exists (x :: pre), e, post, v, n. split; [done|]. split; [by constructor|done].
    + intros ([|y pre] & e & post & v & n & [= -> ->] & Hpre & He & ?); [congruence|].
      apply Forall_cons in Hpre as [_ Hpre]. by exists pre, e, post, v, n.
Qed.

Lemma is_ca_spec c : is_ca_certificate c = Ok true ↔ marked_ca c.
Proof.
  unfold is_ca_certificate, marked_ca. destruct (extensions (tbs_certificate c)) as [exts|]; [|naive_solver].
  rewrite ca_loop_spec. naive_solver.
Qed.

Lemma is_ca_no_panic c : is_ca_certificate c ≠ Panic.
Proof.
  unfold is_ca_certificate. destruct (extensions _) as [exts|]; [|done].
  induction exts as [|x exts IH]; cbn; [done|]. case_bool_decide; [|done]. by do 2 (apply bind_no_panic; [apply or_err_no_panic|intros ? _]).
Qed.

(** The two loops of the validation together are [chain_to]. *)
Lemma loops_spec l : ∀ leaf root,
  last (leaf :: l) = Some root →
  (chain_loop (leaf :: l) = Ok tt ∧ issuers_loop l = Ok tt) ↔ chain_to root (leaf :: l).
Proof.
  induction l as [|i l IH]; intros leaf root Hroot.
  { injection Hroot as ->. cbn. split; [constructor|done]. }
  specialize (IH i root Hroot). cbn [chain_loop issuers_loop]. rewrite !bind_Ok. setoid_rewrite bind_Ok. setoid_rewrite bind_Ok.
  unfold parse_cert. setoid_rewrite or_err_Ok. split.
  - intros [(cc & Hcc & ic & Hic & [] & Hs & Hl) (ic' & Hic' & ca & Hca & Hi)]. simplify_eq.
    destruct ca; [|done]. cbn in Hi. econstructor; [by apply IH|done|done|by apply cert_signature_spec|by apply is_ca_spec].
  - inversion 1 as [|? ? ? cc ic Hch Hcc Hic Hsig Hca]; subst. apply IH in Hch as [Hl Hi]. split.
    + exists cc. split; [done|]. exists ic. split; [done|]. exists tt. by rewrite cert_signature_spec.
    + exists ic. split; [done|]. exists true. by rewrite is_ca_spec.
Qed.

Lemma chain_loop_no_panic l : chain_loop l ≠ Panic.
Proof.
  induction l as [|c [|i l] IH]; cbn [chain_loop]; try done.
  do 2 (apply bind_no_panic; [apply or_err_no_panic|intros ? _]).
  apply bind_no_panic; [apply cert_signature_no_panic|by intros ? _].
Qed.

Lemma issuers_loop_no_panic l : issuers_loop l ≠ Panic.
Proof.
  induction l as [|c l IH]; cbn [issuers_loop]; [done|]. apply bind_no_panic; [apply or_err_no_panic|intros ? _].
  apply bind_no_panic; [apply is_ca_no_panic|intros ca _]. by destruct (negb ca).
Qed.

Lemma verify_chain_loop l : l ≠ [] → verify_certificate_chain l = chain_loop l.
Proof. by destruct l as [|? []]. Qed.

Lemma peer_chain_valid_iff l p :
  validate_peer_cert_chain l p ≠ Panic ∧
  (validate_peer_cert_chain l p = Ok tt ↔
   ∃ local peer lleaf pleaf lc pc root,
     pem_chain l local ∧ pem_chain p peer ∧ last local = Some root ∧ chain_to root peer ∧
     head local = Some lleaf ∧ head peer = Some pleaf ∧ cert_from_der lleaf = Some lc ∧ cert_from_der pleaf = Some pc ∧
     subject (tbs_certificate lc) = subject (tbs_certificate pc)).
Proof.
  split.
  - unfold validate_peer_cert_chain. apply bind_no_panic; [apply extract_no_panic|intros local Hl].
    apply bind_no_panic; [apply extract_no_panic|intros peer Hp]. apply extract_spec in Hl as [_ Hl], Hp as [_ Hp].
    rewrite verify_chain_loop by done. apply bind_no_panic; [apply chain_loop_no_panic|intros _ _].
    destruct local as [|ll local]; [done|]. destruct peer as [|pl peer]; [done|].
    apply bind_no_panic; [|intros _ _].
    { unfold check_root_ca_match. rewrite !last_cons. destruct (last local), (last peer); apply require_no_panic. }
    do 2 (apply bind_no_panic; [apply or_err_no_panic|intros ? _]). case_bool_decide; [apply issuers_loop_no_panic|done].
  - unfold validate_peer_cert_chain. split.
    + intros (local & Hl%extract_spec & (peer & Hp%extract_spec & E)%bind_Ok)%bind_Ok. rewrite verify_chain_loop in E by apply Hp.
      apply bind_Ok in E as ([] & Hloop & E). apply bind_Ok in E as ([] & Hroot & E). unfold check_root_ca_match in Hroot.
      destruct (last local) as [root|] eqn:El; [|done]. destruct (last peer) as [root'|] eqn:Ep; [|done].
      apply require_Ok, bool_decide_eq_true in Hroot as <-.
      destruct local as [|ll local]; [done|]. destruct peer as [|pl peer]; [done|].
      apply bind_Ok in E as (lc & Hlc & E). apply bind_Ok in E as (pc & Hpc & E). apply or_err_Ok in Hlc, Hpc.
      case_bool_decide as Hsub; [|done]. cbn in E. exists (ll :: local), (pl :: peer), ll, pl, lc, pc, root.
      split_and!; try done. by apply loops_spec.
    + intros (local & peer & ll & pl & lc & pc & root & Hl & Hp & El & Hch & Hhl & Hhp & Hlc & Hpc & Hsub).
      apply bind_Ok. exists local. split; [by apply extract_spec|]. apply bind_Ok. exists peer. split; [by apply extract_spec|].
      rewrite verify_chain_loop by apply Hp.
      destruct local as [|? local]; [done|]. destruct peer as [|? peer]; [done|]. injection Hhl as ->. injection Hhp as ->.
      assert (last (pl :: peer) = Some root) as Ep.
      { clear -Hch. induction Hch as [|? ? ? ? ? ? IH]; [done|]. by rewrite last_cons_cons. }
      apply loops_spec in Hch as [Hloop Hiss]; [|done]. rewrite Hloop. cbn [mbind outcome_bind].
      unfold check_root_ca_match. rewrite El, Ep, bool_decide_true by done. cbn [require mbind outcome_bind].
      unfold parse_cert. rewrite Hlc, Hpc. cbn [or_err mbind outcome_bind]. by rewrite bool_decide_true.
Qed.

(** C19 A peer's chain is accepted exactly when, with its certificates leaf
    first, it ends in the very root of the local chain, each certificate is
    signed with ECDSA P-384 under the key of the next, every issuer on the way
    is marked as an authority, and the two leaves have the same subject; no PEM
    text makes the validation abort. *)
Theorem peer_chain_validated_exact l p :
  validate_peer_cert_chain l p ≠ Panic ∧
  (validate_peer_cert_chain l p = Ok tt ↔
   ∃ local peer lleaf pleaf lc pc root,
     pem_chain l local ∧ pem_chain p peer ∧ last local = Some root ∧ chain_to root peer ∧
     head local = Some lleaf ∧ head peer = Some pleaf ∧ cert_from_der lleaf = Some lc ∧ cert_from_der pleaf = Some pc ∧
     subject (tbs_certificate lc) = subject (tbs_certificate pc)).
Proof. apply peer_chain_valid_iff. Qed.

Lemma peer_chain_valid l p :
  validate_peer_cert_chain l p = Ok tt →
  ∃ local peer lleaf pleaf lc pc root,
     pem_chain l local ∧ pem_chain p peer ∧ last local = Some root ∧ chain_to root peer ∧
     head local = Some lleaf ∧ head peer = Some pleaf ∧ cert_from_der lleaf = Some lc ∧ cert_from_der pleaf = Some pc ∧
     subject (tbs_certificate lc) = subject (tbs_certificate pc).
Proof. apply peer_chain_valid_iff. Qed.

End chains.

(** ** The FMSPC of a quote *)

Lemma str_find_spec needle s i : str_find needle s = Some i → 0 <= i ∧ s = take (Z.to_nat i) s ++ needle ++ drop (Z.to_nat i + length needle) s.
Proof.
  revert i. induction s as [|x s IH]; intros i; cbn [str_find]; case_bool_decide as Hb.
  1, 3: intros [= <-]; split; [done|]; cbn [Z.to_nat take app Nat.add]; rewrite <-Hb at 1; by rewrite take_drop.
  - done.
  - intros (j & Hj & [= <-])%bind_Some. destruct (IH j Hj) as [H0 E]. split; [lia|].
    replace (Z.to_nat (j + 1)) with (S (Z.to_nat j)) by lia. cbn. by rewrite <-E.
Qed.

Section pck.
Context `{Der} `{Ring}.

Lemma fmspc_value_Ok vals f : fmspc_value vals = Some (Ok f) →
  lenz f = 6 ∧ (PCK_FMSPC_OID, Some (mkAny TAG_OCTET_STRING f)) ∈ vals.
Proof.
  induction vals as [|[id v] vals IH]; cbn [fmspc_value]; [done|]. case_bool_decide as Hid.
  - subst id. intros [= E]. destruct v as [[tag v]|]; [|done]. cbn in E. destruct (Z.eqb_spec tag TAG_OCTET_STRING) as [->|]; [|done].
    destruct (Z.eqb_spec (lenz v) 6); [|done]. injection E as <-. split; [done|left].
  - intros E. destruct (IH E) as [? ?]. split; [done|by right].
Qed.

Lemma fmspc_value_safe vals : fmspc_value vals ≠ Some Panic.
Proof.
  induction vals as [|[id v] vals IH]; cbn [fmspc_value]; [done|]. case_bool_decide; [|done].
  intros [= E]. destruct v; [|done]. cbn in E. destruct (_ =? _); [|done]. by destruct (_ =? _).
Qed.

(** The extension that names the platform. *)
Lemma fmspc_extension_Ok exts f : fmspc_extension exts = Ok f →
  lenz f = 6 ∧ ∃ ext value vals, ext ∈ exts ∧ extn_id ext = PCK_FMSPC_EXTENSION_OID ∧ extn_value ext = Some value ∧
    inner_values_from_der value = Some vals ∧ (PCK_FMSPC_OID, Some (mkAny TAG_OCTET_STRING f)) ∈ vals.
Proof.
  induction exts as [|ext exts IH]; cbn [fmspc_extension]; [done|].
  assert (fmspc_extension exts = Ok f → lenz f = 6 ∧ ∃ e value vals, e ∈ ext :: exts ∧ extn_id e = PCK_FMSPC_EXTENSION_OID ∧
    extn_value e = Some value ∧ inner_values_from_der value = Some vals ∧ (PCK_FMSPC_OID, Some (mkAny TAG_OCTET_STRING f)) ∈ vals) as Hrest.
  { intros E. destruct (IH E) as (Hl & e & value & vals & Hin & Hr). split; [done|]. exists e, value, vals. split; [by right|done]. }
  case_bool_decide as Hid; [|done]. destruct (extn_value ext) as [value|] eqn:Ev; [|done]. cbn.
  destruct (inner_values_from_der value) as [vals|] eqn:Ei; [|done]. cbn. destruct (fmspc_value vals) as [r|] eqn:Ef; [|done].
  intros ->. apply fmspc_value_Ok in Ef as [Hl Hin]. split; [done|]. exists ext, value, vals. by repeat (split; [left || done|]).
Qed.

Lemma fmspc_extension_safe exts : fmspc_extension exts ≠ Panic.
Proof.
  induction exts as [|ext exts IH]; cbn [fmspc_extension]; [done|]. case_bool_decide; [|done].
  destruct (extn_value ext) as [value|]; [|done]. cbn. destruct (inner_values_from_der value) as [vals|]; [|done]. cbn.
  pose proof (fmspc_value_safe vals). destruct (fmspc_value vals) as [[]|]; done.
Qed.

(** The FMSPC that selects the collaterals of a quote has six bytes and comes from the
    first PEM certificate in the quote, its extension of that name; no quote makes
    the search abort. *)
Theorem fmspc_from_pck quote :
  get_fmspc_from_quote quote ≠ Panic ∧
  ∀ f, get_fmspc_from_quote quote = Ok f → lenz f = 6 ∧
    ∃ pre pem rest der more c exts, from_utf8_lossy quote = pre ++ pem ++ rest ∧
      PEM_CERT_BEGIN `prefix_of` pem ++ rest ∧ PEM_CERT_END `suffix_of` pem ∧ pem_certs pem = Some der :: more ∧ cert_from_der der = Some c ∧ extensions (tbs_certificate c) = Some exts ∧
      ∃ ext value vals, ext ∈ exts ∧ extn_id ext = PCK_FMSPC_EXTENSION_OID ∧ extn_value ext = Some value ∧
        inner_values_from_der value = Some vals ∧ (PCK_FMSPC_OID, Some (mkAny TAG_OCTET_STRING f)) ∈ vals.
Proof.
  unfold get_fmspc_from_quote. cbv zeta. set (mid := from_utf8_lossy quote). clearbody mid.
  destruct (str_find PEM_CERT_BEGIN mid) as [i|] eqn:Eb; [|by split]. cbn [or_err mbind outcome_bind].
  apply str_find_spec in Eb as [Hi Hb].
  destruct (str_find PEM_CERT_END (drop (Z.to_nat i) mid)) as [j|] eqn:Ee; [|by split]. apply str_find_spec in Ee as [Hj He].
  cbn [mbind option_bind]. destruct (checked_add 64 j i) as [k|] eqn:Ek; [|by split]. apply checked_add_Some in Ek as [-> _].
  cbn [mbind option_bind]. destruct (checked_add 64 (j + i) (lenz PEM_CERT_END)) as [k|] eqn:Ek; [|by split].
  apply checked_add_Some in Ek as [-> _]. cbn [or_err mbind outcome_bind].
  assert (lenz (drop (Z.to_nat i) mid) = lenz mid - i) as Hd.
  { unfold lenz. rewrite length_drop. apply (f_equal length) in Hb. rewrite !length_app, length_take in Hb. unfold lenz. cbn in Hb. lia. }
  assert (j + lenz PEM_CERT_END <= lenz (drop (Z.to_nat i) mid)) as Hlen.
  { apply (f_equal lenz) in He. unfold lenz in *. rewrite !length_app, !length_take in He. cbn in He |- *. lia. }
  assert (lenz PEM_CERT_END = 26) as Hle by reflexivity. rewrite Hle in *.
  destruct (Z.leb_spec (j + i + 26) i); [lia|].
  destruct (slice_is_Some mid i (j + i + 26)) as [pck Hp]; [lia..|]. rewrite Hp.
  unfold slice in Hp. destruct (_ && _); [|done]. injection Hp as <-. set (pck := take _ _).
  assert (pck ++ drop (Z.to_nat (j + i + 26 - i)) (drop (Z.to_nat i) mid) = drop (Z.to_nat i) mid) as Hrest by apply take_drop.
  assert (PEM_CERT_BEGIN `prefix_of` drop (Z.to_nat i) mid) as Hbegin.
  { eexists. rewrite Hb at 1. rewrite drop_app_length'; [done|]. rewrite length_take. unfold lenz in *. lia. }
  assert (PEM_CERT_END `suffix_of` pck) as Hend.
  { exists (take (Z.to_nat j) (drop (Z.to_nat i) mid)). subst pck. rewrite He at 1. rewrite app_assoc.
    apply take_app_length'. rewrite length_app, length_take. unfold lenz in *. cbn [length PEM_CERT_END]. lia. }
  unfold pem_cert_to_der. destruct (pem_certs pck) as [|[der|] more] eqn:Ep; [by split| |by split]. cbn.
  unfold parse_fmspc_from_pck_cert. destruct (cert_from_der der) as [c|] eqn:Ec; [|by split]. cbn.
  destruct (extensions (tbs_certificate c)) as [exts|] eqn:Ex; [|by split]. cbn. split; [apply fmspc_extension_safe|].
  intros f (Hl & Hext)%fmspc_extension_Ok. split; [done|].
  exists (take (Z.to_nat i) mid), pck, (drop (Z.to_nat (j + i + 26 - i)) (drop (Z.to_nat i) mid)), der, more, c, exts.
  rewrite Hrest, take_drop. by repeat (split; [done|]).
Qed.

(** No chain, certificate list or revocation list makes the other readers abort. *)
Lemma key_hash_safe chain : get_policy_signer_key_hash chain ≠ Panic.
Proof.
  unfold get_policy_signer_key_hash. pose proof (extract_no_panic chain) as Hx.
  destruct (extract_cert_chain_from_pem chain) as [[|leaf l]| |]; cbn; [done| |done|done].
  unfold parse_cert, extract_public_key_from_cert. destruct (cert_from_der leaf); [|done]. cbn.
  destruct (bits_as_bytes _) as [key|]; [|done]. cbn. unfold digest_sha384. rewrite length_sha384. cbn. by rewrite length_sha384.
Qed.

Lemma crl_number_safe crl : get_crl_number crl ≠ Panic.
Proof.
  unfold get_crl_number. destruct (crl_from_pem crl) as [d|]; [|done]. cbn. destruct (crl_extensions_from_der d) as [[exts|]|]; cbn; [|done|done].
  induction exts as [|ext exts IH]; cbn [crl_number_loop]; [done|]. case_bool_decide; [|done].
  destruct (extn_value ext) as [v|]; [|done]. cbn. by destruct (u32_from_der v).
Qed.

End pck.
