(* ===== verification/Tls.v ===== *)
(** * Tls: the TLS channel

    src/crypto/src/rustls_impl/tls.rs: the buffers, the connections that drive
    rustls over a stream, the verifier and the way its error comes back.  rustls
    is the class [Rustls], the stream a [ByteStream].  A loop that waits takes
    fuel, one unit per turn. *)
From Stdlib Require Import Ascii.
From stdpp Require Import base tactics numbers list list_numbers option strings.
From S2P Require Import Prelude MigData PreSession X509.
Local Open Scope Z_scope.

Definition PAGE_SIZE : Z := 0x1000.
Definition TLS_BUFFER_SIZE : Z := 16 * PAGE_SIZE.
Definition APP_DATA_BUFFER_LIMIT : Z := PAGE_SIZE.
Definition TLS_CUSTOM_CALLBACK_ERROR : string := "TlsCustomCallbackError".

(** The errors of rustls the code tells apart. *)
Inductive RustlsError := General (desc : string) | OtherError.

Module TlsConnectionError.
Inductive t := Encode | Encrypt | UnexpectedState | TlsLib (e : RustlsError) | Transport.
End TlsConnectionError.

(** ** Buffers *)

Record TlsBuffer := mkBuffer { inner : bytes; used : Z }.

Definition TlsBuffer_new : TlsBuffer := mkBuffer (zeros TLS_BUFFER_SIZE) 0.

Definition used_bytes (b : TlsBuffer) : option bytes := slice (inner b) 0 (used b).
Definition unused_len (b : TlsBuffer) : option Z := sub_u (lenz (inner b)) (used b).

(** [reset] wipes what was used. *)
Definition buffer_reset (b : TlsBuffer) : option TlsBuffer :=
  i ← write_at (inner b) 0 (zeros (used b)); Some (mkBuffer i 0).

Definition buffer_consume (size : Z) (b : TlsBuffer) : option TlsBuffer :=
  n ← add_u 64 (used b) size; Some (mkBuffer (inner b) (Z.min n (lenz (inner b)))).

(** [copy_within(size..used, 0)] and the wipe of the vacated tail. *)
Definition buffer_discard (size : Z) (b : TlsBuffer) : option TlsBuffer :=
  rest ← slice (inner b) size (used b);
  i ← write_at (inner b) 0 rest;
  n ← sub_u (used b) size;
  i ← write_at i n (zeros (used b - n));
  Some (mkBuffer i n).

(** Plaintext records that were not read yet. *)
Record ChunkVecBuffer := mkChunks { chunks : list bytes; limit : option Z }.

Definition ChunkVecBuffer_new (limit : option Z) : ChunkVecBuffer := mkChunks [] limit.

Definition chunks_len (b : ChunkVecBuffer) : Z := foldl (λ n ch, n + lenz ch) 0 (chunks b).

Definition is_full (b : ChunkVecBuffer) : bool :=
  match limit b with Some limit => limit <? chunks_len b | None => false end.

Definition is_empty (b : ChunkVecBuffer) : bool := bool_decide (chunks b = []).

Definition chunks_append (bs : bytes) (b : ChunkVecBuffer) : ChunkVecBuffer :=
  if bool_decide (bs = []) then b else mkChunks (chunks b ++ [bs]) (limit b).

(** [consume]: [pop_front] until the count is used up. *)
Fixpoint consume_loop (used : Z) (l : list bytes) : list bytes :=
  match l with
  | [] => []
  | buf :: l' => if used <? lenz buf then drop (Z.to_nat used) buf :: l' else consume_loop (used - lenz buf) l'
  end.

Definition chunks_consume (used : Z) (b : ChunkVecBuffer) : ChunkVecBuffer := mkChunks (consume_loop used (chunks b)) (limit b).

(** [read] into a buffer: the count, the buffer and what remains.  Every turn but
    the last takes a whole chunk. *)
Fixpoint chunks_read (fuel : nat) (offs : Z) (buf : bytes) (b : ChunkVecBuffer) : option (Z * bytes * ChunkVecBuffer) :=
  if (offs <? lenz buf) && negb (is_empty b) then
    match fuel, chunks b with
    | S fuel, ch :: _ =>
        if lenz ch <=? lenz buf - offs then
          buf ← write_at buf offs ch;
          chunks_read fuel (offs + lenz ch) buf (chunks_consume (lenz ch) b)
        else
          let used := lenz buf - offs in
          part ← slice ch 0 used;
          buf ← write_at buf offs part;
          chunks_read fuel (offs + used) buf (chunks_consume used b)
    | _, _ => None
    end
  else Some (offs, buf, b).

Definition ChunkVecBuffer_read (buf : bytes) (b : ChunkVecBuffer) : option (Z * bytes * ChunkVecBuffer) :=
  chunks_read (length (chunks b)) 0 buf b.

(** ** rustls *)

(** What [process_tls_records] asks for. *)
Inductive ConnectionState :=
  | EncodeTlsData | TransmitTlsData | BlockedHandshake
  | ReadTraffic (records : list (RustlsError + Z * bytes))   (** a record: bytes to discard and payload *)
  | WriteTraffic | Unexpected.

(** What writing a message into a buffer gives. *)
Inductive encoded := Wrote (out : bytes) | InsufficientSize (required_size : Z) | EncodeFailed.

(** The library: it may decrypt the input in place, says how much of it to
    discard, and changes its own state. *)
Class Rustls (C : Type) := {
  process_tls_records : bytes → C → Z * (RustlsError + ConnectionState) * bytes * C;
  conn_encode : Z → C → encoded * C;
  conn_encrypt : bytes → Z → C → encoded * C;
  conn_done : C → C;
  process_keeps_size i c d s i' c' : process_tls_records i c = (d, s, i', c') → lenz i' = lenz i }.

Section connection.
Context {C T : Type} `{Rustls C} `{ByteStream T}.

(** [TlsServerConnection] and [TlsClientConnection]. *)
Record TlsConnection := mkConn {
  conn : C; input : TlsBuffer; output : TlsBuffer; transport : T;
  is_handshaking : bool; received_app_data : ChunkVecBuffer }.

Notation TM := (M TlsConnection (aerr TlsConnectionError.t)).

Definition Conn_new (c : C) (t : T) : TlsConnection :=
  mkConn c TlsBuffer_new TlsBuffer_new t true (ChunkVecBuffer_new (Some APP_DATA_BUFFER_LIMIT)).

Definition set_conn (c : C) (s : TlsConnection) := mkConn c (input s) (output s) (transport s) (is_handshaking s) (received_app_data s).
Definition set_input (b : TlsBuffer) (s : TlsConnection) := mkConn (conn s) b (output s) (transport s) (is_handshaking s) (received_app_data s).
Definition set_output (b : TlsBuffer) (s : TlsConnection) := mkConn (conn s) (input s) b (transport s) (is_handshaking s) (received_app_data s).
Definition set_transport (t : T) (s : TlsConnection) := mkConn (conn s) (input s) (output s) t (is_handshaking s) (received_app_data s).
Definition set_handshaking (h : bool) (s : TlsConnection) := mkConn (conn s) (input s) (output s) (transport s) h (received_app_data s).
Definition set_app_data (d : ChunkVecBuffer) (s : TlsConnection) := mkConn (conn s) (input s) (output s) (transport s) (is_handshaking s) d.

Definition tls_fail {A} (e : TlsConnectionError.t) : TM A := failM (Failed e).

(** An access of the stream; its errors become [Transport]. *)
Definition on_stream {A} (m : M T (aerr unit) A) : TM A := λ s,
  let '(r, t) := m (transport s) in
  (match r with
   | Ok a => Ok a
   | Err (Failed _) => Err (Failed TlsConnectionError.Transport)
   | Err Pending => Err Pending
   | Err OutOfFuel => Err OutOfFuel
   | Panic => Panic
   end, set_transport t s).

(** [self.conn.process_tls_records(self.input.used_mut())] *)
Definition process : TM (Z * (RustlsError + ConnectionState)) :=
  s ← getS;
  i ← or_panic (used_bytes (input s));
  let '(d, st, i', c') := process_tls_records i (conn s) in
  b ← or_panic (write_at (inner (input s)) 0 i');
  _ ← modifyS (λ s, set_conn c' (set_input (mkBuffer b (used (input s))) s));
  mret (d, st).

Definition discard (n : Z) : TM unit :=
  s ← getS; b ← or_panic (buffer_discard n (input s)); modifyS (set_input b).

(** [self.input.consume(self.transport.read(self.input.unused_mut()).await?)] *)
Definition fill_input : TM unit :=
  s ← getS;
  n ← or_panic (unused_len (input s));
  data ← on_stream (read n);
  b ← or_panic (write_at (inner (input s)) (used (input s)) data);
  b ← or_panic (buffer_consume (lenz data) (mkBuffer b (used (input s))));
  modifyS (set_input b).

(** A message of rustls written into [n] bytes. *)
Definition on_conn (f : Z → C → encoded * C) (n : Z) : TM encoded := λ s,
  let '(r, c) := f n (conn s) in (Ok r, set_conn c s).

(** [try_or_resize_and_retry] on the output buffer. *)
Definition try_or_resize_and_retry (f : Z → C → encoded * C) (e : TlsConnectionError.t) : TM Z :=
  s ← getS;
  n ← or_panic (unused_len (output s));
  r ← on_conn f n;
  out ← match r with
        | Wrote out => mret out
        | EncodeFailed => tls_fail e
        | InsufficientSize required_size =>
            new_len ← or_panic (add_u 64 (used (output s)) required_size);
            let b := mkBuffer (fit new_len (inner (output s))) (used (output s)) in
            _ ← modifyS (set_output b);
            n ← or_panic (unused_len b);
            r ← on_conn f n;
            match r with Wrote out => mret out | _ => tls_fail TlsConnectionError.Encode end
        end;
  s ← getS;
  i ← or_panic (write_at (inner (output s)) (used (output s)) out);
  u ← or_panic (add_u 64 (used (output s)) (lenz out));
  _ ← modifyS (set_output (mkBuffer i u));
  mret (lenz out).

Definition reset_output : TM unit :=
  s ← getS; b ← or_panic (buffer_reset (output s)); modifyS (set_output b).

(** [while let Some(res) = state.next_record()]; [keep] decides on a record. *)
Fixpoint take_records (keep : ChunkVecBuffer → bool) (discard : Z) (records : list (RustlsError + Z * bytes)) : TM Z :=
  match records with
  | [] => mret discard
  | inl e :: _ => tls_fail (TlsConnectionError.TlsLib e)
  | inr (new_discard, payload) :: records =>
      discard ← or_panic (add_u 64 discard new_discard);
      _ ← modifyS (λ s, if keep (received_app_data s) then set_app_data (chunks_append payload (received_app_data s)) s else s);
      take_records keep discard records
  end.

(** ** Handshake *)

Definition handle_tls_error : TM unit :=
  p ← process;
  match p.2 with
  | inl e => tls_fail (TlsConnectionError.TlsLib e)
  | inr EncodeTlsData =>
      _ ← try_or_resize_and_retry conn_encode TlsConnectionError.Encode;
      s ← getS;
      out ← or_panic (used_bytes (output s));
      _ ← on_stream (write out);
      reset_output
  | inr _ => mret tt
  end.

Fixpoint process_tls_status (fuel : nat) : TM unit :=
  match fuel with
  | O => failM OutOfFuel
  | S fuel =>
      p ← process;
      match p.2 with
      | inr EncodeTlsData =>
          _ ← try_or_resize_and_retry conn_encode TlsConnectionError.Encode;
          _ ← discard p.1;
          process_tls_status fuel
      | inr TransmitTlsData =>
          s ← getS;
          out ← or_panic (used_bytes (output s));
          _ ← on_stream (write out);
          _ ← reset_output;
          _ ← modifyS (λ s, set_conn (conn_done (conn s)) s);
          _ ← discard p.1;
          process_tls_status fuel
      | inr BlockedHandshake =>
          _ ← fill_input;
          _ ← discard p.1;
          process_tls_status fuel
      | inr (ReadTraffic records) =>
          d ← take_records (λ _, true) p.1 records;
          _ ← modifyS (set_handshaking false);
          discard d
      | inr WriteTraffic =>
          _ ← modifyS (set_handshaking false);
          discard p.1
      | inr Unexpected => tls_fail TlsConnectionError.UnexpectedState
      | inl e =>
          _ ← discard p.1;
          _ ← handle_tls_error;
          tls_fail (TlsConnectionError.TlsLib e)
      end
  end.

Definition finish_handshake (fuel : nat) : TM unit :=
  s ← getS; if is_handshaking s then process_tls_status fuel else mret tt.

(** ** Application data *)

(** [self.received_app_data.read(data)] into a buffer of [n] bytes: what was
    delivered. *)
Definition deliver (n : Z) : TM bytes :=
  s ← getS;
  r ← or_panic (ChunkVecBuffer_read (zeros n) (received_app_data s));
  _ ← modifyS (set_app_data r.2);
  out ← or_panic (slice r.1.2 0 r.1.1);
  mret out.

Fixpoint read_loop (keep : ChunkVecBuffer → bool) (fuel : nat) (n : Z) : TM bytes :=
  match fuel with
  | O => failM OutOfFuel
  | S fuel =>
      p ← process;
      match p.2 with
      | inl e => tls_fail (TlsConnectionError.TlsLib e)
      | inr (ReadTraffic records) =>
          d ← take_records keep p.1 records;
          out ← deliver n;
          _ ← discard d;
          mret out
      | inr WriteTraffic =>
          _ ← fill_input;
          _ ← discard p.1;
          read_loop keep fuel n
      | inr _ => tls_fail TlsConnectionError.UnexpectedState
      end
  end.

Definition conn_read (keep : ChunkVecBuffer → bool) (fuel : nat) (n : Z) : TM bytes :=
  _ ← finish_handshake fuel;
  s ← getS;
  if negb (is_empty (received_app_data s)) then deliver n
  else read_loop keep fuel n.

(** The server keeps every record, the client those that find room. *)
Definition server_read : nat → Z → TM bytes := conn_read (λ _, true).
Definition client_read : nat → Z → TM bytes := conn_read (λ b, negb (is_full b)).

(** [while written < total], with short writes. *)
Fixpoint send_output (fuel : nat) (out : bytes) (written : Z) : TM unit :=
  if written <? lenz out then
    match fuel with
    | O => failM OutOfFuel
    | S fuel =>
        rest ← or_panic (slice out written (lenz out));
        n ← on_stream (write rest);
        _ ← err_if (n =? 0) (Failed TlsConnectionError.UnexpectedState);
        written ← or_panic (add_u 64 written n);
        send_output fuel out written
    end
  else mret tt.

Fixpoint write_loop (fuel : nat) (data : bytes) : TM Z :=
  match fuel with
  | O => failM OutOfFuel
  | S fuel' =>
      p ← process;
      match p.2 with
      | inl e => tls_fail (TlsConnectionError.TlsLib e)
      | inr (ReadTraffic records) =>
          d ← take_records (λ _, true) p.1 records;
          _ ← discard d;
          write_loop fuel' data
      | inr WriteTraffic =>
          _ ← try_or_resize_and_retry (conn_encrypt data) TlsConnectionError.Encrypt;
          s ← getS;
          out ← or_panic (used_bytes (output s));
          _ ← send_output fuel out 0;
          _ ← reset_output;
          mret (lenz data)
      | inr _ => tls_fail TlsConnectionError.UnexpectedState
      end
  end.

Definition conn_write (fuel : nat) (data : bytes) : TM Z :=
  _ ← finish_handshake fuel; write_loop fuel data.

End connection.
Arguments TlsConnection : clear implicits.

(** ** The verifier's error and back *)

(** [impl ServerCertVerifier for Verifier] and [ClientCertVerifier]: the error of
    the callback becomes a text. *)
Definition verifier_error (e : CryptoError.t) : RustlsError :=
  match e with
  | CryptoError.TlsVerifyPeerCert e => General (TLS_CUSTOM_CALLBACK_ERROR +:+ "(" +:+ e +:+ ")")
  | _ => General "Unexpected"
  end.

(** [str::find] of a text and of a character. *)
Fixpoint find_text (pat s : string) : option nat :=
  if String.prefix pat s then Some 0%nat
  else match s with
  | EmptyString => None
  | String.String _ s' => S <$> find_text pat s'
  end.

Fixpoint find_char (c : ascii) (s : string) : option nat :=
  match s with
  | EmptyString => None
  | String.String a s' => if bool_decide (a = c) then Some 0%nat else S <$> find_char c s'
  end.

Fixpoint skip_chars (n : nat) (s : string) : option string :=
  match n, s with
  | O, _ => Some s
  | S n, String.String _ s' => skip_chars n s'
  | S _, EmptyString => None
  end.

(** [handle_stream_error]; a slice past the end aborts. *)
Definition handle_stream_error (e : TlsConnectionError.t) : outcome CryptoError.t CryptoError.t :=
  match e with
  | TlsConnectionError.TlsLib (General desc) =>
      match find_text TLS_CUSTOM_CALLBACK_ERROR desc with
      | Some index =>
          let start := (index + String.length TLS_CUSTOM_CALLBACK_ERROR + 1)%nat in
          match skip_chars start desc with
          | None => Panic
          | Some rest =>
              match find_char ")" rest with
              | Some n => Ok (CryptoError.TlsVerifyPeerCert (String.substring 0 n rest))
              | None => Ok CryptoError.TlsStream
              end
          end
      | None => Ok CryptoError.TlsStream
      end
  | _ => Ok CryptoError.TlsStream
  end.
