(* ===== verification/TlsSpec.v ===== *)
(** * TlsSpec: what the TLS channel delivers

    Application data comes out in order and without loss on the server side and
    with the loss of whole records on the client side when its queue is full;
    the verifier's error comes back to the caller of a read or write (Tls). *)
From Stdlib Require Import Ascii.
From stdpp Require Import base tactics numbers list list_numbers option strings.
From S2P Require Import Prelude MigData PreSession X509 Tls.
Local Open Scope Z_scope.

(** ** Queued plaintext *)

Lemma is_empty_nil b : chunks b = [] → is_empty b = true.
Proof. intros E. unfold is_empty. by rewrite bool_decide_true. Qed.

Lemma append_concat bs b : concat (chunks (chunks_append bs b)) = concat (chunks b) ++ bs.
Proof.
  unfold chunks_append. case_bool_decide; [subst; by rewrite app_nil_r|]. cbn. by rewrite concat_app, concat_cons, app_nil_r.
Qed.

Lemma consume_loop_concat u l : 0 <= u → concat (consume_loop u l) = drop (Z.to_nat u) (concat l).
Proof.
  revert u. induction l as [|b l IH]; intros u Hu; cbn [consume_loop concat]; [by rewrite drop_nil|].
  destruct (Z.ltb_spec u (lenz b)) as [Hlt|Hge].
  - cbn [concat]. rewrite drop_app_le; [done|]. unfold lenz in Hlt. lia.
  - rewrite IH by (unfold lenz in *; lia). unfold lenz in *. rewrite drop_app_ge by lia. f_equal. lia.
Qed.

Lemma consume_loop_length u l : (length (consume_loop u l) <= length l)%nat.
Proof. revert u. induction l as [|b l IH]; intros u; cbn; [lia|]. destruct (u <? lenz b); cbn; [lia|]. specialize (IH (u - lenz b)). lia. Qed.

(** One write of the reader, and what it means for the whole. *)
Lemma read_step (buf pend part : bytes) offs k :
  0 <= offs → offs + lenz part <= lenz buf → part = take (length part) pend →
  take (Z.to_nat (offs + lenz part)) (take (Z.to_nat offs) buf ++ part ++ drop (Z.to_nat offs + length part) buf) ++
    take k (drop (length part) pend) ++
    drop (Z.to_nat (offs + lenz part) + k) (take (Z.to_nat offs) buf ++ part ++ drop (Z.to_nat offs + length part) buf) =
  take (Z.to_nat offs) buf ++ take (length part + k) pend ++ drop (Z.to_nat offs + (length part + k)) buf.
Proof.
  intros Ho Hl Hp. unfold lenz in *. assert (length (take (Z.to_nat offs) buf) = Z.to_nat offs) as Ht by (rewrite length_take; lia).
  rewrite (app_assoc (take _ buf)). set (pre := take (Z.to_nat offs) buf ++ part).
  assert (length pre = Z.to_nat (offs + Z.of_nat (length part))) as Hpre by (unfold pre; rewrite length_app, Ht; lia).
  rewrite take_app_le by lia. rewrite take_ge by lia. rewrite drop_app_ge by lia. rewrite Hpre, drop_drop.
  unfold pre. rewrite <-app_assoc. f_equal. rewrite (app_assoc part). f_equal.
  - rewrite <-(take_take_drop pend (length part) k). f_equal. exact Hp.
  - f_equal. lia.
Qed.

Lemma chunks_read_spec fuel : ∀ offs buf b,
  (length (chunks b) <= fuel)%nat → 0 <= offs <= lenz buf →
  let pend := concat (chunks b) in let k := Z.min (lenz buf - offs) (lenz pend) in
  ∃ b', chunks_read fuel offs buf b =
      Some (offs + k, take (Z.to_nat offs) buf ++ take (Z.to_nat k) pend ++ drop (Z.to_nat offs + Z.to_nat k) buf, b') ∧
    concat (chunks b') = drop (Z.to_nat k) pend ∧ limit b' = limit b.
Proof.
  assert (∀ fuel offs (buf : bytes) b, 0 <= offs <= lenz buf → ((offs <? lenz buf) && negb (is_empty b)) = false →
    let k := Z.min (lenz buf - offs) (lenz (concat (chunks b))) in
    k = 0 ∧ chunks_read fuel offs buf b = Some (offs, buf, b)) as Hstop.
  { intros f offs buf b Ho Hc k. split.
    - unfold k, is_empty in *. destruct (Z.ltb_spec offs (lenz buf)); [|pose proof (lenz_nonneg (concat (chunks b))); lia].
      case_bool_decide as He; [|done]. rewrite He. change (lenz (concat [])) with 0. lia.
    - destruct f; cbn [chunks_read]; by rewrite Hc. }
  induction fuel as [|fuel IH]; intros offs buf b Hf Ho pend k;
    destruct ((offs <? lenz buf) && negb (is_empty b)) eqn:Hc;
    try (match goal with |- context [chunks_read ?f _ _ _] => destruct (Hstop f offs buf b Ho Hc) as [Hk ->] end; fold pend k in Hk; exists b; clearbody k; subst k; change (Z.to_nat 0) with 0%nat;
         rewrite Z.add_0_r, Nat.add_0_r, take_0, app_nil_l, (take_drop (Z.to_nat offs) buf); done).
  - destruct (chunks b) eqn:Eb; [|cbn in Hf; lia]. by rewrite is_empty_nil, andb_false_r in Hc.
  - cbn [chunks_read]. rewrite Hc. destruct (chunks b) as [|ch l] eqn:Eb; [rewrite (is_empty_nil _ Eb) in Hc; cbn in Hc; by rewrite andb_false_r in Hc|].
    apply andb_true_iff in Hc as [Hlt%Z.ltb_lt _]. set (part := take (Z.to_nat (lenz buf - offs)) ch).
    assert (∀ b1, b1 = chunks_consume (lenz part) b → lenz part <= lenz buf - offs → part = take (length part) pend →
      (length (chunks b1) <= fuel)%nat ∨ lenz part = lenz buf - offs →
      ∃ b', (buf' ← write_at buf offs part; chunks_read fuel (offs + lenz part) buf' b1) =
        Some (offs + k, take (Z.to_nat offs) buf ++ take (Z.to_nat k) pend ++ drop (Z.to_nat offs + Z.to_nat k) buf, b') ∧
        concat (chunks b') = drop (Z.to_nat k) pend ∧ limit b' = limit b) as Hgo.
    { intros b1 -> Hlp Hp Hfuel. rewrite write_at_Some by lia. cbn [mbind option_bind].
      set (buf1 := take (Z.to_nat offs) buf ++ part ++ drop (Z.to_nat offs + length part) buf).
      assert (lenz buf1 = lenz buf) as Hb1.
      { unfold buf1, lenz in *. rewrite !length_app, length_take, length_drop. lia. }
      assert (concat (chunks (chunks_consume (lenz part) b)) = drop (length part) pend) as Hc1.
      { cbn. rewrite consume_loop_concat by apply lenz_nonneg. unfold pend. by rewrite Eb, to_nat_lenz. }
      assert (lenz part <= lenz pend) as Hpp.
      { rewrite Hp. unfold lenz. rewrite length_take. lia. }
      assert (∃ b', chunks_read fuel (offs + lenz part) buf1 (chunks_consume (lenz part) b) = Some
        (let k1 := Z.min (lenz buf1 - (offs + lenz part)) (lenz (drop (length part) pend)) in
         (offs + lenz part + k1, take (Z.to_nat (offs + lenz part)) buf1 ++ take (Z.to_nat k1) (drop (length part) pend) ++
            drop (Z.to_nat (offs + lenz part) + Z.to_nat k1) buf1, b')) ∧
         concat (chunks b') = drop (Z.to_nat (Z.min (lenz buf1 - (offs + lenz part)) (lenz (drop (length part) pend)))) (drop (length part) pend) ∧
         limit b' = limit b) as (b' & -> & Hcb & Hlim).
      { destruct Hfuel as [Hfuel|Hfull].
        - destruct (IH (offs + lenz part) buf1 _ Hfuel ltac:(pose proof (lenz_nonneg part); lia)) as (b' & -> & Hb' & Hl').
          rewrite Hc1 in *. by exists b'.
        - destruct (Hstop fuel (offs + lenz part) buf1 (chunks_consume (lenz part) b)) as [Hk0 ->].
          + pose proof (lenz_nonneg part). lia.
          + destruct (Z.ltb_spec (offs + lenz part) (lenz buf1)); [lia|done].
          + rewrite Hc1 in Hk0. exists (chunks_consume (lenz part) b). cbv zeta. rewrite Hk0, Hc1.
            change (Z.to_nat 0) with 0%nat. rewrite Z.add_0_r, Nat.add_0_r, take_0, app_nil_l, (take_drop _ buf1). done. }
      cbv zeta. rewrite Hb1. set (k1 := Z.min (lenz buf - (offs + lenz part)) (lenz (drop (length part) pend))) in *.
      assert (k = lenz part + k1) as Hk.
      { unfold k, k1. unfold lenz in *. rewrite length_drop. lia. }
      assert (0 <= k1) as Hk1 by (unfold k1; pose proof (lenz_nonneg (drop (length part) pend)); lia).
      exists b'. split; [|split; [|done]].
      - f_equal. f_equal. f_equal; [lia|]. unfold buf1. rewrite read_step by lia || done.
        rewrite Hk. unfold lenz. rewrite Z2Nat.inj_add, Nat2Z.id by lia. done.
      - rewrite Hcb, Hb1. fold k1. rewrite drop_drop, Hk. unfold lenz. rewrite Z2Nat.inj_add, Nat2Z.id by lia. done. }
    destruct (Z.leb_spec (lenz ch) (lenz buf - offs)) as [Hle|Hgt].
    + assert (part = ch) as Hpart by (unfold part; apply take_ge; unfold lenz in *; lia). rewrite Hpart in Hgo.
      apply Hgo; [done|lia|unfold pend; by rewrite concat_cons, take_app_length|left].
      cbn. rewrite Eb. cbn. rewrite Z.ltb_irrefl, Z.sub_diag. pose proof (consume_loop_length 0 l). cbn in Hf. lia.
    + assert (lenz part = lenz buf - offs) as Hpart by (unfold part, lenz in *; rewrite length_take; lia).
      rewrite slice_take by lia. fold part. cbn [mbind option_bind]. rewrite <-Hpart. apply Hgo; [done|lia| |by right].
      unfold pend. rewrite concat_cons. unfold lenz in *. rewrite take_app_le by (unfold part; rewrite length_take; lia).
      unfold part at 1. f_equal. lia.
Qed.

Lemma ChunkVecBuffer_read_spec n b :
  0 <= n →
  let pend := concat (chunks b) in let k := Z.min n (lenz pend) in
  ∃ buf b', ChunkVecBuffer_read (zeros n) b = Some (k, buf, b') ∧ slice buf 0 k = Some (take (Z.to_nat k) pend) ∧
    concat (chunks b') = drop (Z.to_nat k) pend ∧ limit b' = limit b.
Proof.
  intros Hn pend k. unfold ChunkVecBuffer_read.
  destruct (chunks_read_spec (length (chunks b)) 0 (zeros n) b ltac:(lia) ltac:(rewrite lenz_zeros; lia)) as (b' & E & Hc & Hl).
  rewrite lenz_zeros, Z.sub_0_r in E, Hc by done. fold pend k in E, Hc. do 2 eexists. split; [exact E|]. split; [|done].
  assert (0 <= k <= lenz pend) as Hkp by (unfold k; pose proof (lenz_nonneg pend); lia). clear E Hc. clearbody k pend.
  assert (length (take (Z.to_nat k) pend) = Z.to_nat k) as Hk by (unfold lenz in *; rewrite length_take; lia).
  rewrite (slice_app [] (take (Z.to_nat k) pend)); [done|done|]. unfold lenz. rewrite Hk. lia.
Qed.

(** ** The flow of application data *)

Definition payloads (records : list (RustlsError + Z * bytes)) : list bytes :=
  omap (λ r, match r with inr p => Some p.2 | inl _ => None end) records.

(** The payloads rustls has handed out so far. *)
Class RustlsTrace (C : Type) `{Rustls C} := {
  plain : C → list bytes;
  plain_process i c d st i' c' : process_tls_records i c = (d, st, i', c') →
    plain c' = plain c ++ match st with inr (ReadTraffic records) => payloads records | _ => [] end;
  plain_encode n c : plain (conn_encode n c).2 = plain c;
  plain_encrypt data n c : plain (conn_encrypt data n c).2 = plain c;
  plain_done c : plain (conn_done c) = plain c }.

Section flow.
Context {C T : Type} `{RustlsTrace C} `{ByteStream T}.
Notation Conn := (TlsConnection C T).
Notation TM := (M Conn (aerr TlsConnectionError.t)).

Definition pending (s : Conn) : bytes := concat (chunks (received_app_data s)).

(** Nothing is handed out and nothing is queued. *)
Definition quiet (s s' : Conn) : Prop :=
  plain (conn s') = plain (conn s) ∧ received_app_data s' = received_app_data s.

#[global] Instance quiet_preorder : PreOrder quiet.
Proof. split; [done|]. intros ? ? ? [? ?] [? ?]. split; congruence. Qed.

Lemma quiet_modify (f : Conn → Conn) : (∀ s, quiet s (f s)) → keeps quiet (modifyS f : TM unit).
Proof. apply keeps_modifyS. Qed.

Lemma quiet_stream {X} (m : M T (aerr unit) X) : keeps quiet (on_stream m : TM X).
Proof. intros s r s'. unfold on_stream. destruct (m _). by intros [= _ <-]. Qed.

Lemma quiet_discard n : keeps quiet (discard n : TM unit).
Proof. unfold discard. keeps_auto. by apply quiet_modify. Qed.

Lemma quiet_fill : keeps quiet (fill_input : TM unit).
Proof. unfold fill_input. keeps_auto; [apply quiet_stream|by apply quiet_modify]. Qed.

Lemma quiet_reset : keeps quiet (reset_output : TM unit).
Proof. unfold reset_output. keeps_auto. by apply quiet_modify. Qed.

Lemma quiet_on_conn f n : (∀ n c, plain (f n c).2 = plain c) → keeps quiet (on_conn f n : TM encoded).
Proof.
  intros Hf s r s'. unfold on_conn. destruct (f n (conn s)) as [x c] eqn:E. intros [= _ <-]. split; [|done].
  cbn. by rewrite <-(Hf n (conn s)), E.
Qed.

Lemma quiet_try f e : (∀ n c, plain (f n c).2 = plain c) → keeps quiet (try_or_resize_and_retry f e : TM Z).
Proof.
  intros Hf. unfold try_or_resize_and_retry. keeps_auto; first [by apply quiet_on_conn|by apply quiet_modify|idtac].
  all: unfold tls_fail; eauto with migtd.
Qed.

Lemma quiet_send fuel out n : keeps quiet (send_output fuel out n : TM unit).
Proof. revert n. induction fuel; intros n; cbn [send_output]; keeps_auto; first [apply quiet_stream|done]. Qed.

Lemma process_run (s : Conn) p s' : (process : TM _) s = (Ok p, s') →
  received_app_data s' = received_app_data s ∧ is_handshaking s' = is_handshaking s ∧
  plain (conn s') = plain (conn s) ++ match p.2 with inr (ReadTraffic records) => payloads records | _ => [] end.
Proof.
  unfold process. rewrite getS_bind, or_panic_bind. destruct (used_bytes (input s)) as [i|]; [|done].
  destruct (process_tls_records i (conn s)) as [[[d st] i'] c'] eqn:E. rewrite or_panic_bind.
  destruct (write_at _ _ _); [|done]. intros [= <- <-]. cbn. split; [done|]. split; [done|]. by eapply plain_process.
Qed.

(** [keep] refuses a record only when more than [B] bytes are queued. *)
Definition roomy (B : Z) (keep : ChunkVecBuffer → bool) : Prop :=
  ∀ b, limit b = Some APP_DATA_BUFFER_LIMIT → keep b = false → B < lenz (concat (chunks b)).

Definition limited (s : Conn) : Prop := limit (received_app_data s) = Some APP_DATA_BUFFER_LIMIT.

Lemma append_limit bs b : limit (chunks_append bs b) = limit b.
Proof. unfold chunks_append. by case_bool_decide. Qed.

Lemma take_records_run B keep (Hk : roomy B keep) records : ∀ d (s : Conn) d' s',
  limited s → take_records keep d records s = (Ok d', s') →
  limited s' ∧ conn s' = conn s ∧ ∃ kept, kept `sublist_of` payloads records ∧ pending s' = pending s ++ concat kept ∧
    (lenz (pending s ++ concat (payloads records)) <= B → kept = payloads records).
Proof.
  induction records as [|[e|[nd p]] records IH]; intros d s d' s' Hs; cbn [take_records].
  - intros [= <- <-]. split; [done|]. split; [done|]. exists []. cbn. by rewrite app_nil_r.
  - done.
  - rewrite or_panic_bind. destruct (add_u 64 d nd) as [d1|]; [|done]. rewrite modifyS_bind.
    destruct (keep (received_app_data s)) eqn:Ek; intros E.
    + apply IH in E as (Hl & Hc & kept & Hsub & Hp & Hall); [|unfold limited; cbn; by rewrite append_limit].
      split; [done|]. split; [done|]. exists (p :: kept). unfold pending in Hp, Hall. cbn in Hp, Hall.
      rewrite append_concat in Hp, Hall. split; [by apply sublist_skip|].
      split; [unfold pending; rewrite Hp, <-app_assoc; done|]. intros HB.
      change (p :: kept = p :: payloads records). f_equal. apply Hall. rewrite <-app_assoc. exact HB.
    + apply IH in E as (Hl & Hc & kept & Hsub & Hp & Hall); [|done]. split; [done|]. split; [done|]. exists kept.
      split; [by apply sublist_cons|]. split; [done|]. intros HB. exfalso. specialize (Hk _ Hs Ek).
      rewrite lenz_app in HB. fold (pending s) in Hk. pose proof (lenz_nonneg (concat (payloads (inr (nd, p) :: records)))). lia.
Qed.

(** The data flow of an operation that delivers [out]: what rustls handed out is
    queued behind the pending data, all of it while that stays within [B], and
    what is delivered is taken from the front. *)
Definition flow (B : Z) (s : Conn) (out : bytes) (s' : Conn) : Prop :=
  limited s' ∧ ∃ recs kept, plain (conn s') = plain (conn s) ++ recs ∧ kept `sublist_of` recs ∧
    out ++ pending s' = pending s ++ concat kept ∧ (lenz (pending s ++ concat recs) <= B → kept = recs).

Definition flows {X} (B : Z) (m : TM X) (out : X → bytes) : Prop :=
  ∀ s x s', limited s → m s = (Ok x, s') → flow B s (out x) s'.

Lemma flows_quiet {X} B (m : TM X) : keeps quiet m → flows B m (λ _, []).
Proof.
  intros Hm s x s' Hs E. apply Hm in E as [Hp Ha]. split; [unfold limited; by rewrite Ha|].
  exists [], []. rewrite Hp, app_nil_r. split_and!; [done|constructor|unfold pending; by rewrite Ha, app_nil_r|done].
Qed.

Lemma flow_trans B s1 s2 s3 o1 o2 : flow B s1 o1 s2 → flow B s2 o2 s3 → o1 = [] → flow B s1 o2 s3.
Proof.
  intros [L2 (r1 & k1 & P1 & S1 & E1 & A1)] [L3 (r2 & k2 & P2 & S2 & E2 & A2)] ->. split; [done|].
  exists (r1 ++ r2), (k1 ++ k2). cbn in E1. split_and!.
  - by rewrite P2, P1, app_assoc.
  - by apply sublist_app.
  - by rewrite E2, E1, concat_app, app_assoc.
  - rewrite concat_app, app_assoc. intros HB.
    assert (k1 = r1) as -> by (apply A1; rewrite lenz_app in HB; pose proof (lenz_nonneg (concat r2)); lia).
    f_equal. apply A2. by rewrite E1.
Qed.

Lemma flows_bind {X Y} B (m : TM X) (f : X → TM Y) out :
  flows B m (λ _, []) → (∀ x, flows B (f x) out) → flows B (m ≫= f) out.
Proof.
  intros Hm Hf s y s' Hs (x & s1 & E1 & E2)%M_bind_Ok_inv. specialize (Hm _ _ _ Hs E1).
  eapply flow_trans; [exact Hm|eapply Hf; [apply Hm|done]|done].
Qed.

Lemma flows_fail {X} B e (out : X → bytes) : flows B (failM e) out.
Proof. by intros s x s' _. Qed.

(** A turn of a loop: the answer of rustls and the records in it, then the rest. *)
Lemma flows_process {X} B (keep : ChunkVecBuffer → bool) (f : Z * (RustlsError + ConnectionState) → TM X) (g : list (RustlsError + Z * bytes) → Z → TM X) out :
  roomy B keep →
  (∀ d records, f (d, inr (ReadTraffic records)) = take_records keep d records ≫= g records) →
  (∀ records d, flows B (g records d) out) →
  (∀ d e, flows B (f (d, inl e)) out) →
  (∀ d st, (∀ records, st ≠ ReadTraffic records) → flows B (f (d, inr st)) out) →
  flows B (process ≫= f) out.
Proof.
  intros Hk Hf Hg He Ho s x s' Hs ([d st] & s1 & E1 & E2)%M_bind_Ok_inv. apply process_run in E1 as (Ha & _ & Hp). cbn [snd] in Hp.
  assert (limited s1) as Hs1 by (unfold limited; by rewrite Ha).
  assert (pending s1 = pending s) as Hpe by (unfold pending; by rewrite Ha).
  assert ((∃ records, st = inr (ReadTraffic records)) ∨ plain (conn s1) = plain (conn s) ∧ flow B s1 (out x) s') as [[records ->]|[Hq Hfl]].
  { destruct st as [e|st]; [right; rewrite Hp, app_nil_r; split; [done|by eapply He]|].
    destruct st; [..|by left; eexists| |]; right; (split; [by rewrite Hp, app_nil_r|refine (Ho _ _ _ _ _ _ Hs1 E2); by intros]). }
  - rewrite Hf in E2. apply M_bind_Ok_inv in E2 as (d' & s2 & Et & Eg).
    apply (take_records_run B keep Hk) in Et as (L2 & Hc & kept & Hsub & Hpk & Hall); [|done].
    eapply (flow_trans _ s s2 s' []); [|exact (Hg records d' s2 x s' L2 Eg)|done]. split; [done|]. exists (payloads records), kept.
    rewrite Hc, Hp, <-Hpe. split_and!; done.
  - destruct Hfl as [L (r & k & P & S1 & E & A1)]. split; [done|]. exists r, k. rewrite <-Hq, <-Hpe. done.
Qed.

Lemma deliver_run B n (Hn : 0 <= n) : flows B (deliver n) id.
Proof.
  intros s out s' Hs E. unfold deliver in E. rewrite getS_bind in E.
  destruct (ChunkVecBuffer_read_spec n (received_app_data s) Hn) as (buf & b' & Er & Hsl & Hc & Hl). rewrite Er in E.
  cbn [or_panic] in E. rewrite ret_bind, modifyS_bind in E. cbn [fst snd] in E. rewrite Hsl in E. injection E as <- <-.
  split; [unfold limited; cbn; by rewrite Hl|]. exists [], []. split_and!; [by rewrite app_nil_r|constructor| |done].
  unfold pending. cbn. by rewrite Hc, app_nil_r, take_drop.
Qed.

Lemma roomy_all B : roomy B (λ _, true).
Proof. done. Qed.

Lemma chunks_len_concat b : chunks_len b = lenz (concat (chunks b)).
Proof.
  unfold chunks_len. enough (∀ n, foldl (λ n ch, n + lenz ch) n (chunks b) = n + lenz (concat (chunks b))) as -> by lia.
  induction (chunks b) as [|c l IH]; intros n; cbn [foldl concat]; [change (lenz (@nil Z)) with 0; lia|]. rewrite IH, lenz_app. lia.
Qed.

Lemma roomy_client : roomy APP_DATA_BUFFER_LIMIT (λ b, negb (is_full b)).
Proof.
  intros b Hl Hf%negb_false_iff. unfold is_full in Hf. rewrite Hl, chunks_len_concat in Hf. by apply Z.ltb_lt in Hf.
Qed.

Lemma handshake_flows B fuel : flows B (process_tls_status fuel : TM unit) (λ _, []).
Proof.
  induction fuel as [|fuel IH]; [apply flows_fail|]. cbn [process_tls_status].
  eapply (flows_process B (λ _, true) _ (λ _ d, _ ← modifyS (set_handshaking false); discard d)); [apply roomy_all|done| | |].
  - intros _ d. apply flows_quiet. keeps_auto; [by apply quiet_modify|apply quiet_discard].
  - intros d e. cbn [fst snd]. intros s x s' _ (? & ? & _ & (? & ? & _ & E)%M_bind_Ok_inv)%M_bind_Ok_inv. done.
  - intros d st Hst. destruct st; cbn [fst snd]; [| | |by destruct (Hst records)| |apply flows_fail].
    + apply flows_bind; [apply flows_quiet, quiet_try, plain_encode|intros _].
      apply flows_bind; [apply flows_quiet, quiet_discard|by intros _].
    + apply flows_bind; [apply flows_quiet, keeps_getS; apply _|intros s0].
      apply flows_bind; [apply flows_quiet, keeps_or_panic; apply _|intros out].
      apply flows_bind; [apply flows_quiet, quiet_stream|intros _].
      apply flows_bind; [apply flows_quiet, quiet_reset|intros _].
      apply flows_bind; [apply flows_quiet, quiet_modify; intros s; split; [apply plain_done|done]|intros _].
      apply flows_bind; [apply flows_quiet, quiet_discard|by intros _].
    + apply flows_bind; [apply flows_quiet, quiet_fill|intros _].
      apply flows_bind; [apply flows_quiet, quiet_discard|by intros _].
    + apply flows_quiet. keeps_auto; [by apply quiet_modify|apply quiet_discard].
Qed.

Lemma finish_flows B fuel : flows B (finish_handshake fuel : TM unit) (λ _, []).
Proof.
  unfold finish_handshake. apply flows_bind; [apply flows_quiet, keeps_getS; apply _|intros s].
  destruct (is_handshaking s); [apply handshake_flows|apply flows_quiet, keeps_ret; apply _].
Qed.

Lemma read_flows B keep fuel n : 0 <= n → roomy B keep → flows B (conn_read keep fuel n : TM bytes) id.
Proof.
  intros Hn Hk. unfold conn_read. apply flows_bind; [apply finish_flows|intros _].
  apply flows_bind; [apply flows_quiet, keeps_getS; apply _|intros s]. destruct (negb _); [by apply deliver_run|].
  revert s. intros _. induction fuel as [|fuel' IH]; [apply flows_fail|]. cbn [read_loop].
  eapply (flows_process B keep _ (λ _ d, out ← deliver n; _ ← discard d; mret out)); [done|done| | |].
  - intros _ d s out s' Hs (out' & s1 & E1 & (? & s2 & E2 & [= <- <-])%M_bind_Ok_inv)%M_bind_Ok_inv.
    pose proof (deliver_run B n Hn _ _ _ Hs E1) as [L1 F1]. apply quiet_discard in E2 as [Q1 Q2].
    split; [unfold limited; by rewrite Q2|]. unfold pending. rewrite Q1, Q2. exact F1.
  - intros d e. apply flows_fail.
  - intros d st Hst. destruct st; cbn [fst snd]; try apply flows_fail; [by destruct (Hst records)|].
    apply flows_bind; [apply flows_quiet, quiet_fill|intros _]. apply flows_bind; [apply flows_quiet, quiet_discard|by intros _].
Qed.

Lemma write_flows B fuel data : flows B (conn_write fuel data : TM Z) (λ _, []).
Proof.
  unfold conn_write. apply flows_bind; [apply finish_flows|intros _].
  induction fuel as [|fuel' IH]; [apply flows_fail|]. cbn [write_loop].
  eapply (flows_process B (λ _, true) _ (λ _ d, _ ← discard d; write_loop fuel' data)); [apply roomy_all|done| | |].
  - intros _ d. apply flows_bind; [apply flows_quiet, quiet_discard|by intros _].
  - intros d e. apply flows_fail.
  - intros d st Hst. destruct st; cbn [fst snd]; try apply flows_fail; [by destruct (Hst records)|].
    apply flows_quiet. keeps_auto; first [apply quiet_try, plain_encrypt|apply quiet_send|apply quiet_reset].
Qed.

(** A read fills the buffer as far as there is data. *)
Lemma deliver_full n (s : Conn) out s' : 0 <= n → deliver n s = (Ok out, s') → lenz out = Z.min n (lenz (out ++ pending s')).
Proof.
  intros Hn E. unfold deliver in E. rewrite getS_bind in E.
  destruct (ChunkVecBuffer_read_spec n (received_app_data s) Hn) as (buf & b' & Er & Hsl & Hc & Hl). rewrite Er in E.
  cbn [or_panic] in E. rewrite ret_bind, modifyS_bind in E. cbn [fst snd] in E. rewrite Hsl in E. injection E as <- <-.
  unfold pending. cbn. rewrite Hc, take_drop. unfold lenz. rewrite length_take. lia.
Qed.

Lemma read_full keep fuel n (s : Conn) out s' :
  0 <= n → conn_read keep fuel n s = (Ok out, s') → lenz out = Z.min n (lenz (out ++ pending s')).
Proof.
  intros Hn. unfold conn_read. intros (_ & s1 & _ & (s2 & s3 & [= <- <-] & E)%M_bind_Ok_inv)%M_bind_Ok_inv.
  destruct (negb _); [by apply (deliver_full n s1)|]. clear s.
  revert s1 E. induction fuel as [|fuel IH]; intros s1; cbn [read_loop]; [done|].
  intros ([d st] & s2 & _ & E)%M_bind_Ok_inv. cbn [fst snd] in E. destruct st as [e|[]]; try done.
  - apply M_bind_Ok_inv in E as (d' & s3 & _ & (o & s4 & Ed & (? & s5 & E5 & [= <- <-])%M_bind_Ok_inv)%M_bind_Ok_inv).
    apply quiet_discard in E5 as [_ Q]. unfold pending. rewrite Q. by eapply deliver_full.
  - apply M_bind_Ok_inv in E as (? & s3 & _ & (? & s4 & _ & E)%M_bind_Ok_inv). by eapply IH.
Qed.

(** ** A read returns *)

Lemma buffer_discard_fits d b : 0 <= d <= used b → used b <= lenz (inner b) → is_Some (buffer_discard d b).
Proof.
  intros Hd Hu. unfold buffer_discard. destruct (slice_is_Some (inner b) d (used b)) as [rest Er]; [lia|lia|]. rewrite Er.
  apply slice_Some_len in Er as [Hl _]. cbn [mbind option_bind].
  destruct (write_at_fits (inner b) 0 rest) as (i & -> & Hi); [lia|lia|]. cbn [mbind option_bind].
  unfold sub_u. rewrite (proj2 (Z.leb_le _ _)) by lia. cbn [mbind option_bind].
  destruct (write_at_fits i (used b - d) (zeros (used b - (used b - d)))) as (j & -> & _); [lia|rewrite lenz_zeros; lia|].
  cbn. eauto.
Qed.

Lemma deliver_runs n (s : Conn) : 0 <= n → ∃ out s', deliver n s = (Ok out, s') ∧ input s' = input s.
Proof.
  intros Hn. unfold deliver. rewrite getS_bind.
  destruct (ChunkVecBuffer_read_spec n (received_app_data s) Hn) as (buf & b' & -> & Hsl & _).
  cbn [or_panic]. rewrite ret_bind, modifyS_bind. cbn [fst snd]. rewrite Hsl. eauto.
Qed.

(** The bytes of input some records take up. *)
Definition taken (recs : list (Z * bytes)) : Z := foldr (λ r n, r.1 + n) 0 recs.

Lemma taken_nonneg recs : Forall (λ r, 0 <= r.1) recs → 0 <= taken recs.
Proof. induction 1 as [|r l ? ? IH]; cbn; [lia|]. fold (taken l). lia. Qed.

Lemma take_records_runs keep recs : ∀ d (s : Conn),
  0 <= d → Forall (λ r, 0 <= r.1) recs → d + taken recs < 2 ^ 64 →
  ∃ s', take_records keep d (inr <$> recs) s = (Ok (d + taken recs), s') ∧ input s' = input s.
Proof.
  induction recs as [|[nd p] recs IH]; intros d s Hd Hf Hlt; cbn [taken foldr fst] in *.
  - exists s. by rewrite Z.add_0_r.
  - apply Forall_cons in Hf as [Hnd Hf]. cbn [fst] in Hnd. fold (taken recs) in *.
    pose proof (taken_nonneg recs Hf).
    rewrite fmap_cons. cbn [take_records]. rewrite or_panic_bind. unfold add_u, checked_add.
    rewrite (proj2 (Z.ltb_lt _ _)) by lia. rewrite modifyS_bind.
    destruct (IH (d + nd) (if keep (received_app_data s) then set_app_data (chunks_append p (received_app_data s)) s else s))
      as (s' & E & Hi); [lia|done|lia|]. exists s'. rewrite Z.add_assoc. split; [exact E|]. rewrite Hi. by destruct (keep _).
Qed.

(** The connection is set up, and data is queued or complete records are in the
    input. *)
Definition ready (s : Conn) : Prop :=
  is_handshaking s = false ∧
  (is_empty (received_app_data s) = false ∨
   ∃ i d recs i' c', used_bytes (input s) = Some i ∧ lenz (inner (input s)) < 2 ^ 64 ∧
     process_tls_records i (conn s) = (d, inr (ReadTraffic (inr <$> recs)), i', c') ∧
     0 <= d ∧ Forall (λ r, 0 <= r.1) recs ∧ d + taken recs <= used (input s)).

Lemma process_runs (s : Conn) i d st i' c' :
  used_bytes (input s) = Some i → process_tls_records i (conn s) = (d, st, i', c') →
  ∃ s', (process : TM _) s = (Ok (d, st), s') ∧ used (input s') = used (input s) ∧ lenz (inner (input s')) = lenz (inner (input s)).
Proof.
  intros Hi Hp. unfold process. rewrite getS_bind, or_panic_bind, Hi, Hp, or_panic_bind.
  pose proof Hi as [Hli [_ Hu]]%slice_Some_len. pose proof (process_keeps_size _ _ _ _ _ _ Hp) as Hl.
  destruct (write_at_fits (inner (input s)) 0 i') as (b & -> & Hb); [lia|lia|]. eexists. split; [done|]. by split.
Qed.

Lemma read_returns keep fuel n (s : Conn) : 0 <= n → ready s → ∃ out s', conn_read keep (S fuel) n s = (Ok out, s').
Proof.
  intros Hn [Hh Hr]. unfold conn_read, finish_handshake.
  rewrite (M_bind_Ok _ _ s s tt) by (by rewrite getS_bind, Hh). rewrite getS_bind.
  destruct (is_empty (received_app_data s)) eqn:He; cbn [negb]; [|destruct (deliver_runs n s Hn) as (o & s' & E & _); eauto].
  destruct Hr as [|(i & d & recs & i' & c' & Hi & Hlen & Hp & Hd & Hf & Ht)]; [done|].
  destruct (process_runs s i _ _ _ _ Hi Hp) as (s1 & E1 & Hu & Hin). pose proof Hi as [_ [_ Hui]]%slice_Some_len.
  cbn [read_loop]. rewrite (M_bind_Ok _ _ _ _ _ E1). cbn [fst snd].
  destruct (take_records_runs keep recs d s1) as (s2 & E2 & Hi2); [done|done|lia|]. rewrite (M_bind_Ok _ _ _ _ _ E2).
  destruct (deliver_runs n s2 Hn) as (o & s3 & E3 & Hi3). rewrite (M_bind_Ok _ _ _ _ _ E3).
  unfold discard. rewrite M_bind_eq, getS_bind, or_panic_bind, Hi3, Hi2.
  destruct (buffer_discard_fits (d + taken recs) (input s1)) as [b ->]; [|lia|cbn; eauto].
  pose proof (taken_nonneg recs Hf). lia.
Qed.

(** C25 Application data of the TLS channel is delivered in order.  A read
    returns the next bytes, as many as there are and fit, of what was queued and
    what rustls handed out during the call (the handshake included), and queues
    the rest; it does return when there is data, queued or in the input; on the server side, and during writes, nothing is lost or
    duplicated; on the client side whole records are lost, and only when more
    than 4096 bytes would be queued. *)
Theorem tls_data_in_order fuel n data (s : Conn) :
  limited s → 0 <= n →
  (ready s → (∃ out s', server_read (S fuel) n s = (Ok out, s')) ∧ (∃ out s', client_read (S fuel) n s = (Ok out, s'))) ∧
  (∀ out s', server_read fuel n s = (Ok out, s') →
     lenz out = Z.min n (lenz (out ++ pending s')) ∧
     ∃ recs, plain (conn s') = plain (conn s) ++ recs ∧ out ++ pending s' = pending s ++ concat recs) ∧
  (∀ out s', client_read fuel n s = (Ok out, s') →
     lenz out = Z.min n (lenz (out ++ pending s')) ∧
     ∃ recs kept, plain (conn s') = plain (conn s) ++ recs ∧ kept `sublist_of` recs ∧ out ++ pending s' = pending s ++ concat kept ∧
       (lenz (pending s ++ concat recs) <= APP_DATA_BUFFER_LIMIT → kept = recs)) ∧
  (∀ k s', conn_write fuel data s = (Ok k, s') →
     ∃ recs, plain (conn s') = plain (conn s) ++ recs ∧ pending s' = pending s ++ concat recs).
Proof.
  intros Hs Hn.
  assert (∀ out s', (∀ B, flow B s out s') →
    ∃ recs, plain (conn s') = plain (conn s) ++ recs ∧ out ++ pending s' = pending s ++ concat recs) as Hall.
  { intros out s' Hf. destruct (Hf 0) as [_ (recs & _ & Hp & _)].
    destruct (Hf (lenz (pending s ++ concat recs))) as [_ (recs' & kept & Hp' & _ & He & Hk)].
    assert (recs' = recs) as -> by (eapply (inj (plain (conn s) ++.)); congruence).
    exists recs. split; [done|]. by rewrite <-Hk by done. }
  split_and!.
  - intros Hr. split; by apply read_returns.
  - intros out s' E. split; [by eapply read_full|]. apply Hall. intros B. exact (read_flows B _ fuel n Hn (roomy_all B) s out s' Hs E).
  - intros out s' E. split; [by eapply read_full|].
    destruct (read_flows APP_DATA_BUFFER_LIMIT _ fuel n Hn roomy_client s out s' Hs E) as [_ Hf]. exact Hf.
  - intros k s' E. apply (Hall [] s'). intros B. exact (write_flows B fuel data s k s' Hs E).
Qed.

End flow.

(** ** The verifier's error *)

Lemma skip_chars_app a b : skip_chars (String.length a) (a +:+ b) = Some b.
Proof. induction a; [by destruct b|done]. Qed.

Lemma find_char_app c a b : find_char c a = None → find_char c (a +:+ String.String c b) = Some (String.length a).
Proof.
  induction a as [|x a IH].
  - intros _. change (find_char c (String.String c b) = Some 0%nat). cbn [find_char]. by rewrite bool_decide_true.
  - change (String.String x a +:+ String.String c b) with (String.String x (a +:+ String.String c b)).
    cbn [find_char String.length]. case_bool_decide; [done|]. destruct (find_char c a); [done|]. intros _. by rewrite IH.
Qed.

Lemma substring_app a b : String.substring 0 (String.length a) (a +:+ b) = a.
Proof. induction a as [|x a IH]; [by destruct b|]. by apply (f_equal (String.String x)). Qed.

(** The reason for which the callback rejected a peer's certificate is the
    reason the caller of the channel gets: the verifier wraps it into a text of
    the TLS library, and the channel takes it out again, for every reason that
    has no closing parenthesis, as the reasons of this program. *)
Theorem verifier_error_returns msg :
  find_char ")" msg = None →
  handle_stream_error (TlsConnectionError.TlsLib (verifier_error (CryptoError.TlsVerifyPeerCert msg))) =
  Ok (CryptoError.TlsVerifyPeerCert msg).
Proof.
  intros Hm. unfold handle_stream_error, verifier_error.
  assert (∀ rest, find_text TLS_CUSTOM_CALLBACK_ERROR (TLS_CUSTOM_CALLBACK_ERROR +:+ rest) = Some 0%nat) as -> by (intros rest; destruct rest; reflexivity).
  change (TLS_CUSTOM_CALLBACK_ERROR +:+ "(" +:+ msg +:+ ")") with ((TLS_CUSTOM_CALLBACK_ERROR +:+ "(") +:+ (msg +:+ ")")).
  cbv zeta. change (0 + String.length TLS_CUSTOM_CALLBACK_ERROR + 1)%nat with (String.length (TLS_CUSTOM_CALLBACK_ERROR +:+ "(")).
  rewrite skip_chars_app. change (msg +:+ ")") with (msg +:+ String.String ")" EmptyString).
  rewrite find_char_app by done. by rewrite substring_app.
Qed.

(** ** A library without cryptography *)

Module Demo.

(** A byte of input is a record of 3000 copies of it. *)
Definition payload (b : Z) : bytes := replicate 3000 b.

#[local, refine] Instance rustls : Rustls (list bytes) := {
  process_tls_records i c :=
    match i with
    | [] => (0, inr WriteTraffic, i, c)
    | _ => (0, inr (ReadTraffic ((λ b, inr (1, payload b)) <$> i)), i, c ++ (payload <$> i))
    end;
  conn_encode n c := (Wrote [], c);
  conn_encrypt data n c := (Wrote data, c);
  conn_done c := c }.
Proof. intros [|b i] c d s i' c'; congruence. Defined.

#[local, refine] Instance trace : RustlsTrace (list bytes) := { plain c := c }.
Proof.
  - intros [|b i] c d s i' c'; cbn [process_tls_records rustls]; intros E; injection E as <- <- <- <-; [by rewrite app_nil_r|].
    f_equal. unfold payloads. apply (f_equal (cons (payload b))). induction i as [|x l IH]; [done|]. exact (f_equal (cons (payload x)) IH).
  - done.
  - done.
  - done.
Defined.

(** A fresh connection with three records under way. *)
Definition start : TlsConnection (list bytes) Chan := Conn_new [] (mkChan [1; 2; 3] [] [] []).

Definition server_end : TlsConnection (list bytes) Chan := (server_read 5 7000 start).2.

Lemma tls_data_in_order_witness :
  limited start ∧
  ∃ recs, plain (conn server_end) = plain (conn start) ++ recs ∧
    (payload 1 ++ payload 2 ++ replicate 1000 3) ++ pending server_end = pending start ++ concat recs.
Proof.
  split; [done|]. assert (server_read 5 7000 start = (Ok (payload 1 ++ payload 2 ++ replicate 1000 3), server_end)) as E.
  { assert ((server_read 5 7000 start).1 = Ok (payload 1 ++ payload 2 ++ replicate 1000 3)) as <- by (vm_compute; reflexivity).
    apply surjective_pairing. }
  exact (proj2 (proj1 (proj2 (tls_data_in_order 5 7000 [] start eq_refl ltac:(lia))) _ _ E)).
Defined.

(** The client reads the same three records and is left with two. *)
Example client_loses_a_record :
  let s' := (client_read 5 7000 start).2 in
  plain (conn s') = [payload 1; payload 2; payload 3] ∧
  (client_read 5 7000 start).1 = Ok (payload 1 ++ payload 2) ∧ pending s' = [].
Proof. vm_compute. split_and!; reflexivity. Qed.

Lemma verifier_error_returns_witness :
  handle_stream_error (TlsConnectionError.TlsLib (verifier_error (CryptoError.TlsVerifyPeerCert "MutualAttestationError"))) =
  Ok (CryptoError.TlsVerifyPeerCert "MutualAttestationError").
Proof. apply (verifier_error_returns "MutualAttestationError"). reflexivity. Defined.

End Demo.
