(* ===== verification/Attest.v ===== *)
(** * Attest: quotes from the host, verified reports and the root of trust

    src/attestation/src: [ghci.rs] (the quote call to the VMM), [igvmattest.rs]
    (feature [igvm-attest]), [attest.rs] (feature [attest-lib-ext]) and
    [root_ca.rs].  The C library that verifies quotes is the class [AttestLib]; the
    VMM that answers a quote request is a record of everything it can do.  The
    mock quotes of test builds are left out. *)
From stdpp Require Import base tactics numbers option strings list list_numbers.
From S2P Require Import Prelude PolicyV2 MigPolicy X509.
Local Open Scope Z_scope.

#[local] Notation bytes := (list Z).

Module AttestError.
Inductive t := InvalidRootCa | InitHeap | GetQuote | VerifyQuote | InvalidOutput | InvalidQuote | OutOfMemory | Busy.
End AttestError.

Module AttestLibError.
Inductive t :=
  | Success | Unexpected | InvalidParameter | OutOfMemory | VsockFailure | ReportFailure | ExtendFailure
  | NotSupported | QuoteFailure | Busy | DeviceFailure | InvalidRtmrIndex.

(** [e as i32] *)
Definition as_i32 (e : t) : Z :=
  match e with
  | Success => 0 | Unexpected => 1 | InvalidParameter => 2 | OutOfMemory => 3 | VsockFailure => 4 | ReportFailure => 5
  | ExtendFailure => 6 | NotSupported => 7 | QuoteFailure => 8 | Busy => 9 | DeviceFailure => 10 | InvalidRtmrIndex => 11
  end.
End AttestLibError.

Definition TD_QUOTE_SIZE : Z := 0x2000.
Definition TD_REPORT_VERIFY_SIZE : Z := 1024.
Definition TD_VERIFIED_REPORT_SIZE : Z := 822.
Definition TD_REPORT_SIZE : Z := 1024.

(** ** The quote call (ghci.rs) *)

Definition GET_QUOTE_MAX_SIZE : Z := 32 * 0x1000.
Definition GET_QUOTE_STATUS_FIELD : Z * Z := (8, 16).
Definition GET_QUOTE_STATUS_SUCCESS : Z := 0.
Definition GET_QUOTE_STATUS_IN_FLIGHT : Z := 0xFFFFFFFFFFFFFFFF.
Definition GET_QUOTE_STATUS_ERROR : Z := 0x8000000000000000.
Definition GET_QUOTE_STATUS_SERVICE_UNAVAILABLE : Z := 0x8000000000000001.

Inductive call_answer := CallOk | CallRetry | CallFailed.

(** What the outside does during one quote call: whether shared pages can be had
    and the notification set up, the answer of the call, the interrupts that end
    the halts (true for the notification of the VMM), the status each volatile
    read finds, and the content of the shared pages when they are copied back. *)
Record QuoteHost := mkQuoteHost {
  gh_shared : bool; gh_callback : bool; gh_notify : bool; gh_call : call_answer;
  gh_halts : list bool; gh_status : list Z; gh_buffer : bytes }.

Definition set_vmm_notification (h : QuoteHost) : bool := if gh_callback h then gh_notify h else false.

(** [NOTIFIER] is [n]; a halt that never ends is [Pending]. *)
Fixpoint wait_for_vmm_notification (halts : list bool) (n : Z) : outcome (aerr AttestLibError.t) unit :=
  if negb (n =? 0) then Ok tt
  else match halts with
  | [] => Err Pending
  | notified :: halts =>
      let n := if notified : bool then 1 else n in
      if n =? 1 then Ok tt else wait_for_vmm_notification halts n
  end.

(** The loop that reads the status; one that is never left is [Pending]. *)
Fixpoint status_loop (notify_registered : bool) (reads : list Z) : outcome (aerr AttestLibError.t) Z :=
  match reads with
  | [] => Err Pending
  | status :: reads =>
      if notify_registered then Ok status
      else if status =? GET_QUOTE_STATUS_IN_FLIGHT then status_loop notify_registered reads else Ok status
  end.

Definition wait_for_quote_completion (h : QuoteHost) (n : Z) (notify_registered : bool) (buffer_len : Z) : outcome (aerr AttestLibError.t) unit :=
  _ ← (if notify_registered then wait_for_vmm_notification (gh_halts h) n else Ok tt);
  if buffer_len <? GET_QUOTE_STATUS_FIELD.2 then Err (Failed AttestLibError.InvalidParameter)
  else
    status_code ← status_loop notify_registered (gh_status h);
    if status_code =? GET_QUOTE_STATUS_SUCCESS then Ok tt
    else if (status_code =? GET_QUOTE_STATUS_SERVICE_UNAVAILABLE) || (status_code =? GET_QUOTE_STATUS_ERROR)
            || (status_code =? GET_QUOTE_STATUS_IN_FLIGHT) then Err (Failed AttestLibError.Busy)
    else Err (Failed AttestLibError.QuoteFailure).

(** [servtd_get_quote]: the code it returns and the request buffer afterwards;
    [None] is the null pointer, [n] the value of [NOTIFIER]. *)
Definition servtd_get_quote (h : QuoteHost) (n : Z) (tdquote_req_buf : option bytes) : outcome (aerr AttestLibError.t) (Z * bytes) :=
  match tdquote_req_buf with
  | None => Ok (AttestLibError.as_i32 AttestLibError.InvalidParameter, [])
  | Some input =>
      let len := lenz input in
      if GET_QUOTE_MAX_SIZE <? len then Ok (AttestLibError.as_i32 AttestLibError.InvalidParameter, input)
      else if negb (gh_shared h) then Ok (AttestLibError.as_i32 AttestLibError.OutOfMemory, input)
      else
        let pages := (len + 0xFFF) / 0x1000 in
        let shared := fit (pages * 0x1000) (gh_buffer h) in
        let notify_registered := set_vmm_notification h in
        match gh_call h with
        | CallRetry => Ok (AttestLibError.as_i32 AttestLibError.Busy, input)
        | CallFailed => Ok (AttestLibError.as_i32 AttestLibError.QuoteFailure, input)
        | CallOk =>
            let wait_result := wait_for_quote_completion h n notify_registered (pages * 0x1000) in
            match wait_result, slice shared 0 len with
            | Err Pending, _ => Err Pending
            | Err OutOfFuel, _ => Err OutOfFuel
            | Panic, _ | _, None => Panic
            | Err (Failed err), Some out => Ok (AttestLibError.as_i32 err, out)
            | Ok _, Some out => Ok (0, out)
            end
        end
  end.

(** ** A quote through the call (igvmattest.rs) *)

Definition SERVTD_REQ_BUF_SIZE : Z := 16 * 4 * 1024.
Definition QUOTE_HDR_SIZE : Z := 24.

(** [ServtdTdxQuoteHdr] as bytes *)
Definition quote_hdr (version status in_len out_len : Z) : bytes :=
  le_bytes 8 version ++ le_bytes 8 status ++ le_bytes 4 in_len ++ le_bytes 4 out_len.

Notation AResult := (outcome (aerr AttestError.t)).

Definition at_index {A} (o : option A) : AResult A := match o with Some a => Ok a | None => Panic end.

Definition get_quote_igvm (h : QuoteHost) (n : Z) (td_report : bytes) : AResult bytes :=
  let get_quote_blob := zeros SERVTD_REQ_BUF_SIZE in
  if SERVTD_REQ_BUF_SIZE <? QUOTE_HDR_SIZE + lenz td_report then Err (Failed AttestError.GetQuote)
  else
    get_quote_blob ← at_index (write_at get_quote_blob 0 (quote_hdr 1 0 (as_u 32 (lenz td_report)) TD_QUOTE_SIZE));
    get_quote_blob ← at_index (write_at get_quote_blob QUOTE_HDR_SIZE td_report);
    match servtd_get_quote h n (Some get_quote_blob) with
    | Err Pending => Err Pending
    | Err _ => Err OutOfFuel
    | Panic => Panic
    | Ok (servtd_get_quote_ret, get_quote_blob) =>
        if negb (servtd_get_quote_ret =? 0) then
          Err (Failed (if servtd_get_quote_ret =? AttestLibError.as_i32 AttestLibError.Busy then AttestError.Busy else AttestError.GetQuote))
        else
          out_len ← at_index (slice get_quote_blob 20 24);
          let quote_size := le_val out_len in
          if TD_QUOTE_SIZE <? quote_size then Err (Failed AttestError.GetQuote)
          else if quote_size =? 0 then Err (Failed AttestError.GetQuote)
          else if lenz get_quote_blob <? QUOTE_HDR_SIZE + quote_size then Err (Failed AttestError.GetQuote)
          else if lenz (zeros TD_QUOTE_SIZE) <? quote_size then Err (Failed AttestError.GetQuote)
          else
            data ← at_index (slice get_quote_blob QUOTE_HDR_SIZE (QUOTE_HDR_SIZE + quote_size));
            quote ← at_index (write_at (zeros TD_QUOTE_SIZE) 0 data);
            Ok (take (Z.to_nat quote_size) quote)
    end.

(** ** The library *)

(** The C library: the code it returns, the output buffer and the size it stores. *)
Class AttestLib := {
  lib_get_quote : bytes → Z * bytes * Z;
  lib_verify_quote_integrity : bytes → bytes → Z * bytes * Z;
  lib_verify_quote_integrity_ex : bytes → bytes → AttCollateral → Z * bytes * Z }.

Definition mask_pairs : list (Z * Z) :=
  zip (seqZ 626 4) (seqZ 630 4) ++ zip (seqZ 634 16) (seqZ 650 16).

(** [report[i] &= report[j]] for each pair *)
Fixpoint mask_loop (pairs : list (Z * Z)) (report : bytes) : AResult bytes :=
  match pairs with
  | [] => Ok report
  | (i, j) :: pairs =>
      m ← at_index (nthz report j);
      report ← at_index (alterz (λ x, Z.land x m) i report);
      mask_loop pairs report
  end.

Definition mask_verified_report_values (report : bytes) : AResult bytes := mask_loop mask_pairs report.

Section lib.
Context `{AttestLib}.

(** [get_quote] without the features [igvm-attest] and [use-mock-quote] *)
Definition get_quote (td_report : bytes) : AResult bytes :=
  if negb (lenz td_report =? TD_REPORT_SIZE) then Err (Failed AttestError.GetQuote)
  else
    let '(result, quote, quote_size) := lib_get_quote td_report in
    if negb (result =? 0) then
      Err (Failed (if result =? AttestLibError.as_i32 AttestLibError.Busy then AttestError.Busy else AttestError.GetQuote))
    else Ok (take (Z.to_nat quote_size) (fit TD_QUOTE_SIZE quote)).

(** What both verifications do with the answer of the library. *)
Definition verified_report (answer : Z * bytes * Z) : AResult bytes :=
  let '(result, td_report_verify, report_verify_size) := answer in
  if negb (result =? 0) then Err (Failed AttestError.VerifyQuote)
  else if negb (report_verify_size =? TD_VERIFIED_REPORT_SIZE) then Err (Failed AttestError.InvalidOutput)
  else
    report ← at_index (slice (fit TD_REPORT_VERIFY_SIZE td_report_verify) 0 report_verify_size);
    mask_verified_report_values report.

(** [root] is [ROOT_CA_PUBLIC_KEY] *)
Definition verify_quote (root : option bytes) (quote : bytes) : AResult bytes :=
  public_key ← or_err root (Failed AttestError.InvalidRootCa);
  verified_report (lib_verify_quote_integrity quote public_key).

Definition verify_quote_with_collaterals (root : option bytes) (quote : bytes) (collateral : AttCollateral) : AResult bytes :=
  public_key ← or_err root (Failed AttestError.InvalidRootCa);
  verified_report (lib_verify_quote_integrity_ex quote public_key collateral).
End lib.

(** ** The root of trust (root_ca.rs) *)

Definition root_key_of `{Der} (cert : bytes) : option bytes :=
  c ← cert_from_der cert; bits_as_bytes (subject_public_key (subject_public_key_info (tbs_certificate c))).

(** [Once::try_call_once]: the first success stays, a failure leaves it unset. *)
Definition set_ca `{Der} (cert : bytes) : M (option bytes) AttestError.t unit := λ root,
  match root with
  | Some _ => (Ok tt, root)
  | None =>
      match root_key_of cert with
      | Some key => (Ok tt, Some key)
      | None => (Err AttestError.InvalidRootCa, None)
      end
  end.
