(* ===== verification/AttestSpec.v ===== *)
(** * AttestSpec: quotes are in bounds, reports are the library's under one root

    A host can make a quote request fail, hang or return other bytes, and nothing
    else; a verified report is the one the library produced for the first root
    certificate that was set, with the quoting enclave's fields masked. *)
From stdpp Require Import base tactics numbers option strings list list_numbers.
From S2P Require Import Prelude PolicyV2 MigPolicy X509 Attest.
Local Open Scope Z_scope.

#[local] Notation bytes := (list Z).

(** ** The quote call *)

(** The status a request ends with: the first one read after the notification, or
    the first one that is not in flight. *)
Definition final_status (h : QuoteHost) : option Z :=
  if set_vmm_notification h then head (gh_status h)
  else head (filter (λ s, s ≠ GET_QUOTE_STATUS_IN_FLIGHT) (gh_status h)).

Lemma status_loop_final (registered : bool) reads s : status_loop registered reads = Ok s →
  (if registered then head reads else head (filter (λ s, s ≠ GET_QUOTE_STATUS_IN_FLIGHT) reads)) = Some s.
Proof.
  induction reads as [|x reads IH]; [done|]. cbn [status_loop]. destruct registered; [by intros [= ->]|].
  rewrite filter_cons. destruct (Z.eqb_spec x GET_QUOTE_STATUS_IN_FLIGHT) as [E|E].
  - rewrite decide_False by naive_solver. apply IH.
  - rewrite decide_True by done. by intros [= ->].
Qed.

Lemma notification_no_panic halts n : wait_for_vmm_notification halts n ≠ Panic.
Proof. revert n. induction halts as [|b halts IH]; intros n; cbn; repeat case_match; try done; apply IH. Qed.

Lemma status_loop_no_panic registered reads : status_loop registered reads ≠ Panic.
Proof. induction reads as [|x reads IH]; cbn; [done|]. by repeat case_match. Qed.

Lemma completion_no_panic h n registered len : wait_for_quote_completion h n registered len ≠ Panic.
Proof.
  apply bind_no_panic; [destruct registered; [apply notification_no_panic|done]|]. intros _ _. case_match; [done|].
  apply bind_no_panic; [apply status_loop_no_panic|]. intros s _. by repeat case_match.
Qed.

Lemma completion_Ok h n len : wait_for_quote_completion h n (set_vmm_notification h) len = Ok tt →
  final_status h = Some GET_QUOTE_STATUS_SUCCESS.
Proof.
  unfold wait_for_quote_completion, final_status. intros ([] & _ & H)%bind_Ok. case_match; [done|].
  apply bind_Ok in H as (s & Hs & H). apply status_loop_final in Hs. destruct (Z.eqb_spec s GET_QUOTE_STATUS_SUCCESS); [by subst|].
  by repeat case_match.
Qed.

(** The pages cover the request. *)
Lemma pages_cover len : 0 <= len → len <= (len + 0xFFF) / 0x1000 * 0x1000.
Proof.
  intros H. pose proof (Z.div_mod (len + 0xFFF) 0x1000 ltac:(lia)). pose proof (Z.mod_pos_bound (len + 0xFFF) 0x1000 ltac:(lia)). lia.
Qed.

(** What a call returns: a code with the request as it was, or what the host left
    in the shared pages; the code 0 only for a request the host completed. *)
Lemma servtd_get_quote_spec h n input :
  servtd_get_quote h n (Some input) ≠ Panic ∧
  ∀ code out, servtd_get_quote h n (Some input) = Ok (code, out) →
    lenz out = lenz input ∧
    (code = 0 → gh_call h = CallOk ∧ final_status h = Some GET_QUOTE_STATUS_SUCCESS ∧
       out = take (length input) (fit ((lenz input + 0xFFF) / 0x1000 * 0x1000) (gh_buffer h))).
Proof.
  pose proof (lenz_nonneg input) as Hl. pose proof (pages_cover (lenz input) Hl) as Hp. cbn [servtd_get_quote].
  destruct (_ <? _); [split; [done|by intros ? ? [= <- <-]]|]. destruct (gh_shared h); cbn [negb]; [|split; [done|by intros ? ? [= <- <-]]].
  set (shared := fit _ (gh_buffer h)).
  assert (lenz shared = (lenz input + 0xFFF) / 0x1000 * 0x1000) as Hs by (apply lenz_fit; lia).
  rewrite slice_take, to_nat_lenz by lia.
  destruct (gh_call h); [|split; [done|by intros ? ? [= <- <-]]..].
  assert (lenz (take (length input) shared) = lenz input) as Ht by (unfold lenz in *; rewrite length_take; lia).
  destruct (wait_for_quote_completion h n (set_vmm_notification h) _) as [[]|[e| |]|] eqn:E.
  - split; [done|]. intros ? ? [= <- <-]. split; [done|]. intros _. split; [done|]. split; [by eapply completion_Ok|done].
  - split; [done|]. intros ? ? [= <- <-]. split; [done|]. destruct e; cbn; try done. intros _.
    unfold wait_for_quote_completion in E. exfalso. destruct (if set_vmm_notification h then _ else _) eqn:E1; cbn [mbind outcome_bind] in E; try done.
    + destruct (_ <? _); [done|]. destruct (status_loop _ _) eqn:E2; cbn [mbind outcome_bind] in E; [by repeat case_match|..]; try done.
      injection E as ->. clear -E2. induction (gh_status h) as [|x l IH]; [done|]. cbn in E2. by repeat case_match.
    + injection E as ->. destruct (set_vmm_notification h); [|done]. clear -E1. revert n E1. induction (gh_halts h) as [|b l IH]; intros n E1;
        cbn in E1; repeat case_match; try done; by eapply IH.
  - done.
  - done.
  - by apply completion_no_panic in E.
Qed.

(** The part of [get_quote_igvm] after the call. *)
Definition read_quote (blob : bytes) : AResult bytes :=
  out_len ← at_index (slice blob 20 24);
  let quote_size := le_val out_len in
  if TD_QUOTE_SIZE <? quote_size then Err (Failed AttestError.GetQuote)
  else if quote_size =? 0 then Err (Failed AttestError.GetQuote)
  else if lenz blob <? QUOTE_HDR_SIZE + quote_size then Err (Failed AttestError.GetQuote)
  else if lenz (zeros TD_QUOTE_SIZE) <? quote_size then Err (Failed AttestError.GetQuote)
  else
    data ← at_index (slice blob QUOTE_HDR_SIZE (QUOTE_HDR_SIZE + quote_size));
    quote ← at_index (write_at (zeros TD_QUOTE_SIZE) 0 data);
    Ok (take (Z.to_nat quote_size) quote).

Lemma read_quote_spec blob : bytes_ok blob → lenz blob = SERVTD_REQ_BUF_SIZE →
  read_quote blob ≠ Panic ∧
  ∀ q, read_quote blob = Ok q → 0 < lenz q <= TD_QUOTE_SIZE ∧ lenz q = le_val (take 4 (drop 20 blob)) ∧ q = take (length q) (drop 24 blob).
Proof.
  intros Hb Hl. unfold read_quote. assert (slice blob 20 24 = Some (take 4 (drop 20 blob))) as Hs.
  { unfold slice. rewrite Hl. done. }
  rewrite Hs. cbn [at_index mbind outcome_bind]. set (sz := le_val (take 4 (drop 20 blob))).
  assert (0 <= sz) as H0. { apply (le_val_range (take 4 (drop 20 blob))). by apply Forall_take, Forall_drop. }
  destruct (Z.ltb_spec TD_QUOTE_SIZE sz); [done|]. destruct (Z.eqb_spec sz 0); [done|]. destruct (Z.ltb_spec (lenz blob) (QUOTE_HDR_SIZE + sz)); [done|].
  rewrite lenz_zeros by done. destruct (TD_QUOTE_SIZE <? sz); [done|].
  assert (slice blob QUOTE_HDR_SIZE (QUOTE_HDR_SIZE + sz) = Some (take (Z.to_nat sz) (drop 24 blob))) as ->.
  { unfold slice. replace (QUOTE_HDR_SIZE + sz - QUOTE_HDR_SIZE) with sz by lia. unfold QUOTE_HDR_SIZE in *.
    rewrite (proj2 (Z.leb_le 24 _)), (proj2 (Z.leb_le _ (lenz blob))) by lia. done. }
  cbn [at_index mbind outcome_bind]. set (data := take (Z.to_nat sz) (drop 24 blob)).
  assert (lenz data = sz) as Hd. { unfold data, lenz in *. rewrite length_take, length_drop. unfold QUOTE_HDR_SIZE in *. lia. }
  rewrite write_at_Some by (rewrite ?Hd, ?lenz_zeros; done || lia). cbn [at_index mbind outcome_bind].
  change (take (Z.to_nat 0) (zeros TD_QUOTE_SIZE)) with (@nil Z). rewrite app_nil_l.
  rewrite take_app_length' by (unfold lenz in Hd; lia). split; [done|]. intros q [= <-]. rewrite Hd.
  split; [lia|]. split; [done|]. unfold lenz in Hd. replace (length data) with (Z.to_nat sz) by lia. done.
Qed.

Lemma fit_same m n bs : 0 <= n <= m → take (Z.to_nat n) (fit m bs) = fit n bs.
Proof.
  intros Hn. unfold fit. rewrite take_take. replace (Z.to_nat n `min` Z.to_nat m)%nat with (Z.to_nat n) by lia.
  rewrite !take_app. f_equal. unfold zeros. rewrite !take_replicate. f_equal. lia.
Qed.

(** C23 A host cannot do more to a quote request than make it fail or wait.  For
    every behaviour of the host (no memory, no notification, any status at any read, any
    content of the shared pages) and any report, [get_quote_igvm] does not abort; a
    quote it returns is not empty, fits the quote buffer, and is exactly the part of
    the returned request, after its header, that the header's length names, for a
    call that the host accepted and completed with the status of success. *)
Theorem igvm_quote_safe h n td_report : bytes_ok (gh_buffer h) →
  get_quote_igvm h n td_report ≠ Panic ∧
  (∀ q, get_quote_igvm h n td_report = Ok q →
     let blob := fit SERVTD_REQ_BUF_SIZE (gh_buffer h) in
     0 < lenz q <= TD_QUOTE_SIZE ∧ lenz q = le_val (take 4 (drop 20 blob)) ∧ q = take (length q) (drop 24 blob) ∧
     gh_call h = CallOk ∧ final_status h = Some GET_QUOTE_STATUS_SUCCESS).
Proof.
  intros Hb. unfold get_quote_igvm. destruct (Z.ltb_spec SERVTD_REQ_BUF_SIZE (QUOTE_HDR_SIZE + lenz td_report)) as [|Hlen]; [done|].
  assert (lenz (zeros SERVTD_REQ_BUF_SIZE) = SERVTD_REQ_BUF_SIZE) as Hz by (by apply lenz_zeros).
  destruct (write_at_fits (zeros SERVTD_REQ_BUF_SIZE) 0 (quote_hdr 1 0 (as_u 32 (lenz td_report)) TD_QUOTE_SIZE)) as (b1 & -> & Hb1); [done| |].
  { rewrite Hz. unfold quote_hdr. rewrite !lenz_app, !lenz_le_bytes. done. }
  cbn [at_index mbind outcome_bind]. destruct (write_at_fits b1 QUOTE_HDR_SIZE td_report) as (b2 & -> & Hb2); [done|lia|].
  cbn [at_index mbind outcome_bind]. destruct (servtd_get_quote_spec h n b2) as [Hnp Hok]. change (@Some (list Z) b2) with (@Some bytes b2).
  assert (lenz b2 = SERVTD_REQ_BUF_SIZE) as Hl2 by congruence. clear Hz Hb1 Hb2. destruct (servtd_get_quote h n (@Some bytes b2)) as [[code out]|[]|]; [|by split..|by destruct Hnp].
  destruct (Hok _ _ eq_refl) as [Hlo Hcode]. destruct (Z.eqb_spec code 0) as [->|]; cbn [negb]; [|split; [intros E; discriminate E|intros q E; discriminate E]].
  destruct (Hcode eq_refl) as (Hcall & Hst & Hout). fold (read_quote out).
  rewrite Hl2 in Hout, Hlo.
  assert (out = fit SERVTD_REQ_BUF_SIZE (gh_buffer h)) as ->.
  { rewrite Hout. replace (length b2) with (Z.to_nat SERVTD_REQ_BUF_SIZE) by (unfold lenz in Hl2; lia). by apply fit_same. }
  destruct (read_quote_spec (fit SERVTD_REQ_BUF_SIZE (gh_buffer h))) as [H1 H2]; [by apply fit_bytes_ok|done|].
  split; [done|]. intros q Hq. destruct (H2 q Hq) as (? & ? & ?). done.
Qed.

(** ** Verified reports *)

(** The value at [i] of the report, masked where the quoting enclave's fields are. *)
Definition masked_byte (report : bytes) (i : nat) : option Z :=
  x ← report !! i;
  let under d := m ← report !! (i + d)%nat; Some (Z.land x m) in
  if decide (626 ≤ i < 630)%nat then under 4%nat
  else if decide (634 ≤ i < 650)%nat then under 16%nat
  else Some x.

(** One pair: the byte at [i] under the one at [j]. *)
Lemma mask_loop_spec pairs report :
  (∀ i j, (i, j) ∈ pairs → 0 <= i < lenz report ∧ 0 <= j < lenz report) → NoDup pairs.*1 →
  (∀ i j, i ∈ pairs.*1 → j ∈ pairs.*2 → i ≠ j) →
  ∃ r, mask_loop pairs report = Ok r ∧ length r = length report ∧
    ∀ k, r !! k = match list_find (λ e : Z * Z, e.1 = Z.of_nat k) pairs with
                  | Some (_, (_, j)) => x ← report !! k; m ← report !! Z.to_nat j; Some (Z.land x m)
                  | None => report !! k
                  end.
Proof.
  revert report. induction pairs as [|[i j] pairs IH]; intros report Hr Hd Hij; [by exists report|].
  destruct (Hr i j) as [Hi Hj]; [left|]. unfold lenz in Hi, Hj. cbn [mask_loop].
  destruct (lookup_lt_is_Some_2 report (Z.to_nat j)) as [m Hm]; [lia|]. destruct (lookup_lt_is_Some_2 report (Z.to_nat i)) as [x Hx]; [lia|].
  assert (nthz report j = Some m) as -> by (unfold nthz; by rewrite (proj2 (Z.leb_le 0 j)) by lia). cbn [at_index mbind outcome_bind].
  assert (nthz report i = Some x) as Hnx by (unfold nthz; by rewrite (proj2 (Z.leb_le 0 i)) by lia).
  unfold alterz. rewrite Hnx. cbn [at_index mbind outcome_bind]. set (report' := <[Z.to_nat i := Z.land x m]> report).
  assert (length report' = length report) as Hl by apply length_insert.
  inversion_clear Hd as [|? ? Hni Hd'].
  destruct (IH report') as (r & Hrun & Hlr & Hk).
  { intros i' j' Hin. unfold lenz. rewrite Hl. apply Hr. by right. } { done. } { intros i' j' H1 H2. apply Hij; by right. }
  exists r. split; [done|]. split; [lia|]. intros k. rewrite Hk. cbn [list_find fst].
  destruct (decide (i = Z.of_nat k)) as [->|Hne].
  - rewrite Nat2Z.id in *. rewrite (proj2 (list_find_None _ _)).
    + unfold report'. rewrite ?Nat2Z.id, list_lookup_insert_eq by lia. by rewrite Hx, Hm.
    + apply Forall_forall. intros [i' j'] Hin E. cbn in E. subst i'. apply Hni. apply list_elem_of_fmap. by exists (Z.of_nat k, j').
  - destruct (list_find _ pairs) as [[p [i' j']]|] eqn:Ef; cbn.
    + apply list_find_Some in Ef as (Hp & E & _). cbn in E. subst i'.
      assert (report' !! k = report !! k) as -> by (apply list_lookup_insert_ne; lia).
      assert (i ≠ j') as Hij'.
      { apply Hij; [left|]. right. apply list_elem_of_fmap. exists (Z.of_nat k, j'). split; [done|]. by eapply list_elem_of_lookup_2. }
      destruct (Hr (Z.of_nat k) j') as [_ Hj']; [right; by eapply list_elem_of_lookup_2|].
      assert (report' !! Z.to_nat j' = report !! Z.to_nat j') as -> by (apply list_lookup_insert_ne; lia). done.
    + apply list_lookup_insert_ne. lia.
Qed.

Lemma mask_pairs_find k : list_find (λ e : Z * Z, e.1 = Z.of_nat k) mask_pairs =
  if decide (626 ≤ k < 630)%nat then Some ((k - 626)%nat, (Z.of_nat k, Z.of_nat (k + 4)))
  else if decide (634 ≤ k < 650)%nat then Some ((k - 630)%nat, (Z.of_nat k, Z.of_nat (k + 16)))
  else None.
Proof.
  case_decide as H1; [|case_decide as H2].
  - assert (k = 626 ∨ k = 627 ∨ k = 628 ∨ k = 629)%nat as Hk by lia. by destruct Hk as [->|[->|[->| ->]]].
  - assert (∃ d, (d < 16 ∧ k = 634 + d)%nat) as (d & Hd & ->) by (exists (k - 634)%nat; lia).
    do 16 (destruct d as [|d]; [reflexivity|]). lia.
  - apply list_find_None. unfold mask_pairs. cbn. repeat (apply Forall_cons; split; [cbn; lia|]). apply Forall_nil. done.
Qed.

Lemma mask_pairs_ok n : 822 <= n →
  (∀ i j, (i, j) ∈ mask_pairs → 0 <= i < n ∧ 0 <= j < n) ∧ NoDup mask_pairs.*1 ∧ (∀ i j, i ∈ mask_pairs.*1 → j ∈ mask_pairs.*2 → i ≠ j).
Proof.
  intros Hn. split_and!.
  - assert (Forall (λ e : Z * Z, 0 <= e.1 < 822 ∧ 0 <= e.2 < 822) mask_pairs) as H by (apply (bool_decide_eq_true_1 _); vm_compute; reflexivity).
    intros i j Hin. pose proof (proj1 (Forall_forall _ _) H _ Hin) as Hx. cbn in Hx. lia.
  - apply (bool_decide_eq_true_1 _). vm_compute. reflexivity.
  - assert (Forall (λ i, i ∉ mask_pairs.*2) mask_pairs.*1) as H by (apply (bool_decide_eq_true_1 _); vm_compute; reflexivity).
    intros i j Hi Hj ->. by apply (proj1 (Forall_forall _ _) H j).
Qed.

Lemma mask_report_spec report : lenz report = TD_VERIFIED_REPORT_SIZE →
  ∃ r, mask_verified_report_values report = Ok r ∧ length r = length report ∧ ∀ k, r !! k = masked_byte report k.
Proof.
  intros Hl. destruct (mask_pairs_ok (lenz report)) as (H1 & H2 & H3); [by rewrite Hl|].
  destruct (mask_loop_spec mask_pairs report H1 H2 H3) as (r & Hr & Hlr & Hk). exists r. split; [done|]. split; [done|].
  intros k. rewrite Hk, mask_pairs_find. unfold masked_byte, lenz, TD_VERIFIED_REPORT_SIZE in *.
  case_decide; [by rewrite Nat2Z.id|]. case_decide; [by rewrite Nat2Z.id|]. by destruct (report !! k).
Qed.

(** The report the library stored, as the crate reads it. *)
Definition stored_report (buf : bytes) : bytes := fit TD_VERIFIED_REPORT_SIZE buf.

Lemma verified_report_spec answer :
  verified_report answer ≠ Panic ∧
  ∀ r, verified_report answer = Ok r ↔
    answer.1.1 = 0 ∧ answer.2 = TD_VERIFIED_REPORT_SIZE ∧ length r = 822%nat ∧ ∀ k, r !! k = masked_byte (stored_report answer.1.2) k.
Proof.
  destruct answer as [[code buf] size]. cbn [fst snd]. unfold verified_report.
  destruct (Z.eqb_spec code 0) as [->|]; cbn [negb]; [|split; [done|]; by split; [|intros [? _]]].
  destruct (Z.eqb_spec size TD_VERIFIED_REPORT_SIZE) as [->|]; cbn [negb]; [|split; [done|]; by split; [|intros (_ & ? & _)]].
  rewrite slice_take by (rewrite lenz_fit by done; done). cbn [at_index mbind outcome_bind].
  assert (take (Z.to_nat TD_VERIFIED_REPORT_SIZE) (fit TD_REPORT_VERIFY_SIZE buf) = stored_report buf) as -> by (by apply fit_same).
  assert (lenz (stored_report buf) = TD_VERIFIED_REPORT_SIZE) as Hl by (by apply lenz_fit).
  destruct (mask_report_spec (stored_report buf) Hl) as (r0 & -> & Hl0 & Hk0). split; [done|]. intros r.
  assert (length r0 = 822%nat) as Hlen by (unfold lenz, TD_VERIFIED_REPORT_SIZE in Hl; lia). split.
  - intros [= <-]. done.
  - intros (_ & _ & Hlr & Hk). f_equal. apply list_eq. intros k. by rewrite Hk, Hk0.
Qed.

(** ** The root of trust *)

Section root.
Context `{D : Der} `{L : AttestLib}.

(** The key of the first certificate that has one. *)
Definition first_key (certs : list bytes) : option bytes := head (omap root_key_of certs).

Definition set_all (certs : list bytes) : option bytes := foldl (λ root cert, (set_ca cert root).2) None certs.

Lemma set_all_from root certs : foldl (λ root cert, (set_ca cert root).2) root certs =
  match root with Some k => Some k | None => first_key certs end.
Proof.
  revert root. induction certs as [|c certs IH]; intros root; cbn [foldl]; [by destruct root|]. rewrite IH.
  unfold set_ca, first_key. destruct root; [done|]. cbn. by destruct (root_key_of c).
Qed.

(** A verified report is the library's, under the root that was set first.
    After any sequence of root certificates, [verify_quote_with_collaterals] does
    not abort, and returns a report exactly when one of them was a certificate with
    a key, the library accepted the quote and the collateral under the key of the
    first such certificate with a report of the right size, and the report is the
    one the library stored with the quoting enclave's selection and attributes
    under their masks. *)
Theorem verified_under_first_root certs quote collateral :
  verify_quote_with_collaterals (set_all certs) quote collateral ≠ Panic ∧
  ∀ r, verify_quote_with_collaterals (set_all certs) quote collateral = Ok r ↔
    ∃ key buf, first_key certs = Some key ∧
      lib_verify_quote_integrity_ex quote key collateral = (0, buf, TD_VERIFIED_REPORT_SIZE) ∧
      length r = 822%nat ∧ ∀ k, r !! k = masked_byte (stored_report buf) k.
Proof.
  unfold set_all. rewrite set_all_from. unfold verify_quote_with_collaterals. destruct (first_key certs) as [key|]; cbn [or_err mbind outcome_bind].
  2: { split; [done|]. intros r. split; [done|]. by intros (? & ? & ? & _). }
  destruct (verified_report_spec (lib_verify_quote_integrity_ex quote key collateral)) as [Hn Hs]. split; [done|]. intros r.
  rewrite Hs. destruct (lib_verify_quote_integrity_ex quote key collateral) as [[code buf] size] eqn:El. cbn [fst snd]. split.
  - intros (-> & -> & Hl & Hk). exists key, buf. done.
  - intros (key' & buf' & [= <-] & Hlib & Hl & Hk). rewrite El in Hlib. injection Hlib as -> -> ->. done.
Qed.
End root.

(** ** A concrete host *)

Module AttestSample.

(** No notification: the status is in flight at the first read. *)
Definition host : QuoteHost :=
  mkQuoteHost true true false CallOk [] [GET_QUOTE_STATUS_IN_FLIGHT; 0] (quote_hdr 1 0 1024 3 ++ [7; 8; 9]).

Lemma host_bytes : bytes_ok (gh_buffer host).
Proof. apply (bool_decide_eq_true_1 _). vm_compute. reflexivity. Qed.

Lemma igvm_quote_safe_witness : get_quote_igvm host 0 (zeros 1024) = Ok [7; 8; 9] ∧
  final_status host = Some GET_QUOTE_STATUS_SUCCESS.
Proof.
  assert (get_quote_igvm host 0 (zeros 1024) = Ok [7; 8; 9]) as Hq by (vm_compute; reflexivity). split; [exact Hq|].
  destruct (igvm_quote_safe host 0 (zeros 1024) host_bytes) as [_ H]. apply (H _ Hq).
Defined.

(** A host that stays silent keeps the request waiting; a busy one is reported. *)
Lemma silent_host : get_quote_igvm (mkQuoteHost true true true CallOk [false] [] []) 0 (zeros 1024) = Err Pending.
Proof. vm_compute. reflexivity. Qed.

Lemma busy_host : get_quote_igvm (mkQuoteHost true true true CallOk [true] [GET_QUOTE_STATUS_ERROR] []) 0 (zeros 1024) = Err (Failed AttestError.Busy).
Proof. vm_compute. reflexivity. Qed.

End AttestSample.
