(* ===== verification/RaTls.v ===== *)
(** * RaTls: certificates that carry attestation

    src/migtd/src/ratls with the feature [policy_v2] and without the emulation
    and test features.  A side proves itself with a self-signed certificate: the
    hash of its key is the data of its quote (or TD report), which the
    certificate carries with the event log and the hash of the policy exchanged
    before.  rustls is a parameter: it gets the certificate, the key and the
    callback that judges the peer. *)
From stdpp Require Import base tactics numbers list list_numbers option strings.
From S2P Require Import Prelude MigData PreSession ServtdExt EventLog PolicyV2 Quote MigPolicy X509.
Local Open Scope Z_scope.

Module RatlsError.
Inductive t :=
  | GetQuote | VerifyQuote | TdxModule | Crypto (e : CryptoError.t) | X509 | InvalidEventlog | InvalidPolicy
  | GenerateCertificate.
End RatlsError.

(** ** Object identifiers and messages (mod.rs) *)

Definition EXTENDED_KEY_USAGE : ObjectIdentifier := [2; 5; 29; 37].
Definition MIGTD_EXTENDED_KEY_USAGE : ObjectIdentifier := [1; 2; 840; 113741; 1; 5; 5; 1; 1].
Definition EXTNID_MIGTD_QUOTE_REPORT : ObjectIdentifier := [1; 2; 840; 113741; 1; 5; 5; 1; 2].
Definition EXTNID_MIGTD_EVENT_LOG : ObjectIdentifier := [1; 2; 840; 113741; 1; 5; 5; 1; 3].
Definition EXTNID_MIGTD_POLICY_HASH : ObjectIdentifier := [1; 2; 840; 113741; 1; 5; 5; 1; 4].
Definition EXTNID_MIGTD_TDREPORT : ObjectIdentifier := [1; 2; 840; 113741; 1; 5; 5; 1; 5].
Definition EXTNID_MIGTD_SERVTD_EXT : ObjectIdentifier := [1; 2; 840; 113741; 1; 5; 5; 1; 6].
Definition EXTNID_MIGTD_TDREPORT_INIT : ObjectIdentifier := [1; 2; 840; 113741; 1; 5; 5; 1; 7].
Definition ID_EC_PUBKEY_OID : ObjectIdentifier := [1; 2; 840; 10045; 2; 1].
Definition SECP384R1_OID : ObjectIdentifier := [1; 3; 132; 0; 34].
Definition KEY_USAGE_EXTENSION : ObjectIdentifier := [2; 5; 29; 15].
Definition SERVER_AUTH : ObjectIdentifier := [1; 3; 6; 1; 5; 5; 7; 3; 1].
Definition CLIENT_AUTH : ObjectIdentifier := [1; 3; 6; 1; 5; 5; 7; 3; 2].
Definition ID_EC_SIG_OID : ObjectIdentifier := [1; 2; 840; 10045; 4; 3; 3].

Definition MIG_POLICY_UNSATISFIED_ERROR : string := "PolicyUnsatisfiedError".
Definition INVALID_MIG_POLICY_ERROR : string := "InvalidPolicyError".
Definition MUTUAL_ATTESTATION_ERROR : string := "MutualAttestationError".
Definition MISMATCH_PUBLIC_KEY : string := "MismatchPublicKeyError".

Section ratls.
Context `{Der} `{Ring} `{PolicyJson} `{PolicyCrypto} `{Attestation} `{CcLog} {FT : Features}.

(** The verified local policy, the policy issuer chain and the policy of the
    configuration volume, and the event log area. *)
Context (VERIFIED_POLICY : option VerifiedPolicy) (local_issuer_chain local_policy : option bytes) (event_log_area : bytes).

Notation RM := (M QuoteWorld RatlsError.t).
Notation CM := (M QuoteWorld CryptoError.t).

(** [?] of a [CryptoError] and of a [DerError]. *)
Definition crypto {A} (r : CResult A) : RM A :=
  match r with Ok a => mret a | Err e => failM (RatlsError.Crypto e) | Panic => panicM end.
Definition der {A} (o : option A) : RM A := ok_or o RatlsError.X509.

(** ** Evidence *)

(** [additional_data[..hash.len()].copy_from_slice(hash)] *)
Definition prepare_report_data (public_key : bytes) : RM bytes :=
  hash ← crypto (digest_sha384 public_key);
  or_panic (write_at (zeros 64) 0 hash).

(** [map_err(|_| e)] of the TDX module and the quoting service. *)
Definition on_quote {A} (e : RatlsError.t) (m : M QuoteWorld (aerr QuoteError.t) A) : RM A := λ w,
  match m w with
  | (Ok a, w') => (Ok a, w')
  | (Err _, w') => (Err e, w')
  | (Panic, w') => (Panic, w')
  end.

Definition gen_quote (public_key : bytes) : RM bytes :=
  additional_data ← prepare_report_data public_key;
  q ← on_quote RatlsError.GetQuote (get_quote_with_retry additional_data);
  mret q.1.

Definition gen_tdreport (public_key : bytes) : RM bytes :=
  additional_data ← prepare_report_data public_key;
  on_quote RatlsError.TdxModule (tdcall_report additional_data).

(** ** Certificates *)

Definition create_eku : RM bytes := der (oids_to_der [SERVER_AUTH; CLIENT_AUTH; MIGTD_EXTENDED_KEY_USAGE]).

Definition create_key_usage : RM bytes := b ← der (bit_string_new [0x80]); der (bits_to_der b).

Definition extend (id : ObjectIdentifier) (crit : bool) (value : bytes) (c : Certificate) : RM Certificate :=
  e ← der (Extension_new id (Some crit) (Some value)); mret (add_extension e c).

Definition create_tls_tbs_common (public_key key_usage eku : bytes) : RM Certificate :=
  params ← der (any_new TAG_OBJECT_IDENTIFIER (oid_as_bytes SECP384R1_OID));
  event_log ← match get_event_log event_log_area with
              | Ok l => mret l | Err _ => failM RatlsError.InvalidEventlog | Panic => panicM end;
  c ← der (Certificate_new (mkAlg ID_EC_SIG_OID None) (mkAlg ID_EC_PUBKEY_OID (Some params)) public_key);
  c ← der (set_not_before 0 c);
  c ← der (set_not_after 253402300799 c);
  c ← extend KEY_USAGE_EXTENSION true key_usage c;
  c ← extend EXTENDED_KEY_USAGE false eku c;
  extend EXTNID_MIGTD_EVENT_LOG false event_log c.

Definition sign_tls_tbs (rand : Z) (c : Certificate) (signing_key : EcdsaPk) : RM bytes :=
  tbs ← der (tbs_to_der (tbs_certificate c));
  sig ← crypto (ecdsa_pk_sign rand signing_key tbs);
  c ← der (set_signature sig c);
  der (cert_to_der c).

Definition policy_hash : RM bytes :=
  blob ← ok_or (local_peer_data local_policy local_issuer_chain) RatlsError.InvalidPolicy;
  crypto (digest_sha384 blob).

Definition create_certificate_for_server (rand : Z) (signing_key : EcdsaPk) : RM (bytes * bytes) :=
  pub_key ← crypto (public_key signing_key);
  quote ← gen_quote pub_key;
  policy_hash ← policy_hash;
  eku ← create_eku;
  key_usage ← create_key_usage;
  c ← create_tls_tbs_common pub_key key_usage eku;
  c ← extend EXTNID_MIGTD_QUOTE_REPORT false quote c;
  c ← extend EXTNID_MIGTD_POLICY_HASH false policy_hash c;
  x509_cert_der ← sign_tls_tbs rand c signing_key;
  mret (x509_cert_der, quote).

(** [create_certificate_for_client] has the same body. *)
Definition create_certificate_for_client (rand : Z) (signing_key : EcdsaPk) : RM (bytes * bytes) :=
  pub_key ← crypto (public_key signing_key);
  quote ← gen_quote pub_key;
  policy_hash ← policy_hash;
  eku ← create_eku;
  key_usage ← create_key_usage;
  c ← create_tls_tbs_common pub_key key_usage eku;
  c ← extend EXTNID_MIGTD_QUOTE_REPORT false quote c;
  c ← extend EXTNID_MIGTD_POLICY_HASH false policy_hash c;
  x509_cert_der ← sign_tls_tbs rand c signing_key;
  mret (x509_cert_der, quote).

Definition create_certificate_for_rebinding_old (rand : Z) (signing_key : EcdsaPk) (init_tdinfo servtd_ext : bytes) : RM bytes :=
  pub_key ← crypto (public_key signing_key);
  tdreport ← gen_tdreport pub_key;
  policy_hash ← policy_hash;
  eku ← create_eku;
  key_usage ← create_key_usage;
  c ← create_tls_tbs_common pub_key key_usage eku;
  c ← extend EXTNID_MIGTD_TDREPORT false tdreport c;
  c ← extend EXTNID_MIGTD_POLICY_HASH false policy_hash c;
  c ← extend EXTNID_MIGTD_SERVTD_EXT false servtd_ext c;
  c ← extend EXTNID_MIGTD_TDREPORT_INIT false init_tdinfo c;
  sign_tls_tbs rand c signing_key.

Definition create_certificate_for_rebinding_new (rand : Z) (signing_key : EcdsaPk) : RM bytes :=
  pub_key ← crypto (public_key signing_key);
  tdreport ← gen_tdreport pub_key;
  policy_hash ← policy_hash;
  eku ← create_eku;
  key_usage ← create_key_usage;
  c ← create_tls_tbs_common pub_key key_usage eku;
  c ← extend EXTNID_MIGTD_TDREPORT false tdreport c;
  c ← extend EXTNID_MIGTD_POLICY_HASH false policy_hash c;
  sign_tls_tbs rand c signing_key.

(** ** The judgement on a peer's certificate *)

Fixpoint check_migtd_eku (exts : list Extension) : CResult unit :=
  match exts with
  | [] => Err CryptoError.ParseCertificate
  | extn :: exts =>
      if bool_decide (extn_id extn = EXTENDED_KEY_USAGE) then
        match extn_value extn with
        | Some v =>
            eku ← or_err (oids_from_der v) CryptoError.GenerateCertificate;
            if bool_decide (MIGTD_EXTENDED_KEY_USAGE ∈ eku) then Ok tt else check_migtd_eku exts
        | None => check_migtd_eku exts
        end
      else check_migtd_eku exts
  end.

(** The first extension of the name that has a value. *)
Fixpoint find_extension (exts : list Extension) (id : ObjectIdentifier) : option bytes :=
  match exts with
  | [] => None
  | extn :: exts =>
      if bool_decide (extn_id extn = id) then
        match extn_value extn with Some v => Some v | None => find_extension exts id end
      else find_extension exts id
  end.

Definition PUBLIC_KEY_HASH_SIZE : Z := 48.

Definition verify_public_key (verified_report public_key : bytes) : CResult unit :=
  match slice verified_report 520 (520 + PUBLIC_KEY_HASH_SIZE) with
  | None => Panic
  | Some report_data =>
      digest ← digest_sha384 public_key;
      require (bool_decide (report_data = digest)) (CryptoError.TlsVerifyPeerCert MISMATCH_PUBLIC_KEY)
  end.

Definition verify_public_key_with_tdreport (tdreport public_key : bytes) : CResult unit :=
  tdx_report ← or_err (TdxReport_read_from_bytes tdreport) (CryptoError.TlsVerifyPeerCert MISMATCH_PUBLIC_KEY);
  match slice (rm_report_data tdx_report) 0 PUBLIC_KEY_HASH_SIZE with
  | None => Panic
  | Some report_data =>
      digest ← digest_sha384 public_key;
      require (bool_decide (report_data = digest)) (CryptoError.TlsVerifyPeerCert MISMATCH_PUBLIC_KEY)
  end.

(** [verify_signature] and [verify_signature_with_tdreport] differ in the check
    of the key. *)
Definition verify_signature_by (verify_key : bytes → CResult unit) (cert : Certificate) : CResult unit :=
  public_key ← or_err (bits_as_bytes (subject_public_key (subject_public_key_info (tbs_certificate cert)))) CryptoError.ParseCertificate;
  tbs ← or_err (tbs_to_der (tbs_certificate cert)) CryptoError.GenerateCertificate;
  sig ← or_err (bits_as_bytes (signature_value cert)) CryptoError.ParseCertificate;
  _ ← verify_key public_key;
  ecdsa_verify public_key tbs sig.

Definition verify_signature (cert : Certificate) (verified_report : bytes) : CResult unit :=
  verify_signature_by (verify_public_key verified_report) cert.
Definition verify_signature_with_tdreport (cert : Certificate) (tdreport : bytes) : CResult unit :=
  verify_signature_by (verify_public_key_with_tdreport tdreport) cert.

(** The parts of the certificate every check starts with. *)
Definition open_cert (cert : bytes) : CResult (Certificate * list Extension) :=
  cert ← or_err (cert_from_der cert) CryptoError.ParseCertificate;
  exts ← or_err (extensions (tbs_certificate cert)) CryptoError.ParseCertificate;
  _ ← check_migtd_eku exts;
  Ok (cert, exts).

Definition extension (exts : list Extension) (id : ObjectIdentifier) : CResult bytes :=
  or_err (find_extension exts id) CryptoError.ParseCertificate.

Definition check_policy_hash (expected_policy_hash peer_data : bytes) : CResult unit :=
  exact_policy_hash ← digest_sha384 peer_data;
  require (bool_decide (expected_policy_hash = exact_policy_hash)) (CryptoError.TlsVerifyPeerCert INVALID_MIG_POLICY_ERROR).

(** [policy_check_result.map_err(..)] *)
Definition policy_checked {A} (m : M QuoteWorld PolicyError.t A) : CM A := λ w,
  match m w with
  | (Ok a, w') => (Ok a, w')
  | (Err PolicyError.InvalidPolicy, w') => (Err (CryptoError.TlsVerifyPeerCert INVALID_MIG_POLICY_ERROR), w')
  | (Err _, w') => (Err (CryptoError.TlsVerifyPeerCert MIG_POLICY_UNSATISFIED_ERROR), w')
  | (Panic, w') => (Panic, w')
  end.

(** The hash the policy checks use. *)
Definition sha_option (data : bytes) : option bytes := match digest_sha384 data with Ok d => Some d | _ => None end.

Definition verify_peer_cert (is_client : bool) (cert peer_data : bytes) : CM unit :=
  p ← liftO (open_cert cert);
  quote_report ← liftO (extension p.2 EXTNID_MIGTD_QUOTE_REPORT);
  event_log ← liftO (extension p.2 EXTNID_MIGTD_EVENT_LOG);
  expected_policy_hash ← liftO (extension p.2 EXTNID_MIGTD_POLICY_HASH);
  _ ← liftO (check_policy_hash expected_policy_hash peer_data);
  suppl_data ← policy_checked (authenticate_remote sha_option VERIFIED_POLICY local_issuer_chain
                                 is_client quote_report peer_data event_log);
  liftO (verify_signature p.1 suppl_data).

Definition verify_server_cert : bytes → bytes → CM unit := verify_peer_cert true.
Definition verify_client_cert : bytes → bytes → CM unit := verify_peer_cert false.

Definition verify_rebinding_old_cert (cert peer_data : bytes) : CM unit :=
  p ← liftO (open_cert cert);
  td_report ← liftO (extension p.2 EXTNID_MIGTD_TDREPORT);
  event_log ← liftO (extension p.2 EXTNID_MIGTD_EVENT_LOG);
  expected_policy_hash ← liftO (extension p.2 EXTNID_MIGTD_POLICY_HASH);
  init_tdinfo ← liftO (extension p.2 EXTNID_MIGTD_TDREPORT_INIT);
  servtd_ext ← liftO (extension p.2 EXTNID_MIGTD_SERVTD_EXT);
  _ ← liftO (check_policy_hash expected_policy_hash peer_data);
  suppl_data ← policy_checked (authenticate_rebinding_old sha_option VERIFIED_POLICY local_issuer_chain
                                 td_report event_log peer_data init_tdinfo servtd_ext);
  liftO (verify_signature_with_tdreport p.1 suppl_data).

Definition verify_rebinding_new_cert (cert peer_data : bytes) : CM unit :=
  p ← liftO (open_cert cert);
  td_report ← liftO (extension p.2 EXTNID_MIGTD_TDREPORT);
  event_log ← liftO (extension p.2 EXTNID_MIGTD_EVENT_LOG);
  expected_policy_hash ← liftO (extension p.2 EXTNID_MIGTD_POLICY_HASH);
  _ ← liftO (check_policy_hash expected_policy_hash peer_data);
  suppl_data ← policy_checked (authenticate_rebinding_new sha_option VERIFIED_POLICY local_issuer_chain
                                 td_report event_log peer_data);
  liftO (verify_signature_with_tdreport p.1 suppl_data).

(** ** Sessions *)

(** [TlsConfig]: the resolver's certificates and key, the verifier's callback
    and its data. *)
Record TlsConfig := mkTlsConfig {
  certs : list bytes; signing_key : EcdsaPk; cb : bytes → bytes → CM unit; cb_data : bytes }.

(** rustls over a stream. *)
Context {T SC : Type} (tls_server tls_client : TlsConfig → T → CResult SC).

Definition server (rand rand' : Z) (stream : T) (peer_data : bytes) : RM SC :=
  signing_key ← crypto (EcdsaPk_new rand);
  c ← create_certificate_for_server rand' signing_key;
  crypto (tls_server (mkTlsConfig [c.1] signing_key verify_client_cert peer_data) stream).

Definition client (rand rand' : Z) (stream : T) (peer_data : bytes) : RM SC :=
  signing_key ← crypto (EcdsaPk_new rand);
  c ← create_certificate_for_client rand' signing_key;
  crypto (tls_client (mkTlsConfig [c.1] signing_key verify_server_cert peer_data) stream).

Definition server_rebinding (rand rand' : Z) (stream : T) (peer_data : bytes) : RM SC :=
  signing_key ← crypto (EcdsaPk_new rand);
  c ← create_certificate_for_rebinding_new rand' signing_key;
  crypto (tls_server (mkTlsConfig [c] signing_key verify_rebinding_old_cert peer_data) stream).

Definition client_rebinding (rand rand' : Z) (stream : T) (peer_data init_tdinfo servtd_ext : bytes) : RM SC :=
  signing_key ← crypto (EcdsaPk_new rand);
  c ← create_certificate_for_rebinding_old rand' signing_key init_tdinfo servtd_ext;
  crypto (tls_client (mkTlsConfig [c] signing_key verify_rebinding_new_cert peer_data) stream).

End ratls.
