(* ===== verification/RaTlsSpec.v ===== *)
(** * RaTlsSpec: what an accepted certificate shows

    Soundness and completeness of the judgement on a peer's certificate: the key
    of an accepted certificate is the one the attested peer had measured into
    its quote, and the certificates this program makes are accepted (RaTls). *)
From stdpp Require Import base tactics numbers list list_numbers option strings.
From S2P Require Import Prelude MigData PreSession ServtdExt EventLog PolicyV2 PolicyV2Spec Quote MigPolicy MigPolicySpec.
From S2P Require Import X509 X509Spec RaTls.
Local Open Scope Z_scope.

Section spec.
Context `{DR : Der} `{RG : Ring} `{J : PolicyJson} `{C : PolicyCrypto} `{A : Attestation} `{L : CcLog} {FT : Features}.

Lemma digest_Ok data : digest_sha384 data = Ok (X509.sha384 data).
Proof. unfold digest_sha384, SHA384_DIGEST_SIZE. by rewrite length_sha384. Qed.

Lemma sha_option_Some data : sha_option data = Some (X509.sha384 data).
Proof. unfold sha_option. by rewrite digest_Ok. Qed.

Lemma sha_option_len data d : sha_option data = Some d → length d = 48%nat.
Proof. rewrite sha_option_Some. intros [= <-]. pose proof (length_sha384 data) as Hl. unfold lenz in Hl. lia. Qed.

(** ** Extensions *)

(** Some extended key usage of the list names the migration TD. *)
Definition has_migtd_eku (exts : list Extension) : Prop :=
  ∃ e v eku, e ∈ exts ∧ extn_id e = EXTENDED_KEY_USAGE ∧ extn_value e = Some v ∧ oids_from_der v = Some eku ∧
    MIGTD_EXTENDED_KEY_USAGE ∈ eku.

Lemma check_eku_sound exts : check_migtd_eku exts = Ok tt → has_migtd_eku exts.
Proof.
  induction exts as [|e exts IH]; cbn [check_migtd_eku]; [done|]. intros E.
  assert (check_migtd_eku exts = Ok tt → has_migtd_eku (e :: exts)) as Hr.
  { intros (e' & v & eku & Hin & Hrest)%IH. exists e', v, eku. split; [by right|done]. }
  case_bool_decide as Hid; [|by auto]. destruct (extn_value e) as [v|] eqn:Ev; [|by auto].
  apply bind_Ok in E as (eku & Heku%or_err_Ok & E). case_bool_decide; [|by auto].
  exists e, v, eku. split; [left|done].
Qed.

Lemma check_eku_no_panic exts : check_migtd_eku exts ≠ Panic.
Proof.
  induction exts as [|e exts IH]; cbn [check_migtd_eku]; [done|]. case_bool_decide; [|done]. destruct (extn_value e); [|done].
  apply bind_no_panic; [apply or_err_no_panic|]. intros eku _. by case_bool_decide.
Qed.

Lemma open_cert_Ok cert c exts : open_cert cert = Ok (c, exts) →
  cert_from_der cert = Some c ∧ extensions (tbs_certificate c) = Some exts ∧ has_migtd_eku exts.
Proof.
  intros E. unfold open_cert in E. do 3 step E. destruct a1. apply check_eku_sound in Hs1. by injection E as <- <-.
Qed.

Lemma open_cert_no_panic cert : open_cert cert ≠ Panic.
Proof.
  unfold open_cert. do 2 (apply bind_no_panic; [apply or_err_no_panic|intros ? _]).
  apply bind_no_panic; [apply check_eku_no_panic|done].
Qed.

Lemma check_policy_hash_Ok h pd : check_policy_hash h pd = Ok tt ↔ h = X509.sha384 pd.
Proof. unfold check_policy_hash. rewrite digest_Ok. cbn. by rewrite require_Ok, bool_decide_eq_true. Qed.

Lemma check_policy_hash_no_panic h pd : check_policy_hash h pd ≠ Panic.
Proof. unfold check_policy_hash. rewrite digest_Ok. apply require_no_panic. Qed.

Lemma policy_checked_Ok {X} (m : M QuoteWorld PolicyError.t X) w a w' : policy_checked m w = (Ok a, w') ↔ m w = (Ok a, w').
Proof. unfold policy_checked. destruct (m w) as [[|[]|] ?]; split; congruence. Qed.

Lemma policy_checked_panic {X} (m : M QuoteWorld PolicyError.t X) w : (policy_checked m w).1 = Panic → (m w).1 = Panic.
Proof. unfold policy_checked. by destruct (m w) as [[|[]|] ?]. Qed.

(** ** Keys and signatures *)

(** The certificate is signed by its own key [key]. *)
Definition self_signed (c : Certificate) (key : bytes) : Prop :=
  ∃ tbs sig, bits_as_bytes (subject_public_key (subject_public_key_info (tbs_certificate c))) = Some key ∧
    tbs_to_der (tbs_certificate c) = Some tbs ∧ bits_as_bytes (signature_value c) = Some sig ∧
    ring_verify ECDSA_P384_SHA384_ASN1 key tbs sig = true.

Lemma signature_by_Ok f c : verify_signature_by f c = Ok tt ↔ ∃ key, self_signed c key ∧ f key = Ok tt.
Proof.
  unfold verify_signature_by, self_signed, ecdsa_verify, ecdsa_verify_with_algorithm. split.
  - intros E. do 4 step E. destruct a2. apply require_Ok in E. exists a. split; [|done]. by exists a0, a1.
  - intros (key & (tbs & sig & -> & -> & -> & Hv) & Hf). cbn. rewrite Hf. cbn. by rewrite Hv.
Qed.

Lemma verify_key_Ok r key : verify_public_key r key = Ok tt ↔ slice r 520 568 = Some (X509.sha384 key).
Proof.
  unfold verify_public_key, PUBLIC_KEY_HASH_SIZE. change (520 + 48) with 568. destruct (slice r 520 568) as [d|]; [|done].
  rewrite digest_Ok. cbn. rewrite require_Ok, bool_decide_eq_true. naive_solver.
Qed.

Lemma verify_key_tdreport_Ok r key : verify_public_key_with_tdreport r key = Ok tt ↔
  ∃ x, TdxReport_read_from_bytes r = Some x ∧ take 48 (rm_report_data x) = X509.sha384 key.
Proof.
  unfold verify_public_key_with_tdreport, PUBLIC_KEY_HASH_SIZE. split.
  - intros E. step E. pose proof (length_report_data _ _ Hs) as Hl. rewrite slice_take, digest_Ok in E by lia.
    cbn in E. apply require_Ok, bool_decide_eq_true in E. by exists a.
  - intros (x & Hx & Hd). pose proof (length_report_data _ _ Hx) as Hl. rewrite Hx. cbn [or_err mbind outcome_bind].
    rewrite slice_take, digest_Ok by lia. cbn. by rewrite require_Ok, bool_decide_eq_true.
Qed.

(** ** Soundness *)

Context (VP : option VerifiedPolicy) (chain : option bytes).

(** What the certificate of a migration peer shows: its own key, of which the
    hash is the data of the verified quote it carries, and the evidence. *)
Record cert_shows (cert pd : bytes) (quote log suppl key : bytes) : Prop := {
  cs_cert : ∃ c exts, cert_from_der cert = Some c ∧ extensions (tbs_certificate c) = Some exts ∧ has_migtd_eku exts ∧
    find_extension exts EXTNID_MIGTD_QUOTE_REPORT = Some quote ∧ find_extension exts EXTNID_MIGTD_EVENT_LOG = Some log ∧
    find_extension exts EXTNID_MIGTD_POLICY_HASH = Some (X509.sha384 pd) ∧ self_signed c key;
  cs_key : slice suppl 520 568 = Some (X509.sha384 key) }.

Lemma peer_cert_accepts is_client cert pd w u w' :
  verify_peer_cert VP chain is_client cert pd w = (Ok u, w') →
  ∃ quote log suppl key lp mp pc vp e rel,
    cert_shows cert pd quote log suppl key ∧
    VP = Some lp ∧ decode_peer_data pd = Some (mp, pc) ∧
    peer_attested sha_option chain lp quote log mp pc suppl vp e ∧ local_info lp w w' rel ∧
    satisfies (pd_policy (policy_data lp)) e rel false ∧
    satisfies (if is_client then forward_policy (policy_data lp) else backward_policy (policy_data lp)) e rel false.
Proof.
  intros E. unfold verify_peer_cert, extension in E. step E. destruct a as [c exts]. cbn [fst snd] in *.
  step E. apply or_err_Ok in Hs0. step E. apply or_err_Ok in Hs1. step E. apply or_err_Ok in Hs2.
  step E. destruct a2. apply check_policy_hash_Ok in Hs3 as ->. step E. rename Hs3 into Hauth. apply policy_checked_Ok in Hauth.
  apply liftO_Ok in E as [E ->]. destruct u. apply signature_by_Ok in E as (key & Hself & Hkey%verify_key_Ok).
  destruct (remote_accepts sha_option sha_option_len _ _ _ _ _ _ _ _ _ Hauth) as (lp & mp & pc & vp & e & rel & H1 & H2 & H3 & H4 & H5 & H6 & _).
  apply open_cert_Ok in Hs as (Hc & He & Hu).
  exists a, a0, a1, key, lp, mp, pc, vp, e, rel. split_and!; try done. split; [|done]. by exists c, exts.
Qed.

(** C14 A migration peer's certificate is accepted only when it is signed by its
    own key, names the migration TD as key usage, carries the hash of the policy
    data received before the session, and holds a quote and an event log that
    authenticate the peer under the local policy, where the verified quote was
    made for the hash of exactly that key. *)
Theorem peer_cert_sound is_client cert pd w u w' :
  verify_peer_cert VP chain is_client cert pd w = (Ok u, w') →
  ∃ quote log suppl key lp mp pc vp e rel,
    cert_shows cert pd quote log suppl key ∧
    VP = Some lp ∧ decode_peer_data pd = Some (mp, pc) ∧
    peer_attested sha_option chain lp quote log mp pc suppl vp e ∧ local_info lp w w' rel ∧
    satisfies (pd_policy (policy_data lp)) e rel false ∧
    satisfies (if is_client then forward_policy (policy_data lp) else backward_policy (policy_data lp)) e rel false.
Proof. apply peer_cert_accepts. Qed.

(** The report of a rebinding side. *)
Record rebind_cert_shows (cert pd : bytes) (report log key : bytes) (r : TdxReport) : Prop := {
  rs_cert : ∃ c exts, cert_from_der cert = Some c ∧ extensions (tbs_certificate c) = Some exts ∧ has_migtd_eku exts ∧
    find_extension exts EXTNID_MIGTD_TDREPORT = Some report ∧ find_extension exts EXTNID_MIGTD_EVENT_LOG = Some log ∧
    find_extension exts EXTNID_MIGTD_POLICY_HASH = Some (X509.sha384 pd) ∧ self_signed c key;
  rs_key : take 48 (rm_report_data r) = X509.sha384 key }.

(** Either side of a rebinding likewise, with a verified TD report in place of a
    quote. *)
Lemma rebinding_new_cert_sound cert pd w u w' :
  verify_rebinding_new_cert VP chain cert pd w = (Ok u, w') →
  ∃ report log key r lp mp pc vp e rel,
    rebind_cert_shows cert pd report log key r ∧ VP = Some lp ∧ decode_peer_data pd = Some (mp, pc) ∧
    rebind_attested sha_option chain lp report log mp pc r vp e ∧ local_info lp w w' rel ∧
    policy_svn (policy_data lp) <= policy_svn (policy_data vp).
Proof.
  intros E. unfold verify_rebinding_new_cert, extension in E. step E. destruct a as [c exts]. cbn [fst snd] in *.
  step E. apply or_err_Ok in Hs0. step E. apply or_err_Ok in Hs1. step E. apply or_err_Ok in Hs2.
  step E. destruct a2. apply check_policy_hash_Ok in Hs3 as ->. step E. rename Hs3 into Hauth. apply policy_checked_Ok in Hauth.
  apply liftO_Ok in E as [E ->]. destruct u. apply signature_by_Ok in E as (key & Hself & (x & Hx & Hkey)%verify_key_tdreport_Ok).
  destruct (rebinding_new_sound sha_option sha_option_len _ _ _ _ _ _ _ _ Hauth)
    as (lp & mp & pc & r & vp & e & rel & H1 & H2 & H3 & H4 & _ & _ & H5 & ->).
  rewrite (read_as_bytes _ _ (rv_read _ _ _ (ra_report _ _ _ _ _ _ _ _ _ _ H3))) in Hx. injection Hx as <-.
  apply open_cert_Ok in Hs as (Hc & He & Hu).
  exists a, a0, key, r, lp, mp, pc, vp, e, rel. split_and!; try done. split; [|done]. by exists c, exts.
Qed.

(** The new migration TD accepts the old one's certificate only when it is
    signed by its own key, carries the hash of the policy data received before
    the session and a TD report, verified by the TDX module, that was made for
    the hash of exactly that key, and the initial TDINFO and extension in it
    satisfy the checks of a rebinding. *)
Theorem rebinding_old_cert_sound cert pd w u w' :
  verify_rebinding_old_cert VP chain cert pd w = (Ok u, w') →
  ∃ report log key r lp mp pc vp e rel init ext x ti,
    rebind_cert_shows cert pd report log key r ∧ VP = Some lp ∧ decode_peer_data pd = Some (mp, pc) ∧
    rebind_attested sha_option chain lp report log mp pc r vp e ∧ local_info lp w w' rel ∧
    init_consistent init (take 48 (drop 112 (td_info r))) (take 48 (drop 160 (td_info r))) ∧
    ext_read_from_bytes ext = Some x ∧ info_matches sha_option init (le_val (init_attr x)) (init_servtd_info_hash x) ti ∧
    init_known lp ti.
Proof.
  intros E. unfold verify_rebinding_old_cert, extension in E. step E. destruct a as [c exts]. cbn [fst snd] in *.
  step E. apply or_err_Ok in Hs0. step E. apply or_err_Ok in Hs1. step E. apply or_err_Ok in Hs2.
  step E. apply or_err_Ok in Hs3. step E. apply or_err_Ok in Hs4.
  step E. destruct a4. apply check_policy_hash_Ok in Hs5 as ->. step E. rename Hs5 into Hauth. apply policy_checked_Ok in Hauth.
  apply liftO_Ok in E as [E ->]. destruct u. apply signature_by_Ok in E as (key & Hself & (y & Hy & Hkey)%verify_key_tdreport_Ok).
  destruct (rebinding_old_accepts sha_option sha_option_len _ _ _ _ _ _ _ _ _ _ Hauth)
    as (lp & mp & pc & r & vp & e & rel & x & ti & H1 & H2 & H3 & H4 & H5 & H6 & H7 & H8 & _ & ->).
  rewrite (read_as_bytes _ _ (rv_read _ _ _ (ra_report _ _ _ _ _ _ _ _ _ _ H3))) in Hy. injection Hy as <-.
  apply open_cert_Ok in Hs as (Hc & He & Hu).
  exists a, a0, key, r, lp, mp, pc, vp, e, rel, a2, a3, x, ti. split_and!; try done. split; [|done]. by exists c, exts.
Qed.

(** ** Aborts *)

Lemma signature_by_no_panic f c : (∀ key, f key ≠ Panic) → verify_signature_by f c ≠ Panic.
Proof.
  intros Hf. unfold verify_signature_by. do 3 (apply bind_no_panic; [apply or_err_no_panic|intros ? _]).
  apply bind_no_panic; [done|intros _ _]. apply require_no_panic.
Qed.

Lemma verify_key_no_panic r key : REPORT_DATA_SIZE <= lenz r → verify_public_key r key ≠ Panic.
Proof.
  intros Hr. unfold verify_public_key, PUBLIC_KEY_HASH_SIZE. unfold REPORT_DATA_SIZE in Hr.
  destruct (slice_is_Some r 520 (520 + 48)) as [d ->]; [lia|lia|]. rewrite digest_Ok. apply require_no_panic.
Qed.

(** No certificate and no policy data of a peer makes the judgement abort,
    except through one thing: an event log in the certificate with a firmware
    blob event without data. *)
Theorem peer_cert_aborts_only_on_blob is_client cert pd w :
  (verify_peer_cert VP chain is_client cert pd w).1 = Panic →
  ∃ c exts log, cert_from_der cert = Some c ∧ extensions (tbs_certificate c) = Some exts ∧
    find_extension exts EXTNID_MIGTD_EVENT_LOG = Some log ∧ empty_blob_event log.
Proof.
  unfold verify_peer_cert, extension. intros E.
  apply bind_M_panic in E as [E|([c exts] & w1 & [Hc ->]%liftO_Ok & E)]; [by apply open_cert_no_panic in E|].
  apply open_cert_Ok in Hc as (Hc & He & _). cbn [fst snd] in E.
  apply bind_M_panic in E as [E|(quote & ? & [Hq ->]%liftO_Ok & E)]; [by apply or_err_no_panic in E|].
  apply bind_M_panic in E as [E|(log & ? & [Hl ->]%liftO_Ok & E)]; [by apply or_err_no_panic in E|].
  apply bind_M_panic in E as [E|(h & ? & [_ ->]%liftO_Ok & E)]; [by apply or_err_no_panic in E|].
  apply bind_M_panic in E as [E|(? & ? & [_ ->]%liftO_Ok & E)]; [by apply check_policy_hash_no_panic in E|].
  apply or_err_Ok in Hl. exists c, exts, log. split_and!; [done..|].
  apply bind_M_panic in E as [E|(suppl & w2 & Ha & E)].
  - apply policy_checked_panic in E. by apply (remote_panics sha_option sha_option_len) in E.
  - exfalso. apply policy_checked_Ok in Ha.
    destruct (remote_accepts sha_option sha_option_len _ _ _ _ _ _ _ _ _ Ha) as (lp & mp & pc & vp & e & rel & _ & _ & H3 & _).
    destruct (pa_measured _ _ _ _ _ _ _ _ _ _ H3) as (n & l & rtmrs & _ & [Hlen _] & _).
    revert E. cbn. apply signature_by_no_panic. intros key. by apply verify_key_no_panic.
Qed.

(** ** Completeness *)

Lemma crypto_Ok {X} (r : CResult X) w x w' : crypto r w = (Ok x, w') ↔ r = Ok x ∧ w' = w.
Proof. destruct r; cbn; unfold mret, M_ret, failM, panicM; naive_solver. Qed.

Lemma der_Ok {X} (o : option X) w x w' : der o w = (Ok x, w') ↔ o = Some x ∧ w' = w.
Proof. destruct o; cbn; unfold mret, M_ret, failM; naive_solver. Qed.

Lemma extend_Ok id crit v c w c' w' :
  extend id crit v c w = (Ok c', w') → c' = add_extension (mkExtension id (Some crit) (Some v)) c ∧ w' = w.
Proof.
  unfold extend. intros (e & w1 & [He ->]%der_Ok & E)%M_bind_Ok_inv. injection E as <- <-. split; [|done].
  unfold Extension_new, octet_string_new in He. destruct (der_fits v); [|done]. by injection He as <-.
Qed.

Lemma prepare_Ok key w d w' : prepare_report_data key w = (Ok d, w') → d = X509.sha384 key ++ zeros 16 ∧ w' = w.
Proof.
  unfold prepare_report_data. rewrite digest_Ok. intros (h & w1 & [[= <-] ->]%crypto_Ok & E)%M_bind_Ok_inv.
  pose proof (length_sha384 key) as Hl. rewrite write_at_Some in E by (rewrite ?Hl, ?lenz_zeros; lia). injection E as <- <-.
  split; [|done]. cbn [Z.to_nat take Nat.add app]. f_equal. unfold zeros. rewrite drop_replicate. f_equal. unfold lenz in Hl. lia.
Qed.

Lemma cert_new_Ok sig alg key c :
  Certificate_new sig alg key = Some c →
  bits_as_bytes (subject_public_key (subject_public_key_info (tbs_certificate c))) = Some key ∧
  extensions (tbs_certificate c) = None.
Proof.
  unfold Certificate_new, default_name, uint_new, any_new, bit_string_new. intros E.
  destruct (generalized_time 0); repeat (destruct (der_fits _); cbn in E; try done). by injection E as <-.
Qed.

(** The certificate before its extensions of evidence. *)
Lemma tbs_common_Ok area key ku eku w c w' :
  create_tls_tbs_common area key ku eku w = (Ok c, w') →
  w' = w ∧ ∃ log, get_event_log area = Ok log ∧
    bits_as_bytes (subject_public_key (subject_public_key_info (tbs_certificate c))) = Some key ∧
    extensions (tbs_certificate c) = Some [mkExtension KEY_USAGE_EXTENSION (Some true) (Some ku);
      mkExtension EXTENDED_KEY_USAGE (Some false) (Some eku); mkExtension EXTNID_MIGTD_EVENT_LOG (Some false) (Some log)].
Proof.
  unfold create_tls_tbs_common.
  intros (params & w1 & [Hp ->]%der_Ok & (log & w2 & Hl & E)%M_bind_Ok_inv)%M_bind_Ok_inv.
  assert (get_event_log area = Ok log ∧ w2 = w) as [Hlog ->].
  { destruct (get_event_log area); [|done|done]. by injection Hl as <- <-. }
  apply M_bind_Ok_inv in E as (c0 & ? & [H0 ->]%der_Ok & (c1 & ? & [H1 ->]%der_Ok & (c2 & ? & [H2 ->]%der_Ok & E)%M_bind_Ok_inv)%M_bind_Ok_inv).
  apply M_bind_Ok_inv in E as (c3 & ? & [-> ->]%extend_Ok & (c4 & ? & [-> ->]%extend_Ok & [-> ->]%extend_Ok)%M_bind_Ok_inv).
  split; [done|]. exists log. split; [done|]. cbn.
  apply cert_new_Ok in H0 as [Hk Hn]. unfold set_not_before, set_not_after in H1, H2.
  destruct (generalized_time 0); [|done]. injection H1 as <-. destruct (generalized_time 253402300799); [|done]. injection H2 as <-.
  cbn. rewrite Hk, Hn. done.
Qed.

(** What signing leaves in the encoded certificate. *)
Lemma sign_Ok rand c k key w cert w' :
  key_public (pk k) = Some key →
  bits_as_bytes (subject_public_key (subject_public_key_info (tbs_certificate c))) = Some key →
  sign_tls_tbs rand c k w = (Ok cert, w') →
  w' = w ∧ ∃ c', cert_from_der cert = Some c' ∧ tbs_certificate c' = tbs_certificate c ∧ self_signed c' key.
Proof.
  intros Hk Hspk. unfold sign_tls_tbs, ecdsa_pk_sign. rewrite Hk.
  intros (tbs & ? & [Ht ->]%der_Ok & (sig & ? & [Hs%or_err_Ok ->]%crypto_Ok & (c' & ? & [Hc ->]%der_Ok & [Hd ->]%der_Ok)%M_bind_Ok_inv)%M_bind_Ok_inv)%M_bind_Ok_inv.
  split; [done|]. unfold set_signature, bit_string_new in Hc. destruct (der_fits sig); [|done]. injection Hc as <-.
  eexists. split; [by eapply cert_from_to_der|]. split; [done|]. exists tbs, sig. split_and!; [done..|]. by eapply sign_verify.
Qed.

(** The evidence of a certificate: key, event log, and the extensions that
    follow the common ones. *)
Definition cert_holds (cert key log : bytes) (more : list (ObjectIdentifier * bytes)) : Prop :=
  ∃ c ku eku, cert_from_der cert = Some c ∧ self_signed c key ∧
    oids_from_der eku = Some [SERVER_AUTH; CLIENT_AUTH; MIGTD_EXTENDED_KEY_USAGE] ∧
    extensions (tbs_certificate c) = Some ([mkExtension KEY_USAGE_EXTENSION (Some true) (Some ku);
      mkExtension EXTENDED_KEY_USAGE (Some false) (Some eku); mkExtension EXTNID_MIGTD_EVENT_LOG (Some false) (Some log)] ++
      ((λ p, mkExtension p.1 (Some false) (Some p.2)) <$> more)).

Lemma server_cert_holds lchain lpolicy area rand k w0 cert quote w1 :
  create_certificate_for_server lchain lpolicy area rand k w0 = (Ok (cert, quote), w1) →
  ∃ key pd log report, key_public (pk k) = Some key ∧ local_peer_data lpolicy lchain = Some pd ∧ get_event_log area = Ok log ∧
    get_quote_with_retry (X509.sha384 key ++ zeros 16) w0 = (Ok (quote, report), w1) ∧
    cert_holds cert key log [(EXTNID_MIGTD_QUOTE_REPORT, quote); (EXTNID_MIGTD_POLICY_HASH, X509.sha384 pd)].
Proof.
  unfold create_certificate_for_server, public_key.
  intros (key & ? & [Hk%or_err_Ok ->]%crypto_Ok & (q & w2 & Hq & (ph & ? & Hh & (eku & ? & [Heku ->]%der_Ok & (ku & ? & Hku & E)%M_bind_Ok_inv)%M_bind_Ok_inv)%M_bind_Ok_inv)%M_bind_Ok_inv)%M_bind_Ok_inv.
  unfold gen_quote in Hq. apply M_bind_Ok_inv in Hq as (ad & ? & [-> ->]%prepare_Ok & ([q' report] & w3 & Hq & [= <- <-])%M_bind_Ok_inv).
  unfold policy_hash in Hh. rewrite ok_or_bind in Hh. destruct (local_peer_data lpolicy lchain) as [pd|] eqn:Epd; [|done].
  rewrite digest_Ok in Hh. apply crypto_Ok in Hh as [[= <-] ->].
  unfold create_key_usage in Hku. apply M_bind_Ok_inv in Hku as (kb & ? & [_ ->]%der_Ok & [_ ->]%der_Ok).
  apply M_bind_Ok_inv in E as (c & ? & (-> & log & Hlog & Hspk & Hext)%tbs_common_Ok & E).
  apply M_bind_Ok_inv in E as (c1 & ? & [-> ->]%extend_Ok & (c2 & ? & [-> ->]%extend_Ok & (cd & ? & Hsign & [= <- <- <-])%M_bind_Ok_inv)%M_bind_Ok_inv).
  apply (sign_Ok _ _ _ key) in Hsign as (-> & c' & Hc' & Htbs & Hself); [|done|by cbn].
  exists key, pd, log, report. split_and!; [done..| |].
  - unfold on_quote in Hq. destruct (get_quote_with_retry _ _) as [[[]| |] ?]; [|done|done]. by injection Hq as <- <- <-.
  - exists c', ku, eku. split_and!; [done|done|by apply oids_from_to_der|]. rewrite Htbs. cbn. by rewrite Hext.
Qed.

Lemma open_cert_holds cert key log more :
  cert_holds cert key log more →
  ∃ c exts, open_cert cert = Ok (c, exts) ∧ self_signed c key ∧ find_extension exts EXTNID_MIGTD_EVENT_LOG = Some log ∧
    ∀ id, id ∉ [KEY_USAGE_EXTENSION; EXTENDED_KEY_USAGE; EXTNID_MIGTD_EVENT_LOG] →
      find_extension exts id = find_extension ((λ p, mkExtension p.1 (Some false) (Some p.2)) <$> more) id.
Proof.
  intros (c & ku & eku & Hc & Hself & Heku & Hext). exists c. eexists. split.
  - unfold open_cert. rewrite Hc. cbn. rewrite Hext. cbn. rewrite Heku. done.
  - split; [done|]. split; [done|]. intros id Hid. cbn [app find_extension extn_id extn_value].
    rewrite !bool_decide_false; [done|..]; intros <-; apply Hid; rewrite !elem_of_cons; auto.
Qed.

(** C18 The certificate a side makes for itself is judged good: the quote in it
    was requested with the hash of its key as report data, and a peer, on either
    side and with any policy, that received the policy data of this side before,
    accepts the certificate whenever its policy check accepts that quote and the
    event log and the verified quote carries that report data. *)
Theorem created_cert_accepted lchain lpolicy area rand k w0 cert quote w1 :
  create_certificate_for_server lchain lpolicy area rand k w0 = (Ok (cert, quote), w1) →
  ∃ key pd log report, key_public (pk k) = Some key ∧ local_peer_data lpolicy lchain = Some pd ∧ get_event_log area = Ok log ∧
    get_quote_with_retry (X509.sha384 key ++ zeros 16) w0 = (Ok (quote, report), w1) ∧
    ∀ VP' chain' is_client w suppl w',
      authenticate_remote sha_option VP' chain' is_client quote pd log w = (Ok suppl, w') →
      slice suppl 520 568 = Some (X509.sha384 key) →
      verify_peer_cert VP' chain' is_client cert pd w = (Ok tt, w').
Proof.
  intros (key & pd & log & report & Hk & Hpd & Hlog & Hq & Hcert)%server_cert_holds.
  exists key, pd, log, report. split_and!; [done..|]. intros VP' chain' is_client w suppl w' Ha Hr.
  apply open_cert_holds in Hcert as (c & exts & Ho & Hself & Hl & Hfind).
  unfold verify_peer_cert, extension. rewrite liftO_bind, Ho. cbn [fst snd]. rewrite liftO_bind, Hfind by by apply (bool_decide_unpack _).
  cbn [find_extension fmap list_fmap extn_id extn_value fst snd]. rewrite bool_decide_true by done. cbn [or_err].
  rewrite liftO_bind, Hl. cbn [or_err]. rewrite liftO_bind, Hfind by by apply (bool_decide_unpack _).
  cbn [find_extension fmap list_fmap extn_id extn_value fst snd]. rewrite bool_decide_false, bool_decide_true by done. cbn [or_err].
  rewrite liftO_bind, (proj2 (check_policy_hash_Ok _ _) eq_refl).
  rewrite M_bind_eq, (proj2 (policy_checked_Ok _ _ _ _) Ha). unfold liftO.
  unfold verify_signature. by rewrite (proj2 (signature_by_Ok _ _) (ex_intro _ key (conj Hself (proj2 (verify_key_Ok _ _) Hr)))).
Qed.

End spec.

(** ** The root of trust *)

(** The chain checks of [X509] behind the interface of the policy crate. *)
#[global] Instance x509_policy_crypto `{Der} `{Ring} : PolicyCrypto := {
  PolicyV2.verify_cert_chain_and_signature c m s :=
    match X509.verify_cert_chain_and_signature c m s with Ok _ => true | _ => false end;
  PolicyV2.validate_peer_cert_chain l p :=
    match X509.validate_peer_cert_chain l p with Ok _ => true | _ => false end }.

(** The certificate readers of [X509] behind the interface of the policy checks; the
    rest of it, the quote verifier, the TDX module and the date format, is given. *)
Definition ok_value {E X} (r : outcome E X) : option X := match r with Ok x => Some x | _ => None end.

#[refine] Definition x509_attestation `{Der} `{Ring} (A : Attestation) : Attestation := {|
  MigPolicy.get_fmspc_from_quote q := ok_value (X509.get_fmspc_from_quote q);
  MigPolicy.get_crl_number crl := ok_value (X509.get_crl_number crl);
  MigPolicy.pem_cert_to_der pem := ok_value (X509.pem_cert_to_der pem);
  MigPolicy.get_policy_signer_key_hash chain := ok_value (X509.get_policy_signer_key_hash chain);
  verify_quote_with_collaterals := verify_quote_with_collaterals; iso8601 := iso8601;
  TdxReport_read_from_bytes := TdxReport_read_from_bytes; TdxReport_as_bytes := TdxReport_as_bytes;
  tdcall_verify_report := tdcall_verify_report |}.
Proof. exact length_td_info. exact length_report_data. exact read_as_bytes. Defined.

(** The quote of an accepted peer was verified with the collaterals of the platform
    that its own PCK certificate names. *)
Theorem verified_with_platform_of_pck `{Der} `{Ring} `{PolicyJson} (A : Attestation) lp quote f suppl :
  quote_verified (A := x509_attestation A) lp quote f suppl →
  X509.get_fmspc_from_quote quote = Ok f ∧ lenz f = 6 ∧
  ∃ c cc, get_collateral_with_fmspc f (get_collaterals lp) = Ok c ∧ convert_collateral_to_cstring c = Ok cc ∧
    verify_quote_with_collaterals quote cc = Some suppl.
Proof.
  intros (c & cc & Hf & Hc & Hcc & Hv). cbn in Hf. destruct (X509.get_fmspc_from_quote quote) as [f'| |] eqn:E; [|done|done].
  injection Hf as ->. split; [done|]. split; [exact (proj1 (proj2 (fmspc_from_pck quote) f E))|]. exists c, cc. by split_and!.
Qed.

Section root.
Context `{DR : Der} `{RG : Ring} `{J : PolicyJson} `{A : Attestation} `{L : CcLog} {FT : Features}.
#[local] Existing Instance x509_policy_crypto.

Lemma decode_peer_data_ok pd mp pc : bytes_ok pd → decode_peer_data pd = Some (mp, pc) → bytes_ok pc.
Proof.
  unfold decode_peer_data. intros Hok. destruct (lenz pd <? 4); [done|]. intros E.
  repeat match type of E with
  | (_ ≫= _) = Some _ => apply bind_Some in E as (? & ? & E)
  | (if ?b then _ else _) = Some _ => destruct b; [done|]
  end.
  injection E as <- <-. by eapply slice_bytes_ok.
Qed.

(** [message] is signed by the leaf of a chain to [root]. *)
Definition signed_under (root : bytes) (pem message sig : bytes) : Prop :=
  ∃ peer leaf c key, pem_chain pem peer ∧ chain_to root peer ∧ head peer = Some leaf ∧ cert_from_der leaf = Some c ∧
    bits_as_bytes (subject_public_key (subject_public_key_info (tbs_certificate c))) = Some key ∧
    ring_verify ECDSA_P384_SHA384_ASN1 key message sig = true.

Lemma signature_under pem lpem message sig :
  PolicyV2.verify_cert_chain_and_signature pem message sig = true →
  PolicyV2.validate_peer_cert_chain lpem pem = true →
  ∃ local root, pem_chain lpem local ∧ last local = Some root ∧ signed_under root pem message sig.
Proof.
  cbn. intros Hs Hv. destruct (X509.validate_peer_cert_chain lpem pem) as [[]| |] eqn:Ev; [|done|done].
  apply peer_chain_valid in Ev as (local & peer & ll & pl & lc & pc & root & Hl & Hp & Hr & Hch & _ & Hhp & _ & Hpc & _).
  exists local, root. split; [done|]. split; [done|]. exists peer, pl, pc.
  destruct (X509.verify_cert_chain_and_signature pem message sig) as [[]| |] eqn:Es; [|done|done].
  unfold X509.verify_cert_chain_and_signature in Es. apply bind_Ok in Es as (peer' & Hp'%extract_spec & Es).
  assert (peer' = peer) as -> by (eapply (inj (fmap Some)); destruct Hp as [<- _], Hp' as [<- _]; done).
  apply bind_Ok in Es as (_ & _ & Es). destruct peer as [|pl' peer]; [done|]. injection Hhp as ->.
  unfold verify_signature_with_cert, parse_cert, extract_public_key_from_cert in Es. rewrite Hpc in Es. cbn in Es. step Es.
  apply with_algorithm_spec in Es as [_ Es]. by exists a.
Qed.

(** C15 With the chain checks of the crypto crate, the policy of an accepted
    migration peer is signed under the root of the local policy issuer chain:
    its text verifies with the key of a leaf that is issued, through authorities
    only, by the very root the local side trusts. *)
Theorem accepted_policy_under_local_root VP chain is_client cert pd w u w' :
  bytes_ok pd → verify_peer_cert VP chain is_client cert pd w = (Ok u, w') →
  ∃ lchain local root mp pc raw sig,
    chain = Some lchain ∧ pem_chain lchain local ∧ last local = Some root ∧
    decode_peer_data pd = Some (mp, pc) ∧ json_raw_policy mp = Some raw ∧ hex_string_to_bytes (PolicyV2.signature raw) = Ok sig ∧
    signed_under root pc (as_bytes (raw_data raw)) sig.
Proof.
  intros Hok E.
  destruct (peer_cert_accepts _ _ _ _ _ _ _ _ E) as (quote & log & suppl & key & lp & mp & pc & vp & e & rel & _ & _ & Hd & Hp & _).
  destruct (pa_endorsed _ _ _ _ _ _ _ _ _ _ Hp) as (raw & lc & Hraw & Hver & -> & Hval & _).
  unfold verify in Hver. step Hver. step Hver. unfold verify_policy_data_signature, verify_signed in Hs0. step Hs0. step Hs0.
  do 2 step Hver. destruct (negb _); [done|]. injection Hver as <-. cbn [policy_issuer_chain] in Hval.
  unfold from_utf8 in Hs. destruct (utf8_valid pc); [|done]. injection Hs as <-.
  rewrite as_bytes_string in Hval by (by eapply decode_peer_data_ok).
  destruct (signature_under _ _ _ _ Hs2 Hval) as (local & root & Hl & Hr & Hsig).
  exists lc, local, root, mp, pc, raw, a1. by split_and!.
Qed.

End root.

(** ** A concrete environment *)

Module Demo.

#[local] Existing Instance demo_features.
Import MigPolicySpec.Demo.

#[local] Existing Instances MigPolicySpec.Demo.json MigPolicySpec.Demo.attestation EventLog.Sample.log.

#[local] Instance Time_eq_dec : EqDecision Time.
Proof. solve_decision. Defined.
#[local] Instance Validity_eq_dec : EqDecision Validity.
Proof. solve_decision. Defined.
#[local] Instance Alg_eq_dec : EqDecision AlgorithmIdentifier.
Proof. solve_decision. Defined.
#[local] Instance BitString_eq_dec : EqDecision BitString.
Proof. solve_decision. Defined.
#[local] Instance Spki_eq_dec : EqDecision SubjectPublicKeyInfo.
Proof. solve_decision. Defined.
#[local] Instance Extension_eq_dec : EqDecision Extension.
Proof. solve_decision. Defined.
#[local] Instance Tbs_eq_dec : EqDecision TBSCertificate.
Proof. solve_decision. Defined.
#[local] Instance Cert_eq_dec : EqDecision Certificate.
Proof. solve_decision. Defined.

Definition usages : list ObjectIdentifier := [SERVER_AUTH; CLIENT_AUTH; MIGTD_EXTENDED_KEY_USAGE].

(** A codec that knows the usages and the certificates it is given. *)
#[refine] Definition codec (known : list (bytes * Certificate)) : Der := {|
  der_fits _ := true; generalized_time := Some; oid_as_bytes _ := [];
  cert_from_der d := p ← head (filter (λ p, p.1 = d) known); Some p.2;
  cert_to_der c := p ← head (filter (λ p, p.2 = c) known); if decide (head (filter (λ q, q.1 = p.1) known) = Some p) then Some p.1 else None;
  tbs_to_der _ := Some [8];
  oids_from_der d := if decide (d = [5]) then Some usages else None;
  oids_to_der l := if decide (l = usages) then Some [5] else None;
  bits_to_der _ := Some [6]; basic_constraints_from_der _ := None; pem_certs _ := [Some [2]];
  crl_from_pem _ := None; crl_extensions_from_der _ := None; u32_from_der _ := None; inner_values_from_der _ := None |}.
Proof.
  - intros c d. destruct (head (filter (λ p, p.2 = c) known)) as [p|] eqn:E; [|done]. cbn. case_decide as Hp; [|done].
    intros [= <-]. rewrite Hp. cbn. f_equal.
    assert (p ∈ filter (λ p, p.2 = c) known) as [? _]%list_elem_of_filter; [|done].
    destruct (filter _ known); [done|]. injection E as ->. left.
  - intros l d. case_decide; [|done]. intros [= <-]. by subst.
Defined.

#[local, refine] Instance ring : Ring := {
  sha384 d := take 48 (drop 48 d ++ zeros 48); generate_pkcs8 r := Some [r]; key_public k := Some k;
  key_sign _ _ _ := Some [1]; ring_verify _ _ _ _ := true }.
Proof.
  - intros d. unfold lenz. rewrite length_take, length_app, length_zeros. lia.
  - done.
Defined.

(** A root that is its own leaf, and the certificate of the demonstration. *)
Definition root_cert : Certificate := Eval vm_compute in
  default (mkCert (mkTbs [] [] (mkAlg [] None) [] (mkValidity (Utc 0) (Utc 0)) [] (mkSpki (mkAlg [] None) (mkBits 0 [])) None None None)
             (mkAlg [] None) (mkBits 0 [])) (@Certificate_new (codec []) (mkAlg ECDSA_WITH_SHA384 None) (mkAlg [] None) [3]).

Definition unsigned : outcome RatlsError.t Certificate * QuoteWorld := Eval vm_compute in
  (let _ := codec [] in
   c ← create_tls_tbs_common log [4] [6] [5];
   c ← extend EXTNID_MIGTD_QUOTE_REPORT false [9] c;
   c ← extend EXTNID_MIGTD_POLICY_HASH false (X509.sha384 peer) c;
   der (set_signature [1] c)) world.

Definition demo_cert : Certificate := Eval vm_compute in match unsigned.1 with Ok c => c | _ => root_cert end.

#[local] Instance demo_der : Der := codec [([2], root_cert); ([1], demo_cert)].
#[local] Existing Instance x509_policy_crypto.

Lemma created_run : create_certificate_for_server (Some chain) (Some policy) log 0 (mkPk [4]) world = (Ok ([1], [9]), after).
Proof. vm_compute. reflexivity. Qed.

Lemma accepted_run : verify_peer_cert (Some lp) (Some chain) true [1] peer world = (Ok tt, after).
Proof. vm_compute. reflexivity. Qed.

Lemma attested_run : authenticate_remote sha_option (Some lp) (Some chain) true [9] peer log world = (Ok suppl0, after).
Proof. vm_compute. reflexivity. Qed.

Lemma peer_cert_sound_witness :
  ∃ quote log suppl key, cert_shows [1] peer quote log suppl key.
Proof.
  destruct (peer_cert_sound (Some lp) (Some chain) true [1] peer world tt after accepted_run)
    as (quote & log & suppl & key & ? & ? & ? & ? & ? & ? & H & _).
  exists quote, log, suppl, key. exact H.
Defined.

Lemma created_cert_accepted_witness :
  verify_peer_cert (Some lp) (Some chain) true [1] peer world = (Ok tt, after).
Proof.
  destruct (created_cert_accepted (Some chain) (Some policy) log 0 (mkPk [4]) world [1] [9] after created_run)
    as (key & pd & log' & report & Hk & Hpd & Hlog & _ & H).
  assert (local_peer_data (Some policy) (Some chain) = Some peer) as Hp by (vm_compute; reflexivity).
  assert (get_event_log log = Ok log) as Hl by (vm_compute; reflexivity).
  assert (pd = peer) as Epd by congruence. assert (log' = log) as El by congruence. assert (key = [4]) as Ek by (cbn in Hk; congruence).
  subst pd log' key. apply (H (Some lp) (Some chain) true world suppl0 after attested_run). vm_compute. reflexivity.
Defined.

Lemma accepted_policy_under_local_root_witness :
  ∃ mp pc raw sig, decode_peer_data peer = Some (mp, pc) ∧ json_raw_policy mp = Some raw ∧
    signed_under [2] pc (as_bytes (raw_data raw)) sig.
Proof.
  assert (bytes_ok peer) as Hok by (repeat constructor; discriminate).
  destruct (accepted_policy_under_local_root (Some lp) (Some chain) true [1] peer world tt after Hok accepted_run)
    as (lchain & local & root & mp & pc & raw & sig & Hc & [Hl _] & Hr & Hd & Hj & _ & Hs).
  exists mp, pc, raw, sig. split; [exact Hd|]. split; [exact Hj|].
  assert (root = [2]) as Er; [|by rewrite <-Er].
  cbn in Hl. destruct local as [|x [|]]; [discriminate| |discriminate]. cbn in Hl, Hr. congruence.
Defined.

End Demo.
