(* ===== verification/Startup.v ===== *)
(** * Startup: what is measured before the first request

    [runtime_main] of src/migtd/src/bin/migtd/main.rs up to [handle_pre_mig], with
    the feature [vmcall-raw] and either version of the policy.  The files of the
    configuration volume, the event log area and the interrupt table are
    arguments; a crash that is reported to the VMM is an [Err] with its code. *)
From stdpp Require Import base tactics numbers option strings list list_numbers.
From S2P Require Import Prelude MigData EventLog PolicyV2 MigPolicy Logging X509 Attest.
Local Open Scope Z_scope.

Definition MR_INDEX_POLICY_ISSUER_CHAIN : Z := 2.
Definition MR_INDEX_POLICY : Z := 3.
Definition MR_INDEX_ROOT_CA : Z := 3.
Definition MR_INDEX_TEST_FEATURE : Z := 3.
Definition TAGGED_EVENT_ID_TEST : Z := 0x32.
Definition TEST_DISABLE_RA_AND_ACCEPT_ALL_EVENT : bytes := as_bytes "test_disable_ra_and_accept_all".

(** The files [get_policy], [get_root_ca] and [get_policy_issuer_chain] find. *)
Record Config := mkConfig { cf_policy : option bytes; cf_root_ca : option bytes; cf_policy_issuer_chain : option bytes }.

(** The logger, the event log area, the measurement registers, [VERIFIED_POLICY]
    and [ROOT_CA_PUBLIC_KEY]. *)
Record Boot := mkBoot {
  bt_logging : Logging; bt_event_log : option bytes; bt_mr : MrWorld; bt_verified : option VerifiedPolicy; bt_root : option bytes }.

Notation BootM := (M Boot MigrationResult.t).

(** [panic_with_guest_crash_reg_report] *)
Definition crash {A} (code : MigrationResult.t) : BootM A := failM code.

Definition file (o : option bytes) : BootM bytes :=
  match o with Some f => mret f | None => crash MigrationResult.InvalidPolicyError end.

Definition set_log_and_mr (log : option bytes) (w : MrWorld) (b : Boot) : Boot :=
  mkBoot (bt_logging b) log w (bt_verified b) (bt_root b).

Section startup.
Context `{CcLog} (digest_sha384 : bytes → option bytes).

(** [write_tagged_event_log] on the event log, with the crash on its failure. *)
Definition measure (mr : Z) (hash_data : bytes) (tag : Z) (data : bytes) : BootM unit := λ b,
  match bt_event_log b with
  | None => (Err MigrationResult.InitializationError, b)
  | Some log =>
      match write_tagged_event_log digest_sha384 log mr hash_data tag data (bt_mr b) with
      | (Ok (_, log'), w) => (Ok tt, set_log_and_mr (Some log') w b)
      | (Err _, w) => (Err MigrationResult.InitializationError, set_log_and_mr (Some log) w b)
      | (Panic, w) => (Panic, set_log_and_mr (Some log) w b)
      end
  end.

Definition measure_test_feature : BootM unit :=
  measure MR_INDEX_TEST_FEATURE TEST_DISABLE_RA_AND_ACCEPT_ALL_EVENT TAGGED_EVENT_ID_TEST TEST_DISABLE_RA_AND_ACCEPT_ALL_EVENT.

(** *** Policy version 1 *)

Definition get_policy_and_measure_v1 (cfg : Config) : BootM unit :=
  policy ← file (cf_policy cfg);
  measure MR_INDEX_POLICY policy TAGGED_EVENT_ID_POLICY policy.

(** [set_ca] on the global cell, with the crash on its failure. *)
Definition use_root_ca `{Der} (root_ca : bytes) : BootM unit := λ b,
  match set_ca root_ca (bt_root b) with
  | (Ok _, root) => (Ok tt, mkBoot (bt_logging b) (bt_event_log b) (bt_mr b) (bt_verified b) root)
  | (_, _) => (Err MigrationResult.InvalidPolicyError, b)
  end.

Definition get_ca_and_measure `{Der} (cfg : Config) : BootM unit :=
  root_ca ← file (cf_root_ca cfg);
  _ ← measure MR_INDEX_ROOT_CA root_ca TAGGED_EVENT_ID_ROOT_CA root_ca;
  use_root_ca root_ca.

Definition do_measurements_v1 `{Der} (cfg : Config) (test_disable_ra_and_accept_all : bool) : BootM unit :=
  b ← getS;
  match bt_event_log b with
  | None => crash MigrationResult.InitializationError
  | Some _ =>
      if test_disable_ra_and_accept_all then measure_test_feature
      else _ ← get_policy_and_measure_v1 cfg; get_ca_and_measure cfg
  end.

(** *** Policy version 2 *)

Context `{PolicyJson} `{PolicyCrypto} `{Attestation} `{Der}.

Definition get_policy_issuer_chain_and_measure (cfg : Config) : BootM unit :=
  policy_issuer_chain ← file (cf_policy_issuer_chain cfg);
  measure MR_INDEX_POLICY_ISSUER_CHAIN policy_issuer_chain TAGGED_EVENT_ID_POLICY_ISSUER_CHAIN policy_issuer_chain.

(** [init_policy] of mig_policy.rs on the two global cells. *)
Definition run_init_policy (policy policy_issuer_chain : bytes) : BootM string := λ b,
  let accepts_ca root_ca := match set_ca root_ca (bt_root b) with (Ok _, _) => true | _ => false end in
  match init_policy accepts_ca policy policy_issuer_chain (mkPolicyState (bt_verified b) None) with
  | (Ok version, p) =>
      let root := match ps_root_ca p with Some der => (set_ca der (bt_root b)).2 | None => bt_root b end in
      (Ok version, mkBoot (bt_logging b) (bt_event_log b) (bt_mr b) (ps_verified p) root)
  | (Err _, _) => (Err MigrationResult.InvalidPolicyError, b)
  | (Panic, _) => (Panic, b)
  end.

Definition initialize_policy (cfg : Config) : BootM string :=
  policy ← file (cf_policy cfg);
  policy_issuer_chain ← file (cf_policy_issuer_chain cfg);
  run_init_policy policy policy_issuer_chain.

Definition get_policy_and_measure_v2 (cfg : Config) (own_report : option TdxReport) : BootM unit :=
  policy ← file (cf_policy cfg);
  version ← initialize_policy cfg;
  b ← getS;
  match verify_own_tdinfo (bt_verified b) (cf_policy_issuer_chain cfg) own_report with
  | Err _ => crash MigrationResult.InvalidPolicyError
  | Panic => panicM
  | Ok _ => measure MR_INDEX_POLICY policy TAGGED_EVENT_ID_POLICY (as_bytes version)
  end.

Definition do_measurements_v2 (cfg : Config) (own_report : option TdxReport) (test_disable_ra_and_accept_all : bool) : BootM unit :=
  b ← getS;
  match bt_event_log b with
  | None => crash MigrationResult.InitializationError
  | Some _ =>
      if test_disable_ra_and_accept_all then measure_test_feature
      else _ ← get_policy_issuer_chain_and_measure cfg; get_policy_and_measure_v2 cfg own_report
  end.

(** *** [runtime_main] *)

(** The logger and the log areas; a failure to create the areas is ignored. *)
Definition start_logging (td_info : option Z) (alloc : Z → option (Z * list Z)) : BootM unit := λ b,
  match init_vmm_logger (bt_logging b) with
  | (false, _) => (Err MigrationResult.InitializationError, b)
  | (true, l) =>
      let '(r, l) := create_logarea td_info alloc l in
      let b := mkBoot l (bt_event_log b) (bt_mr b) (bt_verified b) (bt_root b) in
      (match r with Panic => Panic | _ => Ok tt end, b)
  end.

(** [callback_registered] is what the interrupt table answers; [Ok] is the entry of
    [handle_pre_mig]. *)
Definition runtime_main (do_measurements : BootM unit) (td_info : option Z) (alloc : Z → option (Z * list Z)) (callback_registered : bool) : BootM unit :=
  _ ← start_logging td_info alloc;
  _ ← do_measurements;
  if callback_registered then mret tt else crash MigrationResult.InitializationError.
End startup.
