(* ===== verification/StartupSpec.v ===== *)
(** * StartupSpec: requests are handled only after the policy was measured

    A migration TD that reaches its request loop has extended the digest of the
    policy it enforces, and of the chain or root it trusts, into its registers, in
    this order and with nothing else. *)
From stdpp Require Import base tactics numbers option strings list list_numbers.
From S2P Require Import Prelude MigData EventLog PolicyV2 MigPolicy MigPolicySpec Logging X509 Attest RaTlsSpec Startup.
Local Open Scope Z_scope.

Section spec.
Context `{L : CcLog} (sha384 : bytes → option bytes) (Hsha : ∀ x d, sha384 x = Some d → length d = 48%nat).
Context `{J : PolicyJson} `{C : PolicyCrypto} `{A : Attestation} `{D : Der}.

(** The cells a measurement leaves alone. *)
Definition same_cells (b b' : Boot) : Prop :=
  bt_logging b' = bt_logging b ∧ bt_verified b' = bt_verified b ∧ bt_root b' = bt_root b.

(** The event of a measurement stands in the log. *)
Definition recorded (log : bytes) (mr tag : Z) (d data : bytes) : Prop :=
  ∃ n, slice log n (n + SIZE_CC_HEADER + lenz (tagged_event tag data)) =
    Some (header_as_bytes (mkEventHeader mr EV_EVENT_TAG d (as_u 32 (lenz (tagged_event tag data)))) ++ tagged_event tag data).

Lemma measure_Ok mr hd tag data b b' : measure sha384 mr hd tag data b = (Ok tt, b') →
  ∃ d log', sha384 hd = Some d ∧ mr_extended (bt_mr b') = mr_extended (bt_mr b) ++ [(mr - 1, d)] ∧ same_cells b b' ∧
    bt_event_log b' = Some log' ∧ recorded log' mr tag d data.
Proof.
  unfold measure. destruct (bt_event_log b) as [log|]; [|done].
  destruct (write_tagged_event_log sha384 log mr hd tag data (bt_mr b)) as [o w] eqn:E.
  destruct (write_tagged_post sha384 Hsha _ _ _ _ _ _ _ _ E) as [_ Hp]. destruct o as [[size log']| |]; [|done..]. intros [= <-].
  destruct (Hp _ _ eq_refl) as (n & d & _ & Hd & Hm & -> & _ & _ & Hs). exists d, log'. split; [done|]. split; [done|].
  split; [done|]. split; [done|]. by exists n.
Qed.

Lemma measure_no_panic mr hd tag data b : (measure sha384 mr hd tag data b).1 ≠ Panic.
Proof.
  unfold measure. destruct (bt_event_log b) as [log|]; [|done].
  destruct (write_tagged_event_log sha384 log mr hd tag data (bt_mr b)) as [o w] eqn:E.
  destruct (write_tagged_post sha384 Hsha _ _ _ _ _ _ _ _ E) as [Hn _]. by destruct o as [[size log']| |].
Qed.

Lemma file_Ok o f b b' : file o b = (Ok f, b') → o = Some f ∧ b' = b.
Proof. destruct o; [|done]. intros [= -> ->]. done. Qed.

Lemma start_logging_Ok td_info alloc b b' : start_logging td_info alloc b = (Ok tt, b') →
  bt_event_log b' = bt_event_log b ∧ bt_mr b' = bt_mr b ∧ bt_verified b' = bt_verified b ∧ bt_root b' = bt_root b.
Proof.
  unfold start_logging. destruct (init_vmm_logger (bt_logging b)) as [[] l]; [|done].
  destruct (create_logarea td_info alloc l) as [[[]|e|] l']; intros E; by simplify_eq/=.
Qed.

(** A successful start went through the logger and the measurements. *)
Lemma runtime_main_Ok m td_info alloc registered b b' : runtime_main m td_info alloc registered b = (Ok tt, b') →
  ∃ b1, start_logging td_info alloc b = (Ok tt, b1) ∧ m b1 = (Ok tt, b').
Proof.
  intros E. unfold runtime_main in E. apply M_bind_Ok_inv in E as ([] & b1 & H1 & E). apply M_bind_Ok_inv in E as ([] & b2 & H2 & E).
  exists b1. split; [done|]. destruct registered; [|done]. injection E as <-. done.
Qed.

Lemma init_policy_Ok ca policy chain p version p' : init_policy ca policy chain p = (Ok version, p') →
  ∃ raw vp der, deserialize_from_json policy = Ok raw ∧ verify raw chain = Ok vp ∧
    MigPolicy.pem_cert_to_der (as_bytes (cs_root_ca (get_collaterals vp))) = Some der ∧ ca der = true ∧
    ps_verified p' = Some (default vp (ps_verified p)) ∧ ps_root_ca p' = Some (default der (ps_root_ca p)) ∧
    version = pd_version (policy_data (default vp (ps_verified p))).
Proof.
  intros E. unfold init_policy in E. step E. step E. step E. apply M_bind_Ok_inv in E as ([] & s1 & H1 & E).
  destruct (ca a1) eqn:Hca; [|done]. injection H1 as <-. rewrite modifyS_bind, getS_bind in E. injection E as <- <-.
  exists a, a0, a1. done.
Qed.

(** The root of trust after a certificate is used: the first one stays. *)
Definition root_after (root : option bytes) (cert : bytes) : option bytes :=
  match root with Some k => Some k | None => root_key_of cert end.

Lemma set_ca_Ok cert root u root' : set_ca cert root = (Ok u, root') → root' = root_after root cert ∧ is_Some root'.
Proof. unfold set_ca, root_after. destruct root; [intros [= _ <-]; eauto|]. destruct (root_key_of cert); intros [= _ <-]; eauto. Qed.

(** What a start with policy version 2 leaves: the registers, the log, the policy
    in force and the root of trust. *)
Definition measured_v2 (cfg : Config) (own_report : option TdxReport) (b b' : Boot) : Prop :=
  ∃ chain policy raw vp der dc dp log, cf_policy_issuer_chain cfg = Some chain ∧ cf_policy cfg = Some policy ∧
    sha384 chain = Some dc ∧ sha384 policy = Some dp ∧
    mr_extended (bt_mr b') = mr_extended (bt_mr b) ++ [(1, dc); (2, dp)] ∧
    bt_event_log b' = Some log ∧ recorded log 3 TAGGED_EVENT_ID_POLICY dp (as_bytes (pd_version (policy_data vp))) ∧
    deserialize_from_json policy = Ok raw ∧ verify raw chain = Ok vp ∧ bt_verified b' = Some vp ∧
    verify_own_tdinfo (Some vp) (Some chain) own_report = Ok tt ∧
    MigPolicy.pem_cert_to_der (as_bytes (cs_root_ca (get_collaterals vp))) = Some der ∧
    bt_root b' = root_after (bt_root b) der ∧ is_Some (bt_root b').

Definition measured_v1 (cfg : Config) (b b' : Boot) : Prop :=
  ∃ policy root_ca dp dr log, cf_policy cfg = Some policy ∧ cf_root_ca cfg = Some root_ca ∧
    sha384 policy = Some dp ∧ sha384 root_ca = Some dr ∧
    mr_extended (bt_mr b') = mr_extended (bt_mr b) ++ [(2, dp); (2, dr)] ∧
    bt_event_log b' = Some log ∧ recorded log 3 TAGGED_EVENT_ID_ROOT_CA dr root_ca ∧
    bt_root b' = root_after (bt_root b) root_ca ∧ is_Some (bt_root b').

(** [initialize_policy] on a TD with no policy in force. *)
Lemma initialize_policy_Ok cfg policy chain version b b' :
  cf_policy cfg = Some policy → cf_policy_issuer_chain cfg = Some chain → bt_verified b = None →
  initialize_policy cfg b = (Ok version, b') →
  ∃ raw vp der, deserialize_from_json policy = Ok raw ∧ verify raw chain = Ok vp ∧ bt_verified b' = Some vp ∧
    MigPolicy.pem_cert_to_der (as_bytes (cs_root_ca (get_collaterals vp))) = Some der ∧ bt_root b' = root_after (bt_root b) der ∧
    is_Some (bt_root b') ∧ version = pd_version (policy_data vp) ∧ bt_mr b' = bt_mr b.
Proof.
  intros Hpol Hchain Hnone E. unfold initialize_policy in E. rewrite Hpol, Hchain in E.
  change (run_init_policy policy chain b = (Ok version, b')) in E. unfold run_init_policy in E.
  destruct (init_policy _ policy chain _) as [[v|e|] p] eqn:Ei; try done. injection E as <- <-.
  destruct (init_policy_Ok _ _ _ _ _ _ Ei) as (raw & vp & der & Hraw & Hvp & Hder & Hca & Hpv & Hpr & Hv).
  cbn [ps_verified ps_root_ca] in Hpv, Hpr, Hv. rewrite Hnone in Hpv, Hv. cbn in Hpv, Hpr, Hv.
  destruct (set_ca der (bt_root b)) as [[u| |] root'] eqn:Eca; try done. destruct (set_ca_Ok _ _ _ _ Eca) as [Hr' Hsome].
  exists raw, vp, der. cbn [bt_verified bt_root bt_mr]. rewrite Hpr, Eca. done.
Qed.

Lemma do_measurements_v2_Ok cfg own_report b b' : bt_verified b = None →
  do_measurements_v2 sha384 cfg own_report false b = (Ok tt, b') → measured_v2 cfg own_report b b'.
Proof.
  intros Hnone Hm. unfold do_measurements_v2 in Hm. rewrite getS_bind in Hm. destruct (bt_event_log b); [|done].
  apply M_bind_Ok_inv in Hm as ([] & b2 & H2 & Hm). unfold get_policy_issuer_chain_and_measure in H2.
  apply M_bind_Ok_inv in H2 as (chain & b2' & [Hchain ->]%file_Ok & (dc & lc & Hdc & Hmc & (_ & Hv2 & Hr2) & _ & _)%measure_Ok).
  unfold get_policy_and_measure_v2 in Hm. apply M_bind_Ok_inv in Hm as (policy & b2' & [Hpol ->]%file_Ok & Hm).
  apply M_bind_Ok_inv in Hm as (version & b3 & Hinit & Hm). rewrite <-Hv2 in Hnone.
  destruct (initialize_policy_Ok _ _ _ _ _ _ Hpol Hchain Hnone Hinit) as (raw & vp & der & Hraw & Hvp & Hpv & Hder & Hroot & Hsome & -> & Hmr).
  rewrite getS_bind, Hpv, Hchain in Hm. destruct (verify_own_tdinfo (Some vp) (Some chain) own_report) as [[]| |] eqn:Hown; try done.
  apply measure_Ok in Hm as (dp & log & Hdp & Hmp & (_ & Hv4 & Hr4) & Hl4 & Hrec).
  exists chain, policy, raw, vp, der, dc, dp, log. rewrite Hr2 in Hroot.
  split_and!; try done; [rewrite Hmp, Hmr, Hmc, <-app_assoc|rewrite Hv4|rewrite Hr4..]; done.
Qed.

Lemma do_measurements_v1_Ok cfg b b' : do_measurements_v1 sha384 cfg false b = (Ok tt, b') → measured_v1 cfg b b'.
Proof.
  intros Hm. unfold do_measurements_v1 in Hm. rewrite getS_bind in Hm. destruct (bt_event_log b); [|done].
  apply M_bind_Ok_inv in Hm as ([] & b2 & H2 & Hm). unfold get_policy_and_measure_v1 in H2.
  apply M_bind_Ok_inv in H2 as (policy & b2' & [Hpol ->]%file_Ok & (dp & lc & Hdp & Hmp & (_ & _ & Hr2) & _ & _)%measure_Ok).
  unfold get_ca_and_measure in Hm. apply M_bind_Ok_inv in Hm as (root_ca & b2' & [Hca ->]%file_Ok & Hm).
  apply M_bind_Ok_inv in Hm as ([] & b3 & (dr & log & Hdr & Hmd & (_ & _ & Hr3) & Hl & Hrec)%measure_Ok & Hm).
  unfold use_root_ca in Hm. destruct (set_ca root_ca (bt_root b3)) as [[u| |] root'] eqn:Eca; try done. injection Hm as <-.
  apply set_ca_Ok in Eca as [Hr' Hsome]. rewrite Hr3, Hr2 in Hr'.
  exists policy, root_ca, dp, dr, log. cbn [bt_mr bt_root bt_event_log]. split_and!; try done. rewrite Hmd, Hmp, <-app_assoc. done.
Qed.

(** C20 Requests are handled only after the policy was measured.  With policy
    version 2, a start that reaches the request loop has extended exactly the digests
    of the policy issuer chain and then of the policy file into the registers, the
    latter's event stands in the log, the policy in force (when none was before) is
    that file verified under that chain and bound to the TD's own owner fields, and
    the root of trust is the policy's; with version 1 it has extended the digests of
    the policy file and then of the root certificate, whose event stands in the log,
    and trusts that certificate's key. *)
Theorem startup_measures_policy cfg own_report td_info alloc registered b b' :
  (runtime_main (do_measurements_v2 sha384 cfg own_report false) td_info alloc registered b = (Ok tt, b') →
   bt_verified b = None → measured_v2 cfg own_report b b') ∧
  (runtime_main (do_measurements_v1 sha384 cfg false) td_info alloc registered b = (Ok tt, b') → measured_v1 cfg b b').
Proof.
  split.
  - intros (b1 & Hlog%start_logging_Ok & Hm)%runtime_main_Ok Hnone. destruct Hlog as (_ & Hmr & Hver & Hroot).
    rewrite <-Hver in Hnone. apply do_measurements_v2_Ok in Hm; [|done]. unfold measured_v2 in *. by rewrite Hmr, Hroot in Hm.
  - intros (b1 & Hlog%start_logging_Ok & Hm%do_measurements_v1_Ok)%runtime_main_Ok. destruct Hlog as (_ & Hmr & _ & Hroot).
    unfold measured_v1 in *. by rewrite Hmr, Hroot in Hm.
Qed.
End spec.

(** ** A concrete start *)

Module StartupSample.

Definition der : Der := RaTlsSpec.Demo.codec [([], RaTlsSpec.Demo.root_cert)].
Definition own : TdxReport := Eval vm_compute in
  mkTdxReport [1] (zeros 64) (zeros 48) (zeros 48) [] [] (zeros 112 ++ zeros 48 ++ [3; 0; 0; 0] ++ zeros 44 ++ zeros 304).
Definition config : Config := mkConfig (Some MigPolicySpec.Demo.policy) (Some []) (Some MigPolicySpec.Demo.chain).

(** An event log area with no event yet. *)
Definition area : bytes := Eval vm_compute in replicate 500 255.
Definition boot : Boot := mkBoot LOGGING_INFORMATION (Some area) (mkMr [true; true] []) None None.

Definition start : outcome MigrationResult.t unit * Boot := Eval vm_compute in
  runtime_main (do_measurements_v2 (H := EventLog.Sample.log) (H0 := MigPolicySpec.Demo.json) (H1 := MigPolicySpec.Demo.crypto)
    (H2 := MigPolicySpec.Demo.attestation) (H3 := der) EventLog.Sample.last_digest config (Some own) false) None (λ _, None) true boot.

Definition started : Boot := start.2.

Lemma boot_run :
  runtime_main (do_measurements_v2 (H := EventLog.Sample.log) (H0 := MigPolicySpec.Demo.json) (H1 := MigPolicySpec.Demo.crypto)
    (H2 := MigPolicySpec.Demo.attestation) (H3 := der) EventLog.Sample.last_digest config (Some own) false) None (λ _, None) true boot = (Ok tt, started).
Proof. vm_compute. reflexivity. Qed.

Lemma startup_measures_policy_witness :
  measured_v2 (L := EventLog.Sample.log) (J := MigPolicySpec.Demo.json) (C := MigPolicySpec.Demo.crypto)
    (A := MigPolicySpec.Demo.attestation) (D := der) EventLog.Sample.last_digest config (Some own) boot started.
Proof.
  apply (startup_measures_policy (L := EventLog.Sample.log) (J := MigPolicySpec.Demo.json) (C := MigPolicySpec.Demo.crypto)
    (A := MigPolicySpec.Demo.attestation) (D := der) EventLog.Sample.last_digest EventLog.Sample.last_digest_len config (Some own)
    None (λ _, None) true boot started); [exact boot_run|reflexivity].
Defined.

(** Without a chain in the volume the start crashes before anything is measured. *)
Lemma no_chain :
  runtime_main (do_measurements_v2 (H := EventLog.Sample.log) (H0 := MigPolicySpec.Demo.json) (H1 := MigPolicySpec.Demo.crypto)
    (H2 := MigPolicySpec.Demo.attestation) (H3 := der) EventLog.Sample.last_digest (mkConfig (Some MigPolicySpec.Demo.policy) None None) (Some own) false)
    None (λ _, None) true boot = (Err MigrationResult.InvalidPolicyError, mkBoot (bt_logging started) (Some area) (mkMr [true; true] []) None None).
Proof. vm_compute. reflexivity. Qed.

End StartupSample.
