(* ===== verification/MigtdHash.v ===== *)
(** * MigtdHash: the measurements the build tool predicts

    src/tools/migtd-hash/src/lib.rs: the TDINFO_STRUCT of a migration TD computed from
    its image, and the hashes that policies and bindings name.  td-shim-tools, the
    firmware volume reader and SHA-384 are parameters. *)
From stdpp Require Import base tactics numbers option strings list list_numbers.
From S2P Require Import Prelude MigData EventLog PolicyV2 MigPolicy X509 Startup.
Local Open Scope Z_scope.

Definition SERVTD_TYPE_MIGTD : Z := 0.

(** [TdInfoStruct] of td-shim-tools, without its reserved bytes. *)
Record TdInfoStruct := mkTdInfo {
  attributes : bytes; xfam : bytes; mrtd : bytes; mrconfig_id : bytes; mrowner : bytes; mrownerconfig : bytes;
  rtmr0 : bytes; rtmr1 : bytes; rtmr2 : bytes; rtmr3 : bytes }.

Definition td_fields (t : TdInfoStruct) : list bytes :=
  [attributes t; xfam t; mrtd t; mrconfig_id t; mrowner t; mrownerconfig t; rtmr0 t; rtmr1 t; rtmr2 t; rtmr3 t].

(** The configurable fields a manifest gives. *)
Record Manifest := mkManifest { m_attributes : bytes; m_xfam : bytes; m_mrconfigid : bytes; m_mrowner : bytes; m_mrownerconfig : bytes }.

(** The GUIDs of config.rs. *)
Inductive Guid := MIGTD_POLICY_FFS_GUID | MIGTD_ROOT_CA_FFS_GUID | MIGTD_POLICY_ISSUER_CHAIN_FFS_GUID.

(** td-shim-tools and td-shim-interface: the manifest, MRTD of an image (in either
    format), RTMR0 and RTMR1 with the separators, the configuration volume of an
    image, its files, and the bytes of a structure: its fields in the order of the TDX
    module and the reserved bytes. *)
Class ShimTools := {
  manifest_from_slice : bytes → option Manifest;
  mrtd_of : bool → bytes → bytes;
  separator_rtmrs : bytes * bytes;
  read_cfv : bool → bytes → bytes;
  get_file_from_fv : bytes → Guid → option bytes;
  pack : TdInfoStruct → bytes;
  separator_size : lenz separator_rtmrs.2 = 48;
  pack_fields t : pack t = concat (td_fields t) ++ zeros 112 }.

Section tool.
Context `{ShimTools} (digest_sha384 : bytes → option bytes).

Notation Res := (outcome unit).

Definition calculate_digest (data : bytes) : Res bytes :=
  digest ← or_err (digest_sha384 data) tt;
  if negb (lenz digest =? SHA384_DIGEST_SIZE) then Err tt else Ok digest.

(** *** [Rtmr]: the register and the digest that extends it *)

Record Rtmr := mkRtmr { reg : bytes }.

Definition Rtmr_new : Rtmr := mkRtmr (zeros (SHA384_DIGEST_SIZE * 2)).

Definition new_with_value (value : bytes) : Res Rtmr :=
  match write_at (zeros (SHA384_DIGEST_SIZE * 2)) 0 value with Some r => Ok (mkRtmr r) | None => Panic end.

Definition extend_with_raw_data (r : Rtmr) (data : bytes) : Res Rtmr :=
  d ← calculate_digest data;
  match write_at (reg r) SHA384_DIGEST_SIZE d with
  | None => Panic
  | Some b =>
      d ← calculate_digest b;
      match write_at b 0 d with None => Panic | Some b => Ok (mkRtmr b) end
  end.

Definition rtmr_as_bytes (r : Rtmr) : bytes := take (Z.to_nat SHA384_DIGEST_SIZE) (reg r).

(** *** The registers *)

Definition predict_rtmr1 (cfv : bytes) (value : bytes) (is_policy_v2 : bool) : Res bytes :=
  r ← new_with_value value;
  r ← (if is_policy_v2 then
         policy_issuer_chain ← or_err (get_file_from_fv cfv MIGTD_POLICY_ISSUER_CHAIN_FFS_GUID) tt;
         extend_with_raw_data r policy_issuer_chain
       else Ok r);
  Ok (rtmr_as_bytes r).

Definition predict_rtmr2 (cfv : bytes) (is_ra_disabled is_policy_v2 : bool) : Res bytes :=
  let r := Rtmr_new in
  r ← (if negb is_ra_disabled then
         policy ← or_err (get_file_from_fv cfv MIGTD_POLICY_FFS_GUID) tt;
         r ← extend_with_raw_data r policy;
         if negb is_policy_v2 then
           root_ca ← or_err (get_file_from_fv cfv MIGTD_ROOT_CA_FFS_GUID) tt;
           extend_with_raw_data r root_ca
         else Ok r
       else extend_with_raw_data r TEST_DISABLE_RA_AND_ACCEPT_ALL_EVENT);
  Ok (rtmr_as_bytes r).

(** [field.fill(0)] of each field. *)
Definition clear_field (k : nat) (t : TdInfoStruct) : TdInfoStruct :=
  let z b := zeros (lenz b) in
  match k with
  | 0%nat => mkTdInfo (z (attributes t)) (xfam t) (mrtd t) (mrconfig_id t) (mrowner t) (mrownerconfig t) (rtmr0 t) (rtmr1 t) (rtmr2 t) (rtmr3 t)
  | 1%nat => mkTdInfo (attributes t) (z (xfam t)) (mrtd t) (mrconfig_id t) (mrowner t) (mrownerconfig t) (rtmr0 t) (rtmr1 t) (rtmr2 t) (rtmr3 t)
  | 2%nat => mkTdInfo (attributes t) (xfam t) (z (mrtd t)) (mrconfig_id t) (mrowner t) (mrownerconfig t) (rtmr0 t) (rtmr1 t) (rtmr2 t) (rtmr3 t)
  | 3%nat => mkTdInfo (attributes t) (xfam t) (mrtd t) (z (mrconfig_id t)) (mrowner t) (mrownerconfig t) (rtmr0 t) (rtmr1 t) (rtmr2 t) (rtmr3 t)
  | 4%nat => mkTdInfo (attributes t) (xfam t) (mrtd t) (mrconfig_id t) (z (mrowner t)) (mrownerconfig t) (rtmr0 t) (rtmr1 t) (rtmr2 t) (rtmr3 t)
  | 5%nat => mkTdInfo (attributes t) (xfam t) (mrtd t) (mrconfig_id t) (mrowner t) (z (mrownerconfig t)) (rtmr0 t) (rtmr1 t) (rtmr2 t) (rtmr3 t)
  | 6%nat => mkTdInfo (attributes t) (xfam t) (mrtd t) (mrconfig_id t) (mrowner t) (mrownerconfig t) (z (rtmr0 t)) (rtmr1 t) (rtmr2 t) (rtmr3 t)
  | 7%nat => mkTdInfo (attributes t) (xfam t) (mrtd t) (mrconfig_id t) (mrowner t) (mrownerconfig t) (rtmr0 t) (z (rtmr1 t)) (rtmr2 t) (rtmr3 t)
  | 8%nat => mkTdInfo (attributes t) (xfam t) (mrtd t) (mrconfig_id t) (mrowner t) (mrownerconfig t) (rtmr0 t) (rtmr1 t) (z (rtmr2 t)) (rtmr3 t)
  | _ => mkTdInfo (attributes t) (xfam t) (mrtd t) (mrconfig_id t) (mrowner t) (mrownerconfig t) (rtmr0 t) (rtmr1 t) (rtmr2 t) (z (rtmr3 t))
  end.

Definition IGNORE_FIELDS : list (Z * nat) :=
  [(SERVTD_ATTR_IGNORE_ATTRIBUTES, 0%nat); (SERVTD_ATTR_IGNORE_XFAM, 1%nat); (SERVTD_ATTR_IGNORE_MRTD, 2%nat);
   (SERVTD_ATTR_IGNORE_MRCONFIGID, 3%nat); (SERVTD_ATTR_IGNORE_MROWNER, 4%nat); (SERVTD_ATTR_IGNORE_MROWNERCONFIG, 5%nat);
   (SERVTD_ATTR_IGNORE_RTMR0, 6%nat); (SERVTD_ATTR_IGNORE_RTMR1, 7%nat); (SERVTD_ATTR_IGNORE_RTMR2, 8%nat); (SERVTD_ATTR_IGNORE_RTMR3, 9%nat)].

(** The ten conditional fills, in order. *)
Definition ignore_fields (servtd_attr : Z) (t : TdInfoStruct) : TdInfoStruct :=
  foldl (λ t m, if Z.land servtd_attr m.1 =? 0 then t else clear_field m.2 t) t IGNORE_FIELDS.

(** The structure before the fields are ignored. *)
Definition measured_td_info (manifest image : bytes) (is_ra_disabled is_policy_v2 igvmformat : bool) : Res TdInfoStruct :=
  m ← or_err (manifest_from_slice manifest) tt;
  let '(r0, r1) := separator_rtmrs in
  let cfv := read_cfv igvmformat image in
  r1 ← predict_rtmr1 cfv r1 is_policy_v2;
  r2 ← predict_rtmr2 cfv is_ra_disabled is_policy_v2;
  Ok (mkTdInfo (m_attributes m) (m_xfam m) (mrtd_of igvmformat image) (m_mrconfigid m) (m_mrowner m) (m_mrownerconfig m) r0 r1 r2 (zeros SHA384_DIGEST_SIZE)).

Definition build_td_info (manifest image : bytes) (is_ra_disabled is_policy_v2 : bool) (servtd_attr : Z) (igvmformat : bool) : Res TdInfoStruct :=
  t ← measured_td_info manifest image is_ra_disabled is_policy_v2 igvmformat;
  Ok (ignore_fields servtd_attr t).

Definition calculate_servtd_info_hash (t : TdInfoStruct) : Res bytes := or_err (digest_sha384 (pack t)) tt.

Definition calculate_servtd_hash (servtd_info_hash : bytes) (servtd_type servtd_attr : Z) : Res bytes :=
  if negb (lenz servtd_info_hash =? SHA384_DIGEST_SIZE) then Err tt
  else or_err (digest_sha384 (servtd_info_hash ++ le_bytes 2 servtd_type ++ le_bytes 8 servtd_attr)) tt.

End tool.
