(* ===== verification/MigtdHashSpec.v ===== *)
(** * MigtdHashSpec: the tool and the running TD agree

    The registers migtd-hash predicts from an image are the ones the start-up
    measurements leave, and the hash it computes is the one the check of an initial
    TDINFO_STRUCT accepts (MigtdHash, Startup, MigPolicy). *)
From stdpp Require Import base tactics numbers option strings list list_numbers.
From S2P Require Import Prelude MigData EventLog PolicyV2 MigPolicy MigPolicySpec X509 Attest RaTlsSpec Startup StartupSpec MigtdHash.
Local Open Scope Z_scope.

Section spec.
Context `{S : ShimTools} (sha384 : bytes → option bytes) (Hsha : ∀ x d, sha384 x = Some d → length d = 48%nat).

(** ** Registers *)

(** The value of a register after the extensions [l], from [v]. *)
Definition register_after (i : Z) (v : bytes) (l : list (Z * bytes)) : option bytes :=
  extend_all sha384 v (snd <$> filter (λ e, e.1 = i) l).

Lemma digest_eq data : calculate_digest sha384 data = or_err (sha384 data) tt.
Proof.
  unfold calculate_digest. destruct (sha384 data) as [d|] eqn:E; [|done]. cbn. unfold lenz. by rewrite (Hsha _ _ E).
Qed.

(** One extension of the tool's register. *)
Lemma extend_eq r v data : buffer_of (reg r) v →
  match sha384 data with
  | None => extend_with_raw_data sha384 r data = Err tt
  | Some d =>
      match extend_all sha384 v [d] with
      | None => extend_with_raw_data sha384 r data = Err tt
      | Some v' => ∃ r', extend_with_raw_data sha384 r data = Ok r' ∧ buffer_of (reg r') v'
      end
  end.
Proof.
  intros Hr. unfold extend_with_raw_data. rewrite digest_eq. destruct (sha384 data) as [d|] eqn:Ed; [|done]. cbn [or_err mbind outcome_bind extend_all].
  change SHA384_DIGEST_SIZE with 48.
  destruct (sha384 (v ++ d)) as [v'|] eqn:Ev.
  - destruct (buffer_step _ _ d v' Hr (Hsha _ _ Ed) (Hsha _ _ Ev)) as (-> & E2 & Hb). rewrite digest_eq, Ev. cbn. rewrite E2. by eexists.
  - destruct (buffer_step _ _ d d Hr (Hsha _ _ Ed) (Hsha _ _ Ed)) as (-> & _). by rewrite digest_eq, Ev.
Qed.

Lemma buffer_bytes r v : buffer_of (reg r) v → rtmr_as_bytes r = v.
Proof. intros [_ Hr]. exact Hr. Qed.

(** A register the tool extends with one file, and with two. *)
Lemma predict_one r v data : buffer_of (reg r) v →
  (r' ← extend_with_raw_data sha384 r data; Ok (rtmr_as_bytes r')) =
  or_err (d ← sha384 data; extend_all sha384 v [d]) tt.
Proof.
  intros Hr. pose proof (extend_eq r v data Hr) as E. destruct (sha384 data) as [d|]; [|by rewrite E]. cbn [mbind option_bind].
  destruct (extend_all sha384 v [d]) as [v'|]; [|by rewrite E]. destruct E as (r' & -> & Hb). cbn. by rewrite (buffer_bytes r' v').
Qed.

Lemma predict_two r v data data' : buffer_of (reg r) v →
  (r' ← (r1 ← extend_with_raw_data sha384 r data; extend_with_raw_data sha384 r1 data'); Ok (rtmr_as_bytes r')) =
  or_err (d ← sha384 data; v' ← extend_all sha384 v [d]; d' ← sha384 data'; extend_all sha384 v' [d']) tt.
Proof.
  intros Hr. pose proof (extend_eq r v data Hr) as E. destruct (sha384 data) as [d|]; [|by rewrite E]. cbn [mbind option_bind].
  destruct (extend_all sha384 v [d]) as [v'|]; [|by rewrite E]. destruct E as (r1 & -> & Hb). by apply predict_one.
Qed.

Lemma extend_all_two v d d' : extend_all sha384 v [d; d'] = v' ← extend_all sha384 v [d]; extend_all sha384 v' [d'].
Proof. cbn [extend_all]. by destruct (sha384 (v ++ d)). Qed.

Lemma zero_register : buffer_of (reg Rtmr_new) (zeros 48).
Proof. done. Qed.

Lemma value_register v : lenz v = 48 → ∃ r, new_with_value v = Ok r ∧ buffer_of (reg r) v.
Proof.
  intros Hv. assert (length v = 48%nat) as Hl by (unfold lenz in Hv; lia). unfold new_with_value.
  rewrite write_at_Some by (change (lenz (zeros (SHA384_DIGEST_SIZE * 2))) with 96; lia). eexists. split; [done|]. cbn [reg]. change (Z.to_nat 0) with 0%nat.
  rewrite take_0. cbn [app Nat.add]. split; [rewrite length_app, length_drop; change (length (zeros (SHA384_DIGEST_SIZE * 2))) with 96%nat; lia|].
  by rewrite take_app_length'.
Qed.

(** ** The measurements at start-up *)

Context `{L : CcLog} `{J : PolicyJson} `{C : PolicyCrypto} `{A : Attestation} `{D : Der}.

(** The files of the image's configuration volume. *)
Definition volume (cfv : bytes) : Config :=
  mkConfig (get_file_from_fv cfv MIGTD_POLICY_FFS_GUID) (get_file_from_fv cfv MIGTD_ROOT_CA_FFS_GUID) (get_file_from_fv cfv MIGTD_POLICY_ISSUER_CHAIN_FFS_GUID).

Definition measure_volume (cfv : bytes) (own_report : option TdxReport) (test v2 : bool) : BootM unit :=
  if v2 then do_measurements_v2 sha384 (volume cfv) own_report test else do_measurements_v1 sha384 (volume cfv) test.

(** What the measurements extend, in order. *)
Definition extensions (cfv : bytes) (test v2 : bool) : option (list (Z * bytes)) :=
  if test then d ← sha384 TEST_DISABLE_RA_AND_ACCEPT_ALL_EVENT; Some [(2, d)]
  else if v2 then
    chain ← get_file_from_fv cfv MIGTD_POLICY_ISSUER_CHAIN_FFS_GUID; policy ← get_file_from_fv cfv MIGTD_POLICY_FFS_GUID;
    dc ← sha384 chain; dp ← sha384 policy; Some [(1, dc); (2, dp)]
  else
    policy ← get_file_from_fv cfv MIGTD_POLICY_FFS_GUID; root_ca ← get_file_from_fv cfv MIGTD_ROOT_CA_FFS_GUID;
    dp ← sha384 policy; dr ← sha384 root_ca; Some [(2, dp); (2, dr)].

Lemma start_extends cfv own_report test v2 td_info alloc registered b b' : bt_verified b = None →
  runtime_main (measure_volume cfv own_report test v2) td_info alloc registered b = (Ok tt, b') →
  ∃ l, extensions cfv test v2 = Some l ∧ mr_extended (bt_mr b') = mr_extended (bt_mr b) ++ l.
Proof.
  intros Hnone (b1 & (_ & Hmr & Hver & _)%start_logging_Ok & Hm)%runtime_main_Ok. rewrite <-Hver in Hnone. rewrite <-Hmr. clear Hmr Hver.
  unfold measure_volume in Hm. unfold extensions. destruct test.
  - assert (measure_test_feature sha384 b1 = (Ok tt, b')) as Ht.
    { destruct v2; [unfold do_measurements_v2 in Hm|unfold do_measurements_v1 in Hm]; rewrite getS_bind in Hm; by destruct (bt_event_log b1). }
    apply measure_Ok in Ht as (d & log & Hd & Hx & _); [|done]. rewrite Hd. exists [(2, d)]. by split.
  - destruct v2.
    + apply do_measurements_v2_Ok in Hm as (chain & policy & raw & vp & der & dc & dp & log & Hc & Hp & Hdc & Hdp & Hx & _); [|done|done].
      cbn in Hc, Hp. rewrite Hc, Hp. cbn. rewrite Hdc, Hdp. by exists [(1, dc); (2, dp)].
    + apply do_measurements_v1_Ok in Hm as (policy & root & dp & dr & log & Hp & Hr & Hdp & Hdr & Hx & _); [|done].
      cbn in Hr, Hp. rewrite Hr, Hp. cbn. rewrite Hdp, Hdr. by exists [(2, dp); (2, dr)].
Qed.

(** The registers of those extensions are the predicted ones. *)
Lemma extensions_rtmr2 cfv test v2 l : extensions cfv test v2 = Some l →
  predict_rtmr2 sha384 cfv test v2 = or_err (register_after 2 (zeros 48) l) tt.
Proof.
  intros E. unfold predict_rtmr2, register_after, extensions in *. destruct test; cbn [negb].
  - apply bind_Some in E as (d & Hd & [= <-]). rewrite (predict_one _ _ _ zero_register), Hd. done.
  - destruct v2; cbn [negb].
    + apply bind_Some in E as (chain & _ & E). apply bind_Some in E as (policy & Hp & E). apply bind_Some in E as (dc & _ & E).
      apply bind_Some in E as (dp & Hdp & [= <-]). rewrite Hp. cbn [or_err mbind outcome_bind].
      transitivity (r' ← extend_with_raw_data sha384 Rtmr_new policy; Ok (E := unit) (rtmr_as_bytes r')); [by destruct (extend_with_raw_data _ _ _)|].
      rewrite (predict_one _ _ _ zero_register), Hdp. done.
    + apply bind_Some in E as (policy & Hp & E). apply bind_Some in E as (root_ca & Hr & E). apply bind_Some in E as (dp & Hdp & E).
      apply bind_Some in E as (dr & Hdr & [= <-]). rewrite Hp, Hr. cbn [or_err mbind outcome_bind].
      rewrite (predict_two _ _ _ _ zero_register), Hdp, Hdr. cbn [mbind option_bind]. f_equal. symmetry. apply extend_all_two.
Qed.

Lemma extensions_rtmr1 cfv v test v2 l : lenz v = 48 → test && v2 = false → extensions cfv test v2 = Some l →
  predict_rtmr1 sha384 cfv v v2 = or_err (register_after 1 v l) tt.
Proof.
  intros Hv Ht E. destruct (value_register v Hv) as (r & Er & Hr). unfold predict_rtmr1, register_after, extensions in *. rewrite Er. cbn [mbind outcome_bind].
  destruct test; [destruct v2; [done|]|destruct v2].
  - apply bind_Some in E as (d & Hd & [= <-]). cbn. by rewrite (buffer_bytes r v).
  - apply bind_Some in E as (chain & Hc & E). apply bind_Some in E as (policy & _ & E). apply bind_Some in E as (dc & Hdc & E).
    apply bind_Some in E as (dp & _ & [= <-]). rewrite Hc. cbn [or_err mbind outcome_bind]. rewrite (predict_one _ _ _ Hr), Hdc. done.
  - repeat (apply bind_Some in E as (? & _ & E)). injection E as <-. cbn. by rewrite (buffer_bytes r v).
Qed.

(** With the test feature nothing is extended into RTMR1. *)
Lemma extensions_test_rtmr1 cfv v v2 l : extensions cfv true v2 = Some l → register_after 1 v l = Some v.
Proof. intros (d & _ & [= <-])%bind_Some. done. Qed.

(** ** Ignored fields *)

Definition FIELD_SIZES : list Z := [8; 8; 48; 48; 48; 48; 48; 48; 48; 48].
Definition sized (t : TdInfoStruct) : Prop := lenz <$> td_fields t = FIELD_SIZES.

(** Filling the [k]-th of adjacent fields. *)
Lemma fill_nth (l : list bytes) k f rest : l !! k = Some f →
  fill_zero (concat l ++ rest) (lenz (concat (take k l)), lenz (concat (take k l)) + lenz f) = concat (<[k := zeros (lenz f)]> l) ++ rest.
Proof.
  intros Hk. pose proof (lookup_lt_Some _ _ _ Hk) as Hl. rewrite insert_take_drop by done. rewrite <-(take_drop_middle l k f Hk) at 1.
  rewrite !concat_app. cbn [concat]. unfold fill_zero. cbn [fst snd]. rewrite <-!app_assoc. set (p := concat (take k l)). set (q := concat _ ++ rest).
  replace (lenz p + lenz f - lenz p) with (lenz f) by lia. unfold lenz. rewrite Nat2Z.id, take_app_length.
  replace (Z.to_nat (Z.of_nat (length p) + Z.of_nat (length f))) with (length (p ++ f)) by (rewrite length_app; lia).
  by rewrite (app_assoc p f q), drop_app_length.
Qed.

(** Both lists of masks name the same bits and fields. *)
Definition same_mask (m : Z * (Z * Z)) (n : Z * nat) : Prop :=
  m.1 = n.1 ∧ ∀ t, sized t → fill_zero (pack t) m.2 = pack (clear_field n.2 t) ∧ sized (clear_field n.2 t).

Lemma masks_agree : Forall2 same_mask IGNORE_MASKS IGNORE_FIELDS.
Proof.
  assert (∀ t k f r, sized t → td_fields t !! k = Some f → r = (lenz (concat (take k (td_fields t))), lenz (concat (take k (td_fields t))) + lenz f) →
    td_fields (clear_field k t) = <[k := zeros (lenz f)]> (td_fields t) → fill_zero (pack t) r = pack (clear_field k t) ∧ sized (clear_field k t)) as Hstep.
  { intros t k f r Hs Hf -> Hc. split; [by rewrite !pack_fields, Hc, fill_nth|]. unfold sized in *. rewrite Hc, list_fmap_insert, Hs.
    apply list_insert_id. rewrite <-Hs, list_lookup_fmap. etransitivity; [exact (f_equal (fmap lenz) Hf)|]. cbn.
    rewrite lenz_zeros; [done|]. unfold lenz. lia. }
  unfold IGNORE_MASKS, IGNORE_FIELDS. repeat (apply List.Forall2_cons; [split; [reflexivity|]|]); [..|apply List.Forall2_nil].
  all: intros t Hs; eapply Hstep; [exact Hs|reflexivity| |reflexivity].
  all: unfold sized, td_fields, FIELD_SIZES in Hs; cbn in Hs; injection Hs as H0 H1 H2 H3 H4 H5 H6 H7 H8 H9; unfold td_fields; cbn [fst snd take concat].
  all: rewrite ?app_nil_r, ?lenz_app, ?H0, ?H1, ?H2, ?H3, ?H4, ?H5, ?H6, ?H7, ?H8, ?H9; reflexivity.
Qed.

Lemma ignore_fields_pack attr t : sized t → pack (ignore_fields attr t) = apply_masks attr (pack t).
Proof.
  unfold ignore_fields, apply_masks. revert t. induction masks_agree as [|m n ms ns [Hm Hf] _ IH]; intros t Hs; [done|].
  cbn [foldl]. rewrite Hm. destruct (Z.land attr n.1 =? 0); [by apply IH|]. destruct (Hf t Hs) as [-> Hs']. by apply IH.
Qed.

Lemma pack_size t : sized t → lenz (pack t) = TD_INFO_SIZE.
Proof.
  intros Hs. rewrite pack_fields, lenz_app. unfold sized, td_fields, FIELD_SIZES in Hs. cbn in Hs. injection Hs as ??????????.
  unfold td_fields. cbn [concat]. rewrite !lenz_app. change (lenz (zeros 112)) with 112. change (lenz (@nil Z)) with 0. unfold TD_INFO_SIZE. lia.
Qed.

(** The parts of the structure the tool computes. *)
Lemma measured_parts manifest image test v2 igvm t : measured_td_info sha384 manifest image test v2 igvm = Ok t →
  ∃ m, manifest_from_slice manifest = Some m ∧
    predict_rtmr1 sha384 (read_cfv igvm image) separator_rtmrs.2 v2 = Ok (rtmr1 t) ∧
    predict_rtmr2 sha384 (read_cfv igvm image) test v2 = Ok (rtmr2 t) ∧
    t = mkTdInfo (m_attributes m) (m_xfam m) (mrtd_of igvm image) (m_mrconfigid m) (m_mrowner m) (m_mrownerconfig m)
          separator_rtmrs.1 (rtmr1 t) (rtmr2 t) (zeros 48).
Proof.
  unfold measured_td_info. destruct (manifest_from_slice manifest) as [m|]; [|done]. cbn [or_err mbind outcome_bind].
  destruct separator_rtmrs as [r0 r1]. cbn [fst snd]. intros (x1 & E1 & (x2 & E2 & [= <-])%bind_Ok)%bind_Ok. exists m. cbn. by rewrite E1, E2.
Qed.

Lemma or_err_inj {X} (o : option X) x : or_err o tt = Ok x → o = Some x.
Proof. by intros ->%or_err_Ok. Qed.

(** C21 The tool predicts the running TD.  Let a migration TD be started from an image
    and reach its request loop, and let migtd-hash compute a structure from the same
    image: its RTMR2 is the value of the TD's RTMR2 after the start, its RTMR1 that of
    RTMR1 from the value the separators leave (unless the image has both the test
    feature and a version 2 policy: then the TD leaves RTMR1 alone, and the tool extends
    it with the issuer chain all the same), and its other fields are those of the
    manifest, the MRTD of the image, the separators' RTMR0 and a clear RTMR3; and the hash it
    prints for any service TD attributes is exactly the one that the check of an initial
    TDINFO_STRUCT accepts for this structure under the same attributes. *)
Theorem tool_predicts_td own_report test v2 td_info alloc registered b b' manifest image igvm attr t :
  bt_verified b = None → mr_extended (bt_mr b) = [] →
  runtime_main (measure_volume (read_cfv igvm image) own_report test v2) td_info alloc registered b = (Ok tt, b') →
  measured_td_info sha384 manifest image test v2 igvm = Ok t → sized t →
  register_after 2 (zeros 48) (mr_extended (bt_mr b')) = Some (rtmr2 t) ∧
  (if test && v2
   then register_after 1 separator_rtmrs.2 (mr_extended (bt_mr b')) = Some separator_rtmrs.2 ∧
     (chain ← get_file_from_fv (read_cfv igvm image) MIGTD_POLICY_ISSUER_CHAIN_FFS_GUID;
      d ← sha384 chain; extend_all sha384 separator_rtmrs.2 [d]) = Some (rtmr1 t)
   else register_after 1 separator_rtmrs.2 (mr_extended (bt_mr b')) = Some (rtmr1 t)) ∧
  (∃ m, manifest_from_slice manifest = Some m ∧
     td_fields t = [m_attributes m; m_xfam m; mrtd_of igvm image; m_mrconfigid m; m_mrowner m; m_mrownerconfig m;
                    separator_rtmrs.1; rtmr1 t; rtmr2 t; zeros 48]) ∧
  (∀ h, (info ← build_td_info sha384 manifest image test v2 attr igvm; calculate_servtd_info_hash sha384 info) = Ok h ↔
        ∃ info, verify_servtd_info_hash sha384 (pack t) attr h = Ok info).
Proof.
  intros Hnone Hmr Hrun Ht Hs. destruct (start_extends _ _ _ _ _ _ _ _ _ Hnone Hrun) as (l & Hl & Hx). rewrite Hmr in Hx. cbn [app] in Hx. rewrite Hx.
  destruct (measured_parts _ _ _ _ _ _ Ht) as (m & Hm & H1 & H2 & Hf). split; [|split; [|split]].
  - rewrite (extensions_rtmr2 _ _ _ _ Hl) in H2. by apply or_err_inj.
  - destruct (test && v2) eqn:Htv.
    + apply andb_true_iff in Htv as [-> ->]. split; [by eapply extensions_test_rtmr1|].
      destruct (value_register _ separator_size) as (r & Er & Hr). unfold predict_rtmr1 in H1. rewrite Er in H1. cbn [mbind outcome_bind] in H1.
      destruct (get_file_from_fv _ MIGTD_POLICY_ISSUER_CHAIN_FFS_GUID) as [chain|]; [|done]. cbn [or_err mbind outcome_bind option_bind] in *.
      rewrite (predict_one _ _ _ Hr) in H1. by apply or_err_inj.
    + rewrite (extensions_rtmr1 _ _ _ _ _ separator_size Htv Hl) in H1. by apply or_err_inj.
  - exists m. split; [done|]. rewrite Hf at 1. done.
  - intros h. unfold build_td_info, calculate_servtd_info_hash, verify_servtd_info_hash. rewrite Ht, (pack_size t Hs). cbn [mbind outcome_bind].
    rewrite (ignore_fields_pack attr t Hs). change (TD_INFO_SIZE <? TD_INFO_SIZE) with false.
    rewrite take_ge by (pose proof (pack_size t Hs); unfold lenz in *; lia).
    destruct (sha384 (apply_masks attr (pack t))) as [h'|]; cbn; [|split; [done|by intros [? ?]]]. case_bool_decide as Hh; cbn.
    + subst h'. split; [intros _; by eexists|done].
    + split; [by intros [= ->]|by intros [? ?]].
Qed.
End spec.

(** ** The start of StartupSpec and its image *)

Module HashSample.
Import StartupSample.

#[local, refine] Instance tools : ShimTools := {
  manifest_from_slice _ := Some (mkManifest (zeros 8) (zeros 8) (zeros 48) (zeros 48) (zeros 48));
  mrtd_of _ _ := replicate 48 1; separator_rtmrs := (zeros 48, zeros 48); read_cfv _ image := image;
  get_file_from_fv _ g := match g with
    | MIGTD_POLICY_FFS_GUID => cf_policy config | MIGTD_ROOT_CA_FFS_GUID => cf_root_ca config
    | MIGTD_POLICY_ISSUER_CHAIN_FFS_GUID => cf_policy_issuer_chain config end;
  pack t := concat (td_fields t) ++ zeros 112 }.
Proof. all: done. Defined.

Definition predicted : TdInfoStruct := Eval vm_compute in
  match measured_td_info EventLog.Sample.last_digest [] [] false true false with Ok t => t | _ => mkTdInfo [] [] [] [] [] [] [] [] [] [] end.

Lemma predicted_run : measured_td_info EventLog.Sample.last_digest [] [] false true false = Ok predicted.
Proof. vm_compute. reflexivity. Qed.

Lemma volume_run : runtime_main (measure_volume EventLog.Sample.last_digest (L := EventLog.Sample.log) (J := MigPolicySpec.Demo.json)
  (C := MigPolicySpec.Demo.crypto) (A := MigPolicySpec.Demo.attestation) (D := der) [] (Some own) false true) None (λ _, None) true boot = (Ok tt, started).
Proof. vm_compute. reflexivity. Qed.

Lemma tool_predicts_td_witness :
  register_after EventLog.Sample.last_digest 2 (zeros 48) (mr_extended (bt_mr started)) = Some (rtmr2 predicted) ∧
  register_after EventLog.Sample.last_digest 1 (zeros 48) (mr_extended (bt_mr started)) = Some (rtmr1 predicted).
Proof.
  destruct (tool_predicts_td EventLog.Sample.last_digest EventLog.Sample.last_digest_len (L := EventLog.Sample.log)
    (J := MigPolicySpec.Demo.json) (C := MigPolicySpec.Demo.crypto) (A := MigPolicySpec.Demo.attestation) (D := der)
    (Some own) false true None (λ _, None) true boot started [] [] false 0 predicted eq_refl eq_refl volume_run predicted_run eq_refl)
    as (H2 & H1 & _).
  exact (conj H2 H1).
Defined.

End HashSample.
