(* ===== verification/SpdmMsg.v ===== *)
(** * SpdmMsg: the messages of the SPDM sessions

    src/migtd/src/spdm: the vendor-defined messages (spdm_vdm.rs), the framing on
    the data channel (vmcall_msg.rs) and the transport, report data, key and
    status helpers of mod.rs, with the feature [policy_v2].  spdmlib and its codec
    are the class [SpdmLib]: the encoding of integers and of the library's own
    headers, its size limits, and a writer that takes bytes while they fit. *)
From stdpp Require Import base tactics numbers list list_numbers option strings gmap.
From S2P Require Import Prelude MigData PreSession ServtdExt EventLog PolicyV2 Quote MigPolicy X509 RaTls.
Local Open Scope Z_scope.

(** ** Status *)

Module SpdmCode.
Inductive t :=
  | BUFFER_FULL | INVALID_MSG_FIELD | INVALID_MSG_SIZE | INVALID_STATE_LOCAL | INVALID_PARAMETER | UNSUPPORTED_CAP
  | CRYPTO_ERROR | SEND_FAIL | RECEIVE_FAIL | ENCAP_FAIL | DECAP_FAIL | Other (n : Z).

#[global] Instance t_eq_dec : EqDecision t.
Proof. solve_decision. Defined.
End SpdmCode.

Inductive StatusSeverity := SeveritySuccess | SeverityError | SeverityUnknown.
#[global] Instance StatusSeverity_eq_dec : EqDecision StatusSeverity.
Proof. solve_decision. Defined.

Inductive StatusCode := StatusSuccess | StatusVdm (vdm_error_code : Z) | StatusLib (c : SpdmCode.t).
#[global] Instance StatusCode_eq_dec : EqDecision StatusCode.
Proof. solve_decision. Defined.

(** [error_data] is the received error message, up to its length. *)
Record SpdmStatus := mkStatus { severity : StatusSeverity; status_code : StatusCode; error_data : option bytes }.
#[global] Instance SpdmStatus_eq_dec : EqDecision SpdmStatus.
Proof. solve_decision. Defined.

(** The constants [SPDM_STATUS_*]. *)
Definition spdm_status (c : SpdmCode.t) : SpdmStatus := mkStatus SeverityError (StatusLib c) None.

Definition spdm_from_mig_result (r : MigrationResult) : SpdmStatus :=
  if bool_decide (r = MigrationResult.Success) then mkStatus SeveritySuccess StatusSuccess None
  else mkStatus SeverityError (StatusVdm (MigrationResult.as_u8 r)) None.

(** [vdm_error_code as u8] *)
Definition mig_result_from_spdm (s : SpdmStatus) : MigrationResult :=
  if bool_decide (severity s = SeveritySuccess) then MigrationResult.Success
  else match status_code s with
  | StatusVdm code => default MigrationResult.SecureSessionError (MigrationResult.try_from (as_u 8 code))
  | _ => MigrationResult.SecureSessionError
  end.

(** [impl From<CryptoError> for MigrationResult] (migration/mod.rs). *)
Definition mig_result_from_crypto (e : CryptoError.t) : MigrationResult :=
  match e with
  | CryptoError.TlsVerifyPeerCert desc =>
      if bool_decide (desc = MIG_POLICY_UNSATISFIED_ERROR) then MigrationResult.PolicyUnsatisfiedError
      else if bool_decide (desc = INVALID_MIG_POLICY_ERROR) then MigrationResult.InvalidPolicyError
      else if bool_decide (desc = MUTUAL_ATTESTATION_ERROR) then MigrationResult.MutualAttestationError
      else MigrationResult.SecureSessionError
  | _ => MigrationResult.SecureSessionError
  end.

(** ** The library *)

Record VendorIDStruct := mkVendor { vendor_len : Z; vendor_id : bytes }.

Inductive SpdmErrorCode := SpdmErrorVersionMismatch | SpdmErrorInvalidRequest | SpdmErrorVendorDefined | SpdmErrorUnspecified.

(** What both sides agreed on. *)
Record NegotiateInfo := mkNegotiate { spdm_version_sel : Z; rsp_large_resp_cap : bool; req_large_resp_cap : bool }.

(** [write_spdm_error code data w] is what the writer holds after an error message
    is written behind [w]; [overrun] the same when the encoding before it failed;
    [partial] what a buffer holds after an encoding that did not fit;
    [append_message] is that of [ManagedVdmBuffer]. *)
Class SpdmLib := {
  int_bytes : nat → Z → bytes;
  int_val : nat → bytes → Z;
  header_bytes : Z → Z → bytes;
  header_read : Rd (Z * Z);
  flags_bytes : bool → bytes;
  flags_read : Rd bool;
  standard_bytes : Z → bytes;
  standard_read : Rd Z;
  vendor_bytes : VendorIDStruct → bytes;
  vendor_read : Rd VendorIDStruct;
  IANA : Z;
  SpdmVersion14 : Z;
  SpdmRequestVendorDefinedRequest : Z;
  SpdmResponseVendorDefinedResponse : Z;
  VendorDefinedErrorByte : Z;
  MAX_SPDM_VENDOR_DEFINED_VENDOR_ID_LEN : Z;
  MAX_SPDM_VENDOR_DEFINED_PAYLOAD_SIZE : Z;
  MAX_SPDM_MSG_SIZE : Z;
  MAX_SPDM_CERT_CHAIN_DATA_SIZE : Z;
  SPDM_MAX_HASH_SIZE : Z;
  write_spdm_error : SpdmErrorCode → Z → bytes → bytes;
  overrun : SpdmErrorCode → bytes → bytes;
  partial : bytes → bytes → bytes;
  append_message : bytes → bytes → option bytes;
  length_int_bytes n z : length (int_bytes n z) = n;
  int_val_bytes n z : 0 <= z < 2 ^ (8 * Z.of_nat n) → int_val n (int_bytes n z) = z;
  int_val_range n bs : length bs = n → 0 <= int_val n bs < 2 ^ (8 * Z.of_nat n);
  header_reads v c rest : header_read (header_bytes v c ++ rest) = (Ok (v, c), rest);
  flags_reads b rest : flags_read (flags_bytes b ++ rest) = (Ok b, rest);
  standard_reads z rest : standard_read (standard_bytes z ++ rest) = (Ok z, rest);
  vendor_reads v rest : lenz (vendor_id v) = MAX_SPDM_VENDOR_DEFINED_VENDOR_ID_LEN →
    vendor_read (vendor_bytes v ++ rest) = (Ok v, rest);
  vendor_read_len r v r' : vendor_read r = (Ok v, r') → lenz (vendor_id v) = MAX_SPDM_VENDOR_DEFINED_VENDOR_ID_LEN;
  append_appends a b r : append_message a b = Some r → r = a ++ b;
  length_partial b e : lenz (partial b e) = lenz b;
  vendor_room : 4 <= MAX_SPDM_VENDOR_DEFINED_VENDOR_ID_LEN }.

Section codec.
Context `{SpdmLib}.

(** [u8::read], [u16::read], ... and [reader.take]. *)
Definition read_int (n : nat) : Rd Z := x ← gread_bytes n; mret (int_val n x).

Fixpoint read_ints (n k : nat) : Rd (list Z) :=
  match k with O => mret [] | S k => x ← read_int n; l ← read_ints n k; mret (x :: l) end.

Definition ints_bytes (n : nat) (l : list Z) : bytes := concat (map (int_bytes n) l).

(** Encoding [bs] into a writer over [cap] bytes that holds [w]. *)
Definition put {E} (cap : Z) (e : E) (bs w : bytes) : outcome E bytes :=
  if lenz w + lenz bs <=? cap then Ok (w ++ bs) else Err e.

(** [read(..).ok_or(e)?]: the value and what is left. *)
Definition rd {A E} (m : Rd A) (e : E) (r : bytes) : outcome E (A * bytes) :=
  match m r with
  | (Ok a, r') => Ok (a, r')
  | _ => Err e
  end.

(** ** Vendor-defined messages *)

Definition VDM_MESSAGE_VENDOR_ID : bytes := [0x57; 0x1; 0x0; 0x0].
Definition VDM_MESSAGE_VENDOR_ID_LEN : Z := 4.
Definition VDM_MESSAGE_MAJOR_VERSION : Z := 0.
Definition VDM_MESSAGE_MINOR_VERSION : Z := 0.
Definition VDM_MESSAGE_EXCHANGE_PUB_KEY_REQ_ELEMENT_COUNT : Z := 1.
Definition VDM_MESSAGE_EXCHANGE_PUB_KEY_RSP_ELEMENT_COUNT : Z := 1.
Definition VDM_MESSAGE_EXCHANGE_MIGRATION_ATTEST_INFO_REQ_ELEMENT_COUNT : Z := 5.
Definition VDM_MESSAGE_EXCHANGE_MIGRATION_ATTEST_INFO_RSP_ELEMENT_COUNT : Z := 3.
Definition VDM_MESSAGE_EXCHANGE_MIGRATION_INFO_REQ_ELEMENT_COUNT : Z := 2.
Definition VDM_MESSAGE_EXCHANGE_MIGRATION_INFO_RSP_ELEMENT_COUNT : Z := 2.
Definition VDM_MESSAGE_EXCHANGE_REBIND_ATTEST_INFO_REQ_WITH_HISTORY_INFO_ELEMENT_COUNT : Z := 5.
Definition VDM_MESSAGE_EXCHANGE_REBIND_ATTEST_INFO_RSP_ELEMENT_COUNT : Z := 3.
Definition VDM_MESSAGE_EXCHANGE_REBIND_INFO_ELEMENT_REQ_COUNT : Z := 1.
Definition VDM_MESSAGE_EXCHANGE_REBIND_INFO_ELEMENT_RSP_COUNT : Z := 0.
Definition VDM_MESSAGE_MIGRATION_EXPORT_VERSION_SIZE : Z := 4.
Definition VDM_MESSAGE_FORWARD_MIGRATION_SESSION_KEY_SIZE : Z := 32.
Definition VDM_MESSAGE_MIGRATION_IMPORT_VERSION_SIZE : Z := 4.
Definition VDM_MESSAGE_BACKWARD_MIGRATION_SESSION_KEY_SIZE : Z := 32.
Definition VDM_MESSAGE_REBIND_SESSION_TOKEN_SIZE : Z := 32.

(** A value without a name is kept as it is. *)
Inductive VdmMessageOpCode :=
  | OpCodeUnknown | ExchangePubKeyReq | ExchangePubKeyRsp | ExchangeMigrationAttestInfoReq | ExchangeMigrationAttestInfoRsp
  | ExchangeMigrationInfoReq | ExchangeMigrationInfoRsp | ExchangeRebindAttestInfoReq | ExchangeRebindAttestInfoRsp
  | ExchangeRebindInfoReq | ExchangeRebindInfoRsp | OpCodeOther (x : Z).

#[global] Instance VdmMessageOpCode_eq_dec : EqDecision VdmMessageOpCode.
Proof. solve_decision. Defined.

Definition op_code_u8 (o : VdmMessageOpCode) : Z :=
  match o with
  | OpCodeUnknown => 0 | ExchangePubKeyReq => 1 | ExchangePubKeyRsp => 2 | ExchangeMigrationAttestInfoReq => 3
  | ExchangeMigrationAttestInfoRsp => 4 | ExchangeMigrationInfoReq => 5 | ExchangeMigrationInfoRsp => 6
  | ExchangeRebindAttestInfoReq => 7 | ExchangeRebindAttestInfoRsp => 8 | ExchangeRebindInfoReq => 9
  | ExchangeRebindInfoRsp => 0x0A | OpCodeOther x => x
  end.

Definition op_code_of (x : Z) : VdmMessageOpCode :=
  match x with
  | 0 => OpCodeUnknown | 1 => ExchangePubKeyReq | 2 => ExchangePubKeyRsp | 3 => ExchangeMigrationAttestInfoReq
  | 4 => ExchangeMigrationAttestInfoRsp | 5 => ExchangeMigrationInfoReq | 6 => ExchangeMigrationInfoRsp
  | 7 => ExchangeRebindAttestInfoReq | 8 => ExchangeRebindAttestInfoRsp | 9 => ExchangeRebindInfoReq
  | 10 => ExchangeRebindInfoRsp | _ => OpCodeOther x
  end.

Record VdmMessage := mkVdm { major_version : Z; minor_version : Z; op_code : VdmMessageOpCode; element_count : Z }.

Definition VdmMessage_encode (m : VdmMessage) : bytes :=
  int_bytes 1 (major_version m) ++ int_bytes 1 (minor_version m) ++ int_bytes 1 (op_code_u8 (op_code m)) ++ int_bytes 1 (element_count m).

Definition VdmMessage_read : Rd VdmMessage :=
  major_version ← read_int 1;
  minor_version ← read_int 1;
  op_code ← read_int 1;
  element_count ← read_int 1;
  mret (mkVdm major_version minor_version (op_code_of op_code) element_count).

(** The four checks every message starts with. *)
Definition check_vdm (m : VdmMessage) (op : VdmMessageOpCode) (count : Z) : outcome SpdmStatus unit :=
  _ ← require (major_version m =? VDM_MESSAGE_MAJOR_VERSION) (spdm_status SpdmCode.INVALID_MSG_FIELD);
  _ ← require (minor_version m =? VDM_MESSAGE_MINOR_VERSION) (spdm_status SpdmCode.INVALID_MSG_FIELD);
  _ ← require (bool_decide (op_code m = op)) (spdm_status SpdmCode.INVALID_MSG_FIELD);
  require (element_count m =? count) (spdm_status SpdmCode.INVALID_MSG_FIELD).

Inductive VdmMessageElementType :=
  | ElementUnknown | PubKeyMy | TdReportMy | QuoteMy | EventLogMy | MigPolicyMy | SerVtdExt | TdReportInit | EventLogInit
  | MigrationExportVersion | MigrationImportVersion | ForwardMigrationSessionKey | BackwardMigrationSessionKey
  | RebindSessionToken | ElementOther (x : Z).

#[global] Instance VdmMessageElementType_eq_dec : EqDecision VdmMessageElementType.
Proof. solve_decision. Defined.

Definition element_u16 (e : VdmMessageElementType) : Z :=
  match e with
  | ElementUnknown => 0x00 | PubKeyMy => 0x01 | TdReportMy => 0x02 | QuoteMy => 0x03 | EventLogMy => 0x04 | MigPolicyMy => 0x05
  | SerVtdExt => 0x10 | TdReportInit => 0x12 | EventLogInit => 0x14 | MigrationExportVersion => 0x81
  | MigrationImportVersion => 0x82 | ForwardMigrationSessionKey => 0x83 | BackwardMigrationSessionKey => 0x84
  | RebindSessionToken => 0x85 | ElementOther x => x
  end.

Definition element_of (x : Z) : VdmMessageElementType :=
  match x with
  | 0x00 => ElementUnknown | 0x01 => PubKeyMy | 0x02 => TdReportMy | 0x03 => QuoteMy | 0x04 => EventLogMy | 0x05 => MigPolicyMy
  | 0x10 => SerVtdExt | 0x12 => TdReportInit | 0x14 => EventLogInit | 0x81 => MigrationExportVersion
  | 0x82 => MigrationImportVersion | 0x83 => ForwardMigrationSessionKey | 0x84 => BackwardMigrationSessionKey
  | 0x85 => RebindSessionToken | _ => ElementOther x
  end.

Record VdmMessageElement := mkElement { element_type : VdmMessageElementType; el_length : Z }.

Definition VdmMessageElement_encode (e : VdmMessageElement) : bytes :=
  int_bytes 2 (element_u16 (element_type e)) ++ int_bytes 4 (el_length e).

Definition VdmMessageElement_read : Rd VdmMessageElement :=
  element_type ← read_int 2;
  length ← read_int 4;
  mret (mkElement (element_of element_type) length).

(** An element of a given type and its data: the header, [length: data.len() as u32],
    and [extend_from_slice]. *)
Definition put_element (cap : Z) (ty : VdmMessageElementType) (data w : bytes) : outcome SpdmStatus bytes :=
  w ← put cap (spdm_status SpdmCode.BUFFER_FULL) (VdmMessageElement_encode (mkElement ty (as_u 32 (lenz data)))) w;
  put cap (spdm_status SpdmCode.BUFFER_FULL) data w.

Definition read_element_header (ty : VdmMessageElementType) (r : bytes) : outcome SpdmStatus (Z * bytes) :=
  p ← rd VdmMessageElement_read (spdm_status SpdmCode.INVALID_MSG_SIZE) r;
  _ ← require (bool_decide (element_type p.1 = ty)) (spdm_status SpdmCode.INVALID_MSG_FIELD);
  Ok (el_length p.1, p.2).

Definition take_element (ty : VdmMessageElementType) (r : bytes) : outcome SpdmStatus (bytes * bytes) :=
  p ← read_element_header ty r;
  rd (gread_bytes (Z.to_nat p.1)) (spdm_status SpdmCode.INVALID_MSG_SIZE) p.2.

(** ** Payloads; requests and responses have the same codec *)

Record SpdmVdmPayload := mkPayload { standard_id : Z; vp_vendor_id : VendorIDStruct; vp_length : Z; vp_payload : bytes }.

Definition large_payload (n : NegotiateInfo) : bool :=
  (SpdmVersion14 <=? spdm_version_sel n) && rsp_large_resp_cap n && req_large_resp_cap n.

(** [w] is what the writer holds. *)
Definition spdm_encode (n : NegotiateInfo) (cap : Z) (p : SpdmVdmPayload) (w : bytes) : outcome SpdmStatus bytes :=
  let full := spdm_status SpdmCode.BUFFER_FULL in
  w ← put cap full (flags_bytes (large_payload n)) w;
  w ← put cap full (int_bytes 1 0) w;
  w ← put cap full (standard_bytes (standard_id p)) w;
  w ← put cap full (vendor_bytes (vp_vendor_id p)) w;
  if large_payload n then
    _ ← require (vp_length p <=? lenz (vp_payload p)) (spdm_status SpdmCode.INVALID_MSG_FIELD);
    w ← put cap full (int_bytes 2 0) w;
    w ← put cap full (int_bytes 4 (vp_length p)) w;
    put cap full (take (Z.to_nat (vp_length p)) (vp_payload p)) w
  else
    _ ← require ((vp_length p <=? u_max 16) && (vp_length p <=? lenz (vp_payload p))) (spdm_status SpdmCode.INVALID_MSG_FIELD);
    w ← put cap full (int_bytes 2 (vp_length p)) w;
    put cap full (take (Z.to_nat (vp_length p)) (vp_payload p)) w.

Definition spdm_read (n : NegotiateInfo) : Rd SpdmVdmPayload :=
  large ← flags_read;
  _ ← read_int 1;
  _ ← err_if (large && negb (large_payload n)) tt;
  standard_id ← standard_read;
  vendor_id ← vendor_read;
  len ← (if large : bool then _ ← read_int 2; read_int 4 else read_int 2);
  payload ← gread_bytes (Z.to_nat len);
  mret (mkPayload standard_id vendor_id len payload).

(** [vendor_id[..4].copy_from_slice(&VDM_MESSAGE_VENDOR_ID)] in a cleared array. *)
Definition my_vendor : option VendorIDStruct :=
  v ← write_at (zeros MAX_SPDM_VENDOR_DEFINED_VENDOR_ID_LEN) 0 VDM_MESSAGE_VENDOR_ID;
  Some (mkVendor VDM_MESSAGE_VENDOR_ID_LEN v).

(** A message: the header and a payload whose buffer starts with [body]. *)
Definition encode_message (n : NegotiateInfo) (code : Z) (vendor : VendorIDStruct) (body : bytes) : outcome SpdmStatus bytes :=
  w ← put MAX_SPDM_MSG_SIZE (spdm_status SpdmCode.BUFFER_FULL) (header_bytes (spdm_version_sel n) code) [];
  spdm_encode n MAX_SPDM_MSG_SIZE (mkPayload IANA vendor (as_u 32 (lenz body)) (fit MAX_SPDM_VENDOR_DEFINED_PAYLOAD_SIZE body)) w.

(** ** Framing on the data channel (vmcall_msg.rs) *)

Definition VMCALL_SPDM_MESSAGE_HEADER_SIZE : Z := 12.
Definition VMCALL_SPDM_SIGNATURE : Z := 0x4D445053.
Definition VMCALL_SPDM_VERSION : Z := 0x0100.
Definition VMCALL_SPDM_MESSAGE_TYPE_SPDM_MESSAGE : Z := 1.
Definition VMCALL_SPDM_MESSAGE_TYPE_SECURED_SPDM_MESSAGE : Z := 2.

Inductive VmCallMessageType := SpdmMessage | SecuredSpdmMessage.
#[global] Instance VmCallMessageType_eq_dec : EqDecision VmCallMessageType.
Proof. solve_decision. Defined.

Definition msg_type_u8 (t : VmCallMessageType) : Z :=
  match t with
  | SpdmMessage => VMCALL_SPDM_MESSAGE_TYPE_SPDM_MESSAGE
  | SecuredSpdmMessage => VMCALL_SPDM_MESSAGE_TYPE_SECURED_SPDM_MESSAGE
  end.

Definition msg_type_of (x : Z) : option VmCallMessageType :=
  if x =? VMCALL_SPDM_MESSAGE_TYPE_SPDM_MESSAGE then Some SpdmMessage
  else if x =? VMCALL_SPDM_MESSAGE_TYPE_SECURED_SPDM_MESSAGE then Some SecuredSpdmMessage
  else None.

Record VmCallMessageHeader := mkVmCallHeader { vh_version : Z; msg_type : VmCallMessageType; vh_length : Z }.

Definition VmCallMessageHeader_encode (h : VmCallMessageHeader) : bytes :=
  int_bytes 4 VMCALL_SPDM_SIGNATURE ++ int_bytes 2 (vh_version h) ++ int_bytes 1 (msg_type_u8 (msg_type h)) ++
  int_bytes 1 0 ++ int_bytes 4 (vh_length h).

Definition VmCallMessageHeader_read : Rd VmCallMessageHeader :=
  signature ← read_int 4;
  _ ← err_if (negb (signature =? VMCALL_SPDM_SIGNATURE)) tt;
  version ← read_int 2;
  _ ← err_if (negb (version =? VMCALL_SPDM_VERSION)) tt;
  t ← read_int 1;
  msg_type ← ok_or (msg_type_of t) tt;
  reserved_byte ← read_int 1;
  _ ← err_if (negb (reserved_byte =? 0)) tt;
  length ← read_int 4;
  mret (mkVmCallHeader version msg_type length).

(** The transport buffer has [cap] bytes; the result is its used part. *)
Definition encap (cap : Z) (spdm_buffer : bytes) (secured_message : bool) : outcome SpdmStatus bytes :=
  let h := mkVmCallHeader VMCALL_SPDM_VERSION (if secured_message then SecuredSpdmMessage else SpdmMessage) (as_u 32 (lenz spdm_buffer)) in
  w ← put cap (spdm_status SpdmCode.ENCAP_FAIL) (VmCallMessageHeader_encode h) [];
  _ ← require (lenz w + lenz spdm_buffer <=? cap) (spdm_status SpdmCode.ENCAP_FAIL);
  Ok (w ++ spdm_buffer).

(** The message goes into a buffer of [cap] bytes. *)
Definition decap (cap : Z) (transport_buffer : bytes) : outcome SpdmStatus (bytes * bool) :=
  p ← rd VmCallMessageHeader_read (spdm_status SpdmCode.DECAP_FAIL) transport_buffer;
  let header_size := lenz transport_buffer - lenz p.2 in
  let payload_size := vh_length p.1 in
  _ ← require (header_size + payload_size <=? lenz transport_buffer) (spdm_status SpdmCode.DECAP_FAIL);
  _ ← require (payload_size <=? cap) (spdm_status SpdmCode.DECAP_FAIL);
  match slice transport_buffer header_size (header_size + payload_size) with
  | Some payload => Ok (payload, bool_decide (msg_type p.1 = SecuredSpdmMessage))
  | None => Panic
  end.

Definition encap_app (cap : Z) (spdm_buffer : bytes) : outcome SpdmStatus bytes :=
  _ ← require (lenz spdm_buffer <=? cap) (spdm_status SpdmCode.ENCAP_FAIL); Ok spdm_buffer.

Definition decap_app (cap : Z) (app_buffer : bytes) : outcome SpdmStatus (bytes * bool) :=
  _ ← require (lenz app_buffer <=? cap) (spdm_status SpdmCode.DECAP_FAIL); Ok (app_buffer, false).

(** ** The transport (mod.rs) *)

Section transport.
Context {T : Type} `{ByteStream T}.

(** [map_err(|_| SPDM_STATUS_SEND_FAIL)] *)
Definition write_or_fail (rest : bytes) : M T (aerr SpdmStatus) Z := λ t,
  match write rest t with
  | (Ok n, t') => (Ok n, t')
  | (Err (Failed _), t') => (Err (Failed (spdm_status SpdmCode.SEND_FAIL)), t')
  | (Err Pending, t') => (Err Pending, t')
  | (Err OutOfFuel, t') => (Err OutOfFuel, t')
  | (Panic, t') => (Panic, t')
  end.

(** [while sent < buffer.len()]; [rest] is [buffer[sent..]]. *)
Fixpoint transport_send (fuel : nat) (rest : bytes) : M T (aerr SpdmStatus) unit :=
  match rest with
  | [] => mret tt
  | _ =>
      match fuel with
      | O => failM OutOfFuel
      | S fuel =>
          n ← write_or_fail rest;
          transport_send fuel (drop (Z.to_nat n) rest)
      end
  end.

(** [while recvd < target] into a buffer of [cap] bytes; [acc] is what it holds. *)
Fixpoint receive_loop (fuel : nat) (cap target : Z) (acc : bytes) : M T (aerr unit) bytes :=
  if lenz acc <? target then
    match fuel with
    | O => failM OutOfFuel
    | S fuel => bs ← read (cap - lenz acc); receive_loop fuel cap target (acc ++ bs)
    end
  else mret acc.

Definition transport_receive (fuel : nat) (cap : Z) : M T (aerr unit) bytes :=
  _ ← err_if (cap <? VMCALL_SPDM_MESSAGE_HEADER_SIZE) (Failed tt);
  acc ← receive_loop fuel cap VMCALL_SPDM_MESSAGE_HEADER_SIZE [];
  h ← liftO (rd VmCallMessageHeader_read (Failed tt) acc);
  let payload_size := vh_length h.1 in
  _ ← err_if (saturating_sub cap VMCALL_SPDM_MESSAGE_HEADER_SIZE <? payload_size) (Failed tt);
  receive_loop fuel cap (payload_size + VMCALL_SPDM_MESSAGE_HEADER_SIZE) acc.

End transport.

(** ** Report data *)

(** [SpdmDigestStruct] *)
Record SpdmDigest := mkDigest { digest_size : Z; digest_data : bytes }.

Definition build_report_data (prefix : bytes) (th1 : SpdmDigest) : outcome SpdmStatus bytes :=
  if SPDM_MAX_HASH_SIZE <? digest_size th1 then Err (spdm_status SpdmCode.BUFFER_FULL)
  else match slice (digest_data th1) 0 (digest_size th1) with
  | Some d => Ok (prefix ++ d)
  | None => Panic
  end.

Section evidence.
Context `{Ring} `{Attestation} {FT : Features}.

(** [digest_sha384(..)?] where the function returns a [MigrationResult]. *)
Definition digest_or_mig (data : bytes) : outcome MigrationResult bytes :=
  match digest_sha384 data with
  | Ok d => Ok d
  | Err e => Err (mig_result_from_crypto e)
  | Panic => Panic
  end.

Definition quote_or_mig (additional_data : bytes) : M QuoteWorld MigrationResult bytes := λ w,
  match get_quote_with_retry additional_data w with
  | (Ok q, w') => (Ok q.1, w')
  | (Err _, w') => (Err MigrationResult.MutualAttestationError, w')
  | (Panic, w') => (Panic, w')
  end.

Definition gen_quote_spdm (report_data : bytes) : M QuoteWorld MigrationResult bytes :=
  hash ← liftO (digest_or_mig report_data);
  additional_data ← or_panic (write_at (zeros 64) 0 hash);
  quote_or_mig additional_data.

Definition SPDM_REPORT_DATA_OFFSET : Z := 520.
Definition SPDM_REPORT_DATA_SIZE : Z := 48.

Definition verify_peer_report_data (supplemental_data expected_report_data : bytes) : outcome MigrationResult unit :=
  if lenz supplemental_data <? SPDM_REPORT_DATA_OFFSET + SPDM_REPORT_DATA_SIZE then Err MigrationResult.InvalidParameter
  else
    hash ← digest_or_mig expected_report_data;
    match slice supplemental_data SPDM_REPORT_DATA_OFFSET (SPDM_REPORT_DATA_OFFSET + SPDM_REPORT_DATA_SIZE) with
    | Some actual => require (bool_decide (actual = hash)) MigrationResult.InvalidParameter
    | None => Panic
    end.

Definition report_data_or_mig (prefix : bytes) (th1 : SpdmDigest) : outcome MigrationResult bytes :=
  match build_report_data prefix th1 with
  | Ok d => Ok d | Err _ => Err MigrationResult.InvalidParameter | Panic => Panic
  end.

Definition verify_report_data_binding (supplemental_data peer_prefix : bytes) (th1 : SpdmDigest) : outcome MigrationResult unit :=
  report_data ← report_data_or_mig peer_prefix th1;
  verify_peer_report_data supplemental_data report_data.

Definition verify_tdreport_data_binding (tdreport_bytes peer_prefix : bytes) (th1 : SpdmDigest) : outcome MigrationResult unit :=
  tdreport ← or_err (TdxReport_read_from_bytes tdreport_bytes) MigrationResult.InvalidParameter;
  expected_report_data ← report_data_or_mig peer_prefix th1;
  expected_hash ← digest_or_mig expected_report_data;
  match slice (rm_report_data tdreport) 0 SPDM_REPORT_DATA_SIZE with
  | Some actual => require (bool_decide (actual = expected_hash)) MigrationResult.InvalidParameter
  | None => Panic
  end.

End evidence.

(** The error of a session, or the one the peer sent as a vendor-defined error. *)
Definition decode_spdm_session_err (e : SpdmStatus) : MigrationResult :=
  let local := mig_result_from_spdm e in
  if negb (bool_decide (local = MigrationResult.SecureSessionError)) then local
  else match error_data e with
  | Some (_ :: _ :: d2 :: d3 :: _) =>
      if d2 =? VendorDefinedErrorByte then default MigrationResult.SecureSessionError (MigrationResult.try_from d3)
      else MigrationResult.SecureSessionError
  | _ => MigrationResult.SecureSessionError
  end.

(** ** The key the library signs with *)

Definition ECDSA_P384_SHA384_PRIVATE_KEY_LENGTH : Z := 0xb9.

Record PrivateKeyDer := mkPrivateKey { pk_size : Z; pk_data : bytes }.

Definition PrivateKeyDer_default : PrivateKeyDer := mkPrivateKey 0 (zeros ECDSA_P384_SHA384_PRIVATE_KEY_LENGTH).

(** [From<&[u8]>]: [None] where the assertion fails. *)
Definition PrivateKeyDer_from (value : bytes) : option PrivateKeyDer :=
  if lenz value <=? ECDSA_P384_SHA384_PRIVATE_KEY_LENGTH
  then d ← write_at (zeros ECDSA_P384_SHA384_PRIVATE_KEY_LENGTH) 0 value; Some (mkPrivateKey (lenz value) d)
  else None.

Definition PrivateKeyDer_encode (k : PrivateKeyDer) : bytes := int_bytes 2 (pk_size k) ++ take (Z.to_nat (pk_size k)) (pk_data k).

Definition PrivateKeyDer_read : Rd PrivateKeyDer :=
  data_size ← read_int 2;
  _ ← err_if (ECDSA_P384_SHA384_PRIVATE_KEY_LENGTH <? data_size) tt;
  d ← gread_bytes (Z.to_nat data_size);
  mret (mkPrivateKey data_size (fit ECDSA_P384_SHA384_PRIVATE_KEY_LENGTH d)).

Section app_context.
Context `{Features}.

Record SpdmAppContextData := mkAppContext { migration_info : MigtdMigrationInformation; private_key : PrivateKeyDer }.

(** [MigtdMigrationInformation::default()] *)
Definition mig_info_default : MigtdMigrationInformation :=
  mkMigInfo 0 0 0 (zeros 6) [0; 0; 0; 0] 0 0 0 (if policy_v2 then zeros TD_INFO_SIZE else []).

Definition SpdmAppContextData_encode (c : SpdmAppContextData) : bytes :=
  let i := migration_info c in
  int_bytes 8 (mig_request_id i) ++ int_bytes 1 (migration_source i) ++ ints_bytes 8 (target_td_uuid i) ++
  int_bytes 8 (binding_handle i) ++
  (if vmcall_raw then [] else int_bytes 8 (mig_policy_id i) ++ int_bytes 8 (communication_id i)) ++
  PrivateKeyDer_encode (private_key c).

Definition SpdmAppContextData_read : Rd SpdmAppContextData :=
  id ← read_int 8;
  src ← read_int 1;
  uuid ← read_ints 8 4;
  bh ← read_int 8;
  pc ← (if vmcall_raw then mret (0, 0) else p ← read_int 8; c ← read_int 8; mret (p, c));
  private_key ← PrivateKeyDer_read;
  let d := mig_info_default in
  mret (mkAppContext (mkMigInfo id src (has_init_data d) (mi_reserved d) uuid bh pc.1 pc.2 (init_td_info d)) private_key).

End app_context.

End codec.
