(* ===== verification/SpdmMsgSpec.v ===== *)
(** * SpdmMsgSpec: SPDM messages are read as they were written

    Round trips of the codecs and of the framing over the data channel (SpdmMsg). *)
From stdpp Require Import base tactics numbers list list_numbers option strings gmap.
From S2P Require Import Prelude MigData PreSession PreSessionSpec ServtdExt EventLog PolicyV2 Quote MigPolicy X509 RaTls SpdmMsg.
Local Open Scope Z_scope.

Section codec.
Context `{SpdmLib}.

(** ** Reading what was written *)

(** [m] takes [bs] from the front of the input and gives [a]. *)
Definition takes {A} (m : Rd A) (bs : bytes) (a : A) : Prop := ∀ rest, m (bs ++ rest) = (Ok a, rest).

Lemma takes_ret {A} (a : A) : takes (mret a) [] a.
Proof. done. Qed.

Lemma takes_bind {A B} (m : Rd A) (f : A → Rd B) bs bs' a b : takes m bs a → takes (f a) bs' b → takes (m ≫= f) (bs ++ bs') b.
Proof. intros Hm Hf rest. rewrite M_bind_eq, <-app_assoc, Hm. apply Hf. Qed.

(** The last step of a reader only returns. *)
Lemma takes_last {A B} (m : Rd A) (f : A → B) bs a : takes m bs a → takes (x ← m; mret (f x)) bs (f a).
Proof. intros Hm rest. by rewrite M_bind_eq, Hm. Qed.

Lemma takes_check {B} c (f : unit → Rd B) bs b : c = false → takes (f tt) bs b → takes (err_if c tt ≫= f) bs b.
Proof. intros -> Hf rest. by rewrite err_if_bind. Qed.

Lemma takes_bytes n bs : length bs = n → takes (gread_bytes n) bs bs.
Proof.
  intros Hn rest. unfold gread_bytes. rewrite getS_bind, length_app. rewrite (proj2 (Nat.ltb_ge _ _)) by lia.
  rewrite modifyS_bind, drop_app_le, drop_ge, take_app_le, take_ge by lia. done.
Qed.

Lemma takes_int n z : 0 <= z < 2 ^ (8 * Z.of_nat n) → takes (read_int n) (int_bytes n z) z.
Proof.
  intros Hz rest. unfold read_int. rewrite M_bind_eq, (takes_bytes n _ (length_int_bytes n z)). cbn. by rewrite int_val_bytes.
Qed.

Lemma takes_ints n l : Forall (λ z, 0 <= z < 2 ^ (8 * Z.of_nat n)) l → takes (read_ints n (length l)) (ints_bytes n l) l.
Proof.
  induction 1 as [|z l Hz Hl IH]; [apply takes_ret|]. cbn [length read_ints ints_bytes map concat].
  apply (takes_bind _ _ _ _ z); [by apply takes_int|]. by apply takes_last.
Qed.

Lemma rd_takes {A E} (m : Rd A) (e : E) bs a rest : takes m bs a → rd m e (bs ++ rest) = Ok (a, rest).
Proof. intros Hm. unfold rd. by rewrite Hm. Qed.

(** Reads one value and goes on. *)
Ltac read_next v := apply (takes_bind _ _ _ _ v); [first [apply takes_int; done|idtac]|].

(** ** Vendor-defined messages *)

Definition op_named (o : VdmMessageOpCode) : Prop := op_code_of (op_code_u8 o) = o ∧ in_u 8 (op_code_u8 o).

Definition vdm_ok (m : VdmMessage) : Prop :=
  in_u 8 (major_version m) ∧ in_u 8 (minor_version m) ∧ op_named (op_code m) ∧ in_u 8 (element_count m).

Lemma VdmMessage_reads m : vdm_ok m → takes VdmMessage_read (VdmMessage_encode m) m.
Proof.
  intros (Hma & Hmi & [Ho Hor] & Hc). unfold VdmMessage_read, VdmMessage_encode.
  read_next (major_version m). read_next (minor_version m). read_next (op_code_u8 (op_code m)).
  rewrite <-(app_nil_r (int_bytes 1 (element_count m))). read_next (element_count m).
  intros rest. cbn. rewrite Ho. by destruct m.
Qed.

Definition type_named (t : VdmMessageElementType) : Prop := element_of (element_u16 t) = t ∧ in_u 16 (element_u16 t).

Lemma VdmMessageElement_reads e : type_named (element_type e) → in_u 32 (el_length e) →
  takes VdmMessageElement_read (VdmMessageElement_encode e) e.
Proof.
  intros [Ht Htr] Hl. unfold VdmMessageElement_read, VdmMessageElement_encode. read_next (element_u16 (element_type e)).
  rewrite <-(app_nil_r (int_bytes 4 _)). read_next (el_length e). intros rest. cbn. rewrite Ht. by destruct e.
Qed.

(** What [put_element] appends. *)
Definition element_bytes (ty : VdmMessageElementType) (data : bytes) : bytes :=
  VdmMessageElement_encode (mkElement ty (lenz data)) ++ data.

Lemma put_Ok {E} cap (e : E) bs w w' : put cap e bs w = Ok w' → w' = w ++ bs ∧ lenz w' <= cap.
Proof. unfold put. destruct (Z.leb_spec (lenz w + lenz bs) cap); [|done]. intros [= <-]. rewrite lenz_app. by split. Qed.

Lemma put_element_Ok cap ty data w w' : in_u 32 (lenz data) → put_element cap ty data w = Ok w' → w' = w ++ element_bytes ty data ∧ lenz w' <= cap.
Proof.
  intros Hd. unfold put_element. rewrite (Z.mod_small _ _ Hd : as_u 32 (lenz data) = _).
  intros (w1 & [-> _]%put_Ok & [-> Hc]%put_Ok)%bind_Ok. by rewrite <-app_assoc in *.
Qed.

Lemma take_element_reads ty data rest : type_named ty → in_u 32 (lenz data) →
  take_element ty (element_bytes ty data ++ rest) = Ok (data, rest).
Proof.
  intros Ht Hd. unfold take_element, read_element_header, element_bytes. rewrite <-app_assoc.
  rewrite (rd_takes _ _ _ _ _ (VdmMessageElement_reads (mkElement ty (lenz data)) Ht Hd)). cbn. rewrite bool_decide_true by done. cbn.
  apply rd_takes, takes_bytes. by rewrite to_nat_lenz.
Qed.

(** ** Payloads *)

Definition payload_ok (p : SpdmVdmPayload) : Prop :=
  lenz (vendor_id (vp_vendor_id p)) = MAX_SPDM_VENDOR_DEFINED_VENDOR_ID_LEN ∧ in_u 32 (vp_length p).

(** A payload as the reader returns it: without what is behind its length. *)
Definition trimmed (p : SpdmVdmPayload) : SpdmVdmPayload :=
  mkPayload (standard_id p) (vp_vendor_id p) (vp_length p) (take (Z.to_nat (vp_length p)) (vp_payload p)).

Lemma spdm_encode_reads n cap p w w' : payload_ok p → spdm_encode n cap p w = Ok w' →
  ∃ bs, w' = w ++ bs ∧ takes (spdm_read n) bs (trimmed p) ∧ lenz w' <= cap ∧ vp_length p <= lenz (vp_payload p).
Proof.
  intros [Hv Hl]. unfold spdm_encode. intros E.
  apply bind_Ok in E as (w1 & [-> _]%put_Ok & (w2 & [-> _]%put_Ok & (w3 & [-> _]%put_Ok & (w4 & [-> _]%put_Ok & E)%bind_Ok)%bind_Ok)%bind_Ok).
  assert (∀ len payload, takes (if large_payload n then _ ← read_int 2; read_int 4 else read_int 2) len (vp_length p) →
    payload = take (Z.to_nat (vp_length p)) (vp_payload p) → vp_length p <= lenz (vp_payload p) →
    takes (spdm_read n) (flags_bytes (large_payload n) ++ int_bytes 1 0 ++ standard_bytes (standard_id p) ++ vendor_bytes (vp_vendor_id p) ++ len ++ payload) (trimmed p)) as Hgo.
  { intros len payload Hlen -> Hle. unfold spdm_read. apply (takes_bind _ _ _ _ (large_payload n)); [intros rest; apply flags_reads|].
    read_next 0. apply takes_check; [by destruct (large_payload n)|].
    apply (takes_bind _ _ _ _ (standard_id p)); [intros rest; apply standard_reads|].
    apply (takes_bind _ _ _ _ (vp_vendor_id p)); [intros rest; by apply vendor_reads|].
    apply (takes_bind _ _ _ _ (vp_length p)); [done|].
    unfold trimmed. apply (takes_last _ (mkPayload _ _ _)), takes_bytes. unfold in_u, lenz in *. rewrite length_take. lia. }
  destruct (large_payload n).
  - apply bind_Ok in E as (? & Hle%require_Ok%Z.leb_le & (w5 & [-> _]%put_Ok & (w6 & [-> _]%put_Ok & [-> Hc]%put_Ok)%bind_Ok)%bind_Ok).
    eexists. rewrite <-!app_assoc in *. split; [done|]. rewrite (app_assoc (int_bytes 2 0)) in *. split_and!; [|done|done]. apply Hgo; [|done|done].
    read_next 0. by apply takes_int.
  - apply bind_Ok in E as (? & [H16%Z.leb_le Hle%Z.leb_le]%require_Ok%andb_true_iff & (w5 & [-> _]%put_Ok & [-> Hc]%put_Ok)%bind_Ok).
    eexists. rewrite <-!app_assoc in *. split; [done|]. split_and!; [|done|done]. apply Hgo; [|done|done].
    apply takes_int. unfold in_u, u_max in *. lia.
Qed.

Lemma my_vendor_ok : ∃ v, my_vendor = Some v ∧ vendor_len v = VDM_MESSAGE_VENDOR_ID_LEN ∧
  slice (vendor_id v) 0 VDM_MESSAGE_VENDOR_ID_LEN = Some VDM_MESSAGE_VENDOR_ID ∧ lenz (vendor_id v) = MAX_SPDM_VENDOR_DEFINED_VENDOR_ID_LEN.
Proof.
  pose proof vendor_room as Hr. unfold my_vendor.
  assert (write_at (zeros MAX_SPDM_VENDOR_DEFINED_VENDOR_ID_LEN) 0 VDM_MESSAGE_VENDOR_ID =
    Some (VDM_MESSAGE_VENDOR_ID ++ drop 4 (zeros MAX_SPDM_VENDOR_DEFINED_VENDOR_ID_LEN))) as ->.
  { rewrite write_at_Some; [done|lia|]. rewrite lenz_zeros by lia. change (lenz VDM_MESSAGE_VENDOR_ID) with 4. lia. }
  eexists. split; [done|]. split; [done|]. split; [by apply (slice_app [])|].
  cbn [vendor_id]. rewrite lenz_app. change (lenz VDM_MESSAGE_VENDOR_ID) with 4. unfold lenz. rewrite length_drop, length_zeros. lia.
Qed.

(** A vendor-defined message is read as it was written.  If a message with a
    body fits, the header and the payload are found at its front whatever follows,
    the body is what it was, and every element of a named type put into a body is
    taken out of it with its data. *)
Theorem spdm_message_roundtrip n code vendor body bs rest :
  lenz (vendor_id vendor) = MAX_SPDM_VENDOR_DEFINED_VENDOR_ID_LEN → in_u 32 (lenz body) →
  lenz body <= MAX_SPDM_VENDOR_DEFINED_PAYLOAD_SIZE → encode_message n code vendor body = Ok bs →
  (∃ r, header_read (bs ++ rest) = (Ok (spdm_version_sel n, code), r) ∧
     spdm_read n r = (Ok (mkPayload IANA vendor (lenz body) body), rest)) ∧ lenz bs <= MAX_SPDM_MSG_SIZE ∧
  (∀ ty data w w', type_named ty → in_u 32 (lenz data) → put_element MAX_SPDM_VENDOR_DEFINED_PAYLOAD_SIZE ty data w = Ok w' →
     ∃ el, w' = w ++ el ∧ ∀ r, take_element ty (el ++ r) = Ok (data, r)).
Proof.
  intros Hv Hb Hfit E. unfold encode_message in E. rewrite (Z.mod_small _ _ Hb : as_u 32 (lenz body) = _) in E.
  apply bind_Ok in E as (w & [-> _]%put_Ok & E). apply spdm_encode_reads in E as (bs' & -> & Hr & Hcap & Hlen); [|by split].
  split_and!; [|done|].
  - exists (bs' ++ rest). cbn [app]. rewrite <-app_assoc, header_reads. split; [done|]. rewrite Hr. do 2 f_equal. unfold trimmed. cbn.
    f_equal. rewrite to_nat_lenz. unfold fit. rewrite take_take, take_app_le by (unfold lenz in *; lia). apply take_ge. unfold lenz in *. lia.
  - intros ty data w w' Ht Hd [-> _]%put_element_Ok; [|done]. exists (element_bytes ty data). split; [done|].
    intros r. by apply take_element_reads.
Qed.

(** ** Framing *)

Lemma VmCallMessageHeader_reads h : vh_version h = VMCALL_SPDM_VERSION → in_u 32 (vh_length h) →
  takes VmCallMessageHeader_read (VmCallMessageHeader_encode h) h.
Proof.
  destruct h as [v t len]. cbn [vh_version vh_length]. intros -> Hl.
  unfold VmCallMessageHeader_read, VmCallMessageHeader_encode. cbn [vh_version msg_type vh_length].
  read_next VMCALL_SPDM_SIGNATURE. apply takes_check; [done|]. read_next VMCALL_SPDM_VERSION. apply takes_check; [done|].
  read_next (msg_type_u8 t); [by destruct t; apply takes_int|].
  assert (msg_type_of (msg_type_u8 t) = Some t) as -> by (by destruct t). cbn [ok_or].
  change (int_bytes 1 0 ++ int_bytes 4 len) with ([] ++ int_bytes 1 0 ++ int_bytes 4 len). apply (takes_bind _ _ _ _ t); [apply takes_ret|].
  read_next 0. apply takes_check; [done|]. by apply (takes_last _ (mkVmCallHeader VMCALL_SPDM_VERSION t)), takes_int.
Qed.

Lemma lenz_vmcall_header h : lenz (VmCallMessageHeader_encode h) = VMCALL_SPDM_MESSAGE_HEADER_SIZE.
Proof. unfold VmCallMessageHeader_encode, lenz. by rewrite !length_app, !length_int_bytes. Qed.

Definition frame_header (msg : bytes) (secured : bool) : VmCallMessageHeader :=
  mkVmCallHeader VMCALL_SPDM_VERSION (if secured then SecuredSpdmMessage else SpdmMessage) (lenz msg).

Lemma encap_Ok cap msg secured bs : in_u 32 (lenz msg) → encap cap msg secured = Ok bs → bs = VmCallMessageHeader_encode (frame_header msg secured) ++ msg.
Proof.
  intros Hm. unfold encap. rewrite (Z.mod_small _ _ Hm : as_u 32 (lenz msg) = _). by intros (w & [-> _]%put_Ok & (? & _ & [= <-])%bind_Ok)%bind_Ok.
Qed.

Lemma decap_frame cap msg secured rest : in_u 32 (lenz msg) → lenz msg <= cap →
  decap cap (VmCallMessageHeader_encode (frame_header msg secured) ++ msg ++ rest) = Ok (msg, secured).
Proof.
  intros Hm Hc. unfold decap. rewrite (rd_takes _ _ _ _ _ (VmCallMessageHeader_reads (frame_header msg secured) eq_refl Hm)).
  cbn [mbind outcome_bind fst snd]. rewrite !lenz_app, lenz_vmcall_header. pose proof (lenz_nonneg rest). cbn [vh_length frame_header].
  replace (VMCALL_SPDM_MESSAGE_HEADER_SIZE + (lenz msg + lenz rest) - (lenz msg + lenz rest)) with VMCALL_SPDM_MESSAGE_HEADER_SIZE by lia.
  unfold require. rewrite (proj2 (Z.leb_le _ _)) by lia. cbn [mbind outcome_bind]. rewrite (proj2 (Z.leb_le _ _)) by lia. cbn [mbind outcome_bind].
  rewrite slice_app by (rewrite ?lenz_vmcall_header; done). by destruct secured.
Qed.

Section transport.
Context {T : Type} `{ReliableStream T}.

Lemma receive_loop_delivers bs cap target : target <= lenz bs <= cap → ∀ fuel acc t,
  acc ++ arrived t = bs → (length (arrived t) <= fuel)%nat →
  ∃ acc' t', receive_loop fuel cap target acc t = (Ok acc', t') ∧ acc' ++ arrived t' = bs ∧ target <= lenz acc'.
Proof.
  intros Hb fuel. induction fuel as [|fuel IH]; intros acc t Hacc Hf; cbn [receive_loop];
    destruct (Z.ltb_spec (lenz acc) target) as [Hlt|Hge]; try by eauto.
  - assert (arrived t = []) as Hn by (destruct (arrived t); [done|cbn in Hf; lia]). rewrite Hn, app_nil_r in Hacc. subst. lia.
  - destruct (read_reliable t (cap - lenz acc) ltac:(lia)) as [[Hn _]|(got & rest & t1 & Ha & Er & Ha1)].
    { rewrite Hn, app_nil_r in Hacc. subst. lia. }
    destruct (read_law t _ _ _ Er ltac:(lia)) as [_ [[Hg _] _]]. rewrite (M_bind_Ok _ _ _ _ _ Er).
    apply IH; [by rewrite Ha1, <-app_assoc, <-Ha|]. rewrite Ha1. rewrite Ha, length_app in Hf. unfold lenz in Hg. lia.
Qed.

(** A framed message arrives.  When the bytes of a message that one side framed
    are what arrives on the data channel, in whatever pieces, receiving returns all
    of them with as many reads as there are bytes, and unpacking gives the message
    and whether it was secured. *)
Theorem spdm_transport_delivers cap cap' cap'' msg secured bs (t : T) :
  in_u 32 (lenz msg) → encap cap msg secured = Ok bs → arrived t = bs → lenz bs <= cap' → lenz msg <= cap'' →
  (∃ t', transport_receive (length bs) cap' t = (Ok bs, t') ∧ arrived t' = []) ∧ decap cap'' bs = Ok (msg, secured).
Proof.
  intros Hm Ebs%encap_Ok Ha Hc Hc''; [|done]. pose proof (lenz_vmcall_header (frame_header msg secured)) as Hh. split.
  - assert (lenz bs = 12 + lenz msg) as Hlen by (by rewrite Ebs, lenz_app, Hh). pose proof (lenz_nonneg msg) as Hn.
    unfold transport_receive, VMCALL_SPDM_MESSAGE_HEADER_SIZE in *. rewrite err_if_bind, (proj2 (Z.ltb_ge _ _)) by lia.
    destruct (receive_loop_delivers bs cap' 12 ltac:(lia) (length bs) [] t Ha ltac:(by rewrite Ha)) as (acc & t1 & E1 & Hacc & Hl).
    rewrite (M_bind_Ok _ _ _ _ _ E1), liftO_bind.
    assert (∃ rest, acc = VmCallMessageHeader_encode (frame_header msg secured) ++ rest) as [rest Er].
    { exists (drop 12 acc). rewrite Ebs in Hacc. rewrite <-(take_drop 12 acc) at 1. f_equal.
      apply (f_equal (take 12)) in Hacc. rewrite !take_app_le in Hacc by (unfold lenz in *; lia). rewrite Hacc. apply take_ge. unfold lenz in *. lia. }
    assert (rd VmCallMessageHeader_read (Failed tt) acc = Ok (frame_header msg secured, rest)) as ->.
    { rewrite Er. apply rd_takes. by apply VmCallMessageHeader_reads. }
    cbn [fst vh_length frame_header]. unfold saturating_sub. rewrite err_if_bind, (proj2 (Z.ltb_ge _ _)) by lia.
    destruct (receive_loop_delivers bs cap' (lenz msg + 12) ltac:(lia) (length bs) acc t1 Hacc) as (acc' & t' & E2 & Hacc' & Hl').
    { rewrite <-Hacc, length_app. lia. }
    assert (arrived t' = []) as Ht'.
    { apply length_zero_iff_nil. apply (f_equal length) in Hacc'. rewrite length_app in Hacc'. unfold lenz in *. lia. }
    exists t'. rewrite Ht', app_nil_r in Hacc'. by rewrite E2, Hacc'.
  - rewrite Ebs. rewrite <-(app_nil_r msg) at 2. by apply decap_frame.
Qed.

End transport.
End codec.

(** ** A library without cryptography *)

Module Demo.

Definition bounded (n : nat) (z : Z) : Z := z mod 2 ^ (8 * Z.of_nat n).

(** Little-endian integers, headers of two bytes, vendor identifiers of four. *)
#[refine] Definition lib : SpdmLib := {|
  int_bytes := le_bytes; int_val n bs := bounded n (le_val bs);
  header_bytes v c := [v; c];
  header_read := x ← gread_bytes 2; match x with [v; c] => mret (v, c) | _ => failM tt end;
  flags_bytes b := [if b then 1 else 0];
  flags_read := x ← gread_bytes 1; match x with [z] => mret (bool_decide (z = 1)) | _ => failM tt end;
  standard_bytes z := [z];
  standard_read := x ← gread_bytes 1; match x with [z] => mret z | _ => failM tt end;
  vendor_bytes v := vendor_len v :: vendor_id v;
  vendor_read := x ← gread_bytes 1; id ← gread_bytes 4; match x with [z] => mret (mkVendor z id) | _ => failM tt end;
  IANA := 4; SpdmVersion14 := 0x14; SpdmRequestVendorDefinedRequest := 0xfe; SpdmResponseVendorDefinedResponse := 0x7e;
  VendorDefinedErrorByte := 0xff; MAX_SPDM_VENDOR_DEFINED_VENDOR_ID_LEN := 4; MAX_SPDM_VENDOR_DEFINED_PAYLOAD_SIZE := 2000;
  MAX_SPDM_MSG_SIZE := 2100; MAX_SPDM_CERT_CHAIN_DATA_SIZE := 100; SPDM_MAX_HASH_SIZE := 64;
  write_spdm_error _ d w := w ++ [0x7f; d]; overrun _ w := w; partial b _ := b; append_message a b := Some (a ++ b) |}.
Proof.
  - apply length_le_bytes.
  - intros n z Hz. unfold bounded. rewrite le_val_bytes, Z.mod_mod by lia. by apply Z.mod_small.
  - intros n bs _. apply Z.mod_pos_bound. lia.
  - done.
  - by intros [] rest.
  - done.
  - intros [l id] rest Hl. cbn [vendor_id] in Hl. unfold lenz in Hl.
    destruct id as [|a [|b [|c [|d [|]]]]]; cbn in Hl; try lia. done.
  - intros r v r' (x & r1 & _ & (id & r2 & Eg & E)%M_bind_Ok_inv)%M_bind_Ok_inv. destruct x as [|z []]; try done. injection E as <- _.
    unfold gread_bytes in Eg. rewrite getS_bind in Eg. destruct (Nat.ltb_spec (length r1) 4); [done|]. rewrite modifyS_bind in Eg.
    injection Eg as <- _. cbn. unfold lenz. rewrite length_take. lia.
  - by intros a b r [= <-].
  - done.
  - lia.
Defined.

#[local] Existing Instance lib.

Definition ni : NegotiateInfo := mkNegotiate 0x12 false false.
Definition vendor : VendorIDStruct := mkVendor 4 VDM_MESSAGE_VENDOR_ID.
Definition message : bytes := Eval vm_compute in match encode_message ni 0xfe vendor [1; 2; 3] with Ok bs => bs | _ => [] end.

Lemma spdm_message_roundtrip_witness :
  ∃ r, header_read (message ++ [9]) = (Ok (0x12, 0xfe), r) ∧ spdm_read ni r = (Ok (mkPayload 4 vendor 3 [1; 2; 3]), [9]).
Proof.
  assert (encode_message ni 0xfe vendor [1; 2; 3] = Ok message) as E by (vm_compute; reflexivity).
  assert (lenz [1; 2; 3] <= MAX_SPDM_VENDOR_DEFINED_PAYLOAD_SIZE) as Hl by (vm_compute; discriminate).
  exact (proj1 (spdm_message_roundtrip ni 0xfe vendor [1; 2; 3] message [9] eq_refl ltac:(done) Hl E)).
Defined.

Definition framed : bytes := Eval vm_compute in match encap 2000 message true with Ok bs => bs | _ => [] end.

Lemma spdm_transport_delivers_witness :
  (∃ t', transport_receive (length framed) 100 (mkChan framed [] [] [5; 4; 11]) = (Ok framed, t') ∧ arrived t' = []) ∧ decap 100 framed = Ok (message, true).
Proof.
  assert (encap 2000 message true = Ok framed) as E by (vm_compute; reflexivity).
  assert (lenz framed <= 100) as Hf by (vm_compute; discriminate). assert (lenz message <= 100) as Hm by (vm_compute; discriminate).
  exact (spdm_transport_delivers 2000 100 100 message true framed (mkChan framed [] [] [5; 4; 11]) ltac:(done) E eq_refl Hf Hm).
Defined.

End Demo.
