(* ===== verification/SpdmRsp.v ===== *)
(** * SpdmRsp: the SPDM responder

    src/migtd/src/spdm/spdm_rsp.rs, the dispatcher of spdm_vdm.rs and the responder
    of spdm_rebind.rs, with [policy_v2], [vmcall-raw] and [main] and without the
    emulation and test features.  The state is the part of spdmlib's context the
    code reads and writes, the fields of [ResponderContextEx], the TDX module and
    the quoting service.  spdmlib's [process_message] is a parameter that gets the
    dispatcher. *)
From stdpp Require Import base tactics numbers list list_numbers option strings gmap.
From S2P Require Import Prelude MigData PreSession ServtdExt KeyExchange EventLog PolicyV2 Quote MigPolicy X509 RaTls SpdmMsg.
From S2P Require Import Rebinding.
Local Open Scope Z_scope.

(** ** State *)

Record SpdmSession := mkSession { established : bool; th1 : SpdmDigest; transcript_before_finish : option bytes }.

(** [SpdmContext]: a provisioned key is its bytes. *)
Record SpdmContext := mkContext {
  negotiate_info : NegotiateInfo;
  app_context_data_buffer : bytes;
  my_pub_key : option bytes;
  peer_pub_key : option bytes;
  connection_state : Z;
  last_session_id : option Z;
  transcript_before_key_exchange : option bytes;
  sessions : gmap Z SpdmSession }.

Definition set_app_buffer (b : bytes) (c : SpdmContext) : SpdmContext :=
  mkContext (negotiate_info c) b (my_pub_key c) (peer_pub_key c) (connection_state c) (last_session_id c) (transcript_before_key_exchange c) (sessions c).
Definition set_pub_keys (mine peer : bytes) (c : SpdmContext) : SpdmContext :=
  mkContext (negotiate_info c) (app_context_data_buffer c) (Some mine) (Some peer) (connection_state c) (last_session_id c) (transcript_before_key_exchange c) (sessions c).
Definition set_key_transcript (t : bytes) (c : SpdmContext) : SpdmContext :=
  mkContext (negotiate_info c) (app_context_data_buffer c) (my_pub_key c) (peer_pub_key c) (connection_state c) (last_session_id c) (Some t) (sessions c).
Definition set_sessions (m : gmap Z SpdmSession) (c : SpdmContext) : SpdmContext :=
  mkContext (negotiate_info c) (app_context_data_buffer c) (my_pub_key c) (peer_pub_key c) (connection_state c) (last_session_id c) (transcript_before_key_exchange c) m.

(** spdmlib around the messages: [SpdmSession::teardown] and the number of the
    state in which algorithms are negotiated. *)
Class SpdmRuntime := {
  teardown : SpdmSession → SpdmSession;
  SpdmConnectionNegotiated : Z;
  teardown_closes s : established (teardown s) = false;
  teardown_keeps s t : transcript_before_finish (teardown s) = Some t → transcript_before_finish s = Some t ∧ th1 (teardown s) = th1 s }.

Inductive ResponderContextExInfo :=
  | MigrationInformation (i : MigtdMigrationInformation)
  | RebindInformation (i : MigtdMigrationInformation)
  | NoInformation.

(** The world outside spdmlib: the TDX module, the quoting service, the numbers the
    key generator draws. *)
Record Outside (TM : Type) := mkOutside { td : TdWorld TM; quoting : QuoteWorld; drawn : list Z }.
Arguments mkOutside {TM}.
Arguments td {TM}.
Arguments quoting {TM}.
Arguments drawn {TM}.

(** [ResponderContextEx], the world outside and spdmlib's own state. *)
Record Responder (TM L : Type) := mkResponder {
  common : SpdmContext;
  peer_data : bytes;
  info : ResponderContextExInfo;
  mig_info_exchanged : bool;
  servtd_ext : option ServtdExt;
  outside : Outside TM;
  library : L }.
Arguments mkResponder {TM L}.
Arguments common {TM L}.
Arguments peer_data {TM L}.
Arguments info {TM L}.
Arguments mig_info_exchanged {TM L}.
Arguments servtd_ext {TM L}.
Arguments outside {TM L}.
Arguments library {TM L}.

(** [status_code] of the errors that are returned. *)
Notation fails c := (Failed (spdm_status c)).

(** Work on a part of the state. *)
Definition zoom {S P E A} (get : S → P) (set : P → S → S) (m : M P E A) : M S E A := λ s,
  let '(r, p) := m (get s) in (r, set p s).

(** [map_err(f)] where waiting and the bound stay what they are. *)
Definition map_failed_by {E E' A} (f : E → E') (r : outcome (aerr E) A) : outcome (aerr E') A :=
  match r with
  | Ok a => Ok a
  | Err (Failed e) => Err (Failed (f e))
  | Err Pending => Err Pending
  | Err OutOfFuel => Err OutOfFuel
  | Panic => Panic
  end.

Definition map_result {S E E' A} (f : outcome E A → outcome E' A) (m : M S E A) : M S E' A := λ s, let '(r, s') := m s in (f r, s').

(** An error without waiting becomes [Failed]. *)
Definition failing {E E' A} (f : E → E') (r : outcome E A) : outcome (aerr E') A :=
  match r with Ok a => Ok a | Err e => Err (Failed (f e)) | Panic => Panic end.

Section outside.
Context {TM : Type}.
Notation OM := (M (Outside TM) (aerr SpdmStatus)).

Definition on_td {A} (f : MigrationResult → SpdmStatus) (m : M (TdWorld TM) (aerr MigrationResult) A) : OM A :=
  zoom td (λ p o, mkOutside p (quoting o) (drawn o)) (map_result (map_failed_by f) m).

Definition on_quoting {E A} (f : E → SpdmStatus) (m : M QuoteWorld E A) : OM A :=
  zoom quoting (λ p o, mkOutside (td o) p (drawn o)) (map_result (failing f) m).

(** The next number, 0 when there is none. *)
Definition draw : OM Z := λ o, (Ok (default 0 (head (drawn o))), mkOutside (td o) (quoting o) (tail (drawn o))).

End outside.

(** ** Parts both sides share *)

Section shared.
Context `{SpdmLib} `{Ring} `{CcLog} `{Features}.
Context {TM : Type}.

(** The local policy and issuer chain, the event log area, and the algorithm
    identifier of P-384. *)
Context (local_policy local_issuer_chain : option bytes) (event_log_area ecdsa_p384 : bytes).

Notation OM := (M (Outside TM) (aerr SpdmStatus)).

Definition spdm {A} (r : outcome SpdmStatus A) : outcome (aerr SpdmStatus) A := failing id r.

(** [digest_sha384(..).map_err(|_| SPDM_STATUS_CRYPTO_ERROR)?] *)
Definition digest_or_crypto_error (data : bytes) : outcome (aerr SpdmStatus) bytes :=
  failing (λ _, spdm_status SpdmCode.CRYPTO_ERROR) (digest_sha384 data).

(** [EcdsaPk::new()] and [public_key_spki()]. *)
Definition new_key : OM (EcdsaPk * bytes) :=
  rand ← draw;
  signing_key ← liftO (failing (λ _, spdm_status SpdmCode.CRYPTO_ERROR) (EcdsaPk_new rand));
  match public_key_spki ecdsa_p384 signing_key with
  | Ok my_pub_key => mret (signing_key, my_pub_key)
  | _ => panicM
  end.

Definition my_event_log : outcome (aerr SpdmStatus) bytes :=
  failing (λ _, spdm_status SpdmCode.INVALID_STATE_LOCAL) (get_event_log event_log_area).

Definition my_policy_hash : outcome (aerr SpdmStatus) bytes :=
  match local_peer_data local_policy local_issuer_chain with
  | Some blob => digest_or_crypto_error blob
  | None => Err (fails SpdmCode.INVALID_STATE_LOCAL)
  end.

Definition PAYLOAD : Z := MAX_SPDM_VENDOR_DEFINED_PAYLOAD_SIZE.

Definition start_message (op : VdmMessageOpCode) (count : Z) : outcome (aerr SpdmStatus) bytes :=
  spdm (put PAYLOAD (spdm_status SpdmCode.BUFFER_FULL) (VdmMessage_encode (mkVdm VDM_MESSAGE_MAJOR_VERSION VDM_MESSAGE_MINOR_VERSION op count)) []).

Definition add_element (ty : VdmMessageElementType) (data w : bytes) : outcome (aerr SpdmStatus) bytes := spdm (put_element PAYLOAD ty data w).

(** The event log and the policy hash close the local evidence. *)
Definition add_log_and_policy (w : bytes) : outcome (aerr SpdmStatus) bytes :=
  event_log ← my_event_log;
  w ← add_element EventLogMy event_log w;
  policy_hash ← my_policy_hash;
  add_element MigPolicyMy policy_hash w.

(** The hashes of a request and of its response. *)
Definition transcript_of (request response : bytes) : outcome (aerr SpdmStatus) bytes :=
  src_hash ← digest_or_crypto_error request;
  dst_hash ← digest_or_crypto_error response;
  t ← or_err (append_message [] src_hash) (fails SpdmCode.BUFFER_FULL);
  or_err (append_message t dst_hash) (fails SpdmCode.BUFFER_FULL).

(** Storing the application context: the writer starts at the front of the buffer. *)
Definition store_app_context (c : SpdmAppContextData) (ctx : SpdmContext) : outcome (aerr SpdmStatus) unit * SpdmContext :=
  match write_at (app_context_data_buffer ctx) 0 (SpdmAppContextData_encode c) with
  | Some b => (Ok tt, set_app_buffer b ctx)
  | None => (Err (fails SpdmCode.BUFFER_FULL), set_app_buffer (partial (app_context_data_buffer ctx) (SpdmAppContextData_encode c)) ctx)
  end.

Definition load_app_context (ctx : SpdmContext) : outcome (aerr SpdmStatus) SpdmAppContextData :=
  p ← rd SpdmAppContextData_read (fails SpdmCode.INVALID_MSG_SIZE) (app_context_data_buffer ctx); Ok p.1.

(** [if keys are too large { return Err }] *)
Definition check_key_sizes (mine peer : bytes) : outcome (aerr SpdmStatus) unit :=
  require ((lenz mine <=? MAX_SPDM_CERT_CHAIN_DATA_SIZE) && (lenz peer <=? MAX_SPDM_CERT_CHAIN_DATA_SIZE)) (fails SpdmCode.BUFFER_FULL).

(** The element with the public key of the peer, which ends the message. *)
Definition take_pub_key (r : bytes) : outcome (aerr SpdmStatus) bytes :=
  p ← spdm (read_element_header PubKeyMy r);
  _ ← require (p.1 =? lenz p.2) (fails SpdmCode.INVALID_MSG_FIELD);
  k ← rd (gread_bytes (Z.to_nat p.1)) (fails SpdmCode.INVALID_MSG_SIZE) p.2;
  Ok k.1.

End shared.

(** ** Handlers *)

Definition MIGTD_REQ : bytes := [0x4d; 0x69; 0x67; 0x54; 0x44; 0x52; 0x65; 0x71].
Definition MIGTD_RSP : bytes := [0x4d; 0x69; 0x67; 0x54; 0x44; 0x52; 0x73; 0x70].

Section responder.
Context `{SpdmLib} `{SpdmRuntime} `{Ring} `{PolicyJson} `{PolicyCrypto} `{Attestation} `{CcLog} `{Features}.
Context {TM L : Type} `{TdxModule TM}.
Context (VERIFIED_POLICY : option VerifiedPolicy) (local_policy local_issuer_chain : option bytes) (event_log_area ecdsa_p384 : bytes).

Notation Rsp := (Responder TM L).
Notation RM := (M Rsp (aerr SpdmStatus)).

Definition set_common (c : SpdmContext) (s : Rsp) : Rsp :=
  mkResponder c (peer_data s) (info s) (mig_info_exchanged s) (servtd_ext s) (outside s) (library s).
Definition set_servtd_ext (e : option ServtdExt) (s : Rsp) : Rsp :=
  mkResponder (common s) (peer_data s) (info s) (mig_info_exchanged s) e (outside s) (library s).
Definition set_outside (o : Outside TM) (s : Rsp) : Rsp :=
  mkResponder (common s) (peer_data s) (info s) (mig_info_exchanged s) (servtd_ext s) o (library s).
Definition set_exchanged (s : Rsp) : Rsp :=
  mkResponder (common s) (peer_data s) (info s) true (servtd_ext s) (outside s) (library s).

Definition with_outside {A} (m : M (Outside TM) (aerr SpdmStatus) A) : RM A := zoom outside set_outside m.

Definition get_session_via_id (sid : Z) : RM SpdmSession :=
  s ← getS; ok_or (sessions (common s) !! sid) (fails SpdmCode.INVALID_STATE_LOCAL).

Definition set_session (sid : Z) (x : SpdmSession) : RM unit :=
  modifyS (λ s, set_common (set_sessions (<[sid := x]> (sessions (common s))) (common s)) s).

Definition teardown_session (sid : Z) : RM unit :=
  x ← get_session_via_id sid; set_session sid (teardown x).

(** A judgement [r] whose failure ends the session with [e]. *)
Definition or_teardown {A} (sid : Z) (e : SpdmStatus) (r : option A) : RM A :=
  match r with
  | Some a => mret a
  | None => _ ← teardown_session sid; failM (Failed e)
  end.

Definition authenticated {A} (m : M QuoteWorld PolicyError.t A) : RM (option A) :=
  with_outside (zoom quoting (λ p o, mkOutside (td o) p (drawn o))
    (λ w, match m w with
          | (Ok a, w') => (Ok (Some a), w')
          | (Err _, w') => (Ok None, w')
          | (Panic, w') => (Panic, w')
          end)).

(** [verify_..(..).is_err()]; an abort is an abort. *)
Definition verified (r : outcome MigrationResult unit) : RM (option unit) :=
  match r with Ok _ => mret (Some tt) | Err _ => mret None | Panic => panicM end.

Definition handle_exchange_pub_key_req (vdm_request : VdmMessage) (r : bytes) : RM bytes :=
  s ← getS;
  _ ← err_if (connection_state (common s) <? SpdmConnectionNegotiated) (fails SpdmCode.INVALID_STATE_LOCAL);
  _ ← liftO (spdm (check_vdm vdm_request ExchangePubKeyReq VDM_MESSAGE_EXCHANGE_PUB_KEY_REQ_ELEMENT_COUNT));
  peer_key ← liftO (take_pub_key r);
  k ← with_outside (new_key ecdsa_p384);
  c ← liftO (load_app_context (common s));
  private_key ← or_panic (PrivateKeyDer_from (pk k.1));
  _ ← (λ s, let '(r, ctx) := store_app_context (mkAppContext (migration_info c) private_key) (common s) in (r, set_common ctx s));
  w ← liftO (start_message ExchangePubKeyRsp VDM_MESSAGE_EXCHANGE_PUB_KEY_RSP_ELEMENT_COUNT);
  w ← liftO (add_element PubKeyMy k.2 w);
  _ ← liftO (check_key_sizes k.2 peer_key);
  _ ← modifyS (λ s, set_common (set_pub_keys k.2 peer_key (common s)) s);
  mret w.

(** What both attestation handlers check first; the session the message is about. *)
Definition attestation_session (session_id : option Z) : RM Z :=
  s ← getS;
  sid ← ok_or (match session_id with Some sid => Some sid | None => last_session_id (common s) end) (fails SpdmCode.INVALID_STATE_LOCAL);
  session ← get_session_via_id sid;
  _ ← err_if (bool_decide (is_Some (transcript_before_finish session))) (fails SpdmCode.INVALID_STATE_LOCAL);
  _ ← err_if (bool_decide (my_pub_key (common s) = None) || bool_decide (peer_pub_key (common s) = None)) (fails SpdmCode.UNSUPPORTED_CAP);
  mret sid.

Definition rsp_verify_peer_attestation_v2 (quote_peer event_log_peer mig_policy_hash_peer peer_init_td_info servtd_ext_peer
    peer_data : bytes) (th1 : SpdmDigest) (sid : Z) : RM unit :=
  peer_data_hash ← liftO (digest_or_crypto_error peer_data);
  _ ← err_if (negb (bool_decide (mig_policy_hash_peer = peer_data_hash))) (fails SpdmCode.INVALID_MSG_FIELD);
  res ← authenticated (authenticate_migration_source_with_init_tdinfo sha_option VERIFIED_POLICY local_issuer_chain
                         quote_peer peer_data event_log_peer peer_init_td_info servtd_ext_peer);
  verified_report_peer ← or_teardown sid (spdm_from_mig_result MigrationResult.PolicyUnsatisfiedError) res;
  bound ← verified (verify_report_data_binding verified_report_peer MIGTD_REQ th1);
  or_teardown sid (spdm_from_mig_result MigrationResult.MutualAttestationError) bound.

Definition is_migration (i : ResponderContextExInfo) : bool := match i with MigrationInformation _ => true | _ => false end.
Definition is_rebind (i : ResponderContextExInfo) : bool := match i with RebindInformation _ => true | _ => false end.

Definition handle_exchange_mig_attest_info_req (session_id : option Z) (vdm_request : VdmMessage) (r : bytes) : RM bytes :=
  s ← getS;
  _ ← err_if (negb (is_migration (info s))) (fails SpdmCode.INVALID_MSG_FIELD);
  sid ← attestation_session session_id;
  _ ← liftO (spdm (check_vdm vdm_request ExchangeMigrationAttestInfoReq VDM_MESSAGE_EXCHANGE_MIGRATION_ATTEST_INFO_REQ_ELEMENT_COUNT));
  session ← get_session_via_id sid;
  report_data ← liftO (spdm (build_report_data MIGTD_RSP (th1 session)));
  quote_dst ← with_outside (on_quoting spdm_from_mig_result (gen_quote_spdm report_data));
  quote_src ← liftO (spdm (take_element QuoteMy r));
  event_log_src ← liftO (spdm (take_element EventLogMy quote_src.2));
  mig_policy_hash_src ← liftO (spdm (take_element MigPolicyMy event_log_src.2));
  servtd_ext_src ← liftO (spdm (take_element SerVtdExt mig_policy_hash_src.2));
  _ ← modifyS (set_servtd_ext (ext_read_from_bytes servtd_ext_src.1));
  init_header ← liftO (spdm (read_element_header TdReportInit servtd_ext_src.2));
  _ ← err_if (negb (init_header.1 =? TD_INFO_SIZE)) (fails SpdmCode.INVALID_MSG_SIZE);
  td_report_init ← liftO (rd (gread_bytes (Z.to_nat init_header.1)) (fails SpdmCode.INVALID_MSG_SIZE) init_header.2);
  _ ← rsp_verify_peer_attestation_v2 quote_src.1 event_log_src.1 mig_policy_hash_src.1 td_report_init.1 servtd_ext_src.1
        (peer_data s) (th1 session) sid;
  w ← liftO (start_message ExchangeMigrationAttestInfoRsp VDM_MESSAGE_EXCHANGE_MIGRATION_ATTEST_INFO_RSP_ELEMENT_COUNT);
  w ← liftO (add_element QuoteMy quote_dst w);
  liftO (add_log_and_policy local_policy local_issuer_chain event_log_area w).

(** What both information handlers check first. *)
Definition attested_session (sid : Z) : RM unit :=
  session ← get_session_via_id sid;
  if negb (established session) || bool_decide (transcript_before_finish session = None)
  then _ ← set_session sid (teardown session); failM (fails SpdmCode.INVALID_STATE_LOCAL)
  else mret tt.

(** An element of a fixed type and length. *)
Definition fixed_element (ty : VdmMessageElementType) (len : Z) (r : bytes) : outcome (aerr SpdmStatus) bytes :=
  p ← rd VdmMessageElement_read (fails SpdmCode.INVALID_MSG_SIZE) r;
  _ ← require (bool_decide (element_type p.1 = ty) && (el_length p.1 =? len)) (fails SpdmCode.INVALID_MSG_FIELD);
  Ok p.2.

(** The versions and the key of the peer: two integers, another element and four
    words. *)
Definition read_exchange (version key_ty : VdmMessageElementType) (r : bytes) : outcome (aerr SpdmStatus) ExchangeInformation :=
  r ← fixed_element version 4 r;
  min_version ← rd (read_int 2) (fails SpdmCode.INVALID_MSG_SIZE) r;
  max_version ← rd (read_int 2) (fails SpdmCode.INVALID_MSG_SIZE) min_version.2;
  r ← fixed_element key_ty 32 max_version.2;
  key ← rd (read_ints 8 4) (fails SpdmCode.INVALID_MSG_SIZE) r;
  Ok (mkExchange key.1 min_version.1 max_version.1 (zeros 4)).

(** [exchange_information.key.as_bytes()] is in memory order. *)
Definition write_exchange (version key_ty : VdmMessageElementType) (key_full : SpdmCode.t) (min_version max_version : Z) (key_bytes w : bytes) :
  outcome (aerr SpdmStatus) bytes :=
  let full := spdm_status SpdmCode.BUFFER_FULL in
  w ← spdm (put PAYLOAD full (VdmMessageElement_encode (mkElement version 4)) w);
  w ← spdm (put PAYLOAD full (int_bytes 2 min_version) w);
  w ← spdm (put PAYLOAD full (int_bytes 2 max_version) w);
  w ← spdm (put PAYLOAD full (VdmMessageElement_encode (mkElement key_ty 32)) w);
  spdm (put PAYLOAD (spdm_status key_full) key_bytes w).

Definition on_target {A} (m : M (TdWorld TM) (aerr MigrationResult) A) : RM A := with_outside (on_td spdm_from_mig_result m).

(** [calculate_approved_servtd_ext_hash()?] *)
Definition approved_hash (e : ServtdExt) : outcome (aerr SpdmStatus) bytes :=
  failing spdm_from_mig_result (calculate_approved_servtd_ext_hash sha_option e).

(** [if mig_info_exchanged { .. return Err }] *)
Definition refuse_replay (sid : Z) : RM unit :=
  s ← getS;
  if mig_info_exchanged s then
    _ ← match sessions (common s) !! sid with Some x => set_session sid (teardown x) | None => mret tt end;
    failM (fails SpdmCode.INVALID_STATE_LOCAL)
  else mret tt.

Definition handle_exchange_mig_info_req (session_id : option Z) (vdm_request : VdmMessage) (r : bytes) : RM bytes :=
  sid ← ok_or session_id (fails SpdmCode.INVALID_PARAMETER);
  _ ← refuse_replay sid;
  _ ← attested_session sid;
  s ← getS;
  _ ← liftO (spdm (check_vdm vdm_request ExchangeMigrationInfoReq VDM_MESSAGE_EXCHANGE_MIGRATION_INFO_REQ_ELEMENT_COUNT));
  remote_information ← liftO (read_exchange MigrationExportVersion ForwardMigrationSessionKey r);
  c ← liftO (load_app_context (common s));
  let mi := migration_info c in
  exchange_information ← on_target (exchange_info mi false);
  _ ← on_target (verify_servtd_attr (binding_handle mi) (target_td_uuid mi));
  mig_ver ← on_target (liftO (cal_mig_version false exchange_information remote_information));
  _ ← on_target (set_mig_version mi mig_ver);
  _ ← on_target (write_msk mi (key remote_information));
  _ ← modifyS set_exchanged;
  _ ← match servtd_ext s with
      | Some ext => hash ← liftO (approved_hash ext); on_target (write_approved_servtd_ext_hash hash)
      | None => mret tt
      end;
  w ← liftO (start_message ExchangeMigrationInfoRsp VDM_MESSAGE_EXCHANGE_MIGRATION_INFO_RSP_ELEMENT_COUNT);
  liftO (write_exchange MigrationImportVersion BackwardMigrationSessionKey SpdmCode.INVALID_MSG_SIZE
           (min_ver exchange_information) (max_ver exchange_information)
           (concat (map (le_bytes 8) (key exchange_information))) w).

Definition handle_exchange_rebind_attest_info_req (session_id : option Z) (vdm_request : VdmMessage) (r : bytes) : RM bytes :=
  s ← getS;
  _ ← err_if (negb (is_rebind (info s))) (fails SpdmCode.INVALID_MSG_FIELD);
  sid ← attestation_session session_id;
  _ ← liftO (spdm (check_vdm vdm_request ExchangeRebindAttestInfoReq VDM_MESSAGE_EXCHANGE_REBIND_ATTEST_INFO_REQ_WITH_HISTORY_INFO_ELEMENT_COUNT));
  session ← get_session_via_id sid;
  report_data ← liftO (spdm (build_report_data MIGTD_RSP (th1 session)));
  td_report_src ← liftO (spdm (take_element TdReportMy r));
  event_log_src ← liftO (spdm (take_element EventLogMy td_report_src.2));
  mig_policy_hash_src ← liftO (spdm (take_element MigPolicyMy event_log_src.2));
  servtd_ext_src ← liftO (spdm (take_element SerVtdExt mig_policy_hash_src.2));
  init_header ← liftO (spdm (read_element_header TdReportInit servtd_ext_src.2));
  _ ← err_if (negb (init_header.1 =? TD_INFO_SIZE)) (fails SpdmCode.INVALID_MSG_SIZE);
  td_report_init ← liftO (rd (gread_bytes (Z.to_nat init_header.1)) (fails SpdmCode.INVALID_MSG_SIZE) init_header.2);
  peer_data_hash ← liftO (digest_or_crypto_error (peer_data s));
  _ ← err_if (negb (bool_decide (mig_policy_hash_src.1 = peer_data_hash))) (fails SpdmCode.INVALID_MSG_FIELD);
  res ← authenticated (authenticate_rebinding_old sha_option VERIFIED_POLICY local_issuer_chain
                         td_report_src.1 event_log_src.1 (peer_data s) td_report_init.1 servtd_ext_src.1);
  verified_report_peer ← or_teardown sid (spdm_from_mig_result MigrationResult.PolicyUnsatisfiedError) res;
  bound ← verified (verify_tdreport_data_binding verified_report_peer MIGTD_REQ (th1 session));
  _ ← or_teardown sid (spdm_from_mig_result MigrationResult.MutualAttestationError) bound;
  _ ← modifyS (set_servtd_ext (ext_read_from_bytes servtd_ext_src.1));
  w ← liftO (start_message ExchangeRebindAttestInfoRsp VDM_MESSAGE_EXCHANGE_REBIND_ATTEST_INFO_RSP_ELEMENT_COUNT);
  td_report_dst ← with_outside (on_quoting (λ _, spdm_status SpdmCode.INVALID_STATE_LOCAL) (gen_tdreport report_data));
  w ← liftO (add_element TdReportMy td_report_dst w);
  liftO (add_log_and_policy local_policy local_issuer_chain event_log_area w).

Definition handle_exchange_rebind_info_req (session_id : option Z) (vdm_request : VdmMessage) (r : bytes) : RM bytes :=
  s ← getS;
  _ ← err_if (negb (is_rebind (info s))) (fails SpdmCode.INVALID_MSG_FIELD);
  sid ← ok_or session_id (fails SpdmCode.INVALID_PARAMETER);
  _ ← attested_session sid;
  _ ← liftO (spdm (check_vdm vdm_request ExchangeRebindInfoReq VDM_MESSAGE_EXCHANGE_REBIND_INFO_ELEMENT_REQ_COUNT));
  r ← liftO (fixed_element RebindSessionToken VDM_MESSAGE_REBIND_SESSION_TOKEN_SIZE r);
  token ← liftO (rd (gread_bytes 32) (fails SpdmCode.INVALID_MSG_SIZE) r);
  ext ← ok_or (servtd_ext s) (fails SpdmCode.INVALID_STATE_LOCAL);
  _ ← on_target (write_rebinding_session_token token.1);
  hash ← liftO (approved_hash ext);
  _ ← on_target (write_approved_servtd_ext_hash hash);
  _ ← on_target (write_servtd_rebind_attr (cur_servtd_attr ext));
  liftO (start_message ExchangeRebindInfoRsp VDM_MESSAGE_EXCHANGE_REBIND_INFO_ELEMENT_RSP_COUNT).

(** ** The dispatcher (spdm_vdm.rs) *)

(** What a call gives the library: the status and the response message. *)
Definition Response : Type := outcome SpdmStatus unit * option bytes.

Definition refuse (e : SpdmStatus) (rsp : bytes) : RM Response := mret (Err e, Some rsp).

(** The handler of an operation. *)
Definition handle (session_id : option Z) (vdm_request : VdmMessage) (r : bytes) : RM bytes :=
  match op_code vdm_request with
  | ExchangePubKeyReq => handle_exchange_pub_key_req vdm_request r
  | ExchangeMigrationAttestInfoReq => handle_exchange_mig_attest_info_req session_id vdm_request r
  | ExchangeMigrationInfoReq => handle_exchange_mig_info_req session_id vdm_request r
  | ExchangeRebindAttestInfoReq => handle_exchange_rebind_attest_info_req session_id vdm_request r
  | ExchangeRebindInfoReq => handle_exchange_rebind_info_req session_id vdm_request r
  | _ => failM (fails SpdmCode.INVALID_MSG_FIELD)
  end.

(** The handler's error becomes a vendor-defined error message. *)
Definition handled (m : RM bytes) : RM (SpdmStatus + bytes) := λ s,
  match m s with
  | (Ok b, s') => (Ok (inr b), s')
  | (Err (Failed e), s') => (Ok (inl e), s')
  | (Err Pending, s') => (Err Pending, s')
  | (Err OutOfFuel, s') => (Err OutOfFuel, s')
  | (Panic, s') => (Panic, s')
  end.

(** [vdm.vdm_error_code as u8] *)
Definition app_error (e : SpdmStatus) : Z := match status_code e with StatusVdm c => as_u 8 c | _ => 0 end.

(** The transcript a request and its response leave behind. *)
Definition record_transcript (op : VdmMessageOpCode) (t : bytes) : RM unit :=
  match op with
  | ExchangePubKeyReq => modifyS (λ s, set_common (set_key_transcript t (common s)) s)
  | _ =>
      s ← getS;
      match last_session_id (common s) with
      | Some sid =>
          match sessions (common s) !! sid with
          | Some x => set_session sid (mkSession (established x) (th1 x) (Some t))
          | None => mret tt
          end
      | None => mret tt
      end
  end.

Definition has_transcript (op : VdmMessageOpCode) : bool :=
  match op with ExchangePubKeyReq | ExchangeMigrationAttestInfoReq | ExchangeRebindAttestInfoReq => true | _ => false end.

(** The response message of [cap] bytes, or [inl] when it does not fit. *)
Definition respond (n : NegotiateInfo) (cap : Z) (vendor : VendorIDStruct) (body : bytes) : outcome SpdmStatus bytes :=
  w ← put cap (spdm_status SpdmCode.INVALID_STATE_LOCAL) (header_bytes (spdm_version_sel n) SpdmResponseVendorDefinedResponse) [];
  spdm_encode n cap (mkPayload IANA vendor (as_u 32 (lenz body)) (fit MAX_SPDM_VENDOR_DEFINED_PAYLOAD_SIZE body)) w.

(** [Err] carries the status and the response the checks of a request end with. *)
Definition parse_request (n : NegotiateInfo) (req_bytes : bytes) : outcome (SpdmStatus * bytes) (VdmMessage * bytes) :=
  let invalid := write_spdm_error SpdmErrorInvalidRequest 0 [] in
  let field := spdm_status SpdmCode.INVALID_MSG_FIELD in
  h ← rd header_read (field, invalid) req_bytes;
  _ ← require (h.1.1 =? spdm_version_sel n) (field, write_spdm_error SpdmErrorVersionMismatch 0 []);
  p ← rd (spdm_read n) (field, invalid) h.2;
  _ ← match slice (vendor_id (vp_vendor_id p.1)) 0 VDM_MESSAGE_VENDOR_ID_LEN with
      | Some id =>
          require ((standard_id p.1 =? IANA) && (vendor_len (vp_vendor_id p.1) =? VDM_MESSAGE_VENDOR_ID_LEN) &&
                   bool_decide (id = VDM_MESSAGE_VENDOR_ID)) (field, invalid)
      | None => Panic
      end;
  match slice (vp_payload p.1) 0 (vp_length p.1) with
  | Some r => rd VdmMessage_read (spdm_status SpdmCode.INVALID_MSG_SIZE, invalid) r
  | None => Panic
  end.

Definition migtd_vdm_msg_rsp_dispatcher_ex (session_id : option Z) (req_bytes : bytes) (cap : Z) : RM Response :=
  s ← getS;
  match parse_request (negotiate_info (common s)) req_bytes with
  | Panic => panicM
  | Err (e, rsp) => refuse e rsp
  | Ok (vdm_request, r) =>
      vendor ← or_panic my_vendor;
      res ← handled (handle session_id vdm_request r);
      match res with
      | inl e => refuse e (write_spdm_error SpdmErrorVendorDefined (app_error e) [])
      | inr body =>
          s ← getS;
          match respond (negotiate_info (common s)) cap vendor body with
          | Panic => panicM
          | Err _ => refuse (spdm_status SpdmCode.INVALID_STATE_LOCAL) (overrun SpdmErrorUnspecified body)
          | Ok rsp =>
              if has_transcript (op_code vdm_request) then
                match transcript_of req_bytes rsp with
                | Ok t => _ ← record_transcript (op_code vdm_request) t; mret (Ok tt, Some rsp)
                | Err (Failed e) => mret (Err e, Some rsp)
                | Err e => failM e
                | Panic => panicM
                end
              else mret (Ok tt, Some rsp)
          end
      end
  end.

(** ** The responder's loop *)

(** spdmlib: one message of the peer is received and answered, with the dispatcher
    for vendor-defined requests.  [None] when nothing could be received. *)
Context (process_message : (option Z → bytes → Z → RM Response) → RM (option (outcome SpdmStatus unit))).

Fixpoint rsp_handle_message (fuel : nat) (sid : option Z) : RM unit :=
  match fuel with
  | O => failM OutOfFuel
  | S fuel =>
      res ← process_message migtd_vdm_msg_rsp_dispatcher_ex;
      s ← getS;
      let sid := match last_session_id (common s) with Some i => Some i | None => sid end in
      if match sid with Some i => bool_decide (sessions (common s) !! i = None) | None => false end then mret tt
      else match res with
      | Some (Ok _) => rsp_handle_message fuel sid
      | Some (Err e) =>
          if bool_decide (severity e = SeverityError) && match status_code e with StatusVdm _ => true | _ => false end
          then failM (Failed e)
          else if bool_decide (e = spdm_status SpdmCode.INVALID_STATE_LOCAL) then failM (Failed e)
          else rsp_handle_message fuel sid
      | Some Panic => panicM
      | None => failM (fails SpdmCode.RECEIVE_FAIL)
      end
  end.

(** The buffer is cleared on every way out. *)
Definition zeroize_after {A} (m : RM A) : RM A := λ s,
  let '(r, s') := m s in
  (r, set_common (set_app_buffer (zeros (lenz (app_context_data_buffer (common s')))) (common s')) s').

Definition respond_with (fuel : nat) (mi : MigtdMigrationInformation) : RM unit :=
  _ ← (λ s, let '(r, ctx) := store_app_context (mkAppContext mi PrivateKeyDer_default) (common s) in (r, set_common ctx s));
  rsp_handle_message fuel None.

Definition spdm_responder_transfer_msk (fuel : nat) (mig_info : MigtdMigrationInformation) (peer_data : bytes) : RM unit :=
  _ ← modifyS (λ s, mkResponder (common s) peer_data (info s) (mig_info_exchanged s) (servtd_ext s) (outside s) (library s));
  zeroize_after (respond_with fuel mig_info).

Definition spdm_responder_rebind_new (fuel : nat) (rebind_info : MigtdMigrationInformation) (peer_data : bytes) : RM unit :=
  _ ← modifyS (λ s, mkResponder (common s) peer_data (RebindInformation rebind_info) (mig_info_exchanged s) (servtd_ext s) (outside s) (library s));
  zeroize_after (respond_with fuel mig_info_default).

(** [spdm_responder]: a fresh context of the library. *)
Definition spdm_responder (ctx : SpdmContext) (o : Outside TM) (l : L) : Rsp := mkResponder ctx [] NoInformation false None o l.

(** ** Signing *)

(** The key the application context holds; [None] refuses. *)
Definition sign_ecdsa_asym_algo (max_sig : Z) (rand : Z) (ctx : SpdmContext) (data : bytes) : option (Z * bytes) :=
  match rd SpdmAppContextData_read tt (app_context_data_buffer ctx) with
  | Ok (c, _) =>
      key_bytes ← slice (pk_data (private_key c)) 0 (pk_size (private_key c));
      _ ← key_public key_bytes;
      signature ← key_sign rand key_bytes data;
      if (max_sig <? lenz signature) || (u_max 16 <? lenz signature) then None
      else Some (lenz signature, fit max_sig signature)
  | _ => None
  end.

End responder.
