(* ===== verification/SpdmRspSpec.v ===== *)
(** * SpdmRspSpec: what the SPDM responder lets a peer do

    For any messages of the peer and any behaviour of the library between them,
    the responder (SpdmRsp) writes to the TDX module only for an established
    session whose peer was authenticated with evidence bound to that session. *)
From stdpp Require Import base tactics numbers list list_numbers option strings gmap.
From S2P Require Import Prelude MigData PreSession ServtdExt KeyExchange KeyExchangeSpec EventLog PolicyV2 Quote MigPolicy X509 RaTls SpdmMsg.
From S2P Require Import Rebinding RebindingSpec SpdmRsp MigPolicySpec RaTlsSpec SpdmMsgSpec.
Local Open Scope Z_scope.

Section responder.
Context `{SpdmLib} `{SpdmRuntime} `{Ring} `{PolicyJson} `{PolicyCrypto} `{Attestation} `{CcLog} `{Features}.
Context {TM L : Type} `{TdxModule TM}.
Context (VERIFIED_POLICY : option VerifiedPolicy) (local_policy local_issuer_chain : option bytes) (event_log_area ecdsa_p384 : bytes).

Notation Rsp := (Responder TM L).
Notation RM := (M Rsp (aerr SpdmStatus)).
Notation dispatcher := (migtd_vdm_msg_rsp_dispatcher_ex VERIFIED_POLICY local_policy local_issuer_chain event_log_area ecdsa_p384 : option Z → bytes → Z → RM Response).

(** ** What does not change *)

(** Every transcript of [c'] was there before, of the same key exchange. *)
Definition inherits (c c' : SpdmContext) : Prop :=
  ∀ sid x t, sessions c' !! sid = Some x → transcript_before_finish x = Some t →
    ∃ x0, sessions c !! sid = Some x0 ∧ transcript_before_finish x0 = Some t ∧ th1 x = th1 x0.

Definition framed (s s' : Rsp) : Prop :=
  info s' = info s ∧ peer_data s' = peer_data s ∧ last_session_id (common s') = last_session_id (common s) ∧ inherits (common s) (common s').

Definition calm (s s' : Rsp) : Prop :=
  framed s s' ∧ td (outside s') = td (outside s) ∧ mig_info_exchanged s' = mig_info_exchanged s.

#[local] Instance inherits_preorder : PreOrder inherits.
Proof.
  split.
  - intros c sid x t Hx Ht. eauto.
  - intros a b c Hab Hbc sid x t Hx Ht. destruct (Hbc sid x t Hx Ht) as (y & Hy & Hyt & ->). by apply Hab.
Qed.

#[local] Instance framed_preorder : PreOrder framed.
Proof.
  split; [intros s; by split_and!|]. intros a b c (? & ? & ? & ?) (? & ? & ? & ?). split_and!; try congruence. by etrans.
Qed.

#[local] Instance calm_preorder : PreOrder calm.
Proof. split; [intros s; by split_and!|]. intros a b c (? & ? & ?) (? & ? & ?). split; [by etrans|split; congruence]. Qed.

Lemma inherits_sessions c m : (∀ sid x t, m !! sid = Some x → transcript_before_finish x = Some t → ∃ x0,
    sessions c !! sid = Some x0 ∧ transcript_before_finish x0 = Some t ∧ th1 x = th1 x0) → inherits c (set_sessions m c).
Proof. done. Qed.

Lemma calm_same_sessions (s : Rsp) c : sessions c = sessions (common s) → last_session_id c = last_session_id (common s) → calm s (set_common c s).
Proof. intros Hs Hl. split; [|done]. split_and!; try done. intros sid x t. cbn. rewrite Hs. eauto. Qed.

Lemma calm_teardown (s : Rsp) sid x : sessions (common s) !! sid = Some x →
  calm s (set_common (set_sessions (<[sid := teardown x]> (sessions (common s))) (common s)) s).
Proof.
  intros Hx. split; [|done]. split_and!; try done. intros i y t. cbn. rewrite lookup_insert_Some.
  intros [[<- <-]|[_ Hy]] Ht; [|by eauto]. apply teardown_keeps in Ht as [Ht ->]. eauto.
Qed.

Lemma calm_frames {A} (m : RM A) : keeps calm m → keeps framed m.
Proof. intros Hm s r s' E. by apply (Hm s r s'). Qed.

Lemma keeps_zoom {S P E A} (R : P → P → Prop) (R' : S → S → Prop) (get : S → P) (set : P → S → S) (m : M P E A) :
  (∀ s p, R (get s) p → R' s (set p s)) → keeps R m → keeps R' (zoom get set m).
Proof. intros HR Hm s r s'. unfold zoom. destruct (m (get s)) as [r' p] eqn:Em. intros [= <- <-]. apply HR. by eapply Hm. Qed.

Lemma framed_outside {A} (m : M (Outside TM) (aerr SpdmStatus) A) : keeps framed (with_outside m : RM A).
Proof. apply (keeps_zoom (λ _ _, True)); [|done]. intros s p _. by split_and!. Qed.

Lemma calm_outside {A} (m : M (Outside TM) (aerr SpdmStatus) A) : keeps (λ o o', td o' = td o) m → keeps calm (with_outside m : RM A).
Proof. apply keeps_zoom. intros s p Hp. split; [by split_and!|done]. Qed.

Lemma calm_quoting {E A} f (m : M QuoteWorld E A) : keeps calm (with_outside (on_quoting f m) : RM A).
Proof. apply calm_outside, (keeps_zoom (λ _ _, True)); [done|]. by intros s r s' _. Qed.

Lemma new_key_td : keeps (λ o o', td o' = td o) (new_key ecdsa_p384 : M (Outside TM) (aerr SpdmStatus) (EcdsaPk * bytes)).
Proof.
  intros s r s'. unfold new_key, draw. rewrite M_bind_eq. cbv beta iota. rewrite liftO_bind.
  destruct (failing _ _); [|by intros [= _ <-]..]. by destruct (public_key_spki ecdsa_p384 a); intros [= _ <-].
Qed.

Lemma calm_new_key : keeps calm (with_outside (new_key ecdsa_p384) : RM (EcdsaPk * bytes)).
Proof. apply calm_outside, new_key_td. Qed.

Lemma calm_authenticated {A} (m : M QuoteWorld PolicyError.t A) : keeps calm (authenticated m : RM (option A)).
Proof. apply calm_outside, (keeps_zoom (λ _ _, True)); [done|]. by intros s r s' _. Qed.

Lemma calm_verified r : keeps calm (verified r : RM (option unit)).
Proof. unfold verified. keeps_auto. Qed.

Lemma calm_get_session sid : keeps calm (get_session_via_id sid : RM SpdmSession).
Proof. unfold get_session_via_id. keeps_auto. Qed.

Lemma calm_teardown_session sid : keeps calm (teardown_session sid : RM unit).
Proof.
  intros s r s'. unfold teardown_session, get_session_via_id, set_session. rewrite M_bind_eq, getS_bind.
  destruct (sessions (common s) !! sid) as [x|] eqn:Hx; cbn; [|by intros [= _ <-]]. intros [= _ <-]. by apply calm_teardown.
Qed.

Lemma calm_or_teardown {A} sid e (r : option A) : keeps calm (or_teardown sid e r : RM A).
Proof. unfold or_teardown. keeps_auto; apply calm_teardown_session. Qed.

Lemma calm_store c : keeps calm (λ s : Rsp, let '(r, ctx) := store_app_context c (common s) in (r, set_common ctx s)).
Proof.
  intros s r s'. unfold store_app_context. destruct (write_at _ _ _); intros [= _ <-]; by apply calm_same_sessions.
Qed.

Lemma calm_attestation_session i : keeps calm (attestation_session i : RM Z).
Proof. unfold attestation_session. keeps_auto; apply calm_get_session. Qed.

#[local] Hint Resolve calm_quoting calm_new_key calm_authenticated calm_verified calm_get_session calm_or_teardown
  calm_store calm_attestation_session framed_outside : migtd.

Lemma calm_modify (f : Rsp → Rsp) : (∀ s, calm s (f s)) → keeps calm (modifyS f : RM unit).
Proof. apply keeps_modifyS. Qed.

Lemma calm_ext e : keeps calm (modifyS (set_servtd_ext e) : RM unit).
Proof. by apply calm_modify. Qed.
#[local] Hint Resolve calm_ext : migtd.

Lemma calm_pub_key m r : keeps calm (handle_exchange_pub_key_req ecdsa_p384 m r : RM bytes).
Proof. unfold handle_exchange_pub_key_req. keeps_auto. apply calm_modify. intros s'. by apply calm_same_sessions. Qed.

Lemma calm_verify_v2 q l h i e pd d sid : keeps calm (rsp_verify_peer_attestation_v2 VERIFIED_POLICY local_issuer_chain q l h i e pd d sid : RM unit).
Proof. unfold rsp_verify_peer_attestation_v2. keeps_auto. Qed.
#[local] Hint Resolve calm_verify_v2 : migtd.

Lemma calm_mig_attest i m r : keeps calm (handle_exchange_mig_attest_info_req VERIFIED_POLICY local_policy local_issuer_chain event_log_area i m r : RM bytes).
Proof. unfold handle_exchange_mig_attest_info_req. keeps_auto. Qed.

Lemma calm_rebind_attest i m r : keeps calm (handle_exchange_rebind_attest_info_req VERIFIED_POLICY local_policy local_issuer_chain event_log_area i m r : RM bytes).
Proof. unfold handle_exchange_rebind_attest_info_req. keeps_auto. Qed.

(** ** Attested sessions *)

(** The evidence of some peer for the policy [pd] passed every check and was made
    for the key exchange [d]. *)
Definition attested_for (i : ResponderContextExInfo) (pd : bytes) (d : SpdmDigest) : Prop :=
  match i with
  | MigrationInformation _ => ∃ quote log tdinfo ext w report w',
      authenticate_migration_source_with_init_tdinfo sha_option VERIFIED_POLICY local_issuer_chain quote pd log tdinfo ext w = (Ok report, w') ∧
      verify_report_data_binding report MIGTD_REQ d = Ok tt
  | RebindInformation _ => ∃ tdreport log tdinfo ext w report w',
      authenticate_rebinding_old sha_option VERIFIED_POLICY local_issuer_chain tdreport log pd tdinfo ext w = (Ok report, w') ∧
      verify_tdreport_data_binding report MIGTD_REQ d = Ok tt
  | NoInformation => False
  end.

Definition attested (s : Rsp) (x : SpdmSession) : Prop := attested_for (info s) (peer_data s) (th1 x).

(** Only attested sessions have a transcript. *)
Definition transcripts_attested (s : Rsp) : Prop :=
  ∀ sid x, sessions (common s) !! sid = Some x → is_Some (transcript_before_finish x) → attested s x.

Lemma framed_attested s s' : framed s s' → transcripts_attested s → transcripts_attested s'.
Proof.
  intros (Hi & Hp & _ & Hin) Hs sid x Hx [t Ht]. destruct (Hin sid x t Hx Ht) as (x0 & Hx0 & Ht0 & Hth).
  unfold attested. rewrite Hi, Hp, Hth. by apply (Hs sid x0 Hx0); eexists.
Qed.

(** The session a message is about. *)
Definition target (i : option Z) (s : Rsp) : option Z := match i with Some sid => Some sid | None => last_session_id (common s) end.

Lemma attestation_session_Ok i (s : Rsp) sid s' : attestation_session i s = (Ok sid, s') →
  s' = s ∧ target i s = Some sid ∧ ∃ x, sessions (common s) !! sid = Some x ∧ transcript_before_finish x = None.
Proof.
  unfold attestation_session. rewrite getS_bind, ok_or_bind. fold (target i s). destruct (target i s) as [i'|] eqn:Et; [|done].
  intros (x & s1 & E1 & E)%M_bind_Ok_inv. unfold get_session_via_id in E1. rewrite getS_bind in E1. apply ok_or_Ok in E1 as [Hx ->].
  rewrite err_if_bind in E. case_bool_decide as Ht; [done|]. rewrite err_if_bind in E. destruct (_ || _); [done|].
  injection E as <- <-. split; [done|]. split; [done|]. exists x. split; [done|]. by apply eq_None_not_Some.
Qed.

Lemma get_session_Ok sid (s : Rsp) x s' : get_session_via_id sid s = (Ok x, s') → s' = s ∧ sessions (common s) !! sid = Some x.
Proof. unfold get_session_via_id. rewrite getS_bind. by intros [-> ->]%ok_or_Ok. Qed.

Lemma authenticated_Ok {A} (m : M QuoteWorld PolicyError.t A) (s : Rsp) a s' :
  (authenticated m : RM (option A)) s = (Ok (Some a), s') → ∃ w w', m w = (Ok a, w').
Proof.
  unfold authenticated, with_outside, zoom. destruct (m (quoting (outside s))) as [[b|e|] w'] eqn:E; intros [= <- <-]. eauto.
Qed.

Lemma or_teardown_Ok {A} sid e (r : option A) (s : Rsp) a s' : (or_teardown sid e r : RM A) s = (Ok a, s') → r = Some a ∧ s' = s.
Proof.
  unfold or_teardown. destruct r; [by intros [= -> ->]|]. by intros (? & ? & _ & ?)%M_bind_Ok_inv.
Qed.

Lemma verified_Ok r (s : Rsp) u s' : (verified r : RM (option unit)) s = (Ok (Some u), s') → r = Ok tt.
Proof. unfold verified. destruct r as [[]| |]; by intros [= _ _]. Qed.

Lemma liftO_run {A} (r : outcome (aerr SpdmStatus) A) (s : Rsp) a s' : (liftO r : RM A) s = (Ok a, s') → r = Ok a ∧ s' = s.
Proof. unfold liftO. by intros [= -> ->]. Qed.

Lemma err_if_run c e (s : Rsp) u s' : (err_if c e : RM unit) s = (Ok u, s') → c = false ∧ s' = s.
Proof. unfold err_if. destruct c; [done|]. by intros [= _ ->]. Qed.

Lemma verify_v2_Ok q l h i e pd d sid (s : Rsp) u s' :
  rsp_verify_peer_attestation_v2 VERIFIED_POLICY local_issuer_chain q l h i e pd d sid s = (Ok u, s') →
  ∃ w report w', authenticate_migration_source_with_init_tdinfo sha_option VERIFIED_POLICY local_issuer_chain q pd l i e w = (Ok report, w') ∧
    verify_report_data_binding report MIGTD_REQ d = Ok tt.
Proof.
  unfold rsp_verify_peer_attestation_v2. intros (hh & s1 & _ & (? & s2 & _ & (res & s3 & Ea & E)%M_bind_Ok_inv)%M_bind_Ok_inv)%M_bind_Ok_inv.
  apply M_bind_Ok_inv in E as (rep & s4 & [-> ->]%or_teardown_Ok & (b & s5 & Ev & [-> ->]%or_teardown_Ok)%M_bind_Ok_inv).
  apply authenticated_Ok in Ea as (w & w' & Ea). apply verified_Ok in Ev. eauto.
Qed.

(** Runs that succeed without touching the library's context. *)
Definition silent {A} (m : RM A) : Prop := ∀ s a s', m s = (Ok a, s') → common s' = common s.

Lemma silent_bind {A B} (m : RM A) (f : A → RM B) : silent m → (∀ a, silent (f a)) → silent (m ≫= f).
Proof. intros Hm Hf s b s' (a & s1 & E1 & E2)%M_bind_Ok_inv. rewrite (Hf a s1 b s' E2). by eapply Hm. Qed.
Lemma silent_liftO {A} (r : outcome (aerr SpdmStatus) A) : silent (liftO r : RM A).
Proof. by intros s a s' [_ ->]%liftO_run. Qed.
Lemma silent_err_if c e : silent (err_if c e : RM unit).
Proof. by intros s a s' [_ ->]%err_if_run. Qed.
Lemma silent_outside {A} (m : M (Outside TM) (aerr SpdmStatus) A) : silent (with_outside m : RM A).
Proof. intros s a s'. unfold with_outside, zoom. destruct (m _). by intros [= _ <-]. Qed.
Lemma silent_authenticated {A} (m : M QuoteWorld PolicyError.t A) : silent (authenticated m : RM (option A)).
Proof. apply silent_outside. Qed.
Lemma silent_verified r : silent (verified r : RM (option unit)).
Proof. intros s a s'. unfold verified. destruct r; by intros [= _ <-]. Qed.
Lemma silent_or_teardown {A} sid e (r : option A) : silent (or_teardown sid e r : RM A).
Proof. by intros s a s' [_ ->]%or_teardown_Ok. Qed.
Lemma silent_ext e : silent (modifyS (set_servtd_ext e) : RM unit).
Proof. by intros s a s' [= _ <-]. Qed.

#[local] Hint Resolve silent_bind silent_liftO silent_err_if silent_outside silent_authenticated silent_verified silent_or_teardown silent_ext : migtd.

Lemma silent_verify_v2 q l h i e pd d sid : silent (rsp_verify_peer_attestation_v2 VERIFIED_POLICY local_issuer_chain q l h i e pd d sid : RM unit).
Proof. unfold rsp_verify_peer_attestation_v2. eauto 20 with migtd. Qed.
#[local] Hint Resolve silent_verify_v2 : migtd.

(** An attestation handler that answers has checked the peer for the session. *)
Lemma mig_attest_Ok i m r (s : Rsp) w s' :
  handle_exchange_mig_attest_info_req VERIFIED_POLICY local_policy local_issuer_chain event_log_area i m r s = (Ok w, s') →
  common s' = common s ∧ ∃ sid x, target i s = Some sid ∧ sessions (common s) !! sid = Some x ∧ attested s x.
Proof.
  unfold handle_exchange_mig_attest_info_req. rewrite getS_bind. intros (? & s1 & [Hm ->]%err_if_run & E)%M_bind_Ok_inv.
  apply M_bind_Ok_inv in E as (sid & s2 & (-> & Ht & _)%attestation_session_Ok & (? & s3 & [_ ->]%liftO_run & E)%M_bind_Ok_inv).
  apply M_bind_Ok_inv in E as (session & s4 & [-> Hx]%get_session_Ok & E).
  split; [revert E; apply (silent_bind _ _ (silent_liftO _)); eauto 40 with migtd|]. exists sid, session. split; [done|]. split; [done|].
  repeat (apply M_bind_Ok_inv in E; destruct E as (? & ? & ? & E)).
  match goal with Hv : rsp_verify_peer_attestation_v2 _ _ _ _ _ _ _ _ _ _ _ = _ |- _ => apply verify_v2_Ok in Hv as (w0 & rep & w' & Ha & Hb) end.
  unfold attested, attested_for. destruct (info s); [|done..]. do 7 eexists. eauto.
Qed.

Lemma rebind_attest_Ok i m r (s : Rsp) w s' :
  handle_exchange_rebind_attest_info_req VERIFIED_POLICY local_policy local_issuer_chain event_log_area i m r s = (Ok w, s') →
  common s' = common s ∧ ∃ sid x, target i s = Some sid ∧ sessions (common s) !! sid = Some x ∧ attested s x.
Proof.
  unfold handle_exchange_rebind_attest_info_req. rewrite getS_bind. intros (? & s1 & [Hm ->]%err_if_run & E)%M_bind_Ok_inv.
  apply M_bind_Ok_inv in E as (sid & s2 & (-> & Ht & _)%attestation_session_Ok & (? & s3 & [_ ->]%liftO_run & E)%M_bind_Ok_inv).
  apply M_bind_Ok_inv in E as (session & s4 & [-> Hx]%get_session_Ok & E).
  split; [revert E; apply (silent_bind _ _ (silent_liftO _)); eauto 40 with migtd|]. exists sid, session. split; [done|]. split; [done|].
  repeat (apply M_bind_Ok_inv in E; destruct E as (? & ? & ? & E)).
  repeat match goal with Hv : or_teardown _ _ _ _ = _ |- _ => apply or_teardown_Ok in Hv as [-> ->] end.
  match goal with Ha : authenticated _ _ = _ |- _ => apply authenticated_Ok in Ha as (w0 & w' & Ha) end.
  match goal with Hb : verified _ _ = _ |- _ => apply verified_Ok in Hb end.
  unfold attested, attested_for. destruct (info s); [done| |done]. do 7 eexists. eauto.
Qed.

(** ** Writes to the TDX module *)

Definition allowed (i : option Z) (s : Rsp) : Prop :=
  ∃ sid x, i = Some sid ∧ sessions (common s) !! sid = Some x ∧ established x = true ∧ is_Some (transcript_before_finish x).

(** Runs that keep the frame and touch the TDX module only if [P]. *)
Definition guarded {A} (P : Rsp → Prop) (m : RM A) : Prop :=
  ∀ s r s', m s = (r, s') → framed s s' ∧ (td (outside s') = td (outside s) ∨ P s).

Lemma calm_guarded {A} P (m : RM A) : keeps calm m → guarded P m.
Proof. intros Hm s r s' E. destruct (Hm s r s' E) as (? & ? & _). by split; [|left]. Qed.

(** What runs behind a check of [P] is free to write. *)
Lemma guarded_check {A B} P (m : RM A) (f : A → RM B) :
  keeps calm m → (∀ s a s', m s = (Ok a, s') → P s) → (∀ a, keeps framed (f a)) → guarded P (m ≫= f).
Proof.
  intros Hm HP Hf s r s' E. rewrite M_bind_eq in E. destruct (m s) as [[a|e|] s1] eqn:E1; [|injection E as <- <-; by apply (calm_guarded P m Hm s _ s1 E1)..].
  split; [|right; by eapply HP]. etrans; [apply (Hm s _ s1 E1)|by apply (Hf a s1 r s')].
Qed.

Lemma guarded_ok_or {A B} P (o : option A) e (f : A → RM B) : (∀ a, o = Some a → guarded P (f a)) → guarded P (ok_or o e ≫= f).
Proof. intros Hf s r s'. rewrite ok_or_bind. destruct o as [a|]; [by apply Hf|]. intros [= <- <-]. by split; [|left]. Qed.

Lemma guarded_err_if {B} P c e (f : unit → RM B) : guarded P (f tt) → guarded P (err_if c e ≫= f).
Proof. intros Hf s r s'. rewrite err_if_bind. destruct c; [|by apply Hf]. intros [= <- <-]. by split; [|left]. Qed.

Lemma guarded_getS {B} P (f : Rsp → RM B) : (∀ s0, guarded P (f s0)) → guarded P (getS ≫= f).
Proof. intros Hf s r s'. rewrite getS_bind. apply Hf. Qed.

Lemma attested_session_calm sid : keeps calm (attested_session sid : RM unit).
Proof.
  intros s r s'. unfold attested_session. rewrite M_bind_eq. destruct (get_session_via_id sid s) as [[x|e|] s1] eqn:E1.
  - apply get_session_Ok in E1 as [-> Hx]. destruct (_ || _); [|by intros [= _ <-]]. unfold set_session. rewrite modifyS_bind.
    intros [= _ <-]. by apply calm_teardown.
  - intros [= _ <-]. by apply (calm_get_session sid s _ s1 E1).
  - intros [= _ <-]. by apply (calm_get_session sid s _ s1 E1).
Qed.

Lemma attested_session_Ok sid (s : Rsp) u s' : attested_session sid s = (Ok u, s') → allowed (Some sid) s.
Proof.
  unfold attested_session. intros (x & s1 & [-> Hx]%get_session_Ok & E)%M_bind_Ok_inv.
  destruct (negb (established x) || _) eqn:Ec; [by apply M_bind_Ok_inv in E as (? & ? & _ & ?)|].
  apply orb_false_iff in Ec as [He%negb_false_iff Ht%bool_decide_eq_false]. exists sid, x. split_and!; try done.
  by destruct (transcript_before_finish x).
Qed.

Lemma replay_calm sid : keeps calm (refuse_replay sid : RM unit).
Proof.
  intros s r s'. unfold refuse_replay. rewrite getS_bind. destruct (mig_info_exchanged s); [|by intros [= _ <-]].
  destruct (sessions (common s) !! sid) as [x|] eqn:Hx; [|by intros [= _ <-]].
  unfold set_session. rewrite modifyS_bind. intros [= _ <-]. by apply calm_teardown.
Qed.

Lemma replay_Ok sid (s : Rsp) u s' : refuse_replay sid s = (Ok u, s') → mig_info_exchanged s = false ∧ s' = s.
Proof.
  unfold refuse_replay. rewrite getS_bind. destruct (mig_info_exchanged s); [by intros (? & ? & _ & ?)%M_bind_Ok_inv|]. by intros [= _ ->].
Qed.

Lemma framed_exchanged : keeps framed (modifyS set_exchanged : RM unit).
Proof. by apply keeps_modifyS. Qed.
#[local] Hint Resolve framed_exchanged : migtd.

Lemma mig_info_guarded i m r : guarded (λ s, mig_info_exchanged s = false ∧ allowed i s) (handle_exchange_mig_info_req i m r : RM bytes).
Proof.
  unfold handle_exchange_mig_info_req. apply guarded_ok_or. intros sid ->. intros s res s' E. rewrite M_bind_eq in E.
  destruct (refuse_replay sid s) as [[u|e|] s1] eqn:E1;
    [|injection E as <- <-; destruct (replay_calm sid s _ s1 E1) as (? & ? & _); by split; [|left]..].
  apply replay_Ok in E1 as [Hx ->]. revert E. intros [Hf Ht]%(guarded_check (allowed (Some sid))).
  - split; [done|]. destruct Ht; [by left|by right].
  - apply attested_session_calm.
  - intros s2 a s3. apply attested_session_Ok.
  - intros _. unfold on_target. keeps_auto.
Qed.

Lemma rebind_info_guarded i m r : guarded (allowed i) (handle_exchange_rebind_info_req i m r : RM bytes).
Proof.
  unfold handle_exchange_rebind_info_req. apply guarded_getS. intros s0. apply guarded_err_if, guarded_ok_or. intros sid ->.
  apply guarded_check; [apply attested_session_calm|intros s u s'; apply attested_session_Ok|]. intros _. unfold on_target. keeps_auto.
Qed.

(** ** The mark of an exchange *)

(** The last word of a decryption key was written. *)
Definition key_written (c : TdCall) : bool :=
  match c with ServtdWr _ f _ _ ok => ok && (f =? TDCS_FIELD_MIG_DEC_KEY + 3) | _ => false end.

(** Calls are only added; a run after which the state is not marked, was not marked
    before either and did not complete a key. *)
Definition marks (s s' : Rsp) : Prop := ∃ new, td_log (td (outside s')) = td_log (td (outside s)) ++ new ∧
  (mig_info_exchanged s' = true ∨ mig_info_exchanged s' = mig_info_exchanged s ∧ existsb key_written new = false).

#[local] Instance marks_preorder : PreOrder marks.
Proof.
  split; [intros s; exists []; rewrite app_nil_r; split; [done|by right]|].
  intros a b c (n1 & L1 & K1) (n2 & L2 & K2). exists (n1 ++ n2). rewrite L2, L1, <-app_assoc, existsb_app. split; [done|].
  destruct K2 as [K2|[-> K2]]; [by left|]. destruct K1 as [K1|[-> K1]]; [by left|right]. by rewrite K1, K2.
Qed.

Lemma calm_marks s s' : calm s s' → marks s s'.
Proof. intros (_ & Ht & Hx). exists []. rewrite Ht, app_nil_r. split; [done|by right]. Qed.

Lemma calm_keeps_marks {A} (m : RM A) : keeps calm m → keeps marks m.
Proof. intros Hm s r s' E. by apply calm_marks, (Hm s r s'). Qed.

(** Runs on the target TD that do not complete a key. *)
Definition unwritten {A} (m : M (TdWorld TM) (aerr MigrationResult) A) : Prop :=
  ∀ w r w', m w = (r, w') → ∃ new, td_log w' = td_log w ++ new ∧ existsb key_written new = false.

Lemma unwritten_bind {A B} (m : M (TdWorld TM) (aerr MigrationResult) A) (f : A → M (TdWorld TM) (aerr MigrationResult) B) :
  unwritten m → (∀ a, unwritten (f a)) → unwritten (m ≫= f).
Proof.
  intros Hm Hf w r w'. rewrite M_bind_eq. destruct (m w) as [[a|e|] w1] eqn:E; apply Hm in E as (n1 & L1 & N1); [|intros [= <- <-]; eauto..].
  intros (n2 & L2 & N2)%Hf. exists (n1 ++ n2). by rewrite L2, L1, <-app_assoc, existsb_app, N1, N2.
Qed.

Lemma unwritten_reads {A} (m : M (TdWorld TM) (aerr MigrationResult) A) : reads m → unwritten m.
Proof.
  intros Hm w r w' (new & Lg & N)%Hm. exists new. split; [done|]. clear Lg. induction N as [|c l Hc _ IH]; [done|]. cbn [existsb].
  assert (key_written c = false) as -> by (by destruct c). exact IH.
Qed.

Lemma unwritten_pure {A} (o : outcome (aerr MigrationResult) A) : unwritten (liftO o).
Proof. apply unwritten_reads, reads_pure. Qed.

Lemma unwritten_err_if c e : unwritten (err_if c e).
Proof. apply unwritten_reads, reads_err_if. Qed.

Lemma unwritten_vm f x k : unwritten (tdcall_vm_write f x k).
Proof.
  intros w r w'. unfold tdcall_vm_write. destruct (vm_write _ _ _ _) as [[] tm]; intros [= _ <-]; by eexists.
Qed.

Lemma unwritten_words f n bs : unwritten (write_words f n bs).
Proof.
  revert f bs. induction n as [|n IH]; intros f bs; cbn [write_words]; [apply (unwritten_pure (Ok tt))|].
  apply unwritten_bind; [apply unwritten_vm|done].
Qed.

Lemma unwritten_version mi v : unwritten (set_mig_version mi v).
Proof. intros w r w' (ok & Lg & _)%servtd_wr_post. eexists. split; [exact Lg|]. by destruct ok. Qed.

(** A key that is refused is not complete. *)
Lemma refused_key mi k (w : TdWorld TM) r w' : length k = 4%nat → write_msk mi k w = (r, w') →
  ∃ new, td_log w' = td_log w ++ new ∧ (r ≠ Ok tt → existsb key_written new = false).
Proof.
  intros Hk (oks & Lg & Hr)%write_key_post. eexists. split; [exact Lg|]. intros Hn. destruct k as [|k0 [|k1 [|k2 [|k3 [|]]]]]; try done.
  destruct r as [[]|e|]; [by destruct Hn| |done]. destruct Hr as (_ & j & Hj & ->). cbn [length] in Hj.
  destruct j as [|[|[|[|]]]]; [reflexivity..|lia].
Qed.

Lemma marks_target {A} (m : M (TdWorld TM) (aerr MigrationResult) A) : unwritten m → keeps marks (on_target m : RM A).
Proof.
  intros Hm s r s'. unfold on_target, with_outside, on_td, zoom, map_result. destruct (m (td (outside s))) as [o w] eqn:E.
  intros [= _ <-]. apply Hm in E as (new & Lg & N). exists new. split; [done|by right].
Qed.

Lemma keeps_liftO_bind {S E A B} (R : S → S → Prop) `{!PreOrder R} (o : outcome E A) (f : A → M S E B) :
  (∀ a, o = Ok a → keeps R (f a)) → keeps R (liftO o ≫= f).
Proof. intros Hf s r s'. rewrite liftO_bind. destruct o; [by apply Hf|by intros [= _ <-]..]. Qed.

Lemma read_ints_length k : ∀ b l b', read_ints 8 k b = (Ok l, b') → length l = k.
Proof.
  induction k as [|k IH]; intros b l b'; cbn [read_ints]; [by intros [= <- _]|].
  intros (y & b1 & _ & (l1 & b2 & E2%IH & E3)%M_bind_Ok_inv)%M_bind_Ok_inv. injection E3 as <- _. cbn. by rewrite E2.
Qed.

Lemma read_exchange_key version key_ty r i : read_exchange version key_ty r = Ok i → length (key i) = 4%nat.
Proof.
  unfold read_exchange. intros E. do 4 (apply bind_Ok in E as (? & _ & E)). apply bind_Ok in E as ([l rest] & Hr & E). injection E as <-. cbn.
  unfold rd in Hr. destruct (read_ints 8 4 _) as [[l'|e|] r'] eqn:El; [|done..]. injection Hr as <- _. by apply read_ints_length in El.
Qed.

(** Writing the peer's key marks the state. *)
Lemma marks_install {A} mi k (f : unit → RM A) : length k = 4%nat → keeps marks (f tt) →
  keeps marks (_ ← on_target (write_msk mi k); u ← modifyS set_exchanged; f u).
Proof.
  intros Hk Hf s r s'. rewrite M_bind_eq. unfold on_target at 1, with_outside, on_td, zoom, map_result.
  destruct (write_msk mi k (td (outside s))) as [o w] eqn:E. apply (refused_key mi k) in E as (new & Lg & Hn); [|done].
  set (s1 := set_outside _ s). destruct o as [[]|e|]; cbn [map_failed_by].
  - rewrite modifyS_bind. intros (n2 & L2 & K2)%Hf. exists (new ++ n2). rewrite L2. cbn. rewrite Lg, <-app_assoc. split; [done|]. left.
    destruct K2 as [K2|[-> _]]; done.
  - assert (existsb key_written new = false) as Hw by (by apply Hn).
    destruct e; intros [= _ <-]; exists new; (split; [exact Lg|by right]).
  - intros [= _ <-]. exists new. split; [exact Lg|]. right. split; [done|]. by apply Hn.
Qed.

Lemma unwritten_token t : unwritten (write_rebinding_session_token t).
Proof. apply unwritten_bind; [apply unwritten_err_if|intros _; apply unwritten_words]. Qed.

Lemma unwritten_hash h : unwritten (write_approved_servtd_ext_hash h).
Proof. apply unwritten_bind; [apply unwritten_err_if|intros _; apply unwritten_words]. Qed.

Lemma unwritten_attr a : unwritten (write_servtd_rebind_attr a).
Proof. apply unwritten_bind; [apply unwritten_err_if|intros _; apply unwritten_vm]. Qed.

Lemma mig_info_marks i m r : keeps marks (handle_exchange_mig_info_req i m r : RM bytes).
Proof.
  unfold handle_exchange_mig_info_req. apply keeps_bind; [typeclasses eauto|keeps_auto|intros sid].
  apply keeps_bind; [typeclasses eauto|apply calm_keeps_marks, replay_calm|intros _].
  apply keeps_bind; [typeclasses eauto|apply calm_keeps_marks, attested_session_calm|intros _].
  apply keeps_bind; [typeclasses eauto|keeps_auto|intros s0]. apply keeps_bind; [typeclasses eauto|keeps_auto|intros _].
  apply (keeps_liftO_bind marks). intros i' Hi%read_exchange_key. apply (keeps_liftO_bind marks). intros c _. cbv zeta.
  apply keeps_bind; [typeclasses eauto|apply marks_target, unwritten_reads, reads_exchange_info|intros ei].
  apply keeps_bind; [typeclasses eauto|apply marks_target, unwritten_reads, reads_verify|intros _].
  apply keeps_bind; [typeclasses eauto|apply marks_target, unwritten_pure|intros v].
  apply keeps_bind; [typeclasses eauto|apply marks_target, unwritten_version|intros _].
  apply marks_install; [done|]. apply keeps_bind; [typeclasses eauto| |intros _; keeps_auto].
  destruct (SpdmRsp.servtd_ext s0); [|keeps_auto]. apply keeps_bind; [typeclasses eauto|keeps_auto|intros h].
  apply marks_target, unwritten_hash.
Qed.

Lemma rebind_info_marks i m r : keeps marks (handle_exchange_rebind_info_req i m r : RM bytes).
Proof.
  unfold handle_exchange_rebind_info_req. pose proof attested_session_calm as Ha.
  repeat first [apply calm_keeps_marks, Ha | apply marks_target; first [apply unwritten_token|apply unwritten_hash|apply unwritten_attr]
    | apply keeps_bind; [typeclasses eauto| |intros ?]]; keeps_auto.
Qed.

(** ** The dispatcher *)

Lemma handle_guarded i m r :
  guarded (λ s, (op_code m = ExchangeMigrationInfoReq → mig_info_exchanged s = false) ∧ allowed i s)
    (handle VERIFIED_POLICY local_policy local_issuer_chain event_log_area ecdsa_p384 i m r : RM bytes).
Proof.
  unfold handle. destruct (op_code m) eqn:Ho.
  - by intros s ? s' [= _ <-]; split; [|left].
  - apply calm_guarded, calm_pub_key.
  - by intros s ? s' [= _ <-]; split; [|left].
  - apply calm_guarded, calm_mig_attest.
  - by intros s ? s' [= _ <-]; split; [|left].
  - intros s res s' [Hf [Ht|[Hx Ha]]]%mig_info_guarded; (split; [done|]); [by left|right]. by split.
  - by intros s ? s' [= _ <-]; split; [|left].
  - apply calm_guarded, calm_rebind_attest.
  - by intros s ? s' [= _ <-]; split; [|left].
  - intros s res s' [Hf [Ht|Ha]]%rebind_info_guarded; (split; [done|]); [by left|right]. by split.
  - by intros s ? s' [= _ <-]; split; [|left].
  - by intros s ? s' [= _ <-]; split; [|left].
Qed.

Lemma handle_marks i m r : keeps marks (handle VERIFIED_POLICY local_policy local_issuer_chain event_log_area ecdsa_p384 i m r : RM bytes).
Proof.
  unfold handle. destruct (op_code m); try (by intros s ? s' [= _ <-]); first [apply calm_keeps_marks, calm_pub_key | apply calm_keeps_marks, calm_mig_attest
    | apply mig_info_marks | apply calm_keeps_marks, calm_rebind_attest | apply rebind_info_marks].
Qed.

Lemma record_marks op t : keeps marks (record_transcript op t : RM unit).
Proof.
  assert (∀ (f : Rsp → Rsp), (∀ s, outside (f s) = outside s ∧ mig_info_exchanged (f s) = mig_info_exchanged s) → keeps marks (modifyS f : RM unit)) as Hm.
  { intros f Hf. apply keeps_modifyS. intros s. destruct (Hf s) as [Ho Hx]. exists []. rewrite Ho, app_nil_r. split; [done|by right]. }
  unfold record_transcript, set_session. destruct op; keeps_auto; by apply Hm.
Qed.

Lemma dispatch_marks i req cap : keeps marks (dispatcher i req cap).
Proof.
  assert (∀ m : RM bytes, keeps marks m → keeps marks (handled m)) as Hh.
  { intros m Hm s r s'. unfold handled. destruct (m s) as [o s1] eqn:E. pose proof (Hm _ _ _ E) as Hs.
    by destruct o as [a|[e| |]|]; intros [= _ <-]. }
  pose proof handle_marks as Hm. pose proof record_marks as Hr.
  unfold migtd_vdm_msg_rsp_dispatcher_ex, refuse. keeps_auto.
Qed.

Lemma handle_attests i m r (s : Rsp) w s' :
  handle VERIFIED_POLICY local_policy local_issuer_chain event_log_area ecdsa_p384 i m r s = (Ok w, s') →
  has_transcript (op_code m) = true → op_code m ≠ ExchangePubKeyReq →
  common s' = common s ∧ ∃ sid x, target i s = Some sid ∧ sessions (common s) !! sid = Some x ∧ attested s x.
Proof.
  unfold handle. intros E Ht Hn. destruct (op_code m); try done; [by apply mig_attest_Ok in E|by apply rebind_attest_Ok in E].
Qed.

(** A transcript goes to the last session. *)
Lemma record_attested op t (s s' : Rsp) u :
  transcripts_attested s →
  (op ≠ ExchangePubKeyReq → ∃ sid x, last_session_id (common s) = Some sid ∧ sessions (common s) !! sid = Some x ∧ attested s x) →
  record_transcript op t s = (u, s') → transcripts_attested s' ∧ outside s' = outside s ∧ info s' = info s ∧ peer_data s' = peer_data s.
Proof.
  intros Hs Hop. assert (op = ExchangePubKeyReq ∨ op ≠ ExchangePubKeyReq) as [->|Hne] by (destruct op; auto).
  { intros [= _ <-]. by split. }
  destruct (Hop Hne) as (sid & x & Hl & Hx & Ha).
  assert (record_transcript op t s = set_session sid (mkSession (established x) (th1 x) (Some t)) s) as ->.
  { unfold record_transcript. destruct op; try done; by rewrite getS_bind, Hl, Hx. }
  intros [= _ <-]. split; [|done]. intros i y. cbn. rewrite lookup_insert_Some. intros [[<- <-]|[_ Hy]] Ht; [exact Ha|by apply (Hs i)].
Qed.

(** What a dispatch may do. *)
Definition served (i : option Z) (req : bytes) (s s' : Rsp) : Prop :=
  transcripts_attested s' ∧ info s' = info s ∧ peer_data s' = peer_data s ∧
  (td (outside s') = td (outside s) ∨
   ∃ m r, parse_request (negotiate_info (common s)) req = Ok (m, r) ∧
     (op_code m = ExchangeMigrationInfoReq → mig_info_exchanged s = false) ∧ allowed i s).

Lemma served_after i req m r (s s1 s2 : Rsp) :
  parse_request (negotiate_info (common s)) req = Ok (m, r) → framed s s1 →
  (td (outside s1) = td (outside s) ∨ (op_code m = ExchangeMigrationInfoReq → mig_info_exchanged s = false) ∧ allowed i s) →
  transcripts_attested s2 → info s2 = info s1 → peer_data s2 = peer_data s1 → outside s2 = outside s1 → served i req s s2.
Proof.
  intros Ep (Hi1 & Hp1 & _) Ht Hs2 Hi2 Hp2 Ho2. split_and!; [done|congruence|congruence|]. rewrite Ho2.
  destruct Ht as [Ht|Ht]; [by left|right; eauto].
Qed.

(** The whole dispatch of a message on the last session. *)
Lemma dispatch_spec i req cap (s : Rsp) o s' :
  transcripts_attested s → i = None ∨ i = last_session_id (common s) → dispatcher i req cap s = (o, s') → served i req s s'.
Proof.
  intros Hs Hi. assert (∀ o', (o', s) = (o, s') → served i req s s') as Hdone.
  { intros o' [= _ <-]. split_and!; try done. by left. }
  unfold migtd_vdm_msg_rsp_dispatcher_ex. rewrite getS_bind. destruct (parse_request _ req) as [[m r]|[e rsp]|] eqn:Ep; [|by apply Hdone..].
  rewrite or_panic_bind. destruct my_vendor as [vendor|]; [|by apply Hdone]. clear Hdone. rewrite M_bind_eq. unfold handled.
  destruct (handle _ _ _ _ _ i m r s) as [h s1] eqn:Eh. pose proof (handle_guarded i m r s h s1 Eh) as [Hf Ht].
  pose proof (framed_attested s s1 Hf Hs) as Hs1. pose proof (served_after i req m r s s1 s1 Ep Hf Ht Hs1 eq_refl eq_refl eq_refl) as Hend.
  destruct h as [body|[e| |]|]; [|by intros [= _ <-]; apply Hend..]. rewrite getS_bind.
  destruct (respond _ cap vendor body) as [rsp|e|]; [|by intros [= _ <-]; apply Hend..].
  destruct (has_transcript (op_code m)) eqn:Hh; [|by intros [= _ <-]; apply Hend].
  destruct (transcript_of req rsp) as [t|[e| |]|]; [|by intros [= _ <-]; apply Hend..].
  rewrite M_bind_eq. destruct (record_transcript (op_code m) t s1) as [u s2] eqn:E2.
  apply record_attested in E2 as (Hs2 & Ho2 & Hi2 & Hp2); [|done|].
  - destruct u; intros [= _ <-]; by apply (served_after i req m r s s1).
  - intros Hne. destruct (handle_attests i m r s body s1 Eh Hh Hne) as (Hc & sid & x & Htg & Hx & Ha). exists sid, x. rewrite Hc.
    destruct Hf as (Hi1 & Hp1 & _). split_and!; [|done|by unfold attested; rewrite Hi1, Hp1].
    destruct i as [i|]; cbn in Htg; [|done]. destruct Hi as [|Hi]; [done|congruence].
Qed.

(** C3 The SPDM responder touches the TDX module only for an attested session.
    Whatever message arrives, outside a session or on the last session of the library,
    in a state where every session with a transcript has been attested, this stays so, and if the
    state of the TDX module changes then the message came in an established session
    whose peer was authenticated under the local policy with evidence bound to the
    key exchange of that session.  A migration key is completed at most once: serving a
    message in which the last word of a key was written marks the state, a mark stays,
    and in a marked state no request for migration information changes the TDX module. *)
Theorem spdm_writes_after_attestation i req cap (s : Rsp) o s' :
  transcripts_attested s → i = None ∨ i = last_session_id (common s) → dispatcher i req cap s = (o, s') →
  transcripts_attested s' ∧
  (td (outside s') = td (outside s) ∨
   ∃ sid x m r, i = Some sid ∧ sessions (common s) !! sid = Some x ∧ established x = true ∧
     attested_for (info s) (peer_data s) (th1 x) ∧ parse_request (negotiate_info (common s)) req = Ok (m, r) ∧
     (op_code m = ExchangeMigrationInfoReq → mig_info_exchanged s = false)) ∧
  (mig_info_exchanged s = true → mig_info_exchanged s' = true) ∧
  ∃ new, td_log (td (outside s')) = td_log (td (outside s)) ++ new ∧ (existsb key_written new = true → mig_info_exchanged s' = true).
Proof.
  intros Hs Hi E. destruct (dispatch_spec i req cap s o s' Hs Hi E) as (Hs' & _ & _ & Ht). split; [done|].
  destruct (dispatch_marks i req cap s o s' E) as (new & Hlog & Hm). split; [|split; [destruct Hm as [?|[-> _]]; done|]].
  2:{ exists new. split; [done|]. destruct Hm as [?|[_ ->]]; done. }
  destruct Ht as [Ht|(m & r & Hp & Hx & sid & x & -> & Hl & He & Htr)]; [by left|right].
  exists sid, x, m, r. split_and!; try done. by apply (Hs sid x Hl).
Qed.

(** ** Whole runs *)

(** What the library does between the messages: it keeps its hands off the rest of
    the state and makes no transcript of its own. *)
Definition lib_move (s s' : Rsp) : Prop :=
  info s' = info s ∧ peer_data s' = peer_data s ∧ outside s' = outside s ∧ inherits (common s) (common s').

(** Processing a message is moves of the library and calls of the dispatcher, in a
    secured message with the session the library just recorded. *)
Definition processes (pm : (option Z → bytes → Z → RM Response) → RM (option (outcome SpdmStatus unit))) : Prop :=
  ∀ d (I : Rsp → Prop),
    (∀ s s', lib_move s s' → I s → I s') →
    (∀ i req cap s o s', i = None ∨ i = last_session_id (common s) → I s → d i req cap s = (o, s') → I s') →
    ∀ s r s', I s → pm d s = (r, s') → I s'.

Section run.
Context (pm : (option Z → bytes → Z → RM Response) → RM (option (outcome SpdmStatus unit))) (Hpm : processes pm).

(** The states a run comes through from [s0]: moves that leave everything but the
    library's own data alone, and messages that are served. *)
Inductive reached (s0 : Rsp) : Rsp → Prop :=
  | reached_start : reached s0 s0
  | reached_move s s' : reached s0 s → lib_move s s' → reached s0 s'
  | reached_serve i req cap s o s' :
      reached s0 s → i = None ∨ i = last_session_id (common s) → dispatcher i req cap s = (o, s') → reached s0 s'.

(** On the way from [s0] a message was served in an established session whose peer
    showed evidence that passed every check, made for the key exchange of this session. *)
Definition serves_attested (s0 : Rsp) : Prop := ∃ s sid x req cap o s', reached s0 s ∧
  last_session_id (common s) = Some sid ∧ sessions (common s) !! sid = Some x ∧ established x = true ∧
  attested_for (info s0) (peer_data s0) (th1 x) ∧ dispatcher (Some sid) req cap s = (o, s').

(** Nothing was written, or a message of an attested session was served. *)
Definition run_inv (s0 s : Rsp) : Prop :=
  reached s0 s ∧ info s = info s0 ∧ peer_data s = peer_data s0 ∧ transcripts_attested s ∧
  (td (outside s) = td (outside s0) ∨ serves_attested s0).

Lemma move_inv s0 s s' : lib_move s s' → run_inv s0 s → run_inv s0 s'.
Proof.
  intros Hm (Hr & Hi0 & Hp0 & Hs & Ht). pose proof Hm as (Hi & Hp & Ho & Hin). split_and!; [by eapply reached_move|congruence|congruence| |by rewrite Ho].
  intros sid x Hx [t Htr]. destruct (Hin sid x t Hx Htr) as (x0 & Hx0 & Ht0 & Hth). unfold attested. rewrite Hi, Hp, Hth.
  by apply (Hs sid x0 Hx0); eexists.
Qed.

Lemma dispatch_inv s0 j req cap s o s' : j = None ∨ j = last_session_id (common s) → run_inv s0 s → dispatcher j req cap s = (o, s') → run_inv s0 s'.
Proof.
  intros Hj (Hr & Hi0 & Hp0 & Hs & Ht) E. destruct (dispatch_spec j req cap s o s' Hs Hj E) as (Hs' & Hi & Hp & Hw).
  split_and!; [by eapply reached_serve|congruence|congruence|done|].
  destruct Hw as [->|(m & r & _ & _ & sid & x & -> & Hl & He & Htr)]; [done|right].
  exists s, sid, x, req, cap, o, s'. split_and!; try done; [by destruct Hj|]. rewrite <-Hi0, <-Hp0. by apply (Hs sid x Hl).
Qed.

Lemma loop_inv s0 fuel : ∀ sid s r s',
  run_inv s0 s → rsp_handle_message VERIFIED_POLICY local_policy local_issuer_chain event_log_area ecdsa_p384 pm fuel sid s = (r, s') → run_inv s0 s'.
Proof.
  induction fuel as [|fuel IH]; intros sid s r s' Hs; cbn [rsp_handle_message]; [by intros [= _ <-]|]. rewrite M_bind_eq.
  destruct (pm dispatcher s) as [o s1] eqn:E1.
  pose proof (Hpm dispatcher (run_inv s0) (move_inv s0) (λ j req cap s o s', dispatch_inv s0 j req cap s o s') s o s1 Hs E1) as Hs1.
  destruct o as [res|e|]; [|by intros [= _ <-]..]. rewrite getS_bind. destruct (match _ with Some _ => _ | None => _ end); [by intros [= _ <-]|].
  destruct res as [[u|e|]|]; try (by intros [= _ <-]); [by apply IH|]. repeat (destruct (_ : bool); [by intros [= _ <-]|]). by apply IH.
Qed.

Lemma move_common (s : Rsp) c : sessions c = sessions (common s) → lib_move s (set_common c s).
Proof. intros Hc. split_and!; try done. intros sid x t. cbn. rewrite Hc. eauto. Qed.

Lemma respond_inv s0 fuel mi s r s' :
  run_inv s0 s → zeroize_after (respond_with VERIFIED_POLICY local_policy local_issuer_chain event_log_area ecdsa_p384 pm fuel mi) s = (r, s') → run_inv s0 s'.
Proof.
  intros Hs. unfold zeroize_after. destruct (respond_with _ _ _ _ _ _ _ _ s) as [o s1] eqn:E. intros [= _ <-].
  eapply move_inv; [by apply move_common|]. unfold respond_with in E. rewrite M_bind_eq in E. unfold store_app_context in E.
  destruct (write_at _ _ _); [|by injection E as _ <-; eapply move_inv; [by apply move_common|]].
  eapply loop_inv; [|exact E]. eapply move_inv; [by apply move_common|done].
Qed.

(** Whole runs of the responder.  Over SPDM the new migration TD of a rebinding
    changes the state of the TDX module only when it served a message in an established
    session, the old migration TD of which was authenticated with evidence bound to the
    key exchange of that session.  The destination of a migration never changes
    it, whatever the peer sends: the constructor leaves the migration information
    unset, without which every attestation message is refused. *)
Theorem spdm_runs_attested fuel mi pd (ctx : SpdmContext) (o : Outside TM) (l : L) :
  (∀ sid x, sessions ctx !! sid = Some x → transcript_before_finish x = None) →
  (∀ r s', spdm_responder_rebind_new VERIFIED_POLICY local_policy local_issuer_chain event_log_area ecdsa_p384 pm fuel mi pd
             (spdm_responder ctx o l) = (r, s') →
     td (outside s') = td o ∨ serves_attested (mkResponder ctx pd (RebindInformation mi) false None o l)) ∧
  (∀ r s', spdm_responder_transfer_msk VERIFIED_POLICY local_policy local_issuer_chain event_log_area ecdsa_p384 pm fuel mi pd
             (spdm_responder ctx o l) = (r, s') →
     td (outside s') = td o).
Proof.
  intros Hnew. assert (∀ i, run_inv (mkResponder ctx pd i false None o l) (mkResponder ctx pd i false None o l)) as Hstart.
  { intros i. split_and!; [apply reached_start|done|done| |by left]. intros sid x Hx [t Ht]. cbn in Hx. by rewrite (Hnew sid x Hx) in Ht. }
  split; intros r s'; [unfold spdm_responder_rebind_new|unfold spdm_responder_transfer_msk]; rewrite modifyS_bind; intros E.
  - by apply (respond_inv _ _ _ _ _ _ (Hstart (RebindInformation mi))) in E as (_ & _ & _ & _ & Ht).
  - by apply (respond_inv _ _ _ _ _ _ (Hstart NoInformation)) in E as (_ & _ & _ & _ & [Ht|(s & sid & x & req & cap & o' & s2 & _ & _ & _ & _ & Hf & _)]).
Qed.

End run.
End responder.

(** ** A rebinding over SPDM *)

Module Demo.
Import MigPolicySpec.Demo SpdmMsgSpec.Demo.

#[local] Existing Instances MigPolicySpec.Demo.json MigPolicySpec.Demo.crypto MigPolicySpec.Demo.attestation EventLog.Sample.log RaTlsSpec.Demo.ring.
#[local] Existing Instances SpdmMsgSpec.Demo.lib demo_module.

#[local] Instance features : Features := {| vmcall_raw := true; policy_v2 := true; vsock := false; AzCVMEmu := false |}.

#[local, refine] Instance runtime : SpdmRuntime := { teardown s := mkSession false (th1 s) None; SpdmConnectionNegotiated := 3 }.
Proof. - done. - intros s t E. discriminate E. Defined.

Notation Rsp := (Responder (gmap Z Z) (list (option Z * bytes))).

(** The library delivers the messages of a script. *)
Definition deliver_next (d : option Z → bytes → Z → M Rsp (aerr SpdmStatus) Response) : M Rsp (aerr SpdmStatus) (option (outcome SpdmStatus unit)) := λ s,
  match library s with
  | [] => (Ok None, s)
  | (i, req) :: l =>
      let s1 := mkResponder (common s) (peer_data s) (info s) (mig_info_exchanged s) (servtd_ext s) (outside s) l in
      if bool_decide (i = None ∨ i = last_session_id (common s)) then
        match d i req 2100 s1 with
        | (Ok r, s2) => (Ok (Some r.1), s2)
        | (Err e, s2) => (Err e, s2)
        | (Panic, s2) => (Panic, s2)
        end
      else (Ok None, s1)
  end.

Lemma deliver_processes : processes deliver_next.
Proof.
  intros d I Hm Hd s r s' Hs. unfold deliver_next. destruct (library s) as [|[i req] l] eqn:El; [by intros [= _ <-]|].
  assert (I (mkResponder (common s) (peer_data s) (info s) (mig_info_exchanged s) (servtd_ext s) (outside s) l)) as H1.
  { apply (Hm s); [|done]. split_and!; try done. intros sid x t Hx Ht. by exists x. }
  case_bool_decide as Hi; [|by intros [= _ <-]]. destruct (d i req 2100 _) as [o s2] eqn:E.
  pose proof (Hd i req 2100 (mkResponder _ _ _ _ _ _ l) o s2 Hi H1 E). destruct o; by intros [= _ <-].
Qed.

Definition body (op : VdmMessageOpCode) (count : Z) (elements : list (VdmMessageElementType * bytes)) : bytes :=
  VdmMessage_encode (mkVdm 0 0 op count) ++ concat (map (λ e, element_bytes e.1 e.2) elements).

Definition request (b : bytes) : bytes := match encode_message ni 0xfe vendor b with Ok bs => bs | _ => [] end.

(** The old migration TD shows its report and then hands over a token. *)
Definition attest : bytes := Eval vm_compute in request (body ExchangeRebindAttestInfoReq 5
  [(TdReportMy, report); (EventLogMy, log); (MigPolicyMy, X509.sha384 peer); (SerVtdExt, ext); (TdReportInit, report)]).
Definition hand_over : bytes := Eval vm_compute in request (body ExchangeRebindInfoReq 1 [(RebindSessionToken, replicate 32 6)]).

Definition ctx : SpdmContext :=
  mkContext ni (zeros 400) (Some [1]) (Some [2]) 3 (Some 1) None {[ 1 := mkSession true (mkDigest 48 (zeros 64)) None ]}.
Definition rebind : MigtdMigrationInformation := mig_info_default.
Definition outer : Outside (gmap Z Z) := mkOutside (mkTdWorld ∅ []) (mkQuoteWorld [λ _, Some [1]; λ _, Some [1]] [Quote [9]] [] []) [].
Definition fresh : Rsp := mkResponder ctx peer (RebindInformation rebind) false None outer [].

Notation serve := (migtd_vdm_msg_rsp_dispatcher_ex (Some lp) (Some policy) (Some chain) log [] : option Z → bytes → Z → M Rsp (aerr SpdmStatus) Response).

Definition after_attest : Rsp := (serve None attest 2100 fresh).2.
Definition after_token : Rsp := (serve (Some 1) hand_over 2100 after_attest).2.

Example hand_over_accepted : (serve (Some 1) hand_over 2100 after_attest).1 = Ok (Ok tt, Some [18; 126; 0; 0; 4; 4; 87; 1; 0; 0; 4; 0; 0; 0; 10; 0]).
Proof. vm_compute. reflexivity. Qed.

Lemma fresh_attested : transcripts_attested (Some lp) (Some chain) fresh.
Proof. intros sid x. cbn. rewrite lookup_singleton_Some. intros [_ <-] [t Ht]. discriminate Ht. Qed.

Lemma spdm_writes_after_attestation_witness :
  transcripts_attested (Some lp) (Some chain) after_attest ∧
  ∃ x, sessions (common after_attest) !! 1 = Some x ∧ attested_for (Some lp) (Some chain) (RebindInformation rebind) peer (th1 x).
Proof.
  pose proof (proj1 (spdm_writes_after_attestation (Some lp) (Some policy) (Some chain) log [] None attest 2100 fresh _ after_attest
    fresh_attested (or_introl eq_refl) (surjective_pairing _))) as H1.
  assert (Some 1 = last_session_id (common after_attest)) as Hl by (vm_compute; reflexivity).
  destruct (spdm_writes_after_attestation (Some lp) (Some policy) (Some chain) log [] (Some 1) hand_over 2100 after_attest _ after_token
    H1 (or_intror Hl) (surjective_pairing _)) as (_ & [Ht|(sid & x & m & r & [= <-] & Hx & _ & Ha & _)] & _).
  - exfalso. apply (f_equal (λ w, length (td_log w))) in Ht. vm_compute in Ht. discriminate Ht.
  - split; [exact H1|]. exists x. split; [exact Hx|]. exact Ha.
Defined.

Definition script : list (option Z * bytes) := [(None, attest); (Some 1, hand_over)].

Definition rebound : Rsp :=
  (spdm_responder_rebind_new (Some lp) (Some policy) (Some chain) log [] deliver_next 5 rebind peer (spdm_responder ctx outer script)).2.

Example spdm_runs_attested_sample :
  serves_attested (Some lp) (Some policy) (Some chain) log [] (mkResponder ctx peer (RebindInformation rebind) false None outer script).
Proof.
  assert (∀ sid x, sessions ctx !! sid = Some x → transcript_before_finish x = None) as Hn.
  { intros sid x. cbn. rewrite lookup_singleton_Some. by intros [_ <-]. }
  destruct (proj1 (spdm_runs_attested (Some lp) (Some policy) (Some chain) log [] deliver_next deliver_processes 5 rebind peer ctx outer script Hn)
    _ rebound (surjective_pairing _)) as [Ht|Ha]; [|exact Ha].
  exfalso. apply (f_equal (λ w, length (td_log w))) in Ht. vm_compute in Ht. discriminate Ht.
Qed.

End Demo.
