(* ===== verification/SpdmReq.v ===== *)
(** * SpdmReq: the SPDM requester

    src/migtd/src/spdm/spdm_req.rs and the requester of spdm_rebind.rs, with
    [policy_v2], [vmcall-raw] and [main] and without the emulation and test
    features.  The exchanges of spdmlib are the class [RequesterLib]. *)
From stdpp Require Import base tactics numbers list list_numbers option strings gmap.
From S2P Require Import Prelude MigData PreSession ServtdExt KeyExchange EventLog PolicyV2 Quote MigPolicy X509 RaTls SpdmMsg.
From S2P Require Import Rebinding SpdmRsp.
Local Open Scope Z_scope.

(** [RequesterContext] with the world outside and spdmlib's own state. *)
Record Requester (TM L : Type) := mkRequester { rq_common : SpdmContext; rq_outside : Outside TM; rq_library : L }.
Arguments mkRequester {TM L}.
Arguments rq_common {TM L}.
Arguments rq_outside {TM L}.
Arguments rq_library {TM L}.

(** The requests of spdmlib.  They exchange messages with the peer and change the
    context and the library, nothing else. *)
Class RequesterLib (L : Type) := {
  send_receive_spdm_version : M (SpdmContext * L) (aerr SpdmStatus) unit;
  send_receive_spdm_capability : M (SpdmContext * L) (aerr SpdmStatus) unit;
  send_receive_spdm_algorithm : M (SpdmContext * L) (aerr SpdmStatus) unit;
  send_receive_spdm_key_exchange : M (SpdmContext * L) (aerr SpdmStatus) Z;
  send_receive_spdm_finish : Z → M (SpdmContext * L) (aerr SpdmStatus) unit;
  send_receive_spdm_end_session : Z → M (SpdmContext * L) (aerr SpdmStatus) unit;
  send_receive_spdm_vendor_defined_request_ex : option Z → bytes → M (SpdmContext * L) (aerr SpdmStatus) bytes;
  reset_buffer_via_request_code : SpdmContext * L → SpdmContext * L }.

Section requester.
Context `{SpdmLib} `{SpdmRuntime} `{Ring} `{PolicyJson} `{PolicyCrypto} `{Attestation} `{CcLog} `{Features}.
Context {TM L : Type} `{TdxModule TM} `{RequesterLib L}.
Context (VERIFIED_POLICY : option VerifiedPolicy) (local_policy local_issuer_chain : option bytes) (event_log_area ecdsa_p384 : bytes).

Notation Req := (Requester TM L).
Notation QM := (M Req (aerr SpdmStatus)).

Definition rq_set_common (c : SpdmContext) (s : Req) : Req := mkRequester c (rq_outside s) (rq_library s).

Definition on_library {A} (m : M (SpdmContext * L) (aerr SpdmStatus) A) : QM A :=
  zoom (λ s, (rq_common s, rq_library s)) (λ p s, mkRequester p.1 (rq_outside s) p.2) m.

Definition rq_outer {A} (m : M (Outside TM) (aerr SpdmStatus) A) : QM A :=
  zoom rq_outside (λ o s, mkRequester (rq_common s) o (rq_library s)) m.

Definition rq_on_target {A} (f : MigrationResult → SpdmStatus) (m : M (TdWorld TM) (aerr MigrationResult) A) : QM A := rq_outer (on_td f m).

Definition invalid_state : MigrationResult → SpdmStatus := λ _, spdm_status SpdmCode.INVALID_STATE_LOCAL.

(** ** Sending a body and getting the peer's *)

(** The request message, the response and the reader behind its message header. *)
Definition send_and_receive (session_id : option Z) (body : bytes) (op : VdmMessageOpCode) (count : Z) : QM (bytes * bytes * bytes) :=
  vendor ← or_panic my_vendor;
  s ← getS;
  request ← liftO (spdm (encode_message (negotiate_info (rq_common s)) SpdmRequestVendorDefinedRequest vendor body));
  response ← on_library (send_receive_spdm_vendor_defined_request_ex session_id request);
  s ← getS;
  h ← liftO (rd header_read (fails SpdmCode.INVALID_MSG_SIZE) response);
  p ← liftO (rd (spdm_read (negotiate_info (rq_common s))) (fails SpdmCode.INVALID_MSG_SIZE) h.2);
  r ← or_panic (slice (vp_payload p.1) 0 (vp_length p.1));
  m ← liftO (rd VdmMessage_read (fails SpdmCode.INVALID_MSG_SIZE) r);
  _ ← liftO (spdm (check_vdm m.1 op count));
  mret (request, response, m.2).

Definition reset_buffer : QM unit :=
  modifyS (λ s, let p := reset_buffer_via_request_code (rq_common s, rq_library s) in mkRequester p.1 (rq_outside s) p.2).

(** ** Public keys *)

Definition send_and_receive_pub_key : QM unit :=
  k ← rq_outer (new_key ecdsa_p384);
  private_key ← or_panic (PrivateKeyDer_from (pk k.1));
  _ ← (λ s, let '(r, ctx) := store_app_context (mkAppContext mig_info_default private_key) (rq_common s) in (r, rq_set_common ctx s));
  w ← liftO (start_message ExchangePubKeyReq VDM_MESSAGE_EXCHANGE_PUB_KEY_REQ_ELEMENT_COUNT);
  w ← liftO (add_element PubKeyMy k.2 w);
  res ← send_and_receive None w ExchangePubKeyRsp VDM_MESSAGE_EXCHANGE_PUB_KEY_RSP_ELEMENT_COUNT;
  let '(request, response, r) := res in
  peer_key ← liftO (take_pub_key r);
  _ ← liftO (check_key_sizes k.2 peer_key);
  _ ← modifyS (λ s, rq_set_common (set_pub_keys k.2 peer_key (rq_common s)) s);
  t ← liftO (transcript_of request response);
  modifyS (λ s, rq_set_common (set_key_transcript t (rq_common s)) s).

(** ** Attestation *)

Definition rq_get_session (sid : Z) : QM SpdmSession :=
  s ← getS; ok_or (sessions (rq_common s) !! sid) (fails SpdmCode.INVALID_STATE_LOCAL).

Definition rq_set_session (sid : Z) (x : SpdmSession) : QM unit :=
  modifyS (λ s, rq_set_common (set_sessions (<[sid := x]> (sessions (rq_common s))) (rq_common s)) s).

Definition rq_or_teardown {A} (sid : Z) (e : SpdmStatus) (r : option A) : QM A :=
  match r with
  | Some a => mret a
  | None => x ← rq_get_session sid; _ ← rq_set_session sid (teardown x); failM (Failed e)
  end.

Definition rq_authenticated {A} (m : M QuoteWorld PolicyError.t A) : QM (option A) :=
  rq_outer (zoom quoting (λ p o, mkOutside (td o) p (drawn o))
    (λ w, match m w with
          | (Ok a, w') => (Ok (Some a), w')
          | (Err _, w') => (Ok None, w')
          | (Panic, w') => (Panic, w')
          end)).

Definition rq_verified (r : outcome MigrationResult unit) : QM (option unit) :=
  match r with Ok _ => mret (Some tt) | Err _ => mret None | Panic => panicM end.

Definition check_provisioned : QM unit :=
  s ← getS;
  err_if (bool_decide (my_pub_key (rq_common s) = None) || bool_decide (peer_pub_key (rq_common s) = None)) (fails SpdmCode.UNSUPPORTED_CAP).

(** [local_init_td_info] (migration/mod.rs), and the TDINFO the VMM gave. *)
Definition local_init_td_info : M QuoteWorld MigrationResult bytes := λ w,
  match tdcall_report (zeros 64) w with
  | (Ok r, w') =>
      (match TdxReport_read_from_bytes r with Some report => Ok (td_info report) | None => Panic end, w')
  | (Err _, w') => (Err MigrationResult.TdxModuleError, w')
  | (Panic, w') => (Panic, w')
  end.

Definition my_init_td_info (i : MigtdMigrationInformation) : QM bytes :=
  match init_td_info_if_present i with
  | Some t => mret t
  | None => rq_outer (on_quoting invalid_state local_init_td_info)
  end.

(** The transcript of the attestation goes to the session. *)
Definition rq_record_transcript (sid : Z) (request response : bytes) : QM unit :=
  t ← liftO (transcript_of request response);
  x ← rq_get_session sid;
  rq_set_session sid (mkSession (established x) (th1 x) (Some t)).

Definition verify_peer_attestation_v2 (quote_peer event_log_peer mig_policy_hash_peer peer_data : bytes) (th1 : SpdmDigest) (sid : Z) : QM unit :=
  peer_data_hash ← liftO (digest_or_crypto_error peer_data);
  _ ← err_if (negb (bool_decide (mig_policy_hash_peer = peer_data_hash))) (fails SpdmCode.INVALID_MSG_FIELD);
  res ← rq_authenticated (authenticate_remote sha_option VERIFIED_POLICY local_issuer_chain true quote_peer peer_data event_log_peer);
  verified_report_peer ← rq_or_teardown sid (spdm_from_mig_result MigrationResult.PolicyUnsatisfiedError) res;
  bound ← rq_verified (verify_report_data_binding verified_report_peer MIGTD_RSP th1);
  rq_or_teardown sid (spdm_from_mig_result MigrationResult.MutualAttestationError) bound.

Definition send_and_receive_sdm_migration_attest_info (i : MigtdMigrationInformation) (sid : Z) (peer_data : bytes) : QM unit :=
  _ ← check_provisioned;
  w ← liftO (start_message ExchangeMigrationAttestInfoReq VDM_MESSAGE_EXCHANGE_MIGRATION_ATTEST_INFO_REQ_ELEMENT_COUNT);
  session ← rq_get_session sid;
  report_data ← liftO (spdm (build_report_data MIGTD_REQ (th1 session)));
  quote_src ← rq_outer (on_quoting spdm_from_mig_result (gen_quote_spdm report_data));
  w ← liftO (add_element QuoteMy quote_src w);
  w ← liftO (add_log_and_policy local_policy local_issuer_chain event_log_area w);
  servtd_ext ← rq_on_target invalid_state (read_servtd_ext (binding_handle i) (target_td_uuid i));
  w ← liftO (add_element SerVtdExt (ext_as_bytes servtd_ext) w);
  tdinfo_init ← my_init_td_info i;
  w ← liftO (add_element TdReportInit tdinfo_init w);
  _ ← reset_buffer;
  res ← send_and_receive None w ExchangeMigrationAttestInfoRsp VDM_MESSAGE_EXCHANGE_MIGRATION_ATTEST_INFO_RSP_ELEMENT_COUNT;
  let '(request, response, r) := res in
  quote_dst ← liftO (spdm (take_element QuoteMy r));
  event_log_dst ← liftO (spdm (take_element EventLogMy quote_dst.2));
  mig_policy_hash_dst ← liftO (spdm (take_element MigPolicyMy event_log_dst.2));
  _ ← verify_peer_attestation_v2 quote_dst.1 event_log_dst.1 mig_policy_hash_dst.1 peer_data (th1 session) sid;
  rq_record_transcript sid request response.

Definition send_and_receive_sdm_rebind_attest_info (i : MigtdMigrationInformation) (sid : Z) (peer_data : bytes) : QM unit :=
  _ ← check_provisioned;
  w ← liftO (start_message ExchangeRebindAttestInfoReq VDM_MESSAGE_EXCHANGE_REBIND_ATTEST_INFO_REQ_WITH_HISTORY_INFO_ELEMENT_COUNT);
  session ← rq_get_session sid;
  report_data ← liftO (spdm (build_report_data MIGTD_REQ (th1 session)));
  td_report_src ← rq_outer (on_quoting (λ _, spdm_status SpdmCode.INVALID_STATE_LOCAL) (gen_tdreport report_data));
  w ← liftO (add_element TdReportMy td_report_src w);
  w ← liftO (add_log_and_policy local_policy local_issuer_chain event_log_area w);
  init_td_info ← my_init_td_info i;
  servtd_ext ← rq_on_target invalid_state (read_servtd_ext (binding_handle i) (target_td_uuid i));
  w ← liftO (add_element SerVtdExt (ext_as_bytes servtd_ext) w);
  w ← liftO (add_element TdReportInit init_td_info w);
  _ ← reset_buffer;
  res ← send_and_receive None w ExchangeRebindAttestInfoRsp VDM_MESSAGE_EXCHANGE_REBIND_ATTEST_INFO_RSP_ELEMENT_COUNT;
  let '(request, response, r) := res in
  td_report_dst ← liftO (spdm (take_element TdReportMy r));
  event_log_dst ← liftO (spdm (take_element EventLogMy td_report_dst.2));
  mig_policy_hash_dst ← liftO (spdm (take_element MigPolicyMy event_log_dst.2));
  peer_data_hash ← liftO (digest_or_crypto_error peer_data);
  _ ← err_if (negb (bool_decide (mig_policy_hash_dst.1 = peer_data_hash))) (fails SpdmCode.INVALID_MSG_FIELD);
  res ← rq_authenticated (authenticate_rebinding_new sha_option VERIFIED_POLICY local_issuer_chain td_report_dst.1 event_log_dst.1 peer_data);
  verified_report_peer ← rq_or_teardown sid (spdm_from_mig_result MigrationResult.PolicyUnsatisfiedError) res;
  bound ← rq_verified (verify_tdreport_data_binding verified_report_peer MIGTD_RSP (th1 session));
  _ ← rq_or_teardown sid (spdm_from_mig_result MigrationResult.MutualAttestationError) bound;
  rq_record_transcript sid request response.

(** ** Migration and rebinding information *)

Definition send_and_receive_sdm_exchange_migration_info (i : MigtdMigrationInformation) (session_id : option Z) : QM unit :=
  exchange_information ← rq_on_target spdm_from_mig_result (exchange_info i true);
  w ← liftO (start_message ExchangeMigrationInfoReq VDM_MESSAGE_EXCHANGE_MIGRATION_INFO_REQ_ELEMENT_COUNT);
  w ← liftO (write_exchange MigrationExportVersion ForwardMigrationSessionKey SpdmCode.BUFFER_FULL
               (min_ver exchange_information) (max_ver exchange_information) (ints_bytes 8 (key exchange_information)) w);
  _ ← reset_buffer;
  res ← send_and_receive session_id w ExchangeMigrationInfoRsp VDM_MESSAGE_EXCHANGE_MIGRATION_INFO_RSP_ELEMENT_COUNT;
  remote_information ← liftO (read_exchange MigrationImportVersion BackwardMigrationSessionKey res.2);
  mig_ver ← rq_on_target spdm_from_mig_result (liftO (cal_mig_version true exchange_information remote_information));
  _ ← rq_on_target spdm_from_mig_result (set_mig_version i mig_ver);
  rq_on_target spdm_from_mig_result (write_msk i (key remote_information)).

(** [create_rebind_token] of migration/rebinding.rs: what the generator fills in. *)
Context (create_rebind_token : option bytes).

Definition send_and_receive_sdm_rebind_info (i : MigtdMigrationInformation) (session_id : option Z) : QM unit :=
  token ← ok_or create_rebind_token (Failed (spdm_from_mig_result MigrationResult.InvalidParameter));
  _ ← err_if (negb (as_u 32 (lenz token) =? VDM_MESSAGE_REBIND_SESSION_TOKEN_SIZE)) (fails SpdmCode.INVALID_STATE_LOCAL);
  w ← liftO (start_message ExchangeRebindInfoReq VDM_MESSAGE_EXCHANGE_REBIND_INFO_ELEMENT_REQ_COUNT);
  w ← liftO (spdm (put PAYLOAD (spdm_status SpdmCode.BUFFER_FULL)
               (VdmMessageElement_encode (mkElement RebindSessionToken VDM_MESSAGE_REBIND_SESSION_TOKEN_SIZE)) w));
  w ← liftO (spdm (put PAYLOAD (spdm_status SpdmCode.BUFFER_FULL) token w));
  _ ← reset_buffer;
  _ ← send_and_receive session_id w ExchangeRebindInfoRsp VDM_MESSAGE_EXCHANGE_REBIND_INFO_ELEMENT_RSP_COUNT;
  rq_on_target invalid_state (approve_rebinding i token).

(** ** Whole sessions *)

Definition rq_zeroize_after {A} (m : QM A) : QM A := λ s,
  let '(r, s') := m s in
  (r, rq_set_common (set_app_buffer (zeros (lenz (app_context_data_buffer (rq_common s')))) (rq_common s')) s').

(** Version, capabilities, algorithms, public keys, key exchange; the session. *)
Definition open_session : QM Z :=
  _ ← on_library send_receive_spdm_version;
  _ ← on_library send_receive_spdm_capability;
  _ ← on_library send_receive_spdm_algorithm;
  _ ← send_and_receive_pub_key;
  on_library send_receive_spdm_key_exchange.

Definition spdm_requester_transfer_msk (i : MigtdMigrationInformation) (peer_data : bytes) : QM unit :=
  rq_zeroize_after (
    sid ← open_session;
    _ ← send_and_receive_sdm_migration_attest_info i sid peer_data;
    _ ← on_library (send_receive_spdm_finish sid);
    _ ← send_and_receive_sdm_exchange_migration_info i (Some sid);
    on_library (send_receive_spdm_end_session sid)).

Definition spdm_requester_rebind_old (i : MigtdMigrationInformation) (peer_data : bytes) : QM unit :=
  rq_zeroize_after (
    sid ← open_session;
    _ ← send_and_receive_sdm_rebind_attest_info i sid peer_data;
    _ ← on_library (send_receive_spdm_finish sid);
    _ ← send_and_receive_sdm_rebind_info i (Some sid);
    on_library (send_receive_spdm_end_session sid)).

(** [spdm_requester]: a fresh context of the library. *)
Definition spdm_requester (ctx : SpdmContext) (o : Outside TM) (l : L) : Req := mkRequester ctx o l.

End requester.
