(* ===== verification/SpdmReqSpec.v ===== *)
(** * SpdmReqSpec: what the SPDM requester does before it trusts a peer

    Nothing is written through the TDX module before the peer has shown evidence
    bound to the key exchange (SpdmReq), and the two sides of an exchange of
    migration information read each other's. *)
From stdpp Require Import base tactics numbers list list_numbers option strings gmap.
From S2P Require Import Prelude MigData PreSession ServtdExt KeyExchange KeyExchangeSpec EventLog PolicyV2 Quote MigPolicy X509 RaTls.
From S2P Require Import Rebinding RebindingSpec SpdmMsg SpdmMsgSpec SpdmRsp SpdmRspSpec SpdmReq.
Local Open Scope Z_scope.

Section requester.
Context `{SpdmLib} `{SpdmRuntime} `{Ring} `{PolicyJson} `{PolicyCrypto} `{Attestation} `{CcLog} `{Features}.
Context {TM L : Type} `{TdxModule TM} `{RequesterLib L}.
Context (VERIFIED_POLICY : option VerifiedPolicy) (local_policy local_issuer_chain : option bytes) (event_log_area ecdsa_p384 : bytes).

Notation Req := (Requester TM L).
Notation QM := (M Req (aerr SpdmStatus)).

(** ** What reaches the TDX module *)

Definition rq_log (s : Req) : list TdCall := td_log (td (rq_outside s)).

(** The calls between two states satisfy [P]. *)
Definition calls (P : list TdCall → Prop) (s s' : Req) : Prop := ∃ new, rq_log s' = rq_log s ++ new ∧ P new.

#[local] Instance reads_preorder : PreOrder (calls no_writes).
Proof.
  split; [intros s; exists []; rewrite app_nil_r; split; [done|constructor]|]. intros a b c (n1 & E1 & N1) (n2 & E2 & N2).
  exists (n1 ++ n2). rewrite E2, E1, app_assoc. split; [done|by apply no_writes_app].
Qed.

Lemma same_log (s s' : Req) : td (rq_outside s') = td (rq_outside s) → calls no_writes s s'.
Proof. intros E. exists []. unfold rq_log. rewrite E, app_nil_r. split; [done|constructor]. Qed.

Lemma reads_library {A} (m : M (SpdmContext * L) (aerr SpdmStatus) A) : keeps (calls no_writes) (on_library m : QM A).
Proof. apply (keeps_zoom (λ _ _, True)); [|done]. intros s p _. by apply same_log. Qed.

Lemma reads_outer {A} (m : M (Outside TM) (aerr SpdmStatus) A) : keeps (λ o o', td o' = td o) m → keeps (calls no_writes) (rq_outer m : QM A).
Proof. apply keeps_zoom. intros s p Hp. by apply same_log. Qed.

Lemma reads_quoting {E A} f (m : M QuoteWorld E A) : keeps (calls no_writes) (rq_outer (on_quoting f m) : QM A).
Proof. apply reads_outer, (keeps_zoom (λ _ _, True)); [done|]. by intros s r s' _. Qed.

Lemma reads_new_key : keeps (calls no_writes) (rq_outer (new_key ecdsa_p384) : QM (EcdsaPk * bytes)).
Proof. apply reads_outer, new_key_td. Qed.

Lemma reads_authenticated {A} (m : M QuoteWorld PolicyError.t A) : keeps (calls no_writes) (rq_authenticated m : QM (option A)).
Proof. apply reads_outer, (keeps_zoom (λ _ _, True)); [done|]. by intros s r s' _. Qed.

Lemma reads_target {A} f (m : M (TdWorld TM) (aerr MigrationResult) A) : reads m → keeps (calls no_writes) (rq_on_target f m : QM A).
Proof.
  intros Hm s r s'. unfold rq_on_target, rq_outer, on_td, zoom, map_result.
  destruct (m (td (rq_outside s))) as [o w] eqn:E. intros [= _ <-]. by apply (Hm _ _ _ E).
Qed.

Lemma reads_modify (f : Req → Req) : (∀ s, td (rq_outside (f s)) = td (rq_outside s)) → keeps (calls no_writes) (modifyS f : QM unit).
Proof. intros Hf. apply keeps_modifyS. intros s. by apply same_log. Qed.

Lemma reads_store c : keeps (calls no_writes) (λ s : Req, let '(r, ctx) := store_app_context c (rq_common s) in (r, rq_set_common ctx s)).
Proof. intros s r s'. destruct (store_app_context c (rq_common s)). intros [= _ <-]. by apply same_log. Qed.

#[local] Hint Resolve reads_library reads_quoting reads_new_key reads_authenticated reads_store : migtd.

Lemma reads_get_session sid : keeps (calls no_writes) (rq_get_session sid : QM SpdmSession).
Proof. unfold rq_get_session. keeps_auto. Qed.

Lemma reads_set_session sid x : keeps (calls no_writes) (rq_set_session sid x : QM unit).
Proof. by apply reads_modify. Qed.

Lemma reads_reset : keeps (calls no_writes) (reset_buffer : QM unit).
Proof. by apply reads_modify. Qed.
#[local] Hint Resolve reads_get_session reads_set_session reads_reset : migtd.

Lemma reads_or_teardown {A} sid e (r : option A) : keeps (calls no_writes) (rq_or_teardown sid e r : QM A).
Proof. unfold rq_or_teardown. keeps_auto. Qed.

Lemma reads_verified r : keeps (calls no_writes) (rq_verified r : QM (option unit)).
Proof. unfold rq_verified. keeps_auto. Qed.

Lemma reads_send i b op n : keeps (calls no_writes) (send_and_receive i b op n : QM _).
Proof. unfold send_and_receive. keeps_auto. Qed.

Lemma reads_init_td_info i : keeps (calls no_writes) (my_init_td_info i : QM bytes).
Proof. unfold my_init_td_info. keeps_auto. Qed.

Lemma reads_ext i j : keeps (calls no_writes) (rq_on_target invalid_state (read_servtd_ext i j) : QM ServtdExt).
Proof. apply reads_target, reads_servtd_ext. Qed.
#[local] Hint Resolve reads_or_teardown reads_verified reads_send reads_init_td_info reads_ext : migtd.

Lemma reads_provisioned : keeps (calls no_writes) (check_provisioned : QM unit).
Proof. unfold check_provisioned. keeps_auto. Qed.

Lemma reads_transcript sid a b : keeps (calls no_writes) (rq_record_transcript sid a b : QM unit).
Proof. unfold rq_record_transcript. keeps_auto. Qed.
#[local] Hint Resolve reads_provisioned reads_transcript : migtd.

Lemma reads_pub_key : keeps (calls no_writes) (send_and_receive_pub_key ecdsa_p384 : QM unit).
Proof. unfold send_and_receive_pub_key. keeps_auto; by apply reads_modify. Qed.
#[local] Hint Resolve reads_pub_key : migtd.

Lemma reads_open : keeps (calls no_writes) (open_session ecdsa_p384 : QM Z).
Proof. unfold open_session. keeps_auto. Qed.

Lemma reads_verify_v2 q l h pd d sid : keeps (calls no_writes) (verify_peer_attestation_v2 VERIFIED_POLICY local_issuer_chain q l h pd d sid : QM unit).
Proof. unfold verify_peer_attestation_v2. keeps_auto. Qed.
#[local] Hint Resolve reads_open reads_verify_v2 : migtd.

Lemma reads_mig_attest i sid pd : keeps (calls no_writes)
  (send_and_receive_sdm_migration_attest_info VERIFIED_POLICY local_policy local_issuer_chain event_log_area i sid pd : QM unit).
Proof. unfold send_and_receive_sdm_migration_attest_info. keeps_auto. Qed.

Lemma reads_rebind_attest i sid pd : keeps (calls no_writes)
  (send_and_receive_sdm_rebind_attest_info VERIFIED_POLICY local_policy local_issuer_chain event_log_area i sid pd : QM unit).
Proof. unfold send_and_receive_sdm_rebind_attest_info. keeps_auto. Qed.

#[local] Hint Resolve reads_mig_attest reads_rebind_attest : migtd.

(** ** What a successful attestation shows *)

(** The destination showed a quote bound to a key exchange, and the new MigTD a TD
    report. *)
Definition quote_shown (pd : bytes) (d : SpdmDigest) : Prop := ∃ q elog w report w',
  authenticate_remote sha_option VERIFIED_POLICY local_issuer_chain true q pd elog w = (Ok report, w') ∧
  verify_report_data_binding report MIGTD_RSP d = Ok tt.

Definition report_shown (pd : bytes) (d : SpdmDigest) : Prop := ∃ rpt elog w report w',
  authenticate_rebinding_new sha_option VERIFIED_POLICY local_issuer_chain rpt elog pd w = (Ok report, w') ∧
  verify_tdreport_data_binding report MIGTD_RSP d = Ok tt.

Lemma rq_get_session_Ok sid (s : Req) x s' : rq_get_session sid s = (Ok x, s') → s' = s ∧ sessions (rq_common s) !! sid = Some x.
Proof. unfold rq_get_session. rewrite getS_bind. by intros [-> ->]%ok_or_Ok. Qed.

Lemma rq_authenticated_Ok {A} (m : M QuoteWorld PolicyError.t A) (s : Req) a s' :
  (rq_authenticated m : QM (option A)) s = (Ok (Some a), s') → ∃ w w', m w = (Ok a, w').
Proof.
  unfold rq_authenticated, rq_outer, zoom. destruct (m (quoting (rq_outside s))) as [[b|e|] w'] eqn:E; intros [= <- <-]. eauto.
Qed.

Lemma rq_or_teardown_Ok {A} sid e (r : option A) (s : Req) a s' : (rq_or_teardown sid e r : QM A) s = (Ok a, s') → r = Some a ∧ s' = s.
Proof.
  unfold rq_or_teardown. destruct r; [by intros [= -> ->]|]. by intros (? & ? & _ & (? & ? & _ & ?)%M_bind_Ok_inv)%M_bind_Ok_inv.
Qed.

Lemma rq_verified_Ok r (s : Req) u s' : (rq_verified r : QM (option unit)) s = (Ok (Some u), s') → r = Ok tt.
Proof. unfold rq_verified. destruct r as [[]| |]; by intros [= _ _]. Qed.

Lemma provisioned_Ok (s : Req) u s' : check_provisioned s = (Ok u, s') → s' = s.
Proof. unfold check_provisioned, err_if. rewrite getS_bind. destruct (_ || _); [done|]. by intros [= _ ->]. Qed.

(** Both attestations start with the session of the key exchange. *)
Lemma attest_session {A} (w : outcome (aerr SpdmStatus) bytes) sid (f : bytes → SpdmSession → QM A) (s : Req) a s' :
  (check_provisioned ≫= λ _, liftO w ≫= λ b, rq_get_session sid ≫= f b) s = (Ok a, s') →
  ∃ b x, sessions (rq_common s) !! sid = Some x ∧ f b x s = (Ok a, s').
Proof.
  intros (? & s1 & ->%provisioned_Ok & (b & s2 & E & (x & s3 & [-> Hx]%rq_get_session_Ok & Ef)%M_bind_Ok_inv)%M_bind_Ok_inv)%M_bind_Ok_inv.
  unfold liftO in E. injection E as _ ->. eauto.
Qed.

Lemma req_verify_v2_Ok q l h pd d sid (s : Req) u s' :
  verify_peer_attestation_v2 VERIFIED_POLICY local_issuer_chain q l h pd d sid s = (Ok u, s') → quote_shown pd d.
Proof.
  unfold verify_peer_attestation_v2. intros (? & s1 & _ & (? & s2 & _ & (res & s3 & Ea & E)%M_bind_Ok_inv)%M_bind_Ok_inv)%M_bind_Ok_inv.
  apply M_bind_Ok_inv in E as (rep & s4 & [-> ->]%rq_or_teardown_Ok & (b & s5 & Ev & [-> ->]%rq_or_teardown_Ok)%M_bind_Ok_inv).
  apply rq_authenticated_Ok in Ea as (w & w' & Ea). apply rq_verified_Ok in Ev. unfold quote_shown. eauto 10.
Qed.

Lemma req_mig_attest_Ok i sid pd (s : Req) u s' :
  send_and_receive_sdm_migration_attest_info VERIFIED_POLICY local_policy local_issuer_chain event_log_area i sid pd s = (Ok u, s') →
  ∃ x, sessions (rq_common s) !! sid = Some x ∧ quote_shown pd (th1 x).
Proof.
  unfold send_and_receive_sdm_migration_attest_info. intros (b & x & Hx & E)%attest_session. exists x. split; [done|].
  repeat (apply M_bind_Ok_inv in E; destruct E as (? & ? & ? & E)).
  repeat match goal with p : (_ * _)%type |- _ => destruct p end. repeat (apply M_bind_Ok_inv in E; destruct E as (? & ? & ? & E)).
  match goal with Hv : verify_peer_attestation_v2 _ _ _ _ _ _ _ _ _ = _ |- _ => by apply req_verify_v2_Ok in Hv end.
Qed.

Lemma req_rebind_attest_Ok i sid pd (s : Req) u s' :
  send_and_receive_sdm_rebind_attest_info VERIFIED_POLICY local_policy local_issuer_chain event_log_area i sid pd s = (Ok u, s') →
  ∃ x, sessions (rq_common s) !! sid = Some x ∧ report_shown pd (th1 x).
Proof.
  unfold send_and_receive_sdm_rebind_attest_info. intros (b & x & Hx & E)%attest_session. exists x. split; [done|].
  repeat (apply M_bind_Ok_inv in E; destruct E as (? & ? & ? & E)).
  repeat match goal with p : (_ * _)%type |- _ => destruct p end. repeat (apply M_bind_Ok_inv in E; destruct E as (? & ? & ? & E)).
  repeat match goal with Hv : rq_or_teardown _ _ _ _ = _ |- _ => apply rq_or_teardown_Ok in Hv as [-> ->] end.
  match goal with Ha : rq_authenticated _ _ = _ |- _ => apply rq_authenticated_Ok in Ha as (w0 & w' & Ha) end.
  match goal with Hb : rq_verified _ _ = _ |- _ => apply rq_verified_Ok in Hb end.
  unfold report_shown. eauto 10.
Qed.

(** ** Whole sessions *)

(** An opened session, an attestation in it, and anything after: either nothing was
    written or the peer was attested. *)
Lemma session_gate {A} (Q : SpdmDigest → Prop) (attest : Z → QM unit) (rest : Z → QM A) (s : Req) :
  (∀ sid, keeps (calls no_writes) (attest sid)) →
  (∀ sid s0 u s1, attest sid s0 = (Ok u, s1) → ∃ x, sessions (rq_common s0) !! sid = Some x ∧ Q (th1 x)) →
  let s' := (rq_zeroize_after (open_session ecdsa_p384 ≫= λ sid, attest sid ≫= λ _, rest sid) s).2 in
  calls no_writes s s' ∨
  ∃ sid s1 x, open_session ecdsa_p384 s = (Ok sid, s1) ∧ sessions (rq_common s1) !! sid = Some x ∧ Q (th1 x).
Proof.
  intros Hk Hq. cbv zeta. unfold rq_zeroize_after. rewrite M_bind_eq. destruct (open_session ecdsa_p384 s) as [r0 s1] eqn:E0.
  pose proof (reads_open s r0 s1 E0) as H01. destruct r0 as [sid|e|]; [|by left; destruct H01 as (n & ? & ?); exists n..].
  rewrite M_bind_eq. destruct (attest sid s1) as [r1 s2] eqn:E1. pose proof (Hk sid s1 r1 s2 E1) as H12.
  destruct r1 as [u|e|]; [|by left; destruct (transitivity H01 H12) as (n & ? & ?); exists n..].
  right. destruct (Hq sid s1 u s2 E1) as (x & Hx & Hd). eauto 10.
Qed.

(** The SPDM requester writes nothing through the TDX module for an unattested
    peer.  Whatever the library and the peer do, a migration source either makes no
    writing call, or has a session in which the destination showed a quote that the
    local policy accepts and that is bound to the key exchange of this session; an
    old MigTD that hands over its target likewise with the TD report of the new
    MigTD. *)
Theorem spdm_requester_attested token i pd (s : Req) :
  let migrated := (spdm_requester_transfer_msk VERIFIED_POLICY local_policy local_issuer_chain event_log_area ecdsa_p384 i pd s).2 in
  let rebound := (spdm_requester_rebind_old VERIFIED_POLICY local_policy local_issuer_chain event_log_area ecdsa_p384 token i pd s).2 in
  (calls no_writes s migrated ∨
   ∃ sid s1 x, open_session ecdsa_p384 s = (Ok sid, s1) ∧ sessions (rq_common s1) !! sid = Some x ∧ quote_shown pd (th1 x)) ∧
  (calls no_writes s rebound ∨
   ∃ sid s1 x, open_session ecdsa_p384 s = (Ok sid, s1) ∧ sessions (rq_common s1) !! sid = Some x ∧ report_shown pd (th1 x)).
Proof.
  split; apply session_gate.
  - intros sid. apply reads_mig_attest.
  - intros sid s0 u s1. apply req_mig_attest_Ok.
  - intros sid. apply reads_rebind_attest.
  - intros sid s0 u s1. apply req_rebind_attest_Ok.
Qed.

End requester.

(** ** Migration information *)

Section exchange.
Context `{SpdmLib}.

Lemma fixed_element_reads ty len rest : type_named ty → in_u 32 len →
  fixed_element ty len (VdmMessageElement_encode (mkElement ty len) ++ rest) = Ok rest.
Proof.
  intros Ht Hl. unfold fixed_element. rewrite (rd_takes _ _ _ _ _ (VdmMessageElement_reads (mkElement ty len) Ht Hl)). cbn.
  by rewrite bool_decide_true, Z.eqb_refl.
Qed.

Lemma spdm_put_Ok cap e bs w w' : spdm (put cap e bs w) = Ok w' → w' = w ++ bs.
Proof. unfold spdm, failing. destruct (put cap e bs w) as [w0| |] eqn:E; [|done..]. intros [= <-]. by apply put_Ok in E as [-> _]. Qed.

(** What one side appends is what the other side reads. *)
Lemma exchange_written version key_ty full i bs w w' rest :
  type_named version → type_named key_ty → exchange_ok i → bs = ints_bytes 8 (key i) →
  write_exchange version key_ty full (min_ver i) (max_ver i) bs w = Ok w' →
  read_exchange version key_ty (drop (length w) w' ++ rest) = Ok i.
Proof.
  intros Hv Hk [Hlen Hw Hmin Hmax Hz] -> E. unfold write_exchange in E.
  apply bind_Ok in E as (w1 & ->%spdm_put_Ok & (w2 & ->%spdm_put_Ok & (w3 & ->%spdm_put_Ok & E)%bind_Ok)%bind_Ok).
  apply bind_Ok in E as (w4 & ->%spdm_put_Ok & ->%spdm_put_Ok).
  rewrite <-!app_assoc, drop_app_length, <-!app_assoc. unfold read_exchange. rewrite fixed_element_reads by done. cbn [mbind outcome_bind].
  rewrite (rd_takes _ _ _ _ _ (takes_int 2 (min_ver i) Hmin)). cbn [mbind outcome_bind fst snd].
  rewrite (rd_takes _ _ _ _ _ (takes_int 2 (max_ver i) Hmax)). cbn [mbind outcome_bind fst snd].
  rewrite fixed_element_reads by done. cbn [mbind outcome_bind].
  pose proof (takes_ints 8 (key i) Hw) as Hkey. rewrite Hlen in Hkey.
  rewrite (rd_takes _ _ _ _ _ Hkey). cbn. rewrite <-Hz. by destruct i.
Qed.

(** C24 Over SPDM the two sides of a migration read each other's keys and versions.
    Where the codec of spdmlib is little endian, the information the source writes
    with the codec and the destination takes word by word, and the information the
    destination writes as it lies in memory and the source takes with the codec,
    arrive unchanged, and both then compute the same migration version. *)
Theorem spdm_exchange_agrees src dst wq wq' wr wr' rest :
  (∀ z, int_bytes 8 z = le_bytes 8 z) → exchange_ok src → exchange_ok dst →
  write_exchange MigrationExportVersion ForwardMigrationSessionKey SpdmCode.BUFFER_FULL
    (min_ver src) (max_ver src) (ints_bytes 8 (key src)) wq = Ok wq' →
  write_exchange MigrationImportVersion BackwardMigrationSessionKey SpdmCode.INVALID_MSG_SIZE
    (min_ver dst) (max_ver dst) (concat (map (le_bytes 8) (key dst))) wr = Ok wr' →
  ∃ src' dst',
    read_exchange MigrationExportVersion ForwardMigrationSessionKey (drop (length wq) wq' ++ rest) = Ok src' ∧
    read_exchange MigrationImportVersion BackwardMigrationSessionKey (drop (length wr) wr' ++ rest) = Ok dst' ∧
    key src' = key src ∧ key dst' = key dst ∧ cal_mig_version true src dst' = cal_mig_version false dst src'.
Proof.
  intros Hle Hs Hd Eq Er. exists src, dst.
  split_and!; [eapply exchange_written; eauto; by repeat split|eapply exchange_written; [..|exact Er]; eauto; [by repeat split..|]| | |]; try done.
  unfold ints_bytes. f_equal. apply map_ext. intros z. by rewrite Hle.
Qed.

End exchange.

(** ** A source and a destination that exchange their keys *)

Module Demo.
#[local] Existing Instance SpdmMsgSpec.Demo.lib.

Definition asked : bytes := Eval vm_compute in
  match write_exchange MigrationExportVersion ForwardMigrationSessionKey SpdmCode.BUFFER_FULL
    (min_ver demo_localA) (max_ver demo_localA) (ints_bytes 8 (key demo_localA)) [7] with Ok w => w | _ => [] end.
Definition answered : bytes := Eval vm_compute in
  match write_exchange MigrationImportVersion BackwardMigrationSessionKey SpdmCode.INVALID_MSG_SIZE
    (min_ver demo_localB) (max_ver demo_localB) (concat (map (le_bytes 8) (key demo_localB))) [8] with Ok w => w | _ => [] end.

Lemma spdm_exchange_agrees_witness : ∃ src' dst',
  read_exchange MigrationExportVersion ForwardMigrationSessionKey (drop 1 asked ++ [1]) = Ok src' ∧
  read_exchange MigrationImportVersion BackwardMigrationSessionKey (drop 1 answered ++ [1]) = Ok dst' ∧
  key src' = key demo_localA ∧ key dst' = key demo_localB ∧ cal_mig_version true demo_localA dst' = cal_mig_version false demo_localB src'.
Proof.
  apply (spdm_exchange_agrees demo_localA demo_localB [7] asked [8] answered [1]); [done|apply demo_local_ok|apply demo_local_ok|..];
    vm_compute; reflexivity.
Defined.

End Demo.
