(* ===== verification/SpdmService.v ===== *)
(** * SpdmService: migration and rebinding requests over SPDM

    With the feature [spdm_attestation]: [exchange_msk] of
    src/migtd/src/migration/session.rs and [start_rebinding] of rebinding.rs with the
    sessions of SpdmReq and SpdmRsp.  The contexts of spdmlib over a transport and
    the transport inside them are arguments. *)
From stdpp Require Import base tactics numbers list list_numbers option strings gmap.
From S2P Require Import Prelude MigData PreSession ServtdExt KeyExchange EventLog PolicyV2 Quote MigPolicy X509 RaTls SpdmMsg.
From S2P Require Import Rebinding SpdmRsp SpdmReq.
Local Open Scope Z_scope.

(** [with_timeout(..).await?.map_err(decode_spdm_session_err)?] *)
Definition session_result `{SpdmLib} {A} (r : outcome (aerr SpdmStatus) A) : outcome (aerr MigrationResult) A :=
  match r with
  | Err Pending => Err (Failed MigrationResult.NetworkError)
  | r => map_failed_by decode_spdm_session_err r
  end.

Section service.
Context `{SpdmLib} `{SpdmRuntime} `{Ring} `{PolicyJson} `{PolicyCrypto} `{Attestation} `{CcLog} `{Features}.
Context {T TM Lq Lr : Type} `{ByteStream T} `{TdxModule TM} `{RequesterLib Lq} {HP : Heap}.
Context (VERIFIED_POLICY : option VerifiedPolicy) (local_policy local_issuer_chain : option bytes) (event_log_area ecdsa_p384 : bytes).
Context (process_message : (option Z → bytes → Z → M (Responder TM Lr) (aerr SpdmStatus) Response) →
  M (Responder TM Lr) (aerr SpdmStatus) (option (outcome SpdmStatus unit))).

(** spdmlib's contexts: made over a transport, which they hold. *)
Context (requester_over : T → SpdmContext * Lq) (responder_over : T → SpdmContext * Lr).
Context (requester_device : Lq → T) (responder_device : Lr → T).
Context (shutdown_transport : T → outcome (aerr MigrationResult) unit).

Notation OM := (M (Outside TM) (aerr MigrationResult)).

(** A session of the requester, and [shutdown_transport] after its success. *)
Definition as_requester (session : M (Requester TM Lq) (aerr SpdmStatus) unit) (transport : T) : OM unit := λ o,
  let '(ctx, l) := requester_over transport in
  let '(r, s) := session (spdm_requester ctx o l) in
  (_ ← session_result r; shutdown_transport (requester_device (rq_library s)), rq_outside s).

Definition as_responder (session : M (Responder TM Lr) (aerr SpdmStatus) unit) (transport : T) : OM unit := λ o,
  let '(ctx, l) := responder_over transport in
  let '(r, s) := session (spdm_responder ctx o l) in
  (_ ← session_result r; shutdown_transport (responder_device (library s)), outside s).

(** ** Migration (session.rs) *)

Definition migration_src_exchange_msk (transport : T) (info : MigtdMigrationInformation) (peer_data : bytes) : OM unit :=
  as_requester (spdm_requester_transfer_msk VERIFIED_POLICY local_policy local_issuer_chain event_log_area ecdsa_p384 info peer_data) transport.

Definition migration_dst_exchange_msk (fuel : nat) (transport : T) (info : MigtdMigrationInformation) (peer_data : bytes) : OM unit :=
  as_responder (spdm_responder_transfer_msk VERIFIED_POLICY local_policy local_issuer_chain event_log_area ecdsa_p384 process_message fuel info peer_data) transport.

Section migration.
Context (setup_transport : MigData.MigrationInformation → outcome (aerr MigrationResult) T) (verify_init_migtd_data_policy_binding : bytes → bool).

(** The peer's data is there with [policy_v2]. *)
Definition exchange_msk_spdm (fuel : nat) (info : MigData.MigrationInformation) : OM unit :=
  _ ← liftO (check_binding verify_init_migtd_data_policy_binding info);
  tp ← liftO (connect_peer setup_transport local_policy local_issuer_chain info);
  let peer_data := default [] tp.2 in
  if is_src info then migration_src_exchange_msk tp.1 (mig_info info) peer_data
  else migration_dst_exchange_msk fuel tp.1 (mig_info info) peer_data.
End migration.

(** ** Rebinding (rebinding.rs) *)

Section rebinding.
Context (setup_transport : Z → outcome (aerr MigrationResult) T) (verify_init_migtd_data_policy_binding : bytes → bool).
Context (create_rebind_token : option bytes).

Definition rebinding_old_prepare_spdm (transport : T) (info : MigtdMigrationInformation) (peer_data : bytes) : OM unit :=
  as_requester (spdm_requester_rebind_old VERIFIED_POLICY local_policy local_issuer_chain event_log_area ecdsa_p384 create_rebind_token info peer_data) transport.

Definition rebinding_new_prepare_spdm (fuel : nat) (transport : T) (info : MigtdMigrationInformation) (peer_data : bytes) : OM unit :=
  as_responder (spdm_responder_rebind_new VERIFIED_POLICY local_policy local_issuer_chain event_log_area ecdsa_p384 process_message fuel info peer_data) transport.

Definition start_rebinding_spdm (fuel : nat) (info : MigtdMigrationInformation) : OM unit :=
  tp ← liftO (rebind_peer setup_transport local_policy local_issuer_chain verify_init_migtd_data_policy_binding info);
  if migration_source info =? 1 then rebinding_old_prepare_spdm tp.1 info tp.2
  else rebinding_new_prepare_spdm fuel tp.1 info tp.2.
End rebinding.
End service.
