(* ===== verification/SpdmServiceSpec.v ===== *)
(** * SpdmServiceSpec: a request over SPDM acts only for an attested peer

    The sessions of SpdmReqSpec and SpdmRspSpec inside whole requests (SpdmService). *)
From stdpp Require Import base tactics numbers list list_numbers option strings gmap.
From S2P Require Import Prelude MigData PreSession ServtdExt KeyExchange KeyExchangeSpec EventLog PolicyV2 Quote MigPolicy X509 RaTls.
From S2P Require Import Rebinding RebindingSpec SpdmMsg SpdmMsgSpec SpdmRsp SpdmRspSpec SpdmReq SpdmReqSpec SpdmService.
From S2P Require Import PreSessionSpec MigPolicySpec RaTlsSpec.
Local Open Scope Z_scope.

Section spec.
Context `{SpdmLib} `{SpdmRuntime} `{Ring} `{PolicyJson} `{PolicyCrypto} `{Attestation} `{CcLog} `{Features}.
Context {T TM Lq Lr : Type} `{ByteStream T} `{TdxModule TM} `{RequesterLib Lq} {HP : Heap}.
Context (VERIFIED_POLICY : option VerifiedPolicy) (local_policy local_issuer_chain : option bytes) (event_log_area ecdsa_p384 : bytes).
Context (pm : (option Z → bytes → Z → M (Responder TM Lr) (aerr SpdmStatus) Response) →
  M (Responder TM Lr) (aerr SpdmStatus) (option (outcome SpdmStatus unit))) (Hpm : processes pm).
Context (requester_over : T → SpdmContext * Lq) (responder_over : T → SpdmContext * Lr).
Context (requester_device : Lq → T) (responder_device : Lr → T) (shutdown_transport : T → outcome (aerr MigrationResult) unit).

(** The library starts a responder without transcripts. *)
Context (Hfresh : ∀ t sid x, sessions (responder_over t).1 !! sid = Some x → transcript_before_finish x = None).

(** Every call to the TDX module between the two states reads. *)
Definition only_reads (o o' : Outside TM) : Prop := ∃ new, td_log (td o') = td_log (td o) ++ new ∧ no_writes new.

Lemma only_reads_td o o' : td o' = td o → only_reads o o'.
Proof. intros E. exists []. rewrite E, app_nil_r. split; [done|constructor]. Qed.

(** A session the requester opened over the transport. *)
Definition opened (t : T) (o : Outside TM) (x : SpdmSession) : Prop :=
  ∃ sid s, open_session ecdsa_p384 (spdm_requester (requester_over t).1 o (requester_over t).2) = (Ok sid, s) ∧
    sessions (rq_common s) !! sid = Some x.

Notation source := (migration_src_exchange_msk VERIFIED_POLICY local_policy local_issuer_chain event_log_area ecdsa_p384 requester_over requester_device shutdown_transport).
Notation destination := (migration_dst_exchange_msk VERIFIED_POLICY local_policy local_issuer_chain event_log_area ecdsa_p384 pm responder_over responder_device shutdown_transport).
Notation old_td := (rebinding_old_prepare_spdm VERIFIED_POLICY local_policy local_issuer_chain event_log_area ecdsa_p384 requester_over requester_device shutdown_transport).
Notation new_td := (rebinding_new_prepare_spdm VERIFIED_POLICY local_policy local_issuer_chain event_log_area ecdsa_p384 pm responder_over responder_device shutdown_transport).

Lemma as_requester_outside session t (o : Outside TM) : (as_requester requester_over requester_device shutdown_transport session t o).2 =
  rq_outside (session (spdm_requester (requester_over t).1 o (requester_over t).2)).2.
Proof. unfold as_requester. destruct (requester_over t) as [ctx l]. cbn [fst snd]. by destruct (session _). Qed.

Lemma as_responder_outside session t (o : Outside TM) : (as_responder responder_over responder_device shutdown_transport session t o).2 =
  outside (session (spdm_responder (responder_over t).1 o (responder_over t).2)).2.
Proof. unfold as_responder. destruct (responder_over t) as [ctx l]. cbn [fst snd]. by destruct (session _). Qed.

Lemma source_attested t i pd o : only_reads o (source t i pd o).2 ∨
  ∃ x, opened t o x ∧ quote_shown VERIFIED_POLICY local_issuer_chain pd (th1 x).
Proof.
  unfold migration_src_exchange_msk. rewrite as_requester_outside.
  destruct (proj1 (spdm_requester_attested VERIFIED_POLICY local_policy local_issuer_chain event_log_area ecdsa_p384 None i pd
    (spdm_requester (requester_over t).1 o (requester_over t).2))) as [Hr|(sid & s1 & x & Ho & Hx & Hq)]; [by left|].
  right. exists x. split; [by exists sid, s1|done].
Qed.

Lemma old_attested token t i pd o : only_reads o (old_td token t i pd o).2 ∨
  ∃ x, opened t o x ∧ report_shown VERIFIED_POLICY local_issuer_chain pd (th1 x).
Proof.
  unfold rebinding_old_prepare_spdm. rewrite as_requester_outside.
  destruct (proj2 (spdm_requester_attested VERIFIED_POLICY local_policy local_issuer_chain event_log_area ecdsa_p384 token i pd
    (spdm_requester (requester_over t).1 o (requester_over t).2))) as [Hr|(sid & s1 & x & Ho & Hx & Hq)]; [by left|].
  right. exists x. split; [by exists sid, s1|done].
Qed.

Lemma destination_idle fuel t i pd o : td (destination fuel t i pd o).2 = td o.
Proof.
  unfold migration_dst_exchange_msk. rewrite as_responder_outside.
  destruct (spdm_responder_transfer_msk _ _ _ _ _ pm fuel i pd _) as [r s] eqn:E.
  by apply (spdm_runs_attested _ _ _ _ _ pm Hpm fuel i pd _ _ _ (Hfresh t)) in E.
Qed.

(** The responder of the new side of a rebinding, before its first message. *)
Definition responder_of (t : T) (i : MigtdMigrationInformation) (pd : bytes) (o : Outside TM) : Responder TM Lr :=
  mkResponder (responder_over t).1 pd (RebindInformation i) false None o (responder_over t).2.

Notation served_attested := (serves_attested VERIFIED_POLICY local_policy local_issuer_chain event_log_area ecdsa_p384).

Lemma new_attested fuel t i pd o : td (new_td fuel t i pd o).2 = td o ∨ served_attested (responder_of t i pd o).
Proof.
  unfold rebinding_new_prepare_spdm. rewrite as_responder_outside.
  destruct (spdm_responder_rebind_new _ _ _ _ _ pm fuel i pd _) as [r s] eqn:E.
  by apply (spdm_runs_attested _ _ _ _ _ pm Hpm fuel i pd _ _ _ (Hfresh t)) in E.
Qed.

Lemma connect_peer_data (setup : MigData.MigrationInformation → outcome (aerr MigrationResult) T) i t pd : policy_v2 = true →
  connect_peer setup local_policy local_issuer_chain i = Ok (t, pd) → is_Some pd.
Proof.
  intros Hv. unfold connect_peer. rewrite Hv. intros (t0 & _ & E)%bind_Ok.
  destruct (with_timeout _ t0) as [[bs| |] t1]; [|done..]. injection E as _ <-. done.
Qed.

(** C4 Over SPDM a request acts on the TDX module only for an attested peer.
    Whatever the library, the transport and the peer do, a migration only reads from
    the module unless this side is the source, its binding check passed, the
    exchange before the session delivered the peer's policy, and the peer showed, in a
    session opened over that transport, a quote which that policy's check accepts and
    which is bound to the key exchange of that session (the destination writes nothing
    at all: its information is never set); a rebinding only reads unless the same checks
    passed and the other migration TD showed a report that is accepted and bound to the
    key exchange of the session: for the old side the session it opened, for the new
    side an established session in which it served a message on the way. *)
Theorem spdm_requests_attested fuel (Hv2 : policy_v2 = true)
  (setup : MigData.MigrationInformation → outcome (aerr MigrationResult) T) (setup' : Z → outcome (aerr MigrationResult) T)
  (binding_ok : bytes → bool) token info info' (o : Outside TM) :
  let migrated := (exchange_msk_spdm VERIFIED_POLICY local_policy local_issuer_chain event_log_area ecdsa_p384 pm requester_over responder_over
    requester_device responder_device shutdown_transport setup binding_ok fuel info o).2 in
  let rebound := (start_rebinding_spdm VERIFIED_POLICY local_policy local_issuer_chain event_log_area ecdsa_p384 pm requester_over responder_over
    requester_device responder_device shutdown_transport setup' binding_ok token fuel info' o).2 in
  (only_reads o migrated ∨
   ∃ t pd x, is_src info = true ∧ check_binding binding_ok info = Ok tt ∧ connect_peer setup local_policy local_issuer_chain info = Ok (t, Some pd) ∧
     opened t o x ∧ quote_shown VERIFIED_POLICY local_issuer_chain pd (th1 x)) ∧
  (only_reads o rebound ∨
   ∃ t pd, admitted setup' local_policy local_issuer_chain binding_ok info' t pd ∧
     if migration_source info' =? 1 then ∃ x, opened t o x ∧ report_shown VERIFIED_POLICY local_issuer_chain pd (th1 x)
     else served_attested (responder_of t info' pd o)).
Proof.
  cbv zeta. split.
  - destruct (exchange_msk_spdm _ _ _ _ _ _ _ _ _ _ _ _ _ _ _ o) as [r o'] eqn:E. cbn [snd]. unfold exchange_msk_spdm in E.
    apply liftO_inv in E as [([] & Hb & E)|[-> _]]; [|by left; apply only_reads_td].
    apply liftO_inv in E as [([t pd] & Hc & E)|[-> _]]; [|by left; apply only_reads_td]. cbn [fst snd] in E.
    destruct (connect_peer_data _ _ _ _ Hv2 Hc) as [pd' ->]. destruct (is_src info) eqn:Es; apply (f_equal snd) in E; cbn [snd default] in E; subst o'.
    + destruct (source_attested t (mig_info info) pd' o) as [Hr|(x & Ho & Hq)]; [by left|right]. by exists t, pd', x.
    + left. apply only_reads_td, destination_idle.
  - destruct (start_rebinding_spdm _ _ _ _ _ _ _ _ _ _ _ _ _ _ _ _ o) as [r o'] eqn:E. cbn [snd]. unfold start_rebinding_spdm in E.
    apply liftO_inv in E as [([t pd] & Hp%rebind_peer_Ok & E)|[-> _]]; [|by left; apply only_reads_td]. cbn [fst snd] in E.
    destruct (migration_source info' =? 1); apply (f_equal snd) in E; cbn [snd] in E; subst o'.
    + destruct (old_attested token t info' pd o) as [Hr|Hx]; [by left|right]. by exists t, pd.
    + destruct (new_attested fuel t info' pd o) as [Hr|Hd]; [left; by apply only_reads_td|right]. by exists t, pd.
Qed.
End spec.

(** ** A rebinding over SPDM, as the new migration TD *)

Module ServiceSample.
Import MigPolicySpec.Demo SpdmMsgSpec.Demo SpdmRspSpec.Demo.

#[local] Existing Instances MigPolicySpec.Demo.json MigPolicySpec.Demo.crypto MigPolicySpec.Demo.attestation EventLog.Sample.log RaTlsSpec.Demo.ring.
#[local] Existing Instances SpdmMsgSpec.Demo.lib demo_module demo_heap SpdmRspSpec.Demo.features SpdmRspSpec.Demo.runtime.

(** No requester takes part. *)
#[local] Instance silent : RequesterLib unit := {|
  send_receive_spdm_version := failM Pending; send_receive_spdm_capability := failM Pending; send_receive_spdm_algorithm := failM Pending;
  send_receive_spdm_key_exchange := failM Pending; send_receive_spdm_finish := λ _, failM Pending; send_receive_spdm_end_session := λ _, failM Pending;
  send_receive_spdm_vendor_defined_request_ex := λ _ _, failM Pending; reset_buffer_via_request_code := id |}.

(** What the old migration TD sends before the session. *)
Definition input : bytes := Eval vm_compute in ch_out (pre_session_data_exchange (Some policy) (Some chain) (mkChan demo_in [] [] [])).2.

(** The context and the messages of the responder's demonstration. *)
Notation served := (start_rebinding_spdm (T := Chan) (Some lp) (Some policy) (Some chain) log [] deliver_next (λ _, (ctx, tt)) (λ _, (ctx, script))
  (λ _, mkChan [] [] [] []) (λ _, mkChan [] [] [] []) (λ _, Ok tt) (λ _, Ok (mkChan input [] [] [])) (λ _, true) None 5 demo_new_info outer).

(** The token is written; then the script ends, and with it the connection. *)
Lemma serves : existsb is_write (td_log (td served.2)) = true.
Proof. vm_compute. reflexivity. Qed.

Lemma fresh_contexts (t : Chan) sid x : sessions ctx !! sid = Some x → transcript_before_finish x = None.
Proof. cbn. rewrite lookup_singleton_Some. by intros [_ <-]. Qed.

Lemma spdm_requests_attested_witness : ∃ t pd,
  admitted (λ _, Ok (mkChan input [] [] [])) (Some policy) (Some chain) (λ _, true) demo_new_info t pd ∧
  serves_attested (Some lp) (Some policy) (Some chain) log [] (responder_of (T := Chan) (λ _, (ctx, script)) t demo_new_info pd outer).
Proof.
  destruct (proj2 (spdm_requests_attested (T := Chan) (Some lp) (Some policy) (Some chain) log [] deliver_next deliver_processes
    (λ _, (ctx, tt)) (λ _, (ctx, script)) (λ _, mkChan [] [] [] []) (λ _, mkChan [] [] [] []) (λ _, Ok tt) fresh_contexts 5 (eq_refl : @policy_v2 SpdmRspSpec.Demo.features = true)
    (λ _, Err Pending) (λ _, Ok (mkChan input [] [] [])) (λ _, true) None demo_infoA demo_new_info outer)) as [(new & L & N)|(t & pd & Ha & Hd)].
  - exfalso. pose proof serves as Hw. change (td_log (td outer)) with ([] : list TdCall) in L. cbn [app] in L. rewrite L in Hw.
    apply existsb_exists in Hw as (c & Hc%list_elem_of_In & Hw). unfold no_writes in N. rewrite Forall_forall in N. by rewrite (N c Hc) in Hw.
  - exists t, pd. exact (conj Ha Hd).
Defined.

End ServiceSample.
