(* ===== verification/Transport.v ===== *)
(** * Transport: the data channel of a migration

    src/migtd/src/migration/transport.rs: setting up and shutting down the channel to
    the peer over raw VMCALLs, a virtio serial port or a vsock stream, as the features
    choose.  Waiting for the timer between two attempts is an argument. *)
From stdpp Require Import base tactics numbers option gmap list list_numbers.
From S2P Require Import Prelude MigData VirtQueue VirtioPci Vsock VsockStream VsockVirtio VmcallRaw Serial.
Local Open Scope Z_scope.

(** [map_err(f)] where waiting stays what it is. *)
Definition with_error {S E E' A} (f : E → E') (m : M S (aerr E) A) : M S (aerr E') A := λ s,
  match m s with
  | (Ok a, s') => (Ok a, s')
  | (Err (Failed e), s') => (Err (Failed (f e)), s')
  | (Err Pending, s') => (Err Pending, s')
  | (Err OutOfFuel, s') => (Err OutOfFuel, s')
  | (Panic, s') => (Panic, s')
  end.

(** [From<VsockError>] and [From<VirtioSerialError> for MigrationResult] (mod.rs). *)
Definition mig_result_from_vsock (_ : VsockError.t) : MigrationResult.t := MigrationResult.NetworkError.
Definition mig_result_from_serial (_ : VirtioSerialError.t) : MigrationResult.t := MigrationResult.NetworkError.

(** ** [vmcall-raw] *)

Definition raw_setup_transport (registered : bool) (mig_request_id : Z) : M RawVmm (aerr MigrationResult.t) VmcallRaw :=
  let vmcall_raw_instance := new_with_mid mig_request_id in
  _ ← with_error (λ _, MigrationResult.InvalidParameter) (raw_connect registered vmcall_raw_instance);
  mret vmcall_raw_instance.

Definition raw_shutdown_transport (transport : VmcallRaw) : M RawVmm (aerr MigrationResult.t) unit :=
  with_error (λ _, MigrationResult.InvalidParameter) (raw_shutdown transport).

(** ** [virtio-serial] *)

Definition VIRTIO_SERIAL_PORT_ID : Z := 1.
Definition VIRTIO_SERIAL_OPEN_RETRY_TIMES : nat := 100.
Definition VIRTIO_SERIAL_OPEN_RETRY_DELAY : Z := 10.

Section serial.
Context {T A Tm : Type} `{VirtioTransport T} `{DmaPageAllocator A} `{InterruptTable} `{Serial.Timer Tm}.
Context (timer_after : Z → M (SerialSt T A Tm) (aerr VirtioSerialError.t) unit).

Notation SM := (M (SerialSt T A Tm) (aerr VirtioSerialError.t)).

(** [for _ in 0..VIRTIO_SERIAL_OPEN_RETRY_TIMES]; whether the port was opened. *)
Fixpoint serial_open_loop (times : nat) (port : VirtioSerialPort) : SM bool :=
  match times with
  | O => mret false
  | S times =>
      r ← attempt (port_open port);
      match r with
      | Ok _ => mret true
      | Err (Failed (VirtioSerialError.PortNotAvailable _)) =>
          _ ← timer_after VIRTIO_SERIAL_OPEN_RETRY_DELAY;
          _ ← recv_control_nonblock;
          serial_open_loop times port
      | Err e => failM e
      | Panic => panicM
      end
  end.

(** [Drop for VirtioSerialPort]: the port is closed, whatever that returns. *)
Definition port_drop (port : VirtioSerialPort) : SM unit := λ s,
  match port_close port s with (Panic, s') => (Panic, s') | (_, s') => (Ok tt, s') end.

(** The port is dropped when the set-up returns an error. *)
Definition or_drop {X} (port : VirtioSerialPort) (m : SM X) : SM X := λ s,
  match m s with
  | (Err (Failed e), s1) => (_ ← port_drop port; failM (Failed e)) s1
  | r => r
  end.

Definition serial_setup_transport : M (SerialSt T A Tm) (aerr MigrationResult.t) VirtioSerialPort :=
  with_error mig_result_from_serial (
    let port := mkPort VIRTIO_SERIAL_PORT_ID [] in
    or_drop port (
      opened ← serial_open_loop VIRTIO_SERIAL_OPEN_RETRY_TIMES port;
      if opened : bool then mret port else failM (Failed (VirtioSerialError.PortNotAvailable VIRTIO_SERIAL_PORT_ID)))).

Definition serial_shutdown_transport (transport : VirtioSerialPort) : M (SerialSt T A Tm) (aerr MigrationResult.t) unit :=
  with_error (λ _, MigrationResult.InvalidParameter) (port_close transport).
End serial.

(** ** [virtio-vsock] and [vmcall-vsock] *)

Section vsock.
Context {D : Type} `{VsockTransport D}.

(** The new stream beside the globals. *)
Definition vsock_connected (m : M (World D) (aerr VsockError.t) VsockStream) (a : VsockAddr) : M (World D) (aerr VsockError.t) VsockStream := λ w,
  match m w with
  | (Ok stream, w1) =>
      let '(r, s) := VsockStream.connect a (mkSt w1 stream) in
      (match r with Ok _ => Ok (self s) | Err e => Err e | Panic => Panic end, world s)
  | (Err e, w1) => (Err e, w1)
  | (Panic, w1) => (Panic, w1)
  end.

Definition vsock_setup_transport (vmcall_vsock : bool) (mig_request_id migtd_cid mig_channel_port : Z) : M (World D) (aerr MigrationResult.t) VsockStream :=
  with_error mig_result_from_vsock (
    vsock_connected (if vmcall_vsock then VsockStream.new_with_cid migtd_cid mig_request_id else VsockStream.new)
      (VsockAddr_new (as_u 32 migtd_cid) mig_channel_port)).

Definition vsock_shutdown_transport : M (St D) (aerr MigrationResult.t) unit :=
  with_error (λ _, MigrationResult.InvalidParameter) VsockStream.shutdown.
End vsock.
