(* ===== verification/TransportSpec.v ===== *)
(** * TransportSpec: a channel that is set up is fresh and connected

    For each of the three kinds of channel (Transport), and the shutdown undoes the
    set-up of the raw and serial ones. *)
From stdpp Require Import base tactics numbers option gmap list list_numbers.
From S2P Require Import Prelude MigData VirtQueue VirtioPci Vsock VsockStream VsockStreamSpec VsockVirtio VmcallRaw Serial Transport.
Local Open Scope Z_scope.

Lemma with_error_Ok {S E E' A} (f : E → E') (m : M S (aerr E) A) s a s' : with_error f m s = (Ok a, s') ↔ m s = (Ok a, s').
Proof. unfold with_error. destruct (m s) as [[a'|[e| |]|] s1]; split; intros E0; congruence. Qed.

Lemma with_error_Failed {S E E' A} (f : E → E') (m : M S (aerr E) A) s e' s' : with_error f m s = (Err (Failed e'), s') →
  ∃ e, m s = (Err (Failed e), s') ∧ e' = f e.
Proof. unfold with_error. destruct (m s) as [[a'|[e| |]|] s1]; intros [= <- <-]. eauto. Qed.

(** ** Serial ports *)

Section serial.
Context {T A Tm : Type} `{VirtioTransport T} `{DmaPageAllocator A} `{InterruptTable} `{Serial.Timer Tm}.
Context (timer_after : Z → M (SerialSt T A Tm) (aerr VirtioSerialError.t) unit).

Notation St := (SerialSt T A Tm).

(** The port is the caller's alone, with nothing received. *)
Definition port_fresh (id : Z) (s : St) : Prop :=
  id ∈ connected_ports (serial s) ∧ id ∈ allocated_ports (serial s) ∧ RECEIVE_QUEUES s !! id = Some [].

Lemma port_open_Ok p (s s' : St) : port_open p s = (Ok tt, s') →
  port_fresh (port_id p) s' ∧ port_id p ∉ allocated_ports (serial s).
Proof.
  unfold port_open, allocate_port, port_queue_create. rewrite M_bind_eq, err_if_bind. destruct (_ <? _); [done|].
  cbn [modifyS]. rewrite getS_bind, err_if_bind. case_bool_decide as Hc; [|done]. cbn [negb]. rewrite err_if_bind. case_bool_decide as Ha; [done|].
  intros [= <-]. cbn in *. split; [|done]. split_and!; [done|set_solver|]. unfold port_fresh. cbn. by rewrite lookup_insert_eq.
Qed.

Lemma open_loop_Ok times p (s s' : St) : serial_open_loop timer_after times p s = (Ok true, s') → port_fresh (port_id p) s'.
Proof.
  revert s. induction times as [|times IH]; intros s; [done|]. cbn [serial_open_loop]. rewrite M_bind_eq. unfold attempt.
  destruct (port_open p s) as [[[]|e|] s1] eqn:E.
  - intros [= <-]. by apply (port_open_Ok p s).
  - destruct e as [e| |]; [|done|done]. destruct e; try done. intros ([] & s2 & _ & Hk)%M_bind_Ok_inv.
    apply M_bind_Ok_inv in Hk as ([] & s3 & _ & Hk). by apply IH in Hk.
  - done.
Qed.

Lemma serial_setup_Ok (s s' : St) p : serial_setup_transport timer_after s = (Ok p, s') → p = mkPort 1 [] ∧ port_fresh 1 s'.
Proof.
  unfold serial_setup_transport. rewrite with_error_Ok. unfold or_drop. rewrite M_bind_eq.
  destruct (serial_open_loop timer_after _ _ s) as [[[]|e|] s1] eqn:E.
  - intros [= <- <-]. split; [done|]. exact (open_loop_Ok _ (mkPort 1 []) _ _ E).
  - cbn. rewrite M_bind_eq. by destruct (port_drop _ s1) as [[]].
  - cbn. destruct e; [|done|done]. rewrite M_bind_eq. by destruct (port_drop _ s1) as [[]].
  - done.
Qed.

(** A port that is in use, opened again. *)
Lemma port_open_busy id (s : St) : id <= MAX_PORT_SUPPORTED → id ∈ connected_ports (serial s) → id ∈ allocated_ports (serial s) →
  port_open (mkPort id []) s = (Err (Failed (VirtioSerialError.PortAlreadyUsed id)), set_receive_queues (<[id := []]> (RECEIVE_QUEUES s)) s).
Proof.
  intros Hid Hc Ha. unfold port_open, allocate_port, port_queue_create. cbn [port_id]. rewrite M_bind_eq, err_if_bind.
  replace (MAX_PORT_SUPPORTED <? id) with false by (symmetry; apply Z.ltb_ge; lia). cbn [modifyS]. rewrite getS_bind, err_if_bind.
  cbn [set_receive_queues serial]. rewrite bool_decide_true by done. cbn [negb]. by rewrite err_if_bind, bool_decide_true.
Qed.

Lemma port_drop_frees id (s : St) : id <= MAX_PORT_SUPPORTED → id ∈ connected_ports (serial s) →
  ∃ s', port_drop (mkPort id []) s = (Ok tt, s') ∧ id ∉ allocated_ports (serial s') ∧ RECEIVE_QUEUES s' !! id = None.
Proof.
  intros Hid Hc. unfold port_drop, port_close, free_port, port_queue_delete. cbn [port_id]. rewrite M_bind_eq, err_if_bind.
  replace (MAX_PORT_SUPPORTED <? id) with false by (symmetry; apply Z.ltb_ge; lia). cbn [modifyS]. rewrite getS_bind, err_if_bind.
  cbn [set_receive_queues serial]. rewrite bool_decide_true by done. cbn [negb upd modifyS]. eexists. split; [done|]. cbn. split; [set_solver|].
  apply lookup_delete_eq.
Qed.

(** Setting up over a port in use takes it away from its owner. *)
Lemma serial_setup_busy (s : St) : 1 ∈ connected_ports (serial s) → 1 ∈ allocated_ports (serial s) →
  ∃ s', serial_setup_transport timer_after s = (Err (Failed MigrationResult.NetworkError), s') ∧
    1 ∉ allocated_ports (serial s') ∧ RECEIVE_QUEUES s' !! 1 = None.
Proof.
  intros Hc Ha. unfold serial_setup_transport, with_error, or_drop. rewrite M_bind_eq.
  unfold VIRTIO_SERIAL_OPEN_RETRY_TIMES. change 100%nat with (S 99). cbn [serial_open_loop]. rewrite M_bind_eq. unfold attempt.
  rewrite port_open_busy by done. cbn [failM]. set (s1 := set_receive_queues _ s).
  destruct (port_drop_frees 1 s1) as (s2 & E2 & Hf & Hq); [done|done|]. rewrite M_bind_eq.
  change (mkPort VIRTIO_SERIAL_PORT_ID []) with (mkPort 1 []). rewrite E2. by exists s2.
Qed.
End serial.

(** ** Vsock *)

Section vsock.
Context {D : Type} `{VsockTransport D}.

(** Sending and receiving a packet leave the stream itself alone, the credit apart. *)
Definition same_address (s s' : VsockStream.St D) : Prop :=
  addr (self s') = addr (self s) ∧ VsockStream.data_queue (self s') = VsockStream.data_queue (self s) ∧
  VsockStream.transport_context (self s') = VsockStream.transport_context (self s).

#[local] Instance same_address_preorder : PreOrder same_address.
Proof. split; [done|]. intros a b c (A1 & A2 & A3) (B1 & B2 & B3). split_and!; congruence. Qed.

Lemma address_world {X} (m : M (World D) (aerr VsockTransportError.t) X) : keeps same_address (on_world m : M (VsockStream.St D) (aerr VsockError.t) X).
Proof. intros s r s'. unfold on_world. destruct (m (world s)). by intros [= _ <-]. Qed.

Lemma address_self f : (∀ st, addr (f st) = addr st ∧ VsockStream.data_queue (f st) = VsockStream.data_queue st ∧
    VsockStream.transport_context (f st) = VsockStream.transport_context st) →
  keeps same_address (modify_self f : M (VsockStream.St D) (aerr VsockError.t) unit).
Proof. intros Hf s r s' [= _ <-]. apply Hf. Qed.

#[local] Hint Resolve address_world : migtd.

Lemma address_send hdr data : keeps same_address (send_vsock_pkt (D := D) hdr data).
Proof. unfold send_vsock_pkt. eapply keeps_bind; [typeclasses eauto|by apply address_self|]. intros _. keeps_auto. Qed.

Lemma address_dequeue : keeps same_address (VsockStream.dequeue (D := D)).
Proof. unfold VsockStream.dequeue. keeps_auto. Qed.

Lemma address_checked buf : keeps same_address (checked buf : M (VsockStream.St D) (aerr VsockError.t) bytes).
Proof. intros s r s' [= _ <-]. done. Qed.
#[local] Hint Resolve address_send address_dequeue address_checked : migtd.

(** A connected stream goes where it was told, with nothing received. *)
Lemma connect_Ok a (s s' : VsockStream.St D) u : state (self s) = State.Closed → VsockStream.connect a s = (Ok u, s') →
  state (self s') = State.Established ∧ addr (self s') = mkPair (local (addr (self s))) a ∧
  VsockStream.data_queue (self s') = VsockStream.data_queue (self s) ∧ VsockStream.transport_context (self s') = VsockStream.transport_context (self s).
Proof.
  intros Hc E. split; [by destruct (connect_state a s _ s' Hc E) as [[? _]|[_ ?]]|].
  unfold VsockStream.connect in E. rewrite getS_bind, decide_True in E by done. rewrite modify_self_bind, getS_bind in E. cbn [self] in E.
  set (s0 := mkSt (world s) _) in E. change (same_address s0 s'). revert E.
  match goal with |- ?m s0 = _ → _ => assert (keeps same_address m) as Hk end; [|intros E; exact (Hk _ _ _ E)].
  eapply keeps_bind; [typeclasses eauto|by intros ? ? ? [= _ <-]|]. intros _. keeps_auto; by apply address_self.
Qed.

(** A new stream is closed, empty, and carries its context. *)
Lemma new_with_cid_Ok cid0 ctx (w w' : World D) st : new_with_cid cid0 ctx w = (Ok st, w') →
  state st = State.Closed ∧ VsockStream.data_queue st = [] ∧ VsockStream.transport_context st = ctx.
Proof.
  unfold new_with_cid. intros (p & w1 & _ & E)%M_bind_Ok_inv. apply M_bind_Ok_inv in E as (q & w2 & _ & E). by injection E as <- _.
Qed.

Lemma new_Ok (w w' : World D) st : new w = (Ok st, w') → state st = State.Closed ∧ VsockStream.data_queue st = [] ∧ VsockStream.transport_context st = 0.
Proof.
  unfold new. destruct (vsock_transport_get_cid w) as [r w1]. destruct (map_transport r) as [c| |]; [|done|done]. apply new_with_cid_Ok.
Qed.

(** A vsock channel is an established stream to the given address. *)
Lemma vsock_setup_Ok vmcall_vsock mid cid0 port0 (w w' : World D) st : vsock_setup_transport vmcall_vsock mid cid0 port0 w = (Ok st, w') →
  state st = State.Established ∧ remote (addr st) = VsockAddr_new (as_u 32 cid0) port0 ∧ VsockStream.data_queue st = [] ∧
  VsockStream.transport_context st = (if vmcall_vsock then mid else 0).
Proof.
  unfold vsock_setup_transport. rewrite with_error_Ok. unfold vsock_connected.
  destruct ((if vmcall_vsock then new_with_cid cid0 mid else new) w) as [[st0|e|] w1] eqn:En; [|done|done].
  assert (state st0 = State.Closed ∧ VsockStream.data_queue st0 = [] ∧ VsockStream.transport_context st0 = (if vmcall_vsock then mid else 0)) as (Hc & Hd & Ht).
  { destruct vmcall_vsock; [by eapply new_with_cid_Ok|by eapply new_Ok]. }
  destruct (VsockStream.connect _ (mkSt w1 st0)) as [[u|e|] s] eqn:Ec; [|done|done]. intros [= <- _].
  destruct (connect_Ok _ (mkSt w1 st0) _ _ Hc Ec) as (Hst & Ha & Hq & Hx). cbn [self] in *. rewrite Ha, Hq, Hx. done.
Qed.
End vsock.

(** ** Raw VMCALLs *)

(** The request gets a flag of its own, which the shutdown removes. *)
Lemma raw_setup_shutdown registered mid v st v' : raw_setup_transport registered mid v = (Ok st, v') →
  st = mkRaw mid [] ∧ VMCALL_MIG_CONTEXT_FLAGS v' = <[mid := false]> (VMCALL_MIG_CONTEXT_FLAGS v) ∧
  ∃ v'', raw_shutdown_transport st v' = (Ok tt, v'') ∧ VMCALL_MIG_CONTEXT_FLAGS v'' = delete mid (VMCALL_MIG_CONTEXT_FLAGS v).
Proof.
  unfold raw_setup_transport. intros ([] & v1 & E & Er)%M_bind_Ok_inv. injection Er as <- <-. rewrite with_error_Ok in E.
  unfold raw_connect in E. rewrite err_if_bind in E. destruct (negb registered); [done|]. injection E as <-. split; [done|]. split; [done|].
  eexists. split; [done|]. cbn. by rewrite delete_insert_eq.
Qed.
