(* ===== verification/Clock.v ===== *)
(** * Clock: ticks, timers and the real-time clock

    src/migtd/src/driver/timer.rs and ticks.rs (without the feature [oneshot-apic]),
    the timer that driver/serial.rs gives the serial driver, and src/std-support/
    sys_time.  The APIC of td-payload is the class [Apic]; CPUID and the interrupt
    table are arguments; the host answers every read of the CMOS ports as it likes. *)
From stdpp Require Import base tactics numbers option list.
From S2P Require Import Prelude MigData.
Local Open Scope Z_scope.

(** ** The APIC timer (timer.rs) *)

(** The one-shot deadline timer of the APIC: what is armed, and what is left when it
    has fired. *)
Class Apic (A : Type) := {
  one_shot_tsc_deadline_mode : Z → A → option Z * A;
  one_shot_tsc_deadline_mode_reset : A → A;
  set_lvtt : Z → A → A;
  armed : A → bool;
  after_fire : A → A;
  deadline_arms d a : 0 < d → armed (one_shot_tsc_deadline_mode d a).2 = true;
  reset_disarms a : armed (one_shot_tsc_deadline_mode_reset a) = false;
  fire_disarms a : armed (after_fire a) = false }.

(** The functions given to [set_timer_callback]: the one of ticks.rs. *)
Inductive Callback := SysTick.

Record Timers (A : Type) := mkTimers {
  SYS_TICK : Z;
  TIMEOUT_FLAG : bool;
  TIMEOUT_CALLBACK : option Callback;
  TSC_DEADLINE_ENABLED : bool;
  apic : A }.
Arguments mkTimers {A}.
Arguments SYS_TICK {A}.
Arguments TIMEOUT_FLAG {A}.
Arguments TIMEOUT_CALLBACK {A}.
Arguments TSC_DEADLINE_ENABLED {A}.
Arguments apic {A}.

Definition TIMEOUT_VECTOR : Z := 33.
Definition CPUID_TSC_DEADLINE_BIT : Z := Z.shiftl 1 24.
Definition APIC_TIMER_MODE_TSC_DEADLINE : Z := 2.
Definition INTERVAL : Z := 1.

Section timer.
Context {A : Type} `{Apic A}.

(** ECX of leaf 1; EAX, EBX and ECX of leaf 0x15; the interrupt table's answer. *)
Context (cpuid_1_ecx : Z) (cpuid_15 : Z * Z * Z) (callback_registered : bool).

Notation TM := (M (Timers A) MigrationResult.t).

Definition set_tick (n : Z) (s : Timers A) : Timers A :=
  mkTimers n (TIMEOUT_FLAG s) (TIMEOUT_CALLBACK s) (TSC_DEADLINE_ENABLED s) (apic s).
Definition set_flag (b : bool) (s : Timers A) : Timers A :=
  mkTimers (SYS_TICK s) b (TIMEOUT_CALLBACK s) (TSC_DEADLINE_ENABLED s) (apic s).
Definition set_callback (c : option Callback) (s : Timers A) : Timers A :=
  mkTimers (SYS_TICK s) (TIMEOUT_FLAG s) c (TSC_DEADLINE_ENABLED s) (apic s).
Definition set_enabled (b : bool) (s : Timers A) : Timers A :=
  mkTimers (SYS_TICK s) (TIMEOUT_FLAG s) (TIMEOUT_CALLBACK s) b (apic s).
Definition set_apic (a : A) (s : Timers A) : Timers A :=
  mkTimers (SYS_TICK s) (TIMEOUT_FLAG s) (TIMEOUT_CALLBACK s) (TSC_DEADLINE_ENABLED s) a.

Definition reset_timer : TM unit :=
  _ ← modifyS (λ s, if TSC_DEADLINE_ENABLED s then set_apic (one_shot_tsc_deadline_mode_reset (apic s)) s else s);
  modifyS (set_flag false).

Definition apic_timer_lvtt_setup (vector : Z) : TM unit :=
  let mode := APIC_TIMER_MODE_TSC_DEADLINE in
  modifyS (λ s, set_apic (set_lvtt (Z.lor (Z.shiftl mode 17) vector) (apic s)) s).

(** [cpuid.ecx * (cpuid.ebx / cpuid.eax)]: a division by zero and an overflow abort. *)
Definition tsc_frequency : option Z :=
  let '(eax, ebx, ecx) := cpuid_15 in
  if eax =? 0 then None else checked_mul 32 ecx (ebx / eax).

Definition schedule_timeout (timeout : Z) : TM (option Z) :=
  _ ← reset_timer;
  f ← or_panic tsc_frequency;
  deadline ← or_panic (checked_mul 64 (f / 1000) timeout);
  _ ← apic_timer_lvtt_setup TIMEOUT_VECTOR;
  s ← getS;
  if TSC_DEADLINE_ENABLED s then
    let '(r, a) := one_shot_tsc_deadline_mode deadline (apic s) in
    _ ← modifyS (set_apic a);
    mret r
  else mret None.

Definition timeout (s : Timers A) : bool := TIMEOUT_FLAG s.

Definition default_callback : TM unit := modifyS (set_flag true).

(** [TIMEOUT_CALLBACK.call_once(|| cb)] *)
Definition set_timer_callback (cb : Callback) : TM unit :=
  modifyS (λ s, match TIMEOUT_CALLBACK s with Some _ => s | None => set_callback (Some cb) s end).

Definition set_timer_notification : TM unit :=
  if callback_registered then mret tt else failM MigrationResult.InitializationError.

(** Without the deadline mode the TD reports a crash. *)
Definition init_timer : TM unit :=
  _ ← (if Z.land cpuid_1_ecx CPUID_TSC_DEADLINE_BIT =? 0 then
         _ ← modifyS (set_enabled false); failM MigrationResult.InitializationError
       else mret tt);
  set_timer_notification.

(** ** System ticks (ticks.rs) *)

(** [fetch_update(.., |v| v.checked_add(1)).unwrap()] *)
Definition timer_callback : TM unit :=
  s ← getS;
  v ← or_panic (checked_add 64 (SYS_TICK s) 1);
  _ ← modifyS (set_tick v);
  _ ← schedule_timeout INTERVAL;
  mret tt.

Definition timer_handler : TM unit :=
  s ← getS;
  match TIMEOUT_CALLBACK s with Some SysTick => timer_callback | None => default_callback end.

Definition init_sys_tick : TM unit :=
  _ ← init_timer;
  _ ← set_timer_callback SysTick;
  _ ← schedule_timeout INTERVAL;
  mret tt.

Definition now (s : Timers A) : Z := SYS_TICK s.

(** [struct Timer]; the duration in milliseconds. *)
Record TimerFuture := mkTimer { expires_at : Z; yielded_once : bool }.

Definition Timer_after (millis : Z) (s : Timers A) : TimerFuture := mkTimer (now s + millis) false.

(** [true] is [Poll::Ready]. *)
Definition Timer_poll (t : TimerFuture) (s : Timers A) : bool * TimerFuture :=
  if yielded_once t && (expires_at t <=? now s) then (true, t) else (false, mkTimer (expires_at t) true).

(** ** The timer of the serial driver (driver/serial.rs) *)

Definition serial_set_timeout (millis : Z) : TM (option Z) :=
  r ← schedule_timeout millis;
  mret (_ ← r; Some millis).
Definition serial_reset_timeout : TM unit := reset_timer.
Definition serial_is_timeout (s : Timers A) : bool := timeout s.

(** ** What happens to the timer *)

(** The interrupt is delivered when the timer is armed. *)
Definition interrupt : TM unit :=
  s ← getS;
  if armed (apic s) then _ ← modifyS (λ s, set_apic (after_fire (apic s)) s); timer_handler else mret tt.

Inductive TimerEvent := Fires | SerialSets (millis : Z) | SerialResets.

Definition happen (e : TimerEvent) : TM unit :=
  match e with
  | Fires => interrupt
  | SerialSets millis => _ ← serial_set_timeout millis; mret tt
  | SerialResets => serial_reset_timeout
  end.

Fixpoint happen_all (l : list TimerEvent) : TM unit :=
  match l with [] => mret tt | e :: l => _ ← happen e; happen_all l end.

(** The delay between two requests of a quote (quote.rs): the timer is polled, and
    after each poll that is not ready the processor halts until something happens.
    [None] is a delay that still waits; else the events it left. *)
Fixpoint delay_loop (t : TimerFuture) (events : list TimerEvent) : TM (option (list TimerEvent)) :=
  s ← getS;
  let '(ready, t) := Timer_poll t s in
  if ready : bool then mret (Some events)
  else match events with
       | [] => mret None
       | e :: events => _ ← happen e; delay_loop t events
       end.

Definition delay_milliseconds_on (ms : Z) (events : list TimerEvent) : TM (option (list TimerEvent)) :=
  s ← getS; delay_loop (Timer_after ms s) events.

End timer.

(** ** The real-time clock (sys_time/src/rtc.rs) *)

Definition CMOS_SECOND_REGISTER : Z := 0x00.
Definition CMOS_MINUTE_REGISTER : Z := 0x02.
Definition CMOS_HOUR_REGISTER : Z := 0x04.
Definition CMOS_DAY_REGISTER : Z := 0x07.
Definition CMOS_MONTH_REGISTER : Z := 0x08.
Definition CMOS_YEAR_REGISTER : Z := 0x09.
Definition CMOS_STATUS_REGISTER_A : Z := 0x0A.
Definition CMOS_STATUS_REGISTER_B : Z := 0x0B.
Definition CMOS_NMI_DISABLE_BIT : Z := 0x80.
Definition CMOS_UPDATE_IN_PROGRESS_FLAG : Z := 0x80.
Definition CMOS_24_HOUR_FORMAT_FLAG : Z := 0x02.
Definition CMOS_BINARY_MODE_FLAG : Z := 0x04.
Definition CMOS_PM_BIT : Z := 0x80.
Definition CMOS_YEARS_OFFSET : Z := 2000.

Record DateTime := mkDateTime { second : Z; minute : Z; hour : Z; day : Z; month : Z; year : Z }.

#[global] Instance DateTime_eq_dec : EqDecision DateTime.
Proof. solve_decision. Defined.

(** The host's answers, one per access, to the byte written to port 0x70; and the
    lazy [STATUS_REGISTER_B].  Without a further answer the access does not end. *)
Record Rtc := mkRtc { answers : list (Z → Z); STATUS_REGISTER_B : option Z }.

Notation RtcM := (M Rtc (aerr unit)).

Definition read_cmos_register (reg : Z) : RtcM Z := λ s,
  match answers s with
  | [] => (Err Pending, s)
  | f :: l => (Ok (as_u 8 (f (Z.lor CMOS_NMI_DISABLE_BIT reg))), mkRtc l (STATUS_REGISTER_B s))
  end.

Definition status_register_b : RtcM Z :=
  s ← getS;
  match STATUS_REGISTER_B s with
  | Some b => mret b
  | None => b ← read_cmos_register CMOS_STATUS_REGISTER_B; _ ← modifyS (λ s, mkRtc (answers s) (Some b)); mret b
  end.

Definition is_24_hour_format : RtcM bool := b ← status_register_b; mret (0 <? Z.land b CMOS_24_HOUR_FORMAT_FLAG).
Definition is_binary_mode : RtcM bool := b ← status_register_b; mret (0 <? Z.land b CMOS_BINARY_MODE_FLAG).

Definition get_update_in_progress_flag : RtcM Z :=
  a ← read_cmos_register CMOS_STATUS_REGISTER_A; mret (Z.land a CMOS_UPDATE_IN_PROGRESS_FLAG).

(** A sum of bytes that does not fit aborts. *)
Definition bcd_to_binary (bcd : Z) : option Z := add_u 8 (Z.land bcd 0xF) (bcd / 16 * 10).

Definition read_datetime_register (register : Z) : RtcM Z :=
  value ← read_cmos_register register;
  binary ← is_binary_mode;
  if binary : bool then mret value else or_panic (bcd_to_binary value).

Definition read_hour_register : RtcM Z :=
  hour ← read_cmos_register CMOS_HOUR_REGISTER;
  binary ← is_binary_mode;
  hour ← (if binary : bool then mret hour
          else x ← or_panic (add_u 8 (Z.land hour 0xF) (Z.land hour (not_u 8 CMOS_PM_BIT) / 16 * 10));
               mret (Z.lor x (Z.land hour CMOS_PM_BIT)));
  h24 ← is_24_hour_format;
  if negb h24 && negb (Z.land hour CMOS_PM_BIT =? 0) then
    x ← or_panic (add_u 8 (Z.land hour (not_u 8 CMOS_PM_BIT)) 12); mret (x mod 24)
  else mret hour.

Definition read_date_time : RtcM DateTime :=
  year ← read_datetime_register CMOS_YEAR_REGISTER;
  year ← or_panic (add_u 16 CMOS_YEARS_OFFSET year);
  month ← read_datetime_register CMOS_MONTH_REGISTER;
  day ← read_datetime_register CMOS_DAY_REGISTER;
  minute ← read_datetime_register CMOS_MINUTE_REGISTER;
  second ← read_datetime_register CMOS_SECOND_REGISTER;
  hour ← read_hour_register;
  mret (mkDateTime second minute hour day month year).

(** [while get_update_in_progress_flag() > 0 {}]: a turn per answer of the host. *)
Fixpoint wait_for_update (fuel : nat) : RtcM unit :=
  match fuel with
  | O => failM OutOfFuel
  | S fuel => f ← get_update_in_progress_flag; if 0 <? f then wait_for_update fuel else mret tt
  end.

(** [while retries > 0] *)
Fixpoint read_rtc_loop (retries : nat) : RtcM (option DateTime) :=
  match retries with
  | O => mret None
  | S retries =>
      s ← getS;
      _ ← wait_for_update (S (length (answers s)));
      first_read ← read_date_time;
      f ← get_update_in_progress_flag;
      if 0 <? f then read_rtc_loop retries
      else
        second_read ← read_date_time;
        if decide (first_read = second_read) then mret (Some first_read) else read_rtc_loop retries
  end.

Definition read_rtc : RtcM (option DateTime) := read_rtc_loop 500.

(** *** [get_sys_time] (lib.rs) *)

(** The crate time: a date as days since the epoch, a time of day in seconds. *)
Class TimeCrate := {
  month_try_from : Z → option Z;
  from_calendar_date : Z → Z → Z → option Z;
  from_hms : Z → Z → Z → option Z;
  from_hms_spec h m s t : from_hms h m s = Some t ↔ h < 24 ∧ m < 60 ∧ s < 60 ∧ t = 3600 * h + 60 * m + s }.

(** [read_rtc()?], the conversions with [.ok()?], and the timestamp. *)
Definition get_sys_time `{TimeCrate} : RtcM (option Z) :=
  r ← read_rtc;
  mret (d ← r;
        m ← month_try_from (month d);
        date ← from_calendar_date (year d) m (day d);
        t ← from_hms (hour d) (minute d) (second d);
        Some (86400 * date + t)).
