(* ===== verification/ClockSpec.v ===== *)
(** * ClockSpec: the ticks count time, the clock is read as the device shows it

    What the system ticks count and when a timer ends, with and without the serial
    driver's use of the same hardware timer; and the decoding of the real-time clock
    (Clock). *)
From stdpp Require Import base tactics numbers option list.
From S2P Require Import Prelude MigData Clock.
Local Open Scope Z_scope.

Section ticks.
Context {A : Type} `{Apic A}.
Context (cpuid_1_ecx : Z) (cpuid_15 : Z * Z * Z) (registered : bool).

(** The frequency fits and a millisecond has cycles. *)
Context (f : Z) (Hf : tsc_frequency cpuid_15 = Some f) (Hms : 1000 <= f).

Notation TM := (M (Timers A) MigrationResult.t).

Lemma frequency_bound : f < 2 ^ 32.
Proof.
  unfold tsc_frequency in Hf. destruct cpuid_15 as [[eax ebx] ecx]. destruct (eax =? 0); [done|].
  unfold checked_mul in Hf. destruct (_ <? _) eqn:E; [|done]. injection Hf as <-. by apply Z.ltb_lt in E.
Qed.

(** The tick callback owns an armed timer. *)
Definition ticking (s : Timers A) : Prop :=
  TIMEOUT_CALLBACK s = Some SysTick ∧ TSC_DEADLINE_ENABLED s = true ∧ armed (apic s) = true.

Lemma reset_timer_eq (s : Timers A) : TSC_DEADLINE_ENABLED s = true →
  reset_timer s = (Ok tt, mkTimers (SYS_TICK s) false (TIMEOUT_CALLBACK s) true (one_shot_tsc_deadline_mode_reset (apic s))).
Proof. intros He. destruct s. cbn in He. by subst. Qed.

(** A timeout of a positive number of milliseconds arms the timer and clears the
    flag. *)
Lemma schedule_spec millis (s : Timers A) : 0 < millis < 2 ^ 32 → TSC_DEADLINE_ENABLED s = true →
  ∃ r a, schedule_timeout cpuid_15 millis s = (Ok r, mkTimers (SYS_TICK s) false (TIMEOUT_CALLBACK s) true a) ∧ armed a = true.
Proof.
  intros Hm Hen. pose proof frequency_bound as Hb. assert (0 < f / 1000 < 2 ^ 32) as Hd.
  { split; [apply Z.div_str_pos; lia|]. apply Z.div_lt_upper_bound; lia. }
  unfold schedule_timeout. rewrite M_bind_eq, reset_timer_eq, or_panic_bind, Hf, or_panic_bind by done.
  assert (checked_mul 64 (f / 1000) millis = Some (f / 1000 * millis)) as ->.
  { unfold checked_mul. replace (_ <? _) with true; [done|]. symmetry. apply Z.ltb_lt. nia. }
  unfold apic_timer_lvtt_setup. rewrite modifyS_bind, getS_bind. cbn [TSC_DEADLINE_ENABLED set_apic apic].
  destruct (one_shot_tsc_deadline_mode (f / 1000 * millis) _) as [r a] eqn:E. rewrite modifyS_bind. exists r, a. split; [done|].
  change a with (r, a).2. rewrite <-E. apply deadline_arms. lia.
Qed.

(** [init_sys_tick] starts the ticks. *)
Lemma init_ticking (s s' : Timers A) : TSC_DEADLINE_ENABLED s = true → init_sys_tick cpuid_1_ecx cpuid_15 registered s = (Ok tt, s') →
  ticking s' ∧ SYS_TICK s' = SYS_TICK s ∧ TIMEOUT_FLAG s' = false.
Proof.
  intros Hen E. unfold init_sys_tick in E. apply M_bind_Ok_inv in E as ([] & s1 & E1 & E).
  assert (s1 = s) as ->.
  { unfold init_timer, set_timer_notification in E1. destruct (_ =? 0); [done|]. destruct registered; [|done]. by injection E1 as <-. }
  unfold set_timer_callback in E. rewrite modifyS_bind in E. set (s1 := match TIMEOUT_CALLBACK s with Some _ => _ | None => _ end) in E.
  assert (TIMEOUT_CALLBACK s1 = Some SysTick ∧ TSC_DEADLINE_ENABLED s1 = true ∧ SYS_TICK s1 = SYS_TICK s) as (Hc & He & Ht).
  { subst s1. destruct (TIMEOUT_CALLBACK s) as [[]|] eqn:Ec; done. }
  destruct (schedule_spec INTERVAL s1) as (r & a & Es & Ha); [done|done|]. rewrite M_bind_eq, Es in E. injection E as <-.
  unfold ticking. cbn. by rewrite Hc.
Qed.

(** Every interrupt is a tick. *)
Lemma interrupt_ticks (s : Timers A) : ticking s → 0 <= SYS_TICK s < u_max 64 →
  ∃ s', interrupt cpuid_15 s = (Ok tt, s') ∧ ticking s' ∧ SYS_TICK s' = SYS_TICK s + 1 ∧ TIMEOUT_FLAG s' = false.
Proof.
  intros (Hc & He & Ha) Ht. unfold interrupt, timer_handler. rewrite getS_bind, Ha, modifyS_bind, getS_bind.
  cbn [set_apic TIMEOUT_CALLBACK]. rewrite Hc. unfold timer_callback. rewrite getS_bind, or_panic_bind. cbn [set_apic SYS_TICK].
  assert (checked_add 64 (SYS_TICK s) 1 = Some (SYS_TICK s + 1)) as ->.
  { unfold checked_add. replace (_ <? _) with true; [done|]. symmetry. apply Z.ltb_lt. unfold u_max in Ht. lia. }
  rewrite modifyS_bind. set (s1 := set_tick _ _). destruct (schedule_spec INTERVAL s1) as (r & a & Es & Ha1); [done|done|].
  rewrite M_bind_eq, Es. eexists. split; [done|]. unfold ticking. cbn. by rewrite Hc.
Qed.

Lemma ticks_count n (s : Timers A) : ticking s → 0 <= SYS_TICK s → SYS_TICK s + Z.of_nat n <= u_max 64 →
  ∃ s', happen_all cpuid_15 (replicate n Fires) s = (Ok tt, s') ∧ ticking s' ∧ SYS_TICK s' = SYS_TICK s + Z.of_nat n.
Proof.
  revert s. induction n as [|n IH]; intros s Hs H0 Hn; [exists s; split; [done|split; [done|lia]]|].
  cbn [replicate happen_all]. destruct (interrupt_ticks s Hs) as (s1 & E1 & Hs1 & Ht1 & _); [lia|].
  rewrite M_bind_eq. cbn [happen]. rewrite E1. destruct (IH s1) as (s2 & E2 & Hs2 & Ht2); [done|lia|lia|].
  exists s2. split; [done|split; [done|lia]].
Qed.

(** With the tick callback in place nothing sets the flag of a timeout. *)
Definition unflagged (s : Timers A) : Prop :=
  TIMEOUT_CALLBACK s = Some SysTick ∧ TSC_DEADLINE_ENABLED s = true ∧ TIMEOUT_FLAG s = false.

Lemma schedule_unflagged millis (s : Timers A) r s' : unflagged s → schedule_timeout cpuid_15 millis s = (r, s') → unflagged s'.
Proof.
  intros (Hc & He & Hfl) E. unfold schedule_timeout in E. rewrite M_bind_eq, reset_timer_eq, or_panic_bind, Hf, or_panic_bind in E by done.
  destruct (checked_mul 64 _ _); [|by injection E as _ <-]. unfold apic_timer_lvtt_setup in E. rewrite modifyS_bind, getS_bind in E. cbn in E.
  destruct (one_shot_tsc_deadline_mode _ _) in E. rewrite modifyS_bind in E. injection E as _ <-. done.
Qed.

Lemma happen_unflagged e (s : Timers A) r s' : unflagged s → happen cpuid_15 e s = (r, s') → unflagged s'.
Proof.
  intros Hs. pose proof Hs as (Hc & He & Hfl). destruct e as [|millis|]; cbn [happen].
  - unfold interrupt, timer_handler. rewrite getS_bind. destruct (armed (apic s)); [|by intros [= _ <-]].
    rewrite modifyS_bind, getS_bind. cbn [set_apic TIMEOUT_CALLBACK]. rewrite Hc. unfold timer_callback. rewrite getS_bind, or_panic_bind.
    destruct (checked_add _ _ _); [|by intros [= _ <-]]. rewrite modifyS_bind, M_bind_eq.
    destruct (schedule_timeout cpuid_15 INTERVAL _) as [o s1] eqn:E. apply schedule_unflagged in E; [|done]. destruct o; by intros [= _ <-].
  - unfold serial_set_timeout. rewrite !M_bind_eq. destruct (schedule_timeout cpuid_15 millis s) as [o s1] eqn:E.
    apply schedule_unflagged in E; [|done]. destruct o; by intros [= _ <-].
  - unfold serial_reset_timeout. rewrite reset_timer_eq by done. by intros [= _ <-].
Qed.

Lemma happen_all_unflagged l (s : Timers A) r s' : unflagged s → happen_all cpuid_15 l s = (r, s') → unflagged s'.
Proof.
  revert s. induction l as [|e l IH]; intros s Hs; [by intros [= _ <-]|]. cbn [happen_all]. rewrite M_bind_eq.
  destruct (happen cpuid_15 e s) as [o s1] eqn:E. apply happen_unflagged in E; [|done]. destruct o; [by apply IH|by intros [= _ <-]..].
Qed.

(** A delay ends with the tick it waits for, and not before. *)
Lemma delay_loop_ends n expires (s : Timers A) more : ticking s → 0 <= SYS_TICK s → SYS_TICK s + Z.of_nat n = expires → expires <= u_max 64 →
  ∃ s', delay_loop cpuid_15 (mkTimer expires true) (replicate n Fires ++ more) s = (Ok (Some more), s') ∧ ticking s' ∧ SYS_TICK s' = expires.
Proof.
  revert s. induction n as [|n IH]; intros s Hs H0 He Hm; cbn [replicate app].
  - exists s. split; [|split; [done|lia]]. destruct more; cbn [delay_loop]; rewrite getS_bind; unfold Timer_poll, now; cbn;
      by rewrite (proj2 (Z.leb_le expires (SYS_TICK s))) by lia.
  - cbn [delay_loop]. rewrite getS_bind. unfold Timer_poll, now at 1. cbn. rewrite (proj2 (Z.leb_gt expires (SYS_TICK s))) by lia.
    destruct (interrupt_ticks s Hs) as (s1 & E1 & Hs1 & Ht1 & _); [lia|]. rewrite M_bind_eq. cbn [happen]. rewrite E1.
    apply IH; [done|lia|lia|done].
Qed.

(** While ticks arrive a delay between two requests of a quote ends after that many
    of them, and after one at least. *)
Theorem delay_ends ms (s : Timers A) more :
  ticking s → 0 <= ms → 0 <= SYS_TICK s → SYS_TICK s + Z.max 1 ms <= u_max 64 →
  ∃ s', delay_milliseconds_on cpuid_15 ms (replicate (Z.to_nat (Z.max 1 ms)) Fires ++ more) s = (Ok (Some more), s') ∧
    SYS_TICK s' = SYS_TICK s + Z.max 1 ms.
Proof.
  intros Hs Hpos H0 Hm. unfold delay_milliseconds_on, Timer_after, now. rewrite getS_bind.
  destruct (Z.to_nat (Z.max 1 ms)) as [|n] eqn:En; [lia|]. cbn [replicate app delay_loop]. rewrite getS_bind. unfold Timer_poll. cbn.
  destruct (interrupt_ticks s Hs) as (s1 & E1 & Hs1 & Ht1 & _); [lia|]. rewrite M_bind_eq. cbn [happen]. rewrite E1.
  destruct (Z.leb_spec ms 1).
  - replace n with 0%nat by lia. exists s1. split; [|lia]. cbn [replicate app].
    destruct more; cbn [delay_loop]; rewrite getS_bind; unfold Timer_poll, now; cbn;
      by rewrite (proj2 (Z.leb_le (SYS_TICK s + ms) (SYS_TICK s1))) by lia.
  - destruct (delay_loop_ends n (SYS_TICK s + ms) s1 more) as (s' & E & _ & Ht); [done|lia|lia|lia|]. exists s'. split; [done|lia].
Qed.

(** Before the ticks are started a timeout of the driver sets the flag. *)
Definition booting (s : Timers A) : Prop := TIMEOUT_CALLBACK s = None ∧ TSC_DEADLINE_ENABLED s = true.

Lemma schedule_keeps millis (s : Timers A) r s' : TSC_DEADLINE_ENABLED s = true → schedule_timeout cpuid_15 millis s = (r, s') →
  TIMEOUT_CALLBACK s' = TIMEOUT_CALLBACK s ∧ TSC_DEADLINE_ENABLED s' = true ∧ SYS_TICK s' = SYS_TICK s.
Proof.
  intros He E. unfold schedule_timeout in E. rewrite M_bind_eq, reset_timer_eq, or_panic_bind, Hf, or_panic_bind in E by done.
  destruct (checked_mul 64 _ _); [|by injection E as _ <-]. unfold apic_timer_lvtt_setup in E. rewrite modifyS_bind, getS_bind in E. cbn in E.
  destruct (one_shot_tsc_deadline_mode _ _) in E. rewrite modifyS_bind in E. injection E as _ <-. done.
Qed.

Lemma happen_booting e (s : Timers A) r s' : booting s → happen cpuid_15 e s = (r, s') → booting s' ∧ SYS_TICK s' = SYS_TICK s.
Proof.
  intros [Hc He]. destruct e as [|millis|]; cbn [happen].
  - unfold interrupt, timer_handler. rewrite getS_bind. destruct (armed (apic s)); [|by intros [= _ <-]].
    rewrite modifyS_bind, getS_bind. cbn [set_apic TIMEOUT_CALLBACK]. rewrite Hc. by intros [= _ <-].
  - unfold serial_set_timeout, booting. rewrite !M_bind_eq. destruct (schedule_timeout cpuid_15 millis s) as [o s1] eqn:E.
    apply schedule_keeps in E as (Hc1 & He1 & Ht1); [|done]. rewrite Hc in Hc1. destruct o; by intros [= _ <-].
  - unfold serial_reset_timeout. rewrite reset_timer_eq by done. by intros [= _ <-].
Qed.

Lemma happen_all_booting l (s : Timers A) r s' : booting s → happen_all cpuid_15 l s = (r, s') → booting s' ∧ SYS_TICK s' = SYS_TICK s.
Proof.
  revert s. induction l as [|e l IH]; intros s Hs; [by intros [= _ <-]|]. cbn [happen_all]. rewrite M_bind_eq.
  destruct (happen cpuid_15 e s) as [o s1] eqn:E. apply happen_booting in E as [H1 H2]; [|done].
  destruct o; [|by intros [= _ <-]..]. intros E. rewrite <-H2. by apply IH.
Qed.

(** The driver's timeout arms the timer. *)
Lemma sets_arms millis (s : Timers A) : 0 < millis < 2 ^ 32 → TSC_DEADLINE_ENABLED s = true →
  ∃ a, happen cpuid_15 (SerialSets millis) s = (Ok tt, mkTimers (SYS_TICK s) false (TIMEOUT_CALLBACK s) true a) ∧ armed a = true.
Proof.
  intros Hm He. destruct (schedule_spec millis s Hm He) as (r & a & E & Ha). exists a. split; [|done].
  cbn [happen]. unfold serial_set_timeout. by rewrite !M_bind_eq, E.
Qed.

Lemma booting_timeout millis (s : Timers A) : 0 < millis < 2 ^ 32 → booting s →
  ∃ s', happen_all cpuid_15 [SerialSets millis; Fires] s = (Ok tt, s') ∧ serial_is_timeout s' = true.
Proof.
  intros Hm [Hc He]. destruct (sets_arms millis s Hm He) as (a & E & Ha). cbn [happen_all]. rewrite M_bind_eq, E. cbn [happen].
  eexists. split; [|]; [rewrite M_bind_eq; unfold interrupt, timer_handler; rewrite getS_bind; cbn [apic]; rewrite Ha, modifyS_bind, getS_bind;
    cbn [set_apic TIMEOUT_CALLBACK]; rewrite Hc; reflexivity|done].
Qed.

(** Without a new timeout a disarmed timer stays silent. *)
Definition arms (e : TimerEvent) : bool := match e with SerialSets _ => true | _ => false end.

Definition stopped (s : Timers A) : Prop :=
  TIMEOUT_CALLBACK s = Some SysTick ∧ TSC_DEADLINE_ENABLED s = true ∧ armed (apic s) = false.

Lemma stopped_silent l (s : Timers A) : stopped s → Forall (λ e, arms e = false) l →
  ∃ s', happen_all cpuid_15 l s = (Ok tt, s') ∧ stopped s' ∧ SYS_TICK s' = SYS_TICK s.
Proof.
  intros Hs Hl. revert s Hs. induction Hl as [|e l He _ IH]; intros s Hs; [by exists s|]. cbn [happen_all]. rewrite M_bind_eq.
  pose proof Hs as (Hc & Hen & Ha). destruct e as [|millis|]; [|done|]; cbn [happen].
  - unfold interrupt. rewrite getS_bind, Ha. by apply IH.
  - unfold serial_reset_timeout. rewrite reset_timer_eq by done. set (s1 := mkTimers _ _ _ _ _).
    assert (stopped s1) as Hs1 by (split; [done|]; split; [done|apply reset_disarms]). exact (IH s1 Hs1).
Qed.

(** C36 The ticks are the clock of the timers until the serial driver uses the
    hardware timer.  The clock of the processor has a frequency of 32 bits, at least a
    cycle per millisecond.  While the driver is registered, before [init_sys_tick], its
    timeouts set the flag that it asks for.  After [init_sys_tick] every timer
    interrupt adds one to [SYS_TICK] and arms the next, so that a timer polled before
    is ready exactly when its duration in ticks has passed, and not at its first poll.
    Once the serial driver has reset its timeout no interrupt arrives any more, the
    ticks stand still and no timer that waits for a later tick becomes ready, until
    the driver sets a new timeout, from which the ticks go on; and whatever happens
    after [init_sys_tick] the serial driver does not see a timeout of its own any
    more, since the tick callback is there in place of the one that sets the flag. *)
Theorem ticks_and_serial_timer (boot s0 : Timers A) l millis n :
  TSC_DEADLINE_ENABLED boot = true → TIMEOUT_CALLBACK boot = None → 0 <= SYS_TICK boot →
  happen_all cpuid_15 l boot = (Ok tt, s0) →
  (∀ m, 0 < m < 2 ^ 32 → ∃ s', happen_all cpuid_15 [SerialSets m; Fires] s0 = (Ok tt, s') ∧ serial_is_timeout s' = true) ∧
  ∀ s, init_sys_tick cpuid_1_ecx cpuid_15 registered s0 = (Ok tt, s) →
  let t := Timer_after millis s in
  (Timer_poll t s).1 = false ∧
  (∀ l', serial_is_timeout (happen_all cpuid_15 l' s).2 = false) ∧
  (SYS_TICK boot + Z.of_nat n <= u_max 64 →
   ∃ s1, happen_all cpuid_15 (replicate n Fires) s = (Ok tt, s1) ∧ SYS_TICK s1 = SYS_TICK boot + Z.of_nat n ∧
     (Timer_poll (Timer_poll t s).2 s1).1 = (millis <=? Z.of_nat n) ∧
     ∀ quiet, Forall (λ e, arms e = false) quiet →
     ∃ s2, happen_all cpuid_15 (SerialResets :: quiet) s1 = (Ok tt, s2) ∧ SYS_TICK s2 = SYS_TICK s1 ∧
       (Z.of_nat n < millis → (Timer_poll (Timer_poll t s).2 s2).1 = false) ∧
       ∀ m k, 0 < m < 2 ^ 32 → SYS_TICK s2 + Z.of_nat k <= u_max 64 →
       ∃ s3, happen_all cpuid_15 (SerialSets m :: replicate k Fires) s2 = (Ok tt, s3) ∧ SYS_TICK s3 = SYS_TICK s2 + Z.of_nat k).
Proof.
  intros Hen Hcb H0 El. apply happen_all_booting in El as [Hb Ht0]; [|done]. rewrite <-Ht0 in *. clear boot Hen Hcb Ht0.
  split; [intros m Hm; by apply booting_timeout|]. intros s Ei t. destruct (init_ticking s0 s (proj2 Hb) Ei) as (Hs & Ht & Hfl).
  pose proof Hs as (Hc & He & Ha). split; [done|]. split.
  { intros l'. destruct (happen_all cpuid_15 l' s) as [r s'] eqn:E. apply happen_all_unflagged in E as (_ & _ & ?); [done|]. done. }
  intros Hn. destruct (ticks_count n s) as (s1 & E1 & (Hc1 & He1 & Ha1) & Ht1); [done|lia|lia|]. exists s1. split; [done|]. split; [lia|].
  assert (∀ s' : Timers A, SYS_TICK s' = SYS_TICK s1 → (Timer_poll (Timer_poll t s).2 s').1 = (millis <=? Z.of_nat n)) as Hpoll.
  { intros s' Hs'. unfold t, Timer_after, Timer_poll, now. cbn. rewrite Hs', Ht1.
    replace (SYS_TICK s + millis <=? SYS_TICK s + Z.of_nat n) with (millis <=? Z.of_nat n) by (apply eq_true_iff_eq; rewrite !Z.leb_le; lia).
    by destruct (_ <=? _). }
  split; [by apply Hpoll|]. intros quiet Hq. cbn [happen_all happen]. unfold serial_reset_timeout. rewrite M_bind_eq, reset_timer_eq by done.
  set (s1' := mkTimers _ _ _ _ _). assert (stopped s1') as Hst by (split; [done|]; split; [done|apply reset_disarms]).
  destruct (stopped_silent quiet s1' Hst Hq) as (s2 & E2 & (Hc2 & He2 & Ha2) & Ht2). exists s2. split; [done|]. split; [done|].
  split; [intros Hm; rewrite Hpoll by done; by apply Z.leb_gt|]. intros m k Hm Hk.
  destruct (sets_arms m s2 Hm He2) as (a & E3 & Ha3). cbn [happen] in E3. rewrite M_bind_eq, E3.
  destruct (ticks_count k (mkTimers (SYS_TICK s2) false (TIMEOUT_CALLBACK s2) true a)) as (s3 & E4 & _ & Ht3); [by split|cbn in *; lia|cbn; lia|].
  by exists s3.
Qed.
End ticks.

Module TickSample.

(** The state of the timer is whether it is armed. *)
#[local, refine] Instance hw : Apic bool := {
  one_shot_tsc_deadline_mode d _ := (Some d, true); one_shot_tsc_deadline_mode_reset _ := false; set_lvtt _ a := a;
  armed a := a; after_fire _ := false }.
Proof. all: done. Defined.

Definition start : Timers bool := mkTimers 0 false None true false.
Definition ticking_now : Timers bool := mkTimers 0 false (Some SysTick) true true.

Lemma ticks_and_serial_timer_witness :
  (∃ s', happen_all (1, 100, 25000000) [SerialSets 5; Fires] start = (Ok tt, s') ∧ serial_is_timeout s' = true) ∧
  ∃ s1, happen_all (1, 100, 25000000) (replicate 10 Fires) ticking_now = (Ok tt, s1) ∧ SYS_TICK s1 = 10 ∧
  ∃ s2, happen_all (1, 100, 25000000) [SerialResets; Fires; Fires] s1 = (Ok tt, s2) ∧ SYS_TICK s2 = 10 ∧
  ∃ s3, happen_all (1, 100, 25000000) (SerialSets 3 :: replicate 7 Fires) s2 = (Ok tt, s3) ∧ SYS_TICK s3 = 17.
Proof.
  destruct (ticks_and_serial_timer (H := hw) (Z.shiftl 1 24) (1, 100, 25000000) true 2500000000 eq_refl ltac:(lia) start start [] 10 10
    eq_refl eq_refl ltac:(done) eq_refl) as (Hb & Hi).
  split; [by apply Hb|]. destruct (Hi ticking_now eq_refl) as (_ & _ & H). destruct (H ltac:(done)) as (s1 & E1 & H1 & _ & H2).
  exists s1. split; [exact E1|]. split; [exact H1|]. destruct (H2 [Fires; Fires] ltac:(by repeat constructor)) as (s2 & E2 & H3 & _ & H4).
  rewrite H1 in H3. exists s2. split; [exact E2|]. split; [exact H3|].
  destruct (H4 3 7%nat ltac:(done) ltac:(rewrite H3; done)) as (s3 & E3 & H5). rewrite H3 in H5. exists s3. exact (conj E3 H5).
Defined.

(** A clock of 5 GHz: the product of 32-bit values does not fit and the first tick aborts. *)
Example fast_clock_aborts : (init_sys_tick (Z.shiftl 1 24) (1, 200, 25000000) true start).1 = Panic.
Proof. vm_compute. reflexivity. Qed.

End TickSample.

(** ** The real-time clock *)

(** How the registers show a number and an hour in the formats of register B. *)
Record Format := mkFormat { binary : bool; twentyfour : bool }.

Definition shown (fmt : Format) (v : Z) : Z := if binary fmt then v else 16 * (v / 10) + v mod 10.

Definition shown_hour (fmt : Format) (h : Z) : Z :=
  if twentyfour fmt then shown fmt h
  else shown fmt (if h mod 12 =? 0 then 12 else h mod 12) + (if h <? 12 then 0 else 0x80).

(** A clock that shows one time; bit 7 of the address is the NMI gate. *)
Definition clock_showing (fmt : Format) (d : DateTime) (address : Z) : Z :=
  match Z.land address 0x7f with
  | 0x00 => shown fmt (second d) | 0x02 => shown fmt (minute d) | 0x04 => shown_hour fmt (hour d)
  | 0x07 => shown fmt (day d) | 0x08 => shown fmt (month d) | 0x09 => shown fmt (year d - 2000)
  | 0x0B => (if twentyfour fmt then 2 else 0) + (if binary fmt then 4 else 0)
  | _ => 0
  end.

Definition valid_time (d : DateTime) : Prop :=
  0 <= second d < 60 ∧ 0 <= minute d < 60 ∧ 0 <= hour d < 24 ∧ 0 <= day d < 100 ∧ 0 <= month d < 100 ∧ 2000 <= year d < 2100.

(** The hour the code makes of it. *)
Definition hour_read (fmt : Format) (h : Z) : Z :=
  if negb (twentyfour fmt) && (h mod 12 =? 0) then (h + 12) mod 24 else h.

Lemma bounded_cases (P : Z → Prop) `{∀ v, Decision (P v)} n v : forallb (λ k, bool_decide (P (Z.of_nat k))) (seq 0 n) = true → 0 <= v < Z.of_nat n → P v.
Proof.
  intros Hall Hv. rewrite forallb_forall in Hall. specialize (Hall (Z.to_nat v)). rewrite Z2Nat.id in Hall by lia.
  apply (bool_decide_eq_true_1 _), Hall, in_seq. lia.
Qed.

Lemma shown_byte fmt v : 0 <= v < 100 → as_u 8 (shown fmt v) = shown fmt v.
Proof. intros Hv. destruct fmt as [[] t]; (apply (bounded_cases (λ v, as_u 8 (shown (mkFormat _ t) v) = shown (mkFormat _ t) v) 100); [|done]); vm_compute; reflexivity. Qed.

Lemma bcd_shown t v : 0 <= v < 100 → bcd_to_binary (shown (mkFormat false t) v) = Some v.
Proof. intros Hv. apply (bounded_cases (λ v, bcd_to_binary (shown (mkFormat false t) v) = Some v) 100); [|done]. vm_compute. reflexivity. Qed.

Definition status_of_format (fmt : Format) : Z := (if twentyfour fmt then 2 else 0) + (if binary fmt then 4 else 0).

(** [n] more accesses find the same time. *)
Definition steady (fmt : Format) (d : DateTime) (n : nat) (b : option Z) : Rtc := mkRtc (replicate n (clock_showing fmt d)) b.

Section clock.
Context (fmt : Format) (d : DateTime) (Hd : valid_time d).

Notation steady := (steady fmt d).
Notation cached := (Some (status_of_format fmt)).

Lemma status_read n : status_register_b (steady (S n) None) = (Ok (status_of_format fmt), steady n cached).
Proof. destruct fmt as [[] []]; reflexivity. Qed.

Lemma binary_read n : is_binary_mode (steady n cached) = (Ok (binary fmt), steady n cached).
Proof. destruct fmt as [[] []]; reflexivity. Qed.

Lemma binary_first n : is_binary_mode (steady (S n) None) = (Ok (binary fmt), steady n cached).
Proof. unfold is_binary_mode. rewrite M_bind_eq, status_read. by destruct fmt as [[] []]. Qed.

Lemma format_read n : is_24_hour_format (steady n cached) = (Ok (twentyfour fmt), steady n cached).
Proof. destruct fmt as [[] []]; reflexivity. Qed.

(** A register that shows [v]. *)
Lemma register_value reg v n b s' : clock_showing fmt d (Z.lor CMOS_NMI_DISABLE_BIT reg) = shown fmt v → 0 <= v < 100 →
  is_binary_mode (steady n b) = (Ok (binary fmt), s') → read_datetime_register reg (steady (S n) b) = (Ok v, s').
Proof.
  intros Hr Hv Hb. unfold read_datetime_register. rewrite M_bind_eq.
  change (read_cmos_register reg (steady (S n) b)) with (Ok (E := aerr unit) (as_u 8 (clock_showing fmt d (Z.lor CMOS_NMI_DISABLE_BIT reg))), steady n b).
  cbv iota beta. rewrite Hr, shown_byte, M_bind_eq, Hb by done. destruct fmt as [[] t]; [done|]. by rewrite bcd_shown.
Qed.

Lemma register_read reg v n : clock_showing fmt d (Z.lor CMOS_NMI_DISABLE_BIT reg) = shown fmt v → 0 <= v < 100 →
  read_datetime_register reg (steady (S n) cached) = (Ok v, steady n cached).
Proof. intros Hr Hv. apply register_value; [done|done|apply binary_read]. Qed.

Lemma hour_decoded n : read_hour_register (steady (S n) cached) = (Ok (hour_read fmt (hour d)), steady n cached).
Proof.
  destruct Hd as (_ & _ & Hh & _). unfold read_hour_register. rewrite M_bind_eq.
  change (read_cmos_register CMOS_HOUR_REGISTER (steady (S n) cached)) with (Ok (E := aerr unit) (as_u 8 (shown_hour fmt (hour d))), steady n cached).
  generalize dependent (hour d). intros h Hh. unfold ClockSpec.steady.
  assert (h = 0 ∨ h = 1 ∨ h = 2 ∨ h = 3 ∨ h = 4 ∨ h = 5 ∨ h = 6 ∨ h = 7 ∨ h = 8 ∨ h = 9 ∨ h = 10 ∨ h = 11 ∨ h = 12 ∨ h = 13 ∨ h = 14 ∨ h = 15 ∨ h = 16 ∨ h = 17 ∨ h = 18 ∨ h = 19 ∨ h = 20 ∨ h = 21 ∨ h = 22 ∨ h = 23) as Hc by lia.
  clear Hh. destruct fmt as [[] []]; destruct_or! Hc; subst h; reflexivity.
Qed.

Notation time_read := (mkDateTime (second d) (minute d) (hour_read fmt (hour d)) (day d) (month d) (year d)).

(** All registers; the first time register B is read too. *)
Lemma date_time_from b n m : is_binary_mode (steady m b) = (Ok (binary fmt), steady (S (S (S (S (S n))))) cached) →
  read_date_time (steady (S m) b) = (Ok time_read, steady n cached).
Proof.
  pose proof Hd as (Hs & Hm & _ & Hda & Hmo & Hy). intros Hb. unfold read_date_time.
  rewrite M_bind_eq, (register_value CMOS_YEAR_REGISTER (year d - 2000) _ _ _ eq_refl ltac:(lia) Hb), or_panic_bind.
  assert (add_u 16 CMOS_YEARS_OFFSET (year d - 2000) = Some (year d)) as ->.
  { unfold add_u, checked_add, CMOS_YEARS_OFFSET. replace (_ <? _) with true; [f_equal; lia|]. symmetry. apply Z.ltb_lt. lia. }
  rewrite M_bind_eq, (register_read _ (month d)) by (done || lia). rewrite M_bind_eq, (register_read _ (day d)) by (done || lia).
  rewrite M_bind_eq, (register_read _ (minute d)) by (done || lia). rewrite M_bind_eq, (register_read _ (second d)) by (done || lia).
  by rewrite M_bind_eq, hour_decoded.
Qed.

Lemma no_update n b : get_update_in_progress_flag (steady (S n) b) = (Ok 0, steady n b).
Proof. reflexivity. Qed.

Lemma rtc_loop_read r n : read_rtc_loop (S r) (steady (15 + n) None) = (Ok (Some time_read), steady n cached).
Proof.
  cbn [read_rtc_loop]. rewrite getS_bind, M_bind_eq. cbn [wait_for_update]. rewrite M_bind_eq.
  change (15 + n)%nat with (S (14 + n)). rewrite no_update. change (0 <? 0) with false. cbn [mret M_ret].
  change (14 + n)%nat with (S (13 + n)). rewrite M_bind_eq, (date_time_from None (7 + n) (13 + n)) by apply binary_first.
  change (7 + n)%nat with (S (S (5 + n))). rewrite M_bind_eq, no_update. change (0 <? 0) with false.
  cbv iota. rewrite M_bind_eq, (date_time_from cached n (5 + n)) by apply binary_read. by rewrite decide_True.
Qed.

Lemma rtc_read n : read_rtc (steady (15 + n) None) = (Ok (Some time_read), steady n cached).
Proof. exact (rtc_loop_read 499 n). Qed.
End clock.

(** ** A host that answers anything *)

(** The operation does not abort, and [P] holds of what it returns. *)
Definition yields {A} (P : A → Prop) (m : RtcM A) : Prop :=
  ∀ s, match (m s).1 with Ok a => P a | Err _ => True | Panic => False end.

Lemma yields_ret {A} (P : A → Prop) a : P a → yields P (mret a).
Proof. intros Ha s. exact Ha. Qed.

Lemma yields_bind {A B} (P : A → Prop) (Q : B → Prop) (m : RtcM A) (k : A → RtcM B) :
  yields P m → (∀ a, P a → yields Q (k a)) → yields Q (m ≫= k).
Proof. intros Hm Hk s. rewrite M_bind_eq. specialize (Hm s). destruct (m s) as [[a|e|] s1]; [by apply Hk|done|done]. Qed.

Lemma yields_get {B} (Q : B → Prop) (k : Rtc → RtcM B) : (∀ s, yields Q (k s)) → yields Q (getS ≫= k).
Proof. intros Hk s. apply Hk. Qed.

Lemma yields_or_panic {A} (P : A → Prop) (o : option A) a : o = Some a → P a → yields P (or_panic o).
Proof. intros -> Ha s. exact Ha. Qed.

Lemma yields_byte reg : yields (in_u 8) (read_cmos_register reg).
Proof. intros s. unfold read_cmos_register. destruct (answers s) as [|g l]; [done|]. apply Z.mod_pos_bound. lia. Qed.

Lemma yields_status : yields (λ _, True) status_register_b.
Proof.
  apply yields_get. intros s. destruct (STATUS_REGISTER_B s); [by apply yields_ret|]. eapply yields_bind; [apply yields_byte|].
  intros b _ s'. done.
Qed.

Lemma yields_binary : yields (λ _, True) is_binary_mode.
Proof. eapply yields_bind; [apply yields_status|]. intros b _. by apply yields_ret. Qed.

Lemma yields_24_hour : yields (λ _, True) is_24_hour_format.
Proof. eapply yields_bind; [apply yields_status|]. intros b _. by apply yields_ret. Qed.

Lemma yields_flag : yields (λ _, True) get_update_in_progress_flag.
Proof. eapply yields_bind; [apply yields_byte|]. intros a _. by apply yields_ret. Qed.

Lemma low_digit v : 0 <= Z.land v 15 < 16.
Proof. change 15 with (Z.ones 4). rewrite Z.land_ones by lia. apply Z.mod_pos_bound. lia. Qed.

Lemma without_pm v : 0 <= Z.land v (not_u 8 CMOS_PM_BIT) < 128.
Proof. change (not_u 8 CMOS_PM_BIT) with (Z.ones 7). rewrite Z.land_ones by lia. apply Z.mod_pos_bound. lia. Qed.

Lemma bcd_fits v : in_u 8 v → ∃ x, bcd_to_binary v = Some x ∧ in_u 8 x.
Proof.
  intros Hv. pose proof (low_digit v). unfold in_u in *. assert (0 <= v / 16 < 16) by (split; [apply Z.div_pos; lia|apply Z.div_lt_upper_bound; lia]).
  exists (Z.land v 15 + v / 16 * 10). unfold bcd_to_binary, add_u, checked_add. replace (_ <? _) with true; [split; [done|lia]|]. symmetry. apply Z.ltb_lt. lia.
Qed.

Lemma yields_register reg : yields (in_u 8) (read_datetime_register reg).
Proof.
  eapply yields_bind; [apply yields_byte|]. intros v Hv. eapply yields_bind; [apply yields_binary|]. intros [] _; [by apply yields_ret|].
  destruct (bcd_fits v Hv) as (x & Hx & Hb). by eapply yields_or_panic.
Qed.

Lemma yields_hour : yields (λ _, True) read_hour_register.
Proof.
  eapply yields_bind; [apply yields_byte|]. intros v Hv. eapply yields_bind; [apply yields_binary|]. intros bin _.
  apply (yields_bind (λ _, True)).
  - destruct bin; [by apply yields_ret|]. pose proof (low_digit v). pose proof (without_pm v) as Hp.
    assert (0 <= Z.land v (not_u 8 CMOS_PM_BIT) / 16 < 8) by (split; [apply Z.div_pos; lia|apply Z.div_lt_upper_bound; lia]).
    set (x := Z.land v 15 + Z.land v (not_u 8 CMOS_PM_BIT) / 16 * 10). assert (0 <= x < 128) by (subst x; lia).
    apply (yields_bind (λ y, y = x)).
    + apply (yields_or_panic _ _ x); [|done]. unfold add_u, checked_add. replace (_ <? _) with true; [done|]. symmetry. apply Z.ltb_lt. fold x. lia.
    + intros y ->. by apply yields_ret.
  - intros h _. eapply yields_bind; [apply yields_24_hour|]. intros h24 _. destruct (_ && _); [|by apply yields_ret].
    pose proof (without_pm h) as Hp. eapply (yields_bind (λ _, True)); [|intros; by apply yields_ret].
    apply (yields_or_panic _ _ (Z.land h (not_u 8 CMOS_PM_BIT) + 12)); [|done].
    unfold add_u, checked_add. replace (_ <? _) with true; [done|]. symmetry. apply Z.ltb_lt. lia.
Qed.

Lemma yields_date_time : yields (λ _, True) read_date_time.
Proof.
  eapply yields_bind; [apply yields_register|]. intros y Hy. eapply (yields_bind (λ _, True)).
  { apply (yields_or_panic _ _ (CMOS_YEARS_OFFSET + y)); [|done]. unfold add_u, checked_add, CMOS_YEARS_OFFSET, in_u in *.
    replace (_ <? _) with true; [done|]. symmetry. apply Z.ltb_lt. lia. }
  intros yr _. do 4 (eapply yields_bind; [apply yields_register|]; intros ? _). eapply yields_bind; [apply yields_hour|]. intros ? _. by apply yields_ret.
Qed.

Lemma yields_wait fuel : yields (λ _, True) (wait_for_update fuel).
Proof. induction fuel as [|fuel IH]; [done|]. cbn. eapply yields_bind; [apply yields_flag|]. intros x _. destruct (0 <? x); [done|by apply yields_ret]. Qed.

Lemma yields_rtc : yields (λ _, True) read_rtc.
Proof.
  unfold read_rtc. generalize 500%nat. intros r. induction r as [|r IH]; [by apply yields_ret|]. cbn [read_rtc_loop]. apply yields_get. intros s.
  eapply yields_bind; [apply yields_wait|]. intros _ _. eapply yields_bind; [apply yields_date_time|]. intros x _.
  eapply yields_bind; [apply yields_flag|]. intros fl _. destruct (0 <? fl); [done|].
  eapply yields_bind; [apply yields_date_time|]. intros y _. case_decide; [by apply yields_ret|done].
Qed.

(** C37 The real-time clock.  Whatever the host answers, reading the time does not
    abort.  A clock that keeps showing one time, in binary or BCD and in either hour
    format, is read within one round, and the timestamp is that of the time shown;
    except that in the twelve-hour format noon is read as midnight and midnight as
    noon. *)
Theorem rtc_time_exact `{TimeCrate} (fmt : Format) (d : DateTime) (n : nat) (s : Rtc) :
  valid_time d →
  (get_sys_time s).1 ≠ Panic ∧
  get_sys_time (steady fmt d (15 + n) None) =
    (Ok (m ← month_try_from (month d); date ← from_calendar_date (year d) m (day d);
         Some (86400 * date + (3600 * hour_read fmt (hour d) + 60 * minute d + second d))),
     steady fmt d n (Some (status_of_format fmt))) ∧
  (twentyfour fmt = true ∨ hour d mod 12 ≠ 0 → hour_read fmt (hour d) = hour d) ∧
  (twentyfour fmt = false → hour_read fmt 12 = 0 ∧ hour_read fmt 0 = 12).
Proof.
  intros Hd. split_and!.
  - assert (yields (λ _, True) get_sys_time) as Hy by (eapply yields_bind; [apply yields_rtc|]; intros ? _; by apply yields_ret).
    specialize (Hy s). by destruct (get_sys_time s) as [[]].
  - unfold get_sys_time. rewrite M_bind_eq, rtc_read by done. cbn. repeat f_equal. destruct (month_try_from (month d)) as [m|]; [|done]. cbn.
    destruct (from_calendar_date (year d) m (day d)) as [date|]; [|done]. cbn.
    assert (0 <= hour_read fmt (hour d) < 24) as Hh.
    { destruct Hd as (_ & _ & Hh & _). unfold hour_read. destruct (_ && _); [apply Z.mod_pos_bound; lia|done]. }
    destruct Hd as (Hs & Hm & _). replace (from_hms _ _ _) with (Some (3600 * hour_read fmt (hour d) + 60 * minute d + second d)); [done|].
    symmetry. apply from_hms_spec. lia.
  - unfold hour_read. intros [->|Hh]; [done|]. apply Z.eqb_neq in Hh. rewrite Hh. by rewrite andb_false_r.
  - intros Ht. unfold hour_read. by rewrite Ht.
Qed.

Module ClockSample.

(** A calendar in which every month has 31 days. *)
#[local, refine] Instance calendar : TimeCrate := {
  month_try_from m := if (1 <=? m) && (m <=? 12) then Some m else None;
  from_calendar_date y m d := Some (372 * (y - 1970) + 31 * (m - 1) + (d - 1));
  from_hms h m s := if (h <? 24) && (m <? 60) && (s <? 60) then Some (3600 * h + 60 * m + s) else None }.
Proof.
  intros h m s t. destruct (Z.ltb_spec h 24), (Z.ltb_spec m 60), (Z.ltb_spec s 60); cbn;
    (split; [intros E; try discriminate E; injection E as <-; repeat split; lia|intros (? & ? & ? & ->); lia || reflexivity]).
Defined.

Definition half_past_three : DateTime := mkDateTime 10 30 15 4 7 2025.

Lemma rtc_time_exact_witness :
  get_sys_time (steady (mkFormat false false) half_past_three 15 None) =
    (Ok (Some (86400 * (372 * 55 + 31 * 6 + 3) + 55810)), steady (mkFormat false false) half_past_three 0 (Some 0)) ∧
  hour_read (mkFormat false false) 12 = 0.
Proof.
  destruct (rtc_time_exact (mkFormat false false) half_past_three 0 (mkRtc [] None) ltac:(unfold valid_time; cbn; lia)) as (_ & E & _ & Hn).
  split; [exact E|]. exact (proj1 (Hn eq_refl)).
Defined.

End ClockSample.
