(* ===== verification/Crash.v ===== *)
(** * Crash: crash reports and the service notification

    src/migtd/src/driver/crash.rs, and the event flag of src/migtd/src/migration/
    event.rs.  CPUID, the page allocator and the interrupts are arguments. *)
From stdpp Require Import base tactics numbers option list list_numbers.
From S2P Require Import Prelude VirtQueue.
Local Open Scope Z_scope.

(** ** Guest crash registers (crash.rs) *)

Definition CPUID_HYPERV_VENDOR_MAX_FUNCTION : Z := 0x40000000.
Definition CPUID_HYPERV_FEATURE_ID : Z := 0x40000003.
Definition GUEST_CRASH_MSR_SUPPORT_BIT : Z := Z.shiftl 1 10.
Definition CRASH_NOTIFY_BIT : Z := 1.
Definition CRASH_MESSAGE_BIT : Z := Z.shiftl 1 1.
Definition MSR_CRASH_P0 : Z := 0x40000100.
Definition MSR_CRASH_P3 : Z := 0x40000103.
Definition MSR_CRASH_P4 : Z := 0x40000104.
Definition MSR_CRASH_CTL : Z := 0x40000105.

(** The flag, the registers in the order they were written, and the shared pages
    with a message. *)
Record CrashSt := mkCrashSt { GUEST_CRASH_MSR_SUPPORTED : bool; msr_writes : list (Z * Z); message_pages : list (Z * bytes) }.

Definition write_msr (r v : Z) (s : CrashSt) : CrashSt :=
  mkCrashSt (GUEST_CRASH_MSR_SUPPORTED s) (msr_writes s ++ [(r, v)]) (message_pages s).

(** [has_hypervisor] is [None] without the feature leaf; [max_function] is EAX of
    leaf 0x40000000 and [features] EDX of leaf 0x40000003. *)
Definition initialize_crash_msr_support (has_hypervisor : option bool) (max_function features : Z) (s : CrashSt) : CrashSt :=
  match has_hypervisor with
  | Some true =>
      if (CPUID_HYPERV_FEATURE_ID <? max_function) && negb (Z.land features GUEST_CRASH_MSR_SUPPORT_BIT =? 0)
      then mkCrashSt true (msr_writes s) (message_pages s) else s
  | _ => s
  end.

(** [page] is what [alloc_shared_pages] answers: an address and the old content. *)
Definition update_guest_crash_reg_report (page : option (Z * bytes)) (errorcode : Z) (crash_message : bytes) (s : CrashSt) : option CrashSt :=
  if GUEST_CRASH_MSR_SUPPORTED s then
    let s := write_msr MSR_CRASH_P0 errorcode s in
    if (0 <? lenz crash_message) && (lenz crash_message <? PAGE_SIZE) then
      match page with
      | None => Some (write_msr MSR_CRASH_CTL CRASH_NOTIFY_BIT s)
      | Some (addr, content) =>
          data_buffer ← write_at content 0 crash_message;
          let s := mkCrashSt (GUEST_CRASH_MSR_SUPPORTED s) (msr_writes s) (message_pages s ++ [(addr, data_buffer)]) in
          let s := write_msr MSR_CRASH_P4 (lenz crash_message) (write_msr MSR_CRASH_P3 addr s) in
          Some (write_msr MSR_CRASH_CTL (Z.lor CRASH_NOTIFY_BIT CRASH_MESSAGE_BIT) s)
      end
    else Some (write_msr MSR_CRASH_CTL CRASH_NOTIFY_BIT s)
  else Some s.

(** ** The service notification (event.rs) *)

(** The flag, and for every halt whether the interrupt that ended it was the
    service's. *)
Record Notification := mkNotification { VMCALL_SERVICE_FLAG : bool; interrupts : list bool }.

(** [enable_and_hlt()] with [vmcall_service_callback]. *)
Definition halt : M Notification (aerr unit) unit := λ s,
  match interrupts s with
  | [] => (Err Pending, s)
  | i :: l => (Ok tt, mkNotification (VMCALL_SERVICE_FLAG s || i) l)
  end.

(** [while !event_flag.load(..)]: a turn per interrupt. *)
Fixpoint notify_loop (fuel : nat) : M Notification (aerr unit) unit :=
  s ← getS;
  if VMCALL_SERVICE_FLAG s then mret tt
  else match fuel with
  | O => failM OutOfFuel
  | S fuel =>
      _ ← halt;
      s ← getS;
      if VMCALL_SERVICE_FLAG s then mret tt else notify_loop fuel
  end.

Definition wait_for_service : M Notification (aerr unit) unit :=
  s ← getS;
  _ ← notify_loop (S (length (interrupts s)));
  modifyS (λ s, mkNotification false (interrupts s)).

(** ** Lemmas *)

(** The control register is written last, with a message only if its address and
    size stand in the other registers and its bytes in the page. *)
Lemma crash_report_complete page errorcode msg s : GUEST_CRASH_MSR_SUPPORTED s = true →
  (∀ addr content, page = Some (addr, content) → lenz content = PAGE_SIZE) →
  ∃ s' pre ctl, update_guest_crash_reg_report page errorcode msg s = Some s' ∧
    msr_writes s' = msr_writes s ++ (MSR_CRASH_P0, errorcode) :: pre ++ [(MSR_CRASH_CTL, ctl)] ∧
    (pre = [] ∧ ctl = CRASH_NOTIFY_BIT ∧ message_pages s' = message_pages s ∨
     ∃ addr rest, pre = [(MSR_CRASH_P3, addr); (MSR_CRASH_P4, lenz msg)] ∧ ctl = 3 ∧ 0 < lenz msg < PAGE_SIZE ∧
       message_pages s' = message_pages s ++ [(addr, msg ++ rest)]).
Proof.
  intros Hs Hp. unfold update_guest_crash_reg_report. rewrite Hs.
  destruct ((0 <? lenz msg) && (lenz msg <? PAGE_SIZE)) eqn:El.
  - apply andb_true_iff in El as [H1%Z.ltb_lt H2%Z.ltb_lt]. destruct page as [[addr content]|].
    + specialize (Hp _ _ eq_refl). rewrite write_at_Some by lia. eexists _, [_; _], _. split; [done|]. split.
      { cbn. by rewrite <-!app_assoc. }
      right. exists addr, (drop (Z.to_nat 0 + length msg) content). split_and!; try done; lia.
    + eexists _, [], _. split; [done|]. split; [cbn; by rewrite <-!app_assoc|]. by left.
  - eexists _, [], _. split; [done|]. split; [cbn; by rewrite <-!app_assoc|]. by left.
Qed.

(** Waiting ends with the first service interrupt and takes the notification. *)
Lemma notify_loop_spec fuel s : (length (interrupts s) < fuel)%nat →
  match notify_loop fuel s with
  | (Ok _, s') => ∃ before, Forall (.= false) before ∧ (VMCALL_SERVICE_FLAG s = true ∧ before = [] ∧ s' = s ∨
      VMCALL_SERVICE_FLAG s = false ∧ interrupts s = before ++ true :: interrupts s')
  | (Err e, _) => e = Pending ∧ VMCALL_SERVICE_FLAG s = false ∧ Forall (.= false) (interrupts s)
  | (Panic, _) => False
  end.
Proof.
  revert s. induction fuel as [|fuel IH]; intros s Hl; [lia|]. cbn [notify_loop]. rewrite getS_bind. destruct (VMCALL_SERVICE_FLAG s) eqn:Ef.
  { cbn. exists []. split; [constructor|by left]. }
  rewrite M_bind_eq. unfold halt. destruct (interrupts s) as [|i l] eqn:Ei; [by split_and!|]. rewrite getS_bind, Ef. cbn [orb VMCALL_SERVICE_FLAG].
  destruct i; [cbn; exists []; split; [constructor|by right]|]. specialize (IH (mkNotification false l)). cbn [interrupts VMCALL_SERVICE_FLAG] in IH.
  destruct (notify_loop fuel (mkNotification false l)) as [[[]|e|] s'].
  - destruct IH as (before & Hb & [[? _]|[_ ->]]); [cbn in Hl; lia|done|]. exists (false :: before). split; [by constructor|]. by right.
  - destruct IH as (-> & _ & Hb); [cbn in Hl; lia|]. split_and!; [done|done|by constructor].
  - apply IH. cbn in Hl. lia.
Qed.

Lemma wait_for_service_spec s : match wait_for_service s with
  | (Ok _, s') => VMCALL_SERVICE_FLAG s' = false ∧ (VMCALL_SERVICE_FLAG s = true ∨ ∃ before, interrupts s = before ++ true :: interrupts s')
  | (Err e, _) => e = Pending ∧ VMCALL_SERVICE_FLAG s = false ∧ Forall (.= false) (interrupts s)
  | (Panic, _) => False
  end.
Proof.
  unfold wait_for_service. rewrite getS_bind, M_bind_eq. pose proof (notify_loop_spec (S (length (interrupts s))) s ltac:(lia)) as Hw.
  destruct (notify_loop _ s) as [[[]|e|] s']; [|done|done]. cbn. split; [done|]. destruct Hw as (before & _ & [[? _]|[_ ?]]); eauto.
Qed.
