(* ===== verification/EmuLog.v ===== *)
(** * EmuLog: the reader of the log areas in the emulator

    deps/td-shim-AzCVMEmu/tdx-tdcall/src/logging_emu.rs: the part of the emulated
    VMM that takes the log areas over from the answer to an EnableLogArea request
    and prints the records it has not printed yet.  The memory of the process is
    a function from addresses to pages; a printed line is kept with the values it
    is formatted from, not as text. *)
From stdpp Require Import base tactics numbers option strings list list_numbers.
From S2P Require Import Prelude.
Local Open Scope Z_scope.

#[local] Notation bytes := (list Z).

Definition EMU_PAGE_SIZE : Z := 0x1000.
Definition LOG_ENTRY_HEADER_SIZE : Z := 24.
Definition LOG_AREA_BUFFER_HEADER_SIZE : Z := 40.

Definition EMU_LOGAREA_SIGNATURE : bytes :=
  [0x4d; 0x69; 0x67; 0x54; 0x44; 0x20; 0x4c; 0x6f; 0x67; 0x41; 0x72; 0x65; 0x61; 0x20; 0x31; 0x00].

(** The fields of [LogEntryHeader] that the reader uses. *)
Record LogEntryHeader := mkEntryHeader { le_id : Z; le_request : Z; le_level : Z; le_length : Z }.

(** The values of a printed line. *)
Record LogLine := mkLine { ll_vcpu : Z; ll_id : Z; ll_request : Z; ll_level : string; ll_message : bytes }.

Record VcpuLogState := mkVcpuLog { buffer_addr : Z; last_read_offset : Z }.

(** [lm_opens] and [lm_writes] are the answers of the file system: whether the
    file can be opened, whether a line can be written ([[]]: yes).  [lm_output] are
    the lines, [true] for those in the file and [false] for those on stdout. *)
Record LogAreaManager := mkManager {
  vcpu_states : list VcpuLogState;
  log_file_path : bool;
  log_file_handle : bool;
  lm_opens : list bool;
  lm_writes : list bool;
  lm_output : list (bool * LogLine) }.

Definition set_vcpus (v : list VcpuLogState) (m : LogAreaManager) : LogAreaManager :=
  mkManager v (log_file_path m) (log_file_handle m) (lm_opens m) (lm_writes m) (lm_output m).

(** [path] is whether MIGTD_LOG_FILE is set. *)
Definition LogAreaManager_new (path : bool) (opens writes : list bool) : LogAreaManager :=
  mkManager [] path false opens writes [].

Definition answer (l : list bool) : bool := match l with b :: _ => b | [] => true end.

(** ** Printing *)

Definition level_str (loglevel : Z) : string :=
  match loglevel with
  | 1 => "ERROR" | 2 => "WARN" | 3 => "INFO" | 4 => "DEBUG" | 5 => "TRACE" | _ => "UNKNOWN"
  end%string.

Definition write_log_entry (vcpu_idx : Z) (h : LogEntryHeader) (message : bytes) (m : LogAreaManager) : LogAreaManager :=
  let line := mkLine vcpu_idx (le_id h) (le_request h) (level_str (le_level h)) message in
  if log_file_handle m then
    let ok := answer (lm_writes m) in
    mkManager (vcpu_states m) (log_file_path m) ok (lm_opens m) (tail (lm_writes m)) (lm_output m ++ [(ok, line)])
  else mkManager (vcpu_states m) (log_file_path m) false (lm_opens m) (lm_writes m) (lm_output m ++ [(false, line)]).

(** ** Reading *)

Notation LM := (M LogAreaManager (aerr unit)).

(** [transmute_ref!] of the 24 bytes of a header *)
Definition entry_header_of (h : bytes) : LM LogEntryHeader :=
  id ← or_panic (slice h 0 8);
  req ← or_panic (slice h 8 16);
  lvl ← or_panic (nthz h 16);
  len ← or_panic (slice h 20 24);
  mret (mkEntryHeader (le_val id) (le_val req) lvl (le_val len)).

(** An entry is longer than its header, so one turn per byte is enough. *)
Fixpoint process_loop (fuel : nat) (vcpu_idx : Z) (buffer : bytes) (offset end_ : Z) : LM unit :=
  if offset + LOG_ENTRY_HEADER_SIZE <=? end_ then
    match fuel with
    | O => failM OutOfFuel
    | S fuel =>
        hb ← or_panic (slice buffer offset (offset + LOG_ENTRY_HEADER_SIZE));
        h ← entry_header_of hb;
        if (le_length h =? 0) || (le_id h =? 0) then mret tt
        else
          let msg_start := offset + LOG_ENTRY_HEADER_SIZE in
          let msg_end := msg_start + le_length h in
          if end_ <? msg_end then mret tt
          else
            message ← or_panic (slice buffer msg_start msg_end);
            _ ← modifyS (write_log_entry vcpu_idx h message);
            process_loop fuel vcpu_idx buffer msg_end end_
    end
  else mret tt.

Definition process_entries (vcpu_idx : Z) (buffer : bytes) (start end_ : Z) : LM unit :=
  process_loop (Z.to_nat (end_ - start)) vcpu_idx buffer start end_.

Section reader.
(** The page at an address. *)
Context (mem : Z → bytes).

Definition read_vcpu_log_entries_inner (vcpu_idx addr last : Z) : LM Z :=
  if addr =? 0 then mret last
  else
    let buffer := fit EMU_PAGE_SIZE (mem addr) in
    sig ← or_panic (slice buffer 0 16);
    if negb (bool_decide (sig = EMU_LOGAREA_SIGNATURE)) then mret last
    else
      s ← or_panic (slice buffer 24 32);
      e ← or_panic (slice buffer 32 40);
      let start_offset := le_val s in
      let end_offset := le_val e in
      if (start_offset <? LOG_AREA_BUFFER_HEADER_SIZE) || (EMU_PAGE_SIZE <=? start_offset)
         || (end_offset <? LOG_AREA_BUFFER_HEADER_SIZE) || (EMU_PAGE_SIZE <? end_offset) then mret last
      else if last =? end_offset then mret last
      else
        current_offset ← (if end_offset <? last then
                            _ ← process_entries vcpu_idx buffer last EMU_PAGE_SIZE;
                            mret LOG_AREA_BUFFER_HEADER_SIZE
                          else mret last);
        _ ← (if current_offset <? end_offset then process_entries vcpu_idx buffer current_offset end_offset else mret tt);
        mret end_offset.

Fixpoint read_loop (vcpu_idx : Z) (count : nat) : LM unit :=
  match count with
  | O => mret tt
  | S count =>
      m ← getS;
      st ← or_panic (nthz (vcpu_states m) vcpu_idx);
      new_offset ← read_vcpu_log_entries_inner vcpu_idx (buffer_addr st) (last_read_offset st);
      m ← getS;
      states ← or_panic (alterz (λ st, mkVcpuLog (buffer_addr st) new_offset) vcpu_idx (vcpu_states m));
      _ ← modifyS (set_vcpus states);
      read_loop (vcpu_idx + 1) count
  end.

Definition read_log_entries : LM unit := m ← getS; read_loop 0 (length (vcpu_states m)).
End reader.

(** ** Taking the areas over *)

Fixpoint initialize_loop (response_data : bytes) (i : Z) (count : nat) : LM unit :=
  match count with
  | O => mret tt
  | S count =>
      let offset := 8 + i * 16 in
      a ← or_panic (slice response_data offset (offset + 8));
      _ ← or_panic (slice response_data (offset + 8) (offset + 16));
      _ ← modifyS (λ m, set_vcpus (vcpu_states m ++ [mkVcpuLog (le_val a) LOG_AREA_BUFFER_HEADER_SIZE]) m);
      initialize_loop response_data (i + 1) count
  end.

(** The file is created or emptied, if a path is configured. *)
Definition open_log_file (m : LogAreaManager) : LogAreaManager :=
  if log_file_path m then
    let ok := answer (lm_opens m) in
    mkManager (vcpu_states m) true ok (tail (lm_opens m)) (lm_writes m)
      (if ok then filter (λ l, l.1 = false) (lm_output m) else lm_output m)
  else m.

Definition initialize (response_data : bytes) : LM unit :=
  if lenz response_data <? 8 then mret tt
  else
    n ← or_panic (slice response_data 0 4);
    let num_vcpus := le_val n in
    _ ← modifyS open_log_file;
    _ ← modifyS (set_vcpus []);
    let expected_len := 8 + num_vcpus * 16 in
    if lenz response_data <? expected_len then mret tt
    else initialize_loop response_data 0 (Z.to_nat num_vcpus).
