(* ===== verification/EmuLogSpec.v ===== *)
(** * EmuLogSpec: the emulated VMM prints what the migration TD logs

    The reader of the log areas (EmuLog) against the writer (Logging): the reader
    never aborts, whatever is in the pages, and as long as it is called often
    enough it prints every record exactly once and in order. *)
From stdpp Require Import base tactics numbers option strings list list_numbers.
From S2P Require Import Prelude MigData Logging LoggingSpec EmuLog.
Local Open Scope Z_scope.

#[local] Notation bytes := (list Z).

(** ** Totality *)

(** What a run of the reader leaves alone. *)
Definition same_reader (m m' : LogAreaManager) : Prop :=
  vcpu_states m' = vcpu_states m ∧ log_file_path m' = log_file_path m.

#[global] Instance same_reader_preorder : PreOrder same_reader.
Proof. split; [done|]. intros a b c [] []. split; congruence. Qed.

Lemma write_log_entry_same i h msg m : same_reader m (write_log_entry i h msg m).
Proof. unfold write_log_entry. by destruct (log_file_handle m). Qed.

Lemma entry_header_of_total hb m : bytes_ok hb → lenz hb = LOG_ENTRY_HEADER_SIZE →
  ∃ h, entry_header_of hb m = (Ok h, m) ∧ 0 <= le_length h.
Proof.
  unfold LOG_ENTRY_HEADER_SIZE. intros Hok Hl. unfold entry_header_of.
  destruct (slice_is_Some hb 0 8) as [a Ha]; [lia..|]. destruct (slice_is_Some hb 8 16) as [b Hb]; [lia..|].
  destruct (nthz_is_Some hb 16) as [c Hc]; [lia|]. destruct (slice_is_Some hb 20 24) as [d Hd]; [lia..|].
  rewrite Ha, Hb, Hc, Hd. mrun. eexists. split; [done|]. cbn. apply le_val_range. by eapply slice_bytes_ok.
Qed.

Lemma process_loop_total fuel i buffer offset end_ m : bytes_ok buffer →
  0 <= offset → end_ <= lenz buffer → end_ - offset <= Z.of_nat fuel →
  ∃ m', process_loop fuel i buffer offset end_ m = (Ok tt, m') ∧ same_reader m m'.
Proof.
  intros Hok. revert offset m. induction fuel as [|fuel IH]; intros offset m H0 He Hf; cbn [process_loop];
    (destruct (Z.leb_spec (offset + LOG_ENTRY_HEADER_SIZE) end_) as [Hle|]; [|by exists m]); unfold LOG_ENTRY_HEADER_SIZE in *; [lia|].
  destruct (slice_is_Some buffer offset (offset + 24)) as [hb Hhb]; [lia..|]. rewrite Hhb, or_panic_bind.
  destruct (entry_header_of_total hb m) as (h & Hh & Hp);
    [by eapply slice_bytes_ok|apply slice_Some_len in Hhb; unfold LOG_ENTRY_HEADER_SIZE; lia|].
  rewrite (M_bind_Ok _ _ _ _ _ Hh). destruct ((le_length h =? 0) || (le_id h =? 0)); [by exists m|].
  destruct (Z.ltb_spec end_ (offset + 24 + le_length h)); [by exists m|]. rewrite or_panic_bind.
  destruct (slice_is_Some buffer (offset + 24) (offset + 24 + le_length h)) as [msg ->]; [lia..|]. rewrite modifyS_bind.
  destruct (IH (offset + 24 + le_length h) (write_log_entry i h msg m)) as (m' & Hm' & Hs); [lia..|].
  exists m'. split; [done|]. etrans; [apply write_log_entry_same|done].
Qed.

Lemma process_entries_total i buffer start end_ m : bytes_ok buffer → 0 <= start → end_ <= lenz buffer →
  ∃ m', process_entries i buffer start end_ m = (Ok tt, m') ∧ same_reader m m'.
Proof. intros. apply process_loop_total; try done. lia. Qed.

Section totality.
Context (mem : Z → bytes) (Hmem : ∀ a, bytes_ok (mem a)).

Lemma read_inner_total i addr last m : 0 <= last →
  ∃ last' m', read_vcpu_log_entries_inner mem i addr last m = (Ok last', m') ∧ same_reader m m' ∧ 0 <= last'.
Proof.
  intros H0. unfold read_vcpu_log_entries_inner. destruct (addr =? 0); [by exists last, m|].
  set (b := fit EMU_PAGE_SIZE (mem addr)). assert (lenz b = EMU_PAGE_SIZE) as Hb by (by apply lenz_fit).
  assert (bytes_ok b) as Hok by (by apply fit_bytes_ok). unfold EMU_PAGE_SIZE, LOG_AREA_BUFFER_HEADER_SIZE in *.
  destruct (slice_is_Some b 0 16) as [sg ->]; [lia..|]. rewrite or_panic_bind. destruct (negb _); [by exists last, m|].
  destruct (slice_is_Some b 24 32) as [s ->]; [lia..|]. rewrite or_panic_bind.
  destruct (slice_is_Some b 32 40) as [e ->]; [lia..|]. rewrite or_panic_bind.
  destruct (_ || _ || _ || _) eqn:Ev; [by exists last, m|]. apply orb_false_iff in Ev as [[Ev E3%Z.ltb_ge]%orb_false_iff E4%Z.ltb_ge].
  destruct (last =? le_val e); [by exists last, m|]. rewrite M_bind_eq.
  assert (∀ cur m1, same_reader m m1 → 0 <= cur → ∃ last' m',
    (_ ← (if cur <? le_val e then process_entries i b cur (le_val e) else mret tt); mret (le_val e)) m1 = (Ok last', m') ∧
      same_reader m m' ∧ 0 <= last') as Hrest.
  { intros cur m1 Hs Hc. rewrite M_bind_eq. destruct (cur <? le_val e).
    - destruct (process_entries_total i b cur (le_val e) m1) as (m' & -> & Hs'); [done|lia|lia|].
      eexists _, m'. split; [done|]. split; [by etrans|lia].
    - eexists _, m1. split; [done|]. split; [done|lia]. }
  destruct (le_val e <? last); [|apply Hrest; [done|lia]].
  rewrite M_bind_eq. destruct (process_entries_total i b last 0x1000 m) as (m1 & -> & Hs); [done|lia|lia|].
  apply Hrest; [done|lia].
Qed.

(** The offsets of a reader are not negative. *)
Definition reader_ok (m : LogAreaManager) : Prop := Forall (λ st, 0 <= last_read_offset st) (vcpu_states m).

Lemma read_loop_total count i m : 0 <= i → i + Z.of_nat count <= lenz (vcpu_states m) → reader_ok m →
  ∃ m', read_loop mem i count m = (Ok tt, m') ∧ reader_ok m' ∧ lenz (vcpu_states m') = lenz (vcpu_states m).
Proof.
  revert i m. induction count as [|count IH]; intros i m Hi Hc Hok; cbn [read_loop]; [by exists m|].
  rewrite getS_bind. destruct (nthz_is_Some (vcpu_states m) i) as [st Hst]; [lia|]. rewrite Hst, or_panic_bind.
  assert (0 <= last_read_offset st) as Hl.
  { unfold nthz in Hst. rewrite (proj2 (Z.leb_le _ _)) in Hst by lia. exact (Forall_lookup_1 _ _ _ _ Hok Hst). }
  destruct (read_inner_total i (buffer_addr st) (last_read_offset st) m Hl) as (last' & m1 & E & [Hs _] & Hl').
  rewrite (M_bind_Ok _ _ _ _ _ E), getS_bind, Hs, (alterz_Some _ _ _ _ Hst), or_panic_bind, modifyS_bind.
  destruct (IH (i + 1) (set_vcpus (<[Z.to_nat i := mkVcpuLog (buffer_addr st) last']> (vcpu_states m)) m1)) as (m' & E' & Ho & Hn).
  - lia.
  - cbn. rewrite lenz_insert. lia.
  - unfold reader_ok. cbn. by apply Forall_insert.
  - exists m'. rewrite E', Hn. cbn. by rewrite lenz_insert.
Qed.

Lemma read_log_entries_total m : reader_ok m →
  ∃ m', read_log_entries mem m = (Ok tt, m') ∧ reader_ok m' ∧ lenz (vcpu_states m') = lenz (vcpu_states m).
Proof. intros Hok. apply read_loop_total; [lia|unfold lenz; lia|done]. Qed.
End totality.

(** ** What is printed *)

Definition line_of (i : Z) (e : entry) : LogLine := mkLine i (en_id e) (en_request e) (level_str (en_level e)) (en_msg e).

Definition printed (m : LogAreaManager) : list LogLine := (lm_output m).*2.

(** The records the migration TD writes have an identifier and end in a newline. *)
Definition loud (e : entry) : Prop := entry_ok e ∧ en_id e ≠ 0 ∧ en_msg e ≠ [].

Definition print_entry (i : Z) (m : LogAreaManager) (e : entry) : LogAreaManager :=
  write_log_entry i (mkEntryHeader (en_id e) (en_request e) (en_level e) (lenz (en_msg e))) (en_msg e) m.

Lemma printed_entry i m e : printed (print_entry i m e) = printed m ++ [line_of i e].
Proof. unfold print_entry, write_log_entry, printed. destruct (log_file_handle m); cbn; by rewrite fmap_app. Qed.

Lemma printed_entries i es m : printed (foldl (print_entry i) m es) = printed m ++ (line_of i <$> es).
Proof.
  revert m. induction es as [|e es IH]; intros m; cbn [foldl fmap list_fmap]; [by rewrite app_nil_r|].
  by rewrite IH, printed_entry, <-app_assoc.
Qed.

Lemma process_entry e fuel i pre post end_ m : loud e → lenz pre + lenz (enc e) <= end_ →
  process_loop (S fuel) i (pre ++ enc e ++ post) (lenz pre) end_ m =
  process_loop fuel i (pre ++ enc e ++ post) (lenz pre + lenz (enc e)) end_ (print_entry i m e).
Proof.
  intros ((Hi & Hr & Hm) & Hid & Hne) He. rewrite lenz_enc in He |- *. pose proof (lenz_nonneg (en_msg e)) as Hm0.
  assert (lenz (en_msg e) ≠ 0) as Hl by (destruct (en_msg e); [done|rewrite lenz_cons in *; pose proof (lenz_nonneg l); lia]).
  cbn [process_loop]. rewrite (proj2 (Z.leb_le _ _)) by (unfold LOG_ENTRY_HEADER_SIZE, LOGENTRYHEADERSIZE in *; lia).
  set (h := entry_header (en_id e) (en_request e) (en_level e) (lenz (en_msg e))).
  assert (enc e = h ++ en_msg e) as Ee by done. rewrite Ee, <-app_assoc.
  rewrite (slice_app pre h) by (unfold h; rewrite ?lenz_entry_header; done). rewrite or_panic_bind.
  assert (entry_header_of h m = (Ok (mkEntryHeader (en_id e) (en_request e) (en_level e) (lenz (en_msg e))), m)) as Hh.
  { unfold entry_header_of. assert (in_u 32 (lenz (en_msg e))) as Hu by (unfold in_u; sizes).
    destruct (entry_header_fields (en_id e) (en_request e) (en_level e) (lenz (en_msg e)) Hi Hr Hu) as (E1 & E2 & E3 & E4). fold h in E1, E2, E3, E4.
    assert (lenz h = 24) as Hlh by apply lenz_entry_header. unfold slice. rewrite Hlh. cbn [andb Z.leb Z.compare Pos.compare Pos.compare_cont]. rewrite E3. mrun.
    change (take (Z.to_nat (8 - 0)) (drop (Z.to_nat 0) h)) with (take 8 h).
    change (take (Z.to_nat (16 - 8)) (drop (Z.to_nat 8) h)) with (take 8 (drop 8 h)).
    change (take (Z.to_nat (24 - 20)) (drop (Z.to_nat 20) h)) with (take 4 (drop 20 h)). by rewrite E1, E2, E4. }
  rewrite (M_bind_Ok _ _ _ _ _ Hh). cbn [le_length le_id].
  rewrite (proj2 (Z.eqb_neq _ _) Hl), (proj2 (Z.eqb_neq _ _) Hid). cbn [orb].
  rewrite (proj2 (Z.ltb_ge _ _)) by (unfold LOG_ENTRY_HEADER_SIZE, LOGENTRYHEADERSIZE in *; lia).
  rewrite (app_assoc pre h), (slice_app (pre ++ h) (en_msg e)) by (unfold h; rewrite ?lenz_app, ?lenz_entry_header; done).
  rewrite or_panic_bind, modifyS_bind. unfold LOG_ENTRY_HEADER_SIZE, LOGENTRYHEADERSIZE. by rewrite Z.add_assoc.
Qed.

Lemma process_entries_all es fuel i pre post end_ m : Forall loud es → lenz pre + lenz (enc_all es) <= end_ →
  process_loop (length es + fuel) i (pre ++ enc_all es ++ post) (lenz pre) end_ m =
  process_loop fuel i (pre ++ enc_all es ++ post) (lenz pre + lenz (enc_all es)) end_ (foldl (print_entry i) m es).
Proof.
  revert pre m. induction es as [|e es IH]; intros pre m Hok He; cbn [foldl length Nat.add].
  { change (enc_all []) with (@nil Z). by rewrite Z.add_0_r. }
  apply Forall_cons in Hok as [He1 Hok]. change (e :: es) with ([e] ++ es) in *. rewrite enc_all_app, enc_all_one in *.
  rewrite lenz_app in He. pose proof (lenz_nonneg (enc_all es)). rewrite <-app_assoc, process_entry by (done || lia).
  rewrite (app_assoc pre), <-lenz_app. rewrite IH by (rewrite ?lenz_app; done || lia). by rewrite !lenz_app, Z.add_assoc.
Qed.

(** The reader stops at the end, and at cleared bytes. *)
Lemma process_zeros fuel i (pre : bytes) k m : 0 <= k → k < LOG_ENTRY_HEADER_SIZE ∨ (0 < fuel)%nat →
  process_loop fuel i (pre ++ zeros k) (lenz pre) (lenz pre + k) m = (Ok tt, m).
Proof.
  intros Hk Hf. destruct fuel as [|fuel]; cbn [process_loop];
    (destruct (Z.leb_spec (lenz pre + LOG_ENTRY_HEADER_SIZE) (lenz pre + k)); [|done]); unfold LOG_ENTRY_HEADER_SIZE in *; [lia|].
  replace (zeros k) with (zeros 24 ++ zeros (k - 24)) by (rewrite <-zeros_add by lia; f_equal; lia).
  rewrite (slice_app pre (zeros 24)) by done. rewrite or_panic_bind.
  assert (entry_header_of (zeros 24) m = (Ok (mkEntryHeader 0 0 0 0), m)) as Hh by reflexivity.
  by rewrite (M_bind_Ok _ _ _ _ _ Hh).
Qed.

(** A run over entries followed by cleared bytes. *)
Lemma process_records es i (pre post : bytes) k m : Forall loud es → 0 <= k → (k = 0 ∨ post = zeros k) →
  process_entries i (pre ++ enc_all es ++ post) (lenz pre) (lenz pre + lenz (enc_all es) + k) m =
    (Ok tt, foldl (print_entry i) m es).
Proof.
  intros Hok Hk Hpost. unfold process_entries. pose proof (enc_all_length es) as Hl. pose proof (lenz_nonneg (enc_all es)) as H0.
  set (n := Z.to_nat _). assert (n = (length es + (n - length es))%nat) as -> by (unfold n, lenz in *; lia).
  rewrite process_entries_all by (done || lia). rewrite app_assoc, <-lenz_app.
  destruct Hpost as [->|Hpost].
  - destruct (n - length es)%nat; cbn [process_loop]; (rewrite (proj2 (Z.leb_gt _ _)); [done|unfold LOG_ENTRY_HEADER_SIZE; lia]).
  - rewrite Hpost. apply process_zeros; [done|]. destruct (Z.lt_ge_cases k LOG_ENTRY_HEADER_SIZE); [by left|right].
    unfold n, lenz, LOG_ENTRY_HEADER_SIZE in *. lia.
Qed.

(** ** A page and its reader *)

(** The offsets as the reader finds them. *)
Lemma read_inner_page i v e t addr last m : addr ≠ 0 → lenz (area_header v LOGAREABUFFERHEADERSIZE e ++ t) = LOG_PAGE_SIZE →
  LOGAREABUFFERHEADERSIZE <= e <= LOG_PAGE_SIZE → let p := area_header v LOGAREABUFFERHEADERSIZE e ++ t in
  read_vcpu_log_entries_inner (λ _, p) i addr last m =
    if last =? e then (Ok last, m)
    else (cur ← (if e <? last then _ ← process_entries i p last LOG_PAGE_SIZE; mret LOGAREABUFFERHEADERSIZE else mret last);
          _ ← (if cur <? e then process_entries i p cur e else mret tt);
          mret e) m.
Proof.
  intros Ha Hl He p. unfold read_vcpu_log_entries_inner. rewrite (proj2 (Z.eqb_neq _ _) Ha).
  assert (fit EMU_PAGE_SIZE p = p) as ->.
  { unfold fit. change EMU_PAGE_SIZE with LOG_PAGE_SIZE. rewrite <-Hl. fold p. by rewrite to_nat_lenz, take_app_length. }
  assert (slice p 0 16 = Some EMU_LOGAREA_SIGNATURE) as ->.
  { unfold p, area_header. rewrite <-!app_assoc. by apply (slice_app [] LOGAREA_SIGNATURE). }
  rewrite or_panic_bind, bool_decide_true by done. cbn [negb]. unfold p. rewrite start_at, or_panic_bind, end_at, or_panic_bind. fold p.
  rewrite (le_val_u 8 LOGAREABUFFERHEADERSIZE), (le_val_u 8 e) by (done || (unfold in_u; sizes)).
  unfold EMU_PAGE_SIZE, LOG_AREA_BUFFER_HEADER_SIZE.
  rewrite (proj2 (Z.ltb_ge e 40)), (proj2 (Z.ltb_ge 0x1000 e)) by sizes. cbn [orb].
  by destruct (last =? e).
Qed.

Lemma enc_all_empty es : lenz (enc_all es) <= 0 → es = [].
Proof.
  destruct es as [|x es]; [done|]. change (x :: es) with ([x] ++ es). rewrite enc_all_app, enc_all_one, lenz_app, lenz_enc.
  pose proof (lenz_nonneg (enc_all es)). pose proof (lenz_nonneg (en_msg x)). sizes.
Qed.

(** The end offset of a page. *)
Definition page_end (p : bytes) : Z := match slice p 32 40 with Some e => le_val e | None => 0 end.

Lemma page_end_header v e t : LOGAREABUFFERHEADERSIZE <= e <= LOG_PAGE_SIZE → page_end (area_header v LOGAREABUFFERHEADERSIZE e ++ t) = e.
Proof. intros He. unfold page_end. rewrite end_at, (le_val_u 8); [done|]. unfold in_u. sizes. Qed.

(** What a reader at [last] has before it: the entries [q].  While the writer is
    ahead they lie between [last] and the end of the entries; once it has started
    over they are those from [last] on, which the writer has not reached, and then
    those from the start. *)
Definition ahead (v : Z) (p : bytes) (last : Z) (q : list entry) : Prop :=
  ∃ a rest, last = LOGAREABUFFERHEADERSIZE + lenz (enc_all a) ∧
    p = area_header v LOGAREABUFFERHEADERSIZE (LOGAREABUFFERHEADERSIZE + lenz (enc_all (a ++ q))) ++ enc_all (a ++ q) ++ rest.

Definition around (v : Z) (p : bytes) (last : Z) (q : list entry) : Prop :=
  ∃ b mid q1 k, q = q1 ++ b ∧ 0 <= k ∧ 0 < lenz mid ∧ last = LOGAREABUFFERHEADERSIZE + lenz (enc_all b) + lenz mid ∧
    p = area_header v LOGAREABUFFERHEADERSIZE (LOGAREABUFFERHEADERSIZE + lenz (enc_all b)) ++ enc_all b ++ mid ++ enc_all q1 ++ zeros k.

Definition unread (v : Z) (p : bytes) (last : Z) (wrapped : bool) (q : list entry) : Prop :=
  lenz p = LOG_PAGE_SIZE ∧ Forall loud q ∧ if wrapped then around v p last q else ahead v p last q.

(** What a run of the reader does. *)
Definition polled (v : Z) (p : bytes) (i addr last : Z) (m : LogAreaManager) (q : list entry) : Prop :=
  ∃ last' m', read_vcpu_log_entries_inner (λ _, p) i addr last m = (Ok last', m') ∧ unread v p last' false [] ∧
    last' = page_end p ∧ printed m' = printed m ++ (line_of i <$> q).

Lemma poll_around v p last q i addr m : addr ≠ 0 → lenz p = LOG_PAGE_SIZE → Forall loud q → around v p last q →
  polled v p i addr last m q.
Proof.
  intros Ha Hl Hq (b & mid & q1 & k & -> & Hk & Hmid & -> & ->). apply Forall_app in Hq as [Hq1 Hb].
  pose proof (lenz_nonneg (enc_all b)). pose proof (lenz_nonneg (enc_all q1)).
  set (e := LOGAREABUFFERHEADERSIZE + lenz (enc_all b)) in *. set (h := area_header v LOGAREABUFFERHEADERSIZE e) in *.
  assert (lenz h = LOGAREABUFFERHEADERSIZE) as Hh by apply lenz_area_header.
  assert (e + lenz mid + lenz (enc_all q1) + k = LOG_PAGE_SIZE) as Hsum.
  { rewrite !lenz_app, lenz_zeros, Hh in Hl by done. unfold e. lia. }
  set (p := h ++ enc_all b ++ mid ++ enc_all q1 ++ zeros k) in *.
  pose proof (process_records q1 i (h ++ enc_all b ++ mid) (zeros k) k m Hq1 Hk (or_intror eq_refl)) as E1.
  rewrite <-!app_assoc, !lenz_app, Hh, !Z.add_assoc in E1. fold p e in E1. rewrite Hsum in E1.
  pose proof (process_records b i h (mid ++ enc_all q1 ++ zeros k) 0 (foldl (print_entry i) m q1) Hb ltac:(lia) (or_introl eq_refl)) as E2.
  rewrite Hh, Z.add_0_r in E2. fold p e in E2.
  exists e, (foldl (print_entry i) (foldl (print_entry i) m q1) b). split_and!.
  - pose proof (read_inner_page i v e (enc_all b ++ mid ++ enc_all q1 ++ zeros k) addr (e + lenz mid) m Ha Hl ltac:(unfold e in *; sizes)) as E.
    fold h p in E. cbv zeta in E. rewrite E, (proj2 (Z.eqb_neq (e + lenz mid) e)), (proj2 (Z.ltb_lt e (e + lenz mid))) by lia.
    rewrite M_bind_eq, M_bind_eq, E1. unfold mret at 1, M_ret. rewrite M_bind_eq.
    destruct (Z.ltb_spec LOGAREABUFFERHEADERSIZE e) as [|Hge]; [by rewrite E2|].
    rewrite (enc_all_empty b) by (unfold e in Hge; lia). done.
  - split; [done|]. split; [done|]. exists b, (mid ++ enc_all q1 ++ zeros k). by rewrite app_nil_r.
  - symmetry. apply page_end_header. unfold e in *. sizes.
  - by rewrite !printed_entries, fmap_app, <-app_assoc.
Qed.

Lemma poll_ahead v p last q i addr m : addr ≠ 0 → lenz p = LOG_PAGE_SIZE → Forall loud q → ahead v p last q →
  polled v p i addr last m q.
Proof.
  intros Ha Hl Hq (a & rest & -> & ->). pose proof (lenz_nonneg (enc_all a)). pose proof (lenz_nonneg (enc_all q)). pose proof (lenz_nonneg rest).
  set (e := LOGAREABUFFERHEADERSIZE + lenz (enc_all (a ++ q))) in *. set (h := area_header v LOGAREABUFFERHEADERSIZE e) in *.
  assert (lenz h = LOGAREABUFFERHEADERSIZE) as Hh by apply lenz_area_header.
  assert (e = LOGAREABUFFERHEADERSIZE + lenz (enc_all a) + lenz (enc_all q)) as Ee by (unfold e; rewrite enc_all_app, lenz_app; lia).
  assert (LOGAREABUFFERHEADERSIZE <= e <= LOG_PAGE_SIZE) as He by (rewrite !lenz_app, Hh in Hl; unfold e in *; lia).
  set (p := h ++ enc_all (a ++ q) ++ rest) in *.
  assert (unread v p e false []) as Hu by (split; [done|]; split; [done|]; exists (a ++ q), rest; by rewrite app_nil_r).
  pose proof (read_inner_page i v e (enc_all (a ++ q) ++ rest) addr (LOGAREABUFFERHEADERSIZE + lenz (enc_all a)) m Ha Hl He) as E.
  fold h p in E. cbv zeta in E. exists e, (foldl (print_entry i) m q). split_and!; [|done|symmetry; by apply page_end_header|by rewrite printed_entries].
  rewrite E. destruct (Z.eqb_spec (LOGAREABUFFERHEADERSIZE + lenz (enc_all a)) e) as [Heq|Hne].
  { rewrite (enc_all_empty q) by lia. by rewrite Heq. }
  rewrite (proj2 (Z.ltb_ge e _)), ret_bind, (proj2 (Z.ltb_lt _ e)) by lia.
  pose proof (process_records q i (h ++ enc_all a) rest 0 m Hq ltac:(lia) (or_introl eq_refl)) as E1.
  rewrite lenz_app, Hh, Z.add_0_r, <-Ee in E1.
  replace ((h ++ enc_all a) ++ enc_all q ++ rest) with p in E1 by (unfold p; by rewrite enc_all_app, <-!app_assoc).
  by rewrite M_bind_eq, E1.
Qed.

Lemma poll_unread v p last wrapped q i addr m : addr ≠ 0 → unread v p last wrapped q → polled v p i addr last m q.
Proof. intros Ha (Hl & Hq & Hc). destruct wrapped; [by apply poll_around|by apply poll_ahead]. Qed.

(** ** Writing in front of a reader *)

(** The writer does not catch up with a reader at [last]: it starts over once at
    most, and then stays behind it. *)
Definition room (end_ last : Z) (wrapped : bool) (e : entry) : Prop :=
  if LOG_PAGE_SIZE <? end_ + lenz (enc e) then wrapped = false ∧ LOGAREABUFFERHEADERSIZE + lenz (enc e) < last
  else wrapped = true → end_ + lenz (enc e) < last.

Definition new_end (end_ : Z) (e : entry) : Z :=
  if LOG_PAGE_SIZE <? end_ + lenz (enc e) then LOGAREABUFFERHEADERSIZE + lenz (enc e) else end_ + lenz (enc e).

Definition now_wrapped (end_ : Z) (wrapped : bool) (e : entry) : bool := wrapped || (LOG_PAGE_SIZE <? end_ + lenz (enc e)).

Definition append_of (p : bytes) (e : entry) : PageM bytes := append_entry p (en_id e) (en_request e) (en_level e) (en_msg e).

Lemma Ok_inj {E A} (a b : A) : (Ok a : outcome E A) = Ok b → a = b.
Proof. congruence. Qed.

Lemma drop_within {A} (n : nat) (l k : list A) : (n <= length l)%nat → drop n (l ++ k) = drop n l ++ k.
Proof. intros H. by rewrite drop_app_le. Qed.

Definition written (v : Z) (p : bytes) (last : Z) (wrapped : bool) (q : list entry) (e : entry) : Prop :=
  ∃ p', append_of p e = Ok p' ∧ unread v p' last (now_wrapped (page_end p) wrapped e) (q ++ [e]) ∧ page_end p' = new_end (page_end p) e.

Lemma append_ahead v p last q e : unread v p last false q → loud e → room (page_end p) last false e → written v p last false q e.
Proof.
  intros (Hl & Hq & a & rest & -> & Ep) He. pose proof (proj2 (proj2 (proj1 He))) as Hms. pose proof (lenz_nonneg (enc_all (a ++ q))). pose proof (lenz_nonneg rest).
  destruct (append_area v (a ++ q) p (en_id e) (en_request e) (en_level e) (en_msg e)) as (p' & Hp' & Hsize & _);
    [by split; [|exists rest]|apply He|]. subst p. rewrite lenz_app, lenz_area_header in Hl.
  assert (Forall loud (q ++ [e])) as Hqe by (apply Forall_app; auto).
  rewrite lenz_app in Hl. unfold written, room, now_wrapped, new_end. rewrite page_end_header by sizes.
  pose proof (append_exact v (a ++ q) rest (en_id e) (en_request e) (en_level e) (en_msg e) ltac:(apply He) ltac:(rewrite lenz_app; lia)) as E.
  cbv zeta in E. unfold append_of. rewrite Hp' in E. apply Ok_inj in E. rewrite Hp'. destruct e as [id rq lv ms]. cbn [en_id en_request en_level en_msg] in *.
  set (e := mkEntry id rq lv ms) in *. assert (lenz (enc e) = LOGENTRYHEADERSIZE + lenz ms) as Hn by apply lenz_enc. pose proof (lenz_nonneg ms).
  revert E. destruct (Z.ltb_spec LOG_PAGE_SIZE (LOGAREABUFFERHEADERSIZE + lenz (enc_all (a ++ q)) + lenz (enc e))) as [Hf|Hf]; intros E.
  - intros [_ Hlt]. exists p'. split; [done|]. rewrite E. rewrite page_end_header by sizes. split; [|done]. rewrite <-E.
    split; [done|]. split; [done|]. cbn [orb]. exists [e], (drop (length (enc e)) (enc_all a)), q, (lenz rest).
    rewrite enc_all_one. assert (lenz (drop (length (enc e)) (enc_all a)) = lenz (enc_all a) - lenz (enc e)) as Hd
      by (unfold lenz in *; rewrite length_drop; lia).
    split_and!; [done|lia|lia|lia|]. rewrite E, enc_all_app, <-(app_assoc (enc_all a)), drop_within by (unfold lenz in *; lia). done.
  - intros _. exists p'. split; [done|]. rewrite E. rewrite page_end_header by sizes. split; [|done]. rewrite <-E.
    split; [done|]. split; [done|]. cbn [orb]. exists a, (drop (length (enc e)) rest). split; [done|].
    rewrite E, (app_assoc a), (enc_all_app (a ++ q)), enc_all_one, lenz_app, Z.add_assoc, <-!app_assoc. done.
Qed.

Lemma append_around v p last q e : unread v p last true q → loud e → room (page_end p) last true e → written v p last true q e.
Proof.
  intros (Hl & Hq & b & mid & q1 & k & -> & Hk & Hmid & -> & Ep) He. pose proof (proj2 (proj2 (proj1 He))) as Hms. set (rest := mid ++ enc_all q1 ++ zeros k) in *.
  pose proof (lenz_nonneg (enc_all b)). pose proof (lenz_nonneg (enc_all q1)).
  destruct (append_area v b p (en_id e) (en_request e) (en_level e) (en_msg e)) as (p' & Hp' & Hsize & _);
    [by split; [|exists rest]|apply He|]. subst p. rewrite lenz_app, lenz_area_header in Hl.
  assert (Forall loud ((q1 ++ b) ++ [e])) as Hqe by (apply Forall_app; auto).
  unfold written, room, now_wrapped, new_end.
  pose proof (append_exact v b rest (en_id e) (en_request e) (en_level e) (en_msg e) ltac:(apply He) ltac:(lia)) as E.
  rewrite lenz_app in Hl. assert (lenz rest = lenz mid + lenz (enc_all q1) + k) as Hrest by (unfold rest; rewrite !lenz_app, lenz_zeros; lia).
  rewrite page_end_header by sizes.
  cbv zeta in E. unfold append_of. rewrite Hp' in E. apply Ok_inj in E. rewrite Hp'. destruct e as [id rq lv ms]. cbn [en_id en_request en_level en_msg] in *.
  set (e := mkEntry id rq lv ms) in *. assert (lenz (enc e) = LOGENTRYHEADERSIZE + lenz ms) as Hn by apply lenz_enc. pose proof (lenz_nonneg ms).
  revert E. destruct (Z.ltb_spec LOG_PAGE_SIZE (LOGAREABUFFERHEADERSIZE + lenz (enc_all b) + lenz (enc e))) as [Hf|Hf]; [by intros _ []|].
  intros E Hlt. specialize (Hlt eq_refl). exists p'. split; [done|]. rewrite E. rewrite page_end_header by sizes. split; [|done]. rewrite <-E.
  split; [done|]. split; [done|]. cbn [orb]. exists (b ++ [e]), (drop (length (enc e)) mid), q1, k.
  assert (lenz (drop (length (enc e)) mid) = lenz mid - lenz (enc e)) as Hd by (unfold lenz in *; rewrite length_drop; lia).
  rewrite enc_all_app, enc_all_one, lenz_app, app_assoc. split_and!; [done|lia|lia|lia|].
  rewrite E. unfold rest. rewrite drop_within by (unfold lenz in *; lia). by rewrite Z.add_assoc, <-!app_assoc.
Qed.

Lemma append_unread v p last wrapped q e : unread v p last wrapped q → loud e → room (page_end p) last wrapped e →
  written v p last wrapped q e.
Proof. destruct wrapped; [apply append_around|apply append_ahead]. Qed.

(** ** Histories *)

(** A record is written, or the emulated VMM looks at the page. *)
Inductive log_event := Logged (e : entry) | Polled.

Fixpoint history (i addr : Z) (evs : list log_event) (p : bytes) (last : Z) (m : LogAreaManager) : outcome (aerr unit) (bytes * Z * LogAreaManager) :=
  match evs with
  | [] => Ok (p, last, m)
  | Logged e :: evs =>
      match append_of p e with
      | Ok p' => history i addr evs p' last m
      | Err _ => Err OutOfFuel
      | Panic => Panic
      end
  | Polled :: evs =>
      match read_vcpu_log_entries_inner (λ _, p) i addr last m with
      | (Ok last', m') => history i addr evs p last' m'
      | (Err x, _) => Err x
      | (Panic, _) => Panic
      end
  end.

Fixpoint logged (evs : list log_event) : list entry :=
  match evs with
  | [] => []
  | Logged e :: evs => e :: logged evs
  | Polled :: evs => logged evs
  end.

(** The reader looks often enough. *)
Fixpoint keeps_up (evs : list log_event) (end_ last : Z) (wrapped : bool) : Prop :=
  match evs with
  | [] => True
  | Logged e :: evs => room end_ last wrapped e ∧ keeps_up evs (new_end end_ e) last (now_wrapped end_ wrapped e)
  | Polled :: evs => keeps_up evs end_ end_ false
  end.

Lemma history_unread v i addr evs p last wrapped q m : addr ≠ 0 → unread v p last wrapped q → Forall loud (logged evs) →
  keeps_up evs (page_end p) last wrapped →
  ∃ p' last' m' w' read rest, history i addr evs p last m = Ok (p', last', m') ∧ unread v p' last' w' rest ∧
    q ++ logged evs = read ++ rest ∧ printed m' = printed m ++ (line_of i <$> read).
Proof.
  intros Ha. revert p last wrapped q m. induction evs as [|[e|] evs IH]; intros p last wrapped q m Hu Hok Hk; cbn [history logged keeps_up] in *.
  - exists p, last, m, wrapped, [], q. by rewrite !app_nil_r.
  - apply Forall_cons in Hok as [He Hok]. destruct Hk as [Hr Hk].
    destruct (append_unread v p last wrapped q e Hu He Hr) as (p1 & -> & Hu1 & Hend). rewrite <-Hend in Hk.
    destruct (IH p1 last _ (q ++ [e]) m Hu1 Hok Hk) as (p' & last' & m' & w' & rd & rest & ? & ? & Hq & ?).
    exists p', last', m', w', rd, rest. by rewrite <-Hq, <-app_assoc.
  - destruct (poll_unread v p last wrapped q i addr m Ha Hu) as (last1 & m1 & -> & Hu1 & -> & Hm1).
    destruct (IH p (page_end p) false [] m1 Hu1 Hok Hk) as (p' & last' & m' & w' & rd & rest & ? & ? & Hq & Hm').
    exists p', last', m', w', (q ++ rd), rest. rewrite app_nil_l in Hq. split_and!; [done|done|by rewrite Hq, app_assoc|].
    by rewrite Hm', Hm1, fmap_app, app_assoc.
Qed.

Lemma history_app i addr evs evs' p last m : history i addr (evs ++ evs') p last m =
  match history i addr evs p last m with
  | Ok (p', last', m') => history i addr evs' p' last' m'
  | Err x => Err x
  | Panic => Panic
  end.
Proof.
  revert p last m. induction evs as [|[e|] evs IH]; intros p last m; cbn [app history]; [done| |].
  - by destruct (append_of p e).
  - by destruct (read_vcpu_log_entries_inner _ _ _ _ _) as [[]].
Qed.

(** C33: For any sequence of records written by the logger of the migration TD
    (Logging) and polls by the reader of the emulator, in which the writer never comes
    round to an offset the reader has not passed, the reader never aborts; what it has
    printed is a prefix of the records in the order they were written, each with its
    request, level and text; and after a poll it is all of them. *)
Theorem log_reader_complete v i addr es p evs m : addr ≠ 0 → area v es p → Forall loud (es ++ logged evs) →
  keeps_up evs (page_end p) LOGAREABUFFERHEADERSIZE false →
  (∃ p' last m' read rest, history i addr evs p LOGAREABUFFERHEADERSIZE m = Ok (p', last, m') ∧
     es ++ logged evs = read ++ rest ∧ printed m' = printed m ++ (line_of i <$> read)) ∧
  ∃ p' last m', history i addr (evs ++ [Polled]) p LOGAREABUFFERHEADERSIZE m = Ok (p', last, m') ∧
    printed m' = printed m ++ (line_of i <$> (es ++ logged evs)).
Proof.
  intros Ha [Hl [rest Hp]] [Hes Hok]%Forall_app Hk.
  assert (unread v p LOGAREABUFFERHEADERSIZE false es) as Hu by (split; [done|]; split; [done|]; by exists [], rest).
  destruct (history_unread v i addr evs p _ false es m Ha Hu Hok Hk) as (p' & last' & m' & w' & rd & rs & E & Hu' & Hq & Hm).
  split; [by exists p', last', m', rd, rs|].
  destruct (poll_unread v p' last' w' rs i addr m' Ha Hu') as (last2 & m2 & E2 & _ & _ & Hm2).
  exists p', last2, m2. rewrite history_app, E. cbn [history]. rewrite E2. split; [done|]. by rewrite Hm2, Hm, Hq, fmap_app, app_assoc.
Qed.

Module ReaderSample.
Definition page : bytes := area_header 0 LOGAREABUFFERHEADERSIZE LOGAREABUFFERHEADERSIZE ++ zeros (LOG_PAGE_SIZE - LOGAREABUFFERHEADERSIZE).

Definition record_of (id : Z) (n : nat) : entry := mkEntry id 7 3 (replicate n 65 ++ [10]).

(** The second record does not fit behind the first, which has been read. *)
Definition evs : list log_event := [Logged (record_of 1 3000); Polled; Logged (record_of 2 1500); Logged (record_of 3 9)].

Definition reader : LogAreaManager := LogAreaManager_new false [] [].

Lemma record_loud id n : 1 <= id < 1000 → (n <= 4000)%nat → loud (record_of id n).
Proof.
  intros Hid Hn. unfold loud, record_of, entry_ok, in_u. cbn [en_id en_request en_msg]. rewrite lenz_app. unfold lenz. rewrite length_replicate.
  cbn [length]. split_and!; try lia; [sizes|]. by destruct (replicate n 65).
Qed.

Lemma evs_loud : Forall loud ([] ++ logged evs).
Proof. unfold evs. cbn [app logged]. repeat (apply Forall_cons_2; [apply record_loud; lia|]). apply Forall_nil_2. Qed.

Lemma page_area : area 0 [] page.
Proof. split; [by vm_compute|]. by exists (zeros (LOG_PAGE_SIZE - LOGAREABUFFERHEADERSIZE)). Qed.

Lemma evs_keep_up : keeps_up evs (page_end page) LOGAREABUFFERHEADERSIZE false.
Proof. vm_compute. repeat split; intros; discriminate. Qed.

Lemma log_reader_complete_witness : ∃ p' last m', history 0 0x1000 (evs ++ [Polled]) page LOGAREABUFFERHEADERSIZE reader = Ok (p', last, m') ∧
  printed m' = line_of 0 <$> [record_of 1 3000; record_of 2 1500; record_of 3 9].
Proof. exact (proj2 (log_reader_complete 0 0 0x1000 [] page evs reader ltac:(done) page_area evs_loud evs_keep_up)). Defined.

(** A writer that comes round to where the reader stopped is not noticed: the
    second and third records are never printed. *)
Lemma overrun_not_noticed : ∃ p' m',
  history 0 0x1000 [Logged (record_of 1 999); Polled; Logged (record_of 2 2999); Logged (record_of 3 999); Polled] page LOGAREABUFFERHEADERSIZE reader =
    Ok (p', 1064, m') ∧ printed m' = [line_of 0 (record_of 1 999)].
Proof.
  assert (match history 0 0x1000 [Logged (record_of 1 999); Polled; Logged (record_of 2 2999); Logged (record_of 3 999); Polled] page
            LOGAREABUFFERHEADERSIZE reader with
          | Ok (p', last, m') => last = 1064 ∧ printed m' = [line_of 0 (record_of 1 999)]
          | _ => False
          end) as H by (vm_compute; done).
  destruct (history _ _ _ _ _ _) as [[[p' last] m']| |]; [|done..]. destruct H as [-> H]. by exists p', m'.
Qed.
End ReaderSample.
