(* ===== verification/EmuVmm.v ===== *)
(** * EmuVmm: the VMM and the TDX module of the emulator

    deps/td-shim-AzCVMEmu/tdx-tdcall/src/tdx_emu.rs, with the registry of
    interrupt-emu/src/lib.rs: what stands behind the TDVMCALLs and TDCALLs of a
    migration TD that runs as a process.  Requests are queued and handed out,
    payloads travel over a TCP connection, quotes come from outside, metadata
    fields are maps.  A data buffer is part of the state of a call, because calls
    that fail leave it changed; std's TCP streams are written out, the report and
    quote of tdreport_emu.rs and SHA-384 are arguments. *)
From stdpp Require Import base tactics numbers option strings list list_numbers gmap.
From S2P Require Import Prelude ServtdExt EmuLog PolicyV2.
Local Open Scope Z_scope.

#[local] Notation bytes := (list Z).

(** [TdVmcallError] and [TdCallError] of tdx-tdcall, as far as they are used. *)
Module TdVmcallError.
Inductive t := Other | VmcallOperandInvalid.
End TdVmcallError.

Module TdCallError.
Inductive t := TdxExitInvalidParameters.
End TdCallError.

Inductive TcpEmulationMode := Client | Server.

Inductive EmuMigRequest :=
  | EmuStartMigration (request_id migration_source : Z) (target_td_uuid : list Z) (binding_handle : Z)
  | EmuStartRebinding (request_id rebinding_src operation : Z) (target_td_uuid : list Z) (binding_handle : Z)
  | EmuGetTDReport (request_id : Z) (reportdata : bytes)
  | EmuEnableLogArea (request_id log_max_level : Z)
  | EmuGetMigtdData (request_id : Z) (reportdata : bytes).

(** [std::net::TcpStream]: the bytes that arrive before the peer closes, the bytes
    sent, and how each write ends: [None] is success (as is [[]]), [Some n] an error
    after [n] bytes. *)
Record TcpStream := mkTcp { tcp_in : bytes; tcp_out : bytes; tcp_writes : list (option nat) }.

Definition write_all (data : bytes) (s : TcpStream) : bool * TcpStream :=
  match tcp_writes s with
  | Some n :: l => (false, mkTcp (tcp_in s) (tcp_out s ++ take n data) l)
  | None :: l => (true, mkTcp (tcp_in s) (tcp_out s ++ data) l)
  | [] => (true, mkTcp (tcp_in s) (tcp_out s ++ data) [])
  end.

Definition read_exact (n : Z) (s : TcpStream) : option bytes * TcpStream :=
  if lenz (tcp_in s) <? n then (None, mkTcp [] (tcp_out s) (tcp_writes s))
  else (Some (take (Z.to_nat n) (tcp_in s)), mkTcp (drop (Z.to_nat n) (tcp_in s)) (tcp_out s) (tcp_writes s)).

(** The address is kept as the pair its text is made of. *)
Record Net := mkNet {
  TCP_ADDRESS : option (bytes * Z); TCP_MODE : option TcpEmulationMode;
  TCP_STREAM : option TcpStream; PENDING_RECV_BUFFER : option bytes }.

Record Fields := mkFields {
  BOUND_FIELDS : gmap (Z * list Z * Z) Z; SYS_FIELDS : gmap Z Z; VM_FIELDS : gmap Z Z;
  REBIND_SESSION_TOKEN : gmap (Z * list Z) bytes }.

(** The vectors with a callback, and those whose callback has run. *)
Record Interrupts := mkIntr { CALLBACKS : gset Z; fired : list Z }.

Record Emu := mkEmu {
  net : Net; MIG_REQUEST : list EmuMigRequest; fields : Fields;
  EVENT_NOTIFY_VECTOR : option Z; LOG_AREA_MANAGER : option LogAreaManager; intr : Interrupts }.

Definition set_net (n : Net) (s : Emu) : Emu :=
  mkEmu n (MIG_REQUEST s) (fields s) (EVENT_NOTIFY_VECTOR s) (LOG_AREA_MANAGER s) (intr s).
Definition set_queue (q : list EmuMigRequest) (s : Emu) : Emu :=
  mkEmu (net s) q (fields s) (EVENT_NOTIFY_VECTOR s) (LOG_AREA_MANAGER s) (intr s).
Definition set_fields (f : Fields) (s : Emu) : Emu :=
  mkEmu (net s) (MIG_REQUEST s) f (EVENT_NOTIFY_VECTOR s) (LOG_AREA_MANAGER s) (intr s).
Definition set_manager (m : option LogAreaManager) (s : Emu) : Emu :=
  mkEmu (net s) (MIG_REQUEST s) (fields s) (EVENT_NOTIFY_VECTOR s) m (intr s).
Definition set_stream (t : option TcpStream) (n : Net) : Net :=
  mkNet (TCP_ADDRESS n) (TCP_MODE n) t (PENDING_RECV_BUFFER n).
Definition set_pending (p : option bytes) (n : Net) : Net :=
  mkNet (TCP_ADDRESS n) (TCP_MODE n) (TCP_STREAM n) p.

(** ** Interrupts *)

Definition register (vector : Z) (i : Interrupts) : Interrupts := mkIntr ({[vector]} ∪ CALLBACKS i) (fired i).

Definition trigger (vector : Z) (s : Emu) : Emu :=
  if bool_decide (vector ∈ CALLBACKS (intr s)) then
    mkEmu (net s) (MIG_REQUEST s) (fields s) (EVENT_NOTIFY_VECTOR s) (LOG_AREA_MANAGER s)
      (mkIntr (CALLBACKS (intr s)) (fired (intr s) ++ [vector]))
  else s.

(** ** The log areas *)

(** An abort or the bound of the reader's loop; neither happens. *)
Definition with_manager (f : LM unit) (s : Emu) : outcome (aerr unit) Emu :=
  match LOG_AREA_MANAGER s with
  | None => Ok s
  | Some m =>
      match f m with
      | (Ok _, m') => Ok (set_manager (Some m') s)
      | (Err e, _) => Err e
      | (Panic, _) => Panic
      end
  end.

Definition init_log_area_manager (path : bool) (opens writes : list bool) (s : Emu) : Emu :=
  set_manager (Some (LogAreaManager_new path opens writes)) s.

(** ** Calls

    A call works on the emulator and on the data buffer of its caller. *)
Notation EM := (M Emu (aerr TdVmcallError.t)).
Notation BM := (M (Emu * bytes) (aerr TdVmcallError.t)).

Definition vfail {S A} (e : TdVmcallError.t) : M S (aerr TdVmcallError.t) A := failM (Failed e).

Definition on_emu {A} (m : EM A) : BM A := λ s, let '(r, e) := m s.1 in (r, (e, s.2)).
Definition buf_len : BM Z := s ← getS; mret (lenz s.2).
Definition buf_read (a b : Z) : BM bytes := s ← getS; or_panic (slice s.2 a b).
Definition buf_write (a : Z) (d : bytes) : BM unit := s ← getS; b ← or_panic (write_at s.2 a d); modifyS (λ s, (s.1, b)).

Definition manager_op (f : LM unit) : EM unit := λ s,
  match with_manager f s with
  | Ok s' => (Ok tt, s')
  | Err _ => (Err OutOfFuel, s)
  | Panic => (Panic, s)
  end.

Definition emu_read_log_entries (mem : Z → bytes) : EM unit := manager_op (read_log_entries mem).
Definition enable_log_area (response_data : bytes) : EM unit := manager_op (initialize response_data).

(** ** Queueing requests *)

Definition set_emulated_mig_request (req : EmuMigRequest) (s : Emu) : Emu := set_queue (MIG_REQUEST s ++ [req]) s.

Definition LOG_MARK : Z := 0x8000000000000000.
Definition REPORT_MARK : Z := 0x4000000000000000.

(** The default report data: the request, a text and zeros. *)
Definition default_reportdata (request_id : Z) (text : string) : bytes := le_bytes 8 request_id ++ as_bytes text ++ zeros 41.

Definition set_emulated_start_migration (request_id migration_source : Z) (uuid : list Z) (binding_handle : Z) (s : Emu) : Emu :=
  let enable_log_request_id := Z.lor request_id LOG_MARK in
  let get_report_request_id := Z.lor request_id REPORT_MARK in
  let s := set_emulated_mig_request (EmuEnableLogArea enable_log_request_id 3) s in
  let s := set_emulated_mig_request (EmuGetTDReport get_report_request_id (default_reportdata request_id "MIGTD_MIGRATION")) s in
  set_emulated_mig_request (EmuStartMigration request_id migration_source uuid binding_handle) s.

Definition set_emulated_get_report_data (request_id : Z) (reportdata : bytes) (s : Emu) : Emu :=
  let enable_log_request_id := Z.lor request_id LOG_MARK in
  let s := set_emulated_mig_request (EmuEnableLogArea enable_log_request_id 3) s in
  set_emulated_mig_request (EmuGetTDReport request_id reportdata) s.

Definition set_emulated_enable_log_area (request_id log_max_level : Z) (s : Emu) : Emu :=
  set_emulated_mig_request (EmuEnableLogArea request_id log_max_level) s.

(** ** Fields of a target TD *)

Definition servtd_key (binding_handle : Z) (uuid : list Z) (field : Z) : Z * list Z * Z := (binding_handle, uuid, field).

Definition insert_bound (binding_handle : Z) (uuid : list Z) (field value : Z) (f : Fields) : Fields :=
  mkFields (<[servtd_key binding_handle uuid field := value]> (BOUND_FIELDS f)) (SYS_FIELDS f) (VM_FIELDS f) (REBIND_SESSION_TOKEN f).

Notation FM := (M Fields TdCallError.t).

(** The result is the content and the identity of the target. *)
Definition emu_servtd_rd (binding_handle field : Z) (uuid : list Z) : FM (Z * list Z) :=
  _ ← err_if (negb (lenz uuid =? 4)) TdCallError.TdxExitInvalidParameters;
  f ← getS;
  mret (default 0 (BOUND_FIELDS f !! servtd_key binding_handle uuid field), uuid).

Definition emu_servtd_wr (binding_handle field data : Z) (uuid : list Z) : FM (Z * list Z) :=
  _ ← err_if (negb (lenz uuid =? 4)) TdCallError.TdxExitInvalidParameters;
  _ ← modifyS (insert_bound binding_handle uuid field data);
  mret (data, uuid).

Definition emu_sys_rd (field : Z) : FM (Z * Z) :=
  f ← getS;
  match SYS_FIELDS f !! field with
  | Some v => mret (field, v)
  | None =>
      let low := Z.land field 0xF in
      mret (field, if (low =? 1) || (low =? 3) then 1 else if (low =? 2) || (low =? 4) then 1 else 0)
  end.

Definition insert_sys (field value : Z) (f : Fields) : Fields :=
  mkFields (BOUND_FIELDS f) (<[field := value]> (SYS_FIELDS f)) (VM_FIELDS f) (REBIND_SESSION_TOKEN f).

Definition emu_sys_wr (field value : Z) : FM unit := modifyS (insert_sys field value).

Definition emu_vm_write (field value mask : Z) : FM Z := _ ← modifyS (insert_sys field value); mret field.

Definition emu_rebind_approve (old_binding_handle : Z) (token : bytes) (uuid : list Z) : FM (list Z) :=
  _ ← err_if (negb (lenz uuid =? 4)) TdCallError.TdxExitInvalidParameters;
  _ ← err_if (negb (lenz token =? 32)) TdCallError.TdxExitInvalidParameters;
  _ ← modifyS (λ f, mkFields (BOUND_FIELDS f) (SYS_FIELDS f) (VM_FIELDS f)
                      (<[(old_binding_handle, uuid) := token]> (REBIND_SESSION_TOKEN f)));
  mret uuid.

(** The digest goes nowhere. *)
Definition emu_extend_rtmr (digest : bytes) (mr_index : Z) : FM unit := err_if (3 <? mr_index) TdCallError.TdxExitInvalidParameters.

Definition tdvmcall_setup_event_notify (mem : Z → bytes) (vector : Z) : EM unit :=
  _ ← emu_read_log_entries mem;
  modifyS (λ s, mkEmu (net s) (MIG_REQUEST s) (fields s) (Some vector) (LOG_AREA_MANAGER s) (intr s)).

(** *** Filling in the extension fields *)

(** [data.chunks(elem_size)] *)
Fixpoint chunks (fuel : nat) (elem_size : nat) (data : bytes) : list bytes :=
  match fuel, data with
  | S fuel, _ :: _ => take elem_size data :: chunks fuel elem_size (drop elem_size data)
  | _, _ => []
  end.

Fixpoint write_chunks (binding_handle : Z) (uuid : list Z) (field : Z) (cs : list bytes) (f : Fields) : Fields :=
  match cs with
  | [] => f
  | c :: cs => write_chunks binding_handle uuid (field + 1) cs (insert_bound binding_handle uuid field (le_val (c ++ zeros (8 - lenz c))) f)
  end.

Definition write_field (binding_handle : Z) (uuid : list Z) (field_base : Z) (data : bytes) (elem_size : nat) (f : Fields) : Fields :=
  write_chunks binding_handle uuid field_base (chunks (length data) elem_size data) f.

(** A report of tdreport_emu.rs: the parts that are used. *)
Record EmuReport := mkEmuReport { er_td_info : bytes; er_cpu_svn : bytes; er_tee_tcb_info : bytes }.

Definition SERVTD_TYPE_MIGTD : Z := 0.

Section populate.
Context (report : option EmuReport) (sha384 : bytes → bytes).

Definition populate_servtd_fields (binding_handle : Z) (uuid : list Z) (f : Fields) : outcome unit Fields :=
  match report with
  | None => Ok f
  | Some r =>
      let info_hash := sha384 (er_td_info r) in
      let servtd_attr := 0 in
      let servtd_info_hash := sha384 (info_hash ++ le_bytes 2 SERVTD_TYPE_MIGTD ++ le_bytes 8 servtd_attr) in
      let write := write_field binding_handle uuid in
      let f := write TDCS_FIELD_SERVTD_INIT_SERVTD_INFO_HASH servtd_info_hash 8%nat f in
      let f := write TDCS_FIELD_SERVTD_INIT_ATTR (le_bytes 8 servtd_attr) 8%nat f in
      let f := write TDCS_FIELD_INIT_CPUSVN (er_cpu_svn r) 8%nat f in
      match slice (er_tee_tcb_info r) 8 24 with
      | None => Panic
      | Some svn =>
          let f := write TDCS_FIELD_INIT_TEE_TCB_SVN svn 8%nat f in
          let f := write TDCS_FIELD_INIT_TEE_MODEL (zeros 12) 4%nat f in
          let f := write TDCS_FIELD_SERVTD_INFO_HASH servtd_info_hash 8%nat f in
          Ok (write TDCS_FIELD_SERVTD_ATTR (le_bytes 8 servtd_attr) 8%nat f)
      end
  end.

Definition set_emulated_start_rebinding (request_id rebinding_src operation : Z) (uuid : list Z) (binding_handle : Z) (s : Emu) : outcome unit Emu :=
  let enable_log_request_id := Z.lor request_id LOG_MARK in
  let get_report_request_id := Z.lor request_id REPORT_MARK in
  let s := set_emulated_mig_request (EmuEnableLogArea enable_log_request_id 3) s in
  let s := set_emulated_mig_request (EmuGetMigtdData get_report_request_id (default_reportdata request_id "MIGTD_REBINDING")) s in
  let s := set_emulated_mig_request (EmuStartRebinding request_id rebinding_src operation uuid binding_handle) s in
  f ← populate_servtd_fields binding_handle uuid (fields s);
  Ok (set_fields f s).
End populate.

(** ** The connection *)

(** [path], [opens] and [writes]: see [LogAreaManager_new]. *)
Definition init_tcp_emulation_with_mode (path : bool) (opens writes : list bool) (ip : bytes) (port : Z) (mode : TcpEmulationMode) :
  M Emu unit unit :=
  _ ← err_if (bool_decide (ip = [])) tt;
  _ ← modifyS (init_log_area_manager path opens writes);
  modifyS (λ s, set_net (mkNet (Some (ip, port)) (Some mode) (TCP_STREAM (net s)) (PENDING_RECV_BUFFER (net s))) s).

Definition store_stream (t : TcpStream) (s : Emu) : Emu := set_net (set_stream (Some t) (net s)) s.
Definition store_pending (p : option bytes) (s : Emu) : Emu := set_net (set_pending p (net s)) s.

(** [bind] is whether the address can be bound, [accept] the connection, if any. *)
Definition start_tcp_server_sync (bind : bool) (accept : option TcpStream) : EM unit :=
  _ ← err_if (negb bind) (Failed TdVmcallError.Other);
  stream ← ok_or accept (Failed TdVmcallError.Other);
  modifyS (store_stream stream).

Definition connect_tcp_client (connect : bytes * Z → option TcpStream) : EM unit :=
  s ← getS;
  addr ← ok_or (TCP_ADDRESS (net s)) (Failed TdVmcallError.Other);
  stream ← ok_or (connect addr) (Failed TdVmcallError.Other);
  modifyS (store_stream stream).

(** [stream.write_all(data)?] on the stream behind the lock *)
Definition stream_write (data : bytes) : EM unit :=
  s ← getS;
  stream ← ok_or (TCP_STREAM (net s)) (Failed TdVmcallError.Other);
  let '(ok, stream) := write_all data stream in
  _ ← modifyS (store_stream stream);
  err_if (negb ok) (Failed TdVmcallError.Other).

Definition stream_read (n : Z) : EM bytes :=
  s ← getS;
  stream ← ok_or (TCP_STREAM (net s)) (Failed TdVmcallError.Other);
  let '(r, stream) := read_exact n stream in
  _ ← modifyS (store_stream stream);
  ok_or r (Failed TdVmcallError.Other).

(** Flushing a TCP stream does nothing. *)
Definition tcp_send_data (data : bytes) : EM unit :=
  _ ← stream_write (le_bytes 4 (as_u 32 (lenz data)));
  stream_write data.

Definition tcp_receive_data : EM bytes :=
  _ ← modifyS (store_pending None);
  length_bytes ← stream_read 4;
  stream_read (le_val length_bytes).

Definition tcp_receive_data_chunk (max_chunk_size : Z) : EM bytes :=
  s ← getS;
  match PENDING_RECV_BUFFER (net s) with
  | Some pending_data =>
      if lenz pending_data <=? max_chunk_size then _ ← modifyS (store_pending None); mret pending_data
      else
        _ ← modifyS (store_pending (Some (drop (Z.to_nat max_chunk_size) pending_data)));
        mret (take (Z.to_nat max_chunk_size) pending_data)
  | None =>
      full_data ← tcp_receive_data;
      if lenz full_data <=? max_chunk_size then mret full_data
      else
        _ ← modifyS (store_pending (Some (drop (Z.to_nat max_chunk_size) full_data)));
        mret (take (Z.to_nat max_chunk_size) full_data)
  end.

(** ** Buffers of GHCI 1.5: status, length, payload *)

Definition GHCI_HEADER : Z := 12.

Definition parse_ghci_buffer (buffer : bytes) : Z * Z * bytes :=
  if lenz buffer <? GHCI_HEADER then (0, 0, [])
  else
    let status := le_val (take 8 buffer) in
    let len := le_val (take 4 (drop 8 buffer)) in
    let max_payload_len := Z.min (lenz buffer - GHCI_HEADER) len in
    (status, len, take (Z.to_nat max_payload_len) (drop 12 buffer)).

Definition format_ghci_buffer (status : Z) (payload : bytes) : BM unit :=
  n ← buf_len;
  if n <? GHCI_HEADER then mret tt
  else
    let copy_len := Z.min (n - GHCI_HEADER) (lenz payload) in
    _ ← buf_write 0 (le_bytes 8 status);
    _ ← buf_write 8 (le_bytes 4 (as_u 32 copy_len));
    if 0 <? copy_len then buf_write GHCI_HEADER (take (Z.to_nat copy_len) payload) else mret tt.

(** ** TDVMCALLs *)

Section calls.
(** The memory of the process, in which the log areas are. *)
Context (mem : Z → bytes).

Definition signal (vector : Z) : BM unit := modifyS (λ s, (trigger vector s.1, s.2)).

Definition tdvmcall_migtd_send_sync (interrupt : Z) : BM unit :=
  s ← getS;
  let '(_, _, payload) := parse_ghci_buffer s.2 in
  _ ← on_emu (tcp_send_data payload);
  _ ← format_ghci_buffer 1 [];
  _ ← on_emu (emu_read_log_entries mem);
  signal interrupt.

Definition tdvmcall_migtd_receive_sync (interrupt : Z) : BM unit :=
  n ← buf_len;
  _ ← err_if (n <? GHCI_HEADER) (Failed TdVmcallError.VmcallOperandInvalid);
  let max_payload_size := n - GHCI_HEADER in
  received_payload ← on_emu (tcp_receive_data_chunk max_payload_size);
  _ ← format_ghci_buffer 1 received_payload;
  _ ← on_emu (emu_read_log_entries mem);
  signal interrupt.

(** *** Handing a request out *)

Definition START_MIGRATION_PAYLOAD_LEN : Z := 56.
Definition REPORT_DATA_PAYLOAD_LEN : Z := 72.
Definition ENABLE_LOG_AREA_PAYLOAD_LEN : Z := 16.
Definition START_REBINDING_PAYLOAD_LEN : Z := 56.

(** The loops that clear reserved bytes. *)
Fixpoint clear_bytes (off : Z) (count : nat) : BM unit :=
  match count with
  | O => mret tt
  | S count => _ ← buf_write off [0]; clear_bytes (off + 1) count
  end.

(** [for v in target_td_uuid.iter()] *)
Fixpoint write_uuid (off : Z) (uuid : list Z) : BM unit :=
  match uuid with
  | [] => mret tt
  | v :: uuid => _ ← buf_write off (le_bytes 8 v); write_uuid (off + 8) uuid
  end.

(** The check of the length and the header of a request. *)
Definition request_header (status len : Z) : BM unit :=
  n ← buf_len;
  _ ← err_if (n <? GHCI_HEADER + len) (Failed TdVmcallError.Other);
  _ ← buf_write 0 (le_bytes 8 status);
  buf_write 8 (le_bytes 4 len).

Definition fill_start_migration (request_id migration_source : Z) (uuid : list Z) (binding_handle : Z) : BM unit :=
  _ ← request_header 0x101 START_MIGRATION_PAYLOAD_LEN;
  _ ← buf_write (GHCI_HEADER + 0) (le_bytes 8 request_id);
  _ ← buf_write (GHCI_HEADER + 8) [migration_source];
  _ ← clear_bytes (GHCI_HEADER + 9) 7;
  _ ← write_uuid (GHCI_HEADER + 16) uuid;
  buf_write (GHCI_HEADER + 48) (le_bytes 8 binding_handle).

Definition fill_get_td_report (request_id : Z) (reportdata : bytes) : BM unit :=
  _ ← request_header 0x301 REPORT_DATA_PAYLOAD_LEN;
  _ ← buf_write (GHCI_HEADER + 0) (le_bytes 8 request_id);
  buf_write (GHCI_HEADER + 8) reportdata.

Definition fill_enable_log_area (request_id log_max_level : Z) : BM unit :=
  _ ← request_header 0x401 ENABLE_LOG_AREA_PAYLOAD_LEN;
  _ ← buf_write (GHCI_HEADER + 0) (le_bytes 8 request_id);
  _ ← buf_write (GHCI_HEADER + 8) [log_max_level];
  clear_bytes (GHCI_HEADER + 9) 7.

Definition fill_start_rebinding (request_id rebinding_src operation : Z) (uuid : list Z) (binding_handle : Z) : BM unit :=
  _ ← request_header 0x201 START_REBINDING_PAYLOAD_LEN;
  _ ← buf_write (GHCI_HEADER + 0) (le_bytes 8 request_id);
  _ ← buf_write (GHCI_HEADER + 8) [rebinding_src];
  _ ← buf_write (GHCI_HEADER + 9) [0];
  _ ← buf_write (GHCI_HEADER + 10) [operation];
  _ ← clear_bytes (GHCI_HEADER + 11) 5;
  _ ← write_uuid (GHCI_HEADER + 16) uuid;
  buf_write (GHCI_HEADER + 48) (le_bytes 8 binding_handle).

Definition fill_get_migtd_data (request_id : Z) (reportdata : bytes) : BM unit :=
  _ ← request_header 0x501 REPORT_DATA_PAYLOAD_LEN;
  _ ← buf_write (GHCI_HEADER + 0) (le_bytes 8 request_id);
  buf_write (GHCI_HEADER + 8) reportdata.

Definition fill_request (req : EmuMigRequest) : BM unit :=
  match req with
  | EmuStartMigration request_id migration_source uuid binding_handle => fill_start_migration request_id migration_source uuid binding_handle
  | EmuGetTDReport request_id reportdata => fill_get_td_report request_id reportdata
  | EmuEnableLogArea request_id log_max_level => fill_enable_log_area request_id log_max_level
  | EmuStartRebinding request_id rebinding_src operation uuid binding_handle => fill_start_rebinding request_id rebinding_src operation uuid binding_handle
  | EmuGetMigtdData request_id reportdata => fill_get_migtd_data request_id reportdata
  end.

Definition tdvmcall_migtd_waitforrequest (interrupt : Z) : BM unit :=
  _ ← on_emu (emu_read_log_entries mem);
  s ← getS;
  match MIG_REQUEST s.1 with
  | [] => mret tt
  | req :: rest =>
      _ ← modifyS (λ s, (set_queue rest s.1, s.2));
      _ ← fill_request req;
      signal interrupt
  end.

(** *** Taking a report *)

(** An answer to an EnableLogArea request is known by the mark in its id. *)
Definition report_payload_seen (mig_request_id pre_migration_status : Z) (payload : bytes) : EM unit :=
  if negb (Z.land mig_request_id LOG_MARK =? 0) then
    if (pre_migration_status =? 0) && (8 <=? lenz payload) then
      n ← or_panic (slice payload 0 4);
      let expected_len := 8 + le_val n * 16 in
      if expected_len <=? lenz payload then enable_log_area payload else mret tt
    else mret tt
  else mret tt.

Definition tdvmcall_migtd_reportstatus (mig_request_id reportstatus interrupt : Z) : BM unit :=
  let pre_migration_status := Z.land reportstatus 0xFF in
  s ← getS;
  let '(_, len, payload_copy) := parse_ghci_buffer s.2 in
  _ ← (if (0 <? len) && (0 <? lenz payload_copy)
       then on_emu (report_payload_seen mig_request_id pre_migration_status payload_copy) else mret tt);
  _ ← on_emu (emu_read_log_entries mem);
  _ ← format_ghci_buffer 1 payload_copy;
  signal interrupt.

(** *** Quotes *)

Definition ERROR_STATUS : Z := 0x8000000000000000.
Definition SERVTD_HEADER_SIZE : Z := 4.
Definition TDREPORT_SIZE : Z := 1024.
Definition GET_QUOTE_REQ : Z := 0.
Definition GET_QUOTE_RESP : Z := 1.
Definition GET_COLLATERAL_REQ : Z := 2.
Definition QGS_GET_QUOTE_RESP_HEADER_SIZE : Z := 24.
Definition QGS_GET_QUOTE_REQ_HEADER_SIZE : Z := 24.
Definition PACKED_COLLATERAL_HEADER_SIZE : Z := 32.
Definition GET_COLLATERAL_RESPONSE_HEADER : Z := 48.

(** [u32] in big-endian order, as the shifts write it *)
Definition be_bytes4 (n : Z) : bytes :=
  [Z.land (Z.shiftr n 24) 0xFF; Z.land (Z.shiftr n 16) 0xFF; Z.land (Z.shiftr n 8) 0xFF; Z.land n 0xFF].

(** The status of the failure is left in the buffer. *)
Definition quote_invalid {A} : BM A :=
  _ ← buf_write 8 (le_bytes 8 ERROR_STATUS);
  vfail TdVmcallError.VmcallOperandInvalid.

Definition notify_event : BM unit :=
  s ← getS;
  match EVENT_NOTIFY_VECTOR s.1 with
  | Some vector => signal (as_u 8 vector)
  | None => mret tt
  end.

(** The message header of the quoting service. *)
Definition qgs_header (major minor type size error : Z) : bytes :=
  le_bytes 2 major ++ le_bytes 2 minor ++ le_bytes 4 type ++ le_bytes 4 size ++ le_bytes 4 error.

(** [get_quote_emulated] of tdreport_emu.rs *)
Context (get_quote_emulated : bytes → option bytes) (collateral : bytes).

Definition handle_collateral_request : BM unit :=
  if lenz collateral <? PACKED_COLLATERAL_HEADER_SIZE then quote_invalid
  else
    let field a n := le_bytes n (le_val (take n (drop a collateral))) in
    let collaterals_data := drop 32 collateral in
    let msg_size := GET_COLLATERAL_RESPONSE_HEADER + lenz collaterals_data in
    let total_size := msg_size + 2 * 2 in
    let out_len := SERVTD_HEADER_SIZE + total_size in
    let data_start := 24 in
    n ← buf_len;
    if n <? data_start + out_len then quote_invalid
    else
      _ ← buf_write data_start (be_bytes4 total_size);
      let rsp_start := data_start + SERVTD_HEADER_SIZE in
      _ ← buf_write rsp_start (qgs_header 1 0 3 (as_u 32 total_size) 0);
      _ ← buf_write (rsp_start + 16)
            (field 0%nat 2%nat ++ field 2%nat 2%nat ++ field 4%nat 4%nat ++ field 8%nat 4%nat ++ field 12%nat 4%nat ++
             field 16%nat 4%nat ++ field 20%nat 4%nat ++ field 24%nat 4%nat ++ field 28%nat 4%nat);
      _ ← buf_write (rsp_start + GET_COLLATERAL_RESPONSE_HEADER) collaterals_data;
      _ ← buf_write 20 (le_bytes 4 (as_u 32 out_len));
      _ ← buf_write 8 (le_bytes 8 0);
      notify_event.

(** The answer goes where the request was, behind a header when it came with one. *)
Definition write_quote (has_qgs_header : bool) (n : Z) (quote : bytes) : BM unit :=
  if has_qgs_header then
    let qgs_response_size := QGS_GET_QUOTE_RESP_HEADER_SIZE + lenz quote in
    let response_offset := 24 in
    let required_space := SERVTD_HEADER_SIZE + qgs_response_size in
    if n <? response_offset + required_space then quote_invalid
    else
      _ ← buf_write response_offset (be_bytes4 qgs_response_size);
      let qgs_msg_offset := response_offset + SERVTD_HEADER_SIZE in
      _ ← buf_write qgs_msg_offset (qgs_header 1 1 GET_QUOTE_RESP (as_u 32 qgs_response_size) 0);
      _ ← buf_write (qgs_msg_offset + 16) (le_bytes 4 0);
      _ ← buf_write (qgs_msg_offset + 20) (le_bytes 4 (as_u 32 (lenz quote)));
      _ ← buf_write (qgs_msg_offset + QGS_GET_QUOTE_RESP_HEADER_SIZE) quote;
      buf_write 20 (le_bytes 4 (as_u 32 required_space))
  else
    let quote_start_offset := 24 in
    if n <? quote_start_offset + lenz quote then quote_invalid
    else
      _ ← buf_write quote_start_offset quote;
      buf_write 20 (le_bytes 4 (as_u 32 (lenz quote))).

Definition handle_quote_request (has_qgs_header : bool) : BM unit :=
  let tdreport_offset := if has_qgs_header then 24 + SERVTD_HEADER_SIZE + QGS_GET_QUOTE_REQ_HEADER_SIZE else 24 in
  n ← buf_len;
  if n <? tdreport_offset + TDREPORT_SIZE then quote_invalid
  else
    tdreport_data ← buf_read tdreport_offset (tdreport_offset + TDREPORT_SIZE);
    match get_quote_emulated tdreport_data with
    | None => _ ← buf_write 8 (le_bytes 8 ERROR_STATUS); notify_event
    | Some quote =>
        _ ← write_quote has_qgs_header n quote;
        _ ← buf_write 8 (le_bytes 8 0);
        notify_event
    end.

Definition tdvmcall_get_quote : BM unit :=
  _ ← on_emu (emu_read_log_entries mem);
  n ← buf_len;
  _ ← err_if (n <? 24) (Failed TdVmcallError.VmcallOperandInvalid);
  il ← buf_read 16 20;
  let in_len := le_val il in
  _ ← err_if ((in_len =? 0) || (n <? 24 + in_len)) (Failed TdVmcallError.VmcallOperandInvalid);
  if 24 + SERVTD_HEADER_SIZE + 16 <=? n then
    major ← buf_read 28 30;
    minor ← buf_read 30 32;
    type ← buf_read 32 36;
    if (le_val major =? 1) && (le_val minor =? 1) then
      if le_val type =? GET_COLLATERAL_REQ then handle_collateral_request
      else if le_val type =? GET_QUOTE_REQ then handle_quote_request true
      else handle_quote_request false
    else handle_quote_request false
  else handle_quote_request false.
End calls.
