(* ===== verification/EmuVmmSpec.v ===== *)
(** * EmuVmmSpec: the emulated VMM serves the migration TD

    The requests queued in the emulator (EmuVmm) reach the migration TD (Session)
    as they were queued and in that order; the metadata fields it keeps are a TDX
    module for the model of ServtdExt; and the two places where what it serves is
    refused by the migration TD. *)
From stdpp Require Import base tactics numbers option strings list list_numbers gmap.
From S2P Require Import Prelude MigData MigDataSpec PreSessionSpec Session SessionSpec ServtdExt EmuLog EmuLogSpec PolicyV2 MigPolicy EmuVmm.
Local Open Scope Z_scope.

#[local] Notation bytes := (list Z).

(** ** Writing a buffer from left to right *)

Lemma buf_write_next e (pre rest : bytes) d a : a = lenz pre → lenz d <= lenz rest →
  buf_write a d (e, pre ++ rest) = (Ok tt, (e, (pre ++ d) ++ drop (length d) rest)).
Proof.
  intros Ha Hd. unfold buf_write. rewrite getS_bind. cbn [snd].
  assert (write_at (pre ++ rest) a d = Some ((pre ++ d) ++ drop (length d) rest)) as ->.
  { subst a. unfold lenz in Hd. rewrite <-(take_drop (length d) rest) at 1. rewrite <-app_assoc.
    apply write_at_app; [done|]. rewrite length_take. lia. }
  by rewrite or_panic_bind.
Qed.

Lemma clear_bytes_next e (pre rest : bytes) n a : a = lenz pre → Z.of_nat n <= lenz rest →
  clear_bytes a n (e, pre ++ rest) = (Ok tt, (e, (pre ++ zeros (Z.of_nat n)) ++ drop n rest)).
Proof.
  revert pre rest a. induction n as [|n IH]; intros pre rest a Ha Hn; cbn [clear_bytes].
  { by rewrite app_nil_r. }
  rewrite (M_bind_Ok _ _ _ _ _ (buf_write_next e pre rest [0] a Ha ltac:(unfold lenz in *; cbn [length]; lia))).
  rewrite IH; [|rewrite lenz_app, Ha; done|unfold lenz in *; cbn [length]; rewrite length_drop; lia].
  rewrite drop_drop, <-(app_assoc pre). cbn [length Nat.add]. repeat f_equal.
  change [0] with (zeros 1). rewrite <-zeros_add by lia. f_equal. lia.
Qed.

Lemma write_uuid_next e (pre rest : bytes) uuid a : a = lenz pre → 8 * lenz uuid <= lenz rest →
  write_uuid a uuid (e, pre ++ rest) = (Ok tt, (e, (pre ++ concat (map (le_bytes 8) uuid)) ++ drop (8 * length uuid) rest)).
Proof.
  revert pre rest a. induction uuid as [|v uuid IH]; intros pre rest a Ha Hn; cbn [write_uuid map concat].
  { by rewrite app_nil_r. }
  rewrite lenz_cons in Hn.
  rewrite (M_bind_Ok _ _ _ _ _ (buf_write_next e pre rest (le_bytes 8 v) a Ha ltac:(rewrite lenz_le_bytes; pose proof (lenz_nonneg uuid); lia))).
  rewrite IH; [|rewrite lenz_app, lenz_le_bytes; lia|rewrite length_le_bytes; unfold lenz in *; rewrite length_drop; lia].
  rewrite length_le_bytes, drop_drop, <-(app_assoc pre). repeat f_equal. cbn [length]. lia.
Qed.

(** ** Requests *)

Definition req_id (r : EmuMigRequest) : Z :=
  match r with
  | EmuStartMigration id _ _ _ | EmuStartRebinding id _ _ _ _ | EmuGetTDReport id _ | EmuEnableLogArea id _ | EmuGetMigtdData id _ => id
  end.

(** The values have their types. *)
Definition req_ok (r : EmuMigRequest) : Prop :=
  in_u 64 (req_id r) ∧
  match r with
  | EmuStartMigration _ src uuid bh => in_u 8 src ∧ length uuid = 4%nat ∧ Forall (in_u 64) uuid ∧ in_u 64 bh
  | EmuStartRebinding _ src op uuid bh => in_u 8 src ∧ in_u 8 op ∧ length uuid = 4%nat ∧ Forall (in_u 64) uuid ∧ in_u 64 bh
  | EmuGetTDReport _ d | EmuGetMigtdData _ d => length d = 64%nat ∧ bytes_ok d
  | EmuEnableLogArea _ l => in_u 8 l
  end.

Definition req_status (r : EmuMigRequest) : Z :=
  match r with
  | EmuStartMigration _ _ _ _ => 0x101 | EmuStartRebinding _ _ _ _ _ => 0x201 | EmuGetTDReport _ _ => 0x301
  | EmuEnableLogArea _ _ => 0x401 | EmuGetMigtdData _ _ => 0x501
  end.

Definition req_payload (r : EmuMigRequest) : bytes :=
  match r with
  | EmuStartMigration id src uuid bh => le_bytes 8 id ++ [src] ++ zeros 7 ++ concat (map (le_bytes 8) uuid) ++ le_bytes 8 bh
  | EmuStartRebinding id src op uuid bh =>
      le_bytes 8 id ++ [src] ++ [0] ++ [op] ++ zeros 5 ++ concat (map (le_bytes 8) uuid) ++ le_bytes 8 bh
  | EmuGetTDReport id d | EmuGetMigtdData id d => le_bytes 8 id ++ d
  | EmuEnableLogArea id l => le_bytes 8 id ++ [l] ++ zeros 7
  end.

Lemma length_uuid_bytes (uuid : list Z) : length uuid = 4%nat → length (concat (map (le_bytes 8) uuid)) = 32%nat.
Proof. intros H. by rewrite length_words, H. Qed.

Ltac req_len := unfold lenz; repeat (progress rewrite ?length_app, ?length_le_bytes, ?length_zeros, ?length_uuid_bytes by assumption; cbn [length]); cbn; try lia.

Lemma req_payload_len r : req_ok r → lenz (req_payload r) =
  match r with EmuStartMigration _ _ _ _ | EmuStartRebinding _ _ _ _ _ => 56 | EmuGetTDReport _ _ | EmuGetMigtdData _ _ => 72 | EmuEnableLogArea _ _ => 16 end.
Proof.
  intros [_ H]. destruct r; cbn [req_payload]; [destruct H as (_ & Hu & _)|destruct H as (_ & _ & Hu & _)|destruct H as [Hd _]|idtac|destruct H as [Hd _]];
    unfold lenz; rewrite ?length_app, ?length_le_bytes, ?length_zeros, ?length_uuid_bytes by done; cbn [length]; try lia; rewrite Hd; lia.
Qed.

(** The header and the payload replace the start of the buffer. *)
Definition filled (r : EmuMigRequest) (b : bytes) : bytes :=
  le_bytes 8 (req_status r) ++ le_bytes 4 (lenz (req_payload r)) ++ req_payload r ++ drop (12 + length (req_payload r)) b.

Lemma fill_header e b st len : GHCI_HEADER + len <= lenz b → 0 <= len →
  request_header st len (e, b) = (Ok tt, (e, (le_bytes 8 st ++ le_bytes 4 len) ++ drop 12 b)).
Proof.
  unfold GHCI_HEADER. intros Hb Hl. unfold request_header, buf_len. rewrite M_bind_eq, getS_bind. cbn [snd]. unfold mret at 1, M_ret.
  rewrite err_if_bind, (proj2 (Z.ltb_ge _ _)) by (unfold GHCI_HEADER; lia).
  rewrite (M_bind_Ok _ _ _ _ _ (buf_write_next e [] b (le_bytes 8 st) 0 eq_refl ltac:(rewrite lenz_le_bytes; lia))). rewrite app_nil_l.
  rewrite buf_write_next; [|by rewrite lenz_le_bytes|rewrite length_le_bytes, lenz_le_bytes; unfold lenz in *; rewrite length_drop; lia].
  by rewrite !length_le_bytes, drop_drop.
Qed.

(** One write after another; the side conditions are sizes. *)
Ltac wr_side := unfold lenz in *; rewrite ?length_drop; req_len.
Ltac wr_next :=
  erewrite M_bind_Ok by (first [apply buf_write_next|apply clear_bytes_next|apply write_uuid_next]; [req_len|wr_side]);
  rewrite ?drop_drop.
Ltac wr_last := rewrite buf_write_next; [|req_len|wr_side]; rewrite ?drop_drop.

Ltac unfold_fill := unfold fill_start_migration, fill_get_td_report, fill_enable_log_area, fill_start_rebinding, fill_get_migtd_data.

Lemma fill_request_spec e b r : req_ok r → GHCI_HEADER + lenz (req_payload r) <= lenz b →
  fill_request r (e, b) = (Ok tt, (e, filled r b)).
Proof.
  intros Hr Hb. pose proof (req_payload_len r Hr) as Hl. unfold filled. replace (length (req_payload r)) with (Z.to_nat (lenz (req_payload r))) by apply to_nat_lenz.
  rewrite Hl in Hb |- *. unfold GHCI_HEADER in *. destruct Hr as [_ H].
  destruct r as [id src uuid bh|id src op uuid bh|id d|id l|id d]; cbn [fill_request req_status req_payload] in *; unfold_fill;
    (erewrite M_bind_Ok by (apply fill_header; [exact Hb|done])); unfold GHCI_HEADER.
  - destruct H as (_ & Hu & _). do 4 wr_next. wr_last. rewrite !length_le_bytes, Hu, <-!app_assoc. done.
  - destruct H as (_ & _ & Hu & _). do 6 wr_next. wr_last. rewrite !length_le_bytes, Hu, <-!app_assoc. done.
  - destruct H as [Hd _]. wr_next. wr_last. rewrite !length_le_bytes, Hd, <-!app_assoc. done.
  - do 2 wr_next. rewrite clear_bytes_next; [|req_len|wr_side]. rewrite drop_drop, !length_le_bytes, <-!app_assoc. done.
  - destruct H as [Hd _]. wr_next. wr_last. rewrite !length_le_bytes, Hd, <-!app_assoc. done.
Qed.

(** A buffer that is too small is left alone. *)
Lemma fill_request_small e b r : req_ok r → lenz b < GHCI_HEADER + lenz (req_payload r) →
  fill_request r (e, b) = (Err (Failed TdVmcallError.Other), (e, b)).
Proof.
  intros Hr. rewrite (req_payload_len r Hr). intros Hb.
  destruct r; cbn [fill_request]; unfold_fill; unfold request_header, buf_len; rewrite M_bind_eq, M_bind_eq, getS_bind; unfold mret at 1, M_ret;
    cbn [snd]; rewrite err_if_bind, (proj2 (Z.ltb_lt _ _)) by exact Hb; done.
Qed.

(** ** The log areas in between *)

Definition logs_ok (e : Emu) : Prop := match LOG_AREA_MANAGER e with Some m => reader_ok m | None => True end.

Section served.
Context (mem : Z → bytes) (Hmem : ∀ a, bytes_ok (mem a)).

Lemma emu_read_total e : logs_ok e → ∃ m', emu_read_log_entries mem e = (Ok tt, set_manager m' e) ∧ logs_ok (set_manager m' e).
Proof.
  unfold logs_ok, emu_read_log_entries, manager_op, with_manager. destruct (LOG_AREA_MANAGER e) as [m|] eqn:Em.
  - intros Hok. destruct (read_log_entries_total mem Hmem m Hok) as (m' & -> & Hok' & _). by exists (Some m').
  - intros _. exists None. split; [|done]. f_equal. destruct e. cbn in Em. by subst.
Qed.

(** [on_emu] of a call whose result is known *)
Lemma on_emu_Ok {A B} (m : EM A) (f : A → BM B) e b a e' : m e = (Ok a, e') → (on_emu m ≫= f) (e, b) = f a (e', b).
Proof. intros H. rewrite M_bind_eq. unfold on_emu. cbn [fst snd]. by rewrite H. Qed.

(** What a call leaves of the emulator besides its queue: the log areas may have
    been read, and the vector may have fired. *)
Record after_call (vector : Z) (e e' : Emu) : Prop := {
  ac_net : net e' = net e;
  ac_fields : fields e' = fields e;
  ac_vector : EVENT_NOTIFY_VECTOR e' = EVENT_NOTIFY_VECTOR e;
  ac_callbacks : CALLBACKS (intr e') = CALLBACKS (intr e);
  ac_fired : fired (intr e') = fired (intr e) ++ (if bool_decide (vector ∈ CALLBACKS (intr e)) then [vector] else []);
  ac_logs : logs_ok e' }.

Lemma trigger_after vector e : logs_ok e → after_call vector e (trigger vector e) ∧ MIG_REQUEST (trigger vector e) = MIG_REQUEST e.
Proof.
  intros Hl. unfold trigger. destruct (bool_decide (vector ∈ CALLBACKS (intr e))) eqn:Ev; (split; [|done]); split; try done; rewrite Ev; [done|].
  by rewrite app_nil_r.
Qed.

(** The whole call: the first request of the queue is in the buffer. *)
Lemma waitforrequest_spec vector e b r rest : logs_ok e → MIG_REQUEST e = r :: rest → req_ok r → GHCI_HEADER + lenz (req_payload r) <= lenz b →
  ∃ e', tdvmcall_migtd_waitforrequest mem vector (e, b) = (Ok tt, (e', filled r b)) ∧ MIG_REQUEST e' = rest ∧ after_call vector e e'.
Proof.
  intros Hl Hq Hr Hb. destruct (emu_read_total e Hl) as (m' & Em & Hl'). unfold tdvmcall_migtd_waitforrequest.
  rewrite (on_emu_Ok _ _ _ _ _ _ Em), getS_bind. cbn [fst set_manager MIG_REQUEST]. rewrite Hq, modifyS_bind. cbn [fst snd].
  rewrite (M_bind_Ok _ _ _ _ _ (fill_request_spec _ _ r Hr Hb)). unfold signal, modifyS. cbn [fst snd].
  set (e1 := set_queue rest (set_manager m' e)). assert (logs_ok e1) as Hl1 by done.
  destruct (trigger_after vector e1 Hl1) as [[] Hq1]. eexists. split; [done|]. split; [done|]. by split.
Qed.

(** With no request queued nothing is written and nothing fires. *)
Lemma waitforrequest_empty vector e b : logs_ok e → MIG_REQUEST e = [] →
  ∃ m', tdvmcall_migtd_waitforrequest mem vector (e, b) = (Ok tt, (set_manager m' e, b)) ∧ logs_ok (set_manager m' e).
Proof.
  intros Hl Hq. destruct (emu_read_total e Hl) as (m' & Em & Hl'). exists m'. split; [|done]. unfold tdvmcall_migtd_waitforrequest.
  rewrite (on_emu_Ok _ _ _ _ _ _ Em), getS_bind. cbn [fst set_manager MIG_REQUEST]. by rewrite Hq.
Qed.

(** ** The migration TD takes the requests *)

Section features.
Context `{F : Features} (Hraw : vmcall_raw = true).

(** What a queued request asks for. *)
Definition info_of (id src : Z) (uuid : list Z) (bh : Z) : MigtdMigrationInformation :=
  mkMigInfo id src 0 (zeros 6) uuid bh 0 0 (if policy_v2 then zeros 512 else []).

Definition request_of (r : EmuMigRequest) : WaitForRequestResponse :=
  match r with
  | EmuStartMigration id src uuid bh => StartMigration (mkInformation (info_of id src uuid bh) None None)
  | EmuStartRebinding id src _ uuid bh => StartRebinding (info_of id src uuid bh)
  | EmuGetTDReport id d => GetTdReport (mkReportInfo id d)
  | EmuEnableLogArea id l => EnableLogArea (mkLogArea id l (zeros 7))
  | EmuGetMigtdData id d => GetMigtdData (mkReportInfo id d)
  end.

(** The build takes the request. *)
Definition takes (r : EmuMigRequest) : Prop :=
  match r with
  | EmuStartMigration _ _ _ _ | EmuEnableLogArea _ _ => True
  | EmuStartRebinding _ _ op _ _ => policy_v2 = true ∧ op = 0
  | EmuGetTDReport _ _ => AzCVMEmu = true
  | EmuGetMigtdData _ _ => policy_v2 = true
  end.

Lemma info_of_ok id src uuid bh : in_u 64 id → in_u 8 src → length uuid = 4%nat → Forall (in_u 64) uuid → in_u 64 bh →
  info_ok (info_of id src uuid bh).
Proof.
  intros. unfold info_of. constructor; [constructor; cbn; try done|done|by left|intros _ Hv; cbn; by rewrite Hv].
  - by rewrite Hraw.
  - by destruct policy_v2.
Qed.

Lemma wire_info_of id src uuid bh : in_u 8 src →
  wire_mig_info (info_of id src uuid bh) = le_bytes 8 id ++ [src] ++ zeros 7 ++ concat (map (le_bytes 8) uuid) ++ le_bytes 8 bh.
Proof.
  intros Hs. unfold wire_mig_info, wire_header, info_of.
  cbn [mig_request_id migration_source has_init_data mi_reserved target_td_uuid binding_handle Z.eqb].
  by rewrite Hraw, !app_nil_r, (le_bytes_1 src Hs).
Qed.

Lemma filled_carries r b : req_ok r → takes r → carries (filled r b) (request_of r).
Proof.
  intros Hr Ht. exists (req_status r), (req_payload r), (drop (12 + length (req_payload r)) b).
  destruct Hr as [Hid H]. split_and!; [by destruct r|by destruct r|by destruct r| |done].
  destruct r as [id src uuid bh|id src op uuid bh|id d|id l|id d]; cbn [request_of payload_of req_payload takes req_id] in *.
  - destruct H as (Hs & Hu & Hur & Hb). exists (info_of id src uuid bh). split_and!; [done|by apply info_of_ok|by rewrite wire_info_of].
  - destruct H as (Hs & _ & Hu & Hur & Hb), Ht as [Hv ->]. split_and!; [by rewrite Hraw, Hv|by apply info_of_ok|by rewrite wire_info_of].
  - destruct H as [Hd _]. split; [done|]. split_and!; [done|done|by left].
  - split_and!; try done. by rewrite <-(le_bytes_1 l).
  - destruct H as [Hd _]. split; [by rewrite Hraw, Ht|]. split_and!; [done|done|by left].
Qed.

(** A new request that a buffer carries is accepted. *)
Lemma carries_parsed b w s : bytes_ok b → lenz b < 2 ^ 32 → carries b w → request_id_of w ∉ REQUESTS s →
  parse_request b REQ_HEADER_LEN s = (Ready (Ok w), mkReqState ({[request_id_of w]} ∪ REQUESTS s) (pending_error_report s)).
Proof.
  intros Hb Hl Hc Hn. destruct (parse_request_cases b s Hb Hl) as [(Hno & _)|[(w' & Hw & E)|(Hno & _)]]; [by destruct (Hno w)| |by destruct (Hno w)].
  rewrite E, (carries_unique b w' w) by done. unfold try_accept_request. by rewrite bool_decide_false.
Qed.

(** What the emulator leaves in the page of a report without data. *)
Definition EMPTY_ANSWER : bytes := le_bytes 8 1 ++ le_bytes 4 0 ++ zeros 4084.

(** The report of an error, if there was one, reaches the emulator. *)
Definition error_reported (vector : Z) (reports : list (Z * Z * bytes)) (e : Emu) : Emu :=
  match reports with
  | (id, word, page) :: _ => (tdvmcall_migtd_reportstatus mem id word vector (e, page)).2.1
  | [] => e
  end.

(** One [wait_for_request] of the migration TD with the emulator behind the calls:
    the buffer the emulator leaves is what the TD finds, and the flag is up when a
    callback is registered for the vector. *)
Definition td_wait (policy event_log : option bytes) (vector : Z) (e : Emu) (v : Vmm) :
  outcome (aerr MigrationResult) WaitForRequestResponse * Emu * Vmm :=
  let size := match calculate_shared_page_nums policy event_log REQ_HEADER_LEN with Ok n => n * SESSION_PAGE_SIZE | _ => 0 end in
  let buffer : bytes := zeros size in
  let '(r, (e', b)) := tdvmcall_migtd_waitforrequest mem vector (e, buffer) in
  let up := bool_decide (vector ∈ CALLBACKS (intr e)) && negb (bool_decide (MIG_REQUEST e = [])) in
  let v0 := mkVmm (requests v) [true; true] [match r with Ok _ => true | _ => false end; true] [mkWaitPoll up (Some b)] [EMPTY_ANSWER]
             (vm_services v) (vm_reports v) (vm_commands v) in
  let '(w, v') := wait_for_request policy event_log v0 in
  (w, error_reported vector (drop (length (vm_reports v)) (vm_reports v')) e', v').

(** Waits in a row. *)
Fixpoint td_waits (policy event_log : option bytes) (vector : Z) (n : nat) (e : Emu) (v : Vmm) :
  list (outcome (aerr MigrationResult) WaitForRequestResponse) * Emu * Vmm :=
  match n with
  | O => ([], e, v)
  | S n =>
      let '(w, e', v') := td_wait policy event_log vector e v in
      let '(ws, e'', v'') := td_waits policy event_log vector n e' v' in
      (w :: ws, e'', v'')
  end.

Lemma filled_bytes_ok r b : req_ok r → bytes_ok b → bytes_ok (filled r b).
Proof.
  intros [Hid H] Hb. unfold filled. assert (∀ n, bytes_ok (zeros n)) as Hz by (intros n; apply Forall_replicate; unfold in_u; lia).
  assert (∀ uuid, bytes_ok (concat (map (le_bytes 8) uuid))) as Hu.
  { intros uuid. induction uuid; [apply Forall_nil_2|]. cbn [map concat]. apply Forall_app. split; [apply le_bytes_ok|done]. }
  assert (∀ x, in_u 8 x → bytes_ok [x]) as H1 by (intros x Hx; by apply Forall_cons_2).
  assert (in_u 8 0) as H0 by (unfold in_u; lia).
  repeat (apply Forall_app; split); try apply le_bytes_ok; [|by apply Forall_drop].
  destruct r; cbn [req_payload req_id] in *; repeat (apply Forall_app; split); try apply le_bytes_ok; try apply Hz; try apply Hu; try apply H1; naive_solver.
Qed.

Lemma filled_length r b : GHCI_HEADER + lenz (req_payload r) <= lenz b → lenz (filled r b) = lenz b.
Proof. intros Hb. unfold filled, GHCI_HEADER in *. rewrite !lenz_app, !lenz_le_bytes. unfold lenz in *. rewrite length_drop. lia. Qed.

(** A wait whose buffer is parsed to a result: the TD returns it, after a report if
    it is an error. *)
Definition wait_result (res : outcome MigrationResult WaitForRequestResponse) (report : option (Z * MigrationResult)) : SM WaitForRequestResponse :=
  match res with
  | Ok w => mret w
  | Err status => _ ← (match report with Some (id, st) => report_wait_for_request_error id st | None => mret tt end); sfail status
  | Panic => panicM
  end.

Lemma td_wait_ready policy event_log p el vector e v r rest : policy = Some p → event_log = Some el → lenz p + lenz el < 2 ^ 31 →
  logs_ok e → vector ∈ CALLBACKS (intr e) → MIG_REQUEST e = r :: rest → req_ok r →
  ∃ e' b, MIG_REQUEST e' = rest ∧ after_call vector e e' ∧ bytes_ok (filled r b) ∧ lenz (filled r b) < 2 ^ 32 ∧
    ∀ res s', parse_request (filled r b) REQ_HEADER_LEN (mkReqState (requests v) None) = (Ready res, s') →
    td_wait policy event_log vector e v =
      let '(w, v') := wait_result res (pending_error_report s')
        (mkVmm (REQUESTS s') [true] [true] [] [EMPTY_ANSWER] (vm_services v) (vm_reports v) (vm_commands v)) in
      (w, error_reported vector (drop (length (vm_reports v)) (vm_reports v')) e', v').
Proof.
  intros Hp Hel Hlen Hl Hv Hq Hr. unfold td_wait, wait_for_request.
  destruct (calculate_shared_page_nums policy event_log REQ_HEADER_LEN) as [n| |] eqn:En; [|by subst..]. cbv zeta.
  destruct (shared_pages policy event_log n En) as (p' & el' & E1 & E2 & Hsize). rewrite Hp in E1. rewrite Hel in E2. injection E1 as <-. injection E2 as <-.
  assert (4096 <= n * SESSION_PAGE_SIZE < 2 ^ 32) as Hs by (unfold SESSION_PAGE_SIZE in *; lia).
  set (size := n * SESSION_PAGE_SIZE) in *. assert (lenz (zeros size) = size) as Hz by (apply lenz_zeros; lia).
  assert (GHCI_HEADER + lenz (req_payload r) <= lenz (zeros size)) as Hfit
    by (rewrite Hz, (req_payload_len r Hr); unfold GHCI_HEADER; destruct r; lia).
  destruct (waitforrequest_spec vector e (zeros size) r rest Hl Hq Hr Hfit) as (e' & -> & Hq' & Ha).
  exists e', (zeros size). split; [done|]. split; [done|].
  split; [apply filled_bytes_ok; [done|apply Forall_replicate; unfold in_u; lia]|]. split; [rewrite filled_length, Hz by done; lia|]. intros res s' Hparse.
  rewrite bool_decide_true, bool_decide_false by (done || by rewrite Hq). cbn [andb negb].
  rewrite liftO_bind, M_bind_eq. unfold shared_memory. rewrite getS_bind. cbn [vm_allocs]. rewrite modifyS_bind.
  unfold mret at 1, M_ret. fold size.
  destruct (write_at_fits (zeros size) 0 (req_header_as_bytes (mkReqHeader 0 0))) as (d & Ed & Hd);
    [lia|rewrite Hz; change (lenz (req_header_as_bytes (mkReqHeader 0 0))) with 12; lia|].
  rewrite Ed, or_panic_bind, M_bind_eq. unfold tdvmcall. rewrite getS_bind. cbn [vm_calls]. rewrite modifyS_bind. cbn [negb err_if].
  unfold mret at 1, M_ret. rewrite getS_bind, M_bind_eq. cbn [vm_waits wait_poll requests]. rewrite modifyS_bind. cbn [wp_flag wp_copy negb].
  rewrite getS_bind. cbn [requests].
  assert (fit (lenz d) (filled r (zeros size)) = filled r (zeros size)) as ->.
  { unfold fit. rewrite Hd, <-(filled_length r (zeros size) Hfit), to_nat_lenz. by rewrite take_app_length. }
  rewrite Hparse. rewrite modifyS_bind. by destruct res.
Qed.

Lemma td_wait_delivers policy event_log p el vector e v r rest : policy = Some p → event_log = Some el → lenz p + lenz el < 2 ^ 31 →
  logs_ok e → vector ∈ CALLBACKS (intr e) → MIG_REQUEST e = r :: rest → req_ok r → takes r → req_id r ∉ requests v →
  ∃ e' v', td_wait policy event_log vector e v = (Ok (request_of r), e', v') ∧ MIG_REQUEST e' = rest ∧ after_call vector e e' ∧
    requests v' = {[req_id r]} ∪ requests v ∧ vm_reports v' = vm_reports v.
Proof.
  intros Hp Hel Hlen Hl Hv Hq Hr Ht Hn.
  destruct (td_wait_ready policy event_log p el vector e v r rest Hp Hel Hlen Hl Hv Hq Hr) as (e' & b & Hq' & Ha & Hok & Hlf & Hw).
  assert (request_id_of (request_of r) = req_id r) as Hid by (by destruct r).
  rewrite (Hw _ _ (carries_parsed _ _ (mkReqState (requests v) None) Hok Hlf (filled_carries r b Hr Ht) ltac:(by rewrite Hid))).
  unfold wait_result, mret, M_ret. cbn [vm_reports]. rewrite drop_all, Hid. by eexists e', _.
Qed.

Lemma td_waits_deliver policy event_log p el vector q e v : policy = Some p → event_log = Some el → lenz p + lenz el < 2 ^ 31 →
  logs_ok e → vector ∈ CALLBACKS (intr e) → MIG_REQUEST e = q → Forall (λ r, req_ok r ∧ takes r) q → NoDup (req_id <$> q) →
  (∀ r, r ∈ q → req_id r ∉ requests v) →
  ∃ e' v', td_waits policy event_log vector (length q) e v = (Ok ∘ request_of <$> q, e', v') ∧ MIG_REQUEST e' = [] ∧ net e' = net e ∧
    fields e' = fields e ∧ requests v' = list_to_set (req_id <$> q) ∪ requests v ∧ vm_reports v' = vm_reports v.
Proof.
  intros Hp Hel Hlen. revert e v. induction q as [|r q IH]; intros e v Hl Hv Hq Hok Hnd Hfresh; cbn [length td_waits fmap list_fmap].
  { exists e, v. split_and!; try done. cbn. set_solver. }
  apply Forall_cons in Hok as [[Hr Ht] Hok]. apply NoDup_cons in Hnd as [Hnew Hnd].
  destruct (td_wait_delivers policy event_log p el vector e v r q Hp Hel Hlen Hl Hv Hq Hr Ht ltac:(apply Hfresh; set_solver))
    as (e1 & v1 & -> & Hq1 & [] & Hreq & Hrep).
  destruct (IH e1 v1) as (e' & v' & -> & Hq' & Hn' & Hf' & Hreq' & Hrep'); try done; [by rewrite ac_callbacks0| |].
  { intros r' Hr'. rewrite Hreq. intros [Heq%elem_of_singleton|Hin]%elem_of_union; [|by apply (Hfresh r'); [set_solver|]].
    apply Hnew. rewrite <-Heq. by apply list_elem_of_fmap_2. }
  exists e', v'. split_and!; [done|done|congruence|congruence| |congruence]. rewrite Hreq', Hreq. cbn. set_solver.
Qed.
End features.
End served.

(** The marks keep the identifiers of a flow apart. *)
Lemma marked id k : 0 <= id < 2 ^ 62 → 62 <= k < 64 → Z.lor id (2 ^ k) = id + 2 ^ k.
Proof.
  intros Hid Hk. assert (Z.land id (2 ^ k) = 0) as H0.
  { apply Z.bits_inj'. intros j Hj. rewrite Z.land_spec, Z.bits_0, Z.pow2_bits_eqb by lia. destruct (Z.eqb_spec k j) as [->|]; [|by rewrite andb_false_r].
    rewrite andb_true_r. destruct (Z.eq_dec id 0) as [->|]; [apply Z.bits_0|]. apply Z.bits_above_log2; [lia|].
    apply Z.lt_le_trans with 62; [apply Z.log2_lt_pow2; lia|lia]. }
  pose proof (Z.add_lor_land id (2 ^ k)) as H. lia.
Qed.

Lemma default_reportdata_ok id text : length (as_bytes text) = 15%nat → Forall (λ b, 0 <= b < 256) (as_bytes text) →
  length (default_reportdata id text) = 64%nat ∧ bytes_ok (default_reportdata id text).
Proof.
  intros Hl Hok. unfold default_reportdata. rewrite !length_app, length_le_bytes, Hl. split; [done|].
  repeat (apply Forall_app; split); [apply le_bytes_ok|done|]. apply Forall_replicate. unfold in_u. lia.
Qed.

(** The conditions under which the migration TD and the emulator work together:
    the features of the emulated build, a policy and an event log of moderate size,
    a callback for the vector, and bytes in memory. *)
Record emulated `{F : Features} (mem : Z → bytes) (policy event_log : option bytes) (vector : Z) (e : Emu) : Prop := {
  em_raw : vmcall_raw = true;
  em_build : AzCVMEmu = true;
  em_mem : ∀ a, bytes_ok (mem a);
  em_sizes : ∃ p el, policy = Some p ∧ event_log = Some el ∧ lenz p + lenz el < 2 ^ 31;
  em_logs : logs_ok e;
  em_vector : vector ∈ CALLBACKS (intr e) }.

Definition fresh_ids (q : list EmuMigRequest) (v : Vmm) : Prop := NoDup (req_id <$> q) ∧ ∀ r, r ∈ q → req_id r ∉ requests v.

(** With the features of the emulated build and a callback for the vector, a
    migration TD that waits as often as there are requests in the queue of the
    emulator gets each of them, decoded to the values it was queued with and in the
    order of the queue: the emulator's header and payload are what [parse_request]
    reads.  Afterwards the queue is empty, the connection and the metadata fields are
    as before, every identifier is recorded by the migration TD and no error was
    reported.  [takes] excludes only the requests that the build does not have and
    the rebinding operation that [rebind_finalize_refused] is about. *)
Theorem emulated_requests_delivered `{F : Features} mem policy event_log vector e v : emulated mem policy event_log vector e →
  Forall (λ r, req_ok r ∧ takes r) (MIG_REQUEST e) → fresh_ids (MIG_REQUEST e) v →
  ∃ e' v', td_waits mem policy event_log vector (length (MIG_REQUEST e)) e v = (Ok ∘ request_of <$> MIG_REQUEST e, e', v') ∧
    MIG_REQUEST e' = [] ∧ net e' = net e ∧ fields e' = fields e ∧
    requests v' = list_to_set (req_id <$> MIG_REQUEST e) ∪ requests v ∧ vm_reports v' = vm_reports v.
Proof.
  intros [] Hok [Hnd Hfresh]. destruct em_sizes0 as (p & el & Hp & Hel & Hl).
  by apply (td_waits_deliver mem em_mem0 em_raw0 policy event_log p el vector (MIG_REQUEST e) e v).
Qed.

(** The queue of a migration, and that of a rebinding: the answer to the first
    request is known by the highest bit of its identifier, that to the second by the
    next. *)
Lemma migration_queue `{F : Features} id src uuid bh e v : AzCVMEmu = true → 0 <= id < 2 ^ 62 → in_u 8 src → length uuid = 4%nat →
  Forall (in_u 64) uuid → in_u 64 bh → MIG_REQUEST e = [] → Forall (λ i, i ∉ requests v) [id + 2 ^ 63; id + 2 ^ 62; id] →
  let q := [EmuEnableLogArea (id + 2 ^ 63) 3; EmuGetTDReport (id + 2 ^ 62) (default_reportdata id "MIGTD_MIGRATION"); EmuStartMigration id src uuid bh] in
  MIG_REQUEST (set_emulated_start_migration id src uuid bh e) = q ∧ Forall (λ r, req_ok r ∧ takes r) q ∧ fresh_ids q v.
Proof.
  intros Hemu Hid Hs Hu Hur Hb Hq Hf q. split; [|split].
  - unfold set_emulated_start_migration, set_emulated_mig_request, set_queue, LOG_MARK, REPORT_MARK. cbn [MIG_REQUEST].
    change 0x8000000000000000 with (2 ^ 63). change 0x4000000000000000 with (2 ^ 62). by rewrite !marked, Hq by lia.
  - destruct (default_reportdata_ok id "MIGTD_MIGRATION") as [Hd1 Hd2]; [done|apply (bool_decide_unpack _); by vm_compute|].
    assert (in_u 64 (id + 2 ^ 63) ∧ in_u 64 (id + 2 ^ 62) ∧ in_u 64 id) as (H1 & H2 & H3) by (unfold in_u; lia).
    apply Forall_cons_2; [done|]. apply Forall_cons_2; [done|]. apply Forall_cons_2; [done|]. apply Forall_nil_2.
  - unfold fresh_ids, q. cbn [fmap list_fmap req_id]. rewrite !NoDup_cons, !elem_of_cons, !elem_of_nil. rewrite !Forall_cons in Hf.
    destruct Hf as (H1 & H2 & H3 & _). split; [split_and!; [lia|lia|naive_solver|apply NoDup_nil_2]|].
    intros r. rewrite !elem_of_cons, elem_of_nil. intros [->|[->|[->|[]]]]; done.
Qed.

(** ** What the migration TD refuses *)

Section refused.
Context `{F : Features} (Hraw : vmcall_raw = true).

Lemma reserved_refused i : policy_v2 = true → fields_ok i → init_td_info i = zeros 512 → mi_reserved i ≠ zeros 6 →
  read_mig_info_v2 (lenz (wire_header i)) (wire_header i) = Err MigrationResult.InvalidParameter.
Proof.
  intros Hv Hfx Hinit Hres. destruct (header_size_v2 Hv) as [Hs Hf]. pose proof (lenz_wire_header i Hfx) as Hw.
  set (k := 56 + (if vmcall_raw then 0 else 16)) in *. assert (0 < k < 2 ^ 32) by (unfold k; destruct vmcall_raw; lia).
  unfold read_mig_info_v2. unfold as_u. rewrite Hw, Z.mod_small, Z.ltb_irrefl by lia. rewrite Hs, Hf, Z.eqb_refl.
  destruct (Z.eqb_spec k (k + 512)); [lia|]. cbn [negb andb]. rewrite slice_take by (rewrite Hw; lia).
  rewrite take_ge by (unfold lenz in Hw; lia). rewrite (pad_header (wire_header i)) by lia. rewrite <-Hinit.
  pose proof (pread_mig_info_wire i [] Hfx) as E. rewrite app_nil_r in E.
  rewrite (proj2 (pread_Ok _ _ _) (ex_intro _ _ E)). cbn [mbind outcome_bind]. by rewrite bool_decide_false.
Qed.

(** The operation byte of a rebinding is among the bytes the migration TD wants
    to be zero: a request to finalize is refused. *)
Lemma rebind_finalize_refused id src op uuid bh b s : policy_v2 = true → req_ok (EmuStartRebinding id src op uuid bh) → op ≠ 0 →
  parse_request (filled (EmuStartRebinding id src op uuid bh) b) REQ_HEADER_LEN s = reject_request (Some id) MigrationResult.InvalidParameter s.
Proof.
  intros Hv2 Hr Hop. set (r := EmuStartRebinding id src op uuid bh) in *. pose proof (req_payload_len r Hr) as Hl. unfold r at 2 in Hl.
  set (i := mkMigInfo id src 0 (op :: zeros 5) uuid bh 0 0 (zeros 512)). destruct Hr as (Hid & Hs & Ho & Hu & Hur & Hbh). cbn [req_id r] in Hid.
  assert (fields_ok i) as Hi by (constructor; cbn; try done; [by rewrite Hraw|by rewrite Hv2]).
  assert (req_payload r = wire_header i) as Ep.
  { cbn [req_payload r]. unfold wire_header, i. cbn [mig_request_id migration_source has_init_data mi_reserved target_td_uuid binding_handle].
    by rewrite Hraw, !app_nil_r, (le_bytes_1 src Hs). }
  pose proof (reserved_refused i Hv2 Hi eq_refl ltac:(cbn; intros [=]; done)) as Hdec. rewrite <-Ep, Hl in Hdec.
  unfold filled. set (rest := drop _ b). unfold parse_request.
  rewrite process_buffer_wire by (done || (rewrite Hl; done)). cbn [datastatus req_length].
  change (req_status r) with 0x201. cbn [Z.eqb Pos.eqb andb]. change (as_u 8 0x201 =? VMM_SUCCESS) with true. cbn [negb].
  change (DataStatusOperation.try_from (as_u 8 (Z.shiftr 0x201 8))) with (Some DataStatusOperation.StartRebinding).
  rewrite payload_wire by (rewrite Hl; done). rewrite Hl, Hraw, Hv2. cbn [andb].
  assert (read_request_id (le_bytes 8 0x201 ++ le_bytes 4 56 ++ req_payload r ++ rest) REQ_HEADER_LEN = Some id) as ->.
  { unfold read_request_id, REQ_HEADER_LEN. change (checked_add 64 12 8) with (Some 20). cbn [mbind option_bind].
    unfold r. cbn [req_payload]. rewrite <-!app_assoc, (app_assoc (le_bytes 8 0x201)).
    rewrite (slice_app _ (le_bytes 8 id)) by (rewrite ?lenz_app, ?lenz_le_bytes; done). cbn [mbind option_bind].
    by rewrite le_val_bytes, Z.mod_small. }
  unfold decode_and_dispatch, read_mig_info_from_bytes. by rewrite Hv2, Hdec.
Qed.
End refused.

(** ** The fields are a TDX module *)

Lemma as_u_range w x : 0 <= w → in_u w (as_u w x).
Proof. intros Hw. unfold in_u, as_u. apply Z.mod_pos_bound. lia. Qed.

(** Values are kept in 64 bits, as in the registers. *)
Definition of_result {A B} (g : A → B) (d : B) (r : outcome TdCallError.t A * Fields) : B * Fields :=
  match r.1 with Ok a => (g a, r.2) | _ => (d, r.2) end.

#[export, refine] Instance emu_module : TdxModule Fields := {|
  servtd_rd h f u t := of_result (λ r, Some (as_u 64 r.1)) None (emu_servtd_rd h f u t);
  servtd_wr h f v u t := of_result (λ _, true) false (emu_servtd_wr h f v u t);
  sys_rd f t := of_result (λ r, Some (as_u 64 r.2)) None (emu_sys_rd f t);
  vm_write f v m t := of_result (λ _, true) false (emu_vm_write f v m t);
  rebind_approve h tok u t := of_result (λ _, true) false (emu_rebind_approve h tok u t) |}.
Proof.
  - intros h f u t x t'. unfold of_result. destruct (emu_servtd_rd h f u t).1; [|done..]. intros [= <- _]. by apply as_u_range.
  - intros f t x t'. unfold of_result. destruct (emu_sys_rd f t).1; [|done..]. intros [= <- _]. by apply as_u_range.
Defined.

(** A word that was written is read back, and no other word has changed. *)
Lemma servtd_wr_rd h f v u t : length u = 4%nat → in_u 64 v →
  ∃ t', servtd_wr h f v u t = (true, t') ∧ servtd_rd h f u t' = (Some v, t') ∧
    ∀ h' f' u', (h', u', f') ≠ (h, u, f) → (servtd_rd h' f' u' t').1 = (servtd_rd h' f' u' t).1.
Proof.
  intros Hu Hv. assert (lenz u =? 4 = true) as Hl by (apply Z.eqb_eq; unfold lenz; lia).
  exists (insert_bound h u f v t). cbn [servtd_wr servtd_rd emu_module]. unfold emu_servtd_wr, emu_servtd_rd, of_result. rewrite Hl. cbn [negb].
  rewrite !err_if_bind. split; [done|]. split.
  - rewrite getS_bind. cbn. rewrite lookup_insert_eq. cbn. unfold as_u. by rewrite Z.mod_small.
  - intros h' f' u' Hne. rewrite !err_if_bind. destruct (negb (lenz u' =? 4)); [done|]. rewrite !getS_bind. cbn.
    rewrite lookup_insert_ne; [done|]. unfold servtd_key. congruence.
Qed.

(** A write to a field of the own TD lands among the fields of the platform,
    whatever its mask, and is found there by a read. *)
Lemma vm_write_is_global f v m t : in_u 64 v →
  ∃ t', vm_write f v m t = (true, t') ∧ sys_rd f t' = (Some v, t') ∧ VM_FIELDS t' = VM_FIELDS t.
Proof.
  intros Hv. exists (insert_sys f v t). split; [done|]. split; [|done]. cbn [sys_rd emu_module]. unfold emu_sys_rd, of_result. rewrite getS_bind. cbn.
  rewrite lookup_insert_eq. cbn. unfold as_u. by rewrite Z.mod_small.
Qed.

(** *** Fields of several words *)

Definition chunk_word (c : bytes) : Z := le_val (c ++ zeros (8 - lenz c)).

Lemma lookup_write_chunks bh u field cs f k : BOUND_FIELDS (write_chunks bh u field cs f) !! servtd_key bh u k =
  if (field <=? k) && (k <? field + lenz cs) then chunk_word <$> cs !! Z.to_nat (k - field) else BOUND_FIELDS f !! servtd_key bh u k.
Proof.
  revert field f. induction cs as [|c cs IH]; intros field f; cbn [write_chunks].
  { change (lenz (@nil bytes)) with 0. destruct (Z.leb_spec field k), (Z.ltb_spec k (field + 0)); try done; lia. }
  rewrite IH, lenz_cons. pose proof (lenz_nonneg cs). destruct (Z.eqb_spec k field) as [->|Hne].
  - rewrite (proj2 (Z.leb_gt (field + 1) field)), Z.leb_refl, (proj2 (Z.ltb_lt field (field + (1 + lenz cs)))), Z.sub_diag by lia. cbn [andb].
    unfold insert_bound. cbn [BOUND_FIELDS]. by rewrite lookup_insert_eq.
  - unfold insert_bound. cbn [BOUND_FIELDS]. rewrite lookup_insert_ne by (unfold servtd_key; congruence).
    destruct (Z.leb_spec field k).
    + rewrite (proj2 (Z.leb_le (field + 1) k)) by lia. replace (field + 1 + lenz cs) with (field + (1 + lenz cs)) by lia. cbn [andb].
      replace (Z.to_nat (k - field)) with (S (Z.to_nat (k - (field + 1)))) by lia. done.
    + by rewrite (proj2 (Z.leb_gt (field + 1) k)) by lia.
Qed.

(** Cutting data into chunks and reading them back. *)
Lemma chunks_roundtrip es n fuel (data : bytes) : (0 < es <= 8)%nat → bytes_ok data → length data = (n * es)%nat → (n <= fuel)%nat →
  length (chunks fuel es data) = n ∧
  concat (zip_with (λ m x, take m (le_bytes 8 x)) (replicate n es) (chunk_word <$> chunks fuel es data)) = data ∧
  Forall (in_u 64) (chunk_word <$> chunks fuel es data).
Proof.
  intros Hes. revert n data. induction fuel as [|fuel IH]; intros n data Hok Hl Hf.
  { assert (n = 0%nat) as -> by lia. by destruct data. }
  destruct n as [|n]; [by destruct data|]. destruct data as [|x0 data0] eqn:Ed; [cbn in Hl; lia|]. rewrite <-Ed in *. clear Ed x0 data0.
  assert (chunks (S fuel) es data = take es data :: chunks fuel es (drop es data)) as -> by (destruct data; [cbn in Hl; lia|done]).
  destruct (IH n (drop es data)) as (H1 & H2 & H3); [by apply Forall_drop|rewrite length_drop; lia|lia|].
  set (c := take es data). assert (length c = es) as Hc by (unfold c; rewrite length_take; lia).
  assert (bytes_ok (c ++ zeros (8 - lenz c))) as Hcok.
  { apply Forall_app. split; [by apply Forall_take|]. apply Forall_replicate. unfold in_u. lia. }
  assert (length (c ++ zeros (8 - lenz c)) = 8%nat) as Hc8 by (rewrite length_app, length_zeros; unfold lenz; lia).
  cbn [length fmap list_fmap replicate zip_with concat]. rewrite H1. split; [done|]. split.
  - rewrite H2. unfold chunk_word at 1. rewrite <-Hc8 at 1. rewrite (le_bytes_val _ Hcok), <-Hc at 1. rewrite take_app_length. unfold c. by rewrite take_drop.
  - apply Forall_cons_2; [|done]. unfold chunk_word. pose proof (le_val_range _ Hcok) as Hr. unfold lenz in Hr at 1. by rewrite Hc8 in Hr.
Qed.

Lemma read_chunks_run bh u field sizes xs (w : TdWorld Fields) : length u = 4%nat → length xs = length sizes → Forall (in_u 64) xs →
  (∀ k x, xs !! k = Some x → BOUND_FIELDS (td_module w) !! servtd_key bh u (field + Z.of_nat k) = Some x) →
  read_chunks bh u field sizes w =
    (Ok (concat (zip_with (λ m x, take m (le_bytes 8 x)) sizes xs)), mkTdWorld (td_module w) (td_log w ++ rd_log bh field u xs)).
Proof.
  intros Hu. revert field xs w. induction sizes as [|n sizes IH]; intros field xs w Hl Hok Hx; (destruct xs as [|x xs]; [|done] || (destruct xs as [|x xs]; [done|])).
  { cbn. rewrite app_nil_r. by destruct w. }
  apply Forall_cons in Hok as [Hx0 Hok]. cbn [read_chunks].
  assert (tdcall_servtd_rd bh field u w = (Ok x, mkTdWorld (td_module w) (td_log w ++ [ServtdRd bh field u (Some x)]))) as E.
  { unfold tdcall_servtd_rd. cbn [servtd_rd emu_module]. unfold emu_servtd_rd, of_result.
    rewrite (proj2 (Z.eqb_eq (lenz u) 4)) by (unfold lenz; lia). cbn [negb]. rewrite err_if_bind, getS_bind. cbn.
    pose proof (Hx 0%nat x eq_refl) as H0. rewrite Z.add_0_r in H0. rewrite H0. cbn. unfold as_u. by rewrite Z.mod_small. }
  rewrite (M_bind_Ok _ _ _ _ _ E). set (w1 := mkTdWorld _ _). assert (td_module w1 = td_module w) as Hw1 by done.
  rewrite (M_bind_Ok _ _ _ _ _ (IH (field + 1) xs w1 ltac:(by injection Hl) Hok ltac:(intros k y Hk; rewrite Hw1;
    replace (field + 1 + Z.of_nat k) with (field + Z.of_nat (S k)) by lia; by apply Hx))). unfold w1.
  cbn [td_module td_log]. rewrite rd_log_cons, <-app_assoc. done.
Qed.

(** *** The extension fields *)

Section populated.
Context (sha384 : bytes → bytes) (Hsha : ∀ d, length (sha384 d) = 48%nat ∧ bytes_ok (sha384 d)).
Context (r : EmuReport) (Hcpu : length (er_cpu_svn r) = 16%nat) (Hcpu8 : bytes_ok (er_cpu_svn r)).
Context (Htcb : (24 <= length (er_tee_tcb_info r))%nat) (Htcb8 : bytes_ok (er_tee_tcb_info r)).

(** The hash the emulator records. *)
Definition recorded_hash : bytes := sha384 (sha384 (er_td_info r) ++ le_bytes 2 0 ++ le_bytes 8 0).

Definition populated_ext : ServtdExt :=
  mkServtdExt recorded_hash (le_bytes 8 0) (zeros 8) (er_cpu_svn r) (take 16 (drop 8 (er_tee_tcb_info r))) (zeros 12) (zeros 4)
    recorded_hash (le_bytes 8 0) (zeros 104).

Lemma write_field_lookup bh u base (data : bytes) es n f k : (0 < es <= 8)%nat → bytes_ok data → length data = (n * es)%nat →
  BOUND_FIELDS (write_field bh u base data es f) !! servtd_key bh u k =
    if (base <=? k) && (k <? base + Z.of_nat n) then chunk_word <$> chunks (length data) es data !! Z.to_nat (k - base)
    else BOUND_FIELDS f !! servtd_key bh u k.
Proof.
  intros Hes Hok Hl. destruct (chunks_roundtrip es n (length data) data Hes Hok Hl ltac:(nia)) as (Hn & _).
  unfold write_field. rewrite lookup_write_chunks. unfold lenz. by rewrite Hn.
Qed.

(** Reading a field whose words are where [write_field] put them. *)
Lemma read_field_run bh u base (data : bytes) es n (w : TdWorld Fields) : length u = 4%nat → (0 < es <= 8)%nat → bytes_ok data →
  length data = (n * es)%nat → chunk_sizes es (length data) = replicate n es →
  (∀ k, (k < n)%nat → BOUND_FIELDS (td_module w) !! servtd_key bh u (base + Z.of_nat k) = chunk_word <$> chunks (length data) es data !! k) →
  ∃ log, read_chunks bh u base (chunk_sizes es (length data)) w = (Ok data, mkTdWorld (td_module w) log).
Proof.
  intros Hu Hes Hok Hl Hs Hx. destruct (chunks_roundtrip es n (length data) data Hes Hok Hl ltac:(nia)) as (Hn & Hc & Hr).
  eexists. rewrite Hs, (read_chunks_run bh u base _ (chunk_word <$> chunks (length data) es data)); try done.
  - by rewrite Hc.
  - by rewrite length_fmap, length_replicate.
  - intros k x Hk. rewrite Hx; [by rewrite <-list_lookup_fmap|]. apply lookup_lt_Some in Hk. rewrite length_fmap in Hk. lia.
Qed.

(** Several fields that do not overlap. *)
Record field_write := mkFieldWrite { fw_base : Z; fw_data : bytes; fw_elem : nat; fw_words : nat }.

Definition fw_ok (x : field_write) : Prop :=
  (0 < fw_elem x <= 8)%nat ∧ bytes_ok (fw_data x) ∧ length (fw_data x) = (fw_words x * fw_elem x)%nat ∧
  chunk_sizes (fw_elem x) (length (fw_data x)) = replicate (fw_words x) (fw_elem x).

Definition apart (x y : field_write) : Prop :=
  fw_base x + Z.of_nat (fw_words x) <= fw_base y ∨ fw_base y + Z.of_nat (fw_words y) <= fw_base x.

Fixpoint all_apart (ws : list field_write) : Prop :=
  match ws with [] => True | x :: ws => Forall (apart x) ws ∧ all_apart ws end.

Definition write_fields (bh : Z) (u : list Z) (ws : list field_write) (f : Fields) : Fields :=
  foldl (λ f x, write_field bh u (fw_base x) (fw_data x) (fw_elem x) f) f ws.

Lemma write_fields_cons bh u x ws f :
  write_fields bh u (x :: ws) f = write_fields bh u ws (write_field bh u (fw_base x) (fw_data x) (fw_elem x) f).
Proof. done. Qed.

Lemma write_fields_other bh u ws x f k : Forall fw_ok ws → Forall (apart x) ws → (k < fw_words x)%nat →
  BOUND_FIELDS (write_fields bh u ws f) !! servtd_key bh u (fw_base x + Z.of_nat k) = BOUND_FIELDS f !! servtd_key bh u (fw_base x + Z.of_nat k).
Proof.
  intros Hok Ha Hk. revert f. induction ws as [|y ws IH]; intros f; [done|]. apply Forall_cons in Hok as [(He & Hb & Hl & _) Hok]. apply Forall_cons in Ha as [Hy Ha].
  rewrite write_fields_cons, IH by done. rewrite (write_field_lookup _ _ _ _ _ (fw_words y)) by done.
  destruct (Z.leb_spec (fw_base y) (fw_base x + Z.of_nat k)), (Z.ltb_spec (fw_base x + Z.of_nat k) (fw_base y + Z.of_nat (fw_words y))); cbn; try done.
  unfold apart in Hy. lia.
Qed.

Lemma write_fields_lookup bh u ws f x k : Forall fw_ok ws → all_apart ws → x ∈ ws → (k < fw_words x)%nat →
  BOUND_FIELDS (write_fields bh u ws f) !! servtd_key bh u (fw_base x + Z.of_nat k) =
    chunk_word <$> chunks (length (fw_data x)) (fw_elem x) (fw_data x) !! k.
Proof.
  intros Hok. revert f. induction ws as [|y ws IH]; intros f Ha Hin Hk; [by apply elem_of_nil in Hin|].
  apply Forall_cons in Hok as [(He & Hb & Hl & Hs) Hok]. destruct Ha as [Hy Ha]. rewrite write_fields_cons. apply elem_of_cons in Hin as [->|Hin]; [|by apply IH].
  rewrite (write_fields_other bh u ws y) by done. rewrite (write_field_lookup _ _ _ _ _ (fw_words y)) by done.
  rewrite (proj2 (Z.leb_le _ _)), (proj2 (Z.ltb_lt _ _)) by lia. cbn [andb]. repeat f_equal. lia.
Qed.

Lemma read_written bh u ws f x log : length u = 4%nat → Forall fw_ok ws → all_apart ws → x ∈ ws →
  ∃ log', read_chunks bh u (fw_base x) (chunk_sizes (fw_elem x) (length (fw_data x))) (mkTdWorld (write_fields bh u ws f) log) =
    (Ok (fw_data x), mkTdWorld (write_fields bh u ws f) log').
Proof.
  intros Hu Hok Ha Hin. assert (fw_ok x) as (He & Hb & Hl & Hs) by (by eapply Forall_forall).
  apply (read_field_run bh u (fw_base x) (fw_data x) (fw_elem x) (fw_words x)); try done. intros k Hk. by apply write_fields_lookup.
Qed.

Definition ext_writes : list field_write :=
  [mkFieldWrite TDCS_FIELD_SERVTD_INIT_SERVTD_INFO_HASH recorded_hash 8 6; mkFieldWrite TDCS_FIELD_SERVTD_INIT_ATTR (le_bytes 8 0) 8 1;
   mkFieldWrite TDCS_FIELD_INIT_CPUSVN (er_cpu_svn r) 8 2; mkFieldWrite TDCS_FIELD_INIT_TEE_TCB_SVN (take 16 (drop 8 (er_tee_tcb_info r))) 8 2;
   mkFieldWrite TDCS_FIELD_INIT_TEE_MODEL (zeros 12) 4 3; mkFieldWrite TDCS_FIELD_SERVTD_INFO_HASH recorded_hash 8 6;
   mkFieldWrite TDCS_FIELD_SERVTD_ATTR (le_bytes 8 0) 8 1].

Lemma populate_writes bh u f : populate_servtd_fields (Some r) sha384 bh u f = Ok (write_fields bh u ext_writes f).
Proof.
  unfold populate_servtd_fields. unfold slice, lenz. rewrite (proj2 (Z.leb_le 24 _)) by lia. cbn [Z.leb Z.compare Pos.compare Pos.compare_cont andb].
  done.
Qed.

Lemma tcb_svn_length : length (take 16 (drop 8 (er_tee_tcb_info r))) = 16%nat.
Proof. rewrite length_take, length_drop. lia. Qed.

Lemma ext_writes_ok : Forall fw_ok ext_writes.
Proof.
  destruct (Hsha (sha384 (er_td_info r) ++ le_bytes 2 0 ++ le_bytes 8 0)) as [H1 H2]. fold recorded_hash in H1, H2. pose proof tcb_svn_length as H3.
  assert (bytes_ok (zeros 12)) as H4 by (apply Forall_replicate; unfold in_u; lia). pose proof (le_bytes_ok 8 0) as H5.
  assert (bytes_ok (take 16 (drop 8 (er_tee_tcb_info r)))) as H6 by (by apply Forall_take, Forall_drop).
  apply Forall_forall. intros x Hx. unfold ext_writes in Hx. rewrite !elem_of_cons, elem_of_nil in Hx.
  destruct Hx as [->|[->|[->|[->|[->|[->|[->|[]]]]]]]]; unfold fw_ok; cbn [fw_elem fw_data fw_words]; rewrite ?H1, ?H3, ?Hcpu, ?length_le_bytes;
    split_and!; try done; lia.
Qed.

Lemma ext_writes_apart : all_apart ext_writes.
Proof.
  unfold ext_writes, all_apart, apart. rewrite !Forall_cons. cbn [fw_base fw_words].
  unfold TDCS_FIELD_SERVTD_INIT_SERVTD_INFO_HASH, TDCS_FIELD_SERVTD_INIT_ATTR, TDCS_FIELD_INIT_CPUSVN, TDCS_FIELD_INIT_TEE_TCB_SVN,
    TDCS_FIELD_INIT_TEE_MODEL, TDCS_FIELD_SERVTD_INFO_HASH, TDCS_FIELD_SERVTD_ATTR.
  split_and!; try apply Forall_nil_2; try done; lia.
Qed.

(** The migration TD reads the extension structure the emulator has filled in. *)
Lemma populated_read bh u f log : length u = 4%nat →
  ∃ f' log', populate_servtd_fields (Some r) sha384 bh u f = Ok f' ∧
    read_servtd_ext bh u (mkTdWorld f' log) = (Ok populated_ext, mkTdWorld f' log').
Proof.
  intros Hu. exists (write_fields bh u ext_writes f). rewrite populate_writes.
  destruct (Hsha (sha384 (er_td_info r) ++ le_bytes 2 0 ++ le_bytes 8 0)) as [H1 _]. fold recorded_hash in H1. pose proof tcb_svn_length as H3.
  assert (∀ i x log, ext_writes !! i = Some x → ∃ log', read_chunks bh u (fw_base x) (chunk_sizes (fw_elem x) (length (fw_data x)))
    (mkTdWorld (write_fields bh u ext_writes f) log) = (Ok (fw_data x), mkTdWorld (write_fields bh u ext_writes f) log')) as Hrd.
  { intros i x l Hi. apply read_written; [done|apply ext_writes_ok|apply ext_writes_apart|by eapply list_elem_of_lookup_2]. }
  unfold read_servtd_ext.
  destruct (Hrd 0%nat _ log eq_refl) as [l0 E0]. cbn [fw_base fw_elem fw_data] in E0. rewrite H1 in E0.
  destruct (Hrd 1%nat _ l0 eq_refl) as [l1 E1]. cbn [fw_base fw_elem fw_data] in E1. rewrite length_le_bytes in E1.
  destruct (Hrd 2%nat _ l1 eq_refl) as [l2 E2]. cbn [fw_base fw_elem fw_data] in E2. rewrite Hcpu in E2.
  destruct (Hrd 3%nat _ l2 eq_refl) as [l3 E3]. cbn [fw_base fw_elem fw_data] in E3. rewrite H3 in E3.
  destruct (Hrd 4%nat _ l3 eq_refl) as [l4 E4]. cbn [fw_base fw_elem fw_data] in E4.
  destruct (Hrd 5%nat _ l4 eq_refl) as [l5 E5]. cbn [fw_base fw_elem fw_data] in E5. rewrite H1 in E5.
  destruct (Hrd 6%nat _ l5 eq_refl) as [l6 E6]. cbn [fw_base fw_elem fw_data] in E6. rewrite length_le_bytes in E6.
  exists l6. split; [done|].
  rewrite (M_bind_Ok _ _ _ _ _ E0), (M_bind_Ok _ _ _ _ _ E1), (M_bind_Ok _ _ _ _ _ E2), (M_bind_Ok _ _ _ _ _ E3), (M_bind_Ok _ _ _ _ _ E4),
    (M_bind_Ok _ _ _ _ _ E5), (M_bind_Ok _ _ _ _ _ E6). done.
Qed.

(** The recorded hash covers type and attributes as well, so it is not the hash
    the migration TD computes over the structure: unless the two happen to be
    equal, the initial TDINFO_STRUCT of the report itself is refused. *)
Lemma populated_hash_refused : lenz (er_td_info r) = TD_INFO_SIZE → recorded_hash ≠ sha384 (er_td_info r) →
  verify_init_tdinfo (λ d, Some (sha384 d)) (er_td_info r) populated_ext = Err PolicyError.InvalidTdReport.
Proof.
  intros Hl Hne. unfold verify_init_tdinfo, verify_servtd_info_hash, populated_ext. cbn [init_attr init_servtd_info_hash].
  rewrite Hl, Z.ltb_irrefl. change (le_val (le_bytes 8 0)) with 0. cbv zeta.
  rewrite take_ge by (unfold lenz in Hl; lia). unfold or_err. cbn [mbind outcome_bind].
  assert (apply_masks 0 (er_td_info r) = er_td_info r) as -> by done. rewrite bool_decide_false by congruence. done.
Qed.
End populated.

Module EmuSample.
Definition features : Features := {| vmcall_raw := true; policy_v2 := true; vsock := false; AzCVMEmu := true |}.

Definition start : Emu :=
  mkEmu (mkNet None None None None) [] (mkFields ∅ ∅ ∅ ∅) None (Some (LogAreaManager_new false [] [])) (mkIntr {[0x50]} []).

Definition e0 : Emu := set_emulated_start_migration 7 1 [1; 2; 3; 4] 9 start.
Definition v0 : Vmm := mkVmm {[5]} [] [] [] [] [] [] [].
Definition mem (a : Z) : bytes := [].

Lemma e0_emulated : emulated (F := features) mem (Some [1]) (Some [2]) 0x50 e0.
Proof.
  split; [done|done|intros a; apply Forall_nil_2| | |].
  - by exists [1], [2].
  - exact (Forall_nil_2 _).
  - change (0x50 ∈ ({[0x50]} : gset Z)). by apply elem_of_singleton.
Qed.

Lemma e0_queue : let q := MIG_REQUEST e0 in
  q = [EmuEnableLogArea (7 + 2 ^ 63) 3; EmuGetTDReport (7 + 2 ^ 62) (default_reportdata 7 "MIGTD_MIGRATION"); EmuStartMigration 7 1 [1; 2; 3; 4] 9] ∧
  Forall (λ r, req_ok r ∧ takes (F := features) r) q ∧ fresh_ids q v0.
Proof.
  unfold e0. destruct (migration_queue (F := features) 7 1 [1; 2; 3; 4] 9 start v0) as (-> & H1 & H2); try done.
  - apply Forall4; by unfold in_u.
  - unfold v0. cbn [requests]. repeat (apply Forall_cons_2; [by rewrite elem_of_singleton|]). apply Forall_nil_2.
Qed.

Lemma emulated_requests_delivered_witness : ∃ e' v',
  td_waits (F := features) mem (Some [1]) (Some [2]) 0x50 3 e0 v0 =
    ([Ok (EnableLogArea (mkLogArea (7 + 2 ^ 63) 3 (zeros 7))); Ok (GetTdReport (mkReportInfo (7 + 2 ^ 62) (default_reportdata 7 "MIGTD_MIGRATION")));
      Ok (StartMigration (mkInformation (info_of (F := features) 7 1 [1; 2; 3; 4] 9) None None))], e', v') ∧ MIG_REQUEST e' = [].
Proof.
  destruct e0_queue as (Hq & H1 & H2).
  destruct (emulated_requests_delivered (F := features) mem (Some [1]) (Some [2]) 0x50 e0 v0 e0_emulated H1 H2) as (e' & v' & E & Hq' & _).
  exists e', v'. split; [|exact Hq']. rewrite Hq in E. exact E.
Defined.
End EmuSample.
