(* ===== verification/EmuCallSpec.v ===== *)
(** * EmuCallSpec: data, reports and quotes through the emulator

    The calls of EmuVmm under the code of the migration TD that makes them: the
    raw data channel (VmcallRaw) over the emulated TCP connection, reports
    (Session) with the hand-over of the log areas, and the quote call (Attest). *)
From stdpp Require Import base tactics numbers option strings list list_numbers gmap.
From S2P Require Import Prelude VirtQueue VmcallRaw VmcallRawSpec MigData Session SessionSpec LoggingSpec EmuLog EmuLogSpec PolicyV2 Attest EmuVmm EmuVmmSpec.
Local Open Scope Z_scope.

#[local] Notation bytes := (list Z).

(** ** The connection *)

(** What goes over the wire for one payload. *)
Definition frame (d : bytes) : bytes := le_bytes 4 (lenz d) ++ d.

(** A connection whose writes succeed. *)
Definition connected (e : Emu) (i o : bytes) : Prop := TCP_STREAM (net e) = Some (mkTcp i o []).

Lemma stream_write_run e i o d : connected e i o → stream_write d e = (Ok tt, store_stream (mkTcp i (o ++ d) []) e).
Proof. intros Hc. unfold stream_write. by rewrite getS_bind, Hc, ok_or_bind. Qed.

Lemma tcp_send_run e i o d : connected e i o → lenz d < 2 ^ 32 →
  tcp_send_data d e = (Ok tt, store_stream (mkTcp i (o ++ frame d) []) e).
Proof.
  intros Hc Hd. pose proof (lenz_nonneg d). unfold tcp_send_data, frame, as_u. rewrite Z.mod_small by lia.
  rewrite (M_bind_Ok _ _ _ _ _ (stream_write_run e i o _ Hc)), (stream_write_run _ i (o ++ le_bytes 4 (lenz d))) by done. by rewrite <-app_assoc.
Qed.

Lemma tcp_receive_run e d i o : connected e (frame d ++ i) o → lenz d < 2 ^ 32 →
  tcp_receive_data e = (Ok d, store_stream (mkTcp i o []) (store_pending None e)).
Proof.
  intros Hc Hd. pose proof (lenz_nonneg d). pose proof (lenz_nonneg i). unfold tcp_receive_data, stream_read. rewrite modifyS_bind, M_bind_eq, getS_bind.
  assert (TCP_STREAM (net (store_pending None e)) = Some (mkTcp (frame d ++ i) o [])) as -> by done. rewrite ok_or_bind.
  unfold read_exact. cbn [tcp_in tcp_out tcp_writes]. unfold frame. rewrite (proj2 (Z.ltb_ge _ _)) by (rewrite !lenz_app, lenz_le_bytes; lia).
  change (Z.to_nat 4) with 4%nat. rewrite <-app_assoc, take_app_length', drop_app_length' by (by rewrite length_le_bytes).
  rewrite modifyS_bind. unfold ok_or at 1, mret, M_ret. rewrite getS_bind. cbn [net store_stream set_net set_stream TCP_STREAM]. rewrite ok_or_bind.
  rewrite le_val_bytes, Z.mod_small by (cbn; lia). cbn [tcp_in tcp_out tcp_writes].
  rewrite (proj2 (Z.ltb_ge _ _)) by (rewrite lenz_app; lia). rewrite to_nat_lenz, take_app_length, drop_app_length, modifyS_bind. done.
Qed.

(** *** Chunks *)

(** What a receiver has before it: the rest of a payload, then payloads. *)
Definition incoming (e : Emu) (pending : option bytes) (ds : list bytes) : Prop :=
  PENDING_RECV_BUFFER (net e) = pending ∧ (∀ d, pending = Some d → d ≠ []) ∧ Forall (λ d, d ≠ [] ∧ lenz d < 2 ^ 32) ds ∧
  ∃ o, connected e (concat (frame <$> ds)) o.

Definition before (pending : option bytes) (ds : list bytes) : bytes := default [] pending ++ concat ds.

(** A receive takes the next bytes off, at least one and at most as many as fit. *)
Lemma receive_chunk_next e pending ds n : 0 < n → incoming e pending ds → before pending ds ≠ [] →
  ∃ c e' pending' ds', tcp_receive_data_chunk n e = (Ok c, e') ∧ incoming e' pending' ds' ∧ before pending ds = c ++ before pending' ds' ∧
    c ≠ [] ∧ lenz c <= n.
Proof.
  intros Hn (Hp & Hpn & Hds & o & Hc) Hb.
  assert (∀ (d : bytes) e1 ds1, d ≠ [] → Forall (λ d, d ≠ [] ∧ lenz d < 2 ^ 32) ds1 → connected e1 (concat (frame <$> ds1)) o → PENDING_RECV_BUFFER (net e1) = None →
    ∃ e' pending', (if lenz d <=? n then (Ok d, e1)
       else (Ok (take (Z.to_nat n) d), store_pending (Some (drop (Z.to_nat n) d)) e1)) =
      (Ok (take (Z.to_nat n) d) : outcome (aerr TdVmcallError.t) bytes, e') ∧ incoming e' pending' ds1 ∧ d ++ concat ds1 = take (Z.to_nat n) d ++ before pending' ds1 ∧
      take (Z.to_nat n) d ≠ [] ∧ lenz (take (Z.to_nat n) d) <= n) as Hcut.
  { intros d e1 ds1 Hd Hds1 Hc1 Hp1. assert (take (Z.to_nat n) d ≠ []) as Ht by (destruct d, (Z.to_nat n) eqn:En; try done; lia).
    assert (lenz (take (Z.to_nat n) d) <= n) as Hl by (unfold lenz; rewrite length_take; lia).
    destruct (Z.leb_spec (lenz d) n) as [Hle|Hgt].
    - rewrite take_ge in * by (unfold lenz in *; lia). exists e1, None. split; [done|]. split; [by split_and!; try done; exists o|done].
    - eexists _, (Some (drop (Z.to_nat n) d)). split; [done|]. split; [|split; [unfold before; cbn; by rewrite app_assoc, take_drop|done]].
      split; [done|]. split; [|split; [done|by exists o]]. intros d' [= <-] Hnil. apply (f_equal length) in Hnil. rewrite length_drop in Hnil. cbn in Hnil.
      unfold lenz in *. lia. }
  unfold tcp_receive_data_chunk. rewrite getS_bind, Hp. destruct pending as [d|].
  - destruct (Hcut d (store_pending None e) ds (Hpn d eq_refl) Hds Hc eq_refl) as (e' & p' & E & Hi & Hd & Hne & Hl).
    exists (take (Z.to_nat n) d), e', p', ds. split; [|done].
    destruct (Z.leb_spec (lenz d) n); [|exact E]. rewrite modifyS_bind. exact E.
  - destruct ds as [|d ds]; [done|]. apply Forall_cons in Hds as [[Hd Hd32] Hds]. cbn [fmap list_fmap concat] in Hc.
    rewrite (M_bind_Ok _ _ _ _ _ (tcp_receive_run e d (concat (frame <$> ds)) o Hc Hd32)).
    set (e1 := store_stream _ _). destruct (Hcut d e1 ds Hd Hds eq_refl eq_refl) as (e' & p' & E & Hi & Hcat & Hne & Hl).
    exists (take (Z.to_nat n) d), e', p', ds. split; [|done]. destruct (Z.leb_spec (lenz d) n); exact E.
Qed.

(** ** Buffers *)

Lemma parse_wire st d rest : in_u 64 st → lenz d < 2 ^ 32 → parse_ghci_buffer (wire_buffer st d ++ rest) = (st, lenz d, d).
Proof.
  intros Hs Hd. pose proof (lenz_nonneg d). pose proof (lenz_nonneg rest). unfold parse_ghci_buffer, GHCI_HEADER. rewrite lenz_app, lenz_wire_buffer.
  rewrite (proj2 (Z.ltb_ge _ _)) by lia. unfold wire_buffer. rewrite <-!app_assoc.
  rewrite take_app_length', drop_app_length', take_app_length' by (by rewrite length_le_bytes).
  rewrite !le_val_bytes, !Z.mod_small by (done || (cbn; lia)). rewrite Z.min_r by lia. f_equal.
  rewrite (app_assoc (le_bytes 8 st)), drop_app_length' by (by rewrite length_app, !length_le_bytes). by rewrite to_nat_lenz, take_app_length.
Qed.

Lemma format_run e b st d : GHCI_HEADER + lenz d <= lenz b → lenz d < 2 ^ 32 →
  format_ghci_buffer st d (e, b) = (Ok tt, (e, wire_buffer st d ++ drop (12 + length d) b)).
Proof.
  unfold GHCI_HEADER. intros Hb Hd. pose proof (lenz_nonneg d). unfold format_ghci_buffer, buf_len. rewrite M_bind_eq, getS_bind. unfold mret at 1, M_ret. cbn [snd].
  unfold GHCI_HEADER. rewrite (proj2 (Z.ltb_ge _ _)), Z.min_r by lia. unfold as_u. rewrite Z.mod_small by lia.
  assert (length b = length ([] ++ b)) as Hlb by done.
  erewrite M_bind_Ok by (apply (buf_write_next e [] b (le_bytes 8 st) 0); [done|rewrite lenz_le_bytes; lia]). rewrite app_nil_l, length_le_bytes.
  erewrite M_bind_Ok by (apply buf_write_next; [by rewrite lenz_le_bytes|rewrite lenz_le_bytes; unfold lenz in *; rewrite length_drop; lia]).
  rewrite length_le_bytes, drop_drop, to_nat_lenz, take_ge by lia. destruct (Z.ltb_spec 0 (lenz d)) as [Hp|Hp].
  - rewrite buf_write_next; [|by rewrite lenz_app, !lenz_le_bytes|unfold lenz in *; rewrite length_drop; lia].
    unfold wire_buffer. by rewrite drop_drop, <-!app_assoc.
  - assert (d = []) as -> by (destruct d; [done|rewrite lenz_cons in *; pose proof (lenz_nonneg d); lia]).
    unfold wire_buffer, mret, M_ret. by rewrite app_nil_r.
Qed.

(** ** Sending and receiving *)

Section channel.
Context (mem : Z → bytes) (Hmem : ∀ a, bytes_ok (mem a)) (vector : Z).

(** A part of the emulator that neither the log areas nor a vector touch. *)
Lemma finish_call e b : logs_ok e →
  ∃ e', (_ ← on_emu (emu_read_log_entries mem); signal vector) (e, b) = (Ok tt, (e', b)) ∧ net e' = net e ∧ MIG_REQUEST e' = MIG_REQUEST e ∧
    CALLBACKS (intr e') = CALLBACKS (intr e) ∧ logs_ok e'.
Proof.
  intros Hl. destruct (emu_read_total mem Hmem e Hl) as (m' & Em & Hl'). rewrite (on_emu_Ok _ _ _ _ _ _ Em).
  destruct (trigger_after vector _ Hl') as [[] Hq]. eexists. split; [done|]. by split_and!.
Qed.

Definition ready (e : Emu) : Prop := logs_ok e ∧ vector ∈ CALLBACKS (intr e).

Lemma send_call e i o d rest : ready e → connected e i o → lenz d < 2 ^ 32 →
  ∃ e', tdvmcall_migtd_send_sync mem vector (e, wire_buffer 0 d ++ rest) = (Ok tt, (e', wire_buffer 1 [] ++ d ++ rest)) ∧
    connected e' i (o ++ frame d) ∧ ready e'.
Proof.
  intros [Hl Hv] Hc Hd. unfold tdvmcall_migtd_send_sync. rewrite getS_bind. cbn [snd]. rewrite parse_wire by done.
  rewrite (on_emu_Ok _ _ _ _ _ _ (tcp_send_run e i o d Hc Hd)). set (e1 := store_stream _ e).
  rewrite (M_bind_Ok _ _ _ _ _ (format_run e1 (wire_buffer 0 d ++ rest) 1 [] ltac:(rewrite lenz_app, lenz_wire_buffer; pose proof (lenz_nonneg d); pose proof (lenz_nonneg rest); change (lenz (@nil Z)) with 0; unfold GHCI_HEADER; lia) ltac:(done))).
  destruct (finish_call e1 (wire_buffer 1 [] ++ d ++ rest) Hl) as (e' & E & Hn & _ & Hcb & Hl'). exists e'. split; [|split; [unfold connected; by rewrite Hn|]].
  - assert (drop (12 + length (@nil Z)) (wire_buffer 0 d ++ rest) = d ++ rest) as ->; [|exact E].
    unfold wire_buffer. rewrite <-!app_assoc, (app_assoc (le_bytes 8 0)), drop_app_length' by (by rewrite length_app, !length_le_bytes). done.
  - split; [done|]. rewrite Hcb. exact Hv.
Qed.

Lemma receive_call e i o d n : ready e → connected e (frame d ++ i) o → PENDING_RECV_BUFFER (net e) = None → lenz d < 2 ^ 32 → GHCI_HEADER + lenz d <= n →
  ∃ e', tdvmcall_migtd_receive_sync mem vector (e, zeros n : bytes) = (Ok tt, (e', wire_buffer 1 d ++ zeros (n - 12 - lenz d))) ∧
    connected e' i o ∧ PENDING_RECV_BUFFER (net e') = None ∧ ready e'.
Proof.
  unfold GHCI_HEADER. intros [Hl Hv] Hc Hp Hd Hn. pose proof (lenz_nonneg d). unfold tdvmcall_migtd_receive_sync, buf_len. rewrite M_bind_eq, getS_bind. unfold mret at 1, M_ret. cbn [snd].
  rewrite lenz_zeros by lia. unfold GHCI_HEADER. rewrite err_if_bind, (proj2 (Z.ltb_ge _ _)) by lia.
  set (e1 := store_stream (mkTcp i o []) (store_pending None e)).
  assert (tcp_receive_data_chunk (n - 12) e = (Ok d, e1)) as E1.
  { unfold tcp_receive_data_chunk. rewrite getS_bind, Hp, (M_bind_Ok _ _ _ _ _ (tcp_receive_run e d i o Hc Hd)).
    by rewrite (proj2 (Z.leb_le _ _)) by lia. }
  rewrite (on_emu_Ok _ _ _ _ _ _ E1).
  rewrite (M_bind_Ok _ _ _ _ _ (format_run e1 (zeros n) 1 d ltac:(rewrite lenz_zeros by lia; unfold GHCI_HEADER; lia) Hd)).
  assert (drop (12 + length d) (zeros n) = zeros (n - 12 - lenz d)) as ->.
  { unfold zeros. rewrite drop_replicate. f_equal. unfold lenz in *. lia. }
  destruct (finish_call e1 (wire_buffer 1 d ++ zeros (n - 12 - lenz d)) Hl) as (e' & E & Hnet & _ & Hcb & Hl').
  exists e'. split; [exact E|]. rewrite Hnet. split; [unfold connected; by rewrite Hnet|]. split; [done|]. split; [done|]. rewrite Hcb. exact Hv.
Qed.

(** *** The migration TD on top *)

(** The flag is up and the buffer says success: the wait ends. *)
Lemma poll_answer b p st len mid n v : VmcallRaw.process_buffer (fit n b) = Some (p, st, len) → st = TDX_VMCALL_VMM_SUCCESS → waiting mid v →
  ∃ v', poll_events [mkEvent true b] mid n v = (Ok (p, len), v') ∧ waiting mid v' ∧ raw_sent v' = raw_sent v.
Proof.
  intros Hb -> Hw. cbn [poll_events]. rewrite modifyS_bind. cbn [ev_interrupt ev_buffer]. unfold poll_vmcall_completion.
  rewrite M_bind_eq, getS_bind, (notified mid v Hw), modifyS_bind, Hb, or_panic_bind. eexists. split; [done|]. split; [|done].
  unfold waiting. simpl. apply lookup_insert_eq.
Qed.

(** One call of the TD against the emulator: its buffer goes in, and what the
    emulator leaves is what the TD finds. *)
Definition td_send (stream : VmcallRaw) (buf : bytes) (e : Emu) (v : RawVmm) : outcome (aerr VmcallRawError.t) Z * Emu * RawVmm :=
  let buffer : bytes := wire_buffer 0 buf in
  let '(r, (e', b)) := tdvmcall_migtd_send_sync mem vector (e, buffer) in
  let up := bool_decide (vector ∈ CALLBACKS (intr e)) in
  let call := mkRawCall (match r with Ok _ => true | _ => false end) [mkEvent up b] in
  let '(x, v') := vmcall_raw_transport_enqueue stream buf (mkRawVmm (VMCALL_MIG_CONTEXT_FLAGS v) [true] [call] (raw_sent v)) in
  (x, e', v').

Definition recv_buffer : bytes := zeros MAX_VMCALL_RAW_STREAM_MTU.

Definition td_recv (stream : VmcallRaw) (e : Emu) (v : RawVmm) : outcome (aerr VmcallRawError.t) bytes * Emu * RawVmm :=
  let '(r, (e', b)) := tdvmcall_migtd_receive_sync mem vector (e, recv_buffer) in
  let up := bool_decide (vector ∈ CALLBACKS (intr e)) in
  let call := mkRawCall (match r with Ok _ => true | _ => false end) [mkEvent up b] in
  let '(x, v') := vmcall_raw_transport_dequeue stream (mkRawVmm (VMCALL_MIG_CONTEXT_FLAGS v) [true] [call] (raw_sent v)) in
  (x, e', v').

Lemma fit_exact (b : bytes) : fit (lenz b) b = b.
Proof. unfold fit. by rewrite to_nat_lenz, take_app_length. Qed.

Lemma td_send_run stream buf e v i o : ready e → connected e i o → lenz buf <= VMCALL_RAW_SEND_PAYLOAD_MTU → waiting (transport_context stream) v →
  ∃ e' v', td_send stream buf e v = (Ok 0, e', v') ∧ ready e' ∧ connected e' i (o ++ frame buf) ∧ waiting (transport_context stream) v' ∧
    raw_sent v' = raw_sent v ++ [(transport_context stream, wire_buffer 0 buf)].
Proof.
  intros Hr Hc Hl Hw. pose proof (lenz_nonneg buf). assert (0 <= lenz buf < 2 ^ 16) as H16
    by (unfold VMCALL_RAW_SEND_PAYLOAD_MTU, MAX_VMCALL_RAW_STREAM_MTU, VMCALL_RAW_GHCI_HEADER_LEN in Hl; lia).
  unfold td_send. pose proof (proj2 Hr) as Hv. pose proof (send_call e i o buf [] Hr Hc ltac:(lia)) as (e' & E & Hc' & Hr').
  rewrite !app_nil_r in E. cbv zeta. rewrite E, bool_decide_true by done. unfold vmcall_raw_transport_enqueue. rewrite err_if_bind.
  rewrite (proj2 (Z.leb_gt _ _)) by lia. assert (12 + lenz buf < 2 ^ 64) as H64 by lia.
  rewrite (proj2 (checked_add_Some 64 12 (lenz buf) _) (conj eq_refl H64)), ok_or_bind, ok_or_bind.
  destruct (raw_align_up (12 + lenz buf)) as [a|] eqn:Ea.
  2:{ unfold raw_align_up, checked_add, PAGE_SIZE in Ea. rewrite (proj2 (Z.ltb_lt _ _)) in Ea by lia. done. }
  apply raw_align_up_spec in Ea as [Ha Hle]; [|lia]. unfold raw_shared_memory. rewrite M_bind_eq, getS_bind. cbn [raw_alloc]. rewrite modifyS_bind.
  unfold mret at 1, M_ret. rewrite Ha. pose proof (enqueue_buffer buf a Hle ltac:(lia)) as Hbuf.
  destruct (write_at (zeros a) 0 _) as [b1|]; [|done]. cbn [mbind option_bind] in Hbuf. rewrite or_panic_bind.
  destruct (write_at b1 8 _) as [b2|]; [|done]. cbn [mbind option_bind] in Hbuf. rewrite or_panic_bind.
  destruct (write_at b2 12 _) as [b3|]; [|done]. cbn [mbind option_bind] in Hbuf. rewrite or_panic_bind, Hbuf, or_panic_bind.
  unfold vmcall_service_migtd_send, raw_call. rewrite M_bind_eq, getS_bind. cbn [raw_script VMCALL_MIG_CONTEXT_FLAGS raw_sent option_list]. rewrite modifyS_bind. cbn [raw_ok raw_events].
  set (v1 := mkRawVmm _ _ _ _). assert (waiting (transport_context stream) v1) as Hw1 by exact Hw.
  destruct (poll_answer (wire_buffer 1 [] ++ buf) buf 1 0 (transport_context stream) (lenz (wire_buffer 0 buf)) v1) as (v' & Ep & Hw' & Hs'); [|done|done|].
  { assert (lenz (wire_buffer 0 buf) = lenz (wire_buffer 1 [] ++ buf)) as -> by (rewrite lenz_app, !lenz_wire_buffer; change (lenz (@nil Z)) with 0; lia).
    rewrite fit_exact, process_wire_buffer by done. done. }
  unfold mret at 1, M_ret. rewrite M_bind_eq, Ep. eexists e', v'. split_and!; try done.
Qed.

Lemma td_recv_run stream d e v i o : ready e → connected e (frame d ++ i) o → PENDING_RECV_BUFFER (net e) = None →
  0 < lenz d <= VMCALL_RAW_SEND_PAYLOAD_MTU → waiting (transport_context stream) v →
  ∃ e' v', td_recv stream e v = (Ok d, e', v') ∧ ready e' ∧ connected e' i o ∧ PENDING_RECV_BUFFER (net e') = None ∧
    waiting (transport_context stream) v'.
Proof.
  intros Hr Hc Hp Hl Hw. assert (0 < lenz d <= MAX_VMCALL_RAW_STREAM_MTU - 12) as Hm by exact Hl. assert (MAX_VMCALL_RAW_STREAM_MTU = 65536) as HM by done.
  unfold td_recv, recv_buffer. pose proof (proj2 Hr) as Hv. pose proof (receive_call e i o d MAX_VMCALL_RAW_STREAM_MTU Hr Hc Hp ltac:(lia) ltac:(unfold GHCI_HEADER; lia)) as (e' & E & Hc' & Hp' & Hr').
  cbv zeta. rewrite E, bool_decide_true by done. unfold vmcall_raw_transport_dequeue, raw_shared_memory.
  rewrite M_bind_eq, getS_bind. cbn [raw_alloc]. rewrite modifyS_bind. unfold mret at 1, M_ret.
  change (MAX_VMCALL_RAW_STREAM_MTU / PAGE_SIZE * PAGE_SIZE) with MAX_VMCALL_RAW_STREAM_MTU. rewrite lenz_zeros by (by vm_compute).
  unfold vmcall_service_migtd_receive, raw_call. cbv zeta. rewrite M_bind_eq, getS_bind. cbn [raw_script VMCALL_MIG_CONTEXT_FLAGS raw_sent option_list]. rewrite modifyS_bind. cbn [raw_ok raw_events].
  set (v1 := mkRawVmm _ _ _ _). assert (waiting (transport_context stream) v1) as Hw1 by exact Hw.
  set (z := zeros (MAX_VMCALL_RAW_STREAM_MTU - 12 - lenz d)) in *.
  assert (lenz z = MAX_VMCALL_RAW_STREAM_MTU - 12 - lenz d) as Hz by (apply lenz_zeros; lia). clearbody z.
  assert (in_u 64 1 ∧ in_u 32 (lenz d)) as [H1 Hd32] by (unfold in_u; lia).
  destruct (poll_answer (wire_buffer 1 d ++ z) (d ++ z) 1 (lenz d) (transport_context stream) MAX_VMCALL_RAW_STREAM_MTU v1) as (v' & Ep & Hw' & _); [|done|done|].
  { assert (MAX_VMCALL_RAW_STREAM_MTU = lenz (wire_buffer 1 d ++ z)) as Hsz by (rewrite lenz_app, lenz_wire_buffer; lia).
    rewrite Hsz, fit_exact. exact (process_wire_buffer 1 d z H1 Hd32). }
  unfold mret at 1, M_ret. rewrite M_bind_eq, Ep. rewrite (proj2 (Z.eqb_neq _ _)) by lia.
  pose proof (slice_app [] d z 0 (lenz d) eq_refl eq_refl) as Hs. rewrite app_nil_l in Hs. rewrite Hs.
  exists e', v'. split; [reflexivity|]. exact (conj Hr' (conj Hc' (conj Hp' Hw'))).
Qed.

Fixpoint td_sends (stream : VmcallRaw) (bufs : list bytes) (e : Emu) (v : RawVmm) : list (outcome (aerr VmcallRawError.t) Z) * Emu * RawVmm :=
  match bufs with
  | [] => ([], e, v)
  | buf :: bufs =>
      let '(x, e', v') := td_send stream buf e v in
      let '(xs, e'', v'') := td_sends stream bufs e' v' in
      (x :: xs, e'', v'')
  end.

Fixpoint td_recvs (stream : VmcallRaw) (n : nat) (e : Emu) (v : RawVmm) : list (outcome (aerr VmcallRawError.t) bytes) * Emu * RawVmm :=
  match n with
  | O => ([], e, v)
  | S n =>
      let '(x, e', v') := td_recv stream e v in
      let '(xs, e'', v'') := td_recvs stream n e' v' in
      (x :: xs, e'', v'')
  end.

Definition sendable (d : bytes) : Prop := 0 < lenz d <= VMCALL_RAW_SEND_PAYLOAD_MTU.

Lemma td_sends_run stream bufs e v i o : ready e → connected e i o → Forall sendable bufs → waiting (transport_context stream) v →
  ∃ e' v', td_sends stream bufs e v = (replicate (length bufs) (Ok 0), e', v') ∧ connected e' i (o ++ concat (frame <$> bufs)) ∧
    raw_sent v' = raw_sent v ++ ((λ d, (transport_context stream, wire_buffer 0 d)) <$> bufs).
Proof.
  revert e v o. induction bufs as [|d bufs IH]; intros e v o Hr Hc Hok Hw; cbn [td_sends fmap list_fmap concat length replicate].
  { exists e, v. by rewrite !app_nil_r. }
  apply Forall_cons in Hok as [Hd Hok]. destruct (td_send_run stream d e v i o Hr Hc (proj2 Hd) Hw) as (e1 & v1 & -> & Hr1 & Hc1 & Hw1 & Hs1).
  destruct (IH e1 v1 _ Hr1 Hc1 Hok Hw1) as (e' & v' & -> & Hc' & Hs'). exists e', v'. split; [done|]. rewrite app_assoc. split; [done|].
  by rewrite Hs', Hs1, <-app_assoc.
Qed.

Lemma td_recvs_run stream ds e v i o : ready e → connected e (concat (frame <$> ds) ++ i) o → PENDING_RECV_BUFFER (net e) = None → Forall sendable ds →
  waiting (transport_context stream) v → ∃ e' v', td_recvs stream (length ds) e v = (Ok <$> ds, e', v') ∧ connected e' i o ∧ PENDING_RECV_BUFFER (net e') = None.
Proof.
  revert e v. induction ds as [|d ds IH]; intros e v Hr Hc Hp Hok Hw; cbn [td_recvs fmap list_fmap length]; [by exists e, v|].
  apply Forall_cons in Hok as [Hd Hok]. cbn [fmap list_fmap concat] in Hc. rewrite <-app_assoc in Hc.
  destruct (td_recv_run stream d e v _ o Hr Hc Hp Hd Hw) as (e1 & v1 & -> & Hr1 & Hc1 & Hp1 & Hw1).
  destruct (IH e1 v1 Hr1 Hc1 Hp1 Hok Hw1) as (e' & v' & -> & Hc' & Hp'). by exists e', v'.
Qed.
End channel.

(** Two migration TDs, each on its emulator, joined by a connection: what one sends
    through its raw channel the other receives, buffer by buffer and in order, and
    bytes that follow stay in the connection. *)
Theorem emulated_channel_in_order mem vector bufs s1 s2 e1 v1 o e2 v2 more :
  (∀ a, bytes_ok (mem a)) → Forall sendable bufs →
  ready vector e1 → connected e1 [] o → waiting (transport_context s1) v1 →
  ready vector e2 → PENDING_RECV_BUFFER (net e2) = None → waiting (transport_context s2) v2 →
  ∃ wire e1' v1', td_sends mem vector s1 bufs e1 v1 = (replicate (length bufs) (Ok 0), e1', v1') ∧ connected e1' [] (o ++ wire) ∧
    raw_sent v1' = raw_sent v1 ++ ((λ d, (transport_context s1, wire_buffer 0 d)) <$> bufs) ∧
    (connected e2 (wire ++ more) [] → ∃ e2' v2', td_recvs mem vector s2 (length bufs) e2 v2 = (Ok <$> bufs, e2', v2') ∧
       connected e2' more [] ∧ PENDING_RECV_BUFFER (net e2') = None).
Proof.
  intros Hmem Hok Hr1 Hc1 Hw1 Hr2 Hp2 Hw2. destruct (td_sends_run mem Hmem vector s1 bufs e1 v1 [] o Hr1 Hc1 Hok Hw1) as (e1' & v1' & E & Hc1' & Hs).
  exists (concat (frame <$> bufs)), e1', v1'. split_and!; [done|done|done|]. intros Hc2. by apply td_recvs_run.
Qed.

Module ChannelSample.
Definition emu_on (t : TcpStream) : Emu :=
  mkEmu (mkNet None (Some Client) (Some t) None) [] (mkFields ∅ ∅ ∅ ∅) None None (mkIntr {[0x52]} []).

Definition td : RawVmm := mkRawVmm {[7 := false]} [] [] [].
Definition bufs : list bytes := [[1; 2; 3]; [4]].

Lemma ready_on t : ready 0x52 (emu_on t).
Proof. split; [done|]. change (0x52 ∈ ({[0x52]} : gset Z)). by apply elem_of_singleton. Qed.

Lemma emulated_channel_in_order_witness : ∃ wire e1' v1', td_sends (λ _, []) 0x52 (new_with_mid 7) bufs (emu_on (mkTcp [] [] [])) td = ([Ok 0; Ok 0], e1', v1') ∧
  connected e1' [] ([] ++ wire) ∧
  ∃ e2' v2', td_recvs (λ _, []) 0x52 (new_with_mid 7) 2 (emu_on (mkTcp [3; 0; 0; 0; 1; 2; 3; 1; 0; 0; 0; 4; 9] [] [])) td = ([Ok [1; 2; 3]; Ok [4]], e2', v2').
Proof.
  assert (Forall sendable bufs) as Hok by (repeat (apply Forall_cons_2; [by vm_compute|]); apply Forall_nil_2).
  destruct (emulated_channel_in_order (λ _, []) 0x52 bufs (new_with_mid 7) (new_with_mid 7) (emu_on (mkTcp [] [] [])) td []
    (emu_on (mkTcp [3; 0; 0; 0; 1; 2; 3; 1; 0; 0; 0; 4; 9] [] [])) td [9] (λ _, Forall_nil_2 _) Hok (ready_on _) eq_refl eq_refl (ready_on _) eq_refl eq_refl)
    as (wire & e1' & v1' & E1 & Hc & Hs & Hrecv).
  exists wire, e1', v1'. split; [exact E1|]. split; [exact Hc|].
  assert (wire = [3; 0; 0; 0; 1; 2; 3; 1; 0; 0; 0; 4]) as ->.
  { destruct (td_sends_run (λ _, []) (λ _, Forall_nil_2 _) 0x52 (new_with_mid 7) bufs (emu_on (mkTcp [] [] [])) td [] [] (ready_on _) eq_refl Hok eq_refl)
      as (e' & v' & E & Hc' & _). rewrite E in E1. injection E1 as <- <-. unfold connected in Hc, Hc'. rewrite Hc in Hc'. injection Hc' as ->. reflexivity. }
  destruct (Hrecv eq_refl) as (e2' & v2' & E2 & _). by exists e2', v2'.
Defined.
End ChannelSample.

(** ** Reports *)

(** The answer to an EnableLogArea request makes the areas of all CPUs known. *)
Lemma initialize_loop_table addrs pre rest i m : lenz pre = 8 + i * 16 → Forall (in_u 64) addrs →
  initialize_loop (pre ++ table addrs ++ rest) i (length addrs) m =
    (Ok tt, set_vcpus (vcpu_states m ++ ((λ a, mkVcpuLog a LOG_AREA_BUFFER_HEADER_SIZE) <$> addrs)) m).
Proof.
  revert pre i m. induction addrs as [|a addrs IH]; intros pre i m Hp Hok; cbn [length initialize_loop fmap list_fmap].
  { rewrite app_nil_r. by destruct m. }
  apply Forall_cons in Hok as [Ha Hok]. rewrite table_cons, <-!app_assoc.
  cbv zeta. rewrite (slice_app pre (le_bytes 8 a) _ (8 + i * 16)) by (rewrite ?lenz_le_bytes; lia). rewrite or_panic_bind.
  rewrite (app_assoc pre), (slice_app (pre ++ le_bytes 8 a) _ _ (8 + i * 16 + 8)) by (rewrite ?lenz_app, ?lenz_le_bytes; lia). rewrite or_panic_bind, modifyS_bind.
  rewrite (app_assoc (pre ++ _)), IH by (rewrite ?lenz_app, ?lenz_le_bytes; done || lia).
  rewrite le_val_bytes, Z.mod_small by done. unfold set_vcpus. cbn. by rewrite <-app_assoc.
Qed.

Lemma lenz_table addrs : lenz (table addrs) = 16 * lenz addrs.
Proof.
  induction addrs as [|a l IH]; [done|]. rewrite table_cons, !lenz_app, !lenz_le_bytes, IH, lenz_cons. lia.
Qed.

(** The data the migration TD reports for its areas (see [enable_refines]). *)
Definition area_report (addrs : list Z) : bytes := le_bytes 4 (lenz addrs) ++ le_bytes 4 0 ++ table addrs.

Lemma initialize_areas addrs m : Forall (in_u 64) addrs → in_u 32 (lenz addrs) →
  ∃ m', initialize (area_report addrs) m = (Ok tt, m') ∧ vcpu_states m' = (λ a, mkVcpuLog a LOG_AREA_BUFFER_HEADER_SIZE) <$> addrs.
Proof.
  intros Hok Hn. pose proof (lenz_nonneg addrs). assert (lenz (area_report addrs) = 8 + 16 * lenz addrs) as Hl
    by (unfold area_report; rewrite !lenz_app, !lenz_le_bytes, lenz_table; lia).
  unfold initialize. rewrite Hl, (proj2 (Z.ltb_ge _ _)) by lia.
  assert (slice (area_report addrs) 0 4 = Some (le_bytes 4 (lenz addrs))) as -> by (by apply (slice_app [] (le_bytes 4 (lenz addrs)))).
  rewrite or_panic_bind, !modifyS_bind, le_val_bytes, Z.mod_small by exact Hn. rewrite (proj2 (Z.ltb_ge _ _)) by lia. rewrite to_nat_lenz.
  assert (area_report addrs = (le_bytes 4 (lenz addrs) ++ le_bytes 4 0) ++ table addrs ++ []) as -> by (unfold area_report; by rewrite app_nil_r, <-app_assoc).
  rewrite initialize_loop_table by (rewrite ?lenz_app, ?lenz_le_bytes; done). eexists. split; [done|]. done.
Qed.

(** A report that is not such an answer, or one that is. *)
Definition log_areas_of (id : Z) (d : bytes) (addrs : list Z) : Prop :=
  Z.land id LOG_MARK ≠ 0 ∧ d = area_report addrs ∧ Forall (in_u 64) addrs ∧ in_u 32 (lenz addrs).

Lemma areas_reported id e addrs m : log_areas_of id (area_report addrs) addrs → LOG_AREA_MANAGER e = Some m →
  ∃ m', report_payload_seen id 0 (area_report addrs) e = (Ok tt, set_manager (Some m') e) ∧
    vcpu_states m' = (λ a, mkVcpuLog a LOG_AREA_BUFFER_HEADER_SIZE) <$> addrs.
Proof.
  intros (Hid & _ & Hok & Hn) Hm. pose proof (lenz_nonneg addrs). assert (lenz (area_report addrs) = 8 + 16 * lenz addrs) as Hl
    by (unfold area_report; rewrite !lenz_app, !lenz_le_bytes, lenz_table; lia).
  unfold report_payload_seen. rewrite (proj2 (Z.eqb_neq _ _) Hid). cbn [negb]. rewrite Z.eqb_refl, (proj2 (Z.leb_le _ _)) by lia. cbn [andb].
  assert (slice (area_report addrs) 0 4 = Some (le_bytes 4 (lenz addrs))) as -> by (by apply (slice_app [] (le_bytes 4 (lenz addrs)))).
  rewrite or_panic_bind, le_val_bytes, Z.mod_small by exact Hn. rewrite (proj2 (Z.leb_le _ _)) by lia.
  destruct (initialize_areas addrs m Hok Hn) as (m' & E & Hv). exists m'. split; [|done].
  unfold enable_log_area, manager_op, with_manager. by rewrite Hm, E.
Qed.

(** The buffer of a report comes back with its payload and the status of success,
    which is what the migration TD waits for. *)
Lemma reportstatus_run mem vector id word e e1 d rest : (∀ a, bytes_ok (mem a)) → lenz d < 2 ^ 32 →
  (if 0 <? lenz d then report_payload_seen id (Z.land word 0xFF) d else mret tt) e = (Ok tt, e1) → logs_ok e1 →
  ∃ e', tdvmcall_migtd_reportstatus mem id word vector (e, wire_buffer 0 d ++ rest) = (Ok tt, (e', wire_buffer 1 d ++ rest)) ∧
    net e' = net e1 ∧ MIG_REQUEST e' = MIG_REQUEST e1 ∧ CALLBACKS (intr e') = CALLBACKS (intr e1) ∧ logs_ok e'.
Proof.
  intros Hmem Hd Hseen Hl. pose proof (lenz_nonneg d). unfold tdvmcall_migtd_reportstatus. rewrite getS_bind. cbn [snd]. rewrite parse_wire by done.
  rewrite andb_diag. assert ((if 0 <? lenz d then on_emu (report_payload_seen id (Z.land word 255) d) else mret tt) (e, wire_buffer 0 d ++ rest) =
    (Ok tt, (e1, wire_buffer 0 d ++ rest))) as E0.
  { destruct (0 <? lenz d); [unfold on_emu; cbn [fst snd]; by rewrite Hseen|]. injection Hseen as ->. done. }
  rewrite (M_bind_Ok _ _ _ _ _ E0). destruct (emu_read_total mem Hmem e1 Hl) as (m' & Em & Hl'). rewrite (on_emu_Ok _ _ _ _ _ _ Em).
  assert (GHCI_HEADER + lenz d <= lenz (wire_buffer 0 d ++ rest)) as Hfit by (rewrite lenz_app, lenz_wire_buffer; pose proof (lenz_nonneg rest); unfold GHCI_HEADER; lia).
  rewrite (M_bind_Ok _ _ _ _ _ (format_run _ (wire_buffer 0 d ++ rest) 1 d Hfit Hd)).
  assert (drop (12 + length d) (wire_buffer 0 d ++ rest) = rest) as ->.
  { unfold wire_buffer. rewrite drop_app_length'; [done|]. rewrite !length_app, !length_le_bytes. lia. }
  destruct (trigger_after vector _ Hl') as [[] Hq]. eexists. split; [done|]. by split_and!.
Qed.

Lemma report_page_wire d n : report_page d n = wire_buffer 0 d ++ zeros (n - 12 - lenz d).
Proof. unfold report_page, wire_buffer. by rewrite <-!app_assoc. Qed.

Lemma report_confirmed d n : lenz d < 2 ^ 32 → 12 + lenz d <= n → confirms n (wire_buffer 1 d ++ zeros (n - 12 - lenz d)).
Proof.
  intros Hd Hn. pose proof (lenz_nonneg d). unfold confirms.
  assert (n = lenz (wire_buffer 1 d ++ zeros (n - 12 - lenz d))) as En by (rewrite lenz_app, lenz_wire_buffer, lenz_zeros; lia).
  rewrite En at 1. rewrite fit_exact. unfold wire_buffer. rewrite <-!app_assoc, process_buffer_wire by (done || (unfold in_u; lia)). done.
Qed.

(** The migration TD's side: a buffer that confirms ends the wait. *)
Lemma report_status_run st res id data v b : lenz data < 2 ^ 32 → MigrationResult.try_from st = Some res → confirms (report_pages data) b →
  vm_allocs v = [true] → vm_calls v = [true] → vm_report_polls v = [b] →
  ∃ v', report_status st id data v = (Ok tt, v') ∧ requests v' = requests v ∧
    vm_reports v' = vm_reports v ++ [(id, report_word st, report_page data (report_pages data))].
Proof.
  intros Hd Hst Hconf Ha Hc Hp. pose proof (report_pages_room data) as Hroom. unfold report_status, shared_memory.
  rewrite M_bind_eq, getS_bind, Ha, modifyS_bind. unfold mret at 1, M_ret. rewrite ok_or_bind, Hst.
  assert ((if decide (res = MigrationResult.Success) then report_status_word 0 0 else report_status_word 1 st) = report_word st) as ->.
  { apply MigDataSpec.migration_result_byte in Hst as ->. by destruct res. }
  pose proof (report_buffer data (report_pages data) Hd Hroom) as Hbuf.
  change ((REQ_HEADER_LEN + lenz data + SESSION_PAGE_SIZE - 1) / SESSION_PAGE_SIZE * SESSION_PAGE_SIZE) with (report_pages data).
  destruct (write_at (zeros (report_pages data)) 0 _) as [d1|] eqn:Ed1; [|done]. cbn [mbind option_bind] in Hbuf.
  rewrite or_panic_bind, Hbuf, or_panic_bind, modifyS_bind. unfold tdvmcall. rewrite M_bind_eq, getS_bind. cbn [vm_calls]. rewrite Hc, modifyS_bind.
  cbn [negb err_if]. unfold mret at 1, M_ret. rewrite getS_bind. cbn [vm_report_polls]. rewrite Hp. cbn [report_poll]. rewrite modifyS_bind.
  assert (lenz (report_page data (report_pages data)) = report_pages data) as ->.
  { pose proof (lenz_nonneg data). rewrite report_page_wire, lenz_app, lenz_wire_buffer, lenz_zeros; lia. }
  unfold confirms in Hconf. rewrite Hconf, Z.eqb_refl. by eexists.
Qed.

(** A report of the migration TD to the emulator: the buffer it hands over is the
    one the emulator is given, and the answer ends the wait. *)
Lemma emulated_report mem vector st res id data e e1 v : (∀ a, bytes_ok (mem a)) → lenz data < 2 ^ 32 → MigrationResult.try_from st = Some res →
  (if 0 <? lenz data then report_payload_seen id (Z.land (report_word st) 0xFF) data else mret tt) e = (Ok tt, e1) → logs_ok e1 →
  let page : bytes := report_page data (report_pages data) in
  ∃ e' b v', tdvmcall_migtd_reportstatus mem id (report_word st) vector (e, page) = (Ok tt, (e', b)) ∧
    report_status st id data (mkVmm (requests v) [true] [true] (vm_waits v) [b] (vm_services v) (vm_reports v) (vm_commands v)) = (Ok tt, v') ∧
    requests v' = requests v ∧ vm_reports v' = vm_reports v ++ [(id, report_word st, page)] ∧
    MIG_REQUEST e' = MIG_REQUEST e1 ∧ CALLBACKS (intr e') = CALLBACKS (intr e1) ∧ logs_ok e'.
Proof.
  intros Hmem Hd Hst Hseen Hl page. pose proof (report_pages_room data) as Hroom.
  destruct (reportstatus_run mem vector id (report_word st) e e1 data (zeros (report_pages data - 12 - lenz data)) Hmem Hd Hseen Hl) as (e' & E & _ & Hq & Hcb & Hlog).
  exists e', (wire_buffer 1 data ++ zeros (report_pages data - 12 - lenz data)).
  set (v0 := mkVmm _ _ _ _ _ _ _ _). destruct (report_status_run st res id data v0 _ Hd Hst (report_confirmed data (report_pages data) Hd Hroom) eq_refl eq_refl eq_refl)
    as (v' & Er & Hreq & Hrep). exists v'. split; [unfold page; by rewrite report_page_wire|]. by split_and!.
Qed.

(** ** Quotes *)

Lemma buf_write_mid e (pre old rest : bytes) d a : a = lenz pre → length d = length old →
  buf_write a d (e, pre ++ old ++ rest) = (Ok tt, (e, pre ++ d ++ rest)).
Proof. intros Ha Hd. unfold buf_write. rewrite getS_bind. cbn [snd]. by rewrite (write_at_app pre old rest d a Ha Hd), or_panic_bind. Qed.

Lemma buf_read_mid e (pre x rest : bytes) a b : a = lenz pre → b = a + lenz x → buf_read a b (e, pre ++ x ++ rest) = (Ok x, (e, pre ++ x ++ rest)).
Proof. intros Ha Hb. unfold buf_read. rewrite getS_bind. cbn [snd]. by rewrite (slice_app pre x rest a b Ha Hb). Qed.

Section quotes.
Context (mem : Z → bytes) (Hmem : ∀ a, bytes_ok (mem a)) (get_quote_emulated : bytes → option bytes) (collateral : bytes).
Context (report : bytes) (Hlen : length report = 1024%nat).
(** The reserved bytes of a report are not those of a request of the quoting service. *)
Context (Hplain : le_val (take 2 (drop 4 report)) ≠ 1).

(** The buffer of a request, and of its answer. *)
Definition quote_page (status out_len : Z) (body : bytes) : bytes := quote_hdr 1 status 1024 out_len ++ body.

Lemma length_quote_hdr a b c d : length (quote_hdr a b c d) = 24%nat.
Proof. unfold quote_hdr. by rewrite !length_app, !length_le_bytes. Qed.

Lemma lenz_quote_hdr a b c d : lenz (quote_hdr a b c d) = 24.
Proof. unfold lenz. by rewrite length_quote_hdr. Qed.

Lemma notify_event_total e b : logs_ok e → ∃ e', notify_event (e, b) = (Ok tt, (e', b)) ∧ net e' = net e ∧ fields e' = fields e ∧ logs_ok e'.
Proof.
  intros Hl. unfold notify_event. rewrite getS_bind. cbn [fst]. destruct (EVENT_NOTIFY_VECTOR e) as [v|]; [|by exists e].
  destruct (trigger_after (as_u 8 v) e Hl) as [[] _]. eexists. split; [done|]. by split_and!.
Qed.

Lemma status_written e x y o body : buf_write 8 (le_bytes 8 y) (e, quote_page x o body) = (Ok tt, (e, quote_page y o body)).
Proof. unfold quote_page, quote_hdr. rewrite <-!app_assoc. apply buf_write_mid; [by rewrite lenz_le_bytes|by rewrite !length_le_bytes]. Qed.

Lemma out_len_written e x o o' body : buf_write 20 (le_bytes 4 o') (e, quote_page x o body) = (Ok tt, (e, quote_page x o' body)).
Proof.
  unfold quote_page, quote_hdr. rewrite <-!app_assoc, (app_assoc (le_bytes 8 1)), (app_assoc (le_bytes 8 1 ++ _)).
  rewrite (buf_write_mid e _ (le_bytes 4 o) body) by (rewrite ?lenz_app, ?lenz_le_bytes, ?length_le_bytes; done). by rewrite <-!app_assoc.
Qed.

Lemma body_written e x o body (d : bytes) : lenz d <= lenz body →
  buf_write 24 d (e, quote_page x o body) = (Ok tt, (e, quote_page x o (d ++ drop (length d) body))).
Proof. intros Hd. unfold quote_page. rewrite buf_write_next by (rewrite ?lenz_quote_hdr; done). by rewrite <-app_assoc. Qed.

(** The rest of the buffer behind the report. *)
Context (z : bytes) (Hz : lenz z = SERVTD_REQ_BUF_SIZE - 24 - 1024).

Lemma page_length x o : lenz (quote_page x o (report ++ z)) = SERVTD_REQ_BUF_SIZE.
Proof. unfold quote_page. rewrite !lenz_app, lenz_quote_hdr, Hz. unfold lenz. rewrite Hlen. lia. Qed.

(** What the emulator leaves for a report: the quote, or the status of an error
    that the migration TD may try again. *)
Definition quote_answer : bytes :=
  match get_quote_emulated report with
  | Some q => quote_page 0 (lenz q) (q ++ drop (length q) (report ++ z))
  | None => quote_page ERROR_STATUS TD_QUOTE_SIZE (report ++ z)
  end.

Definition quote_fits : Prop := match get_quote_emulated report with Some q => 0 < lenz q <= TD_QUOTE_SIZE | None => True end.

Lemma handle_plain e : logs_ok e → quote_fits →
  ∃ e', handle_quote_request get_quote_emulated false (e, quote_page 0 TD_QUOTE_SIZE (report ++ z)) = (Ok tt, (e', quote_answer)) ∧
    net e' = net e ∧ fields e' = fields e ∧ logs_ok e'.
Proof.
  intros Hl Hq. unfold handle_quote_request, buf_len. rewrite M_bind_eq, getS_bind. unfold mret at 1, M_ret. cbn [snd]. rewrite page_length.
  change (SERVTD_REQ_BUF_SIZE <? 24 + TDREPORT_SIZE) with false. cbv iota.
  assert (buf_read 24 (24 + TDREPORT_SIZE) (e, quote_page 0 TD_QUOTE_SIZE (report ++ z)) = (Ok report, (e, quote_page 0 TD_QUOTE_SIZE (report ++ z)))) as E.
  { unfold quote_page. apply buf_read_mid; [by rewrite lenz_quote_hdr|]. unfold lenz. by rewrite Hlen. }
  rewrite (M_bind_Ok _ _ _ _ _ E). unfold quote_answer, quote_fits in *. destruct (get_quote_emulated report) as [q|].
  - assert (lenz (report ++ z) = 65512) as Hb by (rewrite lenz_app, Hz; unfold lenz; rewrite Hlen; done). unfold TD_QUOTE_SIZE in Hq.
    rewrite M_bind_eq. unfold write_quote. rewrite (proj2 (Z.ltb_ge _ _)) by (unfold SERVTD_REQ_BUF_SIZE; lia).
    rewrite (M_bind_Ok _ _ _ _ _ (body_written e 0 TD_QUOTE_SIZE (report ++ z) q ltac:(lia))).
    unfold as_u. rewrite Z.mod_small, out_len_written by lia. rewrite (M_bind_Ok _ _ _ _ _ (status_written _ 0 0 _ _)). by apply notify_event_total.
  - rewrite (M_bind_Ok _ _ _ _ _ (status_written _ 0 ERROR_STATUS _ _)). by apply notify_event_total.
Qed.

Lemma get_quote_plain e : logs_ok e → quote_fits →
  ∃ e', tdvmcall_get_quote mem get_quote_emulated collateral (e, quote_page 0 TD_QUOTE_SIZE (report ++ z)) = (Ok tt, (e', quote_answer)) ∧
    net e' = net e ∧ fields e' = fields e ∧ logs_ok e'.
Proof.
  intros Hl Hq. unfold tdvmcall_get_quote. destruct (emu_read_total mem Hmem e Hl) as (m' & Em & Hl'). rewrite (on_emu_Ok _ _ _ _ _ _ Em).
  set (e1 := set_manager m' e) in *. set (pg := quote_page 0 TD_QUOTE_SIZE (report ++ z)) in *. assert (lenz pg = SERVTD_REQ_BUF_SIZE) as Hpg by apply page_length.
  unfold buf_len. rewrite M_bind_eq, getS_bind. unfold mret at 1, M_ret. cbn [snd]. rewrite Hpg. change (SERVTD_REQ_BUF_SIZE <? 24) with false. rewrite err_if_bind. cbv iota.
  assert (buf_read 16 20 (e1, pg) = (Ok (le_bytes 4 1024), (e1, pg))) as E1.
  { unfold pg, quote_page, quote_hdr. rewrite <-!app_assoc, (app_assoc (le_bytes 8 1)). apply buf_read_mid; by rewrite ?lenz_app, ?lenz_le_bytes. }
  rewrite (M_bind_Ok _ _ _ _ _ E1). change (le_val (le_bytes 4 1024)) with 1024. change ((1024 =? 0) || (SERVTD_REQ_BUF_SIZE <? 24 + 1024)) with false.
  rewrite err_if_bind. cbv iota. change (24 + SERVTD_HEADER_SIZE + 16 <=? SERVTD_REQ_BUF_SIZE) with true. cbv iota.
  assert (buf_read 28 30 (e1, pg) = (Ok (take 2 (drop 4 report)), (e1, pg))) as E2.
  { assert (pg = (quote_hdr 1 0 1024 TD_QUOTE_SIZE ++ take 4 report) ++ take 2 (drop 4 report) ++ drop 6 report ++ z) as ->.
    { unfold pg, quote_page. rewrite <-app_assoc. f_equal. replace (drop 6 report) with (drop 2 (drop 4 report)) by (by rewrite drop_drop).
      by rewrite (app_assoc (take 2 _)), take_drop, app_assoc, take_drop. }
    apply buf_read_mid; unfold lenz; rewrite ?length_app, ?length_quote_hdr, ?length_take, ?length_drop, Hlen; done. }
  assert (∀ x y, 0 <= x <= y → y <= 65536 → ∃ r, buf_read x y (e1, pg) = (Ok r, (e1, pg))) as Hrd.
  { intros x y Hxy Hy. unfold buf_read. rewrite getS_bind. cbn [snd]. destruct (slice_is_Some pg x y) as [r ->]; [done|by rewrite Hpg|]. by exists r. }
  destruct (Hrd 30 32) as [r3 E3]; [lia..|]. destruct (Hrd 32 36) as [r4 E4]; [lia..|].
  rewrite (M_bind_Ok _ _ _ _ _ E2), (M_bind_Ok _ _ _ _ _ E3), (M_bind_Ok _ _ _ _ _ E4).
  rewrite (proj2 (Z.eqb_neq _ _) Hplain). cbn [andb].
  destruct (handle_plain e1 Hl' Hq) as (e' & E & Hn & Hf & Hl2). by exists e'.
Qed.

(** The blob the migration TD hands over. *)
Lemma request_blob (pad : bytes) : pad = zeros (SERVTD_REQ_BUF_SIZE - 24 - 1024) →
  (b ← write_at (zeros SERVTD_REQ_BUF_SIZE) 0 (quote_hdr 1 0 (as_u 32 (lenz report)) TD_QUOTE_SIZE); write_at b QUOTE_HDR_SIZE report) =
    Some (quote_page 0 TD_QUOTE_SIZE (report ++ pad)).
Proof.
  intros ->. replace (zeros SERVTD_REQ_BUF_SIZE) with (zeros 24 ++ zeros 1024 ++ zeros (SERVTD_REQ_BUF_SIZE - 24 - 1024)) by (by rewrite <-!zeros_add).
  assert (lenz report = 1024) as Hr by (unfold lenz; by rewrite Hlen). rewrite Hr.
  pose proof (write_at_app [] (zeros 24) (zeros 1024 ++ zeros (SERVTD_REQ_BUF_SIZE - 24 - 1024)) (quote_hdr 1 0 (as_u 32 1024) TD_QUOTE_SIZE) 0 eq_refl
    ltac:(by rewrite length_quote_hdr)) as E. rewrite !app_nil_l in E. rewrite E. cbn [mbind option_bind].
  rewrite (write_at_app _ (zeros 1024)) by (rewrite ?lenz_quote_hdr, ?Hlen; done). done.
Qed.
End quotes.

(** The outside of a quote call when the emulator answers it with [b]: pages and
    call succeed, and the notification, if one is registered, comes. *)
Definition emulated_host (callback notify : bool) (b : bytes) : QuoteHost :=
  mkQuoteHost true callback notify CallOk [true] [le_val (take 8 (drop 8 b))] b.

Lemma notified_or_not callback notify b n st : le_val (take 8 (drop 8 b)) = st → st ≠ GET_QUOTE_STATUS_IN_FLIGHT → let h := emulated_host callback notify b in
  wait_for_quote_completion h n (set_vmm_notification h) SERVTD_REQ_BUF_SIZE =
    if st =? GET_QUOTE_STATUS_SUCCESS then Ok tt
    else if (st =? GET_QUOTE_STATUS_SERVICE_UNAVAILABLE) || (st =? GET_QUOTE_STATUS_ERROR) || (st =? GET_QUOTE_STATUS_IN_FLIGHT)
    then Err (Failed AttestLibError.Busy) else Err (Failed AttestLibError.QuoteFailure).
Proof.
  intros Hst Hne h. unfold wait_for_quote_completion. cbn [gh_halts gh_status emulated_host h]. rewrite Hst.
  assert ((if set_vmm_notification h then wait_for_vmm_notification [true] n else Ok tt) = Ok tt) as ->.
  { destruct (set_vmm_notification h); [|done]. cbn [wait_for_vmm_notification]. by destruct (negb (n =? 0)). }
  cbn [mbind outcome_bind]. change (SERVTD_REQ_BUF_SIZE <? GET_QUOTE_STATUS_FIELD.2) with false. cbv iota.
  assert (status_loop (set_vmm_notification h) [st] = Ok st) as ->; [|done].
  cbn [status_loop]. rewrite (proj2 (Z.eqb_neq _ _) Hne). by destruct (set_vmm_notification h).
Qed.

Lemma servtd_get_quote_emulated callback notify page b n st : lenz page = SERVTD_REQ_BUF_SIZE → lenz b = SERVTD_REQ_BUF_SIZE →
  le_val (take 8 (drop 8 b)) = st → st = 0 ∨ st = ERROR_STATUS →
  servtd_get_quote (emulated_host callback notify b) n (Some page) =
    Ok (if st =? 0 then 0 else AttestLibError.as_i32 AttestLibError.Busy, b).
Proof.
  intros Hp Hb Hst Hs. unfold servtd_get_quote. rewrite Hp. change (GET_QUOTE_MAX_SIZE <? SERVTD_REQ_BUF_SIZE) with false.
  cbn [gh_shared gh_call gh_buffer emulated_host negb]. cbv zeta iota.
  change ((SERVTD_REQ_BUF_SIZE + 0xFFF) / 0x1000 * 0x1000) with SERVTD_REQ_BUF_SIZE.
  assert (st ≠ GET_QUOTE_STATUS_IN_FLIGHT) as Hne by (destruct Hs as [->| ->]; done).
  pose proof (notified_or_not callback notify b n st Hst Hne) as Hw. cbv zeta in Hw. rewrite Hw.
  rewrite <-Hb, fit_exact, slice_take, to_nat_lenz, firstn_all by (pose proof (lenz_nonneg b); lia).
  destruct Hs as [->| ->]; reflexivity.
Qed.

Lemma at_index_bind {A B} (a : A) (f : A → AResult B) : (at_index (Some a) ≫= f) = f a.
Proof. done. Qed.

Lemma quote_page_status x o body : in_u 64 x → le_val (take 8 (drop 8 (quote_page x o body))) = x.
Proof.
  intros Hx. unfold quote_page, quote_hdr. rewrite <-!app_assoc, drop_app_length', take_app_length' by (by rewrite length_le_bytes).
  by rewrite le_val_bytes, Z.mod_small.
Qed.

(** The quote call of the migration TD over the emulator: it returns exactly the
    quote the emulator got for the report, and an error that is tried again when
    there was none. *)
Lemma emulated_quote mem get_quote_emulated collateral report e callback notify n : (∀ a, bytes_ok (mem a)) → length report = 1024%nat →
  le_val (take 2 (drop 4 report)) ≠ 1 → quote_fits get_quote_emulated report → logs_ok e →
  ∃ page e' b,
    (b ← write_at (zeros SERVTD_REQ_BUF_SIZE) 0 (quote_hdr 1 0 (as_u 32 (lenz report)) TD_QUOTE_SIZE); write_at b QUOTE_HDR_SIZE report) = Some page ∧
    tdvmcall_get_quote mem get_quote_emulated collateral (e, page) = (Ok tt, (e', b)) ∧
    get_quote_igvm (emulated_host callback notify b) n report =
      match get_quote_emulated report with Some q => Ok q | None => Err (Failed AttestError.Busy) end.
Proof.
  intros Hmem Hlen Hplain Hq Hl. set (pad := zeros (SERVTD_REQ_BUF_SIZE - 24 - 1024)).
  pose proof (request_blob report Hlen pad eq_refl) as Hblob.
  assert (lenz pad = SERVTD_REQ_BUF_SIZE - 24 - 1024) as Hpad by (by apply lenz_zeros). clearbody pad.
  destruct (get_quote_plain mem Hmem get_quote_emulated collateral report Hlen Hplain pad Hpad e Hl Hq) as (e' & E & _).
  exists (quote_page 0 TD_QUOTE_SIZE (report ++ pad)), e', (quote_answer get_quote_emulated report pad). split; [done|]. split; [exact E|].
  assert (lenz report = 1024) as Hr by (unfold lenz; by rewrite Hlen).
  unfold get_quote_igvm. cbv zeta. change (SERVTD_REQ_BUF_SIZE <? QUOTE_HDR_SIZE + lenz report) with (65536 <? 24 + lenz report).
  rewrite (proj2 (Z.ltb_ge _ _)) by lia.
  destruct (write_at (zeros SERVTD_REQ_BUF_SIZE) 0 _) as [b0|]; [|done]. cbn [mbind option_bind] in Hblob.
  rewrite at_index_bind, Hblob, at_index_bind. pose proof (page_length report Hlen pad Hpad 0 TD_QUOTE_SIZE) as Hpl.
  unfold quote_answer, quote_fits in *. destruct (get_quote_emulated report) as [q|].
  - assert (lenz (q ++ drop (length q) (report ++ pad)) = 65512) as Hb.
    { assert (lenz (report ++ pad) = 65512) as Hrp by (rewrite lenz_app, Hpad, Hr; done). unfold TD_QUOTE_SIZE in Hq.
      rewrite lenz_app. unfold lenz in *. rewrite length_drop. lia. }
    rewrite (servtd_get_quote_emulated callback notify _ _ n 0 Hpl); [|unfold quote_page; by rewrite lenz_app, lenz_quote_hdr, Hb|by rewrite quote_page_status|by left].
    cbn [Z.eqb negb]. set (rest := drop (length q) (report ++ pad)) in *. clearbody rest.
    assert (slice (quote_page 0 (lenz q) (q ++ rest)) 20 24 = Some (le_bytes 4 (lenz q))) as ->.
    { unfold quote_page, quote_hdr. rewrite <-!app_assoc, (app_assoc (le_bytes 8 1)), (app_assoc (le_bytes 8 1 ++ _)).
      apply slice_app; by rewrite ?lenz_app, ?lenz_le_bytes. }
    rewrite at_index_bind. rewrite le_val_bytes, Z.mod_small by (unfold TD_QUOTE_SIZE in Hq; cbn; lia).
    rewrite (proj2 (Z.ltb_ge TD_QUOTE_SIZE _)), (proj2 (Z.eqb_neq _ _)) by lia.
    assert (lenz (quote_page 0 (lenz q) (q ++ rest)) = 65536) as -> by (unfold quote_page; by rewrite lenz_app, lenz_quote_hdr, Hb).
    rewrite (proj2 (Z.ltb_ge 65536 _)) by (unfold QUOTE_HDR_SIZE, TD_QUOTE_SIZE in *; lia).
    rewrite lenz_zeros by done. rewrite (proj2 (Z.ltb_ge TD_QUOTE_SIZE _)) by lia.
    unfold quote_page. rewrite (slice_app (quote_hdr 1 0 1024 (lenz q)) q rest) by (rewrite ?lenz_quote_hdr; done). rewrite at_index_bind.
    rewrite (write_at_Some (zeros TD_QUOTE_SIZE) 0 q) by (rewrite ?lenz_zeros by done; lia). rewrite at_index_bind.
    change (Z.to_nat 0) with 0%nat. rewrite take_0, app_nil_l, to_nat_lenz, take_app_length. done.
  - rewrite (servtd_get_quote_emulated callback notify _ _ n ERROR_STATUS Hpl); [done|apply page_length; done|by rewrite quote_page_status|by right].
Qed.
