(* ===== verification/EmuMain.v ===== *)
(** * EmuMain: the emulated migration TD as a process

    src/migtd/src/bin/migtd/cvmemu.rs, with the firmware volume of
    deps/td-shim-AzCVMEmu/td-shim-interface (file_ops.rs, td_uefi_pi/fv.rs): the
    command line is read, the connection is made and the requests are queued; the
    files are loaded; and a loop takes the requests from the emulator (EmuVmm) until
    one ends the process.  The operations of the requests are those of Scheduler,
    and an exit of the process is an [Err] with its code.  The text that is printed,
    the measurements (Startup) and the heap of the attestation library are left out. *)
From Stdlib Require Import Ascii.
From stdpp Require Import base tactics numbers option strings list list_numbers gmap.
From S2P Require Import Prelude MigData Session SessionSpec Scheduler MigtdHash PolicyV2 EmuVmm EmuVmmSpec.
Local Open Scope Z_scope.

#[local] Notation bytes := (list Z).

(** ** The firmware volume *)

(** A static buffer with the size and the flag beside it. *)
Record Slot := mkSlot { sl_buffer : bytes; sl_size : Z; sl_initialized : bool }.

Record Volume := mkVolume { POLICY : Slot; ROOT_CA : Slot; POLICY_ISSUER_CHAIN : Slot }.

Definition POLICY_BUFFER_SIZE : Z := 1024 * 1024.
Definition ROOT_CA_BUFFER_SIZE : Z := 4096.
Definition POLICY_ISSUER_CHAIN_BUFFER_SIZE : Z := 8192.

Definition slot_new (size : Z) : Slot := mkSlot (zeros size) 0 false.

Definition volume_new : Volume :=
  mkVolume (slot_new POLICY_BUFFER_SIZE) (slot_new ROOT_CA_BUFFER_SIZE) (slot_new POLICY_ISSUER_CHAIN_BUFFER_SIZE).

(** [copy_from_slice] into the start of the buffer *)
Definition set_data (data : bytes) (s : Slot) : bool * Slot :=
  if lenz (sl_buffer s) <? lenz data then (false, s)
  else (true, mkSlot (data ++ drop (length data) (sl_buffer s)) (lenz data) true).

Definition set_policy_data (data : bytes) (v : Volume) : bool * Volume :=
  let '(ok, s) := set_data data (POLICY v) in (ok, mkVolume s (ROOT_CA v) (POLICY_ISSUER_CHAIN v)).
Definition set_root_ca_data (data : bytes) (v : Volume) : bool * Volume :=
  let '(ok, s) := set_data data (ROOT_CA v) in (ok, mkVolume (POLICY v) s (POLICY_ISSUER_CHAIN v)).
Definition set_policy_issuer_chain_data (data : bytes) (v : Volume) : bool * Volume :=
  let '(ok, s) := set_data data (POLICY_ISSUER_CHAIN v) in (ok, mkVolume (POLICY v) (ROOT_CA v) s).

(** What is at a path: a file that can be read, or something else. *)
Definition FileSystem := string → option (option bytes).

Definition real_file_reader (fs : FileSystem) (path : string) : option bytes :=
  match fs path with
  | Some (Some (b :: data)) => Some (b :: data)
  | _ => None
  end.

Definition load_file (fs : FileSystem) (set : bytes → Volume → bool * Volume) (path : string) (v : Volume) : bool * Volume :=
  match real_file_reader fs path with
  | Some data => set data v
  | None => (false, v)
  end.

Definition init_file_based_emulation_with_real_files (fs : FileSystem) (policy_path root_ca_path : string) (v : Volume) : bool * Volume :=
  let '(policy_loaded, v) := load_file fs set_policy_data policy_path v in
  let '(root_ca_loaded, v) := load_file fs set_root_ca_data root_ca_path v in
  (policy_loaded && root_ca_loaded, v).

Definition init_file_based_emulation_with_policy_chain (fs : FileSystem) (policy_path chain_path : string) (v : Volume) : bool * Volume :=
  let '(policy_loaded, v) := load_file fs set_policy_data policy_path v in
  let '(chain_loaded, v) := load_file fs set_policy_issuer_chain_data chain_path v in
  (policy_loaded && chain_loaded, v).

Definition FV_FILETYPE_RAW : Z := 1.

Definition slot_of (file_name : Guid) (v : Volume) : Slot :=
  match file_name with
  | MIGTD_POLICY_FFS_GUID => POLICY v
  | MIGTD_ROOT_CA_FFS_GUID => ROOT_CA v
  | MIGTD_POLICY_ISSUER_CHAIN_FFS_GUID => POLICY_ISSUER_CHAIN v
  end.

(** Other names than these three are not found. *)
Definition emu_get_file_from_fv (v : Volume) (fv_file_type : Z) (file_name : Guid) : option bytes :=
  if negb (fv_file_type =? FV_FILETYPE_RAW) then None
  else
    let s := slot_of file_name v in
    if sl_initialized s then Some (take (Z.to_nat (sl_size s)) (sl_buffer s)) else None.

(** ** Start-up of the emulation layer *)

Section init.
Context `{Features} (env_var : string → option string) (fs : FileSystem).

Definition path_of (name : string) : M Volume Z string :=
  path ← ok_or (env_var name) 1;
  _ ← err_if (bool_decide (fs path = None)) 1;
  mret path.

Definition load_all (f : Volume → bool * Volume) : M Volume Z unit :=
  v ← getS;
  let '(result, v) := f v in
  _ ← modifyS (λ _, v);
  err_if (negb result) 1.

Definition initialize_emulation : M Volume Z unit :=
  policy_path ← path_of "MIGTD_POLICY_FILE";
  if policy_v2 then
    chain_path ← path_of "MIGTD_POLICY_ISSUER_CHAIN_FILE";
    load_all (init_file_based_emulation_with_policy_chain fs policy_path chain_path)
  else
    root_ca_path ← path_of "MIGTD_ROOT_CA_FILE";
    load_all (init_file_based_emulation_with_real_files fs policy_path root_ca_path).
End init.

(** ** Numbers on the command line *)

(** [str::parse] of an unsigned type *)
Definition parse_u (w : Z) (s : string) : option Z := from_str_radix w 10 s.

(** ** The command line *)

Inductive Operation := Migration | RebindPrepare | RebindFinalize.

Record Args := mkArgs {
  a_mig_request_id : Z; a_is_source : bool; a_target_td_uuid : list Z; a_binding_handle : Z;
  a_destination_ip : option string; a_destination_port : option Z; a_help_requested : bool; a_operation : Operation }.

Definition default_args : Args := mkArgs 1 true [1; 2; 3; 4] 0x1234 None None false Migration.

Definition set_id (x : Z) (a : Args) : Args :=
  mkArgs x (a_is_source a) (a_target_td_uuid a) (a_binding_handle a) (a_destination_ip a) (a_destination_port a) (a_help_requested a) (a_operation a).
Definition set_role (x : bool) (a : Args) : Args :=
  mkArgs (a_mig_request_id a) x (a_target_td_uuid a) (a_binding_handle a) (a_destination_ip a) (a_destination_port a) (a_help_requested a) (a_operation a).
Definition set_uuid (x : list Z) (a : Args) : Args :=
  mkArgs (a_mig_request_id a) (a_is_source a) x (a_binding_handle a) (a_destination_ip a) (a_destination_port a) (a_help_requested a) (a_operation a).
Definition set_handle (x : Z) (a : Args) : Args :=
  mkArgs (a_mig_request_id a) (a_is_source a) (a_target_td_uuid a) x (a_destination_ip a) (a_destination_port a) (a_help_requested a) (a_operation a).
Definition set_ip (x : string) (a : Args) : Args :=
  mkArgs (a_mig_request_id a) (a_is_source a) (a_target_td_uuid a) (a_binding_handle a) (Some x) (a_destination_port a) (a_help_requested a) (a_operation a).
Definition set_dest_port (x : Z) (a : Args) : Args :=
  mkArgs (a_mig_request_id a) (a_is_source a) (a_target_td_uuid a) (a_binding_handle a) (a_destination_ip a) (Some x) (a_help_requested a) (a_operation a).
Definition set_help (a : Args) : Args :=
  mkArgs (a_mig_request_id a) (a_is_source a) (a_target_td_uuid a) (a_binding_handle a) (a_destination_ip a) (a_destination_port a) true (a_operation a).
Definition set_operation (x : Operation) (a : Args) : Args :=
  mkArgs (a_mig_request_id a) (a_is_source a) (a_target_td_uuid a) (a_binding_handle a) (a_destination_ip a) (a_destination_port a) (a_help_requested a) x.

Inductive Flag := FRequestId | FRole | FOperation | FUuid | FBinding | FDestIp | FDestPort | FHelp.

Definition OPTIONS : list (string * Flag) :=
  [("--request-id", FRequestId); ("-r", FRequestId); ("--role", FRole); ("-m", FRole); ("--operation", FOperation); ("-o", FOperation);
   ("--uuid", FUuid); ("-u", FUuid); ("--binding", FBinding); ("-b", FBinding); ("--dest-ip", FDestIp); ("-d", FDestIp);
   ("--dest-port", FDestPort); ("-t", FDestPort); ("--help", FHelp); ("-h", FHelp)]%string.

Definition ROLES : list (string * bool) :=
  [("source", true); ("src", true); ("destination", false); ("dst", false); ("target", false)]%string.

Definition OPERATIONS : list (string * Operation) :=
  [("migration", Migration); ("mig", Migration);
   ("rebind-prepare", RebindPrepare); ("rebind_prepare", RebindPrepare); ("rp", RebindPrepare);
   ("rebind-finalize", RebindFinalize); ("rebind_finalize", RebindFinalize); ("rf", RebindFinalize)]%string.

(** A [match] on string patterns. *)
Fixpoint assoc {A} (l : list (string * A)) (s : string) : option A :=
  match l with
  | [] => None
  | (k, x) :: l => if String.eqb k s then Some x else assoc l s
  end.

(** [to_lowercase]; no letter outside ASCII becomes one of those in the words. *)
Definition lower (a : Ascii.ascii) : Ascii.ascii :=
  let c := Ascii.N_of_ascii a in
  if (65 <=? c)%N && (c <=? 90)%N then Ascii.ascii_of_N (c + 32) else a.

Fixpoint to_lowercase (s : string) : string :=
  match s with EmptyString => EmptyString | String a s => String (lower a) (to_lowercase s) end.

(** Hexadecimal with a prefix, decimal without. *)
Definition parse_handle (s : string) : option Z :=
  match s with
  | String "0" (String a rest) => if Ascii.eqb a "x" || Ascii.eqb a "X" then from_str_radix 64 16 rest else parse_u 64 s
  | _ => parse_u 64 s
  end.

(** The [while] loop over the arguments: an option without its values counts as an
    unknown one, and a value that cannot be read ends the process. *)
Fixpoint args_loop (args : list string) (c : Args) : outcome Z Args :=
  match args with
  | [] => Ok c
  | a :: rest =>
      match assoc OPTIONS a, rest with
      | Some FRequestId, v :: rest => match parse_u 64 v with Some id => args_loop rest (set_id id c) | None => Err 1 end
      | Some FRole, v :: rest => match assoc ROLES (to_lowercase v) with Some r => args_loop rest (set_role r c) | None => Err 1 end
      | Some FOperation, v :: rest =>
          match assoc OPERATIONS (to_lowercase v) with Some o => args_loop rest (set_operation o c) | None => Err 1 end
      | Some FUuid, u1 :: u2 :: u3 :: u4 :: rest =>
          match parse_u 32 u1, parse_u 32 u2, parse_u 32 u3, parse_u 32 u4 with
          | Some n1, Some n2, Some n3, Some n4 => args_loop rest (set_uuid [n1; n2; n3; n4] c)
          | _, _, _, _ => Err 1
          end
      | Some FBinding, v :: rest => match parse_handle v with Some h => args_loop rest (set_handle h c) | None => Err 1 end
      | Some FDestIp, v :: rest => args_loop rest (set_ip v c)
      | Some FDestPort, v :: rest => match parse_u 16 v with Some p => args_loop rest (set_dest_port p c) | None => Err 1 end
      | Some FHelp, rest => args_loop rest (set_help c)
      | _, rest => args_loop rest (set_help c)
      end
  end.

Section commandline.
(** The environment of the log reader, the network, the report and the hash. *)
Context (log_path : bool) (opens writes : list bool) (bind : bool) (accept : option TcpStream) (connect : bytes * Z → option TcpStream).
Context (report : option EmuReport) (sha384 : bytes → bytes).

(** A failure that ends the process *)
Definition or_exit {E A} (m : M Emu E A) : M Emu Z A := λ s,
  match m s with
  | (Ok a, s') => (Ok a, s')
  | (Err _, s') => (Err 1, s')
  | (Panic, s') => (Panic, s')
  end.

Definition MIGTD_REBIND_OP_PREPARE : Z := 0.
Definition MIGTD_REBIND_OP_FINALIZE : Z := 1.

Definition queue_rebinding (c : Args) (source operation : Z) : M Emu Z unit := λ s,
  match set_emulated_start_rebinding report sha384 (a_mig_request_id c) source operation (a_target_td_uuid c) (a_binding_handle c) s with
  | Ok s' => (Ok tt, s')
  | Err _ => (Err 1, s)
  | Panic => (Panic, s)
  end.

Definition queue_operation (c : Args) : M Emu Z unit :=
  let migration_source := if a_is_source c then 1 else 0 in
  match a_operation c with
  | Migration => modifyS (set_emulated_start_migration (a_mig_request_id c) migration_source (a_target_td_uuid c) (a_binding_handle c))
  | RebindPrepare => queue_rebinding c migration_source MIGTD_REBIND_OP_PREPARE
  | RebindFinalize => queue_rebinding c migration_source MIGTD_REBIND_OP_FINALIZE
  end.

Definition make_connection (c : Args) : M Emu Z unit :=
  let tcp_ip := as_bytes (default "127.0.0.1"%string (a_destination_ip c)) in
  let tcp_port := default 8001 (a_destination_port c) in
  let mode := if a_is_source c then Client else Server in
  _ ← or_exit (init_tcp_emulation_with_mode log_path opens writes tcp_ip tcp_port mode);
  if negb (a_is_source c) then or_exit (start_tcp_server_sync bind accept) else or_exit (connect_tcp_client connect).

(** [args] without the name of the program *)
Definition parse_commandline_args (args : list string) : M Emu Z unit :=
  c ← liftO (args_loop args default_args);
  _ ← err_if (a_help_requested c) 0;
  _ ← make_connection c;
  queue_operation c.
End commandline.

(** ** The requests *)

Section requests.
Context `{Features} `{Operations}.
(** [tdcall_report_emulated], as the bytes of the report *)
Context (tdcall_report_emulated : bytes → option bytes) (mem : Z → bytes) (vector : Z) (policy event_log : option bytes).

Definition run_request (w : WaitForRequestResponse) : outcome MigrationResult unit * bytes :=
  match w with
  | GetTdReport i =>
      match tdcall_report_emulated (reportdata i) with
      | Some report => (Ok tt, report)
      | None => (Err MigrationResult.TdxModuleError, [])
      end
  | _ => run_operation w
  end.

(** [report_status] of the migration TD with the emulator behind the call: the
    buffer it leaves is what the TD polls. *)
Definition emu_report_status (status id : Z) (data : bytes) (e : Emu) (v : Vmm) : outcome (aerr MigrationResult) unit * Emu * Vmm :=
  let page : bytes := report_page data (report_pages data) in
  let '(r, (e', b)) := tdvmcall_migtd_reportstatus mem id (report_word status) vector (e, page) in
  let v := mkVmm (requests v) [true] [match r with Ok _ => true | _ => false end] (vm_waits v) [b]
             (vm_services v) (vm_reports v) (vm_commands v) in
  let '(w, v') := report_status status id data v in
  (w, e', v').

Definition ends_run (w : WaitForRequestResponse) : bool :=
  match w with StartMigration _ | StartRebinding _ => true | _ => false end.

(** The loop: the code of the process, [Err Pending] when no request comes. *)
Fixpoint handle_pre_mig_emu (fuel : nat) (e : Emu) (v : Vmm) : outcome (aerr unit) Z * Emu * Vmm :=
  match fuel with
  | O => (Err OutOfFuel, e, v)
  | S fuel =>
      match td_wait mem policy event_log vector e v with
      | (Ok w, e, v) =>
          let '(r, data) := run_request w in
          match status_of r with
          | Ok status =>
              let code := MigrationResult.as_u8 status in
              match emu_report_status code (request_id_of w) data e v with
              | (Ok _, e, v) | (Err (Failed _), e, v) => if ends_run w then (Ok code, e, v) else handle_pre_mig_emu fuel e v
              | (Err Pending, e, v) => (Err Pending, e, v)
              | (Err OutOfFuel, e, v) => (Err OutOfFuel, e, v)
              | (Panic, e, v) => (Panic, e, v)
              end
          | Err _ | Panic => (Panic, e, v)
          end
      | (Err (Failed err), e, v) => (Ok (MigrationResult.as_u8 err), e, v)
      | (Err Pending, e, v) => (Err Pending, e, v)
      | (Err OutOfFuel, e, v) => (Err OutOfFuel, e, v)
      | (Panic, e, v) => (Panic, e, v)
      end
  end.
End requests.
