(* ===== verification/EmuMainSpec.v ===== *)
(** * EmuMainSpec: a run of the emulated migration TD

    The files of the volume are found as they were on disk; the values of a command
    line are in their ranges and a written command line is read back; and a process
    started with it serves exactly the requests it asks for, reports each of them
    and ends with the status of the last one (EmuMain over EmuVmm and Session). *)
From Stdlib Require Import Ascii.
From stdpp Require Import base tactics numbers option strings list list_numbers gmap.
From S2P Require Import Prelude MigData MigDataSpec Session SessionSpec Scheduler MigtdHash PolicyV2 EmuLog EmuLogSpec EmuVmm EmuVmmSpec EmuCallSpec EmuMain.
Local Open Scope Z_scope.

#[local] Notation bytes := (list Z).

(** ** Files *)

(** A slot holds its size, at most. *)
Definition slot_ok (capacity : Z) (s : Slot) : Prop := lenz (sl_buffer s) = capacity ∧ 0 <= sl_size s <= capacity.

Definition volume_ok (v : Volume) : Prop :=
  slot_ok POLICY_BUFFER_SIZE (POLICY v) ∧ slot_ok ROOT_CA_BUFFER_SIZE (ROOT_CA v) ∧ slot_ok POLICY_ISSUER_CHAIN_BUFFER_SIZE (POLICY_ISSUER_CHAIN v).

Lemma slot_new_ok n : 0 <= n → slot_ok n (slot_new n).
Proof. intros Hn. split; [by apply lenz_zeros|cbn; lia]. Qed.

Lemma volume_new_ok : volume_ok volume_new.
Proof. split_and!; by apply slot_new_ok. Qed.

(** What is stored is found, without anything of what was there before. *)
Lemma set_data_spec n d s ok s' : slot_ok n s → set_data d s = (ok, s') →
  slot_ok n s' ∧ (if ok then lenz d <= n ∧ sl_initialized s' = true ∧ take (Z.to_nat (sl_size s')) (sl_buffer s') = d else n < lenz d ∧ s' = s).
Proof.
  intros [Hb Hs]. unfold set_data. rewrite Hb. pose proof (lenz_nonneg d). destruct (Z.ltb_spec n (lenz d)) as [Hd|Hd]; intros [= <- <-]; [done|].
  split; [split; cbn [sl_buffer sl_size]|cbn [sl_buffer sl_size sl_initialized]; split_and!; [done|done|]].
  - unfold lenz in *. rewrite length_app, length_drop. lia.
  - lia.
  - by rewrite to_nat_lenz, take_app_length.
Qed.

(** The files a path leads to. *)
Definition file_at (fs : FileSystem) (path : string) (d : bytes) : Prop := fs path = Some (Some d) ∧ d ≠ [].

Lemma reader_spec fs path d : real_file_reader fs path = Some d ↔ file_at fs path d.
Proof.
  unfold real_file_reader, file_at. split.
  - destruct (fs path) as [[[|b l]|]|]; intros [= <-]. done.
  - intros [-> Hd]. by destruct d.
Qed.

Section files.
Context `{F : Features} (env_var : string → option string) (fs : FileSystem).

(** The second file: the issuer chain, or the root certificate. *)
Definition second_name : string := if policy_v2 then "MIGTD_POLICY_ISSUER_CHAIN_FILE" else "MIGTD_ROOT_CA_FILE".
Definition second_guid : Guid := if policy_v2 then MIGTD_POLICY_ISSUER_CHAIN_FFS_GUID else MIGTD_ROOT_CA_FFS_GUID.
Definition second_size : Z := if policy_v2 then POLICY_ISSUER_CHAIN_BUFFER_SIZE else ROOT_CA_BUFFER_SIZE.

Definition loadable (name : string) (limit : Z) (d : bytes) : Prop := ∃ path, env_var name = Some path ∧ file_at fs path d ∧ lenz d <= limit.

Lemma path_of_spec name v : path_of env_var fs name v =
  match env_var name with Some p => if bool_decide (fs p = None) then (Err 1, v) else (Ok p, v) | None => (Err 1, v) end.
Proof. unfold path_of. rewrite ok_or_bind. destruct (env_var name) as [p|]; [|done]. rewrite err_if_bind. by destruct (bool_decide _). Qed.

Definition holds (s : Slot) (d : bytes) : Prop := sl_initialized s = true ∧ take (Z.to_nat (sl_size s)) (sl_buffer s) = d.

Lemma load_slot set get limit path v ok v' : (∀ d, set_data d (get v) = ((set d v).1, get (set d v).2)) → slot_ok limit (get v) →
  load_file fs set path v = (ok, v') → slot_ok limit (get v') ∧
  if ok then ∃ d, file_at fs path d ∧ lenz d <= limit ∧ holds (get v') d else ∀ d, file_at fs path d → limit < lenz d.
Proof.
  intros Hset Hok. unfold load_file. destruct (real_file_reader fs path) as [d|] eqn:Er.
  - intros E. apply reader_spec in Er. specialize (Hset d). rewrite E in Hset. cbn in Hset. destruct (set_data_spec _ _ _ _ _ Hok Hset) as [Hok' Hr].
    split; [done|]. destruct ok; [exists d; unfold holds; naive_solver|]. intros d' Hd'. destruct Er, Hd'. destruct Hr. congruence.
  - intros [= <- <-]. split; [done|]. intros d Hd. apply reader_spec in Hd. congruence.
Qed.

(** The two initialisations differ in the second file. *)
Definition init_files (p1 p2 : string) (v : Volume) : bool * Volume :=
  if policy_v2 then init_file_based_emulation_with_policy_chain fs p1 p2 v else init_file_based_emulation_with_real_files fs p1 p2 v.

Definition set_second : bytes → Volume → bool * Volume := if policy_v2 then set_policy_issuer_chain_data else set_root_ca_data.
Definition second_slot : Volume → Slot := slot_of second_guid.

Lemma set_policy_slot d v : set_data d (POLICY v) = ((set_policy_data d v).1, POLICY (set_policy_data d v).2).
Proof. unfold set_policy_data. by destruct (set_data d (POLICY v)). Qed.

Lemma set_second_slot d v : set_data d (second_slot v) = ((set_second d v).1, second_slot (set_second d v).2).
Proof.
  unfold set_second, second_slot, second_guid, set_policy_issuer_chain_data, set_root_ca_data.
  destruct policy_v2; cbn [slot_of]; [by destruct (set_data d (POLICY_ISSUER_CHAIN v))|by destruct (set_data d (ROOT_CA v))].
Qed.

(** The slots that a load does not name stay. *)
Lemma load_policy_frame p v ok v' : load_file fs set_policy_data p v = (ok, v') → ROOT_CA v' = ROOT_CA v ∧ POLICY_ISSUER_CHAIN v' = POLICY_ISSUER_CHAIN v.
Proof. unfold load_file, set_policy_data. destruct (real_file_reader fs p) as [d|]; [destruct (set_data d (POLICY v))|]; by intros [= <- <-]. Qed.

Lemma load_second_frame p v ok v' : load_file fs set_second p v = (ok, v') → volume_ok v → slot_ok second_size (second_slot v') →
  POLICY v' = POLICY v ∧ volume_ok v'.
Proof.
  unfold load_file, set_second, second_slot, second_guid, second_size, set_policy_issuer_chain_data, set_root_ca_data. intros E (H1 & H2 & H3) Hs.
  destruct (real_file_reader fs p) as [d|], policy_v2; cbn [slot_of] in Hs;
    [destruct (set_data d (POLICY_ISSUER_CHAIN v))|destruct (set_data d (ROOT_CA v))|..]; by injection E as <- <-.
Qed.

Lemma init_files_spec p1 p2 v ok v' : volume_ok v → init_files p1 p2 v = (ok, v') → volume_ok v' ∧
  if ok then ∃ a b, file_at fs p1 a ∧ lenz a <= POLICY_BUFFER_SIZE ∧ file_at fs p2 b ∧ lenz b <= second_size ∧
    emu_get_file_from_fv v' FV_FILETYPE_RAW MIGTD_POLICY_FFS_GUID = Some a ∧ emu_get_file_from_fv v' FV_FILETYPE_RAW second_guid = Some b
  else ¬ ∃ a b, file_at fs p1 a ∧ lenz a <= POLICY_BUFFER_SIZE ∧ file_at fs p2 b ∧ lenz b <= second_size.
Proof.
  intros (H1 & H2 & H3). assert (init_files p1 p2 v = let '(a, v) := load_file fs set_policy_data p1 v in let '(b, v) := load_file fs set_second p2 v in (a && b, v)) as ->
    by (unfold init_files, set_second; by destruct policy_v2).
  destruct (load_file fs set_policy_data p1 v) as [ok1 v1] eqn:E1. destruct (load_file fs set_second p2 v1) as [ok2 v2] eqn:E2. intros [= <- <-].
  destruct (load_slot set_policy_data POLICY _ p1 v ok1 v1 (λ d, set_policy_slot d v) H1 E1) as [H1' R1].
  destruct (load_policy_frame p1 v ok1 v1 E1) as [Er Ec]. assert (volume_ok v1) as Hv1 by (split_and!; congruence).
  assert (slot_ok second_size (second_slot v1)) as Hs by (unfold second_size, second_slot, second_guid; destruct Hv1 as (? & ? & ?); by destruct policy_v2).
  destruct (load_slot set_second second_slot _ p2 v1 ok2 v2 (λ d, set_second_slot d v1) Hs E2) as [Hs' R2].
  destruct (load_second_frame p2 v1 ok2 v2 E2 Hv1 Hs') as [Ep Hv2]. split; [done|].
  unfold emu_get_file_from_fv. cbn [Z.eqb Pos.eqb negb FV_FILETYPE_RAW]. fold (second_slot v2). change (slot_of MIGTD_POLICY_FFS_GUID v2) with (POLICY v2). rewrite Ep.
  destruct ok1, ok2; cbn [andb]; [destruct R1 as (a & ? & ? & -> & ?), R2 as (b & ? & ? & -> & ?); exists a, b; split_and!; by try f_equal|..];
    intros (a & b & Ha & Hla & Hb & Hlb); try (specialize (R2 b Hb); lia); specialize (R1 a Ha); lia.
Qed.

(** Start-up succeeds exactly when both files are named, readable, not empty and not
    too large; then both are found in the volume.  Otherwise the process ends. *)
Lemma initialize_emulation_spec v r v' : volume_ok v → initialize_emulation env_var fs v = (r, v') → volume_ok v' ∧
  match r with
  | Ok _ => ∃ a b, loadable "MIGTD_POLICY_FILE" POLICY_BUFFER_SIZE a ∧ loadable second_name second_size b ∧
      emu_get_file_from_fv v' FV_FILETYPE_RAW MIGTD_POLICY_FFS_GUID = Some a ∧ emu_get_file_from_fv v' FV_FILETYPE_RAW second_guid = Some b
  | Err code => code = 1 ∧ ¬ ∃ a b, loadable "MIGTD_POLICY_FILE" POLICY_BUFFER_SIZE a ∧ loadable second_name second_size b
  | Panic => False
  end.
Proof.
  intros Hv. assert (initialize_emulation env_var fs = p1 ← path_of env_var fs "MIGTD_POLICY_FILE"; p2 ← path_of env_var fs second_name; load_all (init_files p1 p2)) as ->
    by (unfold initialize_emulation, second_name, init_files; by destruct policy_v2).
  assert (∀ name limit d, loadable name limit d → ∃ p, path_of env_var fs name v = (Ok p, v) ∧ env_var name = Some p ∧ file_at fs p d ∧ lenz d <= limit) as Hl.
  { intros name limit d (p & Hp & Hf & Hd). exists p. rewrite path_of_spec, Hp. destruct Hf as [Hf ?]. rewrite bool_decide_false by (by rewrite Hf). done. }
  assert (∀ name, (∃ p, path_of env_var fs name v = (Ok p, v) ∧ env_var name = Some p) ∨ path_of env_var fs name v = (Err 1, v)) as Hp.
  { intros name. rewrite path_of_spec. destruct (env_var name) as [p|]; [|by right]. destruct (bool_decide _); [by right|left; by exists p]. }
  destruct (Hp "MIGTD_POLICY_FILE"%string) as [(p1 & E1 & V1)|E1]; [rewrite (M_bind_Ok _ _ _ _ _ E1)|].
  2:{ rewrite M_bind_eq, E1. intros [= <- <-]. split; [done|]. split; [done|]. intros (a & b & Ha & _). destruct (Hl _ _ _ Ha) as (? & ? & _). congruence. }
  destruct (Hp second_name) as [(p2 & E2 & V2)|E2]; [rewrite (M_bind_Ok _ _ _ _ _ E2)|].
  2:{ rewrite M_bind_eq, E2. intros [= <- <-]. split; [done|]. split; [done|]. intros (a & b & _ & Hb). destruct (Hl _ _ _ Hb) as (? & ? & _). congruence. }
  unfold load_all. rewrite getS_bind. destruct (init_files p1 p2 v) as [ok w] eqn:Ei. destruct (init_files_spec p1 p2 v ok w Hv Ei) as [Hw Hr].
  rewrite modifyS_bind. destruct ok; intros [= <- <-]; (split; [done|]).
  - destruct Hr as (a & b & ? & ? & ? & ? & ? & ?). exists a, b. split_and!; [by exists p1|by exists p2|done|done].
  - split; [done|]. intros (a & b & (q1 & Q1 & ? & ?) & (q2 & Q2 & ? & ?)). apply Hr. exists a, b. split_and!; congruence.
Qed.
End files.

(** ** The command line *)

Record args_ok (c : Args) : Prop := {
  ok_id : in_u 64 (a_mig_request_id c);
  ok_uuid : length (a_target_td_uuid c) = 4%nat ∧ Forall (in_u 32) (a_target_td_uuid c);
  ok_handle : in_u 64 (a_binding_handle c);
  ok_port : ∀ p, a_destination_port c = Some p → in_u 16 p }.

Lemma default_args_ok : args_ok default_args.
Proof. split; cbn; try done. split; [done|]. repeat (apply Forall_cons_2; [done|]). apply Forall_nil_2. Qed.

Lemma to_digit_nonneg radix a d : to_digit radix a = Some d → 0 <= d.
Proof.
  unfold to_digit, between. set (c := Z.of_N _). intros H. destruct (_ <? radix) eqn:E; [|done]. injection H as <-. revert E.
  destruct ((48 <=? c) && (c <=? 57)) eqn:E1; [lia|]. destruct ((97 <=? c) && (c <=? 122)) eqn:E2; [lia|]. destruct ((65 <=? c) && (c <=? 90)) eqn:E3; lia.
Qed.

Lemma parse_digits_range radix bound acc s n : 0 <= radix → 0 <= acc < bound → parse_digits radix bound acc s = Some n → 0 <= n < bound.
Proof.
  intros Hr. revert acc. induction s as [|a s IH]; intros acc Ha; cbn [parse_digits]; [by intros [= <-]|].
  destruct (to_digit radix a) as [d|] eqn:Ed; [|done]. apply to_digit_nonneg in Ed. cbn [mbind option_bind].
  destruct (Z.ltb_spec (acc * radix + d) bound); [|done]. apply IH. nia.
Qed.

Lemma from_str_radix_range w radix s n : 0 <= w → 0 <= radix → from_str_radix w radix s = Some n → in_u w n.
Proof.
  intros Hw Hr. assert (0 <= 0 < 2 ^ w) as H0 by lia. unfold from_str_radix. destruct s as [|a s]; [done|].
  destruct (bool_decide (a = "+"%char)); [destruct s; [done|]|]; by apply parse_digits_range.
Qed.

Lemma parse_u_range w s n : 0 <= w → parse_u w s = Some n → in_u w n.
Proof. intros. by apply (from_str_radix_range w 10 s). Qed.

Lemma parse_handle_range s n : parse_handle s = Some n → in_u 64 n.
Proof.
  intros H. assert (from_str_radix 64 10 s = Some n ∨ ∃ r, from_str_radix 64 16 r = Some n) as [H'|[r H']];
    [|by apply (from_str_radix_range 64 10 s)|by apply (from_str_radix_range 64 16 r)].
  revert H. unfold parse_handle, parse_u. destruct s as [|a [|b r]]; try (by left); destruct a as [[] [] [] [] [] [] [] []]; try (by left).
  destruct (_ || _); [right; by exists r|by left].
Qed.

(** Whatever is on the command line, the values that come out are in range, and a
    value that cannot be read ends the process with code 1. *)
Lemma args_loop_total args c : args_ok c → match args_loop args c with Ok c' => args_ok c' | Err code => code = 1 | Panic => False end.
Proof.
  remember (length args) as n eqn:Hn. revert args c Hn. induction (lt_wf n) as [n _ IH]. intros args c -> Hc.
  assert (∀ rest c', (length rest < length args)%nat → args_ok c' → match args_loop rest c' with Ok c' => args_ok c' | Err code => code = 1 | Panic => False end) as IH'
    by (intros rest c' Hl Hc'; by apply (IH _ Hl rest c' eq_refl)).
  clear IH. destruct Hc as [H1 H2 H3 H4]. destruct args as [|a rest]; [by split|]. cbn [args_loop].
  assert (match args_loop rest (set_help c) with Ok c' => args_ok c' | Err code => code = 1 | Panic => False end) as Hhelp by (apply IH'; [cbn; lia|by split]).
  destruct (assoc OPTIONS a) as [[]|]; [| | | | | | |done|done]; (destruct rest as [|v rest]; [exact Hhelp|]).
  - destruct (parse_u 64 v) as [x|] eqn:E; [|done]. apply parse_u_range in E; [|lia]. apply IH'; [cbn; lia|by split].
  - destruct (assoc ROLES (to_lowercase v)); [|done]. apply IH'; [cbn; lia|by split].
  - destruct (assoc OPERATIONS (to_lowercase v)); [|done]. apply IH'; [cbn; lia|by split].
  - destruct rest as [|u2 [|u3 [|u4 rest]]]; try exact Hhelp.
    destruct (parse_u 32 v) as [x1|] eqn:E1; [|done]. destruct (parse_u 32 u2) as [x2|] eqn:E2; [|done]. destruct (parse_u 32 u3) as [x3|] eqn:E3; [|done].
    destruct (parse_u 32 u4) as [x4|] eqn:E4; [|done]. apply parse_u_range in E1, E2, E3, E4; [|lia..].
    apply IH'; [cbn; lia|]. split; try done. split; [done|]. by repeat apply Forall_cons_2.
  - destruct (parse_handle v) as [x|] eqn:E; [|done]. apply parse_handle_range in E. apply IH'; [cbn; lia|by split].
  - apply IH'; [cbn; lia|by split].
  - destruct (parse_u 16 v) as [x|] eqn:E; [|done]. apply parse_u_range in E; [|lia]. apply IH'; [cbn; lia|]. split; try done. cbn. by intros p [= <-].
Qed.

(** *** Writing a command line *)

Definition digit (d : Z) : ascii := ascii_of_N (48 + Z.to_N d).

Fixpoint show_digits (fuel : nat) (n : Z) (s : string) : string :=
  match fuel with
  | O => s
  | S fuel => let s := String (digit (n mod 10)) s in if n <? 10 then s else show_digits fuel (n / 10) s
  end.

(** Twenty digits are enough for 64 bits. *)
Definition show (n : Z) : string := show_digits 20 n "".

Ltac each_digit d :=
  assert (d = 0 ∨ d = 1 ∨ d = 2 ∨ d = 3 ∨ d = 4 ∨ d = 5 ∨ d = 6 ∨ d = 7 ∨ d = 8 ∨ d = 9) as Hdigit by lia;
  destruct Hdigit as [->|[->|[->|[->|[->|[->|[->|[->|[->| ->]]]]]]]]].

Lemma to_digit_digit d : 0 <= d < 10 → to_digit 10 (digit d) = Some d.
Proof. intros Hd. by each_digit d. Qed.

Lemma read_show w fuel n s : in_u w n → n < 10 ^ Z.of_nat fuel → (0 < fuel)%nat →
  parse_digits 10 (2 ^ w) 0 (show_digits fuel n s) = parse_digits 10 (2 ^ w) n s.
Proof.
  unfold in_u. revert n s. induction fuel as [|fuel IH]; intros n s Hn Hf Hp; [lia|]. cbn [show_digits].
  pose proof (Z.mod_pos_bound n 10 ltac:(lia)). pose proof (Z.div_mod n 10 ltac:(lia)) as Hdm. destruct (Z.ltb_spec n 10).
  - rewrite Z.mod_small by lia. cbn [parse_digits]. rewrite to_digit_digit by lia. cbn [mbind option_bind]. by rewrite Z.mul_0_l, Z.add_0_l, (proj2 (Z.ltb_lt _ _)) by lia.
  - rewrite Nat2Z.inj_succ, Z.pow_succ_r in Hf by lia.
    rewrite IH; [|nia|nia|destruct fuel; [cbn in Hf; lia|lia]]. cbn [parse_digits]. rewrite to_digit_digit by lia. cbn [mbind option_bind].
    replace (n / 10 * 10 + n mod 10) with n by lia. by rewrite (proj2 (Z.ltb_lt _ _)) by lia.
Qed.

(** The first character is a digit, and so is the second. *)
Fixpoint all_digits (s : string) : Prop :=
  match s with EmptyString => True | String a s => (∃ d, 0 <= d < 10 ∧ a = digit d) ∧ all_digits s end.

Lemma show_all_digits fuel n s : 0 <= n → all_digits s → all_digits (show_digits fuel n s).
Proof.
  revert n s. induction fuel as [|fuel IH]; intros n s Hn Hs; cbn [show_digits]; [done|].
  assert (all_digits (String (digit (n mod 10)) s)) as H by (split; [exists (n mod 10); split; [apply Z.mod_pos_bound; lia|done]|done]).
  destruct (n <? 10); [done|]. apply IH; [apply Z.div_pos; lia|done].
Qed.

Lemma show_digits_cons fuel n s : ∃ a r, show_digits (S fuel) n s = String a r.
Proof.
  assert (∀ fuel n a s, ∃ b r, show_digits fuel n (String a s) = String b r) as H.
  { clear. intros fuel. induction fuel as [|fuel IH]; intros n a s; cbn [show_digits]; [by eexists _, _|]. destruct (n <? 10); [by eexists _, _|]. apply IH. }
  cbn [show_digits]. destruct (n <? 10); [by eexists _, _|]. apply H.
Qed.

Lemma digit_not_plus d : 0 <= d < 10 → digit d ≠ "+"%char.
Proof. intros Hd. by each_digit d. Qed.

Lemma digit_eqb (x : ascii) d : 0 <= d < 10 → (x = "x" ∨ x = "X")%char → Ascii.eqb (digit d) x = false.
Proof.
  intros Hd Hx. destruct Hx as [->| ->]; by each_digit d.
Qed.

Lemma show_read w n : in_u w n → w <= 64 → parse_u w (show n) = Some n.
Proof.
  intros Hn Hw. unfold in_u in Hn. assert (n < 10 ^ 20) as Hf by (pose proof (Z.pow_le_mono_r 2 w 64 ltac:(lia) Hw); lia).
  unfold parse_u, from_str_radix. destruct (show_digits_cons 19 n "") as (a & r & E). unfold show. pose proof (show_all_digits 20 n "" ltac:(lia) I) as Hd.
  rewrite E in Hd. destruct Hd as [(d & Hd & ->) _]. pose proof (read_show w 20 n "" Hn Hf ltac:(lia)) as Hr. rewrite E in Hr |- *.
  rewrite bool_decide_false by (by apply digit_not_plus). by rewrite Hr.
Qed.

Lemma show_handle n : in_u 64 n → parse_handle (show n) = Some n.
Proof.
  intros Hn. assert (parse_handle (show n) = parse_u 64 (show n)) as ->; [|by apply show_read].
  unfold show. pose proof (show_all_digits 20 n "" ltac:(unfold in_u in Hn; lia) I) as Hd. destruct (show_digits 20 n "") as [|a [|b r]]; [done| |].
  - by destruct a as [[] [] [] [] [] [] [] []].
  - destruct Hd as (_ & (d & Hd & ->) & _). unfold parse_handle. rewrite !digit_eqb by auto. by destruct a as [[] [] [] [] [] [] [] []].
Qed.

Definition role_name (source : bool) : string := if source then "source" else "destination".
Definition operation_name (o : Operation) : string :=
  match o with Migration => "migration" | RebindPrepare => "rebind-prepare" | RebindFinalize => "rebind-finalize" end.

Definition args_of (c : Args) : list string :=
  ["--request-id"; show (a_mig_request_id c); "--role"; role_name (a_is_source c); "--operation"; operation_name (a_operation c)]%string ++
  "--uuid"%string :: (show <$> a_target_td_uuid c) ++ ["--binding"; show (a_binding_handle c)]%string ++
  match a_destination_ip c with Some ip => ["--dest-ip"; ip]%string | None => [] end ++
  match a_destination_port c with Some p => ["--dest-port"; show p]%string | None => [] end.

(** One option and its value. *)
Lemma parse_id x rest c : in_u 64 x → args_loop ("--request-id"%string :: show x :: rest) c = args_loop rest (set_id x c).
Proof. intros Hx. transitivity (match parse_u 64 (show x) with Some x => args_loop rest (set_id x c) | None => Err 1 end); [done|by rewrite show_read]. Qed.

Lemma parse_role x rest c : args_loop ("--role"%string :: role_name x :: rest) c = args_loop rest (set_role x c).
Proof. by destruct x. Qed.

Lemma parse_operation x rest c : args_loop ("--operation"%string :: operation_name x :: rest) c = args_loop rest (set_operation x c).
Proof. by destruct x. Qed.

Lemma parse_uuid x1 x2 x3 x4 rest c : Forall (in_u 32) [x1; x2; x3; x4] →
  args_loop ("--uuid"%string :: show x1 :: show x2 :: show x3 :: show x4 :: rest) c = args_loop rest (set_uuid [x1; x2; x3; x4] c).
Proof.
  rewrite !Forall_cons. intros (H1 & H2 & H3 & H4 & _).
  transitivity (match parse_u 32 (show x1), parse_u 32 (show x2), parse_u 32 (show x3), parse_u 32 (show x4) with
    | Some n1, Some n2, Some n3, Some n4 => args_loop rest (set_uuid [n1; n2; n3; n4] c) | _, _, _, _ => Err 1 end); [done|].
  by rewrite !show_read by (done || lia).
Qed.

Lemma parse_binding x rest c : in_u 64 x → args_loop ("--binding"%string :: show x :: rest) c = args_loop rest (set_handle x c).
Proof. intros Hx. transitivity (match parse_handle (show x) with Some x => args_loop rest (set_handle x c) | None => Err 1 end); [done|by rewrite show_handle]. Qed.

Lemma parse_ip x rest c : args_loop ("--dest-ip"%string :: x :: rest) c = args_loop rest (set_ip x c).
Proof. done. Qed.

Lemma parse_port x rest c : in_u 16 x → args_loop ("--dest-port"%string :: show x :: rest) c = args_loop rest (set_dest_port x c).
Proof. intros Hx. transitivity (match parse_u 16 (show x) with Some x => args_loop rest (set_dest_port x c) | None => Err 1 end); [done|by rewrite show_read by (done || lia)]. Qed.

(** A command line that is written from the values is read back as them. *)
Lemma parse_roundtrip c : args_ok c → a_help_requested c = false → args_loop (args_of c) default_args = Ok c.
Proof.
  intros [H1 [H2 H2'] H3 H4] Hh. destruct c as [id src uuid bh ip port help op]. cbn in H1, H2, H2', H3, H4, Hh. subst help.
  destruct uuid as [|u1 [|u2 [|u3 [|u4 [|]]]]]; try done. rewrite !Forall_cons in H2'. destruct H2' as (U1 & U2 & U3 & U4 & _).
  unfold args_of. cbn [a_mig_request_id a_is_source a_target_td_uuid a_binding_handle a_destination_ip a_destination_port a_operation app fmap list_fmap].
  rewrite parse_id, parse_role, parse_operation, parse_uuid, parse_binding by (done || by repeat apply Forall_cons_2).
  destruct ip as [ip|], port as [p|]; cbn [app]; rewrite ?parse_ip, ?parse_port by naive_solver; done.
Qed.

(** ** Reports *)

Lemma initialize_loop_total d i count m : 0 <= i → 8 + (i + Z.of_nat count) * 16 <= lenz d → reader_ok m →
  ∃ m', initialize_loop d i count m = (Ok tt, m') ∧ reader_ok m'.
Proof.
  revert i m. induction count as [|count IH]; intros i m Hi Hl Hok; cbn [initialize_loop]; [by exists m|]. cbv zeta.
  destruct (slice_is_Some d (8 + i * 16) (8 + i * 16 + 8)) as [a ->]; [lia..|]. rewrite or_panic_bind.
  destruct (slice_is_Some d (8 + i * 16 + 8) (8 + i * 16 + 16)) as [b ->]; [lia..|]. rewrite or_panic_bind, modifyS_bind.
  apply IH; [lia|lia|]. apply Forall_app. split; [done|]. by apply Forall_cons_2.
Qed.

Lemma initialize_total d m : reader_ok m → ∃ m', initialize d m = (Ok tt, m') ∧ reader_ok m'.
Proof.
  intros Hok. unfold initialize. destruct (Z.ltb_spec (lenz d) 8); [by exists m|]. destruct (slice_is_Some d 0 4) as [n ->]; [lia..|].
  rewrite or_panic_bind, !modifyS_bind. set (m1 := set_vcpus [] _). assert (reader_ok m1) as H1 by apply Forall_nil_2.
  destruct (Z.ltb_spec (lenz d) (8 + le_val n * 16)); [by exists m1|]. apply initialize_loop_total; [lia| |done].
  destruct (Z.le_gt_cases 0 (le_val n)); [rewrite Z2Nat.id by done; lia|]. rewrite Z2Nat.nonpos by lia. lia.
Qed.

(** Whatever is reported, the emulator takes it. *)
Lemma payload_seen_total id st d e : logs_ok e → ∃ m', report_payload_seen id st d e = (Ok tt, set_manager m' e) ∧ logs_ok (set_manager m' e).
Proof.
  intros Hl. assert (∃ m', (mret tt : EM unit) e = (Ok tt, set_manager m' e) ∧ logs_ok (set_manager m' e)) as Hskip by (exists (LOG_AREA_MANAGER e); by destruct e).
  unfold report_payload_seen. destruct (negb _); [|done]. destruct ((st =? 0) && (8 <=? lenz d)) eqn:E; [|done].
  apply andb_true_iff in E as [_ H8%Z.leb_le]. destruct (slice_is_Some d 0 4) as [n ->]; [lia..|]. rewrite or_panic_bind. destruct (_ <=? lenz d); [|done].
  unfold enable_log_area, manager_op, with_manager. unfold logs_ok in Hl. destruct (LOG_AREA_MANAGER e) as [m|] eqn:Em.
  - destruct (initialize_total d m Hl) as (m' & -> & Hm'). by exists (Some m').
  - exists None. split; [|done]. f_equal. destruct e. cbn in Em. by subst.
Qed.

Section run.
Context `{F : Features} `{O : Operations}.
Context (tdcall_report_emulated : bytes → option bytes) (mem : Z → bytes) (Hmem : ∀ a, bytes_ok (mem a)) (vector : Z).

Lemma emu_report_run res id data e v : lenz data < 2 ^ 32 → logs_ok e →
  let st := MigrationResult.as_u8 res in
  ∃ e' v', emu_report_status mem vector st id data e v = (Ok tt, e', v') ∧ requests v' = requests v ∧
    vm_reports v' = vm_reports v ++ [(id, report_word st, report_page data (report_pages data))] ∧
    MIG_REQUEST e' = MIG_REQUEST e ∧ CALLBACKS (intr e') = CALLBACKS (intr e) ∧ logs_ok e'.
Proof.
  intros Hd Hl st. assert (∃ m', (if 0 <? lenz data then report_payload_seen id (Z.land (report_word st) 0xFF) data else mret tt) e = (Ok tt, set_manager m' e) ∧
    logs_ok (set_manager m' e)) as (m' & Hseen & Hl').
  { destruct (0 <? lenz data); [by apply payload_seen_total|]. exists (LOG_AREA_MANAGER e). by destruct e. }
  destruct (emulated_report mem vector st res id data e _ v Hmem Hd ltac:(by destruct res) Hseen Hl') as (e' & b & v' & E1 & E2 & H1 & H2 & H3 & H4 & H5).
  unfold emu_report_status. cbv zeta. rewrite E1, E2. exists e', v'. by split_and!.
Qed.

(** What a request is answered with. *)
Definition answer_of (w : WaitForRequestResponse) : MigrationResult * bytes :=
  let '(r, data) := run_request tdcall_report_emulated w in (match r with Err e => e | _ => MigrationResult.Success end, data).

Definition report_of (r : EmuMigRequest) : Z * Z * bytes :=
  let '(s, data) := answer_of (request_of r) in (req_id r, report_word (MigrationResult.as_u8 s), report_page data (report_pages data)).

(** The operation comes to an end, with data that fits. *)
Definition answered (r : EmuMigRequest) : Prop :=
  let '(res, data) := run_request tdcall_report_emulated (request_of r) in res ≠ Panic ∧ lenz data < 2 ^ 32.

Context (policy event_log : option bytes).

(** One turn of the loop. *)
Lemma turn fuel e v r rest : emulated mem policy event_log vector e → MIG_REQUEST e = r :: rest → req_ok r → takes r → answered r →
  req_id r ∉ requests v →
  ∃ e' v', handle_pre_mig_emu tdcall_report_emulated mem vector policy event_log (S fuel) e v =
      (if ends_run (request_of r) then (Ok (MigrationResult.as_u8 (answer_of (request_of r)).1), e', v')
       else handle_pre_mig_emu tdcall_report_emulated mem vector policy event_log fuel e' v') ∧
    MIG_REQUEST e' = rest ∧ emulated mem policy event_log vector e' ∧ requests v' = {[req_id r]} ∪ requests v ∧ vm_reports v' = vm_reports v ++ [report_of r].
Proof.
  intros [Hraw Hemu _ (p & el & Hp & Hel & Hlen) Hl Hv] Hq Hr Ht Ha Hn.
  destruct (td_wait_delivers mem Hmem Hraw policy event_log p el vector e v r rest Hp Hel Hlen Hl Hv Hq Hr Ht Hn) as (e1 & v1 & E1 & Hq1 & [] & Hreq1 & Hrep1).
  cbn [handle_pre_mig_emu]. rewrite E1. unfold answered, report_of, answer_of in *.
  destruct (run_request tdcall_report_emulated (request_of r)) as [res data]. destruct Ha as [Hres Hd].
  set (s := match res with Err e => e | _ => MigrationResult.Success end). assert (status_of res = Ok s) as -> by (by destruct res).
  assert (request_id_of (request_of r) = req_id r) as -> by (by destruct r).
  destruct (emu_report_run s (req_id r) data e1 v1 Hd ac_logs) as (e2 & v2 & E2 & Hreq2 & Hrep2 & Hq2 & Hcb2 & Hl2).
  cbv zeta. rewrite E2. exists e2, v2. split; [done|]. split; [congruence|]. split; [|split; [congruence|]].
  - split; try done; [by exists p, el|]. by rewrite Hcb2, ac_callbacks.
  - rewrite Hrep2, Hrep1. done.
Qed.

(** Requests that do not end the run. *)
Lemma turns fuel pre rest e v : emulated mem policy event_log vector e → MIG_REQUEST e = pre ++ rest →
  Forall (λ r, req_ok r ∧ takes r ∧ answered r ∧ ends_run (request_of r) = false) pre → NoDup (req_id <$> pre) →
  (∀ r, r ∈ pre → req_id r ∉ requests v) →
  ∃ e' v', handle_pre_mig_emu tdcall_report_emulated mem vector policy event_log (length pre + fuel) e v =
      handle_pre_mig_emu tdcall_report_emulated mem vector policy event_log fuel e' v' ∧
    MIG_REQUEST e' = rest ∧ emulated mem policy event_log vector e' ∧ requests v' = list_to_set (req_id <$> pre) ∪ requests v ∧
    vm_reports v' = vm_reports v ++ (report_of <$> pre).
Proof.
  revert e v. induction pre as [|r pre IH]; intros e v He Hq Hok Hnd Hfresh; cbn [length Nat.add fmap list_fmap].
  { exists e, v. rewrite app_nil_r. split_and!; try done. cbn. set_solver. }
  apply Forall_cons in Hok as [(Hr & Ht & Ha & Hend) Hok]. apply NoDup_cons in Hnd as [Hnew Hnd].
  destruct (turn (length pre + fuel) e v r (pre ++ rest) He Hq Hr Ht Ha ltac:(apply Hfresh; set_solver)) as (e1 & v1 & -> & Hq1 & He1 & Hreq1 & Hrep1).
  rewrite Hend. destruct (IH e1 v1 He1 Hq1 Hok Hnd) as (e' & v' & -> & Hq' & He' & Hreq' & Hrep').
  { intros r' Hr'. rewrite Hreq1. intros [Heq%elem_of_singleton|Hin]%elem_of_union; [|by apply (Hfresh r'); [set_solver|]].
    apply Hnew. rewrite <-Heq. by apply list_elem_of_fmap_2. }
  exists e', v'. split; [done|]. split; [done|]. split; [done|]. split; [rewrite Hreq', Hreq1; cbn; set_solver|]. by rewrite Hrep', Hrep1, <-app_assoc.
Qed.

(** A request to finalize ends the run: it is refused, and the refusal reported. *)
Definition refusal (id : Z) : Z * Z * bytes := (id, report_word 1, report_page [] (report_pages [])).

Lemma refused_turn fuel e v id src op uuid bh rest : emulated mem policy event_log vector e → policy_v2 = true →
  MIG_REQUEST e = EmuStartRebinding id src op uuid bh :: rest → req_ok (EmuStartRebinding id src op uuid bh) → op ≠ 0 →
  ∃ e' v', handle_pre_mig_emu tdcall_report_emulated mem vector policy event_log (S fuel) e v = (Ok (MigrationResult.as_u8 MigrationResult.InvalidParameter), e', v') ∧
    vm_reports v' = vm_reports v ++ [refusal id].
Proof.
  intros [Hraw Hemu _ (p & el & Hp & Hel & Hlen) Hl Hv] Hv2 Hq Hr Hop. set (r := EmuStartRebinding id src op uuid bh) in *.
  destruct (td_wait_ready mem Hmem policy event_log p el vector e v r rest Hp Hel Hlen Hl Hv Hq Hr) as (e1 & b & _ & _ & _ & _ & Hw).
  specialize (Hw _ _ (rebind_finalize_refused Hraw id src op uuid bh b _ Hv2 Hr Hop)).
  cbn [wait_result pending_error_report REQUESTS] in Hw. set (v0 := mkVmm _ _ _ _ _ _ _ _) in Hw.
  assert (confirms (report_pages []) EMPTY_ANSWER) as Hc by exact (report_confirmed [] 4096 ltac:(done) ltac:(done)).
  destruct (report_status_run 1 MigrationResult.InvalidParameter id [] v0 EMPTY_ANSWER ltac:(done) eq_refl Hc eq_refl eq_refl eq_refl) as (v' & E & _ & Hrep).
  cbn [handle_pre_mig_emu]. rewrite Hw, M_bind_eq. unfold report_wait_for_request_error. change (MigrationResult.as_u8 MigrationResult.InvalidParameter) with 1.
  rewrite E. exists (error_reported mem vector (drop (length (vm_reports v)) (vm_reports v')) e1), v'. split; [reflexivity|exact Hrep].
Qed.
End run.

(** ** From the command line to the exit code *)

(** The requests a command line asks for. *)
Definition log_request (c : Args) : EmuMigRequest := EmuEnableLogArea (a_mig_request_id c + 2 ^ 63) 3.

Definition report_request (c : Args) : EmuMigRequest :=
  let id := a_mig_request_id c in
  match a_operation c with
  | Migration => EmuGetTDReport (id + 2 ^ 62) (default_reportdata id "MIGTD_MIGRATION")
  | _ => EmuGetMigtdData (id + 2 ^ 62) (default_reportdata id "MIGTD_REBINDING")
  end.

Definition start_request (c : Args) : EmuMigRequest :=
  let src := if a_is_source c then 1 else 0 in
  match a_operation c with
  | Migration => EmuStartMigration (a_mig_request_id c) src (a_target_td_uuid c) (a_binding_handle c)
  | RebindPrepare => EmuStartRebinding (a_mig_request_id c) src 0 (a_target_td_uuid c) (a_binding_handle c)
  | RebindFinalize => EmuStartRebinding (a_mig_request_id c) src 1 (a_target_td_uuid c) (a_binding_handle c)
  end.

Definition queue_of (c : Args) : list EmuMigRequest := [log_request c; report_request c; start_request c].

Lemma queue_of_ok c : args_ok c → a_mig_request_id c < 2 ^ 62 → Forall req_ok (queue_of c) ∧ NoDup (req_id <$> queue_of c).
Proof.
  intros [H1 [H2 H2'] H3 _] Hid. unfold in_u in H1. set (id := a_mig_request_id c) in *.
  destruct (default_reportdata_ok id "MIGTD_MIGRATION") as [D1 D2]; [done|apply (bool_decide_unpack _); by vm_compute|].
  destruct (default_reportdata_ok id "MIGTD_REBINDING") as [D3 D4]; [done|apply (bool_decide_unpack _); by vm_compute|].
  assert (in_u 64 (id + 2 ^ 63) ∧ in_u 64 (id + 2 ^ 62) ∧ in_u 64 id) as (I1 & I2 & I3) by (unfold in_u; lia).
  assert (Forall (in_u 64) (a_target_td_uuid c)) as Hu by (eapply Forall_impl; [exact H2'|]; unfold in_u; cbn; lia).
  assert (∀ b : bool, in_u 8 (if b then 1 else 0)) as Hb by (intros []; done).
  unfold queue_of, log_request, report_request, start_request. fold id. destruct (a_operation c); (split; [repeat (apply Forall_cons_2; [by split_and!|]); apply Forall_nil_2|]);
    cbn [fmap list_fmap req_id]; rewrite !NoDup_cons, !elem_of_cons, !elem_of_nil; split_and!; try apply NoDup_nil_2; lia.
Qed.

Section process.
Context `{F : Features} `{O : Operations}.
Context (log_path : bool) (opens writes : list bool) (bind : bool) (accept : option TcpStream) (connect : bytes * Z → option TcpStream).
Context (report : option EmuReport) (sha384 : bytes → bytes).
Context (tdcall_report_emulated : bytes → option bytes) (mem : Z → bytes) (vector : Z) (policy event_log : option bytes).

Definition ip_of (c : Args) : string := default "127.0.0.1"%string (a_destination_ip c).

(** The peer can be reached, and the fields of a report are there. *)
Definition peer_ready (c : Args) : Prop :=
  ip_of c ≠ ""%string ∧
  if a_is_source c then is_Some (connect (as_bytes (ip_of c), default 8001 (a_destination_port c))) else bind = true ∧ is_Some accept.

Definition report_ready : Prop := match report with Some r => (24 <= length (er_tee_tcb_info r))%nat | None => True end.

Lemma make_connection_run c e : peer_ready c → ∃ e' m t, make_connection log_path opens writes bind accept connect c e = (Ok tt, e') ∧
  MIG_REQUEST e' = MIG_REQUEST e ∧ intr e' = intr e ∧ LOG_AREA_MANAGER e' = Some m ∧ reader_ok m ∧ TCP_STREAM (net e') = Some t.
Proof.
  intros [Hip Hpeer]. unfold make_connection. fold (ip_of c). unfold init_tcp_emulation_with_mode.
  assert (as_bytes (ip_of c) ≠ []) as Hne by (intros Hn; apply Hip; by destruct (ip_of c)).
  rewrite M_bind_eq. unfold or_exit at 1. rewrite err_if_bind, bool_decide_false, modifyS_bind by done. unfold modifyS at 1. cbv zeta.
  set (m := LogAreaManager_new log_path opens writes). assert (reader_ok m) as Hm by apply Forall_nil_2.
  destruct (a_is_source c); cbn [negb].
  - destruct Hpeer as [t Ht]. unfold or_exit, connect_tcp_client. rewrite getS_bind, ok_or_bind. cbn [TCP_ADDRESS net set_net]. rewrite ok_or_bind. match goal with |- context [connect ?a] => assert (connect a = Some t) as -> by exact Ht end.
    by eexists _, m, t.
  - destruct Hpeer as [-> [t ->]]. unfold or_exit, start_tcp_server_sync. cbn [negb]. rewrite err_if_bind, ok_or_bind. by eexists _, m, t.
Qed.

Lemma queue_operation_run c e : args_ok c → a_mig_request_id c < 2 ^ 62 → (a_operation c ≠ Migration → report_ready) →
  ∃ f, queue_operation report sha384 c e = (Ok tt, set_fields f (set_queue (MIG_REQUEST e ++ queue_of c) e)).
Proof.
  intros [H1 _ _ _] Hid Hrep. unfold in_u in H1. unfold queue_operation, queue_of, log_request, report_request, start_request, queue_rebinding.
  unfold set_emulated_start_rebinding, set_emulated_start_migration, set_emulated_mig_request, LOG_MARK, REPORT_MARK.
  change 0x8000000000000000 with (2 ^ 63). change 0x4000000000000000 with (2 ^ 62). rewrite !marked by lia. cbv zeta. cbn [MIG_REQUEST set_queue fields].
  assert (∀ f, a_operation c ≠ Migration → ∃ f', populate_servtd_fields report sha384 (a_binding_handle c) (a_target_td_uuid c) f = Ok f') as Hpop.
  { intros f Hop. specialize (Hrep Hop). unfold report_ready in Hrep. unfold populate_servtd_fields. destruct report as [r|]; [|by eexists].
    destruct (slice_is_Some (er_tee_tcb_info r) 8 24) as [x ->]; [lia|unfold lenz; lia|by eexists]. }
  destruct (a_operation c).
  - exists (fields e). unfold modifyS, set_fields, set_queue. cbn. by rewrite <-!app_assoc.
  - destruct (Hpop (fields e)) as [f ->]; [done|]. exists f. cbn. by rewrite <-!app_assoc.
  - destruct (Hpop (fields e)) as [f ->]; [done|]. exists f. cbn. by rewrite <-!app_assoc.
Qed.

(** The migration TD and the emulator before the command line is read. *)
Record process_ready (c : Args) (e : Emu) (v : Vmm) : Prop := {
  pr_emulated : emulated mem policy event_log vector e;
  pr_queue : MIG_REQUEST e = [];
  pr_requests : requests v = ∅;
  pr_peer : peer_ready c;
  pr_id : a_mig_request_id c < 2 ^ 62;
  pr_rebinding : a_operation c ≠ Migration → policy_v2 = true ∧ report_ready }.

Lemma commandline_run args c e v : args_loop args default_args = Ok c → a_help_requested c = false → process_ready c e v →
  ∃ e1, parse_commandline_args log_path opens writes bind accept connect report sha384 args e = (Ok tt, e1) ∧
    MIG_REQUEST e1 = queue_of c ∧ emulated mem policy event_log vector e1 ∧ is_Some (TCP_STREAM (net e1)).
Proof.
  intros Hparse Hhelp [[] Hq _ Hpeer Hid Hreb]. unfold parse_commandline_args. rewrite liftO_bind, Hparse, err_if_bind, Hhelp.
  destruct (make_connection_run c e Hpeer) as (e0 & m & t & E0 & Hq0 & Hi0 & Hm0 & Hm & Ht). rewrite (M_bind_Ok _ _ _ _ _ E0).
  pose proof (args_loop_total args default_args default_args_ok) as Hok. rewrite Hparse in Hok.
  destruct (queue_operation_run c e0 Hok Hid ltac:(naive_solver)) as [f ->]. eexists. split; [done|]. split; [by cbn; rewrite Hq0, Hq|].
  split; [|by exists t]. split; try done; cbn; [unfold logs_ok; cbn; by rewrite Hm0|by rewrite Hi0].
Qed.
End process.

(** The last request, as the migration TD sees it. *)
Definition target_of `{F : Features} (c : Args) : MigtdMigrationInformation :=
  info_of (a_mig_request_id c) (if a_is_source c then 1 else 0) (a_target_td_uuid c) (a_binding_handle c).

(** How the last request of a command line ends: its status, and its report. *)
Definition final_answer `{F : Features} `{O : Operations} (tdcall_report_emulated : bytes → option bytes) (c : Args) : MigrationResult * (Z * Z * bytes) :=
  let run w := ((answer_of tdcall_report_emulated w).1, report_of tdcall_report_emulated (start_request c)) in
  match a_operation c with
  | Migration => run (StartMigration (mkInformation (target_of c) None None))
  | RebindPrepare => run (StartRebinding (target_of c))
  | RebindFinalize => (MigrationResult.InvalidParameter, refusal (a_mig_request_id c))
  end.

(** C32: A process of the emulated migration TD handles the three requests of its flow
    in order, provided its command line is read without an error, the request
    identifier is below 2^62, the files and the peer are there, no request was
    queued or handled before, and for a rebinding the build has policies of version 2
    and a report of the TD: it enables the log areas, makes the report and runs the
    migration, or the preparation of a rebinding, with the identifier, role, target
    and binding of the command line.  Each is reported with its status and data, and
    the status of the last one is the exit code.  A request to finalize a rebinding is
    refused instead, whatever the operation would do, and the refusal is the exit
    code.  With an identifier from 2^62 on two of the three requests have the same
    identifier. *)
Theorem emulated_run `{F : Features} `{O : Operations} log_path opens writes bind accept connect report sha384 tdcall_report_emulated mem vector policy
  event_log args c e v fuel :
  args_loop args default_args = Ok c → a_help_requested c = false →
  process_ready bind accept connect report mem vector policy event_log c e v →
  Forall (answered tdcall_report_emulated) (queue_of c) → (3 <= fuel)%nat →
  let '(status, last) := final_answer tdcall_report_emulated c in
  ∃ e1 e' v', parse_commandline_args log_path opens writes bind accept connect report sha384 args e = (Ok tt, e1) ∧
    handle_pre_mig_emu tdcall_report_emulated mem vector policy event_log fuel e1 v = (Ok (MigrationResult.as_u8 status), e', v') ∧
    vm_reports v' = vm_reports v ++ [report_of tdcall_report_emulated (log_request c); report_of tdcall_report_emulated (report_request c); last].
Proof.
  intros Hparse Hhelp Hpr Hans Hfuel. pose proof (args_loop_total args default_args default_args_ok) as Hok. rewrite Hparse in Hok.
  destruct (commandline_run log_path opens writes bind accept connect report sha384 mem vector policy event_log args c e v Hparse Hhelp Hpr)
    as (e1 & E1 & Hq1 & He1 & _). destruct Hpr as [_ _ Hreq _ Hid Hreb]. destruct (queue_of_ok c Hok Hid) as [Hqok Hnd].
  unfold queue_of in *. rewrite !Forall_cons in Hqok, Hans. destruct Hqok as (R1 & R2 & R3 & _), Hans as (A1 & A2 & A3 & _).
  cbn [fmap list_fmap] in Hnd. rewrite !NoDup_cons, !elem_of_cons, !elem_of_nil in Hnd. destruct Hnd as (N1 & N2 & _).
  pose proof He1 as [Hraw Hemu Hmem _ _ _].
  destruct (turns tdcall_report_emulated mem Hmem vector policy event_log (S (fuel - 3)) [log_request c; report_request c] [start_request c] e1 v He1 Hq1)
    as (e2 & v2 & E2 & Hq2 & He2 & Hreq2 & Hrep2).
  { assert (takes (report_request c)) as T2 by (unfold report_request; destruct (a_operation c); cbn; [done|by apply Hreb..]).
    assert (ends_run (request_of (report_request c)) = false) by (unfold report_request; by destruct (a_operation c)).
    apply Forall_cons_2; [by split_and!|]. apply Forall_cons_2; [by split_and!|]. apply Forall_nil_2. }
  { cbn [fmap list_fmap]. rewrite !NoDup_cons, !elem_of_cons, !elem_of_nil. split_and!; try apply NoDup_nil_2; naive_solver. }
  { rewrite Hreq. set_solver. }
  cbn [length] in E2. replace (2 + S (fuel - 3))%nat with fuel in E2 by lia. unfold final_answer.
  assert (req_id (start_request c) ∉ requests v2) as Hfresh.
  { rewrite Hreq2, Hreq. cbn [fmap list_fmap list_to_set]. set_solver. }
  assert (takes (start_request c) → ∃ e3 v3, handle_pre_mig_emu tdcall_report_emulated mem vector policy event_log (S (fuel - 3)) e2 v2 =
    (Ok (MigrationResult.as_u8 (answer_of tdcall_report_emulated (request_of (start_request c))).1), e3, v3) ∧
    vm_reports v3 = vm_reports v2 ++ [report_of tdcall_report_emulated (start_request c)]) as Hlast.
  { intros T3. destruct (turn tdcall_report_emulated mem Hmem vector policy event_log (fuel - 3) e2 v2 (start_request c) [] He2 Hq2 R3 T3 A3 Hfresh)
      as (e3 & v3 & E3 & _ & _ & _ & Hrep3). exists e3, v3. split; [|done]. rewrite E3. unfold start_request. by destruct (a_operation c). }
  unfold start_request in Hlast at 1 2. destruct (a_operation c) eqn:Eop.
  - destruct (Hlast I) as (e3 & v3 & E3 & Hrep3). exists e1, e3, v3. by rewrite E2, E3, Hrep3, Hrep2, <-app_assoc.
  - destruct (Hlast (conj (proj1 (Hreb ltac:(done))) eq_refl)) as (e3 & v3 & E3 & Hrep3). exists e1, e3, v3. by rewrite E2, E3, Hrep3, Hrep2, <-app_assoc.
  - destruct (Hreb ltac:(done)) as [Hv2 _]. unfold start_request in Hq2, R3. rewrite Eop in Hq2, R3.
    destruct (refused_turn tdcall_report_emulated mem Hmem vector policy event_log (fuel - 3) e2 v2 _ _ _ _ _ _ He2 Hv2 Hq2 R3 ltac:(done)) as (e3 & v3 & E3 & Hrep3).
    exists e1, e3, v3. by rewrite E2, E3, Hrep3, Hrep2, <-app_assoc.
Qed.

Module RunSample.
Definition operations : Operations :=
  {| exchange_msk_op := λ _, Err MigrationResult.SecureSessionError;
     start_rebinding_op := λ _, (Ok tt, []); get_tdreport_op := λ _, (Ok tt, []);
     enable_logarea_op := λ _, (Ok tt, []); get_migtd_data_op := λ _, (Ok tt, []) |}.

Definition v0 : Vmm := mkVmm ∅ [] [] [] [] [] [] [].
Definition peer : option TcpStream := Some (mkTcp [] [] []).

(** A destination that is to handle request 42. *)
Definition args : list string := ["-m"; "DST"; "--request-id"; "42"; "-b"; "0x5678"]%string.
Definition c : Args := mkArgs 42 false [1; 2; 3; 4] 0x5678 None None false Migration.

Lemma ready : process_ready (F := EmuSample.features) true peer (λ _, None) None EmuSample.mem 0x50 (Some [1]) (Some [2]) c EmuSample.start v0.
Proof.
  destruct EmuSample.e0_emulated. split; [split; try done|done|done|by split; [done|]; split; [|eexists]|done|done].
Qed.

Lemma emulated_run_witness : ∃ e1 e' v',
  parse_commandline_args false [] [] true peer (λ _, None) None (λ d, d) args EmuSample.start = (Ok tt, e1) ∧
  handle_pre_mig_emu (H := EmuSample.features) (H0 := operations) (λ _, Some [0]) EmuSample.mem 0x50 (Some [1]) (Some [2]) 3 e1 v0 = (Ok 6, e', v') ∧
  (vm_reports v').*1.*1 = [42 + 2 ^ 63; 42 + 2 ^ 62; 42].
Proof.
  destruct (emulated_run (F := EmuSample.features) (O := operations) false [] [] true peer (λ _, None) None (λ d, d) (λ _, Some [0]) EmuSample.mem 0x50
    (Some [1]) (Some [2]) args c EmuSample.start v0 3 eq_refl eq_refl ready ltac:(repeat (apply Forall_cons_2; [done|]); apply Forall_nil_2) ltac:(lia))
    as (e1 & e' & v' & E1 & E2 & E3).
  exists e1, e', v'. split; [exact E1|]. split; [exact E2|]. rewrite E3. reflexivity.
Defined.
End RunSample.
