(* ===== verification/EmuReport.v ===== *)
(** * EmuReport: reports and quotes of the emulator

    deps/td-shim-AzCVMEmu: tdx-mock-data/src/mock_report.rs makes a TD report from the
    body of a quote, tdx-tdcall/src/tdreport_emu.rs hands out such reports and quotes
    (feature [test_mock_report], with and without [mock_quote_retry]) or gets them from
    the vTPM and the metadata service of the host, which are arguments.  SHA-384 is
    an argument; what is logged is left out. *)
From stdpp Require Import base tactics numbers option strings list list_numbers.
From S2P Require Import Prelude PolicyV2 MigPolicy Quote.
Local Open Scope Z_scope.

#[local] Notation bytes := (list Z).

(** ** Quotes *)

Definition QUOTE_HEADER_SIZE : Z := 48.
Definition QUOTE_V4_BODY_SIZE : Z := 584.
Definition QUOTE_V5_BODY_SIZE_10 : Z := 584.
Definition QUOTE_V5_BODY_SIZE_15 : Z := 648.
Definition MIN_QUOTE_V4_SIZE : Z := QUOTE_HEADER_SIZE + QUOTE_V4_BODY_SIZE + 4.
Definition MIN_QUOTE_V5_SIZE : Z := QUOTE_HEADER_SIZE + 2 + 4 + QUOTE_V5_BODY_SIZE_10 + 4.

(** [sgx_report2_body_t] *)
Record SgxReport2Body := mkBody {
  qb_tee_tcb_svn : bytes; mr_seam : bytes; mrsigner_seam : bytes; seam_attributes : bytes; td_attributes : bytes;
  qb_xfam : bytes; mr_td : bytes; mr_config_id : bytes; mr_owner : bytes; mr_owner_config : bytes; rt_mr : list bytes; qb_report_data : bytes }.

(** [n] bytes at [a] as an integer; an index out of range aborts. *)
Definition int_at (quote : bytes) (a n : Z) : outcome string Z :=
  match slice quote a (a + n) with Some b => Ok (le_val b) | None => Panic end.

(** Offset and size of the body, version and TEE type. *)
Definition parse_quote_header (quote_data : bytes) : outcome string (Z * Z * Z * Z) :=
  _ ← require (negb (lenz quote_data <? QUOTE_HEADER_SIZE + 2)) "Quote file too small"%string;
  header_version ← int_at quote_data 0 2;
  tee_type ← int_at quote_data 4 4;
  body ← (if header_version =? 4 then
            _ ← require (negb (lenz quote_data <? MIN_QUOTE_V4_SIZE)) "Invalid quote v4 file: too small"%string;
            Ok (QUOTE_HEADER_SIZE, QUOTE_V4_BODY_SIZE)
          else if header_version =? 5 then
            _ ← require (negb (lenz quote_data <? MIN_QUOTE_V5_SIZE)) "Invalid quote v5 file: too small"%string;
            body_type ← int_at quote_data 48 2;
            body_size ← int_at quote_data 50 4;
            expected_size ← (if body_type =? 2 then Ok QUOTE_V5_BODY_SIZE_10 else if body_type =? 3 then Ok QUOTE_V5_BODY_SIZE_15
                             else Err "Unsupported Quote v5 body type"%string);
            _ ← require (body_size =? expected_size) "Invalid Quote v5 body size"%string;
            Ok (QUOTE_HEADER_SIZE + 6, body_size)
          else Err "Unsupported quote version"%string);
  Ok (body.1, body.2, header_version, tee_type).

Definition cut (b : bytes) (a n : nat) : bytes := take n (drop a b).

(** The fields of either version of the structure. *)
Definition body_fields (b : bytes) : SgxReport2Body :=
  mkBody (cut b 0 16) (cut b 16 48) (cut b 64 48) (cut b 112 8) (cut b 120 8) (cut b 128 8) (cut b 136 48) (cut b 184 48)
    (cut b 232 48) (cut b 280 48) [cut b 328 48; cut b 376 48; cut b 424 48; cut b 472 48] (cut b 520 64).

Definition parse_quote_body (quote_data : bytes) (body_offset body_size : Z) : outcome string (SgxReport2Body * bytes) :=
  _ ← require (negb (lenz quote_data <? body_offset + body_size)) "Quote body extends beyond data length"%string;
  match slice quote_data body_offset (body_offset + body_size) with
  | None => Panic
  | Some b => Ok (body_fields b, if body_size =? QUOTE_V5_BODY_SIZE_15 then cut b 600 48 else zeros 48)
  end.

(** ** Reports *)

(** [TeeTcbInfo], [TdInfo] and [ReportMac] of td-shim, in the order of the fields. *)
Definition mock_tee_tcb_info (b : SgxReport2Body) : bytes :=
  [1; 0; 0; 0; 0; 0; 0; 0] ++ qb_tee_tcb_svn b ++ mr_seam b ++ mrsigner_seam b ++ seam_attributes b ++ zeros 16 ++ zeros 95.

Definition mock_td_info (b : SgxReport2Body) (servtd_hash : bytes) : bytes :=
  td_attributes b ++ qb_xfam b ++ mr_td b ++ mr_config_id b ++ mr_owner b ++ mr_owner_config b ++ concat (rt_mr b) ++ servtd_hash ++ zeros 64.

(** Errors of the emulated quote service. *)
Module EmuQuoteError.
Inductive t := VtpmError | ImdsError | ConversionError.
End EmuQuoteError.

Section reports.
Context (sha384 : bytes → bytes).

Definition mock_report_mac (b : SgxReport2Body) (version tee_type : Z) (tee_tcb_info td_info : bytes) : bytes :=
  [as_u 8 tee_type; 0; as_u 8 version; 0] ++ zeros 12 ++ qb_tee_tcb_svn b ++ sha384 tee_tcb_info ++ sha384 td_info ++ qb_report_data b ++
  zeros 32 ++ replicate 32 0xBB.

(** A quote that cannot be read aborts. *)
Definition create_mock_td_report (quote_data : bytes) : outcome unit TdxReport :=
  match parse_quote_header quote_data with
  | Ok (body_offset, body_size, version, tee_type) =>
      match parse_quote_body quote_data body_offset body_size with
      | Ok (b, servtd_hash) =>
          let tcb := mock_tee_tcb_info b in
          let ti := mock_td_info b servtd_hash in
          Ok (mkTdxReport (mock_report_mac b version tee_type tcb ti) (qb_report_data b) (sha384 tcb) (sha384 ti) tcb (qb_tee_tcb_svn b) ti)
      | _ => Panic
      end
  | _ => Panic
  end.

(** The report in memory. *)
Definition report_bytes (r : TdxReport) : bytes := report_mac r ++ tee_tcb_info r ++ zeros 17 ++ td_info r.

(** *** Mock data *)

(** [file] is the content of the file MOCK_QUOTE_FILE names, if it names one: [None]
    when it cannot be read. *)
Context (QUOTE : bytes) (file : option (option bytes)).

Definition mock_td_report : outcome unit TdxReport :=
  match file with
  | None => create_mock_td_report QUOTE
  | Some (Some data) => create_mock_td_report data
  | Some None => Panic
  end.

Definition create_mock_quote : bytes :=
  match file with
  | None => QUOTE
  | Some (Some data) => data
  | Some None => []
  end.

Definition FAIL_COUNT : Z := 5.

(** The state is CALL_COUNT. *)
Definition mock_get_quote (mock_quote_retry : bool) (td_report_data : bytes) : M Z EmuQuoteError.t bytes :=
  if mock_quote_retry then
    count ← getS;
    _ ← modifyS (λ c, wrapping_add 32 c 1);
    _ ← err_if (count <? FAIL_COUNT) EmuQuoteError.ImdsError;
    mret create_mock_quote
  else mret create_mock_quote.
End reports.

(** *** The vTPM and the metadata service *)

Section vtpm.
(** The answers of the vTPM to the attempts, the conversions of its report into a TD
    report, and the service. *)
Context (hcl_report : bytes → option bytes) (td_report : bytes → option bytes) (get_td_quote : bytes → option bytes).

Definition MAX_VTPM_RETRIES : nat := 3.

(** [for attempt in 1..=max_retries]: the one error is TdxExitInvalidParameters. *)
Fixpoint vtpm_loop (attempts : nat) (additional_data : bytes) : M (list (bytes → option bytes)) unit bytes :=
  match attempts with
  | O => failM tt
  | S attempts => λ s,
      match s with
      | [] => (Err tt, [])
      | f :: s =>
          match f additional_data with
          | Some r => (Ok r, s)
          | None => vtpm_loop attempts additional_data s
          end
      end
  end.

Definition vtpm_report (additional_data : bytes) : M (list (bytes → option bytes)) unit bytes :=
  vtpm_report ← vtpm_loop MAX_VTPM_RETRIES additional_data;
  hcl ← ok_or (hcl_report vtpm_report) tt;
  ok_or (td_report hcl) tt.

(** Less than a report is taken for the data of one. *)
Definition imds_get_quote (td_report_data : bytes) : M (list (bytes → option bytes)) EmuQuoteError.t bytes :=
  td_report ← (if 1024 <=? lenz td_report_data then mret (take 1024 td_report_data)
               else λ s, match vtpm_report (fit 64 td_report_data) s with
                         | (Ok r, s) => (Ok r, s)
                         | (Err _, s) => (Err EmuQuoteError.ConversionError, s)
                         | (Panic, s) => (Panic, s)
                         end);
  ok_or (get_td_quote td_report) EmuQuoteError.ImdsError.
End vtpm.
