(* ===== verification/EmuReportSpec.v ===== *)
(** * EmuReportSpec: reports and quotes of the emulator agree

    A report made from a quote (EmuReport) describes the TD of that quote, passes the
    check of a TD report in MigPolicy and gives the registers of the quote to the
    replay of the event log; the quote call of the migration TD returns the quote, and
    the failures of the mock service end just before the retries of Quote do. *)
From stdpp Require Import base tactics numbers option strings list list_numbers.
From S2P Require Import Prelude PolicyV2 MigPolicy MigPolicySpec Quote Attest EmuLogSpec EmuVmm EmuVmmSpec EmuCallSpec EmuReport.
Local Open Scope Z_scope.

#[local] Notation bytes := (list Z).

(** ** Which quotes can be read *)

(** The body of a quote of version 4, or of either kind of version 5. *)
Inductive quote_body (q : bytes) : Z → Z → Prop :=
  | body_v4 : le_val (take 2 q) = 4 → MIN_QUOTE_V4_SIZE <= lenz q → quote_body q 48 584
  | body_v5 type size : le_val (take 2 q) = 5 → MIN_QUOTE_V5_SIZE <= lenz q → le_val (cut q 48 2) = type → le_val (cut q 50 4) = size →
      (type = 2 ∧ size = 584 ∨ type = 3 ∧ size = 648 ∧ 54 + 648 <= lenz q) → quote_body q 54 size.

Lemma int_at_cut q a n : 0 <= a → 0 <= n → a + n <= lenz q → int_at q a n = Ok (le_val (cut q (Z.to_nat a) (Z.to_nat n))).
Proof.
  intros Ha Hn Hq. unfold int_at, slice, cut. rewrite (proj2 (Z.leb_le 0 a)), (proj2 (Z.leb_le a (a + n))), (proj2 (Z.leb_le _ (lenz q))) by lia.
  cbn [andb]. by replace (a + n - a) with n by lia.
Qed.

Lemma slice_cut (q : bytes) a n : 0 <= a → 0 <= n → a + n <= lenz q → slice q a (a + n) = Some (cut q (Z.to_nat a) (Z.to_nat n)).
Proof.
  intros Ha Hn Hq. unfold slice, cut. rewrite (proj2 (Z.leb_le 0 a)), (proj2 (Z.leb_le a (a + n))), (proj2 (Z.leb_le _ (lenz q))) by lia.
  cbn [andb]. by replace (a + n - a) with n by lia.
Qed.

Section reports.
Context (sha384 : bytes → bytes).

(** The report of a body. *)
Definition report_of_body (b servtd_hash : bytes) (version tee_type : Z) : TdxReport :=
  let f := body_fields b in
  let tcb := mock_tee_tcb_info f in
  let ti := mock_td_info f servtd_hash in
  mkTdxReport (mock_report_mac sha384 f version tee_type tcb ti) (qb_report_data f) (sha384 tcb) (sha384 ti) tcb (qb_tee_tcb_svn f) ti.

Definition servtd_of (b : bytes) (size : Z) : bytes := if size =? 648 then cut b 600 48 else zeros 48.

Ltac quote_sizes := unfold MIN_QUOTE_V4_SIZE, MIN_QUOTE_V5_SIZE, QUOTE_HEADER_SIZE, QUOTE_V4_BODY_SIZE, QUOTE_V5_BODY_SIZE_10, QUOTE_V5_BODY_SIZE_15 in *.

Lemma quote_body_size q off size : quote_body q off size → (off = 48 ∧ size = 584 ∨ off = 54 ∧ (size = 584 ∨ size = 648)) ∧ off + size <= lenz q.
Proof. intros [H1 H2|type s H1 H2 H3 H4 [[-> ->]|(-> & -> & H5)]]; quote_sizes; lia. Qed.

(** What the header says is what the body is, if it is there. *)
Definition header_agrees (q : bytes) (r : outcome string (Z * Z * Z * Z)) : Prop :=
  match r with
  | Ok (off, size, version, tee_type) =>
      version = le_val (take 2 q) ∧ tee_type = le_val (cut q 4 4) ∧ 0 <= off ∧ 0 <= size ∧
      (off + size <= lenz q → quote_body q off size) ∧ (∀ off' size', quote_body q off' size' → off' = off ∧ size' = size)
  | Err _ => ∀ off size, ¬ quote_body q off size
  | Panic => False
  end.

Lemma header_spec q : header_agrees q (parse_quote_header q).
Proof.
  unfold parse_quote_header, require. destruct (Z.ltb_spec (lenz q) (QUOTE_HEADER_SIZE + 2)) as [Hs|Hs]; cbn [negb mbind outcome_bind].
  { intros off size Hb%quote_body_size. quote_sizes. lia. }
  quote_sizes. rewrite (int_at_cut q 0 2), (int_at_cut q 4 4) by lia. cbn [mbind outcome_bind]. change (cut q (Z.to_nat 0) (Z.to_nat 2)) with (take 2 q).
  change (cut q (Z.to_nat 4) (Z.to_nat 4)) with (cut q 4 4). destruct (Z.eqb_spec (le_val (take 2 q)) 4) as [H4|H4].
  { destruct (Z.ltb_spec (lenz q) (48 + 584 + 4)) as [Hl|Hl]; cbn [negb mbind outcome_bind header_agrees fst snd].
    - intros off size [|]; quote_sizes; [lia|congruence].
    - split_and!; try done; [intros _; by apply body_v4|]. intros off size [|]; [done|congruence]. }
  destruct (Z.eqb_spec (le_val (take 2 q)) 5) as [H5|H5]; [|cbn; intros off size [|]; congruence].
  destruct (Z.ltb_spec (lenz q) (48 + 2 + 4 + 584 + 4)) as [Hl|Hl]; cbn [negb mbind outcome_bind].
  { intros off size [|]; quote_sizes; [congruence|lia]. }
  rewrite (int_at_cut q 48 2), (int_at_cut q 50 4) by lia. cbn [mbind outcome_bind]. change (cut q (Z.to_nat 48) (Z.to_nat 2)) with (cut q 48 2).
  change (cut q (Z.to_nat 50) (Z.to_nat 4)) with (cut q 50 4).
  assert (∀ off size, quote_body q off size → off = 54 ∧ size = le_val (cut q 50 4) ∧
    (le_val (cut q 48 2) = 2 ∧ size = 584 ∨ le_val (cut q 48 2) = 3 ∧ size = 648)) as Hb.
  { intros off size [|type s]; [congruence|]. subst. naive_solver. }
  destruct (Z.eqb_spec (le_val (cut q 48 2)) 2) as [T2|T2]; [|destruct (Z.eqb_spec (le_val (cut q 48 2)) 3) as [T3|T3]]; cbn [mbind outcome_bind].
  - destruct (Z.eqb_spec (le_val (cut q 50 4)) 584) as [E|E]; cbn [mbind outcome_bind header_agrees fst snd]; [|intros off size Hq%Hb; lia].
    rewrite E. split_and!; try done; [intros _; apply (body_v5 q 2); auto|]. intros off size Hq%Hb. lia.
  - destruct (Z.eqb_spec (le_val (cut q 50 4)) 648) as [E|E]; cbn [mbind outcome_bind header_agrees fst snd]; [|intros off size Hq%Hb; lia].
    rewrite E. split_and!; try done; [intros; apply (body_v5 q 3); auto|]. intros off size Hq%Hb. lia.
  - cbn. intros off size Hq%Hb. lia.
Qed.

(** A report is made from every quote that can be read, and other quotes abort. *)
Lemma create_mock_spec q :
  (∃ off size, quote_body q off size ∧ let b := cut q (Z.to_nat off) (Z.to_nat size) in
    create_mock_td_report sha384 q = Ok (report_of_body b (servtd_of b size) (le_val (take 2 q)) (le_val (cut q 4 4)))) ∨
  (∀ off size, ¬ quote_body q off size) ∧ create_mock_td_report sha384 q = Panic.
Proof.
  unfold create_mock_td_report. pose proof (header_spec q) as Hh. destruct (parse_quote_header q) as [[[[off size] version] tee_type]|e|]; cbn in Hh; [|by right|done].
  destruct Hh as (-> & -> & Ho & Hs & Hb & Hu). unfold parse_quote_body, require.
  destruct (Z.ltb_spec (lenz q) (off + size)) as [Hl|Hl]; cbn [negb mbind outcome_bind].
  { right. split; [|done]. intros off' size' Hq. destruct (Hu _ _ Hq) as [-> ->]. apply quote_body_size in Hq. lia. }
  left. exists off, size. split; [by apply Hb|]. rewrite slice_cut by lia. done.
Qed.

(** ** What a report says *)

Lemma length_cut (b : bytes) a n : (a + n <= length b)%nat → length (cut b a n) = n.
Proof. intros H. unfold cut. rewrite length_take, length_drop. lia. Qed.

Lemma cut_add (b : bytes) a c n m : c = (a + n)%nat → cut b a n ++ cut b c m = cut b a (n + m).
Proof. intros ->. unfold cut. rewrite <-drop_drop. by rewrite take_take_drop. Qed.

Lemma cut_cut (b : bytes) a n c m : (c + m <= n)%nat → cut (cut b a n) c m = cut b (a + c) m.
Proof. intros H. unfold cut. rewrite skipn_firstn_comm, take_take, drop_drop. f_equal. lia. Qed.

(** The fields of the TDINFO_STRUCT lie in the body as they do in the structure. *)
Lemma td_info_of_body b h : mock_td_info (body_fields b) h = cut b 120 400 ++ h ++ zeros 64.
Proof.
  unfold mock_td_info, body_fields. cbn [td_attributes qb_xfam mr_td mr_config_id mr_owner mr_owner_config rt_mr concat]. rewrite app_nil_r, !app_assoc.
  f_equal. f_equal. by rewrite <-!app_assoc, !cut_add by reflexivity.
Qed.

Context (Hsha : ∀ d, length (sha384 d) = 48%nat).

Lemma report_length b h v t : (584 <= length b)%nat → length h = 48%nat → length (report_bytes (report_of_body b h v t)) = 1024%nat.
Proof.
  intros Hb Hh. unfold report_bytes, report_of_body, mock_report_mac. cbn [report_mac tee_tcb_info td_info]. rewrite td_info_of_body.
  unfold mock_tee_tcb_info, body_fields. cbn [qb_tee_tcb_svn mr_seam mrsigner_seam seam_attributes qb_report_data].
  rewrite !length_app, !Hsha, !length_zeros, length_replicate, Hh, !length_cut by lia. done.
Qed.

(** The reserved bytes in front keep a report from being taken for a message. *)
Lemma report_plain b h v t : le_val (take 2 (drop 4 (report_bytes (report_of_body b h v t)))) = 0.
Proof. reflexivity. Qed.

(** The registers of the report are those of the body. *)
Lemma report_rtmrs_of_body b h v t : (584 <= length b)%nat → length h = 48%nat →
  get_rtmrs_from_tdreport (report_of_body b h v t) = Ok [cut b 328 48; cut b 376 48; cut b 424 48; cut b 472 48].
Proof.
  intros Hb Hh. unfold get_rtmrs_from_tdreport, get_rtmrs_from_tdinfo, report_of_body. cbn [td_info]. rewrite td_info_of_body.
  assert (∀ a e, 0 <= a → e <= 400 → e = a + 48 → range_of (cut b 120 400 ++ h ++ zeros 64) (a, e) = Ok (cut b (120 + Z.to_nat a) 48)) as Hr.
  { intros a e Ha Hl ->. assert (length (cut b 120 400) = 400%nat) as Hc by (apply length_cut; lia).
    rewrite range_of_take; cbn [fst snd]; [|lia|rewrite lenz_app; pose proof (lenz_nonneg (h ++ zeros 64)); unfold lenz at 1; lia].
    rewrite drop_app_le, take_app_le by (rewrite ?length_drop; lia). replace (Z.to_nat (a + 48 - a)) with 48%nat by lia.
    f_equal. by rewrite <-(cut_cut b 120 400 (Z.to_nat a) 48) by lia. }
  unfold collect, TI_RTMR0, TI_RTMR1, TI_RTMR2, TI_RTMR3. by rewrite (Hr 208), (Hr 256), (Hr 304), (Hr 352) by lia.
Qed.

(** The check of a report in MigPolicy accepts it. *)
Lemma report_accepted `{Attestation} b h v t : let r := report_of_body b h v t in
  TdxReport_read_from_bytes (report_bytes r) = Some r → tdcall_verify_report (report_mac r) = true → rm_tee_info_hash r ≠ zeros 48 →
  verify_tdreport (λ d, Some (sha384 d)) (report_bytes r) = Ok r.
Proof.
  intros r Hread Hmac Hz. unfold verify_tdreport, or_err, require. rewrite Hread. cbn [mbind outcome_bind]. rewrite Hmac. cbn [mbind outcome_bind].
  rewrite (bool_decide_true (rm_tee_tcb_info_hash r = _)), (bool_decide_false (_ = zeros 48)), bool_decide_true by done. done.
Qed.
(** The report of the mock data and the quote call of the migration TD: every report
    the emulator makes is one the call takes, and what comes back is the quote the
    report was made from. *)
Theorem mock_report_quoted mem collateral q file r e callback notify n : (∀ a, bytes_ok (mem a)) →
  mock_td_report sha384 q file = Ok r → 0 < lenz (create_mock_quote q file) <= TD_QUOTE_SIZE → logs_ok e →
  ∃ page e' b,
    (b ← write_at (zeros SERVTD_REQ_BUF_SIZE) 0 (quote_hdr 1 0 (as_u 32 (lenz (report_bytes r))) TD_QUOTE_SIZE);
     write_at b QUOTE_HDR_SIZE (report_bytes r)) = Some page ∧
    tdvmcall_get_quote mem (λ _, Some (create_mock_quote q file)) collateral (e, page) = (Ok tt, (e', b)) ∧
    get_quote_igvm (emulated_host callback notify b) n (report_bytes r) = Ok (create_mock_quote q file).
Proof.
  intros Hmem Hr Hq Hl. assert (create_mock_td_report sha384 (create_mock_quote q file) = Ok r) as Hc.
  { revert Hr. unfold mock_td_report, create_mock_quote. by destruct file as [[d|]|]. }
  destruct (create_mock_spec (create_mock_quote q file)) as [(off & size & Hb & Hrb)|[_ Hp]]; [|congruence]. cbv zeta in Hrb.
  rewrite Hrb in Hc. injection Hc as <-. apply quote_body_size in Hb as [Hs Hle]. pose proof (lenz_nonneg (create_mock_quote q file)).
  apply (emulated_quote mem (λ _, Some (create_mock_quote q file)) collateral _ e callback notify n Hmem); [| |done|done].
  - assert (length (cut (create_mock_quote q file) (Z.to_nat off) (Z.to_nat size)) = Z.to_nat size) as Hlen by (apply length_cut; unfold lenz in *; lia).
    apply report_length; [lia|]. unfold servtd_of. destruct (Z.eqb_spec size 648) as [->|Hn]; [apply length_cut; lia|apply length_zeros].
  - by rewrite report_plain.
Qed.
End reports.

(** ** Failures of the mock service *)

(** What [n] calls answer, one after the other: a failure is what the quote call
    reports as busy. *)
Fixpoint mock_answers (QUOTE : bytes) (file : option (option bytes)) (report : bytes) (n : nat) (count : Z) : list Quote.quote_answer :=
  match n with
  | O => []
  | S n =>
      let '(o, count) := mock_get_quote QUOTE file true report count in
      match o with Ok q => Quote q | _ => Busy end :: mock_answers QUOTE file report n count
  end.

(** From the start the five failures use up the retries, with all the delays, and the
    last attempt has the quote. *)
Theorem mock_retry_succeeds `{F : MigData.Features} QUOTE file r ad : MigData.AzCVMEmu = true →
  get_quote_with_retry ad (mkQuoteWorld (replicate 6 (λ _, Some r)) (mock_answers QUOTE file r 6 0) [] []) =
  (Ok (create_mock_quote QUOTE file, r), mkQuoteWorld [] [] (replicate 6 r) (backoff 5 20)).
Proof. destruct F as [? ? ? emu]. cbn. intros ->. vm_compute. reflexivity. Qed.

(** Any later quote comes at once. *)
Theorem mock_retry_over `{F : MigData.Features} QUOTE file r ad reports count : FAIL_COUNT <= count < 2 ^ 32 →
  ∃ count', get_quote_with_retry ad (mkQuoteWorld ((λ _, Some r) :: reports) (mock_answers QUOTE file r 1 count) [] []) =
    (Ok (create_mock_quote QUOTE file, r), mkQuoteWorld reports [] [r] []) ∧
    mock_get_quote QUOTE file true r count = (Ok (create_mock_quote QUOTE file), count').
Proof.
  intros [Hc Hw]. exists (wrapping_add 32 count 1).
  assert (mock_get_quote QUOTE file true r count = (Ok (create_mock_quote QUOTE file), wrapping_add 32 count 1)) as E.
  { unfold mock_get_quote, getS, modifyS, err_if, mbind, M_bind. cbn. by rewrite (proj2 (Z.ltb_ge count FAIL_COUNT)). }
  split; [|done]. unfold mock_answers. rewrite E. reflexivity.
Qed.

(** ** The vTPM *)

(** The first report of three attempts is used; the attempts after it are not made. *)
Theorem vtpm_first_report ad attempts s : (attempts <= length s)%nat →
  match list_find (λ f : bytes → option bytes, is_Some (f ad)) (take attempts s) with
  | Some (i, f) => ∃ r, f ad = Some r ∧ vtpm_loop attempts ad s = (Ok r, drop (S i) s)
  | None => vtpm_loop attempts ad s = (Err tt, drop attempts s)
  end.
Proof.
  revert s. induction attempts as [|n IH]; intros s Hn; [done|]. destruct s as [|f s]; cbn in Hn; [lia|]. cbn.
  destruct (f ad) as [r|] eqn:E; [rewrite decide_True by done; by exists r|]. rewrite decide_False by (by intros [? ?]).
  specialize (IH s ltac:(lia)). destruct (list_find _ (take n s)) as [[i g]|]; done.
Qed.

(** A report goes to the service as it is, without the vTPM. *)
Theorem imds_report_unchanged hcl td get report s : lenz report = 1024 →
  imds_get_quote hcl td get report s = (match get report with Some q => Ok q | None => Err EmuQuoteError.ImdsError end, s).
Proof.
  intros Hr. unfold imds_get_quote. rewrite Hr. cbn [Z.leb Z.compare Pos.compare Pos.compare_cont].
  rewrite take_ge by (unfold lenz in Hr; lia). unfold mbind, M_bind, mret, M_ret, ok_or. by destruct (get report).
Qed.
