(* ===== verification/PolicyTools.v ===== *)
(** * PolicyTools: signing and putting together policies

    tools/json-signer (lib.rs, main.rs), tools/servtd-collateral-generator (build.rs),
    tools/migtd-policy-generator (policy_v2.rs) and tools/migtd-policy-verifier.  JSON
    (the crate serde_json, with [preserve_order]) is the class [SerdeJson], files of
    keys the class [KeyFiles]; the files of the host are a map.  What is printed is
    left out, and a command line is as clap hands it over. *)
From stdpp Require Import base tactics numbers option strings list list_numbers gmap.
From S2P Require Import Prelude PolicyV2 X509.
Local Open Scope Z_scope.

(** ** JSON *)

(** serde_json.  Members of an object are in the order of insertion; [raw_members] reads
    an object without looking into its members (BTreeMap<String, &RawValue>), [raw_value]
    is the text of a value (&RawValue), and [object_text] writes members that are texts
    already. *)
Class SerdeJson := {
  Value : Type;
  Object : list (string * Value) → Value;
  JString : string → Value;
  JNumber : Z → Value;
  as_object : Value → option (list (string * Value));
  from_slice : bytes → option Value;
  to_vec : Value → option bytes;
  raw_value : bytes → option bytes;
  raw_members : bytes → option (gmap string bytes);
  raw_string : bytes → option string;
  object_text : list (string * bytes) → bytes }.

(** [Map::insert] *)
Fixpoint map_insert {V} (k : string) (v : V) (l : list (string * V)) : list (string * V) :=
  match l with
  | [] => [(k, v)]
  | (k', v') :: l => if bool_decide (k = k') then (k, v) :: l else (k', v') :: map_insert k v l
  end.

(** ** Keys *)

(** The PEM readers of rustls-pki-types and [SubjectPublicKeyInfo::from_der]. *)
Class KeyFiles := {
  certificate_from_pem : bytes → option bytes;
  private_key_from_pem : bytes → option bytes;
  spki_from_pem : bytes → option bytes;
  spki_from_der : bytes → option SubjectPublicKeyInfo }.

Definition pem_to_der_from_slice `{KeyFiles} (pem_data : bytes) : CResult bytes :=
  match certificate_from_pem pem_data with
  | Some cert => Ok cert
  | None =>
      match private_key_from_pem pem_data with
      | Some key => Ok key
      | None => or_err (spki_from_pem pem_data) CryptoError.DecodePemCert
      end
  end.

(** ** json-signer: library *)

Module JsonError.
Inductive t := InvalidJson | InvalidKey | InvalidString | InvalidSignedJson | Sign | Verify | NotCanonical | NoPublicKey.
End JsonError.

Notation JResult := (outcome JsonError.t).

(** [map_err] *)
Definition map_error {E A} (e : JsonError.t) (r : outcome E A) : JResult A :=
  match r with Ok a => Ok a | Err _ => Err e | Panic => Panic end.

Definition SIGNATURE_KEY : string := "signature".

(** A byte that continues a character: no slice of a string starts or ends there. *)
Definition inside_char (s : string) : bool :=
  match as_bytes s with b :: _ => between 128 191 b | [] => false end.

Fixpoint hex_pairs (s : string) : JResult bytes :=
  match s with
  | String.String a (String.String b s') =>
      if inside_char s' then Panic
      else
        x ← or_err (from_str_radix 8 16 (String.String a (String.String b EmptyString))) JsonError.InvalidString;
        l ← hex_pairs s';
        Ok (x :: l)
  | _ => Ok []
  end.

Definition hex_string_to_bytes (s : string) : JResult bytes :=
  if negb (Nat.even (String.length s)) then Err JsonError.InvalidString else hex_pairs s.

Section signer.
Context `{SerdeJson} `{KeyFiles} `{Ring}.

(** The function [bytes_to_hex_string] is that of the policy crate. *)
Definition json_set_signature (key : string) (json_slice sig : bytes) : JResult bytes :=
  val ← or_err (from_slice json_slice) JsonError.InvalidJson;
  let sig_hex := bytes_to_hex_string sig in
  let map := map_insert key val [] in
  let map := map_insert SIGNATURE_KEY (JString sig_hex) map in
  or_err (to_vec (Object map)) JsonError.InvalidJson.

(** [rand] is the randomness of the signature. *)
Definition json_sign (rand : Z) (json_key : string) (data private_key : bytes) : JResult bytes :=
  value ← or_err (from_slice data) JsonError.InvalidJson;
  canonical_data ← or_err (to_vec value) JsonError.InvalidJson;
  if negb (bool_decide (data = canonical_data)) then Err JsonError.NotCanonical
  else
    private_key_der ← map_error JsonError.InvalidKey (pem_to_der_from_slice private_key);
    sig ← map_error JsonError.Sign (ecdsa_sign rand private_key_der data);
    json_set_signature json_key data sig.

Definition json_sign_detached (rand : Z) (data private_key : bytes) : JResult bytes :=
  private_key_der ← map_error JsonError.InvalidKey (pem_to_der_from_slice private_key);
  map_error JsonError.Sign (ecdsa_sign rand private_key_der data).

Definition extract_public_key_bytes (spki_der : bytes) : JResult bytes :=
  spki ← or_err (spki_from_der spki_der) JsonError.InvalidKey;
  or_err (bits_as_bytes (subject_public_key spki)) JsonError.NoPublicKey.

Definition json_verify (data public_key sig : bytes) : JResult unit :=
  public_key_der ← map_error JsonError.InvalidKey (pem_to_der_from_slice public_key);
  public_key_raw ← extract_public_key_bytes public_key_der;
  map_error JsonError.Verify (ecdsa_verify public_key_raw data sig).

Definition json_verify_from_signed (json_key : string) (signed_json public_key : bytes) : JResult unit :=
  public_key_der ← map_error JsonError.InvalidKey (pem_to_der_from_slice public_key);
  public_key_raw ← extract_public_key_bytes public_key_der;
  parsed ← or_err (raw_members signed_json) JsonError.InvalidJson;
  if negb (size parsed =? 2)%nat then Err JsonError.InvalidSignedJson
  else if negb (bool_decide (is_Some (parsed !! SIGNATURE_KEY))) || negb (bool_decide (is_Some (parsed !! json_key)))
  then Err JsonError.InvalidSignedJson
  else
    sig_hex ← or_err (v ← parsed !! SIGNATURE_KEY; raw_string v) JsonError.InvalidSignedJson;
    sig ← hex_string_to_bytes sig_hex;
    data_bytes ← or_err (parsed !! json_key) JsonError.InvalidSignedJson;
    map_error JsonError.Verify (ecdsa_verify public_key_raw data_bytes sig).

(** ** json-signer: program *)

Record Cli := mkCli {
  finalize : bool; sign : bool; verify_ : bool; detach : bool;
  signature_file : option string; private_key_file : option string; public_key_file : option string;
  cli_name : string; input : string; output : option string }.

(** The files of the host, and which of them can be written. *)
Definition Files := gmap string bytes.
Context (writable : string → bool).

(** [Err code] is [exit(code)]; the end of [main] is [Ok]. *)
Notation ToolM := (M Files Z).

Definition exit {A} (code : Z) : ToolM A := failM code.

(** [read_file(..).unwrap_or_else(.. exit(1))] *)
Definition read_or_exit (path : string) : ToolM bytes := files ← getS; ok_or (files !! path) 1.

(** [Option::unwrap] of an argument clap requires. *)
Definition unwrap (o : option string) : ToolM string := match o with Some x => mret x | None => λ s, (Panic, s) end.

Definition result_or_exit {A} (r : JResult A) : ToolM A :=
  λ s, (match r with Ok a => Ok a | Err _ => Err 1 | Panic => Panic end, s).

Definition write_or_exit (path : string) (data : bytes) : ToolM unit :=
  if writable path then modifyS (λ files, <[path := data]> files) else exit 1.

Definition signer_main (rand : Z) (cli : Cli) : ToolM unit :=
  input ← read_or_exit (input cli);
  if verify_ cli then
    path ← unwrap (public_key_file cli);
    public_key ← read_or_exit path;
    _ ← (if detach cli then
           path ← ok_or (signature_file cli) 1;
           sig ← read_or_exit path;
           result_or_exit (json_verify input public_key sig)
         else result_or_exit (json_verify_from_signed (cli_name cli) input public_key));
    exit 0
  else if sign cli then
    path ← unwrap (private_key_file cli);
    private_key ← read_or_exit path;
    output_bytes ← result_or_exit (if detach cli then json_sign_detached rand input private_key else json_sign rand (cli_name cli) input private_key);
    output ← ok_or (output cli) 1;
    write_or_exit output output_bytes
  else if finalize cli then
    path ← unwrap (signature_file cli);
    sig ← read_or_exit path;
    output_bytes ← result_or_exit (json_set_signature (cli_name cli) input sig);
    output ← ok_or (output cli) 1;
    write_or_exit output output_bytes
  else exit 1.

(** ** servtd-collateral-generator and policy generator *)

(** The texts of the members, in the order of the structure; errors of anyhow are
    [None]. *)
Definition build_servtd_collateral (files : Files) (identity_path identity_chain_path mapping_path mapping_chain_path : string) : option bytes :=
  identity_bytes ← files !! identity_path;
  mapping_bytes ← files !! mapping_path;
  identity_val ← raw_value identity_bytes;
  mapping_val ← raw_value mapping_bytes;
  identity_chain ← (b ← files !! identity_chain_path; from_utf8 b);
  mapping_chain ← (b ← files !! mapping_chain_path; from_utf8 b);
  major_version ← to_vec (JNumber 1);
  minor_version ← to_vec (JNumber 0);
  identity_chain ← to_vec (JString identity_chain);
  mapping_chain ← to_vec (JString mapping_chain);
  Some (object_text [("majorVersion", major_version); ("minorVersion", minor_version);
                     ("servtdIdentity", identity_val); ("servtdIdentityIssuerChain", identity_chain);
                     ("servtdTcbMapping", mapping_val); ("servtdTcbMappingIssuerChain", mapping_chain)]).

Definition build_v2_policy_data (files : Files) (base_policy_data collaterals servtd_collateral : string) : option bytes :=
  policy_data_bytes ← files !! base_policy_data;
  collateral_bytes ← files !! collaterals;
  servtd_collateral_bytes ← files !! servtd_collateral;
  base ← from_slice policy_data_bytes;
  map ← as_object base;
  collaterals_val ← from_slice collateral_bytes;
  servtd_val ← from_slice servtd_collateral_bytes;
  let map := map_insert "collaterals" collaterals_val map in
  let map := map_insert "servtdCollateral" servtd_val map in
  to_vec (Object map).

(** ** migtd-policy-verifier *)

Definition policy_verifier `{PolicyJson} `{PolicyCrypto} (files : Files) (policy cert_chain : string) : option unit :=
  policy_bytes ← files !! policy;
  cert_chain_bytes ← files !! cert_chain;
  match deserialize_from_json policy_bytes with
  | Ok policy => match verify policy cert_chain_bytes with Ok _ => Some tt | _ => None end
  | _ => None
  end.
End signer.
