(* ===== verification/PolicyToolsSpec.v ===== *)
(** * PolicyToolsSpec: what the tools produce is accepted

    A text signed by the tool is verified by the tool (PolicyTools) and, put together
    into a policy, by the migration TD (PolicyV2 over the chains of X509); a signature
    added afterwards is over the text as it is written again. *)
From stdpp Require Import base tactics numbers option strings list list_numbers gmap.
From S2P Require Import Prelude PolicyV2 PolicyV2Spec X509 X509Spec MigPolicy RaTlsSpec PolicyTools.
Local Open Scope Z_scope.

(** ** Laws of serde_json *)

(** Writing an object writes its members; reading it gives them back; and a text that
    is read as a value has the members its text has. *)
Class SerdeJsonLaws `{SerdeJson} := {
  to_vec_object l : to_vec (Object l) = texts ← mapM (to_vec ∘ snd) l; Some (object_text (zip l.*1 texts));
  raw_members_object l : NoDup l.*1 → Forall (λ kt, raw_value kt.2 = Some kt.2) l → raw_members (object_text l) = Some (list_to_map l);
  raw_value_object l : NoDup l.*1 → Forall (λ kt, raw_value kt.2 = Some kt.2) l → raw_value (object_text l) = Some (object_text l);
  raw_value_written v t : to_vec v = Some t → bytes_ok t ∧ raw_value t = Some t;
  raw_string_written s t : to_vec (JString s) = Some t → raw_string t = Some s;
  from_slice_string s t : to_vec (JString s) = Some t → from_slice t = Some (JString s);
  from_slice_members b v m : from_slice b = Some v → raw_members b = Some m →
    ∃ l, v = Object l ∧ NoDup l.*1 ∧ ∀ k,
      match m !! k with
      | Some t => ∃ u, from_slice t = Some u ∧ (list_to_map l : gmap string Value) !! k = Some u
      | None => (list_to_map l : gmap string Value) !! k = None
      end;
  as_object_members v l : as_object v = Some l → v = Object l ∧ NoDup l.*1 }.

Section spec.
Context `{SJ : SerdeJson} `{SL : !SerdeJsonLaws} `{KF : KeyFiles} `{RG : Ring}.

(** ** Members *)

Lemma map_insert_keys {V} k (v : V) l : (map_insert k v l).*1 = if bool_decide (k ∈ l.*1) then l.*1 else l.*1 ++ [k].
Proof.
  induction l as [|[k' v'] l IH]; [done|]. cbn [map_insert]. destruct (decide (k = k')) as [<-|Hk].
  - rewrite (bool_decide_true (k = k)) by done. cbn. rewrite bool_decide_true by set_solver. done.
  - rewrite (bool_decide_false (k = k')) by done. cbn. rewrite IH. destruct (decide (k ∈ l.*1)) as [Hi|Hi].
    + rewrite !bool_decide_true by set_solver. done.
    + rewrite !bool_decide_false by set_solver. done.
Qed.

Lemma map_insert_nodup {V} k (v : V) l : NoDup l.*1 → NoDup (map_insert k v l).*1.
Proof.
  intros Hn. rewrite map_insert_keys. case_bool_decide as Hk; [done|]. apply NoDup_app. split_and!; [done|set_solver|apply NoDup_singleton].
Qed.

Lemma map_insert_lookup {V} k (v : V) l : (list_to_map (map_insert k v l) : gmap string V) = <[k := v]> (list_to_map l).
Proof.
  induction l as [|[k' v'] l IH]; [done|]. cbn [map_insert]. case_bool_decide as Hk.
  - subst. cbn. by rewrite insert_insert_eq.
  - cbn. rewrite IH. by rewrite insert_insert_ne by congruence.
Qed.

(** Members of a text, each a text of its own. *)
Definition text_members (b : bytes) (m : gmap string bytes) : Prop :=
  ∃ l, b = object_text l ∧ NoDup l.*1 ∧ Forall (λ kt, raw_value kt.2 = Some kt.2) l ∧ m = list_to_map l.

Lemma text_members_raw b m : text_members b m → raw_members b = Some m ∧ raw_value b = Some b.
Proof. intros (l & -> & Hn & Hr & ->). split; [by apply raw_members_object|by apply raw_value_object]. Qed.

(** The text of an object has the texts of its members. *)
Lemma object_written l t : NoDup l.*1 → to_vec (Object l) = Some t →
  ∃ m, text_members t m ∧ ∀ k v, (list_to_map l : gmap string Value) !! k = Some v → ∃ tv, to_vec v = Some tv ∧ m !! k = Some tv.
Proof.
  rewrite to_vec_object. destruct (mapM (to_vec ∘ snd) l) as [texts|] eqn:E; [|done]. intros Hn [= <-]. apply mapM_Some in E.
  assert ((zip l.*1 texts).*1 = l.*1) as Hk by (apply fst_zip; rewrite length_fmap; apply Forall2_length in E; lia).
  exists (list_to_map (zip l.*1 texts)). split.
  { exists (zip l.*1 texts). rewrite Hk. split_and!; [done..| |done]. clear -E SL. induction E as [|[k v] t l texts Hv _ IH]; cbn; [done|].
    constructor; [by eapply raw_value_written|done]. }
  clear -E. induction E as [|[k v] t l texts Hv _ IH]; [done|]. cbn in *. intros k' v'.
  destruct (decide (k = k')) as [->|Hk]; [rewrite !lookup_insert_eq|rewrite !lookup_insert_ne by done; apply IH]. intros [= <-]. by exists t.
Qed.

(** A text that is read and written again keeps its members, each read and written
    again. *)
Lemma reread b m v t : text_members b m → from_slice b = Some v → to_vec v = Some t →
  ∃ m', text_members t m' ∧ ∀ k x, m !! k = Some x → ∃ u y, from_slice x = Some u ∧ to_vec u = Some y ∧ m' !! k = Some y.
Proof.
  intros [Hm _]%text_members_raw Hv Ht. destruct (from_slice_members _ _ _ Hv Hm) as (l & -> & Hn & Hl).
  destruct (object_written l t Hn Ht) as (m' & Hm' & Hw). exists m'. split; [done|]. intros k x Hx. specialize (Hl k). rewrite Hx in Hl.
  destruct Hl as (u & Hu & Hlu). destruct (Hw k u Hlu) as (y & Hy & Hmy). by exists u, y.
Qed.

(** ** Signatures in hex *)

Lemma hex_pairs_plain s : is_ascii s = true → hex_pairs s = map_error JsonError.InvalidString (hex_loop s).
Proof.
  revert s. fix IH 1. intros [|a [|b s]]; [done|done|]. intros Ha. cbn [hex_pairs hex_loop].
  unfold is_ascii, as_bytes in Ha. cbn [String.list_ascii_of_string map forallb] in Ha. apply andb_prop in Ha as [_ Ha]. apply andb_prop in Ha as [_ Ha].
  assert (inside_char s = false) as ->.
  { unfold inside_char, as_bytes, between. destruct s as [|c s]; [done|]. cbn in *. apply andb_prop in Ha as [Hc _]. apply Z.ltb_lt in Hc.
    by rewrite (proj2 (Z.leb_gt 128 _)). }
  destruct (from_str_radix 8 16 _) as [x|]; cbn [or_err mbind outcome_bind]; [|done]. rewrite (IH s) by done.
  by destruct (hex_loop s).
Qed.

(** A signature the policy crate reads is read by the tool as the same bytes. *)
Lemma signer_hex_agrees s bs : PolicyV2.hex_string_to_bytes s = Ok bs → hex_string_to_bytes s = Ok bs.
Proof.
  unfold PolicyV2.hex_string_to_bytes, hex_string_to_bytes. case_bool_decide; [done|]. destruct (Nat.even _); [|done]. destruct (is_ascii s) eqn:Ha; [|done].
  cbn. intros E. rewrite hex_pairs_plain by done. by rewrite E.
Qed.

Lemma signer_hex_roundtrip bs : bytes_ok bs → hex_string_to_bytes (bytes_to_hex_string bs) = Ok bs.
Proof. intros Hb. destruct bs as [|b bs]; [done|]. apply signer_hex_agrees. by apply hex_roundtrip. Qed.

(** ** What is verified *)

Definition public_key_of (pem : bytes) : JResult bytes :=
  der ← map_error JsonError.InvalidKey (pem_to_der_from_slice pem); extract_public_key_bytes der.

Ltac refused := split; [discriminate|intros (? & ? & ? & ? & ? & ? & ?); destruct_and?; simplify_eq; congruence].

(** The tool accepts exactly an object of two members, the named one and a signature in
    hex that verifies for the text of the named one. *)
Theorem verify_signed_exact k b pub : json_verify_from_signed k b pub = Ok tt ↔
  ∃ pk m d s hex sig, public_key_of pub = Ok pk ∧ raw_members b = Some m ∧ size m = 2%nat ∧ m !! k = Some d ∧ m !! SIGNATURE_KEY = Some s ∧
    raw_string s = Some hex ∧ hex_string_to_bytes hex = Ok sig ∧ ring_verify ECDSA_P384_SHA384_ASN1 pk d sig = true.
Proof.
  unfold json_verify_from_signed, public_key_of. destruct (map_error _ (pem_to_der_from_slice pub)) as [der|e|]; cbn [mbind outcome_bind]; [|refused..].
  destruct (extract_public_key_bytes der) as [pk|e|]; cbn [mbind outcome_bind]; [|refused..].
  destruct (raw_members b) as [m|]; cbn [or_err mbind outcome_bind]; [|refused].
  destruct (Nat.eqb_spec (size m) 2) as [Hm|Hm]; cbn [negb]; [|refused].
  destruct (m !! SIGNATURE_KEY) as [s|] eqn:Es; [|cbn; refused]. destruct (m !! k) as [d|] eqn:Ed; [|cbn; refused].
  rewrite !bool_decide_true by eauto. cbn [negb orb mbind option_bind or_err outcome_bind].
  destruct (raw_string s) as [hex|] eqn:Eh; cbn [or_err mbind outcome_bind]; [|refused].
  destruct (hex_string_to_bytes hex) as [sig|e|] eqn:Ex; cbn [mbind outcome_bind]; [|refused..].
  unfold ecdsa_verify, ecdsa_verify_with_algorithm, require. split.
  - destruct (ring_verify _ pk d sig) eqn:Ev; [|done]. intros _. by exists pk, m, d, s, hex, sig.
  - intros (? & ? & ? & ? & ? & ? & [= <-] & [= <-] & _ & Hd & Hs & Hh & Hx & Hv). rewrite Ed in Hd. rewrite Es in Hs. simplify_eq. rewrite Ex in Hx. injection Hx as <-. by rewrite Hv.
Qed.

(** ** What is signed *)

(** The members of a text with a signature. *)
Lemma set_signature_text k data sig out : k ≠ SIGNATURE_KEY → json_set_signature k data sig = Ok out →
  ∃ v t th, from_slice data = Some v ∧ to_vec v = Some t ∧ to_vec (JString (bytes_to_hex_string sig)) = Some th ∧
    out = object_text [(k, t); (SIGNATURE_KEY, th)].
Proof.
  intros Hk. unfold json_set_signature. destruct (from_slice data) as [v|]; [|done]. cbn [or_err mbind outcome_bind map_insert].
  rewrite bool_decide_false by congruence. rewrite to_vec_object. cbn [mapM mbind option_bind compose snd fst fmap list_fmap].
  destruct (to_vec v) as [t|] eqn:Et; [|done]. destruct (to_vec (JString _)) as [th|] eqn:Eh; [|done]. cbn. intros [= <-]. by exists v, t, th.
Qed.

Lemma signed_members k t th : k ≠ SIGNATURE_KEY → raw_value t = Some t → raw_value th = Some th →
  raw_members (object_text [(k, t); (SIGNATURE_KEY, th)]) = Some {[k := t; SIGNATURE_KEY := th]}.
Proof.
  intros Hk Ht Hh. rewrite raw_members_object; [done| |by repeat constructor].
  cbn. apply NoDup_cons. split; [|apply NoDup_singleton]. by intros ?%list_elem_of_singleton.
Qed.

(** A signature that is added is accepted when it is one of the text as it is written
    again, whatever the text it was added to looked like. *)
Theorem set_signature_verified k data sig out pub pk : k ≠ SIGNATURE_KEY → bytes_ok sig → public_key_of pub = Ok pk →
  json_set_signature k data sig = Ok out →
  ∃ v t, from_slice data = Some v ∧ to_vec v = Some t ∧
    (json_verify_from_signed k out pub = Ok tt ↔ ring_verify ECDSA_P384_SHA384_ASN1 pk t sig = true).
Proof.
  intros Hk Hs Hp E. apply set_signature_text in E as (v & t & th & Hv & Ht & Hh & ->); [|done]. exists v, t. split_and!; [done..|].
  rewrite verify_signed_exact, signed_members; [|done|by eapply raw_value_written..]. split.
  - intros (pk' & m & d & s & hex & sg & E1 & [= <-] & _ & Hd & Hsg & Hhex & Hx & Hr). rewrite Hp in E1. injection E1 as <-.
    rewrite lookup_insert_eq in Hd. rewrite lookup_insert_ne, lookup_singleton_eq in Hsg by done. simplify_eq.
    apply raw_string_written in Hh. rewrite Hh in Hhex. injection Hhex as <-. rewrite signer_hex_roundtrip in Hx by done. by injection Hx as <-.
  - intros Hr. exists pk, {[k := t; SIGNATURE_KEY := th]}, t, th, (bytes_to_hex_string sig), sig. split_and!; try done.
    + rewrite map_size_insert_None; [by rewrite map_size_singleton|]. by rewrite lookup_singleton_ne.
    + apply lookup_insert_eq.
    + by rewrite lookup_insert_ne, lookup_singleton_eq.
    + by apply raw_string_written.
    + by apply signer_hex_roundtrip.
Qed.

(** A signature of ring is a string of bytes that is not empty. *)
Context (Hsig : ∀ r k d s, key_sign r k d = Some s → bytes_ok s ∧ s ≠ []).

Definition key_pair (priv pub : bytes) : Prop :=
  ∃ der pk, pem_to_der_from_slice priv = Ok der ∧ key_public der = Some pk ∧ public_key_of pub = Ok pk.

Lemma map_error_Ok {E A} e (r : outcome E A) a : map_error e r = Ok a ↔ r = Ok a.
Proof. destruct r; cbn; naive_solver. Qed.

Lemma ecdsa_sign_Ok rand der data sig : ecdsa_sign rand der data = Ok sig →
  ∃ pk, key_public der = Some pk ∧ key_sign rand der data = Some sig ∧ ring_verify ECDSA_P384_SHA384_ASN1 pk data sig = true.
Proof.
  unfold ecdsa_sign. destruct (key_public der) as [pk|] eqn:Ep; [|done]. destruct (key_sign rand der data) as [s|] eqn:Es; [|done].
  intros [= <-]. exists pk. split_and!; [done..|]. by eapply sign_verify.
Qed.

Lemma json_sign_Ok rand k data priv out : json_sign rand k data priv = Ok out →
  ∃ v der sig, from_slice data = Some v ∧ to_vec v = Some data ∧ pem_to_der_from_slice priv = Ok der ∧ ecdsa_sign rand der data = Ok sig ∧
    bytes_ok sig ∧ sig ≠ [] ∧ json_set_signature k data sig = Ok out.
Proof.
  unfold json_sign. destruct (from_slice data) as [v|] eqn:Ev; [|done]. cbn [or_err mbind outcome_bind].
  destruct (to_vec v) as [t|] eqn:Et; [|done]. cbn [or_err mbind outcome_bind]. case_bool_decide as Hd; [subst t|done]. cbn [negb].
  destruct (pem_to_der_from_slice priv) as [der|e|]; [|done..]. cbn [map_error mbind outcome_bind].
  destruct (ecdsa_sign rand der data) as [sig|e|] eqn:Es; [|done..]. cbn [map_error mbind outcome_bind]. intros Ho.
  destruct (ecdsa_sign_Ok _ _ _ _ Es) as (pk & _ & Hs & _). exists v, der, sig. by destruct (Hsig _ _ _ _ Hs).
Qed.

(** What the tool signed, it verifies. *)
Lemma signed_verifies rand k data priv pub out : k ≠ SIGNATURE_KEY → key_pair priv pub → json_sign rand k data priv = Ok out →
  json_verify_from_signed k out pub = Ok tt.
Proof.
  intros Hk (der & pk & Hder & Hpk & Hpub) (v & der' & sig & Hv & Ht & Hd' & Hs & Hb & _ & Ho)%json_sign_Ok. rewrite Hder in Hd'. injection Hd' as <-.
  destruct (set_signature_verified k data sig out pub pk Hk Hb Hpub Ho) as (v' & t' & Hv' & Ht' & ->). rewrite Hv in Hv'. injection Hv' as <-.
  rewrite Ht in Ht'. injection Ht' as <-. apply ecdsa_sign_Ok in Hs as (pk' & Hp' & _ & Hr). congruence.
Qed.

Lemma detached_verifies rand data priv pub sig : key_pair priv pub → json_sign_detached rand data priv = Ok sig → json_verify data pub sig = Ok tt.
Proof.
  intros (der & pk & Hder & Hpk & Hpub). unfold json_sign_detached, json_verify. rewrite Hder. cbn [map_error mbind outcome_bind].
  intros (pk' & Hp' & _ & Hr)%map_error_Ok%ecdsa_sign_Ok. assert (pk' = pk) as -> by congruence. revert Hpub. unfold public_key_of.
  destruct (map_error _ (pem_to_der_from_slice pub)) as [d|e|]; [|done..]. cbn [mbind outcome_bind]. intros ->. cbn.
  unfold ecdsa_verify, ecdsa_verify_with_algorithm, require. by rewrite Hr.
Qed.

(** *** Steps of the program *)

Lemma read_present path (files : Files) d : files !! path = Some d → read_or_exit path files = (Ok d, files).
Proof. intros E. unfold read_or_exit, ok_or, mbind, M_bind, getS. by rewrite E. Qed.

Lemma read_missing path (files : Files) : files !! path = None → read_or_exit path files = (Err 1, files).
Proof. intros E. unfold read_or_exit, ok_or, mbind, M_bind, getS. by rewrite E. Qed.

Lemma write_done writable o out (files files' : Files) :
  (output_bytes ← result_or_exit (Ok o); output ← ok_or (Some out) 1; write_or_exit writable output output_bytes) files = (Ok tt, files') →
  writable out = true ∧ files' = <[out := o]> files.
Proof. unfold result_or_exit, write_or_exit, mbind, M_bind. cbn. destruct (writable out); [|done]. by intros [= <-]. Qed.

(** The program: a file it signed, in either way, is one it verifies. *)
Theorem signed_file_verified writable rand cli cli' pf priv qf pub (files files' : Files) out :
  verify_ cli = false → sign cli = true → private_key_file cli = Some pf → files !! pf = Some priv → output cli = Some out →
  signer_main writable rand cli files = (Ok tt, files') →
  verify_ cli' = true → detach cli' = detach cli → cli_name cli' = cli_name cli → cli_name cli ≠ SIGNATURE_KEY →
  public_key_file cli' = Some qf → files' !! qf = Some pub → key_pair priv pub →
  (if detach cli then files' !! input cli' = files !! input cli ∧ signature_file cli' = Some out else input cli' = out) →
  signer_main writable rand cli' files' = (Err 0, files').
Proof.
  intros Hv Hs Hpf Hpriv Hout Hrun Hv' Hdet Hname Hk Hqf Hpub Hpair Hin. revert Hrun. unfold signer_main. rewrite Hv, Hs, Hv', Hdet, Hname, Hout, Hpf, Hqf.
  destruct (files !! input cli) as [data|] eqn:Ed; [|by rewrite M_bind_eq, (read_missing _ _ Ed)].
  rewrite (M_bind_Ok _ _ _ _ _ (read_present _ _ _ Ed)). cbn [unwrap mret M_ret]. rewrite ret_bind, (M_bind_Ok _ _ _ _ _ (read_present _ _ _ Hpriv)).
  destruct (detach cli).
  - destruct (json_sign_detached rand data priv) as [o|e|] eqn:Eo; [|done..]. intros [Hw ->]%write_done. destruct Hin as [Hin ->].
    rewrite (M_bind_Ok _ _ _ _ _ (read_present _ _ _ Hin)), ret_bind, (M_bind_Ok _ _ _ _ _ (read_present _ _ _ Hpub)).
    rewrite M_bind_eq. unfold ok_or. rewrite ret_bind, (M_bind_Ok _ _ _ _ _ (read_present _ _ _ (lookup_insert_eq _ _ _))).
    unfold result_or_exit. by rewrite (detached_verifies _ _ _ _ _ Hpair Eo).
  - destruct (json_sign rand (cli_name cli) data priv) as [o|e|] eqn:Eo; [|done..]. intros [Hw ->]%write_done. rewrite Hin.
    rewrite (M_bind_Ok _ _ _ _ _ (read_present _ _ _ (lookup_insert_eq _ _ _))), ret_bind, (M_bind_Ok _ _ _ _ _ (read_present _ _ _ Hpub)).
    rewrite M_bind_eq. unfold result_or_exit. by rewrite (signed_verifies _ _ _ _ _ _ Hk Hpair Eo).
Qed.

(** ** From signed texts to an accepted policy *)

Context `{D : Der} `{J : PolicyJson}.
#[local] Existing Instance x509_policy_crypto.

(** A structure with one text and its signature. *)
Definition reads_raw (field : string) (b : bytes) (r : RawSigned) : Prop :=
  ∃ m d s, text_members b m ∧ m !! field = Some d ∧ m !! SIGNATURE_KEY = Some s ∧ raw_data r = string_of_bytes d ∧ raw_string s = Some (signature r).

(** The collateral of the service TD. *)
Definition reads_servtd (b : bytes) (ri rm : RawSigned) (ci cm : string) : Prop :=
  ∃ m ti tm tci tcm, text_members b m ∧ m !! "servtdIdentity" = Some ti ∧ reads_raw "tdIdentity" ti ri ∧
    m !! "servtdTcbMapping" = Some tm ∧ reads_raw "tdTcbMapping" tm rm ∧
    m !! "servtdIdentityIssuerChain" = Some tci ∧ raw_string tci = Some ci ∧ m !! "servtdTcbMappingIssuerChain" = Some tcm ∧ raw_string tcm = Some cm.

(** The readers serde derives for these structures go by the names of the members. *)
Context (read_policy : ∀ b r, reads_raw "policyData" b r → json_raw_policy b = Some r).
Context (read_collateral : ∀ b m pd c ri rm ci cm, text_members b m → m !! "servtdCollateral" = Some c → reads_servtd c ri rm ci cm →
  json_policy_data (string_of_bytes b) = Some pd →
  let sc := servtd_collateral pd in
  sc_servtd_identity sc = ri ∧ servtd_identity_issuer_chain sc = ci ∧ sc_servtd_tcb_mapping sc = rm ∧ servtd_tcb_mapping_issuer_chain sc = cm).

(** A chain whose leaf holds the key. *)
Definition chain_of_key (chain der : bytes) : Prop :=
  ∃ leaf rest cert pk, extract_cert_chain_from_pem chain = Ok (leaf :: rest) ∧ verify_certificate_chain (leaf :: rest) = Ok tt ∧
    parse_cert leaf = Ok cert ∧ extract_public_key_from_cert cert = Ok pk ∧ algorithm (signature_algorithm cert) = ECDSA_WITH_SHA384 ∧ key_public der = Some pk.

Lemma chain_accepts chain der rand d sig : chain_of_key chain der → ecdsa_sign rand der d = Ok sig →
  PolicyV2.verify_cert_chain_and_signature chain d sig = true.
Proof.
  intros (leaf & rest & cert & pk & Hx & Hv & Hp & Hk & Ha & Hpub) (pk' & Hp' & _ & Hr)%ecdsa_sign_Ok. assert (pk' = pk) as -> by congruence.
  cbn. unfold X509.verify_cert_chain_and_signature, verify_signature_with_cert, verify_signature_with_algorithm, ecdsa_verify_with_algorithm, require.
  rewrite Hx. cbn [mbind outcome_bind]. rewrite Hv. cbn [mbind outcome_bind]. rewrite Hp. cbn [mbind outcome_bind]. rewrite Hk. cbn [mbind outcome_bind].
  by rewrite bool_decide_true, Hr.
Qed.

(** What json-signer makes of a text and a key the chain is for. *)
Definition signed_by (k : string) (data out chain : bytes) : Prop :=
  ∃ rand priv der, json_sign rand k data priv = Ok out ∧ pem_to_der_from_slice priv = Ok der ∧ chain_of_key chain der.

(** It is read back as the text and a signature the chain is good for, also after it
    was read and written again. *)
Lemma signed_by_reads k data out chain : k ≠ SIGNATURE_KEY → signed_by k data out chain →
  ∃ r, raw_data r = string_of_bytes data ∧ reads_raw k out r ∧
    (∀ v t, from_slice out = Some v → to_vec v = Some t → reads_raw k t r) ∧
    (∀ A (from_str : string → option A) e, verify_signed from_str e r chain = or_err (from_str (string_of_bytes data)) e).
Proof.
  intros Hk (rand & priv & der & (v & der' & sig & Hv & Ht & Hd & Hs & Hb & Hne & Ho)%json_sign_Ok & Hder & Hc). assert (der' = der) as -> by congruence.
  destruct (set_signature_text _ _ _ _ Hk Ho) as (v' & t & th & Hv' & Ht' & Hh & ->). assert (v' = v) as -> by congruence. assert (t = data) as -> by congruence.
  pose proof (raw_value_written _ _ Ht) as [Hbd Hrd]. pose proof (raw_value_written _ _ Hh) as [_ Hrh].
  assert (text_members (object_text [(k, data); (SIGNATURE_KEY, th)]) {[k := data; SIGNATURE_KEY := th]}) as Hm.
  { exists [(k, data); (SIGNATURE_KEY, th)]. split_and!; [done| |by repeat constructor|done].
    cbn. apply NoDup_cons. split; [|apply NoDup_singleton]. by intros ?%list_elem_of_singleton. }
  assert (({[k := data; SIGNATURE_KEY := th]} : gmap string bytes) !! k = Some data) as Hmk by apply lookup_insert_eq.
  assert (({[k := data; SIGNATURE_KEY := th]} : gmap string bytes) !! SIGNATURE_KEY = Some th) as Hms by (by rewrite lookup_insert_ne, lookup_singleton_eq).
  exists (mkRaw (string_of_bytes data) (bytes_to_hex_string sig)). split_and!; [done| | |].
  - exists {[k := data; SIGNATURE_KEY := th]}, data, th. split_and!; [done..|]. by apply raw_string_written.
  - intros u t Hu Hut. destruct (reread _ _ _ _ Hm Hu Hut) as (m' & Hm' & Hr). destruct (Hr _ _ Hmk) as (x & y & Hx & Hy & Hmy).
    destruct (Hr _ _ Hms) as (x' & y' & Hx' & Hy' & Hmy'). assert (x = v) as -> by congruence. assert (y = data) as -> by congruence.
    rewrite (from_slice_string _ _ Hh) in Hx'. injection Hx' as <-. assert (y' = th) as -> by congruence.
    exists m', data, th. split_and!; [done..|]. by apply raw_string_written.
  - intros A from_str e. unfold verify_signed. cbn [signature raw_data]. rewrite hex_roundtrip by done. cbn [mbind outcome_bind].
    rewrite as_bytes_string by done. rewrite (chain_accepts _ _ _ _ _ Hc Hs). done.
Qed.

(** The files of a production: identity and mapping signed and put together, and the
    policy signed with all of it. *)
Record Names := mkNames {
  identity_file : string; mapping_file : string; ichain_file : string; mchain_file : string;
  base_file : string; collaterals_file : string; servtd_file : string; policy_file : string; pchain_file : string }.

Record production (files : Files) (n : Names) (identity mapping ichain mchain pchain data policy : bytes) : Prop := mkProduction {
  identity_signed : ∃ out, files !! identity_file n = Some out ∧ signed_by "tdIdentity" identity out ichain;
  mapping_signed : ∃ out, files !! mapping_file n = Some out ∧ signed_by "tdTcbMapping" mapping out mchain;
  ichain_there : files !! ichain_file n = Some ichain ∧ bytes_ok ichain;
  mchain_there : files !! mchain_file n = Some mchain ∧ bytes_ok mchain;
  servtd_built : ∃ out, files !! servtd_file n = Some out ∧
    build_servtd_collateral files (identity_file n) (ichain_file n) (mapping_file n) (mchain_file n) = Some out;
  data_built : build_v2_policy_data files (base_file n) (collaterals_file n) (servtd_file n) = Some data;
  policy_signed : files !! policy_file n = Some policy ∧ signed_by "policyData" data policy pchain;
  pchain_there : files !! pchain_file n = Some pchain ∧ is_Some (from_utf8 pchain) }.

Lemma from_utf8_Some b c : from_utf8 b = Some c → c = string_of_bytes b.
Proof. unfold from_utf8. destruct (utf8_valid b); [|done]. by intros [= <-]. Qed.

(** A string written and read again. *)
Lemma string_reread c t u y : to_vec (JString c) = Some t → from_slice t = Some u → to_vec u = Some y → raw_string y = Some c.
Proof. intros Ht Hu Hy. rewrite (from_slice_string _ _ Ht) in Hu. injection Hu as <-. by apply raw_string_written. Qed.

(** The collateral of the service TD as the policy has it. *)
Lemma servtd_reads files idf icf mf mcf ichain mchain fi fm ri rm b v t :
  files !! idf = Some fi → files !! mf = Some fm → files !! icf = Some ichain → files !! mcf = Some mchain →
  reads_raw "tdIdentity" fi ri → (∀ v t, from_slice fi = Some v → to_vec v = Some t → reads_raw "tdIdentity" t ri) →
  reads_raw "tdTcbMapping" fm rm → (∀ v t, from_slice fm = Some v → to_vec v = Some t → reads_raw "tdTcbMapping" t rm) →
  build_servtd_collateral files idf icf mf mcf = Some b → from_slice b = Some v → to_vec v = Some t →
  reads_servtd t ri rm (string_of_bytes ichain) (string_of_bytes mchain).
Proof.
  intros Hi Hm Hic Hmc (mi & ? & ? & Ti & _) Ri (mm & ? & ? & Tm & _) Rm Hb Hv Ht. revert Hb. unfold build_servtd_collateral.
  rewrite Hi, Hm, Hic, Hmc. cbn [mbind option_bind]. rewrite (proj2 (text_members_raw _ _ Ti)), (proj2 (text_members_raw _ _ Tm)). cbn [mbind option_bind].
  destruct (from_utf8 ichain) as [ci|] eqn:Eci; [|done]. destruct (from_utf8 mchain) as [cm|] eqn:Ecm; [|done]. cbn [mbind option_bind].
  apply from_utf8_Some in Eci as ->. apply from_utf8_Some in Ecm as ->.
  destruct (to_vec (JNumber 1)) as [t1|] eqn:E1; [|done]. destruct (to_vec (JNumber 0)) as [t0|] eqn:E0; [|done]. cbn [mbind option_bind].
  destruct (to_vec (JString (string_of_bytes ichain))) as [tci|] eqn:Ei; [|done]. destruct (to_vec (JString (string_of_bytes mchain))) as [tcm|] eqn:Em; [|done].
  cbn [mbind option_bind]. intros [= <-].
  set (l := [("majorVersion", t1); ("minorVersion", t0); ("servtdIdentity", fi); ("servtdIdentityIssuerChain", tci);
    ("servtdTcbMapping", fm); ("servtdTcbMappingIssuerChain", tcm)]%string) in *.
  assert (text_members (object_text l) (list_to_map l)) as Hl.
  { exists l. split_and!; [done|by apply (bool_decide_unpack _)| |done]. repeat constructor; cbn;
    [by eapply raw_value_written..|by eapply text_members_raw|by eapply raw_value_written|by eapply text_members_raw|by eapply raw_value_written]. }
  destruct (reread _ _ _ _ Hl Hv Ht) as (m & Hmt & Hr).
  destruct (Hr "servtdIdentity"%string fi eq_refl) as (u1 & y1 & U1 & Y1 & M1). destruct (Hr "servtdTcbMapping"%string fm eq_refl) as (u2 & y2 & U2 & Y2 & M2).
  destruct (Hr "servtdIdentityIssuerChain"%string tci eq_refl) as (u3 & y3 & U3 & Y3 & M3).
  destruct (Hr "servtdTcbMappingIssuerChain"%string tcm eq_refl) as (u4 & y4 & U4 & Y4 & M4).
  exists m, y1, y2, y3, y4. split_and!; try done; [by eapply Ri|by eapply Rm|by eapply string_reread..].
Qed.

(** The data of the policy holds the collateral of the service TD. *)
Lemma data_reads files basef colf servf b data : files !! servf = Some b → build_v2_policy_data files basef colf servf = Some data →
  ∃ v t m, from_slice b = Some v ∧ to_vec v = Some t ∧ text_members data m ∧ m !! "servtdCollateral" = Some t.
Proof.
  intros Hs. unfold build_v2_policy_data. rewrite Hs. destruct (files !! basef) as [bb|]; [|done]. destruct (files !! colf) as [cb|]; [|done].
  cbn [mbind option_bind]. destruct (from_slice bb) as [base|]; [|done]. cbn [mbind option_bind]. destruct (as_object base) as [l|] eqn:El; [|done].
  cbn [mbind option_bind]. destruct (from_slice cb) as [cv|]; [|done]. destruct (from_slice b) as [v|] eqn:Ev; [|done]. cbn [mbind option_bind]. intros Hd.
  apply as_object_members in El as [_ Hn].
  destruct (object_written _ _ (map_insert_nodup _ v _ (map_insert_nodup _ cv _ Hn)) Hd) as (m & Hm & Hw).
  destruct (Hw "servtdCollateral"%string v) as (t & Ht & Hmt); [rewrite map_insert_lookup; apply lookup_insert_eq|]. by exists v, t, m.
Qed.

(** C22 What the tools produce is accepted: when identity, mapping and policy data were
    signed with keys of their chains and put together by the generators, and all three
    parse and the policy data is valid, the policy is
    read and verified by the migration TD, with exactly the identity and the mapping
    that were signed, and by the verifier. *)
Theorem produced_policy_accepted files n identity mapping ichain mchain pchain data policy pd td tm :
  production files n identity mapping ichain mchain pchain data policy →
  json_policy_data (string_of_bytes data) = Some pd → validate pd = true →
  json_td_identity (string_of_bytes identity) = Some td → json_td_tcb_mapping (string_of_bytes mapping) = Some tm →
  (∃ r, deserialize_from_json policy = Ok r ∧
     verify r pchain = Ok (mkVerified pd td (string_of_bytes ichain) tm (string_of_bytes mchain) (string_of_bytes pchain))) ∧
  policy_verifier files (policy_file n) (pchain_file n) = Some tt.
Proof.
  intros [(fi & Hfi & Si) (fm & Hfm & Sm) [Hic Bi] [Hmc Bm] (b & Hb & Hbuilt) Hdata [Hpol Sp] [Hpc [pc Epc]]] Hpd Hval Htd Htm.
  destruct (signed_by_reads "tdIdentity" _ _ _ ltac:(done) Si) as (ri & Di & Ri & RRi & Vi). destruct (signed_by_reads "tdTcbMapping" _ _ _ ltac:(done) Sm) as (rm & Dm & Rm & RRm & Vm).
  destruct (signed_by_reads "policyData" _ _ _ ltac:(done) Sp) as (r & Dr & Rr & _ & Vr).
  destruct (data_reads _ _ _ _ _ _ Hb Hdata) as (v & t & m & Hv & Ht & Hm & Hmt).
  pose proof (servtd_reads _ _ _ _ _ _ _ _ _ _ _ _ _ _ Hfi Hfm Hic Hmc Ri RRi Rm RRm Hbuilt Hv Ht) as Hs.
  destruct (read_collateral _ _ _ _ _ _ _ _ Hm Hmt Hs Hpd) as (Ei & Eci & Em & Ecm).
  assert (deserialize_from_json policy = Ok r) as Hd by (unfold deserialize_from_json; by rewrite (read_policy _ _ Rr)).
  assert (verify r pchain = Ok (mkVerified pd td (string_of_bytes ichain) tm (string_of_bytes mchain) (string_of_bytes pchain))) as Hver.
  { unfold verify. rewrite Epc. cbn [or_err mbind outcome_bind]. unfold verify_policy_data_signature. rewrite Vr, Hpd. cbn [or_err mbind outcome_bind].
    rewrite Ei, Eci, Em, Ecm. unfold servtd_identity_verify_signature, servtd_tcb_mapping_verify_signature. rewrite !as_bytes_string by done.
    rewrite Vi, Htd. cbn [or_err mbind outcome_bind]. rewrite Vm, Htm. cbn [or_err mbind outcome_bind]. rewrite Hval.
    by apply from_utf8_Some in Epc as ->. }
  split; [by exists r|]. unfold policy_verifier. rewrite Hpol, Hpc. cbn [mbind option_bind]. by rewrite Hd, Hver.
Qed.

(** The verifier accepts what the migration TD starts with. *)
Theorem verifier_agrees `{Attestation} set_ca files policy_path chain_path policy chain st v st' :
  files !! policy_path = Some policy → files !! chain_path = Some chain →
  init_policy set_ca policy chain st = (Ok v, st') → policy_verifier files policy_path chain_path = Some tt.
Proof.
  intros Hp Hc. unfold init_policy, policy_verifier. rewrite Hp, Hc. cbn [mbind option_bind]. unfold liftO. rewrite M_bind_eq.
  destruct (deserialize_from_json policy) as [r|e|]; [|done..]. rewrite M_bind_eq. by destruct (verify r chain).
Qed.
End spec.

(** ** A small JSON *)

(** Texts that spell a value in one way but for blanks in front: strings, numbers, and
    objects whose keys and members have their length in front. *)
Module SmallJson.

Definition byteb (b : Z) : bool := (0 <=? b) && (b <? 256).

(** A text without a blank in front. *)
Definition ok (t : bytes) : bool := forallb byteb t && negb (bool_decide (head t = Some 32)).

Fixpoint strip (b : bytes) : bytes := match b with c :: b' => if c =? 32 then strip b' else b | [] => [] end.

Definition part (x : bytes) : bytes := replicate (length x) 1 ++ 0 :: x.

Fixpoint parts (l : list (string * bytes)) : bytes :=
  match l with [] => [] | (k, t) :: l => part (as_bytes k) ++ part t ++ parts l end.

Fixpoint count (b : bytes) : option (nat * bytes) :=
  match b with
  | 0 :: b => Some (0%nat, b)
  | 1 :: b => p ← count b; Some (S p.1, p.2)
  | _ => None
  end.

Definition take_part (b : bytes) : option (bytes * bytes) :=
  p ← count b; if (p.1 <=? length p.2)%nat then Some (take p.1 p.2, drop p.1 p.2) else None.

Fixpoint read_parts (fuel : nat) (b : bytes) : option (list (string * bytes)) :=
  match b, fuel with
  | [], _ => Some []
  | _, O => None
  | _, S fuel =>
      k ← take_part b;
      t ← take_part k.2;
      l ← read_parts fuel t.2;
      if bool_decide (as_bytes (string_of_bytes k.1) = k.1) && ok t.1 then Some ((string_of_bytes k.1, t.1) :: l) else None
  end.

Definition members (b : bytes) : option (list (string * bytes)) :=
  match b with
  | c :: b => if c =? 123 then l ← read_parts (length b) b; if bool_decide (NoDup l.*1) then Some l else None else None
  | [] => None
  end.

Definition text (v : option bytes) : option bytes := t ← v; if ok t then Some t else None.

Definition object (l : list (string * option bytes)) : option bytes :=
  texts ← mapM (text ∘ snd) l; Some (123 :: parts (zip l.*1 texts)).

Definition values (l : list (string * bytes)) : list (string * option bytes) := (λ kt, (kt.1, Some kt.2)) <$> l.

Definition object_values (v : option bytes) : option (list (string * option bytes)) :=
  match v with Some b => values <$> members b | None => None end.

Definition member_map (b : bytes) : option (gmap string bytes) :=
  match members (strip b) with Some l => Some (list_to_map l) | None => None end.

#[local] Instance small_json : SerdeJson := {
  Value := option bytes;
  Object := object;
  JString s := Some (34 :: as_bytes s);
  JNumber n := Some [35; n];
  as_object := object_values;
  from_slice b := Some (Some (strip b));
  to_vec := text;
  raw_value b := text (Some (strip b));
  raw_members := member_map;
  raw_string b := match b with 34 :: b => Some (string_of_bytes b) | _ => None end;
  object_text l := 123 :: parts l }.

Lemma count_part (x r : bytes) : count (replicate (length x) 1 ++ 0 :: r) = Some (length x, r).
Proof. induction x as [|a x IH]; [done|]. cbn [length replicate app count]. cbn. rewrite IH. done. Qed.

Lemma take_part_part (x r : bytes) : take_part (part x ++ r) = Some (x, r).
Proof.
  unfold take_part, part. rewrite <-app_assoc. cbn [app]. rewrite count_part. cbn. rewrite length_app, (proj2 (Nat.leb_le _ _)) by lia.
  by rewrite take_app_length, drop_app_length.
Qed.

Lemma count_inv b n r : count b = Some (n, r) → b = replicate n 1 ++ 0 :: r.
Proof.
  revert n r. induction b as [|a b IH]; intros n r; [done|]. cbn [count].
  destruct (decide (a = 0)) as [->|H0]; [by intros [= <- <-]|]. destruct (decide (a = 1)) as [->|H1].
  - destruct (count b) as [[m r']|]; [|done]. cbn. intros [= <- <-]. cbn. f_equal. by apply IH.
  - destruct a as [|[| |]|]; done.
Qed.

Lemma take_part_inv b x r : take_part b = Some (x, r) → b = part x ++ r.
Proof.
  unfold take_part. destruct (count b) as [[n y]|] eqn:E; [|done]. cbn. destruct (Nat.leb_spec n (length y)); [|done]. intros [= <- <-].
  apply count_inv in E as ->. unfold part. rewrite length_take, Nat.min_l, <-app_assoc by lia. cbn. by rewrite take_drop.
Qed.

Lemma read_parts_parts l fuel : Forall (λ kt, ok kt.2 = true) l → (length l <= fuel)%nat → read_parts fuel (parts l) = Some l.
Proof.
  intros Hl. revert fuel. induction Hl as [|[k t] l Hk _ IH]; intros fuel Hf; [by destruct fuel|]. destruct fuel as [|fuel]; [cbn in Hf; lia|].
  cbn [parts read_parts]. assert (∃ a r, part (as_bytes k) ++ part t ++ parts l = a :: r) as (a & r & E).
  { unfold part. destruct (as_bytes k); cbn; eauto. }
  rewrite E, <-E. rewrite take_part_part. cbn [mbind option_bind snd fst]. rewrite take_part_part. cbn [mbind option_bind snd fst].
  rewrite (IH fuel) by (cbn in Hf; lia). cbn [mbind option_bind]. cbn in Hk. rewrite string_as_bytes, bool_decide_true, Hk by done. done.
Qed.

Lemma read_parts_inv fuel b l : read_parts fuel b = Some l → b = parts l ∧ Forall (λ kt, ok kt.2 = true) l.
Proof.
  revert b l. induction fuel as [|fuel IH]; intros [|a b] l; cbn [read_parts]; try done; try (by intros [= <-]).
  destruct (take_part (a :: b)) as [[k r]|] eqn:Ek; [|done]. cbn [mbind option_bind snd fst]. destruct (take_part r) as [[t r']|] eqn:Et; [|done].
  cbn [mbind option_bind snd fst]. destruct (read_parts fuel r') as [l'|] eqn:El; [|done]. cbn [mbind option_bind].
  case_bool_decide as Hk; [|done]. destruct (ok t) eqn:Ho; [|done]. intros [= <-]. apply IH in El as [-> Hl].
  apply take_part_inv in Ek as ->. apply take_part_inv in Et as ->. cbn [parts]. rewrite Hk. split; [done|]. by constructor.
Qed.

Lemma length_parts l : (length l <= length (parts l))%nat.
Proof. induction l as [|[k t] l IH]; cbn [parts length]; [done|]. unfold part. rewrite !length_app. cbn. lia. Qed.

Lemma members_parts l : NoDup l.*1 → Forall (λ kt, ok kt.2 = true) l → members (123 :: parts l) = Some l.
Proof.
  intros Hn Hl. cbn [members]. rewrite read_parts_parts by (done || apply length_parts). cbn [mbind option_bind]. by rewrite bool_decide_true.
Qed.

Lemma members_inv b l : members b = Some l → b = 123 :: parts l ∧ NoDup l.*1 ∧ Forall (λ kt, ok kt.2 = true) l.
Proof.
  destruct b as [|a b]; [done|]. cbn [members]. destruct (Z.eqb_spec a 123) as [->|Ha]; [|done]. destruct (read_parts _ b) as [l'|] eqn:E; [|done].
  cbn [mbind option_bind]. case_bool_decide as Hn; [|done]. intros [= <-]. by apply read_parts_inv in E as [-> ?].
Qed.

Lemma bytes_spec t : forallb byteb t = true ↔ bytes_ok t.
Proof.
  unfold bytes_ok. induction t as [|b t IH]; [done|]. cbn [forallb]. rewrite andb_true_iff, IH, Forall_cons. unfold byteb, in_u.
  rewrite andb_true_iff, Z.leb_le, Z.ltb_lt. done.
Qed.

Lemma ok_spec t : ok t = true ↔ bytes_ok t ∧ head t ≠ Some 32.
Proof. unfold ok. by rewrite andb_true_iff, bytes_spec, negb_true_iff, bool_decide_eq_false. Qed.

Lemma strip_ok t : ok t = true → strip t = t.
Proof. intros [_ Hh]%ok_spec. destruct t as [|a t]; [done|]. cbn [strip]. destruct (Z.eqb_spec a 32) as [->|Ha]; [by destruct Hh|done]. Qed.

Lemma text_Some v t : text v = Some t ↔ v = Some t ∧ ok t = true.
Proof.
  unfold text. destruct v as [b|]; cbn; [|by split; [|intros [? _]]]. destruct (ok b) eqn:E; split; [by intros [= <-]|by intros [[= <-] _]|done|].
  intros [[= <-] H]. congruence.
Qed.

Lemma raw_ok t : text (Some (strip t)) = Some t ↔ ok t = true.
Proof. rewrite text_Some. split; [by intros [? ?]|]. intros Ho. by rewrite strip_ok. Qed.

Lemma part_bytes x : bytes_ok x → bytes_ok (part x).
Proof.
  intros Hx. unfold part, bytes_ok. apply Forall_app. split; [apply Forall_replicate; unfold in_u; lia|]. by constructor; [unfold in_u; lia|].
Qed.

Lemma parts_ok l : Forall (λ kt, ok kt.2 = true) l → ok (123 :: parts l) = true.
Proof.
  intros Hl. apply ok_spec. split; [|done]. constructor; [unfold in_u; lia|]. induction Hl as [|[k t] l Hk _ IH]; [constructor|]. cbn [parts].
  apply Forall_app. split; [apply part_bytes, as_bytes_ok|]. apply Forall_app. split; [|done]. by apply part_bytes, ok_spec.
Qed.

Lemma texts_ok (l : list (string * option bytes)) texts : mapM (text ∘ snd) l = Some texts → Forall (λ kt, ok kt.2 = true) (zip l.*1 texts).
Proof.
  intros E%mapM_Some. induction E as [|[k v] t l texts Hv _ IH]; cbn; [done|]. constructor; [by apply text_Some in Hv as [_ ?]|done].
Qed.

Lemma values_text l : Forall (λ kt, ok kt.2 = true) l → object (values l) = Some (123 :: parts l).
Proof.
  intros Hl. unfold object. assert (mapM (text ∘ snd) (values l) = Some l.*2) as ->.
  { unfold values. induction Hl as [|[k t] l Hk _ IH]; [done|]. cbn in *. rewrite Hk. cbn. by rewrite IH. }
  cbn. unfold values. rewrite <-list_fmap_compose. do 3 f_equal. induction l as [|[k t] l IH]; [done|]. cbn. f_equal. apply IH. by inversion Hl.
Qed.

Lemma lookup_values l k : (list_to_map (values l) : gmap string (option bytes)) !! k = Some <$> (list_to_map l : gmap string bytes) !! k.
Proof.
  induction l as [|[k' t] l IH]; [done|]. cbn. destruct (decide (k = k')) as [->|Hk]; [by rewrite !lookup_insert_eq|]. by rewrite !lookup_insert_ne.
Qed.

Lemma lookup_ok l k t : Forall (λ kt, ok kt.2 = true) l → (list_to_map l : gmap string bytes) !! k = Some t → ok t = true.
Proof.
  induction 1 as [|[k' t'] l Hk _ IH]; [done|]. cbn. destruct (decide (k = k')) as [->|Hn]; [rewrite lookup_insert_eq; by intros [= <-]|].
  by rewrite lookup_insert_ne.
Qed.

Lemma raws_ok l : Forall (λ kt : string * bytes, raw_value kt.2 = Some kt.2) l → Forall (λ kt, ok kt.2 = true) l.
Proof. intros H. eapply Forall_impl; [exact H|]. intros kt. apply raw_ok. Qed.

#[local] Instance small_json_laws : SerdeJsonLaws.
Proof.
  split.
  - intros l. change (text (object l) = texts ← mapM (text ∘ snd) l; Some (123 :: parts (zip l.*1 texts))). unfold object.
    destruct (mapM (text ∘ snd) l) as [texts|] eqn:E; [|done].
    change (text (Some (123 :: parts (zip l.*1 texts))) = Some (123 :: parts (zip l.*1 texts))). apply text_Some. split; [done|]. by apply parts_ok, texts_ok.
  - intros l Hn Hl%raws_ok. cbn. unfold member_map. rewrite strip_ok by (by apply parts_ok). by rewrite members_parts.
  - intros l _ Hl%raws_ok. by apply raw_ok, parts_ok.
  - intros v t [_ Ho]%text_Some. split; [by apply ok_spec|by apply raw_ok].
  - intros s t [[= <-] _]%text_Some. cbn. by rewrite string_as_bytes.
  - intros s t [[= <-] Ho]%text_Some. cbn. done.
  - intros b v m. cbn. intros [= <-]. unfold member_map. destruct (members (strip b)) as [l|] eqn:E; [|done]. intros [= <-].
    apply members_inv in E as (-> & Hn & Hl). exists (values l). split_and!; [by rewrite values_text|unfold values; by rewrite <-list_fmap_compose|].
    intros k. rewrite lookup_values. destruct (list_to_map l !! k) as [t|] eqn:Et; [|done]. exists (Some t). split; [|done].
    by rewrite strip_ok by (by eapply lookup_ok).
  - intros [b|] l; [|done]. cbn. destruct (members b) as [l'|] eqn:E; [|done]. cbn. intros [= <-]. apply members_inv in E as (-> & Hn & Hl).
    split; [by rewrite values_text|]. unfold values. by rewrite <-list_fmap_compose.
Qed.
End SmallJson.

(** ** A concrete production *)

Module ToolSample.
Import SmallJson.
#[local] Existing Instances small_json small_json_laws.
#[local] Existing Instance x509_policy_crypto.

(** Signatures that name the key and the text. *)
#[local, refine] Instance ring : Ring := {
  sha384 d := take 48 (d ++ zeros 48); generate_pkcs8 r := Some [r]; key_public k := Some k;
  key_sign _ k d := if forallb byteb (k ++ d) then Some (1 :: k ++ d) else None;
  ring_verify _ pk d s := bool_decide (s = 1 :: pk ++ d) }.
Proof.
  - intros d. unfold lenz. rewrite length_take, length_app, length_zeros. lia.
  - intros r k pk d s [= <-]. destruct (forallb byteb (k ++ d)); [|done]. intros [= <-]. by rewrite bool_decide_true.
Defined.

Lemma signatures_bytes r k d s : key_sign r k d = Some s → bytes_ok s ∧ s ≠ [].
Proof.
  cbn. destruct (forallb byteb (k ++ d)) eqn:E; [|done]. intros [= <-]. split; [|done]. constructor; [unfold in_u; lia|by apply bytes_spec].
Qed.

#[local] Instance keys : KeyFiles := {
  certificate_from_pem _ := None; private_key_from_pem := Some; spki_from_pem _ := None;
  spki_from_der b := Some (mkSpki (mkAlg [] None) (mkBits 0 b)) }.

#[local] Instance der : Der := RaTlsSpec.Demo.codec [([2], RaTlsSpec.Demo.root_cert)].

Definition raw_signed (field : string) (b : bytes) : option RawSigned :=
  m ← raw_members b; d ← m !! field; s ← m !! SIGNATURE_KEY; sig ← raw_string s; Some (mkRaw (string_of_bytes d) sig).

Definition policy_data_of (b : bytes) : option PolicyData :=
  m ← raw_members b; c ← m !! "servtdCollateral"; m ← raw_members c;
  ri ← (t ← m !! "servtdIdentity"; raw_signed "tdIdentity" t); rm ← (t ← m !! "servtdTcbMapping"; raw_signed "tdTcbMapping" t);
  ci ← (t ← m !! "servtdIdentityIssuerChain"; raw_string t); cm ← (t ← m !! "servtdTcbMappingIssuerChain"; raw_string t);
  Some (mkPolicyData "id" "2.0" 1 None None None MigPolicySpec.Demo.collaterals (mkServtdCollateral 1 0 ci ri cm rm)).

#[local] Instance json : PolicyJson := {
  json_raw_policy := raw_signed "policyData"; json_policy_data s := policy_data_of (as_bytes s);
  json_td_identity _ := Some MigPolicySpec.Demo.identity; json_td_tcb_mapping _ := Some MigPolicySpec.Demo.mapping;
  json_tcb_evaluation_data_number _ := None }.

Lemma reads_raw_signed field b r : reads_raw field b r → raw_signed field b = Some r.
Proof.
  intros (m & d & s & [Hm _]%text_members_raw & Hd & Hs & Er & Es). unfold raw_signed. rewrite Hm. cbn [mbind option_bind]. rewrite Hd. cbn [mbind option_bind].
  rewrite Hs. cbn [mbind option_bind]. rewrite Es, <-Er. cbn [mbind option_bind]. by destruct r.
Qed.

Lemma text_members_bytes b m : text_members b m → bytes_ok b.
Proof. intros [_ Hr]%text_members_raw. by apply raw_ok, ok_spec in Hr as [? _]. Qed.

Lemma reads_collateral b m pd c ri rm ci cm : text_members b m → m !! "servtdCollateral" = Some c → reads_servtd c ri rm ci cm →
  json_policy_data (string_of_bytes b) = Some pd →
  let sc := servtd_collateral pd in
  sc_servtd_identity sc = ri ∧ servtd_identity_issuer_chain sc = ci ∧ sc_servtd_tcb_mapping sc = rm ∧ servtd_tcb_mapping_issuer_chain sc = cm.
Proof.
  intros Hb Hc (m' & ti & tm & tci & tcm & [Hm' _]%text_members_raw & Hti & Ri%reads_raw_signed & Htm & Rm%reads_raw_signed & Hci & Sci & Hcm & Scm).
  change (json_policy_data (string_of_bytes b)) with (policy_data_of (as_bytes (string_of_bytes b))).
  rewrite as_bytes_string by (by eapply text_members_bytes). unfold policy_data_of.
  rewrite (proj1 (text_members_raw _ _ Hb)). cbn [mbind option_bind]. rewrite Hc. cbn [mbind option_bind]. rewrite Hm'. cbn [mbind option_bind].
  rewrite Hti. cbn [mbind option_bind]. rewrite Ri. cbn [mbind option_bind]. rewrite Htm. cbn [mbind option_bind]. rewrite Rm. cbn [mbind option_bind].
  rewrite Hci. cbn [mbind option_bind]. rewrite Sci. cbn [mbind option_bind]. rewrite Hcm. cbn [mbind option_bind]. rewrite Scm. cbn [mbind option_bind].
  by intros [= <-].
Qed.

Definition made (r : JResult bytes) : bytes := match r with Ok b => b | _ => [] end.

Definition identity : bytes := Eval vm_compute in 34 :: as_bytes "MigTD".
Definition mapping : bytes := Eval vm_compute in 34 :: as_bytes "SVN".
Definition chain : bytes := Eval vm_compute in as_bytes "chain".
Definition signed_identity : bytes := Eval vm_compute in made (json_sign 0 "tdIdentity" identity [3]).
Definition signed_mapping : bytes := Eval vm_compute in made (json_sign 0 "tdTcbMapping" mapping [3]).
Definition names : Names := mkNames "identity" "mapping" "chain" "chain" "base" "collaterals" "servtd" "policy" "chain".

Definition inputs : Files := list_to_map
  [("identity", signed_identity); ("mapping", signed_mapping); ("chain", chain); ("base", [123]); ("collaterals", [34; 99])]%string.
Definition servtd : bytes := Eval vm_compute in default [] (build_servtd_collateral inputs "identity" "chain" "mapping" "chain").
Definition data : bytes := Eval vm_compute in default [] (build_v2_policy_data (<["servtd"%string := servtd]> inputs) "base" "collaterals" "servtd").
Definition policy : bytes := Eval vm_compute in made (json_sign 0 "policyData" data [3]).
Definition files : Files := <["policy"%string := policy]> (<["servtd"%string := servtd]> inputs).

Lemma chain_key : chain_of_key chain [3].
Proof. exists [2], [], RaTlsSpec.Demo.root_cert, [3]. vm_compute. done. Qed.

Lemma produced : production files names identity mapping chain chain chain data policy.
Proof.
  split.
  - exists signed_identity. split; [by vm_compute|]. exists 0, [3], [3]. split_and!; [by vm_compute|done|apply chain_key].
  - exists signed_mapping. split; [by vm_compute|]. exists 0, [3], [3]. split_and!; [by vm_compute|done|apply chain_key].
  - split; [by vm_compute|]. by apply bytes_spec.
  - split; [by vm_compute|]. by apply bytes_spec.
  - exists servtd. split; by vm_compute.
  - by vm_compute.
  - split; [by vm_compute|]. exists 0, [3], [3]. split_and!; [by vm_compute|done|apply chain_key].
  - split; [by vm_compute|]. vm_compute. eauto.
Qed.

Definition pd : PolicyData := Eval vm_compute in default MigPolicySpec.Demo.data (policy_data_of data).

Lemma produced_policy_accepted_witness : policy_verifier files "policy" "chain" = Some tt.
Proof.
  apply (produced_policy_accepted (J := json) (D := der) signatures_bytes (reads_raw_signed "policyData") reads_collateral files names identity mapping chain chain chain data policy
    pd MigPolicySpec.Demo.identity MigPolicySpec.Demo.mapping produced); by vm_compute.
Defined.

(** A detached signature of a text that starts with a blank is good for the text; put into
    an object it is not, because the text is written again. *)
Lemma finalize_drops_signature :
  let data := 32 :: identity in
  json_verify data [3] (made (json_sign_detached 0 data [3])) = Ok tt ∧
  json_verify_from_signed "tdIdentity" (made (json_set_signature "tdIdentity" data (made (json_sign_detached 0 data [3])))) [3] = Err JsonError.Verify.
Proof. split; by vm_compute. Qed.

(** An object named as the signature is written with one member. *)
Lemma name_signature_refused : json_verify_from_signed SIGNATURE_KEY (made (json_sign 0 SIGNATURE_KEY identity [3])) [3] = Err JsonError.InvalidSignedJson.
Proof. by vm_compute. Qed.

(** A signature with a character of two bytes aborts the tool; the policy crate
    refuses it. *)
Lemma signature_char_aborts : hex_string_to_bytes (string_of_bytes [48; 195; 169; 48]) = Panic ∧
  PolicyV2.hex_string_to_bytes (string_of_bytes [48; 195; 169; 48]) = Err PolicyError.InvalidParameter.
Proof. split; by vm_compute. Qed.
End ToolSample.
