(* ===== verification/CollateralTool.v ===== *)
(** * CollateralTool: fetching the collateral of a policy

    tools/migtd-collateral-generator: collateral.rs (PEM, the collaterals), pcs_client.rs
    (requests with retries, what is made of the answers) and lib.rs (addresses of the
    services).  The client of HTTP is a script of answers, the parsers of certificates
    and of JSON and percent decoding are arguments; what is printed is left out.

    The second half shows that the collateral is what was fetched: PEM texts of the
    generator decode to what was encoded, the root of a chain of such texts is found,
    requests are made a bounded number of times, and the collaterals hold exactly the
    platforms that were answered for, where the policy (PolicyV2) finds them. *)
From stdpp Require Import base tactics numbers option strings list list_numbers sets.
From S2P Require Import Prelude PolicyV2 PolicyV2Spec Quote.
Local Open Scope Z_scope.

(** ** Base64 and PEM (collateral.rs) *)

Definition CHARS : bytes := Eval vm_compute in as_bytes "ABCDEFGHIJKLMNOPQRSTUVWXYZabcdefghijklmnopqrstuvwxyz0123456789+/".

(** [CHARS[i as usize] as char]: the index is below 64. *)
Definition char_at (i : Z) : Z := default 0 (CHARS !! Z.to_nat i).

(** One round of the loop: three bytes, of which the last [3 - n] are not there. *)
Definition base64_group (b1 b2 b3 : Z) (n : nat) : bytes :=
  let bitmap := Z.lor (Z.lor (Z.shiftl b1 16) (Z.shiftl b2 8)) b3 in
  [char_at (Z.land (Z.shiftr bitmap 18) 63); char_at (Z.land (Z.shiftr bitmap 12) 63);
   (if (2 <=? n)%nat then char_at (Z.land (Z.shiftr bitmap 6) 63) else 61);
   (if (3 <=? n)%nat then char_at (Z.land bitmap 63) else 61)].

Fixpoint base64_encode (input : bytes) : bytes :=
  match input with
  | [] => []
  | [b1] => base64_group b1 0 0 1
  | [b1; b2] => base64_group b1 b2 0 2
  | b1 :: b2 :: b3 :: input => base64_group b1 b2 b3 3 ++ base64_encode input
  end.

(** [chunks(n)]: each but the last has [n] elements. *)
Fixpoint line_chunks_ (fuel n : nat) (l : bytes) : list bytes :=
  match fuel, l with
  | S fuel, _ :: _ => take n l :: line_chunks_ fuel n (drop n l)
  | _, _ => []
  end.

Definition line_chunks (n : nat) (l : bytes) : list bytes := line_chunks_ (length l) n l.

(** [join] *)
Fixpoint join (sep : bytes) (l : list bytes) : bytes :=
  match l with
  | [] => []
  | [x] => x
  | x :: l => x ++ sep ++ join sep l
  end.

Definition der_to_pem (der_bytes label : bytes) : bytes :=
  let lines := line_chunks 64 (base64_encode der_bytes) in
  as_bytes "-----BEGIN " ++ label ++ as_bytes "-----" ++ [10] ++ join [10] lines ++ [10] ++ as_bytes "-----END " ++ label ++ as_bytes "-----".

(** The white space of Unicode at the front, as [trim] removes it. *)
Fixpoint trim_start (s : bytes) : bytes :=
  match s with
  | a :: s1 =>
      if between 9 13 a || (a =? 32) then trim_start s1
      else
        match s1 with
        | b :: s2 =>
            if (a =? 0xC2) && ((b =? 0x85) || (b =? 0xA0)) then trim_start s2
            else
              match s2 with
              | c :: s3 =>
                  if ((a =? 0xE1) && (b =? 0x9A) && (c =? 0x80)) ||
                     ((a =? 0xE2) && (b =? 0x80) && (between 0x80 0x8A c || (c =? 0xA8) || (c =? 0xA9) || (c =? 0xAF))) ||
                     ((a =? 0xE2) && (b =? 0x81) && (c =? 0x9F)) || ((a =? 0xE3) && (b =? 0x80) && (c =? 0x80))
                  then trim_start s3 else s
              | [] => s
              end
        | [] => s
        end
  | [] => []
  end.

Definition starts_with (s prefix : bytes) : bool := bool_decide (take (length prefix) s = prefix).

(** What [trim] removes at the end does not matter. *)
Definition is_pem_format (data : bytes) : bool :=
  match from_utf8 data with
  | Some _ => starts_with (trim_start data) (as_bytes "-----BEGIN")
  | None => false
  end.

(** ** The root of a chain (collateral.rs) *)

(** [str::find] *)
Fixpoint find_sub (needle s : bytes) : option nat :=
  if starts_with s needle then Some 0%nat
  else match s with [] => None | _ :: s => S <$> find_sub needle s end.

Definition begin_marker : bytes := Eval vm_compute in as_bytes "-----BEGIN CERTIFICATE-----".
Definition end_marker : bytes := Eval vm_compute in as_bytes "-----END CERTIFICATE-----".

(** [while let Some(begin) = chain[start..].find(begin_marker)], on the rest of the chain;
    a certificate starts and ends with its markers, so [trim] leaves it as it is. *)
Fixpoint certs_loop (fuel : nat) (rest : bytes) : list bytes :=
  match fuel with
  | O => []
  | S fuel =>
      match find_sub begin_marker rest with
      | None => []
      | Some begin =>
          match find_sub end_marker (drop begin rest) with
          | None => []
          | Some end_ =>
              let end_ := (end_ + length end_marker)%nat in
              take end_ (drop begin rest) :: certs_loop fuel (drop end_ (drop begin rest))
          end
      end
  end.

Definition certs_of (chain : bytes) : list bytes := certs_loop (length chain) chain.

(** x509_parser: names of a distribution point; a relative name as it is formatted. *)
Inductive GeneralName := URI (uri : string) | OtherName.
Inductive DistributionPointName := FullName (general_names : list GeneralName) | NameRelativeToCRLIssuer (formatted : string).

(** [parse_x509_pem], the extensions of a certificate (whether it is the one of the
    distribution points, and its value) and the points. *)
Class X509Parser := {
  parse_x509_pem : bytes → option bytes;
  x509_extensions : bytes → option (list (bool * bytes));
  crl_distribution_points : bytes → option (list (option DistributionPointName)) }.

Section certificates.
Context `{X509Parser}.

Definition point_urls (p : option DistributionPointName) : list string :=
  match p with
  | Some (FullName general_names) => omap (λ n, match n with URI uri => Some uri | OtherName => None end) general_names
  | Some (NameRelativeToCRLIssuer rdn_string) => if bool_decide (rdn_string = EmptyString) then [] else [rdn_string]
  | None => []
  end.

Fixpoint extension_urls (exts : list (bool * bytes)) : option (list string) :=
  match exts with
  | [] => Some []
  | (is_points, value) :: exts =>
      urls ← (if is_points : bool then points ← crl_distribution_points value; Some (concat (point_urls <$> points)) else Some []);
      more ← extension_urls exts;
      Some (urls ++ more)
  end.

Definition crl_urls (cert_der : bytes) : option (list string) := exts ← x509_extensions cert_der; extension_urls exts.

Definition crl_urls_from_pem (pem_cert : bytes) : option (list string) := contents ← parse_x509_pem pem_cert; crl_urls contents.

Definition get_root_ca_crl_url (qe_identity_issuer_chain : bytes) : option string :=
  cert ← certs_of qe_identity_issuer_chain !! 1%nat;
  urls ← crl_urls_from_pem cert;
  head urls.
End certificates.

(** ** Requests (pcs_client.rs) *)

Definition INITIAL_RETRY_DELAY_SECS : Z := 10.
Definition MAX_RETRY_DELAY_SECS : Z := 180.
Definition MAX_PCS_RESPONSE_SIZE : Z := 16 * 1024 * 1024.

Record PcsResponse := mkPcsResponse { response_code : Z; header_map : list (string * string); pr_data : bytes }.

(** What the client gets: an error, or a status, the headers ([None] is a value that is
    not text) and the chunks of the body, which may end in an error. *)
Inductive http_answer := HttpFailed | HttpAnswer (status : Z) (headers : list (string * option string)) (chunks : list bytes) (complete : bool).

(** [while let Some(chunk) = response.chunk().await?] *)
Fixpoint body_loop (data : bytes) (chunks : list bytes) (complete : bool) : option bytes :=
  match chunks with
  | [] => if complete then Some data else None
  | chunk :: chunks => if MAX_PCS_RESPONSE_SIZE <? lenz data + lenz chunk then None else body_loop (data ++ chunk) chunks complete
  end.

(** [HashMap::insert]: a repeated header replaces the one before. *)
Fixpoint insert_header (k v : string) (m : list (string * string)) : list (string * string) :=
  match m with
  | [] => [(k, v)]
  | (k', v') :: m => if bool_decide (k = k') then (k, v) :: m else (k', v') :: insert_header k v m
  end.

Fixpoint headers_loop (m : list (string * string)) (headers : list (string * option string)) : option (list (string * string)) :=
  match headers with
  | [] => Some m
  | (k, value) :: headers => v ← value; headers_loop (insert_header k v m) headers
  end.

Definition send_request (a : http_answer) : option PcsResponse :=
  match a with
  | HttpFailed => None
  | HttpAnswer status headers chunks complete =>
      if ((500 <=? status) && (status <? 600)) || (status =? 429) || (status =? 408) then None
      else
        header_map ← headers_loop [] headers;
        data ← body_loop [] chunks complete;
        Some (mkPcsResponse status header_map data)
  end.

(** The answers still to come and the delays made; a script that has ended fails. *)
Record HttpWorld := mkHttp { h_answers : list http_answer; h_delays : list Z }.

Definition next_answer : M HttpWorld unit (option PcsResponse) := λ w,
  match h_answers w with
  | a :: l => (Ok (send_request a), mkHttp l (h_delays w))
  | [] => (Ok None, w)
  end.

(** The loop ends when the delay has passed its bound. *)
Fixpoint fetch_loop (fuel : nat) (delay : Z) : M HttpWorld (aerr unit) PcsResponse :=
  match fuel with
  | O => failM OutOfFuel
  | S fuel => λ w,
      match next_answer w with
      | (Ok (Some response), w) => (Ok response, w)
      | (_, w) =>
          if MAX_RETRY_DELAY_SECS <? delay then (Err (Failed tt), w)
          else fetch_loop fuel (delay * 2) (mkHttp (h_answers w) (h_delays w ++ [delay]))
      end
  end.

(** Six rounds reach a delay of 320 seconds. *)
Definition FETCH_ROUNDS : nat := 6.

Definition fetch_data_from_url : M HttpWorld (aerr unit) PcsResponse := fetch_loop FETCH_ROUNDS INITIAL_RETRY_DELAY_SECS.

(** [to_lowercase] of an ASCII text, as the names of headers are. *)
Definition lower_char (c : Ascii.ascii) : Ascii.ascii :=
  let n := Ascii.N_of_ascii c in
  if (65 <=? n)%N && (n <=? 90)%N then Ascii.ascii_of_N (n + 32) else c.

Fixpoint to_lower (s : string) : string :=
  match s with EmptyString => EmptyString | String.String c s => String.String (lower_char c) (to_lower s) end.

Definition remove_header_case_insensitive (headers : list (string * string)) (target_key : string) : option string :=
  h ← head (filter (λ h, to_lower h.1 = to_lower target_key) headers); Some h.2.

(** ** What is fetched (pcs_client.rs, lib.rs) *)

Definition PCK_CRL_ISSUER_CHAIN : string := "SGX-PCK-CRL-Issuer-Chain".
Definition QE_IDENTITY_ISSUER_CHAIN : string := "SGX-Enclave-Identity-Issuer-Chain".
Definition TCB_INFO_ISSUER_CHAIN : string := "TCB-Info-Issuer-Chain".

Definition INTEL_PCS_BASE_URL_PRODUCTION : string := "https://api.trustedservices.intel.com/".
Definition INTEL_PCS_BASE_URL_SANDBOX : string := "https://sbx.api.trustedservices.intel.com/".
Definition INTEL_ROOT_CA_URL : string := "https://certificates.trustedservices.intel.com/Intel_SGX_Provisioning_Certification_RootCA.cer".
Definition INTEL_ROOT_CA_URL_SBX : string := "https://sbx-certificates.trustedservices.intel.com/Intel_SGX_Provisioning_Certification_RootCA.cer".

(** [PcsConfig]: the addresses of a service. *)
Record PcsConfig := mkPcsConfig { get_base_url : string; get_base_url_pck_crl : string; get_base_url_fmspc_list : string; get_root_ca_url : string }.

Definition IntelPcsConfig (for_production : bool) : PcsConfig :=
  let base := if for_production then INTEL_PCS_BASE_URL_PRODUCTION else INTEL_PCS_BASE_URL_SANDBOX in
  mkPcsConfig base base base (if for_production then INTEL_ROOT_CA_URL else INTEL_ROOT_CA_URL_SBX).

Definition AzureThimConfig (region : string) : PcsConfig :=
  let intel_config := IntelPcsConfig true in
  let base := ("https://" +:+ region +:+ ".thim.azure.net")%string in
  mkPcsConfig base base (get_base_url_fmspc_list intel_config) (get_root_ca_url intel_config).

(** [PcsRequest] *)
Definition PcsRequest_new (base_url path : string) : string := (base_url +:+ "/" +:+ path)%string.

Definition add_param (url key value : string) : string :=
  let sep := if bool_decide (63 ∈ as_bytes url) then "&"%string else "?"%string in
  (url +:+ sep +:+ key +:+ "=" +:+ value)%string.

Record Fmspc := mkFmspc { fm_fmspc : string; fm_platform : string }.

Definition is_tdx_supported (f : Fmspc) : bool := bool_decide (fm_platform f = "E5"%string).

Definition get_tdx_supported_platforms (l : list Fmspc) : list Fmspc := filter (λ p, is_tdx_supported p = true) l.

Record PlatformTcbRaw := mkPlatformTcbRaw { pt_fmspc : string; pt_tcb : bytes; pt_tcb_issuer_chain : string }.

Section fetch.
(** [fetch] is the result of [fetch_data_from_url] for an address; the joined requests
    are made in some order, and the first error is the error of all. *)
Context `{X509Parser} (fetch : string → option PcsResponse).
Context (percent_decode : string → option string) (json_fmspcs : bytes → option (list Fmspc)).
Context (config : PcsConfig).

(** The body and the decoded chain of a header. *)
Definition with_chain (r : PcsResponse) (header : string) : option (bytes * string) :=
  issuer_chain ← remove_header_case_insensitive (header_map r) header;
  chain ← percent_decode issuer_chain;
  Some (pr_data r, chain).

Definition fetch_pck_crl : option (bytes * string) :=
  let req := PcsRequest_new (get_base_url_pck_crl config) "sgx/certification/v4/pckcrl" in
  let req := add_param req "ca" "platform" in
  let req := add_param req "encoding" "der" in
  pcs_response ← fetch req;
  if response_code pcs_response =? 200 then with_chain pcs_response PCK_CRL_ISSUER_CHAIN else None.

Definition fetch_plain (url : string) : option bytes :=
  pcs_response ← fetch url;
  if response_code pcs_response =? 200 then Some (pr_data pcs_response) else None.

Definition fetch_root_ca : option bytes := fetch_plain (get_root_ca_url config).
Definition fetch_root_ca_crl (root_ca_url : string) : option bytes := fetch_plain root_ca_url.

Definition fetch_qe_identity : option (bytes * string) :=
  let req := PcsRequest_new (get_base_url config) "tdx/certification/v4/qe/identity" in
  pcs_response ← fetch req;
  if response_code pcs_response =? 200 then with_chain pcs_response QE_IDENTITY_ISSUER_CHAIN else None.

Definition fetch_fmspc_list : option (list Fmspc) :=
  let req := PcsRequest_new (get_base_url_fmspc_list config) "sgx/certification/v4/fmspcs" in
  pcs_response ← fetch req;
  if response_code pcs_response =? 200 then json_fmspcs (pr_data pcs_response) else None.

(** A platform without TCB information is left out. *)
Definition fetch_platform_tcb (fmspc : string) : option (option (bytes * string)) :=
  let req := add_param (PcsRequest_new (get_base_url config) "tdx/certification/v4/tcb") "fmspc" fmspc in
  pcs_response ← fetch req;
  if response_code pcs_response =? 200 then Some <$> with_chain pcs_response TCB_INFO_ISSUER_CHAIN else Some None.

(** One task of the list. *)
Definition platform_entry (platform : Fmspc) : option (option PlatformTcbRaw) :=
  match fetch_platform_tcb (fm_fmspc platform) with
  | Some (Some (tcb, tcb_issuer_chain)) => Some (Some (mkPlatformTcbRaw (fm_fmspc platform) tcb tcb_issuer_chain))
  | Some None => Some None
  | None => None
  end.

Definition get_platform_tcb_list : option (list PlatformTcbRaw) :=
  fmspc_list ← fetch_fmspc_list;
  results ← mapM platform_entry (get_tdx_supported_platforms fmspc_list);
  Some (omap (λ entry, entry) results).

(** ** The collaterals (collateral.rs) *)

(** The texts of the structure are those of the policy crate. *)
Definition Collaterals_new (root_ca : bytes) (pck_crl_issuer_chain : string) (root_ca_crl pck_crl : bytes)
    (qe_identity_issuer_chain : string) (qe_identity : bytes) : option Collaterals :=
  let root_ca := der_to_pem root_ca (as_bytes "CERTIFICATE") in
  let root_ca_crl := der_to_pem root_ca_crl (as_bytes "X509 CRL") in
  pck_crl ← (if negb (is_pem_format pck_crl) then Some (string_of_bytes (der_to_pem pck_crl (as_bytes "X509 CRL"))) else from_utf8 pck_crl);
  qe_identity ← from_utf8 qe_identity;
  Some (mkCollaterals 1 0 0x81 (string_of_bytes root_ca) pck_crl_issuer_chain (string_of_bytes root_ca_crl) pck_crl [] qe_identity_issuer_chain qe_identity).

Definition add_platform (c : Collaterals) (platform : PlatformTcbRaw) : option Collaterals :=
  tcb_info ← from_utf8 (pt_tcb platform);
  let platform := mkPlatform (pt_fmspc platform) (pt_tcb_issuer_chain platform) tcb_info in
  Some (mkCollaterals (cs_major_version c) (cs_minor_version c) (cs_tee_type c) (cs_root_ca c) (cs_pck_crl_issuer_chain c)
          (cs_root_ca_crl c) (cs_pck_crl c) (cs_platforms c ++ [platform]) (cs_qe_identity_issuer_chain c) (cs_qe_identity c)).

Fixpoint platform_loop (c : Collaterals) (platform_tcb_list : list PlatformTcbRaw) : option Collaterals :=
  match platform_tcb_list with
  | [] => Some c
  | p :: l => c ← add_platform c p; platform_loop c l
  end.

Definition get_collateral : option Collaterals :=
  qe ← fetch_qe_identity;
  let '(qe_identity, qe_identity_issuer_chain) := qe in
  root_ca_crl_url ← get_root_ca_crl_url (as_bytes qe_identity_issuer_chain);
  root_ca_crl ← fetch_root_ca_crl root_ca_crl_url;
  root_ca ← fetch_root_ca;
  crl ← fetch_pck_crl;
  let '(pck_crl, pck_crl_issuer_chain) := crl in
  platform_tcb_list ← get_platform_tcb_list;
  collaterals ← Collaterals_new root_ca pck_crl_issuer_chain root_ca_crl pck_crl qe_identity_issuer_chain qe_identity;
  platform_loop collaterals platform_tcb_list.
End fetch.

(** ** Base64 decodes *)

(** Decoding, as RFC 4648 has it. *)
Definition value_of (c : Z) : option Z := (λ p, Z.of_nat p.1) <$> list_find (λ x, x = c) CHARS.

Definition decode_group (c1 c2 c3 c4 : Z) : option bytes :=
  v1 ← value_of c1; v2 ← value_of c2;
  if c3 =? 61 then Some [(v1 * 64 + v2) / 16]
  else
    v3 ← value_of c3;
    if c4 =? 61 then Some [(v1 * 64 + v2) / 16; ((v1 * 64 + v2) * 64 + v3) / 4 mod 256]
    else
      v4 ← value_of c4;
      let n := ((v1 * 64 + v2) * 64 + v3) * 64 + v4 in
      Some [n / 65536; n / 256 mod 256; n mod 256].

Fixpoint base64_decode (s : bytes) : option bytes :=
  match s with
  | [] => Some []
  | c1 :: c2 :: c3 :: c4 :: s => g ← decode_group c1 c2 c3 c4; l ← base64_decode s; Some (g ++ l)
  | _ => None
  end.

(** The characters of the alphabet are told apart from each other, and from padding,
    ends of lines and dashes. *)
Lemma char_at_spec i : 0 <= i < 64 → value_of (char_at i) = Some i ∧ char_at i ≠ 61 ∧ char_at i ≠ 10 ∧ char_at i ≠ 45 ∧ in_u 8 (char_at i).
Proof.
  intros Hi. assert (Forall (λ i, value_of (char_at i) = Some i ∧ char_at i ≠ 61 ∧ char_at i ≠ 10 ∧ char_at i ≠ 45 ∧ 0 <= char_at i < 256) (seqZ 0 64)) as H.
  { apply (bool_decide_unpack _). vm_compute. exact I. }
  rewrite Forall_forall in H. destruct (H i) as (? & ? & ? & ? & ?); [apply elem_of_seqZ; lia|]. by split_and!.
Qed.

Lemma bitmap_eq b1 b2 b3 : in_u 8 b1 → in_u 8 b2 → in_u 8 b3 → Z.lor (Z.lor (Z.shiftl b1 16) (Z.shiftl b2 8)) b3 = b1 * 65536 + b2 * 256 + b3.
Proof.
  unfold in_u. intros H1 H2 H3. rewrite (lor_shiftl_add 16 b1 (Z.shiftl b2 8)) by (rewrite ?Z.shiftl_mul_pow2; lia).
  rewrite Z.shiftl_mul_pow2 by lia. replace (b1 * 2 ^ 16 + b2 * 2 ^ 8) with (Z.shiftl (b1 * 256 + b2) 8) by (rewrite Z.shiftl_mul_pow2; lia).
  rewrite lor_shiftl_add by lia. lia.
Qed.

(** The four digits of three bytes. *)
Definition digits (b1 b2 b3 : Z) : Z * Z * Z * Z := (b1 / 4, b1 mod 4 * 16 + b2 / 16, b2 mod 16 * 4 + b3 / 64, b3 mod 64).

Lemma group_digits b1 b2 b3 n : in_u 8 b1 → in_u 8 b2 → in_u 8 b3 →
  let '(d1, d2, d3, d4) := digits b1 b2 b3 in
  base64_group b1 b2 b3 n =
    [char_at d1; char_at d2; (if (2 <=? n)%nat then char_at d3 else 61); (if (3 <=? n)%nat then char_at d4 else 61)] ∧
  0 <= d1 < 64 ∧ 0 <= d2 < 64 ∧ 0 <= d3 < 64 ∧ 0 <= d4 < 64.
Proof.
  intros H1 H2 H3. cbn. unfold base64_group. rewrite bitmap_eq by done. unfold in_u in *. change (2 ^ 8) with 256 in *. rewrite !Z.shiftr_div_pow2 by lia.
  change 63 with (Z.ones 6). rewrite !Z.land_ones by lia. change (2 ^ 18) with 262144. change (2 ^ 12) with 4096. change (2 ^ 6) with 64.
  assert ((b1 * 65536 + b2 * 256 + b3) / 262144 mod 64 = b1 / 4) as -> by (Z.to_euclidean_division_equations; lia).
  assert ((b1 * 65536 + b2 * 256 + b3) / 4096 mod 64 = b1 mod 4 * 16 + b2 / 16) as -> by (Z.to_euclidean_division_equations; lia).
  assert ((b1 * 65536 + b2 * 256 + b3) / 64 mod 64 = b2 mod 16 * 4 + b3 / 64) as -> by (Z.to_euclidean_division_equations; lia).
  assert ((b1 * 65536 + b2 * 256 + b3) mod 64 = b3 mod 64) as -> by (Z.to_euclidean_division_equations; lia).
  split; [done|]. Z.to_euclidean_division_equations. lia.
Qed.

Lemma decode_encoded b1 b2 b3 n : in_u 8 b1 → in_u 8 b2 → in_u 8 b3 → (1 <= n <= 3)%nat → ((n <= 1)%nat → b2 = 0) → ((n <= 2)%nat → b3 = 0) →
  ∃ c1 c2 c3 c4, base64_group b1 b2 b3 n = [c1; c2; c3; c4] ∧ decode_group c1 c2 c3 c4 = Some (take n [b1; b2; b3]).
Proof.
  intros H1 H2 H3 Hn Hb2 Hb3. pose proof (group_digits b1 b2 b3 n H1 H2 H3) as Hd. cbn in Hd. destruct Hd as (-> & D1 & D2 & D3 & D4).
  eexists _, _, _, _. split; [done|]. unfold decode_group.
  destruct (char_at_spec _ D1) as (-> & _). destruct (char_at_spec _ D2) as (-> & _). destruct (char_at_spec _ D3) as (V3 & N3 & _). destruct (char_at_spec _ D4) as (V4 & N4 & _).
  cbn [mbind option_bind]. unfold in_u in *. change (2 ^ 8) with 256 in *.
  destruct n as [|[|[|[|n]]]]; [lia| | | |lia]; cbn [Nat.leb].
  - cbn [Z.eqb Pos.eqb take]. do 2 f_equal. rewrite Hb2 by lia. Z.to_euclidean_division_equations. lia.
  - rewrite (proj2 (Z.eqb_neq _ _) N3), V3. cbn [mbind option_bind Z.eqb Pos.eqb take]. rewrite Hb3 by lia. do 2 f_equal; [|f_equal]; Z.to_euclidean_division_equations; lia.
  - rewrite (proj2 (Z.eqb_neq _ _) N3), V3. cbn [mbind option_bind]. rewrite (proj2 (Z.eqb_neq _ _) N4), V4. cbn [mbind option_bind take].
    do 2 f_equal; [|f_equal; [|f_equal]]; Z.to_euclidean_division_equations; lia.
Qed.

(** What is encoded is decoded. *)
Theorem base64_roundtrip input : bytes_ok input → base64_decode (base64_encode input) = Some input.
Proof.
  assert (in_u 8 0) as H0 by done. revert input. fix IH 1. intros [|b1 [|b2 [|b3 input]]] Hi; [done| | |].
  - apply Forall_cons in Hi as [H1 _]. destruct (decode_encoded b1 0 0 1) as (c1 & c2 & c3 & c4 & E & D); [done..|lia|done|done|].
    cbn [base64_encode]. rewrite E. cbn [base64_decode]. by rewrite D.
  - apply Forall_cons in Hi as [H1 [H2 _]%Forall_cons]. destruct (decode_encoded b1 b2 0 2) as (c1 & c2 & c3 & c4 & E & D); [done..|lia|lia|done|].
    cbn [base64_encode]. rewrite E. cbn [base64_decode]. by rewrite D.
  - apply Forall_cons in Hi as [H1 [H2 [H3 Hi]%Forall_cons]%Forall_cons].
    destruct (decode_encoded b1 b2 b3 3) as (c1 & c2 & c3 & c4 & E & D); [done..|lia|lia|lia|].
    cbn [base64_encode]. rewrite E. cbn [app base64_decode]. rewrite D. cbn [mbind option_bind]. by rewrite (IH input Hi).
Qed.

(** The characters of an encoded text: no ends of lines, no dashes. *)
Lemma base64_chars input : bytes_ok input → Forall (λ c, c ≠ 10 ∧ c ≠ 45 ∧ in_u 8 c) (base64_encode input).
Proof.
  assert (∀ b1 b2 b3 n, in_u 8 b1 → in_u 8 b2 → in_u 8 b3 → Forall (λ c, c ≠ 10 ∧ c ≠ 45 ∧ in_u 8 c) (base64_group b1 b2 b3 n)) as Hg.
  { intros b1 b2 b3 n H1 H2 H3. pose proof (group_digits b1 b2 b3 n H1 H2 H3) as Hd. cbn in Hd. destruct Hd as (-> & D1 & D2 & D3 & D4).
    destruct (char_at_spec _ D1) as (_ & _ & ? & ? & ?), (char_at_spec _ D2) as (_ & _ & ? & ? & ?), (char_at_spec _ D3) as (_ & _ & ? & ? & ?), (char_at_spec _ D4) as (_ & _ & ? & ? & ?).
    apply Forall_cons. split; [done|]. apply Forall_cons. split; [done|]. apply Forall_cons. split; [by case_match|]. apply Forall_cons. split; [by case_match|constructor]. }
  assert (in_u 8 0) as H0 by done. revert input. fix IH 1. intros [|b1 [|b2 [|b3 input]]] Hi; [constructor| | |].
  - apply Forall_cons in Hi as [H1 _]. by apply Hg.
  - apply Forall_cons in Hi as [H1 [H2 _]%Forall_cons]. by apply Hg.
  - apply Forall_cons in Hi as [H1 [H2 [H3 Hi]%Forall_cons]%Forall_cons]. cbn [base64_encode]. apply Forall_app. split; [by apply Hg|by apply IH].
Qed.

(** ** PEM *)

Definition pem_begin (label : bytes) : bytes := as_bytes "-----BEGIN " ++ label ++ as_bytes "-----".
Definition pem_end (label : bytes) : bytes := as_bytes "-----END " ++ label ++ as_bytes "-----".

(** Reading: the lines between the two that name the label. *)
Definition pem_decode (label text : bytes) : option bytes :=
  let body := take (length text - length (pem_begin label) - length (pem_end label)) (drop (length (pem_begin label)) text) in
  if bool_decide (text = pem_begin label ++ body ++ pem_end label) then base64_decode (filter (λ c, c ≠ 10) (body : list Z)) else None.

Lemma chunks_fuel fuel n l : (0 < n)%nat → (length l <= fuel)%nat → concat (line_chunks_ fuel n l) = l ∧ Forall (λ x, (length x <= n)%nat) (line_chunks_ fuel n l).
Proof.
  intros Hn. revert l. induction fuel as [|fuel IH]; intros [|a l] Hf; cbn [length] in Hf; [by split; [|constructor]|lia|by split; [|constructor]|]. cbn [line_chunks_ concat].
  destruct (IH (drop n (a :: l))) as [Hc Hl]; [rewrite length_drop; cbn; lia|]. rewrite Hc, take_drop. split; [done|]. constructor; [rewrite length_take; lia|done].
Qed.

Lemma concat_chunks n l : (0 < n)%nat → concat (line_chunks n l) = l.
Proof. intros Hn. by apply (chunks_fuel (length l) n l). Qed.

(** Lines as [base64] prints them: of at most 64 characters. *)
Lemma chunks_short n l : (0 < n)%nat → Forall (λ x, (length x <= n)%nat) (line_chunks n l).
Proof. intros Hn. by apply (chunks_fuel (length l) n l). Qed.

Lemma filter_join (l : list (list Z)) : Forall (λ c, c ≠ 10) (concat l) → filter (λ c, c ≠ 10) (join [10] l : list Z) = concat l.
Proof.
  assert (∀ x : list Z, Forall (λ c, c ≠ 10) x → filter (λ c, c ≠ 10) x = x) as Hid.
  { intros x Hx. induction Hx as [|c x Hc _ IH]; [done|]. rewrite filter_cons_True by done. by rewrite IH. }
  induction l as [|x [|y l] IH]; [done| |].
  - cbn [concat join]. rewrite app_nil_r. apply Hid.
  - cbn [concat] in *. rewrite Forall_app. intros [Hx Hl]. change (join [10] (x :: y :: l)) with (x ++ [10] ++ join [10] (y :: l)).
    rewrite !filter_app, (Hid x) by done. change (filter (λ c, c ≠ 10) [10]) with (@nil Z). by rewrite IH.
Qed.

Lemma der_to_pem_eq der label : der_to_pem der label = pem_begin label ++ ([10] ++ join [10] (line_chunks 64 (base64_encode der)) ++ [10]) ++ pem_end label.
Proof. unfold der_to_pem, pem_begin, pem_end. by rewrite <-!app_assoc. Qed.

Lemma sandwich (a x b : bytes) : take (length (a ++ x ++ b) - length a - length b) (drop (length a) (a ++ x ++ b)) = x.
Proof. rewrite drop_app_length, !length_app. replace (_ + _ - _ - _)%nat with (length x) by lia. apply take_app_length. Qed.

(** What is made a PEM text is read from it. *)
Theorem pem_roundtrip der label : bytes_ok der → pem_decode label (der_to_pem der label) = Some der.
Proof.
  intros Hd. unfold pem_decode. rewrite der_to_pem_eq, sandwich, bool_decide_true by done. rewrite !filter_app. cbn [app].
  change (filter (λ c, c ≠ 10) [10]) with (@nil Z). rewrite app_nil_r, filter_join; rewrite concat_chunks by lia; [by apply base64_roundtrip|].
  eapply Forall_impl; [by apply base64_chars|]. by intros c [? _].
Qed.

(** ** Certificates of a chain *)

Lemma starts_with_app s r : starts_with (s ++ r) s = true.
Proof. unfold starts_with. by rewrite bool_decide_true by apply take_app_length. Qed.

Lemma find_skip g needle r : head needle = Some 45 → Forall (λ c, c ≠ 45) g → find_sub needle (g ++ needle ++ r) = Some (length g).
Proof.
  intros Hn Hg. induction Hg as [|c g Hc _ IH]; cbn [app length].
  - destruct needle as [|a n]; [done|]. cbn [app find_sub]. change (a :: n ++ r) with ((a :: n) ++ r). by rewrite starts_with_app.
  - cbn [find_sub]. assert (starts_with (c :: g ++ needle ++ r) needle = false) as ->; [|by rewrite IH].
    unfold starts_with. apply bool_decide_false. destruct needle as [|a n]; [done|]. injection Hn as ->. cbn. intros [= ?]. done.
Qed.

Lemma find_none needle s : head needle = Some 45 → Forall (λ c, c ≠ 45) s → find_sub needle s = None.
Proof.
  intros Hn Hs. destruct needle as [|a n]; [done|]. injection Hn as ->. induction Hs as [|c s Hc _ IH]; [done|]. cbn [find_sub].
  assert (starts_with (c :: s) (45 :: n) = false) as ->; [|by rewrite IH]. unfold starts_with. apply bool_decide_false. cbn. intros [= ?]. done.
Qed.

Lemma starts_with_char (s needle : list Z) i c : needle !! i = Some c → s !! i ≠ Some c → starts_with s needle = false.
Proof.
  intros Hn Hs. apply bool_decide_false. intros E. apply Hs.
  assert (take (length needle) s !! i = s !! i) as H by (apply lookup_take_lt; by eapply lookup_lt_Some). congruence.
Qed.

(** A certificate between its markers, from the end of the first line on. *)
Definition block (body : bytes) : bytes := begin_marker ++ 10 :: body ++ end_marker.
Definition no_dash (s : bytes) : Prop := Forall (λ c, c ≠ 45) s.

Ltac not_here := cbn [find_sub]; first
  [rewrite (starts_with_char _ _ 0 45) by done | rewrite (starts_with_char _ _ 1 45) by done | rewrite (starts_with_char _ _ 2 45) by done
  |rewrite (starts_with_char _ _ 3 45) by done | rewrite (starts_with_char _ _ 4 45) by done | rewrite (starts_with_char _ _ 5 69) by done]; cbv iota.

(** The end of a block is found although its first line is full of dashes. *)
Lemma find_end body r : no_dash body → find_sub end_marker (block body ++ r) = Some (28 + length body)%nat.
Proof.
  intros Hb. unfold block. rewrite <-!app_assoc. cbn [app]. rewrite <-!app_assoc. unfold begin_marker. cbn [app]. do 28 not_here.
  rewrite find_skip by done. done.
Qed.

Lemma length_block body : length (block body) = (53 + length body)%nat.
Proof. unfold block. rewrite length_app. cbn [length]. rewrite length_app. cbn. lia. Qed.

(** The blocks of a chain are its certificates, whatever stands between them, as long
    as it has no dashes. *)
Lemma certs_of_blocks (l : list (bytes * bytes)) tail fuel : Forall (λ p, no_dash p.1 ∧ no_dash p.2) l → no_dash tail →
  let chain := concat ((λ p, p.1 ++ block p.2) <$> l) ++ tail in
  (length l < fuel)%nat → certs_loop fuel chain = block ∘ snd <$> l.
Proof.
  intros Hl Ht. revert fuel. induction Hl as [|[g b] l [Hg Hb] _ IH]; intros fuel; cbn [length]; intros Hf; (destruct fuel as [|fuel]; [lia|]); cbn [certs_loop].
  - cbn. by rewrite (find_none begin_marker tail) by done.
  - cbn [fmap list_fmap concat fst snd]. rewrite <-!app_assoc. unfold block at 1. rewrite <-app_assoc.
    rewrite (find_skip g begin_marker) by done. rewrite drop_app_length.
    set (r := concat _ ++ tail). rewrite find_end by done. change (length end_marker) with 25%nat.
    replace (28 + length b + 25)%nat with (length (block b)) by (rewrite length_block; lia). rewrite take_app_length, drop_app_length. cbn. f_equal. by apply IH; lia.
Qed.

Definition cert_pem (der : bytes) : bytes := der_to_pem der (as_bytes "CERTIFICATE").

Lemma cert_pem_block der : bytes_ok der → ∃ body, no_dash body ∧ cert_pem der = block body.
Proof.
  intros Hd. exists (join [10] (line_chunks 64 (base64_encode der)) ++ [10]). split.
  - apply Forall_app. split; [|by constructor]. pose proof (base64_chars der Hd) as Hc. rewrite <-(concat_chunks 64 (base64_encode der)) in Hc by lia.
    induction (line_chunks 64 (base64_encode der)) as [|x [|y l] IH]; [constructor| |].
    + cbn in *. rewrite app_nil_r in Hc. eapply Forall_impl; [exact Hc|]. by intros c (_ & ? & _).
    + cbn [concat] in Hc. apply Forall_app in Hc as [Hx Hc]. change (join [10] (x :: y :: l)) with (x ++ [10] ++ join [10] (y :: l)).
      apply Forall_app. split; [eapply Forall_impl; [exact Hx|]; by intros c (_ & ? & _)|]. constructor; [done|by apply IH].
  - unfold cert_pem. rewrite der_to_pem_eq. unfold block. by rewrite <-!app_assoc.
Qed.

(** Ends of lines after the texts are ends of lines before the others. *)
Lemma concat_shift {A B} (f : A → bytes) (g : B → bytes) l1 l2 : f <$> l1 = g <$> l2 →
  [10] ++ concat ((λ d, f d ++ [10]) <$> l1) = concat ((λ p : bytes * B, p.1 ++ g p.2) <$> ((λ b, ([10], b)) <$> l2)) ++ [10].
Proof.
  revert l2. induction l1 as [|x l1 IH]; intros [|y l2] E; try done. rewrite !fmap_cons in E. injection E as Ex El.
  rewrite !fmap_cons. cbn [concat fst snd]. rewrite Ex, <-!app_assoc. f_equal. f_equal. by apply IH.
Qed.

(** The certificates of a chain of PEM texts, each with the end of its last line, are
    those texts; the second is the root the list of revoked certificates is taken from. *)
Theorem chain_certificates ders : Forall bytes_ok ders → certs_of (concat ((λ d, cert_pem d ++ [10]) <$> ders)) = cert_pem <$> ders.
Proof.
  intros Hd. destruct ders as [|d ders]; [done|]. apply Forall_cons in Hd as [H0 Hd].
  assert (∃ bs, Forall no_dash bs ∧ cert_pem <$> ders = block <$> bs) as (bs & Hbs & E).
  { induction Hd as [|x l Hx _ (bs & Hbs & E)]; [by exists []|]. destruct (cert_pem_block x Hx) as (b & Hb & Eb). exists (b :: bs).
    split; [by constructor|]. by rewrite !fmap_cons, Eb, E. }
  destruct (cert_pem_block d H0) as (b & Hb & Eb).
  assert (concat ((λ d, cert_pem d ++ [10]) <$> d :: ders) = concat ((λ p : bytes * bytes, p.1 ++ block p.2) <$> ([], b) :: ((λ b, ([10], b)) <$> bs)) ++ [10]) as Ec.
  { cbn [fmap list_fmap concat fst snd app]. rewrite Eb. rewrite <-!app_assoc. f_equal. by apply concat_shift. }
  rewrite Ec. unfold certs_of. rewrite certs_of_blocks.
  - rewrite !fmap_cons, Eb, E, <-list_fmap_compose. done.
  - constructor; [by split; [constructor|]|]. apply Forall_fmap. eapply Forall_impl; [exact Hbs|]. intros x Hx. split; [by constructor|done].
  - by constructor.
  - rewrite length_app. assert (∀ l : list (bytes * bytes), length l <= length (concat ((λ p, p.1 ++ block p.2) <$> l)))%nat as H.
    { induction l as [|p l IH]; [done|]. cbn [fmap list_fmap concat length]. rewrite !length_app, length_block. lia. }
    eapply Nat.le_lt_trans; [apply H|]. change (length [10]) with 1%nat. rewrite Nat.add_1_r. apply Nat.lt_succ_diag_r.
Qed.

(** ** Requests *)

(** A body is what came, if all of it came and it is within the bound. *)
Theorem body_exact chunks complete d : body_loop [] chunks complete = Some d ↔
  complete = true ∧ d = concat chunks ∧ lenz (concat chunks) <= MAX_PCS_RESPONSE_SIZE.
Proof.
  assert (∀ data, lenz data <= MAX_PCS_RESPONSE_SIZE → body_loop data chunks complete = Some d ↔
    complete = true ∧ d = data ++ concat chunks ∧ lenz (data ++ concat chunks) <= MAX_PCS_RESPONSE_SIZE) as H; [|by apply (H [])].
  induction chunks as [|c chunks IH]; intros data Hd; cbn [body_loop concat].
  - rewrite app_nil_r. destruct complete; [|by split; [|intros [? _]]]. split; [by intros [= <-]|by intros (_ & -> & _)].
  - destruct (Z.ltb_spec MAX_PCS_RESPONSE_SIZE (lenz data + lenz c)) as [Hl|Hl].
    + split; [done|]. intros (_ & _ & Hm). rewrite !lenz_app in Hm. pose proof (lenz_nonneg (concat chunks)). lia.
    + rewrite IH by (rewrite lenz_app; lia). by rewrite <-app_assoc.
Qed.

Lemma fetch_loop_spec n delay answers delays : (S n <= length answers)%nat →
  (∀ k, 0 <= k < Z.of_nat n → delay * 2 ^ k <= MAX_RETRY_DELAY_SECS) → MAX_RETRY_DELAY_SECS < delay * 2 ^ Z.of_nat n →
  match list_find (λ a, is_Some (send_request a)) (take (S n) answers) with
  | Some (i, a) => ∃ r, send_request a = Some r ∧
      fetch_loop (S n) delay (mkHttp answers delays) = (Ok r, mkHttp (drop (S i) answers) (delays ++ backoff i delay))
  | None => fetch_loop (S n) delay (mkHttp answers delays) = (Err (Failed tt), mkHttp (drop (S n) answers) (delays ++ backoff n delay))
  end.
Proof.
  revert delay answers delays. induction n as [|n IH]; intros delay answers delays Hl Hk Hm; (destruct answers as [|a answers]; [cbn in Hl; lia|]).
  - cbn [take list_find]. cbn [fetch_loop]. unfold next_answer. cbn [h_answers h_delays]. destruct (send_request a) as [r|] eqn:E.
    + rewrite decide_True by eauto. exists r. split; [done|]. by rewrite app_nil_r.
    + rewrite decide_False by (intros [? ?]; congruence). cbn [fmap option_fmap option_map]. rewrite (proj2 (Z.ltb_lt _ delay)) by (cbn in Hm; lia).
      by rewrite app_nil_r.
  - change (take (S (S n)) (a :: answers)) with (a :: take (S n) answers). cbn [list_find]. remember (S n) as m eqn:Em. cbn [fetch_loop]. unfold next_answer.
    cbn [h_answers h_delays]. destruct (send_request a) as [r|] eqn:E.
    { rewrite decide_True by eauto. exists r. split; [done|]. by rewrite app_nil_r. }
    rewrite decide_False by (intros [? ?]; congruence). rewrite (proj2 (Z.ltb_ge _ delay)) by (specialize (Hk 0); lia). subst m.
    replace (Z.of_nat (S n)) with (Z.of_nat n + 1) in Hm by lia. rewrite Z.pow_add_r in Hm by lia.
    assert (∀ k, 0 <= k < Z.of_nat n → delay * 2 * 2 ^ k <= MAX_RETRY_DELAY_SECS) as Hk'.
    { intros k Hn. specialize (Hk (k + 1)). rewrite Z.pow_add_r in Hk by lia. lia. }
    specialize (IH (delay * 2) answers (delays ++ [delay]) ltac:(cbn in Hl; lia) Hk' ltac:(lia)).
    destruct (list_find _ (take (S n) answers)) as [[i b]|]; cbn [fmap option_fmap option_map prod_map fst snd].
    + destruct IH as (r & Hr & ->). exists r. split; [done|]. rewrite <-app_assoc. by rewrite Z.mul_comm.
    + rewrite IH, <-app_assoc. by rewrite Z.mul_comm.
Qed.

(** The first answer that is a response is taken, after at most five delays of ten to
    160 seconds; six failures are an error. *)
Theorem fetch_first_response answers delays : (6 <= length answers)%nat →
  match list_find (λ a, is_Some (send_request a)) (take 6 answers) with
  | Some (i, a) => ∃ r, send_request a = Some r ∧
      fetch_data_from_url (mkHttp answers delays) = (Ok r, mkHttp (drop (S i) answers) (delays ++ backoff i 10))
  | None => fetch_data_from_url (mkHttp answers delays) = (Err (Failed tt), mkHttp (drop 6 answers) (delays ++ backoff 5 10))
  end.
Proof.
  intros Hl. apply (fetch_loop_spec 5 10 answers delays Hl); [|done]. intros k Hk.
  assert (2 ^ k <= 2 ^ 4) as H by (apply Z.pow_le_mono_r; lia). unfold MAX_RETRY_DELAY_SECS. lia.
Qed.

(** ** The collaterals *)

Section collaterals.
Context `{X509Parser} (fetch : string → option PcsResponse) (percent_decode : string → option string) (json_fmspcs : bytes → option (list Fmspc)).
Context (config : PcsConfig).
Context (Hbytes : ∀ url r, fetch url = Some r → bytes_ok (pr_data r)).

Lemma base64_bytes d : bytes_ok d → bytes_ok (base64_encode d).
Proof. intros Hd. eapply Forall_impl; [by apply base64_chars|]. by intros c (_ & _ & ?). Qed.

Lemma join_bytes l : bytes_ok (concat l) → bytes_ok (join [10] l).
Proof.
  induction l as [|x [|y l] IH]; [done|cbn; by rewrite app_nil_r|]. cbn [concat]. intros [Hx Hl]%Forall_app.
  change (join [10] (x :: y :: l)) with (x ++ [10] ++ join [10] (y :: l)). apply Forall_app. split; [done|]. constructor; [done|by apply IH].
Qed.

Lemma pem_bytes d label : bytes_ok d → bytes_ok (der_to_pem d (as_bytes label)).
Proof.
  intros Hd. unfold der_to_pem. repeat (apply Forall_app; split); try apply as_bytes_ok; try (by constructor).
  apply join_bytes. rewrite concat_chunks by lia. by apply base64_bytes.
Qed.

Definition as_platform (p : PlatformTcbRaw) : option Platform :=
  t ← from_utf8 (pt_tcb p); Some (mkPlatform (pt_fmspc p) (pt_tcb_issuer_chain p) t).

Lemma platform_loop_spec c l c' : platform_loop c l = Some c' →
  ∃ ps, mapM as_platform l = Some ps ∧
    c' = mkCollaterals (cs_major_version c) (cs_minor_version c) (cs_tee_type c) (cs_root_ca c) (cs_pck_crl_issuer_chain c)
           (cs_root_ca_crl c) (cs_pck_crl c) (cs_platforms c ++ ps) (cs_qe_identity_issuer_chain c) (cs_qe_identity c).
Proof.
  revert c. induction l as [|p l IH]; intros c; cbn [platform_loop].
  - intros [= <-]. exists []. split; [done|]. rewrite app_nil_r. by destruct c.
  - unfold add_platform. destruct (from_utf8 (pt_tcb p)) as [t|] eqn:Et; [|done]. cbn [mbind option_bind]. intros (ps & Hps & ->)%IH.
    exists (mkPlatform (pt_fmspc p) (pt_tcb_issuer_chain p) t :: ps). split; [|cbn; by rewrite <-app_assoc].
    apply mapM_Some. constructor; [unfold as_platform; by rewrite Et|by apply mapM_Some].
Qed.

(** The platforms of the list that can have collateral. *)
Definition answered (fl : list Fmspc) (f : string) : option (bytes * string) :=
  if bool_decide (f ∈ fm_fmspc <$> get_tdx_supported_platforms fl)
  then match fetch_platform_tcb fetch percent_decode config f with Some e => e | None => None end
  else None.

(** The first platform with a name is the answer for the name. *)
Lemma platforms_found l entries ps f : Forall2 (λ x e, platform_entry fetch percent_decode config x = Some e) l entries →
  mapM as_platform (omap (λ e, e) entries) = Some ps →
  head (filter (λ p, pl_fmspc p = f) ps) =
  if bool_decide (f ∈ fm_fmspc <$> l) then
    match fetch_platform_tcb fetch percent_decode config f with Some (Some (tcb, chain)) => Some (mkPlatform f chain (string_of_bytes tcb)) | _ => None end
  else None.
Proof.
  intros He. revert ps. induction He as [|x e l entries He _ IH]; intros ps Hp; [by injection Hp as <-|]. revert He. unfold platform_entry.
  assert (fm_fmspc x ≠ f → bool_decide (f ∈ fm_fmspc <$> x :: l) = bool_decide (f ∈ fm_fmspc <$> l)) as Hskip.
  { intros Hn. apply bool_decide_ext. rewrite fmap_cons. set_solver. }
  destruct (fetch_platform_tcb fetch percent_decode config (fm_fmspc x)) as [[[tcb chain]|]|] eqn:Ef; intros [= <-]; cbn [omap list_omap] in Hp.
  - apply mapM_Some in Hp. apply Forall2_cons_inv_l in Hp as (p & ps' & Hpp & Hps & ->). apply mapM_Some in Hps.
    unfold as_platform in Hpp. cbn [pt_tcb pt_fmspc pt_tcb_issuer_chain] in Hpp. destruct (from_utf8 tcb) as [t|] eqn:Et; [|done]. injection Hpp as <-.
    assert (t = string_of_bytes tcb) as -> by (unfold from_utf8 in Et; destruct (utf8_valid tcb); [by injection Et as <-|done]).
    destruct (decide (fm_fmspc x = f)) as [<-|Hn].
    + rewrite filter_cons_True by done. rewrite bool_decide_true by (rewrite fmap_cons; set_solver). by rewrite Ef.
    + rewrite filter_cons_False by done. by rewrite (IH _ Hps), Hskip.
  - rewrite (IH _ Hp). destruct (decide (fm_fmspc x = f)) as [<-|Hn]; [|by rewrite Hskip]. rewrite Ef. by do 2 case_bool_decide.
Qed.

Lemma plain_bytes url d : fetch_plain fetch url = Some d → bytes_ok d.
Proof.
  unfold fetch_plain. destruct (fetch url) as [r|] eqn:E; [|done]. cbn [mbind option_bind]. destruct (_ =? 200); [|done]. intros [= <-]. by eapply Hbytes.
Qed.

Lemma chain_bytes r header d c : with_chain percent_decode r header = Some (d, c) → d = pr_data r.
Proof.
  unfold with_chain. destruct (remove_header_case_insensitive _ _) as [h|]; [|done]. cbn [mbind option_bind]. destruct (percent_decode h); [|done].
  by intros [= <- _].
Qed.

Lemma crl_bytes d c : fetch_pck_crl fetch percent_decode config = Some (d, c) → bytes_ok d.
Proof.
  unfold fetch_pck_crl. cbv zeta. destruct (fetch _) as [r|] eqn:E; [|done]. cbn [mbind option_bind]. destruct (_ =? 200); [|done].
  intros ->%chain_bytes. by eapply Hbytes.
Qed.

Lemma qe_bytes d c : fetch_qe_identity fetch percent_decode config = Some (d, c) → bytes_ok d.
Proof.
  unfold fetch_qe_identity. cbv zeta. destruct (fetch _) as [r|] eqn:E; [|done]. cbn [mbind option_bind]. destruct (_ =? 200); [|done].
  intros ->%chain_bytes. by eapply Hbytes.
Qed.

(** A PEM text in a field is read as what was made a text. *)
Lemma pem_field d label : bytes_ok d → pem_decode (as_bytes label) (as_bytes (string_of_bytes (der_to_pem d (as_bytes label)))) = Some d.
Proof. intros Hd. rewrite as_bytes_string by (by apply pem_bytes). by apply pem_roundtrip. Qed.

Lemma utf8_field d s : bytes_ok d → from_utf8 d = Some s → as_bytes s = d.
Proof. intros Hd. unfold from_utf8. destruct (utf8_valid d); [|done]. intros [= <-]. by apply as_bytes_string. Qed.

(** The platforms of the structure are found by name. *)
Lemma list_found fl l ps f : fetch_fmspc_list fetch json_fmspcs config = Some fl → get_platform_tcb_list fetch percent_decode json_fmspcs config = Some l →
  mapM as_platform l = Some ps →
  head (filter (λ p, pl_fmspc p = f) ps) = (λ e : bytes * string, mkPlatform f e.2 (string_of_bytes e.1)) <$> answered fl f.
Proof.
  intros Hf. unfold get_platform_tcb_list. rewrite Hf. cbn [mbind option_bind]. destruct (mapM _ _) as [entries|] eqn:E; [|done]. cbn [mbind option_bind].
  intros [= <-] Hp. apply mapM_Some in E. rewrite (platforms_found _ _ _ f E Hp). unfold answered. case_bool_decide; [|done].
  by destruct (fetch_platform_tcb _ _ _ _) as [[[tcb ch]|]|].
Qed.

(** The collaterals are what the services answered: root and list of revoked
    certificates as PEM texts of what was fetched, and for a platform the answer for its
    name, if it supports TDX and there was one. *)
Theorem collateral_exact c : get_collateral fetch percent_decode json_fmspcs config = Some c →
  ∃ root crl rcrl chain url fl,
    fetch_root_ca fetch config = Some root ∧ pem_decode (as_bytes "CERTIFICATE") (as_bytes (cs_root_ca c)) = Some root ∧
    fetch_pck_crl fetch percent_decode config = Some (crl, cs_pck_crl_issuer_chain c) ∧
    (if is_pem_format crl then as_bytes (cs_pck_crl c) = crl else pem_decode (as_bytes "X509 CRL") (as_bytes (cs_pck_crl c)) = Some crl) ∧
    fetch_qe_identity fetch percent_decode config = Some (as_bytes (cs_qe_identity c), chain) ∧ cs_qe_identity_issuer_chain c = chain ∧
    get_root_ca_crl_url (as_bytes chain) = Some url ∧ fetch_plain fetch url = Some rcrl ∧
    pem_decode (as_bytes "X509 CRL") (as_bytes (cs_root_ca_crl c)) = Some rcrl ∧
    fetch_fmspc_list fetch json_fmspcs config = Some fl ∧
    ∀ f, get_tcb_with_fmspc c f = (λ e : bytes * string, mkPlatform f e.2 (string_of_bytes e.1)) <$> answered fl f.
Proof.
  unfold get_collateral. destruct (fetch_qe_identity _ _ _) as [[qe chain]|] eqn:Eq; [|done]. cbn [mbind option_bind].
  destruct (get_root_ca_crl_url (as_bytes chain)) as [url|] eqn:Eu; [|done]. cbn [mbind option_bind]. unfold fetch_root_ca_crl.
  destruct (fetch_plain fetch url) as [rcrl|] eqn:Er; [|done]. cbn [mbind option_bind]. destruct (fetch_root_ca fetch config) as [root|] eqn:Eroot; [|done].
  cbn [mbind option_bind]. destruct (fetch_pck_crl _ _ _) as [[crl cchain]|] eqn:Ec; [|done]. cbn [mbind option_bind].
  destruct (get_platform_tcb_list _ _ _ _) as [l|] eqn:El; [|done]. cbn [mbind option_bind].
  destruct (fetch_fmspc_list fetch json_fmspcs config) as [fl|] eqn:Ef; [|unfold get_platform_tcb_list in El; by rewrite Ef in El].
  unfold Collaterals_new. destruct (if negb (is_pem_format crl) then _ else _) as [pck|] eqn:Ep; [|done]. cbn [mbind option_bind].
  destruct (from_utf8 qe) as [qes|] eqn:Eqe; [|done]. cbn [mbind option_bind]. intros (ps & Hps & ->)%platform_loop_spec.
  cbn [cs_root_ca cs_pck_crl_issuer_chain cs_root_ca_crl cs_pck_crl cs_platforms cs_qe_identity_issuer_chain cs_qe_identity].
  exists root, crl, rcrl, chain, url, fl. split_and!; try done.
  - apply pem_field. by eapply plain_bytes.
  - apply crl_bytes in Ec. destruct (is_pem_format crl); cbn [negb] in Ep; [by apply utf8_field|]. injection Ep as <-. by apply pem_field.
  - by rewrite (utf8_field qe qes (qe_bytes _ _ Eq) Eqe).
  - apply pem_field. by eapply plain_bytes.
  - intros f. unfold get_tcb_with_fmspc. cbn [cs_platforms app]. by eapply list_found.
Qed.
End collaterals.

(** ** A concrete service *)

Module CollateralSample.
#[local] Instance parser : X509Parser := {
  parse_x509_pem := pem_decode (as_bytes "CERTIFICATE");
  x509_extensions d := Some [(false, []); (true, d)];
  crl_distribution_points d := Some [Some (FullName [OtherName; URI (string_of_bytes d)])] }.

Definition chain : string := Eval vm_compute in string_of_bytes (concat ((λ d, cert_pem d ++ [10]) <$> [as_bytes "intermediate"; as_bytes "https://crl"])).

Definition ok (headers : list (string * string)) (d : string) : option PcsResponse := Some (mkPcsResponse 200 headers (as_bytes d)).

(** Two platforms with TDX, of which one has no collateral. *)
Definition fetch (url : string) : option PcsResponse :=
  if bool_decide (url = "https://certificates.trustedservices.intel.com/Intel_SGX_Provisioning_Certification_RootCA.cer"%string) then ok [] "root"
  else if bool_decide (url = "https://crl"%string) then ok [] "revoked"
  else if bool_decide (url = "https://api.trustedservices.intel.com//sgx/certification/v4/pckcrl?ca=platform&encoding=der"%string)
  then ok [("sgx-pck-crl-issuer-chain", chain)]%string "crl"
  else if bool_decide (url = "https://api.trustedservices.intel.com//tdx/certification/v4/qe/identity"%string)
  then ok [("date", "today"); ("SGX-Enclave-Identity-Issuer-Chain", chain)]%string "{}"
  else if bool_decide (url = "https://api.trustedservices.intel.com//sgx/certification/v4/fmspcs"%string) then ok [] "list"
  else if bool_decide (url = "https://api.trustedservices.intel.com//tdx/certification/v4/tcb?fmspc=B0C06F000000"%string)
  then ok [("tcb-info-issuer-chain", chain)]%string "tcb"
  else Some (mkPcsResponse 404 [] []).

Definition list_of (b : bytes) : option (list Fmspc) :=
  Some [mkFmspc "A" "E3"; mkFmspc "B0C06F000000" "E5"; mkFmspc "90C06F000000" "E5"]%string.

Definition made : option Collaterals := Eval vm_compute in get_collateral fetch Some list_of (IntelPcsConfig true).

Lemma made_platforms : cs_platforms <$> made = Some [mkPlatform "B0C06F000000" chain "tcb"].
Proof. vm_compute. reflexivity. Qed.

Lemma fetch_bytes url r : fetch url = Some r → bytes_ok (pr_data r).
Proof. unfold fetch, ok. repeat case_bool_decide; intros [= <-]; try apply as_bytes_ok. constructor. Qed.

(** The policy finds the platform that was answered for, and not the other one. *)
Example made_found : ∃ c, made = Some c ∧ get_tcb_with_fmspc c "B0C06F000000" = Some (mkPlatform "B0C06F000000" chain "tcb") ∧
  get_tcb_with_fmspc c "90C06F000000" = None.
Proof.
  destruct (collateral_exact fetch Some list_of (IntelPcsConfig true) fetch_bytes (default (mkCollaterals 0 0 0 "" "" "" "" [] "" "") made)) as (? & ? & ? & ? & ? & fl & _ & _ & _ & _ & _ & _ & _ & _ & _ & Hf & Hp); [by vm_compute|].
  eexists. split; [by vm_compute|]. injection Hf as <-. split; [exact (Hp "B0C06F000000"%string)|exact (Hp "90C06F000000"%string)].
Qed.
End CollateralSample.
