(* ===== verification/PolicyGen.v ===== *)
(** * PolicyGen: generating a version 1 policy

    tools/migtd-policy-generator: policy.rs, qe_identity.rs and platform_tcb (the sub
    command for version 2 is in PolicyTools).  A policy is the document PolicyV1 reads,
    without the formatting of its text; the service is a function of addresses, the
    readers serde derives are arguments. *)
From stdpp Require Import base tactics numbers option strings list list_numbers.
From S2P Require Import Prelude PolicyV1.
Local Open Scope Z_scope.

(** Errors of anyhow. *)
Notation GResult := (outcome unit).

(** ** What the service answers (tcb_info.rs, qe_identity.rs, fmspc.rs) *)

Record Tcb := mkTcb { sgxtcbcomponents : list Z; pcesvn : Z; tdxtcbcomponents : list Z }.

(** The security version of each level of a module. *)
Record TdxModuleIdentity := mkModuleIdentity { tm_id : string; tm_mrsigner : string; tm_attributes : string; tm_tcb_levels : list Z }.

Record PlatformTcb := mkPlatformTcb { tcb_fmspc : string; tdx_module_identities : list TdxModuleIdentity; tcb_levels : list Tcb }.

Record EnclaveIdentity := mkEnclaveIdentity { miscselect : string; qe_attributes : string; qe_mrsigner : string; isvprodid : Z; qe_tcb_levels : list Z }.

(** [Vec] index 0; an empty list aborts. *)
Definition first {A} (l : list A) : GResult A := match l with x :: _ => Ok x | [] => Panic end.

(** ** Properties and blocks (policy.rs) *)

Definition at_least (n : Z) : RawProperty := mkRawProp "greater-or-equal" (RawU64 n).
Definition all_at_least (l : list Z) : RawProperty := mkRawProp "array-greater-or-equal" (RawSeq l).
Definition equal_to (s : string) : RawProperty := mkRawProp "equal" (RawStr s).
Definition equal_number (n : Z) : RawProperty := mkRawProp "equal" (RawU64 n).
Definition Property_default : RawProperty := mkRawProp "equal" (RawStr "self").

Definition PlatformPolicy_new (platform_tcb : PlatformTcb) : GResult RawBlock :=
  tcb ← first (tcb_levels platform_tcb);
  Ok (mkRawBlock (Some (tcb_fmspc platform_tcb))
        (Some [("sgxtcbcomponents", all_at_least (sgxtcbcomponents tcb)); ("pcesvn", at_least (pcesvn tcb));
               ("tdxtcbcomponents", all_at_least (tdxtcbcomponents tcb))]%string) None None None).

Definition QePolicy_new (miscselect attributes mrsigner : string) (isvprodid isvsvn : Z) : RawBlock :=
  mkRawBlock None None
    (Some [("MISCSELECT", equal_to miscselect); ("ATTRIBUTES", equal_to attributes); ("MRSIGNER", equal_to mrsigner);
           ("ISVPRODID", equal_number isvprodid); ("ISVSVN", at_least isvsvn)]%string) None None.

(** The maps of [TdInfo] are sorted by name. *)
Definition MigTdInfoPolicy_default : RawBlock :=
  mkRawBlock None None None None
    (Some ((λ n, (n, Property_default)) <$>
             ["ATTRIBUTES"; "MRCONFIGID"; "MROWNER"; "MROWNERCONFIG"; "MRTD"; "RTMR0"; "RTMR1"; "RTMR2"; "RTMR3"; "XFAM"]%string,
           Some ((λ n, (n, Property_default)) <$> ["Digest.MigTdPolicy"; "Digest.MigTdSgxRootKey"]%string))).

Definition tdx_module_major_version_mapping (id : string) : GResult Z :=
  if bool_decide (id = "TDX_01") then Ok 1
  else if bool_decide (id = "TDX_02") then Ok 2
  else if bool_decide (id = "TDX_03") then Ok 3
  else if bool_decide (id = "TDX_05") then Ok 5
  else Panic.

Definition TdxModule_block (id isvsvn : Z) (m : TdxModuleIdentity) : RawBlock :=
  mkRawBlock None None None
    (Some [("TDXModuleMajorVersion", equal_number id); ("TDXModuleSVN", at_least isvsvn);
           ("MRSIGNERSEAM", equal_to (tm_mrsigner m)); ("ATTRIBUTES", equal_to (tm_attributes m))]%string) None.

(** The inner loop, with the set of versions and the blocks so far. *)
Fixpoint modules_loop (seen : list Z) (acc : list RawBlock) (l : list TdxModuleIdentity) : GResult (list Z * list RawBlock) :=
  match l with
  | [] => Ok (seen, acc)
  | m :: l =>
      id ← tdx_module_major_version_mapping (tm_id m);
      if bool_decide (id ∈ seen) then modules_loop seen acc l
      else
        isvsvn ← first (tm_tcb_levels m);
        modules_loop (id :: seen) (acc ++ [TdxModule_block id isvsvn m]) l
  end.

Fixpoint platforms_loop (seen : list Z) (acc : list RawBlock) (l : list PlatformTcb) : GResult (list Z * list RawBlock) :=
  match l with
  | [] => Ok (seen, acc)
  | tcb :: l => r ← modules_loop seen acc (tdx_module_identities tcb); platforms_loop r.1 r.2 l
  end.

Definition TdxModulePolicy_new (platform_tcb : list PlatformTcb) : GResult (list RawBlock) :=
  r ← platforms_loop [] [] platform_tcb; Ok r.2.

(** ** Fetching *)

Definition FMSPC_LIST_URL : string := "https://api.trustedservices.intel.com/sgx/certification/v4/fmspcs".
Definition SBX_FMSPC_LIST_URL : string := "https://sbx.api.trustedservices.intel.com/sgx/certification/v4/fmspcs".
Definition TCB_INFO_URL : string := "https://api.trustedservices.intel.com/tdx/certification/v4/tcb".
Definition SBX_TCB_INFO_URL : string := "https://sbx.api.trustedservices.intel.com/tdx/certification/v4/tcb".
Definition QE_IDENTITY_URL : string := "https://api.trustedservices.intel.com/tdx/certification/v4/qe/identity?update=".
Definition SBX_QE_IDENTITY_URL : string := "https://sbx.api.trustedservices.intel.com/tdx/certification/v4/qe/identity?update=".

Definition PRODUCTION_POLICY_GUID : string := "F65CD566-4D67-45EF-88E3-79963901B292".
Definition PRE_PRODUCTION_POLICY_GUID : string := "B87BFE45-9CC7-46F9-8F2C-A6CB55BF7101".

Section generate.
(** The status and the body for an address, and the readers of bodies (fmspc and platform
    of a list). *)
Context (fetch_data_from_url : string → option (Z * bytes)).
Context (json_fmspcs : bytes → option (list (string * string))) (json_platform_tcb : bytes → option PlatformTcb)
        (json_qe_info : bytes → option EnclaveIdentity).
Context (for_production : bool).

Definition fetch_fmspc_list : GResult (list (string * string)) :=
  r ← or_err (fetch_data_from_url (if for_production then FMSPC_LIST_URL else SBX_FMSPC_LIST_URL)) tt;
  if r.1 =? 200 then or_err (json_fmspcs r.2) tt else Err tt.

Definition get_all_e5_platform (l : list (string * string)) : list (string * string) := filter (λ p, p.2 = "E5"%string) l.

Definition fetch_platform_tcb (fmspc : string) : GResult (option PlatformTcb) :=
  let url := ((if for_production then TCB_INFO_URL else SBX_TCB_INFO_URL) +:+ "?fmspc=" +:+ fmspc)%string in
  r ← or_err (fetch_data_from_url url) tt;
  if r.1 =? 200 then tcb ← or_err (json_platform_tcb r.2) tt; Ok (Some tcb) else Ok None.

(** The blocks and the TCB of each platform that was answered for. *)
Definition get_platform_info : GResult (list RawBlock * list PlatformTcb) :=
  l ← fetch_fmspc_list;
  results ← collect (λ p : string * string, fetch_platform_tcb p.1) (get_all_e5_platform l);
  let tcbs := omap (λ r, r) results in
  platforms ← collect PlatformPolicy_new tcbs;
  Ok (platforms, tcbs).

Definition fetch_qe_identity : GResult EnclaveIdentity :=
  r ← or_err (fetch_data_from_url (if for_production then QE_IDENTITY_URL else SBX_QE_IDENTITY_URL)) tt;
  if r.1 =? 200 then or_err (json_qe_info r.2) tt else Err tt.

Definition get_qe_identity : GResult RawBlock :=
  qe_info ← fetch_qe_identity;
  isvsvn ← first (qe_tcb_levels qe_info);
  Ok (QePolicy_new (miscselect qe_info) (qe_attributes qe_info) (qe_mrsigner qe_info) (isvprodid qe_info) isvsvn).

(** The requests for platforms and enclave are joined. *)
Definition generate_policy : GResult (string * list RawBlock) :=
  info ← get_platform_info;
  qe_identity ← get_qe_identity;
  tdx_module ← TdxModulePolicy_new info.2;
  Ok (if for_production then PRODUCTION_POLICY_GUID else PRE_PRODUCTION_POLICY_GUID,
      info.1 ++ [qe_identity] ++ tdx_module ++ [MigTdInfoPolicy_default]).
End generate.
