(* ===== verification/PolicyGenSpec.v ===== *)
(** * PolicyGenSpec: what a generated policy accepts

    The document of the generator (PolicyGen) is read by the migration TD (PolicyV1), and
    accepts the peers with at least the newest security versions the service named. *)
From stdpp Require Import base tactics numbers option strings list list_numbers sets.
From S2P Require Import Prelude EventLog PolicyV2 MigPolicy PolicyV1 PolicyV1Spec PolicyGen.
Local Open Scope Z_scope.

(** ** Modules *)

(** A module of the list: version, security version, identity. *)
Record Module_ := mkModule { mo_major : Z; mo_svn : Z; mo_identity : TdxModuleIdentity }.

Definition module_block (m : Module_) : RawBlock := TdxModule_block (mo_major m) (mo_svn m) (mo_identity m).

Definition describes (i : TdxModuleIdentity) (m : Module_) : Prop :=
  mo_identity m = i ∧ tdx_module_major_version_mapping (tm_id i) = Ok (mo_major m) ∧ head (tm_tcb_levels i) = Some (mo_svn m).

(** The blocks: one for each version, for the first module that has it. *)
Record module_list (l : list TdxModuleIdentity) (ms : list Module_) : Prop := {
  ml_distinct : NoDup (mo_major <$> ms);
  ml_from : ∀ m, m ∈ ms → ∃ i before after, l = before ++ i :: after ∧ describes i m ∧
    ∀ j, j ∈ before → tdx_module_major_version_mapping (tm_id j) ≠ Ok (mo_major m);
  ml_all : ∀ i, i ∈ l → ∃ v, tdx_module_major_version_mapping (tm_id i) = Ok v ∧ v ∈ mo_major <$> ms }.

Lemma module_list_keep l ms i v : module_list l ms → tdx_module_major_version_mapping (tm_id i) = Ok v → v ∈ mo_major <$> ms → module_list (l ++ [i]) ms.
Proof.
  intros [H1 H2 H3] Hv Hi. split; [done| |].
  - intros m Hm. destruct (H2 m Hm) as (j & b & a & -> & Hd & Hb). exists j, b, (a ++ [i]). by rewrite <-app_assoc.
  - intros j [Hj|Hj%list_elem_of_singleton]%elem_of_app; [by apply H3|]. subst j. by exists v.
Qed.

Lemma module_list_add l ms i v s : module_list l ms → tdx_module_major_version_mapping (tm_id i) = Ok v → v ∉ mo_major <$> ms →
  head (tm_tcb_levels i) = Some s → module_list (l ++ [i]) (ms ++ [mkModule v s i]).
Proof.
  intros [H1 H2 H3] Hv Hi Hs. split.
  - rewrite fmap_app. apply NoDup_app. split_and!; [done|set_solver|apply NoDup_singleton].
  - intros m [Hm|Hm%list_elem_of_singleton]%elem_of_app.
    + destruct (H2 m Hm) as (j & b & a & -> & Hd & Hb). exists j, b, (a ++ [i]). by rewrite <-app_assoc.
    + subst m. exists i, l, []. split_and!; [done|done|]. intros j Hj. destruct (H3 j Hj) as (w & Hw & Hin). cbn. intros E. apply Hi. congruence.
  - intros j [Hj|Hj%list_elem_of_singleton]%elem_of_app.
    + destruct (H3 j Hj) as (w & Hw & Hin). exists w. split; [done|]. rewrite fmap_app. set_solver.
    + subst j. exists v. split; [done|]. rewrite fmap_app. set_solver.
Qed.

Lemma modules_loop_spec l seen acc prev ms r : module_list prev ms → acc = module_block <$> ms → (∀ v, v ∈ seen ↔ v ∈ mo_major <$> ms) →
  modules_loop seen acc l = Ok r → ∃ ms', module_list (prev ++ l) ms' ∧ r.2 = module_block <$> ms' ∧ (∀ v, v ∈ r.1 ↔ v ∈ mo_major <$> ms').
Proof.
  revert seen acc prev ms. induction l as [|i l IH]; intros seen acc prev ms Hm -> Hs; cbn [modules_loop].
  - intros [= <-]. exists ms. by rewrite app_nil_r.
  - destruct (tdx_module_major_version_mapping (tm_id i)) as [v|e|] eqn:Ev; cbn [mbind outcome_bind]; [|done..].
    replace (prev ++ i :: l) with ((prev ++ [i]) ++ l) by (by rewrite <-app_assoc). case_bool_decide as Hv.
    + apply (IH _ _ _ ms); [|done|done]. eapply module_list_keep; [done..|]. by apply Hs.
    + destruct (tm_tcb_levels i) as [|s levels] eqn:El; [done|]. cbn [first mbind outcome_bind]. apply (IH _ _ _ (ms ++ [mkModule v s i])).
      * apply module_list_add; [done|done| |by rewrite El]. by rewrite <-Hs.
      * by rewrite fmap_app.
      * intros w. rewrite fmap_app. specialize (Hs w). set_solver.
Qed.

Lemma platforms_loop_spec l seen acc prev ms r : module_list prev ms → acc = module_block <$> ms → (∀ v, v ∈ seen ↔ v ∈ mo_major <$> ms) →
  platforms_loop seen acc l = Ok r → ∃ ms', module_list (prev ++ concat (tdx_module_identities <$> l)) ms' ∧ r.2 = module_block <$> ms'.
Proof.
  revert seen acc prev ms. induction l as [|t l IH]; intros seen acc prev ms Hm Ha Hs; cbn [platforms_loop].
  - intros [= <-]. exists ms. by rewrite app_nil_r.
  - destruct (modules_loop seen acc (tdx_module_identities t)) as [[seen' acc']|e|] eqn:E; cbn [mbind outcome_bind]; [|done..].
    destruct (modules_loop_spec _ _ _ _ _ _ Hm Ha Hs E) as (ms' & Hm' & Ha' & Hs'). rewrite fmap_cons. cbn [concat]. rewrite app_assoc. by apply (IH _ _ _ ms').
Qed.

(** There is a block for every version, for the first module that has it. *)
Theorem generated_modules tcbs bs : TdxModulePolicy_new tcbs = Ok bs →
  ∃ ms, module_list (concat (tdx_module_identities <$> tcbs)) ms ∧ bs = module_block <$> ms.
Proof.
  unfold TdxModulePolicy_new. destruct (platforms_loop [] [] tcbs) as [r|e|] eqn:E; cbn [mbind outcome_bind]; [|done..]. intros [= <-].
  destruct (platforms_loop_spec tcbs [] [] [] [] r) as (ms & Hm & Hr); [|done|done|done|by exists ms].
  split; [constructor|by intros m ?%not_elem_of_nil|by intros m ?%not_elem_of_nil].
Qed.

(** ** Reading the document *)

Definition u8s (l : list Z) : Prop := forallb (between 0 255) l = true.

(** Text that is neither "self" nor a range. *)
Definition plain (s : string) : Prop := parse_str s = Ref.String s.

Definition platform_map (t : Tcb) : PropertyMap :=
  [("pcesvn", mkProp Operation.GreaterOrEqual (Ref.Integer (pcesvn t)));
   ("sgxtcbcomponents", mkProp Operation.ArrayGreaterOrEqual (Ref.Array (sgxtcbcomponents t)));
   ("tdxtcbcomponents", mkProp Operation.ArrayGreaterOrEqual (Ref.Array (tdxtcbcomponents t)))]%string.

Definition qe_map (q : EnclaveIdentity) (svn : Z) : PropertyMap :=
  [("ATTRIBUTES", mkProp Operation.Equal (Ref.String (qe_attributes q))); ("ISVPRODID", mkProp Operation.Equal (Ref.Integer (isvprodid q)));
   ("ISVSVN", mkProp Operation.GreaterOrEqual (Ref.Integer svn)); ("MISCSELECT", mkProp Operation.Equal (Ref.String (miscselect q)));
   ("MRSIGNER", mkProp Operation.Equal (Ref.String (qe_mrsigner q)))]%string.

Definition module_map (m : Module_) : PropertyMap :=
  [("ATTRIBUTES", mkProp Operation.Equal (Ref.String (tm_attributes (mo_identity m))));
   ("MRSIGNERSEAM", mkProp Operation.Equal (Ref.String (tm_mrsigner (mo_identity m))));
   ("TDXModuleMajorVersion", mkProp Operation.Equal (Ref.Integer (mo_major m)));
   ("TDXModuleSVN", mkProp Operation.GreaterOrEqual (Ref.Integer (mo_svn m)))]%string.

Definition same (n : string) : string * Property := (n, mkProp Operation.Equal Ref.Local).

Definition migtd_map : PropertyMap :=
  same <$> ["ATTRIBUTES"; "MRCONFIGID"; "MROWNER"; "MROWNERCONFIG"; "MRTD"; "RTMR0"; "RTMR1"; "RTMR2"; "RTMR3"; "XFAM"]%string.
Definition events_map : PropertyMap := same <$> ["Digest.MigTdPolicy"; "Digest.MigTdSgxRootKey"]%string.

Lemma platform_reads p t b : head (tcb_levels p) = Some t → u8s (sgxtcbcomponents t) → u8s (tdxtcbcomponents t) → PlatformPolicy_new p = Ok b →
  Policy_deserialize b = Some (Platform (tcb_fmspc p) (platform_map t)).
Proof.
  intros Hh Hs Ht. unfold PlatformPolicy_new. destruct (tcb_levels p) as [|t' l]; [done|]. injection Hh as ->. intros [= <-].
  unfold Policy_deserialize, platform_deserialize. cbn [rb_fmspc rb_platform mbind option_bind map_deserialize].
  unfold Property_deserialize. cbn [raw_operation raw_reference all_at_least at_least Reference_deserialize]. rewrite Hs, Ht. reflexivity.
Qed.

Lemma qe_reads q svn : plain (miscselect q) → plain (qe_attributes q) → plain (qe_mrsigner q) →
  Policy_deserialize (QePolicy_new (miscselect q) (qe_attributes q) (qe_mrsigner q) (isvprodid q) svn) = Some (Qe (qe_map q svn)).
Proof.
  intros H1 H2 H3. unfold Policy_deserialize, platform_deserialize, qe_deserialize, QePolicy_new. cbn [rb_fmspc rb_qe mbind option_bind map_deserialize].
  unfold Property_deserialize. cbn [raw_operation raw_reference equal_to equal_number at_least Reference_deserialize]. rewrite H1, H2, H3. reflexivity.
Qed.

Lemma module_reads m : plain (tm_mrsigner (mo_identity m)) → plain (tm_attributes (mo_identity m)) →
  Policy_deserialize (module_block m) = Some (TdxModule (module_map m)).
Proof.
  intros H1 H2. unfold Policy_deserialize, platform_deserialize, qe_deserialize, tdx_module_deserialize, module_block, TdxModule_block.
  cbn [rb_fmspc rb_qe rb_tdx_module mbind option_bind map_deserialize].
  unfold Property_deserialize. cbn [raw_operation raw_reference equal_to equal_number at_least Reference_deserialize]. rewrite H1, H2. reflexivity.
Qed.

Lemma migtd_reads : Policy_deserialize MigTdInfoPolicy_default = Some (Migtd migtd_map (Some events_map)).
Proof. vm_compute. reflexivity. Qed.

(** ** What the blocks ask for *)

Section meaning.
Context (is_src : bool) (local peer : bytes).

(** At least the newest versions of the platform. *)
Definition platform_ok (t : Tcb) : Prop :=
  Forall2 Z.le (sgxtcbcomponents t) (sub peer (608, 624)) ∧ pcesvn t <= le_val (sub peer (606, 608)) ∧
  Forall2 Z.le (tdxtcbcomponents t) (sub peer (590, 606)).

Definition module_ok (m : Module_) : Prop :=
  le_val (sub peer (624, 625)) = mo_major m ∧ mo_svn m <= le_val (sub peer (625, 626)) ∧
  bytes_to_hex_string (sub peer (64, 112)) = tm_mrsigner (mo_identity m) ∧ bytes_to_hex_string (sub peer (112, 120)) = tm_attributes (mo_identity m).

Definition qe_ok (q : EnclaveIdentity) (svn : Z) : Prop :=
  bytes_to_hex_string (sub peer (626, 630)) = miscselect q ∧ bytes_to_hex_string (sub peer (634, 650)) = qe_attributes q ∧
  bytes_to_hex_string (sub peer (698, 730)) = qe_mrsigner q ∧ le_val (sub peer (730, 732)) = isvprodid q ∧ svn <= le_val (sub peer (732, 734)).

(** The two are the same migration TD. *)
Definition same_td : Prop :=
  zip_with Z.land (sub peer (120, 128)) MIGTD_ATTRIBUTES_MASK = zip_with Z.land (sub local (120, 128)) MIGTD_ATTRIBUTES_MASK ∧
  zip_with Z.land (sub peer (128, 136)) MIGTD_XFAM_MASK = zip_with Z.land (sub local (128, 136)) MIGTD_XFAM_MASK ∧
  ∀ r, r ∈ [(136, 184); (184, 232); (232, 280); (280, 328); (328, 376); (376, 424); (424, 472); (472, 520)] → sub peer r = sub local r.

Lemma named_holds t n a l p : value_of t local n = Some l → value_of t peer n = Some p →
  (∃ v, both t local peer n = Ok v ∧ holds a is_src v.1 v.2) ↔ holds a is_src l p.
Proof. unfold both. intros -> ->. split; [by intros (? & [= <-] & ?)|by exists (l, p)]. Qed.

Lemma sub_small r : r.2 - r.1 <= 8 → small (sub peer r).
Proof. intros Hr. unfold small, sub, lenz. rewrite length_take. lia. Qed.

Lemma platform_meaning t : qualified is_src local peer platform_table (platform_map t) ↔ platform_ok t.
Proof.
  unfold platform_map. rewrite !qualified_cons. rewrite !named_holds by reflexivity. unfold platform_ok, holds. cbn [prop_reference prop_operation under].
  pose proof (sub_small (606, 608) ltac:(cbn; lia)). pose proof (qualified_nil is_src local peer platform_table). tauto.
Qed.

Lemma module_meaning m : qualified is_src local peer tdx_module_table (module_map m) ↔ module_ok m.
Proof.
  unfold module_map. rewrite !qualified_cons. rewrite !named_holds by reflexivity. unfold module_ok, holds. cbn [prop_reference prop_operation under].
  pose proof (sub_small (624, 625) ltac:(cbn; lia)). pose proof (sub_small (625, 626) ltac:(cbn; lia)). pose proof (qualified_nil is_src local peer tdx_module_table). tauto.
Qed.

Lemma qe_meaning q svn : qualified is_src local peer qe_table (qe_map q svn) ↔ qe_ok q svn.
Proof.
  unfold qe_map. rewrite !qualified_cons. rewrite !named_holds by reflexivity. unfold qe_ok, holds. cbn [prop_reference prop_operation under].
  pose proof (sub_small (730, 732) ltac:(cbn; lia)). pose proof (sub_small (732, 734) ltac:(cbn; lia)). pose proof (qualified_nil is_src local peer qe_table). tauto.
Qed.

Lemma td_meaning : qualified is_src local peer migtd_table migtd_map ↔ same_td.
Proof.
  unfold migtd_map. cbn [fmap list_fmap]. unfold same. rewrite !qualified_cons. rewrite !named_holds by reflexivity. unfold holds. cbn [prop_reference prop_operation under].
  pose proof (qualified_nil is_src local peer migtd_table). unfold same_td. rewrite <-Forall_forall, !Forall_cons. pose proof (Forall_nil (λ r, sub peer r = sub local r)). tauto.
Qed.

Context (events events_peer : EventMap).

(** The digest of an event of both sides, or its data. *)
Definition same_event (n : EventName.t) : Prop := event_holds is_src events events_peer n (mkProp Operation.Equal Ref.Local).

Lemma events_meaning : events_qualified is_src events events_peer events_map ↔ same_event EventName.MigTdPolicy ∧ same_event EventName.SgxRootKey.
Proof.
  unfold events_qualified, events_map. cbn [fmap list_fmap]. unfold same, same_event. split.
  - intros H. split; [apply (H "Digest.MigTdPolicy"%string)|apply (H "Digest.MigTdSgxRootKey"%string)]; set_solver.
  - intros [H1 H2] n a. rewrite !elem_of_cons. intros [[= -> ->]|[[= -> ->]|?%not_elem_of_nil]]; [by split|by split|done].
Qed.
End meaning.

(** ** The whole policy *)

Section generated.
Context (fetch : string → option (Z * bytes)).
Context (json_fmspcs : bytes → option (list (string * string))) (json_platform_tcb : bytes → option PlatformTcb) (json_qe_info : bytes → option EnclaveIdentity).

(** Components are bytes, and the texts of the service are hexadecimal. *)
Context (Htcb : ∀ b p, json_platform_tcb b = Some p → Forall (λ t, u8s (sgxtcbcomponents t) ∧ u8s (tdxtcbcomponents t)) (tcb_levels p) ∧
  Forall (λ i, plain (tm_mrsigner i) ∧ plain (tm_attributes i)) (tdx_module_identities p) ∧ tcb_fmspc p ≠ "self"%string).
Context (Hqe : ∀ b q, json_qe_info b = Some q → plain (miscselect q) ∧ plain (qe_attributes q) ∧ plain (qe_mrsigner q)).

(** What the service answered for. *)
Record answers (prod : bool) (platforms : list (PlatformTcb * Tcb)) (q : EnclaveIdentity) (svn : Z) (ms : list Module_) : Prop := {
  an_platforms : ∃ l results, fetch_fmspc_list fetch json_fmspcs prod = Ok l ∧
    collect (λ p : string * string, fetch_platform_tcb fetch json_platform_tcb prod p.1) (get_all_e5_platform l) = Ok results ∧
    platforms.*1 = omap (λ r, r) results;
  an_newest : Forall (λ p, head (tcb_levels p.1) = Some p.2) platforms;
  an_qe : fetch_qe_identity fetch json_qe_info prod = Ok q ∧ head (qe_tcb_levels q) = Some svn;
  an_modules : module_list (concat (tdx_module_identities <$> platforms.*1)) ms }.

(** The blocks of the policy. *)
Definition policy_blocks (platforms : list (PlatformTcb * Tcb)) (q : EnclaveIdentity) (svn : Z) (ms : list Module_) : list Policy :=
  ((λ p, Platform (tcb_fmspc p.1) (platform_map p.2)) <$> platforms) ++ [Qe (qe_map q svn)] ++ (TdxModule ∘ module_map <$> ms) ++
  [Migtd migtd_map (Some events_map)].

(** The platforms that were answered for were read from answers. *)
Lemma fetched_read prod l results p :
  collect (λ p : string * string, fetch_platform_tcb fetch json_platform_tcb prod p.1) l = Ok results → p ∈ omap (λ r, r) results →
  ∃ b, json_platform_tcb b = Some p.
Proof.
  rewrite collect_Ok. intros H (r & Hr & Hp)%list_elem_of_omap. cbn in Hp. subst r. apply list_elem_of_lookup in Hr as [i Hi].
  destruct (Forall2_lookup_r _ _ _ _ _ H Hi) as (x & _ & Hx). revert Hx. unfold fetch_platform_tcb. cbv zeta.
  destruct (fetch _) as [[code body]|]; cbn [or_err mbind outcome_bind fst snd]; [|done]. destruct (code =? 200); [|done].
  destruct (json_platform_tcb body) as [t|] eqn:E; [|done]. cbn. intros [= <-]. by exists body.
Qed.

(** Each platform with its newest level. *)
Lemma platform_blocks tcbs bs : (∀ p, p ∈ tcbs → ∃ b, json_platform_tcb b = Some p) → collect PlatformPolicy_new tcbs = Ok bs →
  ∃ platforms, platforms.*1 = tcbs ∧ Forall (λ p : PlatformTcb * Tcb, head (tcb_levels p.1) = Some p.2) platforms ∧
    mapM Policy_deserialize bs = Some ((λ p, Platform (tcb_fmspc p.1) (platform_map p.2)) <$> platforms).
Proof.
  rewrite collect_Ok. intros Hr H. induction H as [|p b tcbs bs Hb _ IH]; [by exists []|].
  destruct IH as (ps & E & Hn & Hm); [intros; apply Hr; by right|]. destruct (Hr p) as [body Hj]; [left|]. destruct (Htcb body p Hj) as (Hl & _).
  destruct (tcb_levels p) as [|t levels] eqn:Et; [unfold PlatformPolicy_new in Hb; by rewrite Et in Hb|]. apply Forall_cons in Hl as [[Hs Hd] _].
  exists ((p, t) :: ps). split_and!; [cbn; by rewrite E|constructor; [cbn; by rewrite Et|done]|].
  apply mapM_Some. rewrite fmap_cons. constructor; [|by apply mapM_Some]. apply (platform_reads p t b); [by rewrite Et|done..].
Qed.

Lemma module_blocks_read l ms : module_list l ms → Forall (λ i, plain (tm_mrsigner i) ∧ plain (tm_attributes i)) l →
  mapM Policy_deserialize (module_block <$> ms) = Some (TdxModule ∘ module_map <$> ms).
Proof.
  intros [_ Hf _] Hp. assert (∀ m, m ∈ ms → Policy_deserialize (module_block m) = Some (TdxModule (module_map m))) as H.
  { intros m Hm. destruct (Hf m Hm) as (i & b & a & -> & (<- & _) & _). rewrite Forall_forall in Hp. apply module_reads; apply Hp; set_solver. }
  clear Hf. apply mapM_Some. induction ms as [|m ms IH]; [constructor|]. rewrite !fmap_cons. constructor; [apply H; left|]. apply IH. intros; apply H; by right.
Qed.

(** The document is read as the blocks of what the service answered. *)
Lemma generated_reads prod id doc : generate_policy fetch json_fmspcs json_platform_tcb json_qe_info prod = Ok (id, doc) →
  ∃ platforms q svn ms, answers prod platforms q svn ms ∧ mapM Policy_deserialize doc = Some (policy_blocks platforms q svn ms) ∧
    Forall (λ p, tcb_fmspc p.1 ≠ "self"%string) platforms.
Proof.
  unfold generate_policy, get_platform_info, get_qe_identity. intros (info & (l & Hl & (results & Hres & (blocks & Hb & [= <-])%bind_Ok)%bind_Ok)%bind_Ok & H)%bind_Ok.
  apply bind_Ok in H as (qe & (q & Hq & (svn & Hsvn & [= <-])%bind_Ok)%bind_Ok & (modules & Hm & [= <- <-])%bind_Ok). cbn [fst snd] in *.
  assert (∀ p, p ∈ omap (λ r, r) results → ∃ b, json_platform_tcb b = Some p) as Hread by (intros p; by eapply fetched_read).
  destruct (platform_blocks _ _ Hread Hb) as (platforms & E & Hn & Hp). destruct (generated_modules _ _ Hm) as (ms & Hms & ->).
  assert (head (qe_tcb_levels q) = Some svn) as Hh by (destruct (qe_tcb_levels q); [done|by injection Hsvn as ->]).
  exists platforms, q, svn, ms. split_and!.
  - split; [by exists l, results|done|done|by rewrite E].
  - assert (∃ b, json_qe_info b = Some q) as [b Hj].
    { revert Hq. unfold fetch_qe_identity. destruct (fetch _) as [[code body]|]; [|done]. cbn [or_err mbind outcome_bind fst snd].
      destruct (code =? 200); [|done]. destruct (json_qe_info body) as [q'|] eqn:Ej; [|done]. intros [= <-]. by exists body. }
    destruct (Hqe b q Hj) as (P1 & P2 & P3). unfold policy_blocks. apply mapM_Some. apply Forall2_app; [by apply mapM_Some|].
    constructor; [by apply qe_reads|]. apply Forall2_app; [|constructor; [apply migtd_reads|constructor]]. apply mapM_Some.
    eapply module_blocks_read; [done|]. apply Forall_concat, Forall_fmap, Forall_forall. intros p Hin. destruct (Hread p Hin) as [body Hbody].
    by destruct (Htcb body p Hbody) as (_ & ? & _).
  - apply Forall_forall. intros [p t] Hin. cbn. destruct (Hread p) as [body Hbody]; [rewrite <-E; apply list_elem_of_fmap; by exists (p, t)|].
    by destruct (Htcb body p Hbody) as (_ & _ & ?).
Qed.

(** *** Accepted peers *)

Section accepted.
Context (platforms : list (PlatformTcb * Tcb)) (q : EnclaveIdentity) (svn : Z) (ms : list Module_) (gid : bytes).
Context (Hself : Forall (λ p : PlatformTcb * Tcb, tcb_fmspc p.1 ≠ "self"%string) platforms).

Definition generated : MigPolicy := mkMigPolicy gid (policy_blocks platforms q svn ms).

Definition platform_names : list (string * PropertyMap) := (λ p, (tcb_fmspc p.1, platform_map p.2)) <$> platforms.

Lemma generated_platforms : get_platform_info_policy generated = platform_names.
Proof.
  unfold get_platform_info_policy, generated, policy_blocks, platform_names. cbn [blocks]. rewrite !omap_app. cbn [omap list_omap].
  assert (omap (λ b, match b with Platform f t => Some (f, t) | _ => None end) (TdxModule ∘ module_map <$> ms) = []) as -> by (by induction ms).
  rewrite app_nil_r. clear Hself. by induction platforms as [|p l IH]; [|rewrite !fmap_cons; cbn [omap list_omap]; rewrite <-IH].
Qed.

Lemma generated_named local : modules_named local generated.
Proof.
  intros m n a Hm Hn. unfold generated, policy_blocks in Hm. cbn [blocks] in Hm.
  assert (∃ x, m = module_map x) as [x ->].
  { rewrite !elem_of_app, !list_elem_of_fmap in Hm. destruct Hm as [(? & ? & _)|[?%list_elem_of_singleton|[(x & [= ->] & _)|?%list_elem_of_singleton]]]; try done. by exists x. }
  unfold module_map in Hn. rewrite !elem_of_cons in Hn. destruct Hn as [[= -> ->]|[[= -> ->]|[[= -> ->]|[[= -> ->]|?%not_elem_of_nil]]]]; [(eexists; reflexivity)..|done].
Qed.

Lemma in_platforms (x : Policy) : x ∈ (λ p : PlatformTcb * Tcb, Platform (tcb_fmspc p.1) (platform_map p.2)) <$> platforms → ∃ f m, x = Platform f m.
Proof. intros (p & -> & _)%list_elem_of_fmap. eauto. Qed.

(** The first platform that is named as the peer's. *)
Definition peer_platform (peer : bytes) (t : Tcb) : Prop :=
  ∃ before x after, platforms = before ++ (x, t) :: after ∧ tcb_fmspc x = bytes_to_hex_string (sub peer (584, 590)) ∧
    tcb_fmspc x ∉ (λ p : PlatformTcb * Tcb, tcb_fmspc p.1) <$> before.

Lemma platform_found local peer m : platform_block local peer platform_names m ↔ ∃ t, peer_platform peer t ∧ m = platform_map t.
Proof.
  unfold platform_block, platform_names. cbv zeta. split.
  - intros [[E _]|[_ (b & a & E & Hb)]].
    { destruct platforms as [|p [|? ?]]; try done. injection E as E1 _. apply Forall_cons in Hself as [Hs _]. done. }
    apply fmap_app_inv in E as (l1 & l2 & E1 & E2 & E3). destruct l2 as [|[x t] l2]; [done|]. rewrite fmap_cons in E2. injection E2 as Ex Em Ea.
    exists t. split; [|done]. exists l1, x, l2. split_and!; [done|done|]. cbn in Ex. rewrite <-Ex. rewrite E1 in Hb. by rewrite <-list_fmap_compose in Hb.
  - intros (t & (b & x & a & E & Hx & Hb) & ->). right. split.
    { intros (m' & Em). destruct platforms as [|p [|? ?]]; try done. injection Em as E1 _. apply Forall_cons in Hself as [Hs _]. done. }
    exists ((λ p, (tcb_fmspc p.1, platform_map p.2)) <$> b), ((λ p, (tcb_fmspc p.1, platform_map p.2)) <$> a). rewrite <-Hx. split; [by rewrite E, fmap_app|].
    by rewrite <-list_fmap_compose.
Qed.

(** A generated policy accepts the peers whose platform has at least the newest versions,
    whose TDX module is one of the list with at least its version, whose quoting enclave is
    the one of the service, and which run the same migration TD with the same policy and
    root key. *)
Lemma generated_accepts is_src local peer events events_peer :
  accepts is_src local peer events events_peer generated ↔
  (lenz local = REPORT_DATA_SIZE ∧ lenz peer = REPORT_DATA_SIZE) ∧ (∃ t, peer_platform peer t ∧ platform_ok peer t) ∧
  (ms = [] ∨ ∃ m, m ∈ ms ∧ module_ok peer m) ∧ qe_ok peer q svn ∧ same_td local peer ∧
  same_event is_src events events_peer EventName.MigTdPolicy ∧ same_event is_src events events_peer EventName.SgxRootKey.
Proof.
  assert (∀ m, TdxModule m ∈ blocks generated ↔ ∃ x, x ∈ ms ∧ m = module_map x) as Hm.
  { intros m. unfold generated, policy_blocks. cbn [blocks]. rewrite !elem_of_app. split.
    - intros [(? & ? & ?)%in_platforms|[?%list_elem_of_singleton|[(x & [= ->] & ?)%list_elem_of_fmap|?%list_elem_of_singleton]]]; try done. by exists x.
    - intros (x & Hx & ->). right. right. left. apply list_elem_of_fmap. by exists x. }
  assert (∀ m, Qe m ∈ blocks generated ↔ m = qe_map q svn) as Hq'.
  { intros m. unfold generated, policy_blocks. cbn [blocks]. rewrite !elem_of_app. split.
    - intros [(? & ? & ?)%in_platforms|[[= ->]%list_elem_of_singleton|[(x & ? & _)%list_elem_of_fmap|?%list_elem_of_singleton]]]; done.
    - intros ->. right. left. by apply list_elem_of_singleton. }
  assert (∀ m e, Migtd m e ∈ blocks generated ↔ m = migtd_map ∧ e = Some events_map) as Ht.
  { intros m e. unfold generated, policy_blocks. cbn [blocks]. rewrite !elem_of_app. split.
    - intros [(? & ? & ?)%in_platforms|[?%list_elem_of_singleton|[(x & ? & _)%list_elem_of_fmap|[= -> ->]%list_elem_of_singleton]]]; done.
    - intros [-> ->]. right. right. right. by apply list_elem_of_singleton. }
  split.
  - intros [H1 (m & Hpm & Hqm) H3 H4 H5]. rewrite generated_platforms, (platform_found local) in Hpm. destruct Hpm as (t & Ht' & ->).
    destruct (H5 migtd_map (Some events_map)) as [H6 H7]; [by apply Ht|]. destruct H1 as [? ?]. split_and!; [done|done|..].
    + exists t. split; [done|]. by apply (platform_meaning is_src local).
    + destruct H3 as [H3|(m & Hin & Hq3)]; [left; destruct ms as [|x l]; [done|]; exfalso; apply (H3 (module_map x)), Hm; exists x; split; [left|done]|].
      right. apply Hm in Hin as (x & Hx & ->). exists x. split; [done|]. by apply (module_meaning is_src local).
    + apply (qe_meaning is_src local). by apply H4, Hq'.
    + by apply (td_meaning is_src).
    + by apply (events_meaning is_src), H7.
    + by apply (events_meaning is_src), H7.
  - intros (H1 & (t & Hpt & Hok) & H3 & H4 & H5 & H6 & H7). split; [done|..].
    + exists (platform_map t). rewrite generated_platforms, (platform_found local). split; [by exists t|]. by apply platform_meaning.
    + destruct H3 as [->|(x & Hx & Hmo)]; [left|right]; [intros m (? & ?%not_elem_of_nil & _)%Hm; done|].
      exists (module_map x). split; [apply Hm; by exists x|]. by apply module_meaning.
    + intros m ->%Hq'. by apply qe_meaning.
    + intros m e [-> ->]%Ht. split; [by apply td_meaning|]. intros m' [= <-]. by apply events_meaning.
Qed.
End accepted.

(** C27 The check of the migration TD with a generated policy: a text that is read as the
    document makes it accept exactly these peers. *)
Theorem generated_policy_exact `{J : PolicyV1Json} feature_log prod id doc text s gid :
  generate_policy fetch json_fmspcs json_platform_tcb json_qe_info prod = Ok (id, doc) →
  from_utf8 text = Some s → json_document (trim_nul s) = Some (id, doc) → guid_from_str id = Some gid →
  ∃ platforms q svn ms, answers prod platforms q svn ms ∧
    ∀ is_src local peer events events_peer,
      verify_policy feature_log is_src text local events peer events_peer = Ok tt ↔
      (lenz local = REPORT_DATA_SIZE ∧ lenz peer = REPORT_DATA_SIZE) ∧ (∃ t, peer_platform platforms peer t ∧ platform_ok peer t) ∧
      (ms = [] ∨ ∃ m, m ∈ ms ∧ module_ok peer m) ∧ qe_ok peer q svn ∧ same_td local peer ∧
      same_event is_src events events_peer EventName.MigTdPolicy ∧ same_event is_src events events_peer EventName.SgxRootKey.
Proof.
  intros (platforms & q & svn & ms & Ha & Hm & Hself)%generated_reads Hs Hdoc Hid. exists platforms, q, svn, ms. split; [done|]. intros is_src local peer events events_peer.
  rewrite <-(generated_accepts platforms q svn ms gid Hself). rewrite verify_policy_eq.
  assert (read_policy text = Some (generated platforms q svn ms gid)) as ->.
  { unfold read_policy, MigPolicy_deserialize. rewrite Hs. cbn [mbind option_bind]. rewrite Hdoc. cbn [mbind option_bind fst snd]. rewrite Hid. cbn [mbind option_bind].
    by rewrite Hm. }
  split.
  - destruct (_ || _); [done|]. destruct (Z.eqb_spec (lenz local) REPORT_DATA_SIZE), (Z.eqb_spec (lenz peer) REPORT_DATA_SIZE); cbn [andb]; try done.
    by apply evaluation_sound.
  - intros Hacc. destruct (acc_lengths _ _ _ _ _ _ Hacc) as [-> ->]. cbn. apply evaluation_complete; [apply generated_named|done].
Qed.
End generated.

(** ** A concrete service *)

Module GenSample.
Definition level (n : Z) : Tcb := mkTcb (replicate 16 n) n (replicate 16 n).
Definition tdx1 : TdxModuleIdentity := mkModuleIdentity "TDX_01" "00" "00" [4; 2].
Definition tdx3 : TdxModuleIdentity := mkModuleIdentity "TDX_03" "0A" "00" [6].
Definition tcb1 : PlatformTcb := mkPlatformTcb "B0C06F000000" [tdx1; tdx3] [level 5; level 3].
Definition tcb2 : PlatformTcb := mkPlatformTcb "90C06F000000" [tdx3; tdx1] [level 7].
Definition qe : EnclaveIdentity := mkEnclaveIdentity "00000000" "11" "DC" 2 [4; 3].

(** The first byte of a body says what it is. *)
Definition fetch (url : string) : option (Z * bytes) :=
  if bool_decide (url = FMSPC_LIST_URL) then Some (200, [0])
  else if bool_decide (url = QE_IDENTITY_URL) then Some (200, [1])
  else if bool_decide (url = "https://api.trustedservices.intel.com/tdx/certification/v4/tcb?fmspc=B0C06F000000"%string) then Some (200, [2])
  else if bool_decide (url = "https://api.trustedservices.intel.com/tdx/certification/v4/tcb?fmspc=90C06F000000"%string) then Some (200, [3])
  else Some (404, []).

Definition fmspcs (b : bytes) : option (list (string * string)) :=
  Some [("00906ED50000", "client"); ("B0C06F000000", "E5"); ("90C06F000000", "E5"); ("A0C06F000000", "E5")]%string.
Definition platform_tcb (b : bytes) : option PlatformTcb := if bool_decide (b = [2]) then Some tcb1 else if bool_decide (b = [3]) then Some tcb2 else None.
Definition qe_info (b : bytes) : option EnclaveIdentity := Some qe.

Definition made : string * list RawBlock := Eval vm_compute in
  match generate_policy fetch fmspcs platform_tcb qe_info true with Ok d => d | _ => (""%string, []) end.

#[local] Instance json : PolicyV1Json := { json_document _ := Some made; guid_from_str _ := Some (zeros 16) }.

Lemma made_run : generate_policy fetch fmspcs platform_tcb qe_info true = Ok (made.1, made.2).
Proof. vm_compute. reflexivity. Qed.

(** One block for each of the two modules, although both platforms name them. *)
Lemma made_blocks : length made.2 = 6%nat ∧ omap rb_fmspc made.2 = ["B0C06F000000"; "90C06F000000"]%string.
Proof. vm_compute. done. Qed.

Lemma platform_tcb_ok b p : platform_tcb b = Some p → Forall (λ t, u8s (sgxtcbcomponents t) ∧ u8s (tdxtcbcomponents t)) (tcb_levels p) ∧
  Forall (λ i, plain (tm_mrsigner i) ∧ plain (tm_attributes i)) (tdx_module_identities p) ∧ tcb_fmspc p ≠ "self"%string.
Proof. unfold platform_tcb. repeat case_bool_decide; intros [= <-]; (split_and!; [repeat constructor..|done]). Qed.

Lemma qe_info_ok b q : qe_info b = Some q → plain (miscselect q) ∧ plain (qe_attributes q) ∧ plain (qe_mrsigner q).
Proof. intros [= <-]. done. Qed.

Lemma generated_policy_exact_witness : ∃ platforms q svn ms, answers fetch fmspcs platform_tcb qe_info true platforms q svn ms ∧
  ∀ is_src local peer events events_peer,
    verify_policy false is_src (as_bytes "{}") local events peer events_peer = Ok tt ↔
    (lenz local = REPORT_DATA_SIZE ∧ lenz peer = REPORT_DATA_SIZE) ∧ (∃ t, peer_platform platforms peer t ∧ platform_ok peer t) ∧
    (ms = [] ∨ ∃ m, m ∈ ms ∧ module_ok peer m) ∧ qe_ok peer q svn ∧ same_td local peer ∧
    same_event is_src events events_peer EventName.MigTdPolicy ∧ same_event is_src events events_peer EventName.SgxRootKey.
Proof.
  apply (generated_policy_exact fetch fmspcs platform_tcb qe_info platform_tcb_ok qe_info_ok false true made.1 made.2 (as_bytes "{}") "{}"%string (zeros 16) made_run); reflexivity.
Defined.
End GenSample.
